(* ===== verification/_CoqProject ===== *)
-Q . S2P
Prelude.v
Store.v
Badger.v
StoreProps.v
FileMode.v
FreeList.v
Attr.v
NodeService.v
Tree.v
TreeInv.v
NodeRefine.v
NodeRename.v
NodeSim.v
NodeRmdir.v
NodeTheorems.v
NodeBehaviour.v
NodeSetattr.v
NodeLocks.v
Interval.v
IntervalProps.v
Hash.v
Block.v
SlotPool.v
MetaStore.v
BlockMap.v
Cluster.v
VolumeMeta.v
Slot.v
Engine.v
Volume.v
VolumeProps.v
StorageBackend.v
GoSlice.v
DataNode.v
DataNodeProps.v
Gateway.v
GatewayProps.v
GatewayServers.v
NodeStart.v
NodeStartProps.v
WriteCh.v
MemBlock.v
FileBlock.v
FileBlockProps.v
Uploader.v
UploaderProps.v
PageWriter.v
DirtyBuffer.v
Throttler.v
ReadBuffer.v
ReadBufferProps.v
Tcp.v
TcpProps.v
VfsFs.v
FileHandle.v
MetaClient.v
Vfs.v
VfsInv.v
VfsRun.v
VfsOps.v
VfsProps.v
Mount.v
MountProps.v
MountFile.v
