(* ===== verification/Prelude.v ===== *)
(** * HugoFS: a verification development

    HugoFS is a distributed file system in Go.  Clients mount it through FUSE;
    a metadata server keeps the inode tree, the block map and the cluster's
    nodes in a key-value store; storage nodes keep the file contents as blocks
    addressed by their SHA-256 digest, in volumes of the local disk that are
    copied to an object store.  Clients reach the
    blocks through a gateway, which writes a block to several nodes and records
    where it is.  This library translates the servers, the gateway, the transport
    and the client, from the kernel's requests down to the blocks in its memory,
    into Rocq definitions, file by file and function by function, and proves what
    makes them correct.  Names are the names of the source; paths
    below are relative to src/.

    ** How the code is represented

    A Go function is a definition of the monad [M S E A] of this file: it
    receives a state, returns a value, an error or a panic ([outcome]), and
    leaves a state also when it fails, since Go keeps the writes made before an
    error.  [catch] is the [v, err := f()] form, [deref] a dereference that
    panics on nil.  Calls that may never return give the error [Blocked] of
    Volume.v or [Diverges] of Vfs.v.  An object with fields and a store is [object] of MetaStore.v.
    Integers of a width are N or Z with [wrap32], [wrap64], [to_int] and
    [to_uint64], and Z with [int64], where the source can overflow; float64 is the Standard
    Library's [spec_float] at 53 bits.  Maps are [gmap]; where the source ranges
    over a map the order is an argument, assumed only to be a permutation.
    JSON values are the [blob]s of Store.v.  A slice is a list where nobody else holds
    its array.  Where that matters the array is there: the slice that the goroutines
    of a read append to (GoSlice.v), the keys badger's iterator may use again while a
    deletion holds them ([Iter_Reuse], [Txn_Rekey] of Badger.v), and the array that
    a block in memory shares with the backend it was read from ([sb_Array] of
    StorageBackend.v, [shared] of MemBlock.v; [OwnReads] is a backend that does not
    share).

    Third-party code is a class with the behaviour its documentation states,
    and a reference instance shows that the class can be satisfied: badger
    ([Badger], [BadgerSpec], [MemBadger] in Badger.v), afero ([Fs], [FsSpec],
    [MemFs] in Engine.v), the bitmap encoding ([BitmapCodec], [RefBitmapCodec]
    in Slot.v), the LRU caches ([Lru] in Volume.v and, with its laws, in
    Throttler.v), the object store ([CloudKV] in DataNode.v) and JSON texts
    ([Json], [JsonSpec], [Json_number] in Tcp.v and TcpProps.v; [VolumeCodec] in
    VolumeMeta.v).  Parts of the program that meet at an interface of the source
    meet at a class here: [Store], [StorageBackend], [MetaServiceClient],
    [StorageServers], [MetaServer], each with its laws, which the implementation
    is proved to satisfy.

    ** Files

    - Prelude.v: outcomes, the monad, machine integers, decimal numbers and
      generic lemmas.
    - Store.v: pkg/store/store.go and txn.go, the [Store] interface as a class
      and the generic helpers over it.  Badger.v: pkg/store/store_badger.go and
      txn_badger.go, the backend over a badger.  StoreProps.v: the backend over
      any conforming badger simulates the backend over the reference badger
      ([badger_backend_sim]), deletions of buckets apart, which may lose a key;
      transactions are atomic, listings are exact.
    - Attr.v, NodeService.v: pkg/meta/inode (attr.go, entry.go, helper.go,
      cntl.go, service.go), every RPC handler with its transaction.  Tree.v: the
      specification, a tree of nodes and entries with one operation per
      handler.  TreeInv.v: the invariant of the tree and its preservation.
      NodeRefine.v, NodeRename.v, NodeSim.v, NodeRmdir.v: each handler over the
      reference badger does what its tree operation says, and the handlers
      cannot tell conforming badgers apart.  NodeTheorems.v, NodeBehaviour.v,
      NodeSetattr.v, NodeLocks.v: the theorems on handlers, attributes and locks;
      NodeSetattr.v specifies an update of attributes field by field.
    - FileMode.v: pkg/util/fs.go, pkg/util/context.go and global/const.go, mode
      words and the caller's identity.  FreeList.v: pkg/util/freelist.
    - Interval.v, IntervalProps.v: pkg/storage/adaptor/interval.go, the linked
      list of written ranges as a heap of nodes, with its loops on pointers.
    - Hash.v: SHA-256, CRC-32 and hexadecimal, executable.  Block.v:
      pkg/storage/block/block.go.  SlotPool.v: pkg/util/mem/slot_pool.go.
    - MetaStore.v: objects over a store, lawful serializers, and what saving and
      loading do over any conforming badger.  BlockMap.v:
      pkg/meta/storage_meta/block_map/block_map.go.  Cluster.v:
      pkg/meta/cluster and global/fn.go.  VolumeMeta.v:
      pkg/meta/storage_meta (volume/volume.go, service.go, heartbeat), the
      volumes and the service over them and the block map.
    - Slot.v: pkg/storage/volume/slot.go.  Engine.v: pkg/storage/engine.
      Volume.v, VolumeProps.v: the local physical volume of pkg/storage/volume
      (physical_local.go, physical_volume.go, evit_block.go, messenger.go,
      lru.go).  DataNode.v, DataNodeProps.v: the storage node of
      pkg/storage/node (service.go, volume_selector.go, s3_syncer.go).  GoSlice.v:
      the steps of Go's append on a slice that several goroutines share.
    - StorageBackend.v: the interface of pkg/storage/adaptor to a store of blocks,
      its laws [BackendSpec], and the backend in memory.  Gateway.v: pkg/storage/
      gateway (metaproxy.go, selector.go, connector.go, coordinator.go).
      GatewayProps.v: the gateway is such a backend, over servers that keep their
      promises.  GatewayServers.v: the services of this library keep them.
      WriteCh.v: writech.go, the channel of asynchronous writes, as a transition
      system.
    - NodeStart.v, NodeStartProps.v: the life of a storage node (pkg/storage/node,
      node.go, volume.go and config.go): starting, mounting volumes, starting again.
    - MemBlock.v, FileBlock.v, FileBlockProps.v: blocks of a file in the client's
      memory and in its swap file (pkg/hugofs/vfs/buffer/block and page).
      Uploader.v, UploaderProps.v: the upload pipeline (uploader.go) with its
      goroutines as a schedule.  PageWriter.v: dirty_page.go, page_writter.go and
      the access patterns.  DirtyBuffer.v: rwbuffer_mem.go.  Throttler.v: lru.go,
      pubsub.go and throttler.go.  ReadBuffer.v, ReadBufferProps.v: rbuffer.go.
      FileHandle.v: rwbuffer_direct.go and pkg/hugofs/vfs/handle_file.go.
    - Tcp.v, TcpProps.v: pkg/tcp, frames over a stream the network cuts as it
      likes, the client's table of calls and the server's loop.
    - VfsFs.v, Vfs.v: the client's requests and attributes (pkg/hugofs/vfs/fs.go,
      attr.go) and its cached tree of directories and files (dir.go, file.go,
      vfs.go, handle_dir.go), nodes in a heap that point to each other.
      MetaClient.v: what the client relies on as the class [MetaSpec], and the
      inode service as an instance of it.  VfsInv.v: when a cache agrees with a
      tree.  VfsRun.v, VfsOps.v: what reading, creating and removing do on such a
      cache.  VfsProps.v: the theorems.
    - Mount.v, MountProps.v: pkg/hugofs/mount (node.go, fs.go, check.go, context.go,
      stream.go), the requests of the kernel on inodes.  MountFile.v: file.go, open
      files and locks.

    ** What the theorems show

    - The inode service implements a tree: every handler returns and stores what
      the tree operation of the same purpose says, on every branch
      ([CreateInode_implements], [Link_implements], [DeleteInode_implements],
      [DeleteDirInode_implements], [Rename_implements],
      [UpdateInodeAttr_implements], with [UpdateInodeAttr_sets] on what the fields
      of the attributes become and for whom, [Lookup_implements],
      [ListItemUnderInode_exact]), and the trees that creations, links, unlinks,
      attribute updates and renames to free names reach are well formed with
      exact link counts ([reachable_tree_inv], where [reachable] states the
      restrictions).
    - A storage node implements a map from digests to data
      ([Node_implements]; a read of several blocks as long as its goroutines do not
      append at the same time, see [Read_loses_block]), which survives a restart
      ([Node_survives]), by the theorems on its layers: the engine is a map
      from slots to blocks ([Engine_implements]), the slot table is a map that
      survives a restart ([Occupy_implements], [NewSlot_restores],
      [Next_least]), a volume stores, counts and announces blocks
      ([WriteBlock_stores]).
    - The client's cache agrees with the tree of the service in every state it
      reaches by looking up, listing, creating, linking and removing
      ([client_coherent]), so that paths resolve as in that tree
      ([Stat_resolves]), listings are exact ([ReadDirAll_exact]), and what was
      made or removed is then found or not ([Mkdir_then_Stat],
      [Remove_then_Stat]).  It is proved against [MetaSpec], which the inode
      service satisfies.  The kernel gets the same answers ([Lookup_exact],
      [Mkdir_then_Lookup], [Readdir_exact]).
    - The gateway is a map from blocks of files to data over the storage nodes and
      the metadata server of this library ([Gateway_implements],
      [gw_WriteAt_overlays]), its caches agree with the metadata
      ([updateCacheInternal_coherent]), and no asynchronous write is lost or done
      twice ([WriteCh_conserves]).
    - What a client writes reaches the backend and is read back.  A block in memory
      and one in the swap file are their bytes with the written ranges
      ([MemBlock_implements], [FileBlock_implements]), blocks of the swap file
      never overlap ([SwapFile_isolates]), the pipeline stores every open block
      under every schedule ([UploadPipeline_implements], [UploadPipeline_streams],
      [AddPage_as_WriteAt]), tokens are conserved ([Throttler_conserves]), reads are
      exact ([Read_exact], [fuse_Read_exact]), and the two halves compose
      ([upload_then_read]).
    - A call over a connection that stays open, cut in any way that leaves headers
      whole, runs its service at most once and ends at most once with what that run
      returned ([Rpc_exact]); whatever the server does, the client ends each call at
      most once ([Client_conserves]); and frames survive such a cutting
      ([Tcp_round_trip]).
    - The store layer: simulation, atomicity, round trips.  The block map and
      the cluster service are maps over it ([BlockMap_implements],
      [AddStorageNode_joins]).
    - The interval list keeps disjoint sorted ranges and the last write wins
      ([AddInterval_overrides]); headers, attributes, entries and mode words
      survive encoding; the buffer pool hands out buffers of the size asked for.
    - Where the code does not do what it means to, a theorem says what it does
      instead, for all inputs of the case or in an example: [rmdir_orphans],
      [commit_conflict_lost], [GetFileLock_drops_live_lock],
      [DeleteInoBlockMap_first_only], [add_after_merge_overlaps],
      [Occupy_wraps], [WriteBlock_full_hangs],
      [CleanInvalidBlock_destroys_slot0], [RecycleSpace_loses_block],
      [Read_loses_block], [DeleteByBucket_leaves_key], [Destroy_clears_storage],
      [restart_shares_directory],
      [moveTo_deadlocks], [rename_refused_reports_ok],
      [rename_onto_cached_stale], [File_rename_deferred], [gw_WriteAt_locks_out],
      [error_stops_channel], [flushed_block_loses_writes], [ReadAt_partial_hangs],
      [FlushAll_skips_swap_file], [UnRegister_strands], [Read_stale],
      [WriteAt_shrinks_file], [fuse_Read_hides_failure], [Setlk_always_granted],
      [header_cut_misread] and others.

    ** Fuel

    Loops of the source that are not structural take fuel.  [doDeleteDir]
    recurses on a depth; its theorem holds for every depth above 0, since the
    code never recurses twice.  The loops on pointers of Interval.v run on the
    number of nodes of the heap, and [AddInterval_overrides] states that they
    return.  [Next_loop] and [wait_slot] model loops that may run for ever:
    [Next_least] gives the result with any positive fuel when a slot is free and
    none with any fuel when none is, and [WriteBlock_full_hangs] holds for every
    fuel.  A path of the client is computed with the length of its heap as fuel,
    which is enough for every reached directory ([reach_depth]); the recursion
    over the cached tree takes a depth, and [moveTo_deadlocks] holds for every
    depth.  The loops that cut data at block or page boundaries consume at least
    one byte a round, so the length of the data is enough, and the theorems on them
    hold for any fuel from there on; [ReadAt_partial_hangs] holds for every fuel.
    The pipeline takes a schedule, the choices of which goroutine runs next: its
    theorems say that under every schedule a call has ended with its result or still
    waits, and that every schedule can go on so that the call ends.

    ** What is not modelled

    Mounting and signals (pkg/hugofs/mount/mount.go), the cache of dirty pages with
    its timers (vfs/buffer/cache.go), which nothing uses, and the debug option by
    which a handle writes local files; the processes that start the servers,
    apart from what a storage node does when it starts, and join them to gRPC, consul,
    raft and tracing; the clients of object stores and of
    tikv, which only call libraries; events; the commands of cmd/, configuration,
    logging and generated code.  These are calls of third-party services or of the
    operating system with no state of their own that the parts above depend on.
    Concurrency is modelled where a result depends on it: the loop and the
    goroutines of a node's read with their appends, the goroutines of the upload pipeline, of
    the channel of writes and of the transport, the jobs of the object syncer that
    have been started and not run, the lock of the eviction list that is not
    released, the messages a volume sends to its node, the locks of the
    client's nodes that a goroutine takes twice.  Handlers otherwise run one
    after the other.  The client is the only one that changes the tree; changes
    of other clients reach it when a listing has expired, and are not covered by
    [client_coherent]. *)
From Stdlib Require Import Ascii DecimalString DecimalN DecimalFacts.
From stdpp Require Import prelude gmap strings list fin_maps.

#[global] Arguments String.append : simpl nomatch.

Declare Scope go_scope.
Delimit Scope go_scope with go.

(** * Outcomes of Go calls and the state monad *)

(** A Go call returns a value, returns a non-nil error, or panics (nil
    dereference, index out of range, explicit [panic]). *)
Inductive outcome (E A : Type) : Type :=
| Ok (a : A)
| Err (e : E)
| Panic.
Arguments Ok {E A} a.
Arguments Err {E A} e.
Arguments Panic {E A}.

Definition is_ok {E A} (o : outcome E A) : bool :=
  match o with Ok _ => true | _ => false end.

(** Stateful code: the state is threaded also through errors and panics, since
    Go keeps the mutations made before them. *)
Definition M (S E A : Type) : Type := S -> outcome E A * S.

Definition ret {S E A} (a : A) : M S E A := fun s => (Ok a, s).
Definition throw {S E A} (e : E) : M S E A := fun s => (Err e, s).
Definition go_panic {S E A} : M S E A := fun s => (Panic, s).
Definition bind {S E A B} (m : M S E A) (k : A -> M S E B) : M S E B :=
  fun s => match m s with
           | (Ok a, s') => k a s'
           | (Err e, s') => (Err e, s')
           | (Panic, s') => (Panic, s')
           end.

(** Run [m] and hand its result to the continuation, error included: the
    [v, err := f()] form of the code.  A panic still propagates. *)
Definition catch {S E A B} (m : M S E A) (k : A + E -> M S E B) : M S E B :=
  fun s => match m s with
           | (Ok a, s') => k (inl a) s'
           | (Err e, s') => k (inr e) s'
           | (Panic, s') => (Panic, s')
           end.
Definition gets {S E A} (f : S -> A) : M S E A := fun s => (Ok (f s), s).
Definition modify {S E} (f : S -> S) : M S E unit := fun s => (Ok tt, f s).

(** Dereference of a possibly nil pointer. *)
Definition deref {S E A} (p : option A) : M S E A :=
  match p with Some a => ret a | None => go_panic end.

(** Calls that touch no state. *)
Definition obind {E A B} (o : outcome E A) (k : A -> outcome E B) : outcome E B :=
  match o with Ok a => k a | Err e => Err e | Panic => Panic end.
Definition oderef {E A} (p : option A) : outcome E A :=
  match p with Some a => Ok a | None => Panic end.
Definition pure {S E A} (o : outcome E A) : M S E A := fun s => (o, s).

Notation "x <~ o ;; k" := (obind o (fun x => k))
  (at level 100, o at next level, right associativity) : go_scope.
Notation "x <- m ;; k" := (bind m (fun x => k))
  (at level 100, m at next level, right associativity) : go_scope.
Notation "m ;;; k" := (bind m (fun _ => k))
  (at level 100, right associativity) : go_scope.
Notation "r <-? m ;; k" := (catch m (fun r => k))
  (at level 100, m at next level, right associativity) : go_scope.
Open Scope go_scope.

(** * Machine integers *)

Definition wrap32 (n : N) : N := (n mod 2 ^ 32)%N.
Definition wrap64 (n : N) : N := (n mod 2 ^ 64)%N.
(** [x + 1] and [x - 1] on uint32. *)
Definition incr32 (n : N) : N := wrap32 (n + 1).
Definition decr32 (n : N) : N := wrap32 (n + (2 ^ 32 - 1)).

(** [int(n)] of a uint64 and [uint64(z)] of an int. *)
Definition to_int (n : N) : Z := ((Z.of_N n + 2 ^ 63) mod 2 ^ 64 - 2 ^ 63)%Z.
Definition to_uint64 (z : Z) : N := Z.to_N (z mod 2 ^ 64).
(** What int64 arithmetic makes of an exact result. *)
Definition int64 (z : Z) : Z := ((z + 2 ^ 63) mod 2 ^ 64 - 2 ^ 63)%Z.

(** * Strings *)

(** [fmt.Sprintf("%d", n)] for an unsigned n. *)
Definition itoa (n : N) : string := NilEmpty.string_of_uint (N.to_uint n).

(** [%d] of an int64. *)
Definition itoaZ (z : Z) : string :=
  if (z <? 0)%Z then ("-" +:+ itoa (Z.to_N (- z)))%string else itoa (Z.to_N z).

Fixpoint has_char (c : ascii) (s : string) : bool :=
  match s with
  | EmptyString => false
  | String a s' => bool_decide (a = c) || has_char c s'
  end.

(** [strings.HasPrefix(s, p)]. *)
Fixpoint has_prefix (p s : string) : bool :=
  match p, s with
  | EmptyString, _ => true
  | String a p', String b s' => bool_decide (a = b) && has_prefix p' s'
  | String _ _, EmptyString => false
  end.

(** [strings.TrimPrefix(s, p)]. *)
Fixpoint drop_str (n : nat) (s : string) : string :=
  match n, s with
  | O, _ => s
  | S n', String _ s' => drop_str n' s'
  | S _, EmptyString => EmptyString
  end.
Definition trim_prefix (s p : string) : string :=
  if has_prefix p s then drop_str (String.length p) s else s.

(** [strings.TrimSuffix(s, "/")]. *)
Fixpoint trim_suffix_char (c : ascii) (s : string) : string :=
  match s with
  | EmptyString => EmptyString
  | String a EmptyString => if bool_decide (a = c) then EmptyString else s
  | String a s' => String a (trim_suffix_char c s')
  end.

(** [strings.Cut(s, sep)] for a one-byte separator: the parts before and after
    its first occurrence, the whole string and "" when there is none. *)
Fixpoint cut (sep : ascii) (s : string) : string * string :=
  match s with
  | EmptyString => (EmptyString, EmptyString)
  | String a s' =>
      if bool_decide (a = sep) then (EmptyString, s')
      else let '(x, y) := cut sep s' in (String a x, y)
  end.

(** The value [strconv.ParseUint(s, 10, 64)] returns: 0 on a syntax error, the
    largest uint64 when out of range. *)
Definition parse_uint64 (s : string) : N :=
  match NilEmpty.uint_of_string s with
  | Some d => let n := N.of_uint d in
              if (n <? 2 ^ 64)%N then n else (2 ^ 64 - 1)%N
  | None => 0%N
  end.

(** Byte-wise lexicographic order, the order of badger's keys and of Go's [<=]
    on strings. *)
Fixpoint str_leb (s t : string) : bool :=
  match s, t with
  | EmptyString, _ => true
  | String _ _, EmptyString => false
  | String a s', String b t' =>
      (N_of_ascii a <? N_of_ascii b)%N || (bool_decide (a = b) && str_leb s' t')
  end.
Definition str_le (s t : string) : Prop := str_leb s t = true.

#[export] Instance str_le_dec s t : Decision (str_le s t).
Proof. unfold str_le. apply _. Defined.

(** * Shared tactics and hints *)

Create HintDb go discriminated.

(** Case analysis on the first match or [if] of a hypothesis or the goal,
    closing the impossible cases. *)
Ltac go_case :=
  match goal with
  | H : context [ match ?x with _ => _ end ] |- _ =>
      let E := fresh "E" in destruct x eqn:E; simplify_eq/=
  | |- context [ match ?x with _ => _ end ] =>
      let E := fresh "E" in destruct x eqn:E; simplify_eq/=
  end.
Ltac go_cases := repeat go_case.

(** * Lemmas *)

Lemma obind_Ok {E A B} (o : outcome E A) (k : A -> outcome E B) b :
  obind o k = Ok b -> exists a, o = Ok a /\ k a = Ok b.
Proof. destruct o; simpl; [eauto|done..]. Qed.

Lemma bind_ok {S E A B} (m : M S E A) (k : A -> M S E B) s a s' :
  m s = (Ok a, s') -> bind m k s = k a s'.
Proof. intros H. unfold bind. by rewrite H. Qed.
Lemma bind_err {S E A B} (m : M S E A) (k : A -> M S E B) s e s' :
  m s = (Err e, s') -> bind m k s = (Err e, s').
Proof. intros H. unfold bind. by rewrite H. Qed.

Lemma has_prefix_spec p s : has_prefix p s = true <-> exists r, s = (p +:+ r)%string.
Proof.
  split.
  - revert s. induction p as [|a p IH]; intros s H; simpl in *; [by eexists|].
    destruct s as [|b s]; [done|].
    apply andb_true_iff in H as [->%bool_decide_eq_true_1 H].
    destruct (IH _ H) as [r ->]. by exists r.
  - intros [r ->]. induction p as [|a p IH]; simpl; [done|].
    rewrite bool_decide_true by done. done.
Qed.

Lemma has_prefix_app p s : has_prefix p (p +:+ s)%string = true.
Proof. apply has_prefix_spec. by eexists. Qed.

Lemma drop_str_app p s : drop_str (String.length p) (p +:+ s)%string = s.
Proof. induction p as [|a p IH]; simpl; auto. Qed.

Lemma trim_prefix_app p s : trim_prefix (p +:+ s)%string p = s.
Proof. unfold trim_prefix. by rewrite has_prefix_app, drop_str_app. Qed.

Lemma str_app_assoc (a b c : string) : ((a +:+ b) +:+ c = a +:+ (b +:+ c))%string.
Proof. induction a as [|x a IH]; simpl; [done|]. by rewrite IH. Qed.

Lemma str_length_app (a b : string) :
  String.length (a +:+ b)%string = (String.length a + String.length b)%nat.
Proof. induction a as [|x a IH]; simpl; [done|]. by rewrite IH. Qed.

Lemma str_app_cons c (a b : string) : (String c a +:+ b = String c (a +:+ b))%string.
Proof. done. Qed.

Lemma str_app_snoc_cons (s : string) c :
  exists x r, (s +:+ String c "")%string = String x r.
Proof. destruct s as [|x s]; eauto. Qed.

Lemma str_app_inj_l (a x y : string) : (a +:+ x)%string = (a +:+ y)%string -> x = y.
Proof. induction a as [|c a IH]; simpl; intros; simplify_eq; auto. Qed.

Lemma has_char_app c a b :
  has_char c (a +:+ b)%string = has_char c a || has_char c b.
Proof. induction a as [|x a IH]; simpl; [done|]. by rewrite IH, orb_assoc. Qed.

(** Two strings cut at a separator their first parts do not hold are equal only
    if both parts are. *)
Lemma sep_inj sep a b x y :
  has_char sep a = false -> has_char sep b = false ->
  (a +:+ String sep x)%string = (b +:+ String sep y)%string -> a = b /\ x = y.
Proof.
  revert b. induction a as [|c a IH]; intros [|d b] Ha Hb Heq; simpl in *; simplify_eq;
    try (rewrite bool_decide_true in * by done; done); [done|].
  apply orb_false_iff in Ha as [_ Ha]. apply orb_false_iff in Hb as [_ Hb].
  destruct (IH b Ha Hb) as [-> ->]; auto.
Qed.

Lemma cut_app sep a b : has_char sep a = false -> cut sep (a +:+ String sep b)%string = (a, b).
Proof.
  induction a as [|c a IH]; simpl; intros H.
  - by rewrite bool_decide_true.
  - apply orb_false_iff in H as [Hc H]. by rewrite Hc, IH.
Qed.

Lemma string_of_uint_inj d e :
  NilEmpty.string_of_uint d = NilEmpty.string_of_uint e -> d = e.
Proof.
  intros H. apply (f_equal NilEmpty.uint_of_string) in H.
  rewrite !NilEmpty.usu in H. congruence.
Qed.

Lemma itoa_inj m n : itoa m = itoa n -> m = n.
Proof. intros H%string_of_uint_inj. by apply DecimalN.Unsigned.to_uint_inj. Qed.

Lemma string_of_uint_no_char c d :
  (N_of_ascii c < 48)%N -> has_char c (NilEmpty.string_of_uint d) = false.
Proof.
  intros Hc. induction d; simpl; [done|..]; rewrite IHd, orb_false_r;
    apply bool_decide_eq_false_2; intros <-; vm_compute in Hc; done.
Qed.

Lemma itoa_no_char c n : (N_of_ascii c < 48)%N -> has_char c (itoa n) = false.
Proof. apply string_of_uint_no_char. Qed.

Lemma itoa_no_slash n : has_char "/"%char (itoa n) = false.
Proof. by apply itoa_no_char. Qed.

Lemma itoa_no_comma n : has_char ","%char (itoa n) = false.
Proof. by apply itoa_no_char. Qed.
#[export] Hint Resolve itoa_no_slash itoa_no_comma : go.

Lemma int64_small z : (- 2 ^ 63 <= z < 2 ^ 63)%Z -> int64 z = z.
Proof. intros H. unfold int64. rewrite Z.mod_small; lia. Qed.
Lemma to_int_small n : (n < 2 ^ 63)%N -> to_int n = Z.of_N n.
Proof. intros H. unfold to_int. rewrite Z.mod_small; lia. Qed.

Lemma itoaZ_of_N n : itoaZ (Z.of_N n) = itoa n.
Proof. unfold itoaZ. rewrite (proj2 (Z.ltb_ge _ _)) by lia. by rewrite N2Z.id. Qed.

Lemma itoa_cons n : exists c r, itoa n = String c r.
Proof.
  pose proof (DecimalN.Unsigned.of_to n) as H. revert H. unfold itoa.
  destruct n as [|p]; [by eexists _, _|].
  destruct (N.to_uint (N.pos p)); intros H; [discriminate H|by eexists _, _..].
Qed.

Lemma itoa_ne n : itoa n <> ""%string.
Proof. destruct (itoa_cons n) as (c & r & ->). done. Qed.

Lemma parse_itoa n : (n < 2 ^ 64)%N -> parse_uint64 (itoa n) = n.
Proof.
  intros H. unfold parse_uint64, itoa. rewrite NilEmpty.usu.
  rewrite DecimalN.Unsigned.of_to. cbv zeta. by rewrite (proj2 (N.ltb_lt _ _) H).
Qed.

Lemma str_leb_refl s : str_leb s s = true.
Proof.
  induction s as [|a s IH]; simpl; [done|].
  rewrite bool_decide_true, IH by done. by rewrite orb_true_r.
Qed.

(** The keys that start with [p] are contiguous in the byte order. *)
Lemma has_prefix_between p s t :
  str_leb p s = true -> str_leb s t = true -> has_prefix p t = true ->
  has_prefix p s = true.
Proof.
  revert s t. induction p as [|a p IH]; intros s t Hps Hst Ht; [done|].
  destruct s as [|b s], t as [|c t]; simpl in *; try done.
  apply andb_true_iff in Ht as [->%bool_decide_eq_true_1 Ht].
  apply orb_true_iff in Hps as [Hlt%N.ltb_lt|[->%bool_decide_eq_true_1 Hps]%andb_true_iff];
    apply orb_true_iff in Hst as [Hlt'%N.ltb_lt|[Heq%bool_decide_eq_true_1 Hst]%andb_true_iff];
    subst; try lia.
  rewrite bool_decide_true by done. simpl. eauto.
Qed.

Lemma has_prefix_leb p s : has_prefix p s = true -> str_leb p s = true.
Proof.
  revert s. induction p as [|a p IH]; intros [|b s] H; simpl in *; try done.
  apply andb_true_iff in H as [->%bool_decide_eq_true_1 H].
  rewrite bool_decide_true, (IH _ H) by done. by rewrite orb_true_r.
Qed.

(** A string that does not end in [c] is unchanged by trimming. *)
Lemma trim_suffix_char_id c s a :
  a <> c -> trim_suffix_char c (s +:+ String a "")%string = (s +:+ String a "")%string.
Proof.
  intros Ha. induction s as [|b s IH]; simpl.
  - by rewrite bool_decide_false.
  - destruct (str_app_snoc_cons s a) as (x & r & E).
    rewrite E in *. by rewrite IH.
Qed.

Lemma trim_suffix_char_snoc c s : trim_suffix_char c (s +:+ String c "")%string = s.
Proof.
  induction s as [|b s IH]; simpl.
  - by rewrite bool_decide_true.
  - destruct (str_app_snoc_cons s c) as (x & r & E).
    rewrite E in *. by rewrite IH.
Qed.

Lemma trim_suffix_char_app c p s :
  s <> ""%string -> has_char c s = false ->
  trim_suffix_char c (p +:+ s)%string = (p +:+ s)%string.
Proof.
  intros Hs Hc. induction p as [|b p IH]; simpl.
  - revert Hs Hc. induction s as [|a s IH]; intros Hs Hc; [done|].
    simpl in Hc. apply orb_false_iff in Hc as [Ha Hc].
    destruct s as [|b s]; simpl; [by rewrite Ha|]. f_equal. by apply IH.
  - rewrite IH. destruct (p +:+ s)%string eqn:E; [|done].
    destruct p; simpl in E; [subst; done|discriminate].
Qed.

(** * Lists *)

Lemma list_filter_none {A} (P : A -> Prop) `{!forall x, Decision (P x)} (l : list A) :
  (forall x, x ∈ l -> ~ P x) -> filter P l = [].
Proof.
  induction l as [|x l IH]; intros Hn; [done|].
  rewrite filter_cons_False by (apply Hn; by left). apply IH. intros y Hy. apply Hn. by right.
Qed.
