(* ===== verification/Store.v ===== *)
(** The store package (src/pkg/store/store.go): the errors, the [Store] interface
    every backend implements, the [Serializer] interface of the values kept in
    it, and the generic helpers the services call (get, save, delete by key or
    prefix, batches, transactions). *)
From Stdlib Require Import SpecFloat.
From stdpp Require Import prelude gmap strings list fin_maps.
From S2P Require Import Prelude.

(** * Errors *)

(** The gRPC status codes the services return. *)
Inductive code := NotFound | Internal | InvalidArgument | Unknown | Aborted.

(** The [syscall.Errno] values the services return. *)
Inductive errno :=
| EPERM | ENOENT | EACCES | EEXIST | ENOTDIR | EINVAL | ENOTSUP | ENOTEMPTY.

(** Error values, up to their text.  [Wrapped] is [fmt.Errorf("...%w", err)]. *)
Inductive error :=
| ErrNilSerializer
| ErrEmptyKey
| ErrEmptyPrefix
| ErrNotFound
| ErrKeyEqPrefix
| BadgerErrKeyNotFound
| BadgerErrEmptyKey
| BadgerErrConflict
| BadgerErrSequence
| ErrJson
| ErrUnknownArg
| ErrOther (msg : string)
| Status (c : code)
| Errno (e : errno)
| Wrapped (e : error).

#[export] Instance code_eq_dec : EqDecision code.
Proof. solve_decision. Defined.
#[export] Instance errno_eq_dec : EqDecision errno.
Proof. solve_decision. Defined.
#[export] Instance error_eq_dec : EqDecision error.
Proof. solve_decision. Defined.

(** [errors.Is(err, target)]. *)
Fixpoint errors_Is (err target : error) : bool :=
  bool_decide (err = target) ||
  match err with Wrapped e => errors_Is e target | _ => false end.

(** * Stored values *)

(** A JSON object as encoding/json reads and writes it, up to white space: the
    stored structs have integer, float64, string and number list fields, pointers
    to numbers, which may be null, and structs of strings only. *)
Inductive jvalue :=
| JNull
| JNum (z : Z)
| JReal (f : spec_float)
| JStr (s : string)
| JArr (l : list N)
| JObj (l : list (string * string)).
Definition json := list (string * jvalue).

(** What a key holds: a JSON object, an array of objects, the bytes another codec
    wrote, or the counter badger keeps under a sequence's key. *)
Inductive blob :=
| BJson (j : json)
| BArr (l : list json)
| BBytes (b : list N)
| BSeq (n : N).

(** * Interfaces *)

(** [Serializer[T]] (store.go:291).  The Before/After hooks are left out: every
    implementation takes those of [UnimplementedSerializer], which return nil. *)
Class Serializer (T : Type) := {
  FormatKey : T -> string;
  FormatPrefix : T -> string;
  Serialize : T -> blob + error;
  Deserialize : blob -> T + error;
}.

(** A key-value pair of a batch ([store.Entry], store.go:286). *)
Record kv := KV { kv_Key : string; kv_Value : blob }.

(** [Store] and [Transaction] (store.go:262, txn.go:41).  A state [S] holds the
    store and the transaction of the current context, if there is one; [Begin]
    puts a new transaction into the context, [Commit] and [Rollback] end it. *)
Class Store (S : Type) := {
  Save : string -> blob -> M S error unit;
  Get : string -> M S error blob;
  Scan : string -> string -> string -> M S error (list kv);
  Delete : string -> M S error unit;
  GetByBucket : string -> M S error (gmap string blob);
  DeleteByBucket : string -> M S error unit;
  Incr : string -> N -> M S error N;
  BatchSave : bool -> list kv -> M S error unit;
  BatchDeleteByKey : bool -> list string -> M S error unit;
  Cleanup : M S error unit;
  Begin : S -> S;
  Commit : S -> option error * S;
  Rollback : S -> S;
}.

(** The interface functions of [LossySerializer] (store.go:341). *)
Record lossy := Lossy { lossy_Serialize : blob + error; lossy_FormatKey : string }.

Definition to_lossy {T} `{Serializer T} (x : T) : lossy :=
  {| lossy_Serialize := Serialize x; lossy_FormatKey := FormatKey x |}.

(** * Generic helpers *)

Section helpers.
Context {S : Type} `{Store S}.
Context {T : Type} `{Serializer T}.

(** A serializer is an interface value, nil when absent. *)
Definition serializer := option T.

(** [SerializerBuilder[T]]. *)
Definition builder : Type := serializer + error.

(** A sum returned by a pure call, raised as the Go error it is. *)
Definition lift {A} (r : A + error) : M S error A :=
  match r with inl a => ret a | inr e => throw e end.

(** [DoInTxn]: the deferred function rolls back when the callback returned an
    error and commits otherwise, a panicking callback included; the error of
    [Commit] is dropped. *)
Definition DoInTxn {A} (cb : M S error A) : M S error A := fun s =>
  match cb (Begin s) with
  | (Err e, s') => (Err e, Rollback s')
  | (r, s') => (r, (Commit s').2)
  end.

Definition DoGetValueByKey (ser : serializer) : M S error T :=
  match ser with
  | None => throw ErrNilSerializer
  | Some x =>
      let key := FormatKey x in
      if bool_decide (key = ""%string) then throw ErrEmptyKey
      else if bool_decide (key = FormatPrefix x) then throw ErrKeyEqPrefix
      else buf <- Get key ;; lift (Deserialize buf)
  end.

Definition GetValueByKey (b : builder) : M S error T :=
  match b with
  | inr e => throw e
  | inl ser => DoGetValueByKey ser
  end.

(** The loop of [BatchDoGetValueByKey]; [acc] is the result slice, whose first
    elements are the nil pointers [make] put there. *)
Fixpoint BatchDoGet_loop (sers : list serializer) (acc : list (option T))
  : M S error (list (option T)) :=
  match sers with
  | [] => ret acc
  | x :: rest => v <- DoGetValueByKey x ;; BatchDoGet_loop rest (acc ++ [Some v])
  end.

Definition BatchDoGetValueByKey (sers : list serializer) : M S error (list (option T)) :=
  BatchDoGet_loop sers (replicate (length sers) None).

(** The loop of [BatchGetValueByKey]; [acc] starts as [make([]Serializer[T],
    len(builder))], which holds nils. *)
Fixpoint build_all (bs : list builder) (acc : list serializer) : list serializer + error :=
  match bs with
  | [] => inl acc
  | inl ser :: rest => build_all rest (acc ++ [ser])
  | inr e :: _ => inr e
  end.

Definition BatchGetValueByKey (bs : list builder) : M S error (list (option T)) :=
  match build_all bs (replicate (length bs) None) with
  | inr e => throw e
  | inl sers => BatchDoGetValueByKey sers
  end.

Definition DoSaveInKVPair (ser : serializer) : M S error unit :=
  match ser with
  | None => throw ErrNilSerializer
  | Some x =>
      let key := FormatKey x in
      if bool_decide (key = ""%string) then throw ErrEmptyKey
      else if bool_decide (key = FormatPrefix x) then throw ErrKeyEqPrefix
      else value <- lift (Serialize x) ;; Save key value
  end.

Definition SaveInKVPair (b : builder) : M S error unit :=
  match b with
  | inr e => throw e
  | inl ser => DoSaveInKVPair ser
  end.

(** Deserialize every value of a bucket, first error wins. *)
Fixpoint deserialize_all (l : list (string * blob)) : list (string * T) + error :=
  match l with
  | [] => inl []
  | (k, buf) :: rest =>
      match Deserialize buf with
      | inr e => inr e
      | inl v => match deserialize_all rest with
                 | inr e => inr e
                 | inl r => inl ((k, v) :: r)
                 end
      end
  end.

Definition DoGetValuesByPrefix (ser : serializer) : M S error (gmap string T) :=
  match ser with
  | None => throw ErrNilSerializer
  | Some x =>
      let prefix := FormatPrefix x in
      if bool_decide (prefix = ""%string) then throw ErrEmptyPrefix
      else bufMap <- GetByBucket prefix ;;
           l <- lift (deserialize_all (map_to_list bufMap)) ;;
           ret (list_to_map l)
  end.

Definition GetValuesByPrefix (b : builder) : M S error (gmap string T) :=
  match b with
  | inr e => throw e
  | inl ser => DoGetValuesByPrefix ser
  end.

Definition IncrKey (ser : serializer) : M S error N :=
  match ser with
  | None => throw ErrNilSerializer
  | Some x => if bool_decide (FormatKey x = ""%string) then throw ErrEmptyPrefix
              else Incr (FormatKey x) 1
  end.

Definition DoDeleteByKey (ser : serializer) : M S error unit :=
  match ser with
  | None => throw ErrNilSerializer
  | Some x =>
      let key := FormatKey x in
      if bool_decide (key = ""%string) then throw ErrEmptyKey
      else if bool_decide (key = FormatPrefix x) then throw ErrKeyEqPrefix
      else Delete key
  end.

Definition DeleteByKey (b : builder) : M S error unit :=
  match b with
  | inr e => throw e
  | inl ser => DoDeleteByKey ser
  end.

Definition DoDeleteByPrefix (ser : serializer) : M S error unit :=
  match ser with
  | None => throw ErrNilSerializer
  | Some x =>
      let prefix := FormatPrefix x in
      if bool_decide (prefix = ""%string) then throw ErrEmptyPrefix
      else if bool_decide (prefix = FormatKey x) then throw ErrKeyEqPrefix
      else Delete prefix
  end.

Definition DeleteByPrefix (b : builder) : M S error unit :=
  match b with
  | inr e => throw e
  | inl ser => DoDeleteByPrefix ser
  end.

Fixpoint serialize_all (l : list T) : list kv + error :=
  match l with
  | [] => inl []
  | x :: rest =>
      match Serialize x with
      | inr e => inr e
      | inl v => match serialize_all rest with
                 | inr e => inr e
                 | inl r => inl (KV (FormatKey x) v :: r)
                 end
      end
  end.

Definition DoBatchSaveStrictly (l : list T) : M S error unit :=
  entries <- lift (serialize_all l) ;; BatchSave false entries.

Fixpoint lossy_all (l : list lossy) : list kv + error :=
  match l with
  | [] => inl []
  | x :: rest =>
      match lossy_Serialize x with
      | inr e => inr e
      | inl v => match lossy_all rest with
                 | inr e => inr e
                 | inl r => inl (KV (lossy_FormatKey x) v :: r)
                 end
      end
  end.

Definition DoBatchSaveAnyStrictly (l : list lossy) : M S error unit :=
  entries <- lift (lossy_all l) ;; BatchSave false entries.

Definition DoBatchDeleteStrictly (l : list T) : M S error unit :=
  BatchDeleteByKey false (FormatKey <$> l).

End helpers.
Arguments serializer T : clear implicits.
Arguments builder T : clear implicits.

(** * Simulation between stores *)

(** [abs] maps the states of one store to those of another, and [m'] run on the
    image returns what [m] returns and ends in the image of the state [m] ends
    in. *)
Definition sim {S S' E A} (abs : S -> S') (m : M S E A) (m' : M S' E A) : Prop :=
  forall s, m' (abs s) = prod_map id abs (m s).

(** [DeleteByBucket] and [Cleanup] are left out: what they do depends on when the
    backend's iterator reuses its key slices, and nothing in the services calls
    them. *)
Class StoreSim {S S'} `{Store S, Store S'} (abs : S -> S') : Prop := {
  sim_Save k v : sim abs (Save k v) (Save k v);
  sim_Get k : sim abs (Get k) (Get k);
  sim_Scan p b e : sim abs (Scan p b e) (Scan p b e);
  sim_Delete k : sim abs (Delete k) (Delete k);
  sim_GetByBucket k : sim abs (GetByBucket k) (GetByBucket k);
  sim_Incr k n : sim abs (Incr k n) (Incr k n);
  sim_BatchSave b l : sim abs (BatchSave b l) (BatchSave b l);
  sim_BatchDeleteByKey b l : sim abs (BatchDeleteByKey b l) (BatchDeleteByKey b l);
  sim_Begin s : Begin (abs s) = abs (Begin s);
  sim_Commit s : Commit (abs s) = prod_map id abs (Commit s);
  sim_Rollback s : Rollback (abs s) = abs (Rollback s);
}.

(** * Lemmas *)

Create HintDb sim discriminated.
#[export] Hint Constants Opaque : sim.
#[export] Hint Resolve sim_Save sim_Get sim_Scan sim_Delete sim_GetByBucket
  sim_Incr sim_BatchSave sim_BatchDeleteByKey : sim.

#[export] Hint Extern 1 (StoreSim _) => typeclasses eauto : sim.

Section sim_lemmas.
Context {S S' E : Type} (abs : S -> S').

Lemma sim_ret {A} (a : A) : sim (E := E) abs (ret a) (ret a).
Proof. done. Qed.
Lemma sim_throw {A} (e : E) : sim (A := A) abs (throw e) (throw e).
Proof. done. Qed.
Lemma sim_panic {A} : sim (E := E) (A := A) abs go_panic go_panic.
Proof. done. Qed.
Lemma sim_deref {A} (p : option A) : sim (E := E) abs (deref p) (deref p).
Proof. by destruct p. Qed.

Lemma sim_bind {A C} (m : M S E A) m' (k : A -> M S E C) k' :
  sim abs m m' -> (forall a, sim abs (k a) (k' a)) -> sim abs (bind m k) (bind m' k').
Proof.
  intros Hm Hk s. unfold bind. rewrite (Hm s).
  destruct (m s) as [[a|e|] s1]; simpl; [apply Hk|done|done].
Qed.

Lemma sim_catch {A C} (m : M S E A) m' (k : A + E -> M S E C) k' :
  sim abs m m' -> (forall r, sim abs (k r) (k' r)) -> sim abs (catch m k) (catch m' k').
Proof.
  intros Hm Hk s. unfold catch. rewrite (Hm s).
  destruct (m s) as [[a|e|] s1]; simpl; [apply Hk|apply Hk|done].
Qed.
End sim_lemmas.
#[export] Hint Resolve sim_ret sim_throw sim_panic sim_deref : sim.

(** Prove [sim abs f f'] by following the structure of the code. *)
Ltac solve_sim :=
  repeat first
    [ solve [eauto with sim]
    | apply sim_bind; [|intros ?]
    | apply sim_catch; [|intros ?]
    | match goal with |- sim _ (match ?x with _ => _ end) _ => destruct x end
    | progress cbv zeta ].

Section helper_sim.
Context {S S' : Type} `{Store S, Store S'} (abs : S -> S') `{!StoreSim abs}.
Context {T : Type} `{Serializer T}.

Lemma sim_lift {A} (r : A + error) : sim abs (lift r) (lift r).
Proof. destruct r; simpl; auto with sim. Qed.

Lemma sim_DoInTxn {A} (cb : M S error A) cb' :
  sim abs cb cb' -> sim abs (DoInTxn cb) (DoInTxn cb').
Proof.
  intros Hcb s. unfold DoInTxn. rewrite sim_Begin, (Hcb (Begin s)).
  destruct (cb (Begin s)) as [[a|e|] s1]; simpl;
    by rewrite ?sim_Rollback, ?sim_Commit.
Qed.

Lemma sim_DoGetValueByKey (x : serializer T) : sim abs (DoGetValueByKey x) (DoGetValueByKey x).
Proof. unfold DoGetValueByKey. pose proof @sim_lift. solve_sim. Qed.
Lemma sim_DoSaveInKVPair (x : serializer T) : sim abs (DoSaveInKVPair x) (DoSaveInKVPair x).
Proof. unfold DoSaveInKVPair. pose proof @sim_lift. solve_sim. Qed.
Lemma sim_DoDeleteByKey (x : serializer T) : sim abs (DoDeleteByKey x) (DoDeleteByKey x).
Proof. unfold DoDeleteByKey. solve_sim. Qed.
Lemma sim_DoGetValuesByPrefix (x : serializer T) :
  sim abs (DoGetValuesByPrefix x) (DoGetValuesByPrefix x).
Proof. unfold DoGetValuesByPrefix. pose proof @sim_lift. solve_sim. Qed.
Lemma sim_GetValueByKey (b : builder T) : sim abs (GetValueByKey b) (GetValueByKey b).
Proof. pose proof sim_DoGetValueByKey. destruct b; simpl; solve_sim. Qed.
Lemma sim_SaveInKVPair (b : builder T) : sim abs (SaveInKVPair b) (SaveInKVPair b).
Proof. pose proof sim_DoSaveInKVPair. destruct b; simpl; solve_sim. Qed.
Lemma sim_DeleteByKey (b : builder T) : sim abs (DeleteByKey b) (DeleteByKey b).
Proof. pose proof sim_DoDeleteByKey. destruct b; simpl; solve_sim. Qed.
Lemma sim_GetValuesByPrefix (b : builder T) :
  sim abs (GetValuesByPrefix b) (GetValuesByPrefix b).
Proof. pose proof sim_DoGetValuesByPrefix. destruct b; simpl; solve_sim. Qed.
Lemma sim_DoBatchSaveStrictly (l : list T) :
  sim abs (DoBatchSaveStrictly l) (DoBatchSaveStrictly l).
Proof. unfold DoBatchSaveStrictly. pose proof @sim_lift. solve_sim. Qed.
Lemma sim_DoBatchSaveAnyStrictly (l : list lossy) :
  sim abs (DoBatchSaveAnyStrictly l) (DoBatchSaveAnyStrictly l).
Proof. unfold DoBatchSaveAnyStrictly. pose proof @sim_lift. solve_sim. Qed.
Lemma sim_DoBatchDeleteStrictly (l : list T) :
  sim abs (DoBatchDeleteStrictly l) (DoBatchDeleteStrictly l).
Proof. unfold DoBatchDeleteStrictly. solve_sim. Qed.
End helper_sim.
#[export] Hint Resolve sim_lift sim_DoGetValueByKey sim_DoSaveInKVPair sim_DoDeleteByKey
  sim_DoGetValuesByPrefix sim_GetValueByKey sim_SaveInKVPair sim_DeleteByKey
  sim_GetValuesByPrefix sim_DoBatchSaveStrictly sim_DoBatchSaveAnyStrictly
  sim_DoBatchDeleteStrictly : sim.
#[export] Hint Resolve sim_DoInTxn : sim.

Lemma BatchDoGet_loop_nil_first {S T} `{Store S, Serializer T} rest acc (s : S) :
  BatchDoGet_loop (T := T) (None :: rest) acc s = (Err ErrNilSerializer, s).
Proof. done. Qed.

Lemma build_all_ok {T} (xs : list (serializer T)) acc :
  build_all (inl <$> xs) acc = inl (acc ++ xs).
Proof.
  revert acc. induction xs as [|x xs IH]; intros acc; simpl; [by rewrite app_nil_r|].
  by rewrite IH, <- app_assoc.
Qed.
