(* ===== verification/Badger.v ===== *)
(** The badger backend (src/pkg/store/store_badger.go, txn_badger.go, and
    store_mem.go, txn_mem.go, which wrap it).  The badger package itself is a
    parameter: [Badger] lists the calls the backend makes, [MemBadger] is the
    documented behaviour of those calls (snapshot reads plus a transaction's own
    writes, applied at commit), and [BadgerSpec] states that an implementation
    behaves so.  The backend is written against [Badger]; the theorems show that
    it runs over any conforming implementation as it does over [MemBadger].  Key
    slices are shared where the code shares them: the loops of [DeleteByBucket]
    and [Cleanup] hand badger the iterator's own slices, and what those hold once
    the iterator has moved on is a parameter ([Iter_Reuse]). *)
From Stdlib Require Import Ascii.
From stdpp Require Import prelude gmap strings list fin_maps sorting.
From S2P Require Import Prelude Store.

(** * The badger API *)

Class Badger := {
  badger_DB : Type;
  badger_Txn : Type;
  DB_NewTransaction : badger_DB -> badger_Txn;
  Txn_Get : badger_Txn -> string -> blob + error;
  Txn_Set : badger_Txn -> string -> blob -> badger_Txn + error;
  Txn_Delete : badger_Txn -> string -> badger_Txn + error;
  (** the items at and after a key, in key order: [Seek], [Valid], [Next],
      [Item], [ValueCopy] *)
  Txn_Seek : badger_Txn -> string -> list (string * (blob + error));
  (** an item and its [Key] are valid until [Next] is called: what the key slices
      of the first [n] of an iterator's items hold after [n] calls of [Next] *)
  Iter_Reuse : list string -> nat -> list string;
  (** [Delete] keeps a reference to its key: the transaction once the slices it
      was given hold other bytes, each pair being what a slice held at the call
      and what it holds now *)
  Txn_Rekey : badger_Txn -> list (string * string) -> badger_Txn;
  Txn_Commit : badger_DB -> badger_Txn -> badger_DB * option error;
  (** [GetSequence(key, bandwidth)], [Next] and [Release] *)
  DB_SequenceNext : badger_DB -> string -> N -> badger_DB * (N + error);
}.

(** * Reference behaviour of badger *)

Section mem.

(** A transaction: the snapshot it reads and the writes it holds, [None] for a
    deletion. *)
Record mem_txn := MemTxn {
  snap : gmap string blob;
  writes : gmap string (option blob);
}.

Definition apply_writes (w : gmap string (option blob)) (m : gmap string blob)
  : gmap string blob :=
  merge (fun ow om => match ow with Some o => o | None => om end) w m.

Definition txn_view (t : mem_txn) : gmap string blob := apply_writes (writes t) (snap t).

Definition seek_list (m : gmap string blob) (k : string) : list (string * blob) :=
  merge_sort (fun a b => str_le a.1 b.1)
    (filter (fun a => str_le k a.1) (map_to_list m)).

Definition mem_sequence_next (m : gmap string blob) (k : string) (bw : N)
  : gmap string blob * (N + error) :=
  if bool_decide (k = ""%string) then (m, inr BadgerErrEmptyKey)
  else if bool_decide (bw = 0%N) then (m, inr BadgerErrSequence)
  else match m !! k with
       | None => (<[k := BSeq 1]> m, inl 0%N)
       | Some (BSeq n) => (<[k := BSeq (wrap64 (n + 1))]> m, inl n)
       | Some _ => (m, inr BadgerErrSequence)
       end.

(** The deletions held under slices that have changed go to the keys the slices
    hold now. *)
Definition rekey (t : mem_txn) (l : list (string * string)) : mem_txn :=
  MemTxn (snap t)
    (foldl (fun w p => if bool_decide (p.1 = p.2) then w else <[p.2 := None]> (delete p.1 w)) (writes t) l).

End mem.

#[export] Instance MemBadger : Badger := {|
  badger_DB := gmap string blob;
  badger_Txn := mem_txn;
  DB_NewTransaction m := MemTxn m ∅;
  Txn_Get t k :=
    if bool_decide (k = ""%string) then inr BadgerErrEmptyKey
    else match txn_view t !! k with
         | Some v => inl v
         | None => inr BadgerErrKeyNotFound
         end;
  Txn_Set t k v :=
    if bool_decide (k = ""%string) then inr BadgerErrEmptyKey
    else inl (MemTxn (snap t) (<[k := Some v]> (writes t)));
  Txn_Delete t k :=
    if bool_decide (k = ""%string) then inr BadgerErrEmptyKey
    else inl (MemTxn (snap t) (<[k := None]> (writes t)));
  Txn_Seek t k := (fun a => (a.1, inl a.2)) <$> seek_list (txn_view t) k;
  Iter_Reuse ks n := take n ks;
  Txn_Rekey := rekey;
  Txn_Commit m t := (apply_writes (writes t) m, None);
  DB_SequenceNext := mem_sequence_next;
|}.

(** * The backend *)

Definition Separator : string := "/".

Section badger_store.
Context {B : Badger}.

Definition item_list : Type := list (string * (blob + error)).

(** The store and the transaction of the current context. *)
Record BadgerStore := MkBadgerStore { DB : badger_DB; ctxTxn : option badger_Txn }.

(** Callbacks run on a transaction they mutate. *)
Definition txn_call (f : badger_Txn -> badger_Txn + error) : M badger_Txn error unit :=
  fun t => match f t with inl t' => (Ok tt, t') | inr e => (Err e, t) end.
Definition txn_read {A} (f : badger_Txn -> A + error) : M badger_Txn error A :=
  fun t => match f t with inl a => (Ok a, t) | inr e => (Err e, t) end.

(** Without a transaction in the context, [DB.Update] runs the callback in a
    transaction of its own and commits it. *)
Definition txnUpdateWrapper (cb : M badger_Txn error unit) : M BadgerStore error unit :=
  fun s => match ctxTxn s with
  | None =>
      match cb (DB_NewTransaction (DB s)) with
      | (Ok _, t) =>
          let '(db, e) := Txn_Commit (DB s) t in
          (match e with None => Ok tt | Some e => Err e end, MkBadgerStore db None)
      | (Err e, _) => (Err e, s)
      | (Panic, _) => (Panic, s)
      end
  | Some t => let '(r, t') := cb t in (r, MkBadgerStore (DB s) (Some t'))
  end.

(** [DB.View] discards its transaction. *)
Definition txnViewWrapper {A} (cb : M badger_Txn error A) : M BadgerStore error A :=
  fun s => match ctxTxn s with
  | None => ((cb (DB_NewTransaction (DB s))).1, s)
  | Some t => let '(r, t') := cb t in (r, MkBadgerStore (DB s) (Some t'))
  end.

(** badger's ErrKeyNotFound becomes the store's ErrNotFound. *)
Definition map_not_found {A} (m : M BadgerStore error A) : M BadgerStore error A :=
  r <-? m ;;
  match r with
  | inl a => ret a
  | inr e => if errors_Is e BadgerErrKeyNotFound then throw ErrNotFound else throw e
  end.

Definition trim_key (key : string) : string :=
  if bool_decide (key = Separator) then key else trim_suffix_char "/"%char key.

Definition badger_Get (key : string) : M BadgerStore error blob :=
  let key := trim_key key in
  map_not_found (txnViewWrapper (txn_read (fun t => Txn_Get t key))).

(** The loop of [Scan]: stop at the first key without the prefix or past
    [end]. *)
Fixpoint scan_loop (prefix end_ : string) (items : item_list) : list kv + error :=
  match items with
  | [] => inl []
  | (k, v) :: rest =>
      if negb (has_prefix prefix k) then inl []
      else if negb (bool_decide (end_ = ""%string)) && negb (str_leb k end_) then inl []
      else match v with
           | inr e => inr e
           | inl b => match scan_loop prefix end_ rest with
                      | inl r => inl (KV k b :: r)
                      | inr e => inr e
                      end
           end
  end.

Definition badger_Scan (prefix begin end_ : string) : M BadgerStore error (list kv) :=
  map_not_found (txnViewWrapper
    (txn_read (fun t => scan_loop prefix end_ (Txn_Seek t begin)))).

(** [strings.Count(s, "/")]. *)
Fixpoint count_sep (s : string) : nat :=
  match s with
  | EmptyString => 0
  | String a s' => (if bool_decide (a = "/"%char) then 1 else 0) + count_sep s'
  end.

(** The loop of [doGetValuesByPrefix]. *)
Fixpoint prefix_loop (key prefix : string) (ignoreExact : bool) (items : item_list)
    (acc : gmap string blob) : gmap string blob + error :=
  match items with
  | [] => inl acc
  | (k, v) :: rest =>
      if negb (has_prefix prefix k) then inl acc
      else if ignoreExact && bool_decide (k = key) then
        prefix_loop key prefix ignoreExact rest acc
      else if bool_decide (key = Separator) && (1 <? count_sep k)%nat then
        prefix_loop key prefix ignoreExact rest acc
      else match v with
           | inr e => inr e
           | inl b => prefix_loop key prefix ignoreExact rest (<[k := b]> acc)
           end
  end.

Definition doGetValuesByPrefix (key : string) (ignoreExact : bool)
  : M BadgerStore error (gmap string blob) :=
  let key := trim_key key in
  let prefix := if bool_decide (key = Separator) then key else (key +:+ Separator)%string in
  map_not_found (txnViewWrapper
    (txn_read (fun t => prefix_loop key prefix ignoreExact (Txn_Seek t prefix) ∅))).

Definition badger_GetByBucket (key : string) : M BadgerStore error (gmap string blob) :=
  doGetValuesByPrefix key true.

Definition badger_Delete (key : string) : M BadgerStore error unit :=
  map_not_found (txnUpdateWrapper (txn_call (fun t => Txn_Delete t key))).

Definition badger_Save (key : string) (value : blob) : M BadgerStore error unit :=
  txnUpdateWrapper (txn_call (fun t => Txn_Set t key value)).

Definition SaveInBucket (bucket key : string) (value : blob) : M BadgerStore error unit :=
  badger_Save (bucket +:+ Separator +:+ key)%string value.
Definition GetInBucket (bucket key : string) : M BadgerStore error blob :=
  badger_Get (bucket +:+ Separator +:+ key)%string.
Definition DeleteInBucket (bucket key : string) : M BadgerStore error unit :=
  badger_Delete (bucket +:+ Separator +:+ key)%string.

(** The loops of [DeleteByBucket] and [Cleanup] delete the keys of an iterator
    opened before the first deletion; the state counts the calls of [Next]. *)
Definition delete_key (k : string) : M (badger_Txn * nat) error unit := fun '(t, n) =>
  match Txn_Delete t k with inl t' => (Ok tt, (t', S n)) | inr e => (Err e, (t, n)) end.

Fixpoint delete_loop (ok : string -> bool) (items : item_list) : M (badger_Txn * nat) error unit :=
  match items with
  | [] => ret tt
  | (k, _) :: rest => if ok k then delete_key k ;;; delete_loop ok rest else ret tt
  end.

(** They hand [Delete] the slice [it.Item().Key()] itself, without [KeyCopy]: the
    transaction holds slices whose items the iterator has passed. *)
Definition delete_while (ok : string -> bool) (items : item_list) : M badger_Txn error unit := fun t =>
  let '(r, (t', n)) := delete_loop ok items (t, 0%nat) in
  (r, Txn_Rekey t' (zip items.*1 (Iter_Reuse items.*1 n))).

Definition has_suffix_sep (s : string) : bool :=
  negb (bool_decide (trim_suffix_char "/"%char s = s)).

Definition badger_DeleteByBucket (prefix : string) : M BadgerStore error unit :=
  let prefix := if has_suffix_sep prefix then prefix else (prefix +:+ Separator)%string in
  txnUpdateWrapper (fun t => delete_while (has_prefix prefix) (Txn_Seek t prefix) t).

(** [Cleanup] runs on [context.Background()], outside the caller's transaction. *)
Definition badger_Cleanup : M BadgerStore error unit := fun s =>
  let '(r, s') := txnUpdateWrapper (fun t => delete_while (fun _ => true) (Txn_Seek t "") t)
                    (MkBadgerStore (DB s) None) in
  (r, MkBadgerStore (DB s') (ctxTxn s)).

(** [Incr] works on the database itself, in or out of a transaction. *)
Definition badger_Incr (key : string) (count : N) : M BadgerStore error N := fun s =>
  let '(db, r) := DB_SequenceNext (DB s) key count in
  (match r with inl n => Ok (wrap64 (n + 1)) | inr e => Err e end,
   MkBadgerStore db (ctxTxn s)).

Fixpoint batch_loop {A} (ignoreErr : bool) (f : A -> badger_Txn -> badger_Txn + error)
    (l : list A) : M badger_Txn error unit :=
  match l with
  | [] => ret tt
  | x :: rest =>
      r <-? txn_call (f x) ;;
      match r with
      | inl _ => batch_loop ignoreErr f rest
      | inr e => if ignoreErr then batch_loop ignoreErr f rest else throw e
      end
  end.

Definition badger_BatchSave (ignoreErr : bool) (entries : list kv) : M BadgerStore error unit :=
  txnUpdateWrapper (batch_loop ignoreErr (fun e t => Txn_Set t (kv_Key e) (kv_Value e)) entries).

(** Errors other than ErrKeyNotFound are dropped: the function ends in
    [return nil]. *)
Definition badger_BatchDeleteByKey (ignoreErr : bool) (keys : list string)
  : M BadgerStore error unit :=
  r <-? txnUpdateWrapper (batch_loop ignoreErr (fun k t => Txn_Delete t k) keys) ;;
  match r with
  | inl _ => ret tt
  | inr e => if errors_Is e BadgerErrKeyNotFound then throw ErrNotFound else ret tt
  end.

(** [NewTransaction], [BadgerTxn.Begin] and [NewTxnContext]. *)
Definition BadgerTxn_Begin (s : BadgerStore) : BadgerStore :=
  MkBadgerStore (DB s) (Some (DB_NewTransaction (DB s))).
Definition BadgerTxn_Commit (s : BadgerStore) : option error * BadgerStore :=
  match ctxTxn s with
  | Some t => let '(db, e) := Txn_Commit (DB s) t in (e, MkBadgerStore db None)
  | None => (None, s)
  end.
Definition BadgerTxn_Rollback (s : BadgerStore) : BadgerStore := MkBadgerStore (DB s) None.

#[export] Instance BadgerStore_Store : Store BadgerStore := {|
  Save := badger_Save;
  Get := badger_Get;
  Scan := badger_Scan;
  Delete := badger_Delete;
  GetByBucket := badger_GetByBucket;
  DeleteByBucket := badger_DeleteByBucket;
  Incr := badger_Incr;
  BatchSave := badger_BatchSave;
  BatchDeleteByKey := badger_BatchDeleteByKey;
  Cleanup := badger_Cleanup;
  Begin := BadgerTxn_Begin;
  Commit := BadgerTxn_Commit;
  Rollback := BadgerTxn_Rollback;
|}.

End badger_store.
Arguments BadgerStore : clear implicits.

(** * Conforming implementations of badger *)

(** An implementation conforms when its databases and transactions stand for
    those of [MemBadger] and every call commutes with that reading. *)
Class BadgerSpec (B : Badger) := {
  abs_DB : @badger_DB B -> @badger_DB MemBadger;
  abs_Txn : @badger_Txn B -> @badger_Txn MemBadger;
  NewTransaction_spec d : abs_Txn (DB_NewTransaction d) = DB_NewTransaction (abs_DB d);
  Txn_Get_spec t k : Txn_Get t k = Txn_Get (abs_Txn t) k;
  Txn_Set_spec t k v : Txn_Set (abs_Txn t) k v = sum_map abs_Txn id (Txn_Set t k v);
  Txn_Delete_spec t k : Txn_Delete (abs_Txn t) k = sum_map abs_Txn id (Txn_Delete t k);
  Txn_Seek_spec t k : Txn_Seek t k = Txn_Seek (abs_Txn t) k;
  Txn_Rekey_same t l : Forall (fun p => p.1 = p.2) l -> Txn_Rekey t l = t;
  Txn_Commit_spec d t : Txn_Commit (abs_DB d) (abs_Txn t) = prod_map abs_DB id (Txn_Commit d t);
  SequenceNext_spec d k n :
    DB_SequenceNext (abs_DB d) k n = prod_map abs_DB id (DB_SequenceNext d k n);
}.

Lemma rekey_same t l : Forall (fun p => p.1 = p.2) l -> rekey t l = t.
Proof.
  unfold rekey. intros Hl. destruct t as [m w]. cbn [snap writes]. f_equal. revert w.
  induction Hl as [|p l Hp _ IH]; intros w; cbn [foldl]; [done|]. by rewrite bool_decide_true.
Qed.

#[export] Instance MemBadger_spec : BadgerSpec MemBadger.
Proof.
  refine {| abs_DB := fun d : @badger_DB MemBadger => d; abs_Txn := fun t : @badger_Txn MemBadger => t |};
    intros; try done.
  - symmetry. by destruct (Txn_Set _ _ _).
  - symmetry. by destruct (Txn_Delete _ _).
  - by apply rekey_same.
  - symmetry. by destruct (DB_SequenceNext _ _ _).
Defined.

Definition abs_store {B} `{!BadgerSpec B} (s : BadgerStore B) : BadgerStore MemBadger :=
  MkBadgerStore (abs_DB (DB s)) (abs_Txn <$> ctxTxn s).

(** * The store over the reference badger *)

Abbreviation mem_store := (BadgerStore MemBadger).

(** What a read in the current context sees. *)
Definition view (s : mem_store) : gmap string blob :=
  match ctxTxn s with None => DB s | Some t => txn_view t end.

(** What the database would hold after a commit of the current context. *)
Definition committed (s : mem_store) : gmap string blob :=
  match ctxTxn s with None => DB s | Some t => apply_writes (writes t) (DB s) end.

(** The state after the write of [o] under a key ([None]: deletion). *)
Definition upd (k : string) (o : option blob) (s : mem_store) : mem_store :=
  match ctxTxn s with
  | None => MkBadgerStore (apply_writes {[k := o]} (DB s)) None
  | Some t => MkBadgerStore (DB s) (Some (MemTxn (snap t) (<[k := o]> (writes t))))
  end.
Definition upds (l : list (string * option blob)) (s : mem_store) : mem_store :=
  foldl (fun s p => upd p.1 p.2 s) s l.

(** * Lemmas *)

Lemma lookup_apply_writes w m k :
  apply_writes w m !! k = match w !! k with Some o => o | None => m !! k end.
Proof. unfold apply_writes. rewrite lookup_merge. by destruct (w !! k), (m !! k). Qed.

Lemma apply_writes_insert w m k o :
  apply_writes (<[k := o]> w) m = partial_alter (fun _ => o) k (apply_writes w m).
Proof.
  apply map_eq. intros j. rewrite lookup_apply_writes, lookup_partial_alter, lookup_insert.
  repeat case_decide; subst; rewrite ?lookup_apply_writes; done.
Qed.

Lemma apply_writes_empty m : apply_writes ∅ m = m.
Proof. apply map_eq. intros j. by rewrite lookup_apply_writes, lookup_empty. Qed.

Lemma apply_writes_singleton m k o :
  apply_writes {[k := o]} m = partial_alter (fun _ => o) k m.
Proof. unfold singletonM, map_singleton. by rewrite apply_writes_insert, apply_writes_empty. Qed.

Lemma apply_writes_base_insert w m k v :
  w !! k = None -> apply_writes w (<[k := v]> m) = <[k := v]> (apply_writes w m).
Proof.
  intros Hw. apply map_eq. intros j. rewrite lookup_apply_writes, !lookup_insert.
  case_decide; subst; [by rewrite Hw|]. by rewrite lookup_apply_writes.
Qed.

(** The effect of a list of writes, oldest first. *)
Definition map_upd (p : string * option blob) (m : gmap string blob) : gmap string blob :=
  partial_alter (fun _ => p.2) p.1 m.
Definition map_upds (l : list (string * option blob)) (m : gmap string blob) : gmap string blob :=
  foldl (fun m p => map_upd p m) m l.

Lemma view_upd k o s : view (upd k o s) = map_upd (k, o) (view s).
Proof.
  unfold view, upd, txn_view, map_upd. destruct (ctxTxn s) as [t|]; simpl.
  - by rewrite apply_writes_insert.
  - by rewrite apply_writes_singleton.
Qed.

Lemma committed_upd k o s : committed (upd k o s) = map_upd (k, o) (committed s).
Proof.
  unfold committed, upd, map_upd. destruct (ctxTxn s) as [t|]; simpl.
  - by rewrite apply_writes_insert.
  - by rewrite apply_writes_singleton.
Qed.

Lemma view_upds l s : view (upds l s) = map_upds l (view s).
Proof.
  unfold upds, map_upds. revert s. induction l as [|p l IH]; intros s; simpl; [done|].
  by rewrite IH, view_upd, <- surjective_pairing.
Qed.

Lemma committed_upds l s : committed (upds l s) = map_upds l (committed s).
Proof.
  unfold upds, map_upds. revert s. induction l as [|p l IH]; intros s; simpl; [done|].
  by rewrite IH, committed_upd, <- surjective_pairing.
Qed.

Lemma lookup_map_upd p m k :
  map_upd p m !! k = if decide (p.1 = k) then p.2 else m !! k.
Proof. unfold map_upd. rewrite lookup_partial_alter. by repeat case_decide; subst. Qed.

Lemma map_upd_insert k v m : map_upd (k, Some v) m = <[k := v]> m.
Proof. done. Qed.
Lemma map_upd_delete k m : map_upd (k, None) m = delete k m.
Proof. done. Qed.

Lemma ctxTxn_upd k o s : is_Some (ctxTxn (upd k o s)) <-> is_Some (ctxTxn s).
Proof. unfold upd. destruct (ctxTxn s); simpl; [by split; eauto|done]. Qed.

(** ** Transactions *)

Lemma view_Begin (s : mem_store) : view (Begin s) = DB s.
Proof. unfold view. simpl. apply apply_writes_empty. Qed.
Lemma committed_Begin (s : mem_store) : committed (Begin s) = DB s.
Proof. unfold committed. simpl. apply apply_writes_empty. Qed.

Lemma Commit_committed (s : mem_store) :
  (Commit s).2 = MkBadgerStore (committed s) None.
Proof. unfold committed. simpl. unfold BadgerTxn_Commit. destruct s as [d [t|]]; done. Qed.

(** ** Single-key operations *)

Lemma Save_mem k v (s : mem_store) : k <> ""%string -> Save k v s = (Ok tt, upd k (Some v) s).
Proof.
  intros Hk. simpl. unfold badger_Save, txnUpdateWrapper, upd, txn_call. simpl.
  rewrite bool_decide_false by done. by destruct (ctxTxn s).
Qed.

Lemma Delete_mem k (s : mem_store) : k <> ""%string -> Delete k s = (Ok tt, upd k None s).
Proof.
  intros Hk. simpl. unfold badger_Delete, map_not_found, catch, txnUpdateWrapper, upd, txn_call.
  simpl. rewrite bool_decide_false by done. by destruct (ctxTxn s).
Qed.

Lemma Get_mem k (s : mem_store) :
  trim_key k <> ""%string ->
  Get k s = (match view s !! trim_key k with Some v => Ok v | None => Err ErrNotFound end, s).
Proof.
  intros Hk. simpl. unfold badger_Get, map_not_found, catch, txnViewWrapper, txn_read, view.
  destruct s as [d [t|]]; simpl; rewrite bool_decide_false by done.
  - by destruct (txn_view t !! trim_key k).
  - unfold txn_view. simpl. rewrite apply_writes_empty. by destruct ((d : gmap string blob) !! trim_key k).
Qed.

(** ** Batches *)

Definition add_writes (l : list (string * option blob)) (w : gmap string (option blob)) :=
  foldl (fun w p => <[p.1 := p.2]> w) w l.

Lemma apply_add_writes l w m :
  apply_writes (add_writes l w) m = map_upds l (apply_writes w m).
Proof.
  unfold add_writes, map_upds. revert w. induction l as [|p l IH]; intros w; simpl; [done|].
  by rewrite IH, apply_writes_insert.
Qed.

Lemma upds_writes l (s : mem_store) :
  upds l s = match ctxTxn s with
             | None => MkBadgerStore (apply_writes (add_writes l ∅) (DB s)) None
             | Some t => MkBadgerStore (DB s) (Some (MemTxn (snap t) (add_writes l (writes t))))
             end.
Proof.
  destruct s as [d [t|]]; simpl.
  - unfold upds, add_writes. revert t. induction l as [|p l IH]; intros t; simpl; [by destruct t|].
    unfold upd at 2. simpl. by rewrite IH.
  - rewrite apply_add_writes, apply_writes_empty.
    unfold upds, map_upds. revert d. induction l as [|p l IH]; intros d; simpl; [done|].
    unfold upd at 2. simpl. by rewrite IH, apply_writes_singleton.
Qed.

(** A batch callback that performs the writes [f x] for each element. *)
Lemma batch_loop_mem {A} b (op : A -> mem_txn -> mem_txn + error) (f : A -> string * option blob) l t :
  Forall (fun x => forall t, op x t = inl (MemTxn (snap t) (<[(f x).1 := (f x).2]> (writes t)))) l ->
  batch_loop (B := MemBadger) b op l t =
  (Ok tt, MemTxn (snap t) (add_writes (f <$> l) (writes t))).
Proof.
  revert t. induction l as [|x l IH]; intros t Hl; [by destruct t|].
  apply Forall_cons in Hl as [Hx Hl]. simpl. unfold catch at 1, txn_call. simpl.
  rewrite Hx, IH by done. done.
Qed.

Definition kv_write (e : kv) : string * option blob := (kv_Key e, Some (kv_Value e)).
Definition key_delete (k : string) : string * option blob := (k, None).

Lemma BatchSave_mem b l (s : mem_store) :
  Forall (fun e => kv_Key e <> ""%string) l ->
  BatchSave b l s = (Ok tt, upds (kv_write <$> l) s).
Proof.
  intros Hl. simpl. unfold badger_BatchSave, txnUpdateWrapper.
  rewrite upds_writes. destruct s as [d [t|]]; simpl;
    rewrite (batch_loop_mem b _ kv_write); try done;
    (eapply Forall_impl; [exact Hl|]; intros e He t'; simpl; by rewrite bool_decide_false).
Qed.

Lemma BatchDeleteByKey_mem b l (s : mem_store) :
  Forall (fun k => k <> ""%string) l ->
  BatchDeleteByKey b l s = (Ok tt, upds (key_delete <$> l) s).
Proof.
  intros Hl. simpl. unfold badger_BatchDeleteByKey, catch, txnUpdateWrapper.
  rewrite upds_writes. destruct s as [d [t|]]; simpl;
    rewrite (batch_loop_mem b _ key_delete); try done;
    (eapply Forall_impl; [exact Hl|]; intros e He t'; simpl; by rewrite bool_decide_false).
Qed.

(** ** Sequences *)

Lemma Incr_mem k (s : mem_store) :
  Incr k 1 s =
  (match (mem_sequence_next (DB s) k 1).2 with
   | inl n => Ok (wrap64 (n + 1))
   | inr e => Err e
   end, MkBadgerStore (mem_sequence_next (DB s) k 1).1 (ctxTxn s)).
Proof. simpl. unfold badger_Incr. simpl. by destruct (mem_sequence_next (DB s) k 1). Qed.

(** ** Prefix listing *)

Lemma str_leb_trans s t u : str_leb s t = true -> str_leb t u = true -> str_leb s u = true.
Proof.
  revert t u. induction s as [|a s IH]; intros t u Hst Htu; [done|].
  destruct t as [|b t], u as [|c u]; simpl in *; try done.
  apply orb_true_iff in Hst as [H1%N.ltb_lt|[->%bool_decide_eq_true_1 H1]%andb_true_iff];
    apply orb_true_iff in Htu as [H2%N.ltb_lt|[->%bool_decide_eq_true_1 H2]%andb_true_iff];
    apply orb_true_iff.
  - left. apply N.ltb_lt. lia.
  - left. by apply N.ltb_lt.
  - left. by apply N.ltb_lt.
  - right. rewrite bool_decide_true by done. simpl. eauto.
Qed.

Lemma str_leb_total s t : str_leb s t = true \/ str_leb t s = true.
Proof.
  revert t. induction s as [|a s IH]; intros [|b t]; simpl; auto.
  destruct (N.lt_trichotomy (N_of_ascii a) (N_of_ascii b)) as [H|[H|H]].
  - left. by rewrite (proj2 (N.ltb_lt _ _) H).
  - apply (f_equal ascii_of_N) in H. rewrite !ascii_N_embedding in H. subst b.
    rewrite bool_decide_true by done.
    destruct (IH t) as [->| ->]; rewrite orb_true_r; auto.
  - right. by rewrite (proj2 (N.ltb_lt _ _) H).
Qed.

#[export] Instance key_le_trans : Transitive (fun a b : string * blob => str_le a.1 b.1).
Proof. intros x y z. apply str_leb_trans. Qed.
#[export] Instance key_le_total : Total (fun a b : string * blob => str_le a.1 b.1).
Proof. intros x y. apply str_leb_total. Qed.

Lemma elem_of_seek_list m k a :
  a ∈ seek_list m k <-> m !! a.1 = Some a.2 /\ str_leb k a.1 = true.
Proof.
  unfold seek_list. rewrite merge_sort_Permutation, list_elem_of_filter.
  destruct a as [x y]. rewrite elem_of_map_to_list. simpl. unfold str_le. tauto.
Qed.

Lemma seek_list_sorted m k : Sorted (fun a b => str_le a.1 b.1) (seek_list m k).
Proof. apply Sorted_merge_sort. apply _. Qed.

Lemma seek_list_NoDup m k : NoDup (seek_list m k).*1.
Proof.
  unfold seek_list. rewrite merge_sort_Permutation.
  apply (sublist_NoDup _ (map_to_list m).*1); [apply NoDup_fst_map_to_list|].
  by apply fmap_sublist, sublist_filter.
Qed.

(** On a key-sorted list that starts at the prefix, the loop keeps exactly the
    pairs with the prefix. *)
Lemma prefix_loop_mem key prefix l acc :
  bool_decide (key = Separator) = false ->
  has_prefix prefix key = false ->
  Sorted (fun a b : string * blob => str_le a.1 b.1) l ->
  Forall (fun a : string * blob => str_leb prefix a.1 = true) l ->
  NoDup l.*1 ->
  Forall (fun a : string * blob => acc !! a.1 = None) l ->
  prefix_loop key prefix true ((fun a => (a.1, inl a.2)) <$> l) acc =
  inl (list_to_map (filter (fun a => has_prefix prefix a.1 = true) l) ∪ acc).
Proof.
  intros Hsep Hkey. revert acc. induction l as [|[k v] l IH]; intros acc Hs Hle Hnd Hacc; simpl.
  { f_equal. symmetry. apply (left_id_L ∅ (∪)). }
  apply Sorted_StronglySorted in Hs; [|apply _].
  apply StronglySorted_inv in Hs as [Hs Hall].
  apply Forall_cons in Hle as [Hk Hle]. apply NoDup_cons in Hnd as [Hnin Hnd].
  apply Forall_cons in Hacc as [Hka Hacc]. simpl in *.
  destruct (has_prefix prefix k) eqn:Hp; simpl.
  - assert (bool_decide (k = key) = false) as ->.
    { apply bool_decide_eq_false_2. intros ->. congruence. }
    rewrite Hsep. simpl. rewrite IH.
    + rewrite filter_cons_True by done. simpl. f_equal.
      rewrite <- insert_union_l, insert_union_r; [done|].
      apply not_elem_of_list_to_map_1. intros Hin. apply Hnin.
      apply list_elem_of_fmap in Hin as ([k' v'] & -> & Hin).
      apply list_elem_of_filter in Hin as [_ Hin]. apply list_elem_of_fmap. eauto.
    + by apply StronglySorted_Sorted.
    + done.
    + done.
    + apply Forall_forall. intros [k' v'] Hin. simpl.
      rewrite lookup_insert_ne; [by eapply (proj1 (Forall_forall _ _) Hacc) in Hin|].
      intros ->. apply Hnin. apply list_elem_of_fmap. by exists (k', v').
  - rewrite (list_filter_none _ ((k, v) :: l)); [simpl; by rewrite (left_id_L ∅ (∪))|].
    intros [k' v'] Hin Hp'. simpl in Hp'.
    apply elem_of_cons in Hin as [?|Hin]; simplify_eq; [congruence|].
    eapply (proj1 (Forall_forall _ _) Hall) in Hin. simpl in Hin.
    rewrite (has_prefix_between prefix k k') in Hp by done. done.
Qed.

Lemma has_prefix_longer p : has_prefix (p +:+ Separator)%string p = false.
Proof. induction p as [|a p IH]; simpl; [done|]. by rewrite bool_decide_true, IH. Qed.

Lemma list_to_map_seek m p :
  list_to_map (filter (fun a => has_prefix p a.1 = true) (seek_list m p)) =
  filter (fun a => has_prefix p a.1 = true) m.
Proof.
  apply map_eq. intros k. apply option_eq. intros v.
  rewrite <- elem_of_list_to_map.
  - rewrite list_elem_of_filter, elem_of_seek_list, map_lookup_filter_Some. simpl.
    pose proof (has_prefix_leb p k). tauto.
  - apply (sublist_NoDup _ (seek_list m p).*1); [apply seek_list_NoDup|].
    by apply fmap_sublist, sublist_filter.
Qed.

(** A bucket holds exactly the visible pairs whose key starts with the bucket
    name and a separator. *)
Lemma GetByBucket_mem k (s : mem_store) :
  trim_key k <> Separator ->
  GetByBucket k s =
  (Ok (filter (fun a => has_prefix (trim_key k +:+ Separator)%string a.1 = true) (view s)), s).
Proof.
  intros Hk. simpl.
  unfold badger_GetByBucket, doGetValuesByPrefix, map_not_found, catch, txnViewWrapper, txn_read.
  rewrite (bool_decide_false (trim_key k = Separator)) by done.
  set (p := (trim_key k +:+ Separator)%string).
  assert (forall m, prefix_loop (trim_key k) p true
     ((fun a => (a.1, inl a.2)) <$> seek_list m p) ∅ =
     inl (filter (fun a => has_prefix p a.1 = true) m)) as Hloop.
  { intros m. rewrite prefix_loop_mem.
    - by rewrite list_to_map_seek, (right_id_L ∅ (∪)).
    - by apply bool_decide_eq_false_2.
    - apply has_prefix_longer.
    - apply seek_list_sorted.
    - apply Forall_forall. intros a [_ Ha]%elem_of_seek_list. done.
    - apply seek_list_NoDup.
    - apply Forall_forall. intros a _. apply lookup_empty. }
  destruct s as [d [t|]]; simpl; rewrite Hloop; [done|].
  unfold view, txn_view. simpl. by rewrite apply_writes_empty.
Qed.

(** ** Scans *)

Definition as_item (a : string * blob) : string * (blob + error) := (a.1, inl a.2).
Definition in_scan (prefix end_ k : string) : Prop :=
  has_prefix prefix k = true /\ (end_ = ""%string \/ str_leb k end_ = true).
#[export] Instance in_scan_dec prefix end_ k : Decision (in_scan prefix end_ k).
Proof. apply _. Defined.

(** On a key-sorted list that starts behind the prefix, the loop keeps exactly
    the pairs of the range. *)
Lemma scan_loop_mem prefix end_ l :
  Sorted (fun a b : string * blob => str_le a.1 b.1) l ->
  Forall (fun a : string * blob => str_leb prefix a.1 = true) l ->
  scan_loop prefix end_ (as_item <$> l) = inl ((fun a => KV a.1 a.2) <$> filter (fun a => in_scan prefix end_ a.1) l).
Proof.
  induction l as [|[k v] l IH]; intros Hs Hle; [done|]. apply Sorted_StronglySorted in Hs; [|apply _].
  apply StronglySorted_inv in Hs as [Hs Hall]. apply Forall_cons in Hle as [Hk Hle].
  assert (Hstop : ~ in_scan prefix end_ k -> filter (fun a => in_scan prefix end_ a.1) ((k, v) :: l) = []).
  { intros Hn. apply list_filter_none. intros [k' v'] Hin [Hp He]. cbn [fst] in *. apply Hn.
    apply elem_of_cons in Hin as [[= -> ->]|Hin]; [done|]. eapply (proj1 (Forall_forall _ _) Hall) in Hin.
    cbn [fst] in Hin. split; [by eapply has_prefix_between|]. destruct He as [->|He]; [by left|right].
    by eapply str_leb_trans. }
  cbn [fmap list_fmap scan_loop as_item fst snd]. destruct (has_prefix prefix k) eqn:Hp; cbn [negb].
  2:{ rewrite Hstop; [done|]. intros [? _]. congruence. }
  destruct (negb (bool_decide (end_ = ""%string)) && negb (str_leb k end_)) eqn:He.
  - rewrite Hstop; [done|]. intros [_ Hk']. apply andb_true_iff in He as [He1 He2].
    apply negb_true_iff, bool_decide_eq_false in He1. apply negb_true_iff in He2. destruct Hk'; congruence.
  - rewrite filter_cons_True.
    + rewrite (IH (StronglySorted_Sorted Hs) Hle). done.
    + split; [done|]. destruct (decide (end_ = ""%string)); [by left|right].
      rewrite bool_decide_false in He by done. cbn [fst]. by destruct (str_leb k end_).
Qed.

Lemma Scan_mem prefix begin end_ (s : mem_store) :
  has_prefix prefix begin = true ->
  Scan prefix begin end_ s =
  (Ok ((fun a => KV a.1 a.2) <$> filter (fun a => in_scan prefix end_ a.1) (seek_list (view s) begin)), s).
Proof.
  intros Hb. cbn. unfold badger_Scan, map_not_found, catch, txnViewWrapper, txn_read.
  assert (Hl : forall m, scan_loop prefix end_ (as_item <$> seek_list m begin) =
    inl ((fun a => KV a.1 a.2) <$> filter (fun a => in_scan prefix end_ a.1) (seek_list m begin))).
  { intros m. apply scan_loop_mem; [apply seek_list_sorted|]. apply Forall_forall. intros a [_ Ha]%elem_of_seek_list.
    eapply str_leb_trans; [by apply has_prefix_leb | exact Ha]. }
  unfold as_item in Hl. destruct s as [d [t|]]; cbn; rewrite Hl; [done|].
  unfold view, txn_view. cbn. by rewrite apply_writes_empty.
Qed.

(** ** Deleting a bucket *)

Lemma delete_loop_mem ok l l' (t : mem_txn) n :
  Forall (fun a : string * blob => ok a.1 = true /\ a.1 <> ""%string) l ->
  match l' with [] => True | a :: _ => ok a.1 = false end ->
  delete_loop (B := MemBadger) ok (as_item <$> (l ++ l')) (t, n) =
  (Ok tt, (MemTxn (snap t) (add_writes (key_delete <$> l.*1) (writes t)), (n + length l)%nat)).
Proof.
  intros Hl Hl'. revert t n. induction Hl as [|[k v] l [Hk Hne] _ IH]; intros t n.
  - rewrite Nat.add_0_r. destruct t. destruct l' as [|[k v] l']; [done|]. cbn in *. by rewrite Hl'.
  - cbn in Hk, Hne |- *. rewrite Hk. unfold bind, delete_key. cbn. rewrite bool_decide_false by done.
    rewrite IH. by rewrite Nat.add_succ_r.
Qed.

(** In key order the keys behind a prefix begin with the keys that have it. *)
Lemma prefix_split prefix l :
  Sorted (fun a b : string * blob => str_le a.1 b.1) l ->
  Forall (fun a : string * blob => str_leb prefix a.1 = true) l ->
  exists l', l = filter (fun a => has_prefix prefix a.1 = true) l ++ l' /\
    match l' with [] => True | a :: _ => has_prefix prefix a.1 = false end.
Proof.
  induction l as [|[k v] l IH]; intros Hs Hle; [by exists []|]. apply Sorted_StronglySorted in Hs; [|apply _].
  apply StronglySorted_inv in Hs as [Hs Hall]. apply Forall_cons in Hle as [Hk Hle].
  destruct (has_prefix prefix k) eqn:Hp.
  - rewrite filter_cons_True by done. destruct (IH (StronglySorted_Sorted Hs) Hle) as (l' & E & Hl').
    exists l'. split; [cbn; by f_equal|done].
  - exists ((k, v) :: l). split; [|done]. rewrite list_filter_none; [done|]. intros [k' v'] Hin Hp'. cbn [fst] in *.
    apply elem_of_cons in Hin as [[= -> ->]|Hin]; [congruence|]. eapply (proj1 (Forall_forall _ _) Hall) in Hin.
    cbn [fst] in Hin. rewrite (has_prefix_between prefix k k') in Hp by done. done.
Qed.

Definition bucket_prefix (k : string) : string := if has_suffix_sep k then k else (k +:+ Separator)%string.

Lemma bucket_prefix_ne k : bucket_prefix k <> ""%string.
Proof. unfold bucket_prefix. destruct (has_suffix_sep k) eqn:E; [by intros -> | by destruct k]. Qed.

(** The pairs of a bucket, in key order. *)
Definition bucket_items (k : string) (m : gmap string blob) : list (string * blob) :=
  filter (fun a => has_prefix (bucket_prefix k) a.1 = true) (seek_list m (bucket_prefix k)).

Lemma delete_bucket_mem k m (t : mem_txn) :
  delete_loop (B := MemBadger) (has_prefix (bucket_prefix k)) (as_item <$> seek_list m (bucket_prefix k)) (t, 0%nat) =
  (Ok tt, (MemTxn (snap t) (add_writes (key_delete <$> (bucket_items k m).*1) (writes t)), length (bucket_items k m))).
Proof.
  destruct (prefix_split (bucket_prefix k) (seek_list m (bucket_prefix k))) as (l' & E & Hl').
  - apply seek_list_sorted.
  - apply Forall_forall. intros a [_ Ha]%elem_of_seek_list. done.
  - fold (bucket_items k m) in E. rewrite E. apply (delete_loop_mem _ _ _ t 0); [|done].
    apply Forall_forall. intros a [Ha _]%list_elem_of_filter. split; [done|]. intros E0. rewrite E0 in Ha.
    pose proof (bucket_prefix_ne k). by destruct (bucket_prefix k).
Qed.

(** The deletions leave the keys outside the bucket. *)
Lemma map_upds_delete l m k :
  map_upds (key_delete <$> l) m !! k = if decide (k ∈ l) then None else m !! k.
Proof.
  revert m. induction l as [|j l IH]; intros m; [by rewrite decide_False by apply not_elem_of_nil|].
  change (map_upds (key_delete <$> l) (map_upd (key_delete j) m) !! k = if decide (k ∈ j :: l) then None else m !! k).
  rewrite IH, lookup_map_upd. cbn [key_delete fst snd].
  destruct (decide (k ∈ j :: l)) as [[->|Hin]%elem_of_cons|[Hj Hl]%not_elem_of_cons].
  - rewrite (decide_True (P := j = j)) by done. by case_decide.
  - by rewrite decide_True.
  - by rewrite decide_False, decide_False.
Qed.

Lemma map_upds_bucket k m :
  map_upds (key_delete <$> (bucket_items k m).*1) m = filter (fun a => has_prefix (bucket_prefix k) a.1 = false) m.
Proof.
  apply map_eq. intros j. rewrite map_upds_delete. apply option_eq. intros v. rewrite map_lookup_filter_Some. cbn [fst].
  assert (Hj : j ∈ (bucket_items k m).*1 <-> is_Some (m !! j) /\ has_prefix (bucket_prefix k) j = true).
  { rewrite list_elem_of_fmap. split.
    - intros ([j' v'] & -> & Hin). apply list_elem_of_filter in Hin as [Hp [Hv _]%elem_of_seek_list]. cbn in *. eauto.
    - intros [[v' Hv] Hp]. exists (j, v'). split; [done|]. apply list_elem_of_filter. split; [done|].
      apply elem_of_seek_list. split; [done|]. by apply has_prefix_leb. }
  destruct (decide _) as [Hd|Hd]; rewrite Hj in Hd; destruct (has_prefix (bucket_prefix k) j) eqn:Hp; naive_solver.
Qed.

Lemma map_upds_save l m :
  map_upds (kv_write <$> l) m = foldl (fun m e => <[kv_Key e := kv_Value e]> m) m l.
Proof. revert m. induction l as [|e l IH]; intros m; [done|]. apply IH. Qed.
Lemma map_upds_delete_all l m : map_upds (key_delete <$> l) m = foldl (fun m k => delete k m) m l.
Proof. revert m. induction l as [|e l IH]; intros m; [done|]. apply IH. Qed.

Lemma scan_sorted prefix begin end_ m :
  Sorted (fun x y => str_le (kv_Key x) (kv_Key y))
    ((fun a => KV a.1 a.2) <$> filter (fun a => in_scan prefix end_ a.1) (seek_list m begin)).
Proof.
  apply StronglySorted_Sorted. pose proof (seek_list_sorted m begin) as Hs. apply Sorted_StronglySorted in Hs; [|apply _].
  induction (seek_list m begin) as [|a l IH]; [constructor|]. apply StronglySorted_inv in Hs as [Hs Ha].
  rewrite filter_cons. destruct (decide _); [|by apply IH]. cbn. constructor; [by apply IH|].
  apply Forall_fmap, Forall_forall. intros b Hb. apply list_elem_of_filter in Hb as [_ Hb]. cbn.
  by apply (proj1 (Forall_forall _ _) Ha).
Qed.

Lemma elem_of_scan prefix begin end_ m k v :
  KV k v ∈ ((fun a => KV a.1 a.2) <$> filter (fun a => in_scan prefix end_ a.1) (seek_list m begin)) <->
  m !! k = Some v /\ str_leb begin k = true /\ in_scan prefix end_ k.
Proof.
  rewrite list_elem_of_fmap. split.
  - intros ([k' v'] & [= -> ->] & Hin). apply list_elem_of_filter in Hin as [Hp [Hv Hb]%elem_of_seek_list]. done.
  - intros (Hv & Hb & Hp). exists (k, v). split; [done|]. apply list_elem_of_filter. split; [done|].
    by apply elem_of_seek_list.
Qed.

(** * Simulation by the reference store *)

Section badger_sim.
Context {B : Badger} `{!BadgerSpec B}.

(** Transaction callbacks of the two stores that agree. *)
Definition txn_sim {A} (cb : M (@badger_Txn B) error A) (cb' : M (@badger_Txn MemBadger) error A) :=
  sim abs_Txn cb cb'.

Lemma txn_sim_read {A} (f : @badger_Txn B -> A + error) (f' : @badger_Txn MemBadger -> A + error) :
  (forall t, f t = f' (abs_Txn t)) -> txn_sim (txn_read f) (txn_read f').
Proof. intros Hf t. unfold txn_read. rewrite <- Hf. by destruct (f t). Qed.

Lemma txn_sim_call (f : @badger_Txn B -> _) (f' : @badger_Txn MemBadger -> _) :
  (forall t, f' (abs_Txn t) = sum_map abs_Txn id (f t)) -> txn_sim (txn_call f) (txn_call f').
Proof. intros Hf t. unfold txn_call. rewrite Hf. by destruct (f t). Qed.

Lemma sim_txnUpdateWrapper cb cb' :
  txn_sim cb cb' -> sim abs_store (txnUpdateWrapper cb) (txnUpdateWrapper cb').
Proof.
  intros Hcb [d [t|]]; unfold txnUpdateWrapper, abs_store; simpl.
  - rewrite (Hcb t). by destruct (cb t).
  - change (MemTxn (abs_DB d) ∅) with (DB_NewTransaction (abs_DB d)).
    rewrite <- NewTransaction_spec, (Hcb (DB_NewTransaction d)).
    destruct (cb (DB_NewTransaction d)) as [[a|e|] t]; simpl; try done.
    pose proof (Txn_Commit_spec d t) as Hc. simpl in Hc.
    destruct (Txn_Commit d t) as [d' e]. simpl in *. simplify_eq. by rewrite H.
Qed.

Lemma sim_txnViewWrapper {A} (cb : M _ error A) cb' :
  txn_sim cb cb' -> sim abs_store (txnViewWrapper cb) (txnViewWrapper cb').
Proof.
  intros Hcb [d [t|]]; unfold txnViewWrapper, abs_store; simpl.
  - rewrite (Hcb t). by destruct (cb t).
  - change (MemTxn (abs_DB d) ∅) with (DB_NewTransaction (abs_DB d)).
    rewrite <- NewTransaction_spec, (Hcb (DB_NewTransaction d)).
    by destruct (cb (DB_NewTransaction d)).
Qed.

Lemma sim_map_not_found {A} (m : M _ error A) m' :
  sim abs_store m m' -> sim abs_store (map_not_found m) (map_not_found m').
Proof. intros Hm. unfold map_not_found. apply sim_catch; [done|]. intros r. solve_sim. Qed.

Lemma txn_sim_batch {A} b (op : A -> @badger_Txn B -> _) (op' : A -> @badger_Txn MemBadger -> _) l :
  (forall x t, op' x (abs_Txn t) = sum_map abs_Txn id (op x t)) ->
  txn_sim (batch_loop b op l) (batch_loop b op' l).
Proof.
  intros Hop. induction l as [|x l IH]; simpl; [apply sim_ret|].
  apply sim_catch; [by apply txn_sim_call|]. intros r. unfold txn_sim in IH. solve_sim.
Qed.

Lemma delete_loop_abs ok items (t : @badger_Txn B) n :
  delete_loop ok items (abs_Txn t, n) = prod_map id (prod_map abs_Txn id) (delete_loop ok items (t, n)).
Proof.
  revert t n. induction items as [|[k v] l IH]; intros t n; cbn [delete_loop]; [done|].
  destruct (ok k); [|done]. unfold bind, delete_key. rewrite Txn_Delete_spec.
  destruct (Txn_Delete t k); cbn [sum_map]; [apply IH|done].
Qed.

(** The transaction a call runs in. *)
Definition current (s : BadgerStore B) : badger_Txn :=
  match ctxTxn s with Some t => t | None => DB_NewTransaction (DB s) end.

Lemma update_run cb (s : BadgerStore B) t l :
  cb (current s) = (Ok tt, t) ->
  abs_Txn t = MemTxn (snap (abs_Txn (current s))) (add_writes l (writes (abs_Txn (current s)))) ->
  exists s', txnUpdateWrapper cb s = (Ok tt, s') /\ abs_store s' = upds l (abs_store s).
Proof.
  unfold current, txnUpdateWrapper. rewrite upds_writes. unfold abs_store at 2 3. destruct (ctxTxn s) as [t0|] eqn:E; cbn.
  - intros -> Ht. eexists. split; [done|]. unfold abs_store. cbn. by rewrite Ht.
  - intros -> Ht. pose proof (Txn_Commit_spec (DB s) t) as Hc. cbn in Hc. destruct (Txn_Commit (DB s) t) as [d e].
    injection Hc as Hd <-. eexists. split; [done|]. unfold abs_store. cbn.
    by rewrite <- Hd, Ht, NewTransaction_spec.
Qed.

(** Deleting a bucket deletes the pairs below it when the slices the loop handed
    over still hold the keys. *)
Lemma DeleteByBucket_run k (s : BadgerStore B) :
  let m := view (abs_store s) in
  let ks := (seek_list m (bucket_prefix k)).*1 in
  Iter_Reuse (Badger := B) ks (length (bucket_items k m)) = take (length (bucket_items k m)) ks ->
  exists s', DeleteByBucket k s = (Ok tt, s') /\ abs_store s' = upds (key_delete <$> (bucket_items k m).*1) (abs_store s).
Proof.
  intros m ks Hr. cbn [DeleteByBucket BadgerStore_Store]. unfold badger_DeleteByBucket. fold (bucket_prefix k).
  assert (Hseek : Txn_Seek (current s) (bucket_prefix k) = as_item <$> seek_list m (bucket_prefix k)).
  { rewrite Txn_Seek_spec. cbn. do 2 f_equal. unfold current, m, view, abs_store. destruct (ctxTxn s); cbn; [done|].
    rewrite NewTransaction_spec. unfold txn_view. cbn. apply apply_writes_empty. }
  pose proof (delete_loop_abs (has_prefix (bucket_prefix k)) (as_item <$> seek_list m (bucket_prefix k)) (current s) 0) as Hl.
  rewrite delete_bucket_mem in Hl. destruct (delete_loop _ _ (current s, 0%nat)) as [r [t n]] eqn:El.
  cbn in Hl. injection Hl as <- Ht <-. apply (update_run _ s t); [|done].
  unfold delete_while. rewrite Hseek, El. rewrite Txn_Rekey_same; [done|].
  assert (Hks : (as_item <$> seek_list m (bucket_prefix k)).*1 = ks) by (rewrite <- list_fmap_compose; done).
  rewrite Hks, Hr. apply Forall_forall. intros [a b] Hin. apply elem_of_lookup_zip_with in Hin as (i & x & y & -> & Hx & Hy).
  apply lookup_take_Some in Hy as [Hy _]. cbn. congruence.
Qed.

#[local] Hint Resolve Txn_Get_spec Txn_Set_spec Txn_Delete_spec : core.

(** Every operation of the backend over a conforming badger does what it does
    over the reference one. *)
#[export] Instance badger_store_sim : StoreSim abs_store.
Proof.
  split; simpl.
  - intros k v. apply sim_txnUpdateWrapper, txn_sim_call. intros; apply Txn_Set_spec.
  - intros k. apply sim_map_not_found, sim_txnViewWrapper, txn_sim_read.
    intros; apply Txn_Get_spec.
  - intros p b e. apply sim_map_not_found, sim_txnViewWrapper, txn_sim_read.
    intros t. by rewrite Txn_Seek_spec.
  - intros k. apply sim_map_not_found, sim_txnUpdateWrapper, txn_sim_call.
    intros; apply Txn_Delete_spec.
  - intros k. apply sim_map_not_found, sim_txnViewWrapper, txn_sim_read.
    intros t. by rewrite Txn_Seek_spec.
  - intros k n s. unfold badger_Incr.
    pose proof (SequenceNext_spec (DB s) k n) as Hs. simpl in *. rewrite Hs.
    by destruct (DB_SequenceNext (DB s) k n).
  - intros b l. apply sim_txnUpdateWrapper, txn_sim_batch. intros; apply Txn_Set_spec.
  - intros b l. apply sim_catch; [|intros r; solve_sim].
    apply sim_txnUpdateWrapper, txn_sim_batch. intros; apply Txn_Delete_spec.
  - intros s. unfold BadgerTxn_Begin, abs_store. simpl. by rewrite NewTransaction_spec.
  - intros [d [t|]]; unfold BadgerTxn_Commit, abs_store; simpl; [|done].
    pose proof (Txn_Commit_spec d t) as Hc. simpl in Hc.
    destruct (Txn_Commit d t) as [d' e]. simpl in *. simplify_eq. by rewrite H.
  - done.
Qed.
End badger_sim.
