(* ===== verification/StoreProps.v ===== *)
(** The theorems of the store package over any badger that behaves as documented
    (src/pkg/store/store.go, store_badger.go, txn_badger.go). *)
From Stdlib Require Import Ascii.
From stdpp Require Import prelude gmap strings list fin_maps sorting.
From S2P Require Import Prelude Store Badger.

(** * Transactions *)

Section txn.
Context {B : Badger}.
Abbreviation store := (BadgerStore B).

(** Inside a transaction, a program that leaves the database itself alone: its
    writes stay in the transaction. *)
Definition keeps_db {A} (m : M store error A) : Prop :=
  forall s t, ctxTxn s = Some t -> exists t', (m s).2 = MkBadgerStore (DB s) (Some t').

Lemma keeps_ret {A} (a : A) : keeps_db (ret a).
Proof. intros [d o] t Ht. simpl in *. subst. by exists t. Qed.
Lemma keeps_throw {A} e : keeps_db (A := A) (throw e).
Proof. intros [d o] t Ht. simpl in *. subst. by exists t. Qed.
Lemma keeps_bind {A C} (m : M store error A) (k : A -> M store error C) :
  keeps_db m -> (forall a, keeps_db (k a)) -> keeps_db (bind m k).
Proof.
  intros Hm Hk s t Ht. destruct (Hm s t Ht) as [t1 E]. unfold bind.
  destruct (m s) as [[a|e|] s1]; simpl in E; subst s1; [|by exists t1..].
  exact (Hk a (MkBadgerStore (DB s) (Some t1)) t1 eq_refl).
Qed.
Lemma keeps_catch {A C} (m : M store error A) (k : A + error -> M store error C) :
  keeps_db m -> (forall a, keeps_db (k a)) -> keeps_db (catch m k).
Proof.
  intros Hm Hk s t Ht. destruct (Hm s t Ht) as [t1 E]. unfold catch.
  destruct (m s) as [[a|e|] s1]; simpl in E; subst s1; [..|by exists t1];
    exact (Hk _ (MkBadgerStore (DB s) (Some t1)) t1 eq_refl).
Qed.

Lemma keeps_update (cb : M badger_Txn error unit) : keeps_db (txnUpdateWrapper cb).
Proof.
  intros s t Ht. unfold txnUpdateWrapper. rewrite Ht. destruct (cb t) as [r t']. by exists t'.
Qed.
Lemma keeps_view {A} (cb : M badger_Txn error A) : keeps_db (txnViewWrapper cb).
Proof.
  intros s t Ht. unfold txnViewWrapper. rewrite Ht. destruct (cb t) as [r t']. by exists t'.
Qed.

Create HintDb keeps discriminated.
#[local] Hint Constants Opaque : keeps.
#[local] Hint Resolve keeps_ret keeps_throw keeps_update keeps_view : keeps.
Ltac solve_keeps :=
  repeat first
    [ solve [auto with keeps]
    | apply keeps_bind; [|intros ?] | apply keeps_catch; [|intros ?]
    | match goal with |- keeps_db (match ?x with _ => _ end) => destruct x end
    | progress cbv zeta ].

(** In a transaction the reads and writes of the badger store never touch the
    database: its pairs change only at commit.  The counter behind [Incr] and
    [Cleanup] are not in this list, because they go around the transaction. *)
Theorem txn_calls_keep_db k v p b e l ks ign :
  keeps_db (Save k v) /\ keeps_db (Get k) /\ keeps_db (Scan p b e) /\ keeps_db (Delete k) /\
  keeps_db (GetByBucket k) /\ keeps_db (DeleteByBucket k) /\ keeps_db (BatchSave ign l) /\
  keeps_db (BatchDeleteByKey ign ks).
Proof.
  split_and!; simpl; unfold badger_Save, badger_Get, badger_Scan, badger_Delete, badger_GetByBucket,
    doGetValuesByPrefix, badger_DeleteByBucket, badger_BatchSave, badger_BatchDeleteByKey,
    map_not_found; solve_keeps.
Qed.

(** A transaction whose callback works on the transaction only is all or nothing: when
    the callback fails, the database is as it was before; when it succeeds, it is what
    badger's commit makes of the callback's transaction. *)
Theorem DoInTxn_atomic {A} (cb : M store error A) (s : store) :
  keeps_db cb ->
  match DoInTxn cb s with
  | (Err _, s') => s' = MkBadgerStore (DB s) None
  | (_, s') => exists t, (cb (Begin s)).2 = MkBadgerStore (DB s) (Some t) /\
                 s' = MkBadgerStore (Txn_Commit (DB s) t).1 None
  end.
Proof.
  intros Hcb. destruct (Hcb (BadgerTxn_Begin s) (DB_NewTransaction (DB s)) eq_refl) as [t E].
  unfold DoInTxn. change (Begin s) with (BadgerTxn_Begin s). destruct (cb (BadgerTxn_Begin s)) as [[a|e|] s1]; simpl in *; subst s1; [|done|];
    exists t; (split; [done|]); unfold BadgerTxn_Commit; simpl; by destruct (Txn_Commit (DB s) t).
Qed.
End txn.

Definition empty_db : mem_store := @MkBadgerStore MemBadger (∅ : gmap string blob) None.
Definition failing_save : M mem_store error unit := Save "a" (BSeq 1) ;;; throw ErrJson.

Lemma DoInTxn_atomic_witness : (DoInTxn failing_save empty_db).2 = empty_db.
Proof.
  apply (DoInTxn_atomic failing_save empty_db).
  apply keeps_bind; [apply keeps_update|intros _; apply keeps_throw].
Defined.

(** * Lost commits *)

(** A badger every commit of which reports a conflict and changes nothing. *)
Definition ConflictBadger : Badger := {|
  badger_DB := gmap string blob;
  badger_Txn := mem_txn;
  DB_NewTransaction m := MemTxn m ∅;
  Txn_Get := @Txn_Get MemBadger;
  Txn_Set := @Txn_Set MemBadger;
  Txn_Delete := @Txn_Delete MemBadger;
  Txn_Seek := @Txn_Seek MemBadger;
  Iter_Reuse := @Iter_Reuse MemBadger;
  Txn_Rekey := rekey;
  Txn_Commit m t := (m, Some BadgerErrConflict);
  DB_SequenceNext := mem_sequence_next;
|}.

(** [DoInTxn] drops the error of the commit: over a badger whose commits
    conflict it reports success for a write that never reaches the database. *)
Theorem commit_conflict_lost k v (s : BadgerStore ConflictBadger) :
  k <> ""%string -> DoInTxn (Save k v) s = (Ok tt, MkBadgerStore (DB s) None).
Proof.
  intros Hk. unfold DoInTxn. simpl. unfold badger_Save, txnUpdateWrapper, txn_call. simpl.
  by rewrite bool_decide_false.
Qed.
Lemma commit_conflict_lost_witness :
  DoInTxn (Save "a" (BSeq 1)) (@MkBadgerStore ConflictBadger (∅ : gmap string blob) None) =
  (Ok tt, @MkBadgerStore ConflictBadger (∅ : gmap string blob) None).
Proof. apply (commit_conflict_lost "a" (BSeq 1)). discriminate. Defined.

(** * Reused key slices *)

(** A badger whose iterator keeps ten items and fills the one it has passed with
    the next key it fetches: after [n] calls of [Next] the slice of item [i]
    shows the last key fetched into it. *)
Definition last_use (len n i : nat) : nat := i + 10 * ((Nat.min len (n + 10) - 1 - i) / 10).
Definition ring_keys (ks : list string) (n : nat) : list string :=
  (fun i => default ""%string (ks !! last_use (length ks) n i)) <$> seq 0 n.

Definition RingBadger : Badger := {|
  badger_DB := gmap string blob;
  badger_Txn := mem_txn;
  DB_NewTransaction m := MemTxn m ∅;
  Txn_Get := @Txn_Get MemBadger;
  Txn_Set := @Txn_Set MemBadger;
  Txn_Delete := @Txn_Delete MemBadger;
  Txn_Seek := @Txn_Seek MemBadger;
  Iter_Reuse := ring_keys;
  Txn_Rekey := rekey;
  Txn_Commit := @Txn_Commit MemBadger;
  DB_SequenceNext := mem_sequence_next;
|}.

Definition RingBadger_spec : BadgerSpec RingBadger := {|
  abs_DB := fun d : @badger_DB RingBadger => d : @badger_DB MemBadger;
  abs_Txn := fun t : @badger_Txn RingBadger => t : @badger_Txn MemBadger;
  NewTransaction_spec := @NewTransaction_spec MemBadger MemBadger_spec;
  Txn_Get_spec := @Txn_Get_spec MemBadger MemBadger_spec;
  Txn_Set_spec := @Txn_Set_spec MemBadger MemBadger_spec;
  Txn_Delete_spec := @Txn_Delete_spec MemBadger MemBadger_spec;
  Txn_Seek_spec := @Txn_Seek_spec MemBadger MemBadger_spec;
  Txn_Rekey_same := @Txn_Rekey_same MemBadger MemBadger_spec;
  Txn_Commit_spec := @Txn_Commit_spec MemBadger MemBadger_spec;
  SequenceNext_spec := @SequenceNext_spec MemBadger MemBadger_spec;
|}.

Lemma rekey_gone (l : list (string * string)) (w : gmap string (option blob)) k :
  w !! k = None -> Forall (fun p => p.2 <> k) l ->
  foldl (fun w p => if bool_decide (p.1 = p.2) then w else <[p.2 := None]> (delete p.1 w)) w l !! k = None.
Proof.
  intros Hw Hl. revert w Hw. induction Hl as [|p l Hp _ IH]; intros w Hw; [done|]. cbn [foldl]. apply IH.
  case_bool_decide; [done|]. rewrite lookup_insert_ne by done. by apply lookup_delete_None; right.
Qed.

Lemma last_use_bounds len n i : (i < n -> n <= len -> i <= last_use len n i < len)%nat.
Proof.
  unfold last_use. intros Hi Hn. pose proof (Nat.Div0.mul_div_le (Nat.min len (n + 10) - 1 - i) 10). lia.
Qed.
Lemma last_use_first len n : (0 < n -> 10 < len -> 10 <= last_use len n 0)%nat.
Proof.
  unfold last_use. intros Hn Hl. pose proof (Nat.div_le_mono 10 (Nat.min len (n + 10) - 1 - 0) 10). 
  change (10 / 10)%nat with 1%nat in *. lia.
Qed.

(** The slice of the first of more than ten keys comes to show another key, and
    no slice shows the first again. *)
Lemma ring_rekeys (ks : list string) k0 n w :
  NoDup ks -> ks !! 0%nat = Some k0 -> (0 < n <= length ks)%nat -> (10 < length ks)%nat ->
  writes (rekey (MemTxn ∅ w) (zip ks (ring_keys ks n))) !! k0 = None.
Proof.
  intros Hnd H0 Hn Hlen. assert (Hne : forall i, (i < n)%nat -> (0 < last_use (length ks) n i)%nat ->
    default ""%string (ks !! last_use (length ks) n i) <> k0).
  { intros i Hi Hpos E. destruct (last_use_bounds (length ks) n i) as [_ Hlt]; [lia..|].
    destruct (lookup_lt_is_Some_2 ks _ Hlt) as [x Hx]. rewrite Hx in E. cbn in E. subst x.
    pose proof (NoDup_lookup _ _ _ _ Hnd Hx H0). lia. }
  unfold ring_keys. destruct n as [|n]; [lia|]. destruct ks as [|k ks']; [done|]. injection H0 as ->.
  set (ks := k0 :: ks') in *. cbn [rekey writes]. rewrite <- cons_seq. cbn [fmap list_fmap].
  change (zip ks (?x :: ?l)) with ((k0, x) :: zip ks' l). cbn [foldl]. cbn [fst snd].
  pose proof (Hne 0%nat ltac:(lia) ltac:(pose proof (last_use_first (length ks) (S n)); lia)) as Hne0.
  rewrite bool_decide_false by done. apply rekey_gone.
  - rewrite lookup_insert_ne by done. apply lookup_delete_eq.
  - apply Forall_forall. intros [a b] Hin. apply elem_of_lookup_zip_with in Hin as (i & x & y & [= -> ->] & _ & Hy).
    apply list_lookup_fmap_Some in Hy as (j & -> & Hj). apply lookup_seq in Hj as [-> Hj]. cbn [snd].
    apply Hne; [lia|]. destruct (last_use_bounds (length ks) (S n) (1 + i)); lia.
Qed.

(** Over such a badger the first key of a bucket outlives the deletion of the
    bucket as soon as the database holds more than ten keys from there on; the
    call reports success. *)
Theorem DeleteByBucket_leaves_key k (d : gmap string blob) k0 v :
  head (bucket_items k d) = Some (k0, v) -> (10 < length (seek_list d (bucket_prefix k)))%nat ->
  exists d', DeleteByBucket k (@MkBadgerStore RingBadger d None) = (Ok tt, @MkBadgerStore RingBadger d' None) /\
    d' !! k0 = Some v.
Proof.
  intros Hh Hlen. cbn [DeleteByBucket BadgerStore_Store]. unfold badger_DeleteByBucket, txnUpdateWrapper, delete_while.
  fold (bucket_prefix k). cbn [ctxTxn DB DB_NewTransaction RingBadger Txn_Seek MemBadger Txn_Rekey Iter_Reuse].
  assert (Hv : txn_view (MemTxn d ∅) = d) by apply apply_writes_empty. rewrite Hv. fold as_item.
  pose proof (delete_bucket_mem k d (MemTxn d ∅)) as Hrun. cbn [snap writes] in Hrun.
  destruct (@delete_loop RingBadger _ _ _) as [r [t n]] eqn:El.
  assert (E3 : (r, (t, n)) = _) by exact (eq_trans (eq_sym El) Hrun). injection E3 as -> -> ->.
  set (n := length (bucket_items k d)). set (ks := (seek_list d (bucket_prefix k)).*1).
  assert (Hks : (as_item <$> seek_list d (bucket_prefix k)).*1 = ks) by (rewrite <- list_fmap_compose; done).
  rewrite Hks. eexists. split; [done|]. destruct (bucket_items k d) as [|a bl] eqn:Eb; [done|]. injection Hh as ->.
  destruct (prefix_split (bucket_prefix k) (seek_list d (bucket_prefix k))) as (l' & E & _).
  { apply seek_list_sorted. }
  { apply Forall_forall. intros a [_ Ha]%elem_of_seek_list. done. }
  fold (bucket_items k d) in E. rewrite Eb in E. cbn [Txn_Commit MemBadger]. cbn [fst].
  rewrite lookup_apply_writes. change (writes (rekey ?t ?l)) with (writes (rekey (MemTxn ∅ (writes t)) l)).
  rewrite (ring_rekeys ks k0 n); [| | | |].
  - assert (Hin : (k0, v) ∈ seek_list d (bucket_prefix k)) by (rewrite E; apply list_elem_of_here).
    by apply elem_of_seek_list in Hin as [Hin _].
  - apply seek_list_NoDup.
  - unfold ks. by rewrite E.
  - unfold ks, n. rewrite E, length_fmap, length_app. cbn. lia.
  - unfold ks. by rewrite length_fmap.
Qed.

(** * Helpers *)

(** [BatchGetValueByKey] fails for every non-empty request, whatever the store
    holds: its slice starts with as many nil serializers as there are builders. *)
Theorem BatchGetValueByKey_fails {S T} `{Store S, Serializer T} (x : serializer T) xs (s : S) :
  BatchGetValueByKey (inl <$> (x :: xs)) s = (Err ErrNilSerializer, s).
Proof. unfold BatchGetValueByKey. by rewrite build_all_ok. Qed.

Lemma sim_run {B} `{!BadgerSpec B} {A} (m : M (BadgerStore B) error A) m' s r s1 :
  sim abs_store m m' -> m' (abs_store s) = (r, s1) -> exists s', m s = (r, s') /\ abs_store s' = s1.
Proof.
  intros Hs Hm. rewrite Hs in Hm. destruct (m s) as [r' s']. injection Hm as -> <-. eauto.
Qed.

Section conforming.
Context {B : Badger} `{!BadgerSpec B}.

(** What a read sees. *)
Definition sees (s : BadgerStore B) : gmap string blob := view (abs_store s).

(** Every operation of the backend over a badger that behaves as documented
    returns what it returns over the reference badger and leaves the
    corresponding state. *)
Theorem badger_backend_sim : StoreSim (abs_store (B := B)).
Proof. apply badger_store_sim. Qed.

(** A bucket listing returns exactly the visible pairs whose key starts with the
    bucket's name and a separator, in and out of a transaction. *)
Theorem GetByBucket_exact k (s : BadgerStore B) :
  trim_key k <> Separator ->
  exists m s', GetByBucket k s = (Ok m, s') /\ sees s' = sees s /\
    forall j v, m !! j = Some v <-> sees s !! j = Some v /\ exists r, j = (trim_key k +:+ "/" +:+ r)%string.
Proof.
  intros Hk. destruct (sim_run _ _ s _ _ (sim_GetByBucket k) (GetByBucket_mem k (abs_store s) Hk)) as (s' & Hrun & Hs').
  eexists _, s'. split_and!; [exact Hrun | by unfold sees; rewrite Hs' |]. intros j v.
  rewrite map_lookup_filter_Some. cbn [fst]. rewrite has_prefix_spec. unfold Separator.
  setoid_rewrite str_app_assoc. done.
Qed.

(** No key slice that deleting the bucket hands to badger is reused by the
    iterator before the deletion takes effect. *)
Definition keys_kept (k : string) (s : BadgerStore B) : Prop :=
  let ks := (seek_list (sees s) (bucket_prefix k)).*1 in
  Iter_Reuse (Badger := B) ks (length (bucket_items k (sees s))) = take (length (bucket_items k (sees s))) ks.

(** C13 Over a badger that behaves as documented the store is a map from keys to
    values, in and out of a transaction: saves insert, deletes remove, singly and
    in batches, reads return what is there, up to a trailing separator, and a scan
    returns the pairs of its range in key order.  Keys are not empty and a scan
    begins at a key with its prefix.  Deleting a bucket removes exactly the keys
    below it provided badger's iterator does not reuse, before the deletions take
    effect, the key slices the loop hands over without copying them
    ([DeleteByBucket_leaves_key] is what happens otherwise). *)
Theorem Store_implements (s : BadgerStore B) :
  (forall k v, k <> ""%string -> exists s', Save k v s = (Ok tt, s') /\ sees s' = <[k := v]> (sees s)) /\
  (forall k, trim_key k <> ""%string -> exists s',
     Get k s = (match sees s !! trim_key k with Some v => Ok v | None => Err ErrNotFound end, s') /\ sees s' = sees s) /\
  (forall k, k <> ""%string -> exists s', Delete k s = (Ok tt, s') /\ sees s' = delete k (sees s)) /\
  (forall b l, Forall (fun e => kv_Key e <> ""%string) l -> exists s', BatchSave b l s = (Ok tt, s') /\
     sees s' = foldl (fun m e => <[kv_Key e := kv_Value e]> m) (sees s) l) /\
  (forall b l, Forall (fun k => k <> ""%string) l -> exists s', BatchDeleteByKey b l s = (Ok tt, s') /\
     sees s' = foldl (fun m k => delete k m) (sees s) l) /\
  (forall k, keys_kept k s -> exists s', DeleteByBucket k s = (Ok tt, s') /\
     sees s' = filter (fun a => has_prefix (bucket_prefix k) a.1 = false) (sees s)) /\
  (forall p b e, has_prefix p b = true -> exists l s', Scan p b e s = (Ok l, s') /\ sees s' = sees s /\
     Sorted (fun x y => str_le (kv_Key x) (kv_Key y)) l /\
     forall k v, KV k v ∈ l <-> sees s !! k = Some v /\ str_leb b k = true /\ in_scan p e k).
Proof.
  split_and!.
  - intros k v Hk. destruct (sim_run _ _ s _ _ (sim_Save k v) (Save_mem k v (abs_store s) Hk)) as (s' & Hrun & Hs').
    exists s'. unfold sees. by rewrite Hs', view_upd.
  - intros k Hk. destruct (sim_run _ _ s _ _ (sim_Get k) (Get_mem k (abs_store s) Hk)) as (s' & Hrun & Hs').
    exists s'. unfold sees. by rewrite Hs'.
  - intros k Hk. destruct (sim_run _ _ s _ _ (sim_Delete k) (Delete_mem k (abs_store s) Hk)) as (s' & Hrun & Hs').
    exists s'. unfold sees. by rewrite Hs', view_upd.
  - intros b l Hl. destruct (sim_run _ _ s _ _ (sim_BatchSave b l) (BatchSave_mem b l (abs_store s) Hl))
      as (s' & Hrun & Hs'). exists s'. unfold sees. by rewrite Hs', view_upds, map_upds_save.
  - intros b l Hl. destruct (sim_run _ _ s _ _ (sim_BatchDeleteByKey b l) (BatchDeleteByKey_mem b l (abs_store s) Hl))
      as (s' & Hrun & Hs'). exists s'. unfold sees. by rewrite Hs', view_upds, map_upds_delete_all.
  - intros k Hk. destruct (DeleteByBucket_run k s Hk) as (s' & Hrun & Hs').
    exists s'. unfold sees. by rewrite Hs', view_upds, map_upds_bucket.
  - intros p b e Hb. destruct (sim_run _ _ s _ _ (sim_Scan p b e) (Scan_mem p b e (abs_store s) Hb))
      as (s' & Hrun & Hs'). eexists _, s'. split_and!; [exact Hrun | by unfold sees; rewrite Hs' | |].
    + apply scan_sorted.
    + intros k v. apply elem_of_scan.
Qed.

(** What is saved under a key that has no trailing separator is what [Get]
    returns, in and out of a transaction; other keys keep their values. *)
Theorem save_get k k' v (s : BadgerStore B) :
  k <> ""%string -> k' <> ""%string -> trim_key k' = k' ->
  (Save k v s).1 = Ok tt /\
  (Get k' (Save k v s).2).1 =
    if decide (k = k') then Ok v
    else match sees s !! k' with Some v' => Ok v' | None => Err ErrNotFound end.
Proof.
  intros Hk Hk' Ht. pose proof (Save_mem k v (abs_store s) Hk) as E.
  rewrite (sim_Save k v s) in E. destruct (Save k v s) as [r s']. 
  pose proof (f_equal fst E) as E1. pose proof (f_equal snd E) as E2. simpl in E1, E2. subst r.
  split; [done|]. cbn [snd]. pose proof (Get_mem k' (abs_store s')) as G. rewrite Ht in G.
  rewrite (sim_Get k' s') in G. specialize (G Hk'). apply (f_equal fst) in G. simpl in G. 
  unfold id in G. simpl. rewrite G, E2, view_upd, lookup_map_upd. simpl. by case_decide.
Qed.
End conforming.

Lemma Store_implements_witness :
  exists s', Save "a" (BSeq 1) empty_db = (Ok tt, s') /\
    sees (B := MemBadger) (BadgerSpec0 := MemBadger_spec) s' !! "a"%string = Some (BSeq 1).
Proof.
  destruct (Store_implements (B := MemBadger) empty_db) as (Hsave & _).
  destruct (Hsave "a"%string (BSeq 1) ltac:(done)) as (s' & Hrun & Hs').
  exists s'. split; [exact Hrun|]. rewrite Hs'. apply lookup_insert_eq.
Defined.

(** [Get] trims a trailing separator that [Save] keeps: a value saved under such
    a key is not found again under it. *)
Theorem get_misses_trailing_separator k v (s : mem_store) :
  k <> ""%string -> view s !! k = None ->
  (Get (k +:+ "/")%string (Save (k +:+ "/")%string v s).2).1 = Err ErrNotFound.
Proof.
  intros Hk Hs. assert (trim_key (k +:+ "/")%string = k) as Ht.
  { unfold trim_key. rewrite bool_decide_false; [apply trim_suffix_char_snoc|].
    intros H. destruct k as [|a k]; [done|]. destruct k; simplify_eq/=. }
  rewrite Save_mem by (by destruct k). cbn [snd].
  rewrite Get_mem; rewrite Ht; [|done]. cbn [fst]. rewrite view_upd, lookup_map_upd. cbn [fst snd].
  rewrite decide_False, Hs; [done|]. intros H.
  apply (f_equal String.length) in H. rewrite str_length_app in H. simpl in H. lia.
Qed.
Lemma get_misses_trailing_separator_witness :
  (Get "a/" (Save "a/" (BSeq 1) empty_db).2).1 = Err ErrNotFound.
Proof. apply (get_misses_trailing_separator "a"); [discriminate|reflexivity]. Defined.

Definition two_pairs : mem_store :=
  @MkBadgerStore MemBadger ({["e/x"%string := BSeq 1; "f"%string := BSeq 2]} : gmap string blob) None.
Lemma GetByBucket_exact_witness :
  exists m s', GetByBucket "e" two_pairs = (Ok m, s') /\ m !! "e/x"%string = Some (BSeq 1).
Proof.
  destruct (GetByBucket_exact (B := MemBadger) "e" two_pairs ltac:(discriminate)) as (m & s' & Hrun & _ & Hm).
  exists m, s'. split; [exact Hrun|]. apply Hm. split; [reflexivity|]. by exists "x"%string.
Defined.

Lemma save_get_witness :
  (Get "a" (Save "a" (BSeq 1) empty_db).2).1 = Ok (BSeq 1).
Proof.
  destruct (save_get (B := MemBadger) "a" "a" (BSeq 1) empty_db) as [_ E];
    [discriminate|discriminate|reflexivity|]. exact E.
Defined.
