(* ===== verification/FileMode.v ===== *)
(** Go file modes and their translation to and from the kernel's mode words
    (src/pkg/util/fs.go), the flag constants of src/global/const.go, and the
    caller identity carried by a request (src/pkg/util/context.go). *)
From Stdlib Require Import Ascii DecimalString DecimalN DecimalFacts.
From stdpp Require Import prelude strings list.
From S2P Require Import Prelude.

Local Open Scope N_scope.

(** * os.FileMode *)

Definition ModeDir : N := 2 ^ 31.
Definition ModeSymlink : N := 2 ^ 27.
Definition ModeDevice : N := 2 ^ 26.
Definition ModeNamedPipe : N := 2 ^ 25.
Definition ModeSocket : N := 2 ^ 24.
Definition ModeSetuid : N := 2 ^ 23.
Definition ModeSetgid : N := 2 ^ 22.
Definition ModeCharDevice : N := 2 ^ 21.
Definition ModeSticky : N := 2 ^ 20.
Definition ModeIrregular : N := 2 ^ 19.
Definition ModeType : N :=
  N.lor ModeDir (N.lor ModeSymlink (N.lor ModeNamedPipe (N.lor ModeSocket
    (N.lor ModeDevice (N.lor ModeCharDevice ModeIrregular))))).

(** [m & mask != 0]. *)
Definition has_bits (m mask : N) : bool := negb (N.land m mask =? 0).

Definition FileMode_IsDir (m : N) : bool := has_bits m ModeDir.
Definition FileMode_IsRegular (m : N) : bool := N.land m ModeType =? 0.
Definition FileMode_Perm (m : N) : N := N.land m 511.

(** * Kernel modes *)

Definition S_IFMT : N := 61440.   (* 0170000 *)
Definition S_IFSOCK : N := 49152. (* 0140000 *)
Definition S_IFLNK : N := 40960.  (* 0120000 *)
Definition S_IFREG : N := 32768.  (* 0100000 *)
Definition S_IFBLK : N := 24576.  (* 0060000 *)
Definition S_IFDIR : N := 16384.  (* 0040000 *)
Definition S_IFCHR : N := 8192.   (* 0020000 *)
Definition S_IFIFO : N := 4096.   (* 0010000 *)
Definition S_ISUID : N := 2048.   (* 04000 *)
Definition S_ISGID : N := 1024.   (* 02000 *)
Definition S_ISVTX : N := 512.    (* 01000 *)

(** [a &^ b] on uint32. *)
Definition and_not32 (a b : N) : N := N.land a (N.lxor b (2 ^ 32 - 1)).

Definition MakeMode (perm ft : N) : N := N.lor (and_not32 perm 18) ft. (* umask 022 *)

Definition ToSyscallMode (mode : N) : N :=
  let r := FileMode_Perm mode in
  let r :=
    if has_bits mode ModeDir then N.lor r S_IFDIR
    else if has_bits mode ModeDevice then
      if has_bits mode ModeCharDevice then N.lor r S_IFCHR else N.lor r S_IFBLK
    else if has_bits mode ModeNamedPipe then N.lor r S_IFIFO
    else if has_bits mode ModeSymlink then N.lor r S_IFLNK
    else if has_bits mode ModeSocket then N.lor r S_IFSOCK
    else N.lor r S_IFREG in
  let r := if has_bits mode ModeSetuid then N.lor r S_ISUID else r in
  let r := if has_bits mode ModeSetgid then N.lor r S_ISGID else r in
  if has_bits mode ModeSticky then N.lor r S_ISVTX else r.

Definition ToSyscallType (mode : N) : N :=
  let t := N.land mode ModeType in
  if t =? ModeDir then S_IFDIR
  else if t =? ModeSymlink then S_IFLNK
  else if t =? ModeNamedPipe then S_IFIFO
  else if t =? ModeSocket then S_IFSOCK
  else if t =? ModeDevice then S_IFBLK
  else if t =? ModeCharDevice then S_IFCHR
  else S_IFREG.

Definition ToPerm (mode : N) : N := and_not32 mode S_IFMT.

Definition ToFileMode (unixMode : N) : N :=
  let mode := N.land unixMode 511 in
  let t := N.land unixMode S_IFMT in
  let mode :=
    if t =? S_IFREG then mode
    else if t =? S_IFDIR then N.lor mode ModeDir
    else if t =? S_IFCHR then N.lor mode (N.lor ModeCharDevice ModeDevice)
    else if t =? S_IFBLK then N.lor mode ModeDevice
    else if t =? S_IFIFO then N.lor mode ModeNamedPipe
    else if t =? S_IFLNK then N.lor mode ModeSymlink
    else if t =? S_IFSOCK then N.lor mode ModeSocket
    else N.lor mode ModeIrregular in
  let mode := if has_bits unixMode S_ISUID then N.lor mode ModeSetuid else mode in
  let mode := if has_bits unixMode S_ISGID then N.lor mode ModeSetgid else mode in
  if has_bits unixMode S_ISVTX then N.lor mode ModeSticky else mode.

(** * Flags (global/const.go) *)

Definition SetAttrMode : N := 1.
Definition SetAttrUID : N := 2.
Definition SetAttrGID : N := 4.
Definition SetAttrSize : N := 8.
Definition SetAttrAtime : N := 16.
Definition SetAttrMtime : N := 32.
Definition SetAttrCtime : N := 64.
Definition SetAttrAtimeNow : N := 128.
Definition SetAttrMtimeNow : N := 256.
Definition SetAttrFlag : N := 2 ^ 15.

Definition RenameEmptyFlag : N := 0.
Definition RenameNoReplace : N := 2. (* 1 << iota, iota = 1 *)
Definition RenameExchange : N := 4.
Definition RenameWhiteout : N := 8.

Definition FlagImmutable : N := 1.
Definition FlagAppend : N := 2.

Definition MODE_MASK_R : N := 4.
Definition MODE_MASK_W : N := 2.
Definition MODE_MASK_X : N := 1.

(** * Caller identity (util/context.go) *)

(** [FuseContext]: the uid and gid of the request's header. *)
Record FuseContext := { ctx_Uid : N; ctx_Gid : N }.

Definition Gids (c : FuseContext) : list N := [ctx_Gid c].

(** The gRPC metadata a request carries, in iteration order. *)
Definition MD : Type := list (string * list string).

Definition ToMD (c : FuseContext) : MD :=
  [("uid"%string, [itoa (ctx_Uid c)]); ("gid"%string, [itoa (ctx_Uid c)])].

(** The value of [strconv.Atoi(s)]: an optional sign and decimal digits, 0 on a
    syntax error, the nearest int64 when out of range. *)
Definition atoi (s : string) : Z :=
  let digits (t : string) : Z :=
    match NilEmpty.uint_of_string t with Some d => Z.of_N (N.of_uint d) | None => 0%Z end in
  match s with
  | String "-" t => Z.max (- digits t) (- 2 ^ 63)
  | String "+" t => Z.min (digits t) (2 ^ 63 - 1)
  | _ => Z.min (digits s) (2 ^ 63 - 1)
  end.

(** [uint32(uid)] of that value. *)
Definition atoi32 (s : string) : N := Z.to_N (atoi s mod 2 ^ 32).

(** The loop of [MDFromContext]; a key with no values makes [v[0]] panic. *)
Fixpoint MD_loop (md : MD) (c : FuseContext) : option FuseContext :=
  match md with
  | [] => Some c
  | (k, v) :: rest =>
      if bool_decide (k = "uid"%string) then
        match v with
        | x :: _ => MD_loop rest {| ctx_Uid := atoi32 x; ctx_Gid := ctx_Gid c |}
        | [] => None
        end
      else if bool_decide (k = "gid"%string) then
        match v with
        | x :: _ => MD_loop rest {| ctx_Uid := ctx_Uid c; ctx_Gid := atoi32 x |}
        | [] => None
        end
      else MD_loop rest c
  end.

Definition MDFromContext (md : MD) : option FuseContext :=
  MD_loop md {| ctx_Uid := 0; ctx_Gid := 0 |}.

(** * Properties *)

(** The seven file types of a kernel mode word. *)
Definition kernel_types : list N :=
  [S_IFREG; S_IFDIR; S_IFCHR; S_IFBLK; S_IFIFO; S_IFLNK; S_IFSOCK].

(** A kernel mode word: a known file type and the twelve mode bits. *)
Definition kernel_mode (u : N) : Prop := exists t b, t ∈ kernel_types /\ b < 4096 /\ u = t + b.

(** [P] on every number below [n]. *)
Definition all_below (P : N -> bool) (n : nat) : bool :=
  forallb (fun i => P (N.of_nat i)) (seq 0 n).

Lemma all_below_spec P n b : all_below P n = true -> b < N.of_nat n -> P b = true.
Proof.
  unfold all_below. rewrite forallb_forall. intros H Hb.
  rewrite <- (N2Nat.id b). apply H, in_seq. lia.
Qed.

Lemma kernel_mode_check (P : N -> bool) u :
  forallb (fun t => all_below (fun b => P (t + b)) 4096) kernel_types = true ->
  kernel_mode u -> P u = true.
Proof.
  rewrite forallb_forall. intros H (t & b & Ht & Hb & ->).
  apply (all_below_spec (fun b => P (t + b)) 4096); [|done].
  apply H. by apply list_elem_of_In.
Qed.

(** The digits of [itoa] are read back by [atoi]. *)
Lemma atoi32_itoa n : n < 2 ^ 32 -> atoi32 (itoa n) = n.
Proof.
  intros Hn. unfold atoi32. assert (atoi (itoa n) = Z.of_N n) as ->.
  - pose proof (itoa_no_char "-" n eq_refl) as H1. pose proof (itoa_no_char "+" n eq_refl) as H2.
    assert (NilEmpty.uint_of_string (itoa n) = Some (N.to_uint n)) as Hp by apply NilEmpty.usu.
    assert (forall d, d = Some (N.to_uint n) ->
      match d with Some d => Z.of_N (N.of_uint d) | None => 0%Z end = Z.of_N n) as Hd.
    { intros d ->. by rewrite DecimalN.Unsigned.of_to. }
    unfold atoi. destruct (itoa n) as [|c t] eqn:E; [by destruct (itoa_ne n)|].
    destruct (decide (c = "-"%char)) as [->|Hm]; [done|].
    destruct (decide (c = "+"%char)) as [->|Hp']; [done|].
    rewrite <- (Hd _ Hp).
    assert (forall (A : Type) (x y z : A), match c with "-"%char => x | "+"%char => y | _ => z end = z)
      as Hc.
    { intros A x y z. clear -Hm Hp'. destruct c as [[] [] [] [] [] [] [] []]; congruence. }
    rewrite Hc. rewrite Hd by done. lia.
  - rewrite Z.mod_small by lia. lia.
Qed.

(** The mode translation loses nothing: a kernel mode word with a known file
    type survives the trip to a Go mode and back. *)
Theorem mode_round_trip u : kernel_mode u -> ToSyscallMode (ToFileMode u) = u.
Proof.
  intros Hu. apply N.eqb_eq.
  apply (kernel_mode_check (fun u => ToSyscallMode (ToFileMode u) =? u)); [|done].
  vm_compute. reflexivity.
Qed.

Lemma mode_round_trip_witness :
  kernel_mode 33261 /\ ToSyscallMode (ToFileMode 33261) = 33261.
Proof.
  assert (kernel_mode 33261) as H
    by (exists S_IFREG, 493; split_and!; [by left|done|done]).
  split; [exact H|exact (mode_round_trip 33261 H)].
Defined.

(** [ToSyscallType] gives the file type of a mode that came from the kernel,
    except that a character device is reported as a regular file: the Go mode of
    one carries [ModeDevice] and [ModeCharDevice], and the switch only knows the
    latter alone. *)
Theorem ToSyscallType_kernel u :
  kernel_mode u ->
  ToSyscallType (ToFileMode u) =
  if N.land u S_IFMT =? S_IFCHR then S_IFREG else N.land u S_IFMT.
Proof.
  intros Hu. apply N.eqb_eq.
  apply (kernel_mode_check (fun u => ToSyscallType (ToFileMode u) =?
    (if N.land u S_IFMT =? S_IFCHR then S_IFREG else N.land u S_IFMT))); [|done].
  vm_compute. reflexivity.
Qed.

Lemma ToSyscallType_kernel_witness :
  kernel_mode 8630 /\ ToSyscallType (ToFileMode 8630) = S_IFREG.
Proof.
  assert (kernel_mode 8630) as H
    by (exists S_IFCHR, 438; split_and!; [by right; right; left|done|done]).
  split; [exact H|exact (ToSyscallType_kernel 8630 H)].
Defined.

(** The identity a server reads from the metadata a client wrote: the uid is
    the caller's, and so is the gid field, which receives the uid, not the gid. *)
Theorem ToMD_identity c :
  ctx_Uid c < 2 ^ 32 ->
  MDFromContext (ToMD c) = Some {| ctx_Uid := ctx_Uid c; ctx_Gid := ctx_Uid c |}.
Proof. intros H. unfold MDFromContext. simpl. by rewrite atoi32_itoa. Qed.

Lemma ToMD_identity_witness :
  MDFromContext (ToMD {| ctx_Uid := 1000; ctx_Gid := 50 |}) =
  Some {| ctx_Uid := 1000; ctx_Gid := 1000 |}.
Proof. apply (ToMD_identity {| ctx_Uid := 1000; ctx_Gid := 50 |}). reflexivity. Defined.
