(* ===== verification/FreeList.v ===== *)
(** The free list of src/pkg/util/freelist/freelist.go, which hands out recycled
    inode numbers, and the slice helpers it is built from. *)
From stdpp Require Import prelude list.
From S2P Require Import Prelude.

(** * Slices ([items[T]]) *)

Section items.
Context {T : Type}.

(** Each helper panics on an index out of range; the result is the new slice. *)
Definition insertAt (s : list T) (index : nat) (item : T) : option (list T) :=
  if (index <=? length s)%nat then Some (take index s ++ item :: drop index s) else None.

Definition removeAt (s : list T) (index : nat) : option (T * list T) :=
  match s !! index with
  | Some item => Some (item, take index s ++ drop (S index) s)
  | None => None
  end.

Definition pop (s : list T) : option (T * list T) :=
  match last s with
  | Some out => Some (out, take (length s - 1) s)
  | None => None
  end.

Definition truncate (s : list T) (index : nat) : option (list T) :=
  if (index <=? length s)%nat then Some (take index s) else None.

(** The loop of [sort.Search]: the invariant is f(i-1) = false, f(j) = true. *)
Fixpoint search_loop (fuel : nat) (f : nat -> bool) (i j : nat) : nat :=
  match fuel with
  | O => i
  | S fuel =>
      if (i <? j)%nat then
        let h := (i + j) / 2 in
        if f h then search_loop fuel f i h else search_loop fuel f (S h) j
      else i
  end.
Definition sort_Search (n : nat) (f : nat -> bool) : nat := search_loop n f 0 n.

(** [find]: the place to insert the item, and whether it is there already. *)
Definition find (less : T -> T -> bool) (s : list T) (item : T) : nat * bool :=
  let i := sort_Search (length s)
             (fun i => match s !! i with Some x => less item x | None => true end) in
  match i with
  | O => (O, false)
  | S i' => match s !! i' with
            | Some x => if negb (less x item) then (i', true) else (i, false)
            | None => (i, false)
            end
  end.
End items.

(** * The free list *)

Section freelist.
Context {T : Type}.

(** [size] is 0 for an unbounded list; [capacity] is [cap(f.freelist)], which
    only matters when the list is bounded and then never changes, because an
    element is only appended below it. *)
Record FreeListG := { freelist : list T; size : nat; capacity : nat }.

Definition NewFreeListG (size : nat) : FreeListG :=
  {| freelist := []; size := size; capacity := size |}.
Definition NewFreeListUnboundG : FreeListG :=
  {| freelist := []; size := 0; capacity := 0 |}.

Definition with_items (f : FreeListG) (l : list T) : FreeListG :=
  {| freelist := l; size := size f; capacity := capacity f |}.

(** [NewWith]: the last recycled element, or a new one; [New] is the same with
    the list's own creator. *)
Definition NewWith {S E} (get : S -> FreeListG) (put : FreeListG -> S -> S)
    (creator : M S E T) : M S E T := fun s =>
  let f := get s in
  match length (freelist f) with
  | O => creator s
  | S index =>
      match removeAt (freelist f) index with
      | Some (n, l) => (Ok n, put (with_items f l) s)
      | None => (Panic, s)
      end
  end.

Definition New (creator : T) (f : FreeListG) : option (T * FreeListG) :=
  match length (freelist f) with
  | O => Some (creator, f)
  | S index => match removeAt (freelist f) index with
               | Some (n, l) => Some (n, with_items f l)
               | None => None
               end
  end.

(** [f.freelist.insertAt(len(f.freelist), n)], which is always in range. *)
Definition push (n : T) (f : FreeListG) : FreeListG :=
  with_items f (default (freelist f) (insertAt (freelist f) (length (freelist f)) n)).

Definition Free (n : T) (f : FreeListG) : bool * FreeListG :=
  if (0 <? size f)%nat then
    if (length (freelist f) <? capacity f)%nat then (true, push n f) else (false, f)
  else (false, push n f).
End freelist.
Arguments FreeListG T : clear implicits.

(** * Lemmas *)

Section items_lemmas.
Context {T : Type}.
Implicit Types s : list T.

Lemma insertAt_end s (x : T) : insertAt s (length s) x = Some (s ++ [x]).
Proof. unfold insertAt. by rewrite Nat.leb_refl, firstn_all, drop_ge. Qed.

Lemma removeAt_end s (x : T) : removeAt (s ++ [x]) (length s) = Some (x, s).
Proof.
  unfold removeAt. rewrite list_lookup_middle by done.
  rewrite take_app_length, drop_ge, app_nil_r; [done|]. rewrite length_app. simpl. lia.
Qed.

Lemma insertAt_removeAt s i (x : T) l : insertAt s i x = Some l -> removeAt l i = Some (x, s).
Proof.
  unfold insertAt, removeAt. destruct (i <=? length s)%nat eqn:E; [|done].
  apply Nat.leb_le in E. intros [= <-].
  assert (length (take i s) = i) as Hl by (rewrite length_take; lia).
  rewrite list_lookup_middle by done. rewrite take_app_le, take_take by lia.
  rewrite Nat.min_id. rewrite drop_app_ge by lia. rewrite Hl.
  replace (S i - i) with 1 by lia. simpl. by rewrite drop_0, take_drop.
Qed.

(** The binary search finds the boundary of a monotone predicate. *)
Lemma search_loop_spec fuel f i j :
  (forall a b, a <= b -> f a = true -> f b = true) ->
  i <= j -> j - i <= fuel ->
  (forall a, a < i -> f a = false) -> (forall b, j <= b -> f b = true) ->
  let r := search_loop fuel f i j in
  i <= r <= j /\ (forall a, a < r -> f a = false) /\ (forall b, r <= b -> f b = true).
Proof.
  intros Hmono. revert i j. induction fuel as [|fuel IH]; intros i j Hij Hf Hlo Hhi; cbn [search_loop].
  { replace j with i in * by lia. auto with lia. }
  destruct (Nat.ltb_spec i j) as [Hlt|Hge].
  - pose proof (Nat.Div0.div_lt_upper_bound (i + j) 2 j ltac:(lia)) as H2.
    pose proof (Nat.div_le_lower_bound (i + j) 2 i ltac:(lia) ltac:(lia)) as H1.
    destruct (f ((i + j) / 2)) eqn:E.
    + destruct (IH i ((i + j) / 2)) as ([Ha Hb] & Hc & Hd);
        [lia|lia|done| |split_and!; [lia|lia|exact Hc|exact Hd]].
      intros b Hb. by apply (Hmono ((i + j) / 2)).
    + destruct (IH (S ((i + j) / 2)) j) as ([Ha Hb] & Hc & Hd);
        [lia|lia| |done|split_and!; [lia|lia|exact Hc|exact Hd]].
      intros a Ha. destruct (f a) eqn:Ea; [|done].
      rewrite (Hmono a ((i + j) / 2)) in E; [done|lia|done].
  - replace j with i in * by lia. auto with lia.
Qed.

(** [sort.Search] terminates within n rounds and returns the least index at
    which the predicate holds. *)
Lemma sort_Search_spec n f :
  (forall a b, a <= b -> f a = true -> f b = true) ->
  (forall b, n <= b -> f b = true) ->
  sort_Search n f <= n /\
  (forall a, a < sort_Search n f -> f a = false) /\
  (forall b, sort_Search n f <= b -> f b = true).
Proof.
  intros Hmono Hn. destruct (search_loop_spec n f 0 n) as (H1 & H2 & H3); auto with lia.
  unfold sort_Search. auto with lia.
Qed.
End items_lemmas.

(** ** [find] *)

Section find_spec.
Context {T : Type} (less : T -> T -> bool).
Hypothesis less_irrefl : forall x, less x x = false.
Hypothesis less_trans : forall x y z, less x y = true -> less y z = true -> less x z = true.
Hypothesis less_total : forall x y, less x y = true \/ x = y \/ less y x = true.

(** A slice in strictly increasing order. *)
Definition increasing (s : list T) : Prop :=
  forall i j x y, i < j -> s !! i = Some x -> s !! j = Some y -> less x y = true.

Lemma find_pred_mono s item :
  increasing s ->
  forall a b, a <= b ->
  match s !! a with Some x => less item x | None => true end = true ->
  match s !! b with Some x => less item x | None => true end = true.
Proof.
  intros Hs a b Hab Ha. destruct (s !! b) as [y|] eqn:Eb; [|done].
  destruct (lookup_lt_is_Some_2 s a) as [x Ex].
  { apply lookup_lt_Some in Eb. lia. }
  rewrite Ex in Ha. destruct (decide (a = b)) as [->|Hne]; [congruence|].
  apply (less_trans item x y); [done|]. apply (Hs a b); auto with lia.
Qed.

(** On a sorted slice [find] reports an item exactly when it is there, at its
    index, and otherwise the index that keeps the slice sorted. *)
Theorem find_correct s item :
  increasing s ->
  let '(i, found) := find less s item in
  if found then s !! i = Some item
  else (item ∉ s) /\ i <= length s /\
       (forall j x, j < i -> s !! j = Some x -> less x item = true) /\
       (forall j x, i <= j -> s !! j = Some x -> less item x = true).
Proof.
  intros Hs. unfold find.
  destruct (sort_Search_spec (length s)
    (fun i => match s !! i with Some x => less item x | None => true end))
    as (Hle & Hlo & Hhi).
  { by apply find_pred_mono. }
  { intros b Hb. by rewrite lookup_ge_None_2. }
  set (r := sort_Search _ _) in *. destruct r as [|i'].
  - split_and!; [|lia|intros; lia|].
    + intros (j & Hj)%list_elem_of_lookup. specialize (Hhi j ltac:(lia)).
      simpl in Hhi. rewrite Hj, less_irrefl in Hhi. done.
    + intros j x _ Hj. specialize (Hhi j ltac:(lia)). by rewrite Hj in Hhi.
  - destruct (lookup_lt_is_Some_2 s i') as [x Hx]; [lia|]. rewrite Hx.
    pose proof (Hlo i' ltac:(lia)) as Hlt. simpl in Hlt. rewrite Hx in Hlt.
    destruct (less x item) eqn:E; simpl.
    + assert (forall j y, j < S i' -> s !! j = Some y -> less y item = true) as Hbefore.
      { intros j y Hj Hy. destruct (decide (j = i')) as [->|]; [congruence|].
        apply (less_trans y x item); [|done]. apply (Hs j i'); auto with lia. }
      assert (forall j y, S i' <= j -> s !! j = Some y -> less item y = true) as Hafter.
      { intros j y Hj Hy. specialize (Hhi j Hj). by rewrite Hy in Hhi. }
      split_and!; auto. intros (j & Hj)%list_elem_of_lookup.
      destruct (decide (j < S i')) as [Hji|Hji].
      * specialize (Hbefore j item Hji Hj). by rewrite less_irrefl in Hbefore.
      * specialize (Hafter j item ltac:(lia) Hj). by rewrite less_irrefl in Hafter.
    + destruct (less_total x item) as [?|[->|?]]; congruence.
Qed.
End find_spec.

Lemma find_correct_witness :
  let s := [1; 3; 7] in find Nat.ltb s 4 = (2, false) /\ 4 ∉ s.
Proof.
  split; [reflexivity|].
  refine (proj1 (find_correct Nat.ltb _ _ _ [1; 3; 7] 4 _)).
  - intros x. apply Nat.ltb_irrefl.
  - intros x y z Hxy%Nat.ltb_lt Hyz%Nat.ltb_lt. apply Nat.ltb_lt. lia.
  - intros x y. rewrite !Nat.ltb_lt. lia.
  - intros [|[|[|i]]] [|[|[|j]]] x y Hij Hx Hy; simpl in *; simplify_eq; try lia; done.
Defined.

(** ** The free list *)

(** An element freed into an unbounded list is the next one handed out, and
    the list is then as it was before. *)
Theorem Free_New {T} (f : FreeListG T) (n c : T) :
  size f = 0 -> New c (Free n f).2 = Some (n, f).
Proof.
  intros Hs. unfold Free, push. rewrite Hs, insertAt_end. simpl. unfold New. simpl.
  rewrite length_app, Nat.add_comm. simpl. rewrite removeAt_end. by destruct f.
Qed.

Lemma Free_New_witness :
  New 0 (Free 7 {| freelist := [3]; size := 0; capacity := 0 |}).2 =
  Some (7, {| freelist := [3]; size := 0; capacity := 0 |}).
Proof. apply (Free_New {| freelist := [3]; size := 0; capacity := 0 |} 7 0). reflexivity. Defined.

(** A bounded list never holds more than its size: [Free] refuses an element
    beyond it and says so. *)
Theorem Free_bounded {T} (f : FreeListG T) (n : T) :
  0 < size f -> capacity f = size f -> length (freelist f) <= size f ->
  length (freelist (Free n f).2) <= size f /\
  ((Free n f).1 = true <-> length (freelist f) < size f).
Proof.
  intros Hs Hc Hl. unfold Free, push. rewrite insertAt_end, (proj2 (Nat.ltb_lt _ _) Hs), Hc.
  destruct (Nat.ltb_spec (length (freelist f)) (size f)); simpl.
  - rewrite length_app. simpl. split; [lia|done].
  - split; [done|]. split; [done|lia].
Qed.

Lemma Free_bounded_witness :
  length (freelist (Free 9 {| freelist := [1; 2]; size := 2; capacity := 2 |}).2) <= 2 /\
  ((Free 9 {| freelist := [1; 2]; size := 2; capacity := 2 |}).1 = true <-> 2 < 2).
Proof. apply (Free_bounded {| freelist := [1; 2]; size := 2; capacity := 2 |} 9); simpl; lia. Defined.
