(* ===== verification/Attr.v ===== *)
(** The records of the inode service and how they are stored
    (src/pkg/meta/inode/attr.go, entry.go, helper.go; the message types of
    src/pb/meta/node.pb.go): attributes under "a/<ino>", directory entries under
    "e/<parent>/<name>", both as JSON. *)
From Stdlib Require Import Ascii.
From Stdlib Require Import SpecFloat.
From stdpp Require Import prelude gmap strings list.
From S2P Require Import Prelude Store FileMode.

(** * Data *)

(** [time.Now()]: [Unix()] and [Nanosecond()]. *)
Record Time := { Unix : Z; Nanosecond : N }.

(** [pb.Attr]. *)
Record PbAttr := MkPbAttr {
  Size : N;
  Mtime : Z;
  Mtimens : N;
  Atime : Z;
  Atimens : N;
  Ctime : Z;
  Ctimens : N;
  Uid : N;
  Gid : N;
  Mode : N;
  Nlink : N;
  Rdev : N;
  Inode : N;
  LinkTarget : string;
  Flags : N;
  Epoch : N;
}.

(** [inode.Attr], which embeds a [pb.Attr]. *)
Record Attr := MkAttr { pb :> PbAttr; ParentIno : N; Name : string }.

(** [pb.ModifyAttr]: every field is a pointer. *)
Record ModifyAttr := MkModifyAttr {
  m_Size : option N;
  m_Mtime : option Z;
  m_Mtimens : option N;
  m_Atime : option Z;
  m_Atimens : option N;
  m_Ctime : option Z;
  m_Ctimens : option N;
  m_Uid : option N;
  m_Gid : option N;
  m_Mode : option N;
  m_Nlink : option N;
  m_Rdev : option N;
  m_LinkTarget : option string;
  m_Flags : option N;
}.

(** [inode.Entry]. *)
Record Entry := MkEntry { e_ParentIno : N; e_Name : string; e_Ino : N; e_Mode : N }.

(** ** Field assignments *)

Definition set_Size (v : N) (p : PbAttr) : PbAttr :=
  MkPbAttr v (Mtime p) (Mtimens p) (Atime p) (Atimens p) (Ctime p) (Ctimens p) (Uid p) (Gid p) (Mode p) (Nlink p) (Rdev p) (Inode p) (LinkTarget p) (Flags p) (Epoch p).
Definition set_Mtime (v : Z) (p : PbAttr) : PbAttr :=
  MkPbAttr (Size p) v (Mtimens p) (Atime p) (Atimens p) (Ctime p) (Ctimens p) (Uid p) (Gid p) (Mode p) (Nlink p) (Rdev p) (Inode p) (LinkTarget p) (Flags p) (Epoch p).
Definition set_Mtimens (v : N) (p : PbAttr) : PbAttr :=
  MkPbAttr (Size p) (Mtime p) v (Atime p) (Atimens p) (Ctime p) (Ctimens p) (Uid p) (Gid p) (Mode p) (Nlink p) (Rdev p) (Inode p) (LinkTarget p) (Flags p) (Epoch p).
Definition set_Atime (v : Z) (p : PbAttr) : PbAttr :=
  MkPbAttr (Size p) (Mtime p) (Mtimens p) v (Atimens p) (Ctime p) (Ctimens p) (Uid p) (Gid p) (Mode p) (Nlink p) (Rdev p) (Inode p) (LinkTarget p) (Flags p) (Epoch p).
Definition set_Atimens (v : N) (p : PbAttr) : PbAttr :=
  MkPbAttr (Size p) (Mtime p) (Mtimens p) (Atime p) v (Ctime p) (Ctimens p) (Uid p) (Gid p) (Mode p) (Nlink p) (Rdev p) (Inode p) (LinkTarget p) (Flags p) (Epoch p).
Definition set_Ctime (v : Z) (p : PbAttr) : PbAttr :=
  MkPbAttr (Size p) (Mtime p) (Mtimens p) (Atime p) (Atimens p) v (Ctimens p) (Uid p) (Gid p) (Mode p) (Nlink p) (Rdev p) (Inode p) (LinkTarget p) (Flags p) (Epoch p).
Definition set_Ctimens (v : N) (p : PbAttr) : PbAttr :=
  MkPbAttr (Size p) (Mtime p) (Mtimens p) (Atime p) (Atimens p) (Ctime p) v (Uid p) (Gid p) (Mode p) (Nlink p) (Rdev p) (Inode p) (LinkTarget p) (Flags p) (Epoch p).
Definition set_Uid (v : N) (p : PbAttr) : PbAttr :=
  MkPbAttr (Size p) (Mtime p) (Mtimens p) (Atime p) (Atimens p) (Ctime p) (Ctimens p) v (Gid p) (Mode p) (Nlink p) (Rdev p) (Inode p) (LinkTarget p) (Flags p) (Epoch p).
Definition set_Gid (v : N) (p : PbAttr) : PbAttr :=
  MkPbAttr (Size p) (Mtime p) (Mtimens p) (Atime p) (Atimens p) (Ctime p) (Ctimens p) (Uid p) v (Mode p) (Nlink p) (Rdev p) (Inode p) (LinkTarget p) (Flags p) (Epoch p).
Definition set_Mode (v : N) (p : PbAttr) : PbAttr :=
  MkPbAttr (Size p) (Mtime p) (Mtimens p) (Atime p) (Atimens p) (Ctime p) (Ctimens p) (Uid p) (Gid p) v (Nlink p) (Rdev p) (Inode p) (LinkTarget p) (Flags p) (Epoch p).
Definition set_Nlink (v : N) (p : PbAttr) : PbAttr :=
  MkPbAttr (Size p) (Mtime p) (Mtimens p) (Atime p) (Atimens p) (Ctime p) (Ctimens p) (Uid p) (Gid p) (Mode p) v (Rdev p) (Inode p) (LinkTarget p) (Flags p) (Epoch p).
Definition set_Rdev (v : N) (p : PbAttr) : PbAttr :=
  MkPbAttr (Size p) (Mtime p) (Mtimens p) (Atime p) (Atimens p) (Ctime p) (Ctimens p) (Uid p) (Gid p) (Mode p) (Nlink p) v (Inode p) (LinkTarget p) (Flags p) (Epoch p).
Definition set_Inode (v : N) (p : PbAttr) : PbAttr :=
  MkPbAttr (Size p) (Mtime p) (Mtimens p) (Atime p) (Atimens p) (Ctime p) (Ctimens p) (Uid p) (Gid p) (Mode p) (Nlink p) (Rdev p) v (LinkTarget p) (Flags p) (Epoch p).
Definition set_LinkTarget (v : string) (p : PbAttr) : PbAttr :=
  MkPbAttr (Size p) (Mtime p) (Mtimens p) (Atime p) (Atimens p) (Ctime p) (Ctimens p) (Uid p) (Gid p) (Mode p) (Nlink p) (Rdev p) (Inode p) v (Flags p) (Epoch p).
Definition set_Flags (v : N) (p : PbAttr) : PbAttr :=
  MkPbAttr (Size p) (Mtime p) (Mtimens p) (Atime p) (Atimens p) (Ctime p) (Ctimens p) (Uid p) (Gid p) (Mode p) (Nlink p) (Rdev p) (Inode p) (LinkTarget p) v (Epoch p).
Definition set_Epoch (v : N) (p : PbAttr) : PbAttr :=
  MkPbAttr (Size p) (Mtime p) (Mtimens p) (Atime p) (Atimens p) (Ctime p) (Ctimens p) (Uid p) (Gid p) (Mode p) (Nlink p) (Rdev p) (Inode p) (LinkTarget p) (Flags p) v.
Definition set_m_Mode (v : N) (m : ModifyAttr) : ModifyAttr :=
  MkModifyAttr (m_Size m) (m_Mtime m) (m_Mtimens m) (m_Atime m) (m_Atimens m) (m_Ctime m) (m_Ctimens m) (m_Uid m) (m_Gid m) (Some v) (m_Nlink m) (m_Rdev m) (m_LinkTarget m) (m_Flags m).

Definition on_pb (f : PbAttr -> PbAttr) (a : Attr) : Attr := MkAttr (f (pb a)) (ParentIno a) (Name a).
Definition SetInode (v : N) (a : Attr) : Attr := on_pb (set_Inode v) a.
Definition SetParentIno (v : N) (a : Attr) : Attr := MkAttr (pb a) v (Name a).
Definition SetName (v : string) (a : Attr) : Attr := MkAttr (pb a) (ParentIno a) v.

(** The time stamps the service assigns together. *)
Definition touch_a (now : Time) (p : PbAttr) : PbAttr :=
  set_Atimens (Nanosecond now) (set_Atime (Unix now) p).
Definition touch_m (now : Time) (p : PbAttr) : PbAttr :=
  set_Mtimens (Nanosecond now) (set_Mtime (Unix now) p).
Definition touch_c (now : Time) (p : PbAttr) : PbAttr :=
  set_Ctimens (Nanosecond now) (set_Ctime (Unix now) p).
Definition touch_mc (now : Time) (p : PbAttr) : PbAttr := touch_c now (touch_m now p).

(** The zero values of Go. *)
Definition zero_PbAttr : PbAttr := MkPbAttr 0 0 0 0 0 0 0 0 0 0 0 0 0 "" 0 0.
Definition Attr_of_ino (ino : N) : Attr := MkAttr (set_Inode ino zero_PbAttr) 0 "".

(** ** Predicates *)

Definition IsDir (a : Attr) : bool := FileMode_IsDir (Mode a).
Definition IsFile (a : Attr) : bool := FileMode_IsRegular (Mode a).
Definition IsSymlink (a : Attr) : bool := has_bits (Mode a) ModeSymlink.
Definition e_IsDir (e : Entry) : bool := FileMode_IsDir (e_Mode e).
Definition e_IsFile (e : Entry) : bool := FileMode_IsRegular (e_Mode e).

(** [pb.Entry], what the service returns for a renamed node. *)
Record PbEntry := MkPbEntry { pe_Attr : PbAttr; pe_Name : string; pe_ParentIno : N }.
Definition ToPb (a : Attr) : PbAttr := pb a.
Definition ToPbEntry (a : Attr) : PbEntry := MkPbEntry (pb a) (Name a) (ParentIno a).

(** * JSON *)

(** [omitempty] drops a zero number, an empty string and an empty list. *)
Definition is_empty (v : jvalue) : bool :=
  match v with
  | JNull => true
  | JNum z => (z =? 0)%Z
  | JReal f => match f with S754_zero _ => true | _ => false end
  | JStr s => bool_decide (s = ""%string)
  | JArr l => match l with [] => true | _ => false end
  | JObj _ => false
  end.
Definition omitempty (l : list (string * jvalue)) : list (string * jvalue) :=
  filter (fun p => is_empty p.2 = false) l.

Definition JN (n : N) : jvalue := JNum (Z.of_N n).

Fixpoint jlookup (k : string) (j : json) : option jvalue :=
  match j with
  | [] => None
  | (k', v) :: rest => if bool_decide (k' = k) then Some v else jlookup k rest
  end.

(** A missing or null field keeps its zero value; a value of the wrong type is an
    error. *)
Definition get_Z (k : string) (j : json) : Z + error :=
  match jlookup k j with
  | None | Some JNull => inl 0%Z
  | Some (JNum z) => inl z
  | Some _ => inr ErrJson
  end.
Definition get_N (k : string) (j : json) : N + error :=
  match get_Z k j with
  | inl z => if (z <? 0)%Z then inr ErrJson else inl (Z.to_N z)
  | inr e => inr e
  end.
Definition get_S (k : string) (j : json) : string + error :=
  match jlookup k j with
  | None | Some JNull => inl ""%string
  | Some (JStr s) => inl s
  | Some _ => inr ErrJson
  end.

Definition sbind {A C} (r : A + error) (k : A -> C + error) : C + error :=
  match r with inl a => k a | inr e => inr e end.

Definition pb_fields (p : PbAttr) : json :=
  [("size"%string, JN (Size p));
   ("mtime"%string, JNum (Mtime p));
   ("mtimens"%string, JN (Mtimens p));
   ("atime"%string, JNum (Atime p));
   ("atimens"%string, JN (Atimens p));
   ("ctime"%string, JNum (Ctime p));
   ("ctimens"%string, JN (Ctimens p));
   ("uid"%string, JN (Uid p));
   ("gid"%string, JN (Gid p));
   ("mode"%string, JN (Mode p));
   ("nlink"%string, JN (Nlink p));
   ("rdev"%string, JN (Rdev p));
   ("inode"%string, JN (Inode p));
   ("link_target"%string, JStr (LinkTarget p));
   ("flags"%string, JN (Flags p));
   ("epoch"%string, JN (Epoch p))].

(** [Attr.Serialize]: the embedded fields are promoted. *)
Definition Attr_Serialize (a : Attr) : blob + error :=
  inl (BJson (omitempty (pb_fields (pb a)) ++
              [("ParentIno"%string, JN (ParentIno a)); ("Name"%string, JStr (Name a))])).

Definition Attr_Deserialize (b : blob) : Attr + error :=
  match b with
  | BJson j =>
      sbind (get_N "size" j) (fun x_Size =>
      sbind (get_Z "mtime" j) (fun x_Mtime =>
      sbind (get_N "mtimens" j) (fun x_Mtimens =>
      sbind (get_Z "atime" j) (fun x_Atime =>
      sbind (get_N "atimens" j) (fun x_Atimens =>
      sbind (get_Z "ctime" j) (fun x_Ctime =>
      sbind (get_N "ctimens" j) (fun x_Ctimens =>
      sbind (get_N "uid" j) (fun x_Uid =>
      sbind (get_N "gid" j) (fun x_Gid =>
      sbind (get_N "mode" j) (fun x_Mode =>
      sbind (get_N "nlink" j) (fun x_Nlink =>
      sbind (get_N "rdev" j) (fun x_Rdev =>
      sbind (get_N "inode" j) (fun x_Inode =>
      sbind (get_S "link_target" j) (fun x_LinkTarget =>
      sbind (get_N "flags" j) (fun x_Flags =>
      sbind (get_N "epoch" j) (fun x_Epoch =>
      sbind (get_N "ParentIno" j) (fun x_pi =>
      sbind (get_S "Name" j) (fun x_nm =>
      inl (MkAttr (MkPbAttr x_Size x_Mtime x_Mtimens x_Atime x_Atimens x_Ctime x_Ctimens x_Uid x_Gid x_Mode x_Nlink x_Rdev x_Inode x_LinkTarget x_Flags x_Epoch) x_pi x_nm)))))))))))))))))))
  | _ => inr ErrJson
  end.

Definition Entry_Serialize (e : Entry) : blob + error :=
  inl (BJson [("ParentIno"%string, JN (e_ParentIno e)); ("Name"%string, JStr (e_Name e));
              ("Ino"%string, JN (e_Ino e)); ("Mode"%string, JN (e_Mode e))]).

Definition Entry_Deserialize (b : blob) : Entry + error :=
  match b with
  | BJson j =>
      sbind (get_N "ParentIno" j) (fun pi =>
      sbind (get_S "Name" j) (fun nm =>
      sbind (get_N "Ino" j) (fun ino =>
      sbind (get_N "Mode" j) (fun mode => inl (MkEntry pi nm ino mode)))))
  | _ => inr ErrJson
  end.

(** * Keys *)

Definition Attr_FormatPrefix (a : Attr) : string := "a/".
Definition Attr_FormatKey (a : Attr) : string := (Attr_FormatPrefix a +:+ itoa (Inode a))%string.
Definition Entry_FormatKey (e : Entry) : string :=
  ("e/" +:+ itoa (e_ParentIno e) +:+ "/" +:+ e_Name e)%string.
Definition Entry_FormatPrefix (e : Entry) : string :=
  ("e/" +:+ itoa (e_ParentIno e) +:+ "/")%string.

#[export] Instance Attr_Serializer : Serializer Attr := {|
  FormatKey := Attr_FormatKey;
  FormatPrefix := Attr_FormatPrefix;
  Serialize := Attr_Serialize;
  Deserialize := Attr_Deserialize;
|}.
#[export] Instance Entry_Serializer : Serializer Entry := {|
  FormatKey := Entry_FormatKey;
  FormatPrefix := Entry_FormatPrefix;
  Serialize := Entry_Serialize;
  Deserialize := Entry_Deserialize;
|}.

(** [newAttr] of an inode number and of an entry; [newEntry] of a directory and
    of a name in it. *)
Definition newAttr (ino : N) : builder Attr := inl (Some (Attr_of_ino ino)).
Definition newAttr_Entry (e : Entry) : builder Attr := inl (Some (Attr_of_ino (e_Ino e))).
Definition newEntry_Ino (ino : N) : builder Entry := inl (Some (MkEntry ino "" 0 0)).
Definition newEntry (parent : N) (name : string) : builder Entry :=
  inl (Some (MkEntry parent name 0 0)).
Definition ToSerializer (e : Entry) : builder Entry := inl (Some e).

(** * copier.Copy *)

(** The copier package is a parameter: the copies the service asks it for. *)
Class Copier := {
  copier_modify : option ModifyAttr -> option PbAttr; (* [ToAttr]; None is an error *)
  copier_clone : Attr -> option Attr;
}.

(** Its documented behaviour: same-named fields are copied, a nil pointer leaves
    the zero value.  The embedded [pb.Attr] is copied field by field, so a clone
    shares nothing with its original. *)
Definition modify_fields (m : ModifyAttr) : PbAttr :=
  MkPbAttr (default 0%N (m_Size m)) (default 0%Z (m_Mtime m)) (default 0%N (m_Mtimens m)) (default 0%Z (m_Atime m)) (default 0%N (m_Atimens m)) (default 0%Z (m_Ctime m)) (default 0%N (m_Ctimens m)) (default 0%N (m_Uid m)) (default 0%N (m_Gid m)) (default 0%N (m_Mode m)) (default 0%N (m_Nlink m)) (default 0%N (m_Rdev m)) 0 (default ""%string (m_LinkTarget m)) (default 0%N (m_Flags m)) 0.
Class CopierSpec (C : Copier) : Prop := {
  copier_modify_spec m : copier_modify (Some m) = Some (modify_fields m);
  copier_clone_spec a : copier_clone a = Some a;
}.

Definition ToAttr {C : Copier} (from : option ModifyAttr) : option Attr :=
  (fun p => MkAttr p 0 "") <$> copier_modify from.
Definition Clone {C : Copier} (a : Attr) : option Attr := copier_clone a.

#[export] Instance RefCopier : Copier := {|
  copier_modify m := modify_fields <$> m;
  copier_clone a := Some a;
|}.
#[export] Instance RefCopier_spec : CopierSpec RefCopier.
Proof. by split. Qed.

(** * Permissions (helper.go) *)

Definition accessMode (a : Attr) (uid : N) (gids : list N) : N :=
  if (uid =? 0)%N then 7
  else
    let mode := Mode a in
    if (uid =? Uid a)%N then N.land (N.land (N.shiftr mode 6) 255) 7
    else if bool_decide (Gid a ∈ gids) then N.land (N.land (N.shiftr mode 3) 255) 7
    else N.land (N.land mode 7) 255.

(** [access]: None is errno 0. *)
Definition access (ctx : FuseContext) (a : Attr) (mmask : N) : option errno :=
  if (ctx_Uid ctx =? 0)%N then None
  else
    let mode := accessMode a (ctx_Uid ctx) (Gids ctx) in
    if negb (N.land mode mmask =? mmask)%N then Some EACCES else None.

(** [clearSUGID] on linux: the masks also apply to the requested mode, through
    its pointer. *)
Definition clearSUGID (ctx : FuseContext) (cur : Attr) (set : option ModifyAttr)
  : outcome error (Attr * option ModifyAttr) :=
  if IsDir cur then Ok (cur, set)
  else
    let mask := if negb (ctx_Uid ctx =? 0)%N || negb (N.land (N.shiftr (Mode cur) 3) 1 =? 0)%N
                then 1023%N (* 01777 *) else 2047%N (* 03777 *) in
    let cur := on_pb (set_Mode (N.land (Mode cur) mask)) cur in
    set <~ oderef set ;;
    m <~ oderef (m_Mode set) ;;
    Ok (cur, Some (set_m_Mode (N.land m mask) set)).

(** * Lemmas *)

(** ** JSON round trips *)

Lemma jlookup_app k l t :
  jlookup k (l ++ t) = match jlookup k l with Some v => Some v | None => jlookup k t end.
Proof. induction l as [|[k' v] l IH]; simpl; [done|]. by case_bool_decide. Qed.

Lemma jlookup_not_elem k (l : list (string * jvalue)) : k ∉ l.*1 -> jlookup k l = None.
Proof.
  induction l as [|[k' v] l IH]; simpl; intros Hk; [done|].
  apply not_elem_of_cons in Hk as [Hne Hk]. rewrite bool_decide_false by done. auto.
Qed.

Lemma jlookup_omitempty k (l : list (string * jvalue)) :
  NoDup l.*1 ->
  jlookup k (omitempty l) =
  match jlookup k l with Some v => if is_empty v then None else Some v | None => None end.
Proof.
  unfold omitempty. induction l as [|[k' v] l IH]; intros Hnd; [done|].
  apply NoDup_cons in Hnd as [Hk Hnd]. rewrite filter_cons. cbn [jlookup snd fst].
  destruct (is_empty v) eqn:Ev;
    [rewrite decide_False by done|rewrite decide_True by done; cbn [jlookup]];
    case_bool_decide as Hkk; subst.
  - rewrite IH by done. by rewrite Ev, jlookup_not_elem.
  - by apply IH.
  - by rewrite Ev.
  - by apply IH.
Qed.

Section omit.
Context (k : string) (l t : list (string * jvalue)) (Hnd : NoDup l.*1) (Ht : jlookup k t = None).

Lemma get_Z_omit z : jlookup k l = Some (JNum z) -> get_Z k (omitempty l ++ t) = inl z.
Proof.
  intros Hl. unfold get_Z. rewrite jlookup_app, jlookup_omitempty, Hl by done. simpl.
  destruct (z =? 0)%Z eqn:E; [|done]. apply Z.eqb_eq in E as ->. by rewrite Ht.
Qed.
Lemma get_N_omit n : jlookup k l = Some (JN n) -> get_N k (omitempty l ++ t) = inl n.
Proof.
  intros Hl. unfold get_N. rewrite (get_Z_omit (Z.of_N n)) by done.
  destruct (Z.of_N n <? 0)%Z eqn:E; [apply Z.ltb_lt in E; lia|]. by rewrite N2Z.id.
Qed.
Lemma get_S_omit s : jlookup k l = Some (JStr s) -> get_S k (omitempty l ++ t) = inl s.
Proof.
  intros Hl. unfold get_S. rewrite jlookup_app, jlookup_omitempty, Hl by done. simpl.
  case_bool_decide as E; [subst; by rewrite Ht|done].
Qed.
End omit.

Lemma get_N_tail k l t n :
  jlookup k l = None -> jlookup k t = Some (JN n) -> NoDup l.*1 ->
  get_N k (omitempty l ++ t) = inl n.
Proof.
  intros Hl Ht Hnd. unfold get_N, get_Z. rewrite jlookup_app, jlookup_omitempty, Hl, Ht by done.
  simpl. destruct (Z.of_N n <? 0)%Z eqn:E; [apply Z.ltb_lt in E; lia|]. by rewrite N2Z.id.
Qed.
Lemma get_S_tail k l t s :
  jlookup k l = None -> jlookup k t = Some (JStr s) -> NoDup l.*1 ->
  get_S k (omitempty l ++ t) = inl s.
Proof. intros Hl Ht Hnd. unfold get_S. by rewrite jlookup_app, jlookup_omitempty, Hl, Ht. Qed.

Lemma pb_fields_NoDup p : NoDup (pb_fields p).*1.
Proof. apply (bool_decide_unpack (NoDup (pb_fields p).*1)). by vm_compute. Qed.

Definition attr_blob (a : Attr) : blob :=
  BJson (omitempty (pb_fields (pb a)) ++
         [("ParentIno"%string, JN (ParentIno a)); ("Name"%string, JStr (Name a))]).
Definition entry_blob (e : Entry) : blob :=
  BJson [("ParentIno"%string, JN (e_ParentIno e)); ("Name"%string, JStr (e_Name e));
         ("Ino"%string, JN (e_Ino e)); ("Mode"%string, JN (e_Mode e))].

Lemma Attr_Deserialize_blob a : Attr_Deserialize (attr_blob a) = inl a.
Proof.
  unfold Attr_Deserialize, attr_blob. set (t := [_; _]).
  pose proof (pb_fields_NoDup (pb a)) as Hnd.
  repeat first
    [ erewrite get_N_omit by (exact Hnd || reflexivity); cbn [sbind]
    | erewrite get_Z_omit by (exact Hnd || reflexivity); cbn [sbind]
    | erewrite get_S_omit by (exact Hnd || reflexivity); cbn [sbind]
    | erewrite get_N_tail by (exact Hnd || reflexivity); cbn [sbind]
    | erewrite get_S_tail by (exact Hnd || reflexivity); cbn [sbind] ].
  by destruct a as [[] ? ?].
Qed.

Lemma get_N_JN k j n : jlookup k j = Some (JN n) -> get_N k j = inl n.
Proof.
  intros H. unfold get_N, get_Z. rewrite H. simpl.
  destruct (Z.of_N n <? 0)%Z eqn:E; [apply Z.ltb_lt in E; lia|]. by rewrite N2Z.id.
Qed.

Lemma Entry_Deserialize_blob e : Entry_Deserialize (entry_blob e) = inl e.
Proof.
  unfold Entry_Deserialize, entry_blob.
  rewrite (get_N_JN "ParentIno" _ (e_ParentIno e)), (get_N_JN "Ino" _ (e_Ino e)),
    (get_N_JN "Mode" _ (e_Mode e)) by reflexivity.
  by destruct e.
Qed.

(** ** Keys *)

Definition attr_key (ino : N) : string := ("a/" +:+ itoa ino)%string.
Definition entry_key (parent : N) (name : string) : string :=
  ("e/" +:+ itoa parent +:+ "/" +:+ name)%string.

(** A name of a directory entry: what a path component can be. *)
Definition valid_name (name : string) : Prop :=
  name <> ""%string /\ has_char "/"%char name = false.
#[export] Instance valid_name_dec name : Decision (valid_name name).
Proof. unfold valid_name. apply _. Defined.

Lemma attr_key_inj i j : attr_key i = attr_key j -> i = j.
Proof. intros H%str_app_inj_l. by apply itoa_inj. Qed.

Lemma entry_key_inj p n p' n' : entry_key p n = entry_key p' n' -> p = p' /\ n = n'.
Proof.
  unfold entry_key. intros H%str_app_inj_l. apply sep_inj in H as [H ->]; auto with go.
  by apply itoa_inj in H as ->.
Qed.

Lemma attr_entry_key_ne i p n : attr_key i <> entry_key p n.
Proof. done. Qed.

(** A key has the prefix of a directory exactly when it is an entry of it. *)
Lemma entry_key_prefix p k :
  has_prefix ("e/" +:+ itoa p +:+ "/")%string k = true <-> exists n, k = entry_key p n.
Proof.
  rewrite has_prefix_spec. unfold entry_key. split; intros [n ->]; exists n;
    by rewrite !str_app_assoc.
Qed.

#[global] Arguments attr_blob : simpl never.
#[global] Arguments entry_blob : simpl never.
#[global] Arguments Attr_Deserialize : simpl never.
#[global] Arguments Entry_Deserialize : simpl never.
#[global] Arguments attr_key : simpl never.
#[global] Arguments entry_key : simpl never.

(** What the codecs write they read back: attributes, with their zero fields
    omitted, and entries. *)
Theorem json_round_trip (a : Attr) (e : Entry) :
  sbind (Attr_Serialize a) Attr_Deserialize = inl a /\
  sbind (Entry_Serialize e) Entry_Deserialize = inl e.
Proof. split; [apply Attr_Deserialize_blob|apply Entry_Deserialize_blob]. Qed.

(** The key spaces are separate: an attribute key determines its inode, an entry
    key its directory and name, no key is both, and the keys under a directory's
    prefix are exactly the keys of its entries. *)
Theorem key_spaces (a a' : Attr) (e e' : Entry) k :
  (Attr_FormatKey a = Attr_FormatKey a' -> Inode a = Inode a') /\
  (Entry_FormatKey e = Entry_FormatKey e' ->
     e_ParentIno e = e_ParentIno e' /\ e_Name e = e_Name e') /\
  Attr_FormatKey a <> Entry_FormatKey e /\
  (has_prefix (Entry_FormatPrefix e) k = true <->
     exists e'', e_ParentIno e'' = e_ParentIno e /\ k = Entry_FormatKey e'').
Proof.
  split_and!.
  - apply attr_key_inj.
  - apply entry_key_inj.
  - done.
  - unfold Entry_FormatPrefix. rewrite entry_key_prefix. split.
    + intros [n ->]. by exists (MkEntry (e_ParentIno e) n 0 0).
    + intros (e'' & <- & ->). by exists (e_Name e'').
Qed.
