(* ===== verification/NodeService.v ===== *)
(** The inode service (src/pkg/meta/inode/service.go, cntl.go): the directory
    tree kept in the store.  Every operation is written against the [Store]
    interface; [now] is the value [time.Now()] returns. *)
From Stdlib Require Import Ascii.
From stdpp Require Import prelude gmap strings list fin_maps.
From S2P Require Import Prelude Store FileMode FreeList Attr.

(** * State *)

(** [root] is nil until [init] has run. *)
Record Service (S : Type) := MkService {
  metaStore : S;
  root : option Attr;
  inoFreeList : FreeListG N;
}.
Arguments MkService {S}.
Arguments metaStore {S}.
Arguments root {S}.
Arguments inoFreeList {S}.

Definition with_store {S} (s : Service S) (m : S) : Service S :=
  MkService m (root s) (inoFreeList s).
Definition with_root {S} (a : Attr) (s : Service S) : Service S :=
  MkService (metaStore s) (Some a) (inoFreeList s).
Definition with_freelist {S} (f : FreeListG N) (s : Service S) : Service S :=
  MkService (metaStore s) (root s) f.

(** Calls on [s.metaStore]. *)
Definition on_store {S A} (m : M S error A) : M (Service S) error A :=
  fun s => let '(r, m') := m (metaStore s) in (r, with_store s m').

#[export] Instance Service_Store {S} `{Store S} : Store (Service S) := {|
  Save k v := on_store (Save k v);
  Get k := on_store (Get k);
  Scan p b e := on_store (Scan p b e);
  Delete k := on_store (Delete k);
  GetByBucket k := on_store (GetByBucket k);
  DeleteByBucket k := on_store (DeleteByBucket k);
  Incr k n := on_store (Incr k n);
  BatchSave b l := on_store (BatchSave b l);
  BatchDeleteByKey b l := on_store (BatchDeleteByKey b l);
  Cleanup := on_store Cleanup;
  Begin s := with_store s (Begin (metaStore s));
  Commit s := let '(e, m) := Commit (metaStore s) in (e, with_store s m);
  Rollback s := with_store s (Rollback (metaStore s));
|}.

Definition InoKey : string := "i".

(** * Operations *)

Section service.
Context {S : Type} `{Store S} {C : Copier}.
Abbreviation op A := (M (Service S) error A).

(** ** Start-up *)

Definition root_attr (uid gid : N) (now : Time) : Attr :=
  MkAttr (set_Inode 1 (set_Nlink 2 (set_Mode (N.lor ModeDir 493) (* 0755 *)
           (set_Uid uid (set_Gid gid (touch_a now (touch_mc now zero_PbAttr))))))) 0 "".

(** [uid] and [gid] are [GetUid()] and [GetGid()]. *)
Definition init (uid gid : N) (now : Time) : op unit :=
  r <-? GetValueByKey (newAttr 1) ;;
  match r with
  | inl pAttr => modify (with_root pAttr)
  | inr e =>
      if bool_decide (e = ErrNotFound) then
        _ <- Incr InoKey 1 ;;
        modify (with_root (root_attr uid gid now)) ;;;
        DoSaveInKVPair (Some (root_attr uid gid now))
      else throw e
  end.

Definition NewService (uid gid : N) (now : Time) (m : S) : outcome error unit * Service S :=
  init uid gid now (MkService m None NewFreeListUnboundG).

(** ** Reads *)

Definition IfExistsInode (ino : N) : op unit :=
  r <-? GetValueByKey (newAttr ino) ;;
  match r with
  | inl _ => ret tt
  | inr e => if bool_decide (e = ErrNotFound) then throw (Status NotFound)
             else throw (Status Unknown)
  end.

(** An error of the store as a gRPC status: [NotFound] or [Internal]. *)
Definition status_of {A} (r : A + error) : op A :=
  match r with
  | inl a => ret a
  | inr e => if bool_decide (e = ErrNotFound) then throw (Status NotFound)
             else throw (Status Internal)
  end.

(** The response: ParentIno, Name and Attr. *)
Definition GetInodeAttr (ino : N) : op (N * string * PbAttr) :=
  r <-? GetValueByKey (newAttr ino) ;;
  attr <- status_of r ;;
  ret (ParentIno attr, Name attr, ToPb attr).

Definition Lookup (parent : N) (name : string) : op PbAttr :=
  if (parent =? 0)%N || bool_decide (name = ""%string) then throw (Status InvalidArgument)
  else
    let name := if (parent =? 1)%N && bool_decide (name = ".."%string) then "."%string else name in
    if bool_decide (name = "."%string) && (parent =? 1)%N then
      r <- gets root ;; root <- deref r ;; ret (ToPb root)
    else
      r <-? GetValueByKey (newEntry parent name) ;;
      entry <- status_of r ;;
      r <-? GetValueByKey (newAttr_Entry entry) ;;
      attr <- status_of r ;;
      ret (ToPb attr).

(** [ListItemUnderInode_Item]. *)
Record Item := MkItem { i_Ino : N; i_Name : string; i_Mode : N; i_Attr : option PbAttr }.

Fixpoint list_loop (plus : bool) (l : list (string * Entry)) : op (list Item) :=
  match l with
  | [] => ret []
  | (key, e) :: rest =>
      attr <- (if plus then
                 r <-? GetValueByKey (newAttr (e_Ino e)) ;;
                 a <- status_of r ;; ret (Some (ToPb a))
               else ret None) ;;
      items <- list_loop plus rest ;;
      ret (MkItem (e_Ino e) (trim_prefix key (Entry_FormatPrefix e)) (e_Mode e) attr :: items)
  end.

(** Go iterates over the map in no fixed order; the model takes the order of
    [map_to_list]. *)
Definition ListItemUnderInode (ino : N) (plus : bool) : op (list Item) :=
  r <-? GetValuesByPrefix (newEntry_Ino ino) ;;
  entryMap <- status_of r ;;
  list_loop plus (map_to_list entryMap).

(** ** Changing attributes *)

(** A pointer field of the requested attributes: a nil message or a nil field
    panics. *)
Definition req_field {A} (req : option ModifyAttr) (f : ModifyAttr -> option A) : outcome error A :=
  r <~ oderef req ;; oderef (f r).

(** What the steps of [UpdateInodeAttr] work on: the loaded attributes, the
    request (whose mode two steps change in place) and [changed]. *)
Definition upd_state : Type := Attr * option ModifyAttr * bool.

Definition set_has (set bits : N) : bool := has_bits set bits.

(** service.go:204-212 *)
Definition upd_sugid (ctx : FuseContext) (set : N) (st : upd_state) : outcome error upd_state :=
  let '(d, req, changed) := st in
  let '(d, changed) :=
    if set_has set (N.lor SetAttrUID SetAttrGID) && set_has set SetAttrMode
    then (on_pb (set_Mode (N.lor (Mode d) (N.land (Mode d) 3072))) d, true) (* 06000 *)
    else (d, changed) in
  if has_bits (Mode d) 3072 && set_has set (N.lor SetAttrUID SetAttrGID) then
    p <~ clearSUGID ctx d req ;; Ok (p.1, p.2, true)
  else Ok (d, req, changed).

(** service.go:214-226 *)
Definition upd_gid (ctx : FuseContext) (set : N) (st : upd_state) : outcome error upd_state :=
  let '(d, req, changed) := st in
  if set_has set SetAttrGID then
    if negb (ctx_Uid ctx =? 0)%N && negb (ctx_Uid ctx =? Uid d)%N then
      _ <~ req_field req m_Uid ;; Err (Errno EPERM)
    else
      g <~ req_field req m_Gid ;;
      if negb (Gid d =? g)%N then Ok (on_pb (set_Gid g) d, req, true) else Ok (d, req, changed)
  else Ok (d, req, changed).

(** service.go:227-234 *)
Definition upd_uid (ctx : FuseContext) (set : N) (st : upd_state) : outcome error upd_state :=
  let '(d, req, changed) := st in
  if set_has set SetAttrUID then
    u <~ req_field req m_Uid ;;
    if negb (Uid d =? u)%N then
      if negb (ctx_Uid ctx =? 0)%N then _ <~ req_field req m_Gid ;; Err (Errno EPERM)
      else Ok (on_pb (set_Uid u) d, req, true)
    else Ok (d, req, changed)
  else Ok (d, req, changed).

(** service.go:236-250; the owner test compares the caller's gid with the
    file's uid, as the code does. *)
Definition upd_mode (ctx : FuseContext) (set : N) (st : upd_state) : outcome error upd_state :=
  let '(d, req, changed) := st in
  if set_has set SetAttrMode then
    m <~ req_field req m_Mode ;;
    let m := if negb (ctx_Uid ctx =? 0)%N && has_bits m 1024 && negb (ctx_Gid ctx =? Gid d)%N
             then N.land m 3071 (* 05777 *) else m in
    let req := set_m_Mode m <$> req in
    if negb (m =? Mode d)%N then
      if negb (ctx_Uid ctx =? 0)%N && negb (ctx_Gid ctx =? Uid d)%N &&
         (negb (N.land (Mode d) 1023 =? N.land m 1023)%N
          || (N.land (Mode d) 1024 <? N.land m 1024)%N
          || (N.land (Mode d) 2048 <? N.land m 2048)%N)
      then Err (Errno EPERM)
      else Ok (on_pb (set_Mode m) d, req, true)
    else Ok (d, req, changed)
  else Ok (d, req, changed).

(** The write permission the time stamps need. *)
Definition denied_write (ctx : FuseContext) (d : Attr) : bool :=
  negb (ctx_Uid ctx =? Uid d)%N && bool_decide (access ctx d MODE_MASK_W <> None).

(** service.go:253-270 *)
Definition upd_atime (ctx : FuseContext) (set : N) (now : Time) (st : upd_state)
  : outcome error upd_state :=
  let '(d, req, changed) := st in
  use_now <~ (if set_has set SetAttrAtimeNow then Ok true
              else if set_has set SetAttrAtime then
                r <~ oderef req ;; Ok (default 0 (m_Atime r) <? 0)%Z
              else Ok false) ;;
  if (use_now : bool) then
    if denied_write ctx d then Err (Errno EACCES)
    else Ok (on_pb (touch_a now) d, req, true)
  else if set_has set SetAttrAtime then
    t <~ req_field req m_Atime ;;
    differs <~ (if negb (Atime d =? t)%Z then Ok true
                else ns <~ req_field req m_Atimens ;; Ok (negb (Atimens d =? ns)%N)) ;;
    if (differs : bool) then
      if (Uid d =? 0)%N && negb (ctx_Uid ctx =? 0)%N then Err (Errno EPERM)
      else if denied_write ctx d then Err (Errno EACCES)
      else ns <~ req_field req m_Atimens ;;
           Ok (on_pb (fun p => set_Atimens ns (set_Atime t p)) d, req, true)
    else Ok (d, req, changed)
  else Ok (d, req, changed).

(** service.go:272-289 *)
Definition upd_mtime (ctx : FuseContext) (set : N) (now : Time) (st : upd_state)
  : outcome error upd_state :=
  let '(d, req, changed) := st in
  use_now <~ (if set_has set SetAttrMtimeNow then Ok true
              else if set_has set SetAttrMtime then
                t <~ req_field req m_Mtime ;; Ok (t <? 0)%Z
              else Ok false) ;;
  if (use_now : bool) then
    if denied_write ctx d then Err (Errno EACCES)
    else Ok (on_pb (touch_m now) d, req, true)
  else if set_has set SetAttrMtime then
    t <~ req_field req m_Mtime ;;
    differs <~ (if negb (Mtime d =? t)%Z then Ok true
                else ns <~ req_field req m_Mtimens ;; Ok (negb (Mtimens d =? ns)%N)) ;;
    if (differs : bool) then
      if (Uid d =? 0)%N && negb (ctx_Uid ctx =? 0)%N then Err (Errno EPERM)
      else if denied_write ctx d then Err (Errno EACCES)
      else ns <~ req_field req m_Mtimens ;;
           Ok (on_pb (fun p => set_Mtimens ns (set_Mtime t p)) d, req, true)
    else Ok (d, req, changed)
  else Ok (d, req, changed).

(** service.go:291-294 *)
Definition upd_flags (set : N) (st : upd_state) : outcome error upd_state :=
  let '(d, req, changed) := st in
  if set_has set SetAttrFlag then
    f <~ req_field req m_Flags ;; Ok (on_pb (set_Flags f) d, req, true)
  else Ok (d, req, changed).

(** service.go:295-300 *)
Definition upd_size (set : N) (now : Time) (st : upd_state) : outcome error upd_state :=
  let '(d, req, changed) := st in
  if set_has set SetAttrSize then
    z <~ req_field req m_Size ;; Ok (on_pb (fun p => touch_m now (set_Size z p)) d, req, true)
  else Ok (d, req, changed).

(** The attributes [UpdateInodeAttr] saves. *)
Definition updated_attr (ctx : FuseContext) (set : N) (req : option ModifyAttr) (now : Time)
    (d : Attr) : outcome error Attr :=
  st <~ upd_sugid ctx set (d, req, false) ;;
  st <~ upd_gid ctx set st ;;
  st <~ upd_uid ctx set st ;;
  st <~ upd_mode ctx set st ;;
  st <~ upd_atime ctx set now st ;;
  st <~ upd_mtime ctx set now st ;;
  st <~ upd_flags set st ;;
  st <~ upd_size set now st ;;
  let '(d, _, changed) := st in
  let d := on_pb (touch_c now) d in
  Ok (if changed : bool then on_pb (fun p => set_Epoch (incr32 (Epoch p)) p) d else d).

(** A pointer that is nil whenever the call failed. *)
Definition get_or {A B} (r : A + error) (e : error) (k : A -> op B) : op B :=
  match r with inl a => k a | inr _ => throw e end.

Definition UpdateInodeAttr (ctx : FuseContext) (ino set : N) (req : option ModifyAttr) (now : Time)
  : op PbAttr :=
  DoInTxn (
    r <-? GetValueByKey (newAttr ino) ;;
    get_or r (Status NotFound) (fun dirtyAttr =>
    d <- pure (updated_attr ctx set req now dirtyAttr) ;;
    r <-? DoBatchSaveStrictly [d] ;;
    get_or r (Status Internal) (fun _ => ret (ToPb d)))).

(** ** Removing *)

(** Any error of the store reported as [Internal]. *)
Definition or_internal {A} (m : op A) : op A :=
  r <-? m ;; get_or r (Status Internal) ret.

Definition bump_epoch (p : PbAttr) : PbAttr := set_Epoch (incr32 (Epoch p)) p.

(** [now] and [now'] are the two clock readings. *)
Definition DeleteInode (parent : N) (name : string) (now now' : Time) : op unit :=
  if (parent =? 0)%N && bool_decide (name = "/"%string) then ret tt
  else if bool_decide (name = "."%string) || bool_decide (name = ".."%string) then
    throw (Status InvalidArgument)
  else
    r <-? GetValueByKey (newEntry parent name) ;;
    entry <- status_of r ;;
    if e_IsDir entry then throw (Status Aborted)
    else DoInTxn (
      pAttr <- or_internal (GetValueByKey (newAttr (e_ParentIno entry))) ;;
      let pAttr := on_pb (touch_mc now) pAttr in
      or_internal (DeleteByKey (newEntry parent name)) ;;;
      attr <- GetValueByKey (newAttr (e_Ino entry)) ;;
      (if (1 <? Nlink attr)%N then
         or_internal (DoSaveInKVPair
           (Some (on_pb (fun p => touch_c now' (set_Nlink (decr32 (Nlink p)) p)) attr)))
       else or_internal (DeleteByKey (newAttr (e_Ino entry)))) ;;;
      or_internal (DoSaveInKVPair (Some (on_pb bump_epoch pAttr)))).

(** The recursion of [doDeleteDir] takes fuel; the loop below asks for it only
    for a child built with the directory bit. *)
Fixpoint delete_children (rec : N -> string -> op unit) (attrs : list Attr) : op unit :=
  match attrs with
  | [] => ret tt
  | item :: rest =>
      (if IsDir item then rec (ParentIno item) (Name item) else ret tt) ;;;
      delete_children rec rest
  end.

Fixpoint doDeleteDir (fuel : nat) (parentIno : N) (name : string) : op unit :=
  match fuel with
  | O => go_panic
  | Datatypes.S fuel =>
      r <-? GetValueByKey (newEntry parentIno name) ;;
      match r with
      | inr e => if bool_decide (e = ErrNotFound) then ret tt else throw (Status Internal)
      | inl entry =>
          if e_IsFile entry then throw (Status InvalidArgument)
          else
            childrenMap <- GetValuesByPrefix (newEntry_Ino (e_Ino entry)) ;;
            let children := (map_to_list childrenMap).*2 in
            let attrs := (fun e => Attr_of_ino (e_Ino e)) <$> children in
            delete_children (doDeleteDir fuel) attrs ;;;
            DoBatchDeleteStrictly (children ++ [entry]) ;;;
            DoBatchDeleteStrictly (attrs ++ [Attr_of_ino (e_Ino entry)])
      end
  end.

Definition DeleteDirInode (fuel : nat) (parent : N) (name : string) (now : Time) : op unit :=
  pAttr <- or_internal (GetValueByKey (newAttr parent)) ;;
  r <-? GetValueByKey (newEntry parent name) ;;
  _ <- status_of r ;;
  doDeleteDir fuel parent name ;;;
  or_internal (DoSaveInKVPair (Some
    (on_pb (fun p => bump_epoch (touch_mc now (set_Nlink (decr32 (Nlink p)) p))) pAttr))).

(** ** Creating *)

(** The error of [Incr] is dropped, and the number is then 0. *)
Definition next_ino : op N :=
  NewWith inoFreeList with_freelist
    (r <-? Incr InoKey 1 ;; ret (match r with inl ino => ino | inr _ => 0%N end)).

(** The size and link count of a new node. *)
Definition new_kind (attr : Attr) : Attr :=
  if IsDir attr then on_pb (fun p => set_Size 4096 (set_Nlink 2 p)) attr
  else if IsSymlink attr then
    on_pb (fun p => set_Size (N.of_nat (String.length (LinkTarget p))) (set_Nlink 1 p)) attr
  else on_pb (set_Nlink 1) attr.

Definition new_parent (attr pAttr : Attr) : Attr :=
  if IsDir attr then on_pb (fun p => set_Nlink (incr32 (Nlink p)) p) pAttr else pAttr.

Definition newInode (attr pAttr : Attr) (createIno : bool) (now : Time) : op (Attr * Attr) :=
  attr <- (if createIno then ino <- next_ino ;; ret (SetInode ino attr) else ret attr) ;;
  ret (on_pb (fun p => touch_mc now (touch_a now p)) (new_kind attr),
       on_pb (fun p => bump_epoch (touch_mc now p)) (new_parent attr pAttr)).

(** An error of the store, wrapped. *)
Definition or_wrapped {A} (m : op A) : op A :=
  r <-? m ;; match r with inl a => ret a | inr e => throw (Wrapped e) end.

(** The entry there is already, nil on any error. *)
Definition taken (r : Entry + error) : bool :=
  match r with inl e => negb (e_Ino e =? 0)%N | inr _ => false end.

Definition CreateInode (parent : N) (name : string) (req : option ModifyAttr) (now : Time)
  : op PbAttr :=
  DoInTxn (
    r <-? GetValueByKey (newAttr parent) ;;
    get_or r (Status NotFound) (fun pAttr =>
    if negb (IsDir pAttr) then throw (Errno ENOTDIR)
    else if has_bits (Flags pAttr) FlagImmutable then throw (Errno EPERM)
    else
      r <-? GetValueByKey (newEntry parent name) ;;
      if taken r then throw (Errno EEXIST)
      else
        attr <- deref (ToAttr req) ;;
        p <- newInode (SetName name (SetParentIno parent attr)) pAttr true now ;;
        let '(attr, pAttr) := p in
        or_wrapped (DoSaveInKVPair (Some (MkEntry parent name (Inode attr) (Mode attr)))) ;;;
        or_wrapped (DoBatchSaveStrictly [pAttr; attr]) ;;;
        ret (ToPb attr))).

(** [Link]: the parent is read before the transaction starts. *)
Definition Link (ino newParent : N) (newName : string) (now : Time) : op PbAttr :=
  r <-? GetValueByKey (newAttr newParent) ;;
  get_or r (Status NotFound) (fun pAttr =>
  if negb (IsDir pAttr) then throw (Errno ENOTDIR)
  else if has_bits (Flags pAttr) FlagImmutable then throw (Errno EPERM)
  else DoInTxn (
    r <-? GetValueByKey (newAttr ino) ;;
    get_or r (Status NotFound) (fun target =>
    if IsDir target then throw (Errno EPERM)
    else
      r <-? GetValueByKey (newEntry newParent newName) ;;
      if taken r then throw (Errno EEXIST)
      else
        let target := on_pb (fun p => touch_c now (set_Nlink (incr32 (Nlink p)) p)) target in
        let pAttr := on_pb (touch_mc now) pAttr in
        or_wrapped (DoBatchSaveStrictly [pAttr; target]) ;;;
        or_wrapped (DoSaveInKVPair (Some (MkEntry newParent newName (Inode target) (Mode target)))) ;;;
        ret (ToPb target)))).

(** ** Renaming *)

Definition or_enoent {A} (m : op A) : op A :=
  r <-? m ;; get_or r (Errno ENOENT) ret.

Definition check {A} (bad : bool) (e : errno) (k : op A) : op A :=
  if bad then throw (Errno e) else k.
Definition check_access (ctx : FuseContext) (a : Attr) (mask : N) : op unit :=
  match access ctx a mask with Some st => throw (Errno st) | None => ret tt end.

(** service.go:680-716: the entry, the two parents and the node. *)
Definition rename_load (ctx : FuseContext) (src dst : N) (oldName : string)
  : op (Entry * Attr * Attr * Attr) :=
  se <- or_enoent (GetValueByKey (newEntry src oldName)) ;;
  spa <- or_enoent (GetValueByKey (newAttr src)) ;;
  dpa <- or_enoent (GetValueByKey (newAttr dst)) ;;
  sa <- or_enoent (GetValueByKey (newAttr (e_Ino se))) ;;
  check (negb (IsDir spa) || negb (IsDir dpa)) ENOTDIR (
  check_access ctx spa (N.lor MODE_MASK_W MODE_MASK_X) ;;;
  check_access ctx dpa (N.lor MODE_MASK_W MODE_MASK_X) ;;;
  check (has_bits (Flags spa) FlagAppend || has_bits (Flags spa) FlagImmutable
         || has_bits (Flags dpa) FlagImmutable
         || has_bits (Flags sa) FlagAppend || has_bits (Flags sa) FlagImmutable) EPERM (
  check (negb (src =? dst)%N && has_bits (Mode spa) 512 && negb (ctx_Uid ctx =? 0)%N
         && negb (ctx_Uid ctx =? Uid sa)%N
         && (negb (ctx_Uid ctx =? Uid spa)%N || IsDir sa)) EACCES (
  ret (se, spa, dpa, sa)))).

(** The variables the steps of [Rename] share. *)
Record rename_state := MkRename {
  r_spa : Attr; r_dpa : Attr; r_sa : Attr; r_da : option Attr;
  r_supdate : bool; r_dupdate : bool;
}.

Definition nlink_up (a : Attr) : Attr := on_pb (fun p => set_Nlink (incr32 (Nlink p)) p) a.
Definition nlink_down (a : Attr) : Attr := on_pb (fun p => set_Nlink (decr32 (Nlink p)) p) a.

(** service.go:738-748 *)
Definition exchange_dst (src dst : N) (spa dpa sa da : Attr) : rename_state :=
  if negb (src =? dst)%N then
    if IsDir da then
      MkRename (nlink_up spa) (nlink_down dpa) sa (Some (SetParentIno src da)) true true
    else if (0 <? ParentIno da)%N then MkRename spa dpa sa (Some (SetParentIno src da)) false false
    else MkRename spa dpa sa (Some da) false false
  else MkRename spa dpa sa (Some da) false false.

(** service.go:749-765; the error of the listing is dropped. *)
Definition replace_dst (spa dpa sa da : Attr) : op rename_state :=
  if IsDir da then
    r <-? GetValuesByPrefix (newEntry_Ino (Inode da)) ;;
    let n := match r with inl m => base.size (m : gmap string Entry) | inr _ => O end in
    check (0 <? n)%nat ENOTEMPTY (ret (MkRename spa (nlink_down dpa) sa (Some da) false true))
  else ret (MkRename spa dpa sa (Some (nlink_down da)) false false).

(** service.go:720-774 *)
Definition rename_dst (ctx : FuseContext) (src dst flags : N) (now : Time) (de : option Entry)
    (spa dpa sa : Attr) : op rename_state :=
  match de with
  | Some de =>
      check (flags =? RenameNoReplace)%N EEXIST (
      da <- or_enoent (GetValueByKey (newAttr (e_Ino de))) ;;
      check (has_bits (Flags da) FlagAppend || has_bits (Flags da) FlagImmutable) EPERM (
      let da := on_pb (touch_c now) da in
      st <- (if (flags =? RenameExchange)%N then ret (exchange_dst src dst spa dpa sa da)
             else replace_dst spa dpa sa da) ;;
      check (negb (ctx_Uid ctx =? 0)%N && has_bits (Mode da) 512
             && negb (ctx_Uid ctx =? Uid (r_dpa st))%N && negb (ctx_Uid ctx =? Uid da)%N) EACCES
        (ret st)))
  | None =>
      check (flags =? RenameExchange)%N ENOENT (ret (MkRename spa dpa sa None false false))
  end.

(** service.go:776-778: [da] is nil when there is no entry to replace. *)
Definition sticky_check (ctx : FuseContext) (st : rename_state) : op unit :=
  if negb (ctx_Uid ctx =? 0)%N && has_bits (Mode (r_spa st)) 512
     && negb (ctx_Uid ctx =? Uid (r_spa st))%N then
    da <- deref (r_da st) ;; check (negb (ctx_Uid ctx =? Uid da)%N) EACCES (ret tt)
  else ret tt.

(** [now.Sub(time.Unix(sec, nsec)) >= minUpdateTime], 10 milliseconds. *)
Definition stale (now : Time) (sec : Z) (nsec : N) : bool :=
  (10000000 <=? (Unix now - sec) * 1000000000 + (Z.of_N (Nanosecond now) - Z.of_N nsec))%Z.

(** service.go:780-803; the source parent's test mixes its mtime with its
    ctimens, as the code does. *)
Definition rename_touch (src dst : N) (now : Time) (st : rename_state) : rename_state :=
  let moved := negb (src =? dst)%N && IsDir (r_sa st) in
  let spa := if moved then nlink_down (r_spa st) else r_spa st in
  let dpa := if moved then nlink_up (r_dpa st) else r_dpa st in
  let supdate := r_supdate st || moved || stale now (Mtime spa) (Ctimens spa) in
  let dupdate := r_dupdate st || moved || stale now (Mtime dpa) (Mtimens dpa) in
  MkRename (if supdate then on_pb (touch_mc now) spa else spa)
           (if dupdate then on_pb (touch_mc now) dpa else dpa)
           (on_pb (touch_c now) (r_sa st)) (r_da st) supdate dupdate.

(** service.go:813-839 *)
Definition drop_dst (de : Entry) (da : Attr) : op unit :=
  (if negb (IsDir da) && (0 <? Nlink da)%N then DoSaveInKVPair (Some da)
   else if IsFile da then DoDeleteByKey (Some da)
   else if IsSymlink da then DoDeleteByKey (Some da)
   else ret tt) ;;;
  DoDeleteByKey (Some de).

(** service.go:805-849 *)
Definition rename_entries (dst flags : N) (newName : string) (se : Entry) (de : option Entry)
    (st : rename_state) : op unit :=
  if (flags =? RenameExchange)%N then
    da <- deref (r_da st) ;;
    DoBatchSaveAnyStrictly [to_lossy se; to_lossy da]
  else
    DeleteByKey (ToSerializer se) ;;;
    match de with
    | Some de => da <- deref (r_da st) ;; drop_dst de da
    | None => ret tt
    end ;;;
    DoSaveInKVPair (Some (MkEntry dst newName (e_Ino se) (e_Mode se))).

(** service.go:850-894: the saved attributes, the clone returned as the old
    entry, and the inode reported as deleted. *)
Definition rename_save (src dst : N) (newName : string) (st : rename_state)
  : op (option Attr * Attr * N) :=
  (if negb (dst =? src)%N && r_supdate st
   then DoSaveInKVPair (Some (on_pb bump_epoch (r_spa st))) else ret tt) ;;;
  let trasha := Clone (r_sa st) in
  let '(da, deletedIno) :=
    match r_da st with
    | Some da => (Some (MkAttr (pb (r_sa st)) (ParentIno da) (Name da)), Inode da)
    | None => (Clone (r_sa st), 0%N)
    end in
  da <- deref da ;;
  let da := on_pb bump_epoch (SetParentIno dst (SetName newName da)) in
  DoBatchSaveAnyStrictly [to_lossy da] ;;;
  (if r_dupdate st then DoSaveInKVPair (Some (r_dpa st)) else ret tt) ;;;
  ret (trasha, da, deletedIno).

(** The flag test at service.go:655-661. *)
Definition rename_flags (flags : N) : option errno :=
  if (flags =? 0)%N || (flags =? RenameNoReplace)%N || (flags =? RenameExchange)%N then None
  else if (flags =? RenameWhiteout)%N || (flags =? N.lor RenameNoReplace RenameWhiteout)%N
  then Some ENOTSUP
  else Some EINVAL.

(** The callback of [Rename]'s transaction. *)
Definition rename_txn (ctx : FuseContext) (src dst : N) (oldName newName : string) (flags : N)
    (now : Time) : op (option Attr * Attr * N) :=
  l <- rename_load ctx src dst oldName ;;
  let '(se, spa, dpa, sa) := l in
  r <-? GetValueByKey (newEntry dst newName) ;;
  let de := match r with inl e => Some e | inr _ => None end in
  st <- rename_dst ctx src dst flags now de spa dpa sa ;;
  sticky_check ctx st ;;;
  let st := rename_touch src dst now st in
  rename_entries dst flags newName se de st ;;;
  rename_save src dst newName st.

(** The response: OldEntry, NewEntry and DeletedIno. *)
Definition Rename (ctx : FuseContext) (src dst : N) (oldName newName : string) (flags : N)
    (now : Time) : op (PbEntry * PbEntry * N) :=
  match rename_flags flags with
  | Some e => throw (Errno e)
  | None =>
      r <- DoInTxn (rename_txn ctx src dst oldName newName flags now) ;;
      let '(trasha, da, deletedIno) := r in
      trasha <- deref trasha ;;
      ret (ToPbEntry trasha, ToPbEntry da, deletedIno)
  end.
End service.

(** * File locks (cntl.go) *)

(** [pb.FileLock]. *)
Record FileLock := MkFileLock {
  l_Ino : N; l_Owner : N; l_Pid : N; l_Start : N; l_End : N; l_Kind : N; l_Flag : N;
  l_ExpireTime : N;
}.

(** The protobuf codec is a parameter.  [Unmarshal] may panic: the code hands it
    a message whose embedded pointer is nil. *)
Class FileLockCodec := {
  encodeFileLock : FileLock -> list N + error;
  decodeFileLock : list N -> outcome error FileLock;
}.

Definition fileLockKey (ino owner pid : N) : string :=
  ("lk-" +:+ itoa ino +:+ "-" +:+ itoa owner +:+ "-" +:+ itoa pid)%string.
Definition fileLockInoPrefix (ino : N) : string := ("lk-" +:+ itoa ino +:+ "-")%string.

(** [uint64(time.Now().Unix())]. *)
Definition unix64 (now : Time) : N := Z.to_N (Unix now mod 2 ^ 64).

Section locks.
Context {S : Type} `{Store S} {P : FileLockCodec}.
Abbreviation op A := (M (Service S) error A).

Definition decode_blob (b : blob) : outcome error FileLock :=
  match b with BBytes data => decodeFileLock data | _ => Err ErrJson end.

Definition saveFileLock (l : FileLock) : op unit :=
  data <- lift (encodeFileLock l) ;;
  Save (fileLockKey (l_Ino l) (l_Owner l) (l_Pid l)) (BBytes data).

(** The result is a pointer: nil with a nil error when the lock is dropped. *)
Definition getFileLock (ino owner pid : N) (now : Time) : op (option FileLock) :=
  data <- Get (fileLockKey ino owner pid) ;;
  fl <- pure (decode_blob data) ;;
  if (unix64 now <? l_ExpireTime fl)%N then Delete (fileLockKey ino owner pid) ;;; ret None
  else ret (Some fl).

Definition deleteFileLock (ino owner pid : N) : op unit := Delete (fileLockKey ino owner pid).

Fixpoint locks_loop (now : Time) (l : list (string * blob)) : op (list FileLock) :=
  match l with
  | [] => ret []
  | (k, val) :: rest =>
      fl <- pure (decode_blob val) ;;
      (if (unix64 now <? l_ExpireTime fl)%N then Delete k else ret tt) ;;;
      locks <- locks_loop now rest ;;
      ret (fl :: locks)
  end.

Definition getFileLocks (ino : N) (now : Time) : op (list FileLock) :=
  entryMap <- GetByBucket (fileLockInoPrefix ino) ;;
  locks_loop now (map_to_list entryMap).

(** The RPCs.  [GetFileLock] reads the field of the pointer it got. *)
Definition GetFileLock (ino owner pid : N) (now : Time) : op FileLock :=
  lock <- getFileLock ino owner pid now ;; deref lock.
Definition DelFileLock (ino owner pid : N) : op unit := deleteFileLock ino owner pid.
Definition GetFileLocks (ino : N) (now : Time) : op (list FileLock) := getFileLocks ino now.
Definition AcquireFileLock (l : FileLock) : op unit := saveFileLock l.
End locks.
