(* ===== verification/Tree.v ===== *)
(** What the inode service promises: a directory tree as two finite maps, and
    its operations as functions on it.  No keys, codecs, transactions or store
    appear here; NodeRefine.v shows that the service implements these functions.
    The invariant of a tree and its preservation are proved on this level. *)
From stdpp Require Import prelude gmap strings list fin_maps.
From S2P Require Import Prelude Store FileMode Attr NodeService.

(** * Trees *)

(** [next] counts the inode numbers handed out. *)
Record tree := MkTree {
  attrs : gmap N Attr;
  entries : gmap (N * string) Entry;
  next : N;
}.

Definition put_attr (a : Attr) (t : tree) : tree :=
  MkTree (<[Inode a := a]> (attrs t)) (entries t) (next t).
Definition del_attr (ino : N) (t : tree) : tree :=
  MkTree (delete ino (attrs t)) (entries t) (next t).
Definition put_entry (e : Entry) (t : tree) : tree :=
  MkTree (attrs t) (<[(e_ParentIno e, e_Name e) := e]> (entries t)) (next t).
Definition del_entry (p : N) (n : string) (t : tree) : tree :=
  MkTree (attrs t) (delete (p, n) (entries t)) (next t).
Definition take_ino (t : tree) : N * tree :=
  (wrap64 (next t + 1), MkTree (attrs t) (entries t) (wrap64 (next t + 1))).

(** * Operations *)

Definition result (A : Type) : Type := outcome error A * tree.

Definition t_getattr (ino : N) (t : tree) : result (N * string * PbAttr) :=
  (match attrs t !! ino with
   | Some a => Ok (ParentIno a, Name a, pb a)
   | None => Err (Status NotFound)
   end, t).

(** Looking up a name other than the root's own. *)
Definition t_lookup (parent : N) (name : string) (t : tree) : result PbAttr :=
  (match entries t !! (parent, name) ≫= (fun e => attrs t !! e_Ino e) with
   | Some a => Ok (pb a)
   | None => Err (Status NotFound)
   end, t).

(** The new attributes are those the service computes; what they are, field by field
    and without reference to that computation, is [fields_set] of NodeSetattr.v. *)
Definition t_update (ctx : FuseContext) (ino set : N) (req : option ModifyAttr) (now : Time)
    (t : tree) : result PbAttr :=
  match attrs t !! ino with
  | None => (Err (Status NotFound), t)
  | Some d =>
      match updated_attr ctx set req now d with
      | Ok d' => (Ok (pb d'), put_attr d' t)
      | Err e => (Err e, t)
      | Panic => (Panic, t)
      end
  end.

(** The node [CreateInode] makes, and its parent after that. *)
Definition created (parent : N) (name : string) (req : ModifyAttr) (now : Time) (ino : N) : Attr :=
  on_pb (fun p => touch_mc now (touch_a now p))
    (new_kind (SetInode ino (MkAttr (modify_fields req) parent name))).
Definition created_parent (req : ModifyAttr) (now : Time) (pa : Attr) : Attr :=
  on_pb (fun p => bump_epoch (touch_mc now p))
    (if FileMode_IsDir (default 0%N (m_Mode req)) then nlink_up pa else pa).

Definition t_taken (parent : N) (name : string) (t : tree) : bool :=
  match entries t !! (parent, name) with Some e => negb (e_Ino e =? 0)%N | None => false end.

Definition t_create (parent : N) (name : string) (req : ModifyAttr) (now : Time) (t : tree)
  : result PbAttr :=
  match attrs t !! parent with
  | None => (Err (Status NotFound), t)
  | Some pa =>
      if negb (IsDir pa) then (Err (Errno ENOTDIR), t)
      else if has_bits (Flags pa) FlagImmutable then (Err (Errno EPERM), t)
      else if t_taken parent name t then (Err (Errno EEXIST), t)
      else
        let ino := (take_ino t).1 in
        let a := created parent name req now ino in
        (Ok (pb a),
         put_attr a (put_attr (created_parent req now pa)
           (put_entry (MkEntry parent name ino (Mode a)) (take_ino t).2)))
  end.

Definition t_link (ino parent : N) (name : string) (now : Time) (t : tree) : result PbAttr :=
  match attrs t !! parent with
  | None => (Err (Status NotFound), t)
  | Some pa =>
      if negb (IsDir pa) then (Err (Errno ENOTDIR), t)
      else if has_bits (Flags pa) FlagImmutable then (Err (Errno EPERM), t)
      else match attrs t !! ino with
           | None => (Err (Status NotFound), t)
           | Some a =>
               if IsDir a then (Err (Errno EPERM), t)
               else if t_taken parent name t then (Err (Errno EEXIST), t)
               else
                 let a := on_pb (touch_c now) (nlink_up a) in
                 (Ok (pb a),
                  put_entry (MkEntry parent name ino (Mode a))
                    (put_attr a (put_attr (on_pb (touch_mc now) pa) t)))
           end
  end.

Definition t_unlink (parent : N) (name : string) (now now' : Time) (t : tree) : result unit :=
  match entries t !! (parent, name) with
  | None => (Err (Status NotFound), t)
  | Some e =>
      if e_IsDir e then (Err (Status Aborted), t)
      else match attrs t !! parent with
           | None => (Err (Status Internal), t)
           | Some pa =>
               match (attrs t !! e_Ino e : option Attr) with
               | None => (Err ErrNotFound, t)
               | Some a =>
                   let t := del_entry parent name t in
                   let t := if (1 <? Nlink a)%N
                            then put_attr (on_pb (touch_c now') (nlink_down a)) t
                            else del_attr (e_Ino e) t in
                   (Ok tt, put_attr (on_pb (fun p => bump_epoch (touch_mc now p)) pa) t)
               end
           end
  end.

(** The entries of a directory, and the items a listing shows for them. *)
Definition dir (p : N) (t : tree) : list (N * string * Entry) :=
  filter (fun x => x.1.1 = p) (map_to_list (entries t)).
Definition item (plus : bool) (t : tree) (x : N * string * Entry) : Item :=
  MkItem (e_Ino x.2) x.1.2 (e_Mode x.2)
    (if plus then pb <$> (attrs t !! e_Ino x.2 : option Attr) else None).
Definition t_list (p : N) (plus : bool) (t : tree) : list Item := item plus t <$> dir p t.

(** ** Removing a directory *)

(** Its entries and their nodes go, with its own entry and node; what lies below
    a subdirectory stays. *)
Definition t_remove (parent : N) (name : string) (d : N) (t : tree) : tree :=
  MkTree (filter (fun x => x.1 <> d /\ x.1 ∉ (fun y : N * string * Entry => e_Ino y.2) <$> dir d t) (attrs t))
    (filter (fun x => x.1.1 <> d /\ x.1 <> (parent, name)) (entries t)) (next t).

Definition t_rmdir (parent : N) (name : string) (now : Time) (t : tree) : result unit :=
  match attrs t !! parent, entries t !! (parent, name) with
  | None, _ => (Err (Status Internal), t)
  | _, None => (Err (Status NotFound), t)
  | Some pa, Some e =>
      if e_IsFile e then (Err (Status InvalidArgument), t)
      else (Ok tt, put_attr (on_pb (fun p => bump_epoch (touch_mc now p)) (nlink_down pa))
                     (t_remove parent name (e_Ino e) t))
  end.

(** ** Renaming *)

Definition ocheck {A} (bad : bool) (e : errno) (k : outcome error A) : outcome error A :=
  if bad then Err (Errno e) else k.
Definition ofind {A} (o : option A) : outcome error A :=
  match o with Some a => Ok a | None => Err (Errno ENOENT) end.
Definition oaccess (ctx : FuseContext) (a : Attr) : outcome error unit :=
  match access ctx a (N.lor MODE_MASK_W MODE_MASK_X) with
  | Some e => Err (Errno e)
  | None => Ok tt
  end.

(** The checks on the source. *)
Definition t_rename_load (ctx : FuseContext) (src dst : N) (oldName : string) (t : tree)
  : outcome error (Entry * Attr * Attr * Attr) :=
  se <~ ofind (entries t !! (src, oldName)) ;;
  spa <~ ofind (attrs t !! src : option Attr) ;;
  dpa <~ ofind (attrs t !! dst : option Attr) ;;
  sa <~ ofind (attrs t !! e_Ino se : option Attr) ;;
  ocheck (negb (IsDir spa) || negb (IsDir dpa)) ENOTDIR (
  _ <~ oaccess ctx spa ;;
  _ <~ oaccess ctx dpa ;;
  ocheck (has_bits (Flags spa) FlagAppend || has_bits (Flags spa) FlagImmutable
          || has_bits (Flags dpa) FlagImmutable
          || has_bits (Flags sa) FlagAppend || has_bits (Flags sa) FlagImmutable) EPERM (
  ocheck (negb (src =? dst)%N && has_bits (Mode spa) 512 && negb (ctx_Uid ctx =? 0)%N
          && negb (ctx_Uid ctx =? Uid sa)%N
          && (negb (ctx_Uid ctx =? Uid spa)%N || IsDir sa)) EACCES (
  Ok (se, spa, dpa, sa)))).

(** The checks on what the new name holds. *)
Definition t_replace (t : tree) (spa dpa sa da : Attr) : outcome error rename_state :=
  if IsDir da then
    ocheck (0 <? length (dir (Inode da) t))%nat ENOTEMPTY
      (Ok (MkRename spa (nlink_down dpa) sa (Some da) false true))
  else Ok (MkRename spa dpa sa (Some (nlink_down da)) false false).

Definition t_rename_dst (ctx : FuseContext) (src dst flags : N) (now : Time) (de : option Entry)
    (spa dpa sa : Attr) (t : tree) : outcome error rename_state :=
  match de with
  | Some de =>
      ocheck (flags =? RenameNoReplace)%N EEXIST (
      da <~ ofind (attrs t !! e_Ino de : option Attr) ;;
      ocheck (has_bits (Flags da) FlagAppend || has_bits (Flags da) FlagImmutable) EPERM (
      let da := on_pb (touch_c now) da in
      st <~ (if (flags =? RenameExchange)%N then Ok (exchange_dst src dst spa dpa sa da)
             else t_replace t spa dpa sa da) ;;
      ocheck (negb (ctx_Uid ctx =? 0)%N && has_bits (Mode da) 512
              && negb (ctx_Uid ctx =? Uid (r_dpa st))%N && negb (ctx_Uid ctx =? Uid da)%N) EACCES
        (Ok st)))
  | None =>
      ocheck (flags =? RenameExchange)%N ENOENT (Ok (MkRename spa dpa sa None false false))
  end.

Definition t_sticky (ctx : FuseContext) (st : rename_state) : outcome error unit :=
  if negb (ctx_Uid ctx =? 0)%N && has_bits (Mode (r_spa st)) 512
     && negb (ctx_Uid ctx =? Uid (r_spa st))%N then
    da <~ oderef (r_da st) ;; ocheck (negb (ctx_Uid ctx =? Uid da)%N) EACCES (Ok tt)
  else Ok tt.

(** What becomes of the node the new name held. *)
Definition t_drop (da : Attr) (t : tree) : tree :=
  if negb (IsDir da) && (0 <? Nlink da)%N then put_attr da t
  else if IsFile da || IsSymlink da then del_attr (Inode da) t
  else t.

Definition t_rename_entries (src dst flags : N) (oldName newName : string) (se : Entry)
    (st : rename_state) (t : tree) : tree :=
  if (flags =? RenameExchange)%N then
    match r_da st with Some da => put_attr da t | None => t end
  else
    let t := del_entry src oldName t in
    let t := match r_da st with
             | Some da => del_entry dst newName (t_drop da t)
             | None => t
             end in
    put_entry (MkEntry dst newName (e_Ino se) (e_Mode se)) t.

(** The renamed node. *)
Definition renamed (dst : N) (newName : string) (st : rename_state) : Attr :=
  on_pb bump_epoch (MkAttr (pb (r_sa st)) dst newName).

Definition t_rename_save (src dst : N) (newName : string) (st : rename_state) (t : tree) : tree :=
  let t := if negb (dst =? src)%N && r_supdate st
           then put_attr (on_pb bump_epoch (r_spa st)) t else t in
  let t := put_attr (renamed dst newName st) t in
  if r_dupdate st then put_attr (r_dpa st) t else t.

(** The entry, and the state of the shared variables when writing starts. *)
Definition t_rename_plan (ctx : FuseContext) (src dst : N) (oldName newName : string) (flags : N)
    (now : Time) (t : tree) : outcome error (Entry * rename_state) :=
  l <~ t_rename_load ctx src dst oldName t ;;
  let '(se, spa, dpa, sa) := l in
  st <~ t_rename_dst ctx src dst flags now (entries t !! (dst, newName)) spa dpa sa t ;;
  _ <~ t_sticky ctx st ;;
  Ok (se, rename_touch src dst now st).

Definition t_rename (ctx : FuseContext) (src dst : N) (oldName newName : string) (flags : N)
    (now : Time) (t : tree) : result (PbEntry * PbEntry * N) :=
  match rename_flags flags with
  | Some e => (Err (Errno e), t)
  | None =>
      match t_rename_plan ctx src dst oldName newName flags now t with
      | Ok (se, st) =>
          (Ok (ToPbEntry (r_sa st), ToPbEntry (renamed dst newName st),
               match r_da st with Some da => Inode da | None => 0%N end),
           t_rename_save src dst newName st
             (t_rename_entries src dst flags oldName newName se st t))
      | Err e => (Err e, t)
      | Panic => (Panic, t)
      end
  end.

(** * Lemmas *)

Lemma new_kind_Inode a : Inode (new_kind a) = Inode a.
Proof. unfold new_kind. by repeat case_match. Qed.
Lemma new_kind_Mode a : Mode (new_kind a) = Mode a.
Proof. unfold new_kind. by repeat case_match. Qed.

Lemma created_Inode parent name req now ino : Inode (created parent name req now ino) = ino.
Proof. unfold created. simpl. by rewrite new_kind_Inode. Qed.
Lemma created_Mode parent name req now ino :
  Mode (created parent name req now ino) = default 0%N (m_Mode req).
Proof. unfold created. simpl. by rewrite new_kind_Mode. Qed.

Lemma ocheck_Ok {A} b e (o : outcome error A) a : ocheck b e o = Ok a -> b = false /\ o = Ok a.
Proof. unfold ocheck. by destruct b. Qed.

