(* ===== verification/TreeInv.v ===== *)
(** The invariant of directory trees: every entry leads to a node of its own
    kind and lives in a directory, the link count of a file is the number of its
    names, that of a directory is 2 plus its subdirectories, and a directory
    other than the root has exactly one name.  The operations of the inode
    service preserve it. *)
From stdpp Require Import prelude gmap strings list fin_maps.
From S2P Require Import Prelude Store FileMode Attr NodeService Tree.

Abbreviation entry_map := (gmap (N * string) Entry).

(** * Counting entries *)

Definition count (P : (N * string) * Entry -> Prop) `{!forall x, Decision (P x)} (es : entry_map) : N :=
  N.of_nat (base.size (filter P es)).

(** The names of a node, and the subdirectories of a directory. *)
Definition refs (es : entry_map) (i : N) : N := count (fun x => e_Ino x.2 = i) es.
Definition subdirs (es : entry_map) (p : N) : N :=
  count (fun x => x.1.1 = p /\ e_IsDir x.2 = true) es.

(** * The invariant *)

(** What the invariant sees of a node: whether it is a directory, and its link
    count. *)
Definition shape (t : tree) : gmap N (bool * N) := (fun a : Attr => (IsDir a, Nlink a)) <$> attrs t.

Record inv (sh : gmap N (bool * N)) (es : entry_map) (nx : N) : Prop := {
  inv_root : exists k, sh !! 1%N = Some (true, k);
  inv_ino i x : sh !! i = Some x -> (0 < i <= nx)%N;
  inv_entry p n e : es !! (p, n) = Some e ->
    (exists k, sh !! p = Some (true, k)) /\ (exists k, sh !! e_Ino e = Some (e_IsDir e, k));
  inv_file i k : sh !! i = Some (false, k) -> k = refs es i;
  inv_dir i k : sh !! i = Some (true, k) ->
    k = (2 + subdirs es i)%N /\ refs es i = (if decide (i = 1) then 0 else 1)%N;
  inv_width i d k : sh !! i = Some (d, k) -> (k < 2 ^ 32)%N;
}.

Definition tree_inv (t : tree) : Prop :=
  inv (shape t) (entries t) (next t) /\
  (forall i (a : Attr), attrs t !! i = Some a -> Inode a = i).

(** * Lemmas *)

(** ** Counts *)

Section count.
Context (P : (N * string) * Entry -> Prop) `{!forall x, Decision (P x)}.

Lemma count_insert es k e :
  es !! k = None -> count P (<[k := e]> es) = ((if decide (P (k, e)) then 1 else 0) + count P es)%N.
Proof.
  intros Hk. unfold count. case_decide as HP.
  - rewrite map_filter_insert_True by done.
    rewrite map_size_insert_None; [lia|]. apply map_lookup_filter_None. by left.
  - rewrite map_filter_insert_False by done. by rewrite delete_id.
Qed.

Lemma count_delete es k e :
  es !! k = Some e -> count P es = ((if decide (P (k, e)) then 1 else 0) + count P (delete k es))%N.
Proof.
  intros Hk. rewrite <- (insert_delete_id es k e Hk) at 1.
  apply count_insert, lookup_delete_eq.
Qed.

Lemma count_zero es : count P es = 0%N <-> forall k e, es !! k = Some e -> ~ P (k, e).
Proof.
  unfold count. split.
  - intros Hz k e Hk HP. assert (base.size (filter P es) = 0%nat) as H0 by lia.
    apply map_size_empty_inv in H0. apply (f_equal (lookup k)) in H0.
    rewrite lookup_empty in H0. apply map_lookup_filter_None in H0 as [?|H0]; [congruence|]. by eapply H0.
  - intros Hz. enough (filter P es = ∅) as -> by done.
    apply map_empty. intros k. apply map_lookup_filter_None. right. eauto.
Qed.
End count.

Lemma refs_insert es k e i :
  es !! k = None -> refs (<[k := e]> es) i = ((if decide (e_Ino e = i) then 1 else 0) + refs es i)%N.
Proof. intros Hk. unfold refs. rewrite count_insert by done. by repeat case_decide. Qed.
Lemma refs_delete es k e i :
  es !! k = Some e -> refs es i = ((if decide (e_Ino e = i) then 1 else 0) + refs (delete k es) i)%N.
Proof. intros Hk. unfold refs. rewrite (count_delete _ _ _ _ Hk). by repeat case_decide. Qed.
Lemma subdirs_insert es k e p :
  es !! k = None ->
  subdirs (<[k := e]> es) p =
  ((if decide (k.1 = p /\ e_IsDir e = true) then 1 else 0) + subdirs es p)%N.
Proof. intros Hk. unfold subdirs. rewrite count_insert by done. by repeat case_decide. Qed.
Lemma subdirs_delete es k e p :
  es !! k = Some e ->
  subdirs es p =
  ((if decide (k.1 = p /\ e_IsDir e = true) then 1 else 0) + subdirs (delete k es) p)%N.
Proof. intros Hk. unfold subdirs. rewrite (count_delete _ _ _ _ Hk). by repeat case_decide. Qed.

(** Numbers above the counter are neither nodes nor named. *)
Lemma inv_fresh sh es nx i : inv sh es nx -> (nx < i)%N -> sh !! i = None.
Proof.
  intros Hinv Hi. destruct (sh !! i) eqn:E; [|done]. apply (inv_ino _ _ _ Hinv) in E. lia.
Qed.
Lemma inv_refs_fresh sh es nx i : inv sh es nx -> (nx < i)%N -> refs es i = 0%N.
Proof.
  intros Hinv Hi. apply count_zero. intros [p n] e He <-.
  apply (inv_entry _ _ _ Hinv) in He as [_ [k Hk]]. apply (inv_ino _ _ _ Hinv) in Hk. simpl in *. lia.
Qed.
Lemma inv_subdirs_fresh sh es nx i : inv sh es nx -> (nx < i)%N -> subdirs es i = 0%N.
Proof.
  intros Hinv Hi. apply count_zero. intros [p n] e He [<- _].
  apply (inv_entry _ _ _ Hinv) in He as [[k Hk] _]. apply (inv_ino _ _ _ Hinv) in Hk. simpl in *. lia.
Qed.

(** ** Shapes *)

(** The nodes of [sh] are nodes of [sh'], of the same kind. *)
Definition kept (sh sh' : gmap N (bool * N)) : Prop :=
  forall i d k, sh !! i = Some (d, k) -> exists k', sh' !! i = Some (d, k').

Lemma kept_insert sh i d k k' : sh !! i = Some (d, k) -> kept sh (<[i := (d, k')]> sh).
Proof.
  intros Hi j d' l Hj. destruct (decide (i = j)) as [->|]; [|rewrite lookup_insert_ne by done; eauto].
  rewrite lookup_insert_eq. simplify_eq. eauto.
Qed.
Lemma kept_fresh sh i x : sh !! i = None -> kept sh (<[i := x]> sh).
Proof. intros Hi j d' l Hj. exists l. rewrite lookup_insert_ne; congruence. Qed.
Lemma kept_trans sh1 sh2 sh3 : kept sh1 sh2 -> kept sh2 sh3 -> kept sh1 sh3.
Proof. intros H12 H23 i d k (k' & H)%H12. eauto. Qed.

Lemma kept_entry sh sh' es nx p n e :
  inv sh es nx -> kept sh sh' -> es !! (p, n) = Some e ->
  (exists k, sh' !! p = Some (true, k)) /\ (exists k, sh' !! e_Ino e = Some (e_IsDir e, k)).
Proof. intros Hinv Hk [[k1 H1] [k2 H2]]%(inv_entry _ _ _ Hinv). split; eauto. Qed.
Lemma kept_root sh sh' es nx : inv sh es nx -> kept sh sh' -> exists k, sh' !! 1%N = Some (true, k).
Proof. intros Hinv Hk. destruct (inv_root _ _ _ Hinv) as [k H]. eauto. Qed.

(** Case analysis on the lookups of updated maps. *)
Ltac inv_cases :=
  repeat match goal with
  | H : <[_ := _]> _ !! _ = Some _ |- _ => apply lookup_insert_Some in H as [[??]|[??]]
  | H : delete _ _ !! _ = Some _ |- _ => apply lookup_delete_Some in H as [??]
  end; simplify_eq/=.

(** The facts about the nodes a goal speaks of, then arithmetic on the counts. *)
Ltac solve_counts Hinv :=
  repeat match goal with
  | H : ?sh !! ?i = Some (true, ?k) |- _ =>
      destruct (inv_dir _ _ _ Hinv _ _ H); pose proof (inv_ino _ _ _ Hinv _ _ H); clear H
  | H : ?sh !! ?i = Some (false, ?k) |- _ =>
      pose proof (inv_file _ _ _ Hinv _ _ H); pose proof (inv_ino _ _ _ Hinv _ _ H); clear H
  end;
  repeat case_decide; destruct_and?; simplify_eq/=; try (split; lia); try lia; try naive_solver lia.

(** A new node with its first name. *)
Lemma inv_create sh es nx p n e d k :
  inv sh es nx -> sh !! p = Some (true, k) -> es !! (p, n) = None ->
  e_Ino e = (nx + 1)%N -> e_IsDir e = d -> (k + 1 < 2 ^ 32)%N ->
  inv (<[(nx + 1)%N := (d, if d then 2 else 1)%N]>
        (<[p := (true, if d then k + 1 else k)%N]> sh)) (<[(p, n) := e]> es) (nx + 1)%N.
Proof.
  intros Hinv Hp Hn Hi Hd Hw.
  pose proof (inv_ino _ _ _ Hinv _ _ Hp) as Hpi.
  pose proof (inv_refs_fresh _ _ _ (nx + 1) Hinv ltac:(lia)) as Hr0.
  pose proof (inv_subdirs_fresh _ _ _ (nx + 1) Hinv ltac:(lia)) as Hs0.
  pose proof (inv_fresh _ _ _ (nx + 1) Hinv ltac:(lia)) as Hf.
  set (sh' := <[_ := _]> (<[p := _]> sh)).
  assert (kept sh sh') as Hkept.
  { eapply kept_trans; [by eapply kept_insert|]. apply kept_fresh. rewrite lookup_insert_ne by lia. done. }
  split.
  - by eapply kept_root.
  - intros i x H. unfold sh' in H. inv_cases; try lia.
    match goal with H : sh !! _ = Some _ |- _ => apply (inv_ino _ _ _ Hinv) in H end. lia.
  - intros p' n' e' H. apply lookup_insert_Some in H as [[[= <- <-] <-]|[_ H]]; [|by eapply kept_entry].
    rewrite Hi, Hd. split; [by eapply Hkept|]. eexists. apply lookup_insert_eq.
  - intros i k' H. rewrite refs_insert, Hi by done. unfold sh' in H.
    destruct d; inv_cases; case_decide; try lia; by apply (inv_file _ _ _ Hinv).
  - intros i k' H. rewrite refs_insert, subdirs_insert, Hi, Hd by done. simpl.
    destruct (inv_dir _ _ _ Hinv _ _ Hp) as [Hk Hr].
    destruct (inv_root _ _ _ Hinv) as [k1 [? ?]%(inv_ino _ _ _ Hinv)].
    unfold sh' in H. destruct d; inv_cases; solve_counts Hinv.
  - intros i d' k' H. unfold sh' in H. destruct d; inv_cases; try lia; by eapply (inv_width _ _ _ Hinv).
Qed.

(** Another name for a file. *)
Lemma inv_link sh es nx p n e i l :
  inv sh es nx -> (exists k, sh !! p = Some (true, k)) -> es !! (p, n) = None ->
  sh !! i = Some (false, l) -> e_Ino e = i -> e_IsDir e = false -> (l + 1 < 2 ^ 32)%N ->
  inv (<[i := (false, l + 1)%N]> sh) (<[(p, n) := e]> es) nx.
Proof.
  intros Hinv Hp Hn Hi He Hd Hw. pose proof (kept_insert sh i false l (l + 1)%N Hi) as Hkept. split.
  - by eapply kept_root.
  - intros j x H. inv_cases; by eapply (inv_ino _ _ _ Hinv).
  - intros p' n' e' H. apply lookup_insert_Some in H as [[[= <- <-] <-]|[_ H]]; [|by eapply kept_entry].
    split; [destruct Hp; by eapply Hkept|]. rewrite He, Hd. eexists. apply lookup_insert_eq.
  - intros j k' H. rewrite refs_insert, He by done. inv_cases; solve_counts Hinv.
  - intros j k' H. rewrite refs_insert, subdirs_insert, He, Hd by done.
    inv_cases; solve_counts Hinv.
  - intros j d k' H. inv_cases; [lia|]. by eapply (inv_width _ _ _ Hinv).
Qed.

Lemma refs_pos es k e : es !! k = Some e -> (1 <= refs es (e_Ino e))%N.
Proof. intros Hk. rewrite (refs_delete _ _ _ _ Hk). rewrite decide_True by done. lia. Qed.

(** A file loses a name: its node goes with the last one. *)
Lemma inv_unlink sh es nx p n e l :
  inv sh es nx -> es !! (p, n) = Some e -> e_IsDir e = false -> sh !! e_Ino e = Some (false, l) ->
  inv (if (1 <? l)%N then <[e_Ino e := (false, l - 1)%N]> sh else delete (e_Ino e) sh)
      (delete (p, n) es) nx.
Proof.
  intros Hinv He Hd Hi.
  pose proof (inv_file _ _ _ Hinv _ _ Hi) as Hl. pose proof (refs_pos _ _ _ He) as Hpos.
  assert (forall j x, (if (1 <? l)%N then <[e_Ino e := (false, l - 1)%N]> sh else delete (e_Ino e) sh)
     !! j = Some x -> (j = e_Ino e /\ x = (false, l - 1)%N /\ (1 < l)%N) \/
                      (j <> e_Ino e /\ sh !! j = Some x)) as Hlook.
  { intros j x. destruct (N.ltb_spec 1 l); intros H'; inv_cases; auto. }
  assert (forall j d k, sh !! j = Some (d, k) -> (j = e_Ino e -> 1 < l)%N ->
    exists k', (if (1 <? l)%N then <[e_Ino e := (false, l - 1)%N]> sh else delete (e_Ino e) sh)
     !! j = Some (d, k')) as Hkept.
  { intros j d k Hj Hj'. destruct (decide (j = e_Ino e)) as [->|Hne].
    - rewrite (proj2 (N.ltb_lt _ _) (Hj' eq_refl)), lookup_insert_eq. simplify_eq. eauto.
    - destruct (1 <? l)%N; rewrite ?lookup_insert_ne, ?lookup_delete_ne by done; eauto. }
  set (sh' := if (1 <? l)%N then _ else _) in *. split.
  - destruct (inv_root _ _ _ Hinv) as [k H]. eapply Hkept; [done|]. intros Heq. congruence.
  - intros j x [(-> & -> & _)|[_ H]]%Hlook; by eapply (inv_ino _ _ _ Hinv).
  - intros p' n' e' [Hne H]%lookup_delete_Some.
    destruct (inv_entry _ _ _ Hinv _ _ _ H) as [[k1 H1] [k2 H2]]. split.
    + eapply Hkept; [done|]. intros Heq. congruence.
    + eapply Hkept; [done|]. intros Heq. rewrite (refs_delete _ _ _ _ He), decide_True in Hl by done.
      pose proof (refs_pos (delete (p, n) es) (p', n') e') as Hp2.
      rewrite lookup_delete_ne, Heq in Hp2 by done. specialize (Hp2 H). lia.
  - intros j k' H%Hlook. pose proof (refs_delete _ _ _ j He) as Hr.
    destruct H as [(-> & [= ->] & ?)|[? H]]; solve_counts Hinv.
  - intros j k' H%Hlook. pose proof (refs_delete _ _ _ j He) as Hr.
    pose proof (subdirs_delete _ _ _ j He) as Hsd. rewrite Hd in Hsd.
    destruct H as [(-> & [=] & ?)|[? H]]; solve_counts Hinv.
  - pose proof (inv_width _ _ _ Hinv _ _ _ Hi) as Hw.
    intros j d k' [(-> & [= -> ->] & ?)|[? H]]%Hlook; [lia|]. by eapply (inv_width _ _ _ Hinv).
Qed.

(** A name moves to a free place: a directory takes its ".." along. *)
Definition one_if (b : bool) : N := if b then 1%N else 0%N.

Lemma inv_move sh sh' es nx src old dst new e e' :
  inv sh es nx -> es !! (src, old) = Some e -> es !! (dst, new) = None ->
  (exists k, sh !! dst = Some (true, k)) ->
  e_Ino e' = e_Ino e -> e_IsDir e' = e_IsDir e -> kept sh sh' ->
  (forall i d k, sh' !! i = Some (d, k) -> (k < 2 ^ 32)%N /\
     exists k0, sh !! i = Some (d, k0) /\
       (k + one_if (d && e_IsDir e && bool_decide (src = i)) =
        k0 + one_if (d && e_IsDir e && bool_decide (dst = i)))%N) ->
  inv sh' (<[(dst, new) := e']> (delete (src, old) es)) nx.
Proof.
  intros Hinv He Hn Hdst Hi Hd Hkept Hback.
  assert (delete (src, old) es !! (dst, new) = None) as Hn' by by rewrite lookup_delete_None; auto.
  split.
  - by eapply kept_root.
  - intros i [d k] H. apply Hback in H as (_ & k0 & H & _). by eapply (inv_ino _ _ _ Hinv).
  - intros p n e0 H. apply lookup_insert_Some in H as [[[= <- <-] <-]|[_ H]].
    + rewrite Hi, Hd. destruct (inv_entry _ _ _ Hinv _ _ _ He) as [_ [k Hk]].
      split; [destruct Hdst|]; by eapply Hkept.
    + apply lookup_delete_Some in H as [_ H]. by eapply kept_entry.
  - intros i k H. apply Hback in H as (_ & k0 & H & Hk). simpl in Hk.
    rewrite refs_insert, Hi by done. pose proof (refs_delete _ _ _ i He) as Hr.
    pose proof (inv_file _ _ _ Hinv _ _ H). lia.
  - intros i k H. apply Hback in H as (_ & k0 & H & Hk). simpl in Hk.
    rewrite refs_insert, subdirs_insert, Hi, Hd by done.
    pose proof (refs_delete _ _ _ i He) as Hr. pose proof (subdirs_delete _ _ _ i He) as Hs.
    destruct (inv_dir _ _ _ Hinv _ _ H) as [Hk0 Hr0]. simpl in *. split; [|lia].
    revert Hk Hs. destruct (e_IsDir e); simpl; repeat case_decide; repeat case_bool_decide;
      destruct_and?; simpl; try lia; naive_solver lia.
  - intros i d k H. by apply Hback in H as [? _].
Qed.

(** ** Trees *)

Lemma shape_put_attr a t : shape (put_attr a t) = <[Inode a := (IsDir a, Nlink a)]> (shape t).
Proof. unfold shape, put_attr. simpl. by rewrite fmap_insert. Qed.
Lemma shape_del_attr i t : shape (del_attr i t) = delete i (shape t).
Proof. unfold shape, del_attr. simpl. by rewrite fmap_delete. Qed.
Lemma lookup_shape t i a : attrs t !! i = Some a -> shape t !! i = Some (IsDir a, Nlink a).
Proof. intros H. unfold shape. by rewrite lookup_fmap, H. Qed.
Lemma shape_lookup t i d k :
  shape t !! i = Some (d, k) -> exists a, attrs t !! i = Some a /\ IsDir a = d /\ Nlink a = k.
Proof.
  unfold shape. rewrite lookup_fmap. destruct (attrs t !! i) as [a|]; simpl; [|done].
  intros [= <- <-]. eauto.
Qed.

(** Rewriting a node with the same kind and link count changes no shape. *)
Lemma shape_put_same (a a' : Attr) t :
  attrs t !! Inode a' = Some a -> IsDir a' = IsDir a -> Nlink a' = Nlink a ->
  shape (put_attr a' t) = shape t.
Proof.
  intros H Hd Hn. rewrite shape_put_attr, Hd, Hn. apply insert_id. by apply lookup_shape.
Qed.

Definition inodes_ok (t : tree) : Prop := forall i (a : Attr), attrs t !! i = Some a -> Inode a = i.
Lemma inodes_put a t : inodes_ok t -> inodes_ok (put_attr a t).
Proof. intros Ht i a' H. simpl in H. inv_cases; auto. Qed.
Lemma inodes_del i t : inodes_ok t -> inodes_ok (del_attr i t).
Proof. intros Ht j a' H. simpl in H. inv_cases; auto. Qed.

Lemma not_taken p n t : tree_inv t -> t_taken p n t = false -> entries t !! (p, n) = None.
Proof.
  intros [Hinv _]. unfold t_taken. destruct (entries t !! (p, n)) as [e|] eqn:E; [|done].
  apply (inv_entry _ _ _ Hinv) in E as [_ [k Hk]]. apply (inv_ino _ _ _ Hinv) in Hk.
  intros H. apply negb_false_iff, N.eqb_eq in H. lia.
Qed.

Lemma created_IsDir parent name req now ino :
  IsDir (created parent name req now ino) = FileMode_IsDir (default 0%N (m_Mode req)).
Proof. unfold IsDir. by rewrite created_Mode. Qed.
Lemma created_Nlink parent name req now ino :
  Nlink (created parent name req now ino) =
  if FileMode_IsDir (default 0%N (m_Mode req)) then 2%N else 1%N.
Proof.
  unfold created, new_kind, IsDir, IsSymlink. simpl.
  destruct (FileMode_IsDir _); simpl; [done|]. by destruct (has_bits _ _).
Qed.

Lemma incr32_small k : (k + 1 < 2 ^ 32)%N -> incr32 k = (k + 1)%N.
Proof. intros H. unfold incr32, wrap32. by apply N.mod_small. Qed.
Lemma decr32_pos k : (0 < k < 2 ^ 32)%N -> decr32 k = (k - 1)%N.
Proof.
  intros H. unfold decr32, wrap32.
  replace (k + (2 ^ 32 - 1))%N with ((k - 1) + 1 * 2 ^ 32)%N by lia.
  rewrite N.Div0.mod_add. apply N.mod_small. lia.
Qed.
Lemma wrap64_small k : (k < 2 ^ 64)%N -> wrap64 k = k.
Proof. apply N.mod_small. Qed.

Lemma created_parent_Inode req now pa : Inode (created_parent req now pa) = Inode pa.
Proof. unfold created_parent. by destruct (FileMode_IsDir _). Qed.
Lemma created_parent_IsDir req now pa : IsDir (created_parent req now pa) = IsDir pa.
Proof. unfold created_parent. by destruct (FileMode_IsDir _). Qed.
Lemma created_parent_Nlink req now (pa : Attr) :
  (Nlink pa + 1 < 2 ^ 32)%N ->
  Nlink (created_parent req now pa) =
  if FileMode_IsDir (default 0%N (m_Mode req)) then (Nlink pa + 1)%N else Nlink pa.
Proof.
  intros Hw. unfold created_parent. destruct (FileMode_IsDir _); [|done].
  simpl. by apply incr32_small.
Qed.

Lemma t_create_inv parent name req now t :
  tree_inv t -> (next t + 1 < 2 ^ 64)%N ->
  (forall pa : Attr, attrs t !! parent = Some pa -> Nlink pa + 1 < 2 ^ 32)%N ->
  tree_inv (t_create parent name req now t).2.
Proof.
  intros Ht Hnx Hw. unfold t_create. destruct (attrs t !! parent) as [pa|] eqn:Ep; [|done].
  destruct (IsDir pa) eqn:Hd; [|done]. simpl negb. cbv match.
  destruct (has_bits (Flags pa) FlagImmutable); [done|].
  destruct (t_taken parent name t) eqn:Etk; [done|]. apply (not_taken _ _ _ Ht) in Etk.
  destruct Ht as [Hinv Hi]. unfold take_ino. cbn [fst snd]. rewrite wrap64_small by done.
  split; [|by apply inodes_put, inodes_put].
  rewrite !shape_put_attr, created_Inode, created_IsDir, created_Nlink.
  rewrite created_parent_Inode, created_parent_IsDir, created_parent_Nlink by auto.
  rewrite (Hi _ _ Ep), Hd. pose proof (lookup_shape _ _ _ Ep) as Hsp. rewrite Hd in Hsp.
  apply (inv_create (shape t)); auto. unfold e_IsDir. cbn [e_Mode]. by rewrite created_Mode.
Qed.

Lemma t_link_inv ino parent name now t :
  tree_inv t ->
  (forall a : Attr, attrs t !! ino = Some a -> Nlink a + 1 < 2 ^ 32)%N ->
  tree_inv (t_link ino parent name now t).2.
Proof.
  intros Ht Hw. unfold t_link. destruct (attrs t !! parent) as [pa|] eqn:Ep; [|done].
  destruct (IsDir pa) eqn:Hd; [|done]. simpl negb. cbv match.
  destruct (has_bits (Flags pa) FlagImmutable); [done|].
  destruct (attrs t !! ino) as [a|] eqn:Ea; [|done]. destruct (IsDir a) eqn:Hda; [done|].
  destruct (t_taken parent name t) eqn:Etk; [done|]. apply (not_taken _ _ _ Ht) in Etk.
  destruct Ht as [Hinv Hi]. cbv zeta. cbn [fst snd]. split; [|by apply inodes_put, inodes_put].
  simpl. change (inv (shape (put_attr (on_pb (touch_c now) (nlink_up a))
    (put_attr (on_pb (touch_mc now) pa) t)))
    (<[(parent, name) := MkEntry parent name ino (Mode a)]> (entries t)) (next t)).
  rewrite shape_put_attr, (shape_put_same pa); [|by simpl; rewrite (Hi _ _ Ep)|done..]. simpl.
  rewrite (Hi _ _ Ea), incr32_small by auto.
  change (IsDir (on_pb (touch_c now) (nlink_up a))) with (IsDir a). rewrite Hda.
  apply inv_link; auto.
  - eexists. rewrite (lookup_shape _ _ _ Ep), Hd. done.
  - by rewrite (lookup_shape _ _ _ Ea), Hda.
Qed.

Lemma t_unlink_inv parent name now now' t :
  tree_inv t -> tree_inv (t_unlink parent name now now' t).2.
Proof.
  intros Ht. unfold t_unlink. destruct (entries t !! (parent, name)) as [e|] eqn:Ee; [|done].
  destruct (e_IsDir e) eqn:Hd; [done|].
  destruct (attrs t !! parent) as [pa|] eqn:Ep; [|done].
  destruct (attrs t !! e_Ino e) as [a|] eqn:Ea; [|done]. cbv zeta. cbn [fst snd].
  destruct Ht as [Hinv Hi]. pose proof (lookup_shape _ _ _ Ea) as Hsa.
  destruct (inv_entry _ _ _ Hinv _ _ _ Ee) as [[kp Hp] [ka Ha]].
  assert (IsDir a = false) as Hda by congruence. rewrite Hda in Hsa.
  assert (e_Ino e <> parent) as Hne by (intros Heq; rewrite Heq in *; congruence).
  pose proof (inv_unlink _ _ _ _ _ _ _ Hinv Ee Hd Hsa) as Hinv'.
  pose proof (inv_width _ _ _ Hinv _ _ _ Hsa) as Hw.
  destruct (N.ltb_spec 1 (Nlink a)) as [Hl|Hl].
  - split; [|by apply inodes_put, inodes_put]. rewrite (shape_put_same pa).
    + rewrite shape_put_attr. simpl. rewrite (Hi _ _ Ea), decr32_pos by lia.
      change (IsDir (on_pb (touch_c now') (nlink_down a))) with (IsDir a). by rewrite Hda.
    + simpl. rewrite (Hi _ _ Ea), (Hi _ _ Ep). by rewrite lookup_insert_ne.
    + done.
    + done.
  - split; [|by apply inodes_put, inodes_del]. rewrite (shape_put_same pa).
    + by rewrite shape_del_attr.
    + simpl. rewrite (Hi _ _ Ep). by rewrite lookup_delete_ne.
    + done.
    + done.
Qed.

(** ** Changing attributes *)

(** A request that keeps a node's kind: it does not change the directory bit,
    and neither the mode nor the request holds the bits the code masks. *)
Definition keeps_kind (d : Attr) (req : option ModifyAttr) : Prop :=
  has_bits (Mode d) 3072 = false /\
  forall m v, req = Some m -> m_Mode m = Some v ->
    FileMode_IsDir v = IsDir d /\ has_bits v 1024 = false.

(** What no step of [UpdateInodeAttr] changes. *)
Definition same_node (d0 : Attr) (d : Attr) : Prop :=
  Inode d = Inode d0 /\ Nlink d = Nlink d0 /\ ParentIno d = ParentIno d0 /\ Name d = Name d0 /\
  LinkTarget d = LinkTarget d0 /\ Rdev d = Rdev d0.

Lemma clearSUGID_node ctx d req p d0 :
  clearSUGID ctx d req = Ok p -> same_node d0 d -> same_node d0 p.1.
Proof.
  unfold clearSUGID. destruct (IsDir d); [by intros [= <-]|].
  intros (r & _ & (m & _ & [= <-])%obind_Ok)%obind_Ok. by destruct d as [[]].
Qed.

(** Case analysis on what a step of [UpdateInodeAttr] does. *)
Ltac upd_cases :=
  repeat match goal with
  | H : obind _ _ = Ok _ |- _ => apply obind_Ok in H as (? & ? & ?)
  | H : (if ?b then _ else _) = Ok _ |- _ => destruct b eqn:?
  | H : Err _ = Ok _ |- _ => discriminate H
  | H : Ok _ = Ok _ |- _ => injection H as H
  | H : (_, _) = (_, _) |- _ => injection H as H
  | H : (_, _, _) = (_, _, _) |- _ => injection H as H
  end; subst.

Section steps.
Context (ctx : FuseContext) (set : N) (now : Time) (d0 : Attr).

Lemma upd_sugid_node d req b d' req' b' :
  upd_sugid ctx set (d, req, b) = Ok (d', req', b') -> same_node d0 d -> same_node d0 d'.
Proof.
  unfold upd_sugid. intros H Hn.
  assert (forall p, same_node d0 (on_pb (set_Mode p) d)) as Hn' by by intros p; destruct d as [[]].
  destruct (set_has set (N.lor SetAttrUID SetAttrGID) && set_has set SetAttrMode); upd_cases; auto;
    by eapply clearSUGID_node.
Qed.
Lemma upd_gid_node d req b d' req' b' :
  upd_gid ctx set (d, req, b) = Ok (d', req', b') -> same_node d0 d -> same_node d0 d'.
Proof. unfold upd_gid. intros H Hn. upd_cases; done. Qed.
Lemma upd_uid_node d req b d' req' b' :
  upd_uid ctx set (d, req, b) = Ok (d', req', b') -> same_node d0 d -> same_node d0 d'.
Proof. unfold upd_uid. intros H Hn. upd_cases; done. Qed.
Lemma upd_mode_node d req b d' req' b' :
  upd_mode ctx set (d, req, b) = Ok (d', req', b') -> same_node d0 d -> same_node d0 d'.
Proof. unfold upd_mode. intros H Hn. upd_cases; done. Qed.
Lemma upd_atime_node d req b d' req' b' :
  upd_atime ctx set now (d, req, b) = Ok (d', req', b') -> same_node d0 d -> same_node d0 d'.
Proof. unfold upd_atime. intros H Hn. upd_cases; done. Qed.
Lemma upd_mtime_node d req b d' req' b' :
  upd_mtime ctx set now (d, req, b) = Ok (d', req', b') -> same_node d0 d -> same_node d0 d'.
Proof. unfold upd_mtime. intros H Hn. upd_cases; done. Qed.
Lemma upd_flags_node d req b d' req' b' :
  upd_flags set (d, req, b) = Ok (d', req', b') -> same_node d0 d -> same_node d0 d'.
Proof. unfold upd_flags. intros H Hn. upd_cases; done. Qed.
Lemma upd_size_node d req b d' req' b' :
  upd_size set now (d, req, b) = Ok (d', req', b') -> same_node d0 d -> same_node d0 d'.
Proof. unfold upd_size. intros H Hn. upd_cases; done. Qed.
End steps.

(** The steps of [updated_attr], each with its result. *)
Lemma updated_attr_steps ctx set req now d d' :
  updated_attr ctx set req now d = Ok d' ->
  exists d1 r1 b1 d2 r2 b2 d3 r3 b3 d4 r4 b4 d5 r5 b5 d6 r6 b6 d7 r7 b7 d8 r8 b8,
    upd_sugid ctx set (d, req, false) = Ok (d1, r1, b1) /\
    upd_gid ctx set (d1, r1, b1) = Ok (d2, r2, b2) /\
    upd_uid ctx set (d2, r2, b2) = Ok (d3, r3, b3) /\
    upd_mode ctx set (d3, r3, b3) = Ok (d4, r4, b4) /\
    upd_atime ctx set now (d4, r4, b4) = Ok (d5, r5, b5) /\
    upd_mtime ctx set now (d5, r5, b5) = Ok (d6, r6, b6) /\
    upd_flags set (d6, r6, b6) = Ok (d7, r7, b7) /\
    upd_size set now (d7, r7, b7) = Ok (d8, r8, b8) /\
    d' = if b8 : bool then on_pb bump_epoch (on_pb (touch_c now) d8) else on_pb (touch_c now) d8.
Proof.
  unfold updated_attr.
  intros ([[d1 r1] b1] & H1 & ([[d2 r2] b2] & H2 & ([[d3 r3] b3] & H3 & ([[d4 r4] b4] & H4 &
    ([[d5 r5] b5] & H5 & ([[d6 r6] b6] & H6 & ([[d7 r7] b7] & H7 & ([[d8 r8] b8] & H8 & [= <-])
    %obind_Ok)%obind_Ok)%obind_Ok)%obind_Ok)%obind_Ok)%obind_Ok)%obind_Ok)%obind_Ok.
  repeat eexists; eassumption || reflexivity.
Qed.

Lemma updated_attr_node ctx set req now d d' :
  updated_attr ctx set req now d = Ok d' -> same_node d d'.
Proof.
  intros (d1 & r1 & b1 & d2 & r2 & b2 & d3 & r3 & b3 & d4 & r4 & b4 & d5 & r5 & b5 & d6 & r6 & b6 &
    d7 & r7 & b7 & d8 & r8 & b8 & H1 & H2 & H3 & H4 & H5 & H6 & H7 & H8 & ->)%updated_attr_steps.
  apply (upd_sugid_node _ _ d) in H1; [|done]. apply (upd_gid_node _ _ d) in H2; [|done].
  apply (upd_uid_node _ _ d) in H3; [|done]. apply (upd_mode_node _ _ d) in H4; [|done].
  apply (upd_atime_node _ _ _ d) in H5; [|done]. apply (upd_mtime_node _ _ _ d) in H6; [|done].
  apply (upd_flags_node _ d) in H7; [|done]. apply (upd_size_node _ _ d) in H8; [|done].
  by destruct b8.
Qed.

(** The kind of a node through the steps. *)
Section kinds.
Context (ctx : FuseContext) (set : N) (now : Time).

Lemma upd_sugid_mode (d : Attr) req b (d' : Attr) req' b' :
  has_bits (Mode d) 3072 = false ->
  upd_sugid ctx set (d, req, b) = Ok (d', req', b') -> Mode d' = Mode d /\ req' = req.
Proof.
  intros Hm H. unfold upd_sugid in H.
  assert (N.land (Mode d) 3072 = 0%N) as Hz by by apply negb_false_iff, N.eqb_eq in Hm.
  destruct (set_has set (N.lor SetAttrUID SetAttrGID) && set_has set SetAttrMode).
  - cbn [Mode pb on_pb set_Mode] in H. rewrite Hz, N.lor_0_r, Hm in H. simpl in H. by upd_cases.
  - rewrite Hm in H. simpl in H. by upd_cases.
Qed.
Lemma upd_owner_mode (d : Attr) req b (d' : Attr) req' b' :
  upd_gid ctx set (d, req, b) = Ok (d', req', b') \/
  upd_uid ctx set (d, req, b) = Ok (d', req', b') -> Mode d' = Mode d /\ req' = req.
Proof. unfold upd_gid, upd_uid. intros [H|H]; upd_cases; done. Qed.
Lemma upd_mode_kind (d : Attr) req b (d' : Attr) req' b' :
  (forall m v, req = Some m -> m_Mode m = Some v ->
     FileMode_IsDir v = IsDir d /\ has_bits v 1024 = false) ->
  upd_mode ctx set (d, req, b) = Ok (d', req', b') -> IsDir d' = IsDir d.
Proof.
  intros Hr H. unfold upd_mode, req_field in H.
  destruct req as [r|]; [|by upd_cases]. simpl in H.
  destruct (m_Mode r) as [v|] eqn:Ev; [|by upd_cases]. simpl in H.
  destruct (Hr r v eq_refl Ev) as [Hd Hb]. rewrite Hb, andb_false_r in H. simpl in H.
  by upd_cases.
Qed.
Lemma upd_rest_mode (d : Attr) req b (d' : Attr) req' b' :
  upd_atime ctx set now (d, req, b) = Ok (d', req', b') \/
  upd_mtime ctx set now (d, req, b) = Ok (d', req', b') \/
  upd_flags set (d, req, b) = Ok (d', req', b') \/
  upd_size set now (d, req, b) = Ok (d', req', b') -> Mode d' = Mode d.
Proof. unfold upd_atime, upd_mtime, upd_flags, upd_size. intros [H|[H|[H|H]]]; upd_cases; done. Qed.

Lemma updated_attr_kind req d d' :
  keeps_kind d req -> updated_attr ctx set req now d = Ok d' -> IsDir d' = IsDir d.
Proof.
  intros [Hm Hr]
    (d1 & r1 & b1 & d2 & r2 & b2 & d3 & r3 & b3 & d4 & r4 & b4 & d5 & r5 & b5 & d6 & r6 & b6 &
    d7 & r7 & b7 & d8 & r8 & b8 & H1 & H2 & H3 & H4 & H5 & H6 & H7 & H8 & ->)%updated_attr_steps.
  apply upd_sugid_mode in H1 as [E1 ->]; [|done].
  destruct (upd_owner_mode _ _ _ _ _ _ (or_introl H2)) as [E2 ->].
  destruct (upd_owner_mode _ _ _ _ _ _ (or_intror H3)) as [E3 ->].
  assert (IsDir d3 = IsDir d) as E by (unfold IsDir; by rewrite E3, E2, E1).
  apply upd_mode_kind in H4; [|by rewrite E].
  pose proof (upd_rest_mode d4 r4 b4 d5 r5 b5 ltac:(auto)) as E5.
  pose proof (upd_rest_mode d5 r5 b5 d6 r6 b6 ltac:(auto)) as E6.
  pose proof (upd_rest_mode d6 r6 b6 d7 r7 b7 ltac:(auto)) as E7.
  pose proof (upd_rest_mode d7 r7 b7 d8 r8 b8 ltac:(auto)) as E8.
  rewrite <- E, <- H4. unfold IsDir. rewrite <- E5, <- E6, <- E7, <- E8. by destruct b8.
Qed.
End kinds.

Lemma t_update_inv ctx ino set req now t :
  tree_inv t -> (forall d : Attr, attrs t !! ino = Some d -> keeps_kind d req) ->
  tree_inv (t_update ctx ino set req now t).2.
Proof.
  intros [Hinv Hi] Hk. unfold t_update. destruct (attrs t !! ino) as [d|] eqn:Ed; [|done].
  destruct (updated_attr ctx set req now d) as [d'|e|] eqn:Eu; [|done..]. cbn [snd].
  destruct (updated_attr_node _ _ _ _ _ _ Eu) as (Hino & Hn & _).
  apply updated_attr_kind in Eu; [|by apply Hk].
  split; [|by apply inodes_put]. rewrite (shape_put_same d); [done| |done..].
  by rewrite Hino, (Hi _ _ Ed).
Qed.

(** ** Renaming to a free name *)

Lemma ofind_Ok {A} (o : option A) a : ofind o = Ok a -> o = Some a.
Proof. destruct o; simpl; congruence. Qed.

Lemma t_rename_load_Ok ctx src dst oldName t se spa dpa sa :
  t_rename_load ctx src dst oldName t = Ok (se, spa, dpa, sa) ->
  entries t !! (src, oldName) = Some se /\ attrs t !! src = Some spa /\
  attrs t !! dst = Some dpa /\ attrs t !! e_Ino se = Some sa /\
  IsDir spa = true /\ IsDir dpa = true.
Proof.
  unfold t_rename_load.
  intros (se' & Hse%ofind_Ok & (spa' & Hspa%ofind_Ok & (dpa' & Hdpa%ofind_Ok &
    (sa' & Hsa%ofind_Ok & [Hdir H]%ocheck_Ok)%obind_Ok)%obind_Ok)%obind_Ok)%obind_Ok.
  repeat first [apply obind_Ok in H as (? & _ & H) | apply ocheck_Ok in H as [_ H]].
  injection H as -> -> -> ->. apply orb_false_iff in Hdir as [?%negb_false_iff ?%negb_false_iff].
  done.
Qed.

Lemma t_rename_plan_free ctx src dst oldName newName flags now t se st :
  entries t !! (dst, newName) = None ->
  t_rename_plan ctx src dst oldName newName flags now t = Ok (se, st) ->
  exists spa dpa sa,
    t_rename_load ctx src dst oldName t = Ok (se, spa, dpa, sa) /\ flags <> RenameExchange /\
    st = rename_touch src dst now (MkRename spa dpa sa None false false).
Proof.
  intros Hfree. unfold t_rename_plan. rewrite Hfree.
  intros ([[[se' spa] dpa] sa] & Hl & (st' & [Hf [= <-]]%ocheck_Ok &
    (u & _ & [= <- <-])%obind_Ok)%obind_Ok)%obind_Ok.
  apply N.eqb_neq in Hf. eauto 10.
Qed.

Lemma insert_shape_id t i a : attrs t !! i = Some a -> <[i := (IsDir a, Nlink a)]> (shape t) = shape t.
Proof. intros H. by apply insert_id, lookup_shape. Qed.

(** What is saved of a node, as a shape. *)
Definition put_shape (a : Attr) (sh : gmap N (bool * N)) : gmap N (bool * N) :=
  <[Inode a := (IsDir a, Nlink a)]> sh.

Lemma shape_rename_save src dst newName st t :
  shape (t_rename_save src dst newName st t) =
  let sh := if negb (dst =? src)%N && r_supdate st then put_shape (r_spa st) (shape t) else shape t in
  let sh := put_shape (r_sa st) sh in
  if r_dupdate st then put_shape (r_dpa st) sh else sh.
Proof.
  unfold t_rename_save. destruct (negb (dst =? src)%N && r_supdate st), (r_dupdate st);
    cbv zeta; rewrite ?shape_put_attr; done.
Qed.

Definition moves (src dst : N) (sa : Attr) : bool := negb (src =? dst)%N && IsDir sa.

Lemma rename_touch_shape src dst now spa dpa sa da b1 b2 sh :
  let st := rename_touch src dst now (MkRename spa dpa sa da b1 b2) in
  put_shape (r_spa st) sh = put_shape (if moves src dst sa then nlink_down spa else spa) sh /\
  put_shape (r_dpa st) sh = put_shape (if moves src dst sa then nlink_up dpa else dpa) sh /\
  put_shape (r_sa st) sh = put_shape sa sh.
Proof.
  unfold rename_touch, moves. cbv zeta. cbn [r_spa r_dpa r_sa r_supdate r_dupdate].
  split_and!; [..|done]; (destruct (_ || _); done).
Qed.

Lemma rename_touch_moves src dst now spa dpa sa da b1 b2 :
  moves src dst sa = true ->
  let st := rename_touch src dst now (MkRename spa dpa sa da b1 b2) in
  r_supdate st = true /\ r_dupdate st = true.
Proof.
  unfold moves, rename_touch. cbn [r_spa r_dpa r_sa r_supdate r_dupdate]. intros ->.
  by rewrite !orb_true_r.
Qed.

Lemma put_shape_id t i a : inodes_ok t -> attrs t !! i = Some a -> put_shape a (shape t) = shape t.
Proof. intros Hi H. unfold put_shape. rewrite (Hi _ _ H). by apply insert_id, lookup_shape. Qed.

Lemma shape_rename_free src dst newName now t es spa dpa sa isa :
  inodes_ok t -> attrs t !! src = Some spa -> attrs t !! dst = Some dpa ->
  attrs t !! isa = Some sa -> isa <> src ->
  shape (t_rename_save src dst newName
    (rename_touch src dst now (MkRename spa dpa sa None false false)) (MkTree (attrs t) es (next t))) =
  if moves src dst sa then put_shape (nlink_up dpa) (put_shape (nlink_down spa) (shape t))
  else shape t.
Proof.
  intros Hi Hs Hd Ha Hne. rewrite shape_rename_save. cbv zeta.
  pose proof (rename_touch_moves src dst now spa dpa sa None false false) as Hm.
  pose proof (fun sh => rename_touch_shape src dst now spa dpa sa None false false sh) as Hsh.
  cbv zeta in Hm, Hsh. set (st := rename_touch _ _ _ _) in *.
  change (shape (MkTree (attrs t) es (next t))) with (shape t).
  rewrite (proj1 (Hsh _)), (proj1 (proj2 (Hsh _))), !(proj2 (proj2 (Hsh _))).
  destruct (moves src dst sa) eqn:Em.
  - destruct (Hm eq_refl) as [-> ->].
    assert (negb (dst =? src)%N = true) as ->.
    { unfold moves in Em. apply andb_true_iff in Em as [Em _]. by rewrite N.eqb_sym. }
    simpl. f_equal. unfold put_shape at 1. apply insert_id.
    unfold put_shape. rewrite lookup_insert_ne; [rewrite (Hi _ _ Ha); by apply lookup_shape|].
    simpl. rewrite (Hi _ _ Hs), (Hi _ _ Ha). done.
  - destruct (negb _ && r_supdate st), (r_dupdate st);
      rewrite ?(put_shape_id _ _ _ Hi Hs), ?(put_shape_id _ _ _ Hi Ha), ?(put_shape_id _ _ _ Hi Hd);
      done.
Qed.

Lemma inodes_rename_save src dst newName st t :
  inodes_ok t -> inodes_ok (t_rename_save src dst newName st t).
Proof.
  intros Hi. unfold t_rename_save.
  destruct (negb (dst =? src)%N && r_supdate st), (r_dupdate st); eauto using inodes_put.
Qed.

Lemma entries_rename_save src dst newName st t :
  entries (t_rename_save src dst newName st t) = entries t /\
  next (t_rename_save src dst newName st t) = next t.
Proof.
  unfold t_rename_save. by destruct (negb (dst =? src)%N && r_supdate st), (r_dupdate st).
Qed.

(** A subdirectory leaves one directory for another. *)
Lemma inv_move_dir sh es nx src old dst new e e' ks kd :
  inv sh es nx -> es !! (src, old) = Some e -> es !! (dst, new) = None -> src <> dst ->
  sh !! src = Some (true, ks) -> sh !! dst = Some (true, kd) ->
  e_Ino e' = e_Ino e -> e_IsDir e' = e_IsDir e -> e_IsDir e = true -> (kd + 1 < 2 ^ 32)%N ->
  inv (<[dst := (true, kd + 1)%N]> (<[src := (true, ks - 1)%N]> sh))
      (<[(dst, new) := e']> (delete (src, old) es)) nx.
Proof.
  intros Hinv He Hn Hne Hs Hd Hi Hk Hdir Hw.
  assert (0 < ks)%N by (destruct (inv_dir _ _ _ Hinv _ _ Hs); lia).
  eapply (inv_move sh); eauto.
  - eapply kept_trans; eapply kept_insert; [done|by rewrite lookup_insert_ne].
  - rewrite Hdir. intros i d k H'.
    inv_cases; rewrite ?andb_true_r; simpl;
      repeat case_bool_decide; simplify_eq; rewrite ?andb_false_r; simpl;
      try match goal with H : sh !! _ = Some (_, ?k) |- context [?k] =>
            pose proof (inv_width _ _ _ Hinv _ _ _ H) end;
      (split; [lia|]; eexists; split; [done|lia]).
Qed.

Lemma t_rename_free_inv ctx src dst oldName newName flags now t :
  tree_inv t -> entries t !! (dst, newName) = None ->
  (forall se, entries t !! (src, oldName) = Some se -> e_Ino se <> src) ->
  (forall dpa : Attr, attrs t !! dst = Some dpa -> Nlink dpa + 1 < 2 ^ 32)%N ->
  tree_inv (t_rename ctx src dst oldName newName flags now t).2.
Proof.
  intros [Hinv Hi] Hfree Hself Hw. unfold t_rename. destruct (rename_flags flags); [done|].
  destruct (t_rename_plan _ _ _ _ _ _ _ _) as [[se st]|e|] eqn:Ep; [|done..]. cbn [snd].
  apply t_rename_plan_free in Ep as (spa & dpa & sa & Hl & Hf & ->); [|done].
  apply t_rename_load_Ok in Hl as (Hse & Hs & Hd & Ha & Hsd & Hdd).
  unfold t_rename_entries. rewrite (proj2 (N.eqb_neq _ _) Hf). cbn [r_da rename_touch].
  split; [|by apply inodes_rename_save].
  pose proof (inv_entry _ _ _ Hinv _ _ _ Hse) as [_ [ka Hka]].
  rewrite (lookup_shape _ _ _ Ha) in Hka. injection Hka as Hkind _.
  pose proof (lookup_shape _ _ _ Hs) as Hss. pose proof (lookup_shape _ _ _ Hd) as Hsh.
  rewrite Hsd in Hss. rewrite Hdd in Hsh.
  rewrite (proj1 (entries_rename_save _ _ _ _ _)), (proj2 (entries_rename_save _ _ _ _ _)).
  unfold put_entry, del_entry. cbn [attrs entries next e_ParentIno e_Name].
  rewrite (shape_rename_free _ _ _ _ _ _ _ _ _ (e_Ino se)) by eauto.
  destruct (moves src dst sa) eqn:Em; unfold moves in Em.
  - apply andb_true_iff in Em as [Hne%negb_true_iff%N.eqb_neq Hdir].
    pose proof (inv_width _ _ _ Hinv _ _ _ Hss). destruct (inv_dir _ _ _ Hinv _ _ Hss).
    unfold put_shape. simpl. rewrite (Hi _ _ Hs), (Hi _ _ Hd), incr32_small, decr32_pos by (auto; lia).
    change (IsDir (nlink_up dpa)) with (IsDir dpa). change (IsDir (nlink_down spa)) with (IsDir spa).
    rewrite Hsd, Hdd. eapply inv_move_dir; eauto using eq_trans, eq_sym.
  - eapply (inv_move (shape t)); eauto; [by intros ???; eauto|].
    intros i d k H. split; [by eapply (inv_width _ _ _ Hinv)|]. exists k. split; [done|].
    rewrite <- Hkind. destruct (N.eqb_spec src dst) as [->|Hne]; [done|].
    simpl in Em. by rewrite Em, !andb_false_r.
Qed.
