(* ===== verification/NodeRefine.v ===== *)
(** The inode service implements the tree of Tree.v, over any badger that
    behaves as documented.  [repr] relates the key-value pairs of a store to a
    tree; [Rel] relates a running service to the tree its reads see, the tree a
    commit would leave and the tree a rollback would leave. *)
From Stdlib Require Import Ascii.
From stdpp Require Import prelude gmap strings list fin_maps.
From S2P Require Import Prelude Store Badger FileMode FreeList Attr NodeService Tree.

Abbreviation kvmap := (gmap string blob).
Abbreviation svc := (Service mem_store).

(** * Representation *)

(** The key-value pairs of a tree; keys outside "a/", "e/" and the counter are
    not constrained. *)
Record repr (m : kvmap) (t : tree) : Prop := {
  repr_attr ino : m !! attr_key ino = attr_blob <$> attrs t !! ino;
  repr_entry p n : m !! entry_key p n = entry_blob <$> entries t !! (p, n);
  repr_next : m !! InoKey = Some (BSeq (next t));
  repr_inode ino (a : Attr) : attrs t !! ino = Some a -> Inode a = ino;
  repr_entry_key p n (e : Entry) : entries t !! (p, n) = Some e ->
    e_ParentIno e = p /\ e_Name e = n /\ valid_name n;
}.

Definition sview (s : svc) : kvmap := view (metaStore s).
Definition scommitted (s : svc) : kvmap := committed (metaStore s).
Definition sdb (s : svc) : kvmap := DB (metaStore s).
Definition supd (k : string) (o : option blob) (s : svc) : svc :=
  with_store s (upd k o (metaStore s)).
Definition supds (l : list (string * option blob)) (s : svc) : svc :=
  with_store s (upds l (metaStore s)).

Record Rel (s : svc) (tv tc td : tree) : Prop := {
  rel_view : repr (sview s) tv;
  rel_committed : repr (scommitted s) tc;
  rel_db : repr (sdb s) td;
  rel_free : freelist (inoFreeList s) = [];
}.

(** Between requests no transaction is open and the three trees are one. *)
Definition idle (s : svc) (t : tree) : Prop :=
  ctxTxn (metaStore s) = None /\ Rel s t t t.

(** Inside a transaction; the counter is never written through one. *)
Definition txn_open (s : svc) : Prop :=
  exists t : mem_txn, ctxTxn (metaStore s) = Some t /\ writes t !! InoKey = None.
Definition intxn (s : svc) (tv tc td : tree) : Prop := txn_open s /\ Rel s tv tc td.

(** * Lemmas *)

(** ** Running the monad *)

Section run.
Context {S E A B : Type}.
Lemma bind_run (m : M S E A) (k : A -> M S E B) s r s' :
  m s = (r, s') ->
  bind m k s = match r with Ok a => k a s' | Err e => (Err e, s') | Panic => (Panic, s') end.
Proof. unfold bind. intros ->. by destruct r. Qed.
Lemma catch_run (m : M S E A) (k : A + E -> M S E B) s r s' :
  m s = (r, s') ->
  catch m k s = match r with Ok a => k (inl a) s' | Err e => k (inr e) s' | Panic => (Panic, s') end.
Proof. unfold catch. intros ->. by destruct r. Qed.
End run.

Lemma DoInTxn_run {A} (cb : M svc error A) s r s1 :
  cb (Begin s) = (r, s1) ->
  DoInTxn cb s = match r with Err e => (Err e, Rollback s1) | _ => (r, (Commit s1).2) end.
Proof. unfold DoInTxn. intros ->. by destruct r. Qed.

(** ** Keys the store leaves as they are *)

Definition plain_key (k : string) : Prop := k <> ""%string /\ trim_key k = k.

Lemma plain_app p s :
  s <> ""%string -> has_char "/"%char s = false -> (p +:+ s)%string <> Separator ->
  plain_key (p +:+ s)%string.
Proof.
  intros Hs Hc Hsep. split.
  - destruct p; [done|]. done.
  - unfold trim_key. rewrite bool_decide_false by done. by apply trim_suffix_char_app.
Qed.

Lemma plain_attr_key i : plain_key (attr_key i).
Proof. apply plain_app; [apply itoa_ne|apply itoa_no_slash|done]. Qed.

Lemma plain_entry_key p n : valid_name n -> plain_key (entry_key p n).
Proof.
  intros [Hn Hc]. unfold entry_key.
  replace ("e/" +:+ itoa p +:+ "/" +:+ n)%string with (("e/" +:+ itoa p +:+ "/") +:+ n)%string
    by by rewrite !str_app_assoc.
  by apply plain_app.
Qed.

(** ** Values by key *)

Section by_key.
Context {T : Type} `{Serializer T} (x : T).
Context (Hkey : plain_key (FormatKey x)) (Hprefix : FormatKey x <> FormatPrefix x).

Lemma GetValueByKey_run (s : svc) :
  GetValueByKey (inl (Some x)) s =
  (match sview s !! FormatKey x with
   | None => Err ErrNotFound
   | Some b => match Deserialize b with inl v => Ok v | inr e => Err e end
   end, s).
Proof.
  destruct Hkey as [Hne Htrim]. unfold GetValueByKey, DoGetValueByKey.
  rewrite !bool_decide_false by done. unfold bind. simpl. unfold on_store.
  pose proof (Get_mem (FormatKey x) (metaStore s)) as Hg. rewrite Htrim in Hg.
  simpl in Hg. rewrite Hg by done. unfold sview. destruct s as [st r f]. simpl.
  destruct (view st !! FormatKey x) as [b|]; [|done].
  simpl. by destruct (Deserialize b).
Qed.

Lemma DoSaveInKVPair_run (s : svc) b :
  Serialize x = inl b -> DoSaveInKVPair (Some x) s = (Ok tt, supd (FormatKey x) (Some b) s).
Proof.
  destruct Hkey as [Hne _]. intros Hb. unfold DoSaveInKVPair.
  rewrite !bool_decide_false by done. rewrite Hb. unfold bind. simpl. unfold on_store.
  pose proof (Save_mem (FormatKey x) b (metaStore s) Hne) as Hs. simpl in Hs. by rewrite Hs.
Qed.

Lemma DeleteByKey_run (s : svc) :
  DeleteByKey (inl (Some x)) s = (Ok tt, supd (FormatKey x) None s).
Proof.
  destruct Hkey as [Hne _]. unfold DeleteByKey, DoDeleteByKey.
  rewrite !bool_decide_false by done. simpl. unfold on_store.
  pose proof (Delete_mem (FormatKey x) (metaStore s) Hne) as Hs. simpl in Hs. by rewrite Hs.
Qed.
End by_key.

(** ** Writes and trees *)

(** A write of the store that is a change of the tree. *)
Definition tracks (k : string) (o : option blob) (f : tree -> tree) : Prop :=
  forall m t, repr m t -> repr (map_upd (k, o) m) (f t).

Ltac solve_lookup_upd :=
  rewrite lookup_map_upd; cbn [fst snd]; case_decide as Heq; [try discriminate|].

Lemma tracks_put_attr (a : Attr) : tracks (attr_key (Inode a)) (Some (attr_blob a)) (put_attr a).
Proof.
  intros m t [Ha He Hn Hi Hk]. split; simpl; [..|done].
  - intros ino. solve_lookup_upd.
    + apply attr_key_inj in Heq as ->. by rewrite lookup_insert_eq.
    + rewrite lookup_insert_ne by congruence. apply Ha.
  - intros p n. solve_lookup_upd. apply He.
  - by solve_lookup_upd.
  - intros ino a' [[<- <-]|[_ H]]%lookup_insert_Some; auto.
Qed.

Lemma tracks_del_attr i : tracks (attr_key i) None (del_attr i).
Proof.
  intros m t [Ha He Hn Hi Hk]. split; simpl; [..|done].
  - intros ino. solve_lookup_upd.
    + apply attr_key_inj in Heq as ->. by rewrite lookup_delete_eq.
    + rewrite lookup_delete_ne by congruence. apply Ha.
  - intros p n. solve_lookup_upd. apply He.
  - by solve_lookup_upd.
  - intros ino a' [_ H]%lookup_delete_Some; auto.
Qed.

Lemma tracks_put_entry e :
  valid_name (e_Name e) ->
  tracks (entry_key (e_ParentIno e) (e_Name e)) (Some (entry_blob e)) (put_entry e).
Proof.
  intros Hv m t [Ha He Hn Hi Hk]. split; simpl; [..|done|].
  - intros ino. solve_lookup_upd. apply Ha.
  - intros p n. solve_lookup_upd.
    + apply entry_key_inj in Heq as [<- <-]. by rewrite lookup_insert_eq.
    + rewrite lookup_insert_ne by congruence. apply He.
  - by solve_lookup_upd.
  - intros p n e' [[[= <- <-] <-]|[_ H]]%lookup_insert_Some; auto.
Qed.

Lemma tracks_del_entry p n : tracks (entry_key p n) None (del_entry p n).
Proof.
  intros m t [Ha He Hn Hi Hk]. split; simpl; [..|done|].
  - intros ino. solve_lookup_upd. apply Ha.
  - intros p' n'. solve_lookup_upd.
    + apply entry_key_inj in Heq as [<- <-]. by rewrite lookup_delete_eq.
    + rewrite lookup_delete_ne by congruence. apply He.
  - by solve_lookup_upd.
  - intros p' n' e' [_ H]%lookup_delete_Some; auto.
Qed.

Lemma repr_take_ino m t :
  repr m t -> repr (<[InoKey := BSeq (wrap64 (next t + 1))]> m) (take_ino t).2.
Proof.
  intros [Ha He Hn Hi Hk]. split; simpl; auto.
  - intros ino. by rewrite lookup_insert_ne.
  - intros p n. by rewrite lookup_insert_ne.
  - by rewrite lookup_insert_eq.
Qed.

Lemma intxn_upd k o f s tv tc td :
  k <> InoKey -> tracks k o f -> intxn s tv tc td -> intxn (supd k o s) (f tv) (f tc) td.
Proof.
  intros Hk Hf [(t & Ht & Hw) [Hv Hc Hd Hfree]]. split.
  { unfold txn_open, supd, upd. simpl. rewrite Ht. simpl. eexists; split; [done|].
    simpl. by rewrite lookup_insert_ne. }
  split; unfold sview, scommitted, sdb, supd in *; simpl; [..|done].
  - rewrite view_upd. by apply Hf.
  - rewrite committed_upd. by apply Hf.
  - unfold upd. by rewrite Ht.
Qed.

Lemma idle_upd k o f s t : tracks k o f -> idle s t -> idle (supd k o s) (f t).
Proof.
  intros Hf [Ht [Hv Hc Hd Hfree]].
  unfold idle, sview, scommitted, sdb, supd, upd, view, committed in *. simpl in *.
  destruct (ctxTxn (metaStore s)) eqn:E; [done|]. simpl. split; [done|].
  pose proof (Hf _ _ Hd) as H'. unfold sdb, map_upd in H'. simpl in H'.
  split; unfold sview, scommitted, sdb, view, committed; simpl; try done;
    by rewrite apply_writes_singleton.
Qed.

(** ** Transactions *)

Lemma idle_Begin s t : idle s t -> intxn (Begin s) t t t.
Proof.
  intros [Hn [Hv Hc Hd Hf]]. split; [by eexists (MemTxn _ ∅)|].
  split; unfold sview, scommitted, sdb in *; try done;
    change (metaStore (Begin s)) with (Begin (metaStore s)).
  - by rewrite view_Begin.
  - by rewrite committed_Begin.
Qed.

Lemma intxn_Commit s tv tc td : intxn s tv tc td -> idle (Commit s).2 tc.
Proof.
  intros [_ [Hv Hc Hd Hf]]. pose proof (Commit_committed (metaStore s)) as H.
  simpl in *. destruct (BadgerTxn_Commit (metaStore s)) as [e m]. simpl in *. subst m.
  unfold idle. simpl. split; [done|]. by split.
Qed.

Lemma intxn_Rollback s tv tc td : intxn s tv tc td -> idle (Rollback s) td.
Proof. intros [_ [Hv Hc Hd Hf]]. unfold idle. simpl. split; [done|]. by split. Qed.

(** ** The service's calls on a tree *)

Definition save_attr (a : Attr) (s : svc) : svc := supd (attr_key (Inode a)) (Some (attr_blob a)) s.
Definition save_entry (e : Entry) (s : svc) : svc :=
  supd (entry_key (e_ParentIno e) (e_Name e)) (Some (entry_blob e)) s.

Lemma attr_key_ne_prefix i : attr_key i <> "a/"%string.
Proof. intros H%(str_app_inj_l "a/" (itoa i) ""). by apply itoa_ne in H. Qed.

Lemma entry_key_ne_prefix p n :
  valid_name n -> entry_key p n <> ("e/" +:+ itoa p +:+ "/")%string.
Proof.
  intros [Hn _] H. unfold entry_key in H. apply str_app_inj_l in H.
  apply (str_app_inj_l (itoa p) (String "/" n) "/") in H. by simplify_eq.
Qed.

Lemma get_attr_run s t ino :
  repr (sview s) t ->
  GetValueByKey (newAttr ino) s =
  (match attrs t !! ino with Some a => Ok a | None => Err ErrNotFound end, s).
Proof.
  intros Hr. unfold newAttr.
  rewrite GetValueByKey_run; [|apply plain_attr_key|apply attr_key_ne_prefix].
  change (FormatKey (Attr_of_ino ino)) with (attr_key ino). rewrite (repr_attr _ _ Hr).
  destruct (attrs t !! ino) as [a|]; simpl; [by rewrite Attr_Deserialize_blob|done].
Qed.

Lemma get_entry_run s t p n :
  repr (sview s) t -> valid_name n ->
  GetValueByKey (newEntry p n) s =
  (match entries t !! (p, n) with Some e => Ok e | None => Err ErrNotFound end, s).
Proof.
  intros Hr Hv. unfold newEntry.
  rewrite GetValueByKey_run; [|by apply plain_entry_key|by apply entry_key_ne_prefix].
  change (FormatKey (MkEntry p n 0 0)) with (entry_key p n). rewrite (repr_entry _ _ Hr).
  destruct (entries t !! (p, n)) as [a|]; simpl; [by rewrite Entry_Deserialize_blob|done].
Qed.

Lemma save_attr_run a s : DoSaveInKVPair (Some a) s = (Ok tt, save_attr a s).
Proof.
  by erewrite DoSaveInKVPair_run by (apply plain_attr_key || apply attr_key_ne_prefix || reflexivity).
Qed.
Lemma delete_attr_run ino s : DeleteByKey (newAttr ino) s = (Ok tt, supd (attr_key ino) None s).
Proof. unfold newAttr. by rewrite DeleteByKey_run by (apply plain_attr_key || apply attr_key_ne_prefix). Qed.

Lemma save_entry_run e s :
  valid_name (e_Name e) -> DoSaveInKVPair (Some e) s = (Ok tt, save_entry e s).
Proof.
  intros Hv. by erewrite DoSaveInKVPair_run
    by (by apply plain_entry_key || by apply entry_key_ne_prefix || reflexivity).
Qed.
Lemma delete_entry_run p n s :
  valid_name n -> DeleteByKey (newEntry p n) s = (Ok tt, supd (entry_key p n) None s).
Proof.
  intros Hv.
  unfold newEntry. by rewrite DeleteByKey_run
    by (by apply plain_entry_key || by apply entry_key_ne_prefix).
Qed.

Lemma BatchSave_run b l (s : svc) :
  Forall (fun e => kv_Key e <> ""%string) l ->
  BatchSave b l s = (Ok tt, supds (kv_write <$> l) s).
Proof.
  intros Hl. simpl. unfold on_store. pose proof (BatchSave_mem b l (metaStore s) Hl) as Hb.
  simpl in Hb. by rewrite Hb.
Qed.

Lemma attr_key_ne i : attr_key i <> ""%string.
Proof. done. Qed.

Lemma save_attrs_run l s : DoBatchSaveStrictly l s = (Ok tt, foldl (fun s a => save_attr a s) s l).
Proof.
  assert (serialize_all l = inl ((fun a : Attr => KV (attr_key (Inode a)) (attr_blob a)) <$> l)) as Hser.
  { induction l as [|a l IH]; simpl; [done|]. by rewrite IH. }
  unfold DoBatchSaveStrictly. rewrite Hser. erewrite bind_run by reflexivity. cbv beta match.
  rewrite BatchSave_run.
  - f_equal. clear Hser. unfold supds. revert s.
    induction l as [|a l IH]; intros [m r f]; simpl; [done|]. by rewrite <- IH.
  - clear. induction l; simpl; constructor; [apply attr_key_ne|done].
Qed.

Lemma intxn_save_attr a s tv tc td :
  intxn s tv tc td -> intxn (save_attr a s) (put_attr a tv) (put_attr a tc) td.
Proof. by apply intxn_upd, tracks_put_attr. Qed.
Lemma intxn_save_entry e s tv tc td :
  valid_name (e_Name e) -> intxn s tv tc td ->
  intxn (save_entry e s) (put_entry e tv) (put_entry e tc) td.
Proof. intros Hv. by apply intxn_upd, tracks_put_entry. Qed.

(** Incrementing the counter does not wait for the transaction. *)
Lemma next_ino_run s tv tc td :
  intxn s tv tc td ->
  exists s', next_ino s = (Ok (take_ino td).1, s') /\
    intxn s' tv (take_ino tc).2 (take_ino td).2.
Proof.
  intros [(t & Ht & Hw) [Hv Hc Hd Hf]].
  unfold next_ino, NewWith. rewrite Hf. simpl. unfold catch. simpl. unfold on_store.
  pose proof (Incr_mem InoKey (metaStore s)) as Hi. simpl in Hi. rewrite Hi. clear Hi.
  unfold mem_sequence_next. rewrite !bool_decide_false by done.
  unfold sdb in Hd. pose proof (repr_next _ _ Hd) as Hnext. simpl in Hnext. rewrite Hnext. simpl.
  assert (next tc = next td) as Hn.
  { pose proof (repr_next _ _ Hc) as H. unfold scommitted, committed in H.
    rewrite Ht, lookup_apply_writes, Hw, Hnext in H. congruence. }
  eexists. split; [done|]. split; [by exists t|]. split; [..|done].
  - unfold sview, view in *. simpl. by rewrite Ht in *.
  - unfold scommitted, committed in *. simpl. rewrite Ht in *.
    apply repr_take_ino in Hc. rewrite Hn in Hc. by rewrite apply_writes_base_insert.
  - by apply repr_take_ino in Hd.
Qed.

(** ** Refinement *)

(** A request ends with the answer and the tree of [rt]. *)
Definition ends {A} (p : outcome error A * svc) (rt : result A) : Prop :=
  p.1 = rt.1 /\ idle p.2 rt.2.

(** A request served between requests does to the tree what [f] does. *)
Definition refines {A} (m : M svc error A) (f : tree -> result A) : Prop :=
  forall s t, idle s t -> ends (m s) (f t).

(** The callback of a transaction: what it leaves on an error is rolled back. *)
Definition txn_ends {A} (p : outcome error A * svc) (rt : result A) : Prop :=
  exists tv tc td, p.1 = rt.1 /\ intxn p.2 tv tc td /\
    rt.2 = match rt.1 with Err _ => td | _ => tc end.

Lemma DoInTxn_ends {A} (cb : M svc error A) s t rt :
  idle s t -> (forall s', intxn s' t t t -> txn_ends (cb s') rt) -> ends (DoInTxn cb s) rt.
Proof.
  intros Hs Hcb. destruct (Hcb _ (idle_Begin _ _ Hs)) as (tv & tc & td & E & Hin & Hf).
  destruct (cb (Begin s)) as [r s'] eqn:Ecb. simpl in E, Hin. subst r.
  rewrite (DoInTxn_run _ _ _ _ Ecb). split; [by destruct rt.1|]. rewrite Hf.
  destruct rt.1; by (eapply intxn_Commit || eapply intxn_Rollback).
Qed.

(** A callback that ends without having written. *)
Lemma txn_ends_same {A} (r : outcome error A) s t :
  intxn s t t t -> txn_ends (r, s) (r, t).
Proof. intros Hs. exists t, t, t. split; [done|]. split; [done|]. by destruct r. Qed.

Lemma txn_ends_ok {A} (a : A) s tv tc td :
  intxn s tv tc td -> txn_ends (Ok a, s) (Ok a, tc).
Proof. intros Hs. by exists tv, tc, td. Qed.
#[local] Hint Resolve txn_ends_same : core.

(** Run the first call of the goal with the lemma that describes it. *)
Ltac run_with lem :=
  first [ erewrite bind_run by (eapply lem; eauto) | erewrite catch_run by (eapply lem; eauto) ];
  cbv beta match.

Lemma intxn_sees s tv tc td : intxn s tv tc td -> repr (sview s) tv.
Proof. by intros [_ []]. Qed.
Lemma idle_sees s t : idle s t -> repr (sview s) t.
Proof. by intros [_ []]. Qed.
#[local] Hint Resolve intxn_sees idle_sees : core.

Lemma or_wrapped_ok {A} (m : M svc error A) s a s' :
  m s = (Ok a, s') -> or_wrapped m s = (Ok a, s').
Proof. intros H. unfold or_wrapped. by rewrite (catch_run _ _ _ _ _ H). Qed.
Lemma or_internal_ok {A} (m : M svc error A) s a s' :
  m s = (Ok a, s') -> or_internal m s = (Ok a, s').
Proof. intros H. unfold or_internal. by rewrite (catch_run _ _ _ _ _ H). Qed.

Lemma taken_run {A} s t p n (m1 m2 : M svc error A) :
  repr (sview s) t -> valid_name n ->
  (r <-? GetValueByKey (newEntry p n) ;; if taken r then m1 else m2) s =
  (if t_taken p n t then m1 s else m2 s).
Proof.
  intros Hr Hv. run_with get_entry_run. unfold t_taken.
  destruct (entries t !! (p, n)) as [e|]; simpl; [by destruct (negb _)|done].
Qed.

(** *** Create *)

Section ops.
Context {C : Copier} `{!CopierSpec C}.

Lemma newInode_run attr pAttr now s tv tc td :
  intxn s tv tc td ->
  exists s', newInode attr pAttr true now s =
    (Ok (on_pb (fun p => touch_mc now (touch_a now p)) (new_kind (SetInode (take_ino td).1 attr)),
         on_pb (fun p => bump_epoch (touch_mc now p)) (new_parent attr pAttr)), s') /\
    intxn s' tv (take_ino tc).2 (take_ino td).2.
Proof.
  intros Hs. destruct (next_ino_run _ _ _ _ Hs) as (s' & E & Hs').
  exists s'. split; [|done]. unfold newInode.
  erewrite bind_run; [|erewrite bind_run by exact E; reflexivity]. done.
Qed.

Lemma CreateInode_mem parent name req now :
  valid_name name ->
  refines (CreateInode parent name (Some req) now) (t_create parent name req now).
Proof.
  intros Hv s0 t Hs0. apply (DoInTxn_ends _ _ t); [done|]. clear s0 Hs0. intros s Hs.
  run_with get_attr_run. unfold t_create.
  destruct (attrs t !! parent) as [pa|] eqn:Ep; [|by apply txn_ends_same].
  cbn [get_or]. destruct (IsDir pa); [|by apply txn_ends_same]. cbn [negb].
  destruct (has_bits (Flags pa) FlagImmutable); [by apply txn_ends_same|].
  rewrite (taken_run _ t) by eauto.
  destruct (t_taken parent name t); [by apply txn_ends_same|].
  unfold ToAttr. rewrite copier_modify_spec. erewrite bind_run by reflexivity. cbv beta match.
  change (SetName name (SetParentIno parent (MkAttr (modify_fields req) 0 "")))
    with (MkAttr (modify_fields req) parent name).
  destruct (newInode_run (MkAttr (modify_fields req) parent name) pa now _ _ _ _ Hs)
    as (s1 & E1 & Hs1).
  erewrite bind_run by exact E1. cbv beta match.
  fold (created parent name req now (take_ino t).1).
  change (on_pb _ (new_parent _ pa)) with (created_parent req now pa).
  rewrite created_Inode.
  erewrite bind_run by (apply or_wrapped_ok, save_entry_run; done). cbv beta match.
  erewrite bind_run by (apply or_wrapped_ok, save_attrs_run). cbv beta match.
  eapply txn_ends_ok. by apply intxn_save_attr, intxn_save_attr, intxn_save_entry.
Qed.

(** *** Link *)

Lemma Link_mem ino parent name now :
  valid_name name -> refines (Link ino parent name now) (t_link ino parent name now).
Proof.
  intros Hv s0 t Hs0. unfold Link, t_link. run_with get_attr_run.
  destruct (attrs t !! parent) as [pa|] eqn:Ep; [|done]. cbn [get_or].
  destruct (IsDir pa); [|done]. cbn [negb].
  destruct (has_bits (Flags pa) FlagImmutable); [done|].
  apply (DoInTxn_ends _ _ t); [done|]. clear s0 Hs0. intros s Hs. run_with get_attr_run.
  destruct (attrs t !! ino) as [a|] eqn:Ea; [|by apply txn_ends_same]. cbn [get_or].
  destruct (IsDir a); [by apply txn_ends_same|].
  rewrite (taken_run _ t) by eauto.
  destruct (t_taken parent name t); [by apply txn_ends_same|]. cbv zeta.
  erewrite bind_run by (apply or_wrapped_ok, save_attrs_run). cbv beta match.
  erewrite bind_run by (apply or_wrapped_ok, save_entry_run; done). cbv beta match.
  replace ino with (Inode a) by by eapply repr_inode; eauto.
  eapply txn_ends_ok. by apply intxn_save_entry, intxn_save_attr, intxn_save_attr.
Qed.

(** *** Unlink *)

Lemma or_internal_get_attr s t ino :
  repr (sview s) t ->
  or_internal (GetValueByKey (newAttr ino)) s =
  (match attrs t !! ino with Some a => Ok a | None => Err (Status Internal) end, s).
Proof. intros Hr. unfold or_internal. run_with get_attr_run. by destruct (attrs t !! ino). Qed.

Lemma status_of_run {A} (r : A + error) (s : svc) :
  status_of r s = (match r with
                   | inl a => Ok a
                   | inr e => if bool_decide (e = ErrNotFound) then Err (Status NotFound)
                              else Err (Status Internal)
                   end, s).
Proof. destruct r; simpl; [done|]. by case_bool_decide. Qed.

Lemma DeleteInode_mem parent name now now' :
  valid_name name -> name <> "."%string -> name <> ".."%string ->
  refines (DeleteInode parent name now now') (t_unlink parent name now now').
Proof.
  intros Hv Hd Hdd s0 t Hs0. unfold DeleteInode, t_unlink.
  assert (bool_decide (name = "/"%string) = false) as ->.
  { apply bool_decide_eq_false_2. intros ->. by destruct Hv. }
  rewrite andb_false_r, !bool_decide_false by done. cbv [orb].
  run_with get_entry_run.
  destruct (entries t !! (parent, name)) as [e|] eqn:Ee; [|done].
  erewrite bind_run by reflexivity. cbv beta match.
  destruct (e_IsDir e); [done|].
  apply (DoInTxn_ends _ _ t); [done|]. clear s0 Hs0. intros s Hs.
  destruct (repr_entry_key _ _ (intxn_sees _ _ _ _ Hs) _ _ _ Ee) as (-> & _ & _).
  run_with or_internal_get_attr.
  destruct (attrs t !! parent) as [pa|] eqn:Ep; [|by apply txn_ends_same]. cbv zeta.
  erewrite bind_run by (apply or_internal_ok, delete_entry_run; done). cbv beta match.
  apply (intxn_upd (entry_key parent name) None (del_entry parent name)) in Hs as Hs1;
    [|done|apply tracks_del_entry].
  run_with get_attr_run. cbn [attrs del_entry].
  destruct (attrs t !! e_Ino e) as [a|] eqn:Ea.
  2:{ exists (del_entry parent name t), (del_entry parent name t), t. done. }
  destruct (1 <? Nlink a)%N.
  - erewrite bind_run by (apply or_internal_ok, save_attr_run; done). cbv beta match.
    erewrite or_internal_ok by (apply save_attr_run).
    eapply txn_ends_ok. by apply intxn_save_attr, intxn_save_attr.
  - erewrite bind_run by (apply or_internal_ok, delete_attr_run; done). cbv beta match.
    erewrite or_internal_ok by (apply save_attr_run).
    eapply txn_ends_ok. apply intxn_save_attr, intxn_upd; [done|apply tracks_del_attr|done].
Qed.

(** *** Attributes *)

Lemma UpdateInodeAttr_mem ctx ino set req now :
  refines (UpdateInodeAttr ctx ino set req now) (t_update ctx ino set req now).
Proof.
  intros s0 t Hs0. apply (DoInTxn_ends _ _ t); [done|]. clear s0 Hs0. intros s Hs.
  run_with get_attr_run. unfold t_update.
  destruct (attrs t !! ino) as [d|] eqn:Ed; [|by apply txn_ends_same]. cbn [get_or].
  erewrite bind_run by reflexivity. cbv beta match.
  destruct (updated_attr ctx set req now d) as [d'|e|]; [|by apply txn_ends_same..].
  erewrite catch_run by (apply save_attrs_run). cbv beta match. cbn [get_or].
  eapply txn_ends_ok. by apply intxn_save_attr.
Qed.

Lemma GetInodeAttr_mem ino : refines (GetInodeAttr ino) (t_getattr ino).
Proof.
  intros s t Hs. unfold GetInodeAttr, t_getattr. run_with get_attr_run.
  by destruct (attrs t !! ino).
Qed.

Lemma Lookup_mem parent name :
  parent <> 0%N -> valid_name name -> ~ (parent = 1%N /\ (name = "." \/ name = "..")%string) ->
  refines (Lookup parent name) (t_lookup parent name).
Proof.
  intros Hp Hv Hdot s t Hs. unfold Lookup, t_lookup.
  rewrite (proj2 (N.eqb_neq _ _) Hp), bool_decide_false by apply Hv. cbv [orb].
  assert ((if (parent =? 1)%N && bool_decide (name = "..") then "." else name)%string = name
          /\ bool_decide (name = "."%string) && (parent =? 1)%N = false) as [-> ->].
  { destruct (N.eqb_spec parent 1); simpl; [|by rewrite andb_false_r].
    rewrite !bool_decide_false; [done|naive_solver..]. }
  run_with get_entry_run.
  destruct (entries t !! (parent, name)) as [e|]; [|done]. simpl mbind.
  erewrite bind_run by reflexivity. cbv beta match.
  erewrite catch_run by (eapply (get_attr_run _ t (e_Ino e)); eauto). cbv beta match.
  by destruct (attrs t !! e_Ino e).
Qed.

(** *** Listing *)

Lemma deserialize_all_run (l : list (string * blob)) (f : blob -> Entry) :
  Forall (fun x => Deserialize x.2 = inl (f x.2)) l ->
  deserialize_all l = inl (prod_map id f <$> l).
Proof.
  induction l as [|[k b] l IH]; intros Hl; simpl; [done|].
  apply Forall_cons in Hl as [Hx Hl]. simpl in Hx. by rewrite Hx, IH.
Qed.

Lemma trim_key_prefix p : trim_key (("e/" +:+ itoa p +:+ "/")%string) = ("e/" +:+ itoa p)%string.
Proof.
  unfold trim_key. rewrite bool_decide_false by done.
  replace ("e/" +:+ itoa p +:+ "/")%string with (("e/" +:+ itoa p) +:+ "/")%string
    by by rewrite str_app_assoc.
  apply trim_suffix_char_snoc.
Qed.

(** The map of a directory: its keys and entries. *)
Definition dir_map (p : N) (t : tree) : gmap string Entry :=
  list_to_map ((fun x : N * string * Entry => (entry_key p x.1.2, x.2)) <$> dir p t).

Lemma elem_of_dir p t x : x ∈ dir p t <-> x.1.1 = p /\ entries t !! x.1 = Some x.2.
Proof.
  unfold dir. rewrite list_elem_of_filter. destruct x as [k e].
  by rewrite elem_of_map_to_list.
Qed.

Lemma dir_NoDup p t : NoDup (dir p t).
Proof. apply NoDup_filter, NoDup_map_to_list. Qed.

Lemma dir_keys_NoDup p t :
  NoDup ((fun x : N * string * Entry => (entry_key p x.1.2, x.2)) <$> dir p t).*1.
Proof.
  rewrite <- list_fmap_compose. apply NoDup_fmap_2_strong; [|apply dir_NoDup].
  intros [[p1 n1] e1] [[p2 n2] e2] [H1 E1]%elem_of_dir [H2 E2]%elem_of_dir Heq.
  simpl in *. subst. apply entry_key_inj in Heq as [_ ->]. congruence.
Qed.

Lemma lookup_dir_map p t k e :
  dir_map p t !! k = Some e <-> exists n, k = entry_key p n /\ entries t !! (p, n) = Some e.
Proof.
  unfold dir_map. rewrite <- elem_of_list_to_map by apply dir_keys_NoDup.
  rewrite list_elem_of_fmap. split.
  - intros ([[p' n] e'] & [= -> ->] & [H1 H2]%elem_of_dir). simpl in *. subst. eauto.
  - intros (n & -> & H). exists ((p, n), e). split; [done|]. by apply elem_of_dir.
Qed.

(** The decoded value, for the blobs that are entries. *)
Definition entry_of (b : blob) : Entry :=
  match Entry_Deserialize b with inl e => e | inr _ => MkEntry 0 "" 0 0 end.
Lemma entry_of_blob e : entry_of (entry_blob e) = e.
Proof. unfold entry_of. by rewrite Entry_Deserialize_blob. Qed.

Definition dir_prefix (p : N) : string := (("e/" +:+ itoa p) +:+ "/")%string.

Lemma lookup_dir_keys m t p k b :
  repr m t ->
  filter (fun a => has_prefix (dir_prefix p) a.1 = true) m !! k = Some b <->
  exists n e, k = entry_key p n /\ entries t !! (p, n) = Some e /\ b = entry_blob e.
Proof.
  intros Hr. rewrite map_lookup_filter_Some. unfold dir_prefix. cbn [fst].
  rewrite str_app_assoc, entry_key_prefix. split.
  - intros [Hk [n ->]]. rewrite (repr_entry _ _ Hr) in Hk.
    destruct (entries t !! (p, n)) as [e|] eqn:Ee; simplify_eq/=. by exists n, e.
  - intros (n & e & -> & He & ->). rewrite (repr_entry _ _ Hr), He. eauto.
Qed.

Lemma GetValuesByPrefix_run s t p :
  repr (sview s) t -> GetValuesByPrefix (newEntry_Ino p) s = (Ok (dir_map p t), s).
Proof.
  intros Hr. unfold GetValuesByPrefix, newEntry_Ino, DoGetValuesByPrefix.
  change (FormatPrefix (MkEntry p "" 0 0)) with ("e/" +:+ itoa p +:+ "/")%string.
  rewrite bool_decide_false by done. cbv match.
  set (F := filter (fun a => has_prefix (dir_prefix p) a.1 = true) (sview s)).
  assert (GetByBucket ("e/" +:+ itoa p +:+ "/")%string s = (Ok F, s)) as Hg.
  { pose proof (GetByBucket_mem ("e/" +:+ itoa p +:+ "/")%string (metaStore s)) as Hb.
    rewrite trim_key_prefix in Hb. specialize (Hb ltac:(done)).
    simpl in Hb |- *. unfold on_store. rewrite Hb. by destruct s. }
  erewrite bind_run by exact Hg. cbv beta match. clear Hg.
  rewrite (deserialize_all_run _ entry_of).
  - erewrite bind_run by reflexivity. cbv beta match. unfold ret. do 2 f_equal.
    rewrite list_to_map_fmap, list_to_map_to_list. apply map_eq. intros k. apply option_eq.
    intros e. rewrite lookup_dir_map, lookup_fmap, fmap_Some. split.
    + intros (b & (n & e' & -> & He & ->)%(lookup_dir_keys _ _ _ _ _ Hr) & ->).
      exists n. by rewrite entry_of_blob.
    + intros (n & -> & He). exists (entry_blob e). rewrite entry_of_blob. split; [|done].
      apply (lookup_dir_keys _ _ _ _ _ Hr). eauto.
  - apply Forall_forall. intros [k b] Hin. apply elem_of_map_to_list in Hin.
    apply (lookup_dir_keys _ _ _ _ _ Hr) in Hin as (n & e & -> & He & ->). simpl.
    by rewrite entry_of_blob, Entry_Deserialize_blob.
Qed.

Definition shown (plus : bool) (t : tree) (x : string * Entry) : Item :=
  MkItem (e_Ino x.2) (trim_prefix x.1 (Entry_FormatPrefix x.2)) (e_Mode x.2)
    (if plus then pb <$> (attrs t !! e_Ino x.2 : option Attr) else None).

Lemma list_loop_run plus l s t :
  repr (sview s) t ->
  Forall (fun x : string * Entry => plus = true -> is_Some (attrs t !! e_Ino x.2)) l ->
  list_loop plus l s = (Ok (shown plus t <$> l), s).
Proof.
  intros Hr. induction l as [|[k e] l IH]; intros Hl; [done|].
  apply Forall_cons in Hl as [Hx Hl]. cbn [list_loop]. simpl in Hx. destruct plus.
  - destruct Hx as [a Ha]; [done|]. erewrite bind_run.
    2:{ run_with get_attr_run. rewrite Ha. cbv beta match. by erewrite bind_run by reflexivity. }
    cbv beta match. erewrite bind_run by (by apply IH). unfold shown. simpl. by rewrite Ha.
  - erewrite bind_run by reflexivity. cbv beta match. by erewrite bind_run by (by apply IH).
Qed.

Lemma shown_dir plus t p n e :
  e_ParentIno e = p -> shown plus t (entry_key p n, e) = item plus t ((p, n), e).
Proof.
  intros <-. unfold shown, item, Entry_FormatPrefix, entry_key. cbn [fst snd]. f_equal.
  replace ("e/" +:+ itoa (e_ParentIno e) +:+ "/" +:+ n)%string
    with (("e/" +:+ itoa (e_ParentIno e) +:+ "/") +:+ n)%string by by rewrite !str_app_assoc.
  apply trim_prefix_app.
Qed.

Lemma ListItemUnderInode_mem p plus s t :
  idle s t ->
  (plus = true -> forall n e, entries t !! (p, n) = Some e -> is_Some (attrs t !! e_Ino e)) ->
  exists items, ListItemUnderInode p plus s = (Ok items, s) /\ items ≡ₚ t_list p plus t.
Proof.
  intros Hs Hres. unfold ListItemUnderInode. run_with GetValuesByPrefix_run.
  erewrite bind_run by reflexivity. cbv beta match.
  rewrite (list_loop_run _ _ _ t); [|by eauto|].
  - eexists. split; [done|]. unfold t_list, dir_map.
    rewrite map_to_list_to_map by apply dir_keys_NoDup.
    rewrite <- list_fmap_compose. apply Permutation_refl', list_fmap_ext.
    intros i [[p' n] e] [Hp He]%list_elem_of_lookup_2%elem_of_dir. simpl in Hp, He. subst p'.
    apply shown_dir. by eapply (repr_entry_key _ _ (idle_sees _ _ Hs)) in He as [-> _].
  - apply Forall_forall. intros [k e] Hin%elem_of_map_to_list Hp.
    apply lookup_dir_map in Hin as (n & -> & He). eauto.
Qed.
End ops.
