(* ===== verification/NodeRename.v ===== *)
(** Renaming refines the tree operation [t_rename]; the steps follow those of
    [Rename] in src/pkg/meta/inode/service.go:650-915. *)
From stdpp Require Import prelude gmap strings list fin_maps.
From S2P Require Import Prelude Store Badger FileMode FreeList Attr NodeService Tree NodeRefine.

(** * Reading steps *)

#[local] Hint Resolve intxn_sees idle_sees : core.

Section reads.
Context (s : svc) (t : tree) (Hr : repr (sview s) t).

Lemma enoent_attr_run i :
  or_enoent (GetValueByKey (newAttr i)) s = (ofind (attrs t !! i), s).
Proof. unfold or_enoent. run_with get_attr_run. by destruct (attrs t !! i). Qed.
Lemma enoent_entry_run p n :
  valid_name n -> or_enoent (GetValueByKey (newEntry p n)) s = (ofind (entries t !! (p, n)), s).
Proof. intros Hv. unfold or_enoent. run_with get_entry_run. by destruct (entries t !! (p, n)). Qed.

Lemma check_run {A} b e (k : M svc error A) o :
  k s = (o, s) -> check b e k s = (ocheck b e o, s).
Proof. intros Hk. unfold check, ocheck. by destruct b. Qed.

Lemma bind_read {A B} (m : M svc error A) (k : A -> M svc error B) o o' :
  m s = (o, s) -> (forall a, k a s = (o' a, s)) -> bind m k s = (obind o o', s).
Proof. intros Hm Hk. rewrite (bind_run _ _ _ _ _ Hm). destruct o; simpl; auto. Qed.

Lemma access_run ctx a :
  check_access ctx a (N.lor MODE_MASK_W MODE_MASK_X) s = (oaccess ctx a, s).
Proof. unfold check_access, oaccess. by destruct (access _ _ _). Qed.

Lemma rename_load_run ctx src dst oldName :
  valid_name oldName ->
  rename_load ctx src dst oldName s = (t_rename_load ctx src dst oldName t, s).
Proof.
  intros Hv. unfold rename_load, t_rename_load.
  apply bind_read; [by apply enoent_entry_run|intros se].
  apply bind_read; [apply enoent_attr_run|intros spa].
  apply bind_read; [apply enoent_attr_run|intros dpa].
  apply bind_read; [apply enoent_attr_run|intros sa].
  apply check_run. apply bind_read; [apply access_run|intros _].
  apply bind_read; [apply access_run|intros _]. by apply check_run, check_run.
Qed.

Lemma size_dir_map p : base.size (dir_map p t) = length (dir p t).
Proof.
  unfold dir_map. rewrite map_size_list_to_map by apply dir_keys_NoDup. by rewrite length_fmap.
Qed.

Lemma replace_dst_run spa dpa sa da :
  replace_dst spa dpa sa da s = (t_replace t spa dpa sa da, s).
Proof.
  unfold replace_dst, t_replace. destruct (IsDir da); [|done].
  run_with GetValuesByPrefix_run. rewrite size_dir_map. by apply check_run.
Qed.

Lemma rename_dst_run ctx src dst flags now de spa dpa sa :
  rename_dst ctx src dst flags now de spa dpa sa s =
  (t_rename_dst ctx src dst flags now de spa dpa sa t, s).
Proof.
  unfold rename_dst, t_rename_dst. destruct de as [de|]; [|by apply check_run].
  apply check_run. apply bind_read; [apply enoent_attr_run|intros da]. apply check_run.
  apply bind_read; [|intros st; by apply check_run].
  destruct (flags =? RenameExchange)%N; [done|apply replace_dst_run].
Qed.

Lemma sticky_run ctx st : sticky_check ctx st s = (t_sticky ctx st, s).
Proof.
  unfold sticky_check, t_sticky. destruct (_ && _); [|done].
  destruct (r_da st) as [da|]; [|done].
  by erewrite bind_run by reflexivity; apply check_run.
Qed.
End reads.

(** * Writing steps *)

Lemma drop_attr_run (a : Attr) s : DoDeleteByKey (Some a) s = (Ok tt, supd (attr_key (Inode a)) None s).
Proof.
  change (DoDeleteByKey (Some a)) with (DeleteByKey (S := svc) (inl (Some a))).
  by rewrite DeleteByKey_run by (apply plain_attr_key || apply attr_key_ne_prefix).
Qed.
Lemma drop_entry_run e s :
  valid_name (e_Name e) ->
  DoDeleteByKey (Some e) s = (Ok tt, supd (entry_key (e_ParentIno e) (e_Name e)) None s).
Proof.
  intros Hv. change (DoDeleteByKey (Some e)) with (DeleteByKey (S := svc) (inl (Some e))).
  by rewrite DeleteByKey_run by (by apply plain_entry_key || by apply entry_key_ne_prefix).
Qed.
Lemma save_any_attr_run a s : DoBatchSaveAnyStrictly [to_lossy a] s = (Ok tt, save_attr a s).
Proof.
  unfold DoBatchSaveAnyStrictly. erewrite bind_run by reflexivity. cbv beta match.
  rewrite BatchSave_run; [by destruct s|]. by repeat constructor.
Qed.
Lemma save_any_pair_run e a s :
  DoBatchSaveAnyStrictly [to_lossy e; to_lossy a] s = (Ok tt, save_attr a (save_entry e s)).
Proof.
  unfold DoBatchSaveAnyStrictly. erewrite bind_run by reflexivity. cbv beta match.
  rewrite BatchSave_run; [by destruct s|]. by repeat constructor.
Qed.

Lemma drop_dst_run de da s t td :
  intxn s t t td -> valid_name (e_Name de) ->
  exists s', drop_dst de da s = (Ok tt, s') /\
    let t' := del_entry (e_ParentIno de) (e_Name de) (t_drop da t) in intxn s' t' t' td.
Proof.
  intros Hs Hv. unfold drop_dst, t_drop.
  destruct (negb (IsDir da) && (0 <? Nlink da)%N).
  - erewrite bind_run by apply save_attr_run. cbv beta match. rewrite drop_entry_run by done.
    eexists. split; [done|]. apply intxn_upd; [done|apply tracks_del_entry|].
    by apply intxn_save_attr.
  - destruct (IsFile da); [|destruct (IsSymlink da)]; cbn [orb];
      (erewrite bind_run by (apply drop_attr_run || reflexivity)); cbv beta match;
      rewrite drop_entry_run by done; (eexists; split; [done|]);
      (apply intxn_upd; [done|apply tracks_del_entry|]);
      try done; (apply intxn_upd; [done|apply tracks_del_attr|done]).
Qed.

Lemma put_entry_id e t :
  entries t !! (e_ParentIno e, e_Name e) = Some e -> put_entry e t = t.
Proof. intros He. unfold put_entry. rewrite insert_id by done. by destruct t. Qed.

Lemma rename_entries_run src dst flags oldName newName se st s t :
  intxn s t t t -> valid_name oldName -> valid_name newName ->
  entries t !! (src, oldName) = Some se ->
  (is_Some (r_da st) <-> is_Some (entries t !! (dst, newName))) ->
  (flags = RenameExchange -> is_Some (r_da st)) ->
  exists s', rename_entries dst flags newName se (entries t !! (dst, newName)) st s = (Ok tt, s') /\
    let t' := t_rename_entries src dst flags oldName newName se st t in intxn s' t' t' t.
Proof.
  intros Hs Hvo Hvn Hse Hda Hex. unfold rename_entries, t_rename_entries.
  destruct (repr_entry_key _ _ (intxn_sees _ _ _ _ Hs) _ _ _ Hse) as (Hsrc & Hold & _).
  destruct (N.eqb_spec flags RenameExchange) as [Hf|Hf].
  { destruct (Hex Hf) as [da ->]. erewrite bind_run by reflexivity. cbv beta match.
    rewrite save_any_pair_run. eexists. split; [done|].
    apply intxn_save_attr. rewrite <- (put_entry_id se t) at 1 2 by congruence.
    apply intxn_save_entry; [congruence|done]. }
  assert (DeleteByKey (ToSerializer se) s = (Ok tt, supd (entry_key src oldName) None s)) as E1.
  { rewrite <- Hsrc, <- Hold. apply drop_entry_run. congruence. }
  erewrite bind_run by exact E1. cbv beta match.
  apply (intxn_upd (entry_key src oldName) None (del_entry src oldName)) in Hs as Hs1;
    [|done|apply tracks_del_entry].
  destruct (entries t !! (dst, newName)) as [de|] eqn:Ede.
  - destruct (proj2 Hda) as [da Eda]; [done|]. rewrite Eda.
    destruct (repr_entry_key _ _ (intxn_sees _ _ _ _ Hs) _ _ _ Ede) as (<- & <- & _).
    destruct (drop_dst_run de da _ _ _ Hs1 Hvn) as (s2 & E2 & Hs2).
    erewrite bind_run by (erewrite bind_run by reflexivity; exact E2). cbv beta match.
    rewrite save_entry_run by done. eexists. split; [done|]. by apply intxn_save_entry.
  - destruct (r_da st) as [da|]; [destruct (proj1 Hda); [by eexists|done]|].
    erewrite bind_run by reflexivity. cbv beta match.
    rewrite save_entry_run by done. eexists. split; [done|]. by apply intxn_save_entry.
Qed.

Lemma put_if_run (b : bool) a s t td :
  intxn s t t td ->
  exists s', (if b then DoSaveInKVPair (Some a) else ret tt) s = (Ok tt, s') /\
    let t' := if b then put_attr a t else t in intxn s' t' t' td.
Proof.
  intros Hs. destruct b; [|by eexists]. rewrite save_attr_run. eexists. split; [done|].
  by apply intxn_save_attr.
Qed.

Section save.
Context {C : Copier} `{!CopierSpec C}.

Lemma rename_save_run src dst newName st s t td :
  intxn s t t td ->
  exists s', rename_save src dst newName st s =
    (Ok (Some (r_sa st), renamed dst newName st,
         match r_da st with Some da => Inode da | None => 0%N end), s') /\
    let t' := t_rename_save src dst newName st t in intxn s' t' t' td.
Proof.
  intros Hs. unfold rename_save, t_rename_save.
  destruct (put_if_run (negb (dst =? src)%N && r_supdate st) (on_pb bump_epoch (r_spa st))
              _ _ _ Hs) as (s1 & E1 & Hs1).
  erewrite bind_run by exact E1. cbv beta match. unfold Clone. rewrite copier_clone_spec.
  apply (intxn_save_attr (renamed dst newName st)) in Hs1 as Hs2.
  destruct (put_if_run (r_dupdate st) (r_dpa st) _ _ _ Hs2) as (s3 & E3 & Hs3).
  destruct (r_da st) as [da|]; (erewrite bind_run by reflexivity); cbv beta match zeta;
    (erewrite bind_run by (apply save_any_attr_run)); cbv beta match;
    (erewrite bind_run by (exact E3)); cbv beta match; by eexists.
Qed.

Lemma exchange_dst_da src dst spa dpa sa da : is_Some (r_da (exchange_dst src dst spa dpa sa da)).
Proof. unfold exchange_dst. repeat case_match; by eexists. Qed.

Lemma t_replace_da t spa dpa sa da st : t_replace t spa dpa sa da = Ok st -> is_Some (r_da st).
Proof. unfold t_replace, ocheck. intros H. repeat case_match; simplify_eq; by eexists. Qed.

Lemma t_rename_dst_da ctx src dst flags now de spa dpa sa t st :
  t_rename_dst ctx src dst flags now de spa dpa sa t = Ok st ->
  (is_Some (r_da st) <-> is_Some de) /\ (flags = RenameExchange -> is_Some (r_da st)).
Proof.
  unfold t_rename_dst. destruct de as [de|].
  - intros [_ (da & _ & [_ (st' & Hst & [_ [= <-]]%ocheck_Ok)%obind_Ok]%ocheck_Ok)%obind_Ok]%ocheck_Ok.
    assert (is_Some (r_da st')) as Hda; [|by split; [split; eauto|]].
    destruct (flags =? RenameExchange)%N; [injection Hst as <-; apply exchange_dst_da|].
    by eapply t_replace_da.
  - intros [Hf [= <-]]%ocheck_Ok. apply N.eqb_neq in Hf. simpl.
    split; [split; by intros []|done].
Qed.

Lemma t_rename_load_entry ctx src dst oldName t se spa dpa sa :
  t_rename_load ctx src dst oldName t = Ok (se, spa, dpa, sa) ->
  entries t !! (src, oldName) = Some se.
Proof.
  unfold t_rename_load. intros (se' & Hse & H)%obind_Ok.
  assert (se' = se) as ->.
  { repeat first [apply obind_Ok in H as (? & _ & H) | apply ocheck_Ok in H as [_ H]].
    by injection H. }
  by destruct (entries t !! (src, oldName)); simplify_eq/=.
Qed.

(** How the transaction ends, for what the checks left. *)
Definition rename_end (src dst flags : N) (oldName newName : string) (t : tree)
    (o : outcome error (Entry * rename_state)) : result (option Attr * Attr * N) :=
  match o with
  | Ok (se, st) =>
      (Ok (Some (r_sa st), renamed dst newName st,
           match r_da st with Some da => Inode da | None => 0%N end),
       t_rename_save src dst newName st
         (t_rename_entries src dst flags oldName newName se st t))
  | Err e => (Err e, t)
  | Panic => (Panic, t)
  end.

Lemma rename_tail_ends ctx src dst oldName newName flags now se spa dpa sa de s t :
  intxn s t t t -> valid_name oldName -> valid_name newName ->
  entries t !! (src, oldName) = Some se -> entries t !! (dst, newName) = de ->
  txn_ends
    ((st <- rename_dst ctx src dst flags now de spa dpa sa ;;
      sticky_check ctx st ;;;
      rename_entries dst flags newName se de (rename_touch src dst now st) ;;;
      rename_save src dst newName (rename_touch src dst now st)) s)
    (rename_end src dst flags oldName newName t
      (st <~ t_rename_dst ctx src dst flags now de spa dpa sa t ;;
       _ <~ t_sticky ctx st ;; Ok (se, rename_touch src dst now st))).
Proof.
  intros Hs Hvo Hvn Hse <-. run_with rename_dst_run.
  destruct (t_rename_dst _ _ _ _ _ _ _ _ _ _) as [st|e|] eqn:Est; [|by apply txn_ends_same..].
  cbn [obind]. erewrite bind_run by apply sticky_run. cbv beta match.
  destruct (t_sticky ctx st) as [[]|e|]; [|by apply txn_ends_same..]. cbn [obind].
  apply t_rename_dst_da in Est as [Hda Hex]. unfold rename_end.
  set (st' := rename_touch src dst now st).
  destruct (rename_entries_run src dst flags oldName newName se st' s t) as (s1 & E1 & Hs1); [done..|].
  erewrite bind_run by exact E1. cbv beta match.
  destruct (rename_save_run src dst newName st' _ _ _ Hs1) as (s2 & E2 & Hs2).
  rewrite E2. by eapply txn_ends_ok.
Qed.

Lemma rename_txn_ends ctx src dst oldName newName flags now s t :
  intxn s t t t -> valid_name oldName -> valid_name newName ->
  txn_ends (rename_txn ctx src dst oldName newName flags now s)
    (rename_end src dst flags oldName newName t
       (t_rename_plan ctx src dst oldName newName flags now t)).
Proof.
  intros Hs Hvo Hvn. pose proof (intxn_sees _ _ _ _ Hs) as Hr.
  unfold rename_txn, t_rename_plan. run_with rename_load_run.
  destruct (t_rename_load ctx src dst oldName t) as [[[[se spa] dpa] sa]|e|] eqn:El;
    [|by apply txn_ends_same..].
  apply t_rename_load_entry in El. cbn [obind]. run_with get_entry_run.
  destruct (entries t !! (dst, newName)) as [de|] eqn:Ede; by apply rename_tail_ends.
Qed.

Lemma Rename_mem ctx src dst oldName newName flags now :
  valid_name oldName -> valid_name newName ->
  refines (Rename ctx src dst oldName newName flags now)
    (t_rename ctx src dst oldName newName flags now).
Proof.
  intros Hvo Hvn s t Hs. unfold Rename, t_rename. destruct (rename_flags flags); [done|].
  pose proof (DoInTxn_ends (rename_txn ctx src dst oldName newName flags now) s t _ Hs
    (fun s' Hs' => rename_txn_ends ctx src dst oldName newName flags now s' t Hs' Hvo Hvn)) as [E Hi].
  unfold ends, bind. destruct (DoInTxn _ s) as [r s']. simpl in E, Hi. subst r.
  by destruct (t_rename_plan _ _ _ _ _ _ _ _) as [[se st]|e|].
Qed.
End save.
