(* ===== verification/NodeSim.v ===== *)
(** The inode service does the same over any two stores one of which simulates
    the other: it uses the store only through the [Store] interface.  With the
    simulation of Badger.v this carries the theorems proved over the reference
    store to every badger that behaves as documented. *)
From stdpp Require Import prelude gmap strings list fin_maps.
From S2P Require Import Prelude Store Badger FileMode FreeList Attr NodeService Tree NodeRefine.

Section service_sim.
Context {S S' : Type} `{Store S, Store S'} (abs : S -> S') `{!StoreSim abs} {C : Copier}.

Definition abs_service (s : Service S) : Service S' :=
  MkService (abs (metaStore s)) (root s) (inoFreeList s).

Lemma sim_on_store {A} (m : M S error A) m' :
  sim abs m m' -> sim abs_service (on_store m) (on_store m').
Proof. intros Hm s. unfold on_store. simpl. rewrite Hm. by destruct (m (metaStore s)). Qed.

#[export] Instance service_sim : StoreSim abs_service.
Proof.
  split; intros; simpl; try (apply sim_on_store; auto with sim; fail).
  - unfold with_store, abs_service. simpl. by rewrite sim_Begin.
  - rewrite sim_Commit. by destruct (Commit (metaStore s)).
  - unfold with_store, abs_service. simpl. by rewrite sim_Rollback.
Qed.

(** ** State of the service itself *)

Lemma sim_modify_root a : sim (E := error) abs_service (modify (with_root a)) (modify (with_root a)).
Proof. done. Qed.
Lemma sim_gets_root : sim (E := error) abs_service (gets root) (gets root).
Proof. done. Qed.
Lemma sim_pure {A} (o : outcome error A) : sim abs_service (pure o) (pure o).
Proof. done. Qed.
Lemma sim_NewWith (m : M (Service S) error N) m' :
  sim abs_service m m' -> sim abs_service (NewWith inoFreeList with_freelist m)
    (NewWith inoFreeList with_freelist m').
Proof.
  intros Hm s. unfold NewWith. simpl. destruct (length (freelist (inoFreeList s))); [apply Hm|].
  by destruct (removeAt _ _) as [[]|].
Qed.

Ltac svc_sim :=
  repeat first
    [ progress solve_sim
    | apply sim_modify_root | apply sim_gets_root | apply sim_pure
    | apply sim_DoInTxn; [apply _|] ].

Lemma sim_init uid gid now : sim abs_service (init uid gid now) (init uid gid now).
Proof. unfold init. svc_sim. Qed.

(** ** Operations *)

Lemma sim_IfExistsInode i : sim abs_service (IfExistsInode i) (IfExistsInode i).
Proof. unfold IfExistsInode. svc_sim. Qed.
Lemma sim_status_of {A} (r : A + error) : sim abs_service (status_of r) (status_of r).
Proof. unfold status_of. svc_sim. Qed.
Hint Resolve sim_status_of : sim.
Lemma sim_GetInodeAttr i : sim abs_service (GetInodeAttr i) (GetInodeAttr i).
Proof. unfold GetInodeAttr. svc_sim. Qed.
Lemma sim_Lookup p n : sim abs_service (Lookup p n) (Lookup p n).
Proof. unfold Lookup. svc_sim. Qed.
Lemma sim_list_loop plus l : sim abs_service (list_loop plus l) (list_loop plus l).
Proof. induction l as [|[k e] l IH]; cbn [list_loop]; svc_sim. Qed.
Hint Resolve sim_list_loop : sim.
Lemma sim_ListItemUnderInode p plus :
  sim abs_service (ListItemUnderInode p plus) (ListItemUnderInode p plus).
Proof. unfold ListItemUnderInode. svc_sim. Qed.

Lemma sim_UpdateInodeAttr ctx i set req now :
  sim abs_service (UpdateInodeAttr ctx i set req now) (UpdateInodeAttr ctx i set req now).
Proof. unfold UpdateInodeAttr, get_or. svc_sim. Qed.
Lemma sim_or_internal {A} (m : M (Service S) error A) m' :
  sim abs_service m m' -> sim abs_service (or_internal m) (or_internal m').
Proof. intros Hm. unfold or_internal, get_or. svc_sim. Qed.
Lemma sim_or_wrapped {A} (m : M (Service S) error A) m' :
  sim abs_service m m' -> sim abs_service (or_wrapped m) (or_wrapped m').
Proof. intros Hm. unfold or_wrapped. svc_sim. Qed.
Lemma sim_or_enoent {A} (m : M (Service S) error A) m' :
  sim abs_service m m' -> sim abs_service (or_enoent m) (or_enoent m').
Proof. intros Hm. unfold or_enoent, get_or. svc_sim. Qed.
Hint Resolve sim_or_internal sim_or_wrapped sim_or_enoent : sim.

Lemma sim_DeleteInode p n now now' :
  sim abs_service (DeleteInode p n now now') (DeleteInode p n now now').
Proof. unfold DeleteInode. svc_sim. Qed.
Lemma sim_delete_children rec rec' l :
  (forall p n, sim abs_service (rec p n) (rec' p n)) ->
  sim abs_service (delete_children rec l) (delete_children rec' l).
Proof. intros Hrec. induction l as [|a l IH]; cbn [delete_children]; svc_sim. Qed.
Hint Resolve sim_delete_children : sim.
Lemma sim_doDeleteDir fuel p n : sim abs_service (doDeleteDir fuel p n) (doDeleteDir fuel p n).
Proof. revert p n. induction fuel as [|fuel IH]; intros p n; cbn [doDeleteDir]; svc_sim. Qed.
Hint Resolve sim_doDeleteDir : sim.
Lemma sim_DeleteDirInode fuel p n now :
  sim abs_service (DeleteDirInode fuel p n now) (DeleteDirInode fuel p n now).
Proof. unfold DeleteDirInode. svc_sim. Qed.
Lemma sim_newInode a pa b now : sim abs_service (newInode a pa b now) (newInode a pa b now).
Proof.
  unfold newInode, next_ino. apply sim_bind; [|intros; svc_sim].
  destruct b; [|svc_sim]. apply sim_bind; [apply sim_NewWith; svc_sim|intros; svc_sim].
Qed.
Hint Resolve sim_newInode : sim.
Lemma sim_CreateInode p n req now :
  sim abs_service (CreateInode p n req now) (CreateInode p n req now).
Proof. unfold CreateInode, get_or. svc_sim. Qed.
Lemma sim_Link i p n now : sim abs_service (Link i p n now) (Link i p n now).
Proof. unfold Link, get_or. svc_sim. Qed.

Lemma sim_rename_txn ctx src dst o n flags now :
  sim abs_service (rename_txn ctx src dst o n flags now) (rename_txn ctx src dst o n flags now).
Proof.
  unfold rename_txn, rename_load, rename_dst, replace_dst, sticky_check, rename_entries, drop_dst,
    rename_save, check, check_access. svc_sim.
Qed.
Hint Resolve sim_rename_txn : sim.
Lemma sim_Rename ctx src dst o n flags now :
  sim abs_service (Rename ctx src dst o n flags now) (Rename ctx src dst o n flags now).
Proof. unfold Rename. svc_sim. Qed.
End service_sim.

(** * Conforming badgers *)

Section implements.
Context {B : Badger} `{!BadgerSpec B}.

(** A service over [B], between requests, that holds the tree [t]. *)
Definition serves (s : Service (BadgerStore B)) (t : tree) : Prop :=
  idle (abs_service abs_store s) t.

(** An operation answers as [f] does and leaves the tree [f] leaves. *)
Definition implements {A} (m : M (Service (BadgerStore B)) error A) (f : tree -> result A) : Prop :=
  forall s t, serves s t -> (m s).1 = (f t).1 /\ serves (m s).2 (f t).2.

Lemma implements_refines {A} (m : M (Service (BadgerStore B)) error A) m' f :
  sim (abs_service abs_store) m m' -> refines m' f -> implements m f.
Proof.
  intros Hsim Href s t Hs. destruct (Href _ _ Hs) as [E Hi]. rewrite Hsim in E, Hi.
  by destruct (m s).
Qed.
End implements.
