(* ===== verification/NodeRmdir.v ===== *)
(** Removing a directory (src/pkg/meta/inode/service.go:403-484): the recursion
    never goes below the first level, and each call commits on its own. *)
From stdpp Require Import prelude gmap strings list fin_maps.
From S2P Require Import Prelude Store Badger FileMode FreeList Attr NodeService Tree NodeRefine.
From S2P Require Import NodeRename NodeSim.

#[local] Hint Resolve intxn_sees idle_sees : core.

(** * Deleting many keys *)

Lemma BatchDelete_run b l (s : svc) :
  Forall (fun k => k <> ""%string) l ->
  BatchDeleteByKey b l s = (Ok tt, supds (key_delete <$> l) s).
Proof.
  intros Hl. simpl. unfold on_store. pose proof (BatchDeleteByKey_mem b l (metaStore s) Hl) as Hb.
  simpl in Hb. by rewrite Hb.
Qed.

Lemma idle_deletes {A} (key : A -> string) (f : A -> tree -> tree) l s t :
  (forall x, tracks (key x) None (f x)) ->
  idle s t -> idle (supds ((fun x => (key x, None)) <$> l) s) (foldl (fun t x => f x t) t l).
Proof.
  intros Hf. revert s t. induction l as [|x l IH]; intros s t Hs; simpl; [by destruct s|].
  apply (IH (supd (key x) None s)). by apply idle_upd.
Qed.

Lemma foldl_del_entry (l : list (N * string)) t :
  foldl (fun t x => del_entry x.1 x.2 t) t l =
  MkTree (attrs t) (filter (fun x => x.1 ∉ l) (entries t)) (next t).
Proof.
  revert t. induction l as [|[p n] l IH]; intros t; simpl.
  - destruct t as [a e k]. simpl. f_equal. symmetry. apply map_filter_id. intros. apply not_elem_of_nil.
  - rewrite IH. simpl. f_equal. apply map_eq. intros k. apply option_eq. intros e.
    rewrite !map_lookup_filter_Some, lookup_delete_Some. simpl. rewrite not_elem_of_cons. split; intros; destruct_and?; split_and?; congruence || auto.
Qed.

Lemma foldl_del_attr (l : list N) t :
  foldl (fun t x => del_attr x t) t l =
  MkTree (filter (fun x => x.1 ∉ l) (attrs t)) (entries t) (next t).
Proof.
  revert t. induction l as [|i l IH]; intros t; simpl.
  - destruct t as [a e k]. simpl. f_equal. symmetry. apply map_filter_id. intros. apply not_elem_of_nil.
  - rewrite IH. simpl. f_equal. apply map_eq. intros k. apply option_eq. intros e.
    rewrite !map_lookup_filter_Some, lookup_delete_Some. simpl. rewrite not_elem_of_cons. split; intros; destruct_and?; split_and?; congruence || auto.
Qed.

Lemma delete_entries_run (l : list Entry) s t :
  idle s t ->
  exists s', DoBatchDeleteStrictly l s = (Ok tt, s') /\
    idle s' (foldl (fun t x => del_entry x.1 x.2 t) t ((fun e => (e_ParentIno e, e_Name e)) <$> l)).
Proof.
  intros Hs. unfold DoBatchDeleteStrictly. rewrite BatchDelete_run.
  - eexists. split; [done|]. rewrite <- list_fmap_compose.
    apply (idle_deletes (fun x => entry_key x.1 x.2) (fun x => del_entry x.1 x.2)
      ((fun e => (e_ParentIno e, e_Name e)) <$> l)) in Hs; [|intros; apply tracks_del_entry].
    by rewrite <- list_fmap_compose in Hs.
  - apply Forall_fmap, Forall_true. done.
Qed.

Lemma delete_attrs_run (l : list Attr) s t :
  idle s t ->
  exists s', DoBatchDeleteStrictly l s = (Ok tt, s') /\
    idle s' (foldl (fun t x => del_attr x t) t ((fun a : Attr => Inode a) <$> l)).
Proof.
  intros Hs. unfold DoBatchDeleteStrictly. rewrite BatchDelete_run.
  - eexists. split; [done|]. rewrite <- list_fmap_compose.
    apply (idle_deletes attr_key del_attr ((fun a : Attr => Inode a) <$> l)) in Hs;
      [|intros; apply tracks_del_attr].
    by rewrite <- list_fmap_compose in Hs.
  - apply Forall_fmap, Forall_true. done.
Qed.

(** * The loop over the children *)

(** The children are built with mode 0, so none of them is a directory. *)
Lemma delete_children_flat {S} `{Store S} (rec : N -> string -> M (Service S) error unit) l s :
  delete_children rec ((fun e => Attr_of_ino (e_Ino e)) <$> l) s = (Ok tt, s).
Proof. induction l as [|i l IH]; [done|]. cbn [fmap list_fmap delete_children]. by erewrite bind_run by reflexivity. Qed.

Definition children (d : N) (t : tree) : list Entry := (map_to_list (dir_map d t)).*2.

Lemma children_dir d t : children d t ≡ₚ (fun x : N * string * Entry => x.2) <$> dir d t.
Proof.
  unfold children, dir_map. rewrite map_to_list_to_map by apply dir_keys_NoDup.
  by rewrite <- list_fmap_compose.
Qed.

Lemma elem_of_children_key d t s k :
  repr (sview s) t ->
  k ∈ (fun e => (e_ParentIno e, e_Name e)) <$> children d t <->
  k.1 = d /\ is_Some (entries t !! k).
Proof.
  intros Hr. rewrite children_dir, <- list_fmap_compose, list_elem_of_fmap. split.
  - intros ([[p n] e] & -> & [Hp He]%elem_of_dir). simpl in *.
    apply (repr_entry_key _ _ Hr) in He as Hk. destruct Hk as (-> & -> & _). eauto.
  - intros [Hp [e He]]. destruct k as [p n]. exists ((p, n), e). split; [|by apply elem_of_dir].
    apply (repr_entry_key _ _ Hr) in He as (Hk1 & Hk2 & _). simpl. congruence.
Qed.

Lemma remove_tree parent name d t s :
  repr (sview s) t ->
  foldl (fun t x => del_attr x t)
    (foldl (fun t x => del_entry x.1 x.2 t) t
       (((fun e => (e_ParentIno e, e_Name e)) <$> children d t) ++ [(parent, name)]))
    ((e_Ino <$> children d t) ++ [d]) = t_remove parent name d t.
Proof.
  intros Hr. rewrite foldl_del_entry, foldl_del_attr. unfold t_remove. simpl. f_equal.
  - apply map_filter_ext. intros i a _. simpl.
    rewrite not_elem_of_app, list_elem_of_singleton. rewrite children_dir, <- list_fmap_compose. tauto.
  - apply map_filter_ext. intros k e He. simpl.
    rewrite not_elem_of_app, list_elem_of_singleton, (elem_of_children_key _ _ _ _ Hr).
    assert (is_Some (entries t !! k)) by eauto. tauto.
Qed.

Lemma doDeleteDir_run fuel parent name e s t :
  idle s t -> valid_name name -> entries t !! (parent, name) = Some e ->
  exists s', doDeleteDir (Datatypes.S fuel) parent name s =
    (if e_IsFile e then Err (Status InvalidArgument) else Ok tt, s') /\
    idle s' (if e_IsFile e then t else t_remove parent name (e_Ino e) t).
Proof.
  intros Hs Hv He. cbn [doDeleteDir]. run_with get_entry_run. rewrite He. cbv beta match.
  destruct (e_IsFile e); [by eexists|]. run_with GetValuesByPrefix_run. cbv zeta.
  fold (children (e_Ino e) t).
  erewrite bind_run by apply delete_children_flat. cbv beta match.
  destruct (delete_entries_run (children (e_Ino e) t ++ [e]) _ _ Hs) as (s1 & E1 & Hs1).
  erewrite bind_run by exact E1. cbv beta match.
  destruct (delete_attrs_run (((fun e => Attr_of_ino (e_Ino e)) <$> children (e_Ino e) t) ++ [Attr_of_ino (e_Ino e)])
    _ _ Hs1) as (s2 & E2 & Hs2).
  rewrite E2. exists s2. split; [done|].
  rewrite <- (remove_tree _ _ _ _ s) by eauto.
  rewrite !fmap_app, <- !list_fmap_compose in Hs2. simpl in Hs2.
  destruct (repr_entry_key _ _ (idle_sees _ _ Hs) _ _ _ He) as (Hp & Hn & _).
  rewrite Hp, Hn in Hs2. exact Hs2.
Qed.

Lemma DeleteDirInode_mem fuel parent name now :
  valid_name name -> refines (DeleteDirInode (Datatypes.S fuel) parent name now) (t_rmdir parent name now).
Proof.
  intros Hv s t Hs. unfold DeleteDirInode, t_rmdir. run_with or_internal_get_attr.
  destruct (attrs t !! parent) as [pa|] eqn:Ep; [|done]. run_with get_entry_run.
  destruct (entries t !! (parent, name)) as [e|] eqn:Ee; [|done].
  erewrite bind_run by reflexivity. cbv beta match.
  destruct (doDeleteDir_run fuel _ _ _ _ _ Hs Hv Ee) as (s1 & E1 & Hs1).
  erewrite bind_run by exact E1. cbv beta match. destruct (e_IsFile e); [done|].
  erewrite or_internal_ok by apply save_attr_run. split; [done|].
  by apply idle_upd; [apply tracks_put_attr|].
Qed.
