(* ===== verification/NodeTheorems.v ===== *)
(** The theorems of the inode service, for every badger that behaves as
    documented: each request answers and changes the tree as Tree.v says, and
    every tree a service can reach satisfies the invariant of TreeInv.v. *)
From stdpp Require Import prelude gmap strings list fin_maps.
From S2P Require Import Prelude Store Badger FileMode FreeList Attr NodeService Tree TreeInv.
From S2P Require Import NodeRefine NodeRename NodeSim.

(** * Start-up *)

Definition empty_store : mem_store := @MkBadgerStore MemBadger (∅ : kvmap) None.

Definition root_tree (uid gid : N) (now : Time) : tree :=
  MkTree {[1%N := root_attr uid gid now]} ∅ 1.

Lemma root_tree_inv uid gid now : tree_inv (root_tree uid gid now).
Proof.
  split.
  - assert (shape (root_tree uid gid now) = {[1%N := (true, 2%N)]}) as ->.
    { unfold shape, root_tree. simpl. by rewrite map_fmap_singleton. }
    split; simpl.
    + eexists. apply lookup_singleton_eq.
    + intros i x [<- _]%lookup_singleton_Some. lia.
    + intros p n e. by rewrite lookup_empty.
    + intros i k [_ [=]]%lookup_singleton_Some.
    + by intros i k [<- [= <-]]%lookup_singleton_Some.
    + by intros i d k [_ [= <- <-]]%lookup_singleton_Some.
  - intros i a. cbn [attrs root_tree]. by intros [<- <-]%lookup_singleton_Some.
Qed.

Lemma root_repr uid gid now :
  repr (<[attr_key 1 := attr_blob (root_attr uid gid now)]> (<[InoKey := BSeq 1]> ∅))
    (root_tree uid gid now).
Proof.
  split; simpl.
  - intros ino. destruct (decide (ino = 1%N)) as [->|Hne].
    + by rewrite lookup_insert_eq, lookup_singleton_eq.
    + rewrite lookup_insert_ne by (intros ?%attr_key_inj; congruence).
      by rewrite lookup_insert_ne, lookup_empty, lookup_singleton_ne by done.
  - intros p n. by rewrite !lookup_insert_ne, !lookup_empty by done.
  - by rewrite lookup_insert_ne, lookup_insert_eq by done.
  - intros ino a. by intros [<- <-]%lookup_singleton_Some.
  - intros p n e. by rewrite lookup_empty.
Qed.

Lemma NewService_empty_mem uid gid now :
  let p := NewService uid gid now empty_store in
  p.1 = Ok tt /\ idle p.2 (root_tree uid gid now) /\ root p.2 = Some (root_attr uid gid now).
Proof.
  cbv zeta. set (s0 := MkService empty_store None NewFreeListUnboundG).
  unfold NewService, init. fold s0.
  erewrite catch_run.
  2:{ unfold newAttr. rewrite GetValueByKey_run by (apply plain_attr_key || apply attr_key_ne_prefix).
      unfold sview, view. simpl. rewrite lookup_empty. reflexivity. }
  cbv beta match. rewrite bool_decide_true by done.
  erewrite bind_run by reflexivity. cbv beta match.
  erewrite bind_run by reflexivity. cbv beta match.
  rewrite save_attr_run. split; [done|]. split; [|done]. split; [done|].
  pose proof (root_repr uid gid now) as Hr.
  split; unfold sview, scommitted, sdb, view, committed; simpl; try done;
    unfold InoKey in *; rewrite apply_writes_singleton; exact Hr.
Qed.

(** * The requests *)

Section requests.
Context {B : Badger} `{!BadgerSpec B} {C : Copier} `{!CopierSpec C}.
Abbreviation service := (Service (BadgerStore B)).

Lemma NewService_fresh_run uid gid now (m : BadgerStore B) :
  abs_DB (DB m) = (∅ : kvmap) -> ctxTxn m = None ->
  let p := NewService uid gid now m in
  p.1 = Ok tt /\ serves p.2 (root_tree uid gid now) /\ root p.2 = Some (root_attr uid gid now).
Proof.
  intros Hdb Htxn. cbv zeta. pose proof (NewService_empty_mem uid gid now) as (E1 & E2 & E3).
  pose proof (sim_init abs_store uid gid now (MkService m None NewFreeListUnboundG)) as Hsim.
  assert (abs_service abs_store (MkService m None NewFreeListUnboundG) =
          MkService empty_store None NewFreeListUnboundG) as Habs.
  { unfold abs_service, abs_store. simpl. by rewrite Hdb, Htxn. }
  rewrite Habs in Hsim. unfold NewService in *. rewrite Hsim in E1, E2, E3.
  by destruct (init uid gid now _) as [r s'].
Qed.

(** On an empty database [NewService] succeeds, the service holds the tree
    that has only the root directory, the cached root is that node, and the tree
    satisfies the invariant. *)
Theorem NewService_fresh uid gid now (m : BadgerStore B) :
  abs_DB (DB m) = (∅ : kvmap) -> ctxTxn m = None ->
  let p := NewService uid gid now m in
  p.1 = Ok tt /\ serves p.2 (root_tree uid gid now) /\
  root p.2 = Some (root_attr uid gid now) /\ tree_inv (root_tree uid gid now).
Proof.
  intros Hdb Htxn. destruct (NewService_fresh_run uid gid now m Hdb Htxn) as (E & Hs & Hr).
  split_and!; try done. apply root_tree_inv.
Qed.

(** C10 [CreateInode] does what [t_create] says on every tree: the checks in their
    order with their errors, and on success the new node, its entry and the
    updated parent, the inode number taken from the counter. *)
Theorem CreateInode_implements parent name req now :
  valid_name name ->
  implements (CreateInode parent name (Some req) now) (t_create parent name req now).
Proof.
  intros Hv. eapply implements_refines; [apply sim_CreateInode; apply _|]. by apply CreateInode_mem.
Qed.

(** [Link] does what [t_link] says: the target gets one more link, the parent
    new times, and the new entry leads to the target's inode. *)
Theorem Link_implements ino parent name now :
  valid_name name -> implements (Link ino parent name now) (t_link ino parent name now).
Proof. intros Hv. eapply implements_refines; [apply sim_Link; apply _|]. by apply Link_mem. Qed.

(** C12 [DeleteInode] does what [t_unlink] says: the entry goes, and its node loses
    a link or, with the last one, goes too. *)
Theorem DeleteInode_implements parent name now now' :
  valid_name name -> name <> "."%string -> name <> ".."%string ->
  implements (DeleteInode parent name now now') (t_unlink parent name now now').
Proof.
  intros. eapply implements_refines; [apply sim_DeleteInode; apply _|]. by apply DeleteInode_mem.
Qed.

(** [UpdateInodeAttr] saves what [updated_attr] computes from the stored node, and
    nothing when that fails; what it computes is said field by field in
    [NodeSetattr]. *)
Theorem UpdateInodeAttr_implements ctx ino set req now :
  implements (UpdateInodeAttr ctx ino set req now) (t_update ctx ino set req now).
Proof. eapply implements_refines; [apply sim_UpdateInodeAttr; apply _|]. apply UpdateInodeAttr_mem. Qed.

(** C11 [Rename] does what [t_rename] says on every tree and for every flag: the
    checks in their order with their errors (or the nil dereference of the sticky
    test), then the writes of the plan. *)
Theorem Rename_implements ctx src dst oldName newName flags now :
  valid_name oldName -> valid_name newName ->
  implements (Rename ctx src dst oldName newName flags now)
    (t_rename ctx src dst oldName newName flags now).
Proof. intros. eapply implements_refines; [apply sim_Rename; apply _|]. by apply Rename_mem. Qed.

(** [Lookup] of a name other than the root's dot entries finds the node its
    entry leads to, and reports [NotFound] when either is missing. *)
Theorem Lookup_implements parent name :
  parent <> 0%N -> valid_name name -> ~ (parent = 1%N /\ (name = "." \/ name = "..")%string) ->
  implements (Lookup parent name) (t_lookup parent name).
Proof. intros. eapply implements_refines; [apply sim_Lookup; apply _|]. by apply Lookup_mem. Qed.

(** [ListItemUnderInode] returns, in some order, exactly one item per entry of
    the directory, with its name, inode, mode and (in plus mode, when every entry
    has its node) attributes. *)
Theorem ListItemUnderInode_exact p plus (s : service) t :
  serves s t ->
  (plus = true -> forall n e, entries t !! (p, n) = Some e -> is_Some (attrs t !! e_Ino e)) ->
  exists items, (ListItemUnderInode p plus s).1 = Ok items /\ items ≡ₚ t_list p plus t /\
    serves (ListItemUnderInode p plus s).2 t.
Proof.
  intros Hs Hp. destruct (ListItemUnderInode_mem p plus _ t Hs Hp) as (items & E & Hi).
  rewrite (sim_ListItemUnderInode abs_store) in E. exists items. unfold serves.
  destruct (ListItemUnderInode p plus s) as [r s']. apply pair_equal_spec in E as [E1 E2].
  unfold id in *. cbn [fst snd] in *. by rewrite E1, E2.
Qed.

(** ** Sequences of requests *)

(** The service and the tree after some requests, starting from an empty
    database.  A request may fail; the side conditions are those under which the
    link counts and the counter stay within their widths, a mode keeps the
    directory bit, and a rename goes to a free name and does not take a
    directory out of itself. *)
Inductive reachable : service -> tree -> Prop :=
| reach_new uid gid now (m : BadgerStore B) :
    abs_DB (DB m) = (∅ : kvmap) -> ctxTxn m = None ->
    reachable (NewService uid gid now m).2 (root_tree uid gid now)
| reach_create s t parent name req now :
    reachable s t -> valid_name name -> (next t + 1 < 2 ^ 64)%N ->
    (forall pa : Attr, attrs t !! parent = Some pa -> Nlink pa + 1 < 2 ^ 32)%N ->
    reachable (CreateInode parent name (Some req) now s).2 (t_create parent name req now t).2
| reach_link s t ino parent name now :
    reachable s t -> valid_name name ->
    (forall a : Attr, attrs t !! ino = Some a -> Nlink a + 1 < 2 ^ 32)%N ->
    reachable (Link ino parent name now s).2 (t_link ino parent name now t).2
| reach_unlink s t parent name now now' :
    reachable s t -> valid_name name -> name <> "."%string -> name <> ".."%string ->
    reachable (DeleteInode parent name now now' s).2 (t_unlink parent name now now' t).2
| reach_update s t ctx ino set req now :
    reachable s t -> (forall d : Attr, attrs t !! ino = Some d -> keeps_kind d req) ->
    reachable (UpdateInodeAttr ctx ino set req now s).2 (t_update ctx ino set req now t).2
| reach_rename s t ctx src dst oldName newName flags now :
    reachable s t -> valid_name oldName -> valid_name newName ->
    entries t !! (dst, newName) = None ->
    (forall se, entries t !! (src, oldName) = Some se -> e_Ino se <> src) ->
    (forall dpa : Attr, attrs t !! dst = Some dpa -> Nlink dpa + 1 < 2 ^ 32)%N ->
    reachable (Rename ctx src dst oldName newName flags now s).2
      (t_rename ctx src dst oldName newName flags now t).2.

(** C1 Starting from an empty database, every tree that a service reaches by creating,
    linking, unlinking, updating and renaming (failed requests included) is a proper
    directory tree: each entry leads to a node of its kind inside an existing
    directory, link counts are exact, and directories have one name.  The requests
    are restricted as [reachable] says: names are valid, and not a dot name when
    something is unlinked; inode numbers and link counts stay within their widths; an
    update is of a node without set-ID bits, and a mode it has keeps the directory
    bit and does not have 02000; a rename goes to a name that is free, and the entry
    it takes does not lead to the directory that has it. *)
Theorem reachable_tree_inv s t : reachable s t -> serves s t /\ tree_inv t.
Proof.
  induction 1 as [uid gid now m Hdb Htxn|s t parent name req now _ [Hs Ht]|s t ino parent name now _ [Hs Ht]
    |s t parent name now now' _ [Hs Ht]|s t ctx ino set req now _ [Hs Ht]
    |s t ctx src dst oldName newName flags now _ [Hs Ht]]; split.
  - by apply NewService_fresh_run.
  - apply root_tree_inv.
  - apply (implements_refines _ _ _ (sim_CreateInode abs_store parent name (Some req) now)
      (CreateInode_mem parent name req now ltac:(done)) _ _ Hs).
  - by apply t_create_inv.
  - apply (implements_refines _ _ _ (sim_Link abs_store ino parent name now)
      (Link_mem ino parent name now ltac:(done)) _ _ Hs).
  - by apply t_link_inv.
  - apply (implements_refines _ _ _ (sim_DeleteInode abs_store parent name now now')
      (DeleteInode_mem parent name now now' ltac:(done) ltac:(done) ltac:(done)) _ _ Hs).
  - by apply t_unlink_inv.
  - apply (implements_refines _ _ _ (sim_UpdateInodeAttr abs_store ctx ino set req now)
      (UpdateInodeAttr_mem ctx ino set req now) _ _ Hs).
  - by apply t_update_inv.
  - apply (implements_refines _ _ _ (sim_Rename abs_store ctx src dst oldName newName flags now)
      (Rename_mem ctx src dst oldName newName flags now ltac:(done) ltac:(done)) _ _ Hs).
  - by apply t_rename_free_inv.
Qed.

Lemma t_create_lookup parent name req now t a :
  (t_create parent name req now t).1 = Ok a ->
  (t_lookup parent name (t_create parent name req now t).2).1 = Ok a.
Proof.
  unfold t_create. destruct (attrs t !! parent) as [pa|]; [|done].
  destruct (negb (IsDir pa)); [done|]. destruct (has_bits (Flags pa) FlagImmutable); [done|].
  destruct (t_taken parent name t); [done|]. intros [= <-]. unfold t_lookup. simpl.
  rewrite lookup_insert_eq. simpl. by rewrite new_kind_Inode, lookup_insert_eq.
Qed.

(** A successful [CreateInode] is visible at once: looking the name up returns
    the attributes the creation returned. *)
Theorem create_then_lookup parent name req now (s : service) t a :
  serves s t -> valid_name name -> parent <> 0%N ->
  ~ (parent = 1%N /\ (name = "." \/ name = "..")%string) ->
  (CreateInode parent name (Some req) now s).1 = Ok a ->
  (Lookup parent name (CreateInode parent name (Some req) now s).2).1 = Ok a.
Proof.
  intros Hs Hv Hp Hdot Ha.
  destruct (implements_refines _ _ _ (sim_CreateInode abs_store parent name (Some req) now)
      (CreateInode_mem parent name req now Hv) _ _ Hs) as [E Hs'].
  destruct (implements_refines _ _ _ (sim_Lookup abs_store parent name)
      (Lookup_mem parent name Hp Hv Hdot) _ _ Hs') as [-> _].
  apply t_create_lookup. by rewrite <- E.
Qed.

(** On a tree that satisfies the invariant a plus-mode listing succeeds: every
    entry has its node, so there is one item with attributes per entry. *)
Theorem list_plus_complete p (s : service) t :
  serves s t -> tree_inv t ->
  exists items, (ListItemUnderInode p true s).1 = Ok items /\ items ≡ₚ t_list p true t /\
    Forall (fun i => is_Some (i_Attr i)) items.
Proof.
  intros Hs [Hinv _].
  assert (forall q n e, entries t !! (q, n) = Some e -> is_Some (attrs t !! e_Ino e)) as Hres.
  { intros q n e [_ [k Hk]]%(inv_entry _ _ _ Hinv). apply shape_lookup in Hk as (a & -> & _). eauto. }
  destruct (ListItemUnderInode_mem p true _ t Hs) as (items & E & Hi); [eauto|].
  rewrite (sim_ListItemUnderInode abs_store) in E. exists items.
  apply (f_equal fst) in E. simpl in E. split_and!; [done|done|].
  rewrite Hi. apply Forall_fmap, Forall_forall. intros [[q n] e] [_ He]%elem_of_dir.
  simpl in *. destruct (Hres _ _ _ He) as [a ->]. by eexists.
Qed.
End requests.

(** * Concrete runs *)

Lemma serves_mem (s : svc) t : idle s t -> serves s t.
Proof. by destruct s as [[d [x|]] r f]. Qed.

Definition now0 : Time := {| Unix := 1700000000; Nanosecond := 5 |}.
Definition no_attr : ModifyAttr :=
  MkModifyAttr None None None None None None None None None None None None None None.
Definition file_req : ModifyAttr := set_m_Mode 420 no_attr. (* 0644 *)
Definition dir_req : ModifyAttr := set_m_Mode (ModeDir + 493) no_attr. (* 0755 *)
Definition s0 : svc := (NewService 0 0 now0 empty_store).2.
Definition t0 : tree := root_tree 0 0 now0.

Lemma s0_serves : serves s0 t0.
Proof. apply serves_mem, NewService_empty_mem. Qed.

Lemma NewService_fresh_witness :
  (NewService 0 0 now0 empty_store).1 = Ok tt /\ serves s0 t0.
Proof.
  destruct (NewService_fresh (B := MemBadger) (BadgerSpec0 := MemBadger_spec) 0 0 now0 empty_store
    ltac:(reflexivity) ltac:(reflexivity)) as (E & Hs & _).
  split; [exact E|exact Hs].
Defined.

Lemma CreateInode_implements_witness :
  (CreateInode 1 "a" (Some file_req) now0 s0).1 = Ok (pb (created 1 "a" file_req now0 2)).
Proof.
  destruct (CreateInode_implements (B := MemBadger) 1 "a" file_req now0
    ltac:(split; [discriminate|reflexivity]) s0 t0 s0_serves) as [E _].
  rewrite E. vm_compute. reflexivity.
Defined.

Definition s1 : svc := (CreateInode 1 "a" (Some file_req) now0 s0).2.
Definition t1 : tree := (t_create 1 "a" file_req now0 t0).2.

Lemma name_a : valid_name "a".
Proof. split; [discriminate|reflexivity]. Qed.
Lemma name_b : valid_name "b".
Proof. split; [discriminate|reflexivity]. Qed.
Lemma t0_inv : tree_inv t0.
Proof. apply root_tree_inv. Qed.

Lemma s1_serves : serves s1 t1.
Proof. apply serves_mem, CreateInode_mem; [apply name_a|]. apply NewService_empty_mem. Qed.
Lemma t1_inv : tree_inv t1.
Proof.
  apply t_create_inv; [apply t0_inv|vm_compute; reflexivity|].
  intros pa. unfold t0. cbn [attrs root_tree]. intros [_ <-]%lookup_singleton_Some.
  vm_compute. reflexivity.
Qed.

Lemma Link_implements_witness : exists a, (Link 2 1 "b" now0 s1).1 = Ok a /\ Nlink a = 2%N.
Proof.
  destruct (Link_implements (B := MemBadger) 2 1 "b" now0 name_b s1 t1 s1_serves) as [E _].
  eexists. split; [rewrite E; vm_compute; reflexivity|reflexivity].
Defined.

Lemma DeleteInode_implements_witness : (DeleteInode 1 "a" now0 now0 s1).1 = Ok tt.
Proof.
  destruct (DeleteInode_implements (B := MemBadger) 1 "a" now0 now0 name_a
    ltac:(discriminate) ltac:(discriminate) s1 t1 s1_serves) as [E _].
  rewrite E. vm_compute. reflexivity.
Defined.

Lemma Rename_implements_witness :
  is_ok (Rename {| ctx_Uid := 0; ctx_Gid := 0 |} 1 1 "a" "b" 0 now0 s1).1 = true.
Proof.
  destruct (Rename_implements (B := MemBadger) {| ctx_Uid := 0; ctx_Gid := 0 |} 1 1 "a" "b" 0 now0
    name_a name_b s1 t1 s1_serves) as [E _].
  rewrite E. vm_compute. reflexivity.
Defined.

Lemma not_dot_a : ~ (1%N = 1%N /\ ("a" = "." \/ "a" = "..")%string).
Proof. by intros [_ [|]]. Qed.

Lemma Lookup_implements_witness :
  (Lookup 1 "a" s1).1 = Ok (pb (created 1 "a" file_req now0 2)).
Proof.
  destruct (Lookup_implements (B := MemBadger) 1 "a" ltac:(discriminate) name_a not_dot_a
    s1 t1 s1_serves) as [E _].
  rewrite E. vm_compute. reflexivity.
Defined.

Lemma ListItemUnderInode_exact_witness :
  (ListItemUnderInode 1 false s1).1 = Ok [MkItem 2 "a" 420 None].
Proof.
  destruct (ListItemUnderInode_exact (B := MemBadger) 1 false s1 t1 s1_serves ltac:(discriminate))
    as (items & E & Hp & _).
  rewrite E. f_equal. apply Permutation_singleton_r. rewrite Hp. vm_compute. reflexivity.
Defined.

Lemma s0_reachable : reachable (B := MemBadger) s0 t0.
Proof. by apply reach_new. Qed.

Lemma reachable_tree_inv_witness :
  exists t, serves (B := MemBadger) (DeleteInode 1 "a" now0 now0 s0).2 t /\ tree_inv t.
Proof.
  eexists. apply (reachable_tree_inv (B := MemBadger)).
  apply reach_unlink; [apply s0_reachable|apply name_a|discriminate|discriminate].
Defined.

Lemma create_then_lookup_witness :
  (Lookup 1 "b" (CreateInode 1 "b" (Some dir_req) now0 s1).2).1 =
  Ok (pb (created 1 "b" dir_req now0 3)).
Proof.
  apply (create_then_lookup (B := MemBadger) 1 "b" dir_req now0 s1 t1 _ s1_serves name_b).
  - discriminate.
  - by intros [_ [|]].
  - vm_compute. reflexivity.
Defined.

Lemma list_plus_complete_witness :
  exists items, (ListItemUnderInode 1 true s1).1 = Ok items /\ length items = 1%nat.
Proof.
  destruct (list_plus_complete (B := MemBadger) 1 s1 t1 s1_serves t1_inv) as (items & E & Hp & _).
  exists items. split; [exact E|]. rewrite Hp. vm_compute. reflexivity.
Defined.
