(* ===== verification/NodeBehaviour.v ===== *)
(** Consequences of the refinement for particular requests: who may change
    ownership, when clients see a new epoch, and the cases where the service
    departs from what a file system promises (exchange, hard links, replaced and
    removed directories, locks). *)
From Stdlib Require Import Ascii.
From stdpp Require Import prelude gmap strings list fin_maps.
From S2P Require Import Prelude Store Badger FileMode FreeList Attr NodeService Tree TreeInv.
From S2P Require Import NodeRefine NodeRename NodeSim NodeRmdir NodeTheorems.

(** * Changing attributes *)

(** Ownership relative to the node as stored: only root changes the owner, only
    root or the owner the group. *)
Definition owner_kept (ctx : FuseContext) (d0 d : Attr) : Prop :=
  (Uid d = Uid d0 \/ ctx_Uid ctx = 0%N) /\
  (Gid d = Gid d0 \/ ctx_Uid ctx = 0%N \/ ctx_Uid ctx = Uid d0).

Section steps.
Context (ctx : FuseContext) (set : N) (now : Time) (d0 : Attr).

Lemma clearSUGID_owner d req p :
  clearSUGID ctx d req = Ok p -> Uid p.1 = Uid d /\ Gid p.1 = Gid d.
Proof.
  unfold clearSUGID. destruct (IsDir d); [by intros [= <-]|].
  intros (r & _ & (m & _ & [= <-])%obind_Ok)%obind_Ok. done.
Qed.

Lemma upd_sugid_owner (d : Attr) req b (d' : Attr) req' b' :
  upd_sugid ctx set (d, req, b) = Ok (d', req', b') -> Uid d' = Uid d /\ Gid d' = Gid d.
Proof.
  unfold upd_sugid. intros H.
  destruct (set_has set (N.lor SetAttrUID SetAttrGID) && set_has set SetAttrMode); upd_cases; auto;
    match goal with E : clearSUGID _ _ _ = Ok _ |- _ => apply clearSUGID_owner in E; simpl in E end; done.
Qed.
Lemma upd_gid_owner (d : Attr) req b (d' : Attr) req' b' :
  upd_gid ctx set (d, req, b) = Ok (d', req', b') ->
  Uid d' = Uid d /\ (Gid d' = Gid d \/ ctx_Uid ctx = 0%N \/ ctx_Uid ctx = Uid d).
Proof.
  unfold upd_gid. intros H. upd_cases; auto. split; [done|]. right.
  match goal with E : negb _ && negb _ = false |- _ => apply andb_false_iff in E as [E|E] end;
    match goal with E : negb _ = false |- _ => apply negb_false_iff, N.eqb_eq in E end; auto.
Qed.
Lemma upd_uid_owner (d : Attr) req b (d' : Attr) req' b' :
  upd_uid ctx set (d, req, b) = Ok (d', req', b') ->
  (Uid d' = Uid d \/ ctx_Uid ctx = 0%N) /\ Gid d' = Gid d.
Proof.
  unfold upd_uid. intros H. upd_cases; auto.
  match goal with E : negb (ctx_Uid ctx =? 0)%N = false |- _ => apply negb_false_iff, N.eqb_eq in E end.
  auto.
Qed.
Lemma upd_rest_owner (d : Attr) req b (d' : Attr) req' b' :
  upd_mode ctx set (d, req, b) = Ok (d', req', b') \/
  upd_atime ctx set now (d, req, b) = Ok (d', req', b') \/
  upd_mtime ctx set now (d, req, b) = Ok (d', req', b') \/
  upd_flags set (d, req, b) = Ok (d', req', b') \/
  upd_size set now (d, req, b) = Ok (d', req', b') -> Uid d' = Uid d /\ Gid d' = Gid d.
Proof.
  unfold upd_mode, upd_atime, upd_mtime, upd_flags, upd_size.
  intros [H|[H|[H|[H|H]]]]; upd_cases; done.
Qed.
End steps.

(** Whatever a request asks for, [UpdateInodeAttr] computes attributes in which
    the owner changed only for root, and the group only for root or the owner. *)
Theorem update_owner_safe ctx set req now d d' :
  updated_attr ctx set req now d = Ok d' -> owner_kept ctx d d'.
Proof.
  intros (d1 & r1 & b1 & d2 & r2 & b2 & d3 & r3 & b3 & d4 & r4 & b4 & d5 & r5 & b5 & d6 & r6 & b6 &
    d7 & r7 & b7 & d8 & r8 & b8 & H1 & H2 & H3 & H4 & H5 & H6 & H7 & H8 & ->)%updated_attr_steps.
  apply upd_sugid_owner in H1 as [U1 G1]. apply upd_gid_owner in H2 as [U2 G2].
  apply upd_uid_owner in H3 as [U3 G3].
  pose proof (upd_rest_owner ctx set now d3 r3 b3 d4 r4 b4 ltac:(auto)) as [U4 G4].
  pose proof (upd_rest_owner ctx set now d4 r4 b4 d5 r5 b5 ltac:(auto)) as [U5 G5].
  pose proof (upd_rest_owner ctx set now d5 r5 b5 d6 r6 b6 ltac:(auto)) as [U6 G6].
  pose proof (upd_rest_owner ctx set now d6 r6 b6 d7 r7 b7 ltac:(auto)) as [U7 G7].
  pose proof (upd_rest_owner ctx set now d7 r7 b7 d8 r8 b8 ltac:(auto 6)) as [U8 G8].
  rewrite U2, U1 in U3. rewrite U1, G1 in G2.
  destruct b8; unfold owner_kept; simpl;
    by rewrite U8, U7, U6, U5, U4, G8, G7, G6, G5, G4, G3.
Qed.

(** A step that does not report a change made none, and no step touches the
    epoch. *)
Definition quiet (d : Attr) (b : bool) (d' : Attr) (b' : bool) : Prop :=
  (b' = false -> b = false /\ d' = d) /\ Epoch d' = Epoch d.

Lemma quiet_trans d b d' b' d'' b'' : quiet d b d' b' -> quiet d' b' d'' b'' -> quiet d b d'' b''.
Proof. unfold quiet. intros [H1 E1] [H2 E2]. split; [|congruence].
  intros [? ?]%H2. subst. auto. Qed.

Section quiet.
Context (ctx : FuseContext) (set : N) (now : Time).

Lemma upd_sugid_quiet (d : Attr) req b (d' : Attr) req' b' :
  upd_sugid ctx set (d, req, b) = Ok (d', req', b') -> quiet d b d' b'.
Proof.
  unfold upd_sugid, clearSUGID. intros H.
  destruct (set_has set (N.lor SetAttrUID SetAttrGID) && set_has set SetAttrMode); upd_cases; done.
Qed.
Lemma upd_rest_quiet (d : Attr) req b (d' : Attr) req' b' :
  upd_gid ctx set (d, req, b) = Ok (d', req', b') \/
  upd_uid ctx set (d, req, b) = Ok (d', req', b') \/
  upd_mode ctx set (d, req, b) = Ok (d', req', b') \/
  upd_atime ctx set now (d, req, b) = Ok (d', req', b') \/
  upd_mtime ctx set now (d, req, b) = Ok (d', req', b') \/
  upd_flags set (d, req, b) = Ok (d', req', b') \/
  upd_size set now (d, req, b) = Ok (d', req', b') -> quiet d b d' b'.
Proof.
  unfold upd_gid, upd_uid, upd_mode, upd_atime, upd_mtime, upd_flags, upd_size.
  intros [H|[H|[H|[H|[H|[H|H]]]]]]; upd_cases; done.
Qed.
End quiet.

Lemma incr32_ne n : incr32 n <> n \/ (2 ^ 32 <= n)%N.
Proof.
  destruct (N.lt_ge_cases n (2 ^ 32)) as [Hlt|]; [left|by right]. unfold incr32, wrap32.
  destruct (decide (n = 2 ^ 32 - 1)%N) as [->|Hne]; [done|]. rewrite N.mod_small by lia. lia.
Qed.

(** The epoch moves by one, or nothing but the change time is new. *)
Lemma updated_attr_epoch ctx set req now (d d' : Attr) :
  updated_attr ctx set req now d = Ok d' -> Epoch d' = incr32 (Epoch d) \/ d' = on_pb (touch_c now) d.
Proof.
  intros (d1 & r1 & b1 & d2 & r2 & b2 & d3 & r3 & b3 & d4 & r4 & b4 & d5 & r5 & b5 & d6 & r6 & b6 &
    d7 & r7 & b7 & d8 & r8 & b8 & H1 & H2 & H3 & H4 & H5 & H6 & H7 & H8 & ->)%updated_attr_steps.
  assert (quiet d false d8 b8) as [Hq He].
  { apply upd_sugid_quiet in H1.
    pose proof (upd_rest_quiet ctx set now d1 r1 b1 d2 r2 b2 ltac:(tauto)) as Q2.
    pose proof (upd_rest_quiet ctx set now d2 r2 b2 d3 r3 b3 ltac:(tauto)) as Q3.
    pose proof (upd_rest_quiet ctx set now d3 r3 b3 d4 r4 b4 ltac:(tauto)) as Q4.
    pose proof (upd_rest_quiet ctx set now d4 r4 b4 d5 r5 b5 ltac:(tauto)) as Q5.
    pose proof (upd_rest_quiet ctx set now d5 r5 b5 d6 r6 b6 ltac:(tauto)) as Q6.
    pose proof (upd_rest_quiet ctx set now d6 r6 b6 d7 r7 b7 ltac:(tauto)) as Q7.
    pose proof (upd_rest_quiet ctx set now d7 r7 b7 d8 r8 b8 ltac:(tauto)) as Q8.
    clear -H1 Q2 Q3 Q4 Q5 Q6 Q7 Q8. eauto 9 using quiet_trans. }
  destruct b8; [left; simpl; by rewrite He|right]. by destruct (Hq eq_refl) as [_ ->].
Qed.
Lemma updated_attr_ctime ctx set req now (d d' : Attr) :
  updated_attr ctx set req now d = Ok d' -> (Ctime d', Ctimens d') = (Unix now, Nanosecond now).
Proof.
  intros (d1 & r1 & b1 & d2 & r2 & b2 & d3 & r3 & b3 & d4 & r4 & b4 & d5 & r5 & b5 & d6 & r6 & b6 &
    d7 & r7 & b7 & d8 & r8 & b8 & _ & _ & _ & _ & _ & _ & _ & _ & ->)%updated_attr_steps. by destruct b8.
Qed.

(** A successful update stamps the change time, and the epoch tells clients
    about the rest: it moves by one exactly when the update reported a change,
    and an update that leaves the epoch alone changed nothing but the change
    time. *)
Theorem update_epoch ctx set req now (d d' : Attr) :
  (Epoch d < 2 ^ 32)%N -> updated_attr ctx set req now d = Ok d' ->
  Ctime d' = Unix now /\ Ctimens d' = Nanosecond now /\
  (Epoch d' = incr32 (Epoch d) \/ Epoch d' = Epoch d) /\
  (Epoch d' = Epoch d -> d' = on_pb (touch_c now) d).
Proof.
  intros Hw H. pose proof (updated_attr_ctime _ _ _ _ _ _ H) as [= -> ->]. destruct (updated_attr_epoch _ _ _ _ _ _ H) as [E| ->].
  - split_and!; [done..|by left|]. intros E'. destruct (incr32_ne (Epoch d)); [congruence|lia].
  - split_and!; [done..|by right|done].
Qed.

(** The test that guards chmod compares the caller's group with the file's
    owner: an owner whose gid differs from their uid cannot change the permission
    bits of their own file. *)
Theorem chmod_owner_refused ctx req now (d : Attr) m :
  ctx_Uid ctx = Uid d -> ctx_Uid ctx <> 0%N -> ctx_Gid ctx <> Uid d ->
  m_Mode req = Some m -> has_bits m 1024 = false ->
  N.land (Mode d) 1023 <> N.land m 1023 ->
  updated_attr ctx SetAttrMode (Some req) now d = Err (Errno EPERM).
Proof.
  intros Hu Hr Hg Hm Hb Hne. unfold updated_attr, upd_sugid, upd_gid, upd_uid, upd_mode.
  change (set_has SetAttrMode (N.lor SetAttrUID SetAttrGID)) with false.
  change (set_has SetAttrMode SetAttrGID) with false.
  change (set_has SetAttrMode SetAttrUID) with false.
  change (set_has SetAttrMode SetAttrMode) with true.
  cbn [andb]. cbv beta match zeta. rewrite andb_false_r. cbn [obind]. unfold req_field. cbn [oderef obind]. rewrite Hm.
  cbn [oderef obind]. rewrite Hb, andb_false_r. cbn [andb].
  rewrite (proj2 (N.eqb_neq m (Mode d))) by congruence.
  rewrite (proj2 (N.eqb_neq _ _) Hr), (proj2 (N.eqb_neq _ _) Hg), (proj2 (N.eqb_neq _ _) Hne).
  done.
Qed.

(** A chmod with the set-group-ID bit by a caller outside the file's group
    masks the mode with 05777, which also drops the directory bit: the directory
    becomes a regular file. *)
Theorem chmod_sgid_drops_dir ctx req now (d d' : Attr) m :
  ctx_Uid ctx <> 0%N -> ctx_Gid ctx <> Gid d -> m_Mode req = Some m -> has_bits m 1024 = true ->
  IsDir d = true -> updated_attr ctx SetAttrMode (Some req) now d = Ok d' -> IsDir d' = false.
Proof.
  intros Hr Hg Hm Hb Hd. unfold updated_attr, upd_sugid, upd_gid, upd_uid, upd_mode, upd_atime,
    upd_mtime, upd_flags, upd_size.
  change (set_has SetAttrMode (N.lor SetAttrUID SetAttrGID)) with false.
  change (set_has SetAttrMode SetAttrGID) with false.
  change (set_has SetAttrMode SetAttrUID) with false.
  change (set_has SetAttrMode SetAttrMode) with true.
  change (set_has SetAttrMode SetAttrAtimeNow) with false.
  change (set_has SetAttrMode SetAttrAtime) with false.
  change (set_has SetAttrMode SetAttrMtimeNow) with false.
  change (set_has SetAttrMode SetAttrMtime) with false.
  change (set_has SetAttrMode SetAttrFlag) with false.
  change (set_has SetAttrMode SetAttrSize) with false.
  cbn [andb]. cbv beta match zeta. rewrite andb_false_r. cbn [obind]. unfold req_field. cbn [oderef obind]. rewrite Hm.
  cbn [oderef obind]. rewrite Hb, (proj2 (N.eqb_neq _ _) Hr), (proj2 (N.eqb_neq _ _) Hg). cbn [negb andb].
  assert (FileMode_IsDir (N.land m 3071) = false) as Hmask.
  { unfold FileMode_IsDir, has_bits. rewrite <- N.land_assoc.
    change (N.land 3071 ModeDir) with 0%N. by rewrite N.land_0_r. }
  destruct (N.eqb_spec (N.land m 3071) (Mode d)) as [E|_]; cbn [negb].
  { unfold IsDir in Hd. congruence. }
  destruct (_ && _); [done|]. cbn [obind]. intros [= <-]. exact Hmask.
Qed.

(** ** Renaming over a name in use *)

Lemma t_rename_plan_taken ctx src dst o n now t se st de :
  entries t !! (dst, n) = Some de -> t_rename_plan ctx src dst o n 0 now t = Ok (se, st) ->
  exists spa dpa sa da st0,
    t_rename_load ctx src dst o t = Ok (se, spa, dpa, sa) /\ attrs t !! e_Ino de = Some da /\
    t_replace t spa dpa sa (on_pb (touch_c now) da) = Ok st0 /\ st = rename_touch src dst now st0.
Proof.
  intros Hde. unfold t_rename_plan. rewrite Hde.
  intros ([[[se' spa] dpa] sa] & Hl & (st' & [_ (da & Hda%ofind_Ok & [_ (st0 & Hst &
    [_ [= <-]]%ocheck_Ok)%obind_Ok]%ocheck_Ok)%obind_Ok]%ocheck_Ok &
    (u & _ & [= <- <-])%obind_Ok)%obind_Ok)%obind_Ok.
  change (0 =? RenameExchange)%N with false in Hst. eauto 12.
Qed.

Lemma entries_drop da t : entries (t_drop da t) = entries t.
Proof. unfold t_drop. by repeat case_match. Qed.

Lemma entries_rename src dst o n se st t :
  entries (t_rename_save src dst n st (t_rename_entries src dst 0 o n se st t)) =
  <[(dst, n) := MkEntry dst n (e_Ino se) (e_Mode se)]> (delete (src, o) (entries t)).
Proof.
  rewrite (proj1 (entries_rename_save _ _ _ _ _)). unfold t_rename_entries.
  change (0 =? RenameExchange)%N with false. cbv match zeta. destruct (r_da st) as [da|]; simpl; [|done].
  rewrite entries_drop. simpl. by rewrite insert_delete_eq.
Qed.

Lemma attrs_rename_save_node src dst n st t :
  Inode (r_dpa st) <> Inode (r_sa st) ->
  attrs (t_rename_save src dst n st t) !! Inode (r_sa st) = Some (renamed dst n st).
Proof.
  intros Hne. unfold t_rename_save. destruct (r_dupdate st); simpl; [rewrite lookup_insert_ne by done|];
    by rewrite lookup_insert_eq.
Qed.

Lemma attrs_rename_save_some src dst n st t i :
  is_Some (attrs t !! i) -> is_Some (attrs (t_rename_save src dst n st t) !! i).
Proof.
  intros Hi. unfold t_rename_save. repeat case_match; simpl; rewrite ?lookup_insert_is_Some'; auto.
Qed.

Lemma IsDir_not_IsFile a : IsDir a = true -> IsFile a = false.
Proof.
  unfold IsDir, IsFile, FileMode_IsDir, FileMode_IsRegular, has_bits. intros Hd.
  apply N.eqb_neq. intros Hz. apply negb_true_iff, N.eqb_neq in Hd. apply Hd.
  replace ModeDir with (N.land ModeType ModeDir) by reflexivity.
  by rewrite N.land_assoc, Hz, N.land_0_l.
Qed.

Lemma attrs_rename_entries_some src dst o n se now spa dpa sa da b1 b2 t i :
  is_Some (attrs t !! i) -> IsDir da = true -> IsSymlink da = false ->
  is_Some (attrs (t_rename_entries src dst 0 o n se
    (rename_touch src dst now (MkRename spa dpa sa (Some da) b1 b2)) t) !! i).
Proof.
  intros Hi Hd Hl. unfold t_rename_entries. change (0 =? RenameExchange)%N with false. cbv match zeta.
  cbn [r_da rename_touch]. unfold t_drop. by rewrite Hd, (IsDir_not_IsFile _ Hd), Hl.
Qed.

Lemma rename_touch_ids src dst now spa dpa sa da b1 b2 :
  let st := rename_touch src dst now (MkRename spa dpa sa da b1 b2) in
  Inode (r_spa st) = Inode spa /\ Inode (r_dpa st) = Inode dpa /\
  Inode (r_sa st) = Inode sa /\ Nlink (r_sa st) = Nlink sa.
Proof.
  unfold rename_touch. cbv zeta. cbn [r_spa r_dpa r_sa].
  split_and!; try done; (destruct (_ || _), (_ && _); done).
Qed.

(** One of two names of a node goes, the other stays or is replaced by it. *)
Lemma refs_rename es src dst o n se de x i :
  es !! (src, o) = Some se -> es !! (dst, n) = Some de -> (src, o) <> (dst, n) ->
  (refs (<[(dst, n) := x]> (delete (src, o) es)) i +
     (if decide (e_Ino se = i) then 1 else 0) + (if decide (e_Ino de = i) then 1 else 0) =
   refs es i + (if decide (e_Ino x = i) then 1 else 0))%N.
Proof.
  intros Hse Hde Hne. rewrite <- insert_delete_eq.
  rewrite refs_insert by apply lookup_delete_eq.
  rewrite (refs_delete es _ _ i Hse).
  assert (delete (src, o) es !! (dst, n) = Some de) as Hde' by by rewrite lookup_delete_ne.
  rewrite (refs_delete _ _ _ i Hde'). lia.
Qed.

Section service.
Context {B : Badger} `{!BadgerSpec B} {C : Copier} `{!CopierSpec C}.
Abbreviation service := (Service (BadgerStore B)).

(** The tree after a rename, and its answer. *)
Lemma rename_serves ctx src dst o n flags now (s : service) t :
  serves s t -> valid_name o -> valid_name n ->
  (Rename ctx src dst o n flags now s).1 = (t_rename ctx src dst o n flags now t).1 /\
  serves (Rename ctx src dst o n flags now s).2 (t_rename ctx src dst o n flags now t).2.
Proof.
  intros Hs Ho Hn. apply (implements_refines _ _ _ (sim_Rename abs_store ctx src dst o n flags now)
    (Rename_mem ctx src dst o n flags now Ho Hn) _ _ Hs).
Qed.

(** An exchange changes no directory entry: both names still lead to the nodes
    they led to before. *)
Theorem exchange_keeps_entries ctx src dst o n now (s : service) t :
  serves s t -> valid_name o -> valid_name n ->
  exists t', serves (Rename ctx src dst o n RenameExchange now s).2 t' /\ entries t' = entries t.
Proof.
  intros Hs Ho Hn. destruct (rename_serves ctx src dst o n RenameExchange now s t Hs Ho Hn) as [_ Hs'].
  eexists. split; [exact Hs'|]. unfold t_rename. cbn [rename_flags].
  destruct (rename_flags RenameExchange); [done|].
  destruct (t_rename_plan _ _ _ _ _ _ _ _) as [[se st]|e|]; [|done..]. cbn [snd].
  rewrite (proj1 (entries_rename_save _ _ _ _ _)). unfold t_rename_entries.
  change (RenameExchange =? RenameExchange)%N with true. by destruct (r_da st).
Qed.

(** A plain rename that succeeds has a plan, and leaves what the plan writes. *)
Lemma rename_ok_plan ctx src dst o n now (s : service) t r :
  serves s t -> valid_name o -> valid_name n -> (Rename ctx src dst o n 0 now s).1 = Ok r ->
  exists se st, t_rename_plan ctx src dst o n 0 now t = Ok (se, st) /\
    serves (Rename ctx src dst o n 0 now s).2
      (t_rename_save src dst n st (t_rename_entries src dst 0 o n se st t)).
Proof.
  intros Hs Ho Hn Hok. destruct (rename_serves ctx src dst o n 0 now s t Hs Ho Hn) as [E Hs'].
  rewrite Hok in E. revert E Hs'. unfold t_rename. change (rename_flags 0) with (@None errno). cbv match.
  destruct (t_rename_plan ctx src dst o n 0 now t) as [[se st]|e|]; [|done..]. eauto.
Qed.

(** Renaming one name of a file over another name of the same file drops a
    name but not a link: the link count ends one above the number of names. *)
Theorem rename_same_file_nlink ctx src dst o n now (s : service) t se de a r :
  serves s t -> tree_inv t -> valid_name o -> valid_name n -> (src, o) <> (dst, n) ->
  entries t !! (src, o) = Some se -> entries t !! (dst, n) = Some de ->
  e_Ino de = e_Ino se -> attrs t !! e_Ino se = Some a -> IsDir a = false ->
  (Rename ctx src dst o n 0 now s).1 = Ok r ->
  exists t' (a' : Attr), serves (Rename ctx src dst o n 0 now s).2 t' /\
    attrs t' !! e_Ino se = Some a' /\ Nlink a' = (refs (entries t') (e_Ino se) + 1)%N.
Proof.
  intros Hs [Hinv Hi] Ho Hn Hne Hse Hde Hsame Ha Hfile Hok.
  destruct (rename_ok_plan _ _ _ _ _ _ _ _ _ Hs Ho Hn Hok) as (se' & st & Ep & Hs'). clear Hok.
  apply (t_rename_plan_taken _ _ _ _ _ _ _ _ _ _ Hde) in Ep
    as (spa & dpa & sa & da & st0 & Hl & Hda & Hst & ->).
  apply t_rename_load_Ok in Hl as (Hse' & Hs1 & Hd1 & Ha1 & Hsd & Hdd).
  rewrite Hse in Hse'. injection Hse' as <-. rewrite Ha in Ha1. injection Ha1 as <-.
  rewrite Hsame, Ha in Hda. injection Hda as <-. unfold t_replace in Hst.
  change (IsDir (on_pb (touch_c now) a)) with (IsDir a) in Hst. rewrite Hfile in Hst. injection Hst as <-.
  pose proof (rename_touch_ids src dst now spa dpa a
    (Some (nlink_down (on_pb (touch_c now) a))) false false) as (_ & Hid & His & Hnl).
  set (st := rename_touch _ _ _ _) in *.
  assert (Inode (r_dpa st) <> Inode (r_sa st)) as Hids.
  { rewrite Hid, His, (Hi _ _ Hd1), (Hi _ _ Ha). intros ->. congruence. }
  eexists _, _. split; [exact Hs'|]. rewrite entries_rename. split.
  - rewrite <- (Hi _ _ Ha), <- His. by apply attrs_rename_save_node.
  - change (Nlink (renamed dst n st)) with (Nlink (r_sa st)). rewrite Hnl.
    pose proof (lookup_shape _ _ _ Ha) as Hsh. rewrite Hfile in Hsh.
    rewrite (inv_file _ _ _ Hinv _ _ Hsh).
    pose proof (refs_rename _ _ _ _ _ _ _ (MkEntry dst n (e_Ino se) (e_Mode se)) (e_Ino se) Hse Hde Hne) as Hr.
    rewrite Hsame in Hr. simpl in Hr. rewrite !decide_True in Hr by done. lia.
Qed.

(** Renaming over an empty directory removes its name but not its node: the
    node stays in the store with no name left. *)
Theorem rename_replaced_dir_leaks ctx src dst o n now (s : service) t se de da r :
  serves s t -> tree_inv t -> valid_name o -> valid_name n -> (src, o) <> (dst, n) ->
  entries t !! (src, o) = Some se -> entries t !! (dst, n) = Some de ->
  attrs t !! e_Ino de = Some da -> IsDir da = true -> IsSymlink da = false -> e_Ino de <> 1%N ->
  (Rename ctx src dst o n 0 now s).1 = Ok r ->
  exists t', serves (Rename ctx src dst o n 0 now s).2 t' /\
    is_Some (attrs t' !! e_Ino de) /\ refs (entries t') (e_Ino de) = 0%N.
Proof.
  intros Hs [Hinv Hi] Ho Hn Hne Hse Hde Hda Hdir Hlnk H1 Hok.
  destruct (rename_ok_plan _ _ _ _ _ _ _ _ _ Hs Ho Hn Hok) as (se' & st & Ep & Hs'). clear Hok.
  apply (t_rename_plan_taken _ _ _ _ _ _ _ _ _ _ Hde) in Ep
    as (spa & dpa & sa & da' & st0 & Hl & Hda' & Hst & ->).
  apply t_rename_load_Ok in Hl as (Hse' & _).
  rewrite Hse in Hse'. injection Hse' as <-. rewrite Hda in Hda'. injection Hda' as <-.
  unfold t_replace in Hst. change (IsDir (on_pb (touch_c now) da)) with (IsDir da) in Hst.
  rewrite Hdir in Hst. apply ocheck_Ok in Hst as [_ [= <-]].
  pose proof (lookup_shape _ _ _ Hda) as Hsh. rewrite Hdir in Hsh.
  destruct (inv_dir _ _ _ Hinv _ _ Hsh) as [_ Hrefs]. rewrite decide_False in Hrefs by done.
  eexists. split; [exact Hs'|]. rewrite entries_rename. split.
  - by apply attrs_rename_save_some, attrs_rename_entries_some; [eexists|..].
  - pose proof (refs_rename _ _ _ _ _ _ _ (MkEntry dst n (e_Ino se) (e_Mode se)) (e_Ino de) Hse Hde Hne) as Hr.
    simpl in Hr. repeat case_decide; congruence || lia.
Qed.

(** Renaming to a free name panics for a caller other than root who does not
    own a source directory that has the sticky bit: the test reads the owner of
    the replaced node, and there is none. *)
Theorem rename_sticky_panics ctx src dst o n now (s : service) t se spa dpa sa :
  serves s t -> valid_name o -> valid_name n -> entries t !! (dst, n) = None ->
  t_rename_load ctx src dst o t = Ok (se, spa, dpa, sa) ->
  ctx_Uid ctx <> 0%N -> ctx_Uid ctx <> Uid spa -> has_bits (Mode spa) 512 = true ->
  (Rename ctx src dst o n 0 now s).1 = Panic.
Proof.
  intros Hs Ho Hn Hfree Hl Hr Hu Hst.
  destruct (rename_serves ctx src dst o n 0 now s t Hs Ho Hn) as [-> _].
  unfold t_rename, t_rename_plan. change (rename_flags 0) with (@None errno). cbv match.
  rewrite Hl, Hfree. cbn [obind]. unfold t_rename_dst. change (0 =? RenameExchange)%N with false.
  cbn [ocheck obind]. unfold t_sticky. cbn [r_spa r_da].
  by rewrite (proj2 (N.eqb_neq _ _) Hr), (proj2 (N.eqb_neq _ _) Hu), Hst.
Qed.

(** ** Removing a directory *)

Lemma rmdir_serves fuel parent name now (s : service) t :
  serves s t -> valid_name name ->
  (DeleteDirInode (Datatypes.S fuel) parent name now s).1 = (t_rmdir parent name now t).1 /\
  serves (DeleteDirInode (Datatypes.S fuel) parent name now s).2 (t_rmdir parent name now t).2.
Proof.
  intros Hs Hv. apply (implements_refines _ _ _ (sim_DeleteDirInode abs_store (Datatypes.S fuel) parent name now)
    (DeleteDirInode_mem fuel parent name now Hv) _ _ Hs).
Qed.

(** [DeleteDirInode] does what [t_rmdir] says, and one level of recursion is
    all it ever uses: any fuel above 0 gives the same. *)
Theorem DeleteDirInode_implements fuel parent name now :
  valid_name name ->
  implements (B := B) (DeleteDirInode (Datatypes.S fuel) parent name now) (t_rmdir parent name now).
Proof. intros Hv s t Hs. by apply rmdir_serves. Qed.

(** Removing a directory that has a non-empty subdirectory leaves the
    subdirectory's entries behind, in a directory that no longer exists. *)
Theorem rmdir_orphans fuel parent name now (s : service) t e n1 c1 n2 c2 :
  serves s t -> valid_name name -> is_Some (attrs t !! parent) ->
  entries t !! (parent, name) = Some e -> e_IsFile e = false ->
  entries t !! (e_Ino e, n1) = Some c1 -> entries t !! (e_Ino c1, n2) = Some c2 ->
  e_Ino c1 <> e_Ino e -> e_Ino c1 <> parent ->
  exists t', (DeleteDirInode (Datatypes.S fuel) parent name now s).1 = Ok tt /\
    serves (DeleteDirInode (Datatypes.S fuel) parent name now s).2 t' /\
    entries t' !! (e_Ino c1, n2) = Some c2 /\ attrs t' !! e_Ino c1 = None.
Proof.
  intros Hs Hv [pa Hpa] He Hfile H1 H2 Hne Hnp.
  destruct (rmdir_serves fuel parent name now s t Hs Hv) as [E Hs'].
  unfold t_rmdir in E, Hs'. rewrite Hpa, He, Hfile in E, Hs'. eexists. split; [exact E|].
  split; [exact Hs'|]. cbn [snd put_attr entries attrs t_remove]. split.
  - apply map_lookup_filter_Some. split; [done|]. simpl. split; [done|]. congruence.
  - rewrite lookup_insert_ne.
    + apply map_lookup_filter_None. right. intros a _ [_ Hin]. apply Hin. simpl.
      apply list_elem_of_fmap. exists ((e_Ino e, n1), c1). split; [done|]. by apply elem_of_dir.
    + simpl. destruct Hs as [_ [Hr _ _ _]]. by rewrite (repr_inode _ _ Hr _ _ Hpa).
Qed.
End service.

(** * Concrete runs *)

Definition root_ctx : FuseContext := {| ctx_Uid := 0; ctx_Gid := 0 |}.
Definition user_ctx : FuseContext := {| ctx_Uid := 1000; ctx_Gid := 100 |}.

(** A file owned by the user. *)
Definition user_file : Attr :=
  on_pb (fun p => set_Uid 1000 (set_Gid 100 p)) (created 1 "a" file_req now0 2).
Definition user_dir : Attr :=
  on_pb (fun p => set_Uid 100 (set_Gid 7 p)) (created 1 "a" dir_req now0 2).

Lemma update_owner_safe_witness :
  exists d', updated_attr user_ctx SetAttrSize (Some (MkModifyAttr (Some 9%N) None None None None None None None None None None None None None)) now0 user_file = Ok d' /\
    owner_kept user_ctx user_file d'.
Proof.
  eexists. split; [vm_compute; reflexivity|].
  apply (update_owner_safe user_ctx SetAttrSize
    (Some (MkModifyAttr (Some 9%N) None None None None None None None None None None None None None)) now0).
  vm_compute. reflexivity.
Defined.

Lemma update_epoch_witness :
  exists d', updated_attr user_ctx 0 None now0 user_file = Ok d' /\ d' = on_pb (touch_c now0) user_file.
Proof.
  eexists. split; [vm_compute; reflexivity|].
  apply (update_epoch user_ctx 0 None now0 user_file); vm_compute; reflexivity.
Defined.

Lemma chmod_owner_refused_witness :
  updated_attr user_ctx SetAttrMode (Some (set_m_Mode 384 no_attr)) now0 user_file = Err (Errno EPERM).
Proof.
  apply (chmod_owner_refused user_ctx _ now0 user_file 384); vm_compute; (reflexivity || discriminate).
Defined.

Lemma chmod_sgid_drops_dir_witness :
  exists d', updated_attr user_ctx SetAttrMode (Some (set_m_Mode (ModeDir + 1517) no_attr)) now0 user_dir = Ok d' /\
    IsDir d' = false.
Proof.
  eexists. split; [vm_compute; reflexivity|].
  apply (chmod_sgid_drops_dir user_ctx (set_m_Mode (ModeDir + 1517) no_attr) now0 user_dir _ (ModeDir + 1517));
    vm_compute; (reflexivity || discriminate).
Defined.

Definition s2 : svc := (Link 2 1 "b" now0 s1).2.
Definition t2 : tree := (t_link 2 1 "b" now0 t1).2.
Lemma s1_idle : idle s1 t1.
Proof. apply CreateInode_mem; [apply name_a|]. apply NewService_empty_mem. Qed.
Lemma s2_serves : serves s2 t2.
Proof. apply serves_mem, Link_mem; [apply name_b|apply s1_idle]. Qed.
Lemma t2_inv : tree_inv t2.
Proof.
  apply t_link_inv; [apply t1_inv|]. intros a Ha.
  assert (attrs t1 !! 2%N = Some (created 1 "a" file_req now0 2)) as E by (vm_compute; reflexivity).
  rewrite E in Ha. injection Ha as <-. vm_compute. reflexivity.
Qed.

Lemma exchange_keeps_entries_witness :
  exists t', serves (Rename root_ctx 1 1 "a" "b" RenameExchange now0 s2).2 t' /\ entries t' = entries t2.
Proof.
  apply (exchange_keeps_entries (B := MemBadger) root_ctx 1 1 "a" "b" now0 s2 t2 s2_serves name_a name_b).
Defined.

Lemma rename_same_file_nlink_witness :
  exists t' (a' : Attr), serves (Rename root_ctx 1 1 "a" "b" 0 now0 s2).2 t' /\
    attrs t' !! 2%N = Some a' /\ Nlink a' = (refs (entries t') 2 + 1)%N.
Proof.
  apply (rename_same_file_nlink (B := MemBadger) root_ctx 1 1 "a" "b" now0 s2 t2
    (MkEntry 1 "a" 2 420) (MkEntry 1 "b" 2 420) (on_pb (touch_c now0) (nlink_up (created 1 "a" file_req now0 2)))
    (match (Rename root_ctx 1 1 "a" "b" 0 now0 s2).1 with Ok r => r | _ => (MkPbEntry zero_PbAttr "" 0, MkPbEntry zero_PbAttr "" 0, 0%N) end)
    s2_serves t2_inv name_a name_b); vm_compute; (reflexivity || discriminate).
Defined.

(** Two directories "a" and "b" of the root. *)
Definition s3 : svc := (CreateInode 1 "b" (Some dir_req) now0 (CreateInode 1 "a" (Some dir_req) now0 s0).2).2.
Definition t3a : tree := (t_create 1 "a" dir_req now0 t0).2.
Definition t3 : tree := (t_create 1 "b" dir_req now0 t3a).2.
Lemma s3a_idle : idle (CreateInode 1 "a" (Some dir_req) now0 s0).2 t3a.
Proof. apply CreateInode_mem; [apply name_a|]. apply NewService_empty_mem. Qed.
Lemma s3_serves : serves s3 t3.
Proof. apply serves_mem, CreateInode_mem; [apply name_b|apply s3a_idle]. Qed.
Lemma t3_inv : tree_inv t3.
Proof.
  apply t_create_inv.
  - apply t_create_inv; [apply t0_inv|vm_compute; reflexivity|].
    intros pa. unfold t0. cbn [attrs root_tree]. intros [_ <-]%lookup_singleton_Some. vm_compute. reflexivity.
  - vm_compute. reflexivity.
  - intros pa Hpa.
    assert (attrs t3a !! 1%N = Some (created_parent dir_req now0 (root_attr 0 0 now0))) as E
      by (vm_compute; reflexivity).
    rewrite E in Hpa. injection Hpa as <-. vm_compute. reflexivity.
Qed.

Lemma rename_replaced_dir_leaks_witness :
  exists t', serves (Rename root_ctx 1 1 "a" "b" 0 now0 s3).2 t' /\
    is_Some (attrs t' !! 3%N) /\ refs (entries t') 3 = 0%N.
Proof.
  apply (rename_replaced_dir_leaks (B := MemBadger) root_ctx 1 1 "a" "b" now0 s3 t3
    (MkEntry 1 "a" 2 (ModeDir + 493)) (MkEntry 1 "b" 3 (ModeDir + 493)) (created 1 "b" dir_req now0 3)
    (match (Rename root_ctx 1 1 "a" "b" 0 now0 s3).1 with Ok r => r | _ => (MkPbEntry zero_PbAttr "" 0, MkPbEntry zero_PbAttr "" 0, 0%N) end)
    s3_serves t3_inv name_a name_b); vm_compute; (reflexivity || discriminate).
Defined.

(** A root directory with the sticky bit, as the mode bits of a request. *)
Definition sticky_req : ModifyAttr := set_m_Mode (ModeDir + 1023) no_attr.
Definition s4 : svc := (CreateInode 2 "a" (Some file_req) now0 (CreateInode 1 "a" (Some sticky_req) now0 s0).2).2.
Definition t4a : tree := (t_create 1 "a" sticky_req now0 t0).2.
Definition t4 : tree := (t_create 2 "a" file_req now0 t4a).2.
Lemma s4_serves : serves s4 t4.
Proof.
  apply serves_mem, CreateInode_mem; [apply name_a|]. apply CreateInode_mem; [apply name_a|].
  apply NewService_empty_mem.
Qed.

Lemma rename_sticky_panics_witness : (Rename user_ctx 2 2 "a" "b" 0 now0 s4).1 = Panic.
Proof.
  destruct (t_rename_load user_ctx 2 2 "a" t4) as [[[[se spa] dpa] sa]|e|] eqn:El;
    [|vm_compute in El; discriminate El..].
  apply (rename_sticky_panics (B := MemBadger) user_ctx 2 2 "a" "b" now0 s4 t4 se spa dpa sa
    s4_serves name_a name_b); [vm_compute; reflexivity|exact El|discriminate|..];
    vm_compute in El; injection El as <- <- <- <-; vm_compute; (reflexivity || discriminate).
Defined.

(** "/a/b/a", the last one a file. *)
Definition s5 : svc :=
  (CreateInode 3 "a" (Some file_req) now0 (CreateInode 2 "b" (Some dir_req) now0
    (CreateInode 1 "a" (Some dir_req) now0 s0).2).2).2.
Definition t5 : tree :=
  (t_create 3 "a" file_req now0 (t_create 2 "b" dir_req now0 (t_create 1 "a" dir_req now0 t0).2).2).2.
Lemma s5_serves : serves s5 t5.
Proof.
  apply serves_mem, CreateInode_mem; [apply name_a|]. apply CreateInode_mem; [apply name_b|].
  apply CreateInode_mem; [apply name_a|]. apply NewService_empty_mem.
Qed.

Lemma DeleteDirInode_implements_witness : (DeleteDirInode 1 1 "a" now0 s5).1 = Ok tt.
Proof.
  destruct (DeleteDirInode_implements (B := MemBadger) 0 1 "a" now0 name_a s5 t5 s5_serves) as [E _].
  rewrite E. vm_compute. reflexivity.
Defined.

Lemma rmdir_orphans_witness :
  exists t', (DeleteDirInode 1 1 "a" now0 s5).1 = Ok tt /\ serves (DeleteDirInode 1 1 "a" now0 s5).2 t' /\
    entries t' !! (3%N, "a"%string) = Some (MkEntry 3 "a" 4 420) /\ attrs t' !! 3%N = None.
Proof.
  apply (rmdir_orphans (B := MemBadger) 0 1 "a" now0 s5 t5 (MkEntry 1 "a" 2 (ModeDir + 493)) "b"
    (MkEntry 2 "b" 3 (ModeDir + 493)) "a" (MkEntry 3 "a" 4 420) s5_serves name_a);
    try (vm_compute; (reflexivity || discriminate)).
  eexists. vm_compute. reflexivity.
Defined.
