(* ===== verification/NodeSetattr.v ===== *)
(** What [UpdateInodeAttr] does to the attributes of a node, field by field: the
    value each field gets, who may ask for it, and when the call panics. *)
From stdpp Require Import prelude gmap strings list fin_maps.
From S2P Require Import Prelude Store Badger FileMode FreeList Attr NodeService Tree TreeInv.
From S2P Require Import NodeRefine NodeRename NodeSim NodeRmdir NodeTheorems NodeBehaviour.

(** * The request *)

Definition chowns (set : N) : bool := set_has set (N.lor SetAttrUID SetAttrGID).

(** The request has the fields its mask names; a change of ownership needs the
    owner, the group and the mode, which the code reads in some of its branches. *)
Definition complete (set : N) (req : option ModifyAttr) : Prop :=
  (chowns set = true -> is_Some (req ≫= m_Uid) /\ is_Some (req ≫= m_Gid) /\ is_Some (req ≫= m_Mode)) /\
  (set_has set SetAttrMode = true -> is_Some (req ≫= m_Mode)) /\
  (set_has set SetAttrAtime = true -> is_Some (req ≫= m_Atime) /\ is_Some (req ≫= m_Atimens)) /\
  (set_has set SetAttrMtime = true -> is_Some (req ≫= m_Mtime) /\ is_Some (req ≫= m_Mtimens)) /\
  (set_has set SetAttrFlag = true -> is_Some (req ≫= m_Flags)) /\
  (set_has set SetAttrSize = true -> is_Some (req ≫= m_Size)).

(** The value of a field whose bit is [bit]. *)
Definition pick {A} (set bit : N) (asked : option A) (old : A) : A :=
  if set_has set bit then default old asked else old.

(** A change of ownership clears the set-ID bits of a file that has one, in its mode
    and in the mode the request asks for: all of 06000, or for root and a file its
    group cannot execute only 04000. *)
Definition cleared (ctx : FuseContext) (set : N) (d : Attr) (m : N) : N :=
  if chowns set && has_bits (Mode d) 3072 && negb (IsDir d) then
    N.land m (if (ctx_Uid ctx =? 0)%N && negb (N.testbit (Mode d) 3) then 2047 else 1023)
  else m.
(** A caller other than root and outside the group [gid] cannot ask for 02000. *)
Definition restricted (ctx : FuseContext) (gid m : N) : N :=
  if negb (ctx_Uid ctx =? 0)%N && has_bits m 1024 && negb (ctx_Gid ctx =? gid)%N then N.land m 3071 else m.

(** A time stamp: the clock, the time that is asked for, or the old one. *)
Definition stamp (set bnow bset : N) (t : option Z) (ns : option N) (now : Time) (old : Z * N) : Z * N :=
  if set_has set bnow || (set_has set bset && (default 0 t <? 0)%Z) then (Unix now, Nanosecond now)
  else if set_has set bset then (default (old.1) t, default (old.2) ns) else old.

(** The fields of [d'], the attributes after the request, from those of [d]. *)
Record fields_set (ctx : FuseContext) (set : N) (req : option ModifyAttr) (now : Time) (d d' : Attr) : Prop := {
  fs_uid : Uid d' = pick set SetAttrUID (req ≫= m_Uid) (Uid d);
  fs_gid : Gid d' = pick set SetAttrGID (req ≫= m_Gid) (Gid d);
  fs_mode : Mode d' = (if set_has set SetAttrMode then restricted ctx (Gid d') (cleared ctx set d (default 0%N (req ≫= m_Mode)))
    else cleared ctx set d (Mode d));
  fs_atime : (Atime d', Atimens d') = stamp set SetAttrAtimeNow SetAttrAtime (req ≫= m_Atime) (req ≫= m_Atimens) now (Atime d, Atimens d);
  fs_mtime : (Mtime d', Mtimens d') = (if set_has set SetAttrSize then (Unix now, Nanosecond now)
    else stamp set SetAttrMtimeNow SetAttrMtime (req ≫= m_Mtime) (req ≫= m_Mtimens) now (Mtime d, Mtimens d));
  fs_ctime : (Ctime d', Ctimens d') = (Unix now, Nanosecond now);
  fs_flags : Flags d' = pick set SetAttrFlag (req ≫= m_Flags) (Flags d);
  fs_size : Size d' = pick set SetAttrSize (req ≫= m_Size) (Size d);
  fs_epoch : Epoch d' = incr32 (Epoch d) \/ d' = on_pb (touch_c now) d;
  fs_rest : (Nlink d', Rdev d', Inode d', LinkTarget d', ParentIno d', Name d') =
    (Nlink d, Rdev d, Inode d, LinkTarget d, ParentIno d, Name d) }.

(** * The steps *)

(** Requests that differ in their mode only. *)
Definition same_but_mode (r r' : option ModifyAttr) : Prop :=
  (r' ≫= m_Uid, r' ≫= m_Gid, r' ≫= m_Atime, r' ≫= m_Atimens, r' ≫= m_Mtime, r' ≫= m_Mtimens, r' ≫= m_Flags, r' ≫= m_Size) =
  (r ≫= m_Uid, r ≫= m_Gid, r ≫= m_Atime, r ≫= m_Atimens, r ≫= m_Mtime, r ≫= m_Mtimens, r ≫= m_Flags, r ≫= m_Size).

Lemma req_field_Ok {A} (req : option ModifyAttr) (f : ModifyAttr -> option A) v : req_field req f = Ok v -> req ≫= f = Some v.
Proof. unfold req_field, oderef. destruct req as [r|]; [|done]. cbn. destruct (f r); by intros [= ->]. Qed.
Lemma req_field_some {A} (req : option ModifyAttr) (f : ModifyAttr -> option A) : is_Some (req ≫= f) -> exists v, req_field req f = Ok v.
Proof. intros [v E]. exists v. unfold req_field, oderef. destruct req as [r|]; [|done]. cbn in *. by rewrite E. Qed.
Lemma req_field_not_Err {A} (req : option ModifyAttr) (f : ModifyAttr -> option A) e : req_field req f <> Err e.
Proof. unfold req_field, oderef. destruct req as [r|]; [|done]. cbn. by destruct (f r). Qed.
Lemma lor_land_same a b : N.lor a (N.land a b) = a.
Proof. apply N.bits_inj. intros i. rewrite N.lor_spec, N.land_spec. by destruct (N.testbit a i), (N.testbit b i). Qed.
Lemma testbit_3 m : negb (N.land (N.shiftr m 3) 1 =? 0)%N = N.testbit m 3.
Proof.
  change (N.testbit m 3) with (N.testbit m (0 + 3)). rewrite <- N.shiftr_spec by lia.
  change (N.land (N.shiftr m 3) 1) with (N.land (N.shiftr m 3) (N.ones 1)). rewrite N.land_ones, N.pow_1_r, <- N.bit0_mod.
  by destruct (N.testbit (N.shiftr m 3) 0).
Qed.
Lemma cleared_default ctx set d (o : option N) : default 0%N (cleared ctx set d <$> o) = cleared ctx set d (default 0%N o).
Proof. destruct o; [done|]. cbn. unfold cleared. by destruct (_ && _). Qed.
Lemma on_pb_same (d : Attr) : on_pb (set_Mode (Mode d)) d = d /\ on_pb (set_Gid (Gid d)) d = d /\ on_pb (set_Uid (Uid d)) d = d.
Proof. by destruct d as [[] ? ?]. Qed.

Section steps.
Context (ctx : FuseContext) (set : N) (now : Time).

Lemma upd_sugid_sets (d : Attr) req b (d' : Attr) req' b' :
  upd_sugid ctx set (d, req, b) = Ok (d', req', b') ->
  d' = on_pb (set_Mode (cleared ctx set d (Mode d))) d /\ same_but_mode req req' /\ req' ≫= m_Mode = cleared ctx set d <$> (req ≫= m_Mode).
Proof.
  unfold upd_sugid. rewrite lor_land_same. destruct (on_pb_same d) as [Ed _]. rewrite Ed.
  assert (Hif : forall x : bool, (if x then (d, true) else (d, b)) = (d, if x then true else b)) by (by intros []).
  rewrite Hif. fold (chowns set). unfold cleared. rewrite (andb_comm (has_bits (Mode d) 3072)).
  destruct (chowns set && has_bits (Mode d) 3072); cbn [andb].
  - unfold clearSUGID. destruct (IsDir d); cbn [negb].
    { intros [= <- <- _]. rewrite Ed. split_and!; [done..|]. by rewrite option_fmap_id. }
    rewrite testbit_3. rewrite <- (negb_involutive (N.testbit (Mode d) 3)), <- negb_andb, negb_involutive.
    destruct req as [r|]; [|done]. cbn. destruct (m_Mode r) as [m|]; [|done]. cbn. intros [= <- <- _].
    destruct (_ && _); split_and!; done.
  - intros [= <- <- _]. rewrite Ed. split_and!; [done..|]. by rewrite option_fmap_id.
Qed.
Lemma upd_gid_sets (d : Attr) req b (d' : Attr) req' b' :
  upd_gid ctx set (d, req, b) = Ok (d', req', b') ->
  d' = on_pb (set_Gid (pick set SetAttrGID (req ≫= m_Gid) (Gid d))) d /\ req' = req.
Proof.
  destruct (on_pb_same d) as (_ & Ed & _). unfold upd_gid, pick. intros H. upd_cases; try by rewrite ?Ed.
  all: match goal with E : req_field _ m_Gid = Ok _ |- _ => apply req_field_Ok in E; rewrite E end; cbn [from_option Datatypes.id].
  - done.
  - match goal with E : negb (_ =? _)%N = false |- _ => apply negb_false_iff, N.eqb_eq in E; rewrite <- E end. by rewrite Ed.
Qed.
Lemma upd_uid_sets (d : Attr) req b (d' : Attr) req' b' :
  upd_uid ctx set (d, req, b) = Ok (d', req', b') ->
  d' = on_pb (set_Uid (pick set SetAttrUID (req ≫= m_Uid) (Uid d))) d /\ req' = req.
Proof.
  destruct (on_pb_same d) as (_ & _ & Ed). unfold upd_uid, pick. intros H. upd_cases; try by rewrite ?Ed.
  all: match goal with E : req_field _ m_Uid = Ok _ |- _ => apply req_field_Ok in E; rewrite E end; cbn [from_option Datatypes.id].
  - done.
  - match goal with E : negb (_ =? _)%N = false |- _ => apply negb_false_iff, N.eqb_eq in E; rewrite <- E end. by rewrite Ed.
Qed.
Lemma upd_mode_sets (d : Attr) req b (d' : Attr) req' b' :
  upd_mode ctx set (d, req, b) = Ok (d', req', b') ->
  d' = on_pb (set_Mode (if set_has set SetAttrMode then restricted ctx (Gid d) (default 0%N (req ≫= m_Mode)) else Mode d)) d /\
  same_but_mode req req'.
Proof.
  destruct (on_pb_same d) as (Ed & _ & _). unfold upd_mode. destruct (set_has set SetAttrMode); [|intros [= <- <- _]; by rewrite Ed].
  intros (m & E & H)%obind_Ok. pose proof (req_field_Ok _ _ _ E) as Er. rewrite Er. cbn [from_option Datatypes.id].
  fold (restricted ctx (Gid d) m) in H.
  assert (Hs : same_but_mode req (set_m_Mode (restricted ctx (Gid d) m) <$> req)) by (by destruct req).
  upd_cases; [done..|]. match goal with E : negb (_ =? _)%N = false |- _ => apply negb_false_iff, N.eqb_eq in E; rewrite E in Hs |- * end. by rewrite Ed.
Qed.
Lemma upd_flags_sets (d : Attr) req b (d' : Attr) req' b' :
  upd_flags set (d, req, b) = Ok (d', req', b') -> req' = req /\
  d' = on_pb (set_Flags (pick set SetAttrFlag (req ≫= m_Flags) (Flags d))) d.
Proof.
  unfold upd_flags, pick. intros H. upd_cases; [|by destruct d' as [[] ? ?]].
  match goal with E : req_field _ _ = Ok _ |- _ => apply req_field_Ok in E; by rewrite E end.
Qed.
Lemma upd_size_sets (d : Attr) req b (d' : Attr) req' b' :
  upd_size set now (d, req, b) = Ok (d', req', b') ->
  d' = on_pb (fun p => (if set_has set SetAttrSize then touch_m now else Datatypes.id) (set_Size (pick set SetAttrSize (req ≫= m_Size) (Size p)) p)) d.
Proof.
  unfold upd_size, pick. intros H. upd_cases; [|by destruct d' as [[] ? ?]].
  match goal with E : req_field _ _ = Ok _ |- _ => apply req_field_Ok in E; by rewrite E end.
Qed.

(** The two time stamps. *)
Definition put_atime (t : Z * N) (p : PbAttr) : PbAttr := set_Atimens t.2 (set_Atime t.1 p).
Definition put_mtime (t : Z * N) (p : PbAttr) : PbAttr := set_Mtimens t.2 (set_Mtime t.1 p).
Lemma put_time_same (d : Attr) : on_pb (put_atime (Atime d, Atimens d)) d = d /\ on_pb (put_mtime (Mtime d, Mtimens d)) d = d.
Proof. by destruct d as [[] ? ?]. Qed.

Lemma upd_atime_sets (d : Attr) req b (d' : Attr) req' b' :
  upd_atime ctx set now (d, req, b) = Ok (d', req', b') -> req' = req /\
  d' = on_pb (put_atime (stamp set SetAttrAtimeNow SetAttrAtime (req ≫= m_Atime) (req ≫= m_Atimens) now (Atime d, Atimens d))) d.
Proof.
  destruct (put_time_same d) as [Ed _]. unfold upd_atime, stamp. destruct (set_has set SetAttrAtimeNow); cbn [orb obind].
  { intros H. by upd_cases. }
  destruct (set_has set SetAttrAtime); cbn [andb obind]; [|intros [= <- <- _]; by rewrite Ed].
  destruct req as [r|]; [|done]. cbn [oderef obind mbind option_bind]. destruct (default 0 (m_Atime r) <? 0)%Z; [intros H; by upd_cases|].
  intros (t & Et & H)%obind_Ok. apply req_field_Ok in Et. cbn in Et. rewrite Et. cbn [from_option Datatypes.id fst snd].
  apply obind_Ok in H as (df & Hdf & H). destruct (Z.eqb_spec (Atime d) t) as [Ea|Ea]; cbn [negb] in Hdf.
  - apply obind_Ok in Hdf as (ns & Ens & Hdf). pose proof (req_field_Ok _ _ _ Ens) as En. cbn in En. rewrite En. cbn [from_option Datatypes.id].
    injection Hdf as <-. destruct (N.eqb_spec (Atimens d) ns) as [Eb|Eb]; cbn [negb] in H.
    + injection H as <- <- _. rewrite <- Ea, <- Eb, Ed. done.
    + rewrite Ens in H. by upd_cases.
  - injection Hdf as <-. upd_cases. match goal with E : req_field _ m_Atimens = Ok _ |- _ => apply req_field_Ok in E; cbn in E; by rewrite E end.
Qed.
Lemma upd_mtime_sets (d : Attr) req b (d' : Attr) req' b' :
  upd_mtime ctx set now (d, req, b) = Ok (d', req', b') -> req' = req /\
  d' = on_pb (put_mtime (stamp set SetAttrMtimeNow SetAttrMtime (req ≫= m_Mtime) (req ≫= m_Mtimens) now (Mtime d, Mtimens d))) d.
Proof.
  destruct (put_time_same d) as [_ Ed]. unfold upd_mtime, stamp. destruct (set_has set SetAttrMtimeNow); cbn [orb obind].
  { intros H. by upd_cases. }
  destruct (set_has set SetAttrMtime); cbn [andb obind]; [|intros [= <- <- _]; by rewrite Ed].
  intros (un & (t & Et & [= <-])%obind_Ok & H)%obind_Ok. rewrite Et in H. apply req_field_Ok in Et. rewrite Et. cbn [from_option Datatypes.id fst snd].
  destruct (t <? 0)%Z; [by upd_cases|]. cbn [obind] in H.
  apply obind_Ok in H as (df & Hdf & H). destruct (Z.eqb_spec (Mtime d) t) as [Ea|Ea]; cbn [negb] in Hdf.
  - apply obind_Ok in Hdf as (ns & Ens & Hdf). pose proof (req_field_Ok _ _ _ Ens) as En. rewrite En. cbn [from_option Datatypes.id].
    injection Hdf as <-. destruct (N.eqb_spec (Mtimens d) ns) as [Eb|Eb]; cbn [negb] in H.
    + injection H as <- <- _. rewrite <- Ea, <- Eb, Ed. done.
    + rewrite Ens in H. by upd_cases.
  - injection Hdf as <-. upd_cases. match goal with E : req_field _ m_Mtimens = Ok _ |- _ => apply req_field_Ok in E; by rewrite E end.
Qed.
End steps.

(** The fields after all steps. *)
Lemma updated_attr_fields ctx set req now d d' : updated_attr ctx set req now d = Ok d' -> fields_set ctx set req now d d'.
Proof.
  intros H. pose proof (updated_attr_epoch _ _ _ _ _ _ H) as Hepoch. pose proof (updated_attr_ctime _ _ _ _ _ _ H) as Hct.
  apply updated_attr_steps in H as
    (d1 & r1 & b1 & d2 & r2 & b2 & d3 & r3 & b3 & d4 & r4 & b4 & d5 & r5 & b5 & d6 & r6 & b6 &
    d7 & r7 & b7 & d8 & r8 & b8 & H1 & H2 & H3 & H4 & H5 & H6 & H7 & H8 & E).
  apply upd_sugid_sets in H1 as (-> & S1 & M1). apply upd_gid_sets in H2 as [-> ->]. apply upd_uid_sets in H3 as [-> ->].
  apply upd_mode_sets in H4 as [-> S4]. apply upd_atime_sets in H5 as [-> ->]. apply upd_mtime_sets in H6 as [-> ->].
  apply upd_flags_sets in H7 as [-> ->]. apply upd_size_sets in H8 as ->.
  injection S1 as U1 G1 A1 An1 T1 Tn1 F1 Z1. injection S4 as U4 G4 A4 An4 T4 Tn4 F4 Z4.
  rewrite A4, An4, T4, Tn4, F4, Z4, A1, An1, T1, Tn1, F1, Z1, U1, G1, M1, cleared_default in *. clear - E Hepoch Hct.
  split; [..|exact Hct| | |exact Hepoch|]; rewrite E; destruct b8; cbn; try reflexivity.
  all: destruct (set_has set SetAttrSize); cbn; try reflexivity.
  all: by rewrite <- surjective_pairing.
Qed.

(** * Refusals and panics *)

(** Case analysis on a step that does not succeed. *)
Ltac stuck_cases :=
  repeat match goal with
  | H : obind ?o _ = _ |- _ => let E := fresh "E" in destruct o eqn:E; cbn [obind] in H
  | H : (if ?b then _ else _) = _ |- _ => let E := fresh "E" in destruct b eqn:E
  | H : Ok _ = Err _ |- _ => discriminate H
  | H : Err _ = Ok _ |- _ => discriminate H
  | H : Panic = Ok _ |- _ => discriminate H
  | H : Ok _ = Panic |- _ => discriminate H
  | H : Panic = Err _ |- _ => discriminate H
  | H : Err _ = Panic |- _ => discriminate H
  | H : req_field _ _ = Err _ |- _ => by apply req_field_not_Err in H
  | H : oderef ?o = Err _ |- _ => by destruct o
  end.

Lemma has_bits_lor set a b : has_bits set a = true \/ has_bits set b = true -> has_bits set (N.lor a b) = true.
Proof.
  unfold has_bits. rewrite N.land_lor_distr_r, !negb_true_iff, !N.eqb_neq. intros H E. apply N.lor_eq_0_iff in E as [? ?]. tauto.
Qed.

Section stuck.
Context (ctx : FuseContext) (set : N) (now : Time).

Definition refusal (e : error) : Prop := e = Errno EPERM \/ e = Errno EACCES.

Lemma denied_root d : ctx_Uid ctx = 0%N -> denied_write ctx d = false.
Proof. intros E. unfold denied_write, access. rewrite E. cbn. by rewrite andb_false_r. Qed.

(** Every step refuses with one of two errors, root nothing. *)
Lemma step_refuses st e :
  upd_sugid ctx set st = Err e \/ upd_gid ctx set st = Err e \/ upd_uid ctx set st = Err e \/ upd_mode ctx set st = Err e \/
  upd_atime ctx set now st = Err e \/ upd_mtime ctx set now st = Err e \/ upd_flags set st = Err e \/ upd_size set now st = Err e ->
  refusal e /\ ctx_Uid ctx <> 0%N.
Proof.
  destruct st as [[d req] b]. unfold upd_sugid, upd_gid, upd_uid, upd_mode, upd_atime, upd_mtime, upd_flags, upd_size, clearSUGID, refusal.
  intros [H|[H|[H|[H|[H|[H|[H|H]]]]]]];
    [destruct (set_has set (N.lor SetAttrUID SetAttrGID) && set_has set SetAttrMode)|..]; stuck_cases.
  all: injection H as <-; split; [first [left; reflexivity|right; reflexivity]|intros Hroot].
  all: try (rewrite denied_root in * by done; done).
  all: rewrite Hroot in *; cbn [N.eqb negb andb] in *; rewrite ?andb_false_r in *; done.
Qed.

(** A request with all its fields does not panic, and no step takes one away. *)
Lemma complete_step req req' : complete set req -> same_but_mode req req' ->
  (is_Some (req ≫= m_Mode) -> is_Some (req' ≫= m_Mode)) -> complete set req'.
Proof. unfold complete. intros (H1 & H2 & H3 & H4 & H5 & H6) [= -> -> -> -> -> -> -> ->] Hm. split_and!; naive_solver. Qed.

Lemma field_there {A} req (f : ModifyAttr -> option A) : req_field req f = Panic -> is_Some (req ≫= f) -> False.
Proof. intros H Hs. destruct (req_field_some req f Hs) as [v E]. congruence. Qed.

Lemma step_total (d : Attr) req b : complete set req ->
  upd_sugid ctx set (d, req, b) <> Panic /\ upd_gid ctx set (d, req, b) <> Panic /\ upd_uid ctx set (d, req, b) <> Panic /\
  upd_mode ctx set (d, req, b) <> Panic /\ upd_atime ctx set now (d, req, b) <> Panic /\ upd_mtime ctx set now (d, req, b) <> Panic /\
  upd_flags set (d, req, b) <> Panic /\ upd_size set now (d, req, b) <> Panic.
Proof.
  intros (H1 & H2 & H3 & H4 & H5 & H6).
  assert (Hu : set_has set SetAttrUID = true -> chowns set = true) by (intros; apply has_bits_lor; by left).
  assert (Hg : set_has set SetAttrGID = true -> chowns set = true) by (intros; apply has_bits_lor; by right).
  unfold upd_sugid, upd_gid, upd_uid, upd_mode, upd_atime, upd_mtime, upd_flags, upd_size. split_and!; intros H.
  { assert (forall d' : Attr, has_bits (Mode d') 3072 && chowns set = true -> clearSUGID ctx d' req <> Panic) as Hc.
    { intros d' [_ Hs]%andb_true_iff. destruct (H1 Hs) as (_ & _ & [m Hm]). unfold clearSUGID. destruct (IsDir d'); [done|].
      destruct req as [r|]; [|done]. cbn in *. by rewrite Hm. }
    destruct (set_has set (N.lor SetAttrUID SetAttrGID) && set_has set SetAttrMode); stuck_cases; by eapply Hc. }
  all: stuck_cases; try (eapply field_there; [eassumption|]; naive_solver).
  destruct req; [done|]. by destruct (H3 eq_refl) as [[? ?] _].
Qed.

Lemma updated_attr_refuses req (d : Attr) e : updated_attr ctx set req now d = Err e -> refusal e /\ ctx_Uid ctx <> 0%N.
Proof.
  unfold updated_attr. intros H.
  repeat match type of H with
  | obind ?o _ = _ => destruct o as [?|?|] eqn:?; cbn [obind] in H;
      [|injection H as ->; eapply step_refuses; eauto 12 | discriminate]
  end.
  by destruct a6 as [[? ?] ?].
Qed.

Lemma updated_attr_total req (d : Attr) : complete set req -> updated_attr ctx set req now d <> Panic.
Proof.
  intros Hc. unfold updated_attr.
  destruct (upd_sugid ctx set (d, req, false)) as [[[d1 r1] b1]| |] eqn:H1; [|done|by destruct (step_total d req false Hc)]. cbn [obind].
  assert (Hc1 : complete set r1).
  { apply upd_sugid_sets in H1 as (_ & Hs & Hm). eapply complete_step; [done..|]. rewrite Hm. by intros [m ->]. }
  destruct (upd_gid ctx set (d1, r1, b1)) as [[[d2 r2] b2]| |] eqn:H2; [|done|by destruct (step_total d1 r1 b1 Hc1) as (_ & ? & _)]. cbn [obind].
  apply upd_gid_sets in H2 as [_ ->].
  destruct (upd_uid ctx set (d2, r1, b2)) as [[[d3 r3] b3]| |] eqn:H3; [|done|by destruct (step_total d2 r1 b2 Hc1) as (_ & _ & ? & _)]. cbn [obind].
  apply upd_uid_sets in H3 as [_ ->].
  destruct (upd_mode ctx set (d3, r1, b3)) as [[[d4 r4] b4]| |] eqn:H4; [|done|by destruct (step_total d3 r1 b3 Hc1) as (_ & _ & _ & ? & _)]. cbn [obind].
  assert (Hc4 : complete set r4).
  { pose proof (upd_mode_sets _ _ _ _ _ _ _ _ H4) as [_ Hs]. eapply complete_step; [done..|]. unfold upd_mode in H4. upd_cases; try done; by destruct r1. }
  destruct (upd_atime ctx set now (d4, r4, b4)) as [[[d5 r5] b5]| |] eqn:H5; [|done|by destruct (step_total d4 r4 b4 Hc4) as (_ & _ & _ & _ & ? & _)]. cbn [obind].
  apply upd_atime_sets in H5 as [-> _].
  destruct (upd_mtime ctx set now (d5, r4, b5)) as [[[d6 r6] b6]| |] eqn:H6; [|done|by destruct (step_total d5 r4 b5 Hc4) as (_ & _ & _ & _ & _ & ? & _)]. cbn [obind].
  apply upd_mtime_sets in H6 as [-> _].
  destruct (upd_flags set (d6, r4, b6)) as [[[d7 r7] b7]| |] eqn:H7; [|done|by destruct (step_total d6 r4 b6 Hc4) as (_ & _ & _ & _ & _ & _ & ? & _)]. cbn [obind].
  apply upd_flags_sets in H7 as [-> _].
  destruct (upd_size set now (d7, r4, b7)) as [[[d8 r8] b8]| |] eqn:H8; [done|done|by destruct (step_total d7 r4 b7 Hc4) as (_ & _ & _ & _ & _ & _ & _ & ?)].
Qed.
End stuck.

(** * The request as a whole *)

Section request.
Context {B : Badger} `{!BadgerSpec B} {C : Copier} `{!CopierSpec C}.

(** C28 [UpdateInodeAttr] over any store: an inode the tree does not have is not found.
    Otherwise, when the call succeeds, the tree has the returned attributes in place
    of the stored ones, and each field of them is what [fields_set] says: owner,
    group, size and flags those that are asked for; the mode that is asked for
    ([restricted] for the caller) or the old one, both with the set-ID bits [cleared]
    by a change of ownership; the times asked for, the clock's or the
    old ones; the clock's change time; a new epoch unless nothing else changed; and
    the rest as it was.  The owner changes only for root, the group only for root or
    the owner.  When the call fails, nothing is stored: an error is EPERM or EACCES,
    for a caller other than root, and a nil dereference is due to a request that
    lacks a field. *)
Theorem UpdateInodeAttr_sets ctx ino set req now s t :
  serves s t ->
  let p := UpdateInodeAttr ctx ino set req now s in
  match attrs t !! ino with
  | None => p.1 = Err (Status NotFound) /\ serves p.2 t
  | Some d =>
      match p.1 with
      | Ok a => exists d', a = pb d' /\ serves p.2 (put_attr d' t) /\ fields_set ctx set req now d d' /\ owner_kept ctx d d'
      | Err e => serves p.2 t /\ refusal e /\ ctx_Uid ctx <> 0%N
      | Panic => serves p.2 t /\ ~ complete set req
      end
  end.
Proof.
  intros Hs p. assert (Him : implements (UpdateInodeAttr ctx ino set req now) (t_update ctx ino set req now)).
  { eapply implements_refines; [apply sim_UpdateInodeAttr; apply _|]. apply UpdateInodeAttr_mem. }
  destruct (Him s t Hs) as [E Hs']. fold p in E, Hs'. unfold t_update in E, Hs'.
  destruct (attrs t !! ino) as [d|]; [|by split]. destruct (updated_attr ctx set req now d) as [d'|e|] eqn:Eu; rewrite E; cbn [fst snd] in *.
  - exists d'. split_and!; [done..|by apply updated_attr_fields|by eapply update_owner_safe].
  - split; [done|]. by eapply updated_attr_refuses.
  - split; [done|]. intros Hc. by eapply updated_attr_total.
Qed.
End request.

(** Root gives a file to user 5. *)
Definition chown5 : ModifyAttr := MkModifyAttr None None None None None None None (Some 5%N) (Some 6%N) (Some 420%N) None None None None.
Lemma UpdateInodeAttr_sets_witness :
  exists a, (UpdateInodeAttr root_ctx 2 (N.lor SetAttrUID SetAttrMode) (Some chown5) now0 s1).1 = Ok a /\ Uid a = 5%N /\ Gid a = 0%N.
Proof.
  pose proof (UpdateInodeAttr_sets (B := MemBadger) root_ctx 2 (N.lor SetAttrUID SetAttrMode) (Some chown5) now0 s1 t1 s1_serves) as H.
  cbv zeta in H. assert (E : exists d : Attr, attrs t1 !! 2%N = Some d /\ Uid d = 0%N /\ Gid d = 0%N) by (eexists; split; vm_compute; [reflexivity|done]).
  destruct E as (d & Ed & Eu & Eg). rewrite Ed in H. destruct (UpdateInodeAttr _ _ _ _ _ _).1 as [a|e|].
  - destruct H as (d' & -> & _ & Hf & _). exists (pb d'). split_and!; [done|by rewrite (fs_uid _ _ _ _ _ _ Hf)|].
    rewrite (fs_gid _ _ _ _ _ _ Hf). exact Eg.
  - destruct H as (_ & _ & H). by destruct H.
  - destruct H as [_ H]. destruct H. split_and!; intros Hx; vm_compute in Hx; first [discriminate Hx | vm_compute; eauto 8].
Defined.
