(* ===== verification/NodeLocks.v ===== *)
(** File locks (src/pkg/meta/inode/cntl.go): what the lock requests of the inode
    service do to the store. *)
From Stdlib Require Import Ascii.
From stdpp Require Import prelude gmap strings list fin_maps.
From S2P Require Import Prelude Store Badger FileMode FreeList Attr NodeService NodeRefine.

Section locks.
Context {P : FileLockCodec}.

(** * Keys *)

Lemma has_prefix_char c p k : has_prefix p k = true -> has_char c p = true -> has_char c k = true.
Proof. intros [r ->]%has_prefix_spec Hc. by rewrite has_char_app, Hc. Qed.

Lemma fileLockKey_no_slash i o p : has_char "/"%char (fileLockKey i o p) = false.
Proof.
  unfold fileLockKey. rewrite !has_char_app, !itoa_no_slash. done.
Qed.

Lemma plain_fileLockKey i o p : plain_key (fileLockKey i o p).
Proof.
  unfold fileLockKey.
  replace ("lk-" +:+ itoa i +:+ "-" +:+ itoa o +:+ "-" +:+ itoa p)%string
    with (("lk-" +:+ itoa i +:+ "-" +:+ itoa o +:+ "-") +:+ itoa p)%string by by rewrite !str_app_assoc.
  apply plain_app; [apply itoa_ne|apply itoa_no_slash|done].
Qed.

(** Distinct locks have distinct keys. *)
Lemma fileLockKey_inj i o p i' o' p' :
  fileLockKey i o p = fileLockKey i' o' p' -> i = i' /\ o = o' /\ p = p'.
Proof.
  unfold fileLockKey. intros H%str_app_inj_l.
  assert (forall n, has_char "-"%char (itoa n) = false) as Hd by (intros; by apply itoa_no_char).
  apply sep_inj in H as [Hi%itoa_inj H]; auto. simpl in H.
  apply sep_inj in H as [Ho%itoa_inj H%itoa_inj]; auto.
Qed.

(** * Requests *)

Lemma Get_run k (s : svc) :
  plain_key k ->
  Get k s = (match sview s !! k with Some v => Ok v | None => Err ErrNotFound end, s).
Proof.
  intros [Hk Ht]. pose proof (Get_mem k (metaStore s)) as H. rewrite Ht in H.
  simpl in *. unfold on_store. rewrite H by done. by destruct s.
Qed.
Lemma Delete_run k (s : svc) : plain_key k -> Delete k s = (Ok tt, supd k None s).
Proof.
  intros [Hk _]. pose proof (Delete_mem k (metaStore s) Hk) as H. simpl in *. unfold on_store.
  by rewrite H.
Qed.
Lemma Save_run k v (s : svc) : plain_key k -> Save k v s = (Ok tt, supd k (Some v) s).
Proof.
  intros [Hk _]. pose proof (Save_mem k v (metaStore s) Hk) as H. simpl in *. unfold on_store.
  by rewrite H.
Qed.

(** Reading a lock that has not expired yet deletes it from the store and
    panics on the nil pointer it returns. *)
Theorem GetFileLock_drops_live_lock ino owner pid now (s : svc) data l :
  sview s !! fileLockKey ino owner pid = Some (BBytes data) ->
  decodeFileLock data = Ok l -> (unix64 now < l_ExpireTime l)%N ->
  GetFileLock ino owner pid now s = (Panic, supd (fileLockKey ino owner pid) None s).
Proof.
  intros Hs Hd Hlt. unfold GetFileLock. rewrite (bind_run _ _ _ (Ok None) (supd (fileLockKey ino owner pid) None s)); [done|].
  unfold getFileLock. erewrite bind_run by (apply Get_run, plain_fileLockKey). rewrite Hs. cbv beta match.
  erewrite bind_run by reflexivity. cbn [decode_blob]. rewrite Hd. cbv beta match.
  rewrite (proj2 (N.ltb_lt _ _) Hlt).
  by erewrite bind_run by (apply Delete_run, plain_fileLockKey).
Qed.

(** The keys a bucket listing for the locks of an inode would find. *)
Definition in_lock_bucket (ino : N) (k : string) : bool :=
  has_prefix (trim_key (fileLockInoPrefix ino) +:+ Separator)%string k.

Lemma lock_key_not_in_bucket i ino o p : in_lock_bucket i (fileLockKey ino o p) = false.
Proof.
  destruct (in_lock_bucket i _) eqn:E; [|done]. unfold in_lock_bucket in E.
  apply (has_prefix_char "/"%char) in E; [by rewrite fileLockKey_no_slash in E|].
  by rewrite has_char_app, orb_true_r.
Qed.

Fixpoint acquire_all (ls : list FileLock) (s : svc) : svc :=
  match ls with
  | [] => s
  | l :: rest => acquire_all rest (AcquireFileLock l s).2
  end.

Lemma acquire_bucket ino ls s :
  (forall k, in_lock_bucket ino k = true -> sview s !! k = None) ->
  forall k, in_lock_bucket ino k = true -> sview (acquire_all ls s) !! k = None.
Proof.
  revert s. induction ls as [|l ls IH]; intros s Hs; [done|]. simpl. apply IH. intros k Hk.
  unfold AcquireFileLock, saveFileLock. destruct (encodeFileLock l) as [data|e]; [|by apply Hs].
  erewrite bind_run by reflexivity. cbv beta match. rewrite Save_run by apply plain_fileLockKey.
  unfold sview, supd. simpl. rewrite view_upd, lookup_map_upd. case_decide as Heq; [|by apply Hs].
  cbn [fst] in Heq. subst k. by rewrite lock_key_not_in_bucket in Hk.
Qed.

(** Listing the locks of an inode finds none, whatever locks were taken: the
    bucket it reads ends in a separator that no lock key has. *)
Theorem GetFileLocks_finds_none ino now ls (s : svc) :
  (forall k, in_lock_bucket ino k = true -> sview s !! k = None) ->
  (GetFileLocks ino now (acquire_all ls s)).1 = Ok [].
Proof.
  intros Hs. pose proof (acquire_bucket ino ls s Hs) as Hb. set (s' := acquire_all ls s) in *.
  assert (trim_key (fileLockInoPrefix ino) <> Separator) as Hne.
  { unfold trim_key. rewrite bool_decide_false by done. unfold fileLockInoPrefix.
    replace ("lk-" +:+ itoa ino +:+ "-")%string with (("lk-" +:+ itoa ino) +:+ "-")%string
      by by rewrite str_app_assoc.
    by rewrite trim_suffix_char_id. }
  unfold GetFileLocks, getFileLocks.
  assert (GetByBucket (fileLockInoPrefix ino) s' = (Ok (∅ : kvmap), s')) as Hg.
  { pose proof (GetByBucket_mem _ (metaStore s') Hne) as H. simpl in *. unfold on_store. rewrite H.
    f_equal; [|by destruct s']. f_equal. apply map_empty. intros k.
    apply map_lookup_filter_None. destruct (in_lock_bucket ino k) eqn:E; [left; by apply Hb|right].
    intros v _ Hp. change (in_lock_bucket ino k = true) in Hp. congruence. }
  by erewrite bind_run by exact Hg.
Qed.
End locks.

(** * Concrete runs *)

(** A codec that writes the fields as numbers. *)
Definition list_codec : FileLockCodec := {|
  encodeFileLock l := inl [l_Ino l; l_Owner l; l_Pid l; l_Start l; l_End l; l_Kind l; l_Flag l; l_ExpireTime l];
  decodeFileLock b :=
    match b with
    | [i; o; p; st; en; k; f; x] => Ok (MkFileLock i o p st en k f x)
    | _ => Err ErrJson
    end;
|}.
Definition lock0 : FileLock := MkFileLock 7 1 2 0 10 1 1 1800000000.
Definition locks_s0 : svc := MkService (@MkBadgerStore MemBadger (∅ : kvmap) None) None NewFreeListUnboundG.
Definition lock_now : Time := {| Unix := 1700000000; Nanosecond := 0 |}.

Lemma GetFileLock_drops_live_lock_witness :
  (GetFileLock (P := list_codec) 7 1 2 lock_now (AcquireFileLock (P := list_codec) lock0 locks_s0).2).1 = Panic.
Proof.
  rewrite (GetFileLock_drops_live_lock (P := list_codec) 7 1 2 lock_now _
    [7; 1; 2; 0; 10; 1; 1; 1800000000]%N lock0); [reflexivity|vm_compute; reflexivity..].
Defined.

Lemma GetFileLocks_finds_none_witness :
  (GetFileLocks (P := list_codec) 7 lock_now (acquire_all (P := list_codec) [lock0] locks_s0)).1 = Ok [].
Proof.
  apply (GetFileLocks_finds_none (P := list_codec) 7 lock_now [lock0] locks_s0).
  intros k _. unfold sview, view. simpl. apply lookup_empty.
Defined.
