(* ===== verification/Interval.v ===== *)
(** The interval list of src/pkg/storage/adaptor/interval.go, which records the
    ranges written into a block.  The list is doubly linked and updated in
    place, so it is modelled over a heap of cells; a pointer is an index into the
    heap and allocation appends a cell.

    [dseg] and [rep] say which intervals a list of cells holds when both chains
    are intact, [frep] when only the forward chain is.  The theorems show that
    adding an interval overrides the range, that merging keeps the covered
    offsets, that [Total] counts them and what [Copy] copies. *)
From stdpp Require Import prelude list sorting.
From S2P Require Import Prelude.
From Stdlib Require Import ZArith Lia.

Open Scope Z_scope.

(** * Cells and the heap *)

Definition MinInt : Z := - 2 ^ 63.
Definition MaxInt : Z := 2 ^ 63 - 1.

(** Arithmetic on int64. *)
Definition int64 (z : Z) : Z := (z + 2 ^ 63) mod 2 ^ 64 - 2 ^ 63.

Notation loc := nat.

(** The payload [Value] and the unused timestamp take no part in any operation
    and are left out. *)
Record Interval := mkInterval {
  start : Z;
  end_ : Z;
  Prev : option loc;
  Next : option loc }.

Notation heap := (list Interval).

Inductive list_error := ErrByteArrLenNotmatched.

Definition HM (A : Type) := M heap list_error A.

(** Reading through a pointer. *)
Definition load (p : loc) : HM Interval := fun h =>
  match h !! p with Some i => (Ok i, h) | None => (Panic, h) end.
Definition alloc (i : Interval) : HM loc := fun h => (Ok (length h), h ++ [i]).

Definition with_Prev (v : option loc) (i : Interval) : Interval :=
  mkInterval (start i) (end_ i) v (Next i).
Definition with_Next (v : option loc) (i : Interval) : Interval :=
  mkInterval (start i) (end_ i) (Prev i) v.
Definition with_end (v : Z) (i : Interval) : Interval :=
  mkInterval (start i) v (Prev i) (Next i).

(** A field assignment through a pointer. *)
Definition store_at (p : loc) (f : Interval -> Interval) : HM unit :=
  load p ;;; modify (alter f p).

Definition set_Prev (p : loc) (v : option loc) : HM unit := store_at p (with_Prev v).
Definition set_Next (p : loc) (v : option loc) : HM unit := store_at p (with_Next v).
Definition set_end (p : loc) (v : Z) : HM unit := store_at p (with_end v).

(** * Intervals *)

Definition NewInterval (s e : Z) : HM loc := alloc (mkInterval s e None None).

Definition Size (i : Interval) : Z := int64 (end_ i - start i).
Definition len (i : Interval) : Z := int64 (end_ i - start i).

Definition Effective (i : Interval) : bool :=
  negb ((end_ i <? start i) || (start i =? MinInt) || (end_ i =? MaxInt)).

(** * The list *)

Record IntervalList := mkIntervalList { head : loc; tail : loc }.

Definition NewIntervalList : HM IntervalList :=
  hd <- alloc (mkInterval MinInt MinInt None None) ;;
  tl <- alloc (mkInterval MaxInt MaxInt None None) ;;
  set_Next hd (Some tl) ;;;
  set_Prev tl (Some hd) ;;;
  ret (mkIntervalList hd tl).

Definition Front (list : IntervalList) : HM (option loc) :=
  hd <- load (head list) ;;
  n <- deref (Next hd) ;;
  i <- load n ;;
  ret (if start i =? MaxInt then None else Some n).

Definition AppendInterval (list : IntervalList) (interval : loc) : HM unit :=
  hd <- load (head list) ;;
  (match Next hd with
   | None => set_Next (head list) (Some interval)
   | Some _ => ret tt
   end) ;;;
  tl <- load (tail list) ;;
  set_Prev interval (Prev tl) ;;;
  set_Next interval (Some (tail list)) ;;;
  tl <- load (tail list) ;;
  (match Prev tl with
   | Some p => set_Next p (Some interval)
   | None => ret tt
   end) ;;;
  set_Prev (tail list) (Some interval).

(** The loop [for ; p.Next != nil && p.Next.end <= start; p = p.Next].  [None]
    stands for a dangling pointer or for running out of fuel. *)
Fixpoint seek_after (fuel : nat) (h : heap) (p : loc) (s : Z) : option loc :=
  match fuel with
  | O => None
  | S fuel =>
      c ← h !! p;
      match Next c with
      | None => Some p
      | Some n => d ← h !! n;
                  if end_ d <=? s then seek_after fuel h n s else Some p
      end
  end.

(** The loop [for ; q.Prev != nil && q.Prev.start >= end; q = q.Prev]. *)
Fixpoint seek_before (fuel : nat) (h : heap) (q : loc) (e : Z) : option loc :=
  match fuel with
  | O => None
  | S fuel =>
      c ← h !! q;
      match Prev c with
      | None => Some q
      | Some n => d ← h !! n;
                  if e <=? start d then seek_before fuel h n e else Some q
      end
  end.

(** A walk visits each cell at most once, so the number of cells is fuel enough. *)
Definition seek (walk : nat -> heap -> loc -> Z -> option loc) (p : loc) (x : Z) : HM loc :=
  h <- gets id ;; deref (walk (length h) h p x).

(** The cell a possibly nil pointer leads to. *)
Definition load_opt (p : option loc) : HM (option Interval) :=
  match p with None => ret None | Some l => i <- load l ;; ret (Some i) end.

(** The first half of AddInterval: link the new interval behind [p], keeping
    what the next interval covers before [start]. *)
Definition link_after (list : IntervalList) (p interval : loc) (s : Z) : HM unit :=
  c <- load p ;;
  nx <- load_opt (Next c) ;;
  match nx with
  | Some n =>
      if start n <? s then
        t <- alloc (mkInterval (start n) s None None) ;;
        set_Next p (Some t) ;;;
        (if bool_decide (p = head list) then ret tt else set_Prev t (Some p)) ;;;
        set_Next t (Some interval) ;;;
        set_Prev interval (Some t)
      else
        set_Next p (Some interval) ;;;
        (if bool_decide (p = head list) then ret tt else set_Prev interval (Some p))
  | None =>
      set_Next p (Some interval) ;;;
      (if bool_decide (p = head list) then ret tt else set_Prev interval (Some p))
  end.

(** The second half: link it before [q], keeping what the previous interval
    covers after [end]. *)
Definition link_before (list : IntervalList) (q interval : loc) (e : Z) : HM unit :=
  c <- load q ;;
  pv <- load_opt (Prev c) ;;
  match pv with
  | Some n =>
      if e <? end_ n then
        t <- alloc (mkInterval e (end_ n) None None) ;;
        set_Prev q (Some t) ;;;
        (if bool_decide (q = tail list) then ret tt else set_Next t (Some q)) ;;;
        set_Next interval (Some t) ;;;
        set_Prev t (Some interval)
      else
        set_Prev q (Some interval) ;;;
        (if bool_decide (q = tail list) then ret tt else set_Next interval (Some q))
  | None =>
      set_Prev q (Some interval) ;;;
      (if bool_decide (q = tail list) then ret tt else set_Next interval (Some q))
  end.

Definition AddInterval (list : IntervalList) (interval : loc) : HM unit :=
  i <- load interval ;;
  if end_ i <=? start i then ret tt else
  p <- seek seek_after (head list) (start i) ;;
  q <- seek seek_before (tail list) (end_ i) ;;
  link_after list p interval (start i) ;;;
  link_before list q interval (end_ i).

(** The loop of doMerge. *)
Fixpoint merge_loop (fuel : nat) (list : IntervalList) (prev : loc) (p : option loc) : HM unit :=
  match fuel with
  | O => go_panic
  | S fuel =>
      match p with
      | None => ret tt
      | Some p =>
          if bool_decide (p = tail list) then ret tt else
          ci <- load p ;;
          cp <- load prev ;;
          if start ci =? end_ cp then
            set_end prev (end_ ci) ;;;
            set_Next prev (Next ci) ;;;
            match Next ci with
            | Some n => set_Prev n (Some prev) ;;; merge_loop fuel list prev (Some n)
            | None => merge_loop fuel list p None
            end
          else merge_loop fuel list p (Next ci)
      end
  end.

Definition doMerge (list : IntervalList) : HM unit :=
  c <- load (head list) ;;
  h <- gets id ;;
  merge_loop (length h) list (head list) (Next c).

Definition Merge (list : IntervalList) : HM unit := doMerge list.

(** [copy(dst[s:e], src[s:e])] for 0 <= s <= e <= len of both. *)
Definition copy_range {A} (s e : Z) (dst src : list A) : list A :=
  take (Z.to_nat s) dst ++ drop (Z.to_nat s) (take (Z.to_nat e) src) ++ drop (Z.to_nat e) dst.

(** The loop of Copy: the number of bytes copied and the new destination; a
    slice expression out of range panics. *)
Fixpoint copy_loop {A} (fuel : nat) (list : IntervalList) (p : option loc) (n : Z)
    (dst src : Datatypes.list A) : HM (Z * Datatypes.list A) :=
  match fuel with
  | O => go_panic
  | S fuel =>
      match p with
      | None => ret (n, dst)
      | Some p =>
          if bool_decide (p = tail list) then ret (n, dst) else
          c <- load p ;;
          if (end_ c <? Z.of_nat (length src)) && (end_ c <? Z.of_nat (length dst)) then
            if (0 <=? start c) && (start c <=? end_ c) then
              copy_loop fuel list (Next c) (n + (end_ c - start c))
                (copy_range (start c) (end_ c) dst src) src
            else go_panic
          else copy_loop fuel list (Next c) n dst src
      end
  end.

(** The result is the count and the destination after the call. *)
Definition Copy {A} (list : IntervalList) (dst src : Datatypes.list A) :
    HM (Z * Datatypes.list A) :=
  doMerge list ;;;
  if negb (bool_decide (length dst = length src)) then throw ErrByteArrLenNotmatched else
  c <- load (head list) ;;
  h <- gets id ;;
  copy_loop (length h) list (Next c) 0 dst src.

Fixpoint total_loop (fuel : nat) (list : IntervalList) (p : option loc) (total : Z) : HM Z :=
  match fuel with
  | O => go_panic
  | S fuel =>
      match p with
      | None => ret total
      | Some p =>
          if bool_decide (p = tail list) then ret total else
          c <- load p ;;
          total_loop fuel list (Next c) (int64 (total + len c))
      end
  end.

Definition Total (list : IntervalList) : HM Z :=
  c <- load (head list) ;;
  h <- gets id ;;
  total_loop (length h) list (Next c) 0.

(** * What a list holds *)

(** A cell of the list with the range it holds. *)
Notation node := (nat * (Z * Z))%type.

Definition first_or (ls : list node) (d : option loc) : option loc :=
  match ls with [] => d | n :: _ => Some n.1 end.
Definition last_or (ls : list node) (d : option loc) : option loc :=
  match last ls with Some n => Some n.1 | None => d end.

(** [ls] is a doubly linked segment between [pv] and [nx]. *)
Fixpoint dseg (h : heap) (pv : option loc) (ls : list node) (nx : option loc) : Prop :=
  match ls with
  | [] => True
  | (l, (s, e)) :: r =>
      h !! l = Some (mkInterval s e pv (first_or r nx)) /\ dseg h (Some l) r nx
  end.

(** The front of the list up to [ls], followed by [nx]: the first cell may point
    back to the head or to nothing. *)
Definition front (h : heap) (L : IntervalList) (ls : list node) (nx : option loc) : Prop :=
  exists pv, (pv = None \/ pv = Some (head L)) /\
    h !! head L = Some (mkInterval MinInt MinInt None (first_or ls nx)) /\
    dseg h pv ls nx.

(** The back of the list from [ls] on, preceded by [pv]. *)
Definition back (h : heap) (L : IntervalList) (ls : list node) (pv : option loc) : Prop :=
  exists nx, (nx = None \/ nx = Some (tail L)) /\
    h !! tail L = Some (mkInterval MaxInt MaxInt (last_or ls pv) None) /\
    dseg h pv ls nx.

Definition cells (L : IntervalList) (ls : list node) : list loc :=
  head L :: tail L :: ls.*1.

Definition rep (h : heap) (L : IntervalList) (ls : list node) : Prop :=
  NoDup (cells L ls) /\
  exists pv nx,
    (pv = None \/ pv = Some (head L)) /\ (nx = None \/ nx = Some (tail L)) /\
    h !! head L = Some (mkInterval MinInt MinInt None (first_or ls (Some (tail L)))) /\
    h !! tail L = Some (mkInterval MaxInt MaxInt (last_or ls (Some (head L))) None) /\
    dseg h pv ls nx.

(** The list holds the ranges [ivs], in order. *)
Definition holds (h : heap) (L : IntervalList) (ivs : list (Z * Z)) : Prop :=
  exists ls, rep h L ls /\ ls.*2 = ivs.

(** Sorted, disjoint, non-empty ranges from [lo] on. *)
Fixpoint disjoint_from (lo : Z) (ivs : list (Z * Z)) : Prop :=
  match ivs with
  | [] => True
  | (s, e) :: r => lo <= s /\ s < e /\ disjoint_from e r
  end.

(** The last end. *)
Definition bounded (hi : Z) (ivs : list (Z * Z)) : Prop := Forall (fun iv => iv.2 <= hi) ivs.

Definition cover (ivs : list (Z * Z)) (x : Z) : Prop := Exists (fun iv => iv.1 <= x < iv.2) ivs.

(** What is left of the ranges before [s], and after [e]. *)
Definition clip_left (s : Z) (ivs : list (Z * Z)) : list (Z * Z) :=
  omap (fun iv => if iv.1 <? s then Some (iv.1, Z.min iv.2 s) else None) ivs.
Definition clip_right (e : Z) (ivs : list (Z * Z)) : list (Z * Z) :=
  omap (fun iv => if e <? iv.2 then Some (Z.max iv.1 e, iv.2) else None) ivs.

(** Overriding the range from [s] to [e]. *)
Definition add_iv (ivs : list (Z * Z)) (s e : Z) : list (Z * Z) :=
  clip_left s ivs ++ (s, e) :: clip_right e ivs.

(** ** Heap steps *)

#[local] Arguments alter : simpl never.
#[local] Arguments lookup : simpl never.

Lemma load_run h p i : h !! p = Some i -> load p h = (Ok i, h).
Proof. unfold load. by intros ->. Qed.

Lemma store_run h p i f : h !! p = Some i -> store_at p f h = (Ok tt, alter f p h).
Proof. intros Hp. unfold store_at, bind. by rewrite (load_run _ _ _ Hp). Qed.

Lemma dseg_ext h h' pv ls nx :
  dseg h pv ls nx -> (forall l, l ∈ ls.*1 -> h' !! l = h !! l) -> dseg h' pv ls nx.
Proof.
  revert pv. induction ls as [|[l [s e]] r IH]; intros pv; [done|].
  intros [Hl Hr] Hext. split; [rewrite Hext; [done | set_solver]|].
  apply IH; [done | set_solver].
Qed.

Lemma last_or_snoc ls n d : last_or (ls ++ [n]) d = Some n.1.
Proof. unfold last_or. by rewrite last_snoc. Qed.

Lemma last_or_cons n ls d : last_or (n :: ls) d = last_or ls (Some n.1).
Proof. unfold last_or. rewrite last_cons. by destruct (last ls). Qed.

Lemma first_or_app a b d : first_or (a ++ b) d = first_or a (first_or b d).
Proof. by destruct a. Qed.

Lemma last_or_app a b d : last_or (a ++ b) d = last_or b (last_or a d).
Proof. unfold last_or. rewrite last_app. by destruct (last b). Qed.

Lemma dseg_app h pv a b nx :
  dseg h pv (a ++ b) nx <-> dseg h pv a (first_or b nx) /\ dseg h (last_or a pv) b nx.
Proof.
  revert pv. induction a as [|[l [s e]] a IH]; intros pv.
  - simpl. by split; [intros ?; split | intros [_ ?]].
  - rewrite last_or_cons. cbn [dseg app fst]. rewrite IH, first_or_app. tauto.
Qed.

Lemma dseg_lookup h pv ls nx l iv :
  dseg h pv ls nx -> (l, iv) ∈ ls ->
  exists a b, h !! l = Some (mkInterval iv.1 iv.2 a b).
Proof.
  revert pv. induction ls as [|[l' [s e]] r IH]; intros pv H Hin; [set_solver|].
  destruct H as [Hl Hr]. apply list_elem_of_In in Hin. destruct Hin as [[= <- <-]|Hin]; [eauto|].
  eapply IH; [done | by apply list_elem_of_In].
Qed.

(** ** The two walks *)

Lemma seek_after_run s nx h ls : forall fuel p c pv,
  h !! p = Some c -> Next c = first_or ls nx -> dseg h pv ls nx ->
  Forall (fun n : node => n.2.2 <= s) ls ->
  (forall l, nx = Some l -> exists d, h !! l = Some d /\ s < end_ d) ->
  (length ls < fuel)%nat ->
  seek_after fuel h p s = Some (default p (fst <$> last ls)).
Proof.
  induction ls as [|[l [a b]] r IH]; intros fuel p c pv Hp Hn Hseg Hall Hnx Hf;
    (destruct fuel as [|fuel]; [simpl in Hf; lia|]); cbn [seek_after]; rewrite Hp; cbn [mbind option_bind];
    rewrite Hn; cbn [first_or].
  - destruct nx as [l|]; [|done]. destruct (Hnx l eq_refl) as (d & -> & Hd).
    cbn. by rewrite (proj2 (Z.leb_gt _ _) Hd).
  - destruct Hseg as [Hl Hr]. cbn [fst]. rewrite Hl. cbn [option_bind mbind end_].
    apply Forall_cons in Hall as [Hb Hall]. cbn in Hb. rewrite (proj2 (Z.leb_le _ _) Hb).
    rewrite (IH fuel l _ (Some l) Hl eq_refl Hr Hall Hnx) by (simpl in Hf; lia).
    rewrite last_cons. by destruct (last r).
Qed.

Lemma seek_before_run e pv h ls : forall fuel q c nx,
  h !! q = Some c -> Prev c = last_or ls pv -> dseg h pv ls nx ->
  Forall (fun n : node => e <= n.2.1) ls ->
  (forall l, pv = Some l -> exists d, h !! l = Some d /\ start d < e) ->
  (length ls < fuel)%nat ->
  seek_before fuel h q e = Some (default q (fst <$> hd_error ls)).
Proof.
  induction ls as [|[l [a b]] r IH] using rev_ind; intros fuel q c nx Hq Hn Hseg Hall Hpv Hf;
    rewrite ?length_app in Hf;
    (destruct fuel as [|fuel]; [simpl in Hf; lia|]); cbn [seek_before]; rewrite Hq;
    cbn [mbind option_bind]; rewrite Hn, ?last_or_snoc.
  - cbn. destruct pv as [l|]; [|done]. destruct (Hpv l eq_refl) as (d & -> & Hd).
    cbn. by rewrite (proj2 (Z.leb_gt _ _) Hd).
  - apply dseg_app in Hseg as [Hr [Hl _]]. cbn [fst]. rewrite Hl. cbn [option_bind mbind start].
    apply Forall_app in Hall as [Hall Hb]. apply Forall_cons in Hb as [Hb _]. cbn in Hb.
    rewrite (proj2 (Z.leb_le _ _) Hb).
    rewrite (IH fuel l _ _ Hl eq_refl Hr Hall Hpv) by (simpl in Hf; lia).
    by destruct r as [|[? ?] ?].
Qed.

(** ** Linking the new cell in *)

Definition p_of (L : IntervalList) (ls : list node) : loc := default (head L) (fst <$> last ls).
Definition q_of (L : IntervalList) (ls : list node) : loc := default (tail L) (fst <$> hd_error ls).

Lemma front_ext h h' L ls nx :
  front h L ls nx -> (forall l, l ∈ head L :: ls.*1 -> h' !! l = h !! l) -> front h' L ls nx.
Proof.
  intros (pv & ? & Hh & Hs) Hext. exists pv. split; [done|]. split.
  - rewrite Hext; [done | set_solver].
  - eapply dseg_ext; [done | set_solver].
Qed.

Lemma back_ext h h' L ls pv :
  back h L ls pv -> (forall l, l ∈ tail L :: ls.*1 -> h' !! l = h !! l) -> back h' L ls pv.
Proof.
  intros (nx & ? & Hh & Hs) Hext. exists nx. split; [done|]. split.
  - rewrite Hext; [done | set_solver].
  - eapply dseg_ext; [done | set_solver].
Qed.

(** What stands before and after a front or a back. *)
Lemma front_p h L ls nx :
  front h L ls nx -> exists c, h !! p_of L ls = Some c /\ Next c = nx.
Proof.
  intros (pv & _ & Hh & Hs). unfold p_of. destruct ls as [|[l [a b]] r _] using rev_ind; [eauto|].
  apply dseg_app in Hs as [_ [Hl _]]. rewrite last_snoc. cbn. eauto.
Qed.

Lemma back_q h L ls pv :
  back h L ls pv -> exists c, h !! q_of L ls = Some c /\ Prev c = pv.
Proof.
  intros (nx & _ & Ht & Hs). unfold q_of. destruct ls as [|[l [a b]] r]; cbn; [eauto|].
  destruct Hs as [Hl _]. eauto.
Qed.

Lemma front_relink h L ls x y :
  front h L ls x -> NoDup (head L :: ls.*1) ->
  front (alter (with_Next y) (p_of L ls) h) L ls y.
Proof.
  intros (pv & Hpv & Hh & Hs) [Hhd Hnd]%NoDup_cons. exists pv. split; [done|].
  unfold p_of. destruct ls as [|[l [a b]] r _] using rev_ind.
  - cbn in *. by rewrite list_lookup_alter_eq, Hh.
  - rewrite last_snoc. cbn. rewrite fmap_app in Hhd, Hnd. cbn in Hhd, Hnd.
    apply dseg_app in Hs as [Hr [Hl _]]. apply NoDup_app in Hnd as (_ & Hdis & _).
    rewrite list_lookup_alter_ne by set_solver.
    rewrite Hh, !first_or_app. split; [done|]. apply dseg_app. split; [|split; [|done]].
    + eapply dseg_ext; [done|]. intros l' Hl'. apply list_lookup_alter_ne. set_solver.
    + by rewrite list_lookup_alter_eq, Hl.
Qed.

Lemma back_relink h L ls x y :
  back h L ls x -> NoDup (tail L :: ls.*1) ->
  back (alter (with_Prev y) (q_of L ls) h) L ls y.
Proof.
  intros (nx & Hnx & Ht & Hs) [Htl Hnd]%NoDup_cons. exists nx. split; [done|].
  unfold q_of. destruct ls as [|[l [a b]] r]; cbn in *.
  - by rewrite list_lookup_alter_eq, Ht.
  - destruct Hs as [Hl Hr]. apply NoDup_cons in Hnd as [Hnl _].
    rewrite list_lookup_alter_ne by set_solver. rewrite Ht, !last_or_cons. split; [done|].
    split; [by rewrite list_lookup_alter_eq, Hl|].
    eapply dseg_ext; [done|]. intros l' Hl'. apply list_lookup_alter_ne. set_solver.
Qed.

Lemma front_snoc h L ls l s e x :
  front h L ls (Some l) -> h !! l = Some (mkInterval s e (last_or ls None) x) ->
  front h L (ls ++ [(l, (s, e))]) x.
Proof.
  intros (pv & Hpv & Hh & Hs) Hl. exists (match ls with [] => None | _ => pv end).
  split; [destruct ls; auto|]. split; [by rewrite first_or_app|].
  apply dseg_app. destruct ls as [|n r]; cbn [dseg first_or fst].
  - by split.
  - split; [done|]. split; [|done]. rewrite last_or_cons in *. done.
Qed.

Lemma back_cons h L ls l s e x :
  back h L ls (Some l) -> h !! l = Some (mkInterval s e x (first_or ls None)) ->
  back h L ((l, (s, e)) :: ls) x.
Proof.
  intros (nx & Hnx & Ht & Hs) Hl. exists (match ls with [] => None | _ => nx end).
  split; [destruct ls; auto|]. split; [by rewrite last_or_cons|].
  destruct ls as [|n r]; cbn [dseg first_or fst] in *; by split.
Qed.

(** A front and a back that meet make a list. *)
Lemma front_back_rep h L a b i s e :
  front h L a (Some i) -> back h L b (Some i) ->
  h !! i = Some (mkInterval s e (last_or a None) (first_or b None)) ->
  NoDup (cells L (a ++ (i, (s, e)) :: b)) -> rep h L (a ++ (i, (s, e)) :: b).
Proof.
  intros Hf Hb Hi Hnd. split; [done|].
  destruct (front_snoc _ _ _ _ _ _ _ Hf Hi) as (pv & Hpv & Hh & Hs).
  destruct Hb as (nx & Hnx & Ht & Hsb). exists pv, (match b with [] => None | _ => nx end).
  split; [done|]. split; [destruct b; auto|].
  rewrite first_or_app in *. split; [done|]. split; [by rewrite last_or_app, last_or_cons|].
  change (a ++ (i, (s, e)) :: b) with (a ++ [(i, (s, e))] ++ b). rewrite app_assoc.
  apply dseg_app. rewrite last_or_snoc. destruct b as [|n r]; [by split|].
  split; [done | by destruct n as [? [? ?]]].
Qed.

(** What link_after and link_before keep of the neighbour [n]. *)
Definition kept_before (n : option Interval) (s : Z) : list (Z * Z) :=
  match n with
  | Some c => if start c <? s then [(start c, s)] else []
  | None => []
  end.
Definition kept_after (n : option Interval) (e : Z) : list (Z * Z) :=
  match n with
  | Some c => if e <? end_ c then [(e, end_ c)] else []
  | None => []
  end.

Lemma p_of_head L ls : head L ∉ ls.*1 -> p_of L ls = head L <-> ls = [].
Proof.
  unfold p_of. destruct ls as [|[l iv] r _] using rev_ind; [done|].
  rewrite last_snoc, fmap_app. cbn. intros Hh. split; [set_solver|].
  intros H. by destruct r.
Qed.

Lemma q_of_tail L ls : tail L ∉ ls.*1 -> q_of L ls = tail L <-> ls = [].
Proof. unfold q_of. destruct ls as [|[l iv] r]; cbn; [done|]. set_solver. Qed.

Lemma last_or_p_of L ls : ls <> [] -> last_or ls None = Some (p_of L ls).
Proof.
  unfold last_or, p_of. destruct ls as [|n r _] using rev_ind; [done|]. by rewrite last_snoc.
Qed.

Lemma first_or_q_of L ls : ls <> [] -> first_or ls None = Some (q_of L ls).
Proof. by destruct ls. Qed.

Lemma load_opt_run h x :
  (forall l, x = Some l -> is_Some (h !! l)) -> load_opt x h = (Ok (x ≫= fun l => h !! l), h).
Proof.
  intros Hx. destruct x as [l|]; [|done]. destruct (Hx l eq_refl) as [i Hi].
  unfold load_opt, bind, load. cbn [mbind option_bind]. by rewrite Hi.
Qed.

(** One step of a heap computation. *)
Lemma store_bind {A} h p f (k : HM A) :
  is_Some (h !! p) -> (store_at p f ;;; k) h = k (alter f p h).
Proof. intros [i Hi]. unfold bind. by rewrite (store_run _ _ _ _ Hi). Qed.

Lemma alter_is_Some (h : heap) f p l : is_Some (h !! l) -> is_Some (alter f p h !! l).
Proof. rewrite list_lookup_alter. case_decide; [subst; by rewrite fmap_is_Some | done]. Qed.

Lemma app_is_Some (h : heap) i l : is_Some (h !! l) -> is_Some ((h ++ [i]) !! l).
Proof. intros [c Hc]. exists c. by apply lookup_app_l_Some. Qed.

Create HintDb cells.
#[export] Hint Resolve alter_is_Some app_is_Some : cells.

(** Lookups in an updated heap. *)
Ltac cell :=
  repeat first
    [ rewrite list_lookup_alter_eq
    | rewrite list_lookup_alter_ne by (done || congruence || lia || set_solver) ].

Lemma link_behind h L a i s e x :
  front h L a x -> NoDup (head L :: a.*1) -> i ∉ head L :: a.*1 ->
  h !! i = Some (mkInterval s e None None) ->
  exists h',
    (set_Next (p_of L a) (Some i) ;;;
     if bool_decide (p_of L a = head L) then ret tt else set_Prev i (Some (p_of L a))) h
    = (Ok tt, h') /\
    front h' L a (Some i) /\ h' !! i = Some (mkInterval s e (last_or a None) None) /\
    (forall l, l <> i -> l ∉ head L :: a.*1 -> h' !! l = h !! l) /\ length h' = length h.
Proof.
  intros Hf Hnd Hi Hci. pose proof (front_relink _ _ _ _ (Some i) Hf Hnd) as Hf'.
  destruct (front_p _ _ _ _ Hf) as (c & Hc & _). apply NoDup_cons in Hnd as [Hhd _].
  assert (Hp : p_of L a ∈ head L :: a.*1).
  { unfold p_of. destruct a as [|n r _] using rev_ind; [set_solver|].
    rewrite last_snoc, fmap_app. set_solver. }
  unfold set_Next. rewrite store_bind by eauto. case_bool_decide as Hh.
  - eexists. split; [reflexivity|]. split; [done|]. split; [|split].
    + apply p_of_head in Hh as ->; [|done]. by cell.
    + intros l _ Hl. cell. done.
    + by rewrite length_alter.
  - eexists. split; [unfold set_Prev; eapply store_run; cell; exact Hci|]. split; [|split; [|split]].
    + eapply front_ext; [exact Hf'|]. intros l Hl. by cell.
    + cell. rewrite Hci. cbn. rewrite (last_or_p_of L); [done|]. by intros ->.
    + intros l Hl1 Hl. by cell.
    + by rewrite !length_alter.
Qed.

Lemma bind_seq {A B} (m : HM A) (n : HM B) {C} (k : HM C) h h' b :
  (m ;;; n) h = (Ok b, h') -> (m ;;; n ;;; k) h = k h'.
Proof. unfold bind. destruct (m h) as [[a|e|] h1]; [|done..]. by intros ->. Qed.

(** The heap after link_after: the front now ends with the kept range [K], if
    any, and the new cell [i]; only the front and [i] have changed. *)
Definition linked_front (h : heap) (L : IntervalList) (a : list node) (i : loc) (s e : Z)
    (K : list (Z * Z)) (h' : heap) : Prop :=
  exists T : list node,
    front h' L (a ++ T) (Some i) /\
    h' !! i = Some (mkInterval s e (last_or (a ++ T) None) None) /\
    T.*2 = K /\ (T = [] \/ T.*1 = [length h]) /\
    (forall l, (l < length h)%nat -> l <> i -> l ∉ head L :: a.*1 -> h' !! l = h !! l) /\
    (length h + length T <= length h')%nat.

Lemma link_after_run h L a i s e x :
  front h L a x -> NoDup (head L :: a.*1) -> i ∉ head L :: a.*1 ->
  h !! i = Some (mkInterval s e None None) -> (forall l, x = Some l -> is_Some (h !! l)) ->
  (forall l, l ∈ head L :: a.*1 -> (l < length h)%nat) ->
  exists h', link_after L (p_of L a) i s h = (Ok tt, h') /\
    linked_front h L a i s e (kept_before (x ≫= fun l => h !! l) s) h'.
Proof.
  intros Hf Hnd Hi Hci Hx Hlt. destruct (front_p _ _ _ _ Hf) as (c & Hc & Hn).
  unfold link_after, bind at 1. rewrite (load_run _ _ _ Hc), Hn.
  unfold bind at 1. rewrite load_opt_run by done.
  assert (Hil := lookup_lt_Some _ _ _ Hci).
  destruct (link_behind _ _ _ _ _ _ _ Hf Hnd Hi Hci) as (h1 & Hr1 & Hf1 & Hi1 & Hx1 & Hl1).
  assert (Hplain : linked_front h L a i s e [] h1).
  { exists []. rewrite app_nil_r. cbn. rewrite Hl1. eauto 10 with lia. }
  destruct (x ≫= fun l => h !! l) as [n|]; [|rewrite Hr1; by eauto].
  cbn [kept_before]. destruct (start n <? s); [|rewrite Hr1; by eauto].
  clear Hplain h1 Hr1 Hf1 Hi1 Hx1 Hl1. set (t := length h).
  unfold bind at 1. cbn [alloc]. fold t.
  assert (Hext : forall l, (l < length h)%nat -> (h ++ [mkInterval (start n) s None None]) !! l = h !! l)
    by (intros; by apply lookup_app_l).
  assert (Ht : t ∉ head L :: a.*1) by (intros Hin; specialize (Hlt _ Hin); lia).
  destruct (link_behind (h ++ [mkInterval (start n) s None None]) L a t (start n) s x) as
    (h1 & Hr1 & Hf1 & Hi1 & Hx1 & Hl1);
    [eapply front_ext; [done|]; intros l Hl; apply Hext, Hlt, Hl | done | done
    | by apply list_lookup_middle |].
  rewrite (bind_seq _ _ _ _ _ _ Hr1). rewrite length_app in Hl1. cbn in Hl1.
  assert (Hi2 : h1 !! i = Some (mkInterval s e None None)) by (rewrite Hx1, Hext; [done|lia|lia|done]).
  unfold set_Next, set_Prev. rewrite store_bind by eauto.
  eexists. split; [eapply store_run; cell; exact Hi2|].
  exists [(t, (start n, s))]. split; [|split; [|split; [done|split; [by right|split]]]].
  - apply front_snoc.
    + eapply front_ext; [done|]. intros l Hl. by cell.
    + cell. by rewrite Hi1.
  - cell. rewrite Hi2. by rewrite last_or_snoc.
  - intros l Hl Hli Hla. cell. rewrite Hx1; [by apply Hext | lia | done].
  - rewrite !length_alter. cbn. lia.
Qed.

(** The mirror images, on the back of the list. *)
Lemma link_ahead h L b i s e pv y :
  back h L b y -> NoDup (tail L :: b.*1) -> i ∉ tail L :: b.*1 ->
  h !! i = Some (mkInterval s e pv None) ->
  exists h',
    (set_Prev (q_of L b) (Some i) ;;;
     if bool_decide (q_of L b = tail L) then ret tt else set_Next i (Some (q_of L b))) h
    = (Ok tt, h') /\
    back h' L b (Some i) /\ h' !! i = Some (mkInterval s e pv (first_or b None)) /\
    (forall l, l <> i -> l ∉ tail L :: b.*1 -> h' !! l = h !! l) /\ length h' = length h.
Proof.
  intros Hb Hnd Hi Hci. pose proof (back_relink _ _ _ _ (Some i) Hb Hnd) as Hb'.
  destruct (back_q _ _ _ _ Hb) as (c & Hc & _). apply NoDup_cons in Hnd as [Htl _].
  assert (Hq : q_of L b ∈ tail L :: b.*1) by (unfold q_of; destruct b; set_solver).
  unfold set_Prev. rewrite store_bind by eauto. case_bool_decide as Hh.
  - eexists. split; [reflexivity|]. split; [done|]. split; [|split].
    + apply q_of_tail in Hh as ->; [|done]. by cell.
    + intros l _ Hl. cell. done.
    + by rewrite length_alter.
  - eexists. split; [unfold set_Next; eapply store_run; cell; exact Hci|]. split; [|split; [|split]].
    + eapply back_ext; [exact Hb'|]. intros l Hl. by cell.
    + cell. rewrite Hci. cbn. rewrite (first_or_q_of L); [done|]. by intros ->.
    + intros l Hl1 Hl. by cell.
    + by rewrite !length_alter.
Qed.

Definition linked_back (h : heap) (L : IntervalList) (b : list node) (i : loc) (s e : Z)
    (pv : option loc) (K : list (Z * Z)) (h' : heap) : Prop :=
  exists T : list node,
    back h' L (T ++ b) (Some i) /\
    h' !! i = Some (mkInterval s e pv (first_or (T ++ b) None)) /\
    T.*2 = K /\ (T = [] \/ T.*1 = [length h]) /\
    (forall l, (l < length h)%nat -> l <> i -> l ∉ tail L :: b.*1 -> h' !! l = h !! l).

Lemma link_before_run h L b i s e pv y :
  back h L b y -> NoDup (tail L :: b.*1) -> i ∉ tail L :: b.*1 ->
  h !! i = Some (mkInterval s e pv None) -> (forall l, y = Some l -> is_Some (h !! l)) ->
  (forall l, l ∈ tail L :: b.*1 -> (l < length h)%nat) ->
  exists h', link_before L (q_of L b) i e h = (Ok tt, h') /\
    linked_back h L b i s e pv (kept_after (y ≫= fun l => h !! l) e) h'.
Proof.
  intros Hb Hnd Hi Hci Hy Hlt. destruct (back_q _ _ _ _ Hb) as (c & Hc & Hn).
  unfold link_before, bind at 1. rewrite (load_run _ _ _ Hc), Hn.
  unfold bind at 1. rewrite load_opt_run by done.
  assert (Hil := lookup_lt_Some _ _ _ Hci).
  destruct (link_ahead _ _ _ _ _ _ _ _ Hb Hnd Hi Hci) as (h1 & Hr1 & Hb1 & Hi1 & Hx1 & Hl1).
  assert (Hplain : linked_back h L b i s e pv [] h1) by (exists []; cbn; eauto 10).
  destruct (y ≫= fun l => h !! l) as [n|]; [|rewrite Hr1; by eauto].
  cbn [kept_after]. destruct (e <? end_ n); [|rewrite Hr1; by eauto].
  clear Hplain h1 Hr1 Hb1 Hi1 Hx1 Hl1. set (t := length h).
  unfold bind at 1. cbn [alloc]. fold t.
  assert (Hext : forall l, (l < length h)%nat -> (h ++ [mkInterval e (end_ n) None None]) !! l = h !! l)
    by (intros; by apply lookup_app_l).
  assert (Ht : t ∉ tail L :: b.*1) by (intros Hin; specialize (Hlt _ Hin); lia).
  destruct (link_ahead (h ++ [mkInterval e (end_ n) None None]) L b t e (end_ n) None y) as
    (h1 & Hr1 & Hb1 & Hi1 & Hx1 & Hl1);
    [eapply back_ext; [done|]; intros l Hl; apply Hext, Hlt, Hl | done | done
    | by apply list_lookup_middle |].
  rewrite (bind_seq _ _ _ _ _ _ Hr1).
  assert (Hi2 : h1 !! i = Some (mkInterval s e pv None)) by (rewrite Hx1, Hext; [done|lia|lia|done]).
  unfold set_Next, set_Prev. rewrite store_bind by eauto.
  eexists. split; [eapply store_run; cell; exact Hi1|].
  exists [(t, (e, end_ n))]. split; [|split; [|split; [done|split; [by right|]]]].
  - apply back_cons.
    + eapply back_ext; [done|]. intros l Hl. by cell.
    + cell. by rewrite Hi1.
  - cell. by rewrite Hi2.
  - intros l Hl Hli Hla. cell. rewrite Hx1; [by apply Hext | lia | done].
Qed.

(** ** Splitting a list at the new range *)

Lemma disjoint_Forall lo ivs :
  disjoint_from lo ivs -> Forall (fun iv => lo <= iv.1 /\ iv.1 < iv.2) ivs.
Proof.
  revert lo. induction ivs as [|[s e] r IH]; intros lo; [done|]. intros (? & ? & Hr).
  constructor; [done|]. eapply Forall_impl; [by apply IH|]. cbn. intros iv. lia.
Qed.

Lemma disjoint_weaken lo lo' ivs : lo' <= lo -> disjoint_from lo ivs -> disjoint_from lo' ivs.
Proof. destruct ivs as [|[s e] r]; cbn; [done|]. intros ? (?&?&?). split_and!; [lia | done..]. Qed.

Lemma disjoint_app lo a b :
  disjoint_from lo (a ++ b) <->
  disjoint_from lo a /\ disjoint_from (default lo (snd <$> last a)) b.
Proof.
  revert lo. induction a as [|[s e] r IH]; intros lo; [cbn; tauto|].
  cbn [app disjoint_from]. rewrite IH, last_cons. destruct (last r); cbn; tauto.
Qed.

Lemma split_at lo (ls : list node) s e :
  disjoint_from lo ls.*2 -> s < e ->
  exists a m b, ls = a ++ m ++ b /\ Forall (fun n => n.2.2 <= s) a /\
    Forall (fun n => s < n.2.2 /\ n.2.1 < e) m /\ Forall (fun n => e <= n.2.1) b.
Proof.
  intros Hd Hse. revert lo Hd. induction ls as [|[l [x y]] r IH]; intros lo Hd.
  { by exists [], [], []. }
  destruct Hd as (Hx & Hxy & Hr). destruct (IH _ Hr) as (a & m & b & -> & Ha & Hm & Hb).
  destruct (decide (y <= s)); [by exists ((l, (x, y)) :: a), m, b; auto|].
  apply disjoint_Forall in Hr. rewrite !fmap_app, !Forall_app in Hr. destruct Hr as (Hra & Hrm & _).
  assert (a = []) as ->.
  { destruct a as [|[? [? ?]] ?]; [done|]. apply Forall_cons in Ha as [Ha _].
    apply Forall_cons in Hra as [Hra _]. cbn in *. lia. }
  destruct (decide (x < e)).
  { exists [], ((l, (x, y)) :: m), b. cbn. split_and!; [done | done | | done].
    constructor; [cbn; lia | done]. }
  assert (m = []) as ->.
  { destruct m as [|[? [? ?]] ?]; [done|]. apply Forall_cons in Hm as [Hm _].
    apply Forall_cons in Hrm as [Hrm _]. cbn in *. lia. }
  exists [], [], ((l, (x, y)) :: b). cbn. split_and!; [done | done | done |].
  constructor; [cbn; lia | done].
Qed.

Lemma rep_front h L a b :
  rep h L (a ++ b) -> exists nx, (nx = None \/ nx = Some (tail L)) /\ front h L a (first_or b nx).
Proof.
  intros (_ & pv & nx & Hpv & Hnx & Hh & _ & Hs). rewrite first_or_app in Hh.
  apply dseg_app in Hs as [Ha _]. destruct a as [|n a].
  - exists (Some (tail L)). split; [auto|]. by exists pv.
  - exists nx. split; [done|]. by exists pv.
Qed.

Lemma rep_back h L a b :
  rep h L (a ++ b) -> exists pv, (pv = None \/ pv = Some (head L)) /\ back h L b (last_or a pv).
Proof.
  intros (_ & pv & nx & Hpv & Hnx & _ & Ht & Hs). rewrite last_or_app in Ht.
  apply dseg_app in Hs as [_ Hb]. destruct b as [|n b].
  - exists (Some (head L)). split; [auto|]. by exists nx.
  - exists pv. split; [done|]. exists nx. rewrite last_or_cons in *. done.
Qed.

Lemma clip_left_all s ivs : Forall (fun iv => iv.1 < iv.2 /\ iv.2 <= s) ivs -> clip_left s ivs = ivs.
Proof.
  induction 1 as [|[x y] r [Hx Hy] _ IH]; [done|]. cbn in *.
  rewrite (proj2 (Z.ltb_lt _ _)) by lia. unfold clip_left in IH.
  by rewrite IH, Z.min_l by lia.
Qed.

Lemma clip_left_none s ivs : Forall (fun iv => s <= iv.1) ivs -> clip_left s ivs = [].
Proof.
  induction 1 as [|[x y] r Hx _ IH]; [done|]. cbn in *.
  by rewrite (proj2 (Z.ltb_ge _ _)) by lia.
Qed.

Lemma clip_right_all e ivs : Forall (fun iv => e <= iv.1 /\ iv.1 < iv.2) ivs -> clip_right e ivs = ivs.
Proof.
  induction 1 as [|[x y] r [Hx Hy] _ IH]; [done|]. cbn in *.
  rewrite (proj2 (Z.ltb_lt _ _)) by lia. unfold clip_right in IH.
  by rewrite IH, Z.max_l by lia.
Qed.

Lemma clip_right_none e ivs : Forall (fun iv => iv.2 <= e) ivs -> clip_right e ivs = [].
Proof.
  induction 1 as [|[x y] r Hx _ IH]; [done|]. cbn in *.
  by rewrite (proj2 (Z.ltb_ge _ _)) by lia.
Qed.

Lemma clip_left_app s a b : clip_left s (a ++ b) = clip_left s a ++ clip_left s b.
Proof. apply omap_app. Qed.
Lemma clip_right_app e a b : clip_right e (a ++ b) = clip_right e a ++ clip_right e b.
Proof. apply omap_app. Qed.

Lemma dseg_first h pv ls nx n : dseg h pv (n :: ls) nx ->
  exists a b, h !! n.1 = Some (mkInterval n.2.1 n.2.2 a b).
Proof. destruct n as [l [s e]]. intros [H _]. eauto. Qed.

Lemma kept_before_clip h pv m b nx nx' lo s e :
  (forall l, nx = Some l -> exists c, h !! l = Some c /\ s <= start c) -> s < e ->
  dseg h pv (m ++ b) nx' -> disjoint_from lo (m ++ b).*2 ->
  Forall (fun n : node => s < n.2.2 /\ n.2.1 < e) m -> Forall (fun n : node => e <= n.2.1) b ->
  kept_before (first_or (m ++ b) nx ≫= fun l => h !! l) s = clip_left s (m ++ b).*2.
Proof.
  intros Hnx Hse Hs Hd Hm Hb. destruct m as [|n m].
  - cbn [app] in *. rewrite clip_left_none.
    2:{ rewrite Forall_fmap. eapply Forall_impl; [exact Hb|]. cbn. intros; lia. }
    destruct b as [|n b]; cbn [first_or].
    + destruct nx as [l|]; [|done]. destruct (Hnx l eq_refl) as (c & Hc & Hle). cbn. rewrite Hc. cbn.
      by rewrite (proj2 (Z.ltb_ge _ _) Hle).
    + destruct (dseg_first _ _ _ _ _ Hs) as (ca & cb & Hn). cbn. rewrite Hn. cbn.
      apply Forall_cons in Hb as [Hb _]. by rewrite (proj2 (Z.ltb_ge _ _)) by lia.
  - cbn [app first_or] in *. destruct (dseg_first _ _ _ _ _ Hs) as (ca & cb & Hn).
    cbn [mbind option_bind]. rewrite Hn. cbn [kept_before start].
    apply Forall_cons in Hm as [[Hm _] _]. destruct n as [l [x y]]. cbn in *.
    destruct Hd as (_ & Hxy & Hd). apply disjoint_Forall in Hd.
    fold (clip_left s (m ++ b).*2). rewrite (clip_left_none s (m ++ b).*2).
    2:{ eapply Forall_impl; [exact Hd|]. cbn. intros; lia. }
    rewrite Z.min_r by lia. by destruct (x <? s).
Qed.

Lemma disjoint_before lo a x y :
  disjoint_from lo (a ++ [(x, y)]) -> Forall (fun iv => iv.2 <= x) a.
Proof.
  revert lo. induction a as [|[s e] r IH]; intros lo; [done|]. intros (? & ? & Hr).
  constructor; [|by eapply IH]. cbn. apply disjoint_Forall in Hr.
  apply Forall_app in Hr as [_ Hr]. apply Forall_cons in Hr as [Hr _]. apply Hr.
Qed.

Lemma kept_after_clip (h : heap) pv a m lo s e :
  (forall l, pv = Some l -> exists c, h !! l = Some c /\ end_ c <= e) -> s < e ->
  (forall n, last (a ++ m) = Some n ->
     exists ca cb, h !! n.1 = Some (mkInterval n.2.1 n.2.2 ca cb)) ->
  disjoint_from lo (a ++ m).*2 ->
  Forall (fun n : node => n.2.2 <= s) a -> Forall (fun n : node => s < n.2.2 /\ n.2.1 < e) m ->
  kept_after (last_or (a ++ m) pv ≫= fun l => h !! l) e = clip_right e (a ++ m).*2.
Proof.
  intros Hpv Hse Hs Hd Ha Hm. destruct m as [|n m _] using rev_ind.
  - rewrite app_nil_r in *. rewrite clip_right_none.
    2:{ rewrite Forall_fmap. eapply Forall_impl; [exact Ha|]. cbn. intros; lia. }
    destruct a as [|n a _] using rev_ind.
    + cbn. destruct pv as [l|]; [|done]. destruct (Hpv l eq_refl) as (c & Hc & Hle). cbn. rewrite Hc.
      cbn. by rewrite (proj2 (Z.ltb_ge _ _) Hle).
    + destruct (Hs n) as (ca & cb & Hn); [by rewrite last_snoc|].
      rewrite last_or_snoc. cbn. rewrite Hn. cbn.
      apply Forall_app in Ha as [_ Ha]. apply Forall_cons in Ha as [Ha _].
      by rewrite (proj2 (Z.ltb_ge _ _)) by lia.
  - rewrite app_assoc in *. destruct (Hs n) as (ca & cb & Hn); [by rewrite last_snoc|].
    rewrite last_or_snoc. cbn [mbind option_bind]. rewrite Hn. cbn [kept_after end_].
    apply Forall_app in Hm as [_ Hm]. apply Forall_cons in Hm as [[_ Hm] _].
    destruct n as [l [x y]]. rewrite fmap_app, clip_right_app in *. cbn in Hd, Hm |- *.
    rewrite clip_right_none.
    2:{ eapply Forall_impl; [eapply disjoint_before, Hd|]. cbn. intros; lia. }
    rewrite Z.max_r by lia. by destruct (e <? y).
Qed.

Lemma rep_lt h L ls l : rep h L ls -> l ∈ cells L ls -> (l < length h)%nat.
Proof.
  intros (_ & pv & nx & _ & _ & Hh & Ht & Hs) Hl. unfold cells in Hl.
  apply elem_of_cons in Hl as [->|Hl]; [by eapply lookup_lt_Some|].
  apply elem_of_cons in Hl as [->|Hl]; [by eapply lookup_lt_Some|].
  apply list_elem_of_fmap in Hl as ([l' iv] & -> & Hl).
  destruct (dseg_lookup _ _ _ _ _ _ Hs Hl) as (? & ? & ?). by eapply lookup_lt_Some.
Qed.

Lemma rep_length h L ls : rep h L ls -> (S (S (length ls)) <= length h)%nat.
Proof.
  intros Hr. assert (Hlt := fun l => rep_lt h L ls l Hr). destruct Hr as [Hnd _].
  rewrite <- (length_seq (length h) 0).
  replace (S (S (length ls))) with (length (cells L ls)) by (cbn; by rewrite length_fmap).
  apply submseteq_length, NoDup_submseteq; [done|]. intros l Hl. apply elem_of_seq.
  specialize (Hlt l Hl). lia.
Qed.

Lemma front_lookup h L ls nx n : front h L ls nx -> n ∈ ls ->
  exists ca cb, h !! n.1 = Some (mkInterval n.2.1 n.2.2 ca cb).
Proof. destruct n as [l iv]. intros (pv & _ & _ & Hs) Hn. by apply (dseg_lookup _ _ _ _ _ _ Hs Hn). Qed.

Lemma front_head h L ls nx : front h L ls nx ->
  exists c, h !! head L = Some c /\ end_ c = MinInt /\ start c = MinInt.
Proof. intros (pv & _ & Hh & _). rewrite Hh. eauto. Qed.

Lemma cells_app L a b : cells L (a ++ b) = head L :: tail L :: a.*1 ++ b.*1.
Proof. unfold cells. by rewrite fmap_app. Qed.

(** The back of the list is untouched by link_after. *)
Lemma linked_front_back h L a m b i s e K h1 y :
  rep h L (a ++ m ++ b) -> i ∉ cells L (a ++ m ++ b) -> back h L b y ->
  linked_front h L a i s e K h1 ->
  back h1 L b y /\
  (forall n, last (a ++ m) = Some n ->
     exists ca cb, h1 !! n.1 = Some (mkInterval n.2.1 n.2.2 ca cb)).
Proof.
  intros Hr Hi Hb (T & Hf & _ & _ & _ & Hx & _).
  assert (Hlt := fun l => rep_lt h L _ l Hr). destruct Hr as (Hnd & pv & nx & _ & _ & _ & _ & Hs).
  rewrite cells_app, fmap_app in *. rewrite !NoDup_cons, !NoDup_app in Hnd.
  destruct Hnd as (Hh & Ht & _ & Hdis & _ & Hdis2 & _).
  assert (Hframe : forall l, l ∈ tail L :: m.*1 ++ b.*1 -> h1 !! l = h !! l).
  { intros l Hl. apply Hx; [apply Hlt; set_solver | set_solver |]. clear -Hl Hh Ht Hdis. set_solver. }
  split; [eapply back_ext; [done|]; intros l Hl; apply Hframe; set_solver|].
  intros n Hn. destruct m as [|n' m _] using rev_ind.
  - rewrite app_nil_r in Hn. eapply front_lookup; [exact Hf|]. apply last_Some_elem_of in Hn. set_solver.
  - rewrite app_assoc, last_snoc in Hn. injection Hn as ->. rewrite Hframe by (rewrite fmap_app; set_solver).
    apply dseg_app in Hs as [_ Hs]. apply dseg_app in Hs as [Hs _].
    destruct n as [l iv]. apply (dseg_lookup _ _ _ _ _ _ Hs). set_solver.
Qed.

Lemma new_cells_NoDup (h h1 : heap) L a m b (T1 T2 : list node) i iv :
  NoDup (cells L (a ++ m ++ b)) -> i ∉ cells L (a ++ m ++ b) ->
  (forall l, l ∈ i :: cells L (a ++ m ++ b) -> (l < length h)%nat) ->
  T1 = [] \/ T1.*1 = [length h] -> T2 = [] \/ T2.*1 = [length h1] ->
  (length h + length T1 <= length h1)%nat ->
  NoDup (cells L ((a ++ T1) ++ (i, iv) :: T2 ++ b)).
Proof.
  intros Hnd Hi Hlt H1 H2 Hlen.
  assert (Hb : forall l, l ∈ head L :: tail L :: a.*1 ++ b.*1 -> (l < length h)%nat /\ l <> i).
  { intros l Hl. assert (l ∈ cells L (a ++ m ++ b)) by (rewrite cells_app, fmap_app; set_solver).
    split; [apply Hlt; set_solver | set_solver]. }
  assert (Hil : (i < length h)%nat) by (apply Hlt; set_solver).
  assert (Hold : NoDup (head L :: tail L :: a.*1 ++ b.*1)).
  { eapply sublist_NoDup; [exact Hnd|]. rewrite cells_app, fmap_app.
    do 2 apply sublist_skip. apply sublist_app; [done | by apply sublist_inserts_l]. }
  assert (Hp : cells L ((a ++ T1) ++ (i, iv) :: T2 ++ b) ≡ₚ
               T1.*1 ++ i :: T2.*1 ++ head L :: tail L :: a.*1 ++ b.*1).
  { rewrite cells_app, fmap_cons, !fmap_app. cbn [fst]. solve_Permutation. }
  rewrite Hp. apply NoDup_app. split_and!.
  - destruct H1 as [-> | ->]; [constructor | apply NoDup_singleton].
  - intros l Hl Hin. assert (length T1 = 1%nat /\ l = length h) as [HT ->].
    { destruct H1 as [-> | H1]; [set_solver|]. rewrite H1 in Hl.
      apply list_elem_of_singleton in Hl. split; [|done].
      apply (f_equal length) in H1. by rewrite length_fmap in H1. }
    apply elem_of_cons in Hin as [Heq|Hin]; [lia|].
    apply elem_of_app in Hin as [Hin|Hin]; [|apply Hb in Hin; lia].
    destruct H2 as [-> | H2]; [set_solver|]. rewrite H2 in Hin. apply list_elem_of_singleton in Hin. lia.
  - apply NoDup_cons. split; [|apply NoDup_app; split_and!; [| |done]].
    + rewrite elem_of_app. intros [Hin|Hin]; [|apply Hb in Hin; tauto].
      destruct H2 as [-> | H2]; [set_solver|]. rewrite H2 in Hin.
      apply list_elem_of_singleton in Hin. lia.
    + destruct H2 as [-> | ->]; [constructor | apply NoDup_singleton].
    + intros l Hl Hin. apply Hb in Hin. destruct H2 as [-> | H2]; [set_solver|].
      rewrite H2 in Hl. apply list_elem_of_singleton in Hl. lia.
Qed.

Lemma seek_run walk h p x r :
  walk (length h) h p x = Some r -> seek walk p x h = (Ok r, h).
Proof. intros H. unfold seek, bind, gets. cbn. by rewrite H. Qed.

Lemma seek_after_rep h L a m b s e :
  rep h L (a ++ m ++ b) -> MinInt <= s -> s < e -> e <= MaxInt ->
  Forall (fun n : node => n.2.2 <= s) a -> Forall (fun n : node => s < n.2.2 /\ n.2.1 < e) m ->
  Forall (fun n : node => e <= n.2.1 /\ n.2.1 < n.2.2) b ->
  seek seek_after (head L) s h = (Ok (p_of L a), h).
Proof.
  intros Hr Hs Hse He Ha Hm Hb. apply seek_run. assert (Hl := rep_length _ _ _ Hr).
  rewrite !length_app in Hl. destruct (rep_front _ _ _ _ Hr) as (nx & Hnx & pv & _ & Hh & Hseg).
  destruct Hr as (_ & pv' & nx' & _ & _ & _ & Ht & Hseg').
  apply dseg_app in Hseg' as [_ Hseg'].
  eapply (seek_after_run s _ h a); [exact Hh | done | exact Hseg | done | | lia].
  intros l Hl'. destruct (m ++ b) as [|n r] eqn:Hmb; cbn in Hl'.
  - destruct Hnx as [-> | ->]; [done|]. injection Hl' as <-. rewrite Ht. eexists. split; [done|].
    cbn. lia.
  - injection Hl' as <-. destruct (dseg_first _ _ _ _ _ Hseg') as (ca & cb & ->).
    eexists. split; [done|]. cbn. destruct m as [|n' m']; cbn in Hmb; [subst b | injection Hmb as -> _].
    + apply Forall_cons in Hb as [Hb _]. lia.
    + apply Forall_cons in Hm as [Hm _]. lia.
Qed.

Lemma seek_before_rep h L a m b s e :
  rep h L (a ++ m ++ b) -> MinInt <= s -> s < e -> e <= MaxInt ->
  Forall (fun n : node => n.2.2 <= s /\ n.2.1 < n.2.2) a ->
  Forall (fun n : node => s < n.2.2 /\ n.2.1 < e) m -> Forall (fun n : node => e <= n.2.1) b ->
  seek seek_before (tail L) e h = (Ok (q_of L b), h).
Proof.
  intros Hr Hs Hse He Ha Hm Hb. apply seek_run. assert (Hl := rep_length _ _ _ Hr).
  rewrite !length_app in Hl. rewrite app_assoc in Hr.
  destruct (rep_back _ _ _ _ Hr) as (pv & Hpv & nx & _ & Ht & Hseg).
  destruct Hr as (_ & pv' & nx' & _ & _ & Hh & _ & Hseg').
  apply dseg_app in Hseg' as [Hseg' _].
  eapply (seek_before_run e _ h b); [exact Ht | done | exact Hseg | done | | lia].
  intros l Hl'. destruct (a ++ m) as [|n r _] eqn:Ham using rev_ind.
  - destruct Hpv as [-> | ->]; [done|]. injection Hl' as <-. rewrite Hh. eexists. split; [done|].
    cbn. lia.
  - rewrite last_or_snoc in Hl'. injection Hl' as <-.
    destruct (dseg_lookup _ _ _ _ n.1 n.2 Hseg') as (ca & cb & ->); [destruct n; set_solver|].
    eexists. split; [done|]. cbn. assert (Hin : n ∈ a ++ m) by (rewrite Ham; set_solver).
    rewrite Forall_forall in Ha, Hm. apply elem_of_app in Hin as [Hin|Hin].
    + specialize (Ha _ Hin). cbn in Ha. lia.
    + specialize (Hm _ Hin). cbn in Hm. lia.
Qed.

Lemma rep_next_Some h L a b nx l :
  rep h L (a ++ b) -> nx = None \/ nx = Some (tail L) -> first_or b nx = Some l -> is_Some (h !! l).
Proof.
  intros (_ & pv0 & nx0 & _ & _ & _ & Ht & Hs) Hnx Hl. apply dseg_app in Hs as [_ Hs].
  destruct b as [|n r]; cbn in Hl.
  - destruct Hnx as [-> | ->]; [done|]. injection Hl as <-. by rewrite Ht.
  - injection Hl as <-. destruct (dseg_first _ _ _ _ _ Hs) as (ca & cb & ->). eauto.
Qed.

Lemma rep_parts L a m b i :
  NoDup (cells L (a ++ m ++ b)) -> i ∉ cells L (a ++ m ++ b) ->
  NoDup (head L :: a.*1) /\ NoDup (tail L :: b.*1) /\
  i ∉ head L :: a.*1 /\ i ∉ tail L :: b.*1 /\
  (forall l, l ∈ head L :: a.*1 -> l ∉ tail L :: b.*1).
Proof.
  rewrite cells_app, fmap_app, !NoDup_cons, !NoDup_app. intros. set_solver.
Qed.

(** The cells of the front after link_after: old ones, and at most one new one. *)
Lemma front_cells (h h1 : heap) L (a T b : list node) i l :
  T = [] \/ T.*1 = [length h] -> (length h + length T <= length h1)%nat ->
  (i < length h)%nat -> i ∉ head L :: a.*1 ->
  (forall l, l ∈ head L :: a.*1 \/ l ∈ tail L :: b.*1 -> (l < length h)%nat) ->
  (forall l, l ∈ head L :: a.*1 -> l ∉ tail L :: b.*1) ->
  l ∈ head L :: (a ++ T).*1 ->
  (l < length h1)%nat /\ l <> i /\ l ∉ tail L :: b.*1.
Proof.
  intros HT Hlen Hi Hia Hold Hdis Hl. rewrite fmap_app, app_comm_cons, elem_of_app in Hl.
  destruct Hl as [Hl|Hl].
  - specialize (Hold l (or_introl Hl)). split; [lia|]. split; [set_solver | by apply Hdis].
  - destruct HT as [-> | HT]; [set_solver|]. assert (HT' := f_equal length HT).
    rewrite length_fmap in HT'. cbn in HT'. rewrite HT in Hl. apply list_elem_of_singleton in Hl as ->.
    split; [lia|]. split; [lia|]. intros Hin. specialize (Hold _ (or_intror Hin)). lia.
Qed.

(** The two halves of AddInterval together. *)
Lemma link_both h L a m b i s e lo :
  rep h L (a ++ m ++ b) -> disjoint_from lo (a ++ m ++ b).*2 -> i ∉ cells L (a ++ m ++ b) ->
  h !! i = Some (mkInterval s e None None) -> MinInt <= s -> s < e -> e <= MaxInt ->
  Forall (fun n : node => n.2.2 <= s) a -> Forall (fun n : node => s < n.2.2 /\ n.2.1 < e) m ->
  Forall (fun n : node => e <= n.2.1) b ->
  exists h' ls',
    (link_after L (p_of L a) i s ;;; link_before L (q_of L b) i e) h = (Ok tt, h') /\ rep h' L ls' /\
    ls'.*2 = (a.*2 ++ clip_left s (m ++ b).*2) ++ (s, e) :: clip_right e (a ++ m).*2 ++ b.*2.
Proof.
  intros Hr Hd Hi Hci Hs Hse He Ha Hm Hb.
  destruct (rep_front _ _ _ _ Hr) as (nx & Hnx & Hf).
  assert (Hr' := Hr). rewrite app_assoc in Hr'. destruct (rep_back _ _ _ _ Hr') as (pv & Hpv & Hbk).
  assert (Hlt := fun l => rep_lt h L _ l Hr). assert (Hnd := proj1 Hr).
  destruct (rep_parts _ _ _ _ _ Hnd Hi) as (Hna & Hnb & Hia & Hib & Hdis).
  assert (Hil := lookup_lt_Some _ _ _ Hci).
  assert (Hold : forall l, l ∈ head L :: a.*1 \/ l ∈ tail L :: b.*1 -> (l < length h)%nat).
  { intros l Hl. apply Hlt. rewrite cells_app, fmap_app. set_solver. }
  destruct (link_after_run h L a i s e _ Hf Hna Hia Hci) as (h1 & Hrun1 & Hl1);
    [intros l Hl; by eapply (rep_next_Some _ _ _ _ _ _ Hr Hnx) | by auto |].
  destruct (linked_front_back _ _ _ _ _ _ _ _ _ _ _ Hr Hi Hbk Hl1) as (Hbk1 & Hlast).
  unfold bind at 1. rewrite Hrun1. destruct Hl1 as (T1 & Hf1 & Hi1 & HK1 & HT1 & Hx1 & Hlen1).
  destruct (front_head _ _ _ _ Hf1) as (ch & Hch & Hche & Hchs).
  destruct (link_before_run h1 L b i s e _ _ Hbk1 Hnb Hib Hi1) as (h2 & Hrun2 & T2 & Hb2 & Hi2 & HK2 & HT2 & Hx2).
  { intros l Hl. unfold last_or in Hl. destruct (last (a ++ m)) as [n|].
    - injection Hl as <-. destruct (Hlast n eq_refl) as (ca & cb & ->). eauto.
    - destruct Hpv as [-> | ->]; [done|]. injection Hl as <-. eauto. }
  { intros l Hl. specialize (Hold l (or_intror Hl)). lia. }
  exists h2, ((a ++ T1) ++ (i, (s, e)) :: T2 ++ b). split; [done|]. split.
  - apply front_back_rep; [|done|done|].
    + eapply front_ext; [exact Hf1|]. intros l Hl.
      destruct (front_cells h h1 L a T1 b i l HT1 Hlen1 Hil Hia Hold Hdis Hl) as (? & ? & ?). by apply Hx2.
    + eapply new_cells_NoDup; [done | done | | exact HT1 | exact HT2 | done].
      intros l [-> | Hl]%elem_of_cons; [done | by apply Hlt].
  - rewrite fmap_app, fmap_cons, !(fmap_app _ a T1), !(fmap_app _ T2 b), HK1, HK2.
    assert (Hsm := proj2 Hr). destruct Hsm as (pv0 & nx0 & _ & _ & _ & Ht & [_ Hseg]%dseg_app).
    assert (Hdm := Hd). rewrite fmap_app in Hdm. apply disjoint_app in Hdm as [_ Hdm].
    rewrite app_assoc, fmap_app in Hd. apply disjoint_app in Hd as [Hd _].
    erewrite kept_before_clip; [|..]; [erewrite kept_after_clip; [done|..] |..]; try done; cbn.
    + intros l Hl. destruct Hpv as [-> | ->]; [done|]. injection Hl as <-. exists ch. split; [done|lia].
    + intros l Hl. destruct Hnx as [-> | ->]; [done|]. injection Hl as <-. eexists. split; [done|]. cbn. lia.
Qed.

Lemma AddInterval_rep h L ls i s e lo :
  rep h L ls -> disjoint_from lo ls.*2 -> i ∉ cells L ls ->
  h !! i = Some (mkInterval s e None None) -> MinInt <= s -> s < e -> e <= MaxInt ->
  exists h' ls', AddInterval L i h = (Ok tt, h') /\ rep h' L ls' /\ ls'.*2 = add_iv ls.*2 s e.
Proof.
  intros Hr Hd Hi Hci Hs Hse He.
  destruct (split_at _ _ _ _ Hd Hse) as (a & m & b & -> & Ha & Hm & Hb).
  destruct (link_both _ _ _ _ _ _ _ _ _ Hr Hd Hi Hci Hs Hse He Ha Hm Hb) as (h' & ls' & Hrun & Hr' & Hls).
  exists h', ls'. assert (Hne : Forall (fun n : node => n.2.1 < n.2.2) (a ++ m ++ b)).
  { apply disjoint_Forall in Hd. rewrite Forall_fmap in Hd. eapply Forall_impl; [exact Hd|].
    cbn. tauto. }
  rewrite !Forall_app in Hne. destruct Hne as (Hna & _ & Hnb). split; [|split; [done|]].
  - unfold AddInterval, bind at 1. rewrite (load_run _ _ _ Hci). cbn [start end_].
    rewrite (proj2 (Z.leb_gt _ _) Hse). unfold bind at 1.
    erewrite seek_after_rep; [|done..|by apply Forall_and]. unfold bind at 1.
    by erewrite seek_before_rep; [|done..|by apply Forall_and|done|done].
  - rewrite Hls. unfold add_iv. f_equal; [|f_equal].
    + rewrite (fmap_app _ a), clip_left_app, (clip_left_all s a.*2); [done|].
      rewrite Forall_fmap. by apply Forall_and.
    + rewrite app_assoc, (fmap_app _ (a ++ m) b), clip_right_app, (clip_right_all e b.*2); [done|].
      rewrite Forall_fmap. by apply Forall_and.
Qed.

Lemma NewIntervalList_rep h :
  exists L h', NewIntervalList h = (Ok L, h') /\ rep h' L [].
Proof.
  unfold NewIntervalList, bind at 1. cbn [alloc]. unfold bind at 1. cbn [alloc].
  rewrite length_app. cbn [length]. set (n := length h). rewrite <- app_assoc. cbn [app].
  assert (H0 : forall a b : Interval, (h ++ [a; b]) !! n = Some a) by (intros; by apply list_lookup_middle).
  assert (H1 : forall a b : Interval, (h ++ [a; b]) !! (n + 1)%nat = Some b).
  { intros. rewrite lookup_app_r by lia. by replace (n + 1 - length h)%nat with 1%nat by (unfold n; lia). }
  unfold set_Next, set_Prev. rewrite store_bind by (rewrite H0; eauto).
  rewrite store_bind by (apply alter_is_Some; rewrite H1; eauto).
  exists (mkIntervalList n (n + 1)%nat). eexists. split; [reflexivity|]. split.
  - apply NoDup_cons. split; [|apply NoDup_singleton]. cbn. set_unfold. lia.
  - exists None, None. cbn [head tail]. split_and!; [by left | by left | | | done].
    + cell. by rewrite H0.
    + cell. by rewrite H1.
Qed.

Lemma rep_alloc h L ls c : rep h L ls -> rep (h ++ [c]) L ls.
Proof.
  intros (Hnd & pv & nx & Hpv & Hnx & Hh & Ht & Hs). split; [done|]. exists pv, nx.
  split_and!; [done | done | by apply lookup_app_l_Some | by apply lookup_app_l_Some |].
  clear -Hs. revert pv Hs. induction ls as [|[l [s e]] r IH]; intros pv; [done|].
  intros [Hl Hr]. split; [by apply lookup_app_l_Some | by apply IH].
Qed.

(** ** The ranges as sets of offsets *)

Lemma cover_cons iv ivs x : cover (iv :: ivs) x <-> iv.1 <= x < iv.2 \/ cover ivs x.
Proof. apply Exists_cons. Qed.

Lemma cover_clip_left s ivs x : cover (clip_left s ivs) x <-> cover ivs x /\ x < s.
Proof.
  induction ivs as [|[a b] r IH]; [unfold cover; rewrite !Exists_nil; tauto|].
  unfold clip_left in *. cbn. destruct (a <? s) eqn:H; rewrite ?cover_cons, IH; cbn; naive_solver lia.
Qed.

Lemma cover_clip_right e ivs x : cover (clip_right e ivs) x <-> cover ivs x /\ e <= x.
Proof.
  induction ivs as [|[a b] r IH]; [unfold cover; rewrite !Exists_nil; tauto|].
  unfold clip_right in *. cbn. destruct (e <? b) eqn:H; rewrite ?cover_cons, IH; cbn; naive_solver lia.
Qed.

Lemma cover_add_iv ivs s e x : s < e -> cover (add_iv ivs s e) x <-> s <= x < e \/ cover ivs x.
Proof.
  intros Hse. unfold add_iv, cover. rewrite Exists_app, Exists_cons.
  fold (cover (clip_left s ivs) x) (cover (clip_right e ivs) x) (cover ivs x).
  rewrite cover_clip_left, cover_clip_right. cbn. destruct (decide (x < s)), (decide (e <= x)); naive_solver lia.
Qed.

Lemma disjoint_clip_left lo s ivs :
  disjoint_from lo ivs -> disjoint_from lo (clip_left s ivs).
Proof.
  revert lo. induction ivs as [|[a b] r IH]; intros lo; [done|]. intros (? & ? & Hr).
  unfold clip_left in *. cbn. destruct (a <? s) eqn:H'.
  - cbn. split_and!; [done | lia |]. eapply disjoint_weaken; [|by apply IH]. lia.
  - apply IH. eapply disjoint_weaken; [|done]. lia.
Qed.

Lemma disjoint_clip_right lo e ivs :
  disjoint_from lo ivs -> disjoint_from e (clip_right e ivs).
Proof.
  revert lo. induction ivs as [|[a b] r IH]; intros lo; [done|]. intros (? & ? & Hr).
  unfold clip_right in *. cbn. destruct (e <? b) eqn:H'; [|by eapply IH].
  cbn. split_and!; [lia | lia |]. fold (clip_right e r). rewrite clip_right_all; [done|].
  apply disjoint_Forall in Hr. eapply Forall_impl; [exact Hr|]. cbn. intros; lia.
Qed.

Lemma clip_left_bound s ivs : bounded s (clip_left s ivs).
Proof.
  induction ivs as [|[a b] r IH]; [constructor|]. unfold clip_left, bounded in *. cbn.
  destruct (a <? s); [|done]. constructor; [cbn; lia | done].
Qed.

Lemma disjoint_add_iv lo ivs s e :
  disjoint_from lo ivs -> lo <= s -> s < e -> disjoint_from lo (add_iv ivs s e).
Proof.
  intros Hd Hlo Hse. apply disjoint_app. split; [by apply disjoint_clip_left|]. cbn.
  split_and!; [|done|by eapply disjoint_clip_right].
  destruct (last (clip_left s ivs)) as [iv|] eqn:Hl; [|done]. cbn.
  apply last_Some_elem_of in Hl. pose proof (clip_left_bound s ivs) as Hb.
  unfold bounded in Hb. rewrite Forall_forall in Hb. by apply Hb.
Qed.
