(* ===== verification/IntervalProps.v ===== *)
(** The operations of the interval list that follow the forward chain only:
    Merge, Total and Copy; and the properties of the list as a record of the
    offsets written into a block. *)
From stdpp Require Import prelude list sorting list_numbers.
From S2P Require Import Prelude Interval.
From Stdlib Require Import ZArith Lia.

Open Scope Z_scope.

#[local] Arguments alter : simpl never.
#[local] Arguments lookup : simpl never.

(** * The forward chain *)

Fixpoint fseg (h : heap) (ls : list node) (nx : option loc) : Prop :=
  match ls with
  | [] => True
  | (l, (s, e)) :: r =>
      (exists pv, h !! l = Some (mkInterval s e pv (first_or r nx))) /\ fseg h r nx
  end.

(** The head sentinel counts as a first, empty, range. *)
Definition hnode (L : IntervalList) : node := (head L, (MinInt, MinInt)).

Definition frep (h : heap) (L : IntervalList) (ls : list node) : Prop :=
  NoDup (cells L ls) /\ is_Some (h !! tail L) /\
  exists nx, (nx = None \/ nx = Some (tail L)) /\ fseg h (hnode L :: ls) nx.

Definition fholds (h : heap) (L : IntervalList) (ivs : list (Z * Z)) : Prop :=
  exists ls, frep h L ls /\ ls.*2 = ivs.

(** Joining ranges that touch. *)
Fixpoint merge_from (s e : Z) (rest : list (Z * Z)) : list (Z * Z) :=
  match rest with
  | [] => [(s, e)]
  | (x, y) :: r => if x =? e then merge_from s y r else (s, e) :: merge_from x y r
  end.
Definition merge_iv (ivs : list (Z * Z)) : list (Z * Z) :=
  match ivs with [] => [] | (s, e) :: r => merge_from s e r end.

(** The ranges of [ivs] below [n]: those Copy copies. *)
Definition ends_below (n : Z) (ivs : list (Z * Z)) : list (Z * Z) :=
  filter (fun iv => iv.2 < n) ivs.

Definition sum_len (ivs : list (Z * Z)) : Z := foldr (fun iv t => iv.2 - iv.1 + t) 0 ivs.

(** * From both chains to the forward one *)

Lemma dseg_fseg h pv ls nx : dseg h pv ls nx -> fseg h ls nx.
Proof.
  revert pv. induction ls as [|[l [s e]] r IH]; intros pv; [done|]. intros [Hl Hr].
  split; [by exists pv | by eapply IH].
Qed.

Lemma rep_frep h L ls : rep h L ls -> frep h L ls.
Proof.
  intros (Hnd & pv & nx & _ & Hnx & Hh & Ht & Hs). split; [done|]. split; [by rewrite Ht|].
  exists (match ls with [] => Some (tail L) | _ => nx end). split; [destruct ls; auto|].
  split; [exists None; by destruct ls|]. destruct ls as [|n r]; [done|]. by eapply dseg_fseg.
Qed.

Lemma holds_fholds h L ivs : holds h L ivs -> fholds h L ivs.
Proof. intros (ls & Hr & Hls). exists ls. by split; [apply rep_frep|]. Qed.

Lemma fseg_ext h h' ls nx :
  fseg h ls nx -> (forall l, l ∈ ls.*1 -> h' !! l = h !! l) -> fseg h' ls nx.
Proof.
  induction ls as [|[l [s e]] r IH]; [done|]. intros [[pv Hl] Hr] Hext.
  split; [exists pv; rewrite Hext; [done | set_solver]|]. apply IH; [done | set_solver].
Qed.

(** Assigning a Prev field leaves the forward chain as it is. *)
Lemma fseg_set_Prev h p v ls nx : fseg h ls nx -> fseg (alter (with_Prev v) p h) ls nx.
Proof.
  induction ls as [|[l [s e]] r IH]; [done|]. intros [[pv Hl] Hr]. split; [|by apply IH].
  rewrite list_lookup_alter. case_decide; [subst; rewrite Hl; by exists v | by exists pv].
Qed.

Lemma fseg_lookup h ls nx n : fseg h ls nx -> n ∈ ls -> is_Some (h !! n.1).
Proof.
  induction ls as [|[l [s e]] r IH]; [set_solver|]. intros [[pv Hl] Hr] [->|Hin]%elem_of_cons; eauto.
Qed.

(** ** Merge *)

Lemma fseg_first_Some h L ls nx n :
  fseg h ls nx -> nx = None \/ nx = Some (tail L) -> is_Some (h !! tail L) ->
  first_or ls nx = Some n -> is_Some (h !! n).
Proof.
  intros Hs Hnx Ht. destruct ls as [|[l iv] r]; cbn; intros Hn.
  - destruct Hnx as [-> | ->]; [done|]. by injection Hn as <-.
  - injection Hn as <-. eapply (fseg_lookup _ _ _ (l, iv) Hs). set_solver.
Qed.

(** The two assignments that absorb the next range. *)
Lemma merge_step h prev s e y l pp r nx :
  h !! prev = Some (mkInterval s e pp (Some l)) -> fseg h r nx -> prev ∉ l :: r.*1 ->
  let h2 := alter (with_Next (first_or r nx)) prev (alter (with_end y) prev h) in
  fseg h2 ((prev, (s, y)) :: r) nx /\ (forall k, k <> prev -> h2 !! k = h !! k).
Proof.
  intros Hp Hr Hnp h2. assert (Hx : forall k, k <> prev -> h2 !! k = h !! k) by (intros; unfold h2; by cell).
  split; [|done]. split; [exists pp; unfold h2; cell; by rewrite Hp|].
  eapply fseg_ext; [done|]. intros k Hk. apply Hx. set_solver.
Qed.

(** The loop, from the range [s, e) in cell [prev]: it merges what follows and
    changes no cell but those of the list. *)
Lemma merge_loop_run L nx : forall ls fuel h prev s e,
  (nx = None \/ nx = Some (tail L)) -> is_Some (h !! tail L) ->
  fseg h ((prev, (s, e)) :: ls) nx -> NoDup (prev :: ls.*1) -> tail L ∉ prev :: ls.*1 ->
  (length ls < fuel)%nat ->
  exists h' e' ls',
    merge_loop fuel L prev (first_or ls nx) h = (Ok tt, h') /\
    fseg h' ((prev, (s, e')) :: ls') nx /\ (s, e') :: ls'.*2 = merge_from s e ls.*2 /\
    ls'.*1 `sublist_of` ls.*1 /\ is_Some (h' !! tail L) /\ length h' = length h /\
    (forall l, l <> tail L -> l ∉ prev :: ls.*1 -> h' !! l = h !! l).
Proof.
  induction ls as [|[l [x y]] r IH]; intros fuel h prev s e Hnx Ht Hs Hnd Htl Hf;
    (destruct fuel as [|fuel]; [cbn in Hf; lia|]).
  - exists h, e, []. split; [|by auto]. cbn. destruct Hnx as [-> | ->]; [done|].
    by rewrite bool_decide_true.
  - destruct Hs as [[pp Hprev] [[pl Hl] Hr]]. cbn [first_or fst merge_loop].
    rewrite bool_decide_false by set_solver. unfold bind at 1. rewrite (load_run _ _ _ Hl).
    unfold bind at 1. rewrite (load_run _ _ _ Hprev). cbn [start end_ Next fmap list_fmap snd merge_from].
    cbn in Hnd. rewrite !NoDup_cons in Hnd. destruct Hnd as (Hnp & Hnl & Hnd).
    destruct (x =? e) eqn:Hxe.
    + unfold set_end, set_Next. rewrite !store_bind by eauto using alter_is_Some.
      destruct (merge_step h prev s e y l pp r nx Hprev Hr Hnp) as [Hs2 Hx2].
      set (h2 := alter (with_Next (first_or r nx)) prev (alter (with_end y) prev h)) in *.
      assert (Ht2 : is_Some (h2 !! tail L)) by by do 2 apply alter_is_Some.
      destruct (first_or r nx) as [n|] eqn:Hn.
      * assert (Hn2 := fseg_first_Some _ L _ _ _ (proj2 Hs2) Hnx Ht2 Hn).
        unfold set_Prev. rewrite store_bind by done.
        destruct (IH fuel (alter (with_Prev (Some prev)) n h2) prev s y) as
          (h' & e' & ls' & Hrun & Hs' & Hc & Hsub & Ht' & Hlen & Hx');
          [done | by apply alter_is_Some | by apply fseg_set_Prev | apply NoDup_cons; set_solver
          | set_solver | cbn in Hf; lia |].
        exists h', e', ls'. rewrite Hrun. split_and!; [done | done | done | by apply sublist_cons | done
          | by rewrite Hlen; unfold h2; rewrite !length_alter |].
        intros k Hk1 Hk2. rewrite Hx' by set_solver. rewrite list_lookup_alter_ne; [apply Hx2; set_solver|].
        intros ->. destruct r as [|[n' iv] r]; cbn in Hn; [|set_solver].
        destruct Hnx as [-> | ->]; congruence.
      * destruct r as [|n' r]; [|done]. cbn in Hn. subst nx. destruct fuel as [|fuel]; [cbn in Hf; lia|].
        exists h2, y, []. split_and!; [done | done | done | cbn; by apply sublist_cons | done
          | unfold h2; by rewrite !length_alter |]. intros k _ Hk. apply Hx2. set_solver.
    + destruct (IH fuel h l x y) as (h' & e' & ls' & Hrun & Hs' & Hc & Hsub & Ht' & Hlen & Hx');
        [done | done | split; [by exists pl | done] | by apply NoDup_cons | set_solver | cbn in Hf; lia |].
      exists h', e, ((l, (x, e')) :: ls'). cbn [fmap list_fmap snd fst]. rewrite Hc.
      split_and!; [done | | done | by apply sublist_skip | done | done | intros; apply Hx'; set_solver].
      split; [|done]. exists pp. rewrite Hx'; [done | set_solver | set_solver].
Qed.

Lemma frep_length h L ls : frep h L ls -> (length ls < length h)%nat.
Proof.
  intros (Hnd & [ct Ht] & nx & _ & Hs). rewrite <- (length_seq (length h) 0).
  apply Nat.lt_le_trans with (length (cells L ls)); [cbn; rewrite length_fmap; lia|].
  apply submseteq_length, NoDup_submseteq; [done|]. intros l Hl. apply elem_of_seq.
  enough (is_Some (h !! l)) as H by (apply lookup_lt_is_Some in H; lia).
  unfold cells in Hl. rewrite !elem_of_cons, list_elem_of_fmap in Hl.
  destruct Hl as [-> | [-> | (n & -> & Hn)]]; [|by eauto|].
  - apply (fseg_lookup _ _ _ (hnode L) Hs). set_solver.
  - apply (fseg_lookup _ _ _ n Hs). set_solver.
Qed.

Lemma merge_from_head lo ivs :
  MinInt < lo -> disjoint_from lo ivs ->
  merge_from MinInt MinInt ivs = (MinInt, MinInt) :: merge_iv ivs.
Proof.
  intros Hlo. destruct ivs as [|[s e] r]; [done|]. intros (? & _). cbn.
  by rewrite (proj2 (Z.eqb_neq _ _)) by lia.
Qed.

Lemma doMerge_fholds h L ivs lo :
  fholds h L ivs -> MinInt < lo -> disjoint_from lo ivs ->
  exists h', doMerge L h = (Ok tt, h') /\ fholds h' L (merge_iv ivs).
Proof.
  intros (ls & Hr & <-) Hlo Hd. assert (Hlen := frep_length _ _ _ Hr).
  destruct Hr as (Hnd & Ht & nx & Hnx & Hs). assert (Hh := proj1 Hs). destruct Hh as [pv Hh].
  unfold cells in Hnd. assert (Hnd' := Hnd). rewrite !NoDup_cons in Hnd'.
  destruct (merge_loop_run L nx ls (length h) h (head L) MinInt MinInt) as
    (h' & e' & ls' & Hrun & Hs' & Hc & Hsub & Ht' & _);
    [done | done | done | apply NoDup_cons; set_solver | set_solver | done |].
  exists h'. split.
  - unfold doMerge, bind at 1. by rewrite (load_run _ _ _ Hh).
  - rewrite (merge_from_head _ _ Hlo Hd) in Hc. injection Hc as -> Hc. exists ls'. split; [|done].
    split; [|split; [done | by exists nx]].
    eapply sublist_NoDup; [exact Hnd|]. by do 2 apply sublist_skip.
Qed.

(** ** Total *)

Lemma int64_id z : MinInt <= z <= MaxInt -> int64 z = z.
Proof. unfold int64, MinInt, MaxInt. intros H. rewrite Z.mod_small; lia. Qed.

#[local] Arguments sum_len : simpl never.

Lemma sum_len_cons s e r : sum_len ((s, e) :: r) = e - s + sum_len r.
Proof. done. Qed.

Lemma sum_len_nonneg lo ivs : disjoint_from lo ivs -> 0 <= sum_len ivs.
Proof.
  revert lo. induction ivs as [|[s e] r IH]; intros lo; [done|]. intros (_ & ? & Hr).
  specialize (IH _ Hr). rewrite sum_len_cons. lia.
Qed.

Lemma total_loop_run L nx h : forall ls fuel t lo,
  nx = None \/ nx = Some (tail L) -> fseg h ls nx -> tail L ∉ ls.*1 ->
  disjoint_from lo ls.*2 -> 0 <= t -> t + sum_len ls.*2 <= MaxInt -> (length ls < fuel)%nat ->
  total_loop fuel L (first_or ls nx) t h = (Ok (t + sum_len ls.*2), h).
Proof.
  induction ls as [|[l [s e]] r IH]; intros fuel t lo Hnx Hs Htl Hd Ht Hb Hf;
    (destruct fuel as [|fuel]; [cbn in Hf; lia|]); cbn [first_or fst total_loop].
  - change (sum_len _) with 0. rewrite Z.add_0_r. destruct Hnx as [-> | ->]; [done|]. cbn. by rewrite bool_decide_true.
  - destruct Hs as [[pv Hl] Hr]. rewrite bool_decide_false by set_solver.
    unfold bind at 1. rewrite (load_run _ _ _ Hl). cbn in Hd, Hb |- *. rewrite sum_len_cons in *.
    destruct Hd as (_ & Hse & Hd). assert (Hn := sum_len_nonneg _ _ Hd).
    unfold len. cbn. rewrite (int64_id (e - s)) by (unfold MinInt, MaxInt in *; lia).
    rewrite int64_id by (unfold MinInt, MaxInt in *; lia).
    rewrite (IH fuel _ e); [by rewrite Z.add_assoc | done | done | set_solver | done | lia | lia
      | cbn in Hf; lia].
Qed.

Lemma Total_fholds h L ivs lo :
  fholds h L ivs -> disjoint_from lo ivs -> sum_len ivs <= MaxInt ->
  Total L h = (Ok (sum_len ivs), h).
Proof.
  intros (ls & Hr & <-) Hd Hb. assert (Hlen := frep_length _ _ _ Hr).
  destruct Hr as (Hnd & Ht & nx & Hnx & [[pv Hh] Hs]). unfold Total, bind at 1.
  rewrite (load_run _ _ _ Hh). unfold bind, gets. cbn [Next id].
  erewrite total_loop_run; [done | done | done | | done | done | done | done].
  unfold cells in Hnd. rewrite !NoDup_cons in Hnd. set_solver.
Qed.

(** ** Copy *)

Lemma length_copy_range {A} s e (dst src : list A) :
  0 <= s <= e -> e <= Z.of_nat (length dst) -> length src = length dst ->
  length (copy_range s e dst src) = length dst.
Proof.
  intros. unfold copy_range. rewrite !length_app, length_take, !length_drop, length_take. lia.
Qed.

Lemma lookup_copy_range {A} s e (dst src : list A) (x : nat) :
  0 <= s <= e -> e <= Z.of_nat (length dst) -> length src = length dst ->
  copy_range s e dst src !! x =
  if decide (s <= Z.of_nat x < e) then src !! x else dst !! x.
Proof.
  intros Hs He Hl. unfold copy_range. destruct (decide (Z.of_nat x < s)).
  { rewrite lookup_app_l by (rewrite length_take; lia).
    rewrite decide_False by lia. by rewrite lookup_take_lt by lia. }
  rewrite lookup_app_r by (rewrite length_take; lia). rewrite length_take, Nat.min_l by lia.
  destruct (decide (Z.of_nat x < e)).
  - rewrite lookup_app_l by (rewrite length_drop, length_take; lia).
    rewrite lookup_drop, decide_True by lia.
    replace (Z.to_nat s + (x - Z.to_nat s))%nat with x by lia. by rewrite lookup_take_lt by lia.
  - rewrite lookup_app_r by (rewrite length_drop, length_take; lia).
    rewrite length_drop, length_take, lookup_drop, decide_False by lia. f_equal. lia.
Qed.

(** What Copy leaves in the destination. *)
Definition copied {A} (ivs : list (Z * Z)) (dst src : list A) : list A :=
  foldl (fun d iv => copy_range iv.1 iv.2 d src) dst ivs.

Lemma copied_spec {A} ivs (dst src : list A) :
  Forall (fun iv => 0 <= iv.1 <= iv.2 /\ iv.2 <= Z.of_nat (length dst)) ivs ->
  length src = length dst ->
  length (copied ivs dst src) = length dst /\
  forall x : nat, copied ivs dst src !! x =
    if decide (cover ivs (Z.of_nat x)) then src !! x else dst !! x.
Proof.
  intros Hf Hl. revert dst Hf Hl. induction ivs as [|[s e] r IH]; intros dst Hf Hl.
  { split; [done|]. intros x. rewrite decide_False; [done|]. by intros H%Exists_nil. }
  apply Forall_cons in Hf as [[Hs He] Hf]. cbn in Hs, He.
  assert (Hlen := length_copy_range s e dst src Hs He Hl).
  destruct (IH (copy_range s e dst src)) as [IHl IHx]; [|by rewrite Hlen|].
  { by rewrite Hlen. }
  split; [by etrans|]. intros x. change (copied ((s, e) :: r) dst src) with
    (copied r (copy_range s e dst src) src). rewrite IHx, lookup_copy_range by done.
  destruct (decide (cover r (Z.of_nat x))) as [Hr|Hr].
  - rewrite decide_True; [done|]. apply cover_cons. by right.
  - destruct (decide (s <= Z.of_nat x < e)).
    + rewrite decide_True; [done|]. apply cover_cons. by left.
    + rewrite decide_False; [done|]. rewrite cover_cons. tauto.
Qed.

Lemma copy_loop_run {A} L nx h (src : list A) : forall ls fuel k (dst : list A) lo,
  nx = None \/ nx = Some (tail L) -> fseg h ls nx -> tail L ∉ ls.*1 ->
  0 <= lo -> disjoint_from lo ls.*2 -> length src = length dst -> (length ls < fuel)%nat ->
  let below := ends_below (Z.of_nat (length src)) ls.*2 in
  copy_loop fuel L (first_or ls nx) k dst src h =
  (Ok (k + sum_len below, copied below dst src), h).
Proof.
  induction ls as [|[l [s e]] r IH]; intros fuel k dst lo Hnx Hs Htl Hlo Hd Hl Hf below;
    (destruct fuel as [|fuel]; [cbn in Hf; lia|]); cbn [first_or fst copy_loop].
  - unfold below. change (sum_len _) with 0. rewrite Z.add_0_r.
    destruct Hnx as [-> | ->]; [done|]. cbn. by rewrite bool_decide_true.
  - destruct Hs as [[pv Hc] Hr]. rewrite bool_decide_false by set_solver.
    unfold bind at 1. rewrite (load_run _ _ _ Hc). cbn in Hd. destruct Hd as (Hs0 & Hse & Hd).
    unfold below, ends_below. cbn [fmap list_fmap snd end_ start Next]. rewrite <- Hl, filter_cons, andb_diag.
    cbn [snd]. destruct (decide (e < Z.of_nat (length src))) as [He|He].
    + rewrite (proj2 (Z.ltb_lt _ _) He).
      rewrite (proj2 (Z.leb_le 0 s)), (proj2 (Z.leb_le s e)) by lia. cbn [andb].
      rewrite (IH fuel _ _ e); [|done|done|set_solver|lia|done| |cbn in Hf; lia].
      * rewrite sum_len_cons, Z.add_assoc. done.
      * by rewrite length_copy_range by lia.
    + rewrite (proj2 (Z.ltb_ge _ _)) by lia.
      rewrite (IH fuel _ _ e); [done|done|done|set_solver|lia|done|done|cbn in Hf; lia].
Qed.

(** ** Merged ranges *)

(** Ranges with a gap before each of them. *)
Fixpoint gaps (lo : Z) (ivs : list (Z * Z)) : Prop :=
  match ivs with
  | [] => True
  | (s, e) :: r => lo < s /\ s < e /\ gaps e r
  end.

Lemma gaps_disjoint lo ivs : gaps lo ivs -> disjoint_from lo ivs.
Proof.
  revert lo. induction ivs as [|[s e] r IH]; intros lo; [done|]. intros (? & ? & ?).
  cbn. split_and!; [lia | done | by apply IH].
Qed.

Lemma merge_from_spec s e rest :
  s < e -> disjoint_from e rest ->
  exists e' r', merge_from s e rest = (s, e') :: r' /\ e <= e' /\ gaps e' r'.
Proof.
  revert s e. induction rest as [|[x y] r IH]; intros s e Hse Hd; [by exists e, []|].
  destruct Hd as (Hx & Hxy & Hd). cbn. destruct (x =? e) eqn:Hxe.
  - destruct (IH s y) as (e' & r' & -> & He' & Hg); [lia | done |].
    exists e', r'. split_and!; [done | lia | done].
  - destruct (IH x y) as (e' & r' & -> & He' & Hg); [done | done |].
    eexists e, _. split_and!; [done | lia |]. cbn. split_and!; [lia | lia | done].
Qed.

Lemma merge_iv_disjoint lo ivs : disjoint_from lo ivs -> disjoint_from lo (merge_iv ivs).
Proof.
  destruct ivs as [|[s e] r]; [done|]. intros (Hs & Hse & Hd). cbn [merge_iv].
  destruct (merge_from_spec s e r Hse Hd) as (e' & r' & -> & He & Hg).
  cbn. split_and!; [done | lia | by apply gaps_disjoint].
Qed.

Lemma cover_merge_from s e rest x :
  s < e -> disjoint_from e rest ->
  cover (merge_from s e rest) x <-> s <= x < e \/ cover rest x.
Proof.
  revert s e. induction rest as [|[a b] r IH]; intros s e Hse Hd; [apply cover_cons|].
  destruct Hd as (Ha & Hab & Hd). cbn [merge_from]. destruct (a =? e) eqn:Hae.
  - rewrite IH by (lia || done). rewrite cover_cons. cbn. naive_solver lia.
  - rewrite cover_cons, IH by done. rewrite cover_cons. done.
Qed.

Lemma cover_merge_iv lo ivs x : disjoint_from lo ivs -> cover (merge_iv ivs) x <-> cover ivs x.
Proof.
  destruct ivs as [|[s e] r]; [done|]. intros (_ & Hse & Hd).
  rewrite cover_cons. by apply cover_merge_from.
Qed.

Lemma sum_len_merge_from s e rest : sum_len (merge_from s e rest) = e - s + sum_len rest.
Proof.
  revert s e. induction rest as [|[x y] r IH]; intros s e; [done|]. cbn [merge_from].
  destruct (x =? e) eqn:Hxe; rewrite ?sum_len_cons, IH; lia.
Qed.

Lemma sum_len_merge_iv ivs : sum_len (merge_iv ivs) = sum_len ivs.
Proof. destruct ivs as [|[s e] r]; [done|]. apply sum_len_merge_from. Qed.

Lemma gaps_end_free lo ivs s e : gaps lo ivs -> (s, e) ∈ ivs -> ~ cover ivs e.
Proof.
  revert lo. induction ivs as [|[a b] r IH]; intros lo Hg Hin; [set_solver|].
  destruct Hg as (Ha & Hab & Hg). rewrite cover_cons. cbn.
  apply elem_of_cons in Hin as [[= -> ->]|Hin].
  - intros [?|Hc]; [lia|]. apply Exists_exists in Hc as (iv & Hiv & Hle).
    apply gaps_disjoint in Hg as Hd. apply disjoint_Forall in Hd. rewrite Forall_forall in Hd.
    specialize (Hd _ Hiv). destruct r as [|[x y] r]; [set_solver|]. destruct Hg as (Hx & Hxy & Hg).
    apply elem_of_cons in Hiv as [->|Hiv]; [cbn in Hle; lia|].
    apply gaps_disjoint, disjoint_Forall in Hg. rewrite Forall_forall in Hg. specialize (Hg _ Hiv). lia.
  - intros [Hlt|Hc]; [|by eapply IH]. apply gaps_disjoint, disjoint_Forall in Hg.
    rewrite Forall_forall in Hg. specialize (Hg _ Hin). cbn in Hg. lia.
Qed.

Lemma merge_end_free lo ivs s e :
  disjoint_from lo ivs -> (s, e) ∈ merge_iv ivs -> ~ cover (merge_iv ivs) e.
Proof.
  destruct ivs as [|[a b] r]; [set_solver|]. intros (Ha & Hab & Hd). cbn.
  destruct (merge_from_spec a b r Hab Hd) as (e' & r' & -> & He & Hg).
  apply (gaps_end_free (a - 1)). cbn. split_and!; [lia | lia | done].
Qed.

(** The offsets Copy reaches: those in a run that ends before the buffer does. *)
Lemma cover_ends_below lo ivs n x :
  disjoint_from lo ivs ->
  cover (ends_below n (merge_iv ivs)) x <->
  cover ivs x /\ exists y, x < y < n /\ ~ cover ivs y.
Proof.
  intros Hd. setoid_rewrite <- (cover_merge_iv lo ivs); [|done..].
  unfold ends_below, cover at 1. rewrite Exists_exists. split.
  - intros ([s e] & [He Hin]%list_elem_of_filter & Hx). cbn in *. split.
    + apply Exists_exists. by exists (s, e).
    + exists e. split; [lia|]. by apply (merge_end_free lo _ s).
  - intros [Hx (y & Hy & Hny)]. apply Exists_exists in Hx as ([s e] & Hin & Hx). exists (s, e).
    split; [|done]. apply list_elem_of_filter. split; [|done]. cbn in *.
    destruct (decide (e < n)); [done|]. destruct Hny. apply Exists_exists. exists (s, e).
    split; [done|]. cbn. lia.
Qed.

(** ** Counting offsets *)

#[global] Instance cover_dec ivs x : Decision (cover ivs x).
Proof. unfold cover. apply _. Defined.

(** The number of offsets below [hi] that some range covers. *)
Definition count_covered (hi : Z) (ivs : list (Z * Z)) : Z :=
  Z.of_nat (length (filter (cover ivs) (seqZ 0 hi))).

Section filters.
Context (P Q : Z -> Prop) `{!forall x, Decision (P x)} `{!forall x, Decision (Q x)}.

Lemma filter_ext_in (l : list Z) : (forall x, x ∈ l -> P x <-> Q x) -> filter P l = filter Q l.
Proof.
  induction l as [|x l IH]; intros Hl; [done|]. rewrite !filter_cons, IH by set_solver.
  specialize (Hl x). destruct (decide (P x)), (decide (Q x)); set_solver.
Qed.

Lemma filter_seqZ_all a n : (forall x, a <= x < a + n -> P x) -> filter P (seqZ a n) = seqZ a n.
Proof.
  intros Hp. assert (Hl : forall x, x ∈ seqZ a n -> P x) by (intros x ?%elem_of_seqZ; by apply Hp).
  clear Hp. induction (seqZ a n) as [|x l IH]; [done|].
  rewrite filter_cons_True, IH; set_solver.
Qed.

Lemma filter_seqZ_none a n : (forall x, a <= x < a + n -> ~ P x) -> filter P (seqZ a n) = [].
Proof. intros Hp. apply list_filter_none. intros x Hx%elem_of_seqZ. by apply Hp. Qed.

Lemma filter_seqZ_ext a n :
  (forall x, a <= x < a + n -> P x <-> Q x) -> filter P (seqZ a n) = filter Q (seqZ a n).
Proof. intros Hpq. apply filter_ext_in. intros x Hx%elem_of_seqZ. by apply Hpq. Qed.
End filters.

Lemma not_cover_before lo ivs x : disjoint_from lo ivs -> x < lo -> ~ cover ivs x.
Proof.
  intros Hd Hx (iv & Hin & Hc)%Exists_exists. apply disjoint_Forall in Hd.
  rewrite Forall_forall in Hd. specialize (Hd _ Hin). lia.
Qed.

Lemma sum_len_count lo hi ivs :
  disjoint_from lo ivs -> bounded hi ivs -> lo <= hi ->
  sum_len ivs = Z.of_nat (length (filter (cover ivs) (seqZ lo (hi - lo)))).
Proof.
  revert lo. induction ivs as [|[s e] r IH]; intros lo Hd Hb Hlo.
  { rewrite filter_seqZ_none; [done|]. by intros x _ ?%Exists_nil. }
  destruct Hd as (Hs & Hse & Hd). apply Forall_cons in Hb as [He Hb]. cbn in He.
  replace (hi - lo) with ((s - lo) + ((e - s) + (hi - e))) by lia.
  rewrite (seqZ_app _ (s - lo)), (seqZ_app _ (e - s)) by lia.
  replace (lo + (s - lo)) with s by lia. replace (s + (e - s)) with e by lia.
  rewrite !filter_app, !length_app, sum_len_cons.
  rewrite filter_seqZ_none.
  2:{ intros x Hx. rewrite cover_cons. cbn. intros [?|Hc]; [lia|].
      revert Hc. apply (not_cover_before e); [done | lia]. }
  rewrite filter_seqZ_all by (intros x Hx; rewrite cover_cons; cbn; lia).
  rewrite (filter_seqZ_ext (cover ((s, e) :: r)) (cover r)).
  2:{ intros x Hx. rewrite cover_cons. cbn. split; [|auto]. intros [?|?]; [lia | done]. }
  rewrite length_seqZ, (IH e) by done. cbn [length]. lia.
Qed.

(** * The list as a record of writes *)

(** What MemBlock.WriteAt does to its list for each write [s, e). *)
Fixpoint write_all (L : IntervalList) (ws : list (Z * Z)) : HM unit :=
  match ws with
  | [] => ret tt
  | (s, e) :: r => i <- NewInterval s e ;; AddInterval L i ;;; write_all L r
  end.
Definition recorded (ws : list (Z * Z)) : HM IntervalList :=
  L <- NewIntervalList ;; write_all L ws ;;; ret L.

Lemma add_holds h L ivs lo s e :
  holds h L ivs -> disjoint_from lo ivs -> MinInt <= s -> s < e -> e <= MaxInt ->
  exists h', (i <- NewInterval s e ;; AddInterval L i) h = (Ok tt, h') /\ holds h' L (add_iv ivs s e).
Proof.
  intros (ls & Hr & <-) Hd Hs Hse He. unfold NewInterval, bind at 1. cbn [alloc].
  destruct (AddInterval_rep (h ++ [mkInterval s e None None]) L ls (length h) s e lo) as
    (h' & ls' & Hrun & Hr' & Hls); [by apply rep_alloc | done | | by apply list_lookup_middle | done..|].
  - intros Hin. apply (rep_lt _ _ _ _ Hr) in Hin. lia.
  - exists h'. split; [done|]. by exists ls'.
Qed.

Lemma add_empty h L ivs s e :
  holds h L ivs -> e <= s ->
  exists h', (i <- NewInterval s e ;; AddInterval L i) h = (Ok tt, h') /\ holds h' L ivs.
Proof.
  intros (ls & Hr & Hls) Hse. exists (h ++ [mkInterval s e None None]). split.
  - unfold NewInterval, bind at 1. cbn [alloc]. unfold AddInterval, bind, load.
    rewrite list_lookup_middle by done. cbn. by rewrite (proj2 (Z.leb_le _ _) Hse).
  - exists ls. by split; [apply rep_alloc|].
Qed.

Lemma bounded_add_iv hi ivs s e : bounded hi ivs -> e <= hi -> bounded hi (add_iv ivs s e).
Proof.
  unfold bounded. rewrite !Forall_forall. intros Hb He iv Hiv. unfold add_iv in Hiv.
  apply elem_of_app in Hiv as [Hiv|Hiv].
  - apply list_elem_of_omap in Hiv as ([a b] & Hin & Hiv). cbn in Hiv.
    destruct (a <? s); [|done]. injection Hiv as <-. specialize (Hb _ Hin). cbn in *. lia.
  - apply elem_of_cons in Hiv as [->|Hiv]; [done|].
    apply list_elem_of_omap in Hiv as ([a b] & Hin & Hiv). cbn in Hiv.
    destruct (e <? b); [|done]. injection Hiv as <-. by specialize (Hb _ Hin).
Qed.

Lemma bind_assoc {A B C} (m : HM A) (k : A -> HM B) (l : HM C) h :
  (x <- m ;; (k x ;;; l)) h = ((x <- m ;; k x) ;;; l) h.
Proof. unfold bind. by destruct (m h) as [[a|e|] h1]. Qed.

Lemma write_all_holds hi L ws : forall h ivs,
  holds h L ivs -> disjoint_from 0 ivs -> bounded hi ivs -> hi <= MaxInt ->
  Forall (fun w => 0 <= w.1 /\ w.2 <= hi) ws ->
  exists h' ivs', write_all L ws h = (Ok tt, h') /\ holds h' L ivs' /\
    disjoint_from 0 ivs' /\ bounded hi ivs' /\ forall x, cover ivs' x <-> cover ws x \/ cover ivs x.
Proof.
  induction ws as [|[s e] r IH]; intros h ivs Hh Hd Hb Hhi Hw.
  { exists h, ivs. split_and!; [done..|]. intros x. unfold cover at 2. rewrite Exists_nil. tauto. }
  apply Forall_cons in Hw as [[Hs He] Hw]. cbn [fst snd] in Hs, He. cbn [write_all].
  rewrite bind_assoc. destruct (decide (s < e)) as [Hse|Hse].
  - destruct (add_holds h L ivs 0 s e) as (h1 & Hrun & Hh1); [done | done | unfold MinInt; lia | done | lia |].
    unfold bind at 1. rewrite Hrun.
    destruct (IH h1 (add_iv ivs s e)) as (h' & ivs' & Hrun' & Hh' & Hd' & Hb' & Hc);
      [done | by apply disjoint_add_iv | by apply bounded_add_iv | done | done |].
    exists h', ivs'. split_and!; [done..|]. intros x. rewrite Hc, cover_add_iv, cover_cons by done.
    cbn. tauto.
  - destruct (add_empty h L ivs s e) as (h1 & Hrun & Hh1); [done | lia |].
    unfold bind at 1. rewrite Hrun. destruct (IH h1 ivs) as (h' & ivs' & Hrun' & Hh' & Hd' & Hb' & Hc);
      [done..|].
    exists h', ivs'. split_and!; [done..|]. intros x. rewrite Hc, cover_cons. cbn.
    split; [tauto|]. intros [[?|?]|?]; [lia | tauto | tauto].
Qed.

Lemma recorded_holds hi ws h :
  0 <= hi <= MaxInt -> Forall (fun w => 0 <= w.1 /\ w.2 <= hi) ws ->
  exists L h' ivs, recorded ws h = (Ok L, h') /\ holds h' L ivs /\
    disjoint_from 0 ivs /\ bounded hi ivs /\ forall x, cover ivs x <-> cover ws x.
Proof.
  intros Hhi Hw. destruct (NewIntervalList_rep h) as (L & h1 & Hrun & Hr).
  destruct (write_all_holds hi L ws h1 []) as (h' & ivs & Hrun' & Hh & Hd & Hb & Hc);
    [by exists [] | done | constructor | lia | done |].
  exists L, h', ivs. unfold recorded, bind. rewrite Hrun, Hrun'. split_and!; [done..|].
  intros x. rewrite Hc. unfold cover at 2. rewrite Exists_nil. tauto.
Qed.

(** C14 AddInterval overrides: whatever the new range overlaps, the list is again
    made of sorted, disjoint, non-empty ranges, namely what is left of the old
    ones before and after the new one, and it covers exactly the old offsets and
    the new range.  Both chains of pointers stay intact and no walk runs past
    its fuel or follows a dangling pointer. *)
Theorem AddInterval_overrides h L ivs lo s e :
  holds h L ivs -> disjoint_from lo ivs -> MinInt <= lo <= s -> s < e -> e <= MaxInt ->
  exists h',
    (i <- NewInterval s e ;; AddInterval L i) h = (Ok tt, h') /\
    holds h' L (add_iv ivs s e) /\ disjoint_from lo (add_iv ivs s e) /\
    forall x, cover (add_iv ivs s e) x <-> s <= x < e \/ cover ivs x.
Proof.
  intros Hh Hd Hlo Hse He. destruct (add_holds h L ivs lo s e) as (h' & Hrun & Hh'); [done|done|lia|done..|].
  exists h'. split_and!; [done | done | apply disjoint_add_iv; [done|lia|done]|].
  intros x. by apply cover_add_iv.
Qed.

(** Total counts: after any writes below [hi], overlapping or not, Total is the
    number of distinct offsets written, and merging does not change it. *)
Theorem Total_counts hi ws h :
  0 <= hi <= MaxInt -> Forall (fun w => 0 <= w.1 /\ w.2 <= hi) ws ->
  exists L h1 h2,
    recorded ws h = (Ok L, h1) /\ Total L h1 = (Ok (count_covered hi ws), h1) /\
    Merge L h1 = (Ok tt, h2) /\ Total L h2 = (Ok (count_covered hi ws), h2).
Proof.
  intros Hhi Hw. destruct (recorded_holds hi ws h Hhi Hw) as (L & h1 & ivs & Hrun & Hh & Hd & Hb & Hc).
  apply holds_fholds in Hh.
  destruct (doMerge_fholds h1 L ivs (-1)) as (h2 & Hm & Hf); [done|done|by apply (disjoint_weaken 0)|].
  assert (Hsum : sum_len ivs = count_covered hi ws).
  { rewrite (sum_len_count 0 hi) by (done || lia). unfold count_covered. rewrite Z.sub_0_r.
    do 2 f_equal. apply filter_seqZ_ext. intros x _. apply Hc. }
  assert (Hle : sum_len ivs <= MaxInt).
  { rewrite Hsum. unfold count_covered. pose proof (length_filter (cover ws) (seqZ 0 hi)) as Hl.
    rewrite length_seqZ in Hl. lia. }
  exists L, h1, h2. split_and!; [done | | done |].
  - rewrite <- Hsum. by apply (Total_fholds _ _ _ 0).
  - rewrite <- Hsum, <- sum_len_merge_iv.
    apply (Total_fholds _ _ _ 0); [done | by apply merge_iv_disjoint | by rewrite sum_len_merge_iv].
Qed.

Lemma Copy_fholds {A} h L ivs (dst src : list A) :
  fholds h L ivs -> disjoint_from 0 ivs -> length src = length dst ->
  let below := ends_below (Z.of_nat (length src)) (merge_iv ivs) in
  exists h', Copy L dst src h = (Ok (sum_len below, copied below dst src), h').
Proof.
  intros Hh Hd Hl below.
  destruct (doMerge_fholds h L ivs (-1)) as (h' & Hm & (ls & Hr & Hls)); [done|done|by apply (disjoint_weaken 0)|].
  exists h'. assert (Hlen := frep_length _ _ _ Hr).
  destruct Hr as (Hnd & Ht & nx & Hnx & [[pv Hhd] Hs]). unfold Copy, bind at 1. rewrite Hm.
  rewrite bool_decide_true by done. cbn [negb]. unfold bind at 1. rewrite (load_run _ _ _ Hhd).
  unfold bind, gets. cbn [Next id].
  erewrite copy_loop_run; [by rewrite Hls | done | done | | reflexivity | | done | done].
  - unfold cells in Hnd. rewrite !NoDup_cons in Hnd. set_solver.
  - rewrite Hls. by apply merge_iv_disjoint.
Qed.

(** What Copy copies: after any writes into a buffer, Copy replaces exactly the
    bytes that were written and belong to a run of written bytes ending before
    the end of the buffer; a run that reaches the end is left out. *)
Theorem Copy_exact {A} (dst src : list A) ws h :
  length src = length dst -> Z.of_nat (length dst) <= MaxInt ->
  Forall (fun w => 0 <= w.1 /\ w.2 <= Z.of_nat (length dst)) ws ->
  exists L h1 h2 n dst',
    recorded ws h = (Ok L, h1) /\ Copy L dst src h1 = (Ok (n, dst'), h2) /\
    length dst' = length dst /\
    forall x : nat,
      let copied_at := cover ws (Z.of_nat x) /\
        exists y, Z.of_nat x < y < Z.of_nat (length dst) /\ ~ cover ws y in
      (copied_at -> dst' !! x = src !! x) /\ (~ copied_at -> dst' !! x = dst !! x).
Proof.
  intros Hl Hm Hw.
  destruct (recorded_holds (Z.of_nat (length dst)) ws h) as (L & h1 & ivs & Hrun & Hh & Hd & Hb & Hc);
    [lia | done |].
  destruct (Copy_fholds h1 L ivs dst src) as (h2 & Hcopy); [by apply holds_fholds | done | done |].
  rewrite Hl in Hcopy. set (n := Z.of_nat (length dst)) in *.
  destruct (copied_spec (ends_below n (merge_iv ivs)) dst src) as [Hlen Hx]; [|done|].
  { apply Forall_forall. intros iv [Hiv Hin]%list_elem_of_filter.
    apply merge_iv_disjoint, disjoint_Forall in Hd. rewrite Forall_forall in Hd.
    specialize (Hd _ Hin). lia. }
  exists L, h1, h2. eexists _, _. split_and!; [done | exact Hcopy | done |].
  assert (Hcov : forall x, cover (ends_below n (merge_iv ivs)) x <->
    cover ws x /\ exists y, x < y < n /\ ~ cover ws y).
  { intros x. rewrite (cover_ends_below 0) by done. setoid_rewrite Hc. done. }
  intros x copied_at. rewrite Hx. split; intros Hp.
  - rewrite decide_True; [done|]. by apply Hcov.
  - rewrite decide_False; [done|]. by rewrite Hcov.
Qed.

(** Merging leaves the tail's back pointer on the absorbed cell, so a write
    after a merge can bring a stale range back: the list then reports more bytes
    than were written. *)
Theorem add_after_merge_overlaps :
  exists L h,
    (L <- recorded [(0, 10); (10, 20)] ;; Merge L ;;; write_all L [(5, 8)] ;;; ret L) [] = (Ok L, h) /\
    fst (Total L h) = Ok 30 /\ count_covered 20 [(0, 10); (10, 20); (5, 8)] = 20.
Proof. eexists _, _. split; [vm_compute; reflexivity|]. split; vm_compute; reflexivity. Qed.

(** * Witnesses *)

(** The list after one write. *)
Definition list10 : IntervalList := mkIntervalList 0 1.
Definition h10 : heap := snd (recorded [(0, 10)] []).

Lemma list10_holds : recorded [(0, 10)] [] = (Ok list10, h10) /\ holds h10 list10 [(0, 10)].
Proof.
  split; [reflexivity|]. exists [(2%nat, (0, 10))]. split; [|reflexivity].
  split; [apply (bool_decide_unpack _); by vm_compute|].
  exists None, None. split_and!; [by left | by left | reflexivity | reflexivity |]. by split.
Qed.

Lemma AddInterval_overrides_witness :
  exists h', (i <- NewInterval 4 6 ;; AddInterval list10 i) h10 = (Ok tt, h') /\
    holds h' list10 [(0, 4); (4, 6); (6, 10)].
Proof.
  destruct (AddInterval_overrides h10 list10 [(0, 10)] 0 4 6) as (h' & Hrun & Hh & _).
  - exact (proj2 list10_holds).
  - cbn. lia.
  - unfold MinInt. lia.
  - lia.
  - unfold MaxInt. lia.
  - exists h'. split; [exact Hrun | exact Hh].
Defined.

Lemma Total_counts_witness :
  exists L h, recorded [(0, 10); (5, 20); (30, 30)] [] = (Ok L, h) /\ fst (Total L h) = Ok 20.
Proof.
  destruct (Total_counts 64 [(0, 10); (5, 20); (30, 30)] []) as (L & h1 & h2 & Hrun & Ht & _).
  - unfold MaxInt. lia.
  - repeat constructor; cbn; lia.
  - exists L, h1. split; [exact Hrun|]. rewrite Ht. vm_compute. reflexivity.
Defined.

Lemma Copy_exact_witness :
  exists L h1 h2 n dst',
    recorded [(1, 2); (3, 4)] [] = (Ok L, h1) /\
    Copy L [false; false; false; false] [true; true; true; true] h1 = (Ok (n, dst'), h2) /\
    dst' !! 1%nat = Some true /\ length dst' = 4%nat.
Proof.
  destruct (Copy_exact [false; false; false; false] [true; true; true; true] [(1, 2); (3, 4)] [])
    as (L & h1 & h2 & n & dst' & Hrun & Hc & Hl & Hx).
  - reflexivity.
  - unfold MaxInt. cbn. lia.
  - repeat constructor; cbn; lia.
  - exists L, h1, h2, n, dst'. split; [exact Hrun|]. split; [exact Hc|]. split; [|exact Hl].
    apply (proj1 (Hx 1%nat)). split.
    + by apply (bool_decide_unpack _); vm_compute.
    + exists 2. split; [cbn; lia|]. by apply (bool_decide_unpack _); vm_compute.
Defined.
