(* ===== verification/Hash.v ===== *)
(** Bytes, the little-endian and varint encodings of encoding/binary, and the
    two checksums of Go's standard library that block headers carry:
    crc32.ChecksumIEEE and sha256. *)
From Stdlib Require Import Ascii Strings.Byte NArith Lia.
From stdpp Require Import prelude list strings.
From S2P Require Import Prelude.

Open Scope N_scope.

(** * Bytes *)

(** [byte(n)]. *)
Definition to_byte (n : N) : byte := default x00 (Byte.of_N (n mod 256)).

Fixpoint le_bytes (k : nat) (n : N) : list byte :=
  match k with
  | O => []
  | S k => to_byte n :: le_bytes k (n / 256)
  end.
Fixpoint le_value (bs : list byte) : N :=
  match bs with
  | [] => 0
  | b :: r => Byte.to_N b + 256 * le_value r
  end.

(** [binary.PutUvarint]: seven bits a byte, the high bit marks that more follow.
    Ten bytes hold any uint64. *)
Fixpoint uvarint (fuel : nat) (x : N) : list byte :=
  match fuel with
  | O => []
  | S fuel =>
      if 128 <=? x then to_byte (N.lor (x mod 128) 128) :: uvarint fuel (N.shiftr x 7)
      else [to_byte x]
  end.
Definition PutUvarint (x : N) : list byte := uvarint 10 x.

(** * crc32.ChecksumIEEE *)

Fixpoint crc_bits (k : nat) (c : N) : N :=
  match k with
  | O => c
  | S k => crc_bits k (if N.testbit c 0 then N.lxor 0xEDB88320 (N.shiftr c 1) else N.shiftr c 1)
  end.
Definition crc_byte (c : N) (b : byte) : N := crc_bits 8 (N.lxor c (Byte.to_N b)).
Definition crc32 (data : list byte) : N := N.lxor (foldl crc_byte 0xFFFFFFFF data) 0xFFFFFFFF.

(** * sha256 *)

Definition add32 (a b : N) : N := wrap32 (a + b).
Definition rotr (n : N) (x : N) : N := N.lor (N.shiftr x n) (wrap32 (N.shiftl x (32 - n))).
Definition not32 (x : N) : N := N.lxor x 0xFFFFFFFF.

(** FIPS 180-4 takes the constants from the first 64 primes: the first 32 bits of
    the fractional parts of their cube roots and, for the initial state, of the
    square roots of the first eight. *)
Definition is_prime (n : nat) : bool := forallb (fun d => negb (n mod d =? 0)%nat) (seq 2 (n - 2)).
Definition primes : list N := N.of_nat <$> List.filter is_prime (seq 2 310).

(** The cube root of [n], rounded down, from its bits [k] to 0. *)
Fixpoint cube_root (k : nat) (n r : N) : N :=
  let r' := r + N.shiftl 1 (N.of_nat k) in
  let r := if r' * r' * r' <=? n then r' else r in
  match k with O => r | S k => cube_root k n r end.

Definition sha_K : list N :=
  Eval vm_compute in (fun p => wrap32 (cube_root 35 (N.shiftl p 96) 0)) <$> primes.
Definition sha_H : list N :=
  Eval vm_compute in (fun p => wrap32 (N.sqrt (N.shiftl p 64))) <$> take 8 primes.


Record sha_state := Sha { ha : N; hb : N; hc : N; hd : N; he : N; hf : N; hg : N; hh : N }.

Definition sha_init : sha_state :=
  match sha_H with
  | [a; b; c; d; e; f; g; h] => Sha a b c d e f g h
  | _ => Sha 0 0 0 0 0 0 0 0
  end.

Definition be_word (bs : list byte) : N :=
  foldl (fun acc b => acc * 256 + Byte.to_N b) 0 bs.
Definition be_bytes (k : nat) (n : N) : list byte := rev (le_bytes k n).

(** The message schedule: the words so far, latest first. *)
Fixpoint sha_schedule (k : nat) (w : list N) : list N :=
  match k with
  | O => rev w
  | S k =>
      let at_ i := nth i w 0 in
      let s0 x := N.lxor (N.lxor (rotr 7 x) (rotr 18 x)) (N.shiftr x 3) in
      let s1 x := N.lxor (N.lxor (rotr 17 x) (rotr 19 x)) (N.shiftr x 10) in
      sha_schedule k (add32 (add32 (s1 (at_ 1%nat)) (at_ 6%nat)) (add32 (s0 (at_ 14%nat)) (at_ 15%nat)) :: w)
  end.

Definition sha_round (s : sha_state) (kw : N * N) : sha_state :=
  let S1 := N.lxor (N.lxor (rotr 6 (he s)) (rotr 11 (he s))) (rotr 25 (he s)) in
  let ch := N.lxor (N.land (he s) (hf s)) (N.land (not32 (he s)) (hg s)) in
  let t1 := add32 (add32 (hh s) S1) (add32 ch (add32 (fst kw) (snd kw))) in
  let S0 := N.lxor (N.lxor (rotr 2 (ha s)) (rotr 13 (ha s))) (rotr 22 (ha s)) in
  let maj := N.lxor (N.lxor (N.land (ha s) (hb s)) (N.land (ha s) (hc s))) (N.land (hb s) (hc s)) in
  Sha (add32 t1 (add32 S0 maj)) (ha s) (hb s) (hc s) (add32 (hd s) t1) (he s) (hf s) (hg s).

Definition sha_block (s : sha_state) (ws : list N) : sha_state :=
  let r := foldl sha_round s (zip sha_K (sha_schedule 48 (rev ws))) in
  Sha (add32 (ha s) (ha r)) (add32 (hb s) (hb r)) (add32 (hc s) (hc r)) (add32 (hd s) (hd r))
      (add32 (he s) (he r)) (add32 (hf s) (hf r)) (add32 (hg s) (hg r)) (add32 (hh s) (hh r)).

(** Groups of [k]; the length of the list is fuel enough. *)
Fixpoint groups {A} (fuel k : nat) (l : list A) : list (list A) :=
  match fuel, l with
  | O, _ | _, [] => []
  | S fuel, _ => take k l :: groups fuel k (drop k l)
  end.

Definition sha_pad (data : list byte) : list byte :=
  let n := length data in
  data ++ [x80] ++ replicate ((119 - n mod 64) mod 64)%nat x00 ++ be_bytes 8 (8 * N.of_nat n).

Definition sha256 (data : list byte) : list byte :=
  let padded := sha_pad data in
  let words := be_word <$> groups (length padded) 4 padded in
  let s := foldl sha_block sha_init (groups (length words) 16 words) in
  be_bytes 4 (ha s) ++ be_bytes 4 (hb s) ++ be_bytes 4 (hc s) ++ be_bytes 4 (hd s) ++
  be_bytes 4 (he s) ++ be_bytes 4 (hf s) ++ be_bytes 4 (hg s) ++ be_bytes 4 (hh s).

(** * Hexadecimal *)

(** [fmt.Sprintf("%x", bs)] and [hex.EncodeToString]; [hex.DecodeString], which
    takes letters of both cases and fails on an odd length. *)
Definition hex_digit (n : N) : ascii := ascii_of_N (if n <? 10 then 48 + n else 87 + n).
Fixpoint hex (bs : list byte) : string :=
  match bs with
  | [] => ""
  | b :: r => String (hex_digit (Byte.to_N b / 16)) (String (hex_digit (Byte.to_N b mod 16)) (hex r))
  end.
Definition unhex_digit (c : ascii) : option N :=
  let n := N_of_ascii c in
  if (48 <=? n) && (n <=? 57) then Some (n - 48)
  else if (97 <=? n) && (n <=? 102) then Some (n - 87)
  else if (65 <=? n) && (n <=? 70) then Some (n - 55)
  else None.
Fixpoint unhex (s : string) : option (list byte) :=
  match s with
  | EmptyString => Some []
  | String _ EmptyString => None
  | String a (String b r) =>
      x ← unhex_digit a; y ← unhex_digit b; l ← unhex r; Some (to_byte (16 * x + y) :: l)
  end.

(** * Lemmas *)

Lemma to_byte_N n : Byte.to_N (to_byte n) = n mod 256.
Proof.
  unfold to_byte. assert (Hn : n mod 256 < 256) by (apply N.mod_lt; lia).
  destruct (Byte.of_N (n mod 256)) as [b|] eqn:Hb; [by apply Byte.to_of_N in Hb|].
  apply Byte.of_N_None_iff in Hb. lia.
Qed.

Lemma to_byte_to_N b : to_byte (Byte.to_N b) = b.
Proof.
  unfold to_byte. rewrite N.mod_small by (pose proof (Byte.to_N_bounded b); lia).
  by rewrite Byte.of_to_N.
Qed.

Lemma length_le_bytes k n : length (le_bytes k n) = k.
Proof. revert n. induction k as [|k IH]; intros n; [done|]. cbn. by rewrite IH. Qed.

Lemma le_value_bytes k n : le_value (le_bytes k n) = n mod 256 ^ N.of_nat k.
Proof.
  revert n. induction k as [|k IH]; intros n; [by rewrite N.mod_1_r|].
  cbn [le_bytes le_value]. rewrite to_byte_N, IH.
  rewrite Nat2N.inj_succ, N.pow_succ_r', N.Div0.mod_mul_r. lia.
Qed.

Lemma le_bytes_value bs : le_bytes (length bs) (le_value bs) = bs.
Proof.
  induction bs as [|b r IH]; [done|]. cbn [length le_bytes le_value].
  assert (Hb := Byte.to_N_bounded b). f_equal.
  - rewrite <- (to_byte_to_N b) at 2. unfold to_byte.
    by rewrite (N.mul_comm 256), N.Div0.mod_add, (N.mod_small (Byte.to_N b)) by lia.
  - rewrite (N.mul_comm 256), N.div_add, N.div_small by lia. by rewrite N.add_0_l.
Qed.

Lemma le_value_app a b : le_value (a ++ b) = le_value a + 256 ^ N.of_nat (length a) * le_value b.
Proof.
  induction a as [|x a IH]; [by rewrite N.mul_1_l|]. cbn [app le_value length].
  rewrite IH, Nat2N.inj_succ, N.pow_succ_r'. lia.
Qed.

Lemma length_be_bytes k n : length (be_bytes k n) = k.
Proof. unfold be_bytes. by rewrite length_rev, length_le_bytes. Qed.

Lemma length_sha256 data : length (sha256 data) = 32%nat.
Proof. unfold sha256. by rewrite !length_app, !length_be_bytes. Qed.

Lemma lxor_bounded k a b : a < 2 ^ k -> b < 2 ^ k -> N.lxor a b < 2 ^ k.
Proof.
  intros Ha Hb. apply N.mod_small_iff; [by apply N.pow_nonzero|].
  apply N.bits_inj. intros i. destruct (N.lt_ge_cases i k) as [Hi|Hi].
  - by rewrite N.mod_pow2_bits_low.
  - rewrite N.mod_pow2_bits_high by done.
    rewrite N.lxor_spec, <- (N.mod_small a (2 ^ k)), <- (N.mod_small b (2 ^ k)) by done.
    by rewrite !N.mod_pow2_bits_high.
Qed.

Lemma crc_bits_bounded k c : c < 2 ^ 32 -> crc_bits k c < 2 ^ 32.
Proof.
  revert c. induction k as [|k IH]; intros c Hc; [done|]. cbn [crc_bits]. apply IH.
  assert (Hs : N.shiftr c 1 < 2 ^ 32).
  { rewrite N.shiftr_div_pow2. apply N.Div0.div_lt_upper_bound. lia. }
  destruct (N.testbit c 0); [|done]. by apply lxor_bounded.
Qed.

Lemma crc32_bounded data : crc32 data < 2 ^ 32.
Proof.
  unfold crc32. apply lxor_bounded; [|done].
  assert (Hc : 0xFFFFFFFF < 2 ^ 32) by done. revert Hc. generalize 0xFFFFFFFF.
  induction data as [|b r IH]; intros c Hc; [done|]. cbn [foldl]. apply IH.
  apply crc_bits_bounded, lxor_bounded; [done|]. pose proof (Byte.to_N_bounded b). lia.
Qed.

(** The value a varint has when it is read as a little-endian number: never less
    than the number encoded, and more when it takes several bytes. *)
Lemma uvarint_value fuel x :
  x < 128 ^ N.of_nat fuel ->
  x <= le_value (uvarint fuel x) /\ (128 <= x -> x < le_value (uvarint fuel x)).
Proof.
  revert x. induction fuel as [|fuel IH]; intros x Hx; [change (128 ^ N.of_nat 0) with 1 in Hx; split; lia|].
  rewrite Nat2N.inj_succ, N.pow_succ_r' in Hx. cbn [uvarint].
  destruct (128 <=? x) eqn:H128.
  - apply N.leb_le in H128. cbn [le_value]. rewrite to_byte_N, N.shiftr_div_pow2.
    change (2 ^ 7) with 128. assert (Hd := N.div_mod x 128). assert (Hm := N.mod_lt x 128).
    destruct (IH (x / 128)) as [Hle _]; [apply N.Div0.div_lt_upper_bound; lia|].
    assert (Hor : N.lor (x mod 128) 128 = x mod 128 + 128).
    { rewrite N.add_nocarry_lxor, N.lxor_lor; [done | |].
      all: apply N.bits_inj_0; intros i; rewrite N.land_spec.
      all: destruct (N.lt_ge_cases i 7) as [Hi|Hi];
        [change 128 with (2 ^ 7); rewrite N.pow2_bits_false by lia; apply andb_false_r
        |change (x mod 128) with (x mod 2 ^ 7); rewrite N.mod_pow2_bits_high by done; done]. }
    rewrite Hor, (N.mod_small (_ + 128)) by lia. split; lia.
  - apply N.leb_gt in H128. cbn [le_value]. rewrite to_byte_N, N.mod_small by lia. split; lia.
Qed.

Lemma length_uvarint fuel x : x < 128 ^ N.of_nat fuel -> fuel <> 0%nat ->
  (1 <= length (uvarint fuel x) <= fuel)%nat.
Proof.
  revert x. induction fuel as [|fuel IH]; intros x Hx Hf; [done|].
  rewrite Nat2N.inj_succ, N.pow_succ_r' in Hx. cbn [uvarint]. destruct (128 <=? x) eqn:H128; [|cbn; lia].
  apply N.leb_le in H128. cbn [length]. destruct fuel as [|fuel].
  { change (128 ^ N.of_nat 0) with 1 in Hx. lia. }
  assert (1 <= length (uvarint (S fuel) (N.shiftr x 7)) <= S fuel)%nat; [|lia].
  apply IH; [|done]. rewrite N.shiftr_div_pow2. change (2 ^ 7) with 128.
  apply N.Div0.div_lt_upper_bound. lia.
Qed.

(** More fuel than needed changes nothing. *)
Lemma uvarint_fuel fuel fuel' x :
  x < 128 ^ N.of_nat fuel -> (fuel <= fuel')%nat -> fuel <> 0%nat -> uvarint fuel' x = uvarint fuel x.
Proof.
  revert fuel' x. induction fuel as [|fuel IH]; intros fuel' x Hx Hle Hf; [done|].
  destruct fuel' as [|fuel']; [lia|]. rewrite Nat2N.inj_succ, N.pow_succ_r' in Hx. cbn [uvarint].
  destruct (128 <=? x) eqn:H128; [|done]. apply N.leb_le in H128. f_equal.
  destruct fuel as [|fuel]; [change (128 ^ N.of_nat 0) with 1 in Hx; lia|].
  apply IH; [|lia|done]. rewrite N.shiftr_div_pow2. change (2 ^ 7) with 128.
  apply N.Div0.div_lt_upper_bound. lia.
Qed.

(** Published test vectors. *)
Example crc32_abc : crc32 (to_byte <$> [97; 98; 99]) = 0x352441c2.
Proof. vm_compute. reflexivity. Qed.

Example sha256_abc : be_word (sha256 (to_byte <$> [97; 98; 99])) =
  0xba7816bf8f01cfea414140de5dae2223b00361a396177a9cb410ff61f20015ad.
Proof. vm_compute. reflexivity. Qed.

(** ** Hexadecimal *)

Lemma hex_digit_round n : n < 16 -> unhex_digit (hex_digit n) = Some n.
Proof.
  intros Hn. assert (Hb : forallb (fun n => bool_decide (unhex_digit (hex_digit n) = Some n)) (N.of_nat <$> seq 0 16) = true)
    by by vm_compute.
  rewrite forallb_forall in Hb. specialize (Hb n).
  apply bool_decide_eq_true in Hb; [done|]. apply list_elem_of_In, list_elem_of_fmap.
  exists (N.to_nat n). rewrite elem_of_seq. lia.
Qed.

Lemma unhex_hex bs : unhex (hex bs) = Some bs.
Proof.
  induction bs as [|b r IH]; [done|]. cbn [hex unhex]. pose proof (Byte.to_N_bounded b) as Hb.
  rewrite !hex_digit_round, IH by (apply N.Div0.div_lt_upper_bound || apply N.mod_lt; lia). cbn.
  do 2 f_equal. unfold to_byte. rewrite <- N.Div0.div_mod, N.mod_small by lia.
  by rewrite Byte.of_to_N.
Qed.

Lemma hex_inj a b : hex a = hex b -> a = b.
Proof. intros E. apply (f_equal unhex) in E. rewrite !unhex_hex in E. by injection E. Qed.

Lemma hex_no_slash bs : has_char "/"%char (hex bs) = false.
Proof.
  assert (Hd : forall n, n < 16 -> bool_decide (hex_digit n = "/"%char) = false).
  { intros n Hn. apply bool_decide_eq_false. intros E. pose proof (hex_digit_round n Hn) as Hr. rewrite E in Hr. done. }
  induction bs as [|b r IH]; [done|]. cbn [hex has_char]. pose proof (Byte.to_N_bounded b) as Hb.
  rewrite !Hd, IH by (apply N.Div0.div_lt_upper_bound || apply N.mod_lt; lia). done.
Qed.
