(* ===== verification/Block.v ===== *)
(** The stored form of a block, src/pkg/storage/block/block.go: a header of
    fixed layout in front of the data. *)
From Stdlib Require Import Strings.Byte NArith Lia.
From stdpp Require Import prelude list.
From S2P Require Import Prelude Hash.

Open Scope N_scope.

Inductive block_error := ErrInvalidBlock.

Definition headerKindOffset : nat := 0.
Definition headerDataLenOffset : nat := headerKindOffset + 1.
Definition headerIndexOffset : nat := headerDataLenOffset + 8.
Definition headerCrc32Offset : nat := headerIndexOffset + 8.
Definition headerChecksumOffset : nat := headerCrc32Offset + 4.
Definition headerCancelOffset : nat := headerChecksumOffset + 32.
Definition HeaderSize : nat := headerCancelOffset + 1.

Record Block := mkBlock { data : list byte }.

Record Header := mkHeader {
  Kind : byte;
  DataLen : N;
  Index : N;
  Crc32 : N;
  Checksum : list byte;
  Canceled : byte }.

(** * Slices *)

(** [buf[off] = b], [binary.LittleEndian.PutUint64(buf[off:], v)] and the like:
    an index out of range panics. *)
Definition put (off : nat) (bs : list byte) (buf : list byte) : outcome block_error (list byte) :=
  if (off + length bs <=? length buf)%nat
  then Ok (take off buf ++ bs ++ drop (off + length bs) buf) else Panic.
Definition PutUint64 (off : nat) (v : N) := put off (le_bytes 8 v).
Definition PutUint32 (off : nat) (v : N) := put off (le_bytes 4 v).

(** [copy(buf[off:], src)] copies what fits. *)
Definition copy_to (off : nat) (src : list byte) (buf : list byte) : outcome block_error (list byte) :=
  if (off <=? length buf)%nat then put off (take (length buf - off) src) buf else Panic.

(** [buf[off:off+n]]. *)
Definition sub (off n : nat) (buf : list byte) : list byte := take n (drop off buf).
Definition get (off : nat) (buf : list byte) : byte := default x00 (buf !! off).
Definition Uint64 (off : nat) (buf : list byte) : N := le_value (sub off 8 buf).
Definition Uint32 (off : nat) (buf : list byte) : N := le_value (sub off 4 buf).

(** * Blocks *)

Definition NewBlockWithHash (index : N) (d hash : list byte) : outcome block_error Block :=
  let buf := replicate (HeaderSize + length d) x00 in
  buf <~ put headerKindOffset [x01] buf ;;
  buf <~ PutUint64 headerDataLenOffset (N.of_nat (length d)) buf ;;
  buf <~ PutUint64 headerIndexOffset index buf ;;
  buf <~ PutUint32 headerCrc32Offset (crc32 d) buf ;;
  buf <~ copy_to headerChecksumOffset hash buf ;;
  buf <~ put headerCancelOffset [x00] buf ;;
  buf <~ copy_to HeaderSize d buf ;;
  Ok (mkBlock buf).

Definition NewBlock (index : N) (d : list byte) : outcome block_error Block :=
  NewBlockWithHash index d (sha256 d).

Definition DecodeBlockHeader (src : list byte) : outcome block_error Header :=
  if (length src <? HeaderSize)%nat then Err ErrInvalidBlock else
  Ok (mkHeader (get headerKindOffset src) (Uint64 headerDataLenOffset src)
        (Uint64 headerIndexOffset src) (Uint32 headerCrc32Offset src)
        (sub headerChecksumOffset 32 src) (get headerCancelOffset src)).

Definition Block_Header (b : Block) : outcome block_error Header := DecodeBlockHeader (data b).

(** [b.data[21:53]]; out of range panics. *)
Definition Hash (b : Block) : outcome block_error (list byte) :=
  if (headerChecksumOffset + 32 <=? length (data b))%nat
  then Ok (sub headerChecksumOffset 32 (data b)) else Panic.

Definition Raw (b : Block) : list byte := data b.

(** The setters change the block in place. *)
Definition update (guard : nat) (f : list byte -> outcome block_error (list byte)) :
    M Block block_error unit := fun b =>
  if (length (data b) <? guard)%nat then (Err ErrInvalidBlock, b) else
  match f (data b) with
  | Ok d => (Ok tt, mkBlock d)
  | Err e => (Err e, b)
  | Panic => (Panic, b)
  end.
Definition SetLen (v : N) : M Block block_error unit :=
  update HeaderSize (put headerDataLenOffset (PutUvarint v)).
Definition SetKind (v : byte) : M Block block_error unit := update 1 (put 0 [v]).
Definition SetIndex (v : N) : M Block block_error unit :=
  update HeaderSize (put headerIndexOffset (PutUvarint v)).
Definition SetCanceled : M Block block_error unit :=
  update HeaderSize (put headerCancelOffset [x01]).

Definition field {A} (f : list byte -> A) (b : Block) : outcome block_error A :=
  if (length (data b) <? HeaderSize)%nat then Err ErrInvalidBlock else Ok (f (data b)).
Definition GetIndex (b : Block) : outcome block_error N := field (Uint64 headerIndexOffset) b.
Definition GetLen (b : Block) : outcome block_error N := field (Uint64 headerDataLenOffset) b.
Definition GetKind (b : Block) : outcome block_error byte := field (get headerKindOffset) b.
Definition GetCrc32 (b : Block) : outcome block_error N := field (Uint32 headerCrc32Offset) b.
Definition IsCanceled (b : Block) : outcome block_error bool :=
  field (fun d => Byte.eqb (get headerCancelOffset d) x01) b.

Definition DecodeObjectBlock (src : list byte) : outcome block_error Block :=
  if (length src <? HeaderSize)%nat then Err ErrInvalidBlock else Ok (mkBlock (drop HeaderSize src)).

(** * Headers *)

(** [copy(out[21:53], h.Checksum)] copies at most 32 bytes. *)
Definition Encode (h : Header) : outcome block_error (list byte) :=
  out <~ put 0 [Kind h] (replicate HeaderSize x00) ;;
  out <~ PutUint64 headerDataLenOffset (DataLen h) out ;;
  out <~ PutUint64 headerIndexOffset (Index h) out ;;
  out <~ PutUint32 headerCrc32Offset (Crc32 h) out ;;
  out <~ put headerChecksumOffset (take 32 (Checksum h)) out ;;
  put headerCancelOffset [Canceled h] out.
Definition EncodeBlockHeader (h : Header) : outcome block_error (list byte) := Encode h.

Definition IsCommitted (h : Header) : bool := Byte.eqb (Canceled h) x01.

(** * Lemmas *)

#[local] Opaque sha256 crc32.

(** Arithmetic on the offsets. *)
Ltac offsets :=
  unfold HeaderSize, headerCancelOffset, headerChecksumOffset, headerCrc32Offset, headerIndexOffset,
    headerDataLenOffset, headerKindOffset in *; lia.

Lemma put_run off bs buf :
  (off + length bs <= length buf)%nat ->
  put off bs buf = Ok (take off buf ++ bs ++ drop (off + length bs) buf).
Proof. intros H. unfold put. by rewrite (proj2 (Nat.leb_le _ _) H). Qed.

(** Writing right behind what has been written. *)
Lemma put_next pre old bs rest off :
  off = length pre -> length old = length bs -> put off bs (pre ++ old ++ rest) = Ok (pre ++ bs ++ rest).
Proof.
  intros -> Hl. rewrite put_run by (rewrite !length_app; lia).
  rewrite take_app_length, <- drop_drop, drop_app_length, <- Hl, drop_app_length. done.
Qed.

Lemma sub_at pre bs rest off n :
  off = length pre -> n = length bs -> sub off n (pre ++ bs ++ rest) = bs.
Proof. intros -> ->. unfold sub. by rewrite drop_app_length, take_app_length. Qed.

Lemma get_at pre b rest off : off = length pre -> get off (pre ++ [b] ++ rest) = b.
Proof. intros ->. unfold get. cbn [app]. by rewrite list_lookup_middle. Qed.

(** The bytes of a header, in order. *)
Definition layout (k : byte) (len index crc : N) (sum : list byte) (c : byte) : list byte :=
  [k] ++ le_bytes 8 len ++ le_bytes 8 index ++ le_bytes 4 crc ++ sum ++ [c].

Lemma layout_length k len index crc sum c :
  length sum = 32%nat -> length (layout k len index crc sum c) = HeaderSize.
Proof. intros H. unfold layout. rewrite !length_app, !length_le_bytes, H. done. Qed.

(** Filling a zeroed header field by field, with [rest] behind it. *)
Lemma fill_header k len index crc sum c rest :
  length sum = 32%nat ->
  (buf <~ put 0 [k] (replicate HeaderSize x00 ++ rest) ;;
   buf <~ PutUint64 headerDataLenOffset len buf ;;
   buf <~ PutUint64 headerIndexOffset index buf ;;
   buf <~ PutUint32 headerCrc32Offset crc buf ;;
   buf <~ put headerChecksumOffset sum buf ;;
   put headerCancelOffset [c] buf) = Ok (layout k len index crc sum c ++ rest).
Proof.
  intros Hs. unfold layout, PutUint64, PutUint32.
  set (b8 := le_bytes 8 len). set (i8 := le_bytes 8 index). set (c4 := le_bytes 4 crc).
  assert (H8 : length b8 = 8%nat) by apply length_le_bytes.
  assert (Hi : length i8 = 8%nat) by apply length_le_bytes.
  assert (H4 : length c4 = 4%nat) by apply length_le_bytes.
  replace (replicate HeaderSize x00 ++ rest) with
    ([] ++ [x00] ++ replicate 8 x00 ++ replicate 8 x00 ++ replicate 4 x00 ++ replicate 32 x00 ++
     [x00] ++ rest) by done.
  rewrite (put_next [] [x00] [k]) by done. cbn [obind]. rewrite app_nil_l.
  rewrite (put_next [k] (replicate 8 x00) b8) by done. cbn [obind].
  rewrite (app_assoc [k]), (put_next _ (replicate 8 x00) i8) by (rewrite ?length_app, ?H8; done). cbn [obind].
  rewrite (app_assoc _ i8), (put_next _ (replicate 4 x00) c4) by (rewrite ?length_app, ?H8, ?Hi; done).
  cbn [obind]. rewrite (app_assoc _ c4), (put_next _ (replicate 32 x00) sum)
    by (rewrite ?length_app, ?H8, ?Hi, ?H4, ?Hs; done). cbn [obind].
  rewrite (app_assoc _ sum), (put_next _ [x00] [c]) by (rewrite ?length_app, ?H8, ?Hi, ?H4, ?Hs; done).
  by rewrite <- !app_assoc.
Qed.

Lemma decode_layout k len index crc sum c rest :
  length sum = 32%nat -> len < 2 ^ 64 -> index < 2 ^ 64 -> crc < 2 ^ 32 ->
  DecodeBlockHeader (layout k len index crc sum c ++ rest) = Ok (mkHeader k len index crc sum c).
Proof.
  intros Hs Hl Hi Hc. unfold DecodeBlockHeader.
  rewrite (proj2 (Nat.ltb_ge _ _)) by (rewrite length_app, layout_length by done; lia).
  unfold layout, Uint64, Uint32. rewrite <- !app_assoc.
  set (b8 := le_bytes 8 len). set (i8 := le_bytes 8 index). set (c4 := le_bytes 4 crc).
  assert (H8 : length b8 = 8%nat) by apply length_le_bytes.
  assert (Hi8 : length i8 = 8%nat) by apply length_le_bytes.
  assert (H4 : length c4 = 4%nat) by apply length_le_bytes.
  rewrite (sub_at [k] b8) by done.
  rewrite (app_assoc [k]), (sub_at _ i8) by (rewrite ?length_app, ?H8; done).
  rewrite (app_assoc _ i8), (sub_at _ c4) by (rewrite ?length_app, ?H8, ?Hi8; done).
  rewrite (app_assoc _ c4), (sub_at _ sum) by (rewrite ?length_app, ?H8, ?Hi8, ?H4, ?Hs; done).
  rewrite (app_assoc _ sum), (get_at _ c _ headerCancelOffset) by (rewrite ?length_app, ?H8, ?Hi8, ?H4, ?Hs; done).
  unfold b8, i8, c4. rewrite !le_value_bytes, !N.mod_small by done. done.
Qed.

Lemma Ok_inj {E A} (a b : A) : (Ok a : outcome E A) = Ok b -> a = b.
Proof. by intros [= ->]. Qed.

Lemma NewBlock_layout index d hash :
  length hash = 32%nat ->
  NewBlockWithHash index d hash =
  Ok (mkBlock (layout x01 (N.of_nat (length d)) index (crc32 d) hash x00 ++ d)).
Proof.
  intros Hh. unfold NewBlockWithHash. rewrite replicate_add.
  pose proof (fill_header x01 (N.of_nat (length d)) index (crc32 d) hash x00
    (replicate (length d) x00) Hh) as Hfill.
  revert Hfill. change headerKindOffset with 0%nat.
  destruct (put 0 [x01] _) as [b1| |]; [|done..]. cbn [obind].
  destruct (PutUint64 _ _ b1) as [b2| |]; [|done..]. cbn [obind].
  destruct (PutUint64 _ _ b2) as [b3| |]; [|done..]. cbn [obind].
  destruct (PutUint32 _ _ b3) as [b4| |]; [|done..]. cbn [obind].
  unfold copy_to at 1. destruct (put headerChecksumOffset hash b4) as [b5| |] eqn:H5; [|done..]. cbn [obind].
  assert (Hle : (headerChecksumOffset + length hash <= length b4)%nat).
  { unfold put in H5. destruct (_ <=? _)%nat eqn:Hle in H5; [by apply Nat.leb_le|done]. }
  rewrite (proj2 (Nat.leb_le _ _)) by lia. rewrite take_ge by lia. rewrite H5. cbn [obind].
  destruct (put headerCancelOffset [x00] b5) as [b6| |]; [|done..]. cbn [obind]. intros ->%Ok_inj.
  unfold copy_to. rewrite length_app, layout_length, length_replicate by done.
  rewrite (proj2 (Nat.leb_le _ _)) by lia. rewrite take_ge by lia.
  rewrite <- (app_nil_r (replicate _ _)), put_next; [by rewrite app_nil_r | by rewrite layout_length
    | by rewrite length_replicate].
Qed.

Lemma sub_length off n buf : (off + n <= length buf)%nat -> length (sub off n buf) = n.
Proof. intros H. unfold sub. rewrite length_take, length_drop. lia. Qed.

Lemma sub_app off n m buf : sub off n buf ++ sub (off + n) m buf = sub off (n + m) buf.
Proof. unfold sub. rewrite <- (take_drop n (take (n + m) (drop off buf))).
  rewrite take_take, skipn_firstn_comm, drop_drop. f_equal; f_equal; lia. Qed.

Lemma get_sub off buf : (off < length buf)%nat -> [get off buf] = sub off 1 buf.
Proof.
  intros H. unfold get, sub. destruct (lookup_lt_is_Some_2 _ _ H) as [b Hb]. rewrite Hb.
  by rewrite (drop_S _ b) by done.
Qed.

(** A header rebuilt from its fields is the start of the source. *)
Lemma layout_fields src :
  (HeaderSize <= length src)%nat ->
  layout (get headerKindOffset src) (Uint64 headerDataLenOffset src) (Uint64 headerIndexOffset src)
    (Uint32 headerCrc32Offset src) (sub headerChecksumOffset 32 src) (get headerCancelOffset src)
  = take HeaderSize src.
Proof.
  intros Hl. assert (Hn : (54 <= length src)%nat) by exact Hl. unfold layout, Uint64, Uint32.
  rewrite !get_sub by offsets.
  assert (Hle : forall off n, (off + n <= length src)%nat -> le_bytes n (le_value (sub off n src)) = sub off n src).
  { intros off n H. rewrite <- (sub_length off n src H) at 1. apply le_bytes_value. }
  rewrite !Hle by offsets. unfold headerKindOffset, headerDataLenOffset.
  rewrite !app_assoc, (sub_app 0 1 8), (sub_app 0 9 8), (sub_app 0 17 4), (sub_app 0 21 32), (sub_app 0 53 1).
  unfold sub. by rewrite drop_0.
Qed.

(** A new block carries its data behind a header that describes it: kind 1, the
    length, the index, the CRC-32 and the SHA-256 of the data, not canceled. *)
Theorem NewBlock_header index d :
  N.of_nat (length d) < 2 ^ 64 -> index < 2 ^ 64 ->
  exists b, NewBlock index d = Ok b /\
    Block_Header b = Ok (mkHeader x01 (N.of_nat (length d)) index (crc32 d) (sha256 d) x00) /\
    GetIndex b = Ok index /\ GetLen b = Ok (N.of_nat (length d)) /\ GetCrc32 b = Ok (crc32 d) /\
    IsCanceled b = Ok false /\ Hash b = Ok (sha256 d) /\
    DecodeObjectBlock (Raw b) = Ok (mkBlock d).
Proof.
  intros Hl Hi. assert (Hs := length_sha256 d). eexists.
  split; [exact (NewBlock_layout index d (sha256 d) Hs)|].
  assert (Hd := decode_layout x01 (N.of_nat (length d)) index (crc32 d) (sha256 d) x00 d Hs Hl Hi (crc32_bounded d)).
  set (buf := layout _ _ _ _ _ _ ++ d) in *.
  assert (Hlen : (length buf <? HeaderSize)%nat = false).
  { apply Nat.ltb_ge. unfold buf. rewrite length_app, layout_length by done. lia. }
  unfold Block_Header, GetIndex, GetLen, GetCrc32, IsCanceled, field, Hash, Raw, DecodeObjectBlock.
  cbn [data]. rewrite Hlen. split; [done|]. unfold DecodeBlockHeader in Hd. rewrite Hlen in Hd.
  apply Ok_inj in Hd. pose proof (f_equal Index Hd) as H1. pose proof (f_equal DataLen Hd) as H2.
  pose proof (f_equal Crc32 Hd) as H3. pose proof (f_equal Checksum Hd) as H4.
  pose proof (f_equal Canceled Hd) as H5. cbn [Index DataLen Crc32 Checksum Canceled] in *.
  rewrite H1, H2, H3, H4, H5. by split_and!.
Qed.

(** Header encoding and decoding are inverse: a header whose checksum has 32
    bytes and whose numbers fit their fields survives, and the first bytes of
    any source that decodes are what the header encodes to. *)
Theorem header_round_trip :
  (forall h rest, length (Checksum h) = 32%nat -> DataLen h < 2 ^ 64 -> Index h < 2 ^ 64 -> Crc32 h < 2 ^ 32 ->
     exists bs, EncodeBlockHeader h = Ok bs /\ DecodeBlockHeader (bs ++ rest) = Ok h) /\
  (forall src h, DecodeBlockHeader src = Ok h -> EncodeBlockHeader h = Ok (take HeaderSize src)).
Proof.
  assert (Henc : forall k len index crc sum c, length sum = 32%nat ->
    EncodeBlockHeader (mkHeader k len index crc sum c) = Ok (layout k len index crc sum c)).
  { intros k len index crc sum c Hs. pose proof (fill_header k len index crc sum c [] Hs) as Hf.
    rewrite !app_nil_r in Hf. rewrite <- Hf. unfold EncodeBlockHeader, Encode.
    cbn [Kind DataLen Index Crc32 Checksum Canceled]. by rewrite (take_ge sum) by lia. }
  split.
  - intros [k len index crc sum c] rest Hs Hl Hi Hc. eexists. split; [by apply Henc|]. by apply decode_layout.
  - intros src h. unfold DecodeBlockHeader. destruct (_ <? _)%nat eqn:Hl; [done|].
    apply Nat.ltb_ge in Hl. intros <-%Ok_inj. rewrite Henc.
    2:{ unfold sub. rewrite length_take, length_drop. offsets. }
    f_equal. by apply layout_fields.
Qed.

(** SetLen does not store what GetLen reads: the setter writes a varint, the
    getter reads eight little-endian bytes, and for every length from 128 up to
    2^56 the getter returns more than was set. *)
Theorem SetLen_inflates v b :
  (HeaderSize <= length (data b))%nat -> 128 <= v < 2 ^ 56 ->
  exists b' n, SetLen v b = (Ok tt, b') /\ GetLen b' = Ok n /\ v < n.
Proof.
  intros Hl Hv. destruct b as [d]. cbn [data] in Hl. unfold SetLen, update, PutUvarint. cbn [data].
  rewrite (proj2 (Nat.ltb_ge _ _) Hl).
  rewrite (uvarint_fuel 8 10) by (lia || (cbn; lia)).
  destruct (uvarint_value 8 v) as [_ Hgt]; [cbn; lia|]. specialize (Hgt (proj1 Hv)).
  assert (Hlen := length_uvarint 8 v). set (enc := uvarint 8 v) in *.
  assert (He : (1 <= length enc <= 8)%nat) by (apply Hlen; [cbn; lia | done]). clear Hlen.
  rewrite put_run by offsets. eexists _, _. split; [done|].
  set (d' := take _ d ++ _).
  assert (Hl' : length d' = length d).
  { unfold d'. rewrite !length_app, length_take, length_drop. offsets. }
  split; [unfold GetLen, field; cbn [data]; rewrite Hl', (proj2 (Nat.ltb_ge _ _) Hl); done|].
  unfold Uint64, sub, d'. rewrite drop_app_length' by (rewrite length_take; offsets).
  rewrite take_app_ge, le_value_app by lia. lia.
Qed.

(** * Witnesses *)

Lemma NewBlock_header_witness :
  exists b, NewBlock 3 [x61; x62] = Ok b /\ GetLen b = Ok 2 /\ GetIndex b = Ok 3.
Proof.
  destruct (NewBlock_header 3 [x61; x62]) as (b & Hb & _ & Hi & Hl & _).
  - reflexivity.
  - reflexivity.
  - exists b. split; [exact Hb|]. split; [exact Hl | exact Hi].
Defined.

Lemma SetLen_inflates_witness :
  exists b' n, SetLen 300 (mkBlock (replicate 60 x00)) = (Ok tt, b') /\ GetLen b' = Ok n /\ 300 < n.
Proof.
  apply (SetLen_inflates 300 (mkBlock (replicate 60 x00))).
  - apply Nat.leb_le. reflexivity.
  - split; [|reflexivity]. apply N.leb_le. reflexivity.
Defined.
