(* ===== verification/SlotPool.v ===== *)
(** The buffer pool of src/pkg/util/mem/slot_pool.go: buffers in sizes 1024 * 2^i,
    kept in one sync.Pool per size.  The theorems show that buffers that came
    from the pool can go back and be handed out again, and what a foreign buffer
    does to it. *)
From Stdlib Require Import Strings.Byte NArith ZArith Lia.
From stdpp Require Import prelude list.
From S2P Require Import Prelude Hash.

Open Scope N_scope.

Definition min_size : N := 1024.

(** The loop [for ; size > min_size; count++ { size = (size + 1) >> 1 }]; 64
    halvings bring any int down to 1. *)
Fixpoint bitCount_loop (fuel : nat) (size : N) (count : nat) : nat :=
  match fuel with
  | O => count
  | S fuel =>
      if min_size <? size then bitCount_loop fuel (N.shiftr (size + 1) 1) (S count) else count
  end.
Definition bitCount (size : N) : nat := bitCount_loop 64 size 0.

(** A slice over an array of its own: its bytes up to its length and its
    capacity. *)
Record slice := mkSlice { content : list byte; cap : N }.

(** The free buffers of each pool and the bytes handed out. *)
Record Pools := mkPools { used : Z; pools : list (list slice) }.

Definition n_pools : nat := bitCount (1024 * 1024 * 256).
Definition init_pools : Pools := mkPools 0 (replicate n_pools []).

Definition slotSize (i : nat) : N := N.shiftl 1024 (N.of_nat i).

(** The pool for a size, by its index. *)
Definition getSlotPool (s : Pools) (size : N) : option nat :=
  let index := bitCount size in
  if (length (pools s) <=? index)%nat then None else Some index.

Definition zeros (n : N) : list byte := replicate (N.to_nat n) x00.

(** [pool.Get()]: sync.Pool may return any buffer put into it or make a new one;
    [pick] says which. *)
Definition pool_Get (pick : option nat) (i : nat) : M Pools Empty_set slice := fun s =>
  let free := default [] (pools s !! i) in
  match pick ≫= fun j => free !! j with
  | Some b => (Ok b, mkPools (used s)
                (<[i := take (default 0%nat pick) free ++ drop (S (default 0%nat pick)) free]> (pools s)))
  | None => (Ok (mkSlice (zeros (slotSize i)) (slotSize i)), s)
  end.
Definition pool_Put (i : nat) (b : slice) : M Pools Empty_set unit :=
  modify (fun s => mkPools (used s) (<[i := b :: default [] (pools s !! i)]> (pools s))).

Definition add_used (n : Z) : M Pools Empty_set unit :=
  modify (fun s => mkPools (used s + n)%Z (pools s)).

(** [slab[:size]] panics beyond the capacity; the result is zeroed. *)
Definition Allocate (pick : option nat) (size : N) : M Pools Empty_set slice :=
  s <- gets id ;;
  match getSlotPool s size with
  | Some i =>
      slab <- pool_Get pick i ;;
      add_used (Z.of_N (cap slab)) ;;;
      if size <=? cap slab then ret (mkSlice (zeros size) (cap slab)) else go_panic
  | None => ret (mkSlice (zeros size) size)
  end.

(** The buffer is zeroed and goes to the pool of its capacity. *)
Definition Free (buf : slice) : M Pools Empty_set unit :=
  let buf := mkSlice (replicate (length (content buf)) x00) (cap buf) in
  s <- gets id ;;
  match getSlotPool s (cap buf) with
  | Some i => add_used (- Z.of_N (cap buf)) ;;; pool_Put i buf
  | None => ret tt
  end.

Definition AllocMemory (s : Pools) : Z := used s.

(** [IsAllBytesZero]: eight bytes at a time as far as [n & 0xFFFFFFF8], the rest
    one by one. *)
Definition len8 : N := 0xFFFFFFF8.

Fixpoint zero_words (k : nat) (data : list byte) : bool :=
  match k with
  | O => true
  | S k => if le_value (take 8 data) =? 0 then zero_words k (drop 8 data) else false
  end.
Definition is_zero (b : byte) : bool := Byte.to_N b =? 0.
Definition IsAllBytesZero (data : list byte) : bool :=
  let nlen8 := N.land (N.of_nat (length data)) len8 in
  zero_words (N.to_nat (nlen8 / 8)) data && forallb is_zero (drop (N.to_nat nlen8) data).

(** * Lemmas *)

Lemma bitCount_loop_spec fuel size count :
  size <= 1024 * 2 ^ N.of_nat fuel ->
  (count <= bitCount_loop fuel size count)%nat /\
  size <= 1024 * 2 ^ N.of_nat (bitCount_loop fuel size count - count).
Proof.
  revert size count. induction fuel as [|fuel IH]; intros size count Hs.
  - cbn [bitCount_loop]. rewrite Nat.sub_diag. by split.
  - cbn [bitCount_loop]. unfold min_size. destruct (1024 <? size) eqn:E.
    + apply N.ltb_lt in E. rewrite Nat2N.inj_succ, N.pow_succ_r' in Hs.
      assert (Hh : N.shiftr (size + 1) 1 = (size + 1) / 2) by by rewrite N.shiftr_div_pow2.
      rewrite Hh. destruct (IH ((size + 1) / 2) (S count)) as [H1 H2].
      { apply N.lt_succ_r, N.Div0.div_lt_upper_bound. lia. }
      split; [lia|]. set (n := bitCount_loop fuel _ _) in *.
      replace (n - count)%nat with (S (n - S count)) by lia.
      rewrite Nat2N.inj_succ, N.pow_succ_r'. pose proof (N.div_mod (size + 1) 2).
      pose proof (N.mod_lt (size + 1) 2). lia.
    + apply N.ltb_ge in E. rewrite Nat.sub_diag. change (2 ^ N.of_nat 0) with 1. split; [done | lia].
Qed.

(** A slot of the chosen size holds the request. *)
Lemma bitCount_fits size : size <= 2 ^ 63 -> size <= slotSize (bitCount size).
Proof.
  intros Hs. destruct (bitCount_loop_spec 64 size 0) as [_ H]; [cbn; lia|].
  rewrite Nat.sub_0_r in H. unfold slotSize, bitCount. by rewrite N.shiftl_mul_pow2.
Qed.

(** ... and a slot's own size leads back to its pool. *)
Lemma bitCount_slot_loop i : forall fuel count, (i <= fuel)%nat ->
  bitCount_loop fuel (1024 * 2 ^ N.of_nat i) count = (count + i)%nat.
Proof.
  induction i as [|i IH]; intros fuel count Hf.
  - rewrite Nat.add_0_r. by destruct fuel.
  - destruct fuel as [|fuel]; [lia|]. rewrite Nat2N.inj_succ, N.pow_succ_r'. cbn [bitCount_loop].
    assert (Hp : 2 ^ N.of_nat i <> 0) by by apply N.pow_nonzero.
    unfold min_size. rewrite (proj2 (N.ltb_lt _ _)) by lia.
    assert (Hh : N.shiftr (1024 * (2 * 2 ^ N.of_nat i) + 1) 1 = 1024 * 2 ^ N.of_nat i).
    { rewrite N.shiftr_div_pow2. change (2 ^ 1) with 2. symmetry.
      apply (N.div_unique _ 2 _ 1); lia. }
    rewrite Hh, IH by lia. lia.
Qed.

Lemma bitCount_slot i : (i <= 64)%nat -> bitCount (slotSize i) = i.
Proof.
  intros Hi. unfold bitCount, slotSize. rewrite N.shiftl_mul_pow2, bitCount_slot_loop by done. lia.
Qed.

(** ** Zero bytes *)

Lemma le_value_zero bs : le_value bs = 0 <-> Forall (fun b => b = x00) bs.
Proof.
  induction bs as [|b r IH]; [done|]. cbn. rewrite Forall_cons, <- IH. split.
  - intros H. split; [|lia]. rewrite <- (to_byte_to_N b). replace (Byte.to_N b) with 0 by lia. done.
  - intros [-> ->]. done.
Qed.

Lemma zero_words_spec k data :
  (8 * k <= length data)%nat -> zero_words k data = true <-> Forall (fun b => b = x00) (take (8 * k) data).
Proof.
  revert data. induction k as [|k IH]; intros data Hl; [done|]. cbn [zero_words].
  replace (8 * S k)%nat with (8 + 8 * k)%nat by lia. rewrite <- take_take_drop, Forall_app, <- le_value_zero.
  destruct (le_value (take 8 data) =? 0) eqn:E.
  - apply N.eqb_eq in E. rewrite IH by (rewrite length_drop; lia). tauto.
  - apply N.eqb_neq in E. split; [done | tauto].
Qed.

Lemma forallb_is_zero data : forallb is_zero data = true <-> Forall (fun b => b = x00) data.
Proof.
  induction data as [|b r IH]; [done|]. cbn. rewrite andb_true_iff, Forall_cons, IH. unfold is_zero.
  rewrite N.eqb_eq. split; intros [H1 H2]; split; try done.
  - rewrite <- (to_byte_to_N b), H1. done.
  - by rewrite H1.
Qed.

(** The length rounded down to a multiple of 8. *)
Lemma len8_multiple n : exists k, N.land n len8 = 8 * k /\ N.land n len8 <= n.
Proof.
  exists (N.land n len8 / 8). split.
  - assert (Hm : N.land n len8 mod 2 ^ 3 = 0).
    { apply N.bits_inj_0. intros i. destruct (N.lt_ge_cases i 3) as [Hi|Hi].
      - rewrite N.mod_pow2_bits_low, N.land_spec by done.
        assert (Hb : N.testbit len8 i = false) by (assert (i = 0 \/ i = 1 \/ i = 2) as [->|[->| ->]] by lia; done).
        by rewrite Hb, andb_false_r.
      - by rewrite N.mod_pow2_bits_high. }
    pose proof (N.div_mod (N.land n len8) 8). change (2 ^ 3) with 8 in Hm. lia.
  - apply N.ldiff_le, N.bits_inj_0. intros i. rewrite N.ldiff_spec, N.land_spec.
    by destruct (N.testbit n i), (N.testbit len8 i).
Qed.

(** Every pooled buffer has the size of its pool. *)
Definition pools_ok (s : Pools) : Prop :=
  length (pools s) = n_pools /\
  forall i free b, pools s !! i = Some free -> b ∈ free -> cap b = slotSize i.

Lemma getSlotPool_spec s size i :
  pools_ok s -> getSlotPool s size = Some i -> i = bitCount size /\ (i < n_pools)%nat.
Proof.
  intros [Hl _]. unfold getSlotPool. rewrite Hl. destruct (_ <=? _)%nat eqn:E; [done|].
  apply Nat.leb_gt in E. by intros [= <-].
Qed.

Lemma n_pools_18 : n_pools = 18%nat.
Proof. by vm_compute. Qed.

Lemma pool_Get_ok pick i s :
  pools_ok s -> (i < n_pools)%nat ->
  exists b s', pool_Get pick i s = (Ok b, s') /\ cap b = slotSize i /\ pools_ok s' /\ used s' = used s.
Proof.
  intros [Hl Hs] Hi. unfold pool_Get. destruct (lookup_lt_is_Some_2 (pools s) i) as [free Hf]; [lia|].
  rewrite Hf. cbn [default id].
  assert (Hnew : exists b s', (Ok (mkSlice (zeros (slotSize i)) (slotSize i)), s) =
    (Ok b : outcome Empty_set slice, s') /\ cap b = slotSize i /\ pools_ok s' /\ used s' = used s).
  { eexists _, s. split; [reflexivity|]. by split_and!. }
  destruct pick as [j|]; cbn [mbind option_bind default id]; [|done].
  destruct (free !! j) as [b|] eqn:Hb; [|exact Hnew]. eexists b, _. split; [done|].
  split; [by eapply Hs, list_elem_of_lookup_2|]. split; [|done]. split; [cbn [pools]; by rewrite length_insert|].
  cbn [pools]. intros k fr c Hk Hc. rewrite list_lookup_insert_Some in Hk.
  destruct Hk as [(-> & <- & _)|(_ & Hk)]; [|by eapply Hs].
  eapply Hs; [exact Hf|]. apply elem_of_app in Hc as [Hc|Hc].
  - rewrite <- (take_drop j free). set_solver.
  - rewrite <- (take_drop (S j) free). set_solver.
Qed.

(** Buffers of the pool are safe: whatever sync.Pool hands out, an allocation up
    to 2^63 bytes returns a zeroed buffer of the length asked for, and giving
    the buffer back leaves the pool as good as before and its account as it
    was. *)
Theorem Allocate_Free_ok s pick size :
  pools_ok s -> size <= 2 ^ 63 ->
  exists b s1 s2,
    Allocate pick size s = (Ok b, s1) /\ content b = zeros size /\ size <= cap b /\ pools_ok s1 /\
    Free b s1 = (Ok tt, s2) /\ pools_ok s2 /\ AllocMemory s2 = AllocMemory s.
Proof.
  intros Hok Hsize. unfold Allocate, bind, gets. cbn [id].
  destruct (getSlotPool s size) as [i|] eqn:Hg.
  - destruct (getSlotPool_spec _ _ _ Hok Hg) as [-> Hi].
    destruct (pool_Get_ok pick (bitCount size) s Hok Hi) as (b & s' & -> & Hcap & Hok' & Hu).
    cbn [add_used modify]. rewrite Hcap, (proj2 (N.leb_le _ _) (bitCount_fits size Hsize)).
    eexists _, _, _. split; [done|]. cbn [content cap]. split; [done|]. split; [by apply bitCount_fits|].
    split; [exact Hok'|]. unfold Free, bind, gets. cbn [id cap content].
    unfold getSlotPool. rewrite bitCount_slot by (rewrite n_pools_18 in Hi; lia).
    cbn [pools]. rewrite (proj1 Hok'), (proj2 (Nat.leb_gt _ _) Hi). split; [done|].
    cbn [add_used pool_Put modify used pools AllocMemory]. split; [|unfold AllocMemory; cbn [used]; lia].
    destruct Hok' as [Hl Hs]. split; [cbn [pools]; by rewrite length_insert|]. cbn [pools].
    intros k fr c Hk Hc. rewrite list_lookup_insert_Some in Hk.
    destruct Hk as [(-> & <- & _)|(_ & Hk)]; [|by eapply Hs].
    apply elem_of_cons in Hc as [->|Hc]; [done|].
    destruct (pools s' !! k) as [f|] eqn:Hf; [by eapply Hs | set_solver].
  - eexists _, _, _. split; [done|]. cbn [content cap]. split; [done|]. split; [done|]. split; [done|].
    unfold Free, bind, gets. cbn [id cap]. rewrite Hg. by split.
Qed.

(** A buffer that did not come from the pool spoils it: one of 1025 to 2047 bytes
    of capacity goes to the pool of 2048 bytes, and when that pool hands it out
    for a larger request the allocation panics. *)
Theorem Free_foreign_panics s c size :
  pools_ok s -> 1024 < c -> c < size <= 2048 ->
  exists s1, Free (mkSlice [] c) s = (Ok tt, s1) /\ (Allocate (Some 0%nat) size s1).1 = Panic.
Proof.
  intros [Hl Hs] Hc Hsize. unfold Free, bind, gets. cbn [id cap content].
  assert (H1 : forall x, 1024 < x <= 2048 -> bitCount x = 1%nat).
  { intros x Hx. unfold bitCount. cbn [bitCount_loop]. unfold min_size.
    rewrite (proj2 (N.ltb_lt _ _)) by lia.
    assert (Hh : N.shiftr (x + 1) 1 <= 1024).
    { rewrite N.shiftr_div_pow2. apply N.lt_succ_r, N.Div0.div_lt_upper_bound. lia. }
    by rewrite (proj2 (N.ltb_ge _ _) Hh). }
  unfold getSlotPool. rewrite H1, Hl, n_pools_18 by lia. cbn [Nat.leb].
  eexists. split; [done|]. unfold Allocate, bind, gets. cbn [id].
  unfold getSlotPool. rewrite H1 by lia. cbn [add_used pool_Put modify pools used].
  rewrite length_insert, Hl, n_pools_18. cbn [Nat.leb]. unfold pool_Get. cbn [pools].
  rewrite list_lookup_insert_eq by (rewrite Hl, n_pools_18; lia). cbn [default id mbind option_bind lookup list_lookup cap add_used modify].
  rewrite (proj2 (N.leb_gt _ _)) by lia. done.
Qed.

(** IsAllBytesZero is what its name says, for every length. *)
Theorem IsAllBytesZero_spec data : IsAllBytesZero data = true <-> Forall (fun b => b = x00) data.
Proof.
  unfold IsAllBytesZero. set (n := N.land _ _).
  assert (Hn : exists k, n = 8 * k /\ n <= N.of_nat (length data)) by apply len8_multiple.
  destruct Hn as (k & Hk & Hle). rewrite Hk, (N.mul_comm 8), N.div_mul by done.
  rewrite andb_true_iff, zero_words_spec by lia. rewrite forallb_is_zero.
  replace (N.to_nat (k * 8)) with (8 * N.to_nat k)%nat by lia. rewrite <- Forall_app, take_drop. done.
Qed.

(** * Witnesses *)

Lemma init_pools_ok : pools_ok init_pools.
Proof.
  split; [by cbn [pools init_pools]; rewrite length_replicate|]. intros i free b Hi Hb.
  apply lookup_replicate in Hi as [-> _]. set_solver.
Qed.

Lemma Allocate_Free_ok_witness :
  exists b s1 s2,
    Allocate None 12 init_pools = (Ok b, s1) /\ content b = zeros 12 /\ 12 <= cap b /\ pools_ok s1 /\
    Free b s1 = (Ok tt, s2) /\ pools_ok s2 /\ AllocMemory s2 = AllocMemory init_pools.
Proof.
  apply (Allocate_Free_ok init_pools None 12).
  - exact init_pools_ok.
  - apply N.leb_le. reflexivity.
Defined.

Lemma Free_foreign_panics_witness :
  exists s1, Free (mkSlice [] 1500) init_pools = (Ok tt, s1) /\ (Allocate (Some 0%nat) 2048 s1).1 = Panic.
Proof.
  apply (Free_foreign_panics init_pools 1500 2048).
  - exact init_pools_ok.
  - reflexivity.
  - split; [reflexivity | apply N.leb_le; reflexivity].
Defined.
