(* ===== verification/MetaStore.v ===== *)
(** Typed values in the metadata store.  [Lawful] is what a stored type promises
    to the helpers of src/pkg/store/store.go: its codec round-trips and its keys
    are its prefix followed by a name, which has no separator when [valid_key].  The block map, the
    cluster service and the slots of a volume are clients of this interface. *)
From Stdlib Require Import Ascii.
From stdpp Require Import prelude gmap strings list fin_maps.
From S2P Require Import Prelude Store Badger StoreProps.

(** [FormatPrefix x] is [bucket x] and a separator. *)
Class Lawful (T : Type) `{Serializer T} := {
  blob_of : T -> blob;
  bucket : T -> string;
  key_name : T -> string;
  Serialize_law x : Serialize x = inl (blob_of x);
  Deserialize_law x : Deserialize (blob_of x) = inl x;
  FormatPrefix_law x : FormatPrefix x = (bucket x +:+ Separator)%string;
  FormatKey_law x : FormatKey x = (FormatPrefix x +:+ key_name x)%string;
  bucket_law x : bucket x <> ""%string;
  bucket_sep x : bucket x <> Separator;
  valid_key : T -> Prop;
  key_name_law x : valid_key x -> key_name x <> ""%string /\ has_char "/"%char (key_name x) = false;
}.

(** * Lemmas *)

Section typed.
Context {T : Type} `{Lawful T}.

Lemma blob_of_inj x y : blob_of x = blob_of y -> x = y.
Proof. intros E. pose proof (Deserialize_law x) as Hx. rewrite E, Deserialize_law in Hx. congruence. Qed.

Lemma FormatKey_ne x : valid_key x -> FormatKey x <> ""%string /\ FormatKey x <> FormatPrefix x.
Proof.
  intros Hv. rewrite FormatKey_law, FormatPrefix_law. destruct (key_name_law x Hv) as [Hn _]. split.
  - intros E. destruct (bucket x) eqn:Hb; [by apply bucket_law in Hb | done].
  - intros E. destruct (key_name x) as [|c r]; [done|].
    apply (f_equal String.length) in E. rewrite !str_length_app in E. cbn in E. lia.
Qed.

Lemma trim_FormatKey x : valid_key x -> trim_key (FormatKey x) = FormatKey x.
Proof.
  intros Hv. unfold trim_key. destruct (key_name_law x Hv) as [Hn Hc]. rewrite FormatKey_law.
  rewrite bool_decide_false.
  - by apply trim_suffix_char_app.
  - rewrite FormatPrefix_law. intros E. apply (f_equal String.length) in E.
    rewrite !str_length_app in E. cbn in E.
    destruct (bucket x) eqn:Hb; [by apply bucket_law in Hb|]. destruct (key_name x); [done|]. cbn in E. lia.
Qed.

Lemma trim_FormatPrefix x : trim_key (FormatPrefix x) = bucket x.
Proof.
  unfold trim_key. rewrite FormatPrefix_law, bool_decide_false.
  - apply trim_suffix_char_snoc.
  - intros E. apply (f_equal String.length) in E. rewrite str_length_app in E. cbn in E.
    destruct (bucket x) eqn:Hb; [by apply bucket_law in Hb|]. cbn in E. lia.
Qed.

(** ** Runs over the reference store *)

Lemma DoGetValueByKey_mem x (s : mem_store) :
  valid_key x ->
  DoGetValueByKey (Some x) s =
  (match view s !! FormatKey x with
   | None => Err ErrNotFound
   | Some b => match Deserialize b with inl v => Ok v | inr e => Err e end
   end, s).
Proof.
  intros Hv. destruct (FormatKey_ne x Hv) as [Hne Hpre]. unfold DoGetValueByKey.
  rewrite !bool_decide_false by done. unfold bind.
  rewrite Get_mem by (by rewrite trim_FormatKey). rewrite trim_FormatKey by done.
  destruct (view s !! FormatKey x) as [b|]; [|done]. cbn. by destruct (Deserialize b).
Qed.

Lemma DoSaveInKVPair_mem x (s : mem_store) :
  valid_key x ->
  DoSaveInKVPair (Some x) s = (Ok tt, upd (FormatKey x) (Some (blob_of x)) s).
Proof.
  intros Hv. destruct (FormatKey_ne x Hv) as [Hne Hpre]. unfold DoSaveInKVPair.
  rewrite !bool_decide_false by done. rewrite Serialize_law. unfold bind. cbn [lift ret].
  by rewrite Save_mem.
Qed.

Lemma DoDeleteByKey_mem x (s : mem_store) :
  valid_key x ->
  DoDeleteByKey (Some x) s = (Ok tt, upd (FormatKey x) None s).
Proof.
  intros Hv. destruct (FormatKey_ne x Hv) as [Hne Hpre]. unfold DoDeleteByKey.
  rewrite !bool_decide_false by done. by rewrite Delete_mem.
Qed.

Lemma serialize_all_law (l : list T) :
  serialize_all l = inl ((fun x => KV (FormatKey x) (blob_of x)) <$> l).
Proof. induction l as [|x l IH]; [done|]. cbn. rewrite Serialize_law, IH. done. Qed.

Lemma DoBatchSaveStrictly_mem (l : list T) (s : mem_store) :
  Forall valid_key l ->
  DoBatchSaveStrictly l s =
  (Ok tt, upds ((fun x => (FormatKey x, Some (blob_of x))) <$> l) s).
Proof.
  intros Hv. unfold DoBatchSaveStrictly. rewrite serialize_all_law. unfold bind. cbn [lift ret].
  rewrite BatchSave_mem.
  - f_equal. rewrite <- list_fmap_compose. done.
  - apply Forall_fmap. eapply Forall_impl; [exact Hv|]. intros x Hx. by apply FormatKey_ne.
Qed.

(** Every value of the bucket is one of [T] under its own key. *)
Definition typed_bucket (m : gmap string blob) (p : string) : Prop :=
  forall k b, m !! k = Some b -> has_prefix p k = true -> exists x, b = blob_of x /\ FormatKey x = k.

Lemma deserialize_all_law (l : list (string * blob)) :
  Forall (fun a => exists x, a.2 = blob_of x) l ->
  exists l', deserialize_all l = inl l' /\
    l = prod_map id blob_of <$> l'.
Proof.
  induction 1 as [|[k b] l [x Hx] _ (l' & IH & ->)]; [by exists []|]. cbn in Hx. subst b.
  exists ((k, x) :: l'). cbn. by rewrite Deserialize_law, IH.
Qed.

Lemma DoGetValuesByPrefix_mem x (s : mem_store) :
  typed_bucket (view s) (FormatPrefix x) ->
  exists m, DoGetValuesByPrefix (Some x) s = (Ok m, s) /\
    forall k (y : T), m !! k = Some y <->
      view s !! k = Some (blob_of y) /\ has_prefix (FormatPrefix x) k = true.
Proof.
  intros Ht. unfold DoGetValuesByPrefix. rewrite bool_decide_false.
  2:{ rewrite FormatPrefix_law. by destruct (bucket x). }
  unfold bind. rewrite GetByBucket_mem, trim_FormatPrefix, <- FormatPrefix_law.
  2:{ rewrite trim_FormatPrefix. apply bucket_sep. }
  set (f := filter _ (view s)). destruct (deserialize_all_law (map_to_list f)) as (l' & Hd & Hl).
  { apply Forall_forall. intros [k b] Hin%elem_of_map_to_list.
    apply map_lookup_filter_Some in Hin as [Hb Hp]. destruct (Ht k b Hb Hp) as (y & -> & _). eauto. }
  rewrite Hd. cbn [lift ret]. eexists. split; [done|]. intros k y.
  assert (Hnd : NoDup l'.*1).
  { pose proof (NoDup_fst_map_to_list f) as Hn. rewrite Hl, <- list_fmap_compose in Hn. done. }
  rewrite <- elem_of_list_to_map by done. split.
  - intros Hin. apply (list_elem_of_fmap_2 (prod_map id blob_of)) in Hin. rewrite <- Hl in Hin.
    apply elem_of_map_to_list, map_lookup_filter_Some in Hin. done.
  - intros [Hv Hp]. assert (Hin : (k, blob_of y) ∈ map_to_list f).
    { apply elem_of_map_to_list, map_lookup_filter_Some. done. }
    rewrite Hl in Hin. apply list_elem_of_fmap in Hin as ([k' y'] & E & Hin).
    injection E as -> E. apply blob_of_inj in E as ->. done.
Qed.
End typed.

(** ** Transfer to any conforming badger *)

Section raw_runs.
Context {B : Badger} `{!BadgerSpec B}.

Lemma Save_any k v (s : BadgerStore B) :
  k <> ""%string -> exists s', Save k v s = (Ok tt, s') /\ sees s' = map_upd (k, Some v) (sees s).
Proof.
  intros Hk. destruct (sim_run _ _ s _ _ (sim_Save k v) (Save_mem k v (abs_store s) Hk)) as (s' & Hrun & Hs').
  exists s'. unfold sees. by rewrite Hs', view_upd.
Qed.

Lemma Get_any k (s : BadgerStore B) :
  trim_key k = k -> k <> ""%string ->
  exists s', Get k s = (match sees s !! k with Some v => Ok v | None => Err ErrNotFound end, s') /\ sees s' = sees s.
Proof.
  intros Ht Hk. pose proof (Get_mem k (abs_store s)) as Hg. rewrite Ht in Hg. specialize (Hg Hk).
  destruct (sim_run _ _ s _ _ (sim_Get k) Hg) as (s' & Hrun & Hs'). exists s'. unfold sees. by rewrite Hs'.
Qed.

Lemma DoSaveInKVPair_any `{Lawful T} (x : T) (s : BadgerStore B) :
  valid_key x ->
  exists s', DoSaveInKVPair (Some x) s = (Ok tt, s') /\ sees s' = map_upd (FormatKey x, Some (blob_of x)) (sees s).
Proof.
  intros Hv. destruct (sim_run _ _ s _ _ (sim_DoSaveInKVPair abs_store (Some x))
    (DoSaveInKVPair_mem x (abs_store s) Hv)) as (s' & Hrun & Hs').
  exists s'. unfold sees. by rewrite Hs', view_upd.
Qed.
End raw_runs.

(** * Objects that hold a store *)

(** The receiver of a method, which keeps fields of its own beside a reference
    to the store. *)
Record object (O S : Type) := Obj { self : O; st : S }.
Arguments Obj {O S} self st.
Arguments self {O S} _.
Arguments st {O S} _.

Section object.
Context {O S S' E : Type}.

(** A call on the store, a read and a write of the receiver's fields. *)
Definition on_store {A} (m : M S E A) : M (object O S) E A :=
  fun x => let '(r, s') := m (st x) in (r, Obj (self x) s').
Definition fields {A} (f : O -> A) : M (object O S) E A := gets (fun x => f (self x)).
Definition set_fields (f : O -> O) : M (object O S) E unit := modify (fun x => Obj (f (self x)) (st x)).

Definition abs_obj (abs : S -> S') (x : object O S) : object O S' := Obj (self x) (abs (st x)).
End object.

Section object_sim.
Context {O S S' E : Type} (abs : S -> S').

Lemma sim_object_store {A} (m : M S E A) m' :
  sim abs m m' -> sim (abs_obj (O := O) abs) (on_store m) (on_store m').
Proof. intros Hm x. unfold on_store. cbn [st abs_obj self]. rewrite Hm. by destruct (m (st x)). Qed.
Lemma sim_fields {A} (f : O -> A) : sim (E := E) (abs_obj abs) (fields f) (fields f).
Proof. done. Qed.
Lemma sim_set_fields (f : O -> O) : sim (E := E) (abs_obj abs) (set_fields f) (set_fields f).
Proof. done. Qed.
End object_sim.
#[export] Hint Resolve sim_object_store sim_fields sim_set_fields : sim.

Lemma on_store_run {O S E A} (m : M S E A) (o : O) s r s' :
  m s = (r, s') -> on_store m (Obj o s) = (r, Obj o s').
Proof. intros H. unfold on_store. cbn [st self]. by rewrite H. Qed.

Lemma bind_fields {O S E A C} (f : O -> A) (k : A -> M (object O S) E C) o s :
  (x <- fields f ;; k x) (Obj o s) = k (f o) (Obj o s).
Proof. done. Qed.
Lemma bind_set_fields {O S E C} (f : O -> O) (k : unit -> M (object O S) E C) o s :
  bind (set_fields f) k (Obj o s) = k tt (Obj (f o) s).
Proof. done. Qed.
Lemma bind_on_store {O S E A C} (m : M S E A) (k : A -> M (object O S) E C) o s a s' :
  m s = (Ok a, s') -> (x <- on_store m ;; k x) (Obj o s) = k a (Obj o s').
Proof. intros H. unfold bind. by rewrite (on_store_run _ _ _ _ _ H). Qed.

(** What a method returns and leaves over the reference store, it returns and
    leaves over any conforming one. *)
Lemma sim_obj_run {B} `{!BadgerSpec B} {O A} (m : M (object O (BadgerStore B)) error A) m' o s r o' s1 :
  sim (abs_obj abs_store) m m' -> m' (Obj o (abs_store s)) = (r, Obj o' s1) ->
  exists s', m (Obj o s) = (r, Obj o' s') /\ abs_store s' = s1.
Proof.
  intros Hs Hm. specialize (Hs (Obj o s)). unfold abs_obj in Hs at 1. cbn [self st] in Hs.
  rewrite Hm in Hs. destruct (m (Obj o s)) as [r' [o1 s']]. injection Hs as -> -> Hst. by exists s'.
Qed.
