(* ===== verification/BlockMap.v ===== *)
(** The block map, src/pkg/meta/storage_meta/block_map/block_map.go: which blocks
    a file has and where they are stored.  The manager keeps one record per
    block in the metadata store; [holds_blocks] relates a store to the map from
    inode and block index to record it stands for. *)
From Stdlib Require Import Ascii.
From stdpp Require Import prelude gmap strings list fin_maps.
From S2P Require Import Prelude Store Badger StoreProps Attr MetaStore.

(** * Records *)

Record BlockMeta := mkBlockMeta {
  Ino : N;
  VirtualVolumeId : N;
  BlockIndexInFile : N;
  PrimaryVolumeId : N;
  SecondaryVolumeIds : list N;
  TxnId : N;
  Len : N;
  Crc32 : N;
  CreatedAt : N;
  CloudAddr : option string;
  BlockId : string }.

(** The record with only the fields of a query set. *)
Definition query (ino index : N) : BlockMeta :=
  mkBlockMeta ino 0 index 0 [] 0 0 0 0 None "".

Record BlockMetaHistory := mkHistory { h_BlockMeta : BlockMeta; Timestamp : Z }.

Record InoBlockMap := mkInoBlockMap {
  m_Ino : N;
  VirtualVolumeID : N;
  Blocks : gmap N BlockMeta }.

(** The JSON fields that [omitempty] may drop. *)
Definition meta_fields (b : BlockMeta) : json :=
  [("ino", JN (Ino b)); ("virtual_volume_id", JN (VirtualVolumeId b));
   ("block_index_in_file", JN (BlockIndexInFile b)); ("primary_volume_id", JN (PrimaryVolumeId b));
   ("secondary_volume_ids", JArr (SecondaryVolumeIds b)); ("txn_id", JN (TxnId b));
   ("len", JN (Len b)); ("crc32", JN (Crc32 b)); ("created_at", JN (CreatedAt b));
   ("block_id", JStr (BlockId b))]%string.

(** A nil pointer is dropped, a pointer to the empty string is not. *)
Definition cloud_field (b : BlockMeta) : json :=
  match CloudAddr b with None => [] | Some a => [("cloud_addr"%string, JStr a)] end.

Definition get_A (k : string) (j : json) : list N + error :=
  match jlookup k j with
  | None => inl []
  | Some (JArr l) => inl l
  | Some _ => inr ErrJson
  end.
Definition get_OS (k : string) (j : json) : option string + error :=
  match jlookup k j with
  | None => inl None
  | Some (JStr s) => inl (Some s)
  | Some _ => inr ErrJson
  end.

(** json.Marshal and json.Unmarshal; the order of the fields is immaterial. *)
Definition BlockMeta_Serialize (b : BlockMeta) : blob + error :=
  inl (BJson (omitempty (meta_fields b) ++ cloud_field b)).
Definition BlockMeta_Deserialize (bytes : blob) : BlockMeta + error :=
  match bytes with
  | BJson j =>
      sbind (get_N "ino" j) (fun ino =>
      sbind (get_N "virtual_volume_id" j) (fun v =>
      sbind (get_N "block_index_in_file" j) (fun i =>
      sbind (get_N "primary_volume_id" j) (fun p =>
      sbind (get_A "secondary_volume_ids" j) (fun ss =>
      sbind (get_N "txn_id" j) (fun t =>
      sbind (get_N "len" j) (fun l =>
      sbind (get_N "crc32" j) (fun c =>
      sbind (get_N "created_at" j) (fun ca =>
      sbind (get_OS "cloud_addr" j) (fun cl =>
      sbind (get_S "block_id" j) (fun id =>
      inl (mkBlockMeta ino v i p ss t l c ca cl id))))))))))))
  | _ => inr ErrJson
  end.

(** key: ino_block_map/<ino>/<BlockIndexInFile> *)
Definition BlockMeta_FormatPrefix (b : BlockMeta) : string :=
  ("ino_block_map/" +:+ itoa (Ino b) +:+ "/")%string.
Definition BlockMeta_FormatKey (b : BlockMeta) : string :=
  (BlockMeta_FormatPrefix b +:+ itoa (BlockIndexInFile b))%string.

#[export] Instance BlockMeta_Serializer : Serializer BlockMeta := {
  FormatKey := BlockMeta_FormatKey;
  FormatPrefix := BlockMeta_FormatPrefix;
  Serialize := BlockMeta_Serialize;
  Deserialize := BlockMeta_Deserialize;
}.

(** The history key: the prefix has no separator at its end. *)
Definition History_FormatPrefix (h : BlockMetaHistory) : string :=
  ("ino_block_map_history/" +:+ itoa (Ino (h_BlockMeta h)) +:+ "/" +:+
   itoa (BlockIndexInFile (h_BlockMeta h)))%string.
Definition History_FormatKey (h : BlockMetaHistory) : string :=
  (History_FormatPrefix h +:+ itoaZ (Timestamp h))%string.
Definition History_Serialize (h : BlockMetaHistory) : blob + error :=
  inl (BJson (omitempty (meta_fields (h_BlockMeta h)) ++ cloud_field (h_BlockMeta h) ++
              [("Timestamp"%string, JNum (Timestamp h))])).
Definition History_Deserialize (bytes : blob) : BlockMetaHistory + error :=
  sbind (BlockMeta_Deserialize bytes) (fun b =>
  match bytes with
  | BJson j => sbind (get_Z "Timestamp" j) (fun t => inl (mkHistory b t))
  | _ => inr ErrJson
  end).

#[export] Instance History_Serializer : Serializer BlockMetaHistory := {
  FormatKey := History_FormatKey;
  FormatPrefix := History_FormatPrefix;
  Serialize := History_Serialize;
  Deserialize := History_Deserialize;
}.

(** [now] is the Unix time of the call. *)
Definition BlockMetaHistoryFromBlockMeta (now : Z) (b : BlockMeta) : BlockMetaHistory :=
  mkHistory b now.

(** * The manager *)

Section manager.
Context {S : Type} `{Store S}.

(** The order in which [range] visits a Go map: any enumeration of it. *)
Context (range : gmap string BlockMeta -> list (string * BlockMeta)).

(** The loop over the records of an inode. *)
Definition collect (out : InoBlockMap) (p : string * BlockMeta) : InoBlockMap :=
  let e := p.2 in
  mkInoBlockMap (m_Ino out)
    (if bool_decide (VirtualVolumeID out = 0%N) then VirtualVolumeId e else VirtualVolumeID out)
    (<[BlockIndexInFile e := e]> (Blocks out)).

Definition GetInoBlockMap (ino : N) : M S error InoBlockMap :=
  blockMetaMaps <- DoGetValuesByPrefix (Some (query ino 0)) ;;
  ret (foldl collect (mkInoBlockMap ino 0 ∅) (range blockMetaMaps)).

(** The history query reads the current records. *)
Definition GetHistoryBlockMap (ino : N) : M S error InoBlockMap :=
  blockMetaMaps <- DoGetValuesByPrefix (Some (query ino 0)) ;;
  ret (foldl collect (mkInoBlockMap ino 0 ∅) (range blockMetaMaps)).

Definition GetInoBlockMeta (ino index : N) : M S error BlockMeta :=
  DoGetValueByKey (Some (query ino index)).

Definition UpdateInoBlockMap (blockMeta : BlockMeta) : M S error unit :=
  DoSaveInKVPair (Some blockMeta).

Definition ArchiveBlockMeta (now : Z) (blockMeta : BlockMeta) : M S error unit :=
  DoSaveInKVPair (Some (BlockMetaHistoryFromBlockMeta now blockMeta)).

Definition BatchUpdateInoBlockMap (l : list BlockMeta) : M S error unit := DoBatchSaveStrictly l.

Definition DeleteInoBlockMap (ino : N) : M S error unit := DoDeleteByKey (Some (query ino 0)).
End manager.

(** * The map a store stands for *)

Definition block_prefix (ino : N) : string := ("ino_block_map/" +:+ itoa ino +:+ "/")%string.
Definition block_key (ino i : N) : string := (block_prefix ino +:+ itoa i)%string.
Definition meta_blob (b : BlockMeta) : blob :=
  BJson (omitempty (meta_fields b) ++ cloud_field b).

Record holds_blocks (m : gmap string blob) (bm : gmap (N * N) BlockMeta) : Prop := {
  hb_lookup ino i : m !! block_key ino i = meta_blob <$> bm !! (ino, i);
  hb_index ino i b : bm !! (ino, i) = Some b -> Ino b = ino /\ BlockIndexInFile b = i;
  hb_keys ino k b : m !! k = Some b -> has_prefix (block_prefix ino) k = true ->
    exists i, k = block_key ino i;
}.

(** ** The codec *)

Lemma meta_fields_NoDup b : NoDup (meta_fields b).*1.
Proof. apply (bool_decide_unpack (NoDup (meta_fields b).*1)). by vm_compute. Qed.

Lemma get_A_omit k l t a :
  NoDup l.*1 -> jlookup k t = None -> jlookup k l = Some (JArr a) -> get_A k (omitempty l ++ t) = inl a.
Proof.
  intros Hnd Ht Hl. unfold get_A. rewrite jlookup_app, jlookup_omitempty, Hl by done. cbn.
  destruct a; [by rewrite Ht | done].
Qed.

Lemma get_OS_cloud b :
  get_OS "cloud_addr" (omitempty (meta_fields b) ++ cloud_field b) = inl (CloudAddr b).
Proof.
  unfold get_OS. rewrite jlookup_app, jlookup_omitempty by apply meta_fields_NoDup. cbn.
  unfold cloud_field. by destruct (CloudAddr b).
Qed.

Lemma meta_Deserialize_blob b : BlockMeta_Deserialize (meta_blob b) = inl b.
Proof.
  unfold BlockMeta_Deserialize, meta_blob. pose proof (meta_fields_NoDup b) as Hnd.
  assert (Ht : forall k, k <> "cloud_addr"%string -> jlookup k (cloud_field b) = None).
  { intros k Hk. unfold cloud_field. destruct (CloudAddr b); cbn; [|done].
    by rewrite bool_decide_false by done. }
  repeat first
    [ erewrite get_N_omit by (exact Hnd || (by apply Ht) || reflexivity); cbn [sbind]
    | erewrite get_A_omit by (exact Hnd || (by apply Ht) || reflexivity); cbn [sbind]
    | erewrite get_S_omit by (exact Hnd || (by apply Ht) || reflexivity); cbn [sbind] ].
  rewrite get_OS_cloud. cbn [sbind]. by destruct b.
Qed.

(** ** The keys *)

Lemma block_key_inj ino i ino' i' : block_key ino i = block_key ino' i' -> ino = ino' /\ i = i'.
Proof.
  unfold block_key, block_prefix. rewrite !str_app_assoc. intros E%str_app_inj_l.
  apply sep_inj in E as [E1 E2]; [|apply itoa_no_slash..]. split; by apply itoa_inj.
Qed.

Lemma block_key_prefix ino ino' i :
  has_prefix (block_prefix ino) (block_key ino' i) = true -> ino = ino'.
Proof.
  intros [r E]%has_prefix_spec. unfold block_key, block_prefix in E. rewrite !str_app_assoc in E.
  apply str_app_inj_l in E. apply sep_inj in E as [E1 _]; [|apply itoa_no_slash..].
  symmetry. by apply itoa_inj.
Qed.

#[export] Program Instance BlockMeta_Lawful : Lawful BlockMeta := {
  blob_of := meta_blob;
  bucket := fun b => ("ino_block_map/" +:+ itoa (Ino b))%string;
  key_name := fun b => itoa (BlockIndexInFile b);
  valid_key := fun _ => True;
}.
Next Obligation. done. Qed.
Next Obligation. intros x. apply meta_Deserialize_blob. Qed.
Next Obligation. intros x. cbn [FormatPrefix BlockMeta_Serializer]. unfold BlockMeta_FormatPrefix.
  by rewrite str_app_assoc. Qed.
Next Obligation. done. Qed.
Next Obligation. done. Qed.
Next Obligation. done. Qed.
Next Obligation. intros x _. split; [apply itoa_ne | apply itoa_no_slash]. Qed.

Lemma meta_valid (b : BlockMeta) : valid_key b.
Proof. done. Qed.

Lemma all_valid (l : list BlockMeta) : Forall valid_key l.
Proof. by apply Forall_true. Qed.

(** ** Writes *)

Lemma hb_put m bm b :
  holds_blocks m bm ->
  holds_blocks (map_upd (FormatKey b, Some (blob_of b)) m) (<[(Ino b, BlockIndexInFile b) := b]> bm).
Proof.
  intros [Hl Hi Hk]. change (FormatKey b) with (block_key (Ino b) (BlockIndexInFile b)). split.
  - intros ino i. rewrite lookup_map_upd, lookup_insert. cbn [fst snd].
    case_decide as E.
    + apply block_key_inj in E as [<- <-]. by rewrite decide_True.
    + rewrite decide_False by congruence. apply Hl.
  - intros ino i b' [[[= <- <-] <-]|[_ Hb]]%lookup_insert_Some; [done | by apply Hi].
  - intros ino k v. rewrite lookup_map_upd. cbn [fst snd]. case_decide as E; [|by apply Hk].
    intros _ Hp. subst k. apply block_key_prefix in Hp as ->. eauto.
Qed.

Lemma hb_del m bm ino0 i0 :
  holds_blocks m bm -> holds_blocks (map_upd (block_key ino0 i0, None) m) (delete (ino0, i0) bm).
Proof.
  intros [Hl Hi Hk]. split.
  - intros ino i. rewrite lookup_map_upd, lookup_delete. cbn [fst snd]. case_decide as E.
    + apply block_key_inj in E as [<- <-]. by rewrite decide_True.
    + rewrite decide_False by congruence. apply Hl.
  - intros ino i b' [_ Hb]%lookup_delete_Some. by apply Hi.
  - intros ino k v. rewrite lookup_map_upd. cbn [fst snd]. case_decide; [done | by apply Hk].
Qed.

(** The map after a batch of records, oldest first. *)
Definition put_all (l : list BlockMeta) (bm : gmap (N * N) BlockMeta) : gmap (N * N) BlockMeta :=
  foldl (fun bm b => <[(Ino b, BlockIndexInFile b) := b]> bm) bm l.

Lemma hb_put_all l m bm :
  holds_blocks m bm ->
  holds_blocks (map_upds ((fun x => (FormatKey x, Some (blob_of x))) <$> l) m) (put_all l bm).
Proof.
  revert m bm. induction l as [|b l IH]; intros m bm Hb; [done|]. cbn. apply IH. by apply hb_put.
Qed.

(** ** Reads *)

Lemma hb_typed m bm ino : holds_blocks m bm -> typed_bucket (T := BlockMeta) m (block_prefix ino).
Proof.
  intros [Hl Hi Hk] k b Hb Hp. destruct (Hk _ _ _ Hb Hp) as [i ->]. rewrite Hl in Hb.
  apply fmap_Some in Hb as (x & Hx & ->). exists x. split; [done|].
  apply Hi in Hx as [<- <-]. done.
Qed.

Lemma collect_Blocks (l : list (string * BlockMeta)) out :
  NoDup ((fun p => BlockIndexInFile p.2) <$> l) ->
  Blocks (foldl collect out l) =
  list_to_map ((fun p => (BlockIndexInFile p.2, p.2)) <$> l) ∪ Blocks out.
Proof.
  revert out. induction l as [|p l IH]; intros out Hnd; [symmetry; apply map_empty_union|].
  apply NoDup_cons in Hnd as [Hp Hnd]. cbn [foldl fmap list_fmap list_to_map]. rewrite IH by done. cbn.
  rewrite <- insert_union_l, <- insert_union_r; [done|].
  apply not_elem_of_list_to_map_1. rewrite <- list_fmap_compose. done.
Qed.

Lemma collect_Ino l out : m_Ino (foldl collect out l) = m_Ino out.
Proof. revert out. induction l as [|p l IH]; intros out; [done|]. cbn. by rewrite IH. Qed.

(** The volume of the map: one of those of its blocks, 0 only if all have 0. *)
Definition volume_of (l : list BlockMeta) (v : N) : Prop :=
  match v with
  | 0%N => Forall (fun b => VirtualVolumeId b = 0%N) l
  | _ => Exists (fun b => VirtualVolumeId b = v) l
  end.

Lemma collect_volume (l : list (string * BlockMeta)) out done_ :
  volume_of done_ (VirtualVolumeID out) ->
  volume_of (done_ ++ l.*2) (VirtualVolumeID (foldl collect out l)).
Proof.
  revert out done_. induction l as [|[k e] l IH]; intros out done_ Hv; [by rewrite app_nil_r|].
  cbn [foldl fmap list_fmap snd]. change (e :: l.*2) with ([e] ++ l.*2). rewrite app_assoc. apply IH. cbn.
  case_bool_decide as H0.
  - rewrite H0 in Hv. cbn in Hv. unfold volume_of. destruct (VirtualVolumeId e) eqn:He.
    + apply Forall_app. split; [done|]. by constructor.
    + apply Exists_app. right. by constructor.
  - unfold volume_of in *. destruct (VirtualVolumeID out); [done|]. apply Exists_app. by left.
Qed.

Section reads.
Context (range : gmap string BlockMeta -> list (string * BlockMeta)).
Context (range_perm : forall m, range m ≡ₚ map_to_list m).

Lemma GetInoBlockMap_mem (s : mem_store) bm ino :
  holds_blocks (view s) bm ->
  exists out, GetInoBlockMap range ino s = (Ok out, s) /\ m_Ino out = ino /\
    (forall i, Blocks out !! i = bm !! (ino, i)) /\
    exists l, volume_of l (VirtualVolumeID out) /\ forall b, b ∈ l <-> exists i, bm !! (ino, i) = Some b.
Proof.
  intros Hb. destruct (DoGetValuesByPrefix_mem (query ino 0) s) as (mm & Hrun & Hmm).
  { exact (hb_typed _ _ ino Hb). }
  change (FormatPrefix (query ino 0)) with (block_prefix ino) in Hmm.
  assert (Helem : forall k (e : BlockMeta), (k, e) ∈ range mm <->
    bm !! (ino, BlockIndexInFile e) = Some e /\ k = block_key ino (BlockIndexInFile e)).
  { intros k e. rewrite range_perm, elem_of_map_to_list, Hmm. destruct Hb as [Hl Hi Hk]. split.
    - intros [Hv Hp]. destruct (Hk _ _ _ Hv Hp) as [i ->]. rewrite Hl in Hv.
      apply fmap_Some in Hv as (e' & He' & E). change (meta_blob e') with (blob_of e') in E.
      apply blob_of_inj in E as <-.
      destruct (Hi _ _ _ He') as [_ <-]. done.
    - intros [Hv ->]. split; [by rewrite Hl, Hv|]. apply has_prefix_app. }
  exists (foldl collect (mkInoBlockMap ino 0 ∅) (range mm)).
  unfold GetInoBlockMap, bind. rewrite Hrun. split; [done|]. split; [apply collect_Ino|].
  assert (Hnd : NoDup ((fun p => BlockIndexInFile p.2) <$> range mm)).
  { apply NoDup_fmap_2_strong; [|rewrite range_perm; apply NoDup_map_to_list].
    intros [k e] [k' e'] [H1 ->]%Helem [H2 ->]%Helem E. cbn in E. rewrite E in *. congruence. }
  split.
  - intros i. rewrite collect_Blocks by done. cbn [Blocks]. rewrite map_union_empty. apply option_eq. intros e.
    rewrite <- elem_of_list_to_map by (by rewrite <- list_fmap_compose). rewrite list_elem_of_fmap. split.
    + intros ([k e'] & [= -> ->] & [Hin _]%Helem). done.
    + intros He. destruct Hb as [_ Hi _]. destruct (Hi _ _ _ He) as [_ <-].
      exists (block_key ino (BlockIndexInFile e), e). split; [done|]. by apply Helem.
  - exists (range mm).*2. split; [apply (collect_volume _ _ []); by constructor|]. intros e. rewrite list_elem_of_fmap. split.
    + intros ([k e'] & -> & [Hin _]%Helem). eauto.
    + intros [i He]. destruct Hb as [_ Hi _]. destruct (Hi _ _ _ He) as [_ <-].
      exists (block_key ino (BlockIndexInFile e), e). split; [done|]. by apply Helem.
Qed.
End reads.

(** * The manager over any badger that behaves as documented *)

Section blockmap.
Context {B : Badger} `{!BadgerSpec B}.
Context (range : gmap string BlockMeta -> list (string * BlockMeta)).

(** C27 The block map manager is a map from inode and block index to record, over
    any badger that behaves as documented: updates and batches insert, a query
    for one block looks it up, and the map of an inode has exactly its blocks
    and a volume taken from them, in whatever order Go walks the result. *)
Theorem BlockMap_implements (s : BadgerStore B) bm :
  (forall m, range m ≡ₚ map_to_list m) -> holds_blocks (sees s) bm ->
  (forall b, exists s', UpdateInoBlockMap b s = (Ok tt, s') /\
     holds_blocks (sees s') (<[(Ino b, BlockIndexInFile b) := b]> bm)) /\
  (forall l, exists s', BatchUpdateInoBlockMap l s = (Ok tt, s') /\ holds_blocks (sees s') (put_all l bm)) /\
  (forall ino i, exists s', sees s' = sees s /\ GetInoBlockMeta ino i s =
     (match bm !! (ino, i) with Some b => Ok b | None => Err ErrNotFound end, s')) /\
  (forall ino, exists s' out, sees s' = sees s /\ GetInoBlockMap range ino s = (Ok out, s') /\
     m_Ino out = ino /\ (forall i, Blocks out !! i = bm !! (ino, i)) /\
     exists l, volume_of l (VirtualVolumeID out) /\ forall b, b ∈ l <-> exists i, bm !! (ino, i) = Some b).
Proof.
  intros Hrange Hb. unfold sees in *. split_and!.
  - intros b. destruct (sim_run _ _ s _ _ (sim_DoSaveInKVPair abs_store (Some b))
      (DoSaveInKVPair_mem b (abs_store s) (meta_valid b))) as (s' & Hrun & Hs').
    exists s'. rewrite Hs', view_upd. split; [done | by apply hb_put].
  - intros l. destruct (sim_run _ _ s _ _ (sim_DoBatchSaveStrictly abs_store l)
      (DoBatchSaveStrictly_mem l (abs_store s) (all_valid l))) as (s' & Hrun & Hs').
    exists s'. rewrite Hs', view_upds. split; [done | by apply hb_put_all].
  - intros ino i. destruct (sim_run _ _ s _ _ (sim_DoGetValueByKey abs_store (Some (query ino i)))
      (DoGetValueByKey_mem (query ino i) (abs_store s) (meta_valid _))) as (s' & Hrun & Hs').
    exists s'. rewrite Hs'. unfold GetInoBlockMeta. rewrite Hrun. split; [done|]. f_equal.
    change (FormatKey (query ino i)) with (block_key ino i). rewrite (hb_lookup _ _ Hb).
    destruct (bm !! (ino, i)) as [b|]; [|done]. cbn [fmap option_fmap option_map Deserialize BlockMeta_Serializer].
    by rewrite meta_Deserialize_blob.
  - intros ino. destruct (GetInoBlockMap_mem range Hrange (abs_store s) bm ino Hb) as (out & Hrun & Hout).
    destruct (sim_run (GetInoBlockMap range ino) _ s _ _
      (sim_bind _ _ _ _ _ (sim_DoGetValuesByPrefix abs_store (Some (query ino 0))) (fun _ => sim_ret _ _))
      Hrun) as (s' & Hrun' & Hs'). exists s', out. by rewrite Hs'.
Qed.

(** Deleting an inode's block map removes its block 0 only; the records of all
    its other blocks stay. *)
Theorem DeleteInoBlockMap_first_only (s : BadgerStore B) bm ino :
  holds_blocks (sees s) bm ->
  exists s', DeleteInoBlockMap ino s = (Ok tt, s') /\ holds_blocks (sees s') (delete (ino, 0%N) bm).
Proof.
  intros Hb. unfold sees in *.
  destruct (sim_run _ _ s _ _ (sim_DoDeleteByKey abs_store (Some (query ino 0)))
    (DoDeleteByKey_mem (query ino 0) (abs_store s) (meta_valid _))) as (s' & Hrun & Hs').
  exists s'. rewrite Hs', view_upd. split; [done | by apply hb_del].
Qed.
End blockmap.

(** * Witnesses *)

Definition empty_store : mem_store := MkBadgerStore (B := MemBadger) ∅ None.
Definition block7 : BlockMeta := mkBlockMeta 7 1 0 2 [3; 4]%N 5 6 7 8 (Some ""%string) "b".

Lemma empty_holds : holds_blocks (sees (B := MemBadger) (BadgerSpec0 := MemBadger_spec) empty_store) ∅.
Proof. by split. Qed.

Lemma BlockMap_implements_witness :
  exists s', UpdateInoBlockMap block7 empty_store = (Ok tt, s') /\
    holds_blocks (sees (B := MemBadger) (BadgerSpec0 := MemBadger_spec) s') {[(7, 0)%N := block7]}.
Proof.
  destruct (BlockMap_implements (B := MemBadger) (BadgerSpec0 := MemBadger_spec) map_to_list empty_store ∅)
    as [Hu _].
  - reflexivity.
  - exact empty_holds.
  - exact (Hu block7).
Defined.

Lemma DeleteInoBlockMap_first_only_witness :
  exists s', DeleteInoBlockMap 7 empty_store = (Ok tt, s') /\
    holds_blocks (sees (B := MemBadger) (BadgerSpec0 := MemBadger_spec) s') (delete (7, 0)%N ∅).
Proof.
  apply (DeleteInoBlockMap_first_only (B := MemBadger) (BadgerSpec0 := MemBadger_spec) empty_store ∅ 7).
  exact empty_holds.
Defined.
