(* ===== verification/Cluster.v ===== *)
(** The cluster service, src/pkg/meta/cluster (service.go, node.go, node_addr.go):
    the storage nodes, their addresses and their peers.  [holds_nodes] relates a
    store to the nodes it stands for; the theorems show that every node knows
    all its peers and how candidates are chosen. *)
From Stdlib Require Import Ascii.
From stdpp Require Import prelude gmap strings list fin_maps sorting.
From S2P Require Import Prelude Store Badger StoreProps Attr MetaStore.

(** * Records *)

Record StorageNode := mkStorageNode {
  Id : N;
  Ip : string;
  Port : N;
  CreatedAt : N;
  UpdatedAt : N;
  Peers : list N;
  Cap : N;
  Usage : N;
  PhysicalVolumeIds : list N;
  TcpPort : N }.

Definition with_Peers (n : StorageNode) (p : list N) : StorageNode :=
  mkStorageNode (Id n) (Ip n) (Port n) (CreatedAt n) (UpdatedAt n) p (Cap n) (Usage n)
    (PhysicalVolumeIds n) (TcpPort n).
Definition with_Usage (n : StorageNode) (u : N) : StorageNode :=
  mkStorageNode (Id n) (Ip n) (Port n) (CreatedAt n) (UpdatedAt n) (Peers n) (Cap n) u
    (PhysicalVolumeIds n) (TcpPort n).

(** The record with only the id set. *)
Definition node_query (id : N) : StorageNode := mkStorageNode id "" 0 0 0 [] 0 0 [] 0.

(** proto.Marshal and proto.Unmarshal on a storage node: what is marshalled
    unmarshals to an equal message. *)
Class NodeCodec := {
  marshalNode : StorageNode -> list N;
  unmarshalNode : list N -> StorageNode + error;
  unmarshal_marshal n : unmarshalNode (marshalNode n) = inl n;
}.

Section node_serializer.
Context `{NodeCodec}.

Definition Node_FormatPrefix (n : StorageNode) : string := "storage_node/".
Definition Node_FormatKey (n : StorageNode) : string := (Node_FormatPrefix n +:+ itoa (Id n))%string.
Definition Node_Serialize (n : StorageNode) : blob + error := inl (BBytes (marshalNode n)).
Definition Node_Deserialize (bytes : blob) : StorageNode + error :=
  match bytes with BBytes b => unmarshalNode b | _ => inr ErrJson end.

#[export] Instance Node_Serializer : Serializer StorageNode := {
  FormatKey := Node_FormatKey;
  FormatPrefix := Node_FormatPrefix;
  Serialize := Node_Serialize;
  Deserialize := Node_Deserialize;
}.
End node_serializer.

Definition Addr (n : StorageNode) : string := (Ip n +:+ ":" +:+ itoa (Port n))%string.

Record NodeAddr := mkNodeAddr { na_Addr : string; na_Id : N }.

Definition NodeAddr_FormatPrefix (a : NodeAddr) : string := "storage_node_addr/".
Definition NodeAddr_FormatKey (a : NodeAddr) : string := (NodeAddr_FormatPrefix a +:+ na_Addr a)%string.
Definition NodeAddr_Serialize (a : NodeAddr) : blob + error :=
  inl (BJson [("Addr"%string, JStr (na_Addr a)); ("Id"%string, JN (na_Id a))]).
Definition NodeAddr_Deserialize (bytes : blob) : NodeAddr + error :=
  match bytes with
  | BJson j => sbind (get_S "Addr" j) (fun a => sbind (get_N "Id" j) (fun i => inl (mkNodeAddr a i)))
  | _ => inr ErrJson
  end.

#[export] Instance NodeAddr_Serializer : Serializer NodeAddr := {
  FormatKey := NodeAddr_FormatKey;
  FormatPrefix := NodeAddr_FormatPrefix;
  Serialize := NodeAddr_Serialize;
  Deserialize := NodeAddr_Deserialize;
}.

(** * Sorting *)

(** [SortR] over [sort.Sort]: an insertion sort by the comparator.  sort.Sort
    leaves the order of equal elements open; nothing below depends on it. *)
Section sort.
Context {V : Type} (comparator : V -> V -> Z).

Fixpoint insert_sorted (v : V) (l : list V) : list V :=
  match l with
  | [] => [v]
  | w :: r => if (comparator w v <? 0)%Z then w :: insert_sorted v r else v :: w :: r
  end.
Definition SortR (l : list V) : list V := foldr insert_sorted [] l.
End sort.

(** [int(n.Cap - n.Usage)]: the difference wraps as a uint64 and is read as an
    int64. *)
Definition free_space (n : StorageNode) : Z :=
  let d := ((Z.of_N (Cap n) - Z.of_N (Usage n)) mod 2 ^ 64)%Z in
  if (d <? 2 ^ 63)%Z then d else (d - 2 ^ 64)%Z.
(** Subtraction on int. *)
Definition sub64 (a b : Z) : Z := ((a - b + 2 ^ 63) mod 2 ^ 64 - 2 ^ 63)%Z.

(** * The service *)

Definition ErrNotEnoughVolumes : error := ErrOther "not enough volumes".

Section service.
Context {S : Type} `{Store S} `{NodeCodec}.

(** The order in which maps.Values and lo.Values list a Go map. *)
Context (range : gmap string StorageNode -> list (string * StorageNode)).

Definition ListStorageNodes : M S error (list StorageNode) :=
  nodes <- DoGetValuesByPrefix (Some (node_query 0)) ;;
  ret (snd <$> range nodes).

(** The request names a node by id or by address, the other is 0 or empty. *)
Definition GetStorageNode (req_Id : N) (req_Address : string) : M S error StorageNode :=
  id <- (if bool_decide (req_Address = ""%string) then ret req_Id
         else nodeAddr <- DoGetValueByKey (Some (mkNodeAddr req_Address 0)) ;; ret (na_Id nodeAddr)) ;;
  DoGetValueByKey (Some (node_query id)).

Record AddRequest := mkAddRequest { r_Ip : string; r_Port : N; r_TcpPort : N; r_Cap : N }.

(** [id] is the snowflake id drawn, [now] the Unix time of the call. *)
Definition new_node (id now : N) (nodes : list StorageNode) (req : AddRequest) : StorageNode :=
  mkStorageNode id (r_Ip req) (r_Port req) now now
    (match nodes with [] => [id] | n :: _ => Peers n ++ [id] end)
    (r_Cap req) 0 [] (r_TcpPort req).

(** Errors are joined with a base error. *)
Definition AddStorageNode (id now : N) (req : AddRequest) : M S error StorageNode :=
  r <-? ListStorageNodes ;;
  match r with
  | inr e => throw (Wrapped e)
  | inl nodes =>
      let node := new_node id now nodes req in
      r <-? DoInTxn (
        DoSaveInKVPair (Some node) ;;;
        DoSaveInKVPair (Some (mkNodeAddr (Addr node) (Id node))) ;;;
        DoBatchSaveStrictly ((fun item => with_Peers item (Peers item ++ [Id node])) <$> nodes)) ;;
      match r with
      | inr e => throw (Wrapped e)
      | inl _ => ret node
      end
  end.

Definition GetCandidateStorage : M S error (StorageNode * StorageNode) :=
  nodes <- ListStorageNodes ;;
  if (length nodes <? 2)%nat then throw ErrNotEnoughVolumes else
  match SortR (fun n1 n2 => sub64 (free_space n2) (free_space n1)) nodes with
  | n0 :: n1 :: _ => ret (n0, n1)
  | _ => go_panic
  end.

(** [lo.Sum(lo.Values(req.PhysicalVolumeUsage))] on uint64. *)
Definition PatchStorageNode (req_Id : N) (usage : list N) : M S error StorageNode :=
  node <- DoGetValueByKey (Some (node_query req_Id)) ;;
  let node := with_Usage node (foldl (fun a b => wrap64 (a + b)) 0%N usage) in
  DoSaveInKVPair (Some node) ;;;
  ret node.
End service.

(** * The nodes a store stands for *)

Definition node_key (id : N) : string := ("storage_node/" +:+ itoa id)%string.
Definition addr_key (a : string) : string := ("storage_node_addr/" +:+ a)%string.
Definition addr_blob (a : NodeAddr) : blob :=
  BJson [("Addr"%string, JStr (na_Addr a)); ("Id"%string, JN (na_Id a))].

Section nodes.
Context `{NodeCodec}.

Definition node_blob (n : StorageNode) : blob := BBytes (marshalNode n).

#[export] Program Instance Node_Lawful : Lawful StorageNode := {
  blob_of := node_blob;
  bucket := fun _ => "storage_node"%string;
  key_name := fun n => itoa (Id n);
  valid_key := fun _ => True;
}.
Next Obligation. done. Qed.
Next Obligation. intros x. apply unmarshal_marshal. Qed.
Next Obligation. done. Qed.
Next Obligation. done. Qed.
Next Obligation. done. Qed.
Next Obligation. done. Qed.
Next Obligation. intros x _. split; [apply itoa_ne | apply itoa_no_slash]. Qed.

#[export] Program Instance NodeAddr_Lawful : Lawful NodeAddr := {
  blob_of := addr_blob;
  bucket := fun _ => "storage_node_addr"%string;
  key_name := na_Addr;
  valid_key := fun a => na_Addr a <> ""%string /\ has_char "/"%char (na_Addr a) = false;
}.
Next Obligation. done. Qed.
Next Obligation.
  intros [a i]. cbn [Deserialize NodeAddr_Serializer NodeAddr_Deserialize addr_blob na_Addr na_Id].
  cbn [get_S jlookup sbind]. by erewrite get_N_JN by reflexivity.
Qed.
Next Obligation. done. Qed.
Next Obligation. done. Qed.
Next Obligation. done. Qed.
Next Obligation. done. Qed.
Next Obligation. done. Qed.

(** [nm] are the nodes and [am] the ids by address. *)
Record holds_nodes (m : gmap string blob) (nm : gmap N StorageNode) (am : gmap string N) : Prop := {
  hn_node id : m !! node_key id = node_blob <$> nm !! id;
  hn_id id n : nm !! id = Some n -> Id n = id;
  hn_keys k b : m !! k = Some b -> has_prefix "storage_node/" k = true -> exists id, k = node_key id;
  hn_addr a : m !! addr_key a = (fun i => addr_blob (mkNodeAddr a i)) <$> am !! a;
}.

(** Every node lists exactly the nodes of the cluster. *)
Definition peers_complete (nm : gmap N StorageNode) : Prop :=
  forall id n, nm !! id = Some n -> forall j, j ∈ Peers n <-> is_Some (nm !! j).

(** The nodes after [node] has joined. *)
Definition join (node : StorageNode) (nm : gmap N StorageNode) : gmap N StorageNode :=
  <[Id node := node]> ((fun n => with_Peers n (Peers n ++ [Id node])) <$> nm).

Lemma node_key_inj i j : node_key i = node_key j -> i = j.
Proof. intros E%str_app_inj_l. by apply itoa_inj. Qed.

Lemma node_addr_key_ne i a : node_key i <> addr_key a.
Proof. done. Qed.

Lemma hn_put m nm am n :
  holds_nodes m nm am -> holds_nodes (map_upd (FormatKey n, Some (blob_of n)) m) (<[Id n := n]> nm) am.
Proof.
  intros [Hl Hi Hk Ha]. change (FormatKey n) with (node_key (Id n)). split.
  - intros id. rewrite lookup_map_upd, lookup_insert. cbn [fst snd]. case_decide as E.
    + apply node_key_inj in E as <-. by rewrite decide_True.
    + rewrite decide_False by congruence. apply Hl.
  - intros id n' [[<- <-]|[_ Hn]]%lookup_insert_Some; [done | by apply Hi].
  - intros k v. rewrite lookup_map_upd. cbn [fst snd]. case_decide as E; [|by apply Hk].
    intros _ _. subst k. eauto.
  - intros a. rewrite lookup_map_upd. cbn [fst snd]. rewrite decide_False by done. apply Ha.
Qed.

Lemma hn_put_addr m nm am a :
  holds_nodes m nm am ->
  holds_nodes (map_upd (FormatKey a, Some (blob_of a)) m) nm (<[na_Addr a := na_Id a]> am).
Proof.
  intros [Hl Hi Hk Ha]. change (FormatKey a) with (addr_key (na_Addr a)). split; [| done | |].
  - intros id. rewrite lookup_map_upd. cbn [fst snd]. rewrite decide_False by done. apply Hl.
  - intros k v. rewrite lookup_map_upd. cbn [fst snd]. case_decide as E; [|by apply Hk]. by subst k.
  - intros b. rewrite lookup_map_upd, lookup_insert. cbn [fst snd]. case_decide as E.
    + apply str_app_inj_l in E as <-. rewrite decide_True by done. by destruct a.
    + rewrite decide_False by congruence. apply Ha.
Qed.

Lemma hn_put_all l m nm am :
  holds_nodes m nm am ->
  holds_nodes (map_upds ((fun x => (FormatKey x, Some (blob_of x))) <$> l) m)
    (foldl (fun nm n => <[Id n := n]> nm) nm l) am.
Proof.
  revert m nm. induction l as [|n l IH]; intros m nm Hn; [done|]. cbn. apply IH. by apply hn_put.
Qed.

(** ** Reading the nodes *)

Context (range : gmap string StorageNode -> list (string * StorageNode)).
Context (range_perm : forall m, range m ≡ₚ map_to_list m).

Lemma hn_typed m nm am : holds_nodes m nm am -> typed_bucket (T := StorageNode) m "storage_node/".
Proof.
  intros [Hl Hi Hk _] k b Hb Hp. destruct (Hk _ _ Hb Hp) as [id ->]. rewrite Hl in Hb.
  apply fmap_Some in Hb as (x & Hx & ->). exists x. split; [done|]. by apply Hi in Hx as <-.
Qed.

Lemma ListStorageNodes_mem (s : mem_store) nm am :
  holds_nodes (view s) nm am ->
  exists l, ListStorageNodes range s = (Ok l, s) /\ NoDup (Id <$> l) /\
    forall n, n ∈ l <-> nm !! Id n = Some n.
Proof.
  intros Hn. destruct (DoGetValuesByPrefix_mem (node_query 0) s (hn_typed _ _ _ Hn)) as (mm & Hrun & Hmm).
  change (FormatPrefix (node_query 0)) with "storage_node/"%string in Hmm.
  assert (Helem : forall k (n : StorageNode), (k, n) ∈ range mm <-> nm !! Id n = Some n /\ k = node_key (Id n)).
  { intros k n. rewrite range_perm, elem_of_map_to_list, Hmm. destruct Hn as [Hl Hi Hk _]. split.
    - intros [Hv Hp]. destruct (Hk _ _ Hv Hp) as [id ->]. rewrite Hl in Hv.
      apply fmap_Some in Hv as (n' & Hn' & E). change (node_blob n') with (blob_of n') in E.
      apply blob_of_inj in E as <-. by rewrite (Hi _ _ Hn').
    - intros [Hv ->]. split; [by rewrite Hl, Hv | done]. }
  exists (snd <$> range mm). unfold ListStorageNodes, bind. rewrite Hrun. split; [done|]. split.
  - rewrite <- list_fmap_compose. apply NoDup_fmap_2_strong; [|rewrite range_perm; apply NoDup_map_to_list].
    intros [k n] [k' n'] [H1 ->]%Helem [H2 ->]%Helem E. cbn in E. rewrite E in *. congruence.
  - intros n. rewrite list_elem_of_fmap. split.
    + by intros ([k n'] & -> & [Hin _]%Helem).
    + intros Hin. exists (node_key (Id n), n). split; [done|]. by apply Helem.
Qed.

(** ** Joining *)

Lemma foldl_put_nodes (l : list StorageNode) (nm : gmap N StorageNode) :
  NoDup (Id <$> l) ->
  foldl (fun nm n => <[Id n := n]> nm) nm l = list_to_map ((fun n => (Id n, n)) <$> l) ∪ nm.
Proof.
  revert nm. induction l as [|n l IH]; intros nm Hnd; [symmetry; apply map_empty_union|].
  apply NoDup_cons in Hnd as [Hn Hnd]. cbn [foldl fmap list_fmap list_to_map]. rewrite IH by done. cbn.
  rewrite <- insert_union_l, <- insert_union_r; [done|].
  apply not_elem_of_list_to_map_1. rewrite <- list_fmap_compose. done.
Qed.

Lemma join_spec node (nm : gmap N StorageNode) l :
  (forall id n, nm !! id = Some n -> Id n = id) -> nm !! Id node = None ->
  NoDup (Id <$> l) -> (forall n, n ∈ l <-> nm !! Id n = Some n) ->
  foldl (fun nm n => <[Id n := n]> nm) (<[Id node := node]> nm)
    ((fun n => with_Peers n (Peers n ++ [Id node])) <$> l) = join node nm.
Proof.
  intros Hid Hnew Hnd Hl. set (f := fun n => with_Peers n (Peers n ++ [Id node])).
  assert (Hnd' : NoDup (Id <$> (f <$> l))) by (by rewrite <- list_fmap_compose).
  rewrite foldl_put_nodes by done. apply map_eq. intros id. unfold join. rewrite lookup_union, !lookup_insert.
  destruct (list_to_map _ !! id) as [n|] eqn:Hlk.
  - apply elem_of_list_to_map_2, list_elem_of_fmap in Hlk as (n' & [= -> ->] & Hin).
    apply list_elem_of_fmap in Hin as (n & -> & Hin). apply Hl in Hin.
    change (Id (f n)) with (Id n). rewrite !decide_False by congruence.
    by rewrite lookup_fmap, Hin.
  - rewrite (left_id_L None (∪)). case_decide as E; [done|]. rewrite lookup_fmap.
    destruct (nm !! id) as [n|] eqn:Hn; [|done]. exfalso.
    apply not_elem_of_list_to_map_2 in Hlk. apply Hlk. rewrite <- list_fmap_compose.
    apply list_elem_of_fmap. exists (f n). apply Hid in Hn as Hi. split; [done|].
    apply list_elem_of_fmap. exists n. split; [done|]. apply Hl. by rewrite Hi.
Qed.

Lemma join_peers node (nm : gmap N StorageNode) l :
  peers_complete nm -> nm !! Id node = None ->
  (forall n, n ∈ l <-> nm !! Id n = Some n) -> (forall id n, nm !! id = Some n -> Id n = id) ->
  Peers node = match l with [] => [Id node] | n :: _ => Peers n ++ [Id node] end ->
  peers_complete (join node nm).
Proof.
  intros Hp Hnew Hl Hid Hpn id n Hn j.
  assert (Hj : is_Some (join node nm !! j) <-> j = Id node \/ is_Some (nm !! j)).
  { unfold join. rewrite lookup_insert. case_decide; [naive_solver|]. rewrite lookup_fmap, fmap_is_Some.
    naive_solver. }
  rewrite Hj. unfold join in Hn. apply lookup_insert_Some in Hn as [[<- <-]|[Hne Hn]].
  - rewrite Hpn. destruct l as [|n0 l].
    + rewrite list_elem_of_singleton. split; [auto|]. intros [?|[n Hn]]; [done|].
      apply Hid in Hn as Hi. subst j. apply Hl in Hn. set_solver.
    + assert (Hn0 : nm !! Id n0 = Some n0) by (apply Hl; set_solver).
      rewrite elem_of_app, (Hp _ _ Hn0), list_elem_of_singleton. tauto.
  - rewrite lookup_fmap in Hn. apply fmap_Some in Hn as (n' & Hn' & ->). cbn.
    rewrite elem_of_app, (Hp _ _ Hn'), list_elem_of_singleton. tauto.
Qed.

(** ** Running the service over the reference store *)

Lemma node_valid (n : StorageNode) : valid_key n.
Proof. done. Qed.
Lemma nodes_valid (l : list StorageNode) : Forall valid_key l.
Proof. by apply Forall_true. Qed.

Lemma Addr_valid node :
  has_char "/"%char (Ip node) = false -> valid_key (mkNodeAddr (Addr node) (Id node)).
Proof.
  intros Hs. cbn. unfold Addr. split; [by destruct (Ip node)|].
  rewrite !has_char_app, Hs, itoa_no_slash. done.
Qed.

Lemma commit_run {A} (cb : M mem_store error A) d a l :
  cb (Begin (MkBadgerStore (B := MemBadger) d None)) =
    (Ok a, upds l (Begin (MkBadgerStore (B := MemBadger) d None))) ->
  DoInTxn cb (MkBadgerStore (B := MemBadger) d None) =
    (Ok a, MkBadgerStore (B := MemBadger) (map_upds l d) None).
Proof.
  intros Hcb. unfold DoInTxn. rewrite Hcb, Commit_committed, committed_upds, committed_Begin. done.
Qed.

Lemma upds_app l l' s : upds (l ++ l') s = upds l' (upds l s).
Proof. apply foldl_app. Qed.

Lemma map_upds_other (l : list (string * option blob)) (m : gmap string blob) k :
  Forall (fun p => p.1 <> k) l -> map_upds l m !! k = m !! k.
Proof.
  intros Hl. revert m. induction Hl as [|p l Hp _ IH]; intros m; [done|]. unfold map_upds in *. cbn [foldl].
  rewrite IH, lookup_map_upd. by rewrite decide_False.
Qed.

Lemma AddStorageNode_mem d nm am id now req :
  holds_nodes d nm am -> peers_complete nm -> nm !! id = None ->
  has_char "/"%char (r_Ip req) = false ->
  exists d' node,
    AddStorageNode range id now req (MkBadgerStore (B := MemBadger) d None) =
      (Ok node, MkBadgerStore (B := MemBadger) d' None) /\
    Id node = id /\ Ip node = r_Ip req /\
    holds_nodes d' (join node nm) (<[Addr node := id]> am) /\ peers_complete (join node nm) /\
    (Addr node = r_Ip req +:+ ":" +:+ itoa (r_Port req))%string /\
    forall k, has_prefix "storage_node" k = false -> d' !! k = d !! k.
Proof.
  intros Hn Hp Hnew Hip. set (s := MkBadgerStore (B := MemBadger) d None).
  destruct (ListStorageNodes_mem s nm am Hn) as (l & Hrun & Hnd & Hl).
  set (node := new_node id now l req). set (addr := mkNodeAddr (Addr node) (Id node)).
  set (l' := (fun item => with_Peers item (Peers item ++ [Id node])) <$> l).
  set (ws := [(FormatKey node, Some (blob_of node)); (FormatKey addr, Some (blob_of addr))] ++
             ((fun x => (FormatKey x, Some (blob_of x))) <$> l')).
  exists (map_upds ws d), node. split_and!; [|done|done| | |done|].
  - unfold AddStorageNode, catch at 1. rewrite Hrun. fold node. fold addr. fold l'.
    unfold catch. rewrite (commit_run _ d tt ws); [done|]. fold s.
    unfold bind at 1. rewrite DoSaveInKVPair_mem by apply node_valid. unfold bind.
    rewrite DoSaveInKVPair_mem by by apply Addr_valid.
    rewrite DoBatchSaveStrictly_mem by apply nodes_valid. unfold ws. rewrite upds_app. done.
  - unfold ws, map_upds. rewrite foldl_app. cbn [foldl].
    rewrite <- (join_spec node nm l); [|apply (hn_id _ _ _ Hn) | done | done | done].
    apply hn_put_all. apply (hn_put_addr _ _ _ addr). by apply hn_put.
  - apply (join_peers node nm l); [done | done | done | apply (hn_id _ _ _ Hn) | done].
  - intros k Hk. apply map_upds_other, Forall_forall. intros p Hin E.
    assert (Hpre : has_prefix "storage_node" p.1 = true); [|by rewrite E, Hk in Hpre].
    unfold ws in Hin. rewrite elem_of_app, !elem_of_cons, elem_of_nil, list_elem_of_fmap in Hin. by destruct Hin as [[->|[->|[]]]|(x & -> & _)].
Qed.

Lemma GetStorageNode_mem (s : mem_store) nm am id a :
  holds_nodes (view s) nm am -> a = ""%string \/ has_char "/"%char a = false ->
  GetStorageNode id a s =
  (match (if bool_decide (a = ""%string) then Some id else am !! a) ≫= fun i => nm !! i with
   | Some n => Ok n
   | None => Err ErrNotFound
   end, s).
Proof.
  intros Hn Ha.
  assert (Hget : forall i, DoGetValueByKey (Some (node_query i)) s =
    (match nm !! i with Some n => Ok n | None => Err ErrNotFound end, s)).
  { intros i. rewrite DoGetValueByKey_mem by apply node_valid.
    change (FormatKey (node_query i)) with (node_key i). rewrite (hn_node _ _ _ Hn).
    destruct (nm !! i) as [n|]; [|done]. cbn [fmap option_fmap option_map].
    change (node_blob n) with (blob_of n). by rewrite Deserialize_law. }
  unfold GetStorageNode, bind at 1. case_bool_decide as E; [apply Hget|].
  destruct Ha as [?|Ha]; [done|]. unfold bind. rewrite DoGetValueByKey_mem by by cbn.
  change (FormatKey (mkNodeAddr a 0)) with (addr_key a). rewrite (hn_addr _ _ _ Hn).
  destruct (am !! a) as [i|]; [|done]. cbn [fmap option_fmap option_map].
  change (addr_blob (mkNodeAddr a i)) with (blob_of (mkNodeAddr a i)). rewrite Deserialize_law. apply Hget.
Qed.
End nodes.

Lemma nodes_length (nm : gmap N StorageNode) l :
  (forall id n, nm !! id = Some n -> Id n = id) -> NoDup (Id <$> l) ->
  (forall n, n ∈ l <-> nm !! Id n = Some n) -> length l = size nm.
Proof.
  intros Hid Hnd Hl. rewrite <- length_map_to_list, <- (length_fmap (fun n => (Id n, n)) l).
  apply Permutation_length, NoDup_Permutation; [|apply NoDup_map_to_list|].
  - apply NoDup_fmap_1 with fst. by rewrite <- list_fmap_compose.
  - intros [id n]. rewrite list_elem_of_fmap, elem_of_map_to_list. split.
    + intros (n' & [= -> ->] & Hin). by apply Hl.
    + intros Hn. exists n. apply Hid in Hn as Hi. subst id. split; [done | by apply Hl].
Qed.

(** ** Sorting by free space *)

Definition cand_cmp (n1 n2 : StorageNode) : Z := sub64 (free_space n2) (free_space n1).

(** A node that does not use more than it has, below 2^63. *)
Definition sane (n : StorageNode) : Prop := (Usage n <= Cap n < 2 ^ 63)%N.

Lemma sane_free n : sane n -> free_space n = (Z.of_N (Cap n) - Z.of_N (Usage n))%Z.
Proof.
  unfold sane, free_space. intros [H1 H2].
  assert (Z.of_N (Cap n) < 2 ^ 63)%Z by (change (2 ^ 63)%Z with (Z.of_N (2 ^ 63)); lia).
  rewrite Z.mod_small by lia. by rewrite (proj2 (Z.ltb_lt _ _)) by lia.
Qed.

Lemma sane_cmp a b : sane a -> sane b -> (cand_cmp a b <? 0)%Z = (free_space b <? free_space a)%Z.
Proof.
  intros Ha Hb. unfold cand_cmp, sub64. rewrite (sane_free a Ha), (sane_free b Hb).
  unfold sane in *.
  assert (Z.of_N (Cap a) < 2 ^ 63)%Z by (change (2 ^ 63)%Z with (Z.of_N (2 ^ 63)); lia).
  assert (Z.of_N (Cap b) < 2 ^ 63)%Z by (change (2 ^ 63)%Z with (Z.of_N (2 ^ 63)); lia).
  rewrite Z.mod_small by lia. apply eq_bool_prop_intro. rewrite !Is_true_true, !Z.ltb_lt. lia.
Qed.

Lemma insert_sorted_perm {V} (cmp : V -> V -> Z) v l : insert_sorted cmp v l ≡ₚ v :: l.
Proof.
  induction l as [|w r IH]; [done|]. cbn. destruct (cmp w v <? 0)%Z; [|done].
  rewrite IH. apply Permutation_swap.
Qed.

Lemma SortR_perm {V} (cmp : V -> V -> Z) l : SortR cmp l ≡ₚ l.
Proof. induction l as [|v l IH]; [done|]. cbn. by rewrite insert_sorted_perm, IH. Qed.

Abbreviation more_free := (fun a b : StorageNode => (free_space b <= free_space a)%Z).

Lemma insert_sorted_sorted v l :
  sane v -> Forall sane l -> StronglySorted more_free l -> StronglySorted more_free (insert_sorted cand_cmp v l).
Proof.
  intros Hv Hl Hs. induction Hs as [|w r Hs IH Hw]; cbn; [by repeat constructor|].
  apply Forall_cons in Hl as [Hsw Hl]. rewrite sane_cmp by done.
  destruct (free_space v <? free_space w)%Z eqn:E.
  - apply Z.ltb_lt in E. constructor; [by apply IH|]. rewrite insert_sorted_perm.
    constructor; [lia | done].
  - apply Z.ltb_ge in E. constructor; [by constructor|]. constructor; [lia|].
    eapply Forall_impl; [exact Hw|]. cbn. intros; lia.
Qed.

Lemma SortR_sorted l : Forall sane l -> StronglySorted more_free (SortR cand_cmp l).
Proof.
  induction l as [|v l IH]; [constructor|]. intros [Hv Hl]%Forall_cons.
  change (SortR cand_cmp (v :: l)) with (insert_sorted cand_cmp v (SortR cand_cmp l)).
  apply insert_sorted_sorted; [done | by rewrite SortR_perm | by apply IH].
Qed.

(** * The service over any badger that behaves as documented *)

Section cluster.
Context {B : Badger} `{!BadgerSpec B} `{NodeCodec}.
Context (range : gmap string StorageNode -> list (string * StorageNode)).

Lemma sim_ListStorageNodes : sim abs_store (ListStorageNodes (S := BadgerStore B) range) (ListStorageNodes range).
Proof. unfold ListStorageNodes. solve_sim. Qed.

Lemma sim_AddStorageNode id now req :
  sim abs_store (AddStorageNode (S := BadgerStore B) range id now req) (AddStorageNode range id now req).
Proof.
  unfold AddStorageNode. apply sim_catch; [apply sim_ListStorageNodes|]. intros [nodes|e]; [|solve_sim].
  apply sim_catch; [|intros [?|?]; solve_sim]. apply sim_DoInTxn; [apply _|]. solve_sim.
Qed.

Lemma sim_GetStorageNode id a :
  sim abs_store (GetStorageNode (S := BadgerStore B) id a) (GetStorageNode id a).
Proof. unfold GetStorageNode. solve_sim. Qed.

Lemma sim_GetCandidateStorage :
  sim abs_store (GetCandidateStorage (S := BadgerStore B) range) (GetCandidateStorage range).
Proof.
  unfold GetCandidateStorage. apply sim_bind; [apply sim_ListStorageNodes|]. intros l. solve_sim.
Qed.

Lemma GetStorageNode_found (s : BadgerStore B) nm am node id a :
  holds_nodes (view (abs_store s)) (join node nm) am -> a = ""%string \/ has_char "/"%char a = false ->
  (if bool_decide (a = ""%string) then Some id else am !! a) = Some (Id node) ->
  (GetStorageNode id a s).1 = Ok node.
Proof.
  intros Hn Ha Hid. pose proof (GetStorageNode_mem (abs_store s) _ am id a Hn Ha) as Hg.
  rewrite Hid, (sim_GetStorageNode id a s) in Hg. cbn [mbind option_bind] in Hg.
  unfold join in Hg. rewrite lookup_insert_eq in Hg. apply (f_equal fst) in Hg.
  by destruct (GetStorageNode id a s).
Qed.

(** Joining keeps every node's list of peers complete: over any badger that
    behaves as documented, a node added under a fresh id is stored, all nodes
    list it and it lists all nodes, and it is found by its address and its id. *)
Theorem AddStorageNode_joins (s : BadgerStore B) nm am id now req :
  (forall m, range m ≡ₚ map_to_list m) -> ctxTxn s = None ->
  holds_nodes (sees s) nm am -> peers_complete nm -> nm !! id = None ->
  has_char "/"%char (r_Ip req) = false ->
  exists s' node,
    AddStorageNode range id now req s = (Ok node, s') /\ Id node = id /\ ctxTxn s' = None /\
    holds_nodes (sees s') (join node nm) (<[Addr node := id]> am) /\
    peers_complete (join node nm) /\
    (GetStorageNode 0 (Addr node) s').1 = Ok node /\ (GetStorageNode id "" s').1 = Ok node.
Proof.
  intros Hrange Ht Hn Hp Hnew Hip. destruct s as [d o]. cbn in Ht. subst o. unfold sees in *.
  destruct (AddStorageNode_mem range Hrange (abs_DB d) nm am id now req Hn Hp Hnew Hip)
    as (d' & node & Hrun & Hid & Hipn & Hn' & Hp' & _).
  destruct (sim_run _ _ (MkBadgerStore d None) _ _ (sim_AddStorageNode id now req) Hrun) as (s' & Hrun' & Hs').
  assert (Hview : view (abs_store s') = d') by by rewrite Hs'.
  exists s', node. split_and!; [done | done | | by rewrite Hview | done | |].
  - destruct s' as [d1 [t|]]; [|done]. by injection Hs'.
  - apply (GetStorageNode_found s' nm (<[Addr node := id]> am) node); rewrite ?Hview; [done | |].
    + right. unfold Addr. by rewrite !has_char_app, Hipn, Hip, itoa_no_slash.
    + rewrite bool_decide_false by (unfold Addr; by destruct (Ip node)). by rewrite lookup_insert_eq, Hid.
  - apply (GetStorageNode_found s' nm (<[Addr node := id]> am) node); rewrite ?Hview; [done | by left |].
    by rewrite bool_decide_true, Hid.
Qed.

(** The candidates are the two nodes with the most free space: when no node uses
    more than its capacity and capacities are below 2^63, the primary has at
    least the free space of the secondary and the secondary at least that of
    every other node; with fewer than two nodes the call fails. *)
Theorem GetCandidateStorage_best (s : BadgerStore B) nm am :
  (forall m, range m ≡ₚ map_to_list m) -> holds_nodes (sees s) nm am ->
  (forall id n, nm !! id = Some n -> sane n) ->
  if (size nm <? 2)%nat then (GetCandidateStorage range s).1 = Err ErrNotEnoughVolumes
  else exists p q, (GetCandidateStorage range s).1 = Ok (p, q) /\
    nm !! Id p = Some p /\ nm !! Id q = Some q /\ Id p <> Id q /\
    (Cap q - Usage q <= Cap p - Usage p)%N /\
    (forall id n, nm !! id = Some n -> id <> Id p -> (Cap n - Usage n <= Cap q - Usage q)%N).
Proof.
  intros Hrange Hn Hsane. unfold sees in Hn.
  destruct (ListStorageNodes_mem range Hrange (abs_store s) nm am Hn) as (l & Hrun & Hnd & Hl).
  assert (Hid := hn_id _ _ _ Hn). assert (Hlen := nodes_length nm l Hid Hnd Hl).
  pose proof (sim_GetCandidateStorage s) as Hsim. unfold GetCandidateStorage at 1, bind in Hsim.
  rewrite Hrun, Hlen in Hsim. apply (f_equal fst) in Hsim. destruct (GetCandidateStorage range s) as [r s'].
  cbn [fst prod_map id] in Hsim. destruct (size nm <? 2)%nat eqn:H2; [by rewrite <- Hsim|].
  fold cand_cmp in Hsim. assert (Hs : Forall sane l).
  { apply Forall_forall. intros n Hin%Hl. by eapply Hsane. }
  pose proof (SortR_sorted l Hs) as Hso. pose proof (SortR_perm cand_cmp l) as Hperm.
  apply Nat.ltb_ge in H2. rewrite <- Hlen, <- Hperm in H2.
  destruct (SortR cand_cmp l) as [|p [|q rest]]; [cbn in H2; lia..|]. exists p, q.
  rewrite <- Hperm in Hnd. split; [by rewrite <- Hsim|].
  assert (Hin : forall n, n ∈ p :: q :: rest -> nm !! Id n = Some n /\ sane n).
  { intros n Hi. rewrite Hperm in Hi. apply Hl in Hi. eauto. }
  assert (Hfree : forall a b, sane a -> sane b -> (free_space b <= free_space a)%Z ->
    (Cap b - Usage b <= Cap a - Usage a)%N).
  { intros a b Ha Hb. rewrite (sane_free a), (sane_free b) by done. unfold sane in *. lia. }
  destruct (Hin p) as [Hp Hsp]; [set_solver|]. destruct (Hin q) as [Hq Hsq]; [set_solver|].
  apply StronglySorted_inv in Hso as [Hso Hpq]. apply Forall_cons in Hpq as [Hpq _].
  apply StronglySorted_inv in Hso as [_ Hqr]. cbn in Hnd. rewrite !NoDup_cons in Hnd.
  split_and!; [done | done | set_solver | by apply Hfree |].
  intros id n Hlk Hne. assert (n ∈ p :: q :: rest) as Hn'.
  { rewrite Hperm. apply Hl. by rewrite (Hid _ _ Hlk). }
  apply Hid in Hlk. subst id. apply Hfree; [done | by apply Hin|].
  rewrite !elem_of_cons in Hn'. destruct Hn' as [->|[->|Hn']]; [done | lia |].
  rewrite Forall_forall in Hqr. by apply Hqr.
Qed.
End cluster.

(** * A codec and witnesses *)

Definition str_codes (s : string) : list N := N_of_ascii <$> String.list_ascii_of_string s.
Definition codes_str (l : list N) : string := String.string_of_list_ascii (ascii_of_N <$> l).

Definition ref_marshal (n : StorageNode) : list N :=
  [Id n; Port n; CreatedAt n; UpdatedAt n; Cap n; Usage n; TcpPort n;
   N.of_nat (length (str_codes (Ip n))); N.of_nat (length (Peers n))] ++
  str_codes (Ip n) ++ Peers n ++ PhysicalVolumeIds n.
Definition ref_unmarshal (l : list N) : StorageNode + error :=
  match l with
  | i :: p :: c :: u :: cap :: us :: t :: a :: b :: r =>
      let r' := drop (N.to_nat a) r in
      inl (mkStorageNode i (codes_str (take (N.to_nat a) r)) p c u (take (N.to_nat b) r') cap us
             (drop (N.to_nat b) r') t)
  | _ => inr ErrJson
  end.

Lemma codes_str_codes s : codes_str (str_codes s) = s.
Proof.
  unfold codes_str, str_codes. rewrite <- list_fmap_compose.
  induction s as [|c s IH]; [done|]. cbn in *. by rewrite ascii_N_embedding, IH.
Qed.

#[export] Instance RefNodeCodec : NodeCodec.
Proof.
  refine {| marshalNode := ref_marshal; unmarshalNode := ref_unmarshal |}.
  intros n. unfold ref_marshal, ref_unmarshal. cbn [app].
  rewrite !Nat2N.id, drop_app_length, !take_app_length, drop_app_length, codes_str_codes. by destruct n.
Defined.

Definition node1 : StorageNode := mkStorageNode 1 "a" 1 0 0 [1; 2]%N 10 5 [] 0.
Definition node2 : StorageNode := mkStorageNode 2 "b" 1 0 0 [1; 2]%N 20 5 [] 0.

Definition empty_cluster : mem_store := MkBadgerStore (B := MemBadger) ∅ None.
Definition two_nodes : mem_store :=
  MkBadgerStore (B := MemBadger)
    (map_upd (FormatKey node2, Some (blob_of node2)) (map_upd (FormatKey node1, Some (blob_of node1)) ∅)) None.

Lemma empty_cluster_holds :
  holds_nodes (sees (B := MemBadger) (BadgerSpec0 := MemBadger_spec) empty_cluster) ∅ ∅.
Proof. by split. Qed.

Lemma two_nodes_hold :
  holds_nodes (sees (B := MemBadger) (BadgerSpec0 := MemBadger_spec) two_nodes)
    (<[2%N := node2]> (<[1%N := node1]> ∅)) ∅.
Proof. apply (hn_put _ _ _ node2), (hn_put _ _ _ node1). by split. Qed.

Lemma AddStorageNode_joins_witness :
  exists s' node,
    AddStorageNode map_to_list 5 100 (mkAddRequest "10.0.0.1" 80 81 1000) empty_cluster = (Ok node, s') /\
    Id node = 5%N /\ Peers node = [5]%N.
Proof.
  destruct (AddStorageNode_joins (B := MemBadger) (BadgerSpec0 := MemBadger_spec) map_to_list
    empty_cluster ∅ ∅ 5 100 (mkAddRequest "10.0.0.1" 80 81 1000)) as (s' & node & Hrun & Hid & _).
  - reflexivity.
  - reflexivity.
  - exact empty_cluster_holds.
  - intros id n Hn. by rewrite lookup_empty in Hn.
  - reflexivity.
  - reflexivity.
  - exists s', node. split; [exact Hrun|]. split; [exact Hid|].
    assert (Hn : (AddStorageNode map_to_list 5 100 (mkAddRequest "10.0.0.1" 80 81 1000) empty_cluster).1 = Ok node)
      by (rewrite Hrun; reflexivity).
    vm_compute in Hn. injection Hn as <-. reflexivity.
Defined.

Lemma GetCandidateStorage_best_witness :
  exists p q, (GetCandidateStorage map_to_list two_nodes).1 = Ok (p, q) /\ Id p <> Id q.
Proof.
  pose proof (GetCandidateStorage_best (B := MemBadger) (BadgerSpec0 := MemBadger_spec) map_to_list
    two_nodes (<[2%N := node2]> (<[1%N := node1]> ∅)) ∅) as H.
  destruct H as (p & q & Hrun & _ & _ & Hne & _).
  - reflexivity.
  - exact two_nodes_hold.
  - intros id n Hn. apply lookup_insert_Some in Hn as [[_ <-]|[_ Hn]]; [by unfold sane; cbn; lia|].
    apply lookup_insert_Some in Hn as [[_ <-]|[_ Hn]]; [by unfold sane; cbn; lia|]. by rewrite lookup_empty in Hn.
  - exists p, q. split; [exact Hrun | exact Hne].
Defined.
