(* ===== verification/VolumeMeta.v ===== *)
(** The volumes of the metadata server: the manager of
    src/pkg/meta/storage_meta/volume/volume.go and the service of
    src/pkg/meta/storage_meta/service.go that serves it together with the block
    map of BlockMap.v and the heartbeats of src/pkg/meta/storage_meta/heartbeat.
    [holds_volumes] relates a store to the volumes it stands for.  The theorems
    show what creating and listing volumes and moving a block do, and where
    looking a volume up by its id goes wrong. *)
From Stdlib Require Import Ascii ZArith.
From Stdlib.Floats Require Import SpecFloat.
From stdpp Require Import prelude gmap strings list fin_maps.
From S2P Require Import Prelude Store Badger StoreProps Attr MetaStore BlockMap Cluster.

(** * Records *)

Record VirtualVolume := mkVirtualVolume {
  vv_Id : N;
  vv_CapByte : N;
  vv_UsageByte : N;
  vv_CreatedAt : N;
  vv_PhysicalVolumeIds : list N;
  vv_ReadOnly : bool;
  vv_MigrateLocked : bool }.

Record PhysicalVolume := mkPhysicalVolume {
  pv_Id : N;
  pv_CapByte : N;
  pv_UsageByte : N;
  pv_CreatedAt : N;
  pv_VirtualVolumeId : N;
  pv_StorageNodeId : N;
  pv_Lock : bool;
  pv_Prefix : string;
  pv_Threhold : spec_float;
  pv_Type : N }.

(** proto.Marshal and proto.Unmarshal on the two messages: what is marshalled
    unmarshals to an equal message. *)
Class VolumeCodec := {
  marshalVirtual : VirtualVolume -> list N;
  unmarshalVirtual : list N -> VirtualVolume + error;
  unmarshal_virtual v : unmarshalVirtual (marshalVirtual v) = inl v;
  marshalPhysical : PhysicalVolume -> list N;
  unmarshalPhysical : list N -> PhysicalVolume + error;
  unmarshal_physical p : unmarshalPhysical (marshalPhysical p) = inl p;
}.

(** proto.Unmarshal stores into the message [out] it is given, which must be a
    non-nil pointer: it resets the message first, through that pointer. *)
Definition Unmarshal {A} (dec : list N -> A + error) (out : option A) (bytes : blob) : outcome error A :=
  _ <~ oderef out ;;
  match bytes with
  | BBytes b => match dec b with inl a => Ok a | inr e => Err e end
  | _ => Err ErrJson
  end.

(** The message with only the id set. *)
Definition virtual_query (id : N) : VirtualVolume := mkVirtualVolume id 0 0 0 [] false false.

(** The message with only the virtual volume set. *)
Definition physical_query (v : N) : PhysicalVolume :=
  mkPhysicalVolume 0 0 0 0 v 0 false "" (S754_zero false) 0.

Section serializers.
Context `{VolumeCodec}.

Definition Virtual_FormatPrefix : string := "virtual_volume/".
Definition Virtual_FormatKey (v : VirtualVolume) : string := (Virtual_FormatPrefix +:+ itoa (vv_Id v))%string.
Definition Virtual_Serialize (v : VirtualVolume) : blob + error := inl (BBytes (marshalVirtual v)).
(** [var out VirtualVolume]: the embedded message is nil. *)
Definition Virtual_Deserialize (bytes : blob) : outcome error VirtualVolume :=
  Unmarshal unmarshalVirtual None bytes.

Definition Physical_FormatPrefix (p : PhysicalVolume) : string := "physical_volume/".
Definition Physical_FormatKey (p : PhysicalVolume) : string :=
  (Physical_FormatPrefix p +:+ itoa (pv_Id p))%string.
Definition Physical_Serialize (p : PhysicalVolume) : blob + error := inl (BBytes (marshalPhysical p)).
(** Here the embedded message is allocated. *)
Definition Physical_Deserialize (bytes : blob) : PhysicalVolume + error :=
  match bytes with BBytes b => unmarshalPhysical b | _ => inr ErrJson end.

#[export] Instance Physical_Serializer : Serializer PhysicalVolume := {
  FormatKey := Physical_FormatKey;
  FormatPrefix := Physical_FormatPrefix;
  Serialize := Physical_Serialize;
  Deserialize := Physical_Deserialize;
}.
End serializers.

(** * The manager *)

Section manager.
Context {S : Type} `{Store S} `{NodeCodec} `{VolumeCodec}.

(** The order in which maps.Values lists a Go map of volumes. *)
Context (range : gmap string PhysicalVolume -> list (string * PhysicalVolume)).

(** [store.DoGetValueByKey], [store.DoSaveInKVPair] and
    [store.DoGetValuesByPrefix] at VirtualVolume, whose Deserialize can panic. *)
Definition DoGetVirtual (v : VirtualVolume) : M S error VirtualVolume :=
  let key := Virtual_FormatKey v in
  if bool_decide (key = ""%string) then throw ErrEmptyKey
  else if bool_decide (key = Virtual_FormatPrefix) then throw ErrKeyEqPrefix
  else buf <- Get key ;; pure (Virtual_Deserialize buf).

Definition DoSaveVirtual (v : VirtualVolume) : M S error unit :=
  let key := Virtual_FormatKey v in
  if bool_decide (key = ""%string) then throw ErrEmptyKey
  else if bool_decide (key = Virtual_FormatPrefix) then throw ErrKeyEqPrefix
  else value <- lift (Virtual_Serialize v) ;; Save key value.

Fixpoint deserialize_virtuals (l : list (string * blob)) : outcome error (list VirtualVolume) :=
  match l with
  | [] => Ok []
  | (k, buf) :: rest =>
      v <~ Virtual_Deserialize buf ;;
      r <~ deserialize_virtuals rest ;;
      Ok (v :: r)
  end.

Definition DoGetVirtuals : M S error (list VirtualVolume) :=
  bufMap <- GetByBucket Virtual_FormatPrefix ;;
  pure (deserialize_virtuals (map_to_list bufMap)).

Definition ListVirtualVolumes : M S error (list VirtualVolume) :=
  vols <-? DoGetVirtuals ;;
  match vols with
  | inl l => ret l
  | inr e => if bool_decide (e = ErrNotFound) then ret [] else throw e
  end.

Definition ListPhysicalVolumes : M S error (list PhysicalVolume) :=
  vols <-? DoGetValuesByPrefix (Some (physical_query 0)) ;;
  match vols with
  | inl m => ret (snd <$> range m)
  | inr e => if bool_decide (e = ErrNotFound) then ret [] else throw e
  end.

(** Errors are joined with a base error. *)
Definition joined {A} (m : M S error A) : M S error A :=
  r <-? m ;; match r with inl a => ret a | inr e => throw (Wrapped e) end.

Definition ListPhysicalVolumesInNode (id : N) : M S error (list PhysicalVolume) :=
  node <- joined (GetStorageNode id "") ;;
  vols <- joined (DoGetValuesByPrefix (Some (physical_query 0))) ;;
  ret (filter (fun item => pv_StorageNodeId item = Id node) (snd <$> range vols)).

Definition GetVirtualVolume (id : N) : M S error VirtualVolume := DoGetVirtual (virtual_query id).

(** The query sets the virtual volume to the id. *)
Definition GetPhysicalVolume (id : N) : M S error PhysicalVolume :=
  DoGetValueByKey (Some (physical_query id)).

(** [id] is the snowflake id drawn, [now] the Unix time of the call. *)
Definition CreateVirtualVolume (id now capInByte : N) : M S error VirtualVolume :=
  let vol := mkVirtualVolume id capInByte 0 now [] false false in
  DoSaveVirtual vol ;;;
  ret vol.

Record VolumeRequest := mkVolumeRequest {
  q_Id : N;
  q_StorageNodeId : N;
  q_Type : N;
  q_Prefix : string;
  q_Quota : option N;
  q_Threhold : option spec_float }.

Definition default_quota : N := 40 * 1024 * 1024 * 1024.
(** 0.75 *)
Definition default_threhold : spec_float := S754_finite false 6755399441055744 (-53).

(** [node.PhysicalVolumeIds = append(...)] and [node.Cap += ...] on uint64. *)
Definition with_volume (node : StorageNode) (vol : PhysicalVolume) : StorageNode :=
  mkStorageNode (Id node) (Ip node) (Port node) (Cluster.CreatedAt node) (UpdatedAt node) (Peers node)
    (wrap64 (Cap node + pv_CapByte vol)) (Usage node) (PhysicalVolumeIds node ++ [pv_Id vol]) (TcpPort node).

Definition save_volume (vol : PhysicalVolume) (node : StorageNode) : M S error unit :=
  DoInTxn (DoBatchSaveAnyStrictly [to_lossy vol; to_lossy (with_volume node vol)]).

Definition CreatePhysicalVolume (id now : N) (req : VolumeRequest) : M S error PhysicalVolume :=
  node <- joined (GetStorageNode (q_StorageNodeId req) "") ;;
  let vol := mkPhysicalVolume id (default default_quota (q_Quota req)) 0 now 0 (q_StorageNodeId req)
               false (q_Prefix req) (default default_threhold (q_Threhold req)) (q_Type req) in
  joined (save_volume vol node) ;;;
  ret vol.

(** The answer is nil when a volume is found. *)
Definition PatchPhysicalVolume (now : N) (req : VolumeRequest) : M S error (option PhysicalVolume) :=
  node <- GetStorageNode (q_StorageNodeId req) "" ;;
  _ <-? ListPhysicalVolumesInNode (q_StorageNodeId req) ;;
  found <-? GetPhysicalVolume (q_Id req) ;;
  match found with
  | inl _ => ret None
  | inr _ =>
      quota <- deref (q_Quota req) ;;
      threhold <- deref (q_Threhold req) ;;
      let vol := mkPhysicalVolume (q_Id req) quota 0 now 0 (q_StorageNodeId req) false (q_Prefix req)
                   threhold (q_Type req) in
      save_volume vol node ;;;
      _ <-? ListPhysicalVolumesInNode (q_StorageNodeId req) ;;
      ret (Some vol)
  end.

Definition with_physical (v : VirtualVolume) (p : N) : VirtualVolume :=
  mkVirtualVolume (vv_Id v) (vv_CapByte v) (vv_UsageByte v) (vv_CreatedAt v)
    (vv_PhysicalVolumeIds v ++ [p]) (vv_ReadOnly v) (vv_MigrateLocked v).
Definition with_virtual (p : PhysicalVolume) (v : N) : PhysicalVolume :=
  mkPhysicalVolume (pv_Id p) (pv_CapByte p) (pv_UsageByte p) (pv_CreatedAt p) v (pv_StorageNodeId p)
    (pv_Lock p) (pv_Prefix p) (pv_Threhold p) (pv_Type p).

Definition virtual_lossy (v : VirtualVolume) : lossy := Lossy (Virtual_Serialize v) (Virtual_FormatKey v).

Definition ErrBound (p v : N) : error :=
  Wrapped (ErrOther ("physical volume " +:+ itoa p +:+ " is already bound to virtual volume " +:+ itoa v)).
Definition ErrUnbound (p v : N) : error :=
  Wrapped (ErrOther ("physical volume " +:+ itoa p +:+ " is not bound to virtual volume " +:+ itoa v)).

Definition BindPhysicalVolume (v p : N) : M S error unit :=
  vVol <- joined (GetVirtualVolume v) ;;
  if bool_decide (p ∈ vv_PhysicalVolumeIds vVol) then throw (ErrBound p v) else
  pVol <- joined (GetPhysicalVolume p) ;;
  if negb (pv_VirtualVolumeId pVol =? 0)%N then throw (ErrBound p (pv_VirtualVolumeId pVol)) else
  joined (DoBatchSaveAnyStrictly [virtual_lossy (with_physical vVol p); to_lossy (with_virtual pVol v)]).

(** The filtered list is dropped: the virtual volume keeps its physical volumes. *)
Definition UnbindPhysicalVolume (v p : N) : M S error unit :=
  vVol <- joined (GetVirtualVolume v) ;;
  if negb (bool_decide (p ∈ vv_PhysicalVolumeIds vVol)) then throw (ErrUnbound p v) else
  pVol <- joined (GetPhysicalVolume p) ;;
  if negb (pv_VirtualVolumeId pVol =? v)%N then throw (ErrUnbound p v) else
  joined (DoBatchSaveAnyStrictly [virtual_lossy vVol; to_lossy (with_virtual pVol 0)]).
End manager.

(** * The service *)

Section service.
Context {S : Type} `{Store S} `{NodeCodec} `{VolumeCodec}.
Context (range : gmap string PhysicalVolume -> list (string * PhysicalVolume)).
Context (range_blocks : gmap string BlockMeta -> list (string * BlockMeta)).

Definition LoadConfiguration : M S error (list VirtualVolume * list PhysicalVolume) :=
  vvols <- ListVirtualVolumes ;;
  pvols <- ListPhysicalVolumes range ;;
  ret (vvols, pvols).

(** [r.Cap += p.CapByte] and [r.Usage += p.UsageByte] on uint64. *)
Definition Statistics : M S error (N * N) :=
  pvols <- ListPhysicalVolumes range ;;
  ret (foldl (fun r p => (wrap64 (r.1 + pv_CapByte p), wrap64 (r.2 + pv_UsageByte p))) (0, 0)%N pvols).

(** The three calls on transactions do nothing; the first returns no response. *)
Definition BeginTransaction : M S error (option unit) := ret None.
Definition CommitTransaction : M S error (option unit) := ret (Some tt).
Definition RollbackTransaction : M S error (option unit) := ret (Some tt).

Definition sm_GetPhysicalVolume (id : N) : M S error PhysicalVolume := GetPhysicalVolume id.
Definition sm_GetVirtualVolume (id : N) : M S error VirtualVolume := GetVirtualVolume id.
Definition sm_ListPhysicalVolumes (node : N) : M S error (list PhysicalVolume) :=
  ListPhysicalVolumesInNode range node.
Definition sm_ListVirtualVolume : M S error (list VirtualVolume) := ListVirtualVolumes.

Definition sm_GetInoBlockMap (ino : N) : M S error (N * gmap N BlockMeta) :=
  bm <- GetInoBlockMap range_blocks ino ;;
  ret (VirtualVolumeID bm, Blocks bm).
Definition sm_GetHistoryBlockMap (ino : N) : M S error (N * gmap N BlockMeta) :=
  bm <- GetHistoryBlockMap range_blocks ino ;;
  ret (VirtualVolumeID bm, Blocks bm).
Definition sm_GetInoBlockMeta (ino index : N) : M S error BlockMeta := GetInoBlockMeta ino index.

Definition stamped (b : BlockMeta) (t : N) : BlockMeta :=
  mkBlockMeta (Ino b) (VirtualVolumeId b) (BlockIndexInFile b) (PrimaryVolumeId b) (SecondaryVolumeIds b)
    (TxnId b) (Len b) (Crc32 b) t (CloudAddr b) (BlockId b).

(** The record of the block before the call is archived, whatever error reading
    it may give is dropped. *)
Definition UpdateBlockLocation (now : N) (meta : BlockMeta) : M S error unit :=
  let out := stamped meta now in
  oldMeta <-? GetInoBlockMeta (Ino out) (BlockIndexInFile out) ;;
  (match oldMeta with
   | inl old => ArchiveBlockMeta (Z.of_N now) old
   | inr _ => ret tt
   end) ;;;
  UpdateInoBlockMap out.

Definition BatchUpdateBlockLocation (metas : list BlockMeta) : M S error unit := BatchUpdateInoBlockMap metas.

Definition sm_CreatePhysicalVolume (id now : N) (req : VolumeRequest) : M S error PhysicalVolume :=
  CreatePhysicalVolume id now req.
Definition sm_PatchPhysicalVolume (now : N) (req : VolumeRequest) : M S error (option PhysicalVolume) :=
  PatchPhysicalVolume range now req.
Definition sm_CreateVirtualVolume (id now cap : N) : M S error VirtualVolume :=
  CreateVirtualVolume id now cap.
Definition CreateReadOnlyVirtualVolume : M S error VirtualVolume := go_panic.
Definition BindPhysicalVolToVirtualVol (v p : N) : M S error unit := BindPhysicalVolume v p.
Definition UnBindPhysicalVolToVirtualVol (v p : N) : M S error unit := UnbindPhysicalVolume v p.

(** A beat reports the usage of the volumes of a node. *)
Definition ProcessBeatRequest (node : N) (usage : list N) : M S error unit :=
  PatchStorageNode node usage ;;; ret tt.

(** The requests of a stream, received until it ends; errors are logged. *)
Fixpoint HeartBeat (reqs : list (N * list N)) : M S error unit :=
  match reqs with
  | [] => ret tt
  | (node, usage) :: rest => _ <-? ProcessBeatRequest node usage ;; HeartBeat rest
  end.

Definition sm_GetCandidateStorage : M S error (StorageNode * StorageNode) :=
  throw (ErrOther "method GetCandidateStorage not implemented").

Definition sm_PatchStorageNode (node : N) (usage : list N) : M S error (option unit) :=
  ProcessBeatRequest node usage ;;; ret None.
End service.

(** * The volumes a store stands for *)

Definition volume_key (id : N) : string := ("physical_volume/" +:+ itoa id)%string.

Section volumes.
Context `{NodeCodec} `{VolumeCodec}.

Definition volume_blob (p : PhysicalVolume) : blob := BBytes (marshalPhysical p).

#[export] Program Instance Physical_Lawful : Lawful PhysicalVolume := {
  blob_of := volume_blob;
  bucket := fun _ => "physical_volume"%string;
  key_name := fun p => itoa (pv_Id p);
  valid_key := fun _ => True;
}.
Next Obligation. done. Qed.
Next Obligation. intros x. apply unmarshal_physical. Qed.
Next Obligation. done. Qed.
Next Obligation. done. Qed.
Next Obligation. done. Qed.
Next Obligation. done. Qed.
Next Obligation. intros x _. split; [apply itoa_ne | apply itoa_no_slash]. Qed.

Record holds_volumes (m : gmap string blob) (pm : gmap N PhysicalVolume) : Prop := {
  hv_lookup id : m !! volume_key id = volume_blob <$> pm !! id;
  hv_id id p : pm !! id = Some p -> pv_Id p = id;
  hv_keys k b : m !! k = Some b -> has_prefix "physical_volume/" k = true -> exists id, k = volume_key id;
}.

Lemma volume_key_inj i j : volume_key i = volume_key j -> i = j.
Proof. intros E%str_app_inj_l. by apply itoa_inj. Qed.

Lemma hv_put m pm p :
  holds_volumes m pm ->
  holds_volumes (map_upd (FormatKey p, Some (blob_of p)) m) (<[pv_Id p := p]> pm).
Proof.
  intros [Hl Hi Hk]. change (FormatKey p) with (volume_key (pv_Id p)). split.
  - intros id. rewrite lookup_map_upd, lookup_insert. cbn [fst snd]. case_decide as E.
    + apply volume_key_inj in E as <-. by rewrite decide_True.
    + rewrite decide_False by congruence. apply Hl.
  - intros id p' [[<- <-]|[_ Hp]]%lookup_insert_Some; [done | by apply Hi].
  - intros k v. rewrite lookup_map_upd. cbn [fst snd]. case_decide as E; [|by apply Hk].
    intros _ _. subst k. eauto.
Qed.

(** Keys of other kinds do not matter. *)
Lemma hv_other m pm k v :
  has_prefix "physical_volume/" k = false -> holds_volumes m pm -> holds_volumes (map_upd (k, v) m) pm.
Proof.
  intros Hk [Hl Hi Hks]. split; [| done |].
  - intros id. rewrite lookup_map_upd. cbn [fst snd]. rewrite decide_False; [apply Hl|].
    intros ->. unfold volume_key in Hk. by rewrite has_prefix_app in Hk.
  - intros k' v'. rewrite lookup_map_upd. cbn [fst snd]. case_decide as E; [|by apply Hks].
    intros _ Hp. subst. congruence.
Qed.

Lemma hn_other m nm am k v :
  has_prefix "storage_node/" k = false -> has_prefix "storage_node_addr/" k = false ->
  holds_nodes m nm am -> holds_nodes (map_upd (k, v) m) nm am.
Proof.
  intros Hk Hk' [Hl Hi Hks Ha]. split; [| done | |].
  - intros id. rewrite lookup_map_upd. cbn [fst snd]. rewrite decide_False; [apply Hl|].
    intros ->. unfold node_key in Hk. by rewrite has_prefix_app in Hk.
  - intros k1 v1. rewrite lookup_map_upd. cbn [fst snd]. case_decide as E; [|by apply Hks].
    intros _ Hp. subst. congruence.
  - intros a. rewrite lookup_map_upd. cbn [fst snd]. rewrite decide_False; [apply Ha|].
    intros ->. unfold addr_key in Hk'. by rewrite has_prefix_app in Hk'.
Qed.

Lemma hv_typed m pm : holds_volumes m pm -> typed_bucket (T := PhysicalVolume) m "physical_volume/".
Proof.
  intros [Hl Hi Hk] k b Hb Hp. destruct (Hk _ _ Hb Hp) as [id ->]. rewrite Hl in Hb.
  apply fmap_Some in Hb as (x & Hx & ->). exists x. split; [done|]. by apply Hi in Hx as <-.
Qed.

(** ** Runs over the reference store *)

Context (range : gmap string PhysicalVolume -> list (string * PhysicalVolume)).
Context (range_perm : forall m, range m ≡ₚ map_to_list m).

(** The volumes of a bucket, each once. *)
Lemma volumes_mem (s : mem_store) pm :
  holds_volumes (view s) pm ->
  exists mm : gmap string PhysicalVolume, DoGetValuesByPrefix (Some (physical_query 0)) s = (Ok mm, s) /\
    (snd <$> range mm) ≡ₚ (map_to_list pm).*2.
Proof.
  intros Hv. destruct (DoGetValuesByPrefix_mem (physical_query 0) s (hv_typed _ _ Hv)) as (mm & Hrun & Hmm).
  change (FormatPrefix (physical_query 0)) with "physical_volume/"%string in Hmm.
  exists mm. split; [done|]. rewrite range_perm.
  assert (Hmap : mm = kmap volume_key pm).
  { apply map_eq. intros k. apply option_eq. intros p. rewrite Hmm.
    rewrite lookup_kmap_Some by (intros ??; apply volume_key_inj). destruct Hv as [Hl Hi Hk]. split.
    - intros [Hb Hp]. destruct (Hk _ _ Hb Hp) as [id ->]. exists id. split; [done|].
      rewrite Hl in Hb. apply fmap_Some in Hb as (p' & Hp' & E). change (volume_blob p') with (blob_of p') in E.
      by apply blob_of_inj in E as ->.
    - intros (id & -> & Hp). split; [by rewrite Hl, Hp | apply has_prefix_app]. }
  rewrite Hmap, map_to_list_kmap by (intros ??; apply volume_key_inj).
  rewrite <- list_fmap_compose. by rewrite (list_fmap_ext _ snd) by done.
Qed.

Lemma ListPhysicalVolumes_mem (s : mem_store) pm :
  holds_volumes (view s) pm ->
  exists l, ListPhysicalVolumes range s = (Ok l, s) /\ l ≡ₚ (map_to_list pm).*2.
Proof.
  intros Hv. destruct (volumes_mem s pm Hv) as (mm & Hrun & Hp).
  exists (snd <$> range mm). unfold ListPhysicalVolumes, catch. by rewrite Hrun.
Qed.

Lemma GetStorageNode_id_mem (s : mem_store) nm am id :
  holds_nodes (view s) nm am ->
  GetStorageNode id "" s = (match nm !! id with Some n => Ok n | None => Err ErrNotFound end, s).
Proof. intros Hn. rewrite (GetStorageNode_mem s nm am) by auto. done. Qed.

Lemma ListPhysicalVolumesInNode_mem (s : mem_store) nm am pm id :
  holds_nodes (view s) nm am -> holds_volumes (view s) pm ->
  exists l, ListPhysicalVolumesInNode range id s =
    (match nm !! id with Some _ => Ok l | None => Err (Wrapped ErrNotFound) end, s) /\
    l ≡ₚ filter (fun p => pv_StorageNodeId p = id) (map_to_list pm).*2.
Proof.
  intros Hn Hv. destruct (volumes_mem s pm Hv) as (mm & Hrun & Hp).
  exists (filter (fun p => pv_StorageNodeId p = id) (snd <$> range mm)). split; [|by rewrite Hp].
  unfold ListPhysicalVolumesInNode, bind, joined, catch. rewrite (GetStorageNode_id_mem s nm am id Hn).
  destruct (nm !! id) as [n|] eqn:E; [|done]. cbn [ret]. rewrite Hrun. cbn [ret].
  by rewrite (hn_id _ _ _ Hn _ _ E).
Qed.

Lemma GetPhysicalVolume_mem (s : mem_store) pm id :
  holds_volumes (view s) pm ->
  GetPhysicalVolume id s = (match pm !! 0%N with Some p => Ok p | None => Err ErrNotFound end, s).
Proof.
  intros Hv. unfold GetPhysicalVolume. rewrite DoGetValueByKey_mem by done.
  change (FormatKey (physical_query id)) with (volume_key 0). rewrite (hv_lookup _ _ Hv).
  destruct (pm !! 0%N) as [p|]; [|done]. cbn [fmap option_fmap option_map].
  change (volume_blob p) with (blob_of p). by rewrite Deserialize_law.
Qed.

Lemma save_volume_mem d (vol : PhysicalVolume) (node : StorageNode) :
  save_volume vol node (MkBadgerStore (B := MemBadger) d None) =
  (Ok tt, MkBadgerStore (B := MemBadger)
    (map_upd (FormatKey (with_volume node vol), Some (blob_of (with_volume node vol)))
      (map_upd (FormatKey vol, Some (blob_of vol)) d)) None).
Proof.
  unfold save_volume. apply (commit_run _ d tt [(FormatKey vol, Some (blob_of vol));
    (FormatKey (with_volume node vol), Some (blob_of (with_volume node vol)))]).
  unfold DoBatchSaveAnyStrictly, bind. cbn [lossy_all to_lossy lossy_Serialize lossy_FormatKey lift ret Serialize
    Physical_Serializer Node_Serializer Physical_Serialize Node_Serialize].
  rewrite BatchSave_mem; [done|]. by repeat constructor.
Qed.

Lemma hv_hn_save m nm am pm (vol : PhysicalVolume) (node : StorageNode) :
  holds_nodes m nm am -> holds_volumes m pm ->
  let m' := map_upd (FormatKey (with_volume node vol), Some (blob_of (with_volume node vol)))
              (map_upd (FormatKey vol, Some (blob_of vol)) m) in
  holds_nodes m' (<[Id node := with_volume node vol]> nm) am /\ holds_volumes m' (<[pv_Id vol := vol]> pm).
Proof.
  intros Hn Hv m'. split.
  - apply (hn_put _ _ _ (with_volume node vol)). by apply hn_other.
  - apply hv_other; [done|]. by apply hv_put.
Qed.

(** What the request asks for. *)
Definition requested (id now : N) (req : VolumeRequest) : PhysicalVolume :=
  mkPhysicalVolume id (default default_quota (q_Quota req)) 0 now 0 (q_StorageNodeId req)
    false (q_Prefix req) (default default_threhold (q_Threhold req)) (q_Type req).

Lemma CreatePhysicalVolume_mem d nm am pm id now req :
  holds_nodes d nm am -> holds_volumes d pm ->
  let s := MkBadgerStore (B := MemBadger) d None in
  match nm !! q_StorageNodeId req with
  | None => CreatePhysicalVolume id now req s = (Err (Wrapped ErrNotFound), s)
  | Some node =>
      let vol := requested id now req in
      exists d', CreatePhysicalVolume id now req s = (Ok vol, MkBadgerStore (B := MemBadger) d' None) /\
        holds_nodes d' (<[Id node := with_volume node vol]> nm) am /\ holds_volumes d' (<[id := vol]> pm)
  end.
Proof.
  intros Hn Hv s. unfold CreatePhysicalVolume, bind, joined, catch.
  rewrite (GetStorageNode_id_mem s nm am _ Hn). destruct (nm !! q_StorageNodeId req) as [node|] eqn:E; [|done].
  cbn [ret]. unfold s. rewrite save_volume_mem. eexists. split; [done|].
  by apply (hv_hn_save d nm am pm (requested id now req) node).
Qed.

Lemma PatchPhysicalVolume_mem d nm am pm node now req q t :
  holds_nodes d nm am -> holds_volumes d pm -> nm !! q_StorageNodeId req = Some node ->
  pm !! 0%N = None -> q_Quota req = Some q -> q_Threhold req = Some t ->
  let vol := requested (q_Id req) now req in
  exists d', PatchPhysicalVolume range now req (MkBadgerStore (B := MemBadger) d None) =
      (Ok (Some vol), MkBadgerStore (B := MemBadger) d' None) /\
    holds_nodes d' (<[Id node := with_volume node vol]> nm) am /\ holds_volumes d' (<[q_Id req := vol]> pm).
Proof.
  intros Hn Hv Hnode Hz Hq Ht vol. set (s := MkBadgerStore (B := MemBadger) d None).
  destruct (hv_hn_save d nm am pm vol node Hn Hv) as [Hn' Hv'].
  set (d' := map_upd _ (map_upd _ d)) in Hn', Hv'. exists d'. split; [|done].
  unfold PatchPhysicalVolume, bind at 1. rewrite (GetStorageNode_id_mem s nm am _ Hn), Hnode.
  unfold catch at 1. destruct (ListPhysicalVolumesInNode_mem s nm am pm (q_StorageNodeId req) Hn Hv) as (l & Hl & _).
  rewrite Hl, Hnode. unfold catch at 1. rewrite (GetPhysicalVolume_mem s pm _ Hv), Hz.
  unfold bind. rewrite Hq, Ht. cbn [deref ret]. unfold s.
  replace (mkPhysicalVolume (q_Id req) q 0 now 0 (q_StorageNodeId req) false (q_Prefix req) t (q_Type req))
    with vol by (unfold vol, requested; by rewrite Hq, Ht).
  rewrite save_volume_mem. fold d'. unfold catch.
  destruct (ListPhysicalVolumesInNode_mem (MkBadgerStore (B := MemBadger) d' None) _ am _ (q_StorageNodeId req) Hn' Hv')
    as (l' & Hl' & _). rewrite Hl'. by repeat case_match.
Qed.
End volumes.

(** ** Archived records *)

Definition history_blob (h : BlockMetaHistory) : blob :=
  BJson (omitempty (meta_fields (h_BlockMeta h)) ++ cloud_field (h_BlockMeta h) ++
         [("Timestamp"%string, JNum (Timestamp h))]).

Lemma hb_other m bm k v :
  has_prefix "ino_block_map/" k = false -> holds_blocks m bm -> holds_blocks (map_upd (k, v) m) bm.
Proof.
  intros Hk [Hl Hi Hks]. split; [| done |].
  - intros ino i. rewrite lookup_map_upd. cbn [fst snd]. rewrite decide_False; [apply Hl|].
    intros ->. unfold block_key, block_prefix in Hk. rewrite !str_app_assoc, has_prefix_app in Hk. done.
  - intros ino k' v'. rewrite lookup_map_upd. cbn [fst snd]. case_decide as E; [|by apply Hks].
    intros _ [r Hp]%has_prefix_spec. subst. exfalso. unfold block_prefix in Hk.
    rewrite !str_app_assoc, has_prefix_app in Hk. done.
Qed.

Lemma Archive_mem now b (s : mem_store) :
  ArchiveBlockMeta now b s =
  (Ok tt, upd (FormatKey (mkHistory b now)) (Some (history_blob (mkHistory b now))) s).
Proof.
  unfold ArchiveBlockMeta, BlockMetaHistoryFromBlockMeta, DoSaveInKVPair. cbv zeta.
  rewrite !bool_decide_false; [unfold bind; cbn [Serialize History_Serializer History_Serialize lift ret];
    by rewrite Save_mem | | done].
  cbn [FormatKey FormatPrefix History_Serializer]. unfold History_FormatKey. cbn [Timestamp].
  intros E. apply (f_equal String.length) in E. rewrite str_length_app in E.
  assert (itoaZ now <> ""%string) as Hne by (unfold itoaZ; destruct (now <? 0)%Z; [done | apply itoa_ne]).
  destruct (itoaZ now); [done|]. cbn in E. lia.
Qed.

Lemma GetInoBlockMeta_mem (s : mem_store) bm ino i :
  holds_blocks (view s) bm ->
  GetInoBlockMeta ino i s = (match bm !! (ino, i) with Some b => Ok b | None => Err ErrNotFound end, s).
Proof.
  intros Hb. unfold GetInoBlockMeta. rewrite DoGetValueByKey_mem by apply meta_valid.
  change (FormatKey (query ino i)) with (block_key ino i). rewrite (hb_lookup _ _ Hb).
  destruct (bm !! (ino, i)) as [b|]; [|done]. cbn [fmap option_fmap option_map].
  change (meta_blob b) with (blob_of b). by rewrite Deserialize_law.
Qed.

(** What an update leaves: the new record, the archived one, and all keys of
    other kinds as they were. *)
Lemma UpdateBlockLocation_mem now meta (s : mem_store) bm :
  holds_blocks (view s) bm ->
  exists s', UpdateBlockLocation now meta s = (Ok tt, s') /\
    holds_blocks (view s') (<[(Ino meta, BlockIndexInFile meta) := stamped meta now]> bm) /\
    (forall k, has_prefix "ino_block_map" k = false -> view s' !! k = view s !! k) /\
    (forall old, bm !! (Ino meta, BlockIndexInFile meta) = Some old ->
      view s' !! FormatKey (mkHistory old (Z.of_N now)) = Some (history_blob (mkHistory old (Z.of_N now)))).
Proof.
  intros Hb. set (out := stamped meta now). unfold UpdateBlockLocation.
  cbv zeta. fold out. change (Ino meta) with (Ino out). change (BlockIndexInFile meta) with (BlockIndexInFile out).
  unfold catch at 1. rewrite (GetInoBlockMeta_mem s bm _ _ Hb). unfold bind, UpdateInoBlockMap.
  destruct (bm !! (Ino out, BlockIndexInFile out)) as [old|] eqn:E.
  - rewrite Archive_mem, DoSaveInKVPair_mem by apply meta_valid. eexists. split; [done|].
    rewrite !view_upd. split_and!.
    + apply hb_put. by apply hb_other.
    + intros k Hk. rewrite !lookup_map_upd. cbn [fst snd]. rewrite !decide_False; [done|..]; by intros <-.
    + intros ? [= <-]. rewrite !lookup_map_upd. cbn [fst snd]. rewrite decide_False by done. by rewrite decide_True.
  - cbn [ret]. rewrite DoSaveInKVPair_mem by apply meta_valid. eexists. split; [done|]. rewrite !view_upd. split_and!.
    + by apply hb_put.
    + intros k Hk. rewrite lookup_map_upd. cbn [fst snd]. rewrite decide_False; [done|]. by intros <-.
    + done.
Qed.

(** ** Sums *)

Definition sum_of (f : PhysicalVolume -> N) (l : list PhysicalVolume) : N := foldr (fun p a => f p + a)%N 0%N l.

Lemma sum_of_perm f l l' : l ≡ₚ l' -> sum_of f l = sum_of f l'.
Proof. unfold sum_of. induction 1; cbn [foldr]; lia. Qed.

Lemma wrap64_add a b : wrap64 (wrap64 a + b) = wrap64 (a + b).
Proof. unfold wrap64. by rewrite N.Div0.add_mod_idemp_l. Qed.

Lemma statistics_fold l : forall r,
  (r.1 < 2 ^ 64)%N -> (r.2 < 2 ^ 64)%N ->
  foldl (fun r p => (wrap64 (r.1 + pv_CapByte p), wrap64 (r.2 + pv_UsageByte p))) r l =
  (wrap64 (r.1 + sum_of pv_CapByte l), wrap64 (r.2 + sum_of pv_UsageByte l)).
Proof.
  induction l as [|p l IH]; intros [c u] Hc Hu; cbn [foldl sum_of foldr fst snd] in *.
  - rewrite !N.add_0_r. unfold wrap64. by rewrite !N.mod_small.
  - rewrite IH by (cbn; unfold wrap64; by apply N.mod_lt). cbn [fst snd]. by rewrite !wrap64_add, !N.add_assoc.
Qed.

(** * The manager and the service over any badger that behaves as documented *)

Section volume_meta.
Context {B : Badger} `{!BadgerSpec B} `{NodeCodec} `{VolumeCodec}.
Context (range : gmap string PhysicalVolume -> list (string * PhysicalVolume)).

Lemma sim_joined {A} (m : M (BadgerStore B) error A) m' :
  sim abs_store m m' -> sim abs_store (joined m) (joined m').
Proof. intros Hm. unfold joined. apply sim_catch; [done|]. intros [a|e]; auto with sim. Qed.

Lemma sim_save_volume vol node :
  sim abs_store (save_volume (S := BadgerStore B) vol node) (save_volume vol node).
Proof. unfold save_volume. solve_sim. Qed.

Lemma sim_CreatePhysicalVolume id now req :
  sim abs_store (CreatePhysicalVolume (S := BadgerStore B) id now req) (CreatePhysicalVolume id now req).
Proof.
  unfold CreatePhysicalVolume. apply sim_bind; [apply sim_joined, sim_GetStorageNode|]. intros node. cbv zeta.
  apply sim_bind; [apply sim_joined, sim_save_volume|]. intros _. auto with sim.
Qed.

Lemma sim_ListPhysicalVolumesInNode id :
  sim abs_store (ListPhysicalVolumesInNode (S := BadgerStore B) range id) (ListPhysicalVolumesInNode range id).
Proof.
  unfold ListPhysicalVolumesInNode. apply sim_bind; [apply sim_joined, sim_GetStorageNode|]. intros node.
  apply sim_bind; [apply sim_joined; auto with sim|]. intros m. auto with sim.
Qed.

Lemma sim_PatchPhysicalVolume now req :
  sim abs_store (PatchPhysicalVolume (S := BadgerStore B) range now req) (PatchPhysicalVolume range now req).
Proof.
  unfold PatchPhysicalVolume. apply sim_bind; [apply sim_GetStorageNode|]. intros node.
  apply sim_catch; [apply sim_ListPhysicalVolumesInNode|]. intros _.
  apply sim_catch; [unfold GetPhysicalVolume; auto with sim|]. intros [v|e]; [auto with sim|].
  apply sim_bind; [auto with sim|]. intros q. apply sim_bind; [auto with sim|]. intros t. cbv zeta.
  apply sim_bind; [apply sim_save_volume|]. intros _. apply sim_catch; [apply sim_ListPhysicalVolumesInNode|].
  intros _. auto with sim.
Qed.

Lemma sim_Statistics :
  sim abs_store (Statistics (S := BadgerStore B) range) (Statistics range).
Proof. unfold Statistics, ListPhysicalVolumes. solve_sim. Qed.

Lemma sim_UpdateBlockLocation now meta :
  sim abs_store (UpdateBlockLocation (S := BadgerStore B) now meta)
    (UpdateBlockLocation now meta).
Proof.
  unfold UpdateBlockLocation, GetInoBlockMeta, ArchiveBlockMeta, UpdateInoBlockMap. solve_sim.
Qed.

Lemma sim_vol_pure {A} (o : outcome error A) : sim (S := BadgerStore B) abs_store (pure o) (pure o).
Proof. done. Qed.

Lemma sim_DoGetVirtual v : sim abs_store (DoGetVirtual (S := BadgerStore B) v) (DoGetVirtual v).
Proof. unfold DoGetVirtual. pose proof @sim_vol_pure. solve_sim. Qed.

Lemma sim_LoadConfiguration :
  sim abs_store (LoadConfiguration (S := BadgerStore B) range) (LoadConfiguration range).
Proof.
  unfold LoadConfiguration, ListVirtualVolumes, DoGetVirtuals, ListPhysicalVolumes.
  pose proof @sim_vol_pure. solve_sim.
Qed.

(** The result of a call over the reference store, over any badger. *)
Lemma sim_result {A} (m : M (BadgerStore B) error A) m' s r :
  sim abs_store m m' -> (m' (abs_store s)).1 = r -> (m s).1 = r.
Proof. intros Hs. rewrite Hs. by destruct (m s). Qed.

(** The state after a call that leaves the reference store without a
    transaction. *)
Lemma sim_closed {A} (m : M (BadgerStore B) error A) m' d r d' :
  sim abs_store m m' ->
  m' (MkBadgerStore (B := MemBadger) (abs_DB d) None) = (r, MkBadgerStore (B := MemBadger) d' None) ->
  exists s', m (MkBadgerStore d None) = (r, s') /\ ctxTxn s' = None /\ sees s' = d'.
Proof.
  intros Hs Hm. destruct (sim_run m m' (MkBadgerStore d None) _ _ Hs Hm) as (s' & Hrun & Hs').
  exists s'. split_and!; [done | | unfold sees; by rewrite Hs']. destruct s' as [d1 [t|]]; [|done]. by injection Hs'.
Qed.

(** A physical volume created on a known node is stored with the requested
    quota, its node lists it and grows by its capacity, and the listing of the
    node shows it and nothing that is not on the node; on an unknown node the
    call fails and nothing changes. *)
Theorem CreatePhysicalVolume_lists (s : BadgerStore B) nm am pm id now req :
  (forall m, range m ≡ₚ map_to_list m) -> ctxTxn s = None ->
  holds_nodes (sees s) nm am -> holds_volumes (sees s) pm ->
  match nm !! q_StorageNodeId req with
  | None => exists s', CreatePhysicalVolume id now req s = (Err (Wrapped ErrNotFound), s') /\ sees s' = sees s
  | Some node =>
      let vol := requested id now req in
      exists s' l, CreatePhysicalVolume id now req s = (Ok vol, s') /\
        holds_nodes (sees s') (<[q_StorageNodeId req := with_volume node vol]> nm) am /\
        holds_volumes (sees s') (<[id := vol]> pm) /\
        (ListPhysicalVolumesInNode range (q_StorageNodeId req) s').1 = Ok l /\
        (forall p, p ∈ l <-> pv_StorageNodeId p = q_StorageNodeId req /\ <[id := vol]> pm !! pv_Id p = Some p)
  end.
Proof.
  intros Hrange Ht Hn Hv. destruct s as [d o]. cbn in Ht. subst o. unfold sees in Hn, Hv.
  pose proof (CreatePhysicalVolume_mem (abs_DB d) nm am pm id now req Hn Hv) as Hrun. cbv zeta in Hrun.
  destruct (nm !! q_StorageNodeId req) as [node|] eqn:E.
  - destruct Hrun as (d' & Hrun & Hn' & Hv'). cbv zeta. rewrite (hn_id _ _ _ Hn _ _ E) in Hn'.
    destruct (sim_closed _ _ d _ _ (sim_CreatePhysicalVolume id now req) Hrun) as (s' & Hrun' & _ & Hs').
    destruct (ListPhysicalVolumesInNode_mem range Hrange (abs_store s') _ _ _ (q_StorageNodeId req)
      ltac:(unfold sees in Hs'; rewrite Hs'; exact Hn') ltac:(unfold sees in Hs'; rewrite Hs'; exact Hv')) as (l & Hl & Hp).
    rewrite lookup_insert_eq in Hl. exists s', l. rewrite Hs'. split_and!; [done..| |].
    + apply (sim_result _ _ _ _ (sim_ListPhysicalVolumesInNode _)). by rewrite Hl.
    + intros p. rewrite Hp, list_elem_of_filter. split; intros [Hnode Hin]; (split; [done|]).
      * apply list_elem_of_fmap in Hin as ([i p'] & -> & Hin%elem_of_map_to_list). cbn [snd].
        by rewrite (hv_id _ _ Hv' _ _ Hin).
      * apply list_elem_of_fmap. exists (pv_Id p, p). split; [done|]. by apply elem_of_map_to_list.
  - destruct (sim_closed _ _ d _ _ (sim_CreatePhysicalVolume id now req) Hrun) as (s' & Hrun' & _ & Hs').
    exists s'. by rewrite Hs'.
Qed.

(** Patching a volume that is already there counts it again: the lookup by id
    never finds it, so that after the same request twice the node lists the
    volume twice and its capacity has grown twice. *)
Theorem PatchPhysicalVolume_counts_twice (s : BadgerStore B) nm am pm node now now' req q t :
  (forall m, range m ≡ₚ map_to_list m) -> ctxTxn s = None ->
  holds_nodes (sees s) nm am -> holds_volumes (sees s) pm -> pm !! 0%N = None -> q_Id req <> 0%N ->
  nm !! q_StorageNodeId req = Some node -> q_Quota req = Some q -> q_Threhold req = Some t ->
  exists s1 s2 v1 v2 node2,
    PatchPhysicalVolume range now req s = (Ok (Some v1), s1) /\
    PatchPhysicalVolume range now' req s1 = (Ok (Some v2), s2) /\
    (GetStorageNode (q_StorageNodeId req) "" s2).1 = Ok node2 /\
    PhysicalVolumeIds node2 = PhysicalVolumeIds node ++ [q_Id req; q_Id req] /\
    Cap node2 = wrap64 (wrap64 (Cap node + q) + q).
Proof.
  intros Hrange Ht Hn Hv Hz Hid Hnode Hq Hth. destruct s as [d o]. cbn in Ht. subst o. unfold sees in Hn, Hv.
  assert (Hni : Id node = q_StorageNodeId req) by (by apply (hn_id _ _ _ Hn)).
  destruct (PatchPhysicalVolume_mem range Hrange (abs_DB d) nm am pm node now req q t) as (d1 & H1 & Hn1 & Hv1);
    [done..|].
  destruct (sim_closed _ _ d _ _ (sim_PatchPhysicalVolume now req) H1) as ([d1' o1] & R1 & Ht1 & S1).
  cbn in Ht1. subst o1. unfold sees in S1. cbn in S1. rewrite Hni in Hn1. rewrite <- S1 in Hn1, Hv1.
  set (vol := requested (q_Id req) now req) in *. set (vol' := requested (q_Id req) now' req).
  destruct (PatchPhysicalVolume_mem range Hrange (abs_DB d1') _ am _ (with_volume node vol) now' req q t Hn1 Hv1)
    as (d2 & H2 & Hn2 & _); [by rewrite lookup_insert_eq | by rewrite lookup_insert_ne | done..|].
  destruct (sim_closed _ _ d1' _ _ (sim_PatchPhysicalVolume now' req) H2) as (s2 & R2 & _ & S2).
  fold vol' in Hn2. change (Id (with_volume node vol)) with (Id node) in Hn2. rewrite Hni in Hn2.
  exists (MkBadgerStore d1' None), s2, vol, vol', (with_volume (with_volume node vol) vol').
  split_and!; [done..| | |].
  - apply (sim_result _ _ _ _ (sim_GetStorageNode _ _)).
    rewrite (GetStorageNode_id_mem _ _ am _ ltac:(unfold sees in S2; rewrite S2; exact Hn2)).
    by rewrite lookup_insert_eq.
  - cbn. by rewrite <- app_assoc.
  - cbn [with_volume Cap pv_CapByte vol vol' requested]. by rewrite Hq.
Qed.

Lemma trim_virtual id : trim_key (Virtual_FormatPrefix +:+ itoa id)%string = (Virtual_FormatPrefix +:+ itoa id)%string.
Proof.
  unfold trim_key. rewrite bool_decide_false by done.
  apply trim_suffix_char_app; [apply itoa_ne | apply itoa_no_slash].
Qed.

(** A stored virtual volume cannot be read: looking it up panics, and so does
    loading the configuration of the cluster, from any store on which it was
    created. *)
Theorem virtual_volume_unreadable (s : BadgerStore B) id now cap :
  exists s', CreateVirtualVolume id now cap s = (Ok (mkVirtualVolume id cap 0 now [] false false), s') /\
    (GetVirtualVolume id s').1 = Panic /\ (LoadConfiguration range s').1 = Panic.
Proof.
  set (v := mkVirtualVolume id cap 0 now [] false false).
  assert (Hkne : (Virtual_FormatPrefix +:+ itoa id)%string <> Virtual_FormatPrefix).
  { intros E. apply (f_equal String.length) in E. rewrite str_length_app in E.
    destruct (itoa_cons id) as (c & r & Hi). rewrite Hi in E. cbn in E. lia. }
  destruct (Save_any (Virtual_FormatKey v) (BBytes (marshalVirtual v)) s) as (s' & Hs & Hsees); [done|].
  exists s'. split_and!.
  - unfold CreateVirtualVolume, DoSaveVirtual. fold v. cbv zeta. rewrite !bool_decide_false by done.
    unfold bind. cbn [lift ret Virtual_Serialize]. by rewrite Hs.
  - unfold GetVirtualVolume. apply (sim_result _ _ _ _ (sim_DoGetVirtual _)). unfold DoGetVirtual. cbv zeta.
    change (Virtual_FormatKey (virtual_query id)) with (Virtual_FormatKey v).
    rewrite !bool_decide_false by done. unfold bind. rewrite Get_mem.
    + unfold Virtual_FormatKey. cbn [vv_Id v]. rewrite trim_virtual. unfold sees in Hsees.
      rewrite Hsees, lookup_map_upd. cbn [fst snd]. by rewrite decide_True.
    + unfold Virtual_FormatKey. by rewrite trim_virtual.
  - apply (sim_result _ _ _ _ sim_LoadConfiguration). unfold LoadConfiguration, bind at 1.
    unfold ListVirtualVolumes, catch, DoGetVirtuals, bind at 1. rewrite GetByBucket_mem by done.
    set (f := filter _ _). assert (Hin : f !! Virtual_FormatKey v = Some (BBytes (marshalVirtual v))).
    { apply map_lookup_filter_Some. unfold sees in Hsees. rewrite Hsees, lookup_map_upd. cbn [fst snd].
      rewrite decide_True by done. split; [done|]. apply has_prefix_app. }
    destruct (map_to_list f) as [|[k b] l] eqn:El; [|done].
    apply map_to_list_empty_iff in El. rewrite El in Hin. by rewrite lookup_empty in Hin.
Qed.

(** The statistics are the sums over all physical volumes, when these fit in
    64 bits. *)
Theorem Statistics_sums (s : BadgerStore B) pm :
  (forall m, range m ≡ₚ map_to_list m) -> holds_volumes (sees s) pm ->
  (sum_of pv_CapByte (map_to_list pm).*2 < 2 ^ 64)%N -> (sum_of pv_UsageByte (map_to_list pm).*2 < 2 ^ 64)%N ->
  (Statistics range s).1 =
    Ok (sum_of pv_CapByte (map_to_list pm).*2, sum_of pv_UsageByte (map_to_list pm).*2).
Proof.
  intros Hrange Hv Hc Hu. apply (sim_result _ _ _ _ sim_Statistics). unfold Statistics, bind.
  destruct (ListPhysicalVolumes_mem range Hrange (abs_store s) pm Hv) as (l & -> & Hp). cbn [ret fst].
  rewrite statistics_fold by done. cbn [fst snd]. rewrite !N.add_0_l, !(sum_of_perm _ _ _ Hp). unfold wrap64. by rewrite !N.mod_small.
Qed.

(** Updating the location of a block stores the record under its file and index
    with the time of the call, keeps the record it replaces in the history, and
    leaves the rest of the metadata alone. *)
Theorem UpdateBlockLocation_records (s : BadgerStore B) bm now meta :
  holds_blocks (sees s) bm ->
  exists s', UpdateBlockLocation now meta s = (Ok tt, s') /\
    holds_blocks (sees s') (<[(Ino meta, BlockIndexInFile meta) := stamped meta now]> bm) /\
    (forall k, has_prefix "ino_block_map" k = false -> sees s' !! k = sees s !! k) /\
    (forall old, bm !! (Ino meta, BlockIndexInFile meta) = Some old ->
      sees s' !! FormatKey (mkHistory old (Z.of_N now)) = Some (history_blob (mkHistory old (Z.of_N now)))).
Proof.
  intros Hb. unfold sees in *.
  destruct (UpdateBlockLocation_mem now meta (abs_store s) bm Hb) as (s1 & Hrun & H1).
  destruct (sim_run _ _ s _ _ (sim_UpdateBlockLocation now meta) Hrun) as (s' & Hrun' & <-). by exists s'.
Qed.
End volume_meta.

(** * A codec and witnesses *)

Definition bool_code (b : bool) : N := if b then 1 else 0.

Definition float_codes (f : spec_float) : list N :=
  match f with
  | S754_zero s => [0; bool_code s; 0; 0; 0]
  | S754_infinity s => [1; bool_code s; 0; 0; 0]
  | S754_nan => [2; 0; 0; 0; 0]
  | S754_finite s m e => [3; bool_code s; N.pos m; bool_code (e <? 0)%Z; Z.abs_N e]
  end%N.
Definition codes_float (t s m es e : N) : spec_float :=
  match t, m with
  | 0, _ => S754_zero (s =? 1)
  | 1, _ => S754_infinity (s =? 1)
  | 3, N.pos p => S754_finite (s =? 1) p (if es =? 1 then (- Z.of_N e)%Z else Z.of_N e)
  | _, _ => S754_nan
  end%N.

Definition ref_marshalVirtual (v : VirtualVolume) : list N :=
  [vv_Id v; vv_CapByte v; vv_UsageByte v; vv_CreatedAt v; bool_code (vv_ReadOnly v);
   bool_code (vv_MigrateLocked v)] ++ vv_PhysicalVolumeIds v.
Definition ref_unmarshalVirtual (l : list N) : VirtualVolume + error :=
  match l with
  | i :: c :: u :: t :: r :: m :: ps => inl (mkVirtualVolume i c u t ps (r =? 1)%N (m =? 1)%N)
  | _ => inr ErrJson
  end.

Definition ref_marshalPhysical (p : PhysicalVolume) : list N :=
  [pv_Id p; pv_CapByte p; pv_UsageByte p; pv_CreatedAt p; pv_VirtualVolumeId p; pv_StorageNodeId p;
   bool_code (pv_Lock p); pv_Type p] ++ float_codes (pv_Threhold p) ++ str_codes (pv_Prefix p).
Definition ref_unmarshalPhysical (l : list N) : PhysicalVolume + error :=
  match l with
  | i :: c :: u :: t :: v :: n :: k :: ty :: f0 :: f1 :: f2 :: f3 :: f4 :: ps =>
      inl (mkPhysicalVolume i c u t v n (k =? 1)%N (codes_str ps) (codes_float f0 f1 f2 f3 f4) ty)
  | _ => inr ErrJson
  end.

Lemma bool_code_inv b : (bool_code b =? 1)%N = b.
Proof. by destruct b. Qed.

#[export] Instance RefVolumeCodec : VolumeCodec.
Proof.
  refine {| marshalVirtual := ref_marshalVirtual; unmarshalVirtual := ref_unmarshalVirtual;
            marshalPhysical := ref_marshalPhysical; unmarshalPhysical := ref_unmarshalPhysical |}.
  - intros v. unfold ref_marshalVirtual, ref_unmarshalVirtual. cbn [app]. rewrite !bool_code_inv. by destruct v.
  - intros p. unfold ref_marshalPhysical, ref_unmarshalPhysical.
    destruct p as [i c u t v n k pre f ty]. cbn [pv_Threhold pv_Prefix pv_Lock].
    destruct f as [s|s| |s m e]; cbn [float_codes app pv_Id pv_CapByte pv_UsageByte pv_CreatedAt pv_VirtualVolumeId
      pv_StorageNodeId pv_Type]; rewrite codes_str_codes; unfold codes_float; rewrite ?bool_code_inv; [done..|].
    do 3 f_equal. destruct (Z.ltb_spec e 0); lia.
Defined.

(** A node with id 1 and no volumes. *)
Definition one_node : mem_store :=
  MkBadgerStore (B := MemBadger) (map_upd (FormatKey node1, Some (blob_of node1)) ∅) None.
Definition req0 : VolumeRequest := mkVolumeRequest 9 1 0 "/data" (Some 100%N) (Some (S754_zero false)).

Lemma one_node_holds :
  holds_nodes (sees (B := MemBadger) (BadgerSpec0 := MemBadger_spec) one_node) {[1%N := node1]} ∅.
Proof. apply (hn_put _ _ _ node1). by split. Qed.
Lemma one_node_volumes :
  holds_volumes (sees (B := MemBadger) (BadgerSpec0 := MemBadger_spec) one_node) ∅.
Proof. apply (hv_other ∅ ∅ (FormatKey node1) (Some (blob_of node1))); [done|]. by split. Qed.

Lemma CreatePhysicalVolume_lists_witness :
  exists s' l, CreatePhysicalVolume 5 7 req0 one_node = (Ok (requested 5 7 req0), s') /\
    (ListPhysicalVolumesInNode map_to_list 1 s').1 = Ok l /\ requested 5 7 req0 ∈ l.
Proof.
  pose proof (CreatePhysicalVolume_lists (B := MemBadger) (BadgerSpec0 := MemBadger_spec) map_to_list one_node
    {[1%N := node1]} ∅ ∅ 5 7 req0) as H.
  destruct H as (s' & l & Hrun & _ & _ & Hl & Hin).
  - reflexivity.
  - reflexivity.
  - exact one_node_holds.
  - exact one_node_volumes.
  - exists s', l. split; [exact Hrun|]. split; [exact Hl|]. apply Hin. split; reflexivity.
Defined.

Lemma PatchPhysicalVolume_counts_twice_witness :
  exists s1 s2 v1 v2 node2,
    PatchPhysicalVolume map_to_list 7 req0 one_node = (Ok (Some v1), s1) /\
    PatchPhysicalVolume map_to_list 8 req0 s1 = (Ok (Some v2), s2) /\
    (GetStorageNode 1 "" s2).1 = Ok node2 /\ Cap node2 = 210%N.
Proof.
  destruct (PatchPhysicalVolume_counts_twice (B := MemBadger) (BadgerSpec0 := MemBadger_spec) map_to_list one_node
    {[1%N := node1]} ∅ ∅ node1 7 8 req0 100 (S754_zero false)) as (s1 & s2 & v1 & v2 & node2 & H1 & H2 & Hg & _ & Hc).
  - reflexivity.
  - reflexivity.
  - exact one_node_holds.
  - exact one_node_volumes.
  - reflexivity.
  - intros H. discriminate H.
  - reflexivity.
  - reflexivity.
  - reflexivity.
  - exists s1, s2, v1, v2, node2. split; [exact H1|]. split; [exact H2|]. split; [exact Hg|].
    rewrite Hc. reflexivity.
Defined.

Lemma Statistics_sums_witness :
  (Statistics map_to_list one_node).1 = Ok (0%N, 0%N).
Proof.
  pose proof (Statistics_sums (B := MemBadger) (BadgerSpec0 := MemBadger_spec) map_to_list one_node ∅) as H.
  rewrite map_to_list_empty in H. apply H.
  - reflexivity.
  - exact one_node_volumes.
  - reflexivity.
  - reflexivity.
Defined.

Lemma UpdateBlockLocation_records_witness :
  exists s', UpdateBlockLocation 3 block7 empty_store = (Ok tt, s') /\
    holds_blocks (sees (B := MemBadger) (BadgerSpec0 := MemBadger_spec) s')
      {[(7, 0)%N := stamped block7 3]}.
Proof.
  destruct (UpdateBlockLocation_records (B := MemBadger) (BadgerSpec0 := MemBadger_spec) empty_store ∅ 3 block7)
    as (s' & Hrun & Hb & _).
  - exact empty_holds.
  - exists s'. split; [exact Hrun | exact Hb].
Defined.
