(* ===== verification/Slot.v ===== *)
(** The slots of a physical volume, src/pkg/storage/volume/slot.go: which block
    slots are taken and by the block of which hash.  A slot table keeps a bitmap
    and a map of hashes in memory and mirrors both in the metadata store; the
    roaring bitmap is a finite set, its binary format is a parameter. *)
From Stdlib Require Import Ascii.
From stdpp Require Import prelude gmap strings list fin_maps sorting.
From S2P Require Import Prelude Store Badger StoreProps Attr MetaStore.
Open Scope N_scope.

(** * Records *)

Definition ErrSlotOverflow : error := ErrOther "slot overflow".
Definition ErrSlotOccupied : error := ErrOther "slot occupied".
Definition ErrSlotEmpty : error := ErrOther "slot empty".

Record blockHash := newBlockHash { VolId : N; Slot_ : N; Hash : string }.

Definition newBlockHashQuery (volId slot : N) : blockHash := newBlockHash volId slot "".

Definition blockHash_FormatPrefix (s : blockHash) : string :=
  ("slot_hash_" +:+ itoa (VolId s) +:+ "/")%string.
Definition blockHash_FormatKey (s : blockHash) : string :=
  (blockHash_FormatPrefix s +:+ itoa (Slot_ s))%string.
Definition blockHash_Serialize (s : blockHash) : blob + error :=
  inl (BJson [("VolId", JN (VolId s)); ("Slot", JN (Slot_ s)); ("Hash", JStr (Hash s))]%string).
Definition blockHash_Deserialize (bytes : blob) : blockHash + error :=
  match bytes with
  | BJson j =>
      sbind (get_N "VolId" j) (fun v => sbind (get_N "Slot" j) (fun o =>
      sbind (get_S "Hash" j) (fun h => inl (newBlockHash v o h))))
  | _ => inr ErrJson
  end.

#[export] Instance blockHash_Serializer : Serializer blockHash := {
  FormatKey := blockHash_FormatKey;
  FormatPrefix := blockHash_FormatPrefix;
  Serialize := blockHash_Serialize;
  Deserialize := blockHash_Deserialize;
}.

(** The binary format of roaring64: [UnmarshalBinary] overwrites the bitmap it is
    called on, and reads back what [MarshalBinary] wrote. *)
Class BitmapCodec := {
  MarshalBinary : gset N -> list N + error;
  UnmarshalBinary : blob -> gset N -> gset N * option error;
  Unmarshal_Marshal bits : exists data, MarshalBinary bits = inl data /\
    forall old, UnmarshalBinary (BBytes data) old = (bits, None);
}.

(** The fields of [Slot]; the store is the object's. *)
Record Slot := mkSlot { bits : gset N; cap : N; volID : N; hashPairs : gmap string N }.

Definition with_bits (b : gset N) (s : Slot) : Slot := mkSlot b (cap s) (volID s) (hashPairs s).
Definition with_hashPairs (h : gmap string N) (s : Slot) : Slot := mkSlot (bits s) (cap s) (volID s) h.

(** * Operations *)

Section slot.
Context {S : Type} `{Store S} `{BitmapCodec}.
(** The order in which Go walks the two maps. *)
Context (range : gmap string N -> list (string * N)).
Context (range_hash : gmap string blockHash -> list (string * blockHash)).

Abbreviation SM A := (M (object Slot S) error A).

Definition Format (s : Slot) : string := ("slot_" +:+ itoa (volID s))%string.

Definition _persistState : SM unit :=
  s <- fields id ;;
  match MarshalBinary (bits s) with
  | inr e => throw e
  | inl data => on_store (Save (Format s) (BBytes data))
  end.
Definition PersistState : SM unit := _persistState.

(** The result of the first save is dropped. *)
Definition persistSlot (offset : N) (hash : string) : SM unit :=
  s <- fields id ;;
  _ <-? on_store (DoSaveInKVPair (Some (newBlockHash (volID s) offset hash))) ;;
  _persistState.

(** [offset+1] wraps around; [CheckedAdd] reports whether the bit was clear. *)
Definition Occupy (offset : N) (hash : string) : SM unit :=
  s <- fields id ;;
  if cap s <? wrap64 (offset + 1) then throw ErrSlotOverflow
  else if bool_decide (offset ∈ bits s) then throw ErrSlotOccupied
  else
    set_fields (with_bits ({[offset]} ∪ bits s)) ;;;
    set_fields (with_hashPairs (<[hash := offset]> (hashPairs s))) ;;;
    persistSlot offset hash.

(** [lo.FindKey]: the first key in map order with the value. *)
Definition FindKey (m : gmap string N) (v : N) : option string :=
  (fun x => x.2.1) <$> list_find (fun p => p.2 = v) (range m).

Definition Free (offset : N) : SM string :=
  s <- fields id ;;
  if cap s <? offset then throw ErrSlotOverflow
  else if bool_decide (offset ∉ bits s) then throw ErrSlotEmpty
  else
    set_fields (with_bits (bits s ∖ {[offset]})) ;;;
    match FindKey (hashPairs s) offset with
    | None => throw ErrSlotEmpty
    | Some hash =>
        on_store (DoDeleteByKey (Some (newBlockHashQuery (volID s) offset))) ;;; ret hash
    end.

Definition Occupied (offset : N) (s : Slot) : bool := bool_decide (offset ∈ bits s).

Definition GetHash (offset : N) : SM string :=
  s <- fields id ;;
  if negb (Occupied offset s) then throw ErrSlotEmpty
  else match FindKey (hashPairs s) offset with
       | None => throw ErrSlotEmpty
       | Some key => ret key
       end.

Definition GetSlot (hash : string) : SM N :=
  s <- fields id ;;
  match hashPairs s !! hash with None => throw ErrSlotEmpty | Some slot => ret slot end.

(** The bitmap's iterator, in ascending order. *)
Definition Iterator (b : gset N) : list N := merge_sort N.le (elements b).

Fixpoint skip_taken (idx : N) (it : list N) : N :=
  match it with
  | [] => idx
  | x :: it => if idx =? x then skip_taken (wrap64 (idx + 1)) it else idx
  end.

(** One round per unit of fuel; [None] when it has not returned by then. *)
Fixpoint Next_loop (fuel : nat) (s : Slot) (idx : N) : option N :=
  match fuel with
  | O => None
  | Datatypes.S fuel =>
      let idx := skip_taken idx (Iterator (bits s)) in
      if idx <? cap s then Some idx else Next_loop fuel s idx
  end.
Definition Next (fuel : nat) (s : Slot) : option N := Next_loop fuel s 0.

(** uint64 subtraction. *)
Definition Remains (s : Slot) : N := wrap64 (cap s + 2 ^ 64 - N.of_nat (size (bits s))).
Definition Size (s : Slot) : N := N.of_nat (size (bits s)).

Definition load : SM unit :=
  s <- fields id ;;
  data <- on_store (Get (Format s)) ;;
  let '(b, err) := UnmarshalBinary data (bits s) in
  set_fields (with_bits b) ;;;
  match err with
  | Some e => throw e
  | None =>
      set_fields (with_hashPairs ∅) ;;;
      blockHashMap <- on_store (DoGetValuesByPrefix (Some (newBlockHash (volID s) 0 ""))) ;;
      set_fields (with_hashPairs
        (foldl (fun m p => <[Hash p.2 := Slot_ p.2]> m) ∅ (range_hash blockHashMap)))
  end.

(** [NewSlot] ignores the outcome of [load]. *)
Definition NewSlot (vol c : N) (store : S) : object Slot S :=
  (load (Obj (mkSlot ∅ c vol ∅) store)).2.
End slot.

(** * The table a slot stands for *)

Definition slot_prefix (vol : N) : string := ("slot_hash_" +:+ itoa vol +:+ "/")%string.
Definition slot_key (vol o : N) : string := (slot_prefix vol +:+ itoa o)%string.
Definition bitmap_key (vol : N) : string := ("slot_" +:+ itoa vol)%string.
Definition hash_blob (s : blockHash) : blob :=
  BJson [("VolId", JN (VolId s)); ("Slot", JN (Slot_ s)); ("Hash", JStr (Hash s))]%string.

(** [t] maps the taken slots to the hashes of their blocks.  In memory: *)
Record mem_slots (s : Slot) (t : gmap N string) : Prop := {
  ms_bits : bits s = dom t;
  ms_cap : cap s < 2 ^ 64;
  ms_bound o h : t !! o = Some h -> o < cap s;
  ms_pairs h o : hashPairs s !! h = Some o <-> t !! o = Some h;
}.

(** In the store, where [b] is the bitmap; a volume that never wrote has none. *)
Record stored_slots `{BitmapCodec} (vol : N) (m : gmap string blob) (t : gmap N string) (b : gset N) : Prop := {
  ss_rec o : m !! slot_key vol o = (fun h => hash_blob (newBlockHash vol o h)) <$> t !! o;
  ss_keys k b : m !! k = Some b -> has_prefix (slot_prefix vol) k = true -> exists o, k = slot_key vol o;
  ss_bits : (t = ∅ /\ b = ∅ /\ m !! bitmap_key vol = None) \/
    exists data, MarshalBinary b = inl data /\ m !! bitmap_key vol = Some (BBytes data);
}.

(** The keys of a volume's table. *)
Definition slot_owned (vol : N) (k : string) : Prop :=
  k = bitmap_key vol \/ has_prefix (slot_prefix vol) k = true.

(** No two slots hold blocks of the same hash. *)
Definition hash_inj (t : gmap N string) : Prop :=
  forall o o' h, t !! o = Some h -> t !! o' = Some h -> o = o'.

(** ** Keys and codec *)

#[export] Program Instance blockHash_Lawful : Lawful blockHash := {
  blob_of := hash_blob;
  bucket := fun b => ("slot_hash_" +:+ itoa (VolId b))%string;
  key_name := fun b => itoa (Slot_ b);
  valid_key := fun _ => True;
}.
Next Obligation. done. Qed.
Next Obligation.
  intros [v o h]. cbn [Deserialize blockHash_Serializer blockHash_Deserialize hash_blob VolId Slot_ Hash].
  erewrite get_N_JN by reflexivity. cbn [sbind]. erewrite get_N_JN by reflexivity. done.
Qed.
Next Obligation. intros x. cbn [FormatPrefix blockHash_Serializer]. unfold blockHash_FormatPrefix.
  by rewrite str_app_assoc. Qed.
Next Obligation. done. Qed.
Next Obligation. done. Qed.
Next Obligation. done. Qed.
Next Obligation. intros x _. split; [apply itoa_ne | apply itoa_no_slash]. Qed.

Lemma hash_valid (b : blockHash) : valid_key b.
Proof. done. Qed.

Lemma slot_key_inj vol o o' : slot_key vol o = slot_key vol o' -> o = o'.
Proof. intros E%str_app_inj_l. by apply itoa_inj. Qed.

Lemma slot_bitmap_key_ne vol o vol' : slot_key vol o <> bitmap_key vol'.
Proof.
  intros E. apply (f_equal (has_char "/"%char)) in E. unfold slot_key, slot_prefix, bitmap_key in E.
  rewrite !has_char_app, !itoa_no_slash in E. done.
Qed.

Lemma bitmap_key_prefix vol vol' : has_prefix (slot_prefix vol) (bitmap_key vol') = false.
Proof.
  destruct (has_prefix _ _) eqn:E; [|done]. apply has_prefix_spec in E as [r E].
  apply (f_equal (has_char "/"%char)) in E. unfold slot_prefix, bitmap_key in E.
  rewrite !has_char_app, !itoa_no_slash in E. done.
Qed.

Lemma trim_bitmap_key vol : trim_key (bitmap_key vol) = bitmap_key vol.
Proof.
  unfold trim_key. rewrite bool_decide_false by done. unfold bitmap_key.
  apply trim_suffix_char_app; [apply itoa_ne | apply itoa_no_slash].
Qed.

Lemma slot_key_owned vol o : slot_owned vol (slot_key vol o).
Proof. right. apply has_prefix_app. Qed.

Lemma slot_owned_inj vol vol' k : slot_owned vol k -> slot_owned vol' k -> vol = vol'.
Proof.
  intros [->|H1] [E|H2].
  - apply str_app_inj_l in E. by apply itoa_inj.
  - by rewrite bitmap_key_prefix in H2.
  - subst k. by rewrite bitmap_key_prefix in H1.
  - apply has_prefix_spec in H1 as [r1 ->], H2 as [r2 E]. unfold slot_prefix in E.
    rewrite !str_app_assoc in E. apply str_app_inj_l in E.
    apply sep_inj in E as [E _]; [by apply itoa_inj | apply itoa_no_slash..].
Qed.

(** ** Changes of the stored table *)

Section stored.
Context `{BitmapCodec}.

Lemma ss_frame vol m m' t b :
  (forall k, slot_owned vol k -> m' !! k = m !! k) -> stored_slots vol m t b -> stored_slots vol m' t b.
Proof.
  intros Hf [Hr Hk Hb]. split.
  - intros o. rewrite Hf by apply slot_key_owned. apply Hr.
  - intros k v Hv Hp. rewrite Hf in Hv by (by right). by eapply Hk.
  - rewrite Hf by (by left). exact Hb.
Qed.

Lemma ss_put vol m t b b' o h data :
  stored_slots vol m t b -> MarshalBinary b' = inl data ->
  stored_slots vol
    (map_upd (bitmap_key vol, Some (BBytes data))
      (map_upd (slot_key vol o, Some (hash_blob (newBlockHash vol o h))) m)) (<[o := h]> t) b'.
Proof.
  intros [Hr Hk Hb] Hdata. split.
  - intros o'. rewrite !lookup_map_upd. cbn [fst snd]. rewrite decide_False.
    2:{ intros E. by apply (slot_bitmap_key_ne vol o' vol). }
    rewrite lookup_insert. case_decide as E.
    + apply slot_key_inj in E as <-. by rewrite decide_True.
    + rewrite decide_False by congruence. apply Hr.
  - intros k v. rewrite !lookup_map_upd. cbn [fst snd]. case_decide as E.
    + subst k. by rewrite bitmap_key_prefix.
    + case_decide as E'; [subst k; eauto | apply Hk].
  - right. exists data. split; [done|]. rewrite lookup_map_upd. cbn [fst snd]. by rewrite decide_True.
Qed.

(** Deleting a record leaves the bitmap as it was. *)
Lemma ss_del vol m t b o :
  stored_slots vol m t b -> stored_slots vol (map_upd (slot_key vol o, None) m) (delete o t) b.
Proof.
  intros [Hr Hk Hb]. split.
  - intros o'. rewrite lookup_map_upd, lookup_delete. cbn [fst snd]. case_decide as E.
    + apply slot_key_inj in E as <-. by rewrite decide_True.
    + rewrite decide_False by congruence. apply Hr.
  - intros k v. rewrite lookup_map_upd. cbn [fst snd]. case_decide; [done | apply Hk].
  - rewrite lookup_map_upd. cbn [fst snd]. rewrite decide_False by apply slot_bitmap_key_ne.
    destruct Hb as [(-> & -> & Hb)|Hb]; [left; by rewrite delete_empty | by right].
Qed.
End stored.

(** ** Runs over the reference store *)

Section runs.
Context `{BitmapCodec}.
Context (range : gmap string N -> list (string * N)).
Context (range_perm : forall m, range m ≡ₚ map_to_list m).

Lemma FindKey_spec s t o : mem_slots s t -> FindKey range (hashPairs s) o = t !! o.
Proof.
  intros Hm. unfold FindKey.
  assert (Hin : forall h o', (h, o') ∈ range (hashPairs s) <-> t !! o' = Some h).
  { intros h o'. by rewrite range_perm, elem_of_map_to_list, (ms_pairs _ _ Hm). }
  destruct (list_find _ _) as [[i [h o']]|] eqn:E; cbn [fmap option_fmap option_map fst snd].
  - apply list_find_Some in E as (Hi & <- & _). symmetry. apply Hin. by eapply list_elem_of_lookup_2.
  - rewrite list_find_None, Forall_forall in E. destruct (t !! o) as [h|] eqn:Ho; [|done].
    apply Hin in Ho. by apply E in Ho.
Qed.

(** What occupying does to the fields. *)
Definition occupied (o : N) (h : string) (s : Slot) : Slot :=
  mkSlot ({[o]} ∪ bits s) (cap s) (volID s) (<[h := o]> (hashPairs s)).

Lemma ms_put s t o h :
  mem_slots s t -> t !! o = None -> o < cap s -> (forall o', t !! o' <> Some h) ->
  mem_slots (occupied o h s) (<[o := h]> t).
Proof.
  intros [Hb Hc Hbd Hp] Ho Hlt Hh. split; cbn [occupied bits cap hashPairs].
  - by rewrite dom_insert_L, Hb.
  - done.
  - intros o' h'. rewrite lookup_insert. case_decide; [by subst | apply Hbd].
  - intros h' o'. rewrite !lookup_insert. case_decide as E; case_decide as E'; subst.
    + done.
    + split; [intros [= ->]; done|]. intros Ht. by apply Hh in Ht.
    + split; [|intros [= ->]; done]. intros Hx%Hp. congruence.
    + apply Hp.
Qed.

Lemma Occupy_mem s t b (st : mem_store) o h :
  mem_slots s t -> stored_slots (volID s) (view st) t b -> o + 1 < 2 ^ 64 ->
  if cap s <? o + 1 then Occupy o h (Obj s st) = (Err ErrSlotOverflow, Obj s st)
  else if decide (is_Some (t !! o)) then Occupy o h (Obj s st) = (Err ErrSlotOccupied, Obj s st)
  else exists st', Occupy o h (Obj s st) = (Ok tt, Obj (occupied o h s) st') /\
    stored_slots (volID s) (view st') (<[o := h]> t) ({[o]} ∪ bits s) /\
    forall k, ~ slot_owned (volID s) k -> view st' !! k = view st !! k.
Proof.
  intros Hm Hs Ho.
  assert (Hin : o ∈ bits s <-> is_Some (t !! o)) by by rewrite (ms_bits _ _ Hm), elem_of_dom.
  assert (Hw : wrap64 (o + 1) = o + 1) by (by apply N.mod_small).
  destruct (cap s <? o + 1) eqn:Hc; [|destruct (decide (is_Some (t !! o))) as [Hd|Hd]];
    unfold Occupy; setoid_rewrite bind_fields; cbn [id]; rewrite Hw, Hc; [done | by rewrite bool_decide_true by tauto |].
  rewrite bool_decide_false by tauto.
  destruct (Unmarshal_Marshal ({[o]} ∪ bits s)) as (data & Hdata & _).
  exists (upd (bitmap_key (volID s)) (Some (BBytes data))
    (upd (slot_key (volID s) o) (Some (hash_blob (newBlockHash (volID s) o h))) st)). split_and!.
  - rewrite !bind_set_fields. unfold persistSlot. rewrite bind_fields. cbn [id with_bits with_hashPairs volID].
    unfold catch. rewrite (on_store_run _ _ _ _ _ (DoSaveInKVPair_mem (newBlockHash (volID s) o h) st (hash_valid _))).
    unfold _persistState. rewrite bind_fields. cbn [id bits with_bits with_hashPairs]. rewrite Hdata.
    by rewrite (on_store_run _ _ _ _ _ (Save_mem (bitmap_key (volID s)) (BBytes data) _ ltac:(done))).
  - rewrite !view_upd. by apply (ss_put _ _ _ b).
  - intros k Hk. rewrite !view_upd, !lookup_map_upd. cbn [fst snd].
    rewrite !decide_False; [done | by intros <-; apply Hk, slot_key_owned | by intros <-; apply Hk; left].
Qed.

Lemma Free_mem s t (st : mem_store) o :
  mem_slots s t ->
  Free range o (Obj s st) =
  match t !! o with
  | None => (Err (if cap s <? o then ErrSlotOverflow else ErrSlotEmpty), Obj s st)
  | Some h => (Ok h, Obj (with_bits (bits s ∖ {[o]}) s) (upd (slot_key (volID s) o) None st))
  end.
Proof.
  intros Hm. unfold Free. rewrite bind_fields. cbn [id].
  assert (Hin : o ∈ bits s <-> is_Some (t !! o)) by by rewrite (ms_bits _ _ Hm), elem_of_dom.
  destruct (t !! o) as [h|] eqn:Ho.
  - rewrite (proj2 (N.ltb_ge _ _)) by (apply N.lt_le_incl; by eapply ms_bound).
    rewrite bool_decide_false by (intros Hn; by apply Hn, Hin).
    rewrite bind_set_fields, (FindKey_spec s t) by done. rewrite Ho.
    by rewrite (bind_on_store _ _ _ _ _ _ (DoDeleteByKey_mem (newBlockHashQuery (volID s) o) st (hash_valid _))).
  - destruct (cap s <? o); [done|]. rewrite bool_decide_true; [done|]. rewrite Hin. by intros [? ?].
Qed.
End runs.

(** The hashes a table maps back to their slots. *)
Definition inverse (t : gmap N string) (hp : gmap string N) : Prop :=
  forall h o, hp !! h = Some o <-> t !! o = Some h.

Lemma foldl_pairs (l : list (string * blockHash)) (m : gmap string N) :
  (forall x y, x ∈ l -> y ∈ l -> Hash x.2 = Hash y.2 -> Slot_ x.2 = Slot_ y.2) ->
  (forall h o x, m !! h = Some o -> x ∈ l -> Hash x.2 = h -> Slot_ x.2 = o) ->
  forall h o, foldl (fun m p => <[Hash p.2 := Slot_ p.2]> m) m l !! h = Some o <->
    m !! h = Some o \/ exists x, x ∈ l /\ Hash x.2 = h /\ Slot_ x.2 = o.
Proof.
  revert m. induction l as [|x l IH]; intros m Hl Hm h o.
  - cbn. split; [by left|]. intros [?|(x & Hx & _)]; [done | by apply elem_of_nil in Hx].
  - cbn [foldl]. rewrite IH.
    + rewrite lookup_insert. setoid_rewrite elem_of_cons. case_decide as E.
      * subst h. split; [intros [[= <-]|(y & Hy & H1 & H2)]; right; eauto 6|].
        intros [Hmo|(y & [->|Hy] & H1 & <-)]; [left|by left|right; eauto].
        f_equal. eapply Hm; [exact Hmo | set_solver | done].
      * split; [intros [?|(y & Hy & ?)]; [by left | right; eauto]|].
        intros [?|(y & [->|Hy] & H1 & H2)]; [by left | done | right; eauto].
    + intros y z Hy Hz. apply Hl; set_solver.
    + intros h' o' y. rewrite lookup_insert. case_decide as E.
      * intros [= <-] Hy E'. apply Hl; [set_solver..|congruence].
      * intros Hmo Hy. eapply Hm; [done | set_solver].
Qed.

Section load_run.
Context `{BitmapCodec}.
Context (range_hash : gmap string blockHash -> list (string * blockHash)).
Context (range_hash_perm : forall m, range_hash m ≡ₚ map_to_list m).

Lemma load_mem vol c (st : mem_store) t b :
  stored_slots vol (view st) t b -> hash_inj t ->
  exists r hp, load range_hash (Obj (mkSlot ∅ c vol ∅) st) = (r, Obj (mkSlot b c vol hp) st) /\ inverse t hp.
Proof.
  intros Hs Hinj. unfold load. rewrite bind_fields. cbn [id volID].
  pose proof (Get_mem (bitmap_key vol) st) as Hget. rewrite trim_bitmap_key in Hget. specialize (Hget ltac:(done)).
  change (Format (mkSlot ∅ c vol ∅)) with (bitmap_key vol).
  destruct (ss_bits _ _ _ _ Hs) as [(-> & -> & Hno)|(data & Hdata & Hb)].
  { exists (Err ErrNotFound), ∅. rewrite Hno in Hget. unfold bind. rewrite (on_store_run _ _ _ _ _ Hget). done. }
  rewrite Hb in Hget. rewrite (bind_on_store _ _ _ _ _ _ Hget).
  destruct (Unmarshal_Marshal b) as (data' & Hd & Hun). rewrite Hdata in Hd. injection Hd as <-.
  rewrite Hun, !bind_set_fields.
  destruct (DoGetValuesByPrefix_mem (newBlockHash vol 0 "") st) as (m & Hrun & Hm).
  { intros k v Hk Hp. destruct (ss_keys _ _ _ _ Hs _ _ Hk Hp) as [o ->]. rewrite (ss_rec _ _ _ _ Hs) in Hk.
    apply fmap_Some in Hk as (h & _ & ->). by exists (newBlockHash vol o h). }
  rewrite (bind_on_store _ _ _ _ _ _ Hrun).
  assert (Hin : forall x, x ∈ range_hash m <-> x.1 = slot_key vol (Slot_ x.2) /\ VolId x.2 = vol /\ t !! Slot_ x.2 = Some (Hash x.2)).
  { intros [k [v o h]]. rewrite range_hash_perm, elem_of_map_to_list, Hm. cbn [fst snd Slot_ Hash VolId]. split.
    - intros [Hv Hp]. destruct (ss_keys _ _ _ _ Hs _ _ Hv Hp) as [o' ->]. rewrite (ss_rec _ _ _ _ Hs) in Hv.
      apply fmap_Some in Hv as (h' & Ht & E). change (hash_blob ?x) with (blob_of x) in E.
      apply blob_of_inj in E. by injection E as -> -> ->.
    - intros (-> & -> & Ht). split; [|apply has_prefix_app]. by rewrite (ss_rec _ _ _ _ Hs), Ht. }
  eexists _, _. split; [reflexivity|]. intros h o. rewrite foldl_pairs.
  - rewrite lookup_empty. split; [intros [?|(x & (_ & _ & Hx)%Hin & <- & <-)]; done|].
    intros Ht. right. exists (slot_key vol o, newBlockHash vol o h). by rewrite Hin.
  - intros x y (_ & _ & Hx)%Hin (_ & _ & Hy)%Hin E. rewrite E in Hx. by eapply Hinj.
  - intros h' o' x Hx. by rewrite lookup_empty in Hx.
Qed.
End load_run.

(** ** The search for a free slot *)

Lemma Iterator_spec b : StronglySorted N.lt (Iterator b) /\ forall x, x ∈ Iterator b <-> x ∈ b.
Proof.
  unfold Iterator. pose proof (merge_sort_Permutation N.le (elements b)) as Hp.
  assert (Hnd : NoDup (merge_sort N.le (elements b))) by (rewrite Hp; apply NoDup_elements).
  split; [|intros x; by rewrite Hp, elem_of_elements].
  pose proof (StronglySorted_merge_sort N.le (elements b)) as Hs. revert Hs Hnd.
  generalize (merge_sort N.le (elements b)). induction 1 as [|x l Hs IH Hx]; [constructor|].
  intros [Hn Hnd]%NoDup_cons. constructor; [by apply IH|]. rewrite Forall_forall in Hx |- *.
  intros y Hy. specialize (Hx y Hy). assert (x <> y) by set_solver. lia.
Qed.

Lemma skip_taken_spec c l idx :
  StronglySorted N.lt l -> Forall (fun x => idx <= x < c) l -> idx <= c -> c < 2 ^ 64 ->
  let r := skip_taken idx l in
  idx <= r <= c /\ r ∉ l /\ (forall j, idx <= j < r -> j ∈ l).
Proof.
  intros Hs. revert idx. induction Hs as [|x l Hs IH Hx]; intros idx Hl Hc Hm; cbn [skip_taken].
  - split_and!; [done | done | set_solver | lia].
  - apply Forall_cons in Hl as [Hix Hl]. destruct (N.eqb_spec idx x) as [<-|Hne].
    + unfold wrap64. rewrite N.mod_small by lia.
      destruct (IH (idx + 1)) as (Hr & Hn & Hj); [|lia|done|].
      { rewrite Forall_forall in Hx, Hl |- *. intros y Hy. specialize (Hx y Hy). specialize (Hl y Hy). lia. }
      split_and!; [lia | lia | |].
      * apply not_elem_of_cons. split; [lia | done].
      * intros j Hjr. destruct (N.eq_dec j idx) as [->|?]; [set_solver|]. apply elem_of_cons. right. apply Hj. lia.
    + split_and!; [lia | lia | | lia]. apply not_elem_of_cons. split; [done|].
      intros Hi. rewrite Forall_forall in Hx. specialize (Hx _ Hi). lia.
Qed.

Lemma skip_taken_free l idx : idx ∉ l -> skip_taken idx l = idx.
Proof. destruct l as [|x l]; [done|]. cbn [skip_taken]. intros Hn. destruct (N.eqb_spec idx x); set_solver. Qed.

(** How many of the offsets below [c] a bitmap of such offsets leaves. *)
Definition offsets (c : N) : gset N := list_to_set (N.of_nat <$> seq 0 (N.to_nat c)).

Lemma elem_of_offsets c x : x ∈ offsets c <-> x < c.
Proof.
  unfold offsets. rewrite elem_of_list_to_set, list_elem_of_fmap. setoid_rewrite elem_of_seq. split.
  - intros (n & -> & Hn). lia.
  - intros Hx. exists (N.to_nat x). lia.
Qed.

Lemma size_offsets c : N.of_nat (size (offsets c)) = c.
Proof.
  unfold offsets. rewrite size_list_to_set by (apply NoDup_fmap_2_strong; [intros; lia | apply NoDup_seq]).
  rewrite length_fmap, length_seq. lia.
Qed.

Lemma slots_room c (b : gset N) :
  (forall x, x ∈ b -> x < c) ->
  N.of_nat (size b) <= c /\ (N.of_nat (size b) < c <-> exists o, o < c /\ o ∉ b).
Proof.
  intros Hb. assert (Hsub : b ⊆ offsets c) by (intros x Hx; by apply elem_of_offsets, Hb).
  pose proof (subseteq_size _ _ Hsub) as Hle. pose proof (size_offsets c) as Hc. split; [lia|]. split.
  - intros Hlt. destruct (decide (offsets c ∖ b = ∅)) as [He|Hn].
    + assert (offsets c ⊆ b) as Hin%subseteq_size by set_solver. lia.
    + apply set_choose_L in Hn as (o & [Ho%elem_of_offsets Hn]%elem_of_difference). eauto.
  - intros (o & Ho%elem_of_offsets & Hn). assert (b ⊂ offsets c) as Hss by set_solver.
    apply subset_size in Hss. lia.
Qed.

(** * The slots of a volume *)

Lemma hash_inj_mem s t : mem_slots s t -> hash_inj t.
Proof. intros Hm o o' h H1%(ms_pairs _ _ Hm) H2%(ms_pairs _ _ Hm). congruence. Qed.

Lemma Remains_spec s : cap s < 2 ^ 64 -> N.of_nat (size (bits s)) <= cap s ->
  Remains s = cap s - N.of_nat (size (bits s)).
Proof.
  intros Hc Hle. unfold Remains, wrap64.
  replace (cap s + 2 ^ 64 - _) with (cap s - N.of_nat (size (bits s)) + 1 * 2 ^ 64) by lia.
  rewrite N.Div0.mod_add. apply N.mod_small. lia.
Qed.

Lemma Next_loop_stuck fuel s idx :
  idx ∉ bits s -> cap s <= idx -> Next_loop fuel s idx = None.
Proof.
  intros Hn Hc. induction fuel as [|fuel IH]; [done|]. cbn [Next_loop].
  rewrite skip_taken_free by (by rewrite (proj2 (Iterator_spec _))).
  by rewrite (proj2 (N.ltb_ge _ _) Hc).
Qed.

Lemma Next_run s t :
  mem_slots s t ->
  (Remains s <> 0 -> forall fuel, exists o, Next (S fuel) s = Some o /\
     o < cap s /\ Occupied o s = false /\ forall j, j < o -> Occupied j s = true) /\
  (Remains s = 0 -> forall fuel, Next fuel s = None).
Proof.
  intros Hm. destruct (Iterator_spec (bits s)) as [Hso Hit]. pose proof (ms_cap _ _ Hm) as Hcap.
  assert (Hb : forall x, x ∈ bits s -> x < cap s).
  { intros x. rewrite (ms_bits _ _ Hm), elem_of_dom. intros [h Hh]. by eapply ms_bound. }
  destruct (skip_taken_spec (cap s) (Iterator (bits s)) 0 Hso) as (Hr & Hn & Hj); [|lia|done|].
  { apply Forall_forall. intros x Hx%Hit%Hb. lia. }
  set (r := skip_taken 0 (Iterator (bits s))) in *. rewrite Hit in Hn.
  destruct (slots_room (cap s) (bits s) Hb) as [Hsz Hroom]. rewrite (Remains_spec s Hcap Hsz).
  assert (Hlt : r < cap s <-> N.of_nat (size (bits s)) < cap s).
  { rewrite Hroom. split; [by exists r|]. intros (o & Ho & Hno).
    destruct (N.lt_ge_cases r (cap s)); [done|]. exfalso. apply Hno, Hit, Hj. lia. }
  unfold Next. split.
  - intros Hne fuel. exists r. assert (Hrc : r < cap s) by (apply Hlt; lia). cbn [Next_loop]. fold r.
    rewrite (proj2 (N.ltb_lt _ _) Hrc). unfold Occupied.
    split_and!; [done | done | by apply bool_decide_eq_false |].
    intros j Hjr. apply bool_decide_eq_true, Hit, Hj. lia.
  - intros Hz [|fuel]; [done|]. cbn [Next_loop]. fold r.
    rewrite (proj2 (N.ltb_ge _ _)) by lia. apply Next_loop_stuck; [done | lia].
Qed.

(** C31 The search returns the first free slot, in its first round, exactly when a
    slot is left; on a full volume it never returns. *)
Theorem Next_least s t :
  mem_slots s t ->
  (Remains s <> 0 -> forall fuel, exists o, Next (S fuel) s = Some o /\
     o < cap s /\ Occupied o s = false /\ forall j, j < o -> Occupied j s = true) /\
  (Remains s = 0 -> forall fuel, Next fuel s = None).
Proof. apply Next_run. Qed.

(** The fields and the store agree on the table. *)
Definition slot_inv `{BitmapCodec} (s : Slot) (m : gmap string blob) (t : gmap N string) : Prop :=
  mem_slots s t /\ stored_slots (volID s) m t (bits s).

Section volume.
Context {B : Badger} `{!BadgerSpec B} `{BitmapCodec}.
Context (range : gmap string N -> list (string * N)).
Context (range_hash : gmap string blockHash -> list (string * blockHash)).

Lemma sim_persistState :
  sim (abs_obj abs_store) (_persistState (S := BadgerStore B)) _persistState.
Proof. unfold _persistState. solve_sim. Qed.
#[local] Hint Resolve sim_persistState : sim.

Lemma sim_Occupy o h : sim (abs_obj abs_store) (Occupy (S := BadgerStore B) o h) (Occupy o h).
Proof. unfold Occupy, persistSlot. solve_sim. Qed.
Lemma sim_Free o : sim (abs_obj abs_store) (Free (S := BadgerStore B) range o) (Free range o).
Proof. unfold Free. solve_sim. Qed.
Lemma sim_load : sim (abs_obj abs_store) (load (S := BadgerStore B) range_hash) (load range_hash).
Proof. unfold load. solve_sim. Qed.

Lemma GetSlot_run s t (st : BadgerStore B) o h :
  mem_slots s t -> t !! o = Some h -> GetSlot h (Obj s st) = (Ok o, Obj s st).
Proof. intros Hm Ho%(ms_pairs _ _ Hm). unfold GetSlot. rewrite bind_fields. cbn [id]. by rewrite Ho. Qed.

Lemma GetHash_run s t (st : BadgerStore B) o :
  (forall m, range m ≡ₚ map_to_list m) -> mem_slots s t ->
  GetHash range o (Obj s st) = (match t !! o with Some h => Ok h | None => Err ErrSlotEmpty end, Obj s st).
Proof.
  intros Hr Hm. unfold GetHash. rewrite bind_fields. cbn [id]. unfold Occupied.
  rewrite (FindKey_spec range Hr s t) by done. destruct (t !! o) as [h|] eqn:Ho.
  - rewrite bool_decide_true; [done|]. rewrite (ms_bits _ _ Hm). by eapply elem_of_dom_2.
  - by destruct (negb _).
Qed.

Lemma NewSlot_run vol c (s : BadgerStore B) t b :
  (forall m, range_hash m ≡ₚ map_to_list m) -> stored_slots vol (sees s) t b -> hash_inj t ->
  exists hp s', NewSlot range_hash vol c s = Obj (mkSlot b c vol hp) s' /\ sees s' = sees s /\ inverse t hp.
Proof.
  intros Hr Hs Hinj. destruct (load_mem range_hash Hr vol c (abs_store s) t b Hs Hinj) as (r & hp & Hrun & Hinv).
  destruct (sim_obj_run _ _ _ _ _ _ _ sim_load Hrun) as (s' & Hrun' & Hs').
  exists hp, s'. unfold NewSlot, sees. by rewrite Hrun', Hs'.
Qed.

Lemma Free_run sl (s : BadgerStore B) t o h :
  (forall m, range m ≡ₚ map_to_list m) -> mem_slots sl t -> t !! o = Some h ->
  exists s', Free range o (Obj sl s) = (Ok h, Obj (with_bits (bits sl ∖ {[o]}) sl) s') /\
    sees s' = map_upd (slot_key (volID sl) o, None) (sees s).
Proof.
  intros Hr Hm Ho. pose proof (Free_mem range Hr sl t (abs_store s) o Hm) as Hrun. rewrite Ho in Hrun.
  destruct (sim_obj_run _ _ _ _ _ _ _ (sim_Free o) Hrun) as (s' & Hrun' & Hs').
  exists s'. unfold sees. by rewrite Hs', view_upd.
Qed.

(** A free slot below the capacity. *)
Lemma Occupy_free sl (s : BadgerStore B) t o h :
  slot_inv sl (sees s) t -> (forall o', t !! o' <> Some h) -> o < cap sl -> t !! o = None ->
  exists s', Occupy o h (Obj sl s) = (Ok tt, Obj (occupied o h sl) s') /\
    slot_inv (occupied o h sl) (sees s') (<[o := h]> t) /\
    forall k, ~ slot_owned (volID sl) k -> sees s' !! k = sees s !! k.
Proof.
  intros [Hm Hs] Hh Hlt Ho. pose proof (ms_cap _ _ Hm) as Hc.
  pose proof (Occupy_mem sl t (bits sl) (abs_store s) o h Hm Hs ltac:(lia)) as Hrun.
  rewrite (proj2 (N.ltb_ge _ _)) in Hrun by lia. rewrite decide_False in Hrun by (rewrite Ho; by intros [? ?]).
  destruct Hrun as (s1 & Hrun & Hst & Hfr).
  destruct (sim_obj_run _ _ _ _ _ _ _ (sim_Occupy o h) Hrun) as (s' & Hrun' & Hs').
  exists s'. split; [done|]. unfold sees. rewrite Hs'. split; [|done]. split; [by apply ms_put | done].
Qed.

Lemma Size_occupied sl t o h : mem_slots sl t -> t !! o = None -> Size (occupied o h sl) = Size sl + 1.
Proof.
  intros Hm Ho. unfold Size. cbn [occupied bits]. rewrite size_union_alt, (difference_disjoint_L _ {[o]}).
  2:{ rewrite (ms_bits _ _ Hm). apply not_elem_of_dom in Ho. set_solver. }
  rewrite size_singleton. lia.
Qed.

(** C16 Occupying a slot does what its table says, over any badger that behaves as
    documented, for an offset below 2^64 - 1 and a hash that no slot has: an offset
    beyond the capacity and a taken slot are refused and nothing changes; otherwise
    the slot is taken, in memory and in the store, and the block is found by slot and
    by hash. *)
Theorem Occupy_implements sl (s : BadgerStore B) t o h :
  (forall m, range m ≡ₚ map_to_list m) ->
  slot_inv sl (sees s) t -> (forall o', t !! o' <> Some h) -> o + 1 < 2 ^ 64 ->
  exists r sl' s', Occupy o h (Obj sl s) = (r, Obj sl' s') /\
    if cap sl <? o + 1 then r = Err ErrSlotOverflow /\ sl' = sl /\ sees s' = sees s
    else if decide (is_Some (t !! o)) then r = Err ErrSlotOccupied /\ sl' = sl /\ sees s' = sees s
    else r = Ok tt /\ slot_inv sl' (sees s') (<[o := h]> t) /\ Size sl' = Size sl + 1 /\
      (GetSlot h (Obj sl' s')).1 = Ok o /\ (GetHash range o (Obj sl' s')).1 = Ok h.
Proof.
  intros Hr [Hm Hs] Hh Ho. pose proof (Occupy_mem sl t (bits sl) (abs_store s) o h Hm Hs Ho) as Hrun.
  destruct (cap sl <? o + 1) eqn:Hc; [|destruct (decide (is_Some (t !! o))) as [Hd|Hd]].
  1,2: destruct (sim_obj_run _ _ _ _ _ _ _ (sim_Occupy o h) Hrun) as (s' & Hrun' & Hs');
    eexists _, _, s'; split; [exact Hrun'|]; unfold sees; by rewrite Hs'.
  apply N.ltb_ge in Hc. apply eq_None_not_Some in Hd.
  destruct (Occupy_free sl s t o h) as (s' & Hrun' & Hinv & _); [done | done | lia | done |].
  eexists _, _, s'. split; [exact Hrun'|]. split_and!; [done | done | by eapply Size_occupied | |].
  - by rewrite (GetSlot_run _ _ _ o h (proj1 Hinv)) by apply lookup_insert_eq.
  - rewrite (GetHash_run _ _ _ o Hr (proj1 Hinv)). cbn [fst]. by rewrite lookup_insert_eq.
Qed.

(** Reopening the volume restores the slot table exactly. *)
Theorem NewSlot_restores sl (s : BadgerStore B) t :
  (forall m, range_hash m ≡ₚ map_to_list m) -> slot_inv sl (sees s) t ->
  exists s', NewSlot range_hash (volID sl) (cap sl) s = Obj sl s' /\ sees s' = sees s.
Proof.
  intros Hr [Hm Hs]. destruct (NewSlot_run (volID sl) (cap sl) s t (bits sl) Hr Hs (hash_inj_mem _ _ Hm))
    as (hp & s' & Hrun & Hsees & Hinv). exists s'. split; [|done]. rewrite Hrun. f_equal.
  assert (hp = hashPairs sl) as -> by (apply map_eq; intros h; apply option_eq; intros o;
    rewrite (ms_pairs _ _ Hm); apply Hinv). by destruct sl.
Qed.

(** A freed slot comes back: Free takes the block out of the bitmap in memory
    only.  The hash still leads to the freed slot, and after reopening the slot
    is taken again, by a block without a hash. *)
Theorem Free_not_persisted sl (s : BadgerStore B) t o h :
  (forall m, range m ≡ₚ map_to_list m) -> (forall m, range_hash m ≡ₚ map_to_list m) ->
  slot_inv sl (sees s) t -> t !! o = Some h ->
  exists sl' s', Free range o (Obj sl s) = (Ok h, Obj sl' s') /\ Occupied o sl' = false /\
    (GetSlot h (Obj sl' s')).1 = Ok o /\
    let reopened := NewSlot range_hash (volID sl) (cap sl) s' in
    Occupied o (self reopened) = true /\ (GetHash range o reopened).1 = Err ErrSlotEmpty.
Proof.
  intros Hr Hrh [Hm Hs] Ho. destruct (Free_run sl s t o h Hr Hm Ho) as (s' & Hrun' & Hs').
  assert (Hst : stored_slots (volID sl) (sees s') (delete o t) (bits sl)).
  { rewrite Hs'. by apply ss_del. }
  assert (Hinj : hash_inj (delete o t)).
  { intros o1 o2 h' [_ H1]%lookup_delete_Some [_ H2]%lookup_delete_Some. by eapply hash_inj_mem. }
  destruct (NewSlot_run (volID sl) (cap sl) s' _ _ Hrh Hst Hinj) as (hp & s2 & Hnew & _ & Hinv).
  eexists _, s'. split; [exact Hrun'|]. split; [apply bool_decide_eq_false; cbn; set_solver|]. split.
  { unfold GetSlot. rewrite bind_fields. cbn [id with_bits hashPairs]. by rewrite (proj2 (ms_pairs _ _ Hm h o) Ho). }
  intros reopened. unfold reopened. rewrite Hnew. cbn [self].
  assert (Hin : o ∈ bits sl) by (rewrite (ms_bits _ _ Hm); by eapply elem_of_dom_2).
  split; [by apply bool_decide_eq_true|]. unfold GetHash. rewrite bind_fields. cbn [id]. unfold Occupied.
  rewrite bool_decide_true by done. cbn [negb hashPairs]. destruct (FindKey range hp o) as [h'|] eqn:E; [|done].
  unfold FindKey in E. apply fmap_Some in E as ([i [k v]] & Hf & ->).
  apply list_find_Some in Hf as (Hi & Hv & _). cbn in Hv. subst v. apply list_elem_of_lookup_2 in Hi.
  rewrite Hr, elem_of_map_to_list in Hi. apply Hinv in Hi. by rewrite lookup_delete_eq in Hi.
Qed.
End volume.

Lemma persistSlot_self {S} `{Store S, BitmapCodec} o h (x : object Slot S) :
  self (persistSlot o h x).2 = self x.
Proof.
  destruct x as [sl s]. unfold persistSlot. rewrite bind_fields. unfold catch, on_store. cbn [st self].
  destruct (DoSaveInKVPair _ s) as [[u|e|] s1]; [..|done]; unfold _persistState; rewrite bind_fields; cbn [id];
    (destruct (MarshalBinary _); [|done]); unfold on_store; cbn [st self]; by destruct (Save _ _ s1).
Qed.

(** The guard of Occupy wraps around: the largest offset lies beyond every
    capacity and is accepted. *)
Theorem Occupy_wraps {S} `{Store S, BitmapCodec} sl (s : S) h :
  2 ^ 64 - 1 ∉ bits sl ->
  Occupied (2 ^ 64 - 1) (self (Occupy (2 ^ 64 - 1) h (Obj sl s)).2) = true.
Proof.
  intros Hn. unfold Occupy. rewrite bind_fields. cbn [id]. change (wrap64 (2 ^ 64 - 1 + 1)) with 0.
  rewrite (proj2 (N.ltb_ge _ _) (N.le_0_l _)), bool_decide_false by done.
  rewrite !bind_set_fields, persistSlot_self. apply bool_decide_eq_true. cbn [self bits with_bits with_hashPairs].
  set_solver.
Qed.

(** * Witnesses *)

(** A codec: the elements of the bitmap. *)
Definition ref_unmarshal_bitmap (data : blob) (old : gset N) : gset N * option error :=
  match data with BBytes l => (list_to_set l, None) | _ => (old, Some (ErrOther "bad bitmap")) end.

#[export] Instance RefBitmapCodec : BitmapCodec.
Proof.
  refine {| MarshalBinary b := inl (elements b); UnmarshalBinary := ref_unmarshal_bitmap |}.
  intros b. eexists. split; [done|]. intros old. cbn. by rewrite list_to_set_elements_L.
Defined.

Definition empty_slots : Slot := mkSlot ∅ 2 5 ∅.
Definition slots1 : Slot := occupied 0 "a" empty_slots.
Definition slots2 : Slot := occupied 1 "b" slots1.

Lemma mem_empty_slots : mem_slots empty_slots ∅.
Proof. split; [done | done | intros o h; by rewrite lookup_empty | intros h o; by rewrite !lookup_empty]. Qed.
Lemma mem_slots1 : mem_slots slots1 {[0 := "a"%string]}.
Proof. apply (ms_put empty_slots ∅); [apply mem_empty_slots | done | done |]. intros o'. by rewrite lookup_empty. Qed.
Lemma mem_slots2 : mem_slots slots2 {[1 := "b"%string; 0 := "a"%string]}.
Proof.
  apply (ms_put slots1); [apply mem_slots1 | done | done |].
  intros o' H. by apply lookup_singleton_Some in H as [_ ?].
Qed.

Definition new_volume : mem_store := MkBadgerStore (B := MemBadger) ∅ None.
Lemma new_volume_inv : slot_inv empty_slots (sees (B := MemBadger) (BadgerSpec0 := MemBadger_spec) new_volume) ∅.
Proof. split; [apply mem_empty_slots|]. split; [done | done | by left]. Qed.

Lemma Next_least_witness :
  (exists o, Next 1 slots1 = Some o /\ o < 2 /\ Occupied o slots1 = false) /\ Next 100 slots2 = None.
Proof.
  split.
  - destruct (proj1 (Next_least slots1 _ mem_slots1) ltac:(by vm_compute) 0%nat) as (o & H1 & H2 & H3 & _).
    exists o. split_and!; [exact H1 | exact H2 | exact H3].
  - apply (proj2 (Next_least slots2 _ mem_slots2)). by vm_compute.
Defined.

Lemma Occupy_implements_witness :
  exists s', Occupy 0 "a" (Obj empty_slots new_volume) = (Ok tt, Obj slots1 s').
Proof.
  destruct (Occupy_implements (B := MemBadger) (BadgerSpec0 := MemBadger_spec) map_to_list empty_slots new_volume ∅ 0 "a"
    ltac:(done) new_volume_inv ltac:(done) ltac:(done)) as (r & sl' & s' & Hrun & Hok).
  exists s'. cbn in Hok. destruct Hok as [-> _]. rewrite Hrun.
  apply (f_equal (fun x => self x.2)) in Hrun. cbn [self snd] in Hrun. by rewrite <- Hrun.
Defined.

(** The store after a block went to slot 0. *)
Definition volume1 : mem_store := st (Occupy 0 "a" (Obj empty_slots new_volume)).2.
Lemma volume1_inv :
  slot_inv slots1 (sees (B := MemBadger) (BadgerSpec0 := MemBadger_spec) volume1) {[0 := "a"%string]}.
Proof.
  destruct (Occupy_mem empty_slots ∅ ∅ new_volume 0 "a" mem_empty_slots (proj2 new_volume_inv) ltac:(done))
    as (s' & Hrun & Hs' & _). split; [apply mem_slots1|]. unfold volume1. rewrite Hrun.
  destruct s' as [d [t|]]; exact Hs'.
Qed.

Lemma NewSlot_restores_witness :
  exists s', NewSlot map_to_list 5 2 volume1 = Obj slots1 s'.
Proof.
  destruct (NewSlot_restores (B := MemBadger) (BadgerSpec0 := MemBadger_spec) map_to_list slots1 volume1 _
    ltac:(done) volume1_inv) as (s' & Hrun & _). exists s'. exact Hrun.
Defined.

Lemma Free_not_persisted_witness :
  exists sl' s', Free map_to_list 0 (Obj slots1 volume1) = (Ok "a"%string, Obj sl' s') /\
    Occupied 0 (self (NewSlot map_to_list 5 2 s')) = true.
Proof.
  destruct (Free_not_persisted (B := MemBadger) (BadgerSpec0 := MemBadger_spec) map_to_list map_to_list slots1
    volume1 _ 0 "a" ltac:(done) ltac:(done) volume1_inv ltac:(done)) as (sl' & s' & Hrun & _ & _ & Hin & _).
  exists sl', s'. split; [exact Hrun | exact Hin].
Defined.

Lemma Occupy_wraps_witness :
  Occupied (2 ^ 64 - 1) (self (Occupy (2 ^ 64 - 1) "a" (Obj empty_slots new_volume)).2) = true.
Proof. apply (Occupy_wraps empty_slots new_volume "a"). by cbn. Defined.
