(* ===== verification/Engine.v ===== *)
(** The storage engine of a physical volume, src/pkg/storage/engine/base.go and
    engine.go: a block per slot, each in a file of its own that holds the header
    and the data of block.go.  The file system (afero) is a parameter. *)
From Stdlib Require Import Strings.Byte NArith Lia.
From stdpp Require Import prelude gmap strings list fin_maps.
From S2P Require Import Prelude Store Hash Block.
Open Scope N_scope.

Definition ErrEngineNotFound : error := ErrOther "not found".
Definition ErrBlockCorrupted : error := ErrOther "block is corrupted".
Definition ErrBlockExisted : error := ErrOther "block already exists".
Definition ErrBlockNotExisted : error := ErrOther "block not exists".

Record DataContainer := mkContainer {
  c_Index : N;
  c_Data : list byte;
  c_Hash : list byte;
  c_Crc : N }.

Record Location := NewLocation { VolID : N; Slot : N }.

(** * The file system *)

(** The calls the engine makes on afero.Fs and on the files it opens.  A file is
    addressed by its name: each call opens its own handle. *)
Class Fs := {
  fs_state : Type;
  fs_Stat : fs_state -> string -> bool;
  fs_Create : fs_state -> string -> fs_state * option error;
  (** [Write] on the handle [Create] returned *)
  fs_Write : fs_state -> string -> list byte -> fs_state * option error;
  fs_Open : fs_state -> string -> bool;
  (** [ReadAt] and [Write] on a handle [Open] returned *)
  fs_ReadAt : fs_state -> string -> nat -> nat -> list byte * option error;
  fs_WriteOpened : fs_state -> string -> list byte -> fs_state * option error;
  fs_Remove : fs_state -> string -> fs_state * option error;
}.

(** A file system that works as documented: it stands for a map from names to
    contents, [Create] makes an empty file, a handle from [Open] is read-only,
    and [ReadAt] fills the buffer when the file has that many bytes and reports
    a short read otherwise. *)
Class FsSpec (F : Fs) := {
  files : fs_state -> gmap string (list byte);
  Stat_spec s n : fs_Stat s n = bool_decide (is_Some (files s !! n));
  Create_spec s n : exists s', fs_Create s n = (s', None) /\ files s' = <[n := []]> (files s);
  Write_spec s n b : files s !! n = Some [] ->
    exists s', fs_Write s n b = (s', None) /\ files s' = <[n := b]> (files s);
  Open_spec s n : fs_Open s n = bool_decide (is_Some (files s !! n));
  ReadAt_spec s n c off len : files s !! n = Some c ->
    if (off + len <=? length c)%nat then fs_ReadAt s n off len = (take len (drop off c), None)
    else (fs_ReadAt s n off len).2 <> None \/ (length (fs_ReadAt s n off len).1 < len)%nat;
  WriteOpened_spec s n b : exists e, fs_WriteOpened s n b = (s, Some e);
  Remove_spec s n : is_Some (files s !! n) ->
    exists s', fs_Remove s n = (s', None) /\ files s' = delete n (files s);
}.

(** * The engine *)

(** [strconv.Itoa(int(location.Slot))]. *)
Definition ToAbs (location : Location) : string := itoaZ (to_int (Slot location)).

(** [make([]byte, n)] panics beyond the size of an allocation. *)
Definition max_alloc : N := 2 ^ 48.

Definition of_block {A} (o : outcome block_error A) : outcome error A :=
  match o with Ok a => Ok a | Err ErrInvalidBlock => Err (ErrOther "invalid block") | Panic => Panic end.

Section engine.
Context {F : Fs}.

(** The header of an open file. *)
Definition read_header (s : fs_state) (name : string) : outcome error Header :=
  let '(buf, err) := fs_ReadAt s name 0 HeaderSize in
  if bool_decide (err <> None) || (length buf <? HeaderSize)%nat then Err ErrBlockCorrupted
  else of_block (DecodeBlockHeader buf).

Definition GetBlockHeader (location : Location) : M fs_state error Header := fun s =>
  (if fs_Open s (ToAbs location) then read_header s (ToAbs location) else Err ErrEngineNotFound, s).

(** What [GetBlockDataCb] reads before it calls its callback. *)
Definition read_block (s : fs_state) (name : string) : outcome error (Header * list byte) :=
  if negb (fs_Open s name) then Err ErrEngineNotFound else
  header <~ read_header s name ;;
  if max_alloc <? DataLen header then Panic else
  let len := N.to_nat (DataLen header) in
  let '(buf, err) := fs_ReadAt s name HeaderSize len in
  if bool_decide (err <> None) || (length buf <? len)%nat then Err ErrBlockCorrupted
  else Ok (header, buf).

(** The engine is part of a larger state [X], on which the callbacks act; their
    errors include those of the engine. *)
Section with_callbacks.
Context {X E : Type} (inj : error -> E) (fs_of : X -> fs_state) (set_fs : fs_state -> X -> X).

Definition raise {A} (o : outcome error A) : M X E A := fun x =>
  (match o with Ok a => Ok a | Err e => Err (inj e) | Panic => Panic end, x).

Definition GetBlockDataCb (location : Location) (cb : option (Header -> M X E unit)) :
    M X E (list byte) :=
  s <- gets fs_of ;;
  p <- raise (read_block s (ToAbs location)) ;;
  match cb with
  | None => ret p.2
  | Some cb => cb p.1 ;;; ret p.2
  end.

(** A call that changes the file system. *)
Definition fs_call (f : fs_state -> fs_state * option error) : M X E unit := fun x =>
  let '(s, e) := f (fs_of x) in
  (match e with None => Ok tt | Some e => Err (inj e) end, set_fs s x).

Definition WriteBlockCb (location : Location) (c : DataContainer)
    (cb : option (Header -> M X E unit)) : M X E unit :=
  let name := ToAbs location in
  s <- gets fs_of ;;
  if fs_Stat s name then throw (inj ErrBlockExisted) else
  fs_call (fun s => fs_Create s name) ;;;
  blk <- raise (of_block
    (if (0 <? length (c_Hash c))%nat then NewBlockWithHash (c_Index c) (c_Data c) (c_Hash c)
     else NewBlock (c_Index c) (c_Data c))) ;;
  header <- raise (of_block (Block_Header blk)) ;;
  fs_call (fun s => fs_Write s name (Raw blk)) ;;;
  match cb with None => ret tt | Some cb => cb header end.

Definition GetBlockData (location : Location) : M X E (list byte) := GetBlockDataCb location None.
Definition WriteBlock (location : Location) (c : DataContainer) : M X E unit :=
  WriteBlockCb location c None.

Definition with_Canceled (h : Header) : Header :=
  mkHeader (Kind h) (DataLen h) (Index h) (Crc32 h) (Checksum h) x01.

Definition CancelBlock (location : Location) : M X E unit :=
  let name := ToAbs location in
  s <- gets fs_of ;;
  if negb (fs_Open s name) then throw (inj ErrEngineNotFound) else
  match read_header s name with
  | Panic => go_panic
  | Err _ => throw (inj ErrBlockCorrupted)
  | Ok header =>
      buf <- raise (of_block (EncodeBlockHeader (with_Canceled header))) ;;
      fs_call (fun s => fs_WriteOpened s name buf)
  end.

Definition DeleteBlock (location : Location) : M X E unit :=
  let name := ToAbs location in
  s <- gets fs_of ;;
  if negb (fs_Stat s name) then throw (inj ErrBlockNotExisted) else
  fs_call (fun s => fs_Remove s name).
End with_callbacks.
End engine.

(** * The map a file system stands for *)

#[local] Opaque sha256 crc32.

(** What the engine can store: a digest of 32 bytes, an index that fits its
    field, and data that can be allocated in one piece. *)
Definition storable (c : DataContainer) : Prop :=
  length (c_Hash c) = 32%nat /\ c_Index c < 2 ^ 64 /\ N.of_nat (length (c_Data c)) <= max_alloc.

Definition header_of (c : DataContainer) : Header :=
  mkHeader x01 (N.of_nat (length (c_Data c))) (c_Index c) (crc32 (c_Data c)) (c_Hash c) x00.
Definition file_of (c : DataContainer) : list byte :=
  layout x01 (N.of_nat (length (c_Data c))) (c_Index c) (crc32 (c_Data c)) (c_Hash c) x00 ++ c_Data c.

(** [em] are the blocks by slot. *)
Record holds_files {F : Fs} `{!FsSpec F} (s : fs_state) (em : gmap N DataContainer) : Prop := {
  hf_file slot : slot < 2 ^ 63 -> files s !! itoa slot = file_of <$> em !! slot;
  hf_ok slot c : em !! slot = Some c -> storable c /\ slot < 2 ^ 63;
}.

Lemma ToAbs_small v slot : slot < 2 ^ 63 -> ToAbs (NewLocation v slot) = itoa slot.
Proof. intros H. unfold ToAbs. cbn [Slot]. by rewrite to_int_small, itoaZ_of_N. Qed.

Lemma file_of_new c :
  storable c -> NewBlockWithHash (c_Index c) (c_Data c) (c_Hash c) = Ok (mkBlock (file_of c)).
Proof. intros (Hh & _ & _). by rewrite NewBlock_layout. Qed.

Lemma file_of_header c rest : storable c -> DecodeBlockHeader (take HeaderSize (file_of c) ++ rest) = Ok (header_of c).
Proof.
  intros (Hh & Hi & Hd). unfold file_of. rewrite take_app_length' by (by rewrite layout_length).
  apply decode_layout; [done | | done | apply crc32_bounded]. unfold max_alloc in Hd. lia.
Qed.

Lemma length_file_of c : storable c -> length (file_of c) = (HeaderSize + length (c_Data c))%nat.
Proof. intros (Hh & _). unfold file_of. by rewrite length_app, layout_length. Qed.

Section runs.
Context {F : Fs} `{!FsSpec F}.

Lemma hf_put s s' em slot c :
  holds_files s em -> storable c -> slot < 2 ^ 63 -> files s' = <[itoa slot := file_of c]> (files s) ->
  holds_files s' (<[slot := c]> em).
Proof.
  intros [Hf Hok] Hc Hs Hfs. split.
  - intros slot' Hs'. rewrite Hfs, !lookup_insert. case_decide as E.
    + apply itoa_inj in E as <-. by rewrite decide_True.
    + rewrite decide_False by congruence. by apply Hf.
  - intros slot' c' [[<- <-]|[_ Hl]]%lookup_insert_Some; [done | by apply Hok].
Qed.

Lemma hf_del s s' em slot :
  holds_files s em -> files s' = delete (itoa slot) (files s) -> holds_files s' (delete slot em).
Proof.
  intros [Hf Hok] Hfs. split.
  - intros slot' Hs'. rewrite Hfs, !lookup_delete. case_decide as E.
    + apply itoa_inj in E as <-. by rewrite decide_True.
    + rewrite decide_False by congruence. by apply Hf.
  - intros slot' c' [_ Hl]%lookup_delete_Some. by apply Hok.
Qed.

Lemma read_header_run s em slot c :
  holds_files s em -> em !! slot = Some c -> read_header s (itoa slot) = Ok (header_of c).
Proof.
  intros [Hf Hok] Hc. destruct (Hok _ _ Hc) as [Hst Hs]. specialize (Hf slot Hs). rewrite Hc in Hf. cbn [fmap option_fmap option_map] in Hf.
  unfold read_header. pose proof (ReadAt_spec s _ _ 0 HeaderSize Hf) as Hr.
  rewrite length_file_of, (proj2 (Nat.leb_le _ _)) in Hr by (done || lia). rewrite Hr, drop_0.
  rewrite bool_decide_false by (intros ?; done). cbn [orb].
  rewrite length_take, length_file_of, (proj2 (Nat.ltb_ge _ _)) by (done || lia).
  pose proof (file_of_header c [] Hst) as Hh. rewrite app_nil_r in Hh. by rewrite Hh.
Qed.

Lemma read_block_run s em slot :
  holds_files s em -> slot < 2 ^ 63 ->
  read_block s (itoa slot) =
  match em !! slot with
  | None => Err ErrEngineNotFound
  | Some c => Ok (header_of c, c_Data c)
  end.
Proof.
  intros Hh Hs. unfold read_block. rewrite Open_spec, (hf_file _ _ Hh slot Hs).
  destruct (em !! slot) as [c|] eqn:Hc; cbn [fmap option_fmap option_map].
  - rewrite bool_decide_true by eauto. cbn [negb]. rewrite (read_header_run _ _ _ _ Hh Hc). cbn [obind].
    destruct (hf_ok _ _ Hh _ _ Hc) as [Hst _]. cbn [header_of DataLen].
    rewrite (proj2 (N.ltb_ge _ _)) by apply Hst. rewrite Nat2N.id.
    pose proof (hf_file _ _ Hh slot Hs) as Hf. rewrite Hc in Hf. cbn [fmap option_fmap option_map] in Hf.
    pose proof (ReadAt_spec s _ _ HeaderSize (length (c_Data c)) Hf) as Hr.
    rewrite length_file_of, (proj2 (Nat.leb_le _ _)) in Hr by (done || lia). rewrite Hr.
    rewrite bool_decide_false by (intros ?; done). cbn [orb].
    unfold file_of. rewrite drop_app_length' by (rewrite layout_length; [done | apply Hst]).
    rewrite take_ge by lia. by rewrite (proj2 (Nat.ltb_ge _ _)) by lia.
  - rewrite bool_decide_false; [done|]. by intros [? ?].
Qed.

(** The engine inside a larger state. *)
Context {X E : Type} (inj : error -> E) (fs_of : X -> fs_state) (set_fs : fs_state -> X -> X).
Context (get_set : forall s x, fs_of (set_fs s x) = s).
Context (set_set : forall s s' x, set_fs s (set_fs s' x) = set_fs s x).

Lemma fs_call_run f x s' :
  f (fs_of x) = (s', None) -> fs_call inj fs_of set_fs f x = (Ok tt, set_fs s' x).
Proof. intros Hf. unfold fs_call. by rewrite Hf. Qed.

Lemma WriteBlock_run x em v slot c :
  holds_files (fs_of x) em -> storable c -> slot < 2 ^ 63 ->
  match em !! slot with
  | Some _ => WriteBlock inj fs_of set_fs (NewLocation v slot) c x = (Err (inj ErrBlockExisted), x)
  | None => exists s', WriteBlock inj fs_of set_fs (NewLocation v slot) c x = (Ok tt, set_fs s' x) /\
      holds_files s' (<[slot := c]> em)
  end.
Proof.
  intros Hh Hc Hs. unfold WriteBlock, WriteBlockCb. rewrite ToAbs_small by done.
  assert (Hst : fs_Stat (fs_of x) (itoa slot) = bool_decide (is_Some (em !! slot))).
  { rewrite Stat_spec, (hf_file _ _ Hh slot Hs). apply bool_decide_ext, fmap_is_Some. }
  destruct (em !! slot) as [c'|] eqn:Hem.
  - unfold bind, gets. by rewrite Hst, bool_decide_true by eauto.
  - destruct (Create_spec (fs_of x) (itoa slot)) as (s1 & Hcr & H1).
    destruct (Write_spec s1 (itoa slot) (file_of c)) as (s2 & Hwr & H2).
    { rewrite H1. apply lookup_insert_eq. }
    exists s2. split.
    + unfold bind at 1, gets. rewrite Hst, bool_decide_false by (by intros [? ?]).
      unfold bind at 1. rewrite (fs_call_run (fun s => fs_Create s (itoa slot)) _ _ Hcr).
      rewrite (proj1 Hc). cbn [Nat.ltb Nat.leb]. rewrite file_of_new by done.
      unfold bind at 1, raise at 1. cbn [of_block]. unfold bind at 1, raise, Block_Header. cbn [data].
      pose proof (file_of_header c (drop HeaderSize (file_of c)) Hc) as Hd. rewrite take_drop in Hd. rewrite Hd.
      unfold bind. cbn [of_block Raw data].
      erewrite (fs_call_run (fun s => fs_Write s (itoa slot) (file_of c))) by (by rewrite get_set, Hwr).
      by rewrite set_set.
    + apply (hf_put (fs_of x)); [done..|]. by rewrite H2, H1, insert_insert_eq.
Qed.

Lemma DeleteBlock_run x em v slot :
  holds_files (fs_of x) em -> slot < 2 ^ 63 ->
  match em !! slot with
  | None => DeleteBlock inj fs_of set_fs (NewLocation v slot) x = (Err (inj ErrBlockNotExisted), x)
  | Some _ => exists s', DeleteBlock inj fs_of set_fs (NewLocation v slot) x = (Ok tt, set_fs s' x) /\
      holds_files s' (delete slot em)
  end.
Proof.
  intros Hh Hs. unfold DeleteBlock. rewrite ToAbs_small by done.
  assert (Hst : fs_Stat (fs_of x) (itoa slot) = bool_decide (is_Some (em !! slot))).
  { rewrite Stat_spec, (hf_file _ _ Hh slot Hs). apply bool_decide_ext, fmap_is_Some. }
  destruct (em !! slot) as [c|] eqn:Hem.
  - destruct (Remove_spec (fs_of x) (itoa slot)) as (s1 & Hrm & H1).
    { rewrite (hf_file _ _ Hh slot Hs), Hem. eauto. }
    exists s1. split; [|by apply (hf_del (fs_of x))].
    unfold bind, gets. rewrite Hst, bool_decide_true by eauto. cbn [negb].
    by rewrite (fs_call_run (fun s => fs_Remove s (itoa slot)) _ _ Hrm).
  - unfold bind, gets. rewrite Hst, bool_decide_false by (by intros [? ?]). done.
Qed.
End runs.

(** * The engine is a map from slots to blocks *)

Section engine_theorems.
Context {F : Fs} `{!FsSpec F}.
Abbreviation write v slot c := (WriteBlock id id (fun s' _ => s') (NewLocation v slot) c).
Abbreviation read v slot := (GetBlockData id id (NewLocation v slot)).
Abbreviation remove v slot := (DeleteBlock id id (fun s' _ => s') (NewLocation v slot)).

(** C25 Over a file system that works as documented the engine is a map from slots
    to blocks: a free slot takes a block and a taken one refuses it, reading
    returns the data and the header that were written and fails on a free slot,
    and deleting frees a taken slot and fails on a free one. *)
Theorem Engine_implements (s : fs_state) em v slot :
  holds_files s em -> slot < 2 ^ 63 ->
  (forall c, storable c ->
     if decide (is_Some (em !! slot)) then write v slot c s = (Err ErrBlockExisted, s)
     else exists s', write v slot c s = (Ok tt, s') /\ holds_files s' (<[slot := c]> em)) /\
  (read v slot s, GetBlockHeader (NewLocation v slot) s) =
    match em !! slot with
    | None => ((Err ErrEngineNotFound, s), (Err ErrEngineNotFound, s))
    | Some c => ((Ok (c_Data c), s), (Ok (header_of c), s))
    end /\
  (if decide (is_Some (em !! slot)) then exists s', remove v slot s = (Ok tt, s') /\ holds_files s' (delete slot em)
   else remove v slot s = (Err ErrBlockNotExisted, s)).
Proof.
  intros Hh Hs. split_and!.
  - intros c Hc. pose proof (WriteBlock_run id id (fun s' _ => s') ltac:(done) ltac:(done) s em v slot c Hh Hc Hs) as Hw.
    destruct (em !! slot); [rewrite decide_True by eauto | rewrite decide_False by (by intros [? ?])]; exact Hw.
  - unfold GetBlockData, GetBlockDataCb, GetBlockHeader, bind, gets, raise. rewrite ToAbs_small by done. cbn [id].
    rewrite (read_block_run s em) by done. rewrite Open_spec, (hf_file _ _ Hh slot Hs).
    destruct (em !! slot) as [c|] eqn:Hc; cbn [fmap option_fmap option_map].
    + rewrite bool_decide_true by eauto. by rewrite (read_header_run _ _ _ _ Hh Hc).
    + by rewrite bool_decide_false by (by intros [? ?]).
  - pose proof (DeleteBlock_run id id (fun s' _ => s') s em v slot Hh Hs) as Hd.
    destruct (em !! slot); [rewrite decide_True by eauto | rewrite decide_False by (by intros [? ?])]; exact Hd.
Qed.

(** No block is ever canceled: the file is opened for reading, so the write of
    the changed header fails and the file keeps its contents. *)
Theorem CancelBlock_fails (s : fs_state) em v slot :
  holds_files s em -> slot < 2 ^ 63 ->
  exists e, CancelBlock id id (fun s' _ => s') (NewLocation v slot) s = (Err e, s).
Proof.
  intros Hh Hs. unfold CancelBlock, bind at 1, gets. rewrite ToAbs_small by done. cbn [id].
  rewrite Open_spec, (hf_file _ _ Hh slot Hs).
  destruct (em !! slot) as [c|] eqn:Hc; cbn [fmap option_fmap option_map].
  - rewrite bool_decide_true by eauto. cbn [negb]. rewrite (read_header_run _ _ _ _ Hh Hc).
    destruct (hf_ok _ _ Hh _ _ Hc) as [(Hl & _) _].
    pose proof (fill_header x01 (N.of_nat (length (c_Data c))) (c_Index c) (crc32 (c_Data c)) (c_Hash c) x01 [] Hl) as Hf.
    rewrite app_nil_r in Hf. unfold EncodeBlockHeader, Encode, with_Canceled.
    cbn [header_of Kind DataLen Index Crc32 Checksum Canceled]. rewrite take_ge by lia.
    rewrite app_nil_r in Hf. unfold bind, raise. rewrite Hf. cbn [of_block].
    unfold fs_call. cbn [id]. edestruct (WriteOpened_spec s) as [e He]. rewrite He. by exists e.
  - rewrite bool_decide_false by (by intros [? ?]). by eexists.
Qed.
End engine_theorems.

(** * Witnesses *)

(** A file system in memory. *)
Definition mem_ReadAt (s : gmap string (list byte)) (n : string) (off len : nat) : list byte * option error :=
  match s !! n with
  | None => ([], Some (ErrOther "closed"))
  | Some c => if (off + len <=? length c)%nat then (take len (drop off c), None)
              else (take len (drop off c), Some (ErrOther "EOF"))
  end.

#[export] Instance MemFs : Fs := {|
  fs_state := gmap string (list byte);
  fs_Stat s n := bool_decide (is_Some (s !! n));
  fs_Create s n := (<[n := []]> s, None);
  fs_Write s n b := (<[n := default [] (s !! n) ++ b]> s, None);
  fs_Open s n := bool_decide (is_Some (s !! n));
  fs_ReadAt := mem_ReadAt;
  fs_WriteOpened s n b := (s, Some (ErrOther "file handle is read only"));
  fs_Remove s n := if bool_decide (is_Some (s !! n)) then (delete n s, None) else (s, Some (ErrOther "no file"));
|}.

#[export] Instance MemFs_spec : FsSpec MemFs.
Proof.
  refine {| files := fun s : @fs_state MemFs => s : gmap string (list byte) |}; intros; cbn in *.
  - done.
  - by eexists.
  - eexists. split; [done|]. by rewrite H.
  - done.
  - unfold mem_ReadAt. rewrite H. destruct (_ <=? _)%nat; [done|]. by left.
  - by eexists.
  - rewrite bool_decide_true by done. by eexists.
Defined.

Definition block3 : DataContainer := mkContainer 3 [x01; x02] (replicate 32 x07) 0.

Lemma empty_disk : holds_files (F := MemFs) ∅ ∅.
Proof. split; [done|]. intros slot c H. by rewrite lookup_empty in H. Qed.

Lemma Engine_implements_witness :
  exists s', WriteBlock (F := MemFs) id id (fun s' _ => s') (NewLocation 1 5) block3 ∅ = (Ok tt, s') /\
    holds_files (F := MemFs) s' {[5 := block3]}.
Proof.
  destruct (Engine_implements (F := MemFs) ∅ ∅ 1 5 empty_disk ltac:(done)) as [Hw _].
  apply (Hw block3). repeat split; done.
Defined.

Lemma CancelBlock_fails_witness :
  exists e, CancelBlock (F := MemFs) id id (fun s' _ => s') (NewLocation 1 5) ∅ = (Err e, ∅).
Proof. apply (CancelBlock_fails (F := MemFs) ∅ ∅ 1 5 empty_disk). done. Defined.
