(* ===== verification/Volume.v ===== *)
(** A physical volume on the local disk, src/pkg/storage/volume: its statistics
    and the events it reports (physical_volume.go, messenger.go), the list of
    blocks due for eviction (evit_block.go), the recently used blocks (lru.go)
    and the volume itself (physical_local.go), over the slots of [Slot], the
    engine of [Engine] and the node's store. *)
From Stdlib Require Import Ascii Strings.Byte NArith SpecFloat Lia.
From stdpp Require Import prelude gmap strings list fin_maps.
From S2P Require Import Prelude Store Badger StoreProps Attr MetaStore Hash Block Engine Slot.
Open Scope N_scope.

(** A call returns an error, or waits for something that never happens. *)
Inductive fault := Fails (e : error) | Blocked.

(** * Statistics *)

(** The float64 arithmetic of the code: conversion, product and quotient round to
    the nearest value, the conversion to uint64 truncates. *)
Definition float64 := spec_float.
Definition float_of (z : Z) : float64 := binary_normalize 53 1024 z 0 false.
Definition float_mul : float64 -> float64 -> float64 := SFmul 53 1024.
Definition float_div : float64 -> float64 -> float64 := SFdiv 53 1024.
Definition float_to_Z (f : float64) : Z :=
  match f with
  | S754_finite s m e => (if s then -1 else 1) * Z.shiftl (Z.pos m) e
  | _ => 0
  end.
Definition float_to_uint64 (f : float64) : N := to_uint64 (float_to_Z f).

Record VolumeStatistics := mkStat {
  vs_VolID : N;
  Quota : Z;
  Threhold : float64;
  InuseBytes : N }.

(** uint64 subtraction. *)
Definition RemainCap (v : VolumeStatistics) : N :=
  wrap64 (to_uint64 (Quota v) + (2 ^ 64 - wrap64 (InuseBytes v))).
Definition GetCap (v : VolumeStatistics) : N :=
  float_to_uint64 (float_mul (float_of (Quota v)) (Threhold v)).
Definition isAboveWatermark (v : VolumeStatistics) : bool := GetCap v <? InuseBytes v.

Definition stat_Format (v : VolumeStatistics) : string := ("vol_stat/" +:+ itoa (vs_VolID v))%string.
Definition stat_json (v : VolumeStatistics) : blob :=
  BJson [("Quota", JNum (Quota v)); ("Threhold", JReal (Threhold v)); ("InuseBytes", JN (InuseBytes v))]%string.

(** [json.Unmarshal] into the existing statistics: a missing field keeps its
    value. *)
Definition stat_parse (buf : blob) (v : VolumeStatistics) : VolumeStatistics + error :=
  match buf with
  | BJson j =>
      sbind (match jlookup "Quota" j with
             | None => inl (Quota v) | Some (JNum z) => inl z | Some _ => inr ErrJson end) (fun q =>
      sbind (match jlookup "Threhold" j with
             | None => inl (Threhold v) | Some (JReal f) => inl f | Some (JNum z) => inl (float_of z)
             | Some _ => inr ErrJson end) (fun t =>
      sbind (match jlookup "InuseBytes" j with
             | None => inl (InuseBytes v) | Some _ => get_N "InuseBytes" j end) (fun n =>
      inl (mkStat (vs_VolID v) q t n))))
  | _ => inr ErrJson
  end.

(** [AddInUseBytes]: a negative delta is converted to uint64 and subtracted. *)
Definition add_inuse (delta : Z) (v : VolumeStatistics) : VolumeStatistics :=
  let n := if (delta <? 0)%Z then wrap64 (InuseBytes v + (2 ^ 64 - to_uint64 delta))
           else wrap64 (InuseBytes v + to_uint64 delta) in
  mkStat (vs_VolID v) (Quota v) (Threhold v) n.

(** * Events *)

(** The event types and storage.BlockState. *)
Definition BlockMetaEvent_Add : Z := 0.
Definition BlockMetaEvent_Delete : Z := 1.
Definition BlockState_LOCAL : Z := 0.
Definition BlockState_LOCAL_S3 : Z := 1.
Definition BlockState_S3_ONLY : Z := 2.

(** The event without its channel, which [message] has; [CreatedAt] is an
    instant. *)
Record BlockMetaEvent := mkEvent {
  be_VolID : N;
  BlockID : string;
  be_Size : N;
  LogicIndex : N;
  be_Crc32 : N;
  EventType : Z;
  State : Z;
  CreatedAt : Z }.

Definition OnS3Only (s : BlockMetaEvent) : bool := (State s =? BlockState_S3_ONLY)%Z.
Definition OnLocal (s : BlockMetaEvent) : bool := (State s =? BlockState_LOCAL)%Z.
Definition OnBoth (s : BlockMetaEvent) : bool := (State s =? BlockState_LOCAL_S3)%Z.

Definition Event_FormatPrefix (s : BlockMetaEvent) : string := "block/".
Definition Event_FormatKey (s : BlockMetaEvent) : string := (Event_FormatPrefix s +:+ BlockID s)%string.

(** The channel is not part of the JSON; the time is one instant. *)
Definition event_blob (s : BlockMetaEvent) : blob :=
  BJson [("VolID", JN (be_VolID s)); ("BlockID", JStr (BlockID s)); ("Size", JN (be_Size s));
         ("LogicIndex", JN (LogicIndex s)); ("Crc32", JN (be_Crc32 s)); ("EventType", JNum (EventType s));
         ("State", JNum (State s)); ("CreatedAt", JNum (CreatedAt s))]%string.
Definition Event_Serialize (s : BlockMetaEvent) : blob + error := inl (event_blob s).
Definition Event_Deserialize (bytes : blob) : BlockMetaEvent + error :=
  match bytes with
  | BJson j =>
      sbind (get_N "VolID" j) (fun v => sbind (get_S "BlockID" j) (fun b =>
      sbind (get_N "Size" j) (fun sz => sbind (get_N "LogicIndex" j) (fun i =>
      sbind (get_N "Crc32" j) (fun c => sbind (get_Z "EventType" j) (fun et =>
      sbind (get_Z "State" j) (fun st => sbind (get_Z "CreatedAt" j) (fun ca =>
      inl (mkEvent v b sz i c et st ca)))))))))
  | _ => inr ErrJson
  end.

#[export] Instance Event_Serializer : Serializer BlockMetaEvent := {
  FormatKey := Event_FormatKey;
  FormatPrefix := Event_FormatPrefix;
  Serialize := Event_Serialize;
  Deserialize := Event_Deserialize;
}.

(** What a volume sends over the two channels of its messenger; [done] says
    whether the event has a channel to close. *)
Inductive message := VolStat (v : VolumeStatistics) | BlockMeta (m : BlockMetaEvent) (done : bool).

(** * Eviction *)

(** [locked]: a goroutine has left the lock held. *)
Record EvitManager := mkEvit { ev_volID : N; pendingBlocks : list (Z * string); locked : bool }.

Definition with_pending (l : list (Z * string)) (e : EvitManager) : EvitManager :=
  mkEvit (ev_volID e) l (locked e).
Definition with_locked (b : bool) (e : EvitManager) : EvitManager :=
  mkEvit (ev_volID e) (pendingBlocks e) b.

Definition evit_Format (e : EvitManager) : string := ("evit_block/" +:+ itoa (ev_volID e))%string.
Definition pending_json (l : list (Z * string)) : blob :=
  BArr ((fun p => [("A", JNum p.1); ("B", JStr p.2)]%string) <$> l).
Fixpoint pending_parse (l : list json) : list (Z * string) + error :=
  match l with
  | [] => inl []
  | j :: r => sbind (get_Z "A" j) (fun a => sbind (get_S "B" j) (fun b =>
              sbind (pending_parse r) (fun l => inl ((a, b) :: l))))
  end.

(** The index of the first pending block with the id. *)
Definition find_pending (id : N) (l : list (Z * string)) : option nat :=
  fst <$> list_find (fun p => to_uint64 p.1 = id) l.
Definition remove_at {A} (i : nat) (l : list A) : list A := take i l ++ drop (S i) l.

Definition BlockExpired (blockID : N) (e : EvitManager) : bool :=
  bool_decide (find_pending blockID (pendingBlocks e) = None).

(** * The recently used blocks *)

(** hashicorp's LRU cache: each call returns the pairs its eviction callback was
    called with. *)
Class Lru := {
  lru : Type;
  lru_New : Z -> option lru;
  lru_Add : Z -> string -> lru -> lru * list (Z * string);
  lru_RemoveOldest : lru -> lru * list (Z * string) * option (Z * string);
}.

(** * The volume *)

Section volume.
Context {F : Fs} {L : Lru} {S : Type} `{Store S} `{BitmapCodec}.
(** The order in which Go walks the maps of the slot table. *)
Context (range : gmap string N -> list (string * N)).
Context (range_hash : gmap string blockHash -> list (string * blockHash)).
(** How many rounds a loop that waits is followed. *)
Context (fuel : nat).

(** [sent] are the messages sent so far. *)
Record LocalPhysicalVolume := mkVolume {
  id : N;
  stat : VolumeStatistics;
  slot : Slot;
  fs : fs_state;
  blockLru : lru;
  evitManager : EvitManager;
  sent : list message }.

Definition with_stat (x : VolumeStatistics) (v : LocalPhysicalVolume) : LocalPhysicalVolume :=
  mkVolume (id v) x (slot v) (fs v) (blockLru v) (evitManager v) (sent v).
Definition with_slot (x : Slot) (v : LocalPhysicalVolume) : LocalPhysicalVolume :=
  mkVolume (id v) (stat v) x (fs v) (blockLru v) (evitManager v) (sent v).
Definition with_fs (x : fs_state) (v : LocalPhysicalVolume) : LocalPhysicalVolume :=
  mkVolume (id v) (stat v) (slot v) x (blockLru v) (evitManager v) (sent v).
Definition with_lru (x : lru) (v : LocalPhysicalVolume) : LocalPhysicalVolume :=
  mkVolume (id v) (stat v) (slot v) (fs v) x (evitManager v) (sent v).
Definition with_evit (x : EvitManager) (v : LocalPhysicalVolume) : LocalPhysicalVolume :=
  mkVolume (id v) (stat v) (slot v) (fs v) (blockLru v) x (sent v).
Definition with_sent (x : list message) (v : LocalPhysicalVolume) : LocalPhysicalVolume :=
  mkVolume (id v) (stat v) (slot v) (fs v) (blockLru v) (evitManager v) x.

Abbreviation vol := (object LocalPhysicalVolume S).
Abbreviation VM A := (M vol fault A).

(** Errors of the parts are errors of the volume; only errors can be handled. *)
Definition lift_outcome {A} (r : outcome error A) : outcome fault A :=
  match r with Ok a => Ok a | Err e => Err (Fails e) | Panic => Panic end.
Definition call_store {A} (m : M S error A) : VM A := fun x =>
  let '(r, s) := m (st x) in (lift_outcome r, Obj (self x) s).
Definition on_slot {A} (m : M (object Slot S) error A) : VM A := fun x =>
  let '(r, y) := m (Obj (slot (self x)) (st x)) in
  (lift_outcome r, Obj (with_slot (self y) (self x)) (st y)).
Definition try {A C} (m : VM A) (k : A + error -> VM C) : VM C := fun x =>
  match m x with
  | (Ok a, y) => k (inl a) y
  | (Err (Fails e), y) => k (inr e) y
  | (Err Blocked, y) => (Err Blocked, y)
  | (Panic, y) => (Panic, y)
  end.
Definition fails {A} (e : error) : VM A := throw (Fails e).

Definition fs_of (x : vol) : fs_state := fs (self x).
Definition set_fs (s : fs_state) (x : vol) : vol := Obj (with_fs s (self x)) (st x).

Definition send (m : message) : VM unit := set_fields (fun v => with_sent (sent v ++ [m]) v).

(** ** Statistics *)

Definition stat_persist : VM unit :=
  v <- fields stat ;; call_store (Save (stat_Format v) (stat_json v)).

Definition stat_Load : VM unit :=
  v <- fields stat ;;
  buf <- call_store (Get (stat_Format v)) ;;
  match stat_parse buf v with
  | inr e => fails e
  | inl v => set_fields (with_stat v)
  end.

(** A failure to persist is only logged. *)
Definition AddInUseBytes (delta : Z) : VM unit :=
  set_fields (fun v => with_stat (add_inuse delta (stat v)) v) ;;;
  try stat_persist (fun _ =>
  v <- fields stat ;; send (VolStat v)).

(** ** Eviction *)

(** Methods that lock and unlock wait when the lock was left held. *)
Definition evit_locked {A} (k : EvitManager -> VM A) : VM A :=
  e <- fields evitManager ;; if locked e then throw Blocked else k e.

Definition AddEvitBlock (b : Z * string) : VM unit :=
  evit_locked (fun e => set_fields (with_evit (with_pending (pendingBlocks e ++ [b]) e))).
Fixpoint AddEvitBlocks (l : list (Z * string)) : VM unit :=
  match l with [] => ret tt | b :: r => AddEvitBlock b ;;; AddEvitBlocks r end.

Definition lru_Put (key : Z) (value : string) : VM unit :=
  c <- fields blockLru ;;
  let '(c', evicted) := lru_Add key value c in
  set_fields (with_lru c') ;;; AddEvitBlocks evicted.
Definition RemoveOldest : VM (option (Z * string)) :=
  c <- fields blockLru ;;
  let '(c', evicted, r) := lru_RemoveOldest c in
  set_fields (with_lru c') ;;; AddEvitBlocks evicted ;;; ret r.

(** One firing of the timer of [Loop]. *)
Definition evit_tick : VM unit :=
  evit_locked (fun e =>
  match pendingBlocks e with
  | [] => ret tt
  | (block_id, _) :: rest =>
      set_fields (with_evit (with_pending rest e)) ;;;
      try (on_slot (Free range (to_uint64 block_id))) (fun _ => ret tt)
  end).

Definition Expire2Local (blockID : N) : VM unit :=
  evit_locked (fun e =>
  match find_pending blockID (pendingBlocks e) with
  | None => ret tt
  | Some idx => set_fields (with_evit (with_pending (remove_at idx (pendingBlocks e)) e))
  end).

(** The search compares with the volume's id; without a hit the function returns
    with the lock held. *)
Definition Expire2Remote (blockID : N) : VM bool :=
  evit_locked (fun e =>
  match find_pending (ev_volID e) (pendingBlocks e) with
  | None => set_fields (with_evit (with_locked true e)) ;;; ret false
  | Some idx =>
      set_fields (with_evit (with_pending (remove_at idx (pendingBlocks e)) e)) ;;;
      try (Engine.DeleteBlock Fails fs_of set_fs (NewLocation (ev_volID e) blockID)) (fun r =>
      match r with
      | inr _ => ret false
      | inl _ => try (on_slot (Free range blockID)) (fun _ => ret true)
      end)
  end).

Definition evit_Shutdown : VM unit :=
  evit_locked (fun e => call_store (Save (evit_Format e) (pending_json (pendingBlocks e)))).

(** ** Blocks *)

Definition getLocation (v : LocalPhysicalVolume) (index : N) : Location := NewLocation (id v) index.

(** [HashReadable] of a header. *)
Definition HashReadable (h : Header) : string := hex (Checksum h).

(** The callback hands its header out: it is the one the engine read. *)
Definition ReadBlock (hash : string) : VM (list byte * option Header) :=
  try (on_slot (GetSlot hash)) (fun r =>
  match r with
  | inr e => fails (Wrapped e)
  | inl index =>
      v <- fields Datatypes.id ;;
      if negb (Occupied index (slot v)) then fails (ErrOther "block is not occupied") else
      s <- gets fs_of ;;
      let header := match read_block s (ToAbs (getLocation v index)) with Ok p => Some p.1 | _ => None end in
      data <- GetBlockDataCb Fails fs_of (getLocation v index) (Some (fun h =>
        Expire2Local (Index h) ;;;
        lru_Put (to_int (Index h)) (HashReadable h))) ;;
      ret (data, header)
  end).

(** Wait for a slot: evict one block, or sleep and look again. *)
Fixpoint wait_slot (n : nat) : VM unit :=
  v <- fields slot ;;
  if negb (Remains v =? 0) then ret tt else
  match n with
  | O => throw Blocked
  | Datatypes.S n =>
      r <- RemoveOldest ;;
      match r with
      | Some (k, _) => Expire2Remote (to_uint64 k) ;;; ret tt
      | None => wait_slot n
      end
  end.
Definition nextFreeSlot : VM N :=
  wait_slot fuel ;;;
  v <- fields slot ;;
  match Next fuel v with Some i => ret i | None => throw Blocked end.

Definition occupyNextFreeSlot (hash : string) : VM N :=
  i <- nextFreeSlot ;; on_slot (Occupy i hash) ;;; ret i.

(** The event of a written block; [now] is the time of the call. *)
Definition written_event (now : Z) (v : LocalPhysicalVolume) (container : DataContainer) : BlockMetaEvent :=
  mkEvent (id v) (hex (c_Hash container)) (N.of_nat (length (c_Data container))) (c_Index container)
    (c_Crc container) BlockMetaEvent_Add BlockState_LOCAL now.

(** The deferred function frees the slot when the write failed and reports the
    block otherwise. *)
Definition WriteBlock (now : Z) (container : DataContainer) : VM string :=
  let encodedHash := hex (c_Hash container) in
  v <- fields Datatypes.id ;;
  let f := send (BlockMeta (written_event now v container) true) in
  try (on_slot (GetSlot encodedHash)) (fun r =>
  match r with
  | inl _ => f ;;; fails ErrBlockExisted
  | inr _ =>
      i <- occupyNextFreeSlot encodedHash ;;
      try (Engine.WriteBlock Fails fs_of set_fs (NewLocation (id v) i) container ;;;
           Expire2Local i ;;;
           lru_Put (to_int i) encodedHash ;;;
           AddInUseBytes (Z.of_nat (length (c_Data container))) ;;;
           ret encodedHash) (fun r =>
      match r with
      | inl blockID => f ;;; ret blockID
      | inr err =>
          try (on_slot (Free range i)) (fun r2 =>
          match r2 with
          | inr err2 => if bool_decide (err2 = ErrSlotEmpty) then fails err else fails err2
          | inl _ => fails err
          end)
      end)
  end).

(** An unknown hash leaves the slot number at 0. *)
Definition RemoveLocal (hash : string) : VM unit :=
  v <- fields Datatypes.id ;;
  try (on_slot (GetSlot hash)) (fun r =>
  match r with
  | inl i => try (on_slot (Free range i)) (fun _ =>
             Engine.DeleteBlock Fails fs_of set_fs (NewLocation (id v) i))
  | inr _ => Engine.DeleteBlock Fails fs_of set_fs (NewLocation (id v) 0)
  end).

Definition deleted_event (v : LocalPhysicalVolume) (hash : string) : BlockMetaEvent :=
  mkEvent (id v) hash 0 0 0 BlockMetaEvent_Delete BlockState_LOCAL 0.

(** Likewise: the block in slot 0 goes when the hash is unknown. *)
Fixpoint CleanInvalidBlock (invalidBlocks : list string) : VM bool :=
  match invalidBlocks with
  | [] => ret true
  | hash :: rest =>
      v <- fields Datatypes.id ;;
      try (on_slot (GetSlot hash)) (fun r =>
      let i := match r with inl i => i | inr _ => 0 end in
      try (Engine.DeleteBlock Fails fs_of set_fs (getLocation v i)) (fun _ =>
      send (BlockMeta (deleted_event v hash) false) ;;;
      try (on_slot (Free range i)) (fun _ => CleanInvalidBlock rest)))
  end.

Definition vol_CancelBlock (index : N) : VM N :=
  v <- fields Datatypes.id ;;
  Engine.CancelBlock Fails fs_of set_fs (getLocation v index) ;;; go_panic.

Definition vol_GetCap : VM N := fields (fun v => GetCap (stat v)).
Definition CalculateUsage : VM N := fields (fun v => InuseBytes (stat v)).
Definition GetFreeBlockCnt : VM N := fields (fun v => Remains (slot v)).
Definition GetTotalBlockCnt : VM N := fields (fun v => Slot.Size (slot v)).
Definition ExpireBlock (index : N) : VM unit := Expire2Local index.
Definition GetExpiredBlocks : VM (list (Z * string)) := evit_locked (fun e => ret (pendingBlocks e)).

Definition syncState : VM unit := on_slot PersistState ;;; stat_persist.

(** [Shutdown] drops its errors. *)
Definition vol_Shutdown : VM unit := try (syncState ;;; evit_Shutdown) (fun _ => ret tt).

(** ** Opening a volume *)

(** The fields of [Config] a volume uses; the engine is opened on [disk]. *)
Record Config := mkConfig {
  Id : N;
  cfg_Quota : option Z;
  cfg_BlockSize : option Z;
  cfg_Threhold : option float64 }.

Definition PhysicalVolumeSize : Z := 40 * 2 ^ 30.
Definition block_Size : Z := 512 * 2 ^ 10.
Definition DefaultThrehold : float64 := binary_normalize 53 1024 3 (-2) false.

Definition slotCap (cfg : Config) : Z :=
  let threhold := default DefaultThrehold (cfg_Threhold cfg) in
  let quota := default PhysicalVolumeSize (cfg_Quota cfg) in
  let blockSize := default block_Size (cfg_BlockSize cfg) in
  float_to_Z (float_div (float_mul threhold (float_of quota)) (float_of blockSize)).

(** The pending blocks of the last shutdown; what cannot be read is ignored. *)
Definition NewEvitManager (volID : N) : M S error EvitManager :=
  let em := mkEvit volID [] false in
  r <-? Get (evit_Format em) ;;
  ret (match r with
       | inl (BArr l) => match pending_parse l with inl p => with_pending p em | inr _ => em end
       | _ => em
       end).

(** The statistics of the last run replace the initial ones where they can be
    loaded, and are announced. *)
Definition newVolumeStatistics (volID : N) (quota : Z) (threhold : float64) : VM unit :=
  set_fields (with_stat (mkStat volID quota threhold 0)) ;;;
  try stat_Load (fun _ => x <- fields stat ;; send (VolStat x)).

Definition NewLocalPhysicalVolume (cfg : Config) (disk : fs_state) (store : S) : outcome fault unit * option vol :=
  let threhold := default DefaultThrehold (cfg_Threhold cfg) in
  let quota := default PhysicalVolumeSize (cfg_Quota cfg) in
  let sl := NewSlot range_hash (Id cfg) (to_uint64 (slotCap cfg)) store in
  match NewEvitManager (Id cfg) (st sl) with
  | (Ok em, s) =>
      match lru_New (slotCap cfg) with
      | None => (Err (Fails (ErrOther "must provide a positive size")), None)
      | Some c =>
          let v := mkVolume (Id cfg) (mkStat 0 0 (S754_zero false) 0) (self sl) disk c em [] in
          match newVolumeStatistics (Id cfg) quota threhold (Obj v s) with
          | (Ok _, x) => (Ok tt, Some x)
          | (r, _) => (r, None)
          end
      end
  | (Err e, _) => (Err (Fails e), None)
  | (Panic, _) => (Panic, None)
  end.
End volume.
