(* ===== verification/VolumeProps.v ===== *)
(** What a physical volume promises: [vol_inv] relates the fields of a volume and
    the store to the blocks it holds by slot, and the theorems say what writing,
    reading and removing a block do to them. *)
From Stdlib Require Import Ascii Strings.Byte NArith SpecFloat Lia.
From stdpp Require Import prelude gmap strings list fin_maps.
From S2P Require Import Prelude Store Badger StoreProps Attr MetaStore Hash Block Engine Slot Volume.
Open Scope N_scope.

#[local] Opaque sha256 crc32.

(** The hash under which each slot is taken. *)
Definition hashes (em : gmap N DataContainer) : gmap N string := (fun c => hex (c_Hash c)) <$> em.

(** The block a hash names. *)
Definition block_of (em : gmap N DataContainer) (h : string) (o : N) (c : DataContainer) : Prop :=
  em !! o = Some c /\ hex (c_Hash c) = h.

Lemma hashes_lookup em o h : hashes em !! o = Some h <-> exists c, block_of em h o c.
Proof. unfold hashes, block_of. rewrite lookup_fmap, fmap_Some. naive_solver. Qed.

Section volume_props.
Context {B : Badger} `{!BadgerSpec B} {F : Fs} `{!FsSpec F} {L : Lru} `{BitmapCodec}.
Context (range : gmap string N -> list (string * N)).
Context (range_perm : forall m, range m ≡ₚ map_to_list m).

Abbreviation volume := (LocalPhysicalVolume (F := F) (L := L)).
Abbreviation vstate := (object volume (BadgerStore B)).

(** The volume holds the blocks [em]. *)
Record vol_inv (v : volume) (m : gmap string blob) (em : gmap N DataContainer) : Prop := {
  vi_slot : slot_inv (slot v) m (hashes em);
  vi_id : volID (slot v) = id v;
  vi_cap : cap (slot v) <= 2 ^ 63;
  vi_files : holds_files (fs v) em;
  vi_evit : locked (evitManager v) = false;
}.

(** ** Frames *)

(** The keys a volume writes. *)
Definition vol_owned (vol : N) (k : string) : Prop :=
  slot_owned vol k \/ k = ("vol_stat/" +:+ itoa vol)%string.

Lemma vi_frame v m m' em :
  (forall k, slot_owned (id v) k -> m' !! k = m !! k) -> vol_inv v m em -> vol_inv v m' em.
Proof.
  intros Hf [[Hm Hs] Hid Hc Hfi He]. split; [|done..]. split; [done|].
  rewrite Hid in *. by eapply ss_frame.
Qed.

Lemma vi_ext v v' m em :
  vol_inv v m em -> slot v' = slot v -> id v' = id v -> fs v' = fs v -> locked (evitManager v') = false ->
  vol_inv v' m em.
Proof. intros [] Hs Hi Hf He. split; [by rewrite Hs | by rewrite Hs, Hi | by rewrite Hs | by rewrite Hf | done]. Qed.

Lemma stat_key_not_owned vol vol' : ~ slot_owned vol ("vol_stat/" +:+ itoa vol')%string.
Proof. intros [E|E]; [discriminate E|]. by cbn in E. Qed.

(** ** Runs of the parts *)

Lemma on_slot_run {A} (m : M (object Slot (BadgerStore B)) error A) (v : volume) s r sl' s' :
  m (Obj (slot v) s) = (r, Obj sl' s') -> on_slot m (Obj v s) = (lift_outcome r, Obj (with_slot sl' v) s').
Proof. intros E. unfold on_slot. cbn [self st]. by rewrite E. Qed.

Lemma try_ok {A C} (m : M vstate fault A) (k : A + error -> M vstate fault C) x a y :
  m x = (Ok a, y) -> try m k x = k (inl a) y.
Proof. intros E. unfold try. by rewrite E. Qed.
Lemma try_fails {A C} (m : M vstate fault A) (k : A + error -> M vstate fault C) x e y :
  m x = (Err (Fails e), y) -> try m k x = k (inr e) y.
Proof. intros E. unfold try. by rewrite E. Qed.
Lemma try_blocked {A C} (m : M vstate fault A) (k : A + error -> M vstate fault C) x y :
  m x = (Err Blocked, y) -> try m k x = (Err Blocked, y).
Proof. intros E. unfold try. by rewrite E. Qed.

Lemma evit_locked_run {A} (k : EvitManager -> M vstate fault A) v s :
  locked (evitManager v) = false -> evit_locked k (Obj v s) = k (evitManager v) (Obj v s).
Proof. intros E. unfold evit_locked. rewrite bind_fields. by rewrite E. Qed.

Lemma AddEvitBlocks_run l (v : volume) (s : BadgerStore B) :
  locked (evitManager v) = false ->
  AddEvitBlocks l (Obj v s) =
  (Ok tt, Obj (with_evit (with_pending (pendingBlocks (evitManager v) ++ l) (evitManager v)) v) s).
Proof.
  revert v. induction l as [|b l IH]; intros v Hl.
  - cbn. rewrite app_nil_r. by destruct v as [? ? ? ? ? []].
  - cbn [AddEvitBlocks]. erewrite bind_ok by (unfold AddEvitBlock; by rewrite evit_locked_run).
    rewrite IH by done. cbn [self st evitManager with_evit with_pending pendingBlocks ev_volID locked].
    by rewrite <- app_assoc.
Qed.

Lemma lru_Put_run k h (v : volume) (s : BadgerStore B) :
  locked (evitManager v) = false ->
  exists c e, lru_Put k h (Obj v s) = (Ok tt, Obj (with_evit e (with_lru c v)) s) /\ locked e = false.
Proof.
  intros Hl. unfold lru_Put. rewrite bind_fields. destruct (lru_Add k h (blockLru v)) as [c l].
  rewrite bind_set_fields, AddEvitBlocks_run by done. by eexists _, _.
Qed.

Lemma Expire2Local_run o (v : volume) (s : BadgerStore B) :
  locked (evitManager v) = false ->
  exists e, Expire2Local o (Obj v s) = (Ok tt, Obj (with_evit e v) s) /\ locked e = false.
Proof.
  intros Hl. unfold Expire2Local. rewrite evit_locked_run by done.
  destruct (find_pending _ _) as [i|]; [by eexists|]. exists (evitManager v). by destruct v.
Qed.

Lemma AddInUseBytes_run d (v : volume) (s : BadgerStore B) :
  let vs := add_inuse d (stat v) in
  exists s', AddInUseBytes d (Obj v s) = (Ok tt, Obj (with_sent (sent v ++ [VolStat vs]) (with_stat vs v)) s') /\
    sees s' = map_upd (stat_Format vs, Some (stat_json vs)) (sees s).
Proof.
  intros vs. destruct (Save_any (stat_Format vs) (stat_json vs) s ltac:(done)) as (s' & Hrun & Hs').
  exists s'. split; [|done]. unfold AddInUseBytes. rewrite bind_set_fields. fold vs.
  erewrite try_ok; [|unfold stat_persist; rewrite bind_fields; unfold call_store; cbn [st self with_stat stat]; by rewrite Hrun].
  by rewrite bind_fields.
Qed.

(** ** Writing a block *)

Lemma with_fs_get (f : fs_state) (x : vstate) : fs_of (set_fs f x) = f.
Proof. done. Qed.
Lemma with_fs_set (f f' : fs_state) (x : vstate) : set_fs f (set_fs f' x) = set_fs f x.
Proof. done. Qed.

Lemma GetSlot_known v m em h o c s :
  vol_inv v m em -> block_of em h o c ->
  on_slot (GetSlot h) (Obj v s : vstate) = (Ok o, Obj v s).
Proof.
  intros Hv Hb. erewrite (on_slot_run (GetSlot h) v s (Ok o) (slot v) s).
  - cbn [lift_outcome]. by destruct v.
  - eapply GetSlot_run; [apply (vi_slot _ _ _ Hv)|]. apply hashes_lookup. eauto.
Qed.

Lemma GetSlot_unknown v m em h s :
  vol_inv v m em -> (forall o c, ~ block_of em h o c) ->
  on_slot (GetSlot h) (Obj v s : vstate) = (Err (Fails ErrSlotEmpty), Obj v s).
Proof.
  intros Hv Hb. erewrite (on_slot_run (GetSlot h) v s (Err ErrSlotEmpty) (slot v) s).
  - cbn [lift_outcome]. by destruct v.
  - unfold GetSlot. rewrite bind_fields. cbn [Datatypes.id]. destruct (hashPairs (slot v) !! h) as [o|] eqn:E; [|done].
    exfalso. apply (ms_pairs _ _ (proj1 (vi_slot _ _ _ Hv))), hashes_lookup in E as (c & Hc). by eapply Hb.
Qed.

Lemma occupyNextFreeSlot_run n v (s : BadgerStore B) em h :
  vol_inv v (sees s) em -> Remains (slot v) <> 0 -> (forall o c, ~ block_of em h o c) ->
  exists o s', occupyNextFreeSlot range (S n) h (Obj v s) = (Ok o, Obj (with_slot (occupied o h (slot v)) v) s') /\
    o < cap (slot v) /\ em !! o = None /\
    slot_inv (occupied o h (slot v)) (sees s') (<[o := h]> (hashes em)) /\
    (forall k, ~ slot_owned (id v) k -> sees s' !! k = sees s !! k).
Proof.
  intros Hv Hr Hh. destruct (vi_slot _ _ _ Hv) as [Hm Hs].
  destruct (proj1 (Next_run _ _ Hm) Hr n) as (o & Hn & Ho & Hfree & _).
  assert (Hem : hashes em !! o = None).
  { apply not_elem_of_dom. rewrite <- (ms_bits _ _ Hm). by apply bool_decide_eq_false in Hfree. }
  destruct (Occupy_free (slot v) s (hashes em) o h (conj Hm Hs)) as (s' & Hrun & Hinv & Hfr); [|done..|].
  { intros o' [c Hc]%hashes_lookup. by eapply Hh. }
  exists o, s'. rewrite (vi_id _ _ _ Hv) in Hfr. split_and!; [|done| |done|done].
  - unfold occupyNextFreeSlot. erewrite bind_ok; [|unfold nextFreeSlot; erewrite bind_ok].
    + erewrite bind_ok; [done|]. by rewrite (on_slot_run _ _ _ _ _ _ Hrun).
    + rewrite bind_fields, Hn. done.
    + cbn [wait_slot]. rewrite bind_fields. by rewrite (proj2 (N.eqb_neq _ _) Hr).
  - unfold hashes in Hem. rewrite lookup_fmap in Hem. by destruct (em !! o).
Qed.

(** A write to a volume with a free slot and without the block. *)
Lemma WriteBlock_free n now v (s : BadgerStore B) em c :
  vol_inv v (sees s) em -> storable c -> Remains (slot v) <> 0 ->
  (forall o c', ~ block_of em (hex (c_Hash c)) o c') ->
  exists o v' s',
    Volume.WriteBlock range (S n) now c (Obj v s) = (Ok (hex (c_Hash c)), Obj v' s') /\
    em !! o = None /\ vol_inv v' (sees s') (<[o := c]> em) /\ id v' = id v /\ cap (slot v') = cap (slot v) /\
    stat v' = add_inuse (Z.of_nat (length (c_Data c))) (stat v) /\
    sent v' = sent v ++ [VolStat (stat v'); BlockMeta (written_event now v c) true] /\
    (forall k, ~ slot_owned (id v) k -> k <> stat_Format (stat v) -> sees s' !! k = sees s !! k).
Proof.
  intros Hv Hc Hr Hh. set (h := hex (c_Hash c)) in *.
  destruct (occupyNextFreeSlot_run n v s em h Hv Hr Hh) as (o & s1 & Hocc & Ho & Hem & Hinv & Hfr).
  set (v1 := with_slot (occupied o h (slot v)) v) in *.
  assert (Ho63 : o < 2 ^ 63) by (pose proof (vi_cap _ _ _ Hv); lia).
  pose proof (WriteBlock_run Fails fs_of set_fs with_fs_get with_fs_set (Obj v1 s1) em (id v) o c
    (vi_files _ _ _ Hv) Hc Ho63) as Hw. rewrite Hem in Hw. destruct Hw as (f & Hw & Hf).
  set (v2 := with_fs f v1) in *. change (set_fs f (Obj v1 s1)) with (Obj v2 s1) in Hw.
  destruct (Expire2Local_run o v2 s1 (vi_evit _ _ _ Hv)) as (e1 & Hex & He1).
  destruct (lru_Put_run (to_int o) h (with_evit e1 v2) s1 He1) as (l & e2 & Hput & He2).
  set (v3 := with_evit e2 (with_lru l (with_evit e1 v2))) in *.
  destruct (AddInUseBytes_run (Z.of_nat (length (c_Data c))) v3 s1) as (s4 & Hadd & Hs4).
  set (vs := add_inuse _ _) in *.
  exists o, (with_sent (sent v ++ [VolStat vs; BlockMeta (written_event now v c) true]) (with_stat vs v3)), s4.
  split_and!; [|done| |done|done|done|done|].
  - unfold Volume.WriteBlock. rewrite bind_fields. cbn [Datatypes.id]. fold h.
    rewrite (try_fails _ _ _ _ _ (GetSlot_unknown v _ em h s Hv Hh)).
    rewrite (bind_ok _ _ _ _ _ Hocc). erewrite try_ok.
    2:{ rewrite (bind_ok _ _ _ _ _ Hw), (bind_ok _ _ _ _ _ Hex), (bind_ok _ _ _ _ _ Hput).
        by rewrite (bind_ok _ _ _ _ _ Hadd). }
    cbn [sent with_stat with_evit with_lru v3 v2 v1 with_fs with_slot].
    unfold send. rewrite bind_set_fields. cbn [sent with_sent]. by rewrite <- app_assoc.
  - apply (vi_frame _ (sees s1)).
    { intros k Hk. rewrite Hs4, lookup_map_upd. cbn [fst snd]. rewrite decide_False; [done|].
      intros <-. by apply stat_key_not_owned in Hk. }
    split; cbn; [|by rewrite (vi_id _ _ _ Hv)|by apply (vi_cap _ _ _ Hv)|done|done].
    unfold hashes. rewrite fmap_insert. exact Hinv.
  - intros k Hk Hst. rewrite Hs4, lookup_map_upd. cbn [fst snd]. rewrite decide_False by (intros <-; by apply Hst).
    by apply Hfr.
Qed.

(** A block whose hash is paired with a slot is refused. *)
Lemma WriteBlock_paired n now v (s : BadgerStore B) c o :
  hashPairs (slot v) !! hex (c_Hash c) = Some o ->
  Volume.WriteBlock range n now c (Obj v s) =
  (Err (Fails ErrBlockExisted), Obj (with_sent (sent v ++ [BlockMeta (written_event now v c) true]) v) s).
Proof.
  intros Ho. assert (Hg : on_slot (GetSlot (hex (c_Hash c))) (Obj v s : vstate) = (Ok o, Obj v s)).
  { erewrite (on_slot_run (GetSlot (hex (c_Hash c))) v s (Ok o) (slot v) s); [by destruct v|].
    unfold GetSlot. rewrite bind_fields. cbn [Datatypes.id]. by rewrite Ho. }
  unfold Volume.WriteBlock. rewrite bind_fields. cbn [Datatypes.id]. by rewrite (try_ok _ _ _ _ _ Hg).
Qed.

Lemma paired v m em h o c : vol_inv v m em -> block_of em h o c -> hashPairs (slot v) !! h = Some o.
Proof.
  intros Hv Hb. apply (ms_pairs _ _ (proj1 (vi_slot _ _ _ Hv))). apply hashes_lookup. eauto.
Qed.

Lemma WriteBlock_known n now v (s : BadgerStore B) em c o c' :
  vol_inv v (sees s) em -> block_of em (hex (c_Hash c)) o c' ->
  Volume.WriteBlock range n now c (Obj v s) =
  (Err (Fails ErrBlockExisted), Obj (with_sent (sent v ++ [BlockMeta (written_event now v c) true]) v) s).
Proof. intros Hv Hb. eapply WriteBlock_paired, paired; eauto. Qed.

(** ** Reading a block *)

Lemma read_block_known v m em o c :
  vol_inv v m em -> em !! o = Some c ->
  Occupied o (slot v) = true /\ read_block (fs v) (ToAbs (getLocation v o)) = Ok (header_of c, c_Data c).
Proof.
  intros Hv Ho. destruct (hf_ok _ _ (vi_files _ _ _ Hv) _ _ Ho) as [_ Ho63]. split.
  - apply bool_decide_eq_true. rewrite (ms_bits _ _ (proj1 (vi_slot _ _ _ Hv))), elem_of_dom.
    exists (hex (c_Hash c)). apply hashes_lookup. by exists c.
  - unfold getLocation. rewrite ToAbs_small, (read_block_run _ em) by (done || apply Hv). by rewrite Ho.
Qed.

Lemma ReadBlock_known v (s : BadgerStore B) em h o c :
  vol_inv v (sees s) em -> block_of em h o c ->
  exists v', ReadBlock h (Obj v s) = (Ok (c_Data c, Some (header_of c)), Obj v' s) /\
    vol_inv v' (sees s) em /\ id v' = id v /\ stat v' = stat v /\ sent v' = sent v /\ slot v' = slot v.
Proof.
  intros Hv Hb. destruct (read_block_known v _ em o c Hv (proj1 Hb)) as [Hocc Hread].
  destruct (Expire2Local_run (c_Index c) v s (vi_evit _ _ _ Hv)) as (e1 & Hex & He1).
  destruct (lru_Put_run (to_int (c_Index c)) (hex (c_Hash c)) (with_evit e1 v) s He1) as (l & e2 & Hput & He2).
  eexists. split.
  - unfold ReadBlock. rewrite (try_ok _ _ _ _ _ (GetSlot_known v _ em h o c s Hv Hb)).
    rewrite bind_fields. cbn [Datatypes.id]. rewrite Hocc. cbn [negb]. unfold bind at 1, gets, fs_of. cbn [self].
    rewrite Hread. unfold GetBlockDataCb. unfold bind at 1, bind at 1, gets. unfold bind at 1, raise. cbn [self].
    rewrite Hread. cbn [fst snd]. unfold bind at 1.
    unfold bind at 1. cbn [Index header_of]. rewrite Hex. unfold HashReadable. cbn [Checksum header_of]. rewrite Hput. done.
  - split_and!; [|done..]. by eapply vi_ext.
Qed.

Lemma ReadBlock_unknown v (s : BadgerStore B) em h :
  vol_inv v (sees s) em -> (forall o c, ~ block_of em h o c) ->
  ReadBlock h (Obj v s) = (Err (Fails (Wrapped ErrSlotEmpty)), Obj v s).
Proof.
  intros Hv Hb. unfold ReadBlock. by rewrite (try_fails _ _ _ _ _ (GetSlot_unknown v _ em h s Hv Hb)).
Qed.

(** ** A full volume *)

Lemma find_pending_none id l : Forall (fun p => to_uint64 p.1 <> id) l -> find_pending id l = None.
Proof.
  intros Hl. unfold find_pending. destruct (list_find _ l) as [[i p]|] eqn:E; [|done].
  apply list_find_Some in E as (Hi & Hp & _). rewrite Forall_forall in Hl.
  exfalso. eapply Hl; [by eapply list_elem_of_lookup_2 | done].
Qed.

(** The first round evicts nothing and leaves the lock held; the search for a
    slot then goes on for ever. *)
Lemma WriteBlock_full n now v (s : BadgerStore B) em c l' evicted k hk :
  vol_inv v (sees s) em -> Remains (slot v) = 0 -> (forall o c', ~ block_of em (hex (c_Hash c)) o c') ->
  lru_RemoveOldest (blockLru v) = (l', evicted, Some (k, hk)) ->
  Forall (fun p => to_uint64 p.1 <> ev_volID (evitManager v)) (pendingBlocks (evitManager v) ++ evicted) ->
  exists v', Volume.WriteBlock range (S n) now c (Obj v s) = (Err Blocked, Obj v' s) /\
    locked (evitManager v') = true /\ slot v' = slot v /\ fs v' = fs v /\ id v' = id v.
Proof.
  intros Hv Hr Hh Hlru Hp. eexists. split.
  - unfold Volume.WriteBlock. rewrite bind_fields. cbn [Datatypes.id].
    rewrite (try_fails _ _ _ _ _ (GetSlot_unknown v _ em _ s Hv Hh)).
    apply bind_err. unfold occupyNextFreeSlot. apply bind_err. unfold nextFreeSlot.
    erewrite bind_ok.
    2:{ cbn [wait_slot]. rewrite bind_fields, Hr. cbn [N.eqb negb].
        erewrite bind_ok.
        2:{ unfold RemoveOldest. rewrite bind_fields, Hlru, bind_set_fields.
            erewrite bind_ok by (apply AddEvitBlocks_run; apply (vi_evit _ _ _ Hv)). done. }
        cbn [fst snd]. erewrite bind_ok; [done|]. unfold Expire2Remote. rewrite evit_locked_run by apply (vi_evit _ _ _ Hv).
        cbn [evitManager with_evit with_pending with_lru pendingBlocks ev_volID].
        rewrite (find_pending_none _ _ Hp). rewrite bind_set_fields. done. }
    rewrite bind_fields. cbn [slot with_evit with_lru].
    by rewrite (proj2 (Next_run _ _ (proj1 (vi_slot _ _ _ Hv))) Hr).
  - done.
Qed.

Lemma ReadBlock_locked v (s : BadgerStore B) em h o c v0 :
  vol_inv v0 (sees s) em -> slot v = slot v0 -> fs v = fs v0 -> id v = id v0 ->
  locked (evitManager v) = true -> block_of em h o c -> (ReadBlock h (Obj v s)).1 = Err Blocked.
Proof.
  intros Hv Hs Hf Hi Hl Hb. destruct (read_block_known v0 _ em o c Hv (proj1 Hb)) as [Hocc Hread].
  assert (Hg : on_slot (GetSlot h) (Obj v s : vstate) = (Ok o, Obj v s)).
  { erewrite (on_slot_run (GetSlot h) v s (Ok o) (slot v) s); [cbn; by destruct v|]. rewrite Hs.
    eapply GetSlot_run; [apply (vi_slot _ _ _ Hv)|]. apply hashes_lookup. eauto. }
  unfold ReadBlock. rewrite (try_ok _ _ _ _ _ Hg), bind_fields. cbn [Datatypes.id]. rewrite Hs, Hocc. cbn [negb].
  unfold getLocation in *. rewrite Hi. unfold GetBlockDataCb, fs_of, bind, gets, raise. cbn [self]. rewrite Hf, Hread.
  cbn [fst snd Index header_of]. unfold Expire2Local, evit_locked. unfold bind, fields, gets. cbn [self]. by rewrite Hl.
Qed.

(** ** Removing a block *)

Lemma Free_slot_run v (s : BadgerStore B) em o c :
  vol_inv v (sees s) em -> em !! o = Some c ->
  exists s', on_slot (Free range o) (Obj v s : vstate) =
    (Ok (hex (c_Hash c)), Obj (with_slot (with_bits (bits (slot v) ∖ {[o]}) (slot v)) v) s').
Proof.
  intros Hv Ho. assert (Hh : hashes em !! o = Some (hex (c_Hash c))) by (unfold hashes; by rewrite lookup_fmap, Ho).
  destruct (Free_run range (slot v) s _ o _ range_perm (proj1 (vi_slot _ _ _ Hv)) Hh) as (s' & Hrun & _).
  exists s'. by rewrite (on_slot_run _ _ _ _ _ _ Hrun).
Qed.

Lemma DeleteBlock_known v m (s : BadgerStore B) em o c u :
  vol_inv v m em -> em !! o = Some c -> fs u = fs v ->
  exists f, Engine.DeleteBlock Fails fs_of set_fs (NewLocation (id v) o) (Obj u s : vstate) =
    (Ok tt, Obj (with_fs f u) s) /\ holds_files f (delete o em).
Proof.
  intros Hv Ho Hu. destruct (hf_ok _ _ (vi_files _ _ _ Hv) _ _ Ho) as [_ Ho63].
  assert (Hf : holds_files (fs_of (Obj u s)) em) by (unfold fs_of; cbn; rewrite Hu; apply (vi_files _ _ _ Hv)).
  pose proof (DeleteBlock_run Fails fs_of set_fs (Obj u s) em (id v) o Hf Ho63) as Hd. by rewrite Ho in Hd.
Qed.

Lemma RemoveLocal_known v (s : BadgerStore B) em h o c :
  vol_inv v (sees s) em -> block_of em h o c ->
  exists f s', let v' := with_fs f (with_slot (with_bits (bits (slot v) ∖ {[o]}) (slot v)) v) in
    RemoveLocal range h (Obj v s) = (Ok tt, Obj v' s') /\ holds_files f (delete o em).
Proof.
  intros Hv Hb. destruct (Free_slot_run v s em o c Hv (proj1 Hb)) as (s' & Hfree).
  set (u := with_slot (with_bits (bits (slot v) ∖ {[o]}) (slot v)) v) in *.
  destruct (DeleteBlock_known v _ s' em o c u Hv (proj1 Hb) eq_refl) as (f & Hdel & Hf).
  exists f, s'. split; [|done]. unfold RemoveLocal. rewrite bind_fields. cbn [Datatypes.id].
  rewrite (try_ok _ _ _ _ _ (GetSlot_known v _ em h o c s Hv Hb)), (try_ok _ _ _ _ _ Hfree). exact Hdel.
Qed.

Lemma CleanInvalidBlock_unknown v (s : BadgerStore B) em h c :
  vol_inv v (sees s) em -> (forall o c, ~ block_of em h o c) -> em !! 0 = Some c ->
  exists f s', let v' := with_slot (with_bits (bits (slot v) ∖ {[0]}) (slot v))
      (with_sent (sent v ++ [BlockMeta (deleted_event v h) false]) (with_fs f v)) in
    CleanInvalidBlock range [h] (Obj v s) = (Ok true, Obj v' s') /\ holds_files f (delete 0 em).
Proof.
  intros Hv Hh H0. destruct (DeleteBlock_known v _ s em 0 c v Hv H0 eq_refl) as (f & Hdel & Hf).
  set (u := with_sent (sent v ++ [BlockMeta (deleted_event v h) false]) (with_fs f v)).
  assert (Hh0 : hashes em !! 0 = Some (hex (c_Hash c))) by (unfold hashes; by rewrite lookup_fmap, H0).
  destruct (Free_run range (slot v) s _ 0 _ range_perm (proj1 (vi_slot _ _ _ Hv)) Hh0) as (s' & Hrun & _).
  exists f, s'. split; [|done]. cbn [CleanInvalidBlock]. rewrite bind_fields. cbn [Datatypes.id].
  rewrite (try_fails _ _ _ _ _ (GetSlot_unknown v _ em h s Hv Hh)). unfold getLocation.
  rewrite (try_ok _ _ _ _ _ Hdel). unfold send. rewrite bind_set_fields.
  change (with_sent (sent (with_fs f v) ++ [BlockMeta (deleted_event v h) false]) (with_fs f v)) with u.
  erewrite try_ok by (exact (on_slot_run _ u _ _ _ _ Hrun)). done.
Qed.

Lemma ReadBlock_freed v u (s : BadgerStore B) em h o c :
  mem_slots (slot v) (hashes em) -> block_of em h o c ->
  slot u = with_bits (bits (slot v) ∖ {[o]}) (slot v) ->
  ReadBlock h (Obj u s) = (Err (Fails (ErrOther "block is not occupied")), Obj u s).
Proof.
  intros Hm Hb Hu. assert (Hg : on_slot (GetSlot h) (Obj u s : vstate) = (Ok o, Obj u s)).
  { erewrite (on_slot_run (GetSlot h) u s (Ok o) (slot u) s); [by destruct u|].
    unfold GetSlot. rewrite bind_fields, Hu. cbn [Datatypes.id with_bits hashPairs].
    rewrite (proj2 (ms_pairs _ _ Hm h o)); [done|]. apply hashes_lookup. eauto. }
  unfold ReadBlock. rewrite (try_ok _ _ _ _ _ Hg), bind_fields. cbn [Datatypes.id].
  unfold Occupied. rewrite Hu. cbn [bits with_bits]. rewrite bool_decide_false by set_solver. done.
Qed.

(** * Theorems *)

(** C15 Writing a block: a volume that has a block of the same hash reports it and
    keeps what it holds; a volume with a free slot takes the block, accounts for
    its bytes, announces it, and returns it when it is read. *)
Theorem WriteBlock_stores n now v (s : BadgerStore B) em c :
  vol_inv v (sees s) em -> storable c ->
  (forall o c', block_of em (hex (c_Hash c)) o c' ->
     (Volume.WriteBlock range (S n) now c (Obj v s)).1 = Err (Fails ErrBlockExisted)) /\
  ((forall o c', ~ block_of em (hex (c_Hash c)) o c') -> Remains (slot v) <> 0 ->
     exists o v' s',
       Volume.WriteBlock range (S n) now c (Obj v s) = (Ok (hex (c_Hash c)), Obj v' s') /\
       em !! o = None /\ vol_inv v' (sees s') (<[o := c]> em) /\
       stat v' = add_inuse (Z.of_nat (length (c_Data c))) (stat v) /\
       sent v' = sent v ++ [VolStat (stat v'); BlockMeta (written_event now v c) true] /\
       forall h o' c', block_of (<[o := c]> em) h o' c' ->
         (ReadBlock h (Obj v' s')).1 = Ok (c_Data c', Some (header_of c'))).
Proof.
  intros Hv Hc. split.
  - intros o c' Hb. by rewrite (WriteBlock_known _ _ _ _ _ _ _ _ Hv Hb).
  - intros Hh Hr. destruct (WriteBlock_free n now v s em c Hv Hc Hr Hh)
      as (o & v' & s' & Hrun & Hem & Hv' & _ & _ & Hst & Hsent & _).
    exists o, v', s'. split_and!; [done..|]. intros h o' c' Hb.
    destruct (ReadBlock_known v' s' _ h o' c' Hv' Hb) as (v2 & Hread & _). by rewrite Hread.
Qed.

(** A write to a full volume never returns: the block due for eviction is looked
    up by the volume's id and not found, the lock of the eviction list stays
    held, and the search for a free slot goes on for ever.  Every later read of a
    block of the volume then waits for that lock. *)
Theorem WriteBlock_full_hangs n now v (s : BadgerStore B) em c l' evicted k hk :
  vol_inv v (sees s) em -> Remains (slot v) = 0 -> (forall o c', ~ block_of em (hex (c_Hash c)) o c') ->
  lru_RemoveOldest (blockLru v) = (l', evicted, Some (k, hk)) ->
  Forall (fun p => to_uint64 p.1 <> ev_volID (evitManager v)) (pendingBlocks (evitManager v) ++ evicted) ->
  exists v', Volume.WriteBlock range (S n) now c (Obj v s) = (Err Blocked, Obj v' s) /\
    forall h o c', block_of em h o c' -> (ReadBlock h (Obj v' s)).1 = Err Blocked.
Proof.
  intros Hv Hr Hh Hlru Hp.
  destruct (WriteBlock_full n now v s em c l' evicted k hk Hv Hr Hh Hlru Hp) as (v' & Hrun & Hl & Hs & Hf & Hi).
  exists v'. split; [done|]. intros h o c' Hb. by eapply (ReadBlock_locked v' s em h o c' v).
Qed.

(** Cleaning a block the volume does not have destroys the block in slot 0: its
    file is deleted and its slot freed, and it can no longer be read. *)
Theorem CleanInvalidBlock_destroys_slot0 v (s : BadgerStore B) em h c :
  vol_inv v (sees s) em -> (forall o c, ~ block_of em h o c) -> em !! 0 = Some c ->
  exists v' s', CleanInvalidBlock range [h] (Obj v s) = (Ok true, Obj v' s') /\
    holds_files (fs v') (delete 0 em) /\
    (ReadBlock (hex (c_Hash c)) (Obj v' s')).1 = Err (Fails (ErrOther "block is not occupied")).
Proof.
  intros Hv Hh H0. destruct (CleanInvalidBlock_unknown v s em h c Hv Hh H0) as (f & s' & Hrun & Hf).
  eexists _, s'. split; [exact Hrun|]. split; [done|].
  by rewrite (ReadBlock_freed v _ s' em _ 0 c (proj1 (vi_slot _ _ _ Hv))).
Qed.

(** A block removed from the local disk cannot be brought back: its hash still
    leads to the freed slot, so a new write of the same block is refused as
    existing while reads fail. *)
Theorem RemoveLocal_not_restorable n now v (s : BadgerStore B) em o c :
  vol_inv v (sees s) em -> em !! o = Some c ->
  exists v' s', RemoveLocal range (hex (c_Hash c)) (Obj v s) = (Ok tt, Obj v' s') /\
    (Volume.WriteBlock range n now c (Obj v' s')).1 = Err (Fails ErrBlockExisted) /\
    (ReadBlock (hex (c_Hash c)) (Obj v' s')).1 = Err (Fails (ErrOther "block is not occupied")).
Proof.
  intros Hv Ho. assert (Hb : block_of em (hex (c_Hash c)) o c) by done.
  destruct (RemoveLocal_known v s em _ o c Hv Hb) as (f & s' & Hrun & Hf).
  eexists _, s'. split; [exact Hrun|]. pose proof (proj1 (vi_slot _ _ _ Hv)) as Hm. split.
  - erewrite WriteBlock_paired; [done|]. eapply (paired v); eauto.
  - by rewrite (ReadBlock_freed v _ s' em _ o c Hm Hb).
Qed.
End volume_props.

(** Taking bytes off the account adds them: a negative delta is converted to
    uint64 and subtracted. *)
Theorem add_inuse_negative (v : VolumeStatistics) (d : Z) :
  (0 < d < 2 ^ 63)%Z -> (Z.of_N (InuseBytes v) + d < 2 ^ 64)%Z ->
  InuseBytes (add_inuse (- d) v) = InuseBytes v + Z.to_N d.
Proof.
  intros Hd Hs. unfold add_inuse. rewrite (proj2 (Z.ltb_lt _ _)) by lia. cbn [InuseBytes].
  unfold to_uint64. replace ((- d) mod 2 ^ 64)%Z with (2 ^ 64 - d)%Z.
  2:{ symmetry. rewrite <- (Z.mod_small (2 ^ 64 - d) (2 ^ 64)) by lia.
      replace (- d)%Z with (2 ^ 64 - d + (-1) * 2 ^ 64)%Z by lia. by rewrite Z.mod_add. }
  unfold wrap64. rewrite N.mod_small; lia.
Qed.

(** * Witnesses *)

(** An LRU cache as a list, the most recent entry first. *)
Definition ref_lru_Add (k : Z) (v : string) (c : nat * list (Z * string)) :
    (nat * list (Z * string)) * list (Z * string) :=
  let l := (k, v) :: filter (fun p => p.1 <> k) c.2 in
  if (length l <=? c.1)%nat then ((c.1, l), []) else ((c.1, take c.1 l), drop c.1 l).
Definition ref_lru_RemoveOldest (c : nat * list (Z * string)) :
    (nat * list (Z * string)) * list (Z * string) * option (Z * string) :=
  match last c.2 with
  | None => (c, [], None)
  | Some p => ((c.1, take (length c.2 - 1) c.2), [p], Some p)
  end.

#[export] Instance RefLru : Lru := {|
  lru := nat * list (Z * string);
  lru_New n := if (0 <? n)%Z then Some (Z.to_nat n, []) else None;
  lru_Add := ref_lru_Add;
  lru_RemoveOldest := ref_lru_RemoveOldest;
|}.

(** A new volume with one slot. *)
Definition one_slot : Slot := mkSlot ∅ 1 5 ∅.
Definition volume0 : LocalPhysicalVolume (F := MemFs) :=
  mkVolume 5 (mkStat 5 4096 (float_of 1) 0) one_slot ∅ (1%nat, []) (mkEvit 5 [] false) [].
Definition disk0 : mem_store := MkBadgerStore (B := MemBadger) ∅ None.

Abbreviation seen s := (sees (B := MemBadger) (BadgerSpec0 := MemBadger_spec) s).

Lemma volume0_inv : vol_inv volume0 (seen disk0) ∅.
Proof.
  assert (He : hashes ∅ = ∅) by (unfold hashes; apply fmap_empty).
  split; [|done|done|apply empty_disk|done]. rewrite He. split.
  - split; [by rewrite dom_empty_L | done | intros o h; by rewrite lookup_empty | intros h o; by rewrite !lookup_empty].
  - split; [done | done | by left].
Qed.

Lemma block3_storable : storable block3.
Proof. repeat split; done. Qed.
Lemma no_block h o c : ~ block_of ∅ h o c.
Proof. intros [Hc _]. by rewrite lookup_empty in Hc. Qed.

Lemma WriteBlock_stores_witness :
  exists v' s', Volume.WriteBlock map_to_list 1 0 block3 (Obj volume0 disk0) = (Ok (hex (c_Hash block3)), Obj v' s') /\
    InuseBytes (stat v') = 2.
Proof.
  destruct (WriteBlock_stores (B := MemBadger) (F := MemFs) (L := RefLru) map_to_list 0 0 volume0 disk0 ∅ block3
    volume0_inv block3_storable) as [_ Hw].
  destruct (Hw (no_block _) ltac:(done)) as (o & v' & s' & Hrun & _ & _ & Hst & _).
  exists v', s'. split; [exact Hrun|]. rewrite Hst. by vm_compute.
Defined.

(** The volume after the write: it is full. *)
Definition written : object (LocalPhysicalVolume (F := MemFs)) mem_store :=
  (Volume.WriteBlock map_to_list 1 0 block3 (Obj volume0 disk0)).2.

Lemma written_inv : vol_inv (self written) (seen (st written)) {[0 := block3]}.
Proof.
  destruct (WriteBlock_free (B := MemBadger) (F := MemFs) (L := RefLru) map_to_list 0 0 volume0 disk0 ∅ block3
    volume0_inv block3_storable ltac:(done) (no_block _)) as (o & v' & s' & Hrun & _ & Hv' & _ & Hcap & _).
  unfold written. rewrite Hrun. cbn [snd self st]. rewrite insert_empty in Hv'.
  assert (o < 1) as Ho.
  { change 1 with (cap (slot volume0)). rewrite <- Hcap. eapply (ms_bound _ _ (proj1 (vi_slot _ _ _ Hv'))).
    unfold hashes. by rewrite lookup_fmap, lookup_singleton_eq. }
  by replace o with 0 in Hv' by lia.
Qed.

Definition block4 : DataContainer := mkContainer 4 [x03] (replicate 32 x08) 0.
Lemma block4_absent h o c : h = hex (c_Hash block4) -> ~ block_of {[0 := block3]} h o c.
Proof.
  intros -> [Hc Hh]. apply lookup_singleton_Some in Hc as [_ <-]. apply hex_inj in Hh. done.
Qed.

Lemma WriteBlock_full_hangs_witness :
  exists v', Volume.WriteBlock map_to_list 1 0 block4 written = (Err Blocked, Obj v' (st written)) /\
    (ReadBlock (hex (c_Hash block3)) (Obj v' (st written))).1 = Err Blocked.
Proof.
  destruct (WriteBlock_full_hangs (B := MemBadger) (F := MemFs) (L := RefLru) map_to_list 0 0 (self written)
    (st written) {[0 := block3]} block4 (1%nat, []) [(0%Z, hex (c_Hash block3))] 0 (hex (c_Hash block3))
    written_inv ltac:(by vm_compute) (fun o c => block4_absent _ o c eq_refl) ltac:(by vm_compute)
    ltac:(by repeat constructor)) as (v' & Hrun & Hread).
  exists v'. split.
  - exact Hrun.
  - apply (Hread _ 0 block3). by split.
Defined.

Lemma CleanInvalidBlock_destroys_slot0_witness :
  exists v' s', CleanInvalidBlock map_to_list [hex (c_Hash block4)] written = (Ok true, Obj v' s') /\
    (ReadBlock (hex (c_Hash block3)) (Obj v' s')).1 = Err (Fails (ErrOther "block is not occupied")).
Proof.
  destruct (CleanInvalidBlock_destroys_slot0 (B := MemBadger) (F := MemFs) (L := RefLru) map_to_list ltac:(done)
    (self written) (st written) {[0 := block3]} (hex (c_Hash block4)) block3 written_inv
    (fun o c => block4_absent _ o c eq_refl) eq_refl) as (v' & s' & Hrun & _ & Hread).
  exists v', s'. split; [exact Hrun | exact Hread].
Defined.

Lemma RemoveLocal_not_restorable_witness :
  exists v' s', RemoveLocal map_to_list (hex (c_Hash block3)) written = (Ok tt, Obj v' s') /\
    (Volume.WriteBlock map_to_list 1 0 block3 (Obj v' s')).1 = Err (Fails ErrBlockExisted).
Proof.
  destruct (RemoveLocal_not_restorable (B := MemBadger) (F := MemFs) (L := RefLru) map_to_list ltac:(done)
    1 0 (self written) (st written) {[0 := block3]} 0 block3 written_inv eq_refl) as (v' & s' & Hrun & Hw & _).
  exists v', s'. split; [exact Hrun | exact Hw].
Defined.

Lemma add_inuse_negative_witness :
  InuseBytes (add_inuse (- 100) (mkStat 1 4096 (float_of 1) 500)) = 600.
Proof. apply (add_inuse_negative (mkStat 1 4096 (float_of 1) 500) 100); cbn; lia. Defined.
