(* ===== verification/StorageBackend.v ===== *)
(** The storage a client writes blocks to: block keys
    (src/pkg/storage/adaptor/if.go), the interface StorageBackend
    (storage_backend.go) as a class, and the backend in memory
    (mem_storage_backend.go), which the buffers of cmd/client and the tests use.
    The gateway of Gateway.v is the other instance of the class.  A backend may return
    the array it keeps ([sb_Array]), as the one in memory does. *)
From Stdlib Require Import Ascii Strings.Byte ZArith Lia.
From stdpp Require Import prelude gmap strings list.
From S2P Require Import Prelude Store Hash SlotPool Interval IntervalProps Volume.

(** * Block keys *)

Abbreviation BlockKey := string.

Definition NewBlockKey (ino index : N) : BlockKey := (itoa ino +:+ "," +:+ itoa index)%string.

(** [strings.Cut] at the comma and [strconv.ParseUint] with its error dropped. *)
Definition key_Split (k : BlockKey) : N * N :=
  let '(inoStr, indexStr) := cut ","%char k in (parse_uint64 inoStr, parse_uint64 indexStr).
Definition GetIno (k : BlockKey) : N := parse_uint64 (cut ","%char k).1.
Definition GetIndex (k : BlockKey) : N := parse_uint64 (cut ","%char k).2.

(** * The interface *)

Definition ErrBlockNotFound : error := ErrOther "block not found".
Definition ErrLenNotMatched : error := ErrOther "byte array length not matched".

(** The calls a client makes.  WriteAt gets a pointer to the interval list of the
    block, whose cells it may change.  Read may return a slice of an array that the
    backend keeps: [sb_Array] names it, [sb_Peek] are the bytes the client sees
    through it and [sb_Poke] is the client writing through it.  No name means that
    the bytes are the client's own. *)
Class StorageBackend (T : Type) := {
  sb_Read : BlockKey -> M T fault (list byte);
  sb_Write : BlockKey -> list byte -> M T fault unit;
  sb_WriteAt : BlockKey -> IntervalList -> list byte -> M (T * list Interval) fault unit;
  sb_Delete : N -> M T fault unit;
  sb_Array : T -> BlockKey -> option nat;
  sb_Peek : nat -> T -> list byte;
  sb_Poke : nat -> list byte -> T -> T;
}.

(** The bytes a read returns belong to the caller. *)
Class OwnReads (T : Type) {SB : StorageBackend T} : Prop :=
  own_reads (t : T) k : sb_Array t k = None.

(** A call on one of two states. *)
Definition on_fst {X Y E A} (m : M X E A) : M (X * Y) E A := fun s =>
  let '(r, x) := m s.1 in (r, (x, s.2)).

(** An operation of the interval list. *)
Definition on_list {X A} (m : HM A) : M (X * list Interval) fault A := fun s =>
  let '(r, h) := m s.2 in
  (match r with
   | Ok a => Ok a
   | Err ErrByteArrLenNotmatched => Err (Fails ErrLenNotMatched)
   | Panic => Panic
   end, (s.1, h)).

(** * The backend in memory *)

(** The arrays of the blocks by key, those of deleted blocks, which a client may
    still have, and the number of the next one. *)
Record Arrays := mkArrays {
  array_of : gmap BlockKey nat;
  dropped : gmap nat (list byte);
  next_array : nat }.

Record MemStorageBackend := mkMemStorageBackend {
  mb_blockSize : Z;
  backed : gmap BlockKey (list byte);
  ino2key : gmap N (list BlockKey);
  arrays : Arrays }.

Definition NewMemStorageBackend (blockSize : Z) : MemStorageBackend :=
  mkMemStorageBackend blockSize ∅ ∅ (mkArrays ∅ ∅ 0).

Definition with_backed (x : gmap BlockKey (list byte)) (b : MemStorageBackend) : MemStorageBackend :=
  mkMemStorageBackend (mb_blockSize b) x (ino2key b) (arrays b).
Definition with_ino2key (x : gmap N (list BlockKey)) (b : MemStorageBackend) : MemStorageBackend :=
  mkMemStorageBackend (mb_blockSize b) (backed b) x (arrays b).
Definition with_arrays (x : Arrays) (b : MemStorageBackend) : MemStorageBackend :=
  mkMemStorageBackend (mb_blockSize b) (backed b) (ino2key b) x.

(** The key whose block is in an array. *)
Definition key_of (a : nat) (b : MemStorageBackend) : option BlockKey :=
  (fun x => x.2.1) <$> list_find (fun p => p.2 = a) (map_to_list (array_of (arrays b))).
Definition mem_Peek (a : nat) (b : MemStorageBackend) : list byte :=
  match key_of a b with
  | Some k => default [] (backed b !! k)
  | None => default [] (dropped (arrays b) !! a)
  end.
Definition mem_Poke (a : nat) (d : list byte) (b : MemStorageBackend) : MemStorageBackend :=
  match key_of a b with
  | Some k => with_backed (<[k := d]> (backed b)) b
  | None => with_arrays (mkArrays (array_of (arrays b)) (<[a := d]> (dropped (arrays b))) (next_array (arrays b))) b
  end.
(** A new array for a block, and the block of a key out of the map. *)
Definition add_array (key : BlockKey) (x : Arrays) : Arrays :=
  mkArrays (<[key := next_array x]> (array_of x)) (dropped x) (S (next_array x)).
Definition drop_block (key : BlockKey) (b : MemStorageBackend) : MemStorageBackend :=
  let x := arrays b in
  with_backed (delete key (backed b)) (with_arrays
    (mkArrays (delete key (array_of x))
       (match array_of x !! key, backed b !! key with Some a, Some d => <[a := d]> (dropped x) | _, _ => dropped x end)
       (next_array x)) b).

Abbreviation MM A := (M MemStorageBackend fault A).

(** The slice that is returned is the one in the map. *)
Definition mem_Read (key : BlockKey) : MM (list byte) :=
  b <- gets Datatypes.id ;;
  match backed b !! key with
  | None => throw (Fails ErrBlockNotFound)
  | Some r => ret r
  end.

Definition ensureBlockExists (key : BlockKey) : MM unit :=
  modify (fun b => match backed b !! key with
                   | Some _ => b
                   | None => with_backed (<[key := replicate (Z.to_nat (mb_blockSize b)) x00]> (backed b))
                               (with_arrays (add_array key (arrays b)) b)
                   end).

(** [copy(dst, src)]: as many bytes as both have. *)
Definition copy_into {A} (dst src : list A) : list A := take (length dst) src ++ drop (length src) dst.

(** The loop of doWrite; [fuel] bounds its rounds and [Blocked] says that it is
    still running.  [data[off:end]] panics when [off] is beyond [end]. *)
Fixpoint mem_write_loop (fuel : nat) (key : BlockKey) (ka : list BlockKey) (data : list byte)
    (off remaining : Z) : MM (list BlockKey) :=
  match fuel with
  | O => throw Blocked
  | S fuel =>
      if (remaining <=? 0)%Z then ret ka else
      b <- gets Datatypes.id ;;
      let e := Z.min (mb_blockSize b) remaining in
      ensureBlockExists key ;;;
      if (e <? off)%Z then go_panic else
      modify (fun b => with_backed
        (alter (fun orig => copy_into orig (drop (Z.to_nat off) (take (Z.to_nat e) data))) key (backed b)) b) ;;;
      mem_write_loop fuel (NewBlockKey (GetIno key) (wrap64 (GetIndex key + 1))) (ka ++ [key]) data
        e (remaining - (e - off))%Z
  end.

Definition mem_doWrite (fuel : nat) (key : BlockKey) (data : list byte) : MM unit :=
  let ino := GetIno key in
  b <- gets Datatypes.id ;;
  let ka := default [] (ino2key b !! ino) in
  ka <- mem_write_loop fuel key ka data 0 (Z.of_nat (length data)) ;;
  modify (fun b => with_ino2key (<[ino := ka]> (ino2key b)) b).

Definition mem_Write (fuel : nat) (key : BlockKey) (data : list byte) : MM unit :=
  if IsAllBytesZero data then go_panic else mem_doWrite fuel key data.

(** What is stored is changed in place. *)
Definition mem_WriteAt (fuel : nat) (key : BlockKey) (interval : IntervalList) (data : list byte) :
    M (MemStorageBackend * list Interval) fault unit :=
  s <- gets fst ;;
  match backed s !! key with
  | None => on_fst (mem_doWrite fuel key data)
  | Some r =>
      p <- on_list (Copy interval r data) ;;
      on_fst (modify (fun b => with_backed (<[key := p.2]> (backed b)) b))
  end.

Definition mem_Delete (ino : N) : MM unit :=
  b <- gets Datatypes.id ;;
  match ino2key b !! ino with
  | None => ret tt
  | Some ka =>
      modify (fun b => with_ino2key (delete ino (ino2key b)) (foldr drop_block b ka))
  end.

Definition mem_Destory : MM unit := modify (fun b =>
  with_ino2key ∅ (foldr drop_block b (map_to_list (backed b)).*1)).

(** A round per block of the data would do. *)
#[export] Instance MemStorageBackend_backend : StorageBackend MemStorageBackend := {
  sb_Read := mem_Read;
  sb_Write key data := mem_Write (S (S (length data))) key data;
  sb_WriteAt key interval data := mem_WriteAt (S (S (length data))) key interval data;
  sb_Delete := mem_Delete;
  sb_Array b key := array_of (arrays b) !! key;
  sb_Peek := mem_Peek;
  sb_Poke := mem_Poke;
}.

(** * Lemmas *)

Lemma key_Split_New ino index :
  (ino < 2 ^ 64)%N -> (index < 2 ^ 64)%N -> key_Split (NewBlockKey ino index) = (ino, index).
Proof.
  intros Hi Hx. unfold key_Split, NewBlockKey. change ("," +:+ itoa index)%string with (String ","%char (itoa index)).
  rewrite cut_app by apply itoa_no_comma. by rewrite !parse_itoa.
Qed.
Lemma GetIno_New ino index : (ino < 2 ^ 64)%N -> GetIno (NewBlockKey ino index) = ino.
Proof.
  intros Hi. unfold GetIno, NewBlockKey. change ("," +:+ itoa index)%string with (String ","%char (itoa index)).
  rewrite cut_app by apply itoa_no_comma. by apply parse_itoa.
Qed.
Lemma GetIndex_New ino index : (index < 2 ^ 64)%N -> GetIndex (NewBlockKey ino index) = index.
Proof.
  intros Hx. unfold GetIndex, NewBlockKey. change ("," +:+ itoa index)%string with (String ","%char (itoa index)).
  rewrite cut_app by apply itoa_no_comma. by apply parse_itoa.
Qed.

Lemma NewBlockKey_inj ino i ino' i' : NewBlockKey ino i = NewBlockKey ino' i' -> ino = ino' /\ i = i'.
Proof.
  unfold NewBlockKey. change ("," +:+ ?x)%string with (String ","%char x). intros E.
  apply sep_inj in E as [E1 E2]; [|apply itoa_no_comma..]. split; by apply itoa_inj.
Qed.

Lemma copy_into_length {A} (dst src : list A) : length (copy_into dst src) = length dst.
Proof. unfold copy_into. rewrite length_app, length_take, length_drop. lia. Qed.
Lemma copy_into_full {A} (dst src : list A) : length src = length dst -> copy_into dst src = src.
Proof. intros E. unfold copy_into. rewrite take_ge, drop_ge by lia. apply app_nil_r. Qed.

(** What a key holds when a block is written to it. *)
Definition block_at (b : MemStorageBackend) (key : BlockKey) : list byte :=
  default (replicate (Z.to_nat (mb_blockSize b)) x00) (backed b !! key).

(** The arrays once there is one for the key. *)
Definition arrays_at (b : MemStorageBackend) (key : BlockKey) : Arrays :=
  match backed b !! key with Some _ => arrays b | None => add_array key (arrays b) end.

Lemma mem_write_round fuel key ka data off remaining b :
  let e := Z.min (mb_blockSize b) remaining in
  (0 < remaining)%Z -> (off <= e)%Z ->
  mem_write_loop (S fuel) key ka data off remaining b =
  mem_write_loop fuel (NewBlockKey (GetIno key) (wrap64 (GetIndex key + 1))) (ka ++ [key]) data
    e (remaining - (e - off)) (with_backed
      (<[key := copy_into (block_at b key) (drop (Z.to_nat off) (take (Z.to_nat e) data))]> (backed b))
      (with_arrays (arrays_at b key) b)).
Proof.
  intros e Hr Ho. cbn [mem_write_loop]. rewrite (proj2 (Z.leb_gt _ _)) by lia. unfold bind at 1, gets, Datatypes.id.
  fold e. unfold bind at 1, ensureBlockExists, modify. rewrite (proj2 (Z.ltb_ge e off)) by lia.
  unfold bind, modify, block_at, arrays_at. f_equal. unfold with_backed, with_arrays.
  destruct (backed b !! key) as [r|] eqn:E; cbn [backed mb_blockSize ino2key arrays default from_option Datatypes.id]; f_equal;
    apply map_eq; intros k; rewrite lookup_alter, ?lookup_insert; case_decide; subst; rewrite ?E; repeat case_decide; done.
Qed.

(** Data of one block is written in one round. *)
Lemma mem_doWrite_fits fuel key data b :
  (0 < length data)%nat -> (Z.of_nat (length data) <= mb_blockSize b)%Z ->
  mem_doWrite (S (S fuel)) key data b =
  (Ok tt, mkMemStorageBackend (mb_blockSize b) (<[key := copy_into (block_at b key) data]> (backed b))
    (<[GetIno key := default [] (ino2key b !! GetIno key) ++ [key]]> (ino2key b)) (arrays_at b key)).
Proof.
  intros H0 Hl. unfold mem_doWrite, bind at 1, gets, Datatypes.id, bind. rewrite mem_write_round by lia.
  rewrite Z.min_r by lia. cbn [Z.to_nat drop]. rewrite Nat2Z.id, take_ge by lia.
  cbn [mem_write_loop]. by rewrite (proj2 (Z.leb_le _ _)) by lia.
Qed.

(** Longer data is not: the second round starts beyond its end, or makes no
    progress. *)
Lemma mem_doWrite_overrun fuel key data b :
  (0 < mb_blockSize b < Z.of_nat (length data))%Z ->
  (mem_doWrite (S fuel) key data b).1 =
  match fuel with
  | O => Err Blocked
  | S _ => if (Z.of_nat (length data) <? 2 * mb_blockSize b)%Z then Panic else Err Blocked
  end.
Proof.
  intros [Hb Hl]. unfold mem_doWrite, bind at 1, gets, Datatypes.id, bind. rewrite mem_write_round by lia.
  rewrite Z.min_l by lia. set (bs := mb_blockSize b) in *. set (b1 := with_backed _ (with_arrays _ b)).
  set (rem := (Z.of_nat (length data) - (bs - 0))%Z). assert (Hbs : mb_blockSize b1 = bs) by done.
  clearbody b1. generalize (NewBlockKey (GetIno key) (wrap64 (GetIndex key + 1))).
  generalize (from_option (fun x : list BlockKey => x) [] (ino2key b !! GetIno key) ++ [key]). intros ka key'.
  destruct fuel as [|fuel]; [done|]. destruct (Z.ltb_spec (Z.of_nat (length data)) (2 * bs)).
  - cbn [mem_write_loop]. rewrite (proj2 (Z.leb_gt _ _)) by lia. unfold bind at 1, gets, Datatypes.id. rewrite Hbs.
    unfold bind at 1, ensureBlockExists, modify. by rewrite (proj2 (Z.ltb_lt _ _)) by lia.
  - enough (Hgo : forall fuel b1 ka key', mb_blockSize b1 = bs ->
      (mem_write_loop fuel key' ka data bs rem b1).1 = Err Blocked).
    { specialize (Hgo (S fuel) b1 ka key' Hbs). destruct (mem_write_loop _ _ _ _ _ _ _) as [o b2]. cbn in Hgo. by subst o. }
    assert (Hrem : (bs <= rem)%Z) by lia. clearbody rem. clear -Hrem Hb.
    induction fuel as [|fuel IH]; intros b1 ka key' Hbs; [done|].
    rewrite mem_write_round by lia. rewrite Hbs, Z.min_l by lia. rewrite Z.sub_diag, Z.sub_0_r. by apply IH.
Qed.

(** * What WriteAt leaves of a block *)

(** The list has the writes [ws], below [n]. *)
Definition records (h : heap) (L : IntervalList) (n : Z) (ws : list (Z * Z)) : Prop :=
  exists ivs, fholds h L ivs /\ disjoint_from 0 ivs /\ bounded n ivs /\ forall x, cover ivs x <-> cover ws x.

(** Offset [x] belongs to a run of written bytes that ends before the block. *)
Definition inner (n : Z) (ws : list (Z * Z)) (x : Z) : Prop :=
  cover ws x /\ Exists (fun y => ~ cover ws y) (seqZ (x + 1) (n - x - 1)).

Definition overlay {A} (ws : list (Z * Z)) (old new : list A) : list A :=
  imap (fun x b => if decide (inner (Z.of_nat (length old)) ws (Z.of_nat x)) then default b (new !! x) else b) old.

Lemma length_overlay {A} ws (old new : list A) : length (overlay ws old new) = length old.
Proof. apply length_imap. Qed.

Lemma overlay_whole {A} (old new : list A) : overlay [(0, Z.of_nat (length old))%Z] old new = old.
Proof.
  apply list_eq. intros x. unfold overlay. rewrite list_lookup_imap. destruct (old !! x) as [b|] eqn:E; [|done]. cbn.
  rewrite decide_False; [done|]. intros [Hc [y [Hy Hn]]%Exists_exists]. apply Hn. apply elem_of_seqZ in Hy.
  apply cover_cons. left. apply lookup_lt_Some in E. cbn. lia.
Qed.

Lemma recorded_records hi ws h :
  (0 <= hi <= MaxInt)%Z -> Forall (fun w => 0 <= w.1 /\ w.2 <= hi)%Z ws ->
  exists L h', recorded ws h = (Ok L, h') /\ records h' L hi ws.
Proof.
  intros Hhi Hw. destruct (recorded_holds hi ws h Hhi Hw) as (L & h' & ivs & Hrun & Hh & Hd & Hb & Hc).
  exists L, h'. split; [done|]. exists ivs. by split; [apply holds_fholds|].
Qed.

Lemma Total_records h L n ws :
  records h L n ws -> (0 <= n <= MaxInt)%Z -> Total L h = (Ok (count_covered n ws), h).
Proof.
  intros (ivs & Hh & Hd & Hb & Hc) Hn.
  assert (Hsum : sum_len ivs = count_covered n ws).
  { rewrite (sum_len_count 0 n) by (done || lia). unfold count_covered. rewrite Z.sub_0_r.
    do 2 f_equal. apply filter_seqZ_ext. intros x _. apply Hc. }
  rewrite <- Hsum. apply (Total_fholds _ _ _ 0); [done | done |]. rewrite Hsum. unfold count_covered.
  pose proof (length_filter (cover ws) (seqZ 0 n)) as Hl. rewrite length_seqZ in Hl. lia.
Qed.

Lemma Merge_records h L n ws :
  records h L n ws -> exists h', Merge L h = (Ok tt, h') /\ records h' L n ws.
Proof.
  intros (ivs & Hh & Hd & Hb & Hc).
  destruct (doMerge_fholds h L ivs (-1)) as (h' & Hm & Hf); [done|done|by apply (disjoint_weaken 0)|].
  pose proof (merge_iv_disjoint 0 ivs Hd) as Hd'.
  exists h'. split; [done|]. exists (merge_iv ivs). split_and!; [done | done | |].
  - unfold bounded in *. rewrite !Forall_forall in *. intros [s e] Hin.
    pose proof (disjoint_Forall _ _ Hd') as Hall. rewrite Forall_forall in Hall. specialize (Hall _ Hin). cbn in *.
    assert (Hcov : cover (merge_iv ivs) (e - 1)) by (apply Exists_exists; exists (s, e); split; [done | cbn; lia]).
    rewrite (cover_merge_iv 0) in Hcov by done. apply Exists_exists in Hcov as ([a b] & Hab & Hx).
    specialize (Hb _ Hab). cbn in *. lia.
  - intros x. by rewrite (cover_merge_iv 0).
Qed.

Lemma Copy_overlay {A} h L ws (dst src : list A) :
  records h L (Z.of_nat (length dst)) ws -> length src = length dst ->
  exists n h', Copy L dst src h = (Ok (n, overlay ws dst src), h').
Proof.
  intros (ivs & Hh & Hd & Hb & Hc) Hl.
  destruct (Copy_fholds h L ivs dst src) as (h2 & Hcopy); [done..|].
  rewrite Hl in Hcopy. set (n := Z.of_nat (length dst)) in *.
  destruct (copied_spec (ends_below n (merge_iv ivs)) dst src) as [Hlen Hx]; [|done|].
  { apply Forall_forall. intros iv [Hiv Hin]%list_elem_of_filter.
    apply merge_iv_disjoint, disjoint_Forall in Hd. rewrite Forall_forall in Hd.
    specialize (Hd _ Hin). lia. }
  eexists _, h2. rewrite Hcopy. do 3 f_equal. apply list_eq. intros x. rewrite Hx. unfold overlay.
  rewrite list_lookup_imap. fold n.
  assert (Hiff : cover (ends_below n (merge_iv ivs)) (Z.of_nat x) <-> inner n ws (Z.of_nat x)).
  { rewrite (cover_ends_below 0) by done. unfold inner. rewrite Hc, Exists_exists. setoid_rewrite Hc.
    setoid_rewrite elem_of_seqZ. split; intros (? & y & ? & ?); (split; [done|]; exists y; split; [lia|done]). }
  destruct (dst !! x) as [b|] eqn:E.
  - cbn. destruct (decide (inner n ws (Z.of_nat x))) as [Hi|Hi].
    + rewrite decide_True by tauto. destruct (lookup_lt_is_Some_2 src x) as [b' Hb'];
        [rewrite Hl; by eapply lookup_lt_Some|]. by rewrite Hb'.
    + by rewrite decide_False by tauto.
  - cbn. case_decide; [|done]. apply lookup_ge_None. rewrite Hl. by apply lookup_ge_None.
Qed.

Lemma Copy_mismatch {A} h L ws n (dst src : list A) :
  records h L n ws -> length src <> length dst ->
  exists h', Copy L dst src h = (Err ErrByteArrLenNotmatched, h').
Proof.
  intros (ivs & Hh & Hd & Hb & Hc) Hl.
  destruct (doMerge_fholds h L ivs (-1)) as (h' & Hm & _); [done|done|by apply (disjoint_weaken 0)|].
  exists h'. unfold Copy, bind at 1. rewrite Hm. by rewrite bool_decide_false by congruence.
Qed.

(** * What a backend promises *)

(** The contents of a block after data was written into it. *)
Definition merged (ws : list (Z * Z)) (c : gmap (N * N) (list byte)) (k : N * N) (data : list byte) : list byte :=
  match c !! k with None => data | Some old => overlay ws old data end.

(** [be_holds t x c]: the backend [t] has the blocks [c] by file and index, where
    [x] is what else there is to say about it; [be_can t x d]: the block [d] can
    be written. *)
Class BackendSpec (T : Type) {SB : StorageBackend T} := {
  be_ghost : Type;
  be_holds : T -> be_ghost -> gmap (N * N) (list byte) -> Prop;
  be_can : T -> be_ghost -> list byte -> Prop;
  be_read t x c ino i : be_holds t x c -> (ino < 2 ^ 64)%N -> (i < 2 ^ 64)%N ->
    exists t' x', sb_Read (NewBlockKey ino i) t =
        (match c !! (ino, i) with Some d => Ok d | None => Err (Fails ErrBlockNotFound) end, t') /\
      be_holds t' x' c;
  be_write t x c ino i d : be_holds t x c -> (ino < 2 ^ 64)%N -> (i < 2 ^ 64)%N -> be_can t x d ->
    exists t' x', sb_Write (NewBlockKey ino i) d t = (Ok tt, t') /\ be_holds t' x' (<[(ino, i) := d]> c);
  be_write_at t x c ino i h L ws d : be_holds t x c -> (ino < 2 ^ 64)%N -> (i < 2 ^ 64)%N ->
    (forall old, c !! (ino, i) = Some old -> length d = length old /\ records h L (Z.of_nat (length old)) ws) ->
    be_can t x (merged ws c (ino, i) d) ->
    exists t' x' h', sb_WriteAt (NewBlockKey ino i) L d (t, h) = (Ok tt, (t', h')) /\
      be_holds t' x' (<[(ino, i) := merged ws c (ino, i) d]> c);
}.

(** The backend in memory keeps blocks of one size. *)
Definition mem_holds (b : MemStorageBackend) (c : gmap (N * N) (list byte)) : Prop :=
  (0 < mb_blockSize b)%Z /\ (forall ino i, backed b !! NewBlockKey ino i = c !! (ino, i)) /\
  (forall k d, c !! k = Some d -> Z.of_nat (length d) = mb_blockSize b).
Definition mem_can (b : MemStorageBackend) (d : list byte) : Prop :=
  Z.of_nat (length d) = mb_blockSize b /\ IsAllBytesZero d = false.

Lemma mem_holds_put b c ino i d keys ar :
  mem_holds b c -> Z.of_nat (length d) = mb_blockSize b ->
  mem_holds (mkMemStorageBackend (mb_blockSize b) (<[NewBlockKey ino i := d]> (backed b)) keys ar) (<[(ino, i) := d]> c).
Proof.
  intros (Hb & Hc & Hl) Hd. split_and!; [done| |].
  - intros ino' i'. cbn [backed]. rewrite !lookup_insert. destruct (decide ((ino, i) = (ino', i'))) as [E|E].
    + injection E as <- <-. by rewrite decide_True.
    + rewrite decide_False; [apply Hc|]. intros [-> ->]%NewBlockKey_inj. done.
  - intros k d'. rewrite lookup_insert_Some. intros [[_ <-]|[_ Hk]]; [done | by eapply Hl].
Qed.

(** Data of the size of a block replaces what is there. *)
Lemma mem_doWrite_block b c ino i d fuel :
  mem_holds b c -> Z.of_nat (length d) = mb_blockSize b ->
  exists keys ar, mem_doWrite (S (S fuel)) (NewBlockKey ino i) d b =
    (Ok tt, mkMemStorageBackend (mb_blockSize b) (<[NewBlockKey ino i := d]> (backed b)) keys ar).
Proof.
  intros (Hb & Hc & Hl) Hd. eexists _, _. rewrite mem_doWrite_fits by lia. rewrite copy_into_full; [reflexivity|].
  unfold block_at. rewrite Hc. destruct (c !! (ino, i)) as [d0|] eqn:E.
  - apply Hl in E. cbn. lia.
  - cbn. rewrite length_replicate. lia.
Qed.

#[export] Program Instance MemStorageBackend_spec : BackendSpec MemStorageBackend := {
  be_ghost := unit;
  be_holds b _ c := mem_holds b c;
  be_can b _ d := mem_can b d;
}.
Next Obligation.
  intros b u c ino i Hb _ _. exists b, u. split; [|done]. cbn. unfold mem_Read, bind, gets, Datatypes.id.
  destruct Hb as (_ & -> & _). by destruct (c !! (ino, i)).
Qed.
Next Obligation.
  intros b u c ino i d Hb _ _ [Hd Hz]. cbn. unfold mem_Write. rewrite Hz.
  destruct (mem_doWrite_block b c ino i d (length d) Hb Hd) as (keys & ar & Hrun).
  eexists _, u. split; [exact Hrun|]. by apply mem_holds_put.
Qed.
Next Obligation.
  intros b u c ino i h L ws d Hb _ _ Hold [Hd _]. cbn. unfold mem_WriteAt, bind, gets, on_list. cbn [fst snd].
  pose proof Hb as (Hpos & Hc & Hl). rewrite Hc. unfold merged in *. destruct (c !! (ino, i)) as [old|] eqn:E.
  - destruct (Hold old eq_refl) as [Hlen Hrec]. destruct (Copy_overlay h L ws old d Hrec Hlen) as (n & h' & Hcopy).
    cbn [fst snd]. rewrite Hcopy. eexists _, u, h'. split; [reflexivity|].
    by apply (mem_holds_put b c ino i _ (ino2key b) (arrays b)).
  - destruct (mem_doWrite_block b c ino i d (length d) Hb Hd) as (keys & ar & Hrun).
    unfold on_fst. cbn [fst snd]. rewrite Hrun. eexists _, u, h. split; [reflexivity|]. by apply mem_holds_put.
Qed.
