(* ===== verification/GoSlice.v ===== *)
(** Go slices that several goroutines append to.  A slice is a reference to an
    array and a length; [append] reads the slice variable, writes the element
    behind the last one, in place or in a larger array, and stores the new slice
    in the variable.  Without a lock the three are steps of their own. *)
From stdpp Require Import prelude list.

Section slices.
Context {A : Type}.
(** The capacity [append] gives the array it allocates, which the language leaves
    open. *)
Context (grow : nat -> nat).

(** The cells of an array that have been written, and its capacity. *)
Record array := mkArray { a_cap : nat; a_cells : list A }.
Record slice := mkSlice { s_arr : nat; s_len : nat }.

(** The arrays that were allocated.  A nil slice stands on one without room. *)
Abbreviation heap := (list array).
Definition nil_heap : heap := [mkArray 0 []].
Definition nil_slice : slice := mkSlice 0 0.

Definition contents (h : heap) (s : slice) : list A :=
  match h !! s_arr s with Some a => take (s_len s) (a_cells a) | None => [] end.

Definition write_cell (i : nat) (x : A) (l : list A) : list A := take i l ++ x :: drop (S i) l.

(** Writing the element: in place where the array has room, otherwise in a larger
    array with the elements of the slice. *)
Definition append_put (x : A) (s : slice) (h : heap) : slice * heap :=
  match h !! s_arr s with
  | None => (s, h)
  | Some a =>
      if (s_len s <? a_cap a)%nat
      then (mkSlice (s_arr s) (S (s_len s)), <[s_arr s := mkArray (a_cap a) (write_cell (s_len s) x (a_cells a))]> h)
      else (mkSlice (length h) (S (s_len s)), h ++ [mkArray (grow (s_len s)) (take (s_len s) (a_cells a) ++ [x])])
  end.

(** Where a goroutine is in [v = append(v, x)]. *)
Inductive appending :=
| ToLoad (x : A)
| ToPut (x : A) (s : slice)
| ToStore (x : A) (s : slice).

Definition append_step (p : appending) (v : slice) (h : heap) : option appending * (slice * heap) :=
  match p with
  | ToLoad x => (Some (ToPut x v), (v, h))
  | ToPut x s => let '(s', h') := append_put x s h in (Some (ToStore x s'), (v, h'))
  | ToStore _ s => (None, (s, h))
  end.

(** ** Lemmas *)

(** A slice whose elements have been written. *)
Definition slice_ok (h : heap) (s : slice) : Prop :=
  exists a, h !! s_arr s = Some a /\ (s_len s <= length (a_cells a))%nat.

Lemma nil_slice_ok : slice_ok nil_heap nil_slice.
Proof. by eexists. Qed.

Lemma append_put_ok x s h :
  slice_ok h s -> let '(s', h') := append_put x s h in
  slice_ok h' s' /\ contents h' s' = contents h s ++ [x] /\
  slice_ok h' s /\ contents h' s = contents h s.
Proof.
  intros (a & Ha & Hlen). pose proof (lookup_lt_Some _ _ _ Ha) as Hlt. unfold append_put, slice_ok, contents. rewrite Ha.
  destruct (Nat.ltb_spec (s_len s) (a_cap a)); cbn [s_arr s_len].
  - rewrite list_lookup_insert_eq by done. unfold write_cell. cbn [a_cells a_cap].
    assert (Ht : length (take (s_len s) (a_cells a)) = s_len s) by (rewrite length_take; lia).
    split_and!.
    + eexists. split; [done|]. cbn. rewrite length_app. cbn. lia.
    + rewrite take_app, Ht. replace (S (s_len s) - s_len s)%nat with 1%nat by lia.
      rewrite take_ge by lia. done.
    + eexists. split; [done|]. cbn. rewrite length_app. cbn. lia.
    + rewrite take_app_le by lia. by rewrite take_ge by lia.
  - rewrite lookup_app_r, Nat.sub_diag by done. cbn. split_and!.
    + eexists. split; [done|]. cbn. rewrite length_app, length_take. cbn. lia.
    + apply take_ge. rewrite length_app, length_take. cbn. lia.
    + exists a. by rewrite lookup_app_l.
    + by rewrite lookup_app_l, Ha.
Qed.
End slices.
Arguments array : clear implicits.
Arguments appending : clear implicits.
