(* ===== verification/DataNode.v ===== *)
(** A storage node, src/pkg/storage/node: the selector, which knows the node's
    volumes and which of them has each block (volume_selector.go), the copies in
    an object store (s3_syncer.go) and the handlers of the storage service
    (service.go).  The object store is a parameter.  The goroutines of a read and its
    loop take turns in the order of a schedule; their appends to the response are
    several steps each. *)
From Stdlib Require Import Ascii Strings.Byte NArith SpecFloat Lia.
From stdpp Require Import prelude gmap strings list fin_maps.
From S2P Require Import Prelude Store Badger StoreProps Attr MetaStore Hash Block Engine Slot Volume GoSlice.
Open Scope N_scope.

Definition ErrSelectVolume : error := ErrOther "failed to select volume".

(** [sort.SliceStable]: insertion keeps equal elements in order. *)
Section stable_sort.
Context {V : Type} (less : V -> V -> bool).
Fixpoint insert_stable (v : V) (l : list V) : list V :=
  match l with
  | [] => [v]
  | w :: r => if less w v then w :: insert_stable v r else v :: w :: r
  end.
Definition SliceStable (l : list V) : list V := foldr insert_stable [] l.
End stable_sort.

(** The calls the node makes on oss.CloudKV. *)
Class CloudKV := {
  cloud : Type;
  kv_Get : cloud -> string -> list byte + error;
  kv_Put : cloud -> string -> list byte -> cloud * option error;
}.

(** A job handed to the executor. *)
Inductive job := SyncJob (meta : BlockMetaEvent) | RestoreJob (meta : BlockMetaEvent).

Record WriteRequest := mkWriteRequest {
  req_Ino : N;
  req_BlockIdx : option N;
  req_BlockData : list byte;
  req_Crc32 : N }.
Record WriteResponse := mkWriteResponse {
  res_Ino : N;
  res_BlockIdx : N;
  res_BlockId : string;
  res_VolId : N;
  res_NodeId : N;
  res_Crc32 : N;
  res_Len : N }.

(** [storage.Block] in a read response. *)
Record PbBlock := mkPbBlock {
  b_Data : list byte;
  b_Len : N;
  b_Index : N;
  b_Crc32 : N;
  b_Id : string }.

(** A goroutine of [Read]. *)
Inductive reader :=
| Fetch (volId : N) (blockId : string)
| Adds (p : appending PbBlock)
| Ended.

(** A read on its way: the ids the loop has not visited, its own append, the
    goroutines, [res.Blocks] and the arrays, what the loop returned and the error
    of the group. *)
Record reading := mkReading {
  r_ids : list string;
  r_main : option (appending PbBlock);
  r_readers : list reader;
  r_blocks : slice;
  r_heap : list (array PbBlock);
  r_failed : option fault;
  r_err : option fault }.
Definition read_start (blockIds : list string) : reading :=
  mkReading blockIds None [] nil_slice nil_heap None None.

Definition with_ids (x : list string) (r : reading) : reading :=
  mkReading x (r_main r) (r_readers r) (r_blocks r) (r_heap r) (r_failed r) (r_err r).
Definition with_main (x : option (appending PbBlock)) (r : reading) : reading :=
  mkReading (r_ids r) x (r_readers r) (r_blocks r) (r_heap r) (r_failed r) (r_err r).
Definition with_readers (x : list reader) (r : reading) : reading :=
  mkReading (r_ids r) (r_main r) x (r_blocks r) (r_heap r) (r_failed r) (r_err r).
Definition with_slice (v : slice) (h : list (array PbBlock)) (r : reading) : reading :=
  mkReading (r_ids r) (r_main r) (r_readers r) v h (r_failed r) (r_err r).
(** The loop returns. *)
Definition returned (e : fault) (r : reading) : reading :=
  mkReading [] None (r_readers r) (r_blocks r) (r_heap r) (Some e) (r_err r).
(** The group keeps its first error; a goroutine that blocks keeps [g.Wait] from
    returning. *)
Definition with_error (e : fault) (r : reading) : reading :=
  mkReading (r_ids r) (r_main r) (r_readers r) (r_blocks r) (r_heap r) (r_failed r)
    (Some match e, r_err r with Blocked, _ => Blocked | _, Some e' => e' | _, None => e end).

(** Enough turns for the loop and every goroutine. *)
Definition all_turns (n : nat) : list nat := replicate (4 * n) 0%nat ++ concat (replicate 4 <$> seq 1 n).

Section node.
Context {F : Fs} {L : Lru} {C : CloudKV} {S : Type} `{Store S} `{BitmapCodec}.
Context (range : gmap string N -> list (string * N)).
(** The order in which Go walks the statistics, the records and the volumes. *)
Context (range_stats : gmap N VolumeStatistics -> list (N * VolumeStatistics)).
Context (range_metas : gmap string BlockMetaEvent -> list (string * BlockMetaEvent)).
Context (fuel : nat).
(** How [append] grows an array. *)
Context (grow : nat -> nat).

(** The selector and the object syncer of a node.  [blockMetas] is nil when the
    records could not be loaded; [jobs] have been started and not finished. *)
Record Node := mkNode {
  ID : N;
  candidates : gmap N LocalPhysicalVolume;
  volStats : gmap N VolumeStatistics;
  blockMetas : option (gmap string BlockMetaEvent);
  objects : cloud;
  jobs : list job }.

Definition with_candidates (x : gmap N LocalPhysicalVolume) (n : Node) : Node :=
  mkNode (ID n) x (volStats n) (blockMetas n) (objects n) (jobs n).
Definition with_volStats (x : gmap N VolumeStatistics) (n : Node) : Node :=
  mkNode (ID n) (candidates n) x (blockMetas n) (objects n) (jobs n).
Definition with_blockMetas (x : option (gmap string BlockMetaEvent)) (n : Node) : Node :=
  mkNode (ID n) (candidates n) (volStats n) x (objects n) (jobs n).
Definition with_objects (x : cloud) (n : Node) : Node :=
  mkNode (ID n) (candidates n) (volStats n) (blockMetas n) x (jobs n).
Definition with_jobs (x : list job) (n : Node) : Node :=
  mkNode (ID n) (candidates n) (volStats n) (blockMetas n) (objects n) x.

Abbreviation node := (object Node S).
Abbreviation NM A := (M node fault A).

Definition metas (n : Node) : gmap string BlockMetaEvent := default ∅ (blockMetas n).

Definition node_try {A D} (m : NM A) (k : A + error -> NM D) : NM D := fun x =>
  match m x with
  | (Ok a, y) => k (inl a) y
  | (Err (Fails e), y) => k (inr e) y
  | (Err Blocked, y) => (Err Blocked, y)
  | (Panic, y) => (Panic, y)
  end.
Definition node_fails {A} (e : error) : NM A := throw (Fails e).
Definition node_store {A} (m : M S error A) : NM A := fun x =>
  let '(r, s) := m (st x) in (lift_outcome r, Obj (self x) s).

(** ** The selector *)

Definition loadBlockMeta : NM unit :=
  metaMap <- node_store (DoGetValuesByPrefix (Some (mkEvent 0 "" 0 0 0 0 0 0))) ;;
  set_fields (with_blockMetas (Some
    (foldl (fun m p => <[BlockID p.2 := p.2]> m) ∅ (range_metas metaMap)))).

Definition with_State (st : Z) (m : BlockMetaEvent) : BlockMetaEvent :=
  mkEvent (be_VolID m) (BlockID m) (be_Size m) (LogicIndex m) (be_Crc32 m) (EventType m) st (CreatedAt m).

(** Returns whether the event's channel was closed; closing nil panics, and so
    does the assignment to a nil map. *)
Definition addBlockMeta (meta : BlockMetaEvent) (done : bool) : NM bool :=
  n <- fields Datatypes.id ;;
  let meta := match metas n !! BlockID meta with
              | Some old => if OnS3Only old then with_State BlockState_LOCAL_S3 meta else meta
              | None => meta
              end in
  node_store (DoSaveInKVPair (Some meta)) ;;;
  match blockMetas n with
  | None => go_panic
  | Some m =>
      set_fields (with_blockMetas (Some (<[BlockID meta := meta]> m))) ;;;
      if done then ret true else go_panic
  end.

Definition deleteBlockMeta (meta : BlockMetaEvent) : NM unit :=
  set_fields (fun n => with_blockMetas (delete (BlockID meta) <$> blockMetas n) n) ;;;
  node_store (DoDeleteByKey (Some meta)).

Definition handleBlockMeta (meta : BlockMetaEvent) (done : bool) : NM bool :=
  if (EventType meta =? BlockMetaEvent_Delete)%Z then deleteBlockMeta meta ;;; ret false
  else addBlockMeta meta done.

Definition setVolStat (volId : N) (v : VolumeStatistics) : NM unit :=
  set_fields (fun n => with_volStats (<[volId := v]> (volStats n)) n).

(** One round of [statLoop] per message; an error of [handleBlockMeta] is
    logged.  Returns whether a channel was closed. *)
Definition stat_round (m : message) : NM bool :=
  match m with
  | VolStat v => setVolStat (vs_VolID v) v ;;; ret false
  | BlockMeta meta done =>
      node_try (handleBlockMeta meta done) (fun r => ret (match r with inl b => b | inr _ => false end))
  end.
Fixpoint stat_rounds (l : list message) : NM bool :=
  match l with
  | [] => ret false
  | m :: r => b <- stat_round m ;; b' <- stat_rounds r ;; ret (b || b')
  end.

(** A method of a volume: the messages it sends are received by [statLoop] in
    the order in which they are sent, so they are handled when the method is
    over.  Returns whether a channel of its events was closed.  A nil volume
    panics. *)
Definition on_volume {A} (volId : N) (m : M (object LocalPhysicalVolume S) fault A) : NM ((A + fault) * bool) :=
  n <- fields Datatypes.id ;;
  match candidates n !! volId with
  | None => go_panic
  | Some v => fun x =>
      let '(r, y) := m (Obj v (st x)) in
      let n' := with_candidates (<[volId := with_sent [] (self y)]> (candidates n)) n in
      match r with
      | Panic => (Panic, Obj n' (st y))
      | Ok a => (b <- stat_rounds (sent (self y)) ;; ret (inl a, b)) (Obj n' (st y))
      | Err e => (b <- stat_rounds (sent (self y)) ;; ret (inr e, b)) (Obj n' (st y))
      end
  end.

(** [Sync]: the statistics are initialised without threshold. *)
Definition Sync (volId : N) (v : LocalPhysicalVolume) : NM unit :=
  set_fields (fun n => with_volStats
    (<[volId := mkStat volId (to_int (GetCap (stat v))) (S754_zero false) (InuseBytes (stat v))]> (volStats n))
    (with_candidates (<[volId := v]> (candidates n)) n)).

(** [volStats[0]] panics when there is no volume. *)
Definition SelectWrite : NM N :=
  n <- fields Datatypes.id ;;
  match SliceStable (fun a b => RemainCap b <? RemainCap a) ((range_stats (volStats n)).*2) with
  | [] => go_panic
  | v :: _ => ret (vs_VolID v)
  end.

Definition SelectRead (blockID : string) : NM N :=
  n <- fields Datatypes.id ;;
  match metas n !! blockID with
  | None => node_fails ErrBlockNotExisted
  | Some meta => ret (be_VolID meta)
  end.

Definition Select (volId : N) : NM N :=
  n <- fields Datatypes.id ;;
  match candidates n !! volId with None => node_fails ErrSelectVolume | Some _ => ret volId end.

Definition Exists (volId : N) (n : Node) : bool := bool_decide (is_Some (candidates n !! volId)).
Definition GetVolStats (n : Node) : list VolumeStatistics := (range_stats (volStats n)).*2.
Definition GetVolStat (volId : N) (n : Node) : VolumeStatistics :=
  default (mkStat 0 0 (S754_zero false) 0) (volStats n !! volId).
Definition GetBlockMeta (blockID : string) (n : Node) : option BlockMetaEvent := metas n !! blockID.
Definition GetBlockMetas (n : Node) : list BlockMetaEvent := (range_metas (metas n)).*2.

(** The record is changed through the pointer the map holds, then saved. *)
Definition _makeBlockState (blockID : string) (state : Z) : NM unit :=
  n <- fields Datatypes.id ;;
  match metas n !! blockID with
  | None => ret tt
  | Some meta =>
      let meta := with_State state meta in
      set_fields (fun n => with_blockMetas (<[blockID := meta]> <$> blockMetas n) n) ;;;
      node_store (DoSaveInKVPair (Some meta))
  end.
Definition MarkBlockDestaged (blockID : string) : NM unit := _makeBlockState blockID BlockState_LOCAL_S3.
Definition MarkBlockFreeLocal (blockID : string) : NM unit := _makeBlockState blockID BlockState_S3_ONLY.

Definition Recycle (n : Node) : list BlockMetaEvent := List.filter OnBoth (GetBlockMetas n).
Definition selector_Warmup (n : Node) : list BlockMetaEvent := List.filter OnS3Only (GetBlockMetas n).
(** [now] in nanoseconds, [expired] in seconds. *)
Definition ListStaleBlockMetas (now expired : Z) (n : Node) : list BlockMetaEvent :=
  List.filter (fun m => OnLocal m && (CreatedAt m <? now - expired * 1000000000)%Z) (GetBlockMetas n).

(** ** The object syncer *)

Definition start (j : job) : NM unit := set_fields (fun n => with_jobs (jobs n ++ [j]) n).

(** The entry in [processing] is taken out again before the call is over, so it
    never keeps a second call from starting its job. *)
Definition syncer_Sync (meta : BlockMetaEvent) : NM unit := start (SyncJob meta).

(** The results are set by the job; a caller that gets them earlier gets their
    zero values. *)
Definition Restore (meta : BlockMetaEvent) : NM (list byte * option error) :=
  start (RestoreJob meta) ;;; ret ([], None).

(** The body of the job of [Sync]. *)
Definition sync_job (meta : BlockMetaEvent) : NM unit :=
  let blockId := BlockID meta in
  node_try (SelectRead blockId) (fun r =>
  match r with
  | inr _ => ret tt
  | inl volId =>
      n <- fields Datatypes.id ;;
      match kv_Get (objects n) blockId with
      | inl _ => node_try (MarkBlockDestaged blockId) (fun _ => ret tt)
      | inr _ =>
          p <- on_volume volId (ReadBlock blockId) ;;
          match p.1 with
          | inr (Fails _) => ret tt
          | inr Blocked => throw Blocked
          | inl (data, _) =>
              n <- fields Datatypes.id ;;
              let '(kv, err) := kv_Put (objects n) blockId data in
              set_fields (with_objects kv) ;;;
              match err with
              | Some _ => ret tt
              | None => node_try (MarkBlockDestaged blockId) (fun _ => ret tt)
              end
          end
      end
  end).

(** The body of the job of [Restore]: the block is written back to its volume. *)
Definition restore_job (now : Z) (meta : BlockMetaEvent) : NM (list byte) :=
  let blockId := BlockID meta in
  n <- fields Datatypes.id ;;
  match kv_Get (objects n) blockId with
  | inr e => node_fails (Wrapped e)
  | inl data =>
      node_try (Select (be_VolID meta)) (fun r =>
      match r with
      | inr e => node_fails (Wrapped e)
      | inl volId =>
          match unhex blockId with
          | None => node_fails (Wrapped (ErrOther "invalid block id"))
          | Some hash =>
              p <- on_volume volId (Volume.WriteBlock range fuel now
                     (mkContainer (LogicIndex meta) data hash (crc32 data))) ;;
              match p with
              | (inr (Fails e), _) => node_fails (Wrapped e)
              | (inr Blocked, _) | (inl _, false) => throw Blocked
              | (inl _, true) => ret data
              end
          end
      end)
  end.

(** ** The handlers *)

Definition Write (now : Z) (req : WriteRequest) : NM WriteResponse :=
  let data := req_BlockData req in
  let crc := crc32 data in
  if negb (crc =? req_Crc32 req) then node_fails (ErrOther "crc32 mismatch") else
  idx <- deref (req_BlockIdx req) ;;
  let hash := sha256 data in
  n <- fields Datatypes.id ;;
  match GetBlockMeta (hex hash) n with
  | Some existMeta =>
      ret (mkWriteResponse (req_Ino req) idx (BlockID existMeta) (be_VolID existMeta) (ID n) crc
             (N.of_nat (length data)))
  | None =>
      volId <- SelectWrite ;;
      p <- on_volume volId (Volume.WriteBlock range fuel now (mkContainer idx data hash crc)) ;;
      match p with
      | (inr (Fails e), _) => node_fails (Wrapped e)
      | (inr Blocked, _) | (inl _, false) => throw Blocked
      | (inl blockId, true) =>
          ret (mkWriteResponse (req_Ino req) idx blockId volId (ID n) crc (N.of_nat (length data)))
      end
  end.

(** ** Reading

    [Read] visits the ids in a loop and starts a goroutine for every block that is
    on a volume; the loop and the goroutines append to [res.Blocks] without a
    lock.  A step is a turn of one of them: [read_step 0] one of the loop,
    [read_step (S i)] one of the [i]-th goroutine.  A slice variable is read and
    written as a whole. *)
Definition main_step (r : reading) : NM reading :=
  match r_main r with
  | Some p =>
      let '(p', (v, h)) := append_step grow p (r_blocks r) (r_heap r) in
      ret (with_main p' (with_slice v h r))
  | None =>
      match r_ids r with
      | [] => ret r
      | blockId :: rest =>
          n <- fields Datatypes.id ;;
          match GetBlockMeta blockId n with
          | None => ret (returned (Fails ErrBlockNotExisted) r)
          | Some meta =>
              if OnS3Only meta then
                p <- Restore meta ;;
                ret (with_main (match p.2 with
                                | Some _ => None
                                | None => Some (ToLoad (mkPbBlock p.1 (N.of_nat (length p.1)) (LogicIndex meta)
                                                          (be_Crc32 meta) blockId))
                                end) (with_ids rest r))
              else
                v <-? SelectRead blockId ;;
                match v with
                | inr e => ret (returned e r)
                | inl volId => ret (with_readers (r_readers r ++ [Fetch volId blockId]) (with_ids rest r))
                end
          end
      end
  end.

Definition reader_step (i : nat) (r : reading) : NM reading :=
  match r_readers r !! i with
  | Some (Fetch volId blockId) =>
      p <- on_volume volId (ReadBlock blockId) ;;
      match p.1 with
      | inr e => ret (with_error e (with_readers (<[i := Ended]> (r_readers r)) r))
      | inl (data, header) =>
          h <- deref header ;;
          let b := mkPbBlock data (wrap32 (DataLen h)) (Index h) (Crc32 h) (HashReadable h) in
          ret (with_readers (<[i := Adds (ToLoad b)]> (r_readers r)) r)
      end
  | Some (Adds p) =>
      let '(p', (v, h)) := append_step grow p (r_blocks r) (r_heap r) in
      ret (with_readers (<[i := match p' with Some q => Adds q | None => Ended end]> (r_readers r)) (with_slice v h r))
  | Some Ended | None => ret r
  end.

Definition read_step (i : nat) (r : reading) : NM reading :=
  match i with O => main_step r | Datatypes.S j => reader_step j r end.
Fixpoint read_steps (l : list nat) (r : reading) : NM reading :=
  match l with [] => ret r | i :: rest => r' <- read_step i r ;; read_steps rest r' end.

(** Whoever has not ended when [schedule] is over is run to the end, so that
    [g.Wait] returns; when the loop returns early the goroutines it leaves behind
    run on. *)
Definition Read (schedule : list nat) (blockIds : list string) : NM (list PbBlock) :=
  r <- read_steps (schedule ++ all_turns (length blockIds)) (read_start blockIds) ;;
  match r_failed r, r_err r with
  | Some e, _ | None, Some e => throw e
  | None, None => ret (contents (r_heap r) (r_blocks r))
  end.

(** The blocks to delete, by volume. *)
Definition by_volume (n : Node) (blockIds : list string) : gmap N (list string) :=
  foldl (fun m blockId =>
    match GetBlockMeta blockId n with
    | None => m
    | Some meta => <[be_VolID meta := default [] (m !! be_VolID meta) ++ [blockId]]> m
    end) ∅ blockIds.

Fixpoint clean_all (l : list (N * list string)) : NM unit :=
  match l with
  | [] => ret tt
  | (volId, blockIds) :: rest =>
      Select volId ;;;
      p <- on_volume volId (CleanInvalidBlock range blockIds) ;;
      match p.1 with
      | inr e => throw e
      | inl _ => clean_all rest
      end
  end.
(** [order] is the order in which Go walks the volumes. *)
Definition node_DeleteBlock (order : gmap N (list string) -> list (N * list string)) (blockIds : list string) :
    NM unit :=
  n <- fields Datatypes.id ;; clean_all (order (by_volume n blockIds)).

Definition ListBlocks (n : Node) : list BlockMetaEvent := GetBlockMetas n.

Fixpoint sync_all (l : list BlockMetaEvent) : NM unit :=
  match l with [] => ret tt | m :: r => syncer_Sync m ;;; sync_all r end.
Definition EvictBlock (now expired : Z) : NM unit :=
  n <- fields Datatypes.id ;; sync_all (ListStaleBlockMetas now expired n).

(** The volume is looked up without a check: a missing one panics. *)
Fixpoint recycle_all (l : list BlockMetaEvent) : NM unit :=
  match l with
  | [] => ret tt
  | meta :: rest =>
      p <- on_volume (be_VolID meta) (RemoveLocal range (BlockID meta)) ;;
      match p.1 with
      | inr Blocked => throw Blocked
      | _ => node_try (MarkBlockFreeLocal (BlockID meta)) (fun _ => recycle_all rest)
      end
  end.
Definition RecycleSpace : NM unit :=
  n <- fields Datatypes.id ;; recycle_all (Recycle n).

Fixpoint restore_all (l : list BlockMetaEvent) : NM (list string) :=
  match l with
  | [] => ret []
  | meta :: rest =>
      p <- Restore meta ;;
      match p.2 with
      | Some e => node_fails e
      | None => r <- restore_all rest ;; ret (BlockID meta :: r)
      end
  end.
Definition Warmup : NM (list string) :=
  n <- fields Datatypes.id ;; restore_all (selector_Warmup n).
End node.
