(* ===== verification/DataNodeProps.v ===== *)
(** A storage node is a store of blocks addressed by their content: [node_inv]
    relates the selector, the volumes and the metadata store of a node to the map
    from block ids to data it stands for. *)
From Stdlib Require Import Ascii Strings.Byte NArith SpecFloat Lia.
From stdpp Require Import prelude gmap strings list fin_maps.
From S2P Require Import Prelude Store Badger StoreProps Attr MetaStore Hash Block Engine Slot Volume VolumeProps GoSlice DataNode.
Open Scope N_scope.

#[local] Opaque sha256 crc32.

(** * Events in the store *)

#[export] Program Instance Event_Lawful : Lawful BlockMetaEvent := {
  blob_of := event_blob;
  bucket := fun _ => "block"%string;
  key_name := BlockID;
  valid_key := fun e => BlockID e <> ""%string /\ has_char "/"%char (BlockID e) = false;
}.
Next Obligation. done. Qed.
Next Obligation.
  intros [v b sz i c et st ca]. cbn [Deserialize Event_Serializer Event_Deserialize event_blob be_VolID
    BlockID be_Size LogicIndex be_Crc32 EventType State CreatedAt].
  repeat (erewrite get_N_JN by reflexivity; cbn [sbind]). cbn [get_S jlookup sbind].
  repeat (erewrite get_N_JN by reflexivity; cbn [sbind]). done.
Qed.
Next Obligation. done. Qed.
Next Obligation. done. Qed.
Next Obligation. done. Qed.
Next Obligation. done. Qed.
Next Obligation. done. Qed.

Lemma event_key_not_owned vol h : ~ slot_owned vol ("block/" +:+ h)%string.
Proof. intros [E|E]; [discriminate E | by cbn in E]. Qed.

(** * Sorting *)

Section sorting.
Context {V : Type} (less : V -> V -> bool).

Lemma insert_stable_perm v l : insert_stable less v l ≡ₚ v :: l.
Proof. induction l as [|w r IH]; [done|]. cbn. destruct (less w v); [rewrite IH; apply perm_swap | done]. Qed.

Lemma SliceStable_perm l : SliceStable less l ≡ₚ l.
Proof. induction l as [|v l IH]; [done|]. cbn. by rewrite insert_stable_perm, IH. Qed.

Lemma SliceStable_head v l r w :
  (forall a b, less a b = false \/ less b a = false) ->
  (forall a b c, less b a = false -> less c b = false -> less c a = false) ->
  SliceStable less l = v :: r -> w ∈ l -> less w v = false.
Proof.
  intros Hasym Htrans. revert v r. induction l as [|u l IH]; intros v r E Hw; [by apply elem_of_nil in Hw|].
  change (SliceStable less (u :: l)) with (insert_stable less u (SliceStable less l)) in E.
  assert (Hrefl : forall a, less a a = false) by (intros a; by destruct (Hasym a a)).
  destruct (SliceStable less l) as [|x r'] eqn:El; cbn [insert_stable] in E.
  - assert (l = []) as -> by (apply Permutation_nil; rewrite <- El; apply SliceStable_perm).
    injection E as <- <-. apply list_elem_of_singleton in Hw as ->. apply Hrefl.
  - destruct (less x u) eqn:Hxu; injection E as <- <-; apply elem_of_cons in Hw as [->|Hw].
    + destruct (Hasym x u); congruence.
    + by eapply IH.
    + apply Hrefl.
    + eapply Htrans; [exact Hxu | by eapply IH].
Qed.
End sorting.

(** * The invariant *)

Section node_props.
Context {B : Badger} `{!BadgerSpec B} {F : Fs} `{!FsSpec F} {L : Lru} {C : CloudKV} `{BitmapCodec}.
Context (range : gmap string N -> list (string * N)).
Context (range_perm : forall m, range m ≡ₚ map_to_list m).
Context (range_stats : gmap N VolumeStatistics -> list (N * VolumeStatistics)).
Context (range_stats_perm : forall m, range_stats m ≡ₚ map_to_list m).

Abbreviation volume := (LocalPhysicalVolume (F := F) (L := L)).
Abbreviation nstate := (object (Node (F := F) (L := L) (C := C)) (BadgerStore B)).

(** [ems] are the blocks of each volume, [bs] the data by block id. *)
Record node_inv (n : Node) (m : gmap string blob) (ems : N -> gmap N DataContainer)
    (bs : gmap string (list byte)) : Prop := {
  ni_vols i v : candidates n !! i = Some v ->
    vol_inv v m (ems i) /\ id v = i /\ vs_VolID (stat v) = i /\ sent v = [];
  ni_stats i : is_Some (volStats n !! i) <-> is_Some (candidates n !! i);
  ni_stat_id i vs : volStats n !! i = Some vs -> vs_VolID vs = i;
  ni_metas : exists mm, blockMetas n = Some mm;
  ni_meta h : match metas n !! h with
    | None => bs !! h = None
    | Some meta => BlockID meta = h /\ OnS3Only meta = false /\
        is_Some (candidates n !! be_VolID meta) /\
        exists o c, block_of (ems (be_VolID meta)) h o c /\ bs !! h = Some (c_Data c)
    end;
  ni_blocks i o c : is_Some (candidates n !! i) -> ems i !! o = Some c ->
    c_Hash c = sha256 (c_Data c) /\ is_Some (metas n !! hex (c_Hash c));
}.

(** The id of stored data is its digest. *)
Lemma ni_digest n m ems bs h d : node_inv n m ems bs -> bs !! h = Some d -> h = hex (sha256 d).
Proof.
  intros Hn Hd. pose proof (ni_meta _ _ _ _ Hn h) as Hm. destruct (metas n !! h) as [meta|]; [|congruence].
  destruct Hm as (_ & _ & Hc & o & c & [Ho <-] & Hb). rewrite Hd in Hb. injection Hb as ->.
  f_equal. eapply (ni_blocks _ _ _ _ Hn); [exact Hc | exact Ho].
Qed.

(** ** Runs of the parts *)

Lemma node_store_run {A} (m : M (BadgerStore B) error A) (n : Node) s r s' :
  m s = (r, s') -> node_store m (Obj n s : nstate) = (lift_outcome r, Obj n s').
Proof. intros E. unfold node_store. cbn [st self]. by rewrite E. Qed.

Lemma SelectWrite_run (n : Node) (s : BadgerStore B) m ems bs :
  node_inv n m ems bs -> candidates n <> ∅ ->
  exists i vs, SelectWrite range_stats (Obj n s : nstate) = (Ok i, Obj n s) /\
    is_Some (candidates n !! i) /\ volStats n !! i = Some vs.
Proof.
  intros Hn Hne. unfold SelectWrite. rewrite bind_fields. cbn [Datatypes.id].
  set (l := SliceStable _ _). assert (Hl : l ≡ₚ (range_stats (volStats n)).*2) by apply SliceStable_perm.
  apply map_choose in Hne as (i & v & Hv).
  assert (Hs : is_Some (volStats n !! i)) by (apply (ni_stats _ _ _ _ Hn); eauto).
  destruct Hs as [vs Hvs]. assert (Hin : vs ∈ l).
  { rewrite Hl. apply list_elem_of_fmap. exists (i, vs). split; [done|].
    by rewrite range_stats_perm, elem_of_map_to_list. }
  destruct l as [|w r]; [by apply elem_of_nil in Hin|].
  assert (Hw : w ∈ (range_stats (volStats n)).*2) by (rewrite <- Hl; apply elem_of_cons; by left).
  apply list_elem_of_fmap in Hw as ([j w'] & -> & Hw). rewrite range_stats_perm, elem_of_map_to_list in Hw.
  cbn [snd]. pose proof (ni_stat_id _ _ _ _ Hn _ _ Hw) as E. exists j, w'. rewrite E.
  split_and!; [done | | done]. apply (ni_stats _ _ _ _ Hn). eauto.
Qed.

(** A method of a volume that returns. *)
Lemma on_volume_ok {A} i (m : M (object volume (BadgerStore B)) fault A) (n : Node) s v a v' s1 b n' s' :
  candidates n !! i = Some v -> m (Obj v s) = (Ok a, Obj v' s1) ->
  stat_rounds (sent v') (Obj (with_candidates (<[i := with_sent [] v']> (candidates n)) n) s1 : nstate) =
    (Ok b, Obj n' s') ->
  on_volume i m (Obj n s : nstate) = (Ok (inl a, b), Obj n' s').
Proof.
  intros Hv Hm Hr. unfold on_volume. rewrite bind_fields. cbn [Datatypes.id]. rewrite Hv. cbn [st].
  rewrite Hm. cbn [self st]. unfold bind. by rewrite Hr.
Qed.

(** The announcement of a new block. *)
Lemma announce_run (n : Node) (s : BadgerStore B) mm vs ev :
  blockMetas n = Some mm -> mm !! BlockID ev = None -> valid_key ev -> EventType ev = BlockMetaEvent_Add ->
  exists s', stat_rounds [VolStat vs; BlockMeta ev true] (Obj n s : nstate) =
      (Ok true, Obj (with_blockMetas (Some (<[BlockID ev := ev]> mm))
                      (with_volStats (<[vs_VolID vs := vs]> (volStats n)) n)) s') /\
    sees s' = map_upd (FormatKey ev, Some (blob_of ev)) (sees s).
Proof.
  intros Hmm Hnew Hev Het. destruct (DoSaveInKVPair_any ev s Hev) as (s' & Hsave & Hs'). exists s'. split; [|done].
  cbn [stat_rounds stat_round]. unfold setVolStat. unfold bind at 1. rewrite bind_set_fields. cbn [ret].
  erewrite bind_ok; [done|]. unfold bind at 1. unfold node_try, handleBlockMeta. rewrite Het. cbn [Z.eqb BlockMetaEvent_Add BlockMetaEvent_Delete].
  unfold addBlockMeta. rewrite bind_fields. cbn [Datatypes.id]. unfold metas. cbn [blockMetas with_volStats].
  rewrite Hmm. cbn [default Datatypes.id]. rewrite Hnew.
  erewrite bind_ok by (by rewrite (node_store_run _ _ _ _ _ Hsave)). rewrite bind_set_fields. done.
Qed.

Lemma metas_with x (n : Node (F := F) (L := L) (C := C)) : metas (with_blockMetas (Some x) n) = x.
Proof. done. Qed.

(** ** Writing *)

(** The blocks after [c] went to slot [o] of volume [i]. *)
Definition put_block (ems : N -> gmap N DataContainer) (i o : N) (c : DataContainer) (j : N) : gmap N DataContainer :=
  if decide (j = i) then <[o := c]> (ems i) else ems j.

Lemma node_inv_put n (s s1 s2 : BadgerStore B) ems bs i v v' o c ev :
  node_inv n (sees s) ems bs -> candidates n !! i = Some v ->
  metas n !! hex (c_Hash c) = None -> c_Hash c = sha256 (c_Data c) -> ems i !! o = None ->
  vol_inv v' (sees s1) (<[o := c]> (ems i)) -> id v' = i -> vs_VolID (stat v') = i ->
  (forall k, ~ slot_owned i k -> k <> stat_Format (stat v) -> sees s1 !! k = sees s !! k) ->
  BlockID ev = hex (c_Hash c) -> be_VolID ev = i -> OnS3Only ev = false ->
  sees s2 = map_upd (FormatKey ev, Some (blob_of ev)) (sees s1) ->
  node_inv
    (with_blockMetas (Some (<[BlockID ev := ev]> (metas n)))
      (with_volStats (<[i := stat v']> (volStats n))
        (with_candidates (<[i := with_sent [] v']> (candidates n)) n)))
    (sees s2) (put_block ems i o c) (<[hex (c_Hash c) := c_Data c]> bs).
Proof.
  intros Hn Hv Hnew Hdig Ho Hv' Hi Hst Hfr Hev Hvol HS3 Hs2. destruct (ni_vols _ _ _ _ Hn i v Hv) as (_ & Hiv & Hsv & _).
  assert (Hcand : forall j, is_Some (<[i := with_sent [] v']> (candidates n) !! j) <-> is_Some (candidates n !! j)).
  { intros j. rewrite lookup_insert. case_decide; [subst; rewrite Hv; by split; eauto | done]. }
  split; cbn [candidates volStats with_blockMetas with_volStats with_candidates].
  - intros j w. rewrite lookup_insert. case_decide as E.
    + intros [= <-]. subst j. split_and!; [|done..]. unfold put_block. rewrite decide_True by done.
      apply (vi_frame _ (sees s1)); [|apply (vi_ext v'); [done..|apply (vi_evit _ _ _ Hv')]]. cbn [id with_sent]. rewrite Hi.
      intros k Hk. rewrite Hs2, lookup_map_upd.
      cbn [fst snd]. rewrite decide_False; [done|]. intros <-. by apply event_key_not_owned in Hk.
    + intros Hw. destruct (ni_vols _ _ _ _ Hn j w Hw) as (Hvw & Hj & Hsj & Hse). split_and!; [|done..].
      unfold put_block. rewrite decide_False by congruence. apply (vi_frame _ (sees s)); [|done].
      rewrite Hj. intros k Hk. rewrite Hs2, lookup_map_upd. cbn [fst snd].
      rewrite decide_False by (intros <-; by apply event_key_not_owned in Hk). apply Hfr.
      * intros Hk'. apply E. by eapply slot_owned_inj.
      * intros ->. by apply stat_key_not_owned in Hk.
  - intros j. rewrite Hcand, <- (ni_stats _ _ _ _ Hn), lookup_insert. case_decide; [|done].
    subst. split; [|by eauto]. intros _. apply (ni_stats _ _ _ _ Hn). eauto.
  - intros j vs. rewrite lookup_insert. case_decide; [intros [= <-]; by subst | apply (ni_stat_id _ _ _ _ Hn)].
  - by eexists.
  - intros h. rewrite metas_with, Hev, !lookup_insert. case_decide as E.
    + subst h. rewrite Hvol. split_and!; [done | done | by rewrite Hcand; eauto |].
      exists o, c. split; [|done]. split; [|done]. unfold put_block. rewrite decide_True by done. apply lookup_insert_eq.
    + pose proof (ni_meta _ _ _ _ Hn h) as Hm. destruct (metas n !! h) as [meta|]; [|done].
      destruct Hm as (H1 & H2 & H3 & o' & c' & [Ho' Hh'] & Hb). split_and!; [done | done | by rewrite Hcand |].
      exists o', c'. split; [|done]. split; [|done]. unfold put_block. case_decide as Ei; [|done].
      rewrite <- Ei. rewrite lookup_insert_ne; [done|]. intros ->. rewrite Ei in Ho'. congruence.
  - intros j o' c'. rewrite Hcand, metas_with. intros Hj.
    unfold put_block. case_decide as Ei.
    + subst j. rewrite lookup_insert. case_decide as Eo.
      * intros [= <-]. split; [done|]. rewrite Hev, lookup_insert_eq. eauto.
      * intros Hc'. destruct (ni_blocks _ _ _ _ Hn _ _ _ Hj Hc') as [Hd [x Hx]]. split; [done|].
        rewrite lookup_insert. case_decide; eauto.
    + intros Hc'. destruct (ni_blocks _ _ _ _ Hn _ _ _ Hj Hc') as [Hd [x Hx]]. split; [done|].
      rewrite lookup_insert. case_decide; eauto.
Qed.

(** The event a write announces is a valid record. *)
Lemma hash_key_ok d : hex (sha256 d) <> ""%string /\ has_char "/"%char (hex (sha256 d)) = false.
Proof.
  split; [|apply hex_no_slash]. pose proof (length_sha256 d) as Hl. intros E.
  apply (f_equal unhex) in E. rewrite unhex_hex in E. injection E as E. by rewrite E in Hl.
Qed.

(** The same volumes, with the same slots in use. *)
Definition same_room (n n' : Node) : Prop :=
  forall i, match candidates n !! i, candidates n' !! i with
            | Some v, Some v' => slot v' = slot v
            | None, None => True
            | _, _ => False
            end.

Lemma same_room_refl n : same_room n n.
Proof. intros i. by destruct (candidates n !! i). Qed.
Lemma same_room_trans n1 n2 n3 : same_room n1 n2 -> same_room n2 n3 -> same_room n1 n3.
Proof.
  intros H12 H23 i. specialize (H12 i). specialize (H23 i).
  destruct (candidates n1 !! i), (candidates n2 !! i), (candidates n3 !! i); try done. congruence.
Qed.

Lemma Write_new k now (n : Node) (s : BadgerStore B) ems bs req idx :
  let d := req_BlockData req in
  node_inv n (sees s) ems bs -> candidates n <> ∅ ->
  (forall i v, candidates n !! i = Some v -> Remains (slot v) <> 0) ->
  req_Crc32 req = crc32 d -> req_BlockIdx req = Some idx -> idx < 2 ^ 64 -> N.of_nat (length d) <= max_alloc ->
  bs !! hex (sha256 d) = None ->
  exists i o n' s',
    Write range range_stats (S k) now req (Obj n s : nstate) =
      (Ok (mkWriteResponse (req_Ino req) idx (hex (sha256 d)) i (ID n) (crc32 d) (N.of_nat (length d))), Obj n' s') /\
    node_inv n' (sees s') (put_block ems i o (mkContainer idx d (sha256 d) (crc32 d))) (<[hex (sha256 d) := d]> bs) /\
    is_Some (candidates n !! i) /\ (forall j, is_Some (candidates n' !! j) <-> is_Some (candidates n !! j)) /\
    (forall j v v', candidates n !! j = Some v -> candidates n' !! j = Some v' -> cap (slot v') = cap (slot v)) /\ ID n' = ID n /\
    exists ev, BlockID ev = hex (sha256 d) /\ metas n' = <[BlockID ev := ev]> (metas n) /\
      forall k, (forall j, ~ vol_owned j k) -> sees s' !! k = map_upd (FormatKey ev, Some (blob_of ev)) (sees s) !! k.
Proof.
  intros d Hn Hne Hroom Hcrc Hidx Hi64 Hlen Hbs. set (c := mkContainer idx d (sha256 d) (crc32 d)).
  assert (Hnew : metas n !! hex (sha256 d) = None).
  { pose proof (ni_meta _ _ _ _ Hn (hex (sha256 d))) as Hm. destruct (metas n !! _) as [meta|]; [|done].
    destruct Hm as (_ & _ & _ & o & c' & _ & Hb). congruence. }
  destruct (SelectWrite_run n s _ _ _ Hn Hne) as (i & vs & Hsel & [v Hv] & _).
  destruct (ni_vols _ _ _ _ Hn i v Hv) as (Hvi & Hid & Hsv & Hsent).
  assert (Hc : storable c) by (split_and!; [apply length_sha256 | done | done]).
  destruct (WriteBlock_free range k now v s (ems i) c Hvi Hc (Hroom i v Hv)) as
    (o & v' & s1 & Hw & Ho & Hv' & Hid' & Hcap & Hst & Hse & Hfr).
  { intros o' c' [Ho' Hh]. destruct (ni_blocks _ _ _ _ Hn i o' c' ltac:(eauto) Ho') as [_ [x Hx]].
    cbn [c_Hash c] in Hh. rewrite Hh in Hx. congruence. }
  set (ev := written_event now v c) in *.
  destruct (ni_metas _ _ _ _ Hn) as [mm Hmm]. assert (Hmn : metas n = mm) by (unfold metas; by rewrite Hmm).
  assert (Hsid : vs_VolID (stat v') = i) by (rewrite Hst; exact Hsv).
  destruct (announce_run (with_candidates (<[i := with_sent [] v']> (candidates n)) n) s1 mm (stat v') ev)
    as (s2 & Hann & Hs2); [done | by rewrite <- Hmn | apply hash_key_ok | done |].
  rewrite Hsent in Hse. cbn [app] in Hse.
  eexists i, o, _, s2. split_and!.
  - unfold Write. fold d. rewrite Hcrc, N.eqb_refl. cbn [negb]. rewrite Hidx. unfold bind at 1, deref. cbn [ret].
    rewrite bind_fields. cbn [Datatypes.id]. unfold GetBlockMeta. rewrite Hnew.
    rewrite (bind_ok _ _ _ _ _ Hsel).
    erewrite bind_ok; [|eapply (on_volume_ok i _ n s v); [done | exact Hw | by rewrite Hse, Hann]]. done.
  - rewrite Hsid, <- Hmn.
    apply (node_inv_put n s s1 s2 ems bs i v v' o c ev); [done | done | exact Hnew | done | done | done | congruence | done | | done | done | done | done].
    by rewrite Hid in Hfr.
  - eauto.
  - intros j. cbn [candidates with_blockMetas with_volStats with_candidates]. rewrite lookup_insert.
    case_decide; [subst; rewrite Hv; by split; eauto | done].
  - intros j w w' Hj. cbn [candidates with_blockMetas with_volStats with_candidates]. rewrite lookup_insert.
    case_decide; [|congruence]. intros [= <-]. subst j. rewrite Hv in Hj. by injection Hj as <-.
  - done.
  - exists ev. rewrite <- Hmn. split_and!; [done..|]. intros k' Hk. rewrite Hs2, !lookup_map_upd. cbn [fst snd].
    case_decide; [done|]. apply Hfr; [intros Hs; apply (Hk (id v)); by left|]. intros ->. apply (Hk (vs_VolID (stat v))). by right.
Qed.

(** ** Reading *)

Lemma node_inv_touch n m ems bs i v v' :
  node_inv n m ems bs -> candidates n !! i = Some v -> vol_inv v' m (ems i) -> id v' = id v -> stat v' = stat v ->
  node_inv (with_candidates (<[i := with_sent [] v']> (candidates n)) n) m ems bs.
Proof.
  intros Hn Hv Hv' Hid Hst. destruct (ni_vols _ _ _ _ Hn i v Hv) as (_ & Hi & Hsi & _).
  assert (Hcand : forall j, is_Some (<[i := with_sent [] v']> (candidates n) !! j) <-> is_Some (candidates n !! j)).
  { intros j. rewrite lookup_insert. case_decide; [subst; rewrite Hv; by split; eauto | done]. }
  destruct Hn as [Hvols Hstats Hsid Hmm Hmeta Hblocks].
  split; cbn [candidates volStats with_candidates]; [| | done | done | |].
  - intros j w. rewrite lookup_insert. case_decide as E; [|apply Hvols]. intros [= <-]. subst j.
    split_and!; [|cbn; congruence|cbn; congruence|done]. apply (vi_ext v'); [done..|apply (vi_evit _ _ _ Hv')].
  - intros j. by rewrite Hcand.
  - intros h. specialize (Hmeta h). change (metas (with_candidates _ n)) with (metas n).
    destruct (metas n !! h); [|done]. by rewrite Hcand.
  - intros j o c Hj. apply Hblocks. by apply Hcand.
Qed.

(** Where the records say a block is. *)
Definition located (n : Node) (p : N * string) : Prop :=
  exists meta, metas n !! p.2 = Some meta /\ be_VolID meta = p.1.

(** What a read returns for a block id. *)
Definition block_read (bs : gmap string (list byte)) (h : string) (b : PbBlock) : Prop :=
  bs !! h = Some (b_Data b) /\ b_Id b = h /\ b_Crc32 b = crc32 (b_Data b) /\
  b_Len b = wrap32 (N.of_nat (length (b_Data b))).

Lemma read_volume n (s : BadgerStore B) ems bs i h :
  node_inv n (sees s) ems bs -> located n (i, h) ->
  exists d hd n', on_volume i (ReadBlock h) (Obj n s : nstate) = (Ok (inl (d, Some hd), false), Obj n' s) /\
    node_inv n' (sees s) ems bs /\ same_room n n' /\ metas n' = metas n /\ bs !! h = Some d /\
    DataLen hd = N.of_nat (length d) /\ Crc32 hd = crc32 d /\ HashReadable hd = h.
Proof.
  intros Hn (meta & Hm & Hi). cbn [fst snd] in Hm, Hi. pose proof (ni_meta _ _ _ _ Hn h) as Hmeta.
  rewrite Hm in Hmeta. destruct Hmeta as (_ & _ & [v Hv] & o & c & Hb & Hbs). rewrite Hi in Hv, Hb.
  destruct (ni_vols _ _ _ _ Hn i v Hv) as (Hvi & Hid & Hsv & Hse).
  destruct (ReadBlock_known v s (ems i) h o c Hvi Hb) as (v' & Hread & Hv' & Hid' & Hst' & Hse' & Hsl).
  eexists _, _, _. split_and!.
  - eapply (on_volume_ok i _ n s v); [done | exact Hread |]. rewrite Hse', Hse. reflexivity.
  - by apply (node_inv_touch n _ ems bs i v v').
  - intros j. cbn [candidates with_candidates]. rewrite lookup_insert. case_decide; [subst; by rewrite Hv|].
    by destruct (candidates n !! j).
  - done.
  - done.
  - done.
  - done.
  - unfold HashReadable. cbn [Checksum header_of]. apply (proj2 Hb).
Qed.

(** ** Reading *)

Context (grow : nat -> nat).

(** The block a goroutine appends, and the id it was started for. *)
Definition added (p : appending PbBlock) : PbBlock :=
  match p with ToLoad x | ToPut x _ | ToStore x _ => x end.
Definition reader_id (x : reader) : option string :=
  match x with Fetch _ h => Some h | Adds p => Some (b_Id (added p)) | Ended => None end.
Definition reader_ok (mm : gmap string BlockMetaEvent) (bs : gmap string (list byte)) (x : reader) : Prop :=
  match x with
  | Fetch i h => exists meta, mm !! h = Some meta /\ be_VolID meta = i
  | Adds p => block_read bs (b_Id (added p)) (added p)
  | Ended => True
  end.

(** What a read keeps under every schedule. *)
Record read_inv (s : BadgerStore B) ems bs (ids : list string) (n0 : Node) (r : reading) (n : Node) : Prop := {
  ri_node : node_inv n (sees s) ems bs;
  ri_room : same_room n0 n;
  ri_metas : metas n = metas n0;
  ri_main : r_main r = None;
  ri_readers : Forall (reader_ok (metas n0) bs) (r_readers r);
  ri_err : r_err r = None;
  ri_count : (length (r_ids r) + length (r_readers r) <= length ids)%nat;
  ri_ids : match r_failed r with
           | None => exists seen, ids = seen ++ r_ids r /\ Forall (fun h => is_Some (bs !! h)) seen
           | Some e => e = Fails ErrBlockNotExisted /\ r_ids r = [] /\ ~ Forall (fun h => is_Some (bs !! h)) ids
           end }.

(** The turns a goroutine still takes. *)
Definition turns (x : reader) : nat :=
  match x with Fetch _ _ => 4 | Adds (ToLoad _) => 3 | Adds (ToPut _ _) => 2 | Adds (ToStore _ _) => 1 | Ended => 0 end.
Definition turns_at (r : reading) (i : nat) : nat :=
  match r_readers r !! i with Some x => turns x | None => 0 end.

(** What a turn of the loop and one of a goroutine change. *)
Definition main_moves (r r' : reading) : Prop :=
  (length (r_ids r') <= pred (length (r_ids r)))%nat /\ (r_ids r = [] -> r' = r) /\
  (r_failed r' = None -> r_failed r = None /\ (r' = r \/ exists i h, r_ids r = h :: r_ids r' /\
     r_readers r' = r_readers r ++ [Fetch i h] /\ r_blocks r' = r_blocks r /\ r_heap r' = r_heap r)).
Definition reader_moves (j : nat) (r r' : reading) : Prop :=
  r_ids r' = r_ids r /\ r_failed r' = r_failed r /\
  (forall k, turns_at r' k = if decide (k = j) then pred (turns_at r j) else turns_at r k) /\
  match r_readers r !! j with
  | Some (Fetch i h) => exists b, b_Id b = h /\ r' = with_readers (<[j := Adds (ToLoad b)]> (r_readers r)) r
  | Some (Adds p) => let '(p', (v, h)) := append_step grow p (r_blocks r) (r_heap r) in
      r' = with_readers (<[j := match p' with Some q => Adds q | None => Ended end]> (r_readers r)) (with_slice v h r)
  | _ => r' = r
  end.

Lemma main_step_run s ems bs ids n0 r n :
  read_inv s ems bs ids n0 r n ->
  exists r', main_step grow r (Obj n s : nstate) = (Ok r', Obj n s) /\ read_inv s ems bs ids n0 r' n /\ main_moves r r'.
Proof.
  intros [Hn Hroom Hmm Hmain Hrd Herr Hcnt Hids]. unfold main_step. rewrite Hmain.
  destruct (r_ids r) as [|h rest] eqn:Er.
  - exists r. split_and!; [done | split; try done; by rewrite ?Er|]. unfold main_moves. rewrite Er. split_and!; [done | done |]. intros Hf. by split; [|left].
  - destruct (r_failed r) as [e|] eqn:Ef; [destruct Hids as (_ & ? & _); done|]. destruct Hids as (seen & Eids & Hseen).
    rewrite bind_fields. cbn [Datatypes.id]. unfold GetBlockMeta. pose proof (ni_meta _ _ _ _ Hn h) as Hm.
    destruct (metas n !! h) as [meta|] eqn:Hh.
    + destruct Hm as (_ & HS3 & _ & o & c & _ & Hbs). rewrite HS3.
      assert (Hsel : SelectRead h (Obj n s : nstate) = (Ok (be_VolID meta), Obj n s)).
      { unfold SelectRead. rewrite bind_fields. cbn [Datatypes.id]. by rewrite Hh. }
      unfold catch. rewrite Hsel. eexists. split; [done|]. split.
      * split; cbn [r_main r_readers r_err r_ids r_failed with_readers with_ids]; try done.
        -- apply Forall_app. split; [done|]. apply Forall_singleton. exists meta. by rewrite <- Hmm.
        -- rewrite length_app. cbn [length] in *. lia.
        -- rewrite Ef. exists (seen ++ [h]). rewrite <- app_assoc. split; [done|]. apply Forall_app. split; [done|].
           apply Forall_singleton. eauto.
      * unfold main_moves. rewrite Er. split_and!; [done | done |]. intros _. split; [done|right].
        by exists (be_VolID meta), h.
    + eexists. split; [done|]. split.
      * split; cbn [r_main r_readers r_err r_ids r_failed returned]; try done; [cbn in *; lia|]. split_and!; [done..|].
        rewrite Eids. intros [_ [[d Hd] _]%Forall_cons]%Forall_app. congruence.
      * unfold main_moves. rewrite Er. split_and!; [cbn; lia | done | done].
Qed.

Lemma turns_insert r j k x y :
  r_readers r !! j = Some x ->
  turns_at (with_readers (<[j := y]> (r_readers r)) r) k = if decide (k = j) then turns y else turns_at r k.
Proof.
  intros Hj. unfold turns_at. cbn [r_readers with_readers]. destruct (decide (k = j)) as [->|Hk].
  - by rewrite list_lookup_insert_eq by (by eapply lookup_lt_Some).
  - by rewrite list_lookup_insert_ne.
Qed.

Lemma reader_step_run s ems bs ids n0 r n j :
  read_inv s ems bs ids n0 r n ->
  exists r' n', reader_step grow j r (Obj n s : nstate) = (Ok r', Obj n' s) /\ read_inv s ems bs ids n0 r' n' /\
    reader_moves j r r'.
Proof.
  intros [Hn Hroom Hmm Hmain Hrd Herr Hcnt Hids]. unfold reader_step, reader_moves.
  assert (Hstay : (turns_at r j = 0)%nat -> forall k, turns_at r k = if decide (k = j) then pred (turns_at r j) else turns_at r k).
  { intros E k. destruct (decide (k = j)) as [->|]; [by rewrite E|done]. }
  destruct (r_readers r !! j) as [[i h|p|]|] eqn:Hj.
  - assert (Hok : reader_ok (metas n0) bs (Fetch i h)) by (by eapply (Forall_lookup_1 _ _ _ _ Hrd)).
    rewrite <- Hmm in Hok.
    destruct (read_volume n s ems bs i h Hn Hok) as (d & hd & n1 & Hrun & Hn1 & Hr1 & Hmm1 & Hd & Hlen & Hcrc & Hid).
    rewrite (bind_ok _ _ _ _ _ Hrun). cbn [fst]. unfold bind at 1, deref. cbn [ret]. eexists _, n1. split; [done|]. split.
    + split; cbn [r_main r_readers r_err r_ids r_failed with_readers]; try done; [by eapply same_room_trans | congruence | |].
      * apply Forall_insert; [done|]. cbn. rewrite Hid. split_and!; cbn; [done | done | done | by rewrite Hlen].
      * by rewrite length_insert.
    + split; [done|]. split; [done|]. split; [|eexists; split; [|reflexivity]; exact Hid].
      intros k. rewrite (turns_insert r j k _ _ Hj). by replace (turns_at r j) with 4%nat by (unfold turns_at; by rewrite Hj).
  - assert (Hok : reader_ok (metas n0) bs (Adds p)) by (by eapply (Forall_lookup_1 _ _ _ _ Hrd)).
    destruct (append_step grow p (r_blocks r) (r_heap r)) as [p' [v h]] eqn:Ep. eexists _, n. split; [done|]. split.
    + split; cbn [r_main r_readers r_err r_ids r_failed with_readers with_slice]; try done.
      * apply Forall_insert; [done|]. destruct p; cbn in Ep; [| destruct (append_put _ _ _ _)|]; by simplify_eq.
      * by rewrite length_insert.
    + split; [done|]. split; [done|]. split; [|done]. intros k.
      assert (E : turns_at r j = turns (Adds p)) by (unfold turns_at; by rewrite Hj). rewrite E.
      etransitivity; [exact (turns_insert r j k _ (match p' with Some q => Adds q | None => Ended end) Hj)|].
      destruct (decide (k = j)); [|done]. destruct p; cbn in Ep; [| destruct (append_put _ _ _ _)|]; by simplify_eq.
  - exists r, n. do 4 (split; [done|]). split; [|done]. apply Hstay. unfold turns_at. by rewrite Hj.
  - exists r, n. do 4 (split; [done|]). split; [|done]. apply Hstay. unfold turns_at. by rewrite Hj.
Qed.

Lemma read_step_run s ems bs ids n0 i r n :
  read_inv s ems bs ids n0 r n ->
  exists r' n', read_step grow i r (Obj n s : nstate) = (Ok r', Obj n' s) /\ read_inv s ems bs ids n0 r' n' /\
    match i with O => main_moves r r' | S j => reader_moves j r r' end.
Proof.
  intros Hi. destruct i as [|j]; [|by apply reader_step_run].
  destruct (main_step_run s ems bs ids n0 r n Hi) as (r' & Hrun & Hi' & Hm). by exists r', n.
Qed.

Lemma read_steps_app l1 l2 r x :
  read_steps grow (l1 ++ l2) r x = (r' <- read_steps grow l1 r ;; read_steps grow l2 r') x.
Proof.
  revert r x. induction l1 as [|i l1 IH]; intros r x; [done|]. cbn [app read_steps]. unfold bind.
  destruct (read_step grow i r x) as [[r'|e|] x']; [apply IH | done | done].
Qed.

Lemma read_steps_run s ems bs ids n0 l r n :
  read_inv s ems bs ids n0 r n ->
  exists r' n', read_steps grow l r (Obj n s : nstate) = (Ok r', Obj n' s) /\ read_inv s ems bs ids n0 r' n'.
Proof.
  revert r n. induction l as [|i l IH]; intros r n Hi; [by exists r, n|].
  destruct (read_step_run s ems bs ids n0 i r n Hi) as (r1 & n1 & Hrun & Hi1 & _).
  destruct (IH r1 n1 Hi1) as (r' & n' & Hrun' & Hi'). exists r', n'. split; [|done].
  cbn [read_steps]. by rewrite (bind_ok _ _ _ _ _ Hrun).
Qed.

Lemma main_turns s ems bs ids n0 k r n :
  read_inv s ems bs ids n0 r n -> (length (r_ids r) <= k)%nat ->
  exists r' n', read_steps grow (replicate k 0%nat) r (Obj n s : nstate) = (Ok r', Obj n' s) /\
    read_inv s ems bs ids n0 r' n' /\ r_ids r' = [].
Proof.
  revert r n. induction k as [|k IH]; intros r n Hi Hk.
  - exists r, n. split_and!; [done | done |]. by destruct (r_ids r); [|cbn in Hk; lia].
  - destruct (read_step_run s ems bs ids n0 0 r n Hi) as (r1 & n1 & Hrun & Hi1 & Hm & _).
    destruct (IH r1 n1 Hi1) as (r' & n' & Hrun' & Hi'); [lia|]. exists r', n'. split; [|done].
    cbn [replicate read_steps]. by rewrite (bind_ok _ _ _ _ _ Hrun).
Qed.

Lemma reader_turns s ems bs ids n0 j k r n :
  read_inv s ems bs ids n0 r n ->
  exists r' n', read_steps grow (replicate k (S j)) r (Obj n s : nstate) = (Ok r', Obj n' s) /\
    read_inv s ems bs ids n0 r' n' /\ r_ids r' = r_ids r /\
    forall i, turns_at r' i = if decide (i = j) then (turns_at r j - k)%nat else turns_at r i.
Proof.
  revert r n. induction k as [|k IH]; intros r n Hi.
  - exists r, n. do 3 (split; [done|]). intros i. case_decide; [subst; lia|done].
  - destruct (read_step_run s ems bs ids n0 (S j) r n Hi) as (r1 & n1 & Hrun & Hi1 & Hids & _ & Ht & _).
    destruct (IH r1 n1 Hi1) as (r' & n' & Hrun' & Hi' & Hids' & Ht'). exists r', n'.
    split; [|split; [done|split; [congruence|]]].
    + cbn [replicate read_steps]. by rewrite (bind_ok _ _ _ _ _ Hrun).
    + intros i. rewrite Ht', !Ht. case_decide; [|done]. rewrite decide_True by done. lia.
Qed.

Lemma turns_max r i : (turns_at r i <= 4)%nat.
Proof. unfold turns_at. destruct (r_readers r !! i) as [[|[]|]|]; cbn; lia. Qed.

Lemma all_reader_turns s ems bs ids n0 m r n :
  read_inv s ems bs ids n0 r n ->
  exists r' n', read_steps grow (concat (replicate 4 <$> seq 1 m)) r (Obj n s : nstate) = (Ok r', Obj n' s) /\
    read_inv s ems bs ids n0 r' n' /\ r_ids r' = r_ids r /\ forall i, (i < m)%nat -> turns_at r' i = 0%nat.
Proof.
  intros Hi. induction m as [|m IH].
  - exists r, n. do 3 (split; [done|]). intros i Hm. lia.
  - destruct IH as (r1 & n1 & Hrun & Hi1 & Hids & Ht).
    destruct (reader_turns s ems bs ids n0 m 4 r1 n1 Hi1) as (r' & n' & Hrun' & Hi' & Hids' & Ht').
    exists r', n'. split; [|split; [done|split; [congruence|]]].
    + rewrite seq_S, fmap_app, concat_app, read_steps_app, (bind_ok _ _ _ _ _ Hrun). cbn [fmap list_fmap concat].
      by rewrite app_nil_r.
    + intros i Hm. rewrite Ht'. pose proof (turns_max r1 m). case_decide; [lia|]. apply Ht. lia.
Qed.

Lemma read_inv_start s ems bs ids n :
  node_inv n (sees s) ems bs -> read_inv s ems bs ids n (read_start ids) n.
Proof. intros Hn. split; cbn; [done | apply same_room_refl | done | done | done | done | lia |]. by exists []. Qed.

(** Every schedule runs the read to its end. *)
Lemma read_ends s ems bs ids n0 schedule :
  node_inv n0 (sees s) ems bs ->
  exists r n, read_steps grow (schedule ++ all_turns (length ids)) (read_start ids) (Obj n0 s : nstate) = (Ok r, Obj n s) /\
    read_inv s ems bs ids n0 r n /\ r_ids r = [] /\ Forall (fun x => x = Ended) (r_readers r).
Proof.
  intros Hn. destruct (read_steps_run _ _ _ _ _ schedule _ _ (read_inv_start s ems bs ids n0 Hn)) as (r1 & n1 & Hr1 & Hi1).
  destruct (main_turns s ems bs ids n0 (4 * length ids) r1 n1 Hi1) as (r2 & n2 & Hr2 & Hi2 & Hids2).
  { pose proof (ri_count _ _ _ _ _ _ _ Hi1). lia. }
  destruct (all_reader_turns s ems bs ids n0 (length ids) r2 n2 Hi2) as (r & n & Hr & Hi & Hids & Ht).
  exists r, n. split; [|split; [done|split; [congruence|]]].
  - unfold all_turns. rewrite read_steps_app, (bind_ok _ _ _ _ _ Hr1), read_steps_app, (bind_ok _ _ _ _ _ Hr2). done.
  - apply Forall_lookup_2. intros i x Hx. pose proof (ri_count _ _ _ _ _ _ _ Hi) as Hc.
    pose proof (lookup_lt_Some _ _ _ Hx). specialize (Ht i ltac:(lia)). unfold turns_at in Ht. rewrite Hx in Ht.
    by destruct x as [|[]|].
Qed.

(** Goroutines that have read the slice and not stored it yet. *)
Definition appends (x : reader) : bool :=
  match x with Adds (ToPut _ _) | Adds (ToStore _ _) => true | _ => false end.
(** No two goroutines append at the same time. *)
Definition apart (r : reading) : Prop := (length (filter (fun x => appends x = true) (r_readers r)) <= 1)%nat.
Definition appends_apart (l : list nat) (r : reading) (x : nstate) : Prop :=
  forall k r' x', read_steps grow (take k l) r x = (Ok r', x') -> apart r'.

(** What such a read keeps. *)
Definition reader_fresh (r : reading) (x : reader) : Prop :=
  match x with
  | Adds (ToPut _ v) => v = r_blocks r
  | Adds (ToStore b v) => slice_ok (r_heap r) v /\ contents (r_heap r) v = contents (r_heap r) (r_blocks r) ++ [b]
  | _ => True
  end.
Record order_inv bs (ids : list string) (r : reading) : Prop := {
  oi_ok : slice_ok (r_heap r) (r_blocks r);
  oi_read : Forall (fun b => block_read bs (b_Id b) b) (contents (r_heap r) (r_blocks r));
  oi_ids : (b_Id <$> contents (r_heap r) (r_blocks r)) ++ omap reader_id (r_readers r) ++ r_ids r ≡ₚ ids;
  oi_fresh : Forall (reader_fresh r) (r_readers r) }.

Lemma apart_others r l1 x l2 :
  apart r -> r_readers r = l1 ++ x :: l2 -> appends x = true -> Forall (fun y => appends y = false) (l1 ++ l2).
Proof.
  unfold apart. intros Ha E Hx. rewrite E, filter_app, filter_cons_True, length_app in Ha by done. cbn [length] in Ha.
  apply Forall_forall. intros y Hy. destruct (appends y) eqn:Ey; [|done]. exfalso.
  assert (Hin : y ∈ filter (fun x => appends x = true) l1 ++ filter (fun x => appends x = true) l2).
  { rewrite <- filter_app. by apply list_elem_of_filter. }
  apply list_elem_of_split in Hin as (a & b & E'). apply (f_equal length) in E'. rewrite !length_app in E'. cbn in E'. lia.
Qed.

Lemma idle_fresh r l : Forall (fun y => appends y = false) l -> Forall (reader_fresh r) l.
Proof. intros Hl. eapply Forall_impl; [exact Hl|]. by intros [|[]|]. Qed.

Lemma reader_fresh_ext r r' l :
  r_blocks r' = r_blocks r -> r_heap r' = r_heap r -> Forall (reader_fresh r) l -> Forall (reader_fresh r') l.
Proof. intros E1 E2 Hl. eapply Forall_impl; [exact Hl|]. intros [|[]|]; cbn; by rewrite ?E1, ?E2. Qed.

Lemma order_main bs ids r r' :
  order_inv bs ids r -> main_moves r r' -> r_failed r' = None -> order_inv bs ids r'.
Proof.
  intros [Hok Hrd Hids Hf] (_ & _ & Hm) Hfail. destruct (Hm Hfail) as [_ [->|(i & h & Er & Ers & Eb & Eh)]]; [done|].
  split; rewrite ?Eb, ?Eh; try done.
  - rewrite Ers, omap_app. rewrite Er in Hids. cbn. by rewrite <- app_assoc.
  - rewrite Ers. apply Forall_app. split; [by eapply reader_fresh_ext|by apply Forall_singleton].
Qed.

Lemma order_reader bs mm ids j r r' :
  order_inv bs ids r -> Forall (reader_ok mm bs) (r_readers r) -> reader_moves j r r' -> apart r -> apart r' ->
  order_inv bs ids r'.
Proof.
  intros Ho Hro (_ & _ & _ & Hm) Ha Ha'. pose proof Ho as [Hok Hrd Hids Hf]. destruct (r_readers r !! j) as [x|] eqn:Hj; [|by subst r'].
  pose proof (take_drop_middle _ _ _ Hj) as E. set (l1 := take j (r_readers r)) in *. set (l2 := drop (S j) (r_readers r)) in *.
  assert (Hl1 : length l1 = j) by (unfold l1; rewrite length_take; pose proof (lookup_lt_Some _ _ _ Hj); lia).
  assert (Hins : forall y, <[j := y]> (r_readers r) = l1 ++ y :: l2).
  { intros y. rewrite <- E, <- Hl1. by rewrite insert_app_r_alt, Nat.sub_diag by done. }
  rewrite <- E in Hids, Hf, Hro. rewrite omap_app in Hids. apply Forall_app in Hf as [Hf1 [Hfx Hf2]%Forall_cons].
  destruct x as [i h|p|]; [| |by subst r'].
  - destruct Hm as (b & Hb & ->). rewrite Hins in *. split; cbn [r_heap r_blocks r_readers with_readers r_ids]; try done.
    + rewrite omap_app. cbn in Hids |- *. by rewrite Hb.
    + apply Forall_app. split; [by eapply reader_fresh_ext|]. constructor; [done|by eapply reader_fresh_ext].
  - destruct p as [b|b v|b v]; cbn [append_step] in Hm.
    + subst r'. rewrite Hins in *. split; cbn [r_heap r_blocks r_readers with_readers with_slice r_ids]; try done.
      * rewrite omap_app. exact Hids.
      * pose proof (apart_others _ l1 _ l2 Ha' eq_refl eq_refl) as [H1 H2]%Forall_app.
        apply Forall_app. split; [by apply idle_fresh|]. constructor; [done|by apply idle_fresh].
    + cbn in Hfx. subst v. pose proof (append_put_ok grow b (r_blocks r) (r_heap r) Hok) as Hput.
      destruct (append_put grow b (r_blocks r) (r_heap r)) as [v' h']. destruct Hput as (Hv' & Hcv' & Hok' & Hc').
      subst r'. rewrite Hins in *. split; cbn [r_heap r_blocks r_readers with_readers with_slice r_ids]; rewrite ?Hc'; try done.
      * rewrite omap_app. exact Hids.
      * pose proof (apart_others _ l1 _ l2 Ha' eq_refl eq_refl) as [H1 H2]%Forall_app.
        apply Forall_app. split; [by apply idle_fresh|]. constructor; [|by apply idle_fresh]. split; cbn; [done|by rewrite Hc'].
    + destruct Hfx as [Hv Hcv]. pose proof (apart_others _ l1 _ l2 Ha (eq_sym E) eq_refl) as [H1 H2]%Forall_app.
      subst r'. rewrite Hins in *. split; cbn [r_heap r_blocks r_readers with_readers with_slice r_ids]; rewrite ?Hcv; try done.
      * apply Forall_app. split; [done|]. apply Forall_app in Hro as [_ [Hb _]%Forall_cons]. by apply Forall_singleton.
      * rewrite omap_app, fmap_app, <- Hids. cbn. rewrite <- !app_assoc. cbn. by rewrite (Permutation_middle (omap reader_id l1)).
      * apply Forall_app. split; [by apply idle_fresh|]. constructor; [done|by apply idle_fresh].
Qed.

Lemma read_ordered s ems bs ids n0 l r n r' x' :
  read_inv s ems bs ids n0 r n -> order_inv bs ids r -> Forall (fun h => is_Some (bs !! h)) ids ->
  appends_apart l r (Obj n s) -> read_steps grow l r (Obj n s : nstate) = (Ok r', x') -> order_inv bs ids r'.
Proof.
  intros Hi Ho Hall. revert r n Hi Ho. induction l as [|i l IH]; intros r n Hi Ho Ha Hrun.
  - by injection Hrun as <- <-.
  - destruct (read_step_run s ems bs ids n0 i r n Hi) as (r1 & n1 & Hr1 & Hi1 & Hm).
    cbn [read_steps] in Hrun. rewrite (bind_ok _ _ _ _ _ Hr1) in Hrun.
    assert (Ha1 : appends_apart l r1 (Obj n1 s)).
    { intros k r2 x2 Hr2. apply (Ha (S k) r2 x2). cbn [take read_steps]. by rewrite (bind_ok _ _ _ _ _ Hr1). }
    apply (IH r1 n1 Hi1); [|done..]. destruct i as [|j].
    + apply (order_main bs ids r); [done..|]. pose proof (ri_ids _ _ _ _ _ _ _ Hi1) as Hids1.
      destruct (r_failed r1); [|done]. by destruct Hids1 as (_ & _ & Hunk).
    + apply (order_reader bs (metas n0) ids j r); try done; [apply Hi | apply (Ha 0%nat r _ eq_refl) |].
      apply (Ha1 0%nat r1 _ eq_refl).
Qed.

Lemma order_start bs ids : order_inv bs ids (read_start ids).
Proof. split; cbn; [apply nil_slice_ok | constructor | done | constructor]. Qed.

(** A read of known ids returns whatever the schedule, and with every block when
    no two goroutines append at the same time. *)
Lemma Read_run schedule ids n (s : BadgerStore B) ems bs :
  node_inv n (sees s) ems bs ->
  if decide (Forall (fun h => is_Some (bs !! h)) ids)
  then exists out n', Read grow schedule ids (Obj n s : nstate) = (Ok out, Obj n' s) /\
    node_inv n' (sees s) ems bs /\ same_room n n' /\
    (appends_apart (schedule ++ all_turns (length ids)) (read_start ids) (Obj n s) ->
     exists ids', ids' ≡ₚ ids /\ Forall2 (block_read bs) ids' out)
  else exists n', Read grow schedule ids (Obj n s : nstate) = (Err (Fails ErrBlockNotExisted), Obj n' s) /\
    node_inv n' (sees s) ems bs /\ same_room n n'.
Proof.
  intros Hn. destruct (read_ends s ems bs ids n schedule Hn) as (r & n' & Hrun & Hi & Hnil & Hend).
  pose proof (ri_ids _ _ _ _ _ _ _ Hi) as Hids. unfold Read. rewrite (bind_ok _ _ _ _ _ Hrun), (ri_err _ _ _ _ _ _ _ Hi).
  destruct (r_failed r) as [e|] eqn:Ef.
  - destruct Hids as (-> & _ & Hunk). rewrite decide_False by done. exists n'. split_and!; [done | apply Hi | apply Hi].
  - destruct Hids as (l & El & Hl). rewrite Hnil, app_nil_r in El. subst l. rewrite decide_True by done.
    eexists _, n'. split; [done|]. split; [apply Hi|]. split; [apply Hi|]. intros Ha.
    destruct (read_ordered _ _ _ _ _ _ _ _ _ _ (read_inv_start s ems bs ids n Hn) (order_start bs ids) Hl Ha Hrun)
      as [_ Hrd Hp _].
    exists (b_Id <$> contents (r_heap r) (r_blocks r)). split.
    + etransitivity; [|exact Hp]. rewrite Hnil. replace (omap reader_id (r_readers r)) with (@nil string); [by rewrite !app_nil_r|].
      clear Hp. induction Hend as [|x l -> _ IH]; [done|]. exact IH.
    + apply Forall2_fmap_l. apply Forall_Forall2_diag. exact Hrd.
Qed.

Lemma appends_apart_one s ems bs n l h :
  node_inv n (sees s) ems bs -> appends_apart l (read_start [h]) (Obj n s).
Proof.
  intros Hn k r x Hrun.
  destruct (read_steps_run _ _ _ _ _ (take k l) _ _ (read_inv_start s ems bs [h] n Hn)) as (r' & n' & Hrun' & Hi).
  rewrite Hrun in Hrun'. injection Hrun' as -> ->. pose proof (ri_count _ _ _ _ _ _ _ Hi) as Hc. cbn in Hc. unfold apart.
  pose proof (length_filter (fun x => appends x = true) (r_readers r')). lia.
Qed.

(** A read of one id returns its block under every schedule. *)
Lemma Read_one schedule h n (s : BadgerStore B) ems bs :
  node_inv n (sees s) ems bs ->
  if decide (is_Some (bs !! h))
  then exists b n', Read grow schedule [h] (Obj n s : nstate) = (Ok [b], Obj n' s) /\
    node_inv n' (sees s) ems bs /\ same_room n n' /\ block_read bs h b
  else exists n', Read grow schedule [h] (Obj n s : nstate) = (Err (Fails ErrBlockNotExisted), Obj n' s) /\
    node_inv n' (sees s) ems bs /\ same_room n n'.
Proof.
  intros Hn. pose proof (Read_run schedule [h] n s ems bs Hn) as Hr. destruct (decide (is_Some (bs !! h))) as [Hh|Hh].
  - rewrite decide_True in Hr by (by apply Forall_singleton). destruct Hr as (out & n' & Hrun & Hn' & Hroom & Hap).
    destruct Hap as (ids' & Hp & Hout); [by eapply appends_apart_one|]. apply Permutation_singleton_r in Hp as ->.
    apply Forall2_cons_inv_l in Hout as (b & l & Hb & Hl & ->). apply Forall2_nil_inv_l in Hl as ->. by exists b, n'.
  - rewrite decide_False in Hr by (by rewrite Forall_singleton). exact Hr.
Qed.

(** A read on which only one turn at a time has an effect. *)
Fixpoint advance (who : nat -> option nat) (l : list nat) (k : nat) : nat :=
  match l with [] => k | i :: l => advance who l (if decide (who k = Some i) then S k else k) end.

Lemma read_steps_advance (stage : nat -> reading) (at_ : nat -> nstate) who l k :
  (forall k i, read_step grow i (stage k) (at_ k) =
     if decide (who k = Some i) then (Ok (stage (S k)), at_ (S k)) else (Ok (stage k), at_ k)) ->
  read_steps grow l (stage k) (at_ k) = (Ok (stage (advance who l k)), at_ (advance who l k)).
Proof.
  intros Hstep. revert k. induction l as [|i l IH]; intros k; [done|]. cbn [read_steps advance].
  unfold bind. rewrite Hstep. case_decide; apply IH.
Qed.

(** ** Recycling *)

Section recycling.
Context (range_metas : gmap string BlockMetaEvent -> list (string * BlockMetaEvent)).
Context (range_metas_perm : forall m, range_metas m ≡ₚ map_to_list m).

Lemma Recycle_one n meta :
  metas n = {[BlockID meta := meta]} -> OnBoth meta = true -> Recycle range_metas n = [meta].
Proof.
  intros Hm Hb. unfold Recycle, GetBlockMetas. pose proof (range_metas_perm (metas n)) as Hp.
  rewrite Hm, map_to_list_singleton in Hp. apply Permutation_singleton_r in Hp. rewrite Hm, Hp. cbn. by rewrite Hb.
Qed.

Lemma block_key_ok n m ems bs i v o c meta :
  node_inv n m ems bs -> candidates n !! i = Some v -> block_of (ems i) (BlockID meta) o c -> valid_key meta.
Proof.
  intros Hn Hv [Ho E]. destruct (ni_blocks _ _ _ _ Hn i o c) as [Hc _]; [eauto | done |].
  cbn. rewrite <- E, Hc. apply hash_key_ok.
Qed.

Lemma MarkBlockFreeLocal_run (n : Node) (s : BadgerStore B) mm meta :
  blockMetas n = Some mm -> mm !! BlockID meta = Some meta -> valid_key meta ->
  exists s', MarkBlockFreeLocal (BlockID meta) (Obj n s : nstate) =
    (Ok tt, Obj (with_blockMetas (Some (<[BlockID meta := with_State BlockState_S3_ONLY meta]> mm)) n) s').
Proof.
  intros Hmm Hm Hk. assert (Hk' : valid_key (with_State BlockState_S3_ONLY meta)) by exact Hk.
  destruct (DoSaveInKVPair_any (with_State BlockState_S3_ONLY meta) s Hk') as (s' & Hsave & _).
  exists s'. unfold MarkBlockFreeLocal, _makeBlockState. rewrite bind_fields. cbn [Datatypes.id]. unfold metas.
  rewrite Hmm. cbn [default Datatypes.id]. rewrite Hm, bind_set_fields, Hmm. cbn [fmap option_fmap option_map].
  by rewrite (node_store_run _ _ _ _ _ Hsave).
Qed.

(** A recycled node: the block of [meta] has left its volume and is on S3 only. *)
Definition recycled (n : Node) (meta : BlockMetaEvent) (o : N) (c : DataContainer) (v : volume) (f : fs_state)
    : Node :=
  with_blockMetas (Some {[BlockID meta := with_State BlockState_S3_ONLY meta]})
    (with_candidates (<[be_VolID meta :=
       with_sent [] (with_fs f (with_slot (with_bits (bits (slot v) ∖ {[o]}) (slot v)) v))]> (candidates n)) n).

Lemma RecycleSpace_run n (s : BadgerStore B) ems bs meta v o c :
  node_inv n (sees s) ems bs -> metas n = {[BlockID meta := meta]} -> OnBoth meta = true ->
  candidates n !! be_VolID meta = Some v -> block_of (ems (be_VolID meta)) (BlockID meta) o c ->
  exists f s', RecycleSpace range range_metas (Obj n s : nstate) = (Ok tt, Obj (recycled n meta o c v f) s').
Proof.
  intros Hn Hm Hboth Hv Hb. destruct (ni_vols _ _ _ _ Hn _ _ Hv) as (Hvi & _ & _ & Hse).
  destruct (RemoveLocal_known range range_perm v s _ _ o c Hvi Hb) as (f & s1 & Hrun & _).
  destruct (ni_metas _ _ _ _ Hn) as [mm Hmm]. pose proof Hm as Hm'. unfold metas in Hm'. rewrite Hmm in Hm'.
  cbn in Hm'. subst mm. set (v' := with_fs f _) in Hrun.
  set (n1 := with_candidates (<[be_VolID meta := with_sent [] v']> (candidates n)) n).
  assert (Hk : valid_key meta) by (eapply block_key_ok; eauto).
  destruct (MarkBlockFreeLocal_run n1 s1 {[BlockID meta := meta]} meta Hmm ltac:(apply lookup_singleton_eq) Hk)
    as (s' & Hmark).
  exists f, s'. unfold RecycleSpace. rewrite bind_fields. cbn [Datatypes.id]. rewrite (Recycle_one n meta Hm Hboth).
  cbn [recycle_all]. erewrite bind_ok.
  2:{ eapply on_volume_ok; [exact Hv | exact Hrun |]. change (sent v') with (sent v). rewrite Hse. reflexivity. }
  cbn [fst]. unfold node_try. fold n1. rewrite Hmark. cbn. unfold recycled. fold v'. by rewrite insert_singleton_eq.
Qed.

(** The event of a block that is on S3 only: it counts as back. *)
Lemma announce_again (n : Node) (s : BadgerStore B) mm old ev :
  blockMetas n = Some mm -> mm !! BlockID ev = Some old -> OnS3Only old = true -> valid_key ev ->
  EventType ev = BlockMetaEvent_Add ->
  exists s', stat_rounds [BlockMeta ev true] (Obj n s : nstate) =
    (Ok true, Obj (with_blockMetas (Some (<[BlockID ev := with_State BlockState_LOCAL_S3 ev]> mm)) n) s').
Proof.
  intros Hmm Hold Hs3 Hk Het. assert (Hk' : valid_key (with_State BlockState_LOCAL_S3 ev)) by exact Hk.
  destruct (DoSaveInKVPair_any (with_State BlockState_LOCAL_S3 ev) s Hk') as (s' & Hsave & _). exists s'.
  cbn [stat_rounds stat_round]. unfold bind at 1. unfold node_try, handleBlockMeta. rewrite Het.
  cbn [Z.eqb BlockMetaEvent_Add BlockMetaEvent_Delete]. unfold addBlockMeta. rewrite bind_fields.
  cbn [Datatypes.id]. unfold metas. rewrite Hmm. cbn [default Datatypes.id]. rewrite Hold, Hs3.
  erewrite bind_ok by (by rewrite (node_store_run _ _ _ _ _ Hsave)). rewrite bind_set_fields. done.
Qed.

Lemma on_volume_err {A} i (m : M (object volume (BadgerStore B)) fault A) (n : Node) s v e v' s1 b n' s' :
  candidates n !! i = Some v -> m (Obj v s) = (Err e, Obj v' s1) ->
  stat_rounds (sent v') (Obj (with_candidates (<[i := with_sent [] v']> (candidates n)) n) s1 : nstate) =
    (Ok b, Obj n' s') ->
  on_volume i m (Obj n s : nstate) = (Ok (inr e, b), Obj n' s').
Proof.
  intros Hv Hm Hr. unfold on_volume. rewrite bind_fields. cbn [Datatypes.id]. rewrite Hv. cbn [st].
  rewrite Hm. cbn [self st]. unfold bind. by rewrite Hr.
Qed.

Lemma Select_run (n : Node) (s : BadgerStore B) i v :
  candidates n !! i = Some v -> Select i (Obj n s : nstate) = (Ok i, Obj n s).
Proof. intros Hv. unfold Select. rewrite bind_fields. cbn [Datatypes.id]. by rewrite Hv. Qed.

(** The volume of a recycled node refuses the block, after its event has been
    taken for the news that the block is back. *)
Lemma restore_refused k now n (s0 s : BadgerStore B) ems bs meta v o c f data :
  node_inv n (sees s0) ems bs -> candidates n !! be_VolID meta = Some v ->
  block_of (ems (be_VolID meta)) (BlockID meta) o c -> kv_Get (objects n) (BlockID meta) = inl data ->
  exists ev s', be_VolID ev = be_VolID meta /\ OnS3Only ev = false /\
    restore_job range k now meta (Obj (recycled n meta o c v f) s : nstate) =
    (Err (Fails (Wrapped ErrBlockExisted)),
     Obj (with_blockMetas (Some {[BlockID meta := ev]}) (recycled n meta o c v f)) s').
Proof.
  intros Hn Hv Hb Hget. destruct (ni_vols _ _ _ _ Hn _ _ Hv) as (Hvi & Hid & _ & Hse).
  pose proof (block_key_ok _ _ _ _ _ _ _ _ _ Hn Hv Hb) as Hk. pose proof Hb as [_ Eh].
  assert (Hun : unhex (BlockID meta) = Some (c_Hash c)) by (rewrite <- Eh; apply unhex_hex).
  set (u := with_sent [] (with_fs f (with_slot (with_bits (bits (slot v) ∖ {[o]}) (slot v)) v))).
  set (ct := mkContainer (LogicIndex meta) data (c_Hash c) (crc32 data)).
  assert (Hu : candidates (recycled n meta o c v f) !! be_VolID meta = Some u) by apply lookup_insert_eq.
  assert (Hw : Volume.WriteBlock range k now ct (Obj u s) =
    (Err (Fails ErrBlockExisted), Obj (with_sent [BlockMeta (written_event now u ct) true] u) s)).
  { erewrite WriteBlock_paired; [done|]. cbn [c_Hash ct]. rewrite Eh. by eapply (paired v). }
  destruct (announce_again (recycled n meta o c v f) s {[BlockID meta := with_State BlockState_S3_ONLY meta]}
    (with_State BlockState_S3_ONLY meta) (written_event now u ct) eq_refl) as (s' & Hann);
    [cbn; rewrite Eh; apply lookup_singleton_eq | done | cbn; by rewrite Eh | done |].
  exists (with_State BlockState_LOCAL_S3 (written_event now u ct)), s'. split_and!; [exact Hid | done |].
  cbn [BlockID written_event ct c_Hash] in Hann. rewrite Eh, insert_singleton_eq in Hann.
  unfold restore_job. rewrite bind_fields. cbn [Datatypes.id].
  change (objects (recycled n meta o c v f)) with (objects n). rewrite Hget.
  unfold node_try. rewrite (Select_run _ s _ _ Hu). rewrite Hun. fold ct.
  erewrite (bind_ok (on_volume _ _) _ _ (inr (Fails ErrBlockExisted), true)); [reflexivity|].
  eapply on_volume_err; [exact Hu | exact Hw |].
  cbn [sent with_sent]. rewrite (insert_id _ _ (with_sent _ _)) by exact Hu. exact Hann.
Qed.

(** A read of a block that is on S3 only returns before the block is fetched. *)
Lemma Read_s3_only schedule (n : Node) (s : BadgerStore B) h meta :
  metas n !! h = Some meta -> OnS3Only meta = true ->
  (Read grow schedule [h] (Obj n s : nstate)).1 = Ok [mkPbBlock [] 0 (LogicIndex meta) (be_Crc32 meta) h].
Proof.
  intros Hm Hs3. set (b := mkPbBlock [] 0 (LogicIndex meta) (be_Crc32 meta) h).
  set (n1 := with_jobs (jobs n ++ [RestoreJob meta]) n). set (a1 := nil_heap ++ [mkArray (grow 0) [b]]).
  set (stage := fun k => match k with
    | 0 => read_start [h]
    | 1 => mkReading [] (Some (ToLoad b)) [] nil_slice nil_heap None None
    | 2 => mkReading [] (Some (ToPut b nil_slice)) [] nil_slice nil_heap None None
    | 3 => mkReading [] (Some (ToStore b (mkSlice 1 1))) [] nil_slice a1 None None
    | _ => mkReading [] None [] (mkSlice 1 1) a1 None None
    end%nat).
  set (at_ := fun k : nat => Obj (match k with O => n | _ => n1 end) s : nstate).
  set (who := fun k : nat => if (k <? 4)%nat then Some 0%nat else None).
  assert (Hstep : forall k i, read_step grow i (stage k) (at_ k) =
    if decide (who k = Some i) then (Ok (stage (S k)), at_ (S k)) else (Ok (stage k), at_ k)).
  { intros k [|i]; [|rewrite decide_False by (unfold who; by destruct (k <? 4)%nat); by destruct k as [|[|[|[|k]]]]].
    destruct k as [|[|[|[|k]]]]; [|done..]. cbn [read_step stage]. unfold main_step. cbn [r_main r_ids read_start].
    unfold at_. rewrite bind_fields. cbn [Datatypes.id]. unfold GetBlockMeta. by rewrite Hm, Hs3. }
  unfold Read. rewrite (bind_ok _ _ _ _ _ (read_steps_advance stage at_ who _ 0 Hstep)).
  assert (E : advance who (schedule ++ all_turns (length [h])) 0 = 4%nat); [|by rewrite E].
  assert (Hadv : forall l k, (k <= 4 -> advance who (l ++ all_turns 1) k = 4)%nat); [|apply Hadv; lia].
  induction l as [|i l IH]; intros k Hk; [by do 5 (destruct k as [|k]; [done|]); lia|].
  cbn [app advance]. apply IH. case_decide as E; [|done]. unfold who in E. destruct (Nat.ltb_spec k 4); [lia|done].
Qed.

Lemma Read_failing schedule (n : Node) (s : BadgerStore B) h meta v e :
  metas n !! h = Some meta -> OnS3Only meta = false -> candidates n !! be_VolID meta = Some v -> sent v = [] ->
  ReadBlock h (Obj v s) = (Err e, Obj v s) -> (Read grow schedule [h] (Obj n s : nstate)).1 = Err e.
Proof.
  intros Hm Hs3 Hv Hse Hread. set (n1 := with_candidates (<[be_VolID meta := with_sent [] v]> (candidates n)) n).
  set (stage := fun k => match k with
    | 0 => read_start [h]
    | 1 => mkReading [] None [Fetch (be_VolID meta) h] nil_slice nil_heap None None
    | _ => mkReading [] None [Ended] nil_slice nil_heap None (Some e)
    end%nat).
  set (at_ := fun k : nat => Obj (match k with 0%nat | 1%nat => n | _ => n1 end) s : nstate).
  set (who := fun k : nat => match k with 0 => Some 0 | 1 => Some 1 | _ => None end%nat).
  assert (Hstep : forall k i, read_step grow i (stage k) (at_ k) =
    if decide (who k = Some i) then (Ok (stage (S k)), at_ (S k)) else (Ok (stage k), at_ k)).
  { intros [|[|k]] [|[|i]]; try done; cbn [read_step stage].
    - unfold main_step. cbn [r_main r_ids read_start]. unfold at_. rewrite bind_fields. cbn [Datatypes.id]. unfold GetBlockMeta.
      rewrite Hm, Hs3. unfold catch, SelectRead. rewrite bind_fields. cbn [Datatypes.id]. by rewrite Hm.
    - unfold reader_step. cbn [r_readers lookup list_lookup].
      erewrite (bind_ok (on_volume _ _)); [|eapply on_volume_err; [exact Hv | exact Hread | by rewrite Hse]].
      cbn [fst]. unfold with_error. cbn. by destruct e. }
  unfold Read. rewrite (bind_ok _ _ _ _ _ (read_steps_advance stage at_ who _ 0 Hstep)).
  assert (E : advance who (schedule ++ all_turns (length [h])) 0 = 2%nat); [|by rewrite E].
  assert (Hadv : forall l k, (k <= 2 -> advance who (l ++ all_turns 1) k = 2)%nat); [|apply Hadv; lia].
  induction l as [|i l IH]; intros k Hk; [by do 3 (destruct k as [|k]; [done|]); lia|].
  cbn [app advance]. apply IH. case_decide as E; [|done]. by destruct k as [|[|k]]; [lia..|].
Qed.
End recycling.

(** The state of the only record, and the objects, may change. *)
Lemma node_inv_record n m ems bs h x y ob :
  node_inv n m ems bs -> metas n = {[h := x]} ->
  be_VolID y = be_VolID x -> BlockID y = BlockID x -> OnS3Only y = false ->
  node_inv (with_objects ob (with_blockMetas (Some {[h := y]}) n)) m ems bs.
Proof.
  intros [H1 H2 H3 H4 H5 H6] E Hv Hb Hs. split; [exact H1 | exact H2 | exact H3 | by eexists | |].
  - intros h'. specialize (H5 h'). rewrite E in H5. unfold metas. cbn [blockMetas with_objects with_blockMetas default Datatypes.id].
    destruct (decide (h' = h)) as [->|Hh].
    + rewrite lookup_singleton_eq in *. rewrite Hv, Hb. naive_solver.
    + by rewrite lookup_singleton_ne in *.
  - intros j q c Hj Hc. destruct (H6 j q c Hj Hc) as [Hsha Hm]. split; [done|]. rewrite E in Hm.
    unfold metas. cbn [blockMetas with_objects with_blockMetas default Datatypes.id].
    by rewrite lookup_singleton_is_Some in *.
Qed.

(** * Theorems *)

(** C2 A storage node is a map from block ids to data, over any badger and file
    system that behave as documented.  A write with a wrong checksum is refused; a
    write with an index of at most the largest block that can be allocated, to a node
    that has volumes, all of them with room, adds the data under the digest of its
    content, or finds it there.  A read of one id returns its data and checksum under every
    schedule of its goroutine, a read with an unknown id fails.  A read of several
    known ids always returns, and it returns the block of every id, in some order,
    when no two of its goroutines are in [append] at the same time; nothing keeps
    them from it ([Read_loses_block]). *)
Theorem Node_implements k now (n : Node) (s : BadgerStore B) ems bs :
  node_inv n (sees s) ems bs ->
  (forall req, req_Crc32 req <> crc32 (req_BlockData req) ->
     Write range range_stats (S k) now req (Obj n s : nstate) = (Err (Fails (ErrOther "crc32 mismatch")), Obj n s)) /\
  (forall req idx, let d := req_BlockData req in
     candidates n <> ∅ -> (forall i v, candidates n !! i = Some v -> Remains (slot v) <> 0) ->
     req_Crc32 req = crc32 d -> req_BlockIdx req = Some idx -> idx < 2 ^ 64 -> N.of_nat (length d) <= max_alloc ->
     exists res n' s' ems', Write range range_stats (S k) now req (Obj n s : nstate) = (Ok res, Obj n' s') /\
       res_BlockId res = hex (sha256 d) /\ res_Crc32 res = crc32 d /\
       node_inv n' (sees s') ems' (if decide (is_Some (bs !! hex (sha256 d))) then bs else <[hex (sha256 d) := d]> bs)) /\
  (forall schedule h d, bs !! h = Some d -> exists b n',
     Read grow schedule [h] (Obj n s : nstate) = (Ok [b], Obj n' s) /\ node_inv n' (sees s) ems bs /\
     b_Data b = d /\ b_Id b = h /\ b_Crc32 b = crc32 d /\ b_Len b = wrap32 (N.of_nat (length d))) /\
  (forall schedule ids, if decide (Forall (fun h => is_Some (bs !! h)) ids)
     then exists out n', Read grow schedule ids (Obj n s : nstate) = (Ok out, Obj n' s) /\ node_inv n' (sees s) ems bs /\
       (appends_apart (schedule ++ all_turns (length ids)) (read_start ids) (Obj n s) ->
        exists ids', ids' ≡ₚ ids /\ Forall2 (block_read bs) ids' out)
     else exists n', Read grow schedule ids (Obj n s : nstate) = (Err (Fails ErrBlockNotExisted), Obj n' s) /\
       node_inv n' (sees s) ems bs).
Proof.
  intros Hn. split_and!.
  - intros req Hcrc. unfold Write. by rewrite (proj2 (N.eqb_neq _ _)) by congruence.
  - intros req idx d Hne Hroom Hcrc Hidx Hi64 Hlen. case_decide as Hd.
    + destruct Hd as [d' Hd]. pose proof (ni_meta _ _ _ _ Hn (hex (sha256 d))) as Hm.
      destruct (metas n !! hex (sha256 d)) as [meta|] eqn:Hmeta; [|congruence].
      eexists _, n, s, ems. split_and!.
      * unfold Write. fold d. rewrite Hcrc, N.eqb_refl. cbn [negb]. rewrite Hidx. unfold bind at 1, deref. cbn [ret].
        rewrite bind_fields. cbn [Datatypes.id]. unfold GetBlockMeta. rewrite Hmeta. reflexivity.
      * apply Hm.
      * done.
      * done.
    + apply eq_None_not_Some in Hd.
      destruct (Write_new k now n s ems bs req idx Hn Hne Hroom Hcrc Hidx Hi64 Hlen Hd) as (i & o & n' & s' & Hrun & Hn' & _).
      eexists _, n', s', _. split_and!; [exact Hrun | done | done | exact Hn'].
  - intros schedule h d Hd. pose proof (Read_one schedule h n s ems bs Hn) as Hr. rewrite decide_True in Hr by eauto.
    destruct Hr as (b & n' & Hrun & Hn' & _ & Hb & Hid & Hcrc & Hlen). rewrite Hd in Hb. injection Hb as ->. by exists b, n'.
  - intros schedule ids. pose proof (Read_run schedule ids n s ems bs Hn) as Hr. case_decide.
    + destruct Hr as (out & n' & ? & ? & _ & ?). by exists out, n'.
    + destruct Hr as (n' & ? & ? & _). by exists n'.
Qed.

(** The goroutines of a read append to the response without a lock: a read of two
    blocks the node has can return with one of them. *)
Theorem Read_loses_block (n : Node) (s : BadgerStore B) ems bs h1 h2 d1 d2 :
  node_inv n (sees s) ems bs -> bs !! h1 = Some d1 -> bs !! h2 = Some d2 ->
  exists schedule b n', Read grow schedule [h1; h2] (Obj n s : nstate) = (Ok [b], Obj n' s) /\
    b_Id b = h2 /\ b_Data b = d2.
Proof.
  intros Hn H1 H2. assert (Hk : forall h d, bs !! h = Some d -> exists meta, metas n !! h = Some meta /\ OnS3Only meta = false).
  { intros h d Hd. pose proof (ni_meta _ _ _ _ Hn h) as Hm. destruct (metas n !! h) as [meta|]; [|congruence].
    exists meta. split; [done|]. apply Hm. }
  destruct (Hk _ _ H1) as (m1 & Hm1 & Hs1), (Hk _ _ H2) as (m2 & Hm2 & Hs2).
  destruct (read_volume n s ems bs (be_VolID m1) h1 Hn) as (d & hd1 & n1 & Hr1 & Hn1 & _ & Hmm & _); [by exists m1|].
  destruct (read_volume n1 s ems bs (be_VolID m2) h2 Hn1) as (e & hd2 & n2 & Hr2 & _ & _ & _ & Hd2 & _ & _ & Hid).
  { exists m2. by rewrite Hmm. }
  exists [0; 0; 1; 2; 1; 2; 1; 2; 1; 2]%nat, (mkPbBlock e (wrap32 (DataLen hd2)) (Index hd2) (Crc32 hd2) (HashReadable hd2)), n2.
  split; [|split; [done|cbn; congruence]].
  assert (Hmain : forall h m rest rd, metas n !! h = Some m -> OnS3Only m = false ->
    read_step grow 0 (mkReading (h :: rest) None rd nil_slice nil_heap None None) (Obj n s : nstate) =
    (Ok (mkReading rest None (rd ++ [Fetch (be_VolID m) h]) nil_slice nil_heap None None), Obj n s)).
  { intros h m rest rd Hm Hs. cbn [read_step]. unfold main_step. cbn [r_main r_ids]. rewrite bind_fields. cbn [Datatypes.id].
    unfold GetBlockMeta. rewrite Hm, Hs. unfold catch, SelectRead. rewrite bind_fields. cbn [Datatypes.id]. by rewrite Hm. }
  unfold Read, read_start. cbn [app read_steps]. unfold bind at 1 2. rewrite (Hmain h1 m1) by done. 
  unfold bind at 1. rewrite (Hmain h2 m2) by done. cbn [app].
  unfold bind at 1. cbn [read_step]. unfold reader_step at 1. cbn [r_readers lookup list_lookup].
  rewrite (bind_ok _ _ _ _ _ Hr1). cbn [fst]. unfold bind at 1, deref. cbn [ret].
  unfold bind at 1. cbn [read_step]. unfold reader_step at 1. cbn [r_readers with_readers insert list_insert lookup list_lookup].
  rewrite (bind_ok _ _ _ _ _ Hr2). cbn [fst]. unfold bind at 1, deref. cbn [ret].
  reflexivity.
Qed.

(** Writes go to the volume with the most room left. *)
Theorem SelectWrite_most_room (n : Node) (s : BadgerStore B) m ems bs :
  node_inv n m ems bs -> candidates n <> ∅ ->
  exists i vs, SelectWrite range_stats (Obj n s : nstate) = (Ok i, Obj n s) /\
    is_Some (candidates n !! i) /\ volStats n !! i = Some vs /\
    forall j vs', volStats n !! j = Some vs' -> RemainCap vs' <= RemainCap vs.
Proof.
  intros Hn Hne. destruct (SelectWrite_run n s m ems bs Hn Hne) as (i & vs & Hsel & Hc & Hvs).
  exists i, vs. split_and!; [done..|]. intros j vs' Hj. unfold SelectWrite in Hsel. rewrite bind_fields in Hsel.
  cbn [Datatypes.id] in Hsel. destruct (SliceStable _ _) as [|w r] eqn:E; [done|]. injection Hsel as Hw.
  assert (Hwi : w ∈ (range_stats (volStats n)).*2) by (rewrite <- (SliceStable_perm (fun a b => RemainCap b <? RemainCap a)), E; apply elem_of_cons; by left).
  apply list_elem_of_fmap in Hwi as ([j' w'] & -> & Hwi). rewrite range_stats_perm, elem_of_map_to_list in Hwi.
  cbn [snd] in *. pose proof (ni_stat_id _ _ _ _ Hn _ _ Hwi) as Ej. rewrite Hw in Ej. subst j'.
  rewrite Hvs in Hwi. injection Hwi as <-.
  eapply (SliceStable_head (fun i j => RemainCap j <? RemainCap i) vs _ r vs') in E.
  - apply N.ltb_ge in E. exact E.
  - intros a b. destruct (N.ltb_spec (RemainCap b) (RemainCap a)); [right|by left].
    apply N.ltb_ge. lia.
  - intros a b c H1%N.ltb_ge H2%N.ltb_ge. apply N.ltb_ge. lia.
  - apply list_elem_of_fmap. exists (j, vs'). split; [done|]. by rewrite range_stats_perm, elem_of_map_to_list.
Qed.

(** Recycling a destaged block loses it to readers: a read succeeds with no data,
    and the restore it starts is refused by the volume, after which the record
    says that the block is on disk and reads fail. *)
Theorem RecycleSpace_loses_block schedule schedule' range_metas k now n (s : BadgerStore B) ems bs meta data :
  node_inv n (sees s) ems bs -> (forall m, range_metas m ≡ₚ map_to_list m) ->
  metas n = {[BlockID meta := meta]} -> OnBoth meta = true -> kv_Get (objects n) (BlockID meta) = inl data ->
  exists n1 s1, RecycleSpace range range_metas (Obj n s : nstate) = (Ok tt, Obj n1 s1) /\
    (Read grow schedule [BlockID meta] (Obj n1 s1 : nstate)).1 =
      Ok [mkPbBlock [] 0 (LogicIndex meta) (be_Crc32 meta) (BlockID meta)] /\
    exists n2 s2, restore_job range k now meta (Obj n1 s1 : nstate) =
        (Err (Fails (Wrapped ErrBlockExisted)), Obj n2 s2) /\
      (Read grow schedule' [BlockID meta] (Obj n2 s2 : nstate)).1 = Err (Fails (ErrOther "block is not occupied")).
Proof.
  intros Hn Hr Hm Hboth Hget. pose proof (ni_meta _ _ _ _ Hn (BlockID meta)) as Hmeta.
  rewrite Hm, lookup_singleton_eq in Hmeta. destruct Hmeta as (_ & _ & [v Hv] & o & c & Hb & _).
  destruct (RecycleSpace_run range_metas Hr n s ems bs meta v o c Hn Hm Hboth Hv Hb) as (f & s1 & Hrec).
  exists (recycled n meta o c v f), s1. split_and!; [exact Hrec | |].
  - by apply (Read_s3_only schedule (recycled n meta o c v f) s1 _ (with_State BlockState_S3_ONLY meta));
      [apply lookup_singleton_eq|].
  - destruct (restore_refused k now n s s1 ems bs meta v o c f data Hn Hv Hb Hget) as (ev & s2 & Hev & Hs3 & Hrest).
    eexists _, s2. split; [exact Hrest|]. pose proof (ni_vols _ _ _ _ Hn _ _ Hv) as (Hvi & _).
    eapply (Read_failing schedule' _ _ _ ev); [apply lookup_singleton_eq | done | | |].
    + rewrite Hev. apply lookup_insert_eq.
    + done.
    + eapply (ReadBlock_freed range range_perm v); [apply Hvi | exact Hb | done].
Qed.
End node_props.

(** * Witnesses *)

(** An object store that holds its objects. *)
#[local] Instance RefCloud : CloudKV := {|
  cloud := gmap string (list byte);
  kv_Get := fun m k => match m !! k with Some d => inl d | None => inr ErrEngineNotFound end;
  kv_Put := fun m k d => (<[k := d]> m, None) |}.

(** A node with the empty volume [volume0], and a request to store one byte. *)
Definition node0 : Node (F := MemFs) (L := RefLru) :=
  mkNode 9 {[5 := volume0]} {[5 := stat volume0]} (Some ∅) ∅ [].
Definition request0 : WriteRequest := mkWriteRequest 2 (Some 3) [x07] (crc32 [x07]).

Lemma node0_inv : node_inv node0 (seen disk0) (fun _ => ∅) ∅.
Proof.
  split.
  - intros i v Hv. cbn [candidates node0] in Hv. apply lookup_singleton_Some in Hv as [<- <-]. split_and!; [apply volume0_inv | done..].
  - intros i. cbn [candidates volStats node0]. by rewrite !lookup_singleton_is_Some.
  - intros i vs Hv. cbn [volStats node0] in Hv. by apply lookup_singleton_Some in Hv as [<- <-].
  - by eexists.
  - intros h. unfold metas. cbn. by rewrite !lookup_empty.
  - intros i o c _ Hc. by rewrite lookup_empty in Hc.
Qed.

Lemma node0_room i v : candidates node0 !! i = Some v -> Remains (slot v) <> 0.
Proof. intros Hv. cbn [candidates node0] in Hv. by apply lookup_singleton_Some in Hv as [<- <-]. Qed.

Lemma Node_implements_witness :
  exists res n' s', Write map_to_list map_to_list 1 0 request0 (Obj node0 disk0) = (Ok res, Obj n' s') /\
    res_BlockId res = hex (sha256 [x07]).
Proof.
  destruct (Node_implements (B := MemBadger) (F := MemFs) (L := RefLru) (C := RefCloud) map_to_list map_to_list
    ltac:(done) (fun c => S (2 * c)) 0 0 node0 disk0 (fun _ => ∅) ∅ node0_inv) as (_ & Hw & _).
  destruct (Hw request0 3 ltac:(done) node0_room eq_refl eq_refl ltac:(done) ltac:(done))
    as (res & n' & s' & ems' & Hrun & Hid & _).
  exists res, n', s'. split; [exact Hrun | exact Hid].
Defined.

Lemma SelectWrite_most_room_witness :
  exists i vs, SelectWrite map_to_list (Obj node0 disk0) = (Ok i, Obj node0 disk0) /\ volStats node0 !! i = Some vs.
Proof.
  destruct (SelectWrite_most_room (B := MemBadger) (F := MemFs) (L := RefLru) (C := RefCloud) map_to_list
    ltac:(done) node0 disk0 (seen disk0) (fun _ => ∅) ∅ node0_inv ltac:(done)) as (i & vs & Hrun & _ & Hvs & _).
  exists i, vs. split; [exact Hrun | exact Hvs].
Defined.

#[local] Instance BlockMetaEvent_eq_dec : EqDecision BlockMetaEvent.
Proof. solve_decision. Defined.

(** The node after the write, once its block has been copied to the object store. *)
Definition id7 : string := Eval vm_compute in hex (sha256 [x07]).
Definition meta7 : BlockMetaEvent :=
  mkEvent 5 id7 1 3 (crc32 [x07]) BlockMetaEvent_Add BlockState_LOCAL_S3 0.
Definition stored0 : object (Node (F := MemFs) (L := RefLru)) mem_store :=
  (Write map_to_list map_to_list 1 0 request0 (Obj node0 disk0)).2.
Definition destaged0 : Node := with_objects {[id7 := [x07]]} (with_blockMetas (Some {[id7 := meta7]}) (self stored0)).

Lemma destaged0_inv : exists ems bs, node_inv destaged0 (seen (st stored0)) ems bs.
Proof.
  destruct (Write_new (B := MemBadger) (F := MemFs) (L := RefLru) (C := RefCloud) map_to_list map_to_list
    ltac:(done) 0 0 node0 disk0 (fun _ => ∅) ∅ request0 3 node0_inv ltac:(done) node0_room
    eq_refl eq_refl ltac:(done) ltac:(done) (lookup_empty _)) as (i & o & n' & s' & Hrun & Hn & _).
  assert (E : metas (self stored0) = {[id7 := with_State BlockState_LOCAL meta7]})
    by (apply (bool_decide_unpack _); by vm_compute).
  unfold destaged0. assert (Es : stored0 = Obj n' s') by (unfold stored0; by rewrite Hrun).
  rewrite Es in E |- *. cbn [self st] in *. eexists _, _. by eapply node_inv_record.
Qed.

Lemma RecycleSpace_loses_block_witness :
  exists n1 s1, RecycleSpace map_to_list map_to_list (Obj destaged0 (st stored0)) = (Ok tt, Obj n1 s1) /\
    (Read (fun c => S (2 * c)) [] [id7] (Obj n1 s1)).1 = Ok [mkPbBlock [] 0 3 (be_Crc32 meta7) id7].
Proof.
  destruct destaged0_inv as (ems & bs & Hn).
  destruct (RecycleSpace_loses_block (B := MemBadger) (F := MemFs) (L := RefLru) (C := RefCloud) map_to_list
    ltac:(done) (fun c => S (2 * c)) [] [] map_to_list 1 0 destaged0 (st stored0) ems bs meta7 [x07] Hn ltac:(done)
    eq_refl eq_refl eq_refl) as (n1 & s1 & Hrec & Hread & _).
  exists n1, s1. split; [exact Hrec | exact Hread].
Defined.
