(* ===== verification/Gateway.v ===== *)
(** The gateway of src/pkg/storage/gateway, through which clients store blocks:
    the proxy of the metadata server with its caches (metaproxy.go), the
    connections to storage nodes (selector.go, connector.go) and the coordinator
    (coordinator.go), which writes a block to several nodes, records where it is
    and reads it back from one of them.  The storage nodes and the metadata
    server are classes; the services of this library are their instances. *)
From Stdlib Require Import Ascii Strings.Byte ZArith NArith DecimalString Lia.
From stdpp Require Import prelude gmap strings list fin_maps.
From S2P Require Import Prelude Store Attr MetaStore Hash Volume DataNode BlockMap Cluster VolumeMeta Interval StorageBackend.

(** * Addresses *)

Definition StorageAddr (n : StorageNode) : string := (Ip n +:+ ":" +:+ itoa (Port n))%string.
Definition StorageTcpAddr (n : StorageNode) : string := (Ip n +:+ ":" +:+ itoa (TcpPort n))%string.

Definition ErrAddr : error := ErrOther "address error".
Definition ErrNoSuchVolume : error := ErrOther "no such volume".
Definition ErrNoSuchNode : error := ErrOther "no such node".

(** The parts before and after the last occurrence of a byte. *)
Fixpoint cut_last (c : ascii) (s : string) : option (string * string) :=
  match s with
  | EmptyString => None
  | String a r =>
      match cut_last c r with
      | Some (x, y) => Some (String a x, y)
      | None => if bool_decide (a = c) then Some (EmptyString, r) else None
      end
  end.

(** [net.SplitHostPort]: the port follows the last colon; a host with colons is
    in brackets. *)
Definition SplitHostPort (hostport : string) : option (string * string) :=
  match cut_last ":"%char hostport with
  | None => None
  | Some (host, port) =>
      match hostport with
      | String a rest =>
          if bool_decide (a = "["%char) then
            let '(inner, after) := cut "]"%char rest in
            if bool_decide (after = (":" +:+ port)%string) && has_char "]"%char rest
               && negb (has_char "["%char rest) && negb (has_char "]"%char after)
            then Some (inner, port) else None
          else if has_char ":"%char host || has_char "["%char hostport || has_char "]"%char hostport
          then None else Some (host, port)
      | EmptyString => None
      end
  end.

(** [net.LookupPort] of a decimal number; other names are looked up in
    /etc/services, which no address built here asks for. *)
Definition LookupPort (s : string) : option N :=
  match NilEmpty.uint_of_string s with
  | Some d => let n := N.of_uint d in if (n <=? 65535)%N then Some n else None
  | None => None
  end.

(** * The servers *)

(** The calls on the storage node at an address; [dial] says whether a
    connection to it can be made. *)
Class StorageServers (W : Type) := {
  dial : string -> W -> bool;
  rpc_Write : string -> WriteRequest -> M W fault WriteResponse;
  rpc_Read : string -> list string -> M W fault (list PbBlock);
  rpc_DeleteBlock : string -> list string -> M W fault unit;
}.

(** The calls on the metadata server, [now] its time. *)
Class MetaServer (S : Type) := {
  rpc_GetInoBlockMap : N -> M S error (gmap N BlockMeta);
  rpc_UpdateBlockLocation : N -> BlockMeta -> M S error unit;
  rpc_LoadConfiguration : M S error (list PhysicalVolume);
  rpc_ListStorageNodes : M S error (list StorageNode);
}.

(** * State *)

Record MetaProxy := mkMetaProxy {
  volumeNodeCache : gmap N N;
  nodeAddrCache : gmap N string;
  nodeTcpAddrCache : gmap N string;
  proxy_nodes : gmap N StorageNode }.

(** A client whose connection could not be made has no service to call. *)
Record StorageClientImpl := mkStorageClientImpl { client_addr : string; connected : bool }.

(** [blockMetaMu] says whether the mutex is locked. *)
Record Gateway (W S : Type) := mkGateway {
  metaProxy : MetaProxy;
  storageClients : gmap Z StorageClientImpl;
  blockMetaMu : bool;
  blockMetaCache : gmap N (gmap N BlockMeta);
  servers : W;
  metadata : S }.
Arguments mkGateway {W S} _ _ _ _ _ _.
Arguments metaProxy {W S} _.
Arguments storageClients {W S} _.
Arguments blockMetaMu {W S} _.
Arguments blockMetaCache {W S} _.
Arguments servers {W S} _.
Arguments metadata {W S} _.

Section gateway.
Context {W S : Type} `{StorageServers W} `{MetaServer S}.

(** The configured number of copies beside the first. *)
Context (replica : Z).
(** Whether the cached block map of a file has not expired. *)
Context (unexpired : N -> bool).
(** [lo.Shuffle], and the orders in which Go walks maps and goroutines end. *)
Context (shuffle : list N -> list N).
(** Whether a decoded slice of that many volume ids has room for another one. *)
Context (spare : nat -> bool).
Context (range_nodes : gmap N StorageNode -> list (N * StorageNode)).
Context (schedule : list nat -> list nat).
Context (order : list N -> list N).

Abbreviation GM A := (M (Gateway W S) fault A).

Definition with_proxy (x : MetaProxy) (g : Gateway W S) : Gateway W S :=
  mkGateway x (storageClients g) (blockMetaMu g) (blockMetaCache g) (servers g) (metadata g).
Definition with_clients (x : gmap Z StorageClientImpl) (g : Gateway W S) : Gateway W S :=
  mkGateway (metaProxy g) x (blockMetaMu g) (blockMetaCache g) (servers g) (metadata g).
Definition with_mu (x : bool) (g : Gateway W S) : Gateway W S :=
  mkGateway (metaProxy g) (storageClients g) x (blockMetaCache g) (servers g) (metadata g).
Definition with_cache (x : gmap N (gmap N BlockMeta)) (g : Gateway W S) : Gateway W S :=
  mkGateway (metaProxy g) (storageClients g) (blockMetaMu g) x (servers g) (metadata g).
Definition with_servers (x : W) (g : Gateway W S) : Gateway W S :=
  mkGateway (metaProxy g) (storageClients g) (blockMetaMu g) (blockMetaCache g) x (metadata g).
Definition with_metadata (x : S) (g : Gateway W S) : Gateway W S :=
  mkGateway (metaProxy g) (storageClients g) (blockMetaMu g) (blockMetaCache g) (servers g) x.

Definition fails {A} (e : error) : GM A := throw (Fails e).
(** The [v, err := f()] form; a call that never returns does not come back. *)
Definition gw_try {A D} (m : GM A) (k : A + error -> GM D) : GM D := fun g =>
  match m g with
  | (Ok a, g') => k (inl a) g'
  | (Err (Fails e), g') => k (inr e) g'
  | (Err Blocked, g') => (Err Blocked, g')
  | (Panic, g') => (Panic, g')
  end.
Definition on_servers {A} (m : M W fault A) : GM A := fun g =>
  let '(r, w) := m (servers g) in (r, with_servers w g).
Definition on_metadata {A} (m : M S error A) : GM A := fun g =>
  let '(r, s) := m (metadata g) in (lift_outcome r, with_metadata s g).

(** Locking a locked mutex waits for ever: nothing else runs. *)
Definition lock_mu : GM unit :=
  g <- gets Datatypes.id ;;
  if blockMetaMu g then throw Blocked else modify (with_mu true).
Definition unlock_mu : GM unit := modify (with_mu false).

(** * Connections *)

Definition connector_Get (peerId : Z) : GM (option StorageClientImpl) :=
  gets (fun g => storageClients g !! peerId).

(** Start drops the error of dialling. *)
Definition NewStorageClientImpl (addr : string) : GM StorageClientImpl :=
  gets (fun g => mkStorageClientImpl addr (dial addr (servers g))).

Definition ConnectToPeer (peerId : Z) (addr : string) : GM unit :=
  c <- connector_Get peerId ;;
  match c with
  | Some _ => ret tt
  | None =>
      client <- NewStorageClientImpl addr ;;
      modify (fun g => with_clients (<[peerId := client]> (storageClients g)) g)
  end.

(** A type assertion on nil panics. *)
Definition Select (n : StorageNode) : GM StorageClientImpl :=
  let peerId := to_int (Id n) in
  c <- connector_Get peerId ;;
  match c with
  | Some c => ret c
  | None =>
      ConnectToPeer peerId (StorageAddr n) ;;;
      c <- connector_Get peerId ;;
      deref c
  end.

(** A call through a client without a connection panics. *)
Definition client_call {A} (c : StorageClientImpl) (m : string -> M W fault A) : GM A :=
  if connected c then on_servers (m (client_addr c)) else go_panic.

(** * The proxy of the metadata server *)

Definition Ready (m : MetaProxy) : bool := (2 <? size (volumeNodeCache m))%nat.

(** The node of a volume, built from the cached addresses. *)
Definition GetNode (volId : N) (m : MetaProxy) : StorageNode + error :=
  match volumeNodeCache m !! volId with
  | None => inr ErrNoSuchVolume
  | Some nodeId =>
      match nodeAddrCache m !! nodeId with
      | None => inr ErrNoSuchNode
      | Some addr =>
          match SplitHostPort addr with
          | None => inr ErrAddr
          | Some (host, _port) =>
              match LookupPort _port with
              | None => inr ErrAddr
              | Some port =>
                  match nodeTcpAddrCache m !! nodeId with
                  | None => inr ErrNoSuchNode
                  | Some tcpaddr =>
                      match SplitHostPort tcpaddr with
                      | None => inr ErrAddr
                      | Some (_, _tcpport) =>
                          match LookupPort _tcpport with
                          | None => inr ErrAddr
                          | Some tcpport =>
                              inl (mkStorageNode nodeId host port 0 0 [] 0 0 [] tcpport)
                          end
                      end
                  end
              end
          end
      end
  end.

Definition proxy_GetNode (volId : N) : GM StorageNode :=
  g <- gets Datatypes.id ;;
  match GetNode volId (metaProxy g) with inl n => ret n | inr e => fails e end.

(** [node.Usage += usage] on uint64. *)
Definition trackUsage (nodeId usage : N) (m : MetaProxy) : MetaProxy :=
  mkMetaProxy (volumeNodeCache m) (nodeAddrCache m) (nodeTcpAddrCache m)
    (alter (fun n => with_Usage n (wrap64 (Usage n + usage))) nodeId (proxy_nodes m)).

(** More free space goes first; the difference of two ints wraps. *)
Definition freer (a b : StorageNode) : bool := (sub64 (free_space b) (free_space a) <? 0)%Z.

(** [nodes[:n]] panics for a negative [n]. *)
Definition GetTopNPlus : GM (list StorageNode) :=
  g <- gets Datatypes.id ;;
  let n := (replica + 1)%Z in
  let nodes := proxy_nodes (metaProxy g) in
  if (Z.of_nat (size nodes) <? n)%Z then fails ErrNoSuchNode
  else if (n <? 0)%Z then go_panic
  else ret (take (Z.to_nat n) (SliceStable freer (range_nodes nodes).*2)).

(** One node of the listing: a node that is known keeps its usage unless the
    server reports more. *)
Definition cache_node (m : MetaProxy) (s : StorageNode) : MetaProxy :=
  mkMetaProxy (volumeNodeCache m) (<[Id s := StorageAddr s]> (nodeAddrCache m))
    (<[Id s := StorageTcpAddr s]> (nodeTcpAddrCache m))
    (match proxy_nodes m !! Id s with
     | None => <[Id s := s]> (proxy_nodes m)
     | Some n => if (Usage n <? Usage s)%N then <[Id s := s]> (proxy_nodes m) else proxy_nodes m
     end).

Definition updateCacheInternal : GM unit :=
  vols <- on_metadata rpc_LoadConfiguration ;;
  modify (fun g => with_proxy (mkMetaProxy
    (foldl (fun m v => <[pv_Id v := pv_StorageNodeId v]> m) ∅ vols)
    (nodeAddrCache (metaProxy g)) (nodeTcpAddrCache (metaProxy g)) (proxy_nodes (metaProxy g))) g) ;;;
  nodes <- on_metadata rpc_ListStorageNodes ;;
  modify (fun g => with_proxy (foldl cache_node (metaProxy g) nodes) g).

(** * The coordinator *)

Definition ensureBlockMetaCached (ino : N) : GM (gmap N BlockMeta) :=
  g <- gets Datatypes.id ;;
  match (if unexpired ino then blockMetaCache g !! ino else None) with
  | Some m => ret m
  | None =>
      m <- on_metadata (rpc_GetInoBlockMap ino) ;;
      modify (fun g => with_cache (<[ino := m]> (blockMetaCache g)) g) ;;;
      ret m
  end.

(** Block ids with the index each is at in the file. *)
Abbreviation blockIdPairs := (list (N * string)).
Definition pairs_Index (p : blockIdPairs) (id : string) : N :=
  match list_find (fun item => item.2 = id) p with Some (_, item) => item.1 | None => 0 end.

Definition doRead (volId : N) (blockIds : blockIdPairs) : GM (gmap N (list byte)) :=
  node <- proxy_GetNode volId ;;
  client <- Select node ;;
  blocks <- client_call client (fun a => rpc_Read a blockIds.*2) ;;
  ret (foldl (fun data block => <[pairs_Index blockIds (b_Id block) := b_Data block]> data) ∅ blocks).

(** The read from a first volume, and from a second one when that fails. *)
Definition read_either (volId0 volId1 : N) (ids : blockIdPairs) : GM (gmap N (list byte)) :=
  gw_try (doRead volId0 ids) (fun r =>
  match r with
  | inl m => ret m
  | inr _ => doRead volId1 ids
  end).

(** Two volumes that have the block, in random order; [volIds[1]] panics when
    there is only one.  [lo.Shuffle] works in place: when append found room in
    the slice of the record, the record gets the first of the shuffled ids. *)
Definition with_secondary (ids : list N) (b : BlockMeta) : BlockMeta :=
  mkBlockMeta (Ino b) (VirtualVolumeId b) (BlockIndexInFile b) (PrimaryVolumeId b) ids
    (TxnId b) (Len b) (Crc32 b) (BlockMap.CreatedAt b) (CloudAddr b) (BlockId b).
Definition shuffled (meta : BlockMeta) : list N :=
  shuffle (SecondaryVolumeIds meta ++ [PrimaryVolumeId meta]).
Definition disturbed (meta : BlockMeta) : BlockMeta :=
  let n := length (SecondaryVolumeIds meta) in
  if spare n then with_secondary (take n (shuffled meta)) meta else meta.
Definition pick_volumes (ino blockIdx : N) (meta : BlockMeta) : GM (N * N) :=
  modify (fun g => with_cache (alter (<[blockIdx := disturbed meta]>) ino (blockMetaCache g)) g) ;;;
  match shuffled meta with
  | v0 :: v1 :: _ => ret (v0, v1)
  | _ => go_panic
  end.

Definition gw_Read (key : BlockKey) : GM (list byte) :=
  let '(ino, blockIdx) := key_Split key in
  inoBlockMap <- ensureBlockMetaCached ino ;;
  match inoBlockMap !! blockIdx with
  | None => fails ErrBlockNotFound
  | Some meta =>
      lock_mu ;;;
      vols <- pick_volumes ino blockIdx meta ;;
      unlock_mu ;;;
      m <- read_either vols.1 vols.2 [(blockIdx, BlockId meta)] ;;
      ret (default [] (m !! BlockIndexInFile meta))
  end.

(** [lo.GroupBy] of the blocks by their first two volumes; [meta.SecondaryVolumeIds[0]]
    panics on no ids. *)
Definition group_name (meta : BlockMeta) : option string :=
  match SecondaryVolumeIds meta with
  | [] => None
  | s :: _ => Some (itoa (PrimaryVolumeId meta) +:+ "-" +:+ itoa s)
  end.
Fixpoint group_blocks (l : list (N * BlockMeta)) (groups : gmap string (list (N * BlockMeta))) :
    GM (gmap string (list (N * BlockMeta))) :=
  match l with
  | [] => ret groups
  | (i, meta) :: rest =>
      name <- deref (group_name meta) ;;
      group_blocks rest (<[name := default [] (groups !! name) ++ [(i, meta)]]> groups)
  end.

(** The blocks of each group are read together, where the first one is. *)
Fixpoint read_groups (ino : N) (groups : list (list (N * BlockMeta))) (r : gmap N (list byte)) :
    GM (gmap N (list byte)) :=
  match groups with
  | [] => ret r
  | [] :: _ => go_panic
  | ((i, meta) :: rest as l) :: groups =>
      lock_mu ;;;
      vols <- pick_volumes ino i meta ;;
      unlock_mu ;;;
      m <- read_either vols.1 vols.2 ((fun p => (BlockIndexInFile p.2, BlockId p.2)) <$> l) ;;
      read_groups ino groups (m ∪ r)
  end.

(** [range_blocks] and [range_groups] are the orders in which Go walks maps. *)
Definition gw_BatchRead (range_blocks : gmap N BlockMeta -> list (N * BlockMeta))
    (range_groups : gmap string (list (N * BlockMeta)) -> list (string * list (N * BlockMeta)))
    (ino : N) (blockIdxList : list N) : GM (gmap N (list byte)) :=
  inoBlockMap <- ensureBlockMetaCached ino ;;
  let picked := filter (fun p : N * BlockMeta => p.1 ∈ blockIdxList) inoBlockMap in
  groups <- group_blocks (range_blocks picked) ∅ ;;
  read_groups ino (range_groups groups).*2 ∅.

(** The loop of doWrite over the nodes: a client for each; the error of a
    selection ends the call while the writes started before go on. *)
Fixpoint select_all (nodes : list StorageNode) (acc : list StorageClientImpl) :
    GM (list StorageClientImpl * option error) :=
  match nodes with
  | [] => ret (acc, None)
  | node :: rest =>
      gw_try (Select node) (fun r =>
      match r with
      | inr e => ret (acc, Some e)
      | inl storage => select_all rest (acc ++ [storage])
      end)
  end.

(** The goroutines of doWrite, in the order in which they end: the results by
    position of their node, and the first error.  What is left running after an
    error runs to its end. *)
Fixpoint write_all (storages : list StorageClientImpl) (req : WriteRequest) (l : list nat)
    (results : gmap nat WriteResponse) (err : option error) : GM (gmap nat WriteResponse * option error) :=
  match l with
  | [] => ret (results, err)
  | i :: rest =>
      match storages !! i with
      | None => write_all storages req rest results err
      | Some storage =>
          gw_try (client_call storage (fun a => rpc_Write a req)) (fun r =>
          match r with
          | inl res => write_all storages req rest (<[i := res]> results) err
          | inr e => write_all storages req rest results (match err with None => Some e | _ => err end)
          end)
      end
  end.

(** Errors of the deletions are dropped. *)
Fixpoint delete_all (storages : list StorageClientImpl) (ids : list string) : GM unit :=
  match storages with
  | [] => ret tt
  | storage :: rest =>
      gw_try (client_call storage (fun a => rpc_DeleteBlock a ids)) (fun _ => delete_all rest ids)
  end.

Definition track_all (nodes : list StorageNode) (usage : N) (m : MetaProxy) : MetaProxy :=
  foldl (fun m node => trackUsage (Id node) usage m) m nodes.

Definition location (primary : WriteResponse) (secondaryVolIds : list N) : BlockMeta :=
  mkBlockMeta (res_Ino primary) 0 (res_BlockIdx primary) (res_VolId primary) secondaryVolIds 0
    (res_Len primary) (res_Crc32 primary) 0 None (res_BlockId primary).

(** [nodes[0]] panics on no nodes. *)
Definition doWrite (now : N) (key : BlockKey) (data : list byte) (nodes : list StorageNode) : GM unit :=
  let req := mkWriteRequest (GetIno key) (Some (GetIndex key)) data (crc32 data) in
  p <- select_all nodes [] ;;
  let storages := p.1 in
  r <- write_all storages req (schedule (seq 0 (length storages))) ∅ None ;;
  match p.2, r.2 with
  | Some e, _ => fails e
  | None, Some e => fails e
  | None, None =>
      match nodes with
      | [] => go_panic
      | _ :: _ =>
          primary <- deref (r.1 !! 0%nat) ;;
          let secondaryVolIds := order (res_VolId <$> (map_to_list (delete 0%nat r.1)).*2) in
          gw_try (on_metadata (rpc_UpdateBlockLocation now (location primary secondaryVolIds))) (fun u =>
          match u with
          | inr e => delete_all storages [res_BlockId primary] ;;; fails e
          | inl _ =>
              modify (fun g => with_proxy (track_all nodes (N.of_nat (length data)) (metaProxy g)) g) ;;;
              modify (fun g => with_cache (delete (GetIno key) (blockMetaCache g)) g)
          end)
      end
  end.

Definition gw_Write (now : N) (key : BlockKey) (data : list byte) : GM unit :=
  nodes <- GetTopNPlus ;;
  doWrite now key data nodes.

(** The nodes of the secondary volumes that are known. *)
Fixpoint secondary_nodes (volIds : list N) : GM (list StorageNode) :=
  match volIds with
  | [] => ret []
  | volId :: rest =>
      gw_try (proxy_GetNode volId) (fun r =>
      ns <- secondary_nodes rest ;;
      ret (match r with inl node => node :: ns | inr _ => ns end))
  end.

(** The returns between the lock and the unlock leave the mutex locked. *)
Definition gw_WriteAt (now : N) (key : BlockKey) (interval : IntervalList) (data : list byte) :
    M (Gateway W S * list Interval) fault unit := fun s =>
  let '(ino, blockIdx) := key_Split key in
  match ensureBlockMetaCached ino s.1 with
  | (Ok inoBlockMap, g1) =>
      match inoBlockMap !! blockIdx with
      | None => on_fst (gw_Write now key data) (g1, s.2)
      | Some meta =>
          (on_fst lock_mu ;;;
           vols <- on_fst (pick_volumes ino blockIdx meta) ;;
           m <- on_fst (read_either vols.1 vols.2 [(blockIdx, BlockId meta)]) ;;
           p <- on_list (Copy interval (default [] (m !! blockIdx)) data) ;;
           node <- on_fst (proxy_GetNode (PrimaryVolumeId meta)) ;;
           rest <- on_fst (secondary_nodes (SecondaryVolumeIds (disturbed meta))) ;;
           on_fst unlock_mu ;;;
           on_fst (doWrite now key p.2 (node :: rest))) (g1, s.2)
      end
  | (Err (Fails _), g1) => on_fst (gw_Write now key data) (g1, s.2)
  | (Err Blocked, g1) => (Err Blocked, (g1, s.2))
  | (Panic, g1) => (Panic, (g1, s.2))
  end.

(** Writes of a batch share the nodes and run one after the other, in the order
    in which they end; the first error is returned. *)
Fixpoint batch_write (now : N) (nodes : list StorageNode) (l : list (BlockKey * list byte)) (err : option error) :
    GM (option error) :=
  match l with
  | [] => ret err
  | (key, data) :: rest =>
      gw_try (doWrite now key data nodes) (fun r =>
      batch_write now nodes rest (match err, r with None, inr e => Some e | _, _ => err end))
  end.
Definition gw_BatchWrite (now : N) (l : list (BlockKey * list byte)) : GM unit :=
  nodes <- GetTopNPlus ;;
  err <- batch_write now nodes l None ;;
  match err with None => ret tt | Some e => fails e end.

(** The blocks of a file by volume. *)
Definition add_block (volId : N) (blockId : string) (m : gmap N (list string)) : gmap N (list string) :=
  <[volId := default [] (m !! volId) ++ [blockId]]> m.
Definition blocks_by_volume (blocks : list BlockMeta) : gmap N (list string) :=
  foldl (fun m block => foldl (fun m volId => add_block volId (BlockId block) m) m
           (PrimaryVolumeId block :: SecondaryVolumeIds block)) ∅ blocks.

Definition delete_on (volId : N) (blockIds : list string) : GM unit :=
  node <- proxy_GetNode volId ;;
  client <- Select node ;;
  client_call client (fun a => rpc_DeleteBlock a blockIds).
Fixpoint delete_volumes (l : list (N * list string)) (err : option error) : GM (option error) :=
  match l with
  | [] => ret err
  | (volId, blockIds) :: rest =>
      gw_try (delete_on volId blockIds) (fun r =>
      delete_volumes rest (match err, r with None, inr e => Some e | _, _ => err end))
  end.

(** [range_blocks] and [range_vols] are the orders in which Go walks the block
    map and the volumes. *)
Definition gw_Delete (range_blocks : gmap N BlockMeta -> list (N * BlockMeta))
    (range_vols : gmap N (list string) -> list (N * list string)) (ino : N) : GM unit :=
  m <- on_metadata (rpc_GetInoBlockMap ino) ;;
  err <- delete_volumes (range_vols (blocks_by_volume (range_blocks m).*2)) None ;;
  match err with None => ret tt | Some e => fails e end.

(** The gateway as a storage backend, at the time [now] of the metadata server. *)
Definition Gateway_backend (now : N) (range_blocks : gmap N BlockMeta -> list (N * BlockMeta))
    (range_vols : gmap N (list string) -> list (N * list string)) : StorageBackend (Gateway W S) := {|
  sb_Read := gw_Read;
  sb_Write := gw_Write now;
  sb_WriteAt := gw_WriteAt now;
  sb_Delete := gw_Delete range_blocks range_vols;
  (* what a read returns was decoded for the caller *)
  sb_Array _ _ := None;
  sb_Peek _ _ := [];
  sb_Poke _ _ g := g |}.
End gateway.
