(* ===== verification/GatewayProps.v ===== *)
(** The gateway is a map from blocks of files to data: what it relies on from
    storage nodes and the metadata server, as the classes [StorageServersSpec]
    and [MetaServerSpec]; when a gateway agrees with the contents of the cluster
    ([coherent]); and the theorems on reading, writing and refreshing its
    caches, with what goes wrong on some of the error paths. *)
From Stdlib Require Import Ascii Strings.Byte ZArith NArith DecimalString Lia.
From stdpp Require Import prelude gmap strings list fin_maps sorting.
From S2P Require Import Prelude Store Badger StoreProps Attr MetaStore Hash Engine Volume DataNode DataNodeProps BlockMap Cluster VolumeMeta Interval IntervalProps StorageBackend Gateway.

(** * Addresses *)

(** A host name that needs no brackets. *)
Definition plain_host (s : string) : Prop :=
  has_char ":"%char s = false /\ has_char "["%char s = false /\ has_char "]"%char s = false.

Lemma cut_last_none c s : has_char c s = false -> cut_last c s = None.
Proof.
  induction s as [|a s IH]; [done|]. cbn. intros [Ha Hs]%orb_false_iff. by rewrite IH, Ha.
Qed.
Lemma cut_last_app c h p : has_char c p = false -> cut_last c (h +:+ String c p)%string = Some (h, p).
Proof.
  intros Hp. induction h as [|a h IH]; cbn.
  - rewrite cut_last_none by done. by rewrite bool_decide_true.
  - change (h ++ String c p)%string with (h +:+ String c p)%string. by rewrite IH.
Qed.

Lemma digits_no_char c n : (N_of_ascii c < 48)%N \/ (57 < N_of_ascii c)%N -> has_char c (itoa n) = false.
Proof.
  intros Hc. unfold itoa. induction (N.to_uint n) as [|d IH|d IH|d IH|d IH|d IH|d IH|d IH|d IH|d IH|d IH]; [done|..];
    cbn; rewrite IH, orb_false_r; apply bool_decide_eq_false_2; intros <-; vm_compute in Hc; destruct Hc; done.
Qed.

Lemma SplitHostPort_addr h n : plain_host h -> SplitHostPort (h +:+ ":" +:+ itoa n) = Some (h, itoa n).
Proof.
  intros (H1 & H2 & H3). unfold SplitHostPort. change (":" +:+ itoa n)%string with (String ":"%char (itoa n)).
  assert (Hn : forall c, (57 < N_of_ascii c)%N -> has_char c (itoa n) = false) by (intros; apply digits_no_char; by right).
  rewrite cut_last_app by (by apply Hn). destruct h as [|a h].
  - cbn. rewrite (Hn "["%char), (Hn "]"%char) by done. done.
  - rewrite str_app_cons. rewrite bool_decide_false.
    + rewrite H1. rewrite <- str_app_cons, !has_char_app, H2, H3. cbn [has_char].
      rewrite (Hn "["%char), (Hn "]"%char) by done. done.
    + intros ->. cbn in H2. rewrite bool_decide_true in H2 by done. done.
Qed.

Lemma LookupPort_itoa n : (n <= 65535)%N -> LookupPort (itoa n) = Some n.
Proof.
  intros Hn. unfold LookupPort, itoa. rewrite NilEmpty.usu, DecimalN.Unsigned.of_to. cbv zeta.
  by rewrite (proj2 (N.leb_le _ _) Hn).
Qed.

(** A node the gateway can address. *)
Definition addressable (n : StorageNode) : Prop :=
  plain_host (Ip n) /\ (Port n <= 65535)%N /\ (TcpPort n <= 65535)%N /\ (Id n < 2 ^ 64)%N.

(** The node GetNode makes up from the addresses of [n]. *)
Definition bare (n : StorageNode) : StorageNode := mkStorageNode (Id n) (Ip n) (Port n) 0 0 [] 0 0 [] (TcpPort n).

Lemma GetNode_run p v n :
  addressable n -> volumeNodeCache p !! v = Some (Id n) -> nodeAddrCache p !! Id n = Some (StorageAddr n) ->
  nodeTcpAddrCache p !! Id n = Some (StorageTcpAddr n) -> GetNode v p = inl (bare n).
Proof.
  intros (Hh & Hp & Ht & _) H1 H2 H3. unfold GetNode. rewrite H1, H2, H3. unfold StorageAddr, StorageTcpAddr.
  by rewrite !SplitHostPort_addr, !LookupPort_itoa.
Qed.

Lemma to_int_inj a b : (a < 2 ^ 64)%N -> (b < 2 ^ 64)%N -> to_int a = to_int b -> a = b.
Proof.
  unfold to_int. intros Ha Hb E.
  assert (Z.of_N a < 2 ^ 64)%Z by (change (2 ^ 64)%Z with (Z.of_N (2 ^ 64)); lia).
  assert (Z.of_N b < 2 ^ 64)%Z by (change (2 ^ 64)%Z with (Z.of_N (2 ^ 64)); lia).
  assert ((Z.of_N a + 2 ^ 63) mod 2 ^ 64 = (Z.of_N b + 2 ^ 63) mod 2 ^ 64)%Z as Em by lia.
  rewrite !Z.mod_eq in Em by lia.
  assert (0 <= (Z.of_N a + 2 ^ 63) / 2 ^ 64 <= 1)%Z.
  { split; [apply Z.div_pos; lia | apply Z.lt_succ_r, Z.div_lt_upper_bound; lia]. }
  assert (0 <= (Z.of_N b + 2 ^ 63) / 2 ^ 64 <= 1)%Z.
  { split; [apply Z.div_pos; lia | apply Z.lt_succ_r, Z.div_lt_upper_bound; lia]. }
  nia.
Qed.

(** * What the servers promise *)

Definition digest (d : list byte) : string := hex (sha256 d).
#[global] Arguments digest : simpl never.

(** The blocks by address of the node and block id. *)
Abbreviation cluster := (gmap string (gmap string (list byte))).

(** A node keeps the data it has for a digest. *)
Definition put_at (a : string) (d : list byte) (m : cluster) : cluster :=
  alter (fun bs => match bs !! digest d with Some _ => bs | None => <[digest d := d]> bs end) a m.

(** [sv_holds w vs m]: the nodes have the blocks [m], and volume [v] is on the
    node at [vs !! v]; [sv_room w a]: the node at [a] can take a block. *)
Class StorageServersSpec (W : Type) `{StorageServers W} := {
  sv_holds : W -> gmap N string -> cluster -> Prop;
  sv_room : W -> string -> Prop;
  sv_dial w vs m a : sv_holds w vs m -> is_Some (m !! a) -> dial a w = true;
  sv_digest w vs m a bs h d : sv_holds w vs m -> m !! a = Some bs -> bs !! h = Some d -> h = digest d;
  sv_write w vs m a bs req idx :
    sv_holds w vs m -> m !! a = Some bs -> sv_room w a \/ is_Some (bs !! digest (req_BlockData req)) ->
    req_Crc32 req = crc32 (req_BlockData req) -> req_BlockIdx req = Some idx -> (idx < 2 ^ 64)%N ->
    (N.of_nat (length (req_BlockData req)) <= max_alloc)%N ->
    exists res w', rpc_Write a req w = (Ok res, w') /\ sv_holds w' vs (put_at a (req_BlockData req) m) /\
      (forall b, b <> a \/ is_Some (bs !! digest (req_BlockData req)) -> sv_room w b -> sv_room w' b) /\
      res_Ino res = req_Ino req /\ res_BlockIdx res = idx /\ res_BlockId res = digest (req_BlockData req) /\
      vs !! res_VolId res = Some a;
  sv_read w vs m a bs h d :
    sv_holds w vs m -> m !! a = Some bs -> bs !! h = Some d ->
    exists b w', rpc_Read a [h] w = (Ok [b], w') /\ b_Id b = h /\ b_Data b = d /\
      sv_holds w' vs m /\ (forall b, sv_room w b -> sv_room w' b);
}.

(** [ms_holds s bm]: the block map is [bm].  [ms_known s pm nm]: the physical
    volumes are [pm] and the storage nodes [nm]. *)
Class MetaServerSpec (S : Type) `{MetaServer S} := {
  ms_holds : S -> gmap (N * N) BlockMeta -> Prop;
  ms_known : S -> gmap N PhysicalVolume -> gmap N StorageNode -> Prop;
  ms_get s bm ino : ms_holds s bm ->
    exists m s', rpc_GetInoBlockMap ino s = (Ok m, s') /\ ms_holds s' bm /\ forall i, m !! i = bm !! (ino, i);
  ms_update s bm now b : ms_holds s bm ->
    exists s', rpc_UpdateBlockLocation now b s = (Ok tt, s') /\
      ms_holds s' (<[(Ino b, BlockIndexInFile b) := stamped b now]> bm);
  ms_load s bm pm nm : ms_holds s bm -> ms_known s pm nm ->
    exists l s', rpc_LoadConfiguration s = (Ok l, s') /\ ms_holds s' bm /\ ms_known s' pm nm /\
      forall p, p ∈ l <-> pm !! pv_Id p = Some p;
  ms_list s bm pm nm : ms_holds s bm -> ms_known s pm nm ->
    exists l s', rpc_ListStorageNodes s = (Ok l, s') /\ ms_holds s' bm /\ ms_known s' pm nm /\
      NoDup (Id <$> l) /\ forall n, n ∈ l <-> nm !! Id n = Some n;
}.

Section props.
Context {W S : Type} {SW : StorageServers W} {SWS : StorageServersSpec W} {MS : MetaServer S} {MSS : MetaServerSpec S}.
Context (replica : Z) (unexpired : N -> bool) (shuffle : list N -> list N) (spare : nat -> bool).
Context (range_nodes : gmap N StorageNode -> list (N * StorageNode)).
Context (schedule : list nat -> list nat) (order : list N -> list N).
Context (Hreplica : (1 <= replica)%Z).
Context (Hshuffle : forall l, shuffle l ≡ₚ l).
Context (Hrange : forall m, range_nodes m ≡ₚ map_to_list m).
Context (Hschedule : forall l, schedule l ≡ₚ l).
Context (Horder : forall l, order l ≡ₚ l).

Abbreviation gateway := (Gateway W S).

(** * When a gateway agrees with the cluster *)

(** The proxy and the connections lead to the nodes: [vs] are the volumes with
    their nodes' addresses, [m] the nodes. *)
Record routed (p : MetaProxy) (cl : gmap Z StorageClientImpl) (vs : gmap N string) (m : cluster) : Prop := {
  ro_vol v a : vs !! v = Some a -> exists n, GetNode v p = inl n /\ StorageAddr n = a /\
    nodeAddrCache p !! Id n = Some a /\ is_Some (m !! a);
  ro_node i n : proxy_nodes p !! i = Some n -> Id n = i /\ nodeAddrCache p !! i = Some (StorageAddr n) /\
    is_Some (m !! StorageAddr n);
  ro_id i a : nodeAddrCache p !! i = Some a -> (i < 2 ^ 64)%N;
  ro_inj i j a : nodeAddrCache p !! i = Some a -> nodeAddrCache p !! j = Some a -> i = j;
  ro_client i a c : nodeAddrCache p !! i = Some a -> cl !! to_int i = Some c -> c = mkStorageClientImpl a true;
}.

(** Every copy of the block [b] is the data [d]. *)
Definition located (vs : gmap N string) (m : cluster) (b : BlockMeta) (d : list byte) : Prop :=
  BlockId b = digest d /\ SecondaryVolumeIds b <> [] /\
  forall v, v ∈ PrimaryVolumeId b :: SecondaryVolumeIds b ->
    exists a bs, vs !! v = Some a /\ m !! a = Some bs /\ bs !! BlockId b = Some d.

(** The block map and the nodes have the contents [c], by file and index. *)
Definition placed (bm : gmap (N * N) BlockMeta) (vs : gmap N string) (m : cluster)
    (c : gmap (N * N) (list byte)) : Prop :=
  forall k, match bm !! k, c !! k with
            | None, None => True
            | Some b, Some d => BlockIndexInFile b = k.2 /\ located vs m b d
            | _, _ => False
            end.

(** A cached record may have its volumes shuffled, and some of them twice. *)
Definition sub_block (b' b : BlockMeta) : Prop :=
  b' = with_secondary (SecondaryVolumeIds b') b /\
  length (SecondaryVolumeIds b') = length (SecondaryVolumeIds b) /\
  forall v, v ∈ SecondaryVolumeIds b' -> v ∈ PrimaryVolumeId b :: SecondaryVolumeIds b.

Record coherent (g : gateway) (vs : gmap N string) (m : cluster) (bm : gmap (N * N) BlockMeta)
    (c : gmap (N * N) (list byte)) : Prop := {
  co_meta : ms_holds (metadata g) bm;
  co_servers : sv_holds (servers g) vs m;
  co_mu : blockMetaMu g = false;
  co_cache ino cm i : blockMetaCache g !! ino = Some cm -> option_Forall2 sub_block (cm !! i) (bm !! (ino, i));
  co_placed : placed bm vs m c;
  co_routed : routed (metaProxy g) (storageClients g) vs m;
}.

(** ** Routing *)

Lemma node_client_run (g : gateway) vs m n :
  sv_holds (servers g) vs m -> routed (metaProxy g) (storageClients g) vs m ->
  nodeAddrCache (metaProxy g) !! Id n = Some (StorageAddr n) -> is_Some (m !! StorageAddr n) ->
  exists cl, Select n g = (Ok (mkStorageClientImpl (StorageAddr n) true), with_clients cl g) /\
    routed (metaProxy g) cl vs m.
Proof.
  intros Hw [H1 H2 H3 H4 H5] Hn Hm. unfold Select, bind at 1, connector_Get, gets.
  destruct (storageClients g !! to_int (Id n)) as [c|] eqn:Ec.
  - rewrite (H5 _ _ _ Hn Ec). exists (storageClients g). split; [by destruct g | by split].
  - unfold bind, ConnectToPeer, NewStorageClientImpl, connector_Get, gets, bind, modify. rewrite Ec.
    cbn [storageClients with_clients]. rewrite lookup_insert_eq. cbn [deref ret].
    rewrite (sv_dial _ _ _ _ Hw Hm). eexists. split; [reflexivity|]. split; [done..|].
    intros i a c Ha Hc. apply lookup_insert_Some in Hc as [[E <-]|[_ Hc]]; [|by eapply H5].
    apply to_int_inj in E; [| by eapply H3 | by eapply H3]. subst i. congruence.
Qed.

(** Connections were made and nodes asked, nothing was written. *)
Definition steady (vs : gmap N string) (m : cluster) (g g' : gateway) : Prop :=
  exists cl w, g' = with_servers w (with_clients cl g) /\ sv_holds w vs m /\
    routed (metaProxy g) cl vs m /\ forall b, sv_room (servers g) b -> sv_room w b.

Lemma coherent_steady g g' vs m bm c : coherent g vs m bm c -> steady vs m g g' -> coherent g' vs m bm c.
Proof. intros [H1 H2 H3 H4 H5 H6] (cl & w & -> & Hw & Hr & _). by split. Qed.

Lemma proxy_GetNode_run (g : gateway) v n : GetNode v (metaProxy g) = inl n -> proxy_GetNode v g = (Ok n, g).
Proof. intros E. unfold proxy_GetNode, bind, gets, Datatypes.id. by rewrite E. Qed.

Lemma doRead_run (g : gateway) vs m v a bs idx h d :
  sv_holds (servers g) vs m -> routed (metaProxy g) (storageClients g) vs m ->
  vs !! v = Some a -> m !! a = Some bs -> bs !! h = Some d ->
  exists g', doRead v [(idx, h)] g = (Ok {[idx := d]}, g') /\ steady vs m g g'.
Proof.
  intros Hw Hr Hv Ha Hh. destruct (ro_vol _ _ _ _ Hr _ _ Hv) as (n & Hn & Hna & Hc & Hm). subst a.
  unfold doRead. rewrite (bind_ok _ _ _ _ _ (proxy_GetNode_run g v n Hn)).
  destruct (node_client_run g vs m n Hw Hr Hc Hm) as (cl & Hs & Hr'). rewrite (bind_ok _ _ _ _ _ Hs).
  destruct (sv_read _ _ _ _ _ _ _ Hw Ha Hh) as (b & w' & Hrun & Hid & Hd & Hw' & Hroom).
  unfold bind, client_call, on_servers. cbn [connected client_addr servers with_clients fmap list_fmap snd].
  rewrite Hrun. eexists. split; [|by exists cl, w']. cbn [foldl ret]. unfold pairs_Index. cbn [list_find].
  rewrite decide_True by done. cbn [fst]. by rewrite Hd.
Qed.

Lemma sub_block_refl b : sub_block b b.
Proof. split_and!; [by destruct b | done | set_solver]. Qed.
Lemma sub_block_located vs m b' b d : sub_block b' b -> located vs m b d -> located vs m b' d.
Proof.
  intros (E & Hlen & Hin) (H1 & H2 & H3).
  assert (Eb : BlockId b' = BlockId b) by (by rewrite E).
  assert (Ep : PrimaryVolumeId b' = PrimaryVolumeId b) by (by rewrite E).
  split_and!.
  - by rewrite Eb.
  - by destruct (SecondaryVolumeIds b'), (SecondaryVolumeIds b).
  - intros v. rewrite elem_of_cons, Eb, Ep. intros [->|Hv]; apply H3; [set_solver | by apply Hin].
Qed.
Lemma shuffled_perm b : shuffled shuffle b ≡ₚ PrimaryVolumeId b :: SecondaryVolumeIds b.
Proof. unfold shuffled. rewrite Hshuffle. by rewrite Permutation_app_comm. Qed.
Lemma sub_block_disturbed b' b : sub_block b' b -> sub_block (disturbed shuffle spare b') b.
Proof.
  intros (E & Hlen & Hin). unfold disturbed. destruct (spare _); [|by split].
  pose proof (shuffled_perm b') as Hp. split_and!.
  - rewrite E. done.
  - cbn [SecondaryVolumeIds with_secondary]. apply Permutation_length in Hp. cbn in Hp. rewrite length_take, Hp. lia.
  - cbn [SecondaryVolumeIds with_secondary]. intros v (j & Hj & _)%elem_of_take.
    apply list_elem_of_lookup_2 in Hj. rename Hj into Hv. rewrite Hp in Hv.
    apply elem_of_cons in Hv as [->|Hv]; [rewrite E; cbn; set_solver | by apply Hin].
Qed.

Lemma ensure_run g vs m bm c ino :
  coherent g vs m bm c ->
  exists mm g', ensureBlockMetaCached unexpired ino g = (Ok mm, g') /\
    (forall i, option_Forall2 sub_block (mm !! i) (bm !! (ino, i))) /\
    coherent g' vs m bm c /\ servers g' = servers g /\ metaProxy g' = metaProxy g.
Proof.
  intros [H1 H2 H3 H4 H5 H6]. unfold ensureBlockMetaCached, bind at 1, gets, Datatypes.id.
  destruct (if unexpired ino then blockMetaCache g !! ino else None) as [mm|] eqn:E.
  - exists mm, g. destruct (unexpired ino); [|done]. split_and!; [done | | by split | done..].
    intros i. by eapply H4.
  - destruct (ms_get _ _ ino H1) as (mm & s' & Hrun & Hs & Hmm). unfold bind, on_metadata. rewrite Hrun.
    cbn [lift_outcome modify ret]. eexists mm, _.
    assert (Hsub : forall i, option_Forall2 sub_block (mm !! i) (bm !! (ino, i))).
    { intros i. rewrite Hmm. destruct (bm !! (ino, i)); constructor. apply sub_block_refl. }
    split_and!; [done | done | | done..].
    split; try done. cbn [blockMetaCache with_cache with_metadata]. intros j cm i Hj.
    apply lookup_insert_Some in Hj as [[<- <-]|[_ Hj]]; [done | by eapply H4].
Qed.

(** The two volumes read first. *)
Lemma pick_run vs m ino i b d (g : gateway) :
  located vs m b d ->
  exists v0 v1, pick_volumes shuffle spare ino i b g =
      (Ok (v0, v1), with_cache (alter (<[i := disturbed shuffle spare b]>) ino (blockMetaCache g)) g) /\
    v0 ∈ PrimaryVolumeId b :: SecondaryVolumeIds b /\ v1 ∈ PrimaryVolumeId b :: SecondaryVolumeIds b.
Proof.
  intros (_ & Hs & _). unfold pick_volumes, bind, modify. pose proof (shuffled_perm b) as Hp.
  assert (Hin : forall v, v ∈ shuffled shuffle b -> v ∈ PrimaryVolumeId b :: SecondaryVolumeIds b) by (intros v; by rewrite Hp).
  destruct (shuffled _ b) as [|v0 [|v1 r]].
  - by apply Permutation_nil_cons in Hp.
  - apply Permutation_length in Hp. by destruct (SecondaryVolumeIds b).
  - exists v0, v1. split_and!; [done | apply Hin; set_solver..].
Qed.

Lemma coherent_disturbed g vs m bm c ino i b :
  coherent g vs m bm c -> option_Forall2 sub_block (Some b) (bm !! (ino, i)) ->
  coherent (with_cache (alter (<[i := disturbed shuffle spare b]>) ino (blockMetaCache g)) g) vs m bm c.
Proof.
  intros [H1 H2 H3 H4 H5 H6] Hb. split; try done. cbn [blockMetaCache with_cache]. intros ino' cm j Hj.
  rewrite lookup_alter in Hj. case_decide as E; [|by eapply H4]. subst ino'.
  apply fmap_Some in Hj as (cm0 & Hcm & ->). rewrite lookup_insert. case_decide as E; [subst j|by eapply H4].
  inversion Hb as [? b0 Hs E1 E2|]; subst. constructor. by apply sub_block_disturbed.
Qed.

Lemma read_run (g : gateway) vs m b d i :
  sv_holds (servers g) vs m -> routed (metaProxy g) (storageClients g) vs m -> located vs m b d ->
  forall v0 v1, v0 ∈ PrimaryVolumeId b :: SecondaryVolumeIds b ->
  exists g', read_either v0 v1 [(i, BlockId b)] g = (Ok {[i := d]}, g') /\ steady vs m g g'.
Proof.
  intros Hw Hr (_ & _ & Hall) v0 v1 Hv. destruct (Hall v0 Hv) as (a & bs & Ha & Hbs & Hh).
  destruct (doRead_run g vs m v0 a bs i _ d Hw Hr Ha Hbs Hh) as (g' & Hrun & Hst).
  exists g'. split; [|done]. unfold read_either, gw_try. by rewrite Hrun.
Qed.

(** What is cached for a block. *)
Lemma cached_block g vs m bm c ino i (mm : gmap N BlockMeta) :
  coherent g vs m bm c -> (forall i, option_Forall2 sub_block (mm !! i) (bm !! (ino, i))) ->
  match c !! (ino, i) with
  | None => mm !! i = None
  | Some d => exists b, mm !! i = Some b /\ BlockIndexInFile b = i /\ located vs m b d /\
      option_Forall2 sub_block (Some b) (bm !! (ino, i))
  end.
Proof.
  intros Hc Hmm. pose proof (co_placed _ _ _ _ _ Hc (ino, i)) as Hk. specialize (Hmm i).
  destruct (bm !! (ino, i)) as [b0|], (c !! (ino, i)) as [d|]; try done.
  - inversion Hmm as [b ? Hs E1 E2|]; subst. exists b. destruct Hk as [Hix Hl].
    split_and!; [done | by destruct Hs as (-> & _) | by eapply sub_block_located | by constructor].
  - by inversion Hmm.
Qed.

(** ** Reading *)

Lemma lock_run (g : gateway) : blockMetaMu g = false -> lock_mu g = (Ok tt, with_mu true g).
Proof. intros E. unfold lock_mu, bind, gets, Datatypes.id. by rewrite E. Qed.
Lemma with_mu_back (g : gateway) cm : blockMetaMu g = false -> with_mu false (with_cache cm (with_mu true g)) = with_cache cm g.
Proof. destruct g. cbn. by intros ->. Qed.

Lemma gw_Read_run g vs m bm c ino i :
  coherent g vs m bm c -> (ino < 2 ^ 64)%N -> (i < 2 ^ 64)%N ->
  exists g', gw_Read unexpired shuffle spare (NewBlockKey ino i) g =
      (match c !! (ino, i) with Some d => Ok d | None => Err (Fails ErrBlockNotFound) end, g') /\
    coherent g' vs m bm c.
Proof.
  intros Hc Hino Hi. unfold gw_Read. rewrite key_Split_New by done.
  destruct (ensure_run g vs m bm c ino Hc) as (mm & g1 & E1 & Hmm & Hc1 & _). rewrite (bind_ok _ _ _ _ _ E1).
  pose proof (cached_block _ _ _ _ _ _ i _ Hc1 Hmm) as Hk.
  destruct (c !! (ino, i)) as [d|]; [|rewrite Hk; by exists g1].
  destruct Hk as (b & -> & Hix & Hl & Hs). pose proof (co_mu _ _ _ _ _ Hc1) as Hmu.
  rewrite (bind_ok _ _ _ _ _ (lock_run _ Hmu)).
  destruct (pick_run vs m ino i b d (with_mu true g1) Hl) as (v0 & v1 & Hp & Hv0 & _).
  rewrite (bind_ok _ _ _ _ _ Hp). unfold unlock_mu, bind at 1, modify.
  cbn [blockMetaCache with_mu]. rewrite with_mu_back by done.
  apply (coherent_disturbed _ _ _ _ _ _ _ _ Hc1) in Hs. set (g2 := with_cache _ g1) in *.
  destruct (read_run g2 vs m b d i (co_servers _ _ _ _ _ Hs) (co_routed _ _ _ _ _ Hs) Hl v0 v1 Hv0) as (g3 & Hrun & Hst).
  rewrite (bind_ok _ _ _ _ _ Hrun). exists g3. split; [|by eapply coherent_steady].
  unfold ret. by rewrite Hix, lookup_singleton_eq.
Qed.

(** ** Growing contents *)

(** The nodes of [m'] have what those of [m] had. *)
Definition grown (m m' : cluster) : Prop :=
  forall a, match m !! a, m' !! a with
            | None, None => True
            | Some bs, Some bs' => bs ⊆ bs'
            | _, _ => False
            end.

(** Nothing else is stored under the digest of [d]. *)
Definition clean (d : list byte) (m : cluster) : Prop :=
  forall a bs d', m !! a = Some bs -> bs !! digest d = Some d' -> d' = d.

Definition has_block (m : cluster) (a : string) (d : list byte) : Prop :=
  exists bs, m !! a = Some bs /\ bs !! digest d = Some d.

Lemma grown_refl m : grown m m.
Proof. intros a. by destruct (m !! a). Qed.
Lemma grown_trans m1 m2 m3 : grown m1 m2 -> grown m2 m3 -> grown m1 m3.
Proof.
  intros H1 H2 a. specialize (H1 a). specialize (H2 a).
  destruct (m1 !! a), (m2 !! a), (m3 !! a); try done. by etrans.
Qed.
Lemma grown_lookup m m' a bs : grown m m' -> m !! a = Some bs -> exists bs', m' !! a = Some bs' /\ bs ⊆ bs'.
Proof. intros Hg Ha. specialize (Hg a). rewrite Ha in Hg. destruct (m' !! a) as [bs'|]; [by exists bs' | done]. Qed.
Lemma grown_is_Some m m' a : grown m m' -> is_Some (m !! a) -> is_Some (m' !! a).
Proof. intros Hg [bs Ha]. destruct (grown_lookup _ _ _ _ Hg Ha) as (bs' & -> & _). eauto. Qed.
Lemma grown_has m m' a d : grown m m' -> has_block m a d -> has_block m' a d.
Proof.
  intros Hg (bs & Ha & Hd). destruct (grown_lookup _ _ _ _ Hg Ha) as (bs' & Ha' & Hs). exists bs'.
  split; [done|]. by eapply lookup_weaken.
Qed.

Lemma put_at_grown a d m : grown m (put_at a d m).
Proof.
  intros a'. unfold put_at. rewrite lookup_alter. case_decide as E; [subst|by destruct (m !! a')].
  destruct (m !! a') as [bs|]; [|done]. cbn. destruct (bs !! digest d) eqn:E; [done|]. by apply insert_subseteq.
Qed.
Lemma put_at_clean a d m : clean d m -> clean d (put_at a d m).
Proof.
  intros Hc a' bs d' Ha Hd. unfold put_at in Ha. rewrite lookup_alter in Ha. case_decide as E; [|by eapply Hc].
  subst. apply fmap_Some in Ha as (bs0 & Ha & ->). destruct (bs0 !! digest d) eqn:E; [by eapply Hc|].
  rewrite lookup_insert_eq in Hd. congruence.
Qed.
Lemma put_at_has a d m : clean d m -> is_Some (m !! a) -> has_block (put_at a d m) a d.
Proof.
  intros Hc [bs Ha]. unfold has_block, put_at. rewrite lookup_alter_eq, Ha. cbn. eexists. split; [done|].
  destruct (bs !! digest d) as [d'|] eqn:E; [|by rewrite lookup_insert_eq]. rewrite E. f_equal. by eapply Hc.
Qed.

Lemma located_grown vs m m' b d : grown m m' -> located vs m b d -> located vs m' b d.
Proof.
  intros Hg (H1 & H2 & H3). split_and!; [done..|]. intros v Hv. destruct (H3 v Hv) as (a & bs & Ha & Hb & Hd).
  destruct (grown_lookup _ _ _ _ Hg Hb) as (bs' & Hb' & Hs). exists a, bs'. split_and!; [done..|].
  by eapply lookup_weaken.
Qed.
Lemma routed_grown p cl vs m m' : grown m m' -> routed p cl vs m -> routed p cl vs m'.
Proof.
  intros Hg [H1 H2 H3 H4 H5]. split; [| |done..].
  - intros v a Hv. destruct (H1 v a Hv) as (n & Hn & Ha & Hc & Hm). exists n. split_and!; [done..|].
    by eapply grown_is_Some.
  - intros i n Hn. destruct (H2 i n Hn) as (Hi & Hc & Hm). split_and!; [done..|]. by eapply grown_is_Some.
Qed.

Lemma routed_track p cl vs m nodes u : routed p cl vs m -> routed (track_all nodes u p) cl vs m.
Proof.
  unfold track_all. revert p. induction nodes as [|n nodes IH]; intros p Hr; [done|]. cbn [foldl]. apply IH.
  destruct Hr as [H1 H2 H3 H4 H5]. split; [done| |done..]. intros i n' Hn'. cbn in Hn'.
  rewrite lookup_alter in Hn'. case_decide as E; [|by apply H2].
  apply fmap_Some in Hn' as (n0 & Hn0 & ->). subst. destruct (H2 _ _ Hn0) as (Hi & Hc & Hm).
  cbn in *. split_and!; [done|exact Hc|exact Hm].
Qed.

(** ** Writing *)

(** Nodes a block can be written to. *)
Definition reachable (p : MetaProxy) (m : cluster) (n : StorageNode) : Prop :=
  nodeAddrCache p !! Id n = Some (StorageAddr n) /\ is_Some (m !! StorageAddr n).

(** The node at [a] can take the block [d]: it has room, or has it already. *)
Definition takes (w : W) (m : cluster) (a : string) (d : list byte) : Prop :=
  is_Some (m !! a) /\ (sv_room w a \/ has_block m a d).

Definition client_of (a : string) : StorageClientImpl := mkStorageClientImpl a true.

Lemma select_all_run nodes vs m : forall (g : gateway) acc,
  sv_holds (servers g) vs m -> routed (metaProxy g) (storageClients g) vs m ->
  Forall (reachable (metaProxy g) m) nodes ->
  exists cl, select_all nodes acc g =
      (Ok (acc ++ (client_of <$> (StorageAddr <$> nodes)), None), with_clients cl g) /\
    routed (metaProxy g) cl vs m.
Proof.
  induction nodes as [|n nodes IH]; intros g acc Hw Hr Hn.
  - exists (storageClients g). cbn. rewrite app_nil_r. split; [by destruct g | done].
  - apply Forall_cons in Hn as [[Hc Hm] Hn]. cbn [select_all]. unfold gw_try.
    destruct (node_client_run g vs m n Hw Hr Hc Hm) as (cl & -> & Hr').
    destruct (IH (with_clients cl g) (acc ++ [client_of (StorageAddr n)]) Hw Hr' Hn) as (cl' & E & Hr'').
    exists cl'. split; [|done]. unfold client_of in *. rewrite E. cbn. by rewrite <- app_assoc.
Qed.

(** What the write of a block to the node at [a] answers. *)
Definition answered (vs : gmap N string) (ino idx : N) (d : list byte) (a : string) (res : WriteResponse) : Prop :=
  res_Ino res = ino /\ res_BlockIdx res = idx /\ res_BlockId res = digest d /\ vs !! res_VolId res = Some a.

Lemma write_all_run vs ino idx d addrs l : forall (g : gateway) m results,
  let req := mkWriteRequest ino (Some idx) d (crc32 d) in
  NoDup l -> (idx < 2 ^ 64)%N -> (N.of_nat (length d) <= max_alloc)%N ->
  sv_holds (servers g) vs m -> clean d m ->
  (forall i, i ∈ l -> exists a, addrs !! i = Some a /\ takes (servers g) m a d) ->
  exists results' w' m', write_all (client_of <$> addrs) req l results None g =
      (Ok (results', None), with_servers w' g) /\
    sv_holds w' vs m' /\ grown m m' /\
    (forall i, i ∉ l -> results' !! i = results !! i) /\
    (forall i a, i ∈ l -> addrs !! i = Some a ->
       has_block m' a d /\ exists res, results' !! i = Some res /\ answered vs ino idx d a res).
Proof.
  induction l as [|i l IH]; intros g m results req Hnd Hidx Hlen Hw Hc Hl.
  - exists results, (servers g), m. split_and!; [by destruct g | done | apply grown_refl | done | set_solver].
  - apply NoDup_cons in Hnd as [Hi Hnd]. destruct (Hl i) as (a & Ha & [bs Hbs] & Hroom); [set_solver|].
    assert (Hroom' : sv_room (servers g) a \/ is_Some (bs !! digest d)).
    { destruct Hroom as [?|(bs' & Hbs' & Hd)]; [by left|]. right. rewrite Hbs in Hbs'. injection Hbs' as ->. eauto. }
    cbn [write_all]. rewrite list_lookup_fmap, Ha. cbn [fmap option_fmap option_map].
    destruct (sv_write _ _ _ _ _ req idx Hw Hbs Hroom' eq_refl eq_refl Hidx Hlen)
      as (res & w1 & Hrun & Hw1 & Hroom1 & Hans). cbn [req_BlockData req_Ino req] in *.
    unfold gw_try, client_call, on_servers, client_of. cbn [connected client_addr]. rewrite Hrun.
    destruct (IH (with_servers w1 g) (put_at a d m) (<[i := res]> results)) as
      (results' & w' & m' & E & Hw' & Hg' & Hout & Hin); [done..|by apply put_at_clean| |].
    { intros j Hj. destruct (Hl j) as (b & Hb & Hmb & Hrb); [set_solver|]. exists b. split; [done|]. split.
      - eapply grown_is_Some; [apply put_at_grown|done].
      - destruct (decide (b = a)) as [->|Hne]; [right; by apply put_at_has|].
        destruct Hrb as [Hrb|Hrb]; [left; apply Hroom1; [by left | done]|right].
        eapply grown_has; [apply put_at_grown | done]. }
    unfold client_of in E. exists results', w', m'. split_and!; [exact E | done | | |].
    + eapply grown_trans; [apply put_at_grown | done].
    + intros j Hj. rewrite Hout by set_solver. rewrite lookup_insert_ne by set_solver. done.
    + intros j b Hj Hb. apply elem_of_cons in Hj as [->|Hj]; [|by apply Hin].
      rewrite Ha in Hb. injection Hb as <-. split.
      * eapply grown_has; [done|]. apply put_at_has; [done | eauto].
      * exists res. rewrite Hout by done. by rewrite lookup_insert_eq.
Qed.

Lemma placed_insert bm vs m m' c k b d now :
  grown m m' -> placed bm vs m c -> located vs m' b d -> BlockIndexInFile b = k.2 ->
  placed (<[k := stamped b now]> bm) vs m' (<[k := d]> c).
Proof.
  intros Hg Hp Hl Hi k'. rewrite !lookup_insert. case_decide; [subst; by split|].
  specialize (Hp k'). destruct (bm !! k'), (c !! k'); try done. destruct Hp as [Hix Hlo]. split; [done|].
  by eapply located_grown.
Qed.

(** The record made from the answers of all nodes. *)
Lemma location_located vs m ino i d (results : gmap nat WriteResponse) res0 res1 :
  results !! 0%nat = Some res0 -> results !! 1%nat = Some res1 ->
  (forall j res, results !! j = Some res -> exists a, answered vs ino i d a res /\ has_block m a d) ->
  located vs m (location res0 (order (res_VolId <$> (map_to_list (delete 0%nat results)).*2))) d.
Proof.
  intros H0 H1 Hall. unfold located, location. cbn [BlockId SecondaryVolumeIds PrimaryVolumeId].
  assert (Hid : res_BlockId res0 = digest d) by (by destruct (Hall _ _ H0) as (a & (_ & _ & -> & _) & _)).
  assert (Hsec : forall v, v ∈ order (res_VolId <$> (map_to_list (delete 0%nat results)).*2) <->
    exists j res, j <> 0%nat /\ results !! j = Some res /\ v = res_VolId res).
  { intros v. rewrite Horder, list_elem_of_fmap. split.
    - intros (res & -> & ([j res'] & -> & Hj)%list_elem_of_fmap). apply elem_of_map_to_list, lookup_delete_Some in Hj.
      destruct Hj. cbn [snd]. by exists j, res'.
    - intros (j & res & Hj & Hr & ->). exists res. split; [done|]. apply list_elem_of_fmap. exists (j, res).
      split; [done|]. by apply elem_of_map_to_list, lookup_delete_Some. }
  split_and!; [done | |].
  - intros E. assert (res_VolId res1 ∈ ([] : list N)) as Hin; [|by apply not_elem_of_nil in Hin].
    rewrite <- E, Hsec. by exists 1%nat, res1.
  - intros v Hv. assert (exists j res, results !! j = Some res /\ v = res_VolId res) as (j & res & Hj & ->).
    { apply elem_of_cons in Hv as [->|Hv]; [by exists 0%nat, res0|]. apply Hsec in Hv as (j & res & _ & ? & ?). eauto. }
    destruct (Hall _ _ Hj) as (a & (_ & _ & _ & Hvs) & bs & Hbs & Hd). exists a, bs. by rewrite Hid.
Qed.

Lemma doWrite_run (g : gateway) vs m bm c now ino i d nodes :
  coherent g vs m bm c -> (ino < 2 ^ 64)%N -> (i < 2 ^ 64)%N -> (N.of_nat (length d) <= max_alloc)%N ->
  clean d m -> (2 <= length nodes)%nat ->
  Forall (reachable (metaProxy g) m) nodes -> Forall (fun n => takes (servers g) m (StorageAddr n) d) nodes ->
  exists g' m' bm', doWrite schedule order now (NewBlockKey ino i) d nodes g = (Ok tt, g') /\
    coherent g' vs m' bm' (<[(ino, i) := d]> c).
Proof.
  intros Hc Hino Hi Hlen Hcl Hn2 Hre Hroom. destruct Hc as [C1 C2 C3 C4 C5 C6]. unfold doWrite.
  rewrite GetIno_New, GetIndex_New by done. cbv zeta.
  destruct (select_all_run nodes vs m g [] C2 C6 Hre) as (cl & Es & Hr). rewrite (bind_ok _ _ _ _ _ Es).
  cbn [fst snd app]. set (addrs := StorageAddr <$> nodes) in *. rewrite !length_fmap.
  destruct (write_all_run vs ino i d addrs (schedule (seq 0 (length addrs))) (with_clients cl g) m ∅)
    as (results & w' & m' & Ew & Hw' & Hg & Hout & Hin); try done.
  { rewrite Hschedule. apply NoDup_seq. }
  { intros j Hj. rewrite Hschedule, elem_of_seq in Hj. destruct (lookup_lt_is_Some_2 addrs j) as [a Ha]; [lia|].
    exists a. split; [done|]. unfold addrs in Ha. rewrite list_lookup_fmap in Ha. apply fmap_Some in Ha as (n & Hn & ->).
    by apply (Forall_lookup_1 _ _ _ _ Hroom Hn). }
  rewrite (bind_ok _ _ _ _ _ Ew). cbn [fst snd].
  assert (Hall : forall j res, results !! j = Some res -> exists a, answered vs ino i d a res /\ has_block m' a d).
  { intros j res Hj. destruct (decide (j ∈ schedule (seq 0 (length addrs)))) as [Hj'|Hj'];
      [|by rewrite Hout, lookup_empty in Hj].
    destruct (lookup_lt_is_Some_2 addrs j) as [a Ha]; [rewrite Hschedule, elem_of_seq in Hj'; lia|].
    destruct (Hin j a Hj' Ha) as (Hb & res' & Hr' & Hans). exists a. rewrite Hj in Hr'. by injection Hr' as <-. }
  assert (Hsome : forall j, (j < 2)%nat -> is_Some (results !! j)).
  { intros j Hj. destruct (lookup_lt_is_Some_2 addrs j) as [a Ha]; [unfold addrs; rewrite length_fmap; lia|].
    destruct (Hin j a) as (_ & res & -> & _); [|done|eauto]. rewrite Hschedule, elem_of_seq. unfold addrs. rewrite length_fmap. lia. }
  destruct (Hsome 0%nat) as [res0 H0]; [lia|]. destruct (Hsome 1%nat) as [res1 H1]; [lia|].
  pose proof (location_located vs m' ino i d results res0 res1 H0 H1 Hall) as Hloc.
  destruct nodes as [|n0 nodes']; [cbn in Hn2; lia|]. rewrite H0. cbn [deref]. unfold bind at 1, ret at 1.
  set (b := location res0 _) in *. unfold gw_try, on_metadata. cbn [metadata with_servers with_clients].
  destruct (ms_update (metadata g) bm now b C1) as (s' & Hup & Hms). rewrite Hup. cbn [lift_outcome].
  destruct (Hall _ _ H0) as (a0 & (Hri & Hrx & _ & _) & _).
  eexists _, m', (<[(Ino b, BlockIndexInFile b) := stamped b now]> bm). split; [reflexivity|].
  change (Ino b) with (res_Ino res0) in *. change (BlockIndexInFile b) with (res_BlockIdx res0) in *.
  rewrite Hri, Hrx in *. split; [done | done | done | | |].
  - cbn [blockMetaCache with_cache with_proxy with_metadata with_servers with_clients]. intros ino' cm j Hj.
    apply lookup_delete_Some in Hj as [Hne Hj]. rewrite lookup_insert_ne by congruence. by eapply C4.
  - by eapply placed_insert.
  - apply routed_track. eapply routed_grown; done.
Qed.

Lemma GetTopNPlus_run (g : gateway) vs m :
  routed (metaProxy g) (storageClients g) vs m -> (replica + 1 <= Z.of_nat (size (proxy_nodes (metaProxy g))))%Z ->
  exists nodes, GetTopNPlus replica range_nodes g = (Ok nodes, g) /\ length nodes = Z.to_nat (replica + 1) /\
    NoDup (StorageAddr <$> nodes) /\ Forall (reachable (metaProxy g) m) nodes.
Proof.
  intros Hr Hn. unfold GetTopNPlus, bind, gets, Datatypes.id. rewrite (proj2 (Z.ltb_ge _ _)) by lia.
  rewrite (proj2 (Z.ltb_ge _ 0)) by lia. set (p := metaProxy g) in *.
  set (l := SliceStable freer (range_nodes (proxy_nodes p)).*2).
  assert (Hp : l ≡ₚ (map_to_list (proxy_nodes p)).*2) by (unfold l; by rewrite SliceStable_perm, Hrange).
  assert (Hl : Forall (fun n => proxy_nodes p !! Id n = Some n) l).
  { rewrite Hp. apply Forall_forall. intros n ([i n'] & -> & Hi%elem_of_map_to_list)%list_elem_of_fmap. cbn [snd].
    by destruct (ro_node _ _ _ _ Hr _ _ Hi) as [-> _]. }
  assert (Hnd : NoDup (StorageAddr <$> l)).
  { apply NoDup_fmap_2_strong.
    - intros n n' Hin Hin' E. rewrite Forall_forall in Hl. apply Hl in Hin, Hin'.
      destruct (ro_node _ _ _ _ Hr _ _ Hin) as (_ & Ha & _), (ro_node _ _ _ _ Hr _ _ Hin') as (_ & Ha' & _).
      rewrite E in Ha. pose proof (ro_inj _ _ _ _ Hr _ _ _ Ha Ha') as Ei. rewrite Ei in Hin. congruence.
    - rewrite Hp. apply NoDup_fmap_2_strong; [|apply NoDup_map_to_list].
      intros [i n] [j n'] Hi Hj E. cbn in E. subst n'. apply elem_of_map_to_list in Hi, Hj.
      destruct (ro_node _ _ _ _ Hr _ _ Hi) as [<- _], (ro_node _ _ _ _ Hr _ _ Hj) as [<- _]. done. }
  exists (take (Z.to_nat (replica + 1)) l). split_and!.
  - done.
  - rewrite length_take, Hp, length_fmap, length_map_to_list. lia.
  - rewrite <- firstn_map. rewrite <- (take_drop (Z.to_nat (replica + 1)) (StorageAddr <$> l)) in Hnd.
    by apply NoDup_app in Hnd as [? _].
  - apply Forall_take. eapply Forall_impl; [exact Hl|]. cbn. intros n Hin.
    destruct (ro_node _ _ _ _ Hr _ _ Hin) as (_ & Ha & Hm). by split.
Qed.

(** A block can be written: there are enough nodes, each can take it, and no
    other data is stored under its digest. *)
Definition writable (g : gateway) (m : cluster) (d : list byte) : Prop :=
  (N.of_nat (length d) <= max_alloc)%N /\ clean d m /\
  (replica + 1 <= Z.of_nat (size (proxy_nodes (metaProxy g))))%Z /\
  forall a, is_Some (m !! a) -> sv_room (servers g) a \/ has_block m a d.

Lemma writable_takes (g : gateway) m d nodes :
  writable g m d -> Forall (reachable (metaProxy g) m) nodes ->
  Forall (fun n => takes (servers g) m (StorageAddr n) d) nodes.
Proof. intros (_ & _ & _ & Hr) Hn. eapply Forall_impl; [exact Hn|]. intros n [_ Hm]. split; [done | by apply Hr]. Qed.

Lemma gw_Write_run (g : gateway) vs m bm c now ino i d :
  coherent g vs m bm c -> (ino < 2 ^ 64)%N -> (i < 2 ^ 64)%N -> writable g m d ->
  exists g' m' bm', gw_Write replica range_nodes schedule order now (NewBlockKey ino i) d g = (Ok tt, g') /\
    coherent g' vs m' bm' (<[(ino, i) := d]> c).
Proof.
  intros Hc Hino Hi Hd. pose proof Hd as (Hlen & Hcl & Hn & _).
  destruct (GetTopNPlus_run g vs m (co_routed _ _ _ _ _ Hc) Hn) as (nodes & Hrun & Hlen' & _ & Hre).
  unfold gw_Write. rewrite (bind_ok _ _ _ _ _ Hrun). apply (doWrite_run g vs m bm c); try done; [lia|].
  by apply writable_takes.
Qed.

(** C3 The gateway is a map from blocks of files to data: in a state that agrees
    with the cluster, reading a block returns its data whichever copies are
    asked, or reports that there is none, and writing a block stores it at
    enough nodes and changes no other block. *)
Theorem Gateway_implements (g : gateway) vs m bm c :
  coherent g vs m bm c ->
  (forall ino i, (ino < 2 ^ 64)%N -> (i < 2 ^ 64)%N ->
     exists g', gw_Read unexpired shuffle spare (NewBlockKey ino i) g =
         (match c !! (ino, i) with Some d => Ok d | None => Err (Fails ErrBlockNotFound) end, g') /\
       coherent g' vs m bm c) /\
  (forall now ino i d, (ino < 2 ^ 64)%N -> (i < 2 ^ 64)%N -> writable g m d ->
     exists g' m' bm', gw_Write replica range_nodes schedule order now (NewBlockKey ino i) d g = (Ok tt, g') /\
       coherent g' vs m' bm' (<[(ino, i) := d]> c)).
Proof.
  intros Hc. split; intros.
  - by apply gw_Read_run.
  - by eapply gw_Write_run.
Qed.

(** ** Writing part of a block *)

Lemma writable_mono (g g' : gateway) m d :
  metaProxy g' = metaProxy g -> (forall b, sv_room (servers g) b -> sv_room (servers g') b) ->
  writable g m d -> writable g' m d.
Proof.
  intros E Hr (H1 & H2 & H3 & H4). split_and!; [done | done | by rewrite E |].
  intros a Ha. destruct (H4 a Ha); [left; by apply Hr | by right].
Qed.

Lemma volume_node (g : gateway) vs m v a :
  routed (metaProxy g) (storageClients g) vs m -> vs !! v = Some a ->
  exists n, proxy_GetNode v g = (Ok n, g) /\ reachable (metaProxy g) m n.
Proof.
  intros Hr Hv. destruct (ro_vol _ _ _ _ Hr _ _ Hv) as (n & Hn & <- & Hc & Hm). exists n.
  split; [by apply proxy_GetNode_run | by split].
Qed.

Lemma secondary_nodes_run (g : gateway) vs m ids :
  routed (metaProxy g) (storageClients g) vs m -> Forall (fun v => is_Some (vs !! v)) ids ->
  exists ns, secondary_nodes ids g = (Ok ns, g) /\ length ns = length ids /\ Forall (reachable (metaProxy g) m) ns.
Proof.
  intros Hr Hids. induction Hids as [|v ids [a Ha] Hids (ns & Hrun & Hlen & Hns)]; [by exists []|].
  destruct (volume_node g vs m v a Hr Ha) as (n & Hn & Hre). exists (n :: ns).
  cbn [secondary_nodes]. unfold gw_try. rewrite Hn. rewrite (bind_ok _ _ _ _ _ Hrun). split_and!; [done | cbn; lia | by constructor].
Qed.

Lemma on_fst_ok {X Y E A : Type} (m : M X E A) x (y : Y) a x' : m x = (Ok a, x') -> on_fst m (x, y) = (Ok a, (x', y)).
Proof. intros Hm. unfold on_fst. cbn [fst snd]. by rewrite Hm. Qed.

(** The part of WriteAt under the mutex: the block with its new data, and the
    nodes that have it. *)
Lemma gw_WriteAt_found (g : gateway) vs m bm c now ino i (h : list Interval) L ws data b d :
  coherent g vs m bm c -> (ino < 2 ^ 64)%N -> (i < 2 ^ 64)%N ->
  located vs m b d -> option_Forall2 sub_block (Some b) (bm !! (ino, i)) ->
  length data = length d -> records h L (Z.of_nat (length d)) ws -> writable g m (overlay ws d data) ->
  exists g' h' m' bm',
    (on_fst lock_mu ;;;
     vols <- on_fst (pick_volumes shuffle spare ino i b) ;;
     r <- on_fst (read_either vols.1 vols.2 [(i, BlockId b)]) ;;
     p <- on_list (Copy L (default [] (r !! i)) data) ;;
     node <- on_fst (proxy_GetNode (PrimaryVolumeId b)) ;;
     rest <- on_fst (secondary_nodes (SecondaryVolumeIds (disturbed shuffle spare b))) ;;
     on_fst unlock_mu ;;;
     on_fst (doWrite schedule order now (NewBlockKey ino i) p.2 (node :: rest))) (g, h) = (Ok tt, (g', h')) /\
    coherent g' vs m' bm' (<[(ino, i) := overlay ws d data]> c).
Proof.
  intros Hc Hino Hi Hl Hs Hlen Hrec Hwr. pose proof (co_mu _ _ _ _ _ Hc) as Hmu.
  erewrite bind_ok by (apply on_fst_ok, (lock_run _ Hmu)).
  destruct (pick_run vs m ino i b d (with_mu true g) Hl) as (v0 & v1 & Hp & Hv0 & _).
  erewrite bind_ok by (apply on_fst_ok, Hp). cbn [blockMetaCache with_mu fst snd].
  pose proof (coherent_disturbed _ _ _ _ _ _ _ _ Hc Hs) as Hc2.
  set (cm := alter _ ino _) in *. set (g2 := with_cache cm (with_mu true g)).
  destruct (read_run g2 vs m b d i (co_servers _ _ _ _ _ Hc) (co_routed _ _ _ _ _ Hc) Hl v0 v1 Hv0)
    as (g3 & Hread & cl & w & -> & Hw & Hr & Hroom).
  erewrite bind_ok by (apply on_fst_ok, Hread). rewrite lookup_singleton_eq. cbn [default Datatypes.id].
  destruct (Copy_overlay h L ws d data Hrec Hlen) as (n & h' & Hcopy).
  erewrite bind_ok by (unfold on_list; cbn [fst snd]; by rewrite Hcopy).
  set (g3 := with_servers w (with_clients cl g2)). assert (Hr3 : routed (metaProxy g3) (storageClients g3) vs m) by exact Hr.
  pose proof Hl as (_ & _ & Hvols). destruct (Hvols (PrimaryVolumeId b)) as (a & bs & Ha & _); [set_solver|].
  destruct (volume_node g3 vs m _ _ Hr3 Ha) as (n0 & Hn0 & Hre0). erewrite bind_ok by (apply on_fst_ok, Hn0).
  assert (Hdist : located vs m (disturbed shuffle spare b) d).
  { eapply sub_block_located; [|exact Hl]. apply sub_block_disturbed, sub_block_refl. }
  destruct (secondary_nodes_run g3 vs m (SecondaryVolumeIds (disturbed shuffle spare b)) Hr3) as (ns & Hns & Hnl & Hre).
  { apply Forall_forall. intros v Hv. destruct Hdist as (_ & _ & Hd). destruct (Hd v) as (a' & _ & -> & _); [set_solver|]. eauto. }
  erewrite bind_ok by (apply on_fst_ok, Hns).
  erewrite bind_ok by (apply on_fst_ok; reflexivity).
  assert (E : with_mu false g3 = with_servers w (with_clients cl (with_cache cm g))).
  { unfold g3, g2. destruct g. cbn in *. by subst. }
  rewrite E. set (g4 := with_servers w _). cbn [snd].
  assert (Hc4 : coherent g4 vs m bm c) by (eapply coherent_steady; [exact Hc2|]; exists cl, w; by split_and!).
  assert (Hw4 : writable g4 m (overlay ws d data)) by (by eapply writable_mono; [| |exact Hwr]).
  destruct (doWrite_run g4 vs m bm c now ino i (overlay ws d data) (n0 :: ns)) as (g' & m' & bm' & Hrun & Hc'); try done.
  { apply Hw4. } { apply Hw4. }
  { cbn. rewrite Hnl. destruct Hdist as (_ & Hne & _). destruct (SecondaryVolumeIds (disturbed _ _ _)); [done | cbn; lia]. }
  { constructor; [exact Hre0 | exact Hre]. }
  { apply writable_takes; [done|]. constructor; [exact Hre0 | exact Hre]. }
  exists g', h', m', bm'. split; [|done]. by apply on_fst_ok.
Qed.

Lemma gw_WriteAt_run (g : gateway) vs m bm c now ino i (h : list Interval) L ws data :
  coherent g vs m bm c -> (ino < 2 ^ 64)%N -> (i < 2 ^ 64)%N ->
  (forall old, c !! (ino, i) = Some old ->
     length data = length old /\ records h L (Z.of_nat (length old)) ws) ->
  writable g m (merged ws c (ino, i) data) ->
  exists g' h' m' bm',
    gw_WriteAt replica unexpired shuffle spare range_nodes schedule order now (NewBlockKey ino i) L data (g, h) =
      (Ok tt, (g', h')) /\
    coherent g' vs m' bm' (<[(ino, i) := merged ws c (ino, i) data]> c).
Proof.
  intros Hc Hino Hi Hold Hwr. unfold gw_WriteAt. rewrite key_Split_New by done. cbn [fst snd].
  destruct (ensure_run g vs m bm c ino Hc) as (mm & g1 & -> & Hmm & Hc1 & Es & Ep).
  assert (Hw1 : writable g1 m (merged ws c (ino, i) data)).
  { eapply writable_mono; [exact Ep | | exact Hwr]. by rewrite Es. }
  pose proof (cached_block _ _ _ _ _ _ i _ Hc1 Hmm) as Hk. unfold merged in *.
  destruct (c !! (ino, i)) as [d|].
  - destruct Hk as (b & -> & Hix & Hl & Hs). destruct (Hold d eq_refl) as [Hlen Hrec].
    by apply (gw_WriteAt_found g1 vs m bm c).
  - rewrite Hk. destruct (gw_Write_run g1 vs m bm c now ino i data Hc1 Hino Hi Hw1) as (g' & m' & bm' & Hrun & Hc').
    exists g', h, m', bm'. split; [|done]. by apply on_fst_ok.
Qed.

(** C23 Writing part of a block through the gateway, while its caches agree with the
    cluster and the nodes can take the result: a block that is not there yet gets the
    data; for one that is, where the data is as long as the block and the intervals
    are runs within it, the written bytes go over the old ones, except those of a run
    that reaches the end of the block.  No other block changes. *)
Theorem gw_WriteAt_overlays (g : gateway) vs m bm c now ino i (h : list Interval) L ws data :
  coherent g vs m bm c -> (ino < 2 ^ 64)%N -> (i < 2 ^ 64)%N ->
  (forall old, c !! (ino, i) = Some old ->
     length data = length old /\ records h L (Z.of_nat (length old)) ws) ->
  writable g m (merged ws c (ino, i) data) ->
  exists g' h' m' bm',
    gw_WriteAt replica unexpired shuffle spare range_nodes schedule order now (NewBlockKey ino i) L data (g, h) =
      (Ok tt, (g', h')) /\
    coherent g' vs m' bm' (<[(ino, i) := merged ws c (ino, i) data]> c).
Proof. apply gw_WriteAt_run. Qed.

(** The gateway keeps the contract of a storage backend while its caches agree with
    the cluster. *)
#[export, refine]
Instance Gateway_spec now range_blocks range_vols :
  BackendSpec gateway (SB := Gateway_backend replica unexpired shuffle spare range_nodes schedule order now
                         range_blocks range_vols) := {
  be_ghost := gmap N string * cluster * gmap (N * N) BlockMeta;
  be_holds g x c := coherent g x.1.1 x.1.2 x.2 c;
  be_can g x d := writable g x.1.2 d;
}.
Proof.
  - intros g [[vs m] bm] c ino i Hc Hino Hi. destruct (gw_Read_run g vs m bm c ino i Hc Hino Hi) as (g' & Hrun & Hc').
    exists g', (vs, m, bm). by split.
  - intros g [[vs m] bm] c ino i d Hc Hino Hi Hd.
    destruct (gw_Write_run g vs m bm c now ino i d Hc Hino Hi Hd) as (g' & m' & bm' & Hrun & Hc').
    exists g', (vs, m', bm'). by split.
  - intros g [[vs m] bm] c ino i h L ws d Hc Hino Hi Hold Hd.
    destruct (gw_WriteAt_run g vs m bm c now ino i h L ws d Hc Hino Hi Hold Hd) as (g' & h' & m' & bm' & Hrun & Hc').
    exists g', (vs, m', bm'), h'. by split.
Defined.

(** Writing a whole block over an existing one does nothing: the write succeeds
    and the block keeps its old data. *)
Theorem gw_WriteAt_drops_whole (g : gateway) vs m bm c now ino i (h : list Interval) L data old :
  coherent g vs m bm c -> (ino < 2 ^ 64)%N -> (i < 2 ^ 64)%N ->
  c !! (ino, i) = Some old -> length data = length old ->
  records h L (Z.of_nat (length old)) [(0, Z.of_nat (length old))%Z] -> writable g m old ->
  exists g' h' m' bm',
    gw_WriteAt replica unexpired shuffle spare range_nodes schedule order now (NewBlockKey ino i) L data (g, h) =
      (Ok tt, (g', h')) /\
    coherent g' vs m' bm' c.
Proof.
  intros Hc Hino Hi Hold Hlen Hrec Hwr. pose proof (overlay_whole old data) as E.
  destruct (gw_WriteAt_run g vs m bm c now ino i h L [(0, Z.of_nat (length old))%Z] data Hc Hino Hi)
    as (g' & h' & m' & bm' & Hrun & Hc').
  - intros old'. rewrite Hold. by intros [= <-].
  - unfold merged. by rewrite Hold, E.
  - exists g', h', m', bm'. split; [done|]. unfold merged in Hc'. rewrite Hold, E in Hc'. by rewrite insert_id in Hc'.
Qed.

Lemma ensure_mu x ino (g : gateway) :
  ensureBlockMetaCached unexpired ino (with_mu x g) =
  ((ensureBlockMetaCached unexpired ino g).1, with_mu x (ensureBlockMetaCached unexpired ino g).2).
Proof.
  unfold ensureBlockMetaCached, bind, gets, Datatypes.id. cbn [blockMetaCache with_mu].
  destruct (if unexpired ino then _ else _); [done|]. unfold on_metadata. cbn [metadata with_mu].
  by destruct (rpc_GetInoBlockMap ino (metadata g)) as [[| |] ?].
Qed.

Lemma gw_Read_locked (g : gateway) vs m bm c ino i d :
  coherent g vs m bm c -> (ino < 2 ^ 64)%N -> (i < 2 ^ 64)%N -> c !! (ino, i) = Some d ->
  (gw_Read unexpired shuffle spare (NewBlockKey ino i) (with_mu true g)).1 = Err Blocked.
Proof.
  intros Hc Hino Hi Hd. unfold gw_Read. rewrite key_Split_New by done. unfold bind at 1. rewrite ensure_mu.
  destruct (ensure_run g vs m bm c ino Hc) as (mm & g1 & -> & Hmm & Hc1 & _). cbn [fst snd].
  pose proof (cached_block _ _ _ _ _ _ i _ Hc1 Hmm) as Hk. rewrite Hd in Hk. by destruct Hk as (b & -> & _).
Qed.

(** C39 A write into a block of another length leaves the mutex locked: it fails,
    and every read of a block that is there waits for ever after it. *)
Theorem gw_WriteAt_locks_out (g : gateway) vs m bm c now ino i (h : list Interval) L ws n data old :
  coherent g vs m bm c -> (ino < 2 ^ 64)%N -> (i < 2 ^ 64)%N ->
  c !! (ino, i) = Some old -> length data <> length old -> records h L n ws ->
  exists g' h',
    gw_WriteAt replica unexpired shuffle spare range_nodes schedule order now (NewBlockKey ino i) L data (g, h) =
      (Err (Fails ErrLenNotMatched), (g', h')) /\
    forall ino' i' d, (ino' < 2 ^ 64)%N -> (i' < 2 ^ 64)%N -> c !! (ino', i') = Some d ->
      (gw_Read unexpired shuffle spare (NewBlockKey ino' i') g').1 = Err Blocked.
Proof.
  intros Hc Hino Hi Hold Hlen Hrec. unfold gw_WriteAt. rewrite key_Split_New by done. cbn [fst snd].
  destruct (ensure_run g vs m bm c ino Hc) as (mm & g1 & -> & Hmm & Hc1 & _ & _).
  pose proof (cached_block _ _ _ _ _ _ i _ Hc1 Hmm) as Hk. rewrite Hold in Hk. destruct Hk as (b & -> & Hix & Hl & Hs).
  pose proof (co_mu _ _ _ _ _ Hc1) as Hmu. erewrite bind_ok by (apply on_fst_ok, (lock_run _ Hmu)).
  destruct (pick_run vs m ino i b old (with_mu true g1) Hl) as (v0 & v1 & Hp & Hv0 & _).
  erewrite bind_ok by (apply on_fst_ok, Hp). cbn [blockMetaCache with_mu fst snd].
  pose proof (coherent_disturbed _ _ _ _ _ _ _ _ Hc1 Hs) as Hc2. set (cm := alter _ ino _) in *.
  destruct (read_run (with_cache cm (with_mu true g1)) vs m b old i (co_servers _ _ _ _ _ Hc1) (co_routed _ _ _ _ _ Hc1) Hl v0 v1 Hv0)
    as (g3 & Hread & cl & w & -> & Hw & Hr & Hroom).
  erewrite bind_ok by (apply on_fst_ok, Hread). rewrite lookup_singleton_eq. cbn [default Datatypes.id].
  destruct (Copy_mismatch h L ws n old data Hrec Hlen) as (h' & Hcopy).
  eexists _, h'. split; [apply bind_err; unfold on_list; cbn [fst snd]; by rewrite Hcopy|].
  assert (Hc4 : coherent (with_servers w (with_clients cl (with_cache cm g1))) vs m bm c).
  { eapply coherent_steady; [exact Hc2|]. exists cl, w. by split_and!. }
  intros ino' i' d Hino' Hi' Hd. by apply (gw_Read_locked _ vs m bm c ino' i' d Hc4).
Qed.

(** ** Refreshing the caches *)

Lemma cached_volumes l : forall (acc : gmap N N) (pm : gmap N PhysicalVolume),
  (forall p, p ∈ l -> pm !! pv_Id p = Some p) -> forall k,
  foldl (fun m v => <[pv_Id v := pv_StorageNodeId v]> m) acc l !! k =
  if decide (k ∈ pv_Id <$> l) then pv_StorageNodeId <$> pm !! k else acc !! k.
Proof.
  induction l as [|p l IH]; intros acc pm Hl k; [done|]. cbn [foldl].
  assert (Hp : pm !! pv_Id p = Some p) by (apply Hl; by left).
  rewrite (IH _ pm) by (intros; apply Hl; by right). rewrite fmap_cons. destruct (decide (k ∈ pv_Id <$> l)) as [Hk|Hk].
  - by rewrite decide_True by (by right).
  - destruct (decide (k = pv_Id p)) as [->|Hne].
    + rewrite lookup_insert_eq, decide_True by (by left). by rewrite Hp.
    + rewrite lookup_insert_ne, decide_False by done || by intros [?|?]%elem_of_cons. done.
Qed.

Lemma cache_nodes_other l : forall p i, i ∉ Id <$> l ->
  nodeAddrCache (foldl cache_node p l) !! i = nodeAddrCache p !! i /\
  nodeTcpAddrCache (foldl cache_node p l) !! i = nodeTcpAddrCache p !! i /\
  proxy_nodes (foldl cache_node p l) !! i = proxy_nodes p !! i.
Proof.
  induction l as [|n l IH]; intros p i Hi; [done|]. rewrite fmap_cons, not_elem_of_cons in Hi. destruct Hi as [Hne Hi].
  cbn [foldl]. destruct (IH (cache_node p n) i Hi) as (-> & -> & ->). cbn [cache_node nodeAddrCache nodeTcpAddrCache proxy_nodes].
  rewrite !lookup_insert_ne by done. split_and!; [done..|]. repeat case_match; by rewrite ?lookup_insert_ne.
Qed.
Lemma cache_nodes_in l : forall p n, NoDup (Id <$> l) -> n ∈ l ->
  nodeAddrCache (foldl cache_node p l) !! Id n = Some (StorageAddr n) /\
  nodeTcpAddrCache (foldl cache_node p l) !! Id n = Some (StorageTcpAddr n) /\
  (proxy_nodes (foldl cache_node p l) !! Id n = Some n \/
   is_Some (proxy_nodes p !! Id n) /\ proxy_nodes (foldl cache_node p l) !! Id n = proxy_nodes p !! Id n).
Proof.
  induction l as [|n0 l IH]; intros p n Hnd Hn; [by apply not_elem_of_nil in Hn|].
  rewrite fmap_cons, NoDup_cons in Hnd. destruct Hnd as [Hn0 Hnd]. cbn [foldl].
  apply elem_of_cons in Hn as [->|Hn].
  - destruct (cache_nodes_other l (cache_node p n0) (Id n0) Hn0) as (-> & -> & ->).
    cbn [cache_node nodeAddrCache nodeTcpAddrCache proxy_nodes]. rewrite !lookup_insert_eq. split_and!; [done..|].
    destruct (proxy_nodes p !! Id n0) eqn:E; [|left; apply lookup_insert_eq].
    case_match; [left; apply lookup_insert_eq | right; rewrite E; eauto].
  - destruct (IH (cache_node p n0) n Hnd Hn) as (H1 & H2 & H3). split_and!; [done..|].
    assert (Id n <> Id n0) by (intros E; apply Hn0; rewrite <- E; by apply list_elem_of_fmap_2).
    assert (E : proxy_nodes (cache_node p n0) !! Id n = proxy_nodes p !! Id n).
    { cbn. repeat case_match; by rewrite ?lookup_insert_ne by done. }
    by rewrite E in H3.
Qed.
Lemma cache_nodes_volumes l : forall p, volumeNodeCache (foldl cache_node p l) = volumeNodeCache p.
Proof. induction l as [|n l IH]; intros p; [done|]. cbn [foldl]. by rewrite IH. Qed.

(** The addresses of the volumes [pm] on the nodes [nm]. *)
Definition volumes_at (pm : gmap N PhysicalVolume) (nm : gmap N StorageNode) : gmap N string :=
  omap (fun p => StorageAddr <$> nm !! pv_StorageNodeId p) pm.

(** The registered volumes and nodes make sense, and the nodes run. *)
Record registered (pm : gmap N PhysicalVolume) (nm : gmap N StorageNode) (m : cluster) : Prop := {
  re_vol k p : pm !! k = Some p -> pv_Id p = k;
  re_node i n : nm !! i = Some n -> Id n = i /\ addressable n /\ is_Some (m !! StorageAddr n);
  re_inj i j n n' : nm !! i = Some n -> nm !! j = Some n' -> StorageAddr n = StorageAddr n' -> i = j;
}.

(** What is cached of the nodes is not out of date. *)
Record current (p : MetaProxy) (cl : gmap Z StorageClientImpl) (nm : gmap N StorageNode) : Prop := {
  cu_addr i a : nodeAddrCache p !! i = Some a -> StorageAddr <$> nm !! i = Some a;
  cu_node i n : proxy_nodes p !! i = Some n -> Id n = i /\ StorageAddr <$> nm !! i = Some (StorageAddr n);
  cu_client i a c : StorageAddr <$> nm !! i = Some a -> cl !! to_int i = Some c -> c = mkStorageClientImpl a true;
}.

Lemma refreshed_routed p cl pm nm m vols nodes :
  registered pm nm m -> current p cl nm ->
  (forall v, v ∈ vols <-> pm !! pv_Id v = Some v) ->
  NoDup (Id <$> nodes) -> (forall n, n ∈ nodes <-> nm !! Id n = Some n) ->
  let p' := foldl cache_node (mkMetaProxy (foldl (fun m v => <[pv_Id v := pv_StorageNodeId v]> m) ∅ vols)
    (nodeAddrCache p) (nodeTcpAddrCache p) (proxy_nodes p)) nodes in
  routed p' cl (volumes_at pm nm) m /\ current p' cl nm /\ dom (proxy_nodes p') = dom nm.
Proof.
  intros Hre Hcu Hv Hnd Hn p'. set (p1 := mkMetaProxy _ _ _ _) in p'.
  assert (Hin : forall i n, nm !! i = Some n ->
    nodeAddrCache p' !! i = Some (StorageAddr n) /\ nodeTcpAddrCache p' !! i = Some (StorageTcpAddr n) /\
    exists n', proxy_nodes p' !! i = Some n' /\ Id n' = i /\ StorageAddr n' = StorageAddr n).
  { intros i n Hi. destruct (re_node _ _ _ Hre _ _ Hi) as [<- _].
    destruct (cache_nodes_in nodes p1 n Hnd (proj2 (Hn n) Hi)) as (H1 & H2 & H3). split_and!; [done..|].
    destruct H3 as [H3|[[n' Hn'] H3]]; [by exists n|]. exists n'. unfold p'. rewrite H3.
    destruct (cu_node _ _ _ Hcu _ _ Hn') as [Hid Ha]. rewrite Hi in Ha. cbn in Ha. split_and!; [done | done | congruence]. }
  assert (Hout : forall i, nm !! i = None ->
    nodeAddrCache p' !! i = None /\ proxy_nodes p' !! i = None).
  { intros i Hi. destruct (cache_nodes_other nodes p1 i) as (H1 & _ & H3).
    { intros (n & -> & Hin')%list_elem_of_fmap. apply Hn in Hin'. congruence. }
    unfold p'. rewrite H1, H3. cbn. split; apply eq_None_not_Some; intros [x Hx].
    - apply (cu_addr _ _ _ Hcu) in Hx. by rewrite Hi in Hx.
    - apply (cu_node _ _ _ Hcu) in Hx as [_ Hx]. by rewrite Hi in Hx. }
  assert (Haddr : forall i a, nodeAddrCache p' !! i = Some a -> exists n, nm !! i = Some n /\ a = StorageAddr n).
  { intros i a Ha. destruct (nm !! i) as [n|] eqn:E; [|by destruct (Hout i E) as [E' _]; rewrite E' in Ha].
    destruct (Hin i n E) as (E' & _). exists n. split; [done|]. congruence. }
  assert (Hnode : forall i n', proxy_nodes p' !! i = Some n' -> exists n, nm !! i = Some n /\ Id n' = i /\ StorageAddr n' = StorageAddr n).
  { intros i n' Ha. destruct (nm !! i) as [n|] eqn:E; [|by destruct (Hout i E) as [_ E']; rewrite E' in Ha].
    destruct (Hin i n E) as (_ & _ & n'' & Hn'' & ? & ?). rewrite Ha in Hn''. injection Hn'' as <-. by exists n. }
  split_and!.
  - split.
    + intros v a Ha. unfold volumes_at in Ha. apply lookup_omap_Some in Ha as (pv & Ha & Hpv).
      apply fmap_Some in Ha as (n & Hi & ->). destruct (re_node _ _ _ Hre _ _ Hi) as (Hid & Hok & Hm).
      destruct (Hin _ _ Hi) as (H1 & H2 & _). exists (bare n). rewrite <- Hid in H1, H2. split_and!; [|done..].
      apply GetNode_run; [done | | done | done]. unfold p'. rewrite cache_nodes_volumes. cbn [volumeNodeCache p1].
      rewrite (cached_volumes _ _ pm) by apply Hv. rewrite decide_True; [by rewrite Hpv; cbn; f_equal|].
      rewrite <- (re_vol _ _ _ Hre _ _ Hpv). apply list_elem_of_fmap_2, Hv. by rewrite (re_vol _ _ _ Hre _ _ Hpv).
    + intros i n' Hn'. destruct (Hnode i n' Hn') as (n & Hi & Hid & Ha). rewrite Ha.
      destruct (Hin _ _ Hi) as (H1 & _). destruct (re_node _ _ _ Hre _ _ Hi) as (_ & _ & Hm). by split_and!.
    + intros i a Ha. destruct (Haddr i a Ha) as (n & Hi & ->).
      destruct (re_node _ _ _ Hre _ _ Hi) as (<- & (_ & _ & _ & Hlt) & _). done.
    + intros i j a Ha Hb. destruct (Haddr _ _ Ha) as (n & Hi & ->), (Haddr _ _ Hb) as (n' & Hj & E).
      by eapply (re_inj _ _ _ Hre).
    + intros i a cc Ha Hcl. destruct (Haddr _ _ Ha) as (n & Hi & ->). eapply (cu_client _ _ _ Hcu); [|done]. by rewrite Hi.
  - split.
    + intros i a Ha. destruct (Haddr _ _ Ha) as (n & -> & ->). done.
    + intros i n' Hn'. destruct (Hnode i n' Hn') as (n & -> & Hid & ->). done.
    + apply (cu_client _ _ _ Hcu).
  - apply set_eq. intros i. rewrite !elem_of_dom. split; intros [x Hx].
    + destruct (Hnode _ _ Hx) as (n & -> & _). eauto.
    + destruct (Hin _ _ Hx) as (_ & _ & n' & -> & _). eauto.
Qed.

(** Refreshing the caches makes the gateway ready: after it every registered
    volume is found at its node, as many nodes are known as are registered, and
    a gateway that has cached no blocks agrees with the contents of the cluster. *)
Theorem updateCacheInternal_coherent (g : gateway) pm nm m bm :
  ms_holds (metadata g) bm -> ms_known (metadata g) pm nm ->
  registered pm nm m -> current (metaProxy g) (storageClients g) nm ->
  exists g', updateCacheInternal g = (Ok tt, g') /\
    routed (metaProxy g') (storageClients g') (volumes_at pm nm) m /\
    size (proxy_nodes (metaProxy g')) = size nm /\
    (ms_known (metadata g') pm nm /\ current (metaProxy g') (storageClients g') nm) /\
    forall c, sv_holds (servers g) (volumes_at pm nm) m -> placed bm (volumes_at pm nm) m c ->
      blockMetaMu g = false -> blockMetaCache g = ∅ -> coherent g' (volumes_at pm nm) m bm c.
Proof.
  intros Hms Hkn Hre Hcu. unfold updateCacheInternal, bind, on_metadata.
  destruct (ms_load _ _ _ _ Hms Hkn) as (vols & s1 & -> & Hms1 & Hkn1 & Hv). cbn [lift_outcome modify metadata with_proxy with_metadata].
  destruct (ms_list _ _ _ _ Hms1 Hkn1) as (nodes & s2 & -> & Hms2 & Hkn2 & Hnd & Hn). cbn [lift_outcome].
  destruct (refreshed_routed _ _ pm nm m vols nodes Hre Hcu Hv Hnd Hn) as (Hr & Hcu' & Hdom).
  eexists. split; [reflexivity|]. cbn [metaProxy storageClients metadata with_proxy with_metadata].
  split_and!; [exact Hr | by rewrite <- size_dom, Hdom, size_dom | done | exact Hcu' |].
  intros c Hsv Hpl Hmu Hca. split; [done | done | done | | done | exact Hr].
  intros ino cm i. cbn [blockMetaCache with_proxy with_metadata]. by rewrite Hca, lookup_empty.
Qed.
End props.
