(* ===== verification/GatewayServers.v ===== *)
(** The servers of the gateway are the services of this library: the metadata
    server over any badger that behaves as documented, and a storage node at
    each address, over any badger and file system.  Both keep the promises the
    gateway relies on, so its theorems hold over them; the witnesses run a
    gateway in front of two nodes. *)
From Stdlib Require Import Ascii Strings.Byte ZArith NArith Floats.SpecFloat Lia.
From stdpp Require Import prelude gmap strings list fin_maps sorting.
From S2P Require Import Prelude Store Badger StoreProps Attr MetaStore Hash Block Engine Slot Volume VolumeProps DataNode DataNodeProps BlockMap Cluster VolumeMeta Interval IntervalProps StorageBackend Gateway GatewayProps.

(** * The metadata server *)

Section meta_server.
Context {B : Badger} `{!BadgerSpec B} `{NodeCodec} `{VolumeCodec}.
Context (range_volumes : gmap string PhysicalVolume -> list (string * PhysicalVolume)).
Context (range_blocks : gmap string BlockMeta -> list (string * BlockMeta)).
Context (range_nodes : gmap string StorageNode -> list (string * StorageNode)).
Context (Hvolumes : forall m, range_volumes m ≡ₚ map_to_list m).
Context (Hblocks : forall m, range_blocks m ≡ₚ map_to_list m).
Context (Hnodes : forall m, range_nodes m ≡ₚ map_to_list m).

Instance StorageMeta_server : MetaServer (BadgerStore B) := {
  rpc_GetInoBlockMap ino := p <- sm_GetInoBlockMap range_blocks ino ;; ret p.2;
  rpc_UpdateBlockLocation := UpdateBlockLocation;
  rpc_LoadConfiguration := p <- LoadConfiguration range_volumes ;; ret p.2;
  rpc_ListStorageNodes := ListStorageNodes range_nodes;
}.

(** No virtual volume was created: with one, the configuration cannot be read. *)
Definition no_virtual (m : gmap string blob) : Prop :=
  forall k, has_prefix Virtual_FormatPrefix k = true -> m !! k = None.

Lemma ListVirtualVolumes_mem (s : mem_store) : no_virtual (view s) -> ListVirtualVolumes s = (Ok [], s).
Proof.
  intros Hn. unfold ListVirtualVolumes, catch, DoGetVirtuals, bind. rewrite GetByBucket_mem by done.
  set (f := filter _ _). assert (f = ∅) as ->; [|done].
  apply map_eq. intros k. rewrite lookup_empty. apply eq_None_not_Some. intros [b Hb].
  apply map_lookup_filter_Some in Hb as [Hb Hp]. by rewrite Hn in Hb.
Qed.

Lemma LoadConfiguration_mem (s : mem_store) pm :
  no_virtual (view s) -> holds_volumes (view s) pm ->
  exists l, LoadConfiguration range_volumes s = (Ok ([], l), s) /\ l ≡ₚ (map_to_list pm).*2.
Proof.
  intros Hn Hv. destruct (ListPhysicalVolumes_mem range_volumes Hvolumes s pm Hv) as (l & Hrun & Hp). exists l.
  unfold LoadConfiguration, bind. by rewrite ListVirtualVolumes_mem, Hrun.
Qed.

Lemma sim_sm_GetInoBlockMap ino :
  sim abs_store (sm_GetInoBlockMap (S := BadgerStore B) range_blocks ino) (sm_GetInoBlockMap range_blocks ino).
Proof. unfold sm_GetInoBlockMap, GetInoBlockMap. solve_sim. Qed.

Program Instance StorageMeta_spec : MetaServerSpec (BadgerStore B) := {
  ms_holds s bm := holds_blocks (sees s) bm;
  ms_known s pm nm := holds_volumes (sees s) pm /\ no_virtual (sees s) /\ exists am, holds_nodes (sees s) nm am;
}.
Next Obligation.
  intros s bm ino Hb. cbn. destruct (GetInoBlockMap_mem range_blocks Hblocks (abs_store s) bm ino Hb) as (out & Hrun & _ & Hout & _).
  assert (Hrun' : sm_GetInoBlockMap range_blocks ino (abs_store s) = (Ok (VirtualVolumeID out, Blocks out), abs_store s)).
  { unfold sm_GetInoBlockMap, bind. by rewrite Hrun. }
  destruct (sim_run _ _ s _ _ (sim_sm_GetInoBlockMap ino) Hrun') as (s' & Hr & Hs').
  exists (Blocks out), s'. rewrite (bind_ok _ _ _ _ _ Hr). unfold sees. by rewrite Hs'.
Qed.
Next Obligation.
  intros s bm now b Hb. cbn. unfold sees in *.
  destruct (UpdateBlockLocation_mem now b (abs_store s) bm Hb) as (s1 & Hrun & H1 & _).
  destruct (sim_run _ _ s _ _ (sim_UpdateBlockLocation now b) Hrun) as (s' & Hrun' & <-). by exists s'.
Qed.
Next Obligation.
  intros s bm pm nm Hb (Hv & Hn & am & Ha). cbn. unfold sees in *.
  destruct (LoadConfiguration_mem (abs_store s) pm Hn Hv) as (l & Hrun & Hp).
  destruct (sim_run _ _ s _ _ (sim_LoadConfiguration range_volumes) Hrun) as (s' & Hr & Hs').
  exists l, s'. rewrite (bind_ok _ _ _ _ _ Hr), Hs'. split_and!; try done; [by eauto|].
  intros p. rewrite Hp, list_elem_of_fmap. split.
  - intros ([k p'] & -> & Hk%elem_of_map_to_list). cbn [snd]. by rewrite (hv_id _ _ Hv _ _ Hk).
  - intros Hin. exists (pv_Id p, p). split; [done|]. by apply elem_of_map_to_list.
Qed.
Next Obligation.
  intros s bm pm nm Hb (Hv & Hn & am & Ha). cbn. unfold sees in *.
  destruct (ListStorageNodes_mem range_nodes Hnodes (abs_store s) nm am Ha) as (l & Hrun & Hnd & Hl).
  destruct (sim_run _ _ s _ _ (sim_ListStorageNodes range_nodes) Hrun) as (s' & Hr & Hs').
  exists l, s'. rewrite Hs'. split_and!; try done. eauto.
Qed.
End meta_server.

(** * The storage nodes *)

Section storage_servers.
Context {B : Badger} `{!BadgerSpec B} {F : Fs} `{!FsSpec F} {L : Lru} {C : CloudKV} `{BitmapCodec}.
Context (range : gmap string N -> list (string * N)).
Context (range_perm : forall m, range m ≡ₚ map_to_list m).
Context (range_stats : gmap N VolumeStatistics -> list (N * VolumeStatistics)).
Context (range_stats_perm : forall m, range_stats m ≡ₚ map_to_list m).
(** How [append] grows an array, and the turns the goroutines of a read take. *)
Context (grow : nat -> nat) (schedule : list string -> list nat).
Context (order : gmap N (list string) -> list (N * list string)).
Context (fuel : nat) (now : Z).

Abbreviation nstate := (object (Node (F := F) (L := L) (C := C)) (BadgerStore B)).

(** The node at each address. *)
Abbreviation world := (gmap string nstate).

Definition ErrUnavailable : error := ErrOther "unavailable".

Definition at_node {A} (a : string) (m : M nstate fault A) : M world fault A := fun w =>
  match w !! a with
  | None => (Err (Fails ErrUnavailable), w)
  | Some n => let '(r, n') := m n in (r, <[a := n']> w)
  end.

Instance Nodes_servers : StorageServers world := {
  dial a w := bool_decide (is_Some (w !! a));
  rpc_Write a req := at_node a (Write range range_stats (S fuel) now req);
  rpc_Read a ids := at_node a (Read grow (schedule ids) ids);
  rpc_DeleteBlock a ids := at_node a (node_DeleteBlock range order ids);
}.

(** The node [n] has the blocks [bs], on volumes that belong to the address [a]. *)
Definition serves (vs : gmap N string) (a : string) (n : nstate) (bs : gmap string (list byte)) : Prop :=
  (exists ems, node_inv (self n) (sees (st n)) ems bs) /\
  forall i, is_Some (candidates (self n) !! i) -> vs !! i = Some a.

Definition roomy (n : nstate) : Prop :=
  candidates (self n) <> ∅ /\ forall i v, candidates (self n) !! i = Some v -> Remains (slot v) <> 0%N.

Definition nodes_hold (w : world) (vs : gmap N string) (m : cluster) : Prop :=
  forall a, match w !! a, m !! a with
            | Some n, Some bs => serves vs a n bs
            | None, None => True
            | _, _ => False
            end.
Definition nodes_room (w : world) (a : string) : Prop := exists n, w !! a = Some n /\ roomy n.

Lemma nodes_at w vs m a bs : nodes_hold w vs m -> m !! a = Some bs -> exists n, w !! a = Some n /\ serves vs a n bs.
Proof. intros Hw Ha. specialize (Hw a). rewrite Ha in Hw. destruct (w !! a) as [n|]; [by exists n | done]. Qed.

Lemma nodes_hold_insert w vs m a n bs :
  nodes_hold w vs m -> serves vs a n bs -> nodes_hold (<[a := n]> w) vs (<[a := bs]> m).
Proof. intros Hw Hs a'. rewrite !lookup_insert. case_decide; [by subst | apply Hw]. Qed.

Lemma nodes_room_other w a n b : b <> a -> nodes_room w b -> nodes_room (<[a := n]> w) b.
Proof. intros Hne (n' & Hn' & Hr). exists n'. by rewrite lookup_insert_ne. Qed.

(** What one node promises. *)
Lemma node_write vs a n bs req idx :
  let d := req_BlockData req in
  serves vs a n bs -> roomy n \/ is_Some (bs !! digest d) ->
  req_Crc32 req = crc32 d -> req_BlockIdx req = Some idx -> (idx < 2 ^ 64)%N -> (N.of_nat (length d) <= max_alloc)%N ->
  exists res n', Write range range_stats (S fuel) now req n = (Ok res, n') /\
    serves vs a n' (match bs !! digest d with Some _ => bs | None => <[digest d := d]> bs end) /\
    (is_Some (bs !! digest d) -> n' = n) /\
    res_Ino res = req_Ino req /\ res_BlockIdx res = idx /\ res_BlockId res = digest d /\ vs !! res_VolId res = Some a.
Proof.
  intros d [(ems & Hn) Hvs] Hroom Hcrc Hidx Hi64 Hlen. destruct n as [n s]. cbn [self st] in *.
  pose proof (ni_meta _ _ _ _ Hn (digest d)) as Hm.
  destruct (bs !! digest d) as [d'|] eqn:Hd.
  - destruct (metas n !! digest d) as [meta|] eqn:Hmeta; [|congruence]. destruct Hm as (Hid & _ & Hc & _).
    eexists _, _. split_and!.
    + unfold Write. fold d. rewrite Hcrc, N.eqb_refl. cbn [negb]. rewrite Hidx. unfold bind at 1, deref. cbn [ret].
      rewrite bind_fields. cbn [Datatypes.id]. unfold GetBlockMeta. unfold digest in Hmeta. rewrite Hmeta. reflexivity.
    + split; [by exists ems | exact Hvs].
    + done.
    + done.
    + done.
    + done.
    + by apply Hvs.
  - destruct Hroom as [[Hne Hr]|[? ?]]; [|done].
    destruct (Write_new range range_stats range_stats_perm fuel now n s ems bs req idx Hn Hne Hr Hcrc Hidx Hi64 Hlen Hd)
      as (i & o & n' & s' & Hrun & Hn' & Hi & Hcand & _).
    eexists _, _. split; [exact Hrun|]. split_and!; try done.
    + split; [eexists; exact Hn'|]. intros j Hj%Hcand. by apply Hvs.
    + by apply Hvs.
Qed.

Lemma node_read vs a n bs h d :
  serves vs a n bs -> bs !! h = Some d ->
  exists b n', Read grow (schedule [h]) [h] n = (Ok [b], n') /\ b_Id b = h /\ b_Data b = d /\ serves vs a n' bs /\ (roomy n -> roomy n').
Proof.
  intros [(ems & Hn) Hvs] Hd. destruct n as [n s]. cbn [self st] in *.
  pose proof (Read_one grow (schedule [h]) h n s ems bs Hn) as Hr. rewrite decide_True in Hr by eauto.
  destruct Hr as (b & n' & Hrun & Hn' & Hsame & Hb & Hid & _). exists b, (Obj n' s). split_and!; [done | done | congruence | split; [by exists ems|] |].
  - intros i [v Hv]. apply Hvs. specialize (Hsame i). cbn [self] in Hv. rewrite Hv in Hsame. by destruct (candidates n !! i).
  - unfold roomy. cbn [self]. intros [Hne Hr]. split.
    + intros E. apply Hne, map_eq. intros i. specialize (Hsame i). rewrite E, lookup_empty in Hsame. rewrite lookup_empty.
      by destruct (candidates n !! i).
    + intros i v Hv. specialize (Hsame i). rewrite Hv in Hsame. destruct (candidates n !! i) as [v0|] eqn:E; [|done].
      rewrite Hsame. by eapply Hr.
Qed.

Program Instance Nodes_spec : StorageServersSpec world := {
  sv_holds := nodes_hold;
  sv_room := nodes_room;
}.
Next Obligation.
  intros w vs m a Hw [bs Ha]. cbn. destruct (nodes_at _ _ _ _ _ Hw Ha) as (n & Hn & _). apply bool_decide_eq_true_2. eauto.
Qed.
Next Obligation.
  intros w vs m a bs h d Hw Ha Hh. destruct (nodes_at _ _ _ _ _ Hw Ha) as (n & _ & (ems & Hn) & _). by eapply ni_digest.
Qed.
Next Obligation.
  intros w vs m a bs req idx Hw Ha Hroom Hcrc Hidx Hi64 Hlen. destruct (nodes_at _ _ _ _ _ Hw Ha) as (n & Hn & Hs).
  destruct (node_write vs a n bs req idx Hs) as (res & n' & Hrun & Hs' & Hsame & Hres); try done.
  { destruct Hroom as [(n0 & Hn0 & Hr)|?]; [left; congruence | by right]. }
  exists res, (<[a := n']> w). split_and!; try apply Hres.
  - cbn. unfold at_node. by rewrite Hn, Hrun.
  - assert (E : put_at a (req_BlockData req) m =
      <[a := match bs !! digest (req_BlockData req) with Some _ => bs | None => <[digest (req_BlockData req) := req_BlockData req]> bs end]> m).
    { unfold put_at. apply map_eq. intros a'. rewrite lookup_alter, lookup_insert. case_decide; [subst; by rewrite Ha | done]. }
    rewrite E. by apply nodes_hold_insert.
  - intros b [Hne|Hd] Hb; [by apply nodes_room_other|]. rewrite (Hsame Hd). by rewrite insert_id.
Qed.
Next Obligation.
  intros w vs m a bs h d Hw Ha Hh. destruct (nodes_at _ _ _ _ _ Hw Ha) as (n & Hn & Hs).
  destruct (node_read vs a n bs h d Hs Hh) as (b & n' & Hrun & Hid & Hd & Hs' & Hr).
  exists b, (<[a := n']> w). split_and!; try done.
  - cbn. unfold at_node. by rewrite Hn, Hrun.
  - rewrite <- (insert_id m a bs) by done. by apply nodes_hold_insert.
  - intros c (nc & Hnc & Hrc). destruct (decide (c = a)) as [->|Hne].
    + exists n'. rewrite lookup_insert_eq. split; [done|]. apply Hr. congruence.
    + exists nc. by rewrite lookup_insert_ne.
Qed.
End storage_servers.

(** * A cluster of two nodes *)

Section two_nodes.
#[local] Instance TwoCloud : CloudKV := {|
  cloud := gmap string (list byte);
  kv_Get := fun m k => match m !! k with Some d => inl d | None => inr ErrEngineNotFound end;
  kv_Put := fun m k d => (<[k := d]> m, None) |}.

(** A new volume, and a node with only this volume. *)
Definition new_volume (v : N) : LocalPhysicalVolume (F := MemFs) (L := RefLru) :=
  mkVolume v (mkStat v 4096 (float_of 1) 0) (mkSlot ∅ 4 v ∅) ∅ (1%nat, []) (mkEvit v [] false) [].
Definition new_node (id v : N) : object (Node (F := MemFs) (L := RefLru) (C := TwoCloud)) mem_store :=
  Obj (mkNode id {[v := new_volume v]} {[v := stat (new_volume v)]} (Some ∅) ∅ []) disk0.

Lemma fresh_volume_inv v : vol_inv (new_volume v) (seen disk0) ∅.
Proof.
  assert (He : hashes ∅ = ∅) by (unfold hashes; apply fmap_empty).
  split; [|done|done|apply empty_disk|done]. rewrite He. split.
  - split; [by rewrite dom_empty_L | done | intros o h; by rewrite lookup_empty | intros h o; by rewrite !lookup_empty].
  - split; [done | done | by left].
Qed.

Lemma new_node_serves vs a id v :
  vs !! v = Some a -> serves (BadgerSpec0 := MemBadger_spec) vs a (new_node id v) ∅.
Proof.
  intros Hv. split.
  - exists (fun _ => ∅). split.
    + intros i w Hw. cbn [candidates new_node self] in Hw. apply lookup_singleton_Some in Hw as [<- <-].
      split_and!; [apply fresh_volume_inv | done..].
    + intros i. cbn [candidates volStats new_node self]. by rewrite !lookup_singleton_is_Some.
    + intros i s Hs. cbn [volStats new_node self] in Hs. by apply lookup_singleton_Some in Hs as [<- <-].
    + by eexists.
    + intros h. unfold metas. cbn. by rewrite !lookup_empty.
    + intros i o c _ Hc. by rewrite lookup_empty in Hc.
  - intros i. cbn [candidates new_node self]. rewrite lookup_singleton_is_Some. by intros <-.
Qed.
Lemma new_node_roomy id v : roomy (new_node id v).
Proof.
  split; [done|]. intros i w Hw. cbn [candidates new_node self] in Hw. by apply lookup_singleton_Some in Hw as [<- <-].
Qed.

(** Nodes 1 and 2 with the volumes 5 and 6. *)
Definition nodeA : StorageNode := mkStorageNode 1 "a" 1 0 0 [2%N] 100 0 [] 11.
Definition nodeB : StorageNode := mkStorageNode 2 "b" 2 0 0 [1%N] 100 0 [] 12.
Definition volA : PhysicalVolume := requested 5 7 (mkVolumeRequest 9 1 0 "/data" (Some 100%N) (Some (S754_zero false))).
Definition volB : PhysicalVolume := requested 6 7 (mkVolumeRequest 9 2 0 "/data" (Some 100%N) (Some (S754_zero false))).
Definition nm2 : gmap N StorageNode := <[2%N := nodeB]> (<[1%N := nodeA]> ∅).
Definition pm2 : gmap N PhysicalVolume := <[6%N := volB]> (<[5%N := volA]> ∅).

Abbreviation world2_t := (gmap string (object (Node (F := MemFs) (L := RefLru) (C := TwoCloud)) mem_store)).
Definition world2 : world2_t :=
  <["b:2" := new_node 2 6]> (<["a:1" := new_node 1 5]> ∅).
Definition contents2 : cluster := <["b:2" := ∅]> (<["a:1" := ∅]> ∅).
Definition records2 : gmap string blob :=
  map_upd (FormatKey volB, Some (blob_of volB)) (map_upd (FormatKey volA, Some (blob_of volA))
    (map_upd (FormatKey nodeB, Some (blob_of nodeB)) (map_upd (FormatKey nodeA, Some (blob_of nodeA)) ∅))).
Definition meta2 : mem_store := MkBadgerStore (B := MemBadger) records2 None.

Lemma registered2 : registered pm2 nm2 contents2.
Proof.
  split.
  - intros k p. unfold pm2. rewrite !lookup_insert_Some, lookup_empty. naive_solver.
  - intros i n. unfold nm2. rewrite !lookup_insert_Some, lookup_empty.
    intros [[<- <-]|[_ [[<- <-]|[_ [=]]]]].
    all: split_and!; [done | by repeat split | eexists; by vm_compute].
  - intros i j n n'. unfold nm2. rewrite !lookup_insert_Some, !lookup_empty.
    by intros [[<- <-]|[_ [[<- <-]|[_ [=]]]]] [[<- <-]|[_ [[<- <-]|[_ [=]]]]].
Qed.

Lemma volumes2 : volumes_at pm2 nm2 = <[6%N := "b:2"]> (<[5%N := "a:1"]> ∅).
Proof. apply (bool_decide_unpack _). by vm_compute. Qed.

Lemma world2_holds : nodes_hold (BadgerSpec0 := MemBadger_spec) world2 (volumes_at pm2 nm2) contents2.
Proof.
  rewrite volumes2. intros a. unfold world2, contents2. rewrite !lookup_insert, !lookup_empty.
  repeat case_decide; subst; [by apply new_node_serves.. | done].
Qed.
Lemma world2_room a : is_Some (contents2 !! a) -> nodes_room world2 a.
Proof.
  unfold contents2, nodes_room, world2. rewrite !lookup_insert, !lookup_empty. intros Ha.
  repeat case_decide; [eexists; split; [done|]; apply new_node_roomy..|]. by destruct Ha.
Qed.
Lemma meta2_blocks : holds_blocks (seen meta2) ∅.
Proof. change (seen meta2) with records2. unfold records2. do 4 (apply hb_other; [done|]). by split. Qed.
Lemma meta2_nodes : holds_nodes (seen meta2) nm2 ∅.
Proof.
  change (seen meta2) with records2. unfold records2, nm2. do 2 (apply hn_other; [done|done|]).
  apply (hn_put _ _ _ nodeB), (hn_put _ _ _ nodeA). by split.
Qed.
Lemma meta2_volumes : holds_volumes (seen meta2) pm2.
Proof.
  change (seen meta2) with records2. unfold records2, pm2. apply (hv_put _ _ volB), (hv_put _ _ volA).
  do 2 (apply hv_other; [done|]). by split.
Qed.
Lemma meta2_no_virtual : no_virtual (seen meta2).
Proof.
  change (seen meta2) with records2. intros k Hk. unfold records2. rewrite !lookup_map_upd, lookup_empty. cbn [fst snd].
  repeat case_decide; subst; done.
Qed.

#[local] Instance servers2 : StorageServers world2_t :=
  Nodes_servers map_to_list map_to_list (fun c => S (2 * c)) (fun _ => []) map_to_list 0 0.
#[local] Instance servers2_spec : StorageServersSpec world2_t :=
  Nodes_spec map_to_list map_to_list ltac:(done) (fun c => S (2 * c)) (fun _ => []) map_to_list 0 0.
#[local] Instance metadata2 : MetaServer mem_store := StorageMeta_server map_to_list map_to_list map_to_list.
#[local] Instance metadata2_spec : MetaServerSpec mem_store :=
  StorageMeta_spec map_to_list map_to_list map_to_list ltac:(done) ltac:(done) ltac:(done).

(** A gateway that has just been started, and one that has refreshed its caches. *)
Definition started2 : Gateway world2_t mem_store :=
  mkGateway (mkMetaProxy ∅ ∅ ∅ ∅) ∅ false ∅ world2 meta2.
Definition gw2 : Gateway world2_t mem_store :=
  with_proxy (foldl cache_node (mkMetaProxy (foldl (fun m v => <[pv_Id v := pv_StorageNodeId v]> m) ∅ [volA; volB]) ∅ ∅ ∅)
    [nodeA; nodeB]) started2.

Definition backend2 : StorageBackend (Gateway world2_t mem_store) :=
  Gateway_backend 1 (fun _ => true) (fun l => l) (fun _ => false) map_to_list (fun l => l) (fun l => l) 3
    map_to_list map_to_list.

Lemma fresh2 : current (mkMetaProxy ∅ ∅ ∅ ∅) ∅ nm2.
Proof. by split. Qed.

Lemma refreshed2 m : registered pm2 nm2 m -> routed (metaProxy gw2) ∅ (volumes_at pm2 nm2) m.
Proof.
  intros Hr. apply (refreshed_routed (mkMetaProxy ∅ ∅ ∅ ∅) ∅ pm2 nm2 m [volA; volB] [nodeA; nodeB]).
  - exact Hr.
  - exact fresh2.
  - intros v. unfold pm2. rewrite !lookup_insert_Some, lookup_empty, !elem_of_cons, elem_of_nil. split.
    + intros [->|[->|[]]]; [right; split; [done|]; by left | by left].
    + intros [[_ <-]|[_ [[_ <-]|[_ [=]]]]]; [by right; left | by left].
  - apply (bool_decide_unpack _). by vm_compute.
  - intros n. unfold nm2. rewrite !lookup_insert_Some, lookup_empty, !elem_of_cons, elem_of_nil. split.
    + intros [->|[->|[]]]; [right; split; [done|]; by left | by left].
    + intros [[_ <-]|[_ [[_ <-]|[_ [=]]]]]; [by right; left | by left].
Qed.

Lemma gw2_coherent : coherent gw2 (volumes_at pm2 nm2) contents2 ∅ ∅.
Proof.
  split.
  - exact meta2_blocks.
  - exact world2_holds.
  - done.
  - done.
  - intros k. by rewrite !lookup_empty.
  - apply refreshed2. exact registered2.
Qed.

Lemma gw2_writable d : (N.of_nat (length d) <= max_alloc)%N -> writable 1 gw2 contents2 d.
Proof.
  intros Hd. split_and!; [done | | by vm_compute | intros a Ha; left; by apply world2_room].
  intros a bs d'. unfold contents2. rewrite !lookup_insert_Some, lookup_empty.
  intros [[_ <-]|[_ [[_ <-]|[_ [=]]]]]; by rewrite lookup_empty.
Qed.

Lemma gw2_byte : writable 1 gw2 contents2 [x07].
Proof. apply gw2_writable. by vm_compute. Qed.

Lemma Gateway_implements_witness :
  exists g', gw_Write 1 map_to_list (fun l => l) (fun l => l) 3 (NewBlockKey 2 0) [x07] gw2 = (Ok tt, g').
Proof.
  destruct (Gateway_implements 1 (fun _ => true) (fun l => l) (fun _ => false) map_to_list (fun l => l) (fun l => l)
    ltac:(lia) ltac:(done) ltac:(done) ltac:(done) ltac:(done) gw2 _ _ _ _ gw2_coherent) as [_ Hw].
  destruct (Hw 3%N 2%N 0%N [x07] ltac:(lia) ltac:(lia) gw2_byte) as (g' & m' & bm' & Hrun & _).
  exists g'. exact Hrun.
Defined.

(** ** The cluster with one block at both nodes *)

Definition old3 : list byte := [x01; x02; x03].
Definition write3 : WriteRequest := mkWriteRequest 2 (Some 0%N) old3 (crc32 old3).
Definition after_write (n : object (Node (F := MemFs) (L := RefLru) (C := TwoCloud)) mem_store) :=
  (Write map_to_list map_to_list 1 0 write3 n).2.
Definition world3 : world2_t :=
  <["b:2" := after_write (new_node 2 6)]> (<["a:1" := after_write (new_node 1 5)]> ∅).
Definition contents3 : cluster := <["b:2" := {[digest old3 := old3]}]> (<["a:1" := {[digest old3 := old3]}]> ∅).
Definition block3A : BlockMeta := mkBlockMeta 2 0 0 5 [6%N] 0 3 (crc32 old3) 0 None (digest old3).
Definition meta3 : mem_store :=
  MkBadgerStore (B := MemBadger) (map_upd (FormatKey block3A, Some (blob_of block3A)) records2) None.

Lemma after_write_serves vs a id v :
  vs !! v = Some a -> serves (BadgerSpec0 := MemBadger_spec) vs a (after_write (new_node id v)) {[digest old3 := old3]}.
Proof.
  intros Hv. destruct (node_write (BadgerSpec0 := MemBadger_spec) map_to_list map_to_list ltac:(done) 0 0 vs a
    (new_node id v) ∅ write3 0%N (new_node_serves vs a id v Hv)) as (res & n' & Hrun & Hs & _);
    [left; apply new_node_roomy | done | done | done | by vm_compute |].
  unfold after_write. rewrite Hrun. rewrite lookup_empty in Hs. exact Hs.
Qed.

Lemma room_check (n : object (Node (F := MemFs) (L := RefLru) (C := TwoCloud)) mem_store) v :
  bool_decide (is_Some (candidates (self n) !! v)) = true ->
  bool_decide (map_Forall (fun _ v => Remains (slot v) <> 0%N) (candidates (self n))) = true -> roomy n.
Proof.
  intros [w H1]%bool_decide_eq_true H2%bool_decide_eq_true. split; [intros E; by rewrite E in H1|].
  intros i u Hu. by apply (H2 i u).
Qed.

Lemma world3_holds : nodes_hold (BadgerSpec0 := MemBadger_spec) world3 (volumes_at pm2 nm2) contents3.
Proof.
  rewrite volumes2. intros a. unfold world3, contents3. rewrite !lookup_insert, !lookup_empty.
  repeat case_decide; subst; [by apply after_write_serves.. | done].
Qed.
Lemma world3_room a : is_Some (contents3 !! a) -> nodes_room world3 a.
Proof.
  unfold contents3, nodes_room, world3. rewrite !lookup_insert, !lookup_empty. intros Ha.
  repeat case_decide.
  - eexists; split; [done|]. apply (room_check _ 6); by vm_compute.
  - eexists; split; [done|]. apply (room_check _ 5); by vm_compute.
  - by destruct Ha.
Qed.

Definition gw3 : Gateway world2_t mem_store := with_metadata meta3 (with_servers world3 gw2).

Lemma registered3 : registered pm2 nm2 contents3.
Proof.
  destruct registered2 as [H1 H2 H3]. split; [done | | done]. intros i n Hn. destruct (H2 i n Hn) as (Hi & Ha & Hm).
  split_and!; [done | done |]. revert Hm. unfold contents2, contents3. rewrite !lookup_insert, !lookup_empty.
  repeat case_decide; eauto.
Qed.

Lemma gw3_coherent : coherent gw3 (volumes_at pm2 nm2) contents3 {[(2, 0)%N := block3A]} {[(2, 0)%N := old3]}.
Proof.
  split.
  - change (holds_blocks (map_upd (FormatKey block3A, Some (blob_of block3A)) records2) {[(2, 0)%N := block3A]}).
    apply (hb_put _ ∅ block3A). exact meta2_blocks.
  - exact world3_holds.
  - done.
  - done.
  - intros k. destruct (decide (k = (2, 0)%N)) as [->|Hk]; [|by rewrite !lookup_singleton_ne].
    rewrite !lookup_singleton_eq. split; [done|]. split; [done|]. split; [done|]. rewrite volumes2.
    intros v [->|[->|[]%elem_of_nil]%elem_of_cons]%elem_of_cons; eexists _, _; split_and!; try done; apply lookup_singleton_eq.
  - apply refreshed2. exact registered3.
Qed.

Lemma gw3_writable d :
  (N.of_nat (length d) <= max_alloc)%N -> digest d <> digest old3 \/ d = old3 -> writable 1 gw3 contents3 d.
Proof.
  intros Hd Hne. split_and!; [done | | by vm_compute | intros a Ha; left; by apply world3_room].
  intros a bs d'. unfold contents3. rewrite !lookup_insert_Some, lookup_empty.
  intros [[_ <-]|[_ [[_ <-]|[_ [=]]]]] [E <-]%lookup_singleton_Some; destruct Hne; congruence.
Qed.

(** A list with one write. *)
Lemma one_write s e : (0 <= s)%Z -> (e <= 3)%Z -> exists L h, recorded [(s, e)] [] = (Ok L, h) /\ records h L 3 [(s, e)].
Proof. intros Hs He. apply (recorded_records 3); [by vm_compute|]. apply Forall_singleton. cbn. lia. Qed.

Lemma gw_WriteAt_overlays_witness :
  exists L h g' h' m' bm', recorded [(1, 2)%Z] [] = (Ok L, h) /\
    gw_WriteAt 1 (fun _ => true) (fun l => l) (fun _ => false) map_to_list (fun l => l) (fun l => l) 3
      (NewBlockKey 2 0) L [x07; x08; x09] (gw3, h) = (Ok tt, (g', h')) /\
    coherent g' (volumes_at pm2 nm2) m' bm' {[(2, 0)%N := [x01; x08; x03]]}.
Proof.
  destruct (one_write 1 2 ltac:(lia) ltac:(lia)) as (L & h & HL & Hrec). exists L, h.
  destruct (gw_WriteAt_overlays 1 (fun _ => true) (fun l => l) (fun _ => false) map_to_list (fun l => l) (fun l => l)
    ltac:(lia) ltac:(done) ltac:(done) ltac:(done) ltac:(done) gw3 _ contents3 _ _ 3%N 2%N 0%N h L [(1, 2)%Z]
    [x07; x08; x09] gw3_coherent) as (g' & h' & m' & bm' & Hrun & Hc).
  - lia.
  - lia.
  - intros old Hold. injection Hold as <-. split; [reflexivity | exact Hrec].
  - apply gw3_writable; [by vm_compute|]. left. intros E. vm_compute in E. discriminate E.
  - exists g', h', m', bm'. split; [exact HL|]. split; [exact Hrun|]. exact Hc.
Defined.

Lemma gw_WriteAt_drops_whole_witness :
  exists L h g' h' m' bm', recorded [(0, 3)%Z] [] = (Ok L, h) /\
    gw_WriteAt 1 (fun _ => true) (fun l => l) (fun _ => false) map_to_list (fun l => l) (fun l => l) 3
      (NewBlockKey 2 0) L [x07; x08; x09] (gw3, h) = (Ok tt, (g', h')) /\
    coherent g' (volumes_at pm2 nm2) m' bm' {[(2, 0)%N := old3]}.
Proof.
  destruct (one_write 0 3 ltac:(lia) ltac:(lia)) as (L & h & HL & Hrec). exists L, h.
  destruct (gw_WriteAt_drops_whole 1 (fun _ => true) (fun l => l) (fun _ => false) map_to_list (fun l => l) (fun l => l)
    ltac:(lia) ltac:(done) ltac:(done) ltac:(done) ltac:(done) gw3 _ contents3 _ _ 3%N 2%N 0%N h L
    [x07; x08; x09] old3 gw3_coherent) as (g' & h' & m' & bm' & Hrun & Hc).
  - lia.
  - lia.
  - reflexivity.
  - reflexivity.
  - exact Hrec.
  - apply gw3_writable; [by vm_compute | by right].
  - exists g', h', m', bm'. split; [exact HL|]. split; [exact Hrun | exact Hc].
Defined.

Lemma gw_WriteAt_locks_out_witness :
  exists L h g' h',
    gw_WriteAt 1 (fun _ => true) (fun l => l) (fun _ => false) map_to_list (fun l => l) (fun l => l) 3
      (NewBlockKey 2 0) L [x07] (gw3, h) = (Err (Fails ErrLenNotMatched), (g', h')) /\
    (gw_Read (fun _ => true) (fun l => l) (fun _ => false) (NewBlockKey 2 0) g').1 = Err Blocked.
Proof.
  destruct (one_write 1 2 ltac:(lia) ltac:(lia)) as (L & h & _ & HL).
  destruct (gw_WriteAt_locks_out 1 (fun _ => true) (fun l => l) (fun _ => false) map_to_list (fun l => l) (fun l => l)
    ltac:(lia) ltac:(done) ltac:(done) ltac:(done) ltac:(done) gw3 _ contents3 _ _ 3%N 2%N 0%N h L [(1, 2)%Z] 3 [x07] old3 gw3_coherent)
    as (g' & h' & Hrun & Hread).
  - lia.
  - lia.
  - reflexivity.
  - discriminate.
  - exact HL.
  - exists L, h, g', h'. split; [exact Hrun|]. apply (Hread 2%N 0%N old3); [lia | lia | reflexivity].
Defined.

Lemma updateCacheInternal_coherent_witness :
  exists g', updateCacheInternal started2 = (Ok tt, g') /\ size (proxy_nodes (metaProxy g')) = 2%nat.
Proof.
  destruct (updateCacheInternal_coherent started2 pm2 nm2 contents2 ∅) as (g' & Hrun & _ & Hs & _).
  - exact meta2_blocks.
  - split; [exact meta2_volumes|]. split; [exact meta2_no_virtual|]. exists ∅. exact meta2_nodes.
  - exact registered2.
  - exact fresh2.
  - exists g'. split; [exact Hrun|]. rewrite Hs. reflexivity.
Defined.

(** Two equal blocks of a file are one in a batch: BatchRead tells the blocks it
    gets apart by their digest, so it returns only the first of them although
    each of them can be read. *)
Theorem gw_BatchRead_drops_equal :
  ((gw_Write 1 map_to_list (fun l => l) (fun l => l) 3 (NewBlockKey 2 0) [x07] ;;;
   gw_Write 1 map_to_list (fun l => l) (fun l => l) 4 (NewBlockKey 2 1) [x07] ;;;
   d0 <- gw_Read (fun _ => true) (fun l => l) (fun _ => false) (NewBlockKey 2 0) ;;
   d1 <- gw_Read (fun _ => true) (fun l => l) (fun _ => false) (NewBlockKey 2 1) ;;
   r <- gw_BatchRead (fun _ => true) (fun l => l) (fun _ => false) map_to_list map_to_list 2 [0; 1]%N ;;
   ret (d0, d1, map_to_list r)) gw2).1 = Ok ([x07], [x07], [(0%N, [x07])]).
Proof. vm_compute. reflexivity. Qed.
End two_nodes.
