(* ===== verification/NodeStart.v ===== *)
(** The life of a storage node, src/pkg/storage/node (node.go, volume.go, and the
    addresses of config.go): it registers with the metadata server, opens the
    volumes the server knows of and those of its configuration, mounts volumes on
    request and reports their use.  The configuration of a volume is that of
    src/pkg/storage/volume/physical_volume.go, its engine that of
    src/pkg/storage/engine.  The metadata server is the one of Cluster.v and
    VolumeMeta.v over a store of its own. *)
From Stdlib Require Import Ascii Strings.Byte NArith SpecFloat Lia.
From stdpp Require Import prelude gmap strings list fin_maps.
From S2P Require Import Prelude Store Badger StoreProps Attr MetaStore Hash Block Cluster VolumeMeta Engine Slot Volume DataNode.
Open Scope N_scope.

(** * Engines *)

(** The values of engine.EngineType that its text form is read as. *)
Inductive EngineType := EngineTypeFS | EngineTypeINMEM | EngineTypeRPC.

#[export] Instance EngineType_eq_dec : EqDecision EngineType.
Proof. solve_decision. Defined.

Definition EngineType_String (x : EngineType) : string :=
  match x with EngineTypeFS => "FS" | EngineTypeINMEM => "INMEM" | EngineTypeRPC => "RPC" end.

Definition ErrInvalidEngineType (name : string) : error := ErrOther (name +:+ " is not a valid EngineType").

Definition ParseEngineType (name : string) : EngineType + error :=
  if bool_decide (name = "FS"%string) then inl EngineTypeFS
  else if bool_decide (name = "INMEM"%string) then inl EngineTypeINMEM
  else if bool_decide (name = "RPC"%string) then inl EngineTypeRPC
  else inr (ErrInvalidEngineType name).

(** The enumeration of the protocol: a number without a name is written as a number,
    a name without a number has the number 0. *)
Definition pb_EngineType_String (t : N) : string :=
  if t =? 0 then "INVALID" else if t =? 1 then "FS" else if t =? 2 then "INMEM" else itoa t.
Definition pb_EngineType_value (name : string) : N :=
  if bool_decide (name = "FS"%string) then 1 else if bool_decide (name = "INMEM"%string) then 2 else 0.

(** * Configurations *)

(** [vol.Config]; [vc_DB] is the name of a store and its argument. *)
Record VolConfig := mkVolConfig {
  vc_Engine : EngineType;
  vc_Prefix : string;
  vc_Id : N;
  vc_NodeId : N;
  vc_Quota : option Z;
  vc_BlockSize : option Z;
  vc_Threhold : option float64;
  vc_DB : string * string;
  vc_CreatedAt : N }.

Definition with_vc_Id (i : N) (c : VolConfig) : VolConfig :=
  mkVolConfig (vc_Engine c) (vc_Prefix c) i (vc_NodeId c) (vc_Quota c) (vc_BlockSize c) (vc_Threhold c) (vc_DB c) (vc_CreatedAt c).

(** The part of it that a volume uses. *)
Definition volume_config (c : VolConfig) : Config := mkConfig (vc_Id c) (vc_Quota c) (vc_BlockSize c) (vc_Threhold c).

Definition cfg_FormatPrefix (c : VolConfig) : string := "vol_cfg/".
Definition cfg_FormatKey (c : VolConfig) : string := (cfg_FormatPrefix c +:+ itoa (vc_Id c))%string.

(** Numbers behind a pointer. *)
Definition opt_num (x : option Z) : jvalue := match x with Some z => JNum z | None => JNull end.
Definition opt_real (x : option float64) : jvalue := match x with Some f => JReal f | None => JNull end.
Definition get_opt (k : string) (j : json) : option Z + error :=
  match jlookup k j with
  | None | Some JNull => inl None
  | Some (JNum z) => inl (Some z)
  | Some _ => inr ErrJson
  end.
Definition get_opt_real (k : string) (j : json) : option float64 + error :=
  match jlookup k j with
  | None | Some JNull => inl None
  | Some (JReal f) => inl (Some f)
  | Some (JNum z) => inl (Some (float_of z))
  | Some _ => inr ErrJson
  end.

Fixpoint olookup (k : string) (l : list (string * string)) : string :=
  match l with
  | [] => ""%string
  | (k', v) :: l => if bool_decide (k' = k) then v else olookup k l
  end.
Definition get_DB (j : json) : (string * string) + error :=
  match jlookup "DB" j with
  | None | Some JNull => inl (""%string, ""%string)
  | Some (JObj l) => inl (olookup "Name" l, olookup "Arg" l)
  | Some _ => inr ErrJson
  end.

(** An engine is written as its text, and only the names of engines are read. *)
Definition get_engine (k : string) (j : json) : EngineType + error :=
  sbind (get_S k j) ParseEngineType.

Definition cfg_blob (c : VolConfig) : blob :=
  BJson [("Engine", JStr (EngineType_String (vc_Engine c))); ("Prefix", JStr (vc_Prefix c)); ("Id", JN (vc_Id c));
    ("NodeId", JN (vc_NodeId c)); ("Quota", opt_num (vc_Quota c)); ("BlockSize", opt_num (vc_BlockSize c));
    ("Threhold", opt_real (vc_Threhold c)); ("DB", JObj [("Name", (vc_DB c).1); ("Arg", (vc_DB c).2)]);
    ("CreatedAt", JN (vc_CreatedAt c))]%string.
Definition cfg_Serialize (c : VolConfig) : blob + error := inl (cfg_blob c).
Definition cfg_Deserialize (bytes : blob) : VolConfig + error :=
  match bytes with
  | BJson j =>
      sbind (get_engine "Engine" j) (fun e => sbind (get_S "Prefix" j) (fun p =>
      sbind (get_N "Id" j) (fun i => sbind (get_N "NodeId" j) (fun n =>
      sbind (get_opt "Quota" j) (fun q => sbind (get_opt "BlockSize" j) (fun b =>
      sbind (get_opt_real "Threhold" j) (fun t => sbind (get_DB j) (fun d =>
      sbind (get_N "CreatedAt" j) (fun c => inl (mkVolConfig e p i n q b t d c))))))))))
  | _ => inr ErrJson
  end.

#[export] Instance VolConfig_Serializer : Serializer VolConfig := {
  FormatKey := cfg_FormatKey;
  FormatPrefix := cfg_FormatPrefix;
  Serialize := cfg_Serialize;
  Deserialize := cfg_Deserialize;
}.

(** [vol.ConfigQuery]: the volume of an engine and a prefix. *)
Record ConfigQuery := mkConfigQuery { cq_Engine : EngineType; cq_Prefix : string; cq_ID : N }.

Definition query_FormatPrefix (c : ConfigQuery) : string := "vol_cfg_query/".
Definition query_FormatKey (c : ConfigQuery) : string :=
  (query_FormatPrefix c +:+ EngineType_String (cq_Engine c) +:+ ":" +:+ cq_Prefix c)%string.
Definition query_blob (c : ConfigQuery) : blob :=
  BJson [("Engine", JStr (EngineType_String (cq_Engine c))); ("Prefix", JStr (cq_Prefix c)); ("ID", JN (cq_ID c))]%string.
Definition query_Deserialize (bytes : blob) : ConfigQuery + error :=
  match bytes with
  | BJson j =>
      sbind (get_engine "Engine" j) (fun e => sbind (get_S "Prefix" j) (fun p =>
      sbind (get_N "ID" j) (fun i => inl (mkConfigQuery e p i))))
  | _ => inr ErrJson
  end.

#[export] Instance ConfigQuery_Serializer : Serializer ConfigQuery := {
  FormatKey := query_FormatKey;
  FormatPrefix := query_FormatPrefix;
  Serialize := fun c => inl (query_blob c);
  Deserialize := query_Deserialize;
}.

(** [storage.PhysicalVolume] of the answers. *)
Record PbVolume := mkPbVolume {
  pb_Id : N; pb_Type : N; pb_Prefix : string; pb_Quota : N; pb_Threhold : float64; pb_CreatedAt : N;
  pb_NodeId : N; pb_InuseBytes : N }.

(** [ToPhysicalVolume] with the fields its callers set; it dereferences the quota and
    the threshold. *)
Definition ToPhysicalVolume {E} (c : VolConfig) (nodeId inuse : N) : outcome E PbVolume :=
  q <~ oderef (vc_Quota c) ;;
  t <~ oderef (vc_Threhold c) ;;
  Ok (mkPbVolume (vc_Id c) (pb_EngineType_value (EngineType_String (vc_Engine c))) (vc_Prefix c) (to_uint64 q) t
        (vc_CreatedAt c) nodeId inuse).

(** A volume of a node's configuration; without an engine the text is empty, since
    [postConstruct] sets the default on a copy. *)
Record VolCfg := mkVolCfg {
  sec_Engine : option EngineType;
  sec_Prefix : string;
  sec_Quota : option Z;
  sec_Threhold : option float64 }.

Record NodeConfig := mkNodeConfig {
  nc_ID : N;
  nc_IP : string;
  nc_Port : N;
  nc_TcpPort : N;
  nc_BlockSize : option Z;
  nc_Section : list VolCfg;
  nc_DB : string * string }.

Definition GetAddr (c : NodeConfig) : string := (nc_IP c +:+ ":" +:+ itoa (nc_Port c))%string.

(** [resolves] tells whether the name of a host or its address is known. *)
Definition Must (resolves : string -> bool) (c : NodeConfig) : option error :=
  if negb (resolves (nc_IP c)) then Some (ErrOther "invalid hostname")
  else if nc_Port c =? 0 then Some (ErrOther "must provide a valid port")
  else None.

(** * The node *)

Section start.
Context {F : Fs} {L : Lru} {C : CloudKV} {S : Type} `{Store S} `{BitmapCodec}.
(** The store of the metadata server. *)
Context {MS : Type} `{Store MS} `{NodeCodec} `{VolumeCodec}.
(** The orders in which Go walks maps. *)
Context (range_hash : gmap string blockHash -> list (string * blockHash)).
Context (range_stats : gmap N VolumeStatistics -> list (N * VolumeStatistics)).
Context (range_metas : gmap string BlockMetaEvent -> list (string * BlockMetaEvent)).
Context (range_cfgs : gmap string VolConfig -> list (string * VolConfig)).
Context (range_nodes : gmap string StorageNode -> list (string * StorageNode)).
Context (range_phys : gmap string PhysicalVolume -> list (string * PhysicalVolume)).
(** The directories of the machine, and the file system a new volume in memory has. *)
Context (disk : string -> fs_state) (blank : fs_state).

Abbreviation node := (object (Node (F := F) (L := L) (C := C)) S).
Abbreviation NM A := (M node fault A).
Abbreviation SM A := (M (node * MS) fault A).

Definition on_node {A} (m : NM A) : SM A := fun x => let '(r, n) := m x.1 in (r, (n, x.2)).
Definition own_store {A} (m : M S error A) : SM A := on_node (node_store m).
(** A call of the metadata server; its errors reach the node. *)
Definition on_meta {A} (m : M MS error A) : SM A := fun x => let '(r, s) := m x.2 in (lift_outcome r, (x.1, s)).
(** A call whose error is looked at. *)
Definition tried {A} (m : SM A) : SM (A + error) := fun x =>
  match m x with
  | (Ok a, y) => (Ok (inl a), y)
  | (Err (Fails e), y) => (Ok (inr e), y)
  | (Err Blocked, y) => (Err Blocked, y)
  | (Panic, y) => (Panic, y)
  end.
Definition the_node : SM Node := gets (fun x => self x.1).
Definition set_node (f : Node -> Node) : SM unit := on_node (set_fields f).

Definition with_ID (i : N) (n : Node (F := F) (L := L) (C := C)) : Node :=
  mkNode i (candidates n) (volStats n) (blockMetas n) (objects n) (jobs n).

(** A node without volumes: what is set before [Start].  [opened] is what opening
    the store of the configuration gives, [objs] stands for the object store that
    [Start] sets. *)
Definition NewNode (resolves : string -> bool) (cfg : option NodeConfig) (opened : S + error) (objs : cloud) : node + error :=
  match cfg with
  | None => inr (ErrOther "nil cfg")
  | Some cfg =>
      match Must resolves cfg with
      | Some e => inr e
      | None =>
          match opened with
          | inr e => inr e
          | inl s => inl (Obj (mkNode (nc_ID cfg) ∅ ∅ None objs []) s)
          end
      end
  end.

(** Any answer means that the address is known.  [id] is the id that the server
    draws, [now] the time of the call. *)
Definition RegisterMyself (cfg : NodeConfig) (id now : N) : SM unit :=
  n <- tried (on_meta (GetStorageNode 0 (GetAddr cfg))) ;;
  match n with
  | inl n => set_node (with_ID (Cluster.Id n))
  | inr _ =>
      res <- on_meta (AddStorageNode range_nodes id now (mkAddRequest (nc_IP cfg) (nc_Port cfg) (nc_TcpPort cfg) 0)) ;;
      set_node (with_ID (Cluster.Id res))
  end.

(** The error of loading is logged. *)
Definition NewSelector : SM unit :=
  set_node (fun n => mkNode (ID n) ∅ ∅ None (objects n) (jobs n)) ;;;
  _ <- tried (on_node (loadBlockMeta range_metas)) ;;
  ret tt.

(** [kv] is the object store of the configuration, if it can be built. *)
Definition NewObjectSyncer (kv : option cloud) : SM unit :=
  match kv with
  | None => go_panic
  | Some o => set_node (fun n => with_jobs [] (with_objects o n))
  end.

(** Asks the metadata server for a volume; [cfg] comes back with its id.  An engine
    without a text has no number. *)
Definition ObtionVolumeId (eng : option EngineType) (prefix : string) (quota : option Z) (threhold : option float64)
    (id now : N) : SM N :=
  n <- the_node ;;
  q <- deref quota ;;
  res <- on_meta (sm_CreatePhysicalVolume id now
           (mkVolumeRequest 0 (ID n) (pb_EngineType_value (default ""%string (EngineType_String <$> eng))) prefix
              (Some (to_uint64 q)) threhold)) ;;
  ret (pv_Id res).

(** The file system an engine opens. *)
Definition NewProvider (eng : EngineType) (prefix : string) : fs_state + error :=
  match eng with
  | EngineTypeFS => inl (disk prefix)
  | EngineTypeINMEM => inl blank
  | EngineTypeRPC => inr (ErrOther "unknown provider type: RPC")
  end.

(** Opening a volume reads the node's store. *)
Definition open_volume (cfg : VolConfig) (d : fs_state) : SM (LocalPhysicalVolume (F := F) (L := L)) := fun x =>
  match NewLocalPhysicalVolume range_hash (volume_config cfg) d (st x.1) with
  | (Ok _, Some v) => (Ok (self v), (Obj (self x.1) (st v), x.2))
  | (Err e, _) => (Err e, x)
  | _ => (Panic, x)
  end.

(** The saves do not take the context of the transaction they are in: they take
    effect at once, and the transaction ends empty. *)
Definition save_config (cfg : VolConfig) : SM unit :=
  own_store (DoSaveInKVPair (Some cfg) ;;;
             DoSaveInKVPair (Some (mkConfigQuery (vc_Engine cfg) (vc_Prefix cfg) (vc_Id cfg)))).

(** The statistics that a volume announces when it is opened are received by
    [statLoop], which handles them before the volume is known to the selector or,
    when [late], after. *)
Definition StartVolume (late : bool) (cfg : VolConfig) : SM unit :=
  match NewProvider (vc_Engine cfg) (vc_Prefix cfg) with
  | inr e => throw (Fails e)
  | inl d =>
      v <- open_volume cfg d ;;
      (if late then ret false else on_node (stat_rounds (sent v))) ;;;
      save_config cfg ;;;
      on_node (Sync (vc_Id cfg) (with_sent [] v)) ;;;
      (if late then on_node (stat_rounds (sent v)) else ret false) ;;;
      ret tt
  end.

(** ** Starting *)

(** The volumes the metadata server has for the node; those that cannot be opened
    are skipped. *)
Definition registered_config (cfg : NodeConfig) (n : N) (eng : EngineType) (p : PhysicalVolume) : VolConfig :=
  mkVolConfig eng (pv_Prefix p) (pv_Id p) n (Some (to_int (pv_CapByte p))) (nc_BlockSize cfg) (Some (pv_Threhold p))
    (nc_DB cfg) (pv_CreatedAt p).
Fixpoint load_volumes (late : bool) (cfg : NodeConfig) (l : list PhysicalVolume) : SM unit :=
  match l with
  | [] => ret tt
  | p :: l =>
      n <- the_node ;;
      if Exists (pv_Id p) n then load_volumes late cfg l else
      match ParseEngineType (pb_EngineType_String (pv_Type p)) with
      | inr _ => load_volumes late cfg l
      | inl eng => _ <- tried (StartVolume late (registered_config cfg (ID n) eng p)) ;; load_volumes late cfg l
      end
  end.

(** The volumes of the last run that the server does not list: it is told of them
    again, without their engine. *)
Fixpoint recover_all (late : bool) (now : N) (l : list VolConfig) : SM unit :=
  match l with
  | [] => ret tt
  | cfg :: l =>
      n <- the_node ;;
      if Exists (vc_Id cfg) n then recover_all late now l else
      q <- deref (vc_Quota cfg) ;;
      r <- tried (on_meta (sm_PatchPhysicalVolume range_phys now
             (mkVolumeRequest (vc_Id cfg) (vc_NodeId cfg) 0 (vc_Prefix cfg) (Some (to_uint64 q)) (vc_Threhold cfg)))) ;;
      match r with
      | inl _ => StartVolume late cfg ;;; recover_all late now l
      | inr _ => recover_all late now l
      end
  end.
Definition no_config : VolConfig := mkVolConfig EngineTypeFS "" 0 0 None None None (""%string, ""%string) 0.
Definition recoverFromLocal (late : bool) (now : N) : SM unit :=
  m <- own_store (DoGetValuesByPrefix (Some no_config)) ;;
  recover_all late now (range_cfgs m).*2.

(** Errors are logged. *)
Definition LoadRegisteredVolumes (late : bool) (cfg : NodeConfig) (now : N) : SM unit :=
  n <- the_node ;;
  res <- tried (on_meta (sm_ListPhysicalVolumes range_phys (ID n))) ;;
  match res with
  | inr _ => ret tt
  | inl l => load_volumes late cfg l ;;; _ <- tried (recoverFromLocal late now) ;; ret tt
  end.

(** The volumes of the configuration, each under a new id, [ids i] for the i-th. *)
Definition section_config (cfg : NodeConfig) (n id : N) (eng : EngineType) (sec : VolCfg) : VolConfig :=
  mkVolConfig eng (sec_Prefix sec) id n (sec_Quota sec) (nc_BlockSize cfg) (sec_Threhold sec) (nc_DB cfg) 0.
Fixpoint start_sections (late : bool) (cfg : NodeConfig) (ids : nat -> N) (now : N) (i : nat) (l : list VolCfg) : SM unit :=
  match l with
  | [] => ret tt
  | sec :: l =>
      r <- tried (ObtionVolumeId (sec_Engine sec) (sec_Prefix sec) (sec_Quota sec) (sec_Threhold sec) (ids i) now) ;;
      n <- the_node ;;
      match r, sec_Engine sec with
      | inl id, Some eng => _ <- tried (StartVolume late (section_config cfg (ID n) id eng sec)) ;; ret tt
      | _, _ => ret tt
      end ;;;
      start_sections late cfg ids now (Datatypes.S i) l
  end.

(** The reports and instructions of the goroutines it starts are below. *)
Definition Start (late : bool) (cfg : NodeConfig) (kv : option cloud) (ids : nat -> N) (now : N) : SM unit :=
  RegisterMyself cfg (ids 0%nat) now ;;;
  NewSelector ;;;
  NewObjectSyncer kv ;;;
  LoadRegisteredVolumes late cfg now ;;;
  start_sections late cfg ids now 1%nat (nc_Section cfg).

(** ** The volume service *)

Record MountRequest := mkMountRequest {
  mr_Type : N; mr_Prefix : string; mr_Id : N; mr_Quota : option N; mr_Threhold : option float64 }.

Definition parse_engine (t : N) : SM EngineType :=
  match ParseEngineType (pb_EngineType_String t) with inl e => ret e | inr e => throw (Fails e) end.

(** A volume of the engine and prefix that is known already is not looked at any
    further.  The configuration carries no id of the node. *)
Definition MountVolume (late : bool) (cfg : NodeConfig) (id now : N) (req : MountRequest) : SM N :=
  eng <- parse_engine (mr_Type req) ;;
  r <- tried (own_store (DoGetValueByKey (Some (mkConfigQuery eng (mr_Prefix req) 0)))) ;;
  n <- the_node ;;
  match r with
  | inl _ => ret (ID n)
  | inr _ =>
      q <- deref (mr_Quota req) ;;
      i <- ObtionVolumeId (Some eng) (mr_Prefix req) (Some (to_int q)) (mr_Threhold req) id now ;;
      StartVolume late (mkVolConfig eng (mr_Prefix req) i 0 (Some (to_int q)) (nc_BlockSize cfg) (mr_Threhold req) (nc_DB cfg) now) ;;;
      ret (ID n)
  end.

(** [inl] names a volume by its id, [inr] by its engine and prefix. *)
Definition GetVolume (req : N + N * string) : SM PbVolume :=
  id <- (match req with
         | inl i => ret i
         | inr (t, prefix) =>
             eng <- parse_engine t ;;
             q <- own_store (DoGetValueByKey (Some (mkConfigQuery eng prefix 0))) ;;
             ret (cq_ID q)
         end) ;;
  cfg <- own_store (DoGetValueByKey (Some (with_vc_Id id no_config))) ;;
  n <- the_node ;;
  pure (ToPhysicalVolume cfg (ID n) (InuseBytes (GetVolStat (vc_Id cfg) n))).

Fixpoint to_volumes (n : Node) (l : list VolConfig) : SM (list PbVolume) :=
  match l with
  | [] => ret []
  | cfg :: l =>
      v <- pure (ToPhysicalVolume cfg (ID n) (InuseBytes (GetVolStat (vc_Id cfg) n))) ;;
      vs <- to_volumes n l ;;
      ret (v :: vs)
  end.
Definition ListVolumes : SM (list PbVolume) :=
  m <- own_store (DoGetValuesByPrefix (Some no_config)) ;;
  n <- the_node ;;
  to_volumes n (range_cfgs m).*2.

(** ** Reports *)

(** The usage of each volume, as the message that goes to the metadata server; no
    message without volumes. *)
Definition sendPhysicalVolumesStats (n : Node) : option (N * gmap N N) :=
  match GetVolStats range_stats n with
  | [] => None
  | stats => Some (ID n, foldl (fun m v => <[vs_VolID v := InuseBytes v]> m) ∅ stats)
  end.
End start.
