(* ===== verification/NodeStartProps.v ===== *)
(** The blocks of a storage node survive it: [live] relates a running node, its store
    and the metadata server to the blocks the node has.  Writing, mounting a volume,
    and losing the process and starting again keep [live] and the blocks. *)
From Stdlib Require Import Ascii Strings.Byte NArith SpecFloat Lia.
From stdpp Require Import prelude gmap strings list fin_maps.
From S2P Require Import Prelude Store Badger StoreProps Attr MetaStore Hash Block Cluster VolumeMeta Engine Slot Volume VolumeProps DataNode DataNodeProps NodeStart.
Open Scope N_scope.

(** * Records of configurations *)

Lemma parse_engine_String e : ParseEngineType (EngineType_String e) = inl e.
Proof. by destruct e. Qed.

#[export] Program Instance VolConfig_Lawful : Lawful VolConfig := {
  blob_of := cfg_blob;
  bucket := fun _ => "vol_cfg"%string;
  key_name := fun c => itoa (vc_Id c);
  valid_key := fun _ => True;
}.
Next Obligation. done. Qed.
Next Obligation.
  intros [e p i n q b t [dn da] ca]. cbn [Deserialize VolConfig_Serializer cfg_Deserialize cfg_blob vc_Engine vc_Prefix vc_Id
    vc_NodeId vc_Quota vc_BlockSize vc_Threhold vc_DB vc_CreatedAt].
  unfold get_engine. change (get_S "Engine" _) with (@inl _ error (EngineType_String e)).
  change (get_S "Prefix" _) with (@inl _ error p). cbn [sbind]. rewrite parse_engine_String. cbn [sbind].
  repeat (erewrite get_N_JN by reflexivity; cbn [sbind]).
  by destruct q, b, t.
Qed.
Next Obligation. done. Qed.
Next Obligation. done. Qed.
Next Obligation. done. Qed.
Next Obligation. done. Qed.
Next Obligation. intros x _. split; [apply itoa_ne | apply itoa_no_slash]. Qed.

Lemma cfg_valid (c : VolConfig) : valid_key c.
Proof. done. Qed.

Lemma query_round_trip q : query_Deserialize (query_blob q) = inl q.
Proof.
  destruct q as [e p i]. cbn [query_Deserialize query_blob cq_Engine cq_Prefix cq_ID]. unfold get_engine.
  change (get_S "Engine" _) with (@inl _ error (EngineType_String e)). cbn [sbind]. rewrite parse_engine_String.
  change (get_S "Prefix" _) with (@inl _ error p). cbn [sbind]. by erewrite get_N_JN by reflexivity.
Qed.

(** The keys of configurations are not those of a volume or of a block. *)
Definition cfg_key (k : string) : Prop := has_prefix "vol_cfg/" k = true \/ has_prefix "vol_cfg_query/" k = true.

Lemma cfg_key_not_owned vol k : cfg_key k -> ~ vol_owned vol k.
Proof.
  intros Hk [[E|E]|E].
  - subst k. by destruct Hk.
  - apply has_prefix_spec in E as [r ->]. by destruct Hk.
  - subst k. by destruct Hk.
Qed.

(** * Values of a bucket, over any badger *)

Section buckets.
Context {B : Badger} `{!BadgerSpec B} {T : Type} `{Lawful T}.

Lemma DoGetValuesByPrefix_any (x : T) (s : BadgerStore B) :
  typed_bucket (sees s) (FormatPrefix x) ->
  exists (m : gmap string T) s', DoGetValuesByPrefix (Some x) s = (Ok m, s') /\ sees s' = sees s /\
    forall k (y : T), m !! k = Some y <-> sees s !! k = Some (blob_of y) /\ has_prefix (FormatPrefix x) k = true.
Proof.
  intros Ht. destruct (DoGetValuesByPrefix_mem x (abs_store s) Ht) as (m & Hrun & Hm).
  destruct (sim_run _ _ s _ _ (sim_DoGetValuesByPrefix abs_store (Some x)) Hrun) as (s' & Hrun' & Hs').
  exists m, s'. split_and!; [done | unfold sees; by rewrite Hs' | done].
Qed.
End buckets.

(** Inserting the elements of a list under their own names. *)
Lemma foldl_named {V} (f : V -> string) (l : list V) (m0 : gmap string V) h e : NoDup (f <$> l) ->
  foldl (fun m v => <[f v := v]> m) m0 l !! h = Some e <-> (e ∈ l /\ f e = h) \/ (h ∉ f <$> l /\ m0 !! h = Some e).
Proof.
  revert m0. induction l as [|v l IH]; intros m0 Hnd.
  { cbn. set_solver. }
  cbn [fmap list_fmap] in Hnd. apply NoDup_cons in Hnd as [Hv Hnd]. cbn [foldl]. rewrite IH by done.
  rewrite fmap_cons, !not_elem_of_cons, elem_of_cons, lookup_insert_Some. split.
  - intros [[? ?]|(? & [[<- <-]|[? ?]])]; [left; auto | left; auto | right; auto].
  - intros [[[->|?] <-]|[[? ?] ?]]; [right; auto | left; auto | right; auto].
Qed.

(** The records of the blocks. *)
Record holds_metas (m : gmap string blob) (mm : gmap string BlockMetaEvent) : Prop := {
  hm_lookup h : m !! ("block/" +:+ h)%string = event_blob <$> mm !! h;
  hm_id h e : mm !! h = Some e -> BlockID e = h;
}.

Lemma hm_typed m mm : holds_metas m mm -> typed_bucket (T := BlockMetaEvent) m "block/".
Proof.
  intros [Hl Hi] k b Hb Hp. apply has_prefix_spec in Hp as [h ->]. rewrite Hl in Hb.
  apply fmap_Some in Hb as (e & He & ->). exists e. split; [done|]. by apply Hi in He as <-.
Qed.

Lemma hm_put m mm ev : holds_metas m mm -> holds_metas (map_upd (FormatKey ev, Some (blob_of ev)) m) (<[BlockID ev := ev]> mm).
Proof.
  intros [Hl Hi]. change (FormatKey ev) with ("block/" +:+ BlockID ev)%string. split.
  - intros h. rewrite lookup_map_upd, lookup_insert. cbn [fst snd]. case_decide as E.
    + apply str_app_inj_l in E. by rewrite decide_True.
    + rewrite decide_False by congruence. apply Hl.
  - intros h e [[<- <-]|[_ He]]%lookup_insert_Some; [done | by apply Hi].
Qed.

Lemma hm_frame m m' mm : (forall k, has_prefix "block/" k = true -> m' !! k = m !! k) -> holds_metas m mm -> holds_metas m' mm.
Proof. intros Hf [Hl Hi]. split; [|done]. intros h. rewrite Hf by apply has_prefix_app. apply Hl. Qed.

Section start_props.
Context {B : Badger} `{!BadgerSpec B} {F : Fs} `{!FsSpec F} {L : Lru} {C : CloudKV} `{BitmapCodec}.
Context `{NodeCodec} `{VolumeCodec}.
Context (range : gmap string N -> list (string * N)).
Context (range_perm : forall m, range m ≡ₚ map_to_list m).
Context (range_hash : gmap string blockHash -> list (string * blockHash)).
Context (range_hash_perm : forall m, range_hash m ≡ₚ map_to_list m).
Context (range_stats : gmap N VolumeStatistics -> list (N * VolumeStatistics)).
Context (range_stats_perm : forall m, range_stats m ≡ₚ map_to_list m).
Context (range_metas : gmap string BlockMetaEvent -> list (string * BlockMetaEvent)).
Context (range_metas_perm : forall m, range_metas m ≡ₚ map_to_list m).
Context (range_cfgs : gmap string VolConfig -> list (string * VolConfig)).
Context (range_cfgs_perm : forall m, range_cfgs m ≡ₚ map_to_list m).
Context (range_nodes : gmap string StorageNode -> list (string * StorageNode)).
Context (range_phys : gmap string PhysicalVolume -> list (string * PhysicalVolume)).
Context (range_phys_perm : forall m, range_phys m ≡ₚ map_to_list m).

Abbreviation volume := (LocalPhysicalVolume (F := F) (L := L)).
Abbreviation Node := (Node (F := F) (L := L) (C := C)).
Abbreviation nstate := (object Node (BadgerStore B)).
Abbreviation state := (nstate * BadgerStore B)%type.

(** ** Runs *)

Lemma tried_ok {A} (m : M state fault A) x a y : m x = (Ok a, y) -> tried m x = (Ok (inl a), y).
Proof. intros E. unfold tried. by rewrite E. Qed.
Lemma tried_fails {A} (m : M state fault A) x e y : m x = (Err (Fails e), y) -> tried m x = (Ok (inr e), y).
Proof. intros E. unfold tried. by rewrite E. Qed.

Lemma on_node_run {A} (m : M nstate fault A) x ms r y : m x = (r, y) -> on_node m ((x, ms) : state) = (r, (y, ms)).
Proof. intros E. unfold on_node. cbn [fst snd]. by rewrite E. Qed.

Lemma on_meta_run {A} (m : M (BadgerStore B) error A) (x : nstate) ms r ms' :
  m ms = (r, ms') -> on_meta m ((x, ms) : state) = (lift_outcome r, (x, ms')).
Proof. intros E. unfold on_meta. cbn [fst snd]. by rewrite E. Qed.

Lemma own_store_run {A} (m : M (BadgerStore B) error A) (n : Node) s ms r s' :
  m s = (r, s') -> own_store m ((Obj n s, ms) : state) = (lift_outcome r, (Obj n s', ms)).
Proof. intros E. unfold own_store. erewrite on_node_run; [done|]. by rewrite (node_store_run _ _ _ _ _ E). Qed.

Lemma set_node_run f (n : Node) s ms : set_node f ((Obj n s, ms) : state) = (Ok tt, (Obj (f n) s, ms)).
Proof. done. Qed.

Lemma loadBlockMeta_run (n : Node) (s : BadgerStore B) mm :
  holds_metas (sees s) mm ->
  exists s', loadBlockMeta range_metas (Obj n s : nstate) = (Ok tt, Obj (with_blockMetas (Some mm) n) s') /\ sees s' = sees s.
Proof.
  intros Hm. destruct (DoGetValuesByPrefix_any (mkEvent 0 "" 0 0 0 0 0 0) s (hm_typed _ _ Hm)) as (bm & s' & Hrun & Hs & Hbm).
  exists s'. split; [|done]. unfold loadBlockMeta. erewrite bind_ok by (by rewrite (node_store_run _ _ _ _ _ Hrun)).
  unfold set_fields, modify. cbn [self st]. do 4 f_equal.
  assert (Hel : forall e, e ∈ (range_metas bm).*2 <-> mm !! BlockID e = Some e).
  { intros e. rewrite list_elem_of_fmap. destruct Hm as [Hl Hi]. split.
    - intros ([k e'] & -> & Hin). rewrite range_metas_perm, elem_of_map_to_list, Hbm in Hin. destruct Hin as [Hk Hp].
      apply has_prefix_spec in Hp as [h ->]. cbn [FormatPrefix Event_Serializer Event_FormatPrefix] in Hk. rewrite Hl in Hk.
      apply fmap_Some in Hk as (e & He & E). change (event_blob e) with (blob_of e) in E. apply blob_of_inj in E as ->.
      cbn. by rewrite (Hi _ _ He).
    - intros He. exists (FormatKey e, e). split; [done|]. rewrite range_metas_perm, elem_of_map_to_list, Hbm.
      split; [|apply has_prefix_app]. change (FormatKey e) with ("block/" +:+ BlockID e)%string. by rewrite Hl, He. }
  assert (Hnd : NoDup (BlockID <$> (range_metas bm).*2)).
  { rewrite <- list_fmap_compose. apply NoDup_fmap_2_strong; [|rewrite range_metas_perm; apply NoDup_map_to_list].
    intros [k e] [k' e'] G1 G2 E. cbn in E. rewrite range_metas_perm, elem_of_map_to_list, Hbm in G1, G2.
    assert (He : mm !! BlockID e = Some e) by (apply Hel, list_elem_of_fmap; exists (k, e); by rewrite range_metas_perm, elem_of_map_to_list, Hbm).
    assert (He' : mm !! BlockID e' = Some e') by (apply Hel, list_elem_of_fmap; exists (k', e'); by rewrite range_metas_perm, elem_of_map_to_list, Hbm).
    rewrite E in He. assert (e = e') as <- by congruence. f_equal.
    destruct G1 as [G1 [h ->]%has_prefix_spec], G2 as [G2 [h' ->]%has_prefix_spec].
    cbn [FormatPrefix Event_Serializer Event_FormatPrefix] in *. destruct Hm as [Hl Hi].
    rewrite Hl in G1, G2. apply fmap_Some in G1 as (x & Hx & Ex), G2 as (x' & Hx' & Ex').
    change (event_blob x) with (blob_of x) in Ex. change (event_blob x') with (blob_of x') in Ex'.
    apply blob_of_inj in Ex, Ex'. subst. by rewrite <- (Hi _ _ Hx), <- (Hi _ _ Hx'). }
  transitivity (foldl (fun m v => <[BlockID v := v]> m) (∅ : gmap string BlockMetaEvent) (range_metas bm).*2).
  { clear. generalize (∅ : gmap string BlockMetaEvent). induction (range_metas bm) as [|[k e] l IH]; intros m0; [done|].
    cbn [foldl fmap list_fmap]. apply IH. }
  apply map_eq. intros h. apply option_eq. intros e. rewrite (foldl_named BlockID) by done. rewrite lookup_empty, Hel. split.
  - intros [[He <-]|[_ ?]]; done.
  - intros He. left. by rewrite (hm_id _ _ Hm _ _ He).
Qed.

(** ** Opening a volume *)

Lemma trim_numbered p i : has_char "/"%char p = true \/ p <> ""%string -> trim_key (p +:+ itoa i)%string = (p +:+ itoa i)%string.
Proof.
  intros Hp. unfold trim_key. rewrite bool_decide_false.
  - apply trim_suffix_char_app; [apply itoa_ne | apply itoa_no_slash].
  - intros E. pose proof (itoa_no_slash i) as Hi. assert (Hl := f_equal String.length E). rewrite str_length_app in Hl. cbn in Hl.
    destruct (itoa i) eqn:Ei; [by apply itoa_ne in Ei|]. cbn in Hl. destruct p; [by destruct Hp|]. cbn in Hl. lia.
Qed.

Lemma stat_parse_id b v v' : stat_parse b v = inl v' -> vs_VolID v' = vs_VolID v.
Proof.
  unfold stat_parse, sbind. intros E. repeat case_match; simplify_eq; done.
Qed.

(** The statistics of a volume that is opened are its own, whatever was stored. *)
Lemma newVolumeStatistics_run i q t (v : volume) (s : BadgerStore B) : sent v = [] ->
  exists vs s', newVolumeStatistics i q t (Obj v s) = (Ok tt, Obj (with_sent [VolStat vs] (with_stat vs v)) s') /\
    sees s' = sees s /\ vs_VolID vs = i.
Proof.
  intros Hse. set (vs0 := mkStat i q t 0).
  destruct (Get_any (stat_Format vs0) s) as (s' & Hget & Hs); [by apply trim_numbered; left | done |].
  unfold newVolumeStatistics. rewrite bind_set_fields. fold vs0.
  assert (Hload : exists r vs, stat_Load (Obj (with_stat vs0 v) s) = (match r with inl a => Ok a | inr e => Err (Fails e) end, Obj (with_stat vs v) s') /\ vs_VolID vs = i).
  { unfold stat_Load. rewrite bind_fields. cbn [stat with_stat]. unfold call_store, bind at 1. cbn [st self]. rewrite Hget.
    destruct (sees s !! stat_Format vs0) as [b|]; cbn [lift_outcome]; [|by exists (inr ErrNotFound), vs0].
    destruct (stat_parse b vs0) as [vs|e] eqn:E; [|by exists (inr e), vs0]. exists (inl tt), vs. split; [done|]. by apply stat_parse_id in E. }
  destruct Hload as (r & vs & Hload & Hid). exists vs, s'. split_and!; [|done..].
  assert (Hsend : (x <- fields stat ;; send (VolStat x)) (Obj (with_stat vs v) s') =
    (Ok tt, Obj (with_sent [VolStat vs] (with_stat vs v)) s')).
  { rewrite bind_fields. unfold send, set_fields, modify. cbn [self st sent with_stat stat]. by rewrite Hse. }
  destruct r as [[]|e]; [by rewrite (try_ok _ _ _ _ _ Hload) | by rewrite (try_fails _ _ _ _ _ Hload)].
Qed.

(** The slot table, the files and the cache that a configuration opens to. *)
Record opens (cfg : Config) (d : fs_state) (m : gmap string blob) (em : gmap N DataContainer) (sl : Slot) : Prop := {
  op_slot : slot_inv sl m (hashes em);
  op_id : volID sl = Volume.Id cfg;
  op_cap : cap sl = to_uint64 (slotCap cfg);
  op_63 : cap sl <= 2 ^ 63;
  op_files : holds_files d em;
  op_lru : is_Some (lru_New (slotCap cfg));
}.

Lemma NewLocalPhysicalVolume_run cfg d (s : BadgerStore B) em sl :
  opens cfg d (sees s) em sl ->
  exists v s', NewLocalPhysicalVolume range_hash cfg d s = (Ok tt, Some (Obj (with_sent [VolStat (stat v)] v) s')) /\
    sees s' = sees s /\ vol_inv v (sees s) em /\ id v = Volume.Id cfg /\ vs_VolID (stat v) = Volume.Id cfg /\
    sent v = [] /\ slot v = sl.
Proof.
  intros [Hsl Hid Hcap H63 Hf [c Hlru]]. unfold NewLocalPhysicalVolume. rewrite <- Hid, <- Hcap.
  destruct (NewSlot_restores range_hash sl s _ range_hash_perm Hsl) as (s1 & -> & Hs1). cbn [st self].
  assert (Hem : exists em s2, NewEvitManager (volID sl) s1 = (Ok em, s2) /\ sees s2 = sees s1 /\ locked em = false).
  { set (em0 := mkEvit (volID sl) [] false).
    destruct (Get_any (evit_Format em0) s1) as (s2 & Hget & Hs2); [by apply trim_numbered; left | done |].
    unfold NewEvitManager. fold em0. unfold catch. rewrite Hget. exists (match sees s1 !! evit_Format em0 with
      | Some (BArr l) => match pending_parse l with inl p => with_pending p em0 | inr _ => em0 end | _ => em0 end), s2.
    split_and!; [|done|].
    - by destruct (sees s1 !! evit_Format em0) as [[]|].
    - destruct (sees s1 !! evit_Format em0) as [[]|]; try done. by destruct (pending_parse l). }
  destruct Hem as (ev & s2 & -> & Hs2 & Hlock). rewrite Hlru.
  set (v0 := mkVolume _ _ _ _ _ _ _). destruct (newVolumeStatistics_run (volID sl) (default PhysicalVolumeSize (cfg_Quota cfg))
    (default DefaultThrehold (cfg_Threhold cfg)) v0 s2 eq_refl) as (vs & s3 & Hrun & Hs3 & Hvs). rewrite Hrun.
  exists (with_stat vs v0), s3. split_and!; [done | congruence | | done | done | done | done]. by split.
Qed.

(** Saving a configuration writes two records. *)
Definition with_config (cfg : VolConfig) (m : gmap string blob) : gmap string blob :=
  let q := mkConfigQuery (vc_Engine cfg) (vc_Prefix cfg) (vc_Id cfg) in
  map_upd (query_FormatKey q, Some (query_blob q)) (map_upd (cfg_FormatKey cfg, Some (cfg_blob cfg)) m).

Lemma with_config_other cfg m k : ~ cfg_key k -> with_config cfg m !! k = m !! k.
Proof.
  intros Hk. unfold with_config. rewrite !lookup_map_upd. cbn [fst snd].
  rewrite !decide_False; [done| |]; intros <-; apply Hk; [left|right]; apply has_prefix_app.
Qed.

Lemma with_config_owned cfg m i k : vol_owned i k -> with_config cfg m !! k = m !! k.
Proof. intros Hk. apply with_config_other. intros Hc. by eapply cfg_key_not_owned. Qed.

Lemma save_config_run cfg (n : Node) (s : BadgerStore B) ms :
  exists s', save_config cfg ((Obj n s, ms) : state) = (Ok tt, (Obj n s', ms)) /\ sees s' = with_config cfg (sees s).
Proof.
  destruct (DoSaveInKVPair_any cfg s (cfg_valid cfg)) as (s1 & H1' & Hs1).
  set (q := mkConfigQuery (vc_Engine cfg) (vc_Prefix cfg) (vc_Id cfg)).
  destruct (Save_any (query_FormatKey q) (query_blob q) s1 ltac:(done)) as (s2 & H2' & Hs2).
  exists s2. split; [|by rewrite Hs2, Hs1]. unfold save_config. rewrite (own_store_run _ _ _ _ (Ok tt) s2); [done|].
  rewrite (bind_ok _ _ _ _ _ H1'). fold q. unfold DoSaveInKVPair. cbn [FormatKey FormatPrefix ConfigQuery_Serializer].
  rewrite (bool_decide_false (query_FormatKey q = _)) by done.
  rewrite (bool_decide_false (query_FormatKey q = _)) by (cbn; by destruct (vc_Engine cfg)).
  cbn [FormatKey Serialize ConfigQuery_Serializer]. unfold bind. cbn [lift ret]. by rewrite H2'.
Qed.

(** ** Mounted volumes *)

(** The volumes [V] are open, with the blocks [ems]. *)
Record mounted (n : Node) (m : gmap string blob) (ems : N -> gmap N DataContainer) (V : gset N) : Prop := {
  mt_vols i v : candidates n !! i = Some v -> vol_inv v m (ems i) /\ id v = i /\ vs_VolID (stat v) = i /\ sent v = [];
  mt_dom i : is_Some (candidates n !! i) <-> i ∈ V;
  mt_stats i : is_Some (volStats n !! i) <-> i ∈ V;
  mt_stat_id i vs : volStats n !! i = Some vs -> vs_VolID vs = i;
}.

Lemma mounted_frame n m m' ems V :
  (forall i k, slot_owned i k -> m' !! k = m !! k) -> mounted n m ems V -> mounted n m' ems V.
Proof.
  intros Hf [Hv Hd Hs Hi]. split; try done. intros i v Hiv. destruct (Hv i v Hiv) as (Hvi & ? & ? & ?).
  split_and!; [|done..]. apply (vi_frame _ m); [|done]. intros k. apply Hf.
Qed.

(** The node with another volume. *)
Definition plus_volume (late : bool) (v : volume) (n : Node) : Node :=
  let sync := mkStat (id v) (to_int (GetCap (stat v))) (S754_zero false) (InuseBytes (stat v)) in
  with_volStats (<[id v := if late then stat v else sync]> (volStats n)) (with_candidates (<[id v := v]> (candidates n)) n).

Lemma mounted_plus late v n m ems V em :
  mounted n m ems V -> vol_inv v m em -> vs_VolID (stat v) = id v -> sent v = [] -> em = ems (id v) ->
  mounted (plus_volume late v n) m ems ({[id v]} ∪ V).
Proof.
  intros [Hv Hd Hs Hi] Hvi Hst Hse ->. split; cbn [plus_volume candidates volStats with_volStats with_candidates].
  - intros i w. rewrite lookup_insert. case_decide as E; [|apply Hv]. intros [= <-]. by subst i.
  - intros i. rewrite lookup_insert. case_decide; [split; [set_solver|eauto]|]. rewrite Hd. set_solver.
  - intros i. rewrite lookup_insert. case_decide; [split; [set_solver|eauto]|]. rewrite Hs. set_solver.
  - intros i vs. rewrite lookup_insert. case_decide as E; [|apply Hi]. intros [= <-]. subst i. by destruct late.
Qed.

Section with_disk.
Context (disk : string -> fs_state) (blank : fs_state).

Lemma StartVolume_run late cfg d (n : Node) (s : BadgerStore B) ms em sl :
  NewProvider disk blank (vc_Engine cfg) (vc_Prefix cfg) = inl d -> opens (volume_config cfg) d (sees s) em sl ->
  exists v s', StartVolume range_hash disk blank late cfg ((Obj n s, ms) : state) =
      (Ok tt, (Obj (plus_volume late v n) s', ms)) /\
    sees s' = with_config cfg (sees s) /\ vol_inv v (sees s') em /\ id v = vc_Id cfg /\ vs_VolID (stat v) = vc_Id cfg /\
    sent v = [] /\ slot v = sl.
Proof.
  intros Hd Ho. destruct (NewLocalPhysicalVolume_run _ _ _ _ _ Ho) as (v & s1 & Hnew & Hs1 & Hv & Hid & Hst & Hse & Hsl).
  cbn [volume_config Volume.Id] in Hid, Hst. unfold StartVolume. rewrite Hd.
  set (w := with_sent [VolStat (stat v)] v) in *.
  assert (Hopen : open_volume range_hash cfg d ((Obj n s, ms) : state) = (Ok w, (Obj n s1, ms))).
  { unfold open_volume. cbn [fst snd st self]. by rewrite Hnew. }
  rewrite (bind_ok _ _ _ _ _ Hopen). assert (Ew : with_sent [] w = v) by (destruct v; cbn in *; by subst).
  change (sent w) with [VolStat (stat v)]. rewrite Ew.
  set (early := if late then n else with_volStats (<[vs_VolID (stat v) := stat v]> (volStats n)) n).
  destruct (save_config_run cfg early s1 ms) as (s2 & Hsave & Hs2).
  exists v, s2. split_and!; [|by rewrite Hs2, Hs1 | | done | done | done | done].
  - rewrite (bind_ok _ _ _ false (Obj early s1, ms)) by (by destruct late).
    rewrite (bind_ok _ _ _ _ _ Hsave). unfold plus_volume. rewrite Hid.
    destruct late; cbn [early] in *; unfold bind, on_node, Sync, stat_rounds, stat_round, setVolStat, bind, set_fields, modify, ret;
      cbn [fst snd self st].
    + rewrite Hst. unfold with_volStats, with_candidates. cbn. by rewrite insert_insert_eq.
    + unfold early. rewrite Hst. unfold with_volStats, with_candidates. cbn. by rewrite insert_insert_eq.
  - apply (vi_frame _ (sees s)); [|done]. intros k Hk. rewrite Hs2, (with_config_owned _ _ (id v)) by (by left). by rewrite Hs1.
Qed.

(** ** Volumes of an earlier run *)

(** The records of configurations are of the volumes [V]. *)
Definition holds_cfgs (m : gmap string blob) (V : gset N) : Prop :=
  forall k b, m !! k = Some b -> has_prefix "vol_cfg/" k = true -> exists c, b = cfg_blob c /\ cfg_FormatKey c = k /\ vc_Id c ∈ V.

Lemma holds_cfgs_mono m V V' : V ⊆ V' -> holds_cfgs m V -> holds_cfgs m V'.
Proof. intros HV Hc k b Hb Hp. destruct (Hc k b Hb Hp) as (c & ? & ? & ?). exists c. set_solver. Qed.

Lemma holds_cfgs_put cfg m V : vc_Id cfg ∈ V -> holds_cfgs m V -> holds_cfgs (with_config cfg m) V.
Proof.
  intros HV Hc k b. unfold with_config. rewrite !lookup_map_upd. cbn [fst snd]. case_decide as E.
  - intros _ Hp. subst k. done.
  - case_decide as E'; [|apply Hc]. intros [= <-] _. by exists cfg.
Qed.

Lemma holds_cfgs_frame m m' V : (forall k, has_prefix "vol_cfg/" k = true -> m' !! k = m !! k) -> holds_cfgs m V -> holds_cfgs m' V.
Proof. intros Hf Hc k b Hb Hp. rewrite Hf in Hb by done. by apply Hc. Qed.

Lemma opens_frame cfg d m m' em sl :
  (forall i k, slot_owned i k -> m' !! k = m !! k) -> opens cfg d m em sl -> opens cfg d m' em sl.
Proof.
  intros Hf [[Hm Hs] ? ? ? ? ?]. split; [|done..]. split; [done|]. eapply ss_frame; [|done]. intros k. apply Hf.
Qed.

(** What the metadata server has of a volume is enough to open it. *)
Definition reopens (cfg : NodeConfig) (m : gmap string blob) (ems : N -> gmap N DataContainer) (p : PhysicalVolume) : Prop :=
  exists eng d sl, ParseEngineType (pb_EngineType_String (pv_Type p)) = inl eng /\
    NewProvider disk blank eng (pv_Prefix p) = inl d /\
    opens (volume_config (registered_config cfg 0 eng p)) d m (ems (pv_Id p)) sl.

(** The capacity of its slot table. *)
Definition slots_of (cfg : NodeConfig) (p : PhysicalVolume) : Z :=
  slotCap (mkConfig (pv_Id p) (Some (to_int (pv_CapByte p))) (nc_BlockSize cfg) (Some (pv_Threhold p))).

Lemma Exists_spec i (n : Node) : Exists i n = true <-> is_Some (candidates n !! i).
Proof. unfold Exists. apply bool_decide_eq_true. Qed.

Definition same_but_volumes (n n' : Node) : Prop :=
  ID n' = ID n /\ blockMetas n' = blockMetas n /\ objects n' = objects n /\ jobs n' = jobs n.

Lemma load_volumes_run late cfg ems capf l : forall (n : Node) (s : BadgerStore B) ms V,
  mounted n (sees s) ems V -> holds_cfgs (sees s) (V ∪ list_to_set (pv_Id <$> l)) ->
  Forall (reopens cfg (sees s) ems) l -> Forall (fun p => to_uint64 (slots_of cfg p) = capf (pv_Id p)) l ->
  (forall i v, candidates n !! i = Some v -> cap (slot v) = capf i) ->
  let V' := V ∪ list_to_set (pv_Id <$> l) in
  exists n' s', load_volumes range_hash disk blank late cfg l ((Obj n s, ms) : state) = (Ok tt, (Obj n' s', ms)) /\
    mounted n' (sees s') ems V' /\ holds_cfgs (sees s') V' /\ same_but_volumes n n' /\
    (forall k, ~ cfg_key k -> sees s' !! k = sees s !! k) /\
    (forall i v, candidates n' !! i = Some v -> cap (slot v) = capf i).
Proof.
  induction l as [|p l IH]; intros n s ms V Hm Hc Hre Hcap Hcn V'; subst V'.
  { exists n, s. replace (V ∪ list_to_set (pv_Id <$> [])) with V in * by (cbn; set_solver). by split_and!. }
  apply Forall_cons in Hre as [Hp Hre], Hcap as [Hpc Hcap]. cbn [load_volumes]. unfold bind at 1, the_node, gets. cbn [fst self].
  destruct (Exists (pv_Id p) n) eqn:Ex.
  - apply Exists_spec, (mt_dom _ _ _ _ Hm) in Ex.
    replace (V ∪ list_to_set (pv_Id <$> p :: l)) with (V ∪ list_to_set (pv_Id <$> l)) in * by (cbn; set_solver).
    by apply IH.
  - destruct Hp as (eng & d & sl & Heng & Hd & Ho). rewrite Heng. set (c := registered_config cfg (ID n) eng p).
    destruct (StartVolume_run late c d n s ms (ems (pv_Id p)) sl Hd Ho) as (v & s1 & Hrun & Hs1 & Hv & Hid & Hst & Hse & Hsl).
    rewrite (bind_ok _ _ _ _ _ (tried_ok _ _ _ _ Hrun)).
    assert (Hfr : forall k, ~ cfg_key k -> sees s1 !! k = sees s !! k) by (intros k Hk; rewrite Hs1; by apply with_config_other).
    assert (Hso : forall i k, slot_owned i k -> sees s1 !! k = sees s !! k).
    { intros i k Hk. apply Hfr. intros Hck. eapply cfg_key_not_owned; [done|]. by left. }
    replace (V ∪ list_to_set (pv_Id <$> p :: l)) with (({[id v]} ∪ V) ∪ list_to_set (pv_Id <$> l)) in *
      by (rewrite Hid; cbn; set_solver).
    destruct (IH (plus_volume late v n) s1 ms ({[id v]} ∪ V)) as (n' & s' & Hrun' & Hm' & Hc' & Hsame & Hfr' & Hcn'); try done.
    + apply (mounted_plus late v n (sees s1) ems V (ems (pv_Id p))); [by apply (mounted_frame _ (sees s)) | done | congruence | done | by rewrite Hid].
    + rewrite Hs1. apply holds_cfgs_put; [|done]. rewrite Hid. cbn. set_solver.
    + eapply Forall_impl; [exact Hre|]. intros q (e & d' & sl' & ? & ? & ?). exists e, d', sl'. split_and!; [done..|]. by apply (opens_frame _ _ (sees s)).
    + intros i w. cbn [plus_volume candidates with_volStats with_candidates]. rewrite lookup_insert. case_decide as E; [|apply Hcn].
      intros [= <-]. subst i. rewrite Hsl, (op_cap _ _ _ _ _ Ho), Hid. exact Hpc.
    + exists n', s'. split_and!; [exact Hrun' | done | done | done | | done]. intros k Hk. by rewrite Hfr', Hfr.
Qed.

(** Volumes that are open are not looked for. *)
Lemma recoverFromLocal_run late now (n : Node) (s : BadgerStore B) ms ems V :
  mounted n (sees s) ems V -> holds_cfgs (sees s) V ->
  exists s', recoverFromLocal range_hash range_cfgs range_phys disk blank late now ((Obj n s, ms) : state) = (Ok tt, (Obj n s', ms)) /\
    sees s' = sees s.
Proof.
  intros Hm Hc. assert (Ht : typed_bucket (T := VolConfig) (sees s) (FormatPrefix no_config)).
  { intros k b Hb Hp. destruct (Hc k b Hb Hp) as (c & -> & <- & _). by exists c. }
  destruct (DoGetValuesByPrefix_any no_config s Ht) as (cm & s' & Hrun & Hs & Hcm). exists s'. split; [|done].
  unfold recoverFromLocal. erewrite bind_ok by (by rewrite (own_store_run _ _ _ _ _ _ Hrun)).
  assert (Hall : Forall (fun c => vc_Id c ∈ V) (range_cfgs cm).*2).
  { apply Forall_forall. intros c ([k c'] & -> & Hin)%list_elem_of_fmap. rewrite range_cfgs_perm, elem_of_map_to_list, Hcm in Hin.
    destruct Hin as [Hk Hp]. destruct (Hc k _ Hk Hp) as (c & E & _ & Hi). change (cfg_blob c) with (blob_of c) in E.
    apply blob_of_inj in E as ->. done. }
  induction Hall as [|c l Hi _ IH]; [done|]. cbn [recover_all]. unfold bind at 1, the_node, gets. cbn [fst self].
  apply (mt_dom _ _ _ _ Hm), Exists_spec in Hi. by rewrite Hi.
Qed.

(** ** A node that runs *)

(** The metadata server knows the node by its address, and its volumes with what it
    takes to open them. *)
Record registered (cfg : NodeConfig) (n : Node) (ms : BadgerStore B) (nm : gmap N StorageNode) (am : gmap string N)
    (pm : gmap N PhysicalVolume) : Prop := {
  rg_nodes : holds_nodes (sees ms) nm am;
  rg_vols : holds_volumes (sees ms) pm;
  rg_addr : am !! GetAddr cfg = Some (ID n);
  rg_node : is_Some (nm !! ID n);
  rg_mine i : is_Some (candidates n !! i) <-> exists p, pm !! i = Some p /\ pv_StorageNodeId p = ID n;
  rg_serves i v p : candidates n !! i = Some v -> pm !! i = Some p ->
    pv_Type p = 1 /\ cap (slot v) = to_uint64 (slots_of cfg p) /\ is_Some (lru_New (slots_of cfg p));
}.

(** The node has the blocks [bs], and its store and the metadata server have what it
    needs to have them again after a loss of its memory. *)
Record live (cfg : NodeConfig) (n : Node) (s ms : BadgerStore B) (ems : N -> gmap N DataContainer)
    (bs : gmap string (list byte)) : Prop := {
  lv_inv : node_inv n (sees s) ems bs;
  lv_metas : holds_metas (sees s) (metas n);
  lv_cfgs : holds_cfgs (sees s) (dom (candidates n));
  lv_txn : ctxTxn ms = None;
  lv_reg : exists nm am pm, registered cfg n ms nm am pm;
  lv_addr : has_char "/"%char (GetAddr cfg) = false;
}.

(** The directory of each volume has what the volume wrote. *)
Definition on_disk (disk : string -> fs_state) (n : Node) (ms : BadgerStore B) : Prop :=
  forall i v p, candidates n !! i = Some v -> sees ms !! volume_key i = Some (volume_blob p) -> disk (pv_Prefix p) = fs v.

Lemma node_inv_mounted n n' m m' ems bs :
  node_inv n m ems bs -> mounted n' m' ems (dom (candidates n)) -> blockMetas n' = blockMetas n -> node_inv n' m' ems bs.
Proof.
  intros [Hv Hs Hi [mm Hmm] Hme Hb] [Hv' Hd' Hs' Hi'] E.
  assert (Hc : forall i, is_Some (candidates n' !! i) <-> is_Some (candidates n !! i)) by (intros i; by rewrite Hd', elem_of_dom).
  assert (Em : metas n' = metas n) by (unfold metas; by rewrite E). split; try done.
  - intros i. by rewrite Hs', Hd'.
  - exists mm. by rewrite E.
  - intros h. rewrite Em. specialize (Hme h). destruct (metas n !! h); [|done]. by rewrite Hc.
  - intros i o c. rewrite Hc, Em. apply Hb.
Qed.

Lemma mounted_none m ems i bm (o : cloud) : mounted (mkNode i ∅ ∅ bm o []) m ems ∅.
Proof.
  split; cbn [candidates volStats]; intros i'; rewrite ?lookup_empty; try done; (split; [by intros [? ?] | set_solver]).
Qed.

(** Calls of the metadata server that leave it as it is. *)
Lemma GetStorageNode_any (ms : BadgerStore B) nm am id a node :
  ctxTxn ms = None -> holds_nodes (sees ms) nm am -> a = ""%string \/ has_char "/"%char a = false ->
  (if bool_decide (a = ""%string) then Some id else am !! a) ≫= (fun i => nm !! i) = Some node ->
  exists ms', GetStorageNode id a ms = (Ok node, ms') /\ ctxTxn ms' = None /\ sees ms' = sees ms.
Proof.
  intros Ht Hn Ha Hl. destruct ms as [d o]. cbn in Ht. subst o. unfold sees in *.
  pose proof (GetStorageNode_mem (abs_store (MkBadgerStore d None)) nm am id a Hn Ha) as Hrun. rewrite Hl in Hrun.
  destruct (sim_closed _ _ d _ _ (sim_GetStorageNode id a) Hrun) as (s' & ? & ? & Hs). exists s'. by unfold sees in Hs.
Qed.

Lemma ListPhysicalVolumes_any (ms : BadgerStore B) nm am pm id :
  ctxTxn ms = None -> holds_nodes (sees ms) nm am -> holds_volumes (sees ms) pm -> is_Some (nm !! id) ->
  exists l ms', sm_ListPhysicalVolumes range_phys id ms = (Ok l, ms') /\ ctxTxn ms' = None /\ sees ms' = sees ms /\
    forall p, p ∈ l <-> pm !! pv_Id p = Some p /\ pv_StorageNodeId p = id.
Proof.
  intros Ht Hn Hv [node Hnode]. destruct ms as [d o]. cbn in Ht. subst o. unfold sees in *.
  destruct (ListPhysicalVolumesInNode_mem range_phys range_phys_perm (abs_store (MkBadgerStore d None)) nm am pm id Hn Hv)
    as (l & Hrun & Hp). rewrite Hnode in Hrun.
  destruct (sim_closed _ _ d _ _ (sim_ListPhysicalVolumesInNode range_phys id) Hrun) as (s' & ? & ? & Hs).
  exists l, s'. split_and!; [done..|]. intros p. rewrite Hp, list_elem_of_filter, list_elem_of_fmap. split.
  - intros [? ([i q] & -> & Hin%elem_of_map_to_list)]. split; [|done]. cbn. by rewrite (hv_id _ _ Hv _ _ Hin).
  - intros [Hin ?]. split; [done|]. exists (pv_Id p, p). by rewrite elem_of_map_to_list.
Qed.

(** ** Starting again *)

Lemma registered_same cfg n n' ms ms' nm am pm :
  registered cfg n ms nm am pm -> sees ms' = sees ms -> ID n' = ID n ->
  (forall i, is_Some (candidates n' !! i) <-> is_Some (candidates n !! i)) ->
  (forall i v v', candidates n !! i = Some v -> candidates n' !! i = Some v' -> cap (slot v') = cap (slot v)) ->
  registered cfg n' ms' nm am pm.
Proof.
  intros [Hn Hv Ha Hno Hm Hs] Ems Eid Hc Hcap. split; rewrite ?Ems, ?Eid; try done.
  - intros i. by rewrite Hc, Hm.
  - intros i v p Hi Hp. destruct (proj1 (Hc i) ltac:(eauto)) as [v0 Hv0].
    destruct (Hs i v0 p Hv0 Hp) as (? & E & ?). by rewrite (Hcap i v0 v).
Qed.

(** The node as the selector and the object syncer leave it. *)
Lemma RegisterMyself_known cfg id now (n0 : Node) (s ms : BadgerStore B) nm am i node :
  ctxTxn ms = None -> holds_nodes (sees ms) nm am -> has_char "/"%char (GetAddr cfg) = false ->
  am !! GetAddr cfg = Some i -> nm !! i = Some node ->
  exists ms', RegisterMyself range_nodes cfg id now ((Obj n0 s, ms) : state) = (Ok tt, (Obj (with_ID i n0) s, ms')) /\
    ctxTxn ms' = None /\ sees ms' = sees ms.
Proof.
  intros Ht Hn Ha Hi Hnode. destruct (GetStorageNode_any ms nm am 0 (GetAddr cfg) node Ht Hn) as (ms' & Hget & Ht' & Hs').
  { by right. }
  { rewrite bool_decide_false by (unfold GetAddr; by destruct (nc_IP cfg)). by rewrite Hi. }
  exists ms'. split_and!; [|done..]. unfold RegisterMyself.
  erewrite bind_ok by (eapply tried_ok; by rewrite (on_meta_run _ _ _ _ _ Hget)). cbv beta iota.
  by rewrite set_node_run, (hn_id _ _ _ Hn _ _ Hnode).
Qed.

Lemma NewSelector_run (n0 : Node) (s ms : BadgerStore B) mm :
  holds_metas (sees s) mm ->
  exists s', NewSelector range_metas ((Obj n0 s, ms) : state) =
      (Ok tt, (Obj (mkNode (ID n0) ∅ ∅ (Some mm) (objects n0) (jobs n0)) s', ms)) /\ sees s' = sees s.
Proof.
  intros Hm. destruct (loadBlockMeta_run (mkNode (ID n0) ∅ ∅ None (objects n0) (jobs n0)) s mm Hm) as (s' & Hrun & Hs).
  exists s'. split; [|done]. unfold NewSelector. erewrite bind_ok by apply set_node_run.
  erewrite bind_ok by (eapply tried_ok, on_node_run, Hrun). done.
Qed.

Lemma LoadRegisteredVolumes_run late cfg now (n0 : Node) (s ms : BadgerStore B) nm am pm ems capf :
  ctxTxn ms = None -> holds_nodes (sees ms) nm am -> holds_volumes (sees ms) pm -> is_Some (nm !! ID n0) ->
  mounted n0 (sees s) ems ∅ ->
  (forall p, pm !! pv_Id p = Some p -> pv_StorageNodeId p = ID n0 ->
     reopens cfg (sees s) ems p /\ to_uint64 (slots_of cfg p) = capf (pv_Id p)) ->
  forall V, holds_cfgs (sees s) V ->
  (forall i, i ∈ V <-> exists p, pm !! i = Some p /\ pv_StorageNodeId p = ID n0) ->
  exists n' s' ms', LoadRegisteredVolumes range_hash range_cfgs range_phys disk blank late cfg now ((Obj n0 s, ms) : state) =
      (Ok tt, (Obj n' s', ms')) /\ ctxTxn ms' = None /\ sees ms' = sees ms /\
    mounted n' (sees s') ems V /\ holds_cfgs (sees s') V /\ same_but_volumes n0 n' /\
    (forall k, ~ cfg_key k -> sees s' !! k = sees s !! k) /\
    (forall i v, candidates n' !! i = Some v -> cap (slot v) = capf i).
Proof.
  intros Ht Hn Hv Hno Hm Hall V Hc HV.
  destruct (ListPhysicalVolumes_any ms nm am pm (ID n0) Ht Hn Hv Hno) as (l & ms' & Hlist & Ht' & Hs' & Hl).
  assert (Hid : ∅ ∪ list_to_set (pv_Id <$> l) = V).
  { apply set_eq. intros i. rewrite elem_of_union, elem_of_list_to_set, list_elem_of_fmap, HV. split.
    - intros [?|(p & -> & Hp%Hl)]; [set_solver|]. eauto.
    - intros (p & Hp & Hpn). right. exists p. pose proof (hv_id _ _ Hv _ _ Hp) as E. rewrite E, Hl, E. done. }
  destruct (load_volumes_run late cfg ems capf l n0 s ms' ∅) as (n' & s1 & Hload & Hm' & Hc' & Hsame & Hfr & Hcap').
  { done. }
  { by rewrite Hid. }
  { apply Forall_forall. intros p [? ?]%Hl. by apply Hall. }
  { apply Forall_forall. intros p [? ?]%Hl. by apply Hall. }
  { intros i v Hi. assert (is_Some (candidates n0 !! i)) as Hx by eauto. apply (mt_dom _ _ _ _ Hm) in Hx. set_solver. }
  rewrite Hid in *. destruct (recoverFromLocal_run late now n' s1 ms' ems V Hm' Hc') as (s2 & Hrec & Hs2).
  exists n', s2, ms'. rewrite Hs2. split_and!; try done. unfold LoadRegisteredVolumes, bind at 1, the_node, gets. cbn [fst self].
  erewrite bind_ok by (eapply tried_ok; by rewrite (on_meta_run _ _ _ _ _ Hlist)). cbv beta iota.
  rewrite (bind_ok _ _ _ _ _ Hload). by erewrite bind_ok by (eapply tried_ok, Hrec).
Qed.

Lemma Start_again late cfg kv ids now (n0 n : Node) (s ms : BadgerStore B) ems bs :
  live cfg n s ms ems bs -> on_disk disk n ms -> nc_Section cfg = [] ->
  exists n' s' ms', Start range_hash range_metas range_cfgs range_nodes range_phys disk blank late cfg (Some kv) ids now
      ((Obj n0 s, ms) : state) = (Ok tt, (Obj n' s', ms')) /\
    live cfg n' s' ms' ems bs /\ ID n' = ID n /\ (forall i, is_Some (candidates n' !! i) <-> is_Some (candidates n !! i)).
Proof.
  intros [Hinv Hme Hcf Ht (nm & am & pm & Hreg) Hadd] Hdisk Hsec. destruct (rg_node _ _ _ _ _ _ Hreg) as [node Hnode].
  destruct (RegisterMyself_known cfg (ids 0%nat) now n0 s ms nm am (ID n) node Ht (rg_nodes _ _ _ _ _ _ Hreg) Hadd (rg_addr _ _ _ _ _ _ Hreg) Hnode)
    as (ms1 & Hrm & Ht1 & Hs1).
  destruct (NewSelector_run (with_ID (ID n) n0) s ms1 (metas n) Hme) as (s1 & Hsel & Hss1).
  set (n1 := mkNode (ID n) ∅ ∅ (Some (metas n)) kv []).
  set (capf := fun i => match candidates n !! i with Some v => cap (slot v) | None => 0 end).
  assert (Hmine : forall i, i ∈ dom (candidates n) <-> exists p, pm !! i = Some p /\ pv_StorageNodeId p = ID n1).
  { intros i. rewrite elem_of_dom. apply (rg_mine _ _ _ _ _ _ Hreg). }
  destruct (LoadRegisteredVolumes_run late cfg now n1 s1 ms1 nm am pm ems capf) with (V := dom (candidates n))
    as (n' & s2 & ms2 & Hload & Ht2 & Hs2 & Hm' & Hc' & (Eid & Ebm & _ & _) & Hfr & Hcap'); rewrite ?Hs1, ?Hss1; try done.
  { apply Hreg. }
  { apply Hreg. }
  { apply (mounted_none _ _ (ID n) _ kv). }
  { intros p Hp Hpn. assert (is_Some (candidates n !! pv_Id p)) as [v Hvc] by (apply (rg_mine _ _ _ _ _ _ Hreg); eauto).
    destruct (rg_serves _ _ _ _ _ _ Hreg _ _ _ Hvc Hp) as (Hty & Hcap & Hlru). destruct (ni_vols _ _ _ _ Hinv _ _ Hvc) as (Hvi & Hvid & _ & _).
    split; [|unfold capf; by rewrite Hvc]. exists EngineTypeFS, (fs v), (slot v). rewrite Hty. split_and!; [done | |].
    - cbn [NewProvider]. f_equal. apply (Hdisk (pv_Id p)); [done|]. by rewrite (hv_lookup _ _ (rg_vols _ _ _ _ _ _ Hreg)), Hp.
    - destruct Hvi as [? ? ? ? ?]. split; try done. cbn. congruence. }
  assert (Hdom : forall i, is_Some (candidates n' !! i) <-> is_Some (candidates n !! i)) by (intros i; by rewrite (mt_dom _ _ _ _ Hm'), elem_of_dom).
  destruct (ni_metas _ _ _ _ Hinv) as [mm Hmm].
  assert (Emm : blockMetas n' = blockMetas n) by (rewrite Ebm; cbn [n1 blockMetas]; unfold metas; by rewrite Hmm).
  exists n', s2, ms2. split_and!; [| split |done|done].
  - unfold Start. rewrite (bind_ok _ _ _ _ _ Hrm), (bind_ok _ _ _ _ _ Hsel). cbn [NewObjectSyncer].
    erewrite bind_ok by apply set_node_run. rewrite Hsec. exact (bind_ok _ _ _ _ _ Hload).
  - by eapply node_inv_mounted.
  - assert (metas n' = metas n) as -> by (unfold metas; by rewrite Emm). eapply hm_frame; [|exact Hme].
    intros k Hk. rewrite Hfr; [by rewrite Hss1|]. apply has_prefix_spec in Hk as [r ->]. by intros [Hc|Hc].
  - assert (dom (candidates n') = dom (candidates n)) as -> by (apply set_eq; intros i; by rewrite !elem_of_dom). done.
  - done.
  - exists nm, am, pm. eapply registered_same; [exact Hreg | congruence | done | done |].
    intros i v v' Hv Hv'. rewrite (Hcap' _ _ Hv'). unfold capf. by rewrite Hv.
  - done.
Qed.

(** ** Writing *)

Lemma not_vol_owned_metas k : has_prefix "block/" k = true -> forall j, ~ vol_owned j k.
Proof.
  intros [r ->]%has_prefix_spec j [Hs|E]; [by apply event_key_not_owned in Hs | done].
Qed.

Lemma Write_live k now cfg (n : Node) (s ms : BadgerStore B) ems bs req idx : let d := req_BlockData req in
  live cfg n s ms ems bs -> candidates n <> ∅ -> (forall i v, candidates n !! i = Some v -> Remains (slot v) <> 0) ->
  req_Crc32 req = crc32 d -> req_BlockIdx req = Some idx -> idx < 2 ^ 64 -> N.of_nat (length d) <= max_alloc ->
  exists res n' s' ems', Write range range_stats (S k) now req (Obj n s : nstate) = (Ok res, Obj n' s') /\
    res_BlockId res = hex (sha256 d) /\
    live cfg n' s' ms ems' (if decide (is_Some (bs !! hex (sha256 d))) then bs else <[hex (sha256 d) := d]> bs).
Proof.
  intros d [Hinv Hme Hcf Ht (nm & am & pm & Hreg) Hadd] Hne Hroom Hcrc Hidx H64 Hlen. case_decide as Hd.
  - destruct Hd as [d' Hd]. pose proof (ni_meta _ _ _ _ Hinv (hex (sha256 d))) as Hm.
    destruct (metas n !! hex (sha256 d)) as [meta|] eqn:Hmeta; [|congruence].
    eexists _, n, s, ems. split_and!; [| |split; eauto].
    + unfold Write. fold d. rewrite Hcrc, N.eqb_refl. cbn [negb]. rewrite Hidx. unfold bind at 1, deref. cbn [ret].
      rewrite bind_fields. cbn [Datatypes.id]. unfold GetBlockMeta. rewrite Hmeta. reflexivity.
    + apply Hm.
  - apply eq_None_not_Some in Hd.
    destruct (Write_new range range_stats range_stats_perm k now n s ems bs req idx Hinv Hne Hroom Hcrc Hidx H64 Hlen Hd)
      as (i & o & n' & s' & Hrun & Hinv' & _ & Hc & Hcap & Eid & ev & Hev & Emm & Hfr).
    eexists _, n', s', _. split_and!; [exact Hrun | done |]. split; [exact Hinv' | | | done | | done].
    + rewrite Emm. eapply hm_frame; [|by apply hm_put]. intros k' Hk. apply Hfr. by apply not_vol_owned_metas.
    + assert (dom (candidates n') = dom (candidates n)) as -> by (apply set_eq; intros j; by rewrite !elem_of_dom).
      eapply holds_cfgs_frame; [|exact Hcf]. intros k' Hk. rewrite Hfr by (intros j; apply cfg_key_not_owned; by left).
      rewrite lookup_map_upd. cbn [fst snd]. rewrite decide_False; [done|]. intros <-. done.
    + exists nm, am, pm. by eapply registered_same.
Qed.

(** ** Mounting *)

Lemma to_int_to_uint64 z : (-2 ^ 63 <= z < 2 ^ 63)%Z -> to_int (to_uint64 z) = z.
Proof.
  intros Hz. unfold to_int, to_uint64. rewrite Z2N.id by (apply Z.mod_pos_bound; lia).
  rewrite Zplus_mod_idemp_l, Z.mod_small; lia.
Qed.
Lemma to_int_range q : (-2 ^ 63 <= to_int q < 2 ^ 63)%Z.
Proof. unfold to_int. pose proof (Z.mod_pos_bound (Z.of_N q + 2 ^ 63) (2 ^ 64)). lia. Qed.

Lemma CreatePhysicalVolume_any (ms : BadgerStore B) nm am pm id now req node :
  ctxTxn ms = None -> holds_nodes (sees ms) nm am -> holds_volumes (sees ms) pm -> nm !! q_StorageNodeId req = Some node ->
  exists ms', sm_CreatePhysicalVolume id now req ms = (Ok (requested id now req), ms') /\ ctxTxn ms' = None /\
    holds_nodes (sees ms') (<[q_StorageNodeId req := with_volume node (requested id now req)]> nm) am /\
    holds_volumes (sees ms') (<[id := requested id now req]> pm).
Proof.
  intros Ht Hn Hv Hnode. destruct ms as [d o]. cbn in Ht. subst o. unfold sees in *.
  pose proof (CreatePhysicalVolume_mem (abs_DB d) nm am pm id now req Hn Hv) as Hrun. cbv zeta in Hrun. rewrite Hnode in Hrun.
  destruct Hrun as (d' & Hrun & Hn' & Hv'). rewrite (hn_id _ _ _ Hn _ _ Hnode) in Hn'.
  destruct (sim_closed _ _ d _ _ (sim_CreatePhysicalVolume id now req) Hrun) as (s' & ? & ? & Hs). unfold sees in Hs.
  exists s'. by rewrite Hs.
Qed.

(** A path that does not end in a separator. *)
Definition plain_path (p : string) : Prop := exists r a, p = (r +:+ String a "")%string /\ a <> "/"%char.

Abbreviation fs_query := (mkConfigQuery EngineTypeFS).

Lemma trim_query p i : plain_path p -> trim_key (query_FormatKey (fs_query p i)) = query_FormatKey (fs_query p i).
Proof.
  intros (r & a & -> & Ha). unfold trim_key. rewrite bool_decide_false by done. unfold query_FormatKey. cbn [cq_Prefix cq_Engine EngineType_String].
  rewrite <- !str_app_assoc. by apply trim_suffix_char_id.
Qed.

Lemma GetQuery_run p (n : Node) (s ms : BadgerStore B) : plain_path p ->
  exists s', own_store (DoGetValueByKey (Some (fs_query p 0))) ((Obj n s, ms) : state) =
      (match sees s !! query_FormatKey (fs_query p 0) with
       | Some b => match query_Deserialize b with inl q => Ok q | inr e => Err (Fails e) end
       | None => Err (Fails ErrNotFound)
       end, (Obj n s', ms)) /\ sees s' = sees s.
Proof.
  intros Hp. destruct (Get_any (query_FormatKey (fs_query p 0)) s (trim_query p 0 Hp) ltac:(done)) as (s' & Hget & Hs).
  exists s'. split; [|done]. unfold DoGetValueByKey. cbn [FormatKey FormatPrefix ConfigQuery_Serializer].
  rewrite (bool_decide_false (query_FormatKey _ = ""%string)) by done.
  rewrite (bool_decide_false (query_FormatKey _ = _)) by done.
  unfold own_store, on_node, node_store, bind. cbn [fst snd st self]. rewrite Hget.
  destruct (sees s !! _) as [b|]; [|done]. cbn [Deserialize ConfigQuery_Serializer]. unfold lift. by destruct (query_Deserialize b).
Qed.

Lemma MountVolume_known late cfg id now req (n : Node) (s ms : BadgerStore B) q :
  mr_Type req = 1 -> plain_path (mr_Prefix req) ->
  sees s !! query_FormatKey (fs_query (mr_Prefix req) 0) = Some (query_blob q) ->
  exists s', MountVolume range_hash disk blank late cfg id now req ((Obj n s, ms) : state) = (Ok (ID n), (Obj n s', ms)) /\
    sees s' = sees s.
Proof.
  intros Hty Hp Hq. destruct (GetQuery_run (mr_Prefix req) n s ms Hp) as (s' & Hget & Hs). rewrite Hq, query_round_trip in Hget.
  exists s'. split; [|done]. unfold MountVolume, parse_engine. rewrite Hty. change (ParseEngineType _) with (@inl _ error EngineTypeFS).
  unfold bind at 1. cbn [ret]. by erewrite bind_ok by (eapply tried_ok, Hget).
Qed.

(** What mounting a volume asks the metadata server for, and what it opens. *)
Definition mount_request (nid : N) (req : MountRequest) (q : N) : VolumeRequest :=
  mkVolumeRequest 0 nid 1 (mr_Prefix req) (Some (to_uint64 (to_int q))) (mr_Threhold req).
Definition mount_config (cfg : NodeConfig) (id now : N) (req : MountRequest) (q : N) : VolConfig :=
  mkVolConfig EngineTypeFS (mr_Prefix req) id 0 (Some (to_int q)) (nc_BlockSize cfg) (mr_Threhold req) (nc_DB cfg) now.

Lemma slots_of_requested cfg id now nid req q :
  slots_of cfg (requested id now (mount_request nid req q)) = slotCap (volume_config (mount_config cfg id now req q)).
Proof.
  unfold slots_of, slotCap, requested, mount_request, mount_config, volume_config.
  cbn [pv_CapByte pv_Threhold cfg_Threhold cfg_Quota cfg_BlockSize vc_Quota vc_BlockSize vc_Threhold q_Quota q_Threhold from_option Datatypes.id].
  rewrite to_int_to_uint64 by apply to_int_range. by destruct (mr_Threhold req).
Qed.

(** Nothing of the volume [id] is known, and its directory has no blocks. *)
Record fresh_volume (cfg : NodeConfig) (s : BadgerStore B) (id now : N) (req : MountRequest) (q : N) : Prop := {
  fv_slots k : slot_owned id k -> sees s !! k = None;
  fv_query : sees s !! query_FormatKey (fs_query (mr_Prefix req) 0) = None;
  fv_files : holds_files (disk (mr_Prefix req)) ∅;
  fv_cap : to_uint64 (slotCap (volume_config (mount_config cfg id now req q))) <= 2 ^ 63;
  fv_lru : is_Some (lru_New (slotCap (volume_config (mount_config cfg id now req q))));
}.

Lemma fresh_opens cfg s id now req q : fresh_volume cfg s id now req q ->
  let c := volume_config (mount_config cfg id now req q) in
  opens c (disk (mr_Prefix req)) (sees s) ∅ (mkSlot ∅ (to_uint64 (slotCap c)) id ∅).
Proof.
  intros [Hs _ Hf Hc Hl] c. split; try done. unfold hashes. rewrite fmap_empty. split.
  - split; cbn [bits cap hashPairs]; [by rewrite dom_empty_L | | |].
    + eapply N.le_lt_trans; [exact Hc | done].
    + intros o h. by rewrite lookup_empty.
    + intros h o. by rewrite !lookup_empty.
  - split; cbn [volID bits].
    + intros o. rewrite lookup_empty. apply Hs, slot_key_owned.
    + intros k b Hb Hp. rewrite Hs in Hb; [done|]. by right.
    + left. split_and!; [done | done |]. apply Hs. by left.
Qed.

(** The blocks with none in the volume [id]. *)
Definition no_blocks (id : N) (ems : N -> gmap N DataContainer) (j : N) : gmap N DataContainer :=
  if decide (j = id) then ∅ else ems j.

Lemma node_inv_plus late (n : Node) m m' ems bs v :
  node_inv n m ems bs -> candidates n !! id v = None -> vol_inv v m' ∅ -> vs_VolID (stat v) = id v -> sent v = [] ->
  (forall i k, slot_owned i k -> m' !! k = m !! k) ->
  node_inv (plus_volume late v n) m' (no_blocks (id v) ems) bs.
Proof.
  intros [Hv Hs Hi [mm Hmm] Hme Hb] Hnew Hvi Hst Hse Hf.
  split; cbn [plus_volume candidates volStats with_volStats with_candidates blockMetas]; unfold no_blocks.
  - intros i w. rewrite lookup_insert. case_decide as E.
    + intros [= <-]. subst i. by rewrite decide_True.
    + intros Hw. destruct (Hv i w Hw) as (? & ? & ? & ?). rewrite decide_False by congruence. split_and!; [|done..].
      apply (vi_frame _ m); [|done]. intros k. apply Hf.
  - intros i. rewrite !lookup_insert. case_decide; [by split; eauto | done].
  - intros i vs. rewrite lookup_insert. case_decide; [|apply Hi]. intros [= <-]. subst i. by destruct late.
  - eauto.
  - intros h. specialize (Hme h). change (metas (plus_volume late v n)) with (metas n). destruct (metas n !! h) as [e|]; [|done].
    destruct Hme as (? & ? & Hc & o & c & ? & ?). assert (be_VolID e <> id v) by (intros E; rewrite E, Hnew in Hc; by destruct Hc).
    rewrite decide_False, lookup_insert_ne by congruence. split_and!; [done..|]. eauto.
  - intros i o c. change (metas (plus_volume late v n)) with (metas n). case_decide as E; [by rewrite lookup_empty|].
    rewrite lookup_insert_ne by congruence. apply Hb.
Qed.

Lemma MountVolume_live late cfg id now req q (n : Node) (s ms : BadgerStore B) ems bs :
  live cfg n s ms ems bs -> fresh_volume cfg s id now req q -> sees ms !! volume_key id = None ->
  mr_Type req = 1 -> mr_Quota req = Some q -> plain_path (mr_Prefix req) ->
  exists n' s' ms', MountVolume range_hash disk blank late cfg id now req ((Obj n s, ms) : state) = (Ok (ID n), (Obj n' s', ms')) /\
    live cfg n' s' ms' (no_blocks id ems) bs /\ ID n' = ID n /\
    (forall i, is_Some (candidates n' !! i) <-> i = id \/ is_Some (candidates n !! i)) /\
    sees s' !! query_FormatKey (fs_query (mr_Prefix req) 0) = Some (query_blob (fs_query (mr_Prefix req) id)).
Proof.
  intros [Hinv Hme Hcf Ht (nm & am & pm & Hreg) Hadd] Hfv Hid Hty Hq Hp. pose proof Hreg as [Hn Hv Ha [node Hnode] Hmine Hserve].
  destruct (GetQuery_run (mr_Prefix req) n s ms Hp) as (s1 & Hget & Hs1). rewrite (fv_query _ _ _ _ _ _ Hfv) in Hget.
  set (vr := mount_request (ID n) req q). set (c := mount_config cfg id now req q).
  destruct (CreatePhysicalVolume_any ms nm am pm id now vr node Ht Hn Hv Hnode) as (ms' & Hcreate & Ht' & Hn' & Hv').
  pose proof (fresh_opens _ _ _ _ _ _ Hfv) as Ho. rewrite <- Hs1 in Ho.
  destruct (StartVolume_run late c (disk (mr_Prefix req)) n s1 ms' ∅ _ eq_refl Ho) as (v & s' & Hstart & Hs' & Hvi & Evid & Hst & Hse & Hsl).
  cbn [c mount_config vc_Id] in Evid, Hst. rewrite Hs1 in Hs'.
  assert (Hpm : pm !! id = None) by (rewrite (hv_lookup _ _ Hv) in Hid; by apply fmap_None in Hid).
  assert (Hnew : candidates n !! id = None).
  { apply eq_None_not_Some. intros Hx. apply Hmine in Hx as (p & Hp' & _). congruence. }
  assert (Hdom : forall i, is_Some (candidates (plus_volume late v n) !! i) <-> i = id \/ is_Some (candidates n !! i)).
  { intros i. cbn [plus_volume candidates with_volStats with_candidates]. rewrite Evid, lookup_insert.
    case_decide; [split; eauto|]. split; [eauto|]. intros [?|?]; [congruence|done]. }
  exists (plus_volume late v n), s', ms'. split_and!; [| |done|done|].
  - unfold MountVolume, parse_engine. rewrite Hty. change (ParseEngineType _) with (@inl _ error EngineTypeFS).
    unfold bind at 1. cbn [ret]. erewrite bind_ok by (eapply tried_fails, Hget). unfold bind at 1, the_node, gets. cbn [fst self].
    rewrite Hq. unfold bind at 1. cbn [deref ret]. erewrite bind_ok.
    2:{ unfold ObtionVolumeId, bind at 1, the_node, gets. cbn [fst self]. unfold bind at 1. cbn [deref ret].
        erewrite bind_ok by (by rewrite (on_meta_run _ _ _ _ _ Hcreate)). reflexivity. }
    by rewrite (bind_ok _ _ _ _ _ Hstart).
  - assert (Hfr : forall k, ~ cfg_key k -> sees s' !! k = sees s !! k) by (intros k Hk; rewrite Hs'; by apply with_config_other).
    split; [| | | done | | done].
    + rewrite <- Evid. apply (node_inv_plus late n (sees s)); [done | by rewrite Evid | done | congruence | done |].
      intros i k Hk. apply Hfr. intros Hck. eapply cfg_key_not_owned; [done|]. by left.
    + change (metas (plus_volume late v n)) with (metas n). eapply hm_frame; [|exact Hme]. intros k Hk. apply Hfr.
      apply has_prefix_spec in Hk as [r ->]. by intros [Hc|Hc].
    + rewrite Hs'. apply holds_cfgs_put; [|eapply holds_cfgs_mono; [|exact Hcf]].
      * apply elem_of_dom, Hdom. by left.
      * intros i Hi. apply elem_of_dom, Hdom. right. by apply elem_of_dom.
    + exists (<[ID n := with_volume node (requested id now vr)]> nm), am, (<[id := requested id now vr]> pm). split; try done.
      * change (ID (plus_volume late v n)) with (ID n). rewrite lookup_insert_eq. eauto.
      * intros i. rewrite Hdom, Hmine. change (ID (plus_volume late v n)) with (ID n). split.
        -- intros [->|(p & Hp' & ?)]; [eexists; by rewrite lookup_insert_eq|]. exists p. rewrite lookup_insert_ne by congruence. done.
        -- intros (p & Hp' & ?). apply lookup_insert_Some in Hp' as [[<- _]|[_ Hp']]; [by left | right; eauto].
      * intros i w p. cbn [plus_volume candidates with_volStats with_candidates]. rewrite Evid, lookup_insert. case_decide as E.
        -- intros [= <-]. subst i. rewrite lookup_insert_eq. intros [= <-]. rewrite Hsl. unfold vr. rewrite slots_of_requested.
           split_and!; [done | done | apply (fv_lru _ _ _ _ _ _ Hfv)].
        -- intros Hw. rewrite lookup_insert_ne by congruence. by apply Hserve.
  - rewrite Hs'. unfold with_config. rewrite lookup_map_upd. cbn [fst snd]. by rewrite decide_True.
Qed.

(** ** The first start *)

Lemma RegisterMyself_new cfg id now (n0 : Node) (s ms : BadgerStore B) nm am :
  (forall m, range_nodes m ≡ₚ map_to_list m) -> ctxTxn ms = None -> holds_nodes (sees ms) nm am -> peers_complete nm ->
  nm !! id = None -> am !! GetAddr cfg = None -> has_char "/"%char (nc_IP cfg) = false ->
  exists node ms', RegisterMyself range_nodes cfg id now ((Obj n0 s, ms) : state) = (Ok tt, (Obj (with_ID id n0) s, ms')) /\
    ctxTxn ms' = None /\ Cluster.Id node = id /\ holds_nodes (sees ms') (join node nm) (<[GetAddr cfg := id]> am) /\
    forall k, has_prefix "storage_node" k = false -> sees ms' !! k = sees ms !! k.
Proof.
  intros Hr Ht Hn Hp Hnew Ha Hip. destruct ms as [d o]. cbn in Ht. subst o. unfold sees in Hn.
  assert (Hsl : has_char "/"%char (GetAddr cfg) = false) by (unfold GetAddr; by rewrite !has_char_app, Hip, itoa_no_slash).
  pose proof (GetStorageNode_mem (abs_store (MkBadgerStore d None)) nm am 0 (GetAddr cfg) Hn (or_intror Hsl)) as Hget.
  rewrite bool_decide_false, Ha in Hget by (unfold GetAddr; by destruct (nc_IP cfg)).
  destruct (sim_closed _ _ d _ _ (sim_GetStorageNode 0 (GetAddr cfg)) Hget) as ([d1 o1] & Hget' & Ht1 & Hs1). cbn in Ht1. subst o1.
  set (req := mkAddRequest (nc_IP cfg) (nc_Port cfg) (nc_TcpPort cfg) 0). unfold sees in Hs1. cbn in Hs1.
  assert (Hnd : holds_nodes (abs_DB d1) nm am) by (rewrite Hs1; exact Hn).
  destruct (AddStorageNode_mem range_nodes Hr (abs_DB d1) nm am id now req Hnd Hp Hnew Hip)
    as (d' & node & Hadd & Hid & _ & Hn' & _ & Haddr & Hfr).
  destruct (sim_closed _ _ d1 _ _ (sim_AddStorageNode range_nodes id now req) Hadd) as (ms' & Hadd' & Ht' & Hs').
  exists node, ms'. rewrite Hs'. split_and!; [|done|done| |].
  - unfold RegisterMyself. erewrite bind_ok by (eapply tried_fails; by rewrite (on_meta_run _ _ _ _ _ Hget')). cbv beta iota.
    erewrite bind_ok by (by rewrite (on_meta_run _ _ _ _ _ Hadd')). by rewrite set_node_run, Hid.
  - by rewrite Haddr in Hn'.
  - intros k Hk. rewrite Hfr by done. unfold sees. cbn. by rewrite Hs1.
Qed.

Lemma Start_first late cfg kv ids now (n0 : Node) (s ms : BadgerStore B) nm am pm :
  (forall m, range_nodes m ≡ₚ map_to_list m) -> ctxTxn ms = None -> holds_nodes (sees ms) nm am -> peers_complete nm ->
  holds_volumes (sees ms) pm -> (forall i p, pm !! i = Some p -> pv_StorageNodeId p <> ids 0%nat) ->
  nm !! ids 0%nat = None -> am !! GetAddr cfg = None -> has_char "/"%char (nc_IP cfg) = false ->
  holds_metas (sees s) ∅ -> holds_cfgs (sees s) ∅ -> nc_Section cfg = [] ->
  exists n' s' ms', Start range_hash range_metas range_cfgs range_nodes range_phys disk blank late cfg (Some kv) ids now
      ((Obj n0 s, ms) : state) = (Ok tt, (Obj n' s', ms')) /\
    live cfg n' s' ms' (fun _ => ∅) ∅ /\ ID n' = ids 0%nat.
Proof.
  intros Hr Ht Hn Hp Hv Hpn Hnew Ha Hip Hme Hcf Hsec. set (i := ids 0%nat) in *.
  destruct (RegisterMyself_new cfg i now n0 s ms nm am Hr Ht Hn Hp Hnew Ha Hip) as (node & ms1 & Hrm & Ht1 & Hid & Hn1 & Hfr1).
  assert (Hv1 : holds_volumes (sees ms1) pm).
  { destruct Hv as [Hl Hi Hk]. split; [|done|].
    - intros j. by rewrite Hfr1.
    - intros k b Hb Hpre. apply (Hk k b); [|done]. rewrite <- Hfr1; [done|]. apply has_prefix_spec in Hpre as [r ->]. done. }
  destruct (NewSelector_run (with_ID i n0) s ms1 ∅ Hme) as (s1 & Hsel & Hs1).
  set (n1 := mkNode i ∅ ∅ (Some ∅) kv [] : Node).
  assert (Hnode : is_Some (join node nm !! ID n1)) by (cbn; unfold join; rewrite Hid, lookup_insert_eq; eauto).
  destruct (LoadRegisteredVolumes_run late cfg now n1 s1 ms1 (join node nm) (<[GetAddr cfg := i]> am) pm (fun _ => ∅) (fun _ => 0))
    with (V := (∅ : gset N)) as (n' & s2 & ms2 & Hload & Ht2 & Hs2 & Hm' & Hc' & (Eid & Ebm & _ & _) & Hfr & _); rewrite ?Hs1; try done.
  { apply (mounted_none _ _ i _ kv). }
  { intros p Hpp Hppn. by apply Hpn in Hpp. }
  { intros j. split; [set_solver|]. intros (p & Hpp & Hppn). by apply Hpn in Hpp. }
  assert (Hdom : forall j, candidates n' !! j = None).
  { intros j. apply eq_None_not_Some. rewrite (mt_dom _ _ _ _ Hm'). set_solver. }
  assert (Ec : candidates n' = ∅) by (by apply map_empty).
  exists n', s2, ms2. split_and!; [|split|done].
  - unfold Start. fold i. rewrite (bind_ok _ _ _ _ _ Hrm), (bind_ok _ _ _ _ _ Hsel). cbn [NewObjectSyncer].
    erewrite bind_ok by apply set_node_run. rewrite Hsec. exact (bind_ok _ _ _ _ _ Hload).
  - split; try (apply Hm').
    + intros j. rewrite (mt_stats _ _ _ _ Hm'), (mt_dom _ _ _ _ Hm'). done.
    + rewrite Ebm. by exists ∅.
    + intros h. unfold metas. rewrite Ebm. cbn. by rewrite lookup_empty.
    + intros j o c [x Hx]. by rewrite Hdom in Hx.
  - unfold metas. rewrite Ebm. cbn [n1 blockMetas default from_option Datatypes.id]. eapply hm_frame; [|exact Hme]. intros k Hk.
    rewrite Hfr; [by rewrite Hs1|]. apply has_prefix_spec in Hk as [r ->]. by intros [Hc|Hc].
  - by rewrite Ec, dom_empty_L.
  - done.
  - exists (join node nm), (<[GetAddr cfg := i]> am), pm. split; rewrite ?Hs2, ?Eid; try done.
    + apply lookup_insert_eq.
    + intros j. rewrite Hdom. split; [by intros [? ?]|]. intros (p & Hpp & Hppn). by apply Hpn in Hpp.
    + intros j v p Hj. by rewrite Hdom in Hj.
  - unfold GetAddr. by rewrite !has_char_app, Hip, itoa_no_slash.
Qed.
End with_disk.

(** * Theorems *)

(** C29 The blocks of a node survive it, for a configuration without volumes of its own
    and with an address that has no slash.  Starting with an empty store, under an
    address and an id that the metadata server does not know, registers the node,
    without blocks.  On a node that runs ([live]): a write with the right checksum and
    an index, of data that can be allocated, when every volume has room, adds its
    block; mounting a local volume with a quota and a plain path, under an id and on a
    directory that are new, adds the volume and no block, and mounting it again
    changes nothing; when the process is lost and started again over the same store
    and metadata server, with the files of its volumes as they were, it has its id,
    volumes and blocks again; and each block can be read. *)
Theorem Node_survives late cfg blank :
  (forall m, range_nodes m ≡ₚ map_to_list m) -> nc_Section cfg = [] -> has_char "/"%char (nc_IP cfg) = false ->
  (forall disk kv ids now n0 (s ms : BadgerStore B) nm am pm,
     ctxTxn ms = None -> holds_nodes (sees ms) nm am -> peers_complete nm -> holds_volumes (sees ms) pm ->
     (forall i p, pm !! i = Some p -> pv_StorageNodeId p <> ids 0%nat) -> nm !! ids 0%nat = None -> am !! GetAddr cfg = None ->
     holds_metas (sees s) ∅ -> holds_cfgs (sees s) ∅ ->
     exists n' s' ms', Start range_hash range_metas range_cfgs range_nodes range_phys disk blank late cfg (Some kv) ids now
         ((Obj n0 s, ms) : state) = (Ok tt, (Obj n' s', ms')) /\ live cfg n' s' ms' (fun _ => ∅) ∅ /\ ID n' = ids 0%nat) /\
  forall (n : Node) (s ms : BadgerStore B) ems bs, live cfg n s ms ems bs ->
  (forall k now req idx, let d := req_BlockData req in
     candidates n <> ∅ -> (forall i v, candidates n !! i = Some v -> Remains (slot v) <> 0) ->
     req_Crc32 req = crc32 d -> req_BlockIdx req = Some idx -> idx < 2 ^ 64 -> N.of_nat (length d) <= max_alloc ->
     exists res n' s' ems', Write range range_stats (S k) now req (Obj n s : nstate) = (Ok res, Obj n' s') /\
       res_BlockId res = hex (sha256 d) /\
       live cfg n' s' ms ems' (if decide (is_Some (bs !! hex (sha256 d))) then bs else <[hex (sha256 d) := d]> bs)) /\
  (forall disk id now req q, fresh_volume disk cfg s id now req q -> sees ms !! volume_key id = None ->
     mr_Type req = 1 -> mr_Quota req = Some q -> plain_path (mr_Prefix req) ->
     exists n' s' ms' ems', MountVolume range_hash disk blank late cfg id now req ((Obj n s, ms) : state) = (Ok (ID n), (Obj n' s', ms')) /\
       live cfg n' s' ms' ems' bs /\ (forall i, is_Some (candidates n' !! i) <-> i = id \/ is_Some (candidates n !! i)) /\
       forall id2 now2, exists s2, MountVolume range_hash disk blank late cfg id2 now2 req ((Obj n' s', ms') : state) =
         (Ok (ID n), (Obj n' s2, ms')) /\ sees s2 = sees s') /\
  (forall disk kv ids now n0, on_disk disk n ms ->
     exists n' s' ms', Start range_hash range_metas range_cfgs range_nodes range_phys disk blank late cfg (Some kv) ids now
         ((Obj n0 s, ms) : state) = (Ok tt, (Obj n' s', ms')) /\
       live cfg n' s' ms' ems bs /\ ID n' = ID n /\ forall i, is_Some (candidates n' !! i) <-> is_Some (candidates n !! i)) /\
  (forall grow schedule h d, bs !! h = Some d ->
     exists b n', Read grow schedule [h] (Obj n s : nstate) = (Ok [b], Obj n' s) /\ b_Data b = d).
Proof.
  intros Hr Hsec Hip. split; [intros; by eapply Start_first|]. intros n s ms ems bs Hl. split_and!.
  - intros. by eapply Write_live.
  - intros disk id now req q Hfv Hid Hty Hq Hp.
    destruct (MountVolume_live disk blank late cfg id now req q n s ms ems bs Hl Hfv Hid Hty Hq Hp)
      as (n' & s' & ms' & Hrun & Hl' & Eid & Hc & Hk). exists n', s', ms', (no_blocks id ems). split_and!; try done.
    intros id2 now2. rewrite <- Eid. by eapply MountVolume_known.
  - intros. by eapply Start_again.
  - intros grow schedule h d Hd. pose proof (Read_one grow schedule h n s ems bs (lv_inv _ _ _ _ _ _ Hl)) as Hrd.
    rewrite decide_True in Hrd by eauto. destruct Hrd as (b & n' & Hrun & _ & _ & Hb & _). exists b, n'. split; [done|congruence].
Qed.
End start_props.

(** * Examples *)

#[local] Existing Instance RefCloud.

Abbreviation Mem := (object (Node (F := MemFs) (L := RefLru)) mem_store).

(** A node on an empty machine, with volumes of two blocks of up to 1024 bytes. *)
Definition cfg_of (l : list VolCfg) : NodeConfig := mkNodeConfig 0 "10.0.0.1" 80 81 (Some 1024%Z) l ("badger"%string, "/db"%string).
Definition blank_node : Node (F := MemFs) (L := RefLru) := mkNode 0 ∅ ∅ None ∅ [].
Definition machine0 : Mem * mem_store := (Obj blank_node disk0, empty_cluster).

Definition run_start (dirs : string -> gmap string (list byte)) (cfg : NodeConfig) (ids : nat -> N) (x : Mem * mem_store) :=
  Start (F := MemFs) (L := RefLru) map_to_list map_to_list map_to_list map_to_list map_to_list dirs ∅ false cfg (Some ∅) ids 1 x.

Definition data_section : VolCfg := mkVolCfg (Some EngineTypeFS) "/data" (Some 2048%Z) (Some (float_of 1)).
Definition dir_of (i : N) (x : Mem) : gmap string (list byte) :=
  match candidates (self x) !! i with Some v => fs v | None => ∅ end.
Definition request8 : WriteRequest := mkWriteRequest 2 (Some 4) [x08] (crc32 [x08]).

(** The first start of a node with a volume in its configuration, a write, and the
    second start. *)
Definition configured1 : Mem * mem_store := (run_start (fun _ => ∅) (cfg_of [data_section]) (fun i => 10 + N.of_nat i) machine0).2.
Definition configured2 : Mem := (Write map_to_list map_to_list 1 0 request0 configured1.1).2.
Definition configured3 : Mem * mem_store :=
  (run_start (fun _ => dir_of 11 configured2) (cfg_of [data_section]) (fun i => 20 + N.of_nat i) (Obj blank_node (st configured2), configured1.2)).2.

(** A volume of the configuration is made anew with every start: after a restart the
    node has two volumes on one directory, whose files are named by slots.  Writes go
    to the new one, which is empty, and fail, since the file of its first slot is
    there. *)
Theorem restart_shares_directory :
  elements (dom (candidates (self configured1.1))) = [11] /\
  is_ok (Write map_to_list map_to_list 1 0 request0 configured1.1).1 = true /\
  elements (dom (candidates (self configured3.1))) = [21; 11] /\
  dir_of 21 configured3.1 = dir_of 11 configured3.1 /\
  (Write map_to_list map_to_list 1 0 request8 configured3.1).1 = Err (Fails (Wrapped ErrBlockExisted)).
Proof. split_and!; vm_compute; reflexivity. Qed.

(** The node without volumes in its configuration: a volume is mounted, a block is
    written, and the process is lost and started again. *)
Definition run_mount (dirs : string -> gmap string (list byte)) (id : N) (req : MountRequest) (x : Mem * mem_store) :=
  MountVolume (F := MemFs) (L := RefLru) map_to_list dirs ∅ false (cfg_of []) id 1 req x.
Definition mount0 : MountRequest := mkMountRequest 1 "/data" 0 (Some 2048) (Some (float_of 1)).
Definition plain1 : Mem * mem_store := (run_start (fun _ => ∅) (cfg_of []) (fun i => 10 + N.of_nat i) machine0).2.
Definition plain2 : Mem * mem_store := (run_mount (fun _ => ∅) 11 mount0 plain1).2.
Definition plain3 : Mem := (Write map_to_list map_to_list 1 0 request0 plain2.1).2.

Lemma plain1_store : st plain1.1 = disk0.
Proof. vm_compute. reflexivity. Qed.

Lemma plain1_fresh : fresh_volume (B := MemBadger) (F := MemFs) (L := RefLru) (fun _ => ∅) (cfg_of []) (st plain1.1) 11 1 mount0 2048.
Proof.
  rewrite plain1_store. split.
  - done.
  - done.
  - apply empty_disk.
  - by vm_compute.
  - vm_compute. eauto.
Qed.

Lemma plain1_unused : seen plain1.2 !! volume_key 11 = None.
Proof. vm_compute. reflexivity. Qed.

Lemma data_plain : plain_path "/data".
Proof. by exists "/dat"%string, "a"%char. Qed.

(** After the mount there is one volume, with room; after the write it is still the
    only one. *)
Lemma plain2_room : candidates (self plain2.1) <> ∅ /\
  map_Forall (fun _ v => Remains (slot v) <> 0) (candidates (self plain2.1)).
Proof.
  split.
  - intros E. apply (f_equal (fun m => bool_decide (is_Some (m !! 11)))) in E. vm_compute in E. done.
  - apply (bool_decide_unpack _). vm_compute. exact I.
Qed.

Lemma plain3_volume i : is_Some (candidates (self plain3) !! i) -> i = 11.
Proof.
  intros Hi. apply elem_of_dom, elem_of_elements in Hi. assert (E : elements (dom (candidates (self plain3))) = [11]) by (vm_compute; reflexivity).
  rewrite E in Hi. by apply list_elem_of_singleton in Hi.
Qed.
Lemma nothing_held {m : gmap string blob} (Hm : m = ∅) :
  holds_nodes m ∅ ∅ /\ holds_volumes m ∅ /\ holds_metas m ∅ /\ holds_cfgs m ∅ /\ peers_complete ∅.
Proof.
  subst m. split_and!.
  - split; intros; rewrite ?lookup_empty in *; done.
  - split; intros; rewrite ?lookup_empty in *; done.
  - split; intros; rewrite ?lookup_empty in *; done.
  - intros k b Hb. by rewrite lookup_empty in Hb.
  - intros i n Hi. by rewrite lookup_empty in Hi.
Qed.

Lemma cluster_empty : seen empty_cluster = ∅.
Proof. reflexivity. Qed.
Lemma store_empty : seen disk0 = ∅.
Proof. reflexivity. Qed.

Lemma Node_survives_witness :
  exists n1 n2 n3 n4 s1 s2 s3 s4 ms1 ms2 ms4 res b n5,
    run_start (fun _ => ∅) (cfg_of []) (fun i => 10 + N.of_nat i) machine0 = (Ok tt, (Obj n1 s1, ms1)) /\
    run_mount (fun _ => ∅) 11 mount0 (Obj n1 s1, ms1) = (Ok (ID n1), (Obj n2 s2, ms2)) /\
    Write map_to_list map_to_list 1 0 request0 (Obj n2 s2) = (Ok res, Obj n3 s3) /\
    run_start (fun _ => dir_of 11 (Obj n3 s3)) (cfg_of []) (fun i => 20 + N.of_nat i) (Obj blank_node s3, ms2) = (Ok tt, (Obj n4 s4, ms4)) /\
    Read (fun c => S (2 * c)) [] [hex (sha256 [x07])] (Obj n4 s4) = (Ok [b], n5) /\ b_Data b = [x07].
Proof.
  destruct (Node_survives (B := MemBadger) (F := MemFs) (L := RefLru) (C := RefCloud) map_to_list ltac:(done) map_to_list ltac:(done)
    map_to_list ltac:(done) map_to_list ltac:(done) map_to_list ltac:(done) map_to_list map_to_list ltac:(done) false (cfg_of []) ∅ ltac:(done) eq_refl eq_refl)
    as [Hfirst Hlive].
  destruct (nothing_held cluster_empty) as (H1 & H2 & _ & _ & H5). destruct (nothing_held store_empty) as (_ & _ & H3 & H4 & _).
  destruct (Hfirst (fun _ => ∅) ∅ (fun i => 10 + N.of_nat i) 1 blank_node disk0 empty_cluster ∅ ∅ ∅ eq_refl H1 H5 H2
    (fun i p Hi => match eq_ind None (fun o => match o with None => True | Some _ => False end) I (Some p) Hi with end)
    (lookup_empty _) (lookup_empty _) H3 H4) as (n1 & s1 & ms1 & R1 & L1 & _).
  assert (E1 : plain1 = (Obj n1 s1, ms1)) by exact (f_equal snd R1).
  destruct (Hlive _ _ _ _ _ L1) as (_ & Hmount & _).
  destruct (Hmount (fun _ => ∅) 11 1 mount0 2048) as (n2 & s2 & ms2 & ems2 & R2 & L2 & _).
  { pose proof plain1_fresh as Hf. by rewrite E1 in Hf. }
  { pose proof plain1_unused as Hf. by rewrite E1 in Hf. }
  { reflexivity. }
  { reflexivity. }
  { exact data_plain. }
  assert (E2 : plain2 = (Obj n2 s2, ms2)) by (unfold plain2; rewrite E1; exact (f_equal snd R2)).
  destruct (Hlive _ _ _ _ _ L2) as (Hwrite & _). destruct plain2_room as [Hne Hroom]. rewrite E2 in Hne, Hroom.
  destruct (Hwrite 0%nat 0%Z request0 3 Hne Hroom eq_refl eq_refl ltac:(done) ltac:(done)) as (res & n3 & s3 & ems3 & R3 & Hres & L3).
  rewrite decide_False in L3 by (rewrite lookup_empty; by intros [? ?]).
  assert (E3 : plain3 = Obj n3 s3) by (unfold plain3; rewrite E2; exact (f_equal snd R3)).
  destruct (Hlive _ _ _ _ _ L3) as (_ & _ & Hagain & _).
  destruct (Hagain (fun _ => dir_of 11 (Obj n3 s3)) ∅ (fun i => 20 + N.of_nat i) 1 blank_node) as (n4 & s4 & ms4 & R4 & L4 & _).
  { intros i v p Hv _. assert (i = 11) as -> by (apply plain3_volume; rewrite E3; eauto). unfold dir_of. cbn [self]. by rewrite Hv. }
  destruct (Hlive _ _ _ _ _ L4) as (_ & _ & _ & Hread).
  destruct (Hread (fun c => S (2 * c))%nat [] (hex (sha256 [x07])) [x07] (lookup_insert_eq _ _ _)) as (b & n5 & R5 & Hb).
  exists n1, n2, n3, n4, s1, s2, s3, s4, ms1, ms2, ms4, res, b, (Obj n5 s4).
  split; [exact R1|]. split; [exact R2|]. split; [exact R3|]. split; [exact R4|]. split; [exact R5|]. exact Hb.
Defined.
