(* ===== verification/WriteCh.v ===== *)
(** The channel of asynchronous writes, src/pkg/storage/gateway/writech.go, as a
    transition system: the loop that gathers requests into batches, the
    goroutines that write them, and the callers of WriteAsync and FlushAsync
    (coordinator.go).  A caller that hands something over an unbuffered channel
    is part of the step in which the loop takes it. *)
From Stdlib Require Import Strings.Byte ZArith Lia.
From stdpp Require Import prelude gmap strings list relations.
From S2P Require Import Prelude Store Hash Volume Interval StorageBackend Gateway GatewayServers.

Record request := mkRequest { r_Key : BlockKey; r_Block : list byte }.

(** Where the loop is: at the first select, at the one after a request was
    taken, sending to [pendingCh] with a full batch, draining the requests after
    the channel was closed, or returned. *)
Inductive position := Selecting | Filling | Full | Draining | Returned.

(** A goroutine of writeRequests: the requests still to be written with the first
    error, blocked on [errc], on [flushackc], and on receiving from [pendingCh]. *)
Inductive job :=
  | Writing (rest : list request) (err : option error) (isFlush : bool)
  | Reporting (isFlush : bool)
  | Acking
  | Releasing.

(** [pendingCh] has capacity one; [flushers] counts the callers that wait for
    [flushackc], and [acked] those that have returned.  [accepted] and [done] are
    the requests taken so far and the ones whose future is done. *)
Record WriteCh (T : Type) := mkWriteCh {
  pos : position;
  reqs : list request;
  pendingCh : bool;
  jobs : list job;
  closing : bool;
  flushers : nat;
  acked : nat;
  backend : T;
  accepted : list request;
  done_ : list (request * option error) }.
Arguments mkWriteCh {T} _ _ _ _ _ _ _ _ _ _.
Arguments pos {T} _.
Arguments reqs {T} _.
Arguments pendingCh {T} _.
Arguments jobs {T} _.
Arguments closing {T} _.
Arguments flushers {T} _.
Arguments acked {T} _.
Arguments backend {T} _.
Arguments accepted {T} _.
Arguments done_ {T} _.

Section writech.
Context {T : Type} {SB : StorageBackend T}.

Definition NewWriteCh (c : T) : WriteCh T := mkWriteCh Selecting [] false [] false 0 0 c [] [].

(** Where the loop goes with the batch [l]. *)
Definition after_take (l : list request) : position := if (10 <=? length l)%nat then Full else Filling.

(** What the goroutine does when all its writes have ended. *)
Definition finish (err : option error) (isFlush : bool) : job :=
  match err with
  | Some _ => Reporting isFlush
  | None => if isFlush then Acking else Releasing
  end.
Definition first_error (err e : option error) : option error := match err with None => e | Some _ => err end.

(** The error of a write, and the backend after it; a write that does not return
    takes no step. *)
Definition write_one (r : request) (c : T) (e : option error) (c' : T) : Prop :=
  (sb_Write (r_Key r) (r_Block r) c = (Ok tt, c') /\ e = None) \/
  (exists x, sb_Write (r_Key r) (r_Block r) c = (Err (Fails x), c') /\ e = Some x).

Inductive step : WriteCh T -> WriteCh T -> Prop :=
  (** The loop takes a request, at either select. *)
  | step_take p l t js cl f a c ac d r :
      p = Selecting \/ p = Filling ->
      step (mkWriteCh p l t js cl f a c ac d)
           (mkWriteCh (after_take (l ++ [r])) (l ++ [r]) t js cl f a c (ac ++ [r]) d)
  (** flushCase falls through to writeCase. *)
  | step_flush l t js cl f a c ac d :
      step (mkWriteCh Selecting l t js cl f a c ac d)
           (mkWriteCh Selecting [] t (js ++ [Writing l None true; Writing [] None false]) cl (S f) a c ac d)
  (** writeCase, once [pendingCh] has room. *)
  | step_push p l js cl f a c ac d :
      p = Filling \/ p = Full ->
      step (mkWriteCh p l false js cl f a c ac d)
           (mkWriteCh Selecting [] true (js ++ [Writing l None false]) cl f a c ac d)
  | step_signal p l t js cl f a c ac d :
      step (mkWriteCh p l t js cl f a c ac d) (mkWriteCh p l t js true f a c ac d)
  | step_close p l t js f a c ac d :
      p = Selecting \/ p = Filling ->
      step (mkWriteCh p l t js true f a c ac d) (mkWriteCh Draining l t js true f a c ac d)
  | step_drain l t js cl f a c ac d r :
      step (mkWriteCh Draining l t js cl f a c ac d) (mkWriteCh Draining (l ++ [r]) t js cl f a c (ac ++ [r]) d)
  | step_last l js cl f a c ac d :
      step (mkWriteCh Draining l false js cl f a c ac d)
           (mkWriteCh Returned [] true (js ++ [Writing l None false]) cl f a c ac d)
  (** The writes of a batch run in any order. *)
  | step_write p l t js1 js2 l1 l2 err b cl f a c ac d r e c' :
      write_one r c e c' ->
      step (mkWriteCh p l t (js1 ++ Writing (l1 ++ r :: l2) err b :: js2) cl f a c ac d)
           (mkWriteCh p l t (js1 ++ Writing (l1 ++ l2) (first_error err e) b :: js2) cl f a c' ac (d ++ [(r, e)]))
  | step_wait p l t js1 js2 err b cl f a c ac d :
      step (mkWriteCh p l t (js1 ++ Writing [] err b :: js2) cl f a c ac d)
           (mkWriteCh p l t (js1 ++ finish err b :: js2) cl f a c ac d)
  | step_ack p l t js1 js2 cl f a c ac d :
      step (mkWriteCh p l t (js1 ++ Acking :: js2) cl (S f) a c ac d)
           (mkWriteCh p l t (js1 ++ Releasing :: js2) cl f (S a) c ac d)
  | step_release p l js1 js2 cl f a c ac d :
      step (mkWriteCh p l true (js1 ++ Releasing :: js2) cl f a c ac d)
           (mkWriteCh p l false (js1 ++ js2) cl f a c ac d).

Abbreviation steps := (rtc step).

(** * Conservation *)

Definition left_of (j : job) : list request := match j with Writing rest _ _ => rest | _ => [] end.

(** Every request taken is in the batch, with one goroutine, or done. *)
Record conserved (s : WriteCh T) : Prop := {
  cv_all : accepted s ≡ₚ reqs s ++ (jobs s ≫= left_of) ++ (done_ s).*1;
  cv_selecting : pos s = Selecting \/ pos s = Returned -> reqs s = [];
  cv_batch : pos s <> Draining -> (length (reqs s) <= 10)%nat;
  cv_filling : pos s = Filling -> (length (reqs s) < 10)%nat;
}.

Lemma left_of_app js1 j js2 : (js1 ++ j :: js2) ≫= left_of = (js1 ≫= left_of) ++ left_of j ++ (js2 ≫= left_of).
Proof. by rewrite bind_app. Qed.

Lemma left_of_finish err b : left_of (finish err b) = [].
Proof. by destruct err, b. Qed.

Lemma step_conserved s s' : step s s' -> conserved s -> conserved s'.
Proof.
  intros Hs [H1 H2 H3 H4]. destruct Hs as [p l t js cl f a c ac d r Hp| | p l js cl f a c ac d Hp | | p l t js f a c ac d Hp |
    | | p l t js1 js2 l1 l2 err b cl f a c ac d r e c' Hw | | | ]; cbn [accepted reqs jobs done_ pos] in *.
  1: assert (Hlen : (length l < 10)%nat) by (destruct Hp as [-> | ->]; [rewrite H2 by auto; cbn; lia | by apply H4]).
  all: split; cbn [accepted reqs jobs done_ pos]; try done; try (by intros [|]); try (cbn; lia).
  all: rewrite ?bind_app, ?left_of_app, ?left_of_finish, ?fmap_app in *; cbn [left_of mbind list_bind app fmap list_fmap fst] in *;
    rewrite ?app_nil_r in *.
  all: try (rewrite H1; solve_Permutation).
  - unfold after_take. by destruct (10 <=? _)%nat; intros [|].
  - intros _. rewrite length_app. cbn. lia.
  - unfold after_take. destruct (Nat.leb_spec 10 (length (l ++ [r]))); [done|]. intros _. done.
  - by rewrite left_of_finish, H1.
Qed.

Lemma steps_conserved s s' : steps s s' -> conserved s -> conserved s'.
Proof. induction 1; [done|]. eauto using step_conserved. Qed.

(** * Batches *)

(** Without a flush there is a token in [pendingCh] for each goroutine. *)
Definition one_batch (s : WriteCh T) : Prop :=
  flushers s = 0%nat -> acked s = 0%nat ->
  length (jobs s) = (if pendingCh s then 1 else 0)%nat /\
  Forall (fun j => match j with Writing _ _ true | Reporting true | Acking => False | _ => True end) (jobs s).

Lemma step_one_batch s s' : step s s' -> one_batch s -> one_batch s'.
Proof.
  intros Hs Hb. unfold one_batch in *. destruct Hs; cbn [flushers acked jobs pendingCh] in *; try done.
  - intros Hf Ha. destruct (Hb Hf Ha) as [Hl Hj]. rewrite length_app, Hl. split; [done|]. apply Forall_app. by repeat constructor.
  - intros Hf Ha. destruct (Hb Hf Ha) as [Hl Hj]. rewrite length_app, Hl. split; [done|]. apply Forall_app. by repeat constructor.
  - intros Hf Ha. destruct (Hb Hf Ha) as [Hl Hj]. rewrite !length_app in *. cbn in *. split; [done|].
    rewrite Forall_app, Forall_cons in *. naive_solver.
  - intros Hf Ha. destruct (Hb Hf Ha) as [Hl Hj]. rewrite !length_app in *. cbn in *. split; [done|].
    rewrite Forall_app, Forall_cons in *. destruct Hj as (? & ? & ?). split_and!; [done| |done]. by destruct err, b.
  - intros Hf Ha. destruct (Hb Hf Ha) as [Hl Hj]. rewrite !length_app in *. cbn in *. split; [lia|].
    rewrite Forall_app, Forall_cons in *. naive_solver.
Qed.
Lemma steps_one_batch s s' : steps s s' -> one_batch s -> one_batch s'.
Proof. induction 1; [done|]. eauto using step_one_batch. Qed.

(** C24 The write channel loses no request and writes none twice: whatever the
    order in which callers, the loop and the goroutines run, each request it has
    taken is in the batch, with one goroutine or done; a batch has at most ten
    requests, except that the batch which the loop gathers after the channel was
    closed has no bound; and as long as nobody has flushed, one batch is written at
    a time. *)
Theorem WriteCh_conserves (c : T) (s : WriteCh T) :
  steps (NewWriteCh c) s ->
  accepted s ≡ₚ reqs s ++ (jobs s ≫= left_of) ++ (done_ s).*1 /\
  (pos s <> Draining -> (length (reqs s) <= 10)%nat) /\
  (flushers s = 0%nat -> acked s = 0%nat -> length (jobs s) = (if pendingCh s then 1 else 0)%nat).
Proof.
  intros Hs. assert (Hc : conserved s) by (eapply steps_conserved; [done|]; split; cbn; done || lia).
  split_and!; [apply Hc | apply Hc |]. intros Hf Ha.
  assert (Hb : one_batch s) by (eapply steps_one_batch; [done|]; by intros _ _). by apply Hb.
Qed.

(** * Flushing *)

Lemma steps_l x y z : step x y -> steps y z -> steps x z.
Proof. apply rtc_l. Qed.

(** A flush waits for nothing: a request that was taken before the flush can
    still be unwritten when the flush returns. *)
Theorem flush_returns_early (c : T) (r : request) :
  exists s, steps (NewWriteCh c) s /\ accepted s = [r] /\ acked s = 1%nat /\ flushers s = 0%nat /\
    done_ s = [] /\ backend s = c.
Proof.
  eexists. split.
  - eapply steps_l; [apply (step_take _ _ _ _ _ _ _ _ _ _ r); by left|].
    eapply steps_l; [apply step_push; by left|]. eapply steps_l; [apply step_flush|].
    eapply steps_l; [apply (step_wait _ _ _ [Writing ([] ++ [r]) None false] [Writing [] None false])|].
    eapply steps_l; [apply (step_ack _ _ _ [Writing ([] ++ [r]) None false] [Writing [] None false])|]. apply rtc_refl.
  - done.
Qed.

(** * Errors *)

(** A goroutine whose batch has failed, before and after its last write. *)
Definition failed_job (j : job) : Prop :=
  match j with Writing _ (Some _) false | Reporting false => True | _ => False end.
(** The token is with that goroutine, the only one. *)
Definition failed (s : WriteCh T) : Prop := pendingCh s = true /\ exists j, jobs s = [j] /\ failed_job j.

Lemma app_one {A} (l1 l2 : list A) x y : l1 ++ x :: l2 = [y] -> l1 = [] /\ l2 = [] /\ x = y.
Proof. destruct l1 as [|a [|b l1]]; cbn; intros E; by simplify_eq. Qed.
Lemma app_one_inv {A} (l1 l2 : list A) x : length (l1 ++ x :: l2) = 1%nat -> l1 = [] /\ l2 = [].
Proof. rewrite length_app. destruct l1, l2; cbn; done || lia. Qed.

(** Without a flush, a write that failed leaves such a goroutine behind. *)
Definition error_kept (s : WriteCh T) : Prop :=
  flushers s = 0%nat -> acked s = 0%nat -> (exists r e, (r, Some e) ∈ done_ s) -> failed s.

Lemma step_error_kept s s' : step s s' -> one_batch s -> error_kept s -> error_kept s'.
Proof.
  intros Hs Hb Hk. unfold error_kept, one_batch, failed in *. destruct Hs as [| | | | | | |p l t js1 js2 l1 l2 err b cl f a c ac d r e c' Hw| | |];
    cbn [flushers acked jobs pendingCh done_] in *; try done; intros Hf Ha Hd.
  - by destruct (Hk Hf Ha Hd).
  - by destruct (Hk Hf Ha Hd).
  - destruct (Hb Hf Ha) as [Hl Hj]. destruct t; [|by rewrite length_app in Hl; cbn in Hl; lia].
    destruct (app_one_inv _ _ _ Hl) as [-> ->]. cbn [app] in *. split; [done|]. eexists. split; [done|].
    apply Forall_cons in Hj as [Hj _]. destruct b; [done|]. cbn [failed_job].
    destruct Hd as (r' & e' & [Hd|Hd%list_elem_of_singleton]%elem_of_app).
    + destruct (Hk Hf Ha ltac:(eauto)) as (_ & j & [= <-] & Hfj). by destruct err.
    + injection Hd as -> <-. by destruct err.
  - destruct (Hk Hf Ha Hd) as (-> & j & E & Hj). destruct (app_one _ _ _ _ E) as (-> & -> & <-). split; [done|]. eexists. split; [done|].
    by destruct err, b.
  - destruct (Hk Hf Ha Hd) as (_ & j & E & Hj). by destruct (app_one _ _ _ _ E) as (_ & _ & <-).
Qed.
Lemma steps_error_kept s s' : steps s s' -> one_batch s -> error_kept s -> error_kept s'.
Proof. induction 1; [done|]. eauto using step_error_kept, step_one_batch. Qed.

(** The loop has a request and waits for the token. *)
Definition wedged (s : WriteCh T) : Prop := failed s /\ (pos s = Filling \/ pos s = Full \/ pos s = Draining).
Definition same_batch (s s' : WriteCh T) : Prop :=
  acked s' = acked s /\ reqs s `prefix_of` reqs s' /\
  exists d, done_ s' = done_ s ++ d /\ d.*1 ++ (jobs s' ≫= left_of) ≡ₚ jobs s ≫= left_of.

Lemma same_batch_none s s' :
  acked s' = acked s -> reqs s `prefix_of` reqs s' -> done_ s' = done_ s -> jobs s' ≫= left_of = jobs s ≫= left_of -> same_batch s s'.
Proof. intros E P D J. split_and!; [done..|]. exists []. by rewrite app_nil_r, D, J. Qed.
Lemma same_batch_trans s1 s2 s3 : same_batch s1 s2 -> same_batch s2 s3 -> same_batch s1 s3.
Proof.
  intros (E1 & P1 & d1 & D1 & L1) (E2 & P2 & d2 & D2 & L2). split_and!; [congruence|by etrans|]. exists (d1 ++ d2).
  rewrite D2, D1, app_assoc. split; [done|]. rewrite fmap_app, <- app_assoc, L2. done.
Qed.

Lemma wedged_step s s' : step s s' -> wedged s -> wedged s' /\ same_batch s s'.
Proof.
  intros Hs [(Ht & j & Hj & Hfj) Hp].
  destruct Hs as [p l t js cl f a c ac d r Hp'| | | | |l t js cl f a c ac d r | |p l t js1 js2 l1 l2 err b cl f a c ac d r e c' Hw
    |p l t js1 js2 err b cl f a c ac d| |]; cbn [pendingCh jobs pos] in *; try done.
  - split; [|apply same_batch_none; try done; by apply prefix_app_r]. split; [by split; [|exists j]|].
    cbn [pos]. unfold after_take. destruct (10 <=? _)%nat; auto.
  - by destruct Hp as [|[|]].
  - split; [|by apply same_batch_none]. by split; [split; [|exists j]|].
  - split; [|by apply same_batch_none]. by split; [split; [|exists j]|auto].
  - split; [|apply same_batch_none; try done; by apply prefix_app_r]. by split; [split; [|exists j]|auto].
  - destruct (app_one _ _ _ _ Hj) as (-> & -> & <-). split.
    + split; [split; [done|]|done]. eexists. split; [done|]. by destruct err, b.
    + split_and!; [done..|]. exists [(r, e)]. split; [done|]. cbn. rewrite !app_nil_r. solve_Permutation.
  - destruct (app_one _ _ _ _ Hj) as (-> & -> & <-). split.
    + split; [split; [done|]|done]. eexists. split; [done|]. by destruct err, b.
    + apply same_batch_none; try done. cbn. by rewrite left_of_finish.
  - by destruct (app_one _ _ _ _ Hj) as (_ & _ & <-).
  - by destruct (app_one _ _ _ _ Hj) as (_ & _ & <-).
Qed.
Lemma wedged_steps s s' : steps s s' -> wedged s -> same_batch s s'.
Proof.
  induction 1 as [|x y z Hxy _ IH]; [intros; by apply same_batch_none|]. intros Hw. destruct (wedged_step _ _ Hxy Hw) as [Hy Hs].
  eapply same_batch_trans; [done|]. by apply IH.
Qed.

(** C40 A failed write stops the channel.  In every state that it reaches without a
    flush, after the write of some request has failed and when the loop has taken a
    request and not yet handed on its batch: from then on, whatever happens, the only
    writes are those still left of the batch that failed, no flush returns, and the
    requests that the loop has taken stay in its batch.  (Nobody receives the error,
    and the goroutine that sends it keeps its place in [pendingCh].) *)
Theorem error_stops_channel (c : T) (s s' : WriteCh T) r e :
  steps (NewWriteCh c) s -> flushers s = 0%nat -> acked s = 0%nat -> (r, Some e) ∈ done_ s ->
  pos s = Filling \/ pos s = Full \/ pos s = Draining -> steps s s' ->
  acked s' = 0%nat /\ reqs s `prefix_of` reqs s' /\
  exists d, done_ s' = done_ s ++ d /\ d.*1 ++ (jobs s' ≫= left_of) ≡ₚ jobs s ≫= left_of.
Proof.
  intros Hs Hf Ha Hd Hp Hs'. assert (Hk : error_kept s).
  { eapply steps_error_kept; [done|by intros _ _|]. intros _ _ (r' & e' & Hin). by apply not_elem_of_nil in Hin. }
  destruct (wedged_steps s s' Hs') as (E & H); [split; [by apply Hk; eauto|done]|]. rewrite <- Ha. done.
Qed.
End writech.

(** * Witnesses *)

Lemma WriteCh_conserves_witness :
  exists s : WriteCh MemStorageBackend, rtc step (NewWriteCh (NewMemStorageBackend 4)) s /\
    accepted s ≡ₚ reqs s ++ (jobs s ≫= left_of) ++ (done_ s).*1 /\ length (accepted s) = 1%nat.
Proof.
  set (r := mkRequest (NewBlockKey 1 0) [x07]).
  assert (Hs : rtc step (NewWriteCh (NewMemStorageBackend 4))
    (mkWriteCh Filling [r] false [] false 0 0 (NewMemStorageBackend 4) [r] [])).
  { eapply rtc_l; [apply (step_take _ _ _ _ _ _ _ _ _ _ r); by left|]. apply rtc_refl. }
  eexists. split; [exact Hs|]. split; [|reflexivity].
  apply (WriteCh_conserves (NewMemStorageBackend 4) _ Hs).
Defined.

(** A gateway that knows no nodes cannot write. *)
Lemma error_stops_channel_witness :
  exists s : WriteCh (Gateway _ _),
    done_ s = [(mkRequest (NewBlockKey 2 0) [x07], Some ErrNoSuchNode)] /\
    forall s', rtc (step (SB := backend2)) s s' -> done_ s' = done_ s.
Proof.
  set (r1 := mkRequest (NewBlockKey 2 0) [x07]). set (r2 := mkRequest (NewBlockKey 2 1) [x07]).
  assert (Hs : rtc (step (SB := backend2)) (NewWriteCh started2)
    (mkWriteCh Filling [r2] true [Reporting false] false 0 0 started2 [r1; r2] [(r1, Some ErrNoSuchNode)])).
  { eapply rtc_l; [apply (step_take _ _ _ _ _ _ _ _ _ _ r1); by left|]. eapply rtc_l; [apply step_push; by left|].
    eapply rtc_l; [apply (step_write _ _ _ [] [] [] [] _ _ _ _ _ _ _ _ _ (Some ErrNoSuchNode) started2); right; eexists; split; reflexivity|].
    eapply rtc_l; [apply (step_wait _ _ _ [] [])|]. apply rtc_once.
    exact (step_take Selecting [] true [Reporting false] false 0 0 started2 [r1] [(r1, Some ErrNoSuchNode)] r2 (or_introl eq_refl)). }
  eexists. split; [|intros s' Hs'].
  2: { destruct (error_stops_channel (SB := backend2) started2 _ s' r1 ErrNoSuchNode Hs eq_refl eq_refl ltac:(by left) ltac:(by left) Hs')
         as (_ & _ & d & E & Hd). cbn in Hd. apply Permutation_nil_r in Hd. apply app_nil in Hd as [Hd _]. apply fmap_nil_inv in Hd as ->.
       by rewrite app_nil_r in E. }
  reflexivity.
Defined.
