(* ===== verification/MemBlock.v ===== *)
(** A block of a file in the memory of the client,
    src/pkg/hugofs/vfs/buffer/block/block_mem.go, over any storage backend: what
    is written into it, read from it and flushed to the backend.  A block that was
    read as a whole may share the array of the backend ([shared]). *)
From Stdlib Require Import Ascii Strings.Byte ZArith Lia.
From stdpp Require Import prelude gmap strings list list_numbers.
From S2P Require Import Prelude Store Hash SlotPool Interval IntervalProps Volume StorageBackend Gateway GatewayServers.

Open Scope Z_scope.

Definition EOF : error := ErrOther "EOF".
Definition ErrInvalidWriteOffset : error := ErrOther "invalid write offset".
Definition ErrInvalidReadOffset : error := ErrOther "invalid read offset".
Definition ErrBlockDestoryed : error := ErrOther "block is destroyed".

(** The interval list of a block is reachable through the block only, so its
    cells are part of it.  The bytes are in [data], or, when [shared] names an
    array of the storage, in that array: the slice a storage returned is kept
    without a copy. *)
Record MemBlock := mkMemBlock {
  blockSize : Z;
  highOff : Z;
  written : Z;
  b_key : BlockKey;
  data : option (list byte);
  flushed : bool;
  writtenMode : bool;
  b_err : option error;
  closed : bool;
  interval : IntervalList;
  cells_of : list Interval;
  shared : option nat }.

Definition with_highOff (x : Z) (b : MemBlock) : MemBlock :=
  mkMemBlock (blockSize b) x (written b) (b_key b) (data b) (flushed b) (writtenMode b) (b_err b) (closed b) (interval b) (cells_of b) (shared b).
Definition with_written (x : Z) (b : MemBlock) : MemBlock :=
  mkMemBlock (blockSize b) (highOff b) x (b_key b) (data b) (flushed b) (writtenMode b) (b_err b) (closed b) (interval b) (cells_of b) (shared b).
Definition with_data (x : option (list byte)) (b : MemBlock) : MemBlock :=
  mkMemBlock (blockSize b) (highOff b) (written b) (b_key b) x (flushed b) (writtenMode b) (b_err b) (closed b) (interval b) (cells_of b) (shared b).
Definition with_flushed (x : bool) (b : MemBlock) : MemBlock :=
  mkMemBlock (blockSize b) (highOff b) (written b) (b_key b) (data b) x (writtenMode b) (b_err b) (closed b) (interval b) (cells_of b) (shared b).
Definition with_err (x : option error) (b : MemBlock) : MemBlock :=
  mkMemBlock (blockSize b) (highOff b) (written b) (b_key b) (data b) (flushed b) (writtenMode b) x (closed b) (interval b) (cells_of b) (shared b).
Definition with_closed (x : bool) (b : MemBlock) : MemBlock :=
  mkMemBlock (blockSize b) (highOff b) (written b) (b_key b) (data b) (flushed b) (writtenMode b) (b_err b) x (interval b) (cells_of b) (shared b).
Definition with_cells (x : list Interval) (b : MemBlock) : MemBlock :=
  mkMemBlock (blockSize b) (highOff b) (written b) (b_key b) (data b) (flushed b) (writtenMode b) (b_err b) (closed b) (interval b) x (shared b).

Definition with_shared (x : option nat) (b : MemBlock) : MemBlock :=
  mkMemBlock (blockSize b) (highOff b) (written b) (b_key b) (data b) (flushed b) (writtenMode b) (b_err b) (closed b) (interval b) (cells_of b) x.

(** A new list always fits: allocating its two sentinels cannot fail. *)
Definition new_block (mode : bool) (key : BlockKey) (size : Z) : MemBlock :=
  match NewIntervalList [] with
  | (Ok L, h) => mkMemBlock size 0 0 key None false mode None false L h None
  | (_, h) => mkMemBlock size 0 0 key None false mode None false (mkIntervalList 0 0) h None
  end.
Definition NewMemBlockForWrite (key : BlockKey) (size : Z) : MemBlock := new_block true key size.
Definition NewMemBlock (key : BlockKey) (size : Z) : MemBlock := new_block false key size.

Definition zeros (n : Z) : list byte := replicate (Z.to_nat n) x00.

(** [copy(buf[start:end], p)]. *)
Definition splice {A} (start end_ : Z) (buf p : list A) : list A :=
  take (Z.to_nat start) buf ++ take (Z.to_nat (end_ - start)) p ++ drop (Z.to_nat end_) buf.

Section mem_block.
Context {T : Type} {SB : StorageBackend T}.
(** Whether the text of an error contains block already exists. *)
Context (already_exists : error -> bool).

Abbreviation BM A := (M (MemBlock * T) fault A).

Definition get_block : BM MemBlock := gets fst.
Definition set_block (f : MemBlock -> MemBlock) : BM unit := modify (fun s => (f s.1, s.2)).
Definition on_storage {A} (m : M T fault A) : BM A := fun s => let '(r, t) := m s.2 in (r, (s.1, t)).
(** The error of a call as a value. *)
Definition attempt {A} (m : BM A) : BM (A + error) := fun s =>
  match m s with
  | (Ok a, s') => (Ok (inl a), s')
  | (Err (Fails e), s') => (Ok (inr e), s')
  | (Err Blocked, s') => (Err Blocked, s')
  | (Panic, s') => (Panic, s')
  end.
(** A call on the interval list, whose cells are in the block. *)
Definition on_interval {A} (m : IntervalList -> M (T * list Interval) fault A) : BM A := fun s =>
  let '(r, (t, h)) := m (interval s.1) (s.2, cells_of s.1) in (r, (with_cells h s.1, t)).

(** The bytes of a block, storing them, and [mem.Free], which clears them for
    whoever else has the array before it goes back to the pool. *)
Definition bytes (s : MemBlock * T) : option (list byte) :=
  match shared s.1 with Some a => Some (sb_Peek a s.2) | None => data s.1 end.
Definition put_bytes (d : list byte) (s : MemBlock * T) : MemBlock * T :=
  match shared s.1 with
  | Some a => (s.1, sb_Poke a d s.2)
  | None => (with_data (Some d) s.1, s.2)
  end.
Definition free_bytes (s : MemBlock * T) : MemBlock * T :=
  match shared s.1 with
  | Some a => (with_shared None (with_data None s.1), sb_Poke a (replicate (length (sb_Peek a s.2)) x00) s.2)
  | None => (with_data None s.1, s.2)
  end.
Definition GetData (s : MemBlock * T) : option (list byte) := bytes s.
Definition IsFlushed (b : MemBlock) : bool := flushed b.
Definition ShouldFlush (b : MemBlock) : bool := (0 <? written b) && negb (flushed b).
Definition IsDestroyed (b : MemBlock) : bool := closed b.

(** The error of writing a whole block is dropped. *)
Definition doFlush : BM unit :=
  b <- get_block ;;
  if flushed b || (written b =? 0) then ret tt else
  on_interval (fun L => on_list (Merge L)) ;;;
  total <- on_interval (fun L => on_list (Total L)) ;;
  d <- gets bytes ;;
  let buf := default [] d in
  (if total =? blockSize b then
     attempt (on_storage (sb_Write (b_key b) buf)) ;;; ret tt
   else
     r <- attempt (on_interval (fun L => sb_WriteAt (b_key b) L buf)) ;;
     match r with
     | inr e => if already_exists e then ret tt else throw (Fails e)
     | inl _ => ret tt
     end) ;;;
  set_block (with_flushed true) ;;;
  set_block (with_written 0).
Definition Flush : BM unit := doFlush.

Definition IsFull : BM bool :=
  b <- get_block ;;
  total <- on_interval (fun L => on_list (Total L)) ;;
  ret (total =? blockSize b).
Definition Written : BM Z := on_interval (fun L => on_list (Total L)).

(** A slice of the size of a block is kept as it is, a shorter one copied.  The
    error of an earlier call stays. *)
Definition _doCache : BM unit :=
  b <- get_block ;;
  r <- attempt (on_storage (sb_Read (b_key b))) ;;
  match r with
  | inr e => modify free_bytes ;;; set_block (with_err (Some e))
  | inl d =>
      (if Z.of_nat (length d) =? blockSize b then
         modify (fun s => (match sb_Array s.2 (b_key b) with
                           | Some a => with_shared (Some a) (with_data None s.1)
                           | None => with_shared None (with_data (Some d) s.1)
                           end, s.2)) ;;;
         set_block (with_highOff (Z.of_nat (length d)))
       else if IsAllBytesZero d then go_panic
       else
         set_block (fun b => with_shared None (with_data (Some (copy_into (zeros (blockSize b)) d)) b)) ;;;
         set_block (with_highOff (Z.min (blockSize b) (Z.of_nat (length d))))) ;;;
      set_block (with_written 0)
  end.
Definition Cache : BM unit :=
  _doCache ;;;
  set_block (fun b => if bool_decide (b_err b = Some ErrBlockDestoryed) then with_err None b else b).

(** The end of ReadAt, from [startInBlock] of block [blockIdx]. *)
Definition read_part (b : MemBlock) (p : list byte) (blockIdx : N) (startInBlock : Z) :
    BM (Z * option error * list byte) :=
  let endInBlock := Z.min (Z.min (highOff b) (startInBlock + Z.of_nat (length p)))
                          (int64 (to_int (wrap64 (blockIdx + 1)) * blockSize b)) in
  d <- gets bytes ;;
  let buf := default [] d in
  if (endInBlock <=? startInBlock) || (Z.of_nat (length buf) <? startInBlock) then ret (0, Some EOF, p)
  else if (startInBlock <? 0) || (Z.of_nat (length buf) <? endInBlock) then go_panic
  else
    let n := endInBlock - startInBlock in
    ret (n, None, copy_into p (take (Z.to_nat n) (drop (Z.to_nat startInBlock) buf))).

(** The count, the error and the caller's buffer after the call. *)
Definition ReadAt (p : list byte) (off : Z) : BM (Z * option error * list byte) :=
  b <- get_block ;;
  let '(_, index) := key_Split (b_key b) in
  let blockIdx := to_uint64 (Z.quot off (blockSize b)) in
  if negb (blockIdx =? index)%N then ret (0, Some ErrInvalidReadOffset, p) else
  let startInBlock := Z.rem off (blockSize b) in
  match b_err b with
  | Some e =>
      if bool_decide (e = ErrBlockDestoryed) then
        _doCache ;;; b <- get_block ;; read_part b p blockIdx startInBlock
      else ret (0, Some e, p)
  | None => read_part b p blockIdx startInBlock
  end.

Definition WriteAt (p : list byte) (off : Z) : BM (Z * option error) :=
  b <- get_block ;;
  let '(_, index) := key_Split (b_key b) in
  let blockIdx := to_uint64 (Z.quot off (blockSize b)) in
  if negb (blockIdx =? index)%N then ret (0, Some ErrInvalidWriteOffset) else
  let blockStart := Z.rem off (blockSize b) in
  let blockEnd := Z.min (blockStart + Z.of_nat (length p)) (blockSize b) in
  let n := blockEnd - blockStart in
  d <- gets bytes ;;
  let buf := default (zeros (blockSize b)) d in
  (if (0 <=? blockStart) && (blockStart <=? blockEnd) && (blockEnd <=? Z.of_nat (length buf)) then
     modify (put_bytes (splice blockStart blockEnd buf p))
   else go_panic) ;;;
  on_interval (fun L => on_list (i <- NewInterval blockStart blockEnd ;; AddInterval L i)) ;;;
  let w := written b + n in
  set_block (fun b => with_highOff (Z.max (highOff b) blockEnd) (with_written w b)) ;;;
  if blockSize b <=? w then
    r <- attempt Flush ;;
    ret (n, match r with inr e => Some e | inl _ => None end)
  else ret (n, None).

(** Closing runs the function once. *)
Definition Destroy : BM unit :=
  b <- get_block ;;
  if closed b then ret tt
  else modify free_bytes ;;; set_block (fun b => with_err (Some ErrBlockDestoryed) (with_closed true b)).
End mem_block.

(** * What a block holds *)

(** The block [i] of file [ino] has the writes [ws], the last one first, and none
    of them is flushed; [buf] are its bytes. *)
Record buffered (b : MemBlock) (ino i : N) (ws : list (Z * Z)) (buf : list byte) : Prop := {
  bu_key : b_key b = NewBlockKey ino i;
  bu_ino : (ino < 2 ^ 64)%N;
  bu_index : (i < 2 ^ 64)%N;
  bu_size : 0 < blockSize b <= MaxInt;
  bu_len : Z.of_nat (length buf) = blockSize b;
  bu_data : data b = match ws with [] => None | _ => Some buf end;
  bu_zero : ws = [] -> buf = zeros (blockSize b);
  bu_flushed : flushed b = false;
  bu_err : b_err b = None;
  bu_shared : shared b = None;
  bu_list : exists ivs, holds (cells_of b) (interval b) ivs /\ disjoint_from 0 ivs /\ bounded (blockSize b) ivs /\
    forall x, cover ivs x <-> cover ws x;
  bu_written : written b = sum_len ws;
  bu_ws : Forall (fun w => 0 <= w.1 < w.2 /\ w.2 <= blockSize b) ws;
  bu_high : highOff b = foldr (fun w m => Z.max w.2 m) 0 ws;
}.

Lemma bu_records b ino i ws buf : buffered b ino i ws buf -> records (cells_of b) (interval b) (blockSize b) ws.
Proof.
  intros Hb. destruct (bu_list _ _ _ _ _ Hb) as (ivs & Hh & Hd & Hbd & Hc). exists ivs. by split; [apply holds_fholds|].
Qed.
Lemma bu_positive b ino i ws buf : buffered b ino i ws buf -> ws <> [] -> 0 < written b.
Proof.
  intros Hb Hne. rewrite (bu_written _ _ _ _ _ Hb). destruct ws as [|[s e] ws]; [done|].
  pose proof (bu_ws _ _ _ _ _ Hb) as Hw. apply Forall_cons in Hw as [Hse Hw]. rewrite sum_len_cons. cbn in Hse.
  assert (0 <= sum_len ws); [|cbn; lia]. clear -Hw. induction Hw as [|[s e] ws Hse Hw IH]; [done|].
  rewrite sum_len_cons. cbn in *. lia.
Qed.

Lemma length_splice {A} s e (buf p : list A) :
  0 <= s <= e -> e <= Z.of_nat (length buf) -> e - s <= Z.of_nat (length p) -> length (splice s e buf p) = length buf.
Proof. intros. unfold splice. rewrite !length_app, !length_take, length_drop. lia. Qed.

Lemma new_buffered mode ino i size :
  (ino < 2 ^ 64)%N -> (i < 2 ^ 64)%N -> 0 < size <= MaxInt ->
  buffered (new_block mode (NewBlockKey ino i) size) ino i [] (zeros size).
Proof.
  intros Hino Hi Hs. unfold new_block. destruct (NewIntervalList_rep []) as (L & h & E & Hr). rewrite E.
  split; cbn [b_key blockSize data flushed b_err shared cells_of interval written highOff]; try done.
  - unfold zeros. rewrite length_replicate. lia.
  - exists []. split_and!; [by exists [] | done | constructor | done].
Qed.

Section block_props.
Context {T : Type} {SB : StorageBackend T} {BS : BackendSpec T}.
Context (already_exists : error -> bool).

(** What flushing the bytes [buf] leaves in the backend. *)
Definition stored (size : Z) (ws : list (Z * Z)) (c : gmap (N * N) (list byte)) (k : N * N) (buf : list byte) : list byte :=
  if decide (count_covered size ws = size) then buf else merged ws c k buf.

(** A block after its flush. *)
Definition after_flush (b : MemBlock) (h : list Interval) : MemBlock :=
  with_written 0 (with_flushed true (with_cells h b)).

Lemma doFlush_run b (t : T) x c ino i ws buf :
  buffered b ino i ws buf -> ws <> [] -> be_holds t x c ->
  (forall old, c !! (ino, i) = Some old -> Z.of_nat (length old) = blockSize b) ->
  be_can t x (stored (blockSize b) ws c (ino, i) buf) ->
  exists h' t' x', doFlush already_exists (b, t) = (Ok tt, (after_flush b h', t')) /\
    be_holds t' x' (<[(ino, i) := stored (blockSize b) ws c (ino, i) buf]> c) /\
    (count_covered (blockSize b) ws = blockSize b -> records h' (interval b) (blockSize b) ws).
Proof.
  intros Hb Hne Hh Hold Hcan. pose proof (bu_records _ _ _ _ _ Hb) as Hr.
  destruct (Merge_records _ _ _ _ Hr) as (h1 & Hm & Hr1). pose proof (bu_positive _ _ _ _ _ Hb Hne) as Hpos.
  destruct Hb as [Hk Hino Hi Hs Hl Hd _ Hf He Hsh _ _ _ _].
  pose proof (Total_records _ _ _ _ Hr1 ltac:(lia)) as Ht.
  assert (Hdat : data b = Some buf) by (rewrite Hd; by destruct ws).
  unfold doFlush, bind at 1, get_block, gets. cbn [fst]. rewrite Hf. cbn [orb]. rewrite (proj2 (Z.eqb_neq _ 0)) by lia.
  erewrite bind_ok by (unfold on_interval, on_list; cbn [fst snd]; by rewrite Hm).
  erewrite bind_ok by (unfold on_interval, on_list; cbn [fst snd interval cells_of with_cells]; by rewrite Ht).
  unfold bind at 1, gets, bytes. cbn [fst snd shared data with_cells]. rewrite Hsh, Hdat, Hk. cbn [default Datatypes.id]. unfold stored in *. destruct (decide _) as [E|E].
  - rewrite E, Z.eqb_refl. destruct (be_write t x c ino i buf Hh Hino Hi Hcan) as (t' & x' & Hrun & Hh').
    exists h1, t', x'. split; [|done]. unfold bind, attempt, on_storage. cbn [fst snd]. rewrite Hrun. done.
  - rewrite (proj2 (Z.eqb_neq _ _) E).
    destruct (be_write_at t x c ino i h1 (interval b) ws buf Hh Hino Hi) as (t' & x' & h2 & Hrun & Hh'); [|exact Hcan|].
    { intros old Ho. specialize (Hold _ Ho). split; [lia|]. by rewrite Hold. }
    exists h2, t', x'. split; [|done]. unfold bind, attempt, on_interval. cbn [fst snd interval cells_of with_cells].
    rewrite Hrun. done.
Qed.

(** ** Writing *)

(** The block after a write of [p] at [s] of it, before it is flushed. *)
Lemma write_step b ino i ws buf p s :
  buffered b ino i ws buf -> 0 <= s < blockSize b -> p <> [] ->
  let e := Z.min (s + Z.of_nat (length p)) (blockSize b) in
  exists h', (forall t : T, on_interval (fun L => on_list (i <- NewInterval s e ;; AddInterval L i))
      (with_data (Some (splice s e buf p)) b, t) = (Ok tt, (with_cells h' (with_data (Some (splice s e buf p)) b), t))) /\
    buffered (with_highOff (Z.max (highOff b) e) (with_written (written b + (e - s))
      (with_cells h' (with_data (Some (splice s e buf p)) b)))) ino i ((s, e) :: ws) (splice s e buf p).
Proof.
  intros Hb Hs Hp e. assert (Hlp : (0 < length p)%nat) by (destruct p; [done | cbn; lia]).
  destruct (bu_list _ _ _ _ _ Hb) as (ivs & Hh & Hd & Hbd & Hc).
  pose proof (bu_size _ _ _ _ _ Hb) as Hsz. pose proof (bu_len _ _ _ _ _ Hb) as Hlen.
  assert (Hse : s < e) by lia. assert (He : e <= blockSize b) by lia.
  destruct (add_holds (cells_of b) (interval b) ivs 0 s e Hh Hd) as (h' & Hadd & Hh'); [unfold MinInt; lia | done | lia |].
  exists h'. split.
  - intros t. unfold on_interval, on_list. cbn [fst snd interval cells_of with_data]. by rewrite Hadd.
  - destruct Hb as [Hk Hino Hi Hs' Hl Hdt Hz Hf He' Hsh _ Hw Hws Hhi].
    split; cbn [b_key blockSize data flushed b_err shared cells_of interval written highOff with_highOff with_written with_cells with_data]; try done.
    + rewrite length_splice; [done | lia | lia | lia].
    + exists (add_iv ivs s e). split_and!; [done | apply disjoint_add_iv; [done|lia|done] | by apply bounded_add_iv |].
      intros x. rewrite cover_add_iv, cover_cons by done. cbn [fst snd]. by rewrite Hc.
    + rewrite sum_len_cons, Hw. cbn [fst snd]. lia.
    + constructor; [cbn; lia | done].
    + cbn [foldr snd]. rewrite Hhi. lia.
Qed.

(** The parts of an offset in block [i]. *)
Lemma block_parts B i s :
  0 < B -> (i < 2 ^ 64)%N -> 0 <= s < B ->
  to_uint64 (Z.quot (Z.of_N i * B + s) B) = i /\ Z.rem (Z.of_N i * B + s) B = s.
Proof.
  intros HB Hi Hs. rewrite Z.quot_div_nonneg, Z.rem_mod_nonneg by lia.
  rewrite Z.add_comm, Z.div_add, Z.div_small, Z.mod_add, Z.mod_small by lia. split; [|done].
  unfold to_uint64. rewrite Z.add_0_l, Z.mod_small; [apply N2Z.id|]. split; [lia|].
  change (2 ^ 64) with (Z.of_N (2 ^ 64)). lia.
Qed.
Lemma offset_parts b ino i ws buf s :
  buffered b ino i ws buf -> 0 <= s < blockSize b ->
  to_uint64 (Z.quot (Z.of_N i * blockSize b + s) (blockSize b)) = i /\
  Z.rem (Z.of_N i * blockSize b + s) (blockSize b) = s.
Proof. intros Hb Hs. apply block_parts; [apply (bu_size _ _ _ _ _ Hb) | apply (bu_index _ _ _ _ _ Hb) | done]. Qed.

(** A write up to the test whether the block is to be flushed. *)
Lemma WriteAt_steps b (t : T) ino i ws buf p s :
  buffered b ino i ws buf -> 0 <= s < blockSize b -> p <> [] ->
  let e := Z.min (s + Z.of_nat (length p)) (blockSize b) in
  exists b', buffered b' ino i ((s, e) :: ws) (splice s e buf p) /\ blockSize b' = blockSize b /\ closed b' = closed b /\
    WriteAt already_exists p (Z.of_N i * blockSize b + s) (b, t) =
    (if blockSize b <=? written b + (e - s) then
       r <- attempt (Flush already_exists) ;; ret (e - s, match r with inr e => Some e | inl _ => None end)
     else ret (e - s, None)) (b', t).
Proof.
  intros Hb Hs Hp e. destruct (write_step b ino i ws buf p s Hb Hs Hp) as (h' & Hadd & Hb'). fold e in Hadd, Hb'.
  assert (Hlp : (0 < length p)%nat) by (destruct p; [done | cbn; lia]).
  destruct (offset_parts _ _ _ _ _ s Hb Hs) as [E1 E2]. pose proof (bu_len _ _ _ _ _ Hb) as Hlen.
  eexists. split; [exact Hb'|]. split; [done|]. split; [done|]. unfold WriteAt, bind at 1, get_block, gets. cbn [fst].
  rewrite (bu_key _ _ _ _ _ Hb), key_Split_New by (apply (bu_ino _ _ _ _ _ Hb) || apply (bu_index _ _ _ _ _ Hb)).
  rewrite E1, E2, N.eqb_refl. cbn [negb]. fold e. cbv zeta.
  assert (Hbuf : default (zeros (blockSize b)) (bytes (b, t)) = buf).
  { unfold bytes. cbn [fst]. rewrite (bu_shared _ _ _ _ _ Hb). rewrite (bu_data _ _ _ _ _ Hb). destruct ws as [|w ws]; [|done]. symmetry. by apply (bu_zero _ _ _ _ _ Hb). }
  unfold bind at 1, gets. rewrite Hbuf. rewrite (proj2 (Z.leb_le 0 s)), (proj2 (Z.leb_le s e)), (proj2 (Z.leb_le e _)) by lia. cbn [andb].
  unfold bind at 1, modify at 1, put_bytes. cbn [fst snd]. rewrite (bu_shared _ _ _ _ _ Hb).
  rewrite (bind_ok _ _ _ _ _ (Hadd t)). reflexivity.
Qed.

Lemma WriteAt_run b (t : T) ino i ws buf p s :
  buffered b ino i ws buf -> 0 <= s < blockSize b -> p <> [] ->
  let e := Z.min (s + Z.of_nat (length p)) (blockSize b) in
  let buf' := splice s e buf p in
  exists b', buffered b' ino i ((s, e) :: ws) buf' /\ blockSize b' = blockSize b /\ closed b' = closed b /\
    (written b + (e - s) < blockSize b ->
       WriteAt already_exists p (Z.of_N i * blockSize b + s) (b, t) = (Ok (e - s, None), (b', t))) /\
    (blockSize b <= written b + (e - s) -> forall x c, be_holds t x c ->
       (forall old, c !! (ino, i) = Some old -> Z.of_nat (length old) = blockSize b) ->
       be_can t x (stored (blockSize b) ((s, e) :: ws) c (ino, i) buf') ->
       exists h' t' x', WriteAt already_exists p (Z.of_N i * blockSize b + s) (b, t) =
           (Ok (e - s, None), (after_flush b' h', t')) /\
         be_holds t' x' (<[(ino, i) := stored (blockSize b) ((s, e) :: ws) c (ino, i) buf']> c) /\
         (count_covered (blockSize b) ((s, e) :: ws) = blockSize b -> records h' (interval b') (blockSize b) ((s, e) :: ws))).
Proof.
  intros Hb Hs Hp e buf'. destruct (WriteAt_steps b t ino i ws buf p s Hb Hs Hp) as (b' & Hb' & Hsz & Hcl & Hrun). fold e buf' in Hb', Hrun.
  exists b'. split; [done|]. split; [done|]. split; [done|]. rewrite Hrun. split.
  - intros Hlt. by rewrite (proj2 (Z.leb_gt _ _)).
  - rewrite <- Hsz. intros Hge x c Hh Hold Hcan. rewrite (proj2 (Z.leb_le _ _)) by done.
    destruct (doFlush_run b' t x c ino i ((s, e) :: ws) buf' Hb' ltac:(done) Hh Hold Hcan) as (h2 & t' & x' & Hfl & Hh').
    exists h2, t', x'. split; [|done]. unfold bind, attempt, Flush. by rewrite Hfl.
Qed.

(** ** Reading *)

Lemma bu_high_bound b ino i ws buf : buffered b ino i ws buf -> 0 <= highOff b <= blockSize b /\ (ws = [] -> highOff b = 0).
Proof.
  intros Hb. rewrite (bu_high _ _ _ _ _ Hb). pose proof (bu_size _ _ _ _ _ Hb). split; [|by intros ->].
  pose proof (bu_ws _ _ _ _ _ Hb) as Hw. clear Hb. induction Hw as [|[s e] ws Hse Hw IH]; cbn; [lia|]. cbn in Hse. lia.
Qed.

Lemma block_limit B i : 0 < B -> (Z.of_N i + 1) * B <= MaxInt -> int64 (to_int (wrap64 (i + 1)) * B) = (Z.of_N i + 1) * B.
Proof.
  unfold MaxInt. intros HB Hi. assert (Z.of_N i + 1 <= 2 ^ 63 - 1) by nia. unfold wrap64. rewrite N.mod_small by lia.
  rewrite to_int_small by lia. rewrite int64_small; lia.
Qed.

Lemma ReadAt_run b (t : T) ino i ws buf p s :
  buffered b ino i ws buf -> 0 <= s < blockSize b -> (Z.of_N i + 1) * blockSize b <= MaxInt ->
  let n := Z.min (highOff b - s) (Z.of_nat (length p)) in
  ReadAt p (Z.of_N i * blockSize b + s) (b, t) =
    (Ok (if 0 <? n then (n, None, copy_into p (take (Z.to_nat n) (drop (Z.to_nat s) buf))) else (0, Some EOF, p)), (b, t)).
Proof.
  intros Hb Hs Hlim n. destruct (offset_parts _ _ _ _ _ s Hb Hs) as [E1 E2].
  destruct (bu_high_bound _ _ _ _ _ Hb) as [Hhi Hnil]. pose proof (bu_len _ _ _ _ _ Hb) as Hlen.
  unfold ReadAt, bind at 1, get_block, gets. cbn [fst].
  rewrite (bu_key _ _ _ _ _ Hb), key_Split_New by (apply (bu_ino _ _ _ _ _ Hb) || apply (bu_index _ _ _ _ _ Hb)).
  rewrite E1, E2, N.eqb_refl, (bu_err _ _ _ _ _ Hb). cbn [negb]. unfold read_part. cbv zeta.
  unfold bind at 1, gets, bytes. cbn [fst snd]. rewrite (bu_shared _ _ _ _ _ Hb).
  rewrite block_limit by (done || apply (bu_size _ _ _ _ _ Hb)).
  assert (Hend : Z.min (Z.min (highOff b) (s + Z.of_nat (length p))) ((Z.of_N i + 1) * blockSize b) = n + s).
  { assert (blockSize b <= (Z.of_N i + 1) * blockSize b) by nia. lia. }
  rewrite Hend. destruct (Z.ltb_spec 0 n) as [Hn|Hn].
  - assert (Hne : ws <> []) by (intros ->; specialize (Hnil eq_refl); lia).
    assert (Hd : data b = Some buf) by (rewrite (bu_data _ _ _ _ _ Hb); by destruct ws). rewrite Hd. cbn [default Datatypes.id].
    rewrite (proj2 (Z.leb_gt _ _)), (proj2 (Z.ltb_ge _ s)), (proj2 (Z.ltb_ge s 0)), (proj2 (Z.ltb_ge _ (n + s))) by lia.
    cbn [orb]. by replace (n + s - s) with n by lia.
  - by rewrite (proj2 (Z.leb_le _ _)) by lia.
Qed.

(** * Theorems *)

(** C19 A block in memory that has not been flushed, has met no error and does not share
    its array, over any backend that keeps its promises: a write puts its bytes into
    the block; a read of a block that ends within int64 returns the bytes up to the
    highest one written; and a flush, or the write that brings the count of written
    bytes to the size of the block, stores the block: as it is when it was written
    all over, otherwise over what the backend has.  For that a block that the backend
    has is of the block's size, and the backend can store the new one. *)
Theorem MemBlock_implements b (t : T) ino i ws buf :
  buffered b ino i ws buf ->
  (forall p s, 0 <= s < blockSize b -> (Z.of_N i + 1) * blockSize b <= MaxInt ->
     let n := Z.min (highOff b - s) (Z.of_nat (length p)) in
     ReadAt p (Z.of_N i * blockSize b + s) (b, t) =
       (Ok (if 0 <? n then (n, None, copy_into p (take (Z.to_nat n) (drop (Z.to_nat s) buf))) else (0, Some EOF, p)), (b, t))) /\
  (forall p s, 0 <= s < blockSize b -> p <> [] ->
     let e := Z.min (s + Z.of_nat (length p)) (blockSize b) in
     let buf' := splice s e buf p in
     exists b', buffered b' ino i ((s, e) :: ws) buf' /\ blockSize b' = blockSize b /\
       (written b + (e - s) < blockSize b ->
          WriteAt already_exists p (Z.of_N i * blockSize b + s) (b, t) = (Ok (e - s, None), (b', t))) /\
       (blockSize b <= written b + (e - s) -> forall x c, be_holds t x c ->
          (forall old, c !! (ino, i) = Some old -> Z.of_nat (length old) = blockSize b) ->
          be_can t x (stored (blockSize b) ((s, e) :: ws) c (ino, i) buf') ->
          exists h' t' x', WriteAt already_exists p (Z.of_N i * blockSize b + s) (b, t) =
              (Ok (e - s, None), (after_flush b' h', t')) /\
            be_holds t' x' (<[(ino, i) := stored (blockSize b) ((s, e) :: ws) c (ino, i) buf']> c))) /\
  (forall x c, ws <> [] -> be_holds t x c ->
     (forall old, c !! (ino, i) = Some old -> Z.of_nat (length old) = blockSize b) ->
     be_can t x (stored (blockSize b) ws c (ino, i) buf) ->
     exists h' t' x', Flush already_exists (b, t) = (Ok tt, (after_flush b h', t')) /\
       be_holds t' x' (<[(ino, i) := stored (blockSize b) ws c (ino, i) buf]> c)).
Proof.
  intros Hb. split_and!.
  - intros p s Hs Hlim n. by apply (ReadAt_run b t ino i ws).
  - intros p s Hs Hp e buf'. destruct (WriteAt_run b t ino i ws buf p s Hb Hs Hp) as (b' & Hb' & Hsz & _ & Hlt & Hge).
    exists b'. split_and!; [done | done | done |]. intros Hw x c Hh Hold Hcan.
    destruct (Hge Hw x c Hh Hold Hcan) as (h' & t' & x' & Hrun & Hh' & _). by exists h', t', x'.
  - intros x c Hne Hh Hold Hcan. destruct (doFlush_run b t x c ino i ws buf Hb Hne Hh Hold Hcan) as (h' & t' & x' & Hrun & Hh' & _).
    by exists h', t', x'.
Qed.

(** Calls on a block. *)
Inductive block_op := OpWrite (p : list byte) (off : Z) | OpFlush.
Definition run_op (o : block_op) (s : MemBlock * T) : MemBlock * T :=
  match o with
  | OpWrite p off => (WriteAt already_exists p off s).2
  | OpFlush => (Flush already_exists s).2
  end.

Lemma Flush_flushed (b : MemBlock) (t : T) : flushed b = true -> Flush already_exists (b, t) = (Ok tt, (b, t)).
Proof. intros Hf. unfold Flush, doFlush, bind at 1, get_block, gets. cbn [fst]. by rewrite Hf. Qed.

Lemma WriteAt_flushed (b : MemBlock) (t : T) p off :
  flushed b = true -> shared b = None ->
  exists b', (WriteAt already_exists p off (b, t)).2 = (b', t) /\ flushed b' = true /\ shared b' = None.
Proof.
  intros Hf Hsh. unfold WriteAt, bind at 1, get_block, gets. cbn [fst]. destruct (key_Split (b_key b)) as [ino i].
  destruct (negb _); [by exists b|]. cbv zeta. unfold bind at 1, gets. set (st := Z.rem off (blockSize b)). set (e := Z.min _ _).
  destruct (_ && _); [|by exists b]. unfold bind at 1, modify at 1, put_bytes. cbn [fst snd]. rewrite Hsh.
  set (b1 := with_data _ b). unfold bind at 1, on_interval, on_list. cbn [fst snd].
  destruct ((i0 <- NewInterval st e ;; AddInterval (interval b1) i0) (cells_of b1)) as [[[]|[]|] h]; [|by eexists..].
  unfold bind at 1, set_block, modify. cbn [fst snd]. set (b2 := with_highOff _ _).
  assert (Hf2 : flushed b2 = true) by exact Hf. destruct (_ <=? _); [|by exists b2].
  unfold bind, attempt. rewrite (Flush_flushed b2 t Hf2). by exists b2.
Qed.

(** A write after a flush is lost: once a block has been flushed, which happens
    by itself when its bytes have been written over often enough, nothing that is
    written into it reaches the backend, however often it is flushed. *)
Theorem flushed_block_loses_writes (b : MemBlock) (t : T) (ops : list block_op) :
  flushed b = true -> shared b = None -> (foldl (fun s o => run_op o s) (b, t) ops).2 = t.
Proof.
  revert b. induction ops as [|o ops IH]; intros b Hf Hsh; [done|]. cbn [foldl]. destruct o as [p off|]; cbn [run_op].
  - destruct (WriteAt_flushed b t p off Hf Hsh) as (b' & -> & Hf' & Hsh'). by apply IH.
  - rewrite (Flush_flushed b t Hf). by apply IH.
Qed.

Lemma Flush_refused b (t t' : T) ino i ws buf e :
  buffered b ino i ws buf -> ws <> [] -> count_covered (blockSize b) ws = blockSize b ->
  sb_Write (NewBlockKey ino i) buf t = (Err (Fails e), t') ->
  exists h', Flush already_exists (b, t) = (Ok tt, (after_flush b h', t')).
Proof.
  intros Hb Hne Hfull Hw. destruct (Merge_records _ _ _ _ (bu_records _ _ _ _ _ Hb)) as (h1 & Hm & Hr1).
  pose proof (bu_positive _ _ _ _ _ Hb Hne) as Hpos. destruct Hb as [Hk Hino Hi Hs Hl Hd _ Hf He Hsh _ _ _ _].
  pose proof (Total_records _ _ _ _ Hr1 ltac:(lia)) as Ht. assert (Hdat : data b = Some buf) by (rewrite Hd; by destruct ws).
  exists h1. unfold Flush, doFlush, bind at 1, get_block, gets. cbn [fst]. rewrite Hf. cbn [orb]. rewrite (proj2 (Z.eqb_neq _ 0)) by lia.
  erewrite bind_ok by (unfold on_interval, on_list; cbn [fst snd]; by rewrite Hm).
  erewrite bind_ok by (unfold on_interval, on_list; cbn [fst snd interval cells_of with_cells]; by rewrite Ht).
  unfold bind at 1, gets, bytes. cbn [fst snd shared data with_cells]. rewrite Hsh, Hdat, Hk, Hfull, Z.eqb_refl. cbn [default Datatypes.id]. unfold bind, attempt, on_storage. cbn [fst snd]. by rewrite Hw.
Qed.

(** The error of storing a whole block is dropped: when the backend refuses the
    block, the write that completes it succeeds and the block counts as flushed. *)
Theorem full_write_error_dropped b (t t' : T) ino i ws buf p s err :
  buffered b ino i ws buf -> 0 <= s < blockSize b -> p <> [] ->
  let e := Z.min (s + Z.of_nat (length p)) (blockSize b) in
  blockSize b <= written b + (e - s) -> count_covered (blockSize b) ((s, e) :: ws) = blockSize b ->
  sb_Write (NewBlockKey ino i) (splice s e buf p) t = (Err (Fails err), t') ->
  exists b', WriteAt already_exists p (Z.of_N i * blockSize b + s) (b, t) = (Ok (e - s, None), (b', t')) /\
    flushed b' = true /\ data b' = Some (splice s e buf p).
Proof.
  intros Hb Hs Hp e Hge Hfull Hw. destruct (WriteAt_steps b t ino i ws buf p s Hb Hs Hp) as (b' & Hb' & Hsz & _ & Hrun).
  fold e in Hb', Hrun. rewrite Hrun, (proj2 (Z.leb_le _ _)) by done. rewrite <- Hsz in Hfull.
  destruct (Flush_refused b' t t' ino i _ _ err Hb' ltac:(done) Hfull Hw) as (h' & Hfl).
  exists (after_flush b' h'). unfold bind, attempt. rewrite Hfl. split_and!; [done | done |].
  exact (bu_data _ _ _ _ _ Hb').
Qed.
End block_props.

(** The backend in memory returns the array it keeps, and a block that takes a
    whole block over clears that array when it is destroyed: to read a block and
    to let go of it, as a buffer does that runs out of tokens, turns the stored
    block into zeros. *)
Theorem Destroy_clears_storage (t : MemStorageBackend) key d a B :
  backed t !! key = Some d -> array_of (arrays t) !! key = Some a -> key_of a t = Some key -> Z.of_nat (length d) = B ->
  exists b1 b2 t', Cache (NewMemBlock key B, t) = (Ok tt, (b1, t)) /\ Destroy (b1, t) = (Ok tt, (b2, t')) /\
    sb_Read key t' = (Ok (replicate (length d) x00), t').
Proof.
  intros Hd Ha Hk Hl. unfold NewMemBlock, new_block. destruct (NewIntervalList_rep []) as (Li & h & E & _). rewrite E.
  eexists (mkMemBlock B B 0 key None false false None false Li h (Some a)), _, _. split; [|split].
  - unfold Cache, bind at 1, _doCache, bind at 1, get_block, gets. cbn [fst b_key]. unfold bind at 1, attempt, on_storage.
    cbn [fst snd sb_Read MemStorageBackend_backend]. unfold mem_Read, bind at 1, gets, Datatypes.id. rewrite Hd. cbn [ret blockSize].
    rewrite Hl, Z.eqb_refl. unfold bind, modify. cbn [fst snd sb_Array MemStorageBackend_backend]. rewrite Ha. unfold set_block, modify.
    cbn [fst snd]. by rewrite bool_decide_false.
  - unfold Destroy, bind, get_block, gets, modify, free_bytes. cbn [fst snd closed shared]. reflexivity.
  - cbn. unfold mem_Peek, mem_Poke. rewrite Hk, Hd. unfold mem_Read, bind, gets, Datatypes.id. cbn. by rewrite lookup_insert_eq.
Qed.

(** * Witnesses *)

(** A backend with one block. *)
Definition stored4 : MemStorageBackend := (mem_Write 3 (NewBlockKey 1 0) [x01; x02; x03; x04] (NewMemStorageBackend 4)).2.
Lemma Destroy_clears_storage_witness :
  exists b1 b2 t', Cache (NewMemBlock (NewBlockKey 1 0) 4, stored4) = (Ok tt, (b1, stored4)) /\
    Destroy (b1, stored4) = (Ok tt, (b2, t')) /\ sb_Read (NewBlockKey 1 0) t' = (Ok [x00; x00; x00; x00], t').
Proof. by apply (Destroy_clears_storage stored4 (NewBlockKey 1 0) [x01; x02; x03; x04] 0 4). Defined.

Definition block4 : MemBlock := NewMemBlockForWrite (NewBlockKey 1 0) 4.
Definition never : error -> bool := fun _ => false.

Lemma block4_buffered : buffered block4 1 0 [] (zeros 4).
Proof. by apply new_buffered. Qed.

Lemma MemBlock_implements_witness :
  exists b', WriteAt never [x07] 2 (block4, NewMemStorageBackend 4) = (Ok (1, None), (b', NewMemStorageBackend 4)) /\
    buffered b' 1 0 [(2, 3)] [x00; x00; x07; x00].
Proof.
  destruct (MemBlock_implements never block4 (NewMemStorageBackend 4) 1 0 [] (zeros 4) block4_buffered) as (_ & Hw & _).
  destruct (Hw [x07] 2 ltac:(cbn; lia) ltac:(discriminate)) as (b' & Hb & _ & Hrun & _).
  exists b'. split; [apply Hrun; reflexivity | exact Hb].
Defined.

(** Two bytes written twice bring the count to the size of the block. *)
Definition rewritten : MemBlock * MemStorageBackend :=
  run_op never (OpWrite [x03; x04] 0) (run_op never (OpWrite [x01; x02] 0) (block4, NewMemStorageBackend 4)).

Lemma flushed_block_loses_writes_witness :
  backed rewritten.2 !! NewBlockKey 1 0 = Some [x03; x04; x00; x00] /\
  (foldl (fun s o => run_op never o s) (rewritten.1, rewritten.2) [OpWrite [x09] 3; OpFlush]).2 = rewritten.2.
Proof.
  split; [vm_compute; reflexivity|].
  apply (flushed_block_loses_writes never rewritten.1 rewritten.2 [OpWrite [x09] 3; OpFlush]); vm_compute; reflexivity.
Defined.

(** A block of one byte and a gateway that knows no nodes. *)
Lemma full_write_error_dropped_witness :
  exists b', WriteAt (SB := backend2) never [x07] 0 (NewMemBlockForWrite (NewBlockKey 2 0) 1, started2) =
    (Ok (1, None), (b', started2)) /\ flushed b' = true.
Proof.
  destruct (full_write_error_dropped (SB := backend2) never (NewMemBlockForWrite (NewBlockKey 2 0) 1) started2 started2
    2 0 [] (zeros 1) [x07] 0 ErrNoSuchNode) as (b' & Hrun & Hf & _).
  - by apply new_buffered.
  - split; reflexivity.
  - discriminate.
  - vm_compute. discriminate.
  - vm_compute. reflexivity.
  - reflexivity.
  - exists b'. split; [exact Hrun | exact Hf].
Defined.
