(* ===== verification/FileBlock.v ===== *)
(** The swap file of a client, src/pkg/hugofs/vfs/buffer/block/block_file.go, with
    the pages it is made of (buffer/page/page_file.go) and the limit on their
    number (vfs/meta/page.go): blocks of one file whose bytes are in pages of a
    temporary file, and which are flushed and evicted when the pages run out. *)
From Stdlib Require Import Ascii Strings.Byte ZArith Lia.
From stdpp Require Import prelude gmap strings list list_numbers.
From S2P Require Import Prelude Store Hash SlotPool FreeList Interval IntervalProps Volume StorageBackend MemBlock.

Open Scope Z_scope.

(** * Page contexts *)

(** [counter] is the number of pages in use by all swap files that share the
    context; the zero page has [ctx_pageSize] bytes. *)
Record PageContext := mkPageContext { cacheSize : Z; ctx_pageSize : Z; counter : Z; ctx_limit : Z }.

(** A page size of 0 is a division by zero. *)
Definition NewPageContext (cacheSize pageSize : Z) : option PageContext :=
  if pageSize =? 0 then None else Some (mkPageContext cacheSize pageSize 0 (Z.quot cacheSize pageSize)).

Definition with_counter (n : Z) (c : PageContext) : PageContext :=
  mkPageContext (cacheSize c) (ctx_pageSize c) n (ctx_limit c).
Definition Incr (c : PageContext) : PageContext := with_counter (counter c + 1) c.
Definition Dec (c : PageContext) : PageContext := with_counter (counter c - 1) c.
Definition GetZeroPage (c : PageContext) : list byte := zeros (ctx_pageSize c).
Definition ctx_IsFull (c : PageContext) : bool := counter c =? ctx_limit c.

(** * Files of the operating system *)

Definition ErrClosed : error := ErrOther "file already closed".

(** The temporary file: its bytes, and whether it was closed.  Writing to it does
    not fail for want of space. *)
Record os_File := mkFile { bytes : list byte; file_closed : bool }.

(** Bytes between the end of the file and the place written to become zeros. *)
Definition file_put (f p : list byte) (off : nat) : list byte :=
  match p with
  | [] => f
  | _ => take off f ++ replicate (off - length f) x00 ++ p ++ drop (off + length p) f
  end.

(** A read that reaches the end of the file returns what is there and EOF. *)
Definition file_get (f : list byte) (n off : nat) : list byte := take n (drop off f).

(** * Pages *)

Record FilePage := mkFilePage { offsetInFile : Z; cap : Z; fp_size : Z }.
Definition NewFilePage (offsetInFile cap : Z) : FilePage := mkFilePage offsetInFile cap 0.
Definition SetSize (n : Z) (fp : FilePage) : FilePage := mkFilePage (offsetInFile fp) (cap fp) n.
Definition IsComplete (fp : FilePage) : bool := cap fp <=? fp_size fp.

(** The pages of a block in the order of their index (a skip list). *)
Definition pages_t := list (Z * FilePage).
Fixpoint page_Load (idx : Z) (l : pages_t) : option FilePage :=
  match l with
  | [] => None
  | (i, fp) :: l => if i =? idx then Some fp else page_Load idx l
  end.
Fixpoint page_Store (idx : Z) (fp : FilePage) (l : pages_t) : pages_t :=
  match l with
  | [] => [(idx, fp)]
  | (i, old) :: l =>
      if i =? idx then (idx, fp) :: l
      else if idx <? i then (idx, fp) :: (i, old) :: l
      else (i, old) :: page_Store idx fp l
  end.

(** * Blocks and the swap file *)

(** The place of a block in the heap ([index]) and its last use are never read. *)
Record FileBlock := mkFileBlock {
  key : BlockKey;
  blockSize : Z;
  pageSize : Z;
  highOff : Z;
  written : Z;
  f_err : option error;
  pages : pages_t;
  interval : IntervalList;
  cells_of : list Interval;
  flushed : bool;
  closed : bool }.

Definition with_high_written (h w : Z) (b : FileBlock) : FileBlock :=
  mkFileBlock (key b) (blockSize b) (pageSize b) h w (f_err b) (pages b) (interval b) (cells_of b) (flushed b) (closed b).
Definition with_err (e : option error) (b : FileBlock) : FileBlock :=
  mkFileBlock (key b) (blockSize b) (pageSize b) (highOff b) (written b) e (pages b) (interval b) (cells_of b) (flushed b) (closed b).
Definition with_pages (l : pages_t) (b : FileBlock) : FileBlock :=
  mkFileBlock (key b) (blockSize b) (pageSize b) (highOff b) (written b) (f_err b) l (interval b) (cells_of b) (flushed b) (closed b).
Definition with_cells (h : list Interval) (b : FileBlock) : FileBlock :=
  mkFileBlock (key b) (blockSize b) (pageSize b) (highOff b) (written b) (f_err b) (pages b) (interval b) h (flushed b) (closed b).
Definition with_flushed (x : bool) (b : FileBlock) : FileBlock :=
  mkFileBlock (key b) (blockSize b) (pageSize b) (highOff b) (written b) (f_err b) (pages b) (interval b) (cells_of b) x (closed b).
Definition with_closed (b : FileBlock) : FileBlock :=
  mkFileBlock (key b) (blockSize b) (pageSize b) (highOff b) (written b) (f_err b) (pages b) (interval b) (cells_of b) (flushed b) true.

Definition fresh_block (key : BlockKey) (size psize : Z) : FileBlock :=
  match NewIntervalList [] with
  | (Ok L, h) => mkFileBlock key size psize 0 0 None [] L h false false
  | (_, h) => mkFileBlock key size psize 0 0 None [] (mkIntervalList 0 0) h false false
  end.

Definition totalWritten (b : FileBlock) : Z := foldr (fun x n => fp_size x.2 + n) 0 (pages b).

(** [InUsedPages] grows when a page is freed, too. *)
Record FileUsage := mkFileUsage { Size : Z; InUsedPages : Z; ActiveBlocks : gset BlockKey; EvictCount : Z }.
Definition newFileUsage : FileUsage := mkFileUsage 0 0 ∅ 0.
Definition TrackBlock (k : BlockKey) (u : FileUsage) : FileUsage :=
  mkFileUsage (Size u) (InUsedPages u) ({[k]} ∪ ActiveBlocks u) (EvictCount u).
Definition UntrackBlock (k : BlockKey) (u : FileUsage) : FileUsage :=
  mkFileUsage (Size u) (InUsedPages u) (ActiveBlocks u ∖ {[k]}) (EvictCount u).
Definition IncrEvict (u : FileUsage) : FileUsage :=
  mkFileUsage (Size u) (InUsedPages u) (ActiveBlocks u) (EvictCount u + 1).
Definition IncrUsedPages (u : FileUsage) : FileUsage :=
  mkFileUsage (Size u) (InUsedPages u + 1) (ActiveBlocks u) (EvictCount u).
Definition DecUsedPages (u : FileUsage) : FileUsage :=
  mkFileUsage (Size u) (InUsedPages u + 1) (ActiveBlocks u) (EvictCount u).
Definition with_Size (n : Z) (u : FileUsage) : FileUsage :=
  mkFileUsage n (InUsedPages u) (ActiveBlocks u) (EvictCount u).

(** A swap file with the blocks it made, by their address, the evictions its
    executor was given and has not finished, and what it shares with others: the
    page context and the storage backend. *)
Record Swap (T : Type) := mkSwap {
  sf_blockSize : Z;
  sf_pageSize : Z;
  sf_limit : nat;
  objs : list FileBlock;
  blocks : list nat;
  lookup : gmap BlockKey nat;
  freePageList : FreeListG Z;
  usage : FileUsage;
  jobs : list nat;
  file : option os_File;
  sf_closed : bool;
  pageCtx : PageContext;
  storage : T }.
Arguments mkSwap {T}.
Arguments sf_blockSize {T}. Arguments sf_pageSize {T}. Arguments sf_limit {T}.
Arguments objs {T}. Arguments blocks {T}. Arguments lookup {T}. Arguments freePageList {T}.
Arguments usage {T}. Arguments jobs {T}. Arguments file {T}. Arguments sf_closed {T}.
Arguments pageCtx {T}. Arguments storage {T}.

Section setters.
Context {T : Type}.
Implicit Types s : Swap T.
Definition with_objs l s := mkSwap (sf_blockSize s) (sf_pageSize s) (sf_limit s) l (blocks s) (lookup s)
  (freePageList s) (usage s) (jobs s) (file s) (sf_closed s) (pageCtx s) (storage s).
Definition with_blocks l s := mkSwap (sf_blockSize s) (sf_pageSize s) (sf_limit s) (objs s) l (lookup s)
  (freePageList s) (usage s) (jobs s) (file s) (sf_closed s) (pageCtx s) (storage s).
Definition with_lookup m s := mkSwap (sf_blockSize s) (sf_pageSize s) (sf_limit s) (objs s) (blocks s) m
  (freePageList s) (usage s) (jobs s) (file s) (sf_closed s) (pageCtx s) (storage s).
Definition with_freePageList l s := mkSwap (sf_blockSize s) (sf_pageSize s) (sf_limit s) (objs s) (blocks s) (lookup s)
  l (usage s) (jobs s) (file s) (sf_closed s) (pageCtx s) (storage s).
Definition with_usage u s := mkSwap (sf_blockSize s) (sf_pageSize s) (sf_limit s) (objs s) (blocks s) (lookup s)
  (freePageList s) u (jobs s) (file s) (sf_closed s) (pageCtx s) (storage s).
Definition with_jobs l s := mkSwap (sf_blockSize s) (sf_pageSize s) (sf_limit s) (objs s) (blocks s) (lookup s)
  (freePageList s) (usage s) l (file s) (sf_closed s) (pageCtx s) (storage s).
Definition with_file f s := mkSwap (sf_blockSize s) (sf_pageSize s) (sf_limit s) (objs s) (blocks s) (lookup s)
  (freePageList s) (usage s) (jobs s) f (sf_closed s) (pageCtx s) (storage s).
Definition with_sf_closed s := mkSwap (sf_blockSize s) (sf_pageSize s) (sf_limit s) (objs s) (blocks s) (lookup s)
  (freePageList s) (usage s) (jobs s) (file s) true (pageCtx s) (storage s).
Definition with_pageCtx c s := mkSwap (sf_blockSize s) (sf_pageSize s) (sf_limit s) (objs s) (blocks s) (lookup s)
  (freePageList s) (usage s) (jobs s) (file s) (sf_closed s) c (storage s).
Definition with_storage (T' : Type) (t : T') s : Swap T' := mkSwap (sf_blockSize s) (sf_pageSize s) (sf_limit s) (objs s) (blocks s)
  (lookup s) (freePageList s) (usage s) (jobs s) (file s) (sf_closed s) (pageCtx s) t.
End setters.
Arguments with_storage {T T'}.

(** ** The heap of blocks, the one with most written bytes first *)

Definition total_at (objs : list FileBlock) (l : list nat) (i : nat) : Z :=
  match l !! i with
  | Some id => match objs !! id with Some b => totalWritten b | None => 0 end
  | None => 0
  end.
Definition heap_Less (objs : list FileBlock) (l : list nat) (i j : nat) : bool :=
  total_at objs l j <? total_at objs l i.
Definition heap_Swap (l : list nat) (i j : nat) : list nat :=
  match l !! i, l !! j with Some a, Some b => <[i := b]> (<[j := a]> l) | _, _ => l end.

(** [up] of container/heap; the index at least halves in each round. *)
Fixpoint heap_up (fuel : nat) (objs : list FileBlock) (l : list nat) (j : nat) : list nat :=
  match fuel with
  | O => l
  | S fuel =>
      let i := ((j - 1) / 2)%nat in
      if (i =? j)%nat || negb (heap_Less objs l j i) then l else heap_up fuel objs (heap_Swap l i j) i
  end.
Definition heap_Push (objs : list FileBlock) (l : list nat) (id : nat) : list nat :=
  heap_up (S (length l)) objs (l ++ [id]) (length l).

(** [sort.SliceStable] by written bytes, the most first. *)
Fixpoint insert_stable (objs : list FileBlock) (id : nat) (l : list nat) : list nat :=
  match l with
  | [] => [id]
  | y :: l' => if total_at objs [id] 0 <? total_at objs [y] 0 then y :: insert_stable objs id l' else id :: l
  end.
Definition sort_stable (objs : list FileBlock) (l : list nat) : list nat := foldr (insert_stable objs) [] l.

Fixpoint remove_first (id : nat) (l : list nat) : list nat :=
  match l with
  | [] => []
  | x :: l => if (x =? id)%nat then l else x :: remove_first id l
  end.

(** * Operations *)

Section file_block.
Context {T : Type} {SB : StorageBackend T}.
(** Whether the text of an error contains block already exists. *)
Context (already_exists : error -> bool).

Abbreviation SM A := (M (Swap T) fault A).

Definition get_blk (id : nat) : SM FileBlock :=
  s <- gets Datatypes.id ;; match objs s !! id with Some b => ret b | None => go_panic end.
Definition set_blk (id : nat) (f : FileBlock -> FileBlock) : SM unit :=
  modify (fun s => with_objs (alter f id (objs s)) s).
Definition on_backend {A} (m : M T fault A) : SM A := fun s =>
  let '(r, t) := m (storage s) in (r, with_storage t s).
(** A call on the interval list of a block. *)
Definition on_ivs {A} (id : nat) (m : IntervalList -> M (T * list Interval) fault A) : SM A := fun s =>
  match objs s !! id with
  | Some b =>
      let '(r, (t, h)) := m (interval b) (storage s, cells_of b) in
      (r, with_storage t (with_objs (<[id := with_cells h b]> (objs s)) s))
  | None => (Panic, s)
  end.
Definition attempting {A} (m : SM A) : SM (A + error) := fun s =>
  match m s with
  | (Ok a, s') => (Ok (inl a), s')
  | (Err (Fails e), s') => (Ok (inr e), s')
  | (Err Blocked, s') => (Err Blocked, s')
  | (Panic, s') => (Panic, s')
  end.

(** ** Pages of the file *)

(** [os.File.WriteAt] and [ReadAt] with the count and the error; the file of a
    block that was made is open or was closed. *)
Definition file_WriteAt (p : list byte) (off : Z) : SM (Z * option error) :=
  s <- gets Datatypes.id ;;
  match file s with
  | None => go_panic
  | Some f =>
      if file_closed f then ret (0, Some ErrClosed)
      else if off <? 0 then ret (0, Some (ErrOther "negative offset"))
      else
        modify (with_file (Some (mkFile (file_put (bytes f) p (Z.to_nat off)) false))) ;;;
        ret (Z.of_nat (length p), None)
  end.
Definition file_ReadAt (n off : Z) : SM (list byte * option error) :=
  s <- gets Datatypes.id ;;
  match file s with
  | None => go_panic
  | Some f =>
      if file_closed f then ret ([], Some ErrClosed)
      else if off <? 0 then ret ([], Some (ErrOther "negative offset"))
      else
        let r := file_get (bytes f) (Z.to_nat n) (Z.to_nat off) in
        ret (r, if Z.of_nat (length r) <? n then Some EOF else None)
  end.

(** The size grows by the end of each write. *)
Definition page_WriteAt (fp : FilePage) (p : list byte) (off : Z) : SM (Z * option error * FilePage) :=
  let expectN := Z.min (cap fp - off) (Z.of_nat (length p)) in
  if expectN <? 0 then go_panic else
  r <- file_WriteAt (take (Z.to_nat expectN) p) (offsetInFile fp + off) ;;
  ret (r, SetSize (fp_size fp + (r.1 + off)) fp).
(** Reading at most [n] bytes. *)
Definition page_ReadAt (fp : FilePage) (n off : Z) : SM (list byte * option error) :=
  let expectN := Z.min (fp_size fp - off) n in
  if expectN <? 0 then go_panic else file_ReadAt expectN (offsetInFile fp + off).
Definition page_Free (fp : FilePage) : SM FilePage :=
  s <- gets Datatypes.id ;;
  file_WriteAt (GetZeroPage (pageCtx s)) (offsetInFile fp) ;;;
  ret (SetSize 0 fp).

(** ** The swap file *)

(** Waits while there are [limit] pages. *)
Definition AcquireOffset : SM Z :=
  s <- gets Datatypes.id ;;
  if ctx_limit (pageCtx s) <=? counter (pageCtx s) then throw Blocked else
  off <- NewWith freePageList with_freePageList (fun s =>
           (Ok (Size (usage s)), with_usage (with_Size (Size (usage s) + sf_pageSize s) (usage s)) s)) ;;
  modify (fun s => with_pageCtx (Incr (pageCtx s)) s) ;;;
  ret off.

(** Hands a block to the executor, which runs at most [sf_limit] jobs at once. *)
Definition evict (id : nat) : SM unit :=
  b <- get_blk id ;;
  modify (fun s => with_usage (UntrackBlock (key b) (usage s)) (with_lookup (delete (key b) (lookup s)) s)) ;;;
  s <- gets Datatypes.id ;;
  if (sf_limit s <=? length (jobs s))%nat then throw Blocked else
  modify (fun s => with_jobs (jobs s ++ [id]) s).

Fixpoint evict_first (n : nat) (l : list nat) : SM unit :=
  match n with
  | O => ret tt
  | S n => match l with
           | [] => go_panic
           | id :: l => evict id ;;; evict_first n l
           end
  end.

(** When all pages are taken the tenth of the blocks with most bytes goes; they
    stay in the list of blocks. *)
Definition OccupyPage : SM unit :=
  modify (fun s => with_usage (IncrUsedPages (usage s)) s) ;;;
  s <- gets Datatypes.id ;;
  if ctx_IsFull (pageCtx s) then
    let sorted := sort_stable (objs s) (blocks s) in
    modify (with_blocks sorted) ;;;
    evict_first (length sorted / 10 + 1)%nat sorted
  else ret tt.

Definition freePage (pageStart : Z) : SM unit :=
  modify (fun s => with_pageCtx (Dec (pageCtx s))
    (with_usage (DecUsedPages (usage s)) (with_freePageList (Free pageStart (freePageList s)).2 s))).

(** [temp] tells whether the temporary file can be made; without one the caller
    gets neither a block nor an error. *)
Definition NewFileBlock (temp : bool) (k : BlockKey) : SM (option nat) :=
  s <- gets Datatypes.id ;;
  match file s, temp with
  | None, false => ret None
  | _, _ =>
      modify (fun s => with_file (Some (default (mkFile [] false) (file s))) s) ;;;
      s <- gets Datatypes.id ;;
      let id := length (objs s) in
      let objs' := objs s ++ [fresh_block k (sf_blockSize s) (sf_pageSize s)] in
      modify (with_objs objs') ;;;
      modify (fun s => with_blocks (heap_Push objs' (blocks s) id) s) ;;;
      modify (fun s => with_usage (TrackBlock k (usage s)) (with_lookup (<[k := id]> (lookup s)) s)) ;;;
      ret (Some id)
  end.

Definition GetBlock (k : BlockKey) : SM (option nat) := gets (fun s => lookup s !! k).

(** ** Blocks *)

(** The page with that index, a new one when there is none. *)
Definition page_at (id : nat) (pageIdx : Z) : SM FilePage :=
  b <- get_blk id ;;
  match page_Load pageIdx (pages b) with
  | Some fp => ret fp
  | None =>
      OccupyPage ;;;
      offset <- AcquireOffset ;;
      let fp := NewFilePage offset (pageSize b) in
      set_blk id (fun b => with_pages (page_Store pageIdx fp (pages b)) b) ;;;
      ret fp
  end.

(** Each round writes at least one byte, so as many rounds as bytes are enough. *)
Fixpoint write_pages (fuel : nat) (id : nat) (p : list byte) (pageIdx off n : Z) : SM (Z * option error) :=
  match fuel with
  | O => match p with [] => ret (n, None) | _ => throw Blocked end
  | S fuel =>
      match p with
      | [] => ret (n, None)
      | _ =>
          b <- get_blk id ;;
          let psize := pageSize b in
          let pageOff := Z.rem off psize in
          let expectN := Z.min (Z.of_nat (length p)) ((pageIdx + 1) * psize - off) in
          fp <- page_at id pageIdx ;;
          if expectN <? 0 then go_panic else
          r <- page_WriteAt fp (take (Z.to_nat expectN) p) pageOff ;;
          let '(actualN, err, fp) := r in
          set_blk id (fun b => with_pages (page_Store pageIdx fp (pages b)) b) ;;;
          match err with
          | Some e => ret (n, Some e)
          | None => write_pages fuel id (drop (Z.to_nat actualN) p) (pageIdx + 1) (off + actualN) (n + actualN)
          end
      end
  end.
Definition writeToPage (id : nat) (p : list byte) (off : Z) : SM (Z * option error) :=
  b <- get_blk id ;;
  if pageSize b =? 0 then go_panic else
  write_pages (length p) id p (Z.quot off (pageSize b)) off 0.

(** The pages one after another into the buffer of a flush, until one is empty or
    cannot be read; the bytes read so far and the error. *)
Fixpoint collect (size : Z) (l : pages_t) (buffer : list byte) : SM (list byte * option error) :=
  match l with
  | [] => ret (buffer, None)
  | (_, fp) :: l =>
      r <- page_ReadAt fp (size - Z.of_nat (length buffer)) 0 ;;
      match r with
      | (_, Some e) => ret (buffer, Some e)
      | ([], None) => ret (buffer, None)
      | (d, None) => collect size l (buffer ++ d)
      end
  end.

Definition doFlush (id : nat) : SM unit :=
  b <- get_blk id ;;
  if flushed b || (written b =? 0) then ret tt else
  r <- collect (blockSize b) (pages b) [] ;;
  let '(d, err) := r in
  match err with
  | Some e => if bool_decide (e = EOF) then ret tt else throw (Fails e)
  | None => ret tt
  end ;;;
  let buffer := d ++ zeros (blockSize b - Z.of_nat (length d)) in
  on_ivs id (fun L => on_list (Merge L)) ;;;
  total <- on_ivs id (fun L => on_list (Total L)) ;;
  (if total =? blockSize b then
     attempting (on_backend (sb_Write (key b) buffer)) ;;; ret tt
   else
     r <- attempting (on_ivs id (fun L => sb_WriteAt (key b) L buffer)) ;;
     match r with
     | inr e => if already_exists e then ret tt else throw (Fails e)
     | inl _ => ret tt
     end) ;;;
  set_blk id (fun b => with_high_written (highOff b) 0 (with_flushed true b)).

Definition Flush (id : nat) : SM unit :=
  b <- get_blk id ;;
  if flushed b then ret tt else doFlush id.

Definition WriteAt (id : nat) (p : list byte) (off : Z) : SM (Z * option error) :=
  b <- get_blk id ;;
  let '(_, index) := key_Split (key b) in
  let blockIdx := to_uint64 (Z.quot off (blockSize b)) in
  if negb (blockIdx =? index)%N then ret (0, Some ErrInvalidWriteOffset) else
  let blockStart := Z.rem off (blockSize b) in
  let blockEnd := Z.min (blockStart + Z.of_nat (length p)) (blockSize b) in
  r <- writeToPage id p off ;;
  let '(n, err) := r in
  match err with
  | Some e => ret (n, Some e)
  | None =>
      on_ivs id (fun L => on_list (i <- NewInterval blockStart blockEnd ;; AddInterval L i)) ;;;
      b <- get_blk id ;;
      let w := written b + n in
      set_blk id (with_high_written (Z.max (highOff b) blockEnd) w) ;;;
      if blockSize b <=? w then
        r <- attempting (doFlush id) ;;
        ret (n, match r with inr e => Some e | inl _ => None end)
      else
        set_blk id (with_flushed false) ;;; ret (n, None)
  end.

(** The error of a destroyed block goes, also when reading fails. *)
Definition _doCache (id : nat) : SM unit :=
  set_blk id (with_flushed true) ;;;
  b <- get_blk id ;;
  r <- attempting (on_backend (sb_Read (key b))) ;;
  match r with
  | inr e => set_blk id (with_err (Some e))
  | inl d =>
      w <- writeToPage id d (Z.of_N (GetIndex (key b)) * blockSize b) ;;
      match w.2 with
      | Some e => set_blk id (with_err (Some e))
      | None => ret tt
      end
  end ;;;
  set_blk id (fun b => if bool_decide (f_err b = Some ErrBlockDestoryed) then with_err None b else b).
Definition Cache (id : nat) : SM unit := _doCache id.
Definition reset (id : nat) : SM unit := _doCache id.

(** A round that reads nothing is repeated for ever, so the loop waits when it has
    had more rounds than there are bytes.  The count, the error and the bytes
    put at the front of the caller's buffer. *)
Fixpoint read_pages (fuel : nat) (id : nat) (len off offLimit : Z) (acc : list byte) : SM (list byte * option error) :=
  if negb ((0 <? len) && (off <? offLimit)) then ret (acc, if 0 <? len then Some EOF else None) else
  match fuel with
  | O => throw Blocked
  | S fuel =>
      b <- get_blk id ;;
      let psize := pageSize b in
      if psize =? 0 then go_panic else
      let pageOff := Z.rem off psize in
      let expectN := Z.min (Z.min (offLimit - off) len) (psize - pageOff) in
      if expectN <? 0 then go_panic else
      match page_Load (Z.quot off psize) (pages b) with
      | None => read_pages fuel id (len - expectN) (off + expectN) offLimit (acc ++ zeros expectN)
      | Some fp =>
          r <- page_ReadAt fp expectN pageOff ;;
          match r with
          | (d, Some _) => ret (acc ++ d, Some EOF)
          | (d, None) =>
              let n := Z.of_nat (length d) in
              read_pages fuel id (len - n) (off + n) offLimit (acc ++ d)
          end
      end
  end.

Definition ReadAt (id : nat) (p : list byte) (off : Z) : SM (Z * option error * list byte) :=
  b <- get_blk id ;;
  let '(_, index) := key_Split (key b) in
  let blockIdx := to_uint64 (Z.quot off (blockSize b)) in
  let offLimit := int64 (to_int (wrap64 (blockIdx + 1)) * blockSize b) in
  if negb (blockIdx =? index)%N then ret (0, Some ErrInvalidReadOffset, p) else
  let loop :=
    r <- read_pages (S (length p)) id (Z.of_nat (length p)) off offLimit [] ;;
    let '(d, err) := r in
    ret (Z.of_nat (length d), err, copy_into p d) in
  match f_err b with
  | Some e =>
      if bool_decide (e = ErrBlockDestoryed) then reset id ;;; loop
      else ret (0, Some e, p)
  | None => loop
  end.

Definition IsFull (id : nat) : SM bool :=
  b <- get_blk id ;;
  total <- on_ivs id (fun L => on_list (Total L)) ;;
  ret (total =? blockSize b).
Definition Written (id : nat) : SM Z := b <- get_blk id ;; ret (written b).
Definition IsDestroyed (id : nat) : SM bool := b <- get_blk id ;; ret (closed b).
Definition Error (id : nat) : SM (option error) := b <- get_blk id ;; ret (f_err b).

Fixpoint free_pages (l : pages_t) : SM unit :=
  match l with
  | [] => ret tt
  | (_, fp) :: l =>
      fp <- page_Free fp ;;
      freePage (offsetInFile fp) ;;;
      free_pages l
  end.

(** Closing runs the function once; what goes wrong with the flush is logged. *)
Definition Destroy (id : nat) : SM unit :=
  b <- get_blk id ;;
  if closed b then ret tt else
  attempting (doFlush id) ;;;
  b <- get_blk id ;;
  set_blk id (with_pages []) ;;;
  free_pages (pages b) ;;;
  set_blk id (with_err (Some ErrBlockDestoryed)) ;;;
  set_blk id with_closed.

(** The job of the executor for an evicted block. *)
Definition run_eviction (id : nat) : SM unit :=
  Destroy id ;;;
  modify (fun s => with_usage (IncrEvict (usage s)) s) ;;;
  modify (fun s => with_jobs (remove_first id (jobs s)) s).

(** The blocks from the end of the list. *)
Fixpoint destroy_all (l : list nat) : SM unit :=
  match l with
  | [] => ret tt
  | id :: l =>
      b <- get_blk id ;;
      modify (fun s => with_usage (IncrEvict (UntrackBlock (key b) (usage s))) (with_lookup (delete (key b) (lookup s)) s)) ;;;
      Destroy id ;;;
      destroy_all l
  end.
Definition FreeResource : SM unit :=
  s <- gets Datatypes.id ;;
  if sf_closed s then ret tt else
  match file s with
  | Some f =>
      modify (with_blocks []) ;;;
      destroy_all (reverse (blocks s)) ;;;
      modify (with_file (Some (mkFile [] true)))
  | None => ret tt
  end ;;;
  modify with_sf_closed.
End file_block.

(** A page is at most as large as a block. *)
Definition NewSwapFile {T} (BlockSize PageSize : Z) (Limit : nat) (ctx : PageContext) (storage : T) : Swap T :=
  mkSwap BlockSize (if BlockSize <? PageSize then BlockSize else PageSize) Limit [] [] ∅
    NewFreeListUnboundG newFileUsage [] None false ctx storage.
