(* ===== verification/FileBlockProps.v ===== *)
(** What the swap file of a client guarantees: the pages of its blocks never share
    a place in the file, so that no operation on one block changes the bytes of
    another, and a block written page by page reads back and is flushed as it was
    written; and what happens to a page that is written more than once. *)
From Stdlib Require Import Ascii Strings.Byte ZArith Lia.
From stdpp Require Import prelude gmap strings list list_numbers sorting.
From S2P Require Import Prelude Store Hash SlotPool FreeList Interval IntervalProps Volume StorageBackend MemBlock FileBlock.

Open Scope Z_scope.

(** * Bytes of a file *)

Definition byte_at (f : list byte) (x : nat) : byte := default x00 (f !! x).

Lemma byte_at_put f p off x :
  byte_at (file_put f p off) x =
    if decide (off <= x < off + length p)%nat then byte_at p (x - off) else byte_at f x.
Proof.
  unfold byte_at, file_put. destruct p as [|a p'] eqn:Ep; [destruct (decide _) as [H|H]; [cbn in H; lia | done]|].
  rewrite <- Ep in *. clear Ep a p'. set (pre := take off f ++ replicate (off - length f) x00).
  rewrite app_assoc. fold pre.
  assert (Hpre : length pre = off) by (unfold pre; rewrite length_app, length_take, length_replicate; lia).
  destruct (decide _) as [H|H].
  - rewrite lookup_app_r, lookup_app_l by lia. by rewrite Hpre.
  - destruct (decide (x < off)%nat).
    + rewrite lookup_app_l by lia. unfold pre. destruct (decide (x < length f)%nat).
      * rewrite lookup_app_l, lookup_take_lt by (rewrite ?length_take; lia). done.
      * rewrite lookup_app_r by (rewrite length_take; lia).
        rewrite lookup_replicate_2 by (rewrite length_take; lia). by rewrite (lookup_ge_None_2 f) by lia.
    + rewrite !lookup_app_r by lia. rewrite lookup_drop, Hpre. do 2 f_equal. lia.
Qed.

Lemma length_put f p off : p <> [] -> length (file_put f p off) = Nat.max (length f) (off + length p).
Proof.
  intros Hp. unfold file_put. destruct p as [|a p'] eqn:Ep; [done|]. rewrite <- Ep in *.
  rewrite !length_app, length_take, length_replicate, length_drop. lia.
Qed.

Lemma file_get_bytes f n off : (off + n <= length f)%nat -> file_get f n off = byte_at f <$> seq off n.
Proof.
  intros H. unfold file_get. apply list_eq. intros k. destruct (decide (k < n)%nat).
  - rewrite lookup_take_lt, lookup_drop, list_lookup_fmap, lookup_seq_lt by lia. cbn. unfold byte_at.
    destruct (lookup_lt_is_Some_2 f (off + k)) as [b ->]; [lia | done].
  - rewrite !lookup_ge_None_2; [done | rewrite length_fmap, length_seq; lia | rewrite length_take; lia].
Qed.

(** * Pages of a block *)

Definition places (l : pages_t) : list Z := (fun x => offsetInFile x.2) <$> l.
Definition sorted_pages (l : pages_t) : Prop := StronglySorted Z.lt (fst <$> l).

Lemma page_Load_In idx l fp : page_Load idx l = Some fp -> (idx, fp) ∈ l.
Proof.
  induction l as [|[i x] l IH]; cbn; [done|]. destruct (Z.eqb_spec i idx) as [->|]; [intros [= ->]; left|]. intros. right. auto.
Qed.

Lemma page_Store_new idx fp l : page_Load idx l = None -> page_Store idx fp l ≡ₚ (idx, fp) :: l.
Proof.
  induction l as [|[i x] l IH]; cbn; [done|]. destruct (Z.eqb_spec i idx); [done|]. intros H.
  destruct (idx <? i); [done|]. rewrite IH by done. by rewrite Permutation_swap.
Qed.

Lemma page_Load_Store idx fp l j :
  page_Load j (page_Store idx fp l) = if j =? idx then Some fp else page_Load j l.
Proof.
  induction l as [|[i x] l IH]; cbn.
  - rewrite (Z.eqb_sym j). by destruct (idx =? j).
  - destruct (Z.eqb_spec i idx) as [->|Hne]; cbn.
    + rewrite (Z.eqb_sym j). by destruct (idx =? j).
    + destruct (Z.ltb_spec idx i); cbn.
      * rewrite (Z.eqb_sym j). by destruct (idx =? j).
      * rewrite IH. destruct (Z.eqb_spec i j) as [->|]; [|done]. by rewrite (proj2 (Z.eqb_neq j idx)).
Qed.

(** A page that is there already changes in its place. *)
Lemma page_Store_old idx fp fp' l :
  sorted_pages l -> page_Load idx l = Some fp ->
  exists l1 l2, l = l1 ++ (idx, fp) :: l2 /\ page_Store idx fp' l = l1 ++ (idx, fp') :: l2.
Proof.
  unfold sorted_pages. induction l as [|[i x] l IH]; cbn; [done|]. intros Hs. apply StronglySorted_inv in Hs as [Hs Hi].
  destruct (Z.eqb_spec i idx) as [->|Hne].
  - intros [= ->]. exists [], l. done.
  - intros Hl. pose proof (page_Load_In _ _ _ Hl) as Hin.
    assert (i < idx). { rewrite Forall_forall in Hi. apply Hi. apply list_elem_of_fmap. by exists (idx, fp). }
    rewrite (proj2 (Z.ltb_ge _ _)) by lia. destruct (IH Hs Hl) as (l1 & l2 & -> & E). exists ((i, x) :: l1), l2. by rewrite E.
Qed.

Lemma page_Store_sorted idx fp l : sorted_pages l -> sorted_pages (page_Store idx fp l).
Proof.
  unfold sorted_pages. induction l as [|[i x] l IH]; cbn; intros Hs; [repeat constructor|].
  apply StronglySorted_inv in Hs as [Hs Hi]. destruct (Z.eqb_spec i idx) as [->|Hne]; cbn; [by constructor|].
  destruct (Z.ltb_spec idx i); cbn.
  - constructor; [by constructor|]. constructor; [lia|]. eapply Forall_impl; [exact Hi|]. cbn. lia.
  - constructor; [by apply IH|]. apply Forall_forall. intros k Hk. apply list_elem_of_fmap in Hk as ([k' y] & -> & Hk). cbn.
    destruct (page_Load idx l) as [old|] eqn:E.
    + destruct (page_Store_old idx old fp l Hs E) as (l1 & l2 & -> & E'). rewrite E' in Hk. rewrite Forall_forall in Hi.
      destruct (decide (k' = idx)) as [->|]; [lia|]. apply Hi. apply list_elem_of_fmap. exists (k', y). split; [done|].
      apply elem_of_app in Hk as [Hk|Hk]; [by apply elem_of_app; left|]. apply elem_of_cons in Hk as [Hk|Hk]; [congruence|].
      apply elem_of_app. right. by right.
    + rewrite (page_Store_new idx fp l E) in Hk. apply elem_of_cons in Hk as [[= -> ->]|Hk]; [lia|].
      rewrite Forall_forall in Hi. apply Hi. apply list_elem_of_fmap. by exists (k', y).
Qed.

(** * The invariant of the swap file *)

Section swap_inv.
Context {T : Type}.
Implicit Types s : Swap T.

(** The places in the file that are free or belong to a page of a block. *)
Definition obj_places (l : list FileBlock) : list Z := l ≫= (fun b => places (pages b)).
Definition held s : list Z := freelist (freePageList s) ++ obj_places (objs s).

Definition placed s (o : Z) : Prop := 0 <= o /\ o + sf_pageSize s <= Size (usage s) /\ (sf_pageSize s | o).
Definition block_wf s (b : FileBlock) : Prop :=
  0 <= blockSize b /\ pageSize b = sf_pageSize s /\ sorted_pages (pages b) /\ Forall (fun x => cap x.2 = sf_pageSize s) (pages b).

Record swap_wf s : Prop := {
  wf_page : 0 < sf_pageSize s;
  wf_blockSize : 0 <= sf_blockSize s;
  wf_zero : ctx_pageSize (pageCtx s) <= sf_pageSize s;
  wf_free : FreeList.size (freePageList s) = 0%nat;
  wf_blocks : Forall (block_wf s) (objs s);
  wf_apart : NoDup (held s);
  wf_placed : Forall (placed s) (held s);
  wf_Size : 0 <= Size (usage s) /\ (sf_pageSize s | Size (usage s)) }.

Definition sbyte s (x : nat) : byte := match file s with Some f => byte_at (bytes f) x | None => x00 end.

(** Every block but [id] keeps its pages and their bytes. *)
Definition others_keep (id : nat) s s' : Prop :=
  forall id' b, id' <> id -> objs s !! id' = Some b ->
    objs s' !! id' = Some b /\
    forall i fp k, (i, fp) ∈ pages b -> offsetInFile fp <= Z.of_nat k < offsetInFile fp + cap fp -> sbyte s' k = sbyte s k.

Lemma others_keep_refl id s : others_keep id s s.
Proof. by intros id' b _ Hb. Qed.
Lemma others_keep_trans id s1 s2 s3 : others_keep id s1 s2 -> others_keep id s2 s3 -> others_keep id s1 s3.
Proof.
  intros H1 H2 id' b Hne Hb. destruct (H1 id' b Hne Hb) as [Hb2 Hk2]. destruct (H2 id' b Hne Hb2) as [Hb3 Hk3].
  split; [done|]. intros i fp k Hin Hk. rewrite (Hk3 i fp k Hin Hk). by apply (Hk2 i fp).
Qed.

Lemma alter_insert (f : FileBlock -> FileBlock) (l : list FileBlock) id b :
  l !! id = Some b -> alter f id l = <[id := f b]> l.
Proof.
  intros Hb. apply list_eq. intros j. destruct (decide (j = id)) as [->|].
  - rewrite list_lookup_alter_eq, list_lookup_insert_eq, Hb by (by eapply lookup_lt_Some). done.
  - by rewrite list_lookup_alter_ne, list_lookup_insert_ne.
Qed.
Lemma obj_places_split l id b :
  l !! id = Some b -> exists rest, obj_places l ≡ₚ places (pages b) ++ rest /\
    forall b', obj_places (<[id := b']> l) ≡ₚ places (pages b') ++ rest.
Proof.
  intros Hb. unfold obj_places. exists (obj_places (take id l) ++ obj_places (drop (S id) l)).
  split; [|intros b'].
  - rewrite <- (take_drop_middle l id b Hb) at 1. rewrite bind_app. cbn. fold (obj_places (take id l)) (obj_places (drop (S id) l)).
    solve_Permutation.
  - rewrite insert_take_drop by (by eapply lookup_lt_Some). rewrite bind_app. cbn.
    fold (obj_places (take id l)) (obj_places (drop (S id) l)). solve_Permutation.
Qed.

(** A step that leaves pages, places and bytes alone. *)
Definition same_pages s s' : Prop :=
  sf_blockSize s' = sf_blockSize s /\ sf_pageSize s' = sf_pageSize s /\ pageCtx s' = pageCtx s /\ freePageList s' = freePageList s /\
  objs s' = objs s /\ Size (usage s') = Size (usage s) /\ file s' = file s.
Lemma same_pages_wf s s' : same_pages s s' -> swap_wf s -> swap_wf s'.
Proof.
  intros (EQ & EP & EC & EF & EO & ES & EB) [H1 H0 H2 H3 H4 H5 H6 H7].
  assert (Eh : held s' = held s) by (unfold held; by rewrite EF, EO).
  assert (Ep : forall o, placed s' o <-> placed s o) by (intros; unfold placed; by rewrite EP, ES).
  split; rewrite ?EQ, ?EP, ?EC, ?EF, ?EO, ?ES, ?Eh; try done.
  - eapply Forall_impl; [exact H4|]. unfold block_wf. by rewrite EP.
  - eapply Forall_impl; [exact H6|]. intros o. by rewrite Ep.
Qed.
Lemma same_pages_keep id s s' : same_pages s s' -> others_keep id s s'.
Proof. intros (EQ & EP & EC & EF & EO & ES & EB) id' b _ Hb. rewrite EO. unfold sbyte. by rewrite EB. Qed.
Lemma same_pages_refl s : same_pages s s.
Proof. by repeat split. Qed.
Lemma same_pages_trans s1 s2 s3 : same_pages s1 s2 -> same_pages s2 s3 -> same_pages s1 s3.
Proof. unfold same_pages. intuition congruence. Qed.

(** ** Preservation *)

Definition keeps {A} (id : nat) (m : M (Swap T) fault A) : Prop :=
  forall s r s', m s = (r, s') -> swap_wf s -> swap_wf s' /\ others_keep id s s'.

Lemma keeps_intro {A} id s s' (r : A) : swap_wf s -> same_pages s s' -> swap_wf s' /\ others_keep id s s'.
Proof. intros Hw Hs. split; [by eapply same_pages_wf | by apply same_pages_keep]. Qed.

Lemma swap_keeps_ret {A} id (a : A) : keeps id (ret a).
Proof. intros s r s' [= <- <-] Hw. split; [done | apply others_keep_refl]. Qed.
Lemma swap_keeps_throw {A} id e : keeps id (throw (A := A) e).
Proof. intros s r s' [= <- <-] Hw. split; [done | apply others_keep_refl]. Qed.
Lemma keeps_panic {A} id : keeps id (go_panic (A := A)).
Proof. intros s r s' [= <- <-] Hw. split; [done | apply others_keep_refl]. Qed.
Lemma keeps_gets {A} id (f : Swap T -> A) : keeps id (gets f).
Proof. intros s r s' [= <- <-] Hw. split; [done | apply others_keep_refl]. Qed.
Lemma swap_keeps_bind {A B} id (m : M (Swap T) fault A) (k : A -> M (Swap T) fault B) :
  keeps id m -> (forall a, keeps id (k a)) -> keeps id (bind m k).
Proof.
  intros Hm Hk s r s' E Hw. unfold bind in E. destruct (m s) as [[a|e|] s1] eqn:E1.
  - destruct (Hm _ _ _ E1 Hw) as [Hw1 Hk1]. destruct (Hk a _ _ _ E Hw1) as [Hw2 Hk2].
    split; [done|]. by eapply others_keep_trans.
  - injection E as <- <-. by apply (Hm _ _ _ E1).
  - injection E as <- <-. by apply (Hm _ _ _ E1).
Qed.
Lemma keeps_modify id f : (forall s, same_pages s (f s)) -> keeps id (modify f).
Proof. intros Hf s r s' [= <- <-] Hw. by apply (keeps_intro id s (f s) tt). Qed.
Lemma keeps_attempting {A} id (m : M (Swap T) fault A) : keeps id m -> keeps id (attempting m).
Proof.
  intros Hm s r s' E Hw. unfold attempting in E. destruct (m s) as [[a|[e|]|] s1] eqn:E1; injection E as <- <-; by apply (Hm _ _ _ E1).
Qed.

(** ** Changing one block *)

Lemma wf_block s id b : swap_wf s -> objs s !! id = Some b -> block_wf s b.
Proof. intros Hw Hb. exact (proj1 (Forall_lookup _ _) (wf_blocks _ Hw) id b Hb). Qed.

Lemma update_block s id b b' :
  swap_wf s -> objs s !! id = Some b -> block_wf s b' -> places (pages b') ≡ₚ places (pages b) ->
  swap_wf (with_objs (<[id := b']> (objs s)) s) /\ others_keep id s (with_objs (<[id := b']> (objs s)) s).
Proof.
  intros [H1 H0 H2 H3 H4 H5 H6 H7] Hb Hb' Hp. split.
  - assert (Hh : held (with_objs (<[id := b']> (objs s)) s) ≡ₚ held s).
    { unfold held. cbn [freePageList objs with_objs]. destruct (obj_places_split _ _ _ Hb) as (rest & E1 & E2). by rewrite E1, E2, Hp. }
    split; cbn [sf_blockSize sf_pageSize pageCtx freePageList usage with_objs]; try done.
    + by apply Forall_insert.
    + by rewrite Hh.
    + by rewrite Hh.
  - intros id' b0 Hne Hb0. cbn [objs with_objs]. by rewrite list_lookup_insert_ne.
Qed.

Lemma keeps_get_blk id id' : keeps id (get_blk id').
Proof.
  unfold get_blk. apply swap_keeps_bind; [apply keeps_gets|]. intros s. destruct (_ !! _); [apply swap_keeps_ret | apply keeps_panic].
Qed.
Lemma keeps_set_blk id f : (forall b, pages (f b) = pages b /\ pageSize (f b) = pageSize b /\ blockSize (f b) = blockSize b) -> keeps id (set_blk id f).
Proof.
  intros Hf s r s' [= <- <-] Hw. destruct (objs s !! id) as [b|] eqn:Hb.
  - rewrite (alter_insert _ _ _ _ Hb). destruct (Hf b) as (E1 & E2 & E3). apply (update_block s id b); [done | done | | by rewrite E1].
    unfold block_wf. rewrite E1, E2, E3. exact (wf_block _ _ _ Hw Hb).
  - assert (alter f id (objs s) = objs s) as ->.
    { apply list_eq. intros j. destruct (decide (j = id)) as [->|]; [|by rewrite list_lookup_alter_ne].
      by rewrite list_lookup_alter_eq, Hb. }
    apply (keeps_intro id s _ tt Hw). by repeat split.
Qed.
Lemma keeps_on_backend {A} id (m : M T fault A) : keeps id (on_backend m).
Proof.
  intros s r s' E Hw. unfold on_backend in E. destruct (m (storage s)) as [r0 t]. injection E as <- <-.
  apply (keeps_intro id s _ tt Hw). by repeat split.
Qed.
Lemma keeps_on_ivs {A} id (m : IntervalList -> M (T * list Interval) fault A) : keeps id (on_ivs id m).
Proof.
  intros s r s' E Hw. unfold on_ivs in E. destruct (objs s !! id) as [b|] eqn:Hb; [|injection E as <- <-; by apply (keeps_intro id s s tt)].
  destruct (m (interval b) (storage s, cells_of b)) as [r0 [t h]]. injection E as <- <-.
  destruct (update_block s id b (with_cells h b) Hw Hb) as [Hw' Hk]; [exact (wf_block _ _ _ Hw Hb) | done |].
  destruct (keeps_intro id _ (with_storage t (with_objs (<[id:=with_cells h b]> (objs s)) s)) tt Hw') as [Hw2 Hk2]; [by repeat split|].
  split; [done|]. by eapply others_keep_trans.
Qed.

(** ** Writing into the file *)

Lemma multiples_apart P o o' x : 0 < P -> (P | o) -> (P | o') -> o <> o' -> o <= x < o + P -> ~ (o' <= x < o' + P).
Proof. intros HP [a ->] [b ->] Hne H1 H2. assert (a <> b) by congruence. assert (a + 1 <= b \/ b + 1 <= a) as [?|?] by lia; nia. Qed.

(** The place [o] belongs to none of the other blocks. *)
Definition apart s (id : nat) (o : Z) : Prop :=
  0 <= o /\ (sf_pageSize s | o) /\ forall id' b, id' <> id -> objs s !! id' = Some b -> o ∉ places (pages b).

Lemma write_apart s id o off p f c :
  swap_wf s -> apart s id o -> 0 <= off -> off + Z.of_nat (length p) <= sf_pageSize s -> file s = Some f ->
  swap_wf (with_file (Some (mkFile (file_put (bytes f) p (Z.to_nat (o + off))) c)) s) /\
  others_keep id s (with_file (Some (mkFile (file_put (bytes f) p (Z.to_nat (o + off))) c)) s).
Proof.
  intros Hw (Ho & Hdiv & Hap) Hoff Hlen Hf. split; [by destruct Hw; split|].
  intros id' b Hne Hb. split; [done|]. intros i fp k Hin Hk. unfold sbyte. cbn [file with_file bytes]. rewrite Hf.
  rewrite byte_at_put, decide_False; [done|]. intros Hr.
  destruct (wf_block _ _ _ Hw Hb) as (_ & _ & _ & Hcap).
  rewrite Forall_forall in Hcap. specialize (Hcap _ Hin). cbn in Hcap. rewrite Hcap in Hk.
  assert (Hpl : offsetInFile fp ∈ places (pages b)) by (apply list_elem_of_fmap; by exists (i, fp)).
  assert (Hin2 : offsetInFile fp ∈ held s).
  { unfold held. apply elem_of_app. right. apply list_elem_of_bind. exists b. split; [done | by eapply list_elem_of_lookup_2]. }
  pose proof (proj1 (Forall_forall _ _) (wf_placed _ Hw) _ Hin2) as (_ & _ & Hd).
  apply (multiples_apart (sf_pageSize s) (offsetInFile fp) o (Z.of_nat k) (wf_page _ Hw) Hd Hdiv).
  - intros E. apply (Hap id' b Hne Hb). by rewrite <- E.
  - done.
  - lia.
Qed.

Lemma own_page_apart s id b i fp : swap_wf s -> objs s !! id = Some b -> (i, fp) ∈ pages b -> apart s id (offsetInFile fp).
Proof.
  intros Hw Hb Hin. assert (Hpl : offsetInFile fp ∈ places (pages b)) by (apply list_elem_of_fmap; by exists (i, fp)).
  assert (Hin2 : offsetInFile fp ∈ held s).
  { unfold held. apply elem_of_app. right. apply list_elem_of_bind. exists b. split; [done | by eapply list_elem_of_lookup_2]. }
  pose proof (proj1 (Forall_forall _ _) (wf_placed _ Hw) _ Hin2) as (H0 & _ & Hd). split; [done|]. split; [done|].
  intros id' b' Hne Hb' Hin'. pose proof (wf_apart _ Hw) as Hnd. unfold held in Hnd. apply NoDup_app in Hnd as (_ & _ & Hnd).
  destruct (obj_places_split _ _ _ Hb) as (rest & E1 & E2). rewrite E1 in Hnd. apply NoDup_app in Hnd as (_ & Hdis & _).
  apply (Hdis _ Hpl). assert (Hrest : obj_places (<[id := with_pages [] b]> (objs s)) ≡ₚ rest) by (by rewrite E2).
  rewrite <- Hrest. apply list_elem_of_bind. exists b'. split; [done|]. apply (list_elem_of_lookup_2 _ id').
  by rewrite list_lookup_insert_ne.
Qed.
End swap_inv.

(** ** Getting a page *)

Section pages_of_blocks.
Context {T : Type} {SB : StorageBackend T}.
Implicit Types s : Swap T.

Definition keeps_pages {A} (m : M (Swap T) fault A) : Prop := forall s r s', m s = (r, s') -> same_pages s s'.
Lemma keeps_pages_bind {A B} (m : M (Swap T) fault A) (k : A -> M (Swap T) fault B) :
  keeps_pages m -> (forall a, keeps_pages (k a)) -> keeps_pages (bind m k).
Proof.
  intros Hm Hk s r s' E. unfold bind in E. destruct (m s) as [[a|e|] s1] eqn:E1; [|injection E as <- <-; by eapply Hm..].
  eapply same_pages_trans; [by eapply Hm | by eapply Hk].
Qed.
Lemma keeps_pages_modify f : (forall s, same_pages s (f s)) -> keeps_pages (modify f).
Proof. intros Hf s r s' [= <- <-]. apply Hf. Qed.
Lemma keeps_pages_pure {A} (m : M (Swap T) fault A) : (forall s, (m s).2 = s) -> keeps_pages m.
Proof. intros Hm s r s' E. specialize (Hm s). rewrite E in Hm. cbn in Hm. subst. apply same_pages_refl. Qed.

Lemma evict_pages id : keeps_pages (evict (T := T) id).
Proof.
  unfold evict, get_blk. repeat (apply keeps_pages_bind; [|intros]).
  - by apply keeps_pages_pure.
  - apply keeps_pages_pure. intros s. by destruct (_ !! _).
  - apply keeps_pages_modify. by repeat split.
  - by apply keeps_pages_pure.
  - destruct (_ <=? _)%nat; [by apply keeps_pages_pure | apply keeps_pages_modify; by repeat split].
Qed.
Lemma evict_first_pages n l : keeps_pages (evict_first (T := T) n l).
Proof.
  revert l. induction n as [|n IH]; intros l; cbn; [by apply keeps_pages_pure|]. destruct l; [by apply keeps_pages_pure|].
  apply keeps_pages_bind; [apply evict_pages | intros; apply IH].
Qed.
Lemma OccupyPage_pages : keeps_pages (OccupyPage (T := T)).
Proof.
  unfold OccupyPage. repeat (apply keeps_pages_bind; [|intros]).
  - apply keeps_pages_modify. by repeat split.
  - by apply keeps_pages_pure.
  - destruct (ctx_IsFull _); [|by apply keeps_pages_pure].
    apply keeps_pages_bind; [apply keeps_pages_modify; by repeat split | intros; apply evict_first_pages].
Qed.

Lemma take_page_wf s o l :
  swap_wf s -> freelist (freePageList s) = l ++ [o] ->
  swap_wf (with_freePageList (with_items (freePageList s) l) s) /\ placed s o /\
  o ∉ held (with_freePageList (with_items (freePageList s) l) s).
Proof.
  intros [H1 H0 H2 H3 H4 H5 H6 H7] E.
  assert (Hh : held s ≡ₚ o :: held (with_freePageList (with_items (freePageList s) l) s)).
  { unfold held. cbn [freePageList objs with_freePageList with_items freelist]. rewrite E. solve_Permutation. }
  rewrite Hh in H5, H6. apply NoDup_cons in H5 as [Hni H5]. apply Forall_cons in H6 as [Hp H6].
  split_and!; [by split | done | done].
Qed.
Lemma new_page_wf s :
  swap_wf s -> let s' := with_usage (with_Size (Size (usage s) + sf_pageSize s) (usage s)) s in
  swap_wf s' /\ placed s' (Size (usage s)) /\ Size (usage s) ∉ held s'.
Proof.
  intros [H1 H0 H2 H3 H4 H5 H6 H7] s'. split_and!.
  - split; cbn; try done.
    + eapply Forall_impl; [exact H6|]. intros o (Ha & Hb & Hc). split_and!; [done | cbn; lia | done].
    + split; [lia|]. apply Z.divide_add_r; [apply H7 | apply Z.divide_refl].
  - split_and!; cbn; [lia | lia | by apply H7].
  - intros Hin. apply (proj1 (Forall_forall _ _) H6) in Hin as (_ & Hle & _). lia.
Qed.

Lemma AcquireOffset_wf s r s' :
  AcquireOffset s = (r, s') -> swap_wf s ->
  swap_wf s' /\ objs s' = objs s /\ file s' = file s /\ sf_pageSize s' = sf_pageSize s /\
  forall o, r = Ok o -> placed s' o /\ o ∉ held s'.
Proof.
  intros E Hw. unfold AcquireOffset, bind at 1, gets, Datatypes.id in E.
  destruct (ctx_limit _ <=? _); [by injection E as <- <-|]. unfold bind, NewWith in E.
  destruct (length (freelist (freePageList s))) as [|n] eqn:Hl.
  - injection E as <- <-. destruct (new_page_wf s Hw) as (Hw' & Hp & Hn). split_and!; try done; [by destruct Hw'; split|].
    intros o [= <-]. by split.
  - remember (freelist (freePageList s)) as fl eqn:Ef. destruct fl as [|o l _] using rev_ind; [done|]. rewrite length_app in Hl. cbn in Hl.
    assert (n = length l) as -> by lia. rewrite removeAt_end in E. injection E as <- <-.
    destruct (take_page_wf s o l Hw) as (Hw' & Hp & Hn); [|split_and!; try done; [by destruct Hw'; split|]].
    + done.
    + intros o' [= <-]. by split.
Qed.

Lemma keeps_of_pages {A} id (m : M (Swap T) fault A) : keeps_pages m -> keeps id m.
Proof. intros Hm s r s' E Hw. apply (keeps_intro id s s' tt Hw). by eapply Hm. Qed.

Lemma add_page_wf s id b idx o :
  swap_wf s -> objs s !! id = Some b -> page_Load idx (pages b) = None -> placed s o -> o ∉ held s ->
  let b' := with_pages (page_Store idx (NewFilePage o (sf_pageSize s)) (pages b)) b in
  swap_wf (with_objs (<[id := b']> (objs s)) s) /\ others_keep id s (with_objs (<[id := b']> (objs s)) s).
Proof.
  intros Hw Hb Hl Hp Hn b'. pose proof (wf_block _ _ _ Hw Hb) as (Hbs & Hps & Hso & Hcap).
  pose proof (page_Store_new idx (NewFilePage o (sf_pageSize s)) (pages b) Hl) as Hperm. split.
  - assert (Hh : held (with_objs (<[id := b']> (objs s)) s) ≡ₚ o :: held s).
    { unfold held. cbn [freePageList objs with_objs]. destruct (obj_places_split _ _ _ Hb) as (rest & E1 & E2). rewrite E1, E2.
      cbn [pages with_pages b']. unfold places at 1. rewrite Hperm. cbn. fold (places (pages b)). solve_Permutation. }
    destruct Hw as [H1 H0 H2 H3 H4 H5 H6 H7]. split; cbn [sf_blockSize sf_pageSize pageCtx freePageList usage objs with_objs]; try done.
    + apply Forall_insert; [done|]. split_and!; [done | done | by apply page_Store_sorted |].
      cbn [pages with_pages b']. rewrite Hperm. by constructor.
    + rewrite Hh. by constructor.
    + rewrite Hh. by constructor.
  - intros id' b0 Hne Hb0. cbn [objs with_objs]. by rewrite list_lookup_insert_ne.
Qed.

Lemma page_at_wf s id idx r s' :
  page_at id idx s = (r, s') -> swap_wf s ->
  swap_wf s' /\ others_keep id s s' /\
  forall fp, r = Ok fp -> exists b, objs s' !! id = Some b /\ page_Load idx (pages b) = Some fp.
Proof.
  intros E Hw. unfold page_at, bind at 1, get_blk, bind at 1, gets, Datatypes.id in E.
  destruct (objs s !! id) as [b|] eqn:Hb; [|injection E as <- <-; split_and!; [done | apply others_keep_refl | done]]. cbn in E.
  destruct (page_Load idx (pages b)) as [fp|] eqn:Hl.
  - injection E as <- <-. split_and!; [done | apply others_keep_refl |]. intros fp' [= <-]. by exists b.
  - unfold bind at 1 in E. destruct (OccupyPage s) as [r1 s1] eqn:E1. pose proof (OccupyPage_pages _ _ _ E1) as Hs1.
    pose proof (same_pages_wf _ _ Hs1 Hw) as Hw1. pose proof (same_pages_keep id _ _ Hs1) as Hk1.
    assert (Hobj : objs s1 = objs s) by apply Hs1.
    destruct r1 as [[]|e|]; [|by injection E as <- <-..]. unfold bind at 1 in E.
    destruct (AcquireOffset s1) as [r2 s2] eqn:E2. destruct (AcquireOffset_wf _ _ _ E2 Hw1) as (Hw2 & Ho2 & Hf2 & Hp2 & Hpost).
    assert (Hk2 : others_keep id s s2).
    { eapply others_keep_trans; [exact Hk1|]. intros id' b0 _ Hb0. rewrite Ho2. unfold sbyte. by rewrite Hf2. }
    destruct r2 as [o|e|]; [|by injection E as <- <-..]. destruct (Hpost o eq_refl) as [Hpl Hni].
    injection E as <- <-. rewrite <- Hobj, <- Ho2 in Hb. pose proof (wf_block _ _ _ Hw2 Hb) as (_ & Hps & _).
    rewrite (alter_insert _ _ _ _ Hb), Hps. destruct (add_page_wf s2 id b idx o Hw2 Hb Hl Hpl Hni) as [Hw3 Hk3].
    split_and!; [done | by eapply others_keep_trans |]. intros fp [= <-]. eexists. split.
    + apply list_lookup_insert_eq. by eapply lookup_lt_Some.
    + cbn [pages with_pages]. by rewrite page_Load_Store, Z.eqb_refl.
Qed.

Lemma file_WriteAt_wf s id o off p r s' :
  file_WriteAt p (o + off) s = (r, s') -> swap_wf s -> apart s id o -> 0 <= off -> off + Z.of_nat (length p) <= sf_pageSize s ->
  swap_wf s' /\ others_keep id s s' /\ objs s' = objs s /\ sf_pageSize s' = sf_pageSize s /\
  freePageList s' = freePageList s /\ pageCtx s' = pageCtx s /\ usage s' = usage s.
Proof.
  intros E Hw Hap Hoff Hlen. unfold file_WriteAt, bind at 1, gets, Datatypes.id in E.
  destruct (file s) as [f|] eqn:Hf; [|injection E as <- <-; split_and!; try done; apply others_keep_refl].
  destruct (file_closed f); [injection E as <- <-; split_and!; try done; apply others_keep_refl|].
  destruct (_ <? 0); [injection E as <- <-; split_and!; try done; apply others_keep_refl|]. injection E as <- <-.
  destruct (write_apart s id o off p f false Hw Hap Hoff Hlen Hf) as [Hw' Hk]. by split_and!.
Qed.

(** Writing into a page of the block and keeping its new size. *)
Lemma put_page_wf s id b idx fp q off r s' :
  (r <- page_WriteAt fp q off ;;
   set_blk id (fun b => with_pages (page_Store idx r.2 (pages b)) b) ;;; ret r) s = (r, s') ->
  swap_wf s -> objs s !! id = Some b -> page_Load idx (pages b) = Some fp -> 0 <= off ->
  swap_wf s' /\ others_keep id s s'.
Proof.
  intros E Hw Hb Hl Hoff. pose proof (wf_block _ _ _ Hw Hb) as (Hbs & Hps & Hso & Hcap).
  pose proof (page_Load_In _ _ _ Hl) as Hin. rewrite Forall_forall in Hcap. pose proof (Hcap _ Hin) as Hc. cbn in Hc.
  unfold page_WriteAt in E. destruct (_ <? 0) eqn:Hneg; [injection E as <- <-; split; [done | apply others_keep_refl]|].
  apply Z.ltb_ge in Hneg. unfold bind at 1 2 in E. destruct (file_WriteAt _ _ s) as [r1 s1] eqn:E1.
  destruct (file_WriteAt_wf _ id _ _ _ _ _ E1 Hw (own_page_apart _ _ _ _ _ Hw Hb Hin) Hoff) as (Hw1 & Hk1 & Ho1 & Hp1 & _).
  { rewrite length_take. lia. }
  destruct r1 as [[n err]|e|]; [|by injection E as <- <-..]. injection E as <- <-. cbn [fst snd].
  rewrite <- Ho1 in Hb. rewrite (alter_insert _ _ _ _ Hb).
  destruct (page_Store_old idx fp (SetSize (fp_size fp + (n + off)) fp) (pages b) Hso Hl) as (l1 & l2 & El & Es).
  destruct (update_block s1 id b (with_pages (page_Store idx (SetSize (fp_size fp + (n + off)) fp) (pages b)) b) Hw1 Hb) as [Hw2 Hk2].
  - split_and!; [done | by rewrite Hp1 | by apply page_Store_sorted |]. cbn [pages with_pages]. rewrite Es, Hp1.
    rewrite El in Hcap. apply Forall_forall. intros x Hx. apply elem_of_app in Hx as [Hx|Hx]; [apply Hcap, elem_of_app; by left|].
    apply elem_of_cons in Hx as [->|Hx]; [done|]. apply Hcap, elem_of_app. right. by right.
  - cbn [pages with_pages]. rewrite Es, El at 1. unfold places. by rewrite !fmap_app.
  - split; [done|]. by eapply others_keep_trans.
Qed.

Lemma write_pages_keeps fuel id p idx off n : 0 <= off -> keeps id (write_pages (T := T) fuel id p idx off n).
Proof.
  revert p idx off n. induction fuel as [|fuel IH]; intros p idx off n Hoff; cbn [write_pages].
  { destruct p; [apply swap_keeps_ret | apply swap_keeps_throw]. }
  destruct p as [|a p'] eqn:Ep; [apply swap_keeps_ret|]. rewrite <- Ep. clear Ep a p'.
  intros s r s' E Hw. unfold bind at 1, get_blk, bind at 1, gets, Datatypes.id in E.
  destruct (objs s !! id) as [b|] eqn:Hb; [|injection E as <- <-; split; [done | apply others_keep_refl]]. cbn in E.
  pose proof (wf_block _ _ _ Hw Hb) as (_ & Hps & _). pose proof (wf_page _ Hw) as HP.
  unfold bind at 1 in E. destruct (page_at id idx s) as [r1 s1] eqn:E1.
  destruct (page_at_wf _ _ _ _ _ E1 Hw) as (Hw1 & Hk1 & Hpost). destruct r1 as [fp|e|]; [|by injection E as <- <-..].
  destruct (Hpost fp eq_refl) as (b1 & Hb1 & Hl1). destruct (_ <? 0); [by injection E as <- <-|]. unfold bind at 1 in E.
  destruct (page_WriteAt fp _ _ s1) as [r2 s2] eqn:E2.
  assert (Hro : 0 <= Z.rem off (pageSize b)) by (apply Z.rem_nonneg; lia).
  assert (Hput := put_page_wf s1 id b1 idx fp _ _ (match r2 with Ok x => Ok x | Err e => Err e | Panic => Panic end)
    (match r2 with Ok x => with_objs (alter (fun b => with_pages (page_Store idx x.2 (pages b)) b) id (objs s2)) s2 | _ => s2 end)
    ltac:(unfold bind at 1; rewrite E2; by destruct r2) Hw1 Hb1 Hl1 Hro).
  destruct r2 as [[[m err] fp']|e|]; cbn [snd] in Hput; destruct Hput as [Hw2 Hk2];
    [|injection E as <- <-; split; [done | by eapply others_keep_trans]..].
  unfold bind, set_blk, modify in E. cbn [snd] in E. destruct err as [e|].
  - injection E as <- <-. split; [done | by eapply others_keep_trans].
  - assert (Hm : 0 <= m).
    { unfold page_WriteAt in E2. destruct (_ <? 0); [done|]. unfold bind, file_WriteAt, bind, gets, Datatypes.id in E2.
      destruct (file s1) as [f1|]; [|done]. destruct (file_closed f1); [done|].
      destruct (_ <? 0); [done|]. injection E2. intros. lia. }
    assert (Hom : 0 <= off + m) by lia. destruct (IH _ _ _ _ Hom _ _ _ E Hw2) as [Hw3 Hk3]. split; [done|].
    eapply others_keep_trans; [exact Hk1|]. by eapply others_keep_trans.
Qed.
Lemma writeToPage_keeps id p off : 0 <= off -> keeps id (writeToPage (T := T) id p off).
Proof.
  intros Hoff. unfold writeToPage. apply swap_keeps_bind; [apply keeps_get_blk|]. intros b.
  destruct (_ =? 0); [apply keeps_panic | by apply write_pages_keeps].
Qed.

(** ** The operations *)

Lemma file_ReadAt_pure n off s : (file_ReadAt (T := T) n off s).2 = s.
Proof. unfold file_ReadAt, bind, gets, Datatypes.id. destruct (file s) as [f|]; [|done]. destruct (file_closed f); [done|]. by destruct (_ <? 0). Qed.
Lemma page_ReadAt_keeps id fp n off : keeps id (page_ReadAt (T := T) fp n off).
Proof.
  apply keeps_of_pages, keeps_pages_pure. intros s. unfold page_ReadAt. destruct (_ <? 0); [done | apply file_ReadAt_pure].
Qed.
Lemma collect_keeps id size l buf : keeps id (collect (T := T) size l buf).
Proof.
  revert buf. induction l as [|[i fp] l IH]; intros buf; cbn; [apply swap_keeps_ret|].
  apply swap_keeps_bind; [apply page_ReadAt_keeps|]. intros [[|a d] [e|]]; auto using @swap_keeps_ret.
Qed.
Lemma read_pages_keeps fuel id len off lim acc : keeps id (read_pages (T := T) fuel id len off lim acc).
Proof.
  revert len off acc. induction fuel as [|fuel IH]; intros len off acc; cbn [read_pages]; (destruct (negb _); [apply swap_keeps_ret|]).
  - apply swap_keeps_throw.
  - apply swap_keeps_bind; [apply keeps_get_blk|]. intros b. destruct (_ =? 0); [apply keeps_panic|]. destruct (_ <? 0); [apply keeps_panic|].
    destruct (page_Load _ _); [|apply IH]. apply swap_keeps_bind; [apply page_ReadAt_keeps|]. intros [d [e|]]; [apply swap_keeps_ret | apply IH].
Qed.

Context (already_exists : error -> bool).

Ltac keep_steps := repeat first
  [ apply swap_keeps_ret | apply swap_keeps_throw | apply keeps_panic | apply keeps_gets | apply keeps_get_blk
  | apply keeps_on_ivs | apply keeps_on_backend | apply keeps_attempting
  | apply keeps_set_blk; intros; (by split_and!) | apply collect_keeps | apply read_pages_keeps
  | match goal with |- keeps _ (bind _ _) => apply swap_keeps_bind; [|intros] end ].

Lemma doFlush_keeps id : keeps id (doFlush already_exists id).
Proof.
  unfold doFlush. keep_steps. destruct (_ || _); keep_steps. destruct a0 as [d err]. keep_steps.
  - destruct err; [destruct (bool_decide _)|]; keep_steps.
  - destruct (_ =? _); keep_steps. destruct a3; [|destruct (already_exists _)]; keep_steps.
Qed.
Lemma Flush_keeps id : keeps id (Flush already_exists id).
Proof. unfold Flush. keep_steps. destruct (flushed a); [keep_steps | apply doFlush_keeps]. Qed.
Lemma WriteAt_keeps id p off : 0 <= off -> keeps id (WriteAt already_exists id p off).
Proof.
  intros Hoff. unfold WriteAt. keep_steps. destruct (key_Split _) as [x index]. destruct (negb _); keep_steps.
  - by apply writeToPage_keeps.
  - destruct a0 as [n err]. destruct err; keep_steps. destruct (_ <=? _); keep_steps. apply doFlush_keeps.
Qed.
Lemma _doCache_keeps id : keeps id (_doCache id).
Proof.
  intros s r s' E Hw. unfold _doCache in E. unfold bind at 1, set_blk at 1, modify in E.
  destruct (keeps_set_blk id (with_flushed true) ltac:(intros; by split_and!) s (Ok tt) _ eq_refl Hw) as [Hw1 Hk1].
  cbn [snd fst] in *. unfold bind at 1, get_blk, bind at 1, gets, Datatypes.id in E. set (s1 := with_objs _ s) in *.
  destruct (objs s1 !! id) as [b|] eqn:Hb; [|by injection E as <- <-]. cbn in E.
  pose proof (wf_block _ _ _ Hw1 Hb) as (Hbs & _).
  match type of E with ?m s1 = _ => assert (Hm : keeps id m) end.
  { keep_steps.
    - destruct a as [d|e]; keep_steps; [apply writeToPage_keeps; lia|]. destruct (a.2); keep_steps.
    - apply keeps_set_blk. intros b0. case_bool_decide; by split_and!. }
  destruct (Hm _ _ _ E Hw1) as [Hw2 Hk2]. split; [done | by eapply others_keep_trans].
Qed.
Lemma ReadAt_keeps id p off : keeps id (ReadAt id p off).
Proof.
  unfold ReadAt. keep_steps. destruct (key_Split _) as [x index]. destruct (negb _); keep_steps.
  destruct (f_err a) as [e|]; [destruct (bool_decide _)|]; keep_steps; try (destruct a1; keep_steps); try (destruct a0; keep_steps).
  apply _doCache_keeps.
Qed.

Lemma free_pages_wf id l s r s' :
  free_pages l s = (r, s') -> swap_wf s -> NoDup (places l) -> Forall (placed s) (places l) ->
  Forall (fun o => o ∉ held s) (places l) -> swap_wf s' /\ others_keep id s s'.
Proof.
  revert s. induction l as [|[i fp] l IH]; intros s E Hw Hnd Hpl Hni; cbn [free_pages] in E.
  { injection E as <- <-. split; [done | apply others_keep_refl]. }
  cbn in Hnd, Hpl, Hni. apply NoDup_cons in Hnd as [Hnl Hnd]. apply Forall_cons in Hpl as [Hp Hpl]. apply Forall_cons in Hni as [Hn Hni].
  unfold bind at 1, page_Free, bind at 1, gets, Datatypes.id, bind at 1 in E.
  destruct (file_WriteAt (GetZeroPage (pageCtx s)) (offsetInFile fp) s) as [r1 s1] eqn:E1.
  replace (offsetInFile fp) with (offsetInFile fp + 0) in E1 by lia.
  destruct (file_WriteAt_wf s id _ _ _ _ _ E1 Hw) as (Hw1 & Hk1 & Ho1 & Hp1 & Hf1 & Hc1 & Hu1); [|done| |].
  { split_and!; [apply Hp | apply Hp |]. intros id' b' _ Hb' Hin. apply Hn. unfold held. apply elem_of_app. right.
    apply list_elem_of_bind. exists b'. split; [done | by eapply list_elem_of_lookup_2]. }
  { unfold GetZeroPage, zeros. rewrite length_replicate. pose proof (wf_zero _ Hw). pose proof (wf_page _ Hw). lia. }
  destruct r1 as [[n err]|e|]; [|by injection E as <- <-..]. cbn [ret offsetInFile SetSize] in E.
  unfold bind, freePage, modify in E. set (s2 := with_pageCtx _ _) in E.
  assert (Hh : held s2 ≡ₚ offsetInFile fp :: held s).
  { unfold held, s2. cbn [freePageList objs with_pageCtx with_usage with_freePageList]. unfold Free. rewrite (wf_free _ Hw1). cbn [Nat.ltb Nat.leb snd].
    unfold push. rewrite insertAt_end. cbn [default with_items freelist Datatypes.id]. rewrite Hf1, Ho1. solve_Permutation. }
  assert (Hps : forall o, placed s2 o <-> placed s o) by (intros o; unfold placed, s2; cbn; by rewrite Hp1, Hu1).
  assert (Hw2 : swap_wf s2).
  { destruct Hw1 as [H1 H0 H2 H3 H4 H5 H6 H7]. split; cbn; try done.
    - unfold Free. rewrite H3. done.
    - rewrite Hh. constructor; [done | apply Hw].
    - rewrite Hh. apply Forall_cons. split; [by apply Hps|]. eapply Forall_impl; [apply Hw|]. intros o. apply Hps. }
  assert (Hk2 : others_keep id s s2) by (eapply others_keep_trans; [exact Hk1 | intros id' b' _ Hb'; done]).
  destruct (IH s2 E Hw2 Hnd) as [Hw3 Hk3].
  - eapply Forall_impl; [exact Hpl|]. intros o. apply Hps.
  - rewrite Forall_forall in Hni |- *. intros o Ho. rewrite Hh. intros [->|Hin]%elem_of_cons; [done|]. by apply (Hni o).
  - split; [done | by eapply others_keep_trans].
Qed.

(** Taking the pages away from a block. *)
Lemma drop_pages_wf s id b :
  swap_wf s -> objs s !! id = Some b ->
  let s' := with_objs (<[id := with_pages [] b]> (objs s)) s in
  swap_wf s' /\ others_keep id s s' /\ NoDup (places (pages b)) /\ Forall (placed s') (places (pages b)) /\
  Forall (fun o => o ∉ held s') (places (pages b)).
Proof.
  intros Hw Hb s'. destruct (obj_places_split _ _ _ Hb) as (rest & E1 & E2).
  assert (Hh : held s ≡ₚ places (pages b) ++ held s').
  { unfold held, s'. cbn [freePageList objs with_objs]. rewrite E1, E2. cbn. solve_Permutation. }
  pose proof (wf_block _ _ _ Hw Hb) as (Hbs & Hps & _). destruct Hw as [H1 H0 H2 H3 H4 H5 H6 H7]. rewrite Hh in H5, H6.
  apply NoDup_app in H5 as (Hn1 & Hn2 & Hn3). apply Forall_app in H6 as [Hp1 Hp2]. split_and!; try done.
  - split; try done. apply Forall_insert; [done|]. split_and!; [done | done | constructor | constructor].
  - intros id' b' Hne Hb'. unfold s'. cbn [objs with_objs]. by rewrite list_lookup_insert_ne.
  - apply Forall_forall. intros o Ho. by apply Hn2.
Qed.

Lemma Destroy_keeps id : keeps id (Destroy already_exists id).
Proof.
  unfold Destroy. apply swap_keeps_bind; [apply keeps_get_blk|]. intros a. destruct (closed a); [apply swap_keeps_ret|].
  apply swap_keeps_bind; [apply keeps_attempting, doFlush_keeps|]. intros _. clear a.
  intros s r s' E Hw. unfold bind at 1, get_blk, bind at 1, gets, Datatypes.id in E.
  destruct (objs s !! id) as [b|] eqn:Hb; [|injection E as <- <-; split; [done | apply others_keep_refl]]. cbn in E.
  unfold bind at 1, set_blk at 1, modify in E. rewrite (alter_insert _ _ _ _ Hb) in E.
  destruct (drop_pages_wf s id b Hw Hb) as (Hw1 & Hk1 & Hnd & Hpl & Hni). set (s1 := with_objs _ s) in *.
  unfold bind at 1 in E. destruct (free_pages (pages b) s1) as [r2 s2] eqn:E2.
  destruct (free_pages_wf id _ _ _ _ E2 Hw1 Hnd Hpl Hni) as [Hw2 Hk2].
  assert (Hk : others_keep id s s2) by (by eapply others_keep_trans).
  destruct r2 as [[]|e|]; [|by injection E as <- <-..].
  assert (Hm : keeps (T := T) id (set_blk id (with_err (Some ErrBlockDestoryed)) ;;; set_blk id with_closed)) by keep_steps.
  destruct (Hm _ _ _ E Hw2) as [Hw3 Hk3]. split; [done | by eapply others_keep_trans].
Qed.

Lemma NewFileBlock_wf s temp k r s' :
  NewFileBlock temp k s = (r, s') -> swap_wf s -> swap_wf s' /\ others_keep (length (objs s)) s s'.
Proof.
  intros E Hw. unfold NewFileBlock, bind at 1, gets, Datatypes.id in E.
  assert (Hnew : forall f c, let s' := with_usage (TrackBlock k (usage s)) (with_lookup (<[k := length (objs s)]> (lookup s))
      (with_blocks c (with_objs (objs s ++ [fresh_block k (sf_blockSize s) (sf_pageSize s)]) (with_file f s)))) in
    default (mkFile [] false) (file s) = default (mkFile [] false) f -> swap_wf s' /\ others_keep (length (objs s)) s s').
  { intros f c s1 Hf. assert (Hpg : pages (fresh_block k (sf_blockSize s) (sf_pageSize s)) = []) by done.
    assert (Hh : held s1 = held s).
    { unfold held, s1. cbn [freePageList objs with_objs with_usage with_lookup with_blocks with_file]. unfold obj_places.
      rewrite bind_app. cbn. by rewrite app_nil_r. }
    split.
    - destruct Hw as [H1 H0 H2 H3 H4 H5 H6 H7]. split; try done; try (by rewrite Hh).
      apply Forall_app. split; [done|]. constructor; [|constructor]. split_and!; [done | done | constructor | constructor].
    - intros id' b' Hne Hb'. split.
      + unfold s1. cbn. by apply lookup_app_l_Some.
      + intros. unfold sbyte, s1. cbn [file with_usage with_lookup with_blocks with_objs with_file].
        destruct (file s), f; cbn in Hf; subst; done. }
  destruct (file s) as [f|] eqn:Hf; [|destruct temp]; [| |injection E as <- <-; split; [done | apply others_keep_refl]];
    injection E as <- <-; apply (Hnew _ _); by rewrite ?Hf.
Qed.
End pages_of_blocks.

(** * Blocks written page by page *)

Section filled_blocks.
Context {T : Type} {SB : StorageBackend T}.
Implicit Types s : Swap T.

Definition psize s : nat := Z.to_nat (sf_pageSize s).

(** The block [b] at [id] has [m] whole pages from index [base], with the bytes
    [buf]. *)
Record filled s (id : nat) (b : FileBlock) (base : Z) (m : nat) (buf : list byte) (f : os_File) : Prop := {
  fi_obj : objs s !! id = Some b;
  fi_file : file s = Some f;
  fi_open : file_closed f = false;
  fi_index : fst <$> pages b = seqZ base (Z.of_nat m);
  fi_size : Forall (fun x => fp_size x.2 = sf_pageSize s) (pages b);
  fi_len : length buf = (m * psize s)%nat;
  fi_bytes j x : pages b !! j = Some x ->
    (Z.to_nat (offsetInFile x.2) + psize s <= length (bytes f))%nat /\
    forall k, (k < psize s)%nat -> byte_at (bytes f) (Z.to_nat (offsetInFile x.2) + k) = byte_at buf (j * psize s + k) }.

Lemma page_Load_index base m (l : list (Z * FilePage)) idx :
  fst <$> l = seqZ base (Z.of_nat m) -> page_Load idx l = if decide (base <= idx < base + Z.of_nat m) then snd <$> l !! Z.to_nat (idx - base) else None.
Proof.
  revert base m. induction l as [|[i fp] l IH]; intros base m E.
  - destruct m; [|by rewrite seqZ_cons in E by lia]. rewrite decide_False by lia. done.
  - destruct m as [|m]; [done|]. rewrite Nat2Z.inj_succ, seqZ_cons in E by lia. cbn in E. injection E as -> E.
    rewrite Z.pred_succ in E. cbn [page_Load]. destruct (Z.eqb_spec base idx) as [->|Hne].
    + rewrite decide_True by lia. by rewrite Z.sub_diag.
    + rewrite (IH (Z.succ base) m E). destruct (decide (base <= idx < base + Z.of_nat (S m))) as [H|H].
      * rewrite decide_True by lia. replace (Z.to_nat (idx - base)) with (S (Z.to_nat (idx - Z.succ base))) by lia. done.
      * rewrite decide_False by lia. done.
Qed.

Lemma page_Store_last idx fp l : Forall (fun x => x.1 < idx) l -> page_Store idx fp l = l ++ [(idx, fp)].
Proof.
  induction 1 as [|[i x] l Hi Hl IH]; [done|]. cbn in *. rewrite (proj2 (Z.eqb_neq _ _)), (proj2 (Z.ltb_ge _ _)) by lia. by rewrite IH.
Qed.

Lemma page_Store_at_end idx fp x l : Forall (fun x => x.1 < idx) l -> page_Store idx fp (l ++ [(idx, x)]) = l ++ [(idx, fp)].
Proof.
  induction 1 as [|[i y] l Hi Hl IH]; cbn; [by rewrite Z.eqb_refl|]. cbn in Hi.
  rewrite (proj2 (Z.eqb_neq _ _)), (proj2 (Z.ltb_ge _ _)) by lia. by rewrite IH.
Qed.
Lemma index_below base m (l : pages_t) : fst <$> l = seqZ base (Z.of_nat m) -> Forall (fun x => x.1 < base + Z.of_nat m) l.
Proof.
  intros E. apply Forall_forall. intros [i x] Hin.
  assert (Hi : i ∈ seqZ base (Z.of_nat m)) by (rewrite <- E; apply list_elem_of_fmap; by exists (i, x)).
  apply elem_of_seqZ in Hi. cbn. lia.
Qed.

Lemma pages_length base m (l : pages_t) : fst <$> l = seqZ base (Z.of_nat m) -> length l = m.
Proof. intros E. apply (f_equal length) in E. rewrite length_fmap, length_seqZ in E. lia. Qed.

Lemma AcquireOffset_ok s :
  swap_wf s -> counter (pageCtx s) < ctx_limit (pageCtx s) ->
  exists o s', AcquireOffset s = (Ok o, s') /\ pageCtx s' = Incr (pageCtx s) /\ storage s' = storage s /\
    sf_blockSize s' = sf_blockSize s.
Proof.
  intros Hw Hlt. unfold AcquireOffset, bind at 1, gets, Datatypes.id. rewrite (proj2 (Z.leb_gt _ _)) by done. unfold bind, NewWith.
  destruct (length (freelist (freePageList s))) as [|n] eqn:Hl.
  - eexists _, _. split; [reflexivity|]. done.
  - remember (freelist (freePageList s)) as fl eqn:Ef. destruct fl as [|o l _] using rev_ind; [done|]. rewrite length_app in Hl. cbn in Hl.
    assert (n = length l) as -> by lia. rewrite removeAt_end. eexists _, _. split; [reflexivity|]. done.
Qed.

(** A new page for a filled block. *)
Lemma page_at_new s id b base m buf f :
  swap_wf s -> filled s id b base m buf f -> counter (pageCtx s) < ctx_limit (pageCtx s) ->
  let idx := base + Z.of_nat m in
  exists o s1, page_at id idx s = (Ok (NewFilePage o (sf_pageSize s)), s1) /\
    objs s1 !! id = Some (with_pages (pages b ++ [(idx, NewFilePage o (sf_pageSize s))]) b) /\
    file s1 = Some f /\ pageCtx s1 = Incr (pageCtx s) /\ storage s1 = storage s /\
    sf_pageSize s1 = sf_pageSize s /\ 0 <= o /\ (sf_pageSize s | o) /\ o ∉ places (pages b).
Proof.
  intros Hw Hf Hlt idx. pose proof (fi_obj _ _ _ _ _ _ _ Hf) as Hb. pose proof (wf_block _ _ _ Hw Hb) as (_ & Hps & _).
  unfold page_at, bind at 1, get_blk, bind at 1, gets, Datatypes.id. rewrite Hb. cbn [ret].
  rewrite (page_Load_index _ _ _ idx (fi_index _ _ _ _ _ _ _ Hf)), decide_False by lia.
  set (s0 := with_usage (IncrUsedPages (usage s)) s).
  assert (E0 : OccupyPage s = (Ok tt, s0)).
  { unfold OccupyPage, bind, modify, gets, Datatypes.id. fold s0. unfold ctx_IsFull. cbn [pageCtx with_usage s0].
    by rewrite (proj2 (Z.eqb_neq _ _)) by lia. }
  assert (Hw0 : swap_wf s0) by (eapply same_pages_wf; [eapply OccupyPage_pages; exact E0 | done]).
  destruct (AcquireOffset_ok s0 Hw0 Hlt) as (o & s2 & E2 & Hc2 & Ht2 & Hbs2).
  destruct (AcquireOffset_wf _ _ _ E2 Hw0) as (Hw2 & Ho2 & Hf2 & Hp2 & Hpost). destruct (Hpost o eq_refl) as [Hpl Hni].
  assert (Hb2 : objs s2 !! id = Some b) by (by rewrite Ho2).
  exists o, (with_objs (alter (fun b => with_pages (page_Store idx (NewFilePage o (pageSize b)) (pages b)) b) id (objs s2)) s2).
  rewrite (bind_ok _ _ _ _ _ E0), (bind_ok _ _ _ _ _ E2), Hps. split_and!; try done.
  - cbn. f_equal. unfold with_objs. f_equal. by rewrite !(alter_insert _ _ _ _ Hb2), Hps.
  - cbn. rewrite (alter_insert _ _ _ _ Hb2), list_lookup_insert_eq by (by eapply lookup_lt_Some). do 2 f_equal.
    rewrite Hps. apply page_Store_last. exact (index_below _ _ _ (fi_index _ _ _ _ _ _ _ Hf)).
  - cbn. rewrite Hf2. apply Hf.
  - apply Hpl.
  - change (sf_pageSize s0 | o). rewrite <- Hp2. apply Hpl.
  - intros Hin. apply Hni. unfold held. apply elem_of_app. right. apply list_elem_of_bind. exists b. split; [done | by eapply list_elem_of_lookup_2].
Qed.

(** The page after it was written. *)
Lemma filled_app s s' id b base m buf f o q :
  filled s id b base m buf f -> swap_wf s -> length q = psize s -> sf_pageSize s' = sf_pageSize s ->
  0 <= o -> (sf_pageSize s | o) -> o ∉ places (pages b) ->
  let f' := mkFile (file_put (bytes f) q (Z.to_nat o)) false in
  let b' := with_pages (pages b ++ [(base + Z.of_nat m, mkFilePage o (sf_pageSize s) (sf_pageSize s))]) b in
  objs s' !! id = Some b' -> file s' = Some f' -> filled s' id b' base (S m) (buf ++ q) f'.
Proof.
  intros [Hb Hf Hop Hi Hsz Hl Hby] Hw Hq Hp Ho Hdiv Hni f' b' Hb' Hf'.
  pose proof (wf_page _ Hw) as HP. assert (HPn : (0 < psize s)%nat) by (unfold psize; lia).
  assert (Hps : psize s' = psize s) by (unfold psize; by rewrite Hp).
  assert (Hlb : length (bytes f') = Nat.max (length (bytes f)) (Z.to_nat o + psize s)).
  { cbn. rewrite length_put, Hq; [done|]. intros ->. cbn in Hq. lia. }
  split; try done.
  - cbn [pages with_pages b']. rewrite fmap_app, Hi. cbn. rewrite Nat2Z.inj_succ, <- Z.add_1_r, seqZ_app by lia. by rewrite (seqZ_cons _ 1).
  - cbn [pages with_pages b']. rewrite Hp. apply Forall_app. split; [done|]. by constructor.
  - rewrite length_app, Hl, Hq, Hps. lia.
  - intros j x Hx. rewrite Hps, Hlb. cbn [pages with_pages b'] in Hx. apply lookup_app_Some in Hx as [Hx|[Hge Hx]].
    + destruct (Hby j x Hx) as [Hle Hk]. split; [lia|]. intros k Hkk.
      assert (Hxp : offsetInFile x.2 ∈ places (pages b)) by (apply list_elem_of_fmap; exists x; split; [done | by eapply list_elem_of_lookup_2]).
      assert (Hxh : offsetInFile x.2 ∈ held s).
      { unfold held. apply elem_of_app. right. apply list_elem_of_bind. exists b. split; [done | by eapply list_elem_of_lookup_2]. }
      pose proof (proj1 (Forall_forall _ _) (wf_placed _ Hw) _ Hxh) as (Hx0 & _ & Hxd).
      unfold f'. cbn [bytes]. rewrite byte_at_put, decide_False.
      * rewrite Hk by done. unfold byte_at. rewrite lookup_app_l; [done|]. apply lookup_lt_Some in Hx.
        rewrite (pages_length _ _ _ Hi) in Hx. rewrite Hl. nia.
      * rewrite Hq. intros Hr. apply (multiples_apart (sf_pageSize s) (offsetInFile x.2) o (offsetInFile x.2 + Z.of_nat k) HP Hxd Hdiv).
        -- intros E. apply Hni. by rewrite <- E.
        -- unfold psize in *. lia.
        -- unfold psize in *. lia.
    + rewrite (pages_length _ _ _ Hi) in Hge, Hx. apply list_lookup_singleton_Some in Hx as [Hj <-]. cbn [snd offsetInFile].
      assert (j = m) as -> by lia. split; [lia|]. intros k Hkk. unfold f'. cbn [bytes]. rewrite byte_at_put, decide_True by lia.
      unfold byte_at. rewrite lookup_app_r by lia. do 2 f_equal. lia.
Qed.

Lemma write_page_step s id b base m buf f q rest fuel n :
  swap_wf s -> filled s id b base m buf f -> 0 <= base -> counter (pageCtx s) < ctx_limit (pageCtx s) -> length q = psize s ->
  let P := sf_pageSize s in
  exists s' b' f',
    write_pages (S fuel) id (q ++ rest) (base + Z.of_nat m) ((base + Z.of_nat m) * P) n s =
      write_pages fuel id rest (base + Z.of_nat (S m)) ((base + Z.of_nat (S m)) * P) (n + P) s' /\
    swap_wf s' /\ filled s' id b' base (S m) (buf ++ q) f' /\ b' = with_pages (pages b') b /\
    pageCtx s' = Incr (pageCtx s) /\ storage s' = storage s /\ sf_pageSize s' = P.
Proof.
  intros Hw Hf Hbase Hlt Hq P. pose proof (wf_page _ Hw) as HP. pose proof (fi_obj _ _ _ _ _ _ _ Hf) as Hb.
  pose proof (wf_block _ _ _ Hw Hb) as (_ & Hps & _).
  destruct (page_at_new s id b base m buf f Hw Hf Hlt) as (o & s1 & E1 & Hb1 & Hf1 & Hc1 & Ht1 & Hp1 & Ho & Hdiv & Hni).
  destruct (page_at_wf _ _ _ _ _ E1 Hw) as (Hw1 & _ & _). set (idx := base + Z.of_nat m) in *.
  set (f' := mkFile (file_put (bytes f) q (Z.to_nat o)) false). set (fp' := mkFilePage o P P).
  set (b' := with_pages (pages b ++ [(idx, fp')]) b). set (s2 := with_file (Some f') s1).
  assert (Hlast : forall x, page_Store idx fp' (pages b ++ [(idx, x)]) = pages b ++ [(idx, fp')]).
  { intros x. apply page_Store_at_end. exact (index_below _ _ _ (fi_index _ _ _ _ _ _ _ Hf)). }
  assert (E2 : page_WriteAt (NewFilePage o P) q 0 s1 = (Ok (P, None, fp'), s2)).
  { unfold page_WriteAt. cbn [cap NewFilePage fp_size offsetInFile]. unfold psize in Hq. replace (Z.min (P - 0) (Z.of_nat (length q))) with P by (unfold P; lia).
    rewrite (proj2 (Z.ltb_ge _ _)) by lia. rewrite take_ge by (rewrite Hq; done). unfold bind, file_WriteAt, bind, gets, Datatypes.id.
    rewrite Hf1, (fi_open _ _ _ _ _ _ _ Hf), (proj2 (Z.ltb_ge _ 0)) by lia. unfold modify, ret. rewrite Z.add_0_r. cbn [fst].
    replace (Z.of_nat (length q)) with P by (unfold P; lia). unfold fp', SetSize. cbn. by rewrite Z.add_0_r. }
  exists (with_objs (<[id := b']> (objs s2)) s2), b', f'. split_and!.
  - cbn [write_pages]. destruct (q ++ rest) as [|a l] eqn:El.
    { apply app_eq_nil in El as [-> _]. unfold psize in Hq. cbn in Hq. lia. }
    rewrite <- El. clear El a l. unfold bind at 1, get_blk, bind at 1, gets, Datatypes.id. rewrite Hb. cbn [ret]. rewrite Hps. fold P idx.
    rewrite (bind_ok _ _ _ _ _ E1). rewrite Z.rem_mul by (unfold P; lia).
    replace (Z.min (Z.of_nat (length (q ++ rest))) ((idx + 1) * P - idx * P)) with P
      by (rewrite length_app, Hq; unfold psize; fold P; lia).
    rewrite (proj2 (Z.ltb_ge _ _)) by (unfold P; lia). rewrite take_app_length' by (rewrite Hq; done).
    rewrite (bind_ok _ _ _ _ _ E2). unfold bind, set_blk, modify. cbn [fst snd].
    rewrite drop_app_length' by (rewrite Hq; done). f_equal; [unfold idx; lia | unfold idx; lia |].
    unfold s2 at 1. cbn [objs with_file]. rewrite (alter_insert _ _ _ _ Hb1). cbn [pages with_pages]. rewrite Hlast. done.
  - destruct (put_page_wf s1 id (with_pages (pages b ++ [(idx, NewFilePage o P)]) b) idx (NewFilePage o P) q 0 (Ok (P, None, fp'))
      (with_objs (<[id := b']> (objs s2)) s2)) as [Hw2 _]; try done.
    + rewrite (bind_ok _ _ _ _ _ E2). unfold bind, set_blk, modify, ret. cbn [snd]. do 2 f_equal.
      unfold s2 at 1. cbn [objs with_file]. rewrite (alter_insert _ _ _ _ Hb1). cbn [pages with_pages]. by rewrite Hlast.
    + cbn [pages with_pages]. rewrite <- (page_Store_last idx (NewFilePage o P) (pages b)), page_Load_Store, Z.eqb_refl; [done|].
      exact (index_below _ _ _ (fi_index _ _ _ _ _ _ _ Hf)).
  - apply (filled_app s _ id b base m buf f o q); try done. cbn. apply list_lookup_insert_eq. by eapply lookup_lt_Some.
  - done.
  - done.
  - done.
  - done.
Qed.

Lemma write_whole j s id b base m buf f p fuel n :
  swap_wf s -> filled s id b base m buf f -> 0 <= base ->
  counter (pageCtx s) + Z.of_nat j <= ctx_limit (pageCtx s) -> length p = (j * psize s)%nat -> (j <= fuel)%nat ->
  let P := sf_pageSize s in
  exists s' b' f',
    write_pages fuel id p (base + Z.of_nat m) ((base + Z.of_nat m) * P) n s = (Ok (n + Z.of_nat j * P, None), s') /\
    swap_wf s' /\ filled s' id b' base (m + j) (buf ++ p) f' /\ b' = with_pages (pages b') b /\
    pageCtx s' = with_counter (counter (pageCtx s) + Z.of_nat j) (pageCtx s) /\ storage s' = storage s /\ sf_pageSize s' = P.
Proof.
  revert s b m buf f p fuel n. induction j as [|j IH]; intros s b m buf f p fuel n Hw Hf Hbase Hc Hl Hfu P.
  - exists s, b, f. destruct p; [|done]. split_and!; try done.
    + destruct fuel; cbn; by rewrite Z.add_0_r.
    + by rewrite Nat.add_0_r, app_nil_r.
    + by destruct b.
    + cbn. rewrite Z.add_0_r. by destruct (pageCtx s).
  - destruct fuel as [|fuel]; [lia|]. pose proof (wf_page _ Hw) as HP.
    assert (Hq : length (take (psize s) p) = psize s) by (rewrite length_take; lia).
    destruct (write_page_step s id b base m buf f (take (psize s) p) (drop (psize s) p) fuel n Hw Hf Hbase ltac:(lia) Hq)
      as (s1 & b1 & f1 & E1 & Hw1 & Hf1 & Hb1 & Hc1 & Ht1 & Hp1). rewrite take_drop in E1.
    destruct (IH s1 b1 (S m) (buf ++ take (psize s) p) f1 (drop (psize s) p) fuel (n + P) Hw1 Hf1 Hbase)
      as (s2 & b2 & f2 & E2 & Hw2 & Hf2 & Hb2 & Hc2 & Ht2 & Hp2).
    + rewrite Hc1. cbn. lia.
    + rewrite length_drop. unfold psize in *. rewrite Hp1. lia.
    + lia.
    + rewrite Hp1 in *. exists s2, b2, f2. fold P in E1, E2. rewrite E1, E2. split_and!; try done.
      * do 3 f_equal. lia.
      * rewrite <- app_assoc, take_drop in Hf2. by replace (m + S j)%nat with (S m + j)%nat by lia.
      * rewrite Hb2, Hb1. done.
      * rewrite Hc2, Hc1. unfold Incr, with_counter. cbn. f_equal. lia.
      * by rewrite Ht2.
Qed.

(** ** Collecting the pages of a filled block *)

Lemma page_read s id b base m buf f j x n off :
  filled s id b base m buf f -> 0 < sf_pageSize s -> pages b !! j = Some x -> 0 <= off -> 0 <= n -> off + n <= sf_pageSize s ->
  0 <= offsetInFile x.2 ->
  page_ReadAt x.2 n off s = (Ok (take (Z.to_nat n) (drop (j * psize s + Z.to_nat off) buf), None), s).
Proof.
  intros [Hb Hf Hop Hi Hsz Hl Hby] HP Hx Hoff Hn Hle Hox. destruct (Hby j x Hx) as [Hin Hk].
  rewrite Forall_lookup in Hsz. pose proof (Hsz _ _ Hx) as Hs. cbn in Hs. unfold page_ReadAt. rewrite Hs.
  rewrite Z.min_r, (proj2 (Z.ltb_ge _ _)) by lia. unfold file_ReadAt, bind, gets, Datatypes.id. rewrite Hf, Hop, (proj2 (Z.ltb_ge _ _)) by lia.
  assert (Hjm : (j < m)%nat) by (rewrite <- (pages_length _ _ _ Hi); by eapply lookup_lt_Some).
  assert (E : file_get (bytes f) (Z.to_nat n) (Z.to_nat (offsetInFile x.2 + off)) = take (Z.to_nat n) (drop (j * psize s + Z.to_nat off) buf)).
  { unfold psize in *. change (take (Z.to_nat n) (drop (j * Z.to_nat (sf_pageSize s) + Z.to_nat off) buf)) with
      (file_get buf (Z.to_nat n) (j * Z.to_nat (sf_pageSize s) + Z.to_nat off)).
    rewrite !file_get_bytes by nia. apply list_eq. intros k. rewrite !list_lookup_fmap. destruct (decide (k < Z.to_nat n)%nat).
    - rewrite !lookup_seq_lt by done. cbn. f_equal. rewrite Z2Nat.inj_add by lia.
      rewrite <- !Nat.add_assoc. apply Hk. lia.
    - rewrite !lookup_seq_ge by lia. done. }
  rewrite E. unfold ret. repeat f_equal. rewrite length_take, length_drop, Hl. rewrite (proj2 (Z.ltb_ge _ _)); [done|]. unfold psize. nia.
Qed.

Lemma page_offset_nonneg s id b j x : swap_wf s -> objs s !! id = Some b -> pages b !! j = Some x -> 0 <= offsetInFile x.2.
Proof.
  intros Hw Hb Hx. destruct x as [i fp]. destruct (own_page_apart s id b i fp Hw Hb) as [H _]; [by eapply list_elem_of_lookup_2 | done].
Qed.

Lemma collect_filled s id b base m buf f size :
  swap_wf s -> filled s id b base m buf f -> Z.of_nat (length buf) <= size ->
  collect size (pages b) [] s = (Ok (buf, None), s).
Proof.
  intros Hw Hf Hsize. pose proof (wf_page _ Hw) as HP. pose proof (fi_len _ _ _ _ _ _ _ Hf) as Hl.
  pose proof (pages_length _ _ _ (fi_index _ _ _ _ _ _ _ Hf)) as Hm.
  enough (H : forall k, (k <= m)%nat -> collect size (drop k (pages b)) (take (k * psize s) buf) s = (Ok (buf, None), s)).
  { specialize (H 0%nat ltac:(lia)). by rewrite drop_0, Nat.mul_0_l, take_0 in H. }
  intros k Hk. remember (m - k)%nat as d eqn:Ed. revert k Hk Ed. induction d as [|d IH]; intros k Hk Ed.
  - rewrite drop_ge by lia. rewrite take_ge by (assert (k = m) as -> by lia; lia). done.
  - destruct (lookup_lt_is_Some_2 (pages b) k) as [x Hx]; [lia|]. rewrite (drop_S _ _ _ Hx). destruct x as [i fp]. cbn [collect].
    rewrite length_take, Hl. assert (Hkm : (k * psize s <= m * psize s)%nat) by (apply Nat.mul_le_mono_r; lia).
    rewrite Nat.min_l by lia.
    assert (Hrd : page_ReadAt fp (size - Z.of_nat (k * psize s)) 0 s = (Ok (take (psize s) (drop (k * psize s) buf), None), s)).
    { pose proof (page_read s id b base m buf f k (i, fp) (sf_pageSize s) 0 Hf HP Hx ltac:(lia) ltac:(lia) ltac:(lia)
        (page_offset_nonneg _ _ _ _ _ Hw (fi_obj _ _ _ _ _ _ _ Hf) Hx)) as E. cbn [snd] in E.
      rewrite Nat.add_0_r in E. fold (psize s) in E. rewrite <- E. unfold page_ReadAt. f_equal.
      pose proof (proj1 (Forall_lookup _ _) (fi_size _ _ _ _ _ _ _ Hf) _ _ Hx) as Hs. cbn in Hs. rewrite Hs.
      assert (Z.min (sf_pageSize s - 0) (size - Z.of_nat (k * psize s)) = Z.min (sf_pageSize s - 0) (sf_pageSize s)) as ->; [|done].
      rewrite Hl in Hsize. assert ((S k * psize s <= m * psize s)%nat) by (apply Nat.mul_le_mono_r; lia). unfold psize in *. lia. }
    rewrite (bind_ok _ _ _ _ _ Hrd). destruct (take (psize s) (drop (k * psize s) buf)) as [|a l] eqn:El.
    { apply (f_equal length) in El. rewrite length_take, length_drop, Hl in El. cbn in El. unfold psize in *. nia. }
    rewrite <- El. rewrite take_take_drop, Nat.add_comm. change (psize s + k * psize s)%nat with (S k * psize s)%nat.
    apply IH; lia.
Qed.

(** ** Reading a filled block *)

Lemma take_zeros_tail (buf : list byte) z y n :
  (length buf <= y)%nat -> (y + n <= length buf + z)%nat -> take n (drop y (buf ++ replicate z x00)) = replicate n x00.
Proof.
  intros Hy Hn. rewrite drop_app_ge by lia. rewrite drop_replicate, take_replicate. f_equal. lia.
Qed.

Lemma read_filled fuel s id b base m K buf f len off acc :
  swap_wf s -> filled s id b base m buf f -> 0 <= base -> (m <= K)%nat ->
  let P := sf_pageSize s in
  let lim := (base + Z.of_nat K) * P in
  let full := buf ++ zeros (lim - base * P - Z.of_nat (length buf)) in
  base * P <= off <= lim -> 0 <= len <= Z.of_nat fuel ->
  read_pages fuel id len off lim acc s =
    (Ok (acc ++ take (Z.to_nat (Z.min len (lim - off))) (drop (Z.to_nat (off - base * P)) full),
         if lim - off <? len then Some EOF else None), s).
Proof.
  intros Hw Hf Hbase HmK P lim full. pose proof (wf_page _ Hw) as HP. fold P in HP.
  pose proof (fi_obj _ _ _ _ _ _ _ Hf) as Hb. pose proof (wf_block _ _ _ Hw Hb) as (_ & Hps & _). fold P in Hps.
  pose proof (fi_len _ _ _ _ _ _ _ Hf) as Hl. assert (Hlz : Z.of_nat (length buf) = Z.of_nat m * P) by (rewrite Hl; unfold psize; fold P; lia).
  revert len off acc. induction fuel as [|fuel IH]; intros len off acc Hoff Hlen; cbn [read_pages].
  - assert (len = 0) as -> by lia. rewrite Z.ltb_irrefl. cbn [andb negb].
    rewrite Z.min_l, (proj2 (Z.ltb_ge (lim - off) 0)) by lia. cbn. by rewrite app_nil_r.
  - destruct (Z.ltb_spec 0 len); cbn [andb negb].
    2:{ assert (len = 0) as -> by lia. rewrite Z.min_l, (proj2 (Z.ltb_ge _ 0)) by lia. cbn. by rewrite app_nil_r. }
    destruct (Z.ltb_spec off lim); cbn [negb].
    2:{ rewrite Z.min_r, (proj2 (Z.ltb_lt _ _)) by lia. replace (lim - off) with 0 by lia. cbn. by rewrite app_nil_r. }
    unfold bind at 1, get_blk, bind at 1, gets, Datatypes.id. rewrite Hb. cbn [ret]. rewrite Hps, (proj2 (Z.eqb_neq _ _)) by lia.
    rewrite Z.quot_div_nonneg, Z.rem_mod_nonneg by nia. pose proof (Z.mod_pos_bound off P HP) as Hmod. pose proof (Z.div_mod off P ltac:(lia)) as Hdm.
    set (n := Z.min (Z.min (lim - off) len) (P - off mod P)). assert (Hn : 0 < n) by lia. rewrite (proj2 (Z.ltb_ge _ _)) by lia.
    assert (Hbi : base <= off / P) by nia.
    assert (Hgo : forall d, d = take (Z.to_nat n) (drop (Z.to_nat (off - base * P)) full) -> Z.of_nat (length d) = n ->
      read_pages fuel id (len - n) (off + n) lim (acc ++ d) s =
      (Ok (acc ++ take (Z.to_nat (Z.min len (lim - off))) (drop (Z.to_nat (off - base * P)) full),
         if lim - off <? len then Some EOF else None), s)).
    { intros d -> _. rewrite IH by lia. rewrite <- app_assoc. do 4 f_equal.
      - replace (Z.to_nat (off + n - base * P)) with (Z.to_nat (off - base * P) + Z.to_nat n)%nat by lia.
        rewrite <- drop_drop, take_take_drop. f_equal. lia.
      - destruct (Z.ltb_spec (lim - (off + n)) (len - n)), (Z.ltb_spec (lim - off) len); lia || done. }
    rewrite (page_Load_index _ _ _ (off / P) (fi_index _ _ _ _ _ _ _ Hf)).
    destruct (decide (base <= off / P < base + Z.of_nat m)) as [Hin|Hout].
    + destruct (lookup_lt_is_Some_2 (pages b) (Z.to_nat (off / P - base))) as [x Hx].
      { rewrite (pages_length _ _ _ (fi_index _ _ _ _ _ _ _ Hf)). lia. }
      rewrite Hx. cbn [fmap option_fmap option_map].
      pose proof (page_read s id b base m buf f _ x n (off mod P) Hf HP Hx ltac:(lia) ltac:(lia) ltac:(fold P; lia)
        (page_offset_nonneg _ _ _ _ _ Hw Hb Hx)) as Hrd. rewrite (bind_ok _ _ _ _ _ Hrd).
      assert (Hy : (Z.to_nat (off / P - base) * psize s + Z.to_nat (off mod P))%nat = Z.to_nat (off - base * P)) by (unfold psize; fold P; nia).
      rewrite Hy. set (d := take (Z.to_nat n) (drop (Z.to_nat (off - base * P)) buf)).
      assert (Hfit : off - base * P + n <= Z.of_nat (length buf)) by nia.
      assert (Hd : Z.of_nat (length d) = n) by (unfold d; rewrite length_take, length_drop; lia). rewrite Hd. apply Hgo; [|done].
      unfold d, full. rewrite drop_app_le, take_app_le; [done | rewrite length_drop; lia | lia].
    + assert (Hge : base + Z.of_nat m <= off / P) by lia. assert (Hy : Z.of_nat (length buf) <= off - base * P) by nia.
      apply Hgo; [|unfold zeros; rewrite length_replicate; lia]. unfold full, zeros. symmetry. apply take_zeros_tail; [lia|]. lia.
Qed.
End filled_blocks.

Section paged_blocks.
Context {T : Type} {SB : StorageBackend T} {BS : BackendSpec T}.
Context (already_exists : error -> bool).
Implicit Types s : Swap T.

(** Block [i] of file [ino], of [K] pages, has its first [m] pages with the bytes
    [buf], written once each, and none of them is flushed. *)
Record paged s (id : nat) (b : FileBlock) (ino i : N) (K m : nat) (buf : list byte) : Prop := {
  pg_wf : swap_wf s;
  pg_filled : exists f, filled s id b (Z.of_N i * Z.of_nat K) m buf f;
  pg_pages : (m <= K)%nat;
  pg_key : key b = NewBlockKey ino i;
  pg_ino : (ino < 2 ^ 64)%N;
  pg_index : (i < 2 ^ 64)%N;
  pg_blockSize : blockSize b = Z.of_nat K * sf_pageSize s;
  pg_size : 0 < blockSize b <= MaxInt;
  pg_flushed : flushed b = false;
  pg_err : f_err b = None;
  pg_list : exists ivs, holds (cells_of b) (interval b) ivs /\ disjoint_from 0 ivs /\ bounded (blockSize b) ivs /\
    forall x, cover ivs x <-> cover [(0, Z.of_nat m * sf_pageSize s)] x;
  pg_written : written b = Z.of_nat m * sf_pageSize s }.

Definition full_bytes s (K m : nat) (buf : list byte) : list byte :=
  buf ++ zeros (Z.of_nat K * sf_pageSize s - Z.of_nat m * sf_pageSize s).

Lemma length_full s b id ino i K m buf : paged s id b ino i K m buf -> length (full_bytes s K m buf) = Z.to_nat (blockSize b).
Proof.
  intros Hp. destruct (pg_filled _ _ _ _ _ _ _ _ Hp) as [f Hf]. pose proof (wf_page _ (pg_wf _ _ _ _ _ _ _ _ Hp)) as HP.
  pose proof (pg_pages _ _ _ _ _ _ _ _ Hp) as HmK. unfold full_bytes, zeros.
  rewrite length_app, length_replicate, (fi_len _ _ _ _ _ _ _ Hf), (pg_blockSize _ _ _ _ _ _ _ _ Hp). unfold psize. nia.
Qed.

Lemma ReadAt_paged s id b ino i K m buf p x :
  paged s id b ino i K m buf -> 0 <= x < blockSize b -> (Z.of_N i + 1) * blockSize b <= MaxInt ->
  let n := Z.min (Z.of_nat (length p)) (blockSize b - x) in
  ReadAt id p (Z.of_N i * blockSize b + x) s =
    (Ok (n, if blockSize b - x <? Z.of_nat (length p) then Some EOF else None,
         copy_into p (take (Z.to_nat n) (drop (Z.to_nat x) (full_bytes s K m buf)))), s).
Proof.
  intros Hp Hx Hmax n. destruct (pg_filled _ _ _ _ _ _ _ _ Hp) as [f Hf]. pose proof (fi_obj _ _ _ _ _ _ _ Hf) as Hb.
  pose proof (pg_size _ _ _ _ _ _ _ _ Hp) as HB. pose proof (wf_page _ (pg_wf _ _ _ _ _ _ _ _ Hp)) as HP.
  pose proof (pg_blockSize _ _ _ _ _ _ _ _ Hp) as HK. pose proof (fi_len _ _ _ _ _ _ _ Hf) as Hl.
  pose proof (pg_pages _ _ _ _ _ _ _ _ Hp) as HmK.
  destruct (block_parts (blockSize b) i x) as [E1 E2]; [lia | apply (pg_index _ _ _ _ _ _ _ _ Hp) | done |].
  unfold ReadAt, bind at 1, get_blk, bind at 1, gets, Datatypes.id. rewrite Hb. cbn [ret].
  rewrite (pg_key _ _ _ _ _ _ _ _ Hp), key_Split_New by (apply (pg_ino _ _ _ _ _ _ _ _ Hp) || apply (pg_index _ _ _ _ _ _ _ _ Hp)).
  rewrite E1, N.eqb_refl. cbn [negb]. rewrite (pg_err _ _ _ _ _ _ _ _ Hp). cbv zeta. rewrite block_limit by lia.
  set (base := Z.of_N i * Z.of_nat K) in *. set (P := sf_pageSize s) in *.
  assert (Hbase : Z.of_N i * blockSize b = base * P) by (unfold base; rewrite HK; lia).
  assert (Hlim : (Z.of_N i + 1) * blockSize b = (base + Z.of_nat K) * P) by (unfold base; rewrite HK; lia).
  rewrite Hlim, Hbase.
  erewrite bind_ok by (apply (read_filled _ s id b base m K buf f); [apply Hp | done | unfold base; lia | done | fold P; lia | lia]).
  fold P. replace ((base + Z.of_nat K) * P - (base * P + x)) with (blockSize b - x) by lia. fold n.
  replace (base * P + x - base * P) with x by lia.
  assert (Efull : buf ++ zeros ((base + Z.of_nat K) * P - base * P - Z.of_nat (length buf)) = full_bytes s K m buf).
  { unfold full_bytes. fold P. do 2 f_equal. rewrite Hl. unfold psize. fold P. lia. }
  rewrite Efull. cbn [app]. pose proof (length_full s b id ino i K m buf Hp) as Hfl.
  replace (Z.of_nat (length (take (Z.to_nat n) (drop (Z.to_nat x) (full_bytes s K m buf))))) with n
    by (rewrite length_take, length_drop, Hfl; unfold n; lia). done.
Qed.

Lemma filled_same s s' id b b' base m buf f :
  filled s id b base m buf f -> objs s' !! id = Some b' -> pages b' = pages b -> file s' = file s ->
  sf_pageSize s' = sf_pageSize s -> filled s' id b' base m buf f.
Proof.
  intros [H1 H2 H3 H4 H5 H6 H7] Hb Hp Hf HP. assert (Hps : psize s' = psize s) by (unfold psize; by rewrite HP).
  split; rewrite ?Hp, ?Hf, ?HP, ?Hps; try done.
Qed.

(** A write of whole pages, up to the test whether the block is to be flushed. *)
Lemma WriteAt_paged_steps s id b ino i K m buf p j :
  paged s id b ino i K m buf -> (0 < j)%nat -> (m + j <= K)%nat -> length p = (j * psize s)%nat ->
  counter (pageCtx s) + Z.of_nat j <= ctx_limit (pageCtx s) ->
  let B := blockSize b in
  let n := Z.of_nat (length p) in
  exists s' b', paged s' id b' ino i K (m + j) (buf ++ p) /\ storage s' = storage s /\ sf_pageSize s' = sf_pageSize s /\
    pageCtx s' = with_counter (counter (pageCtx s) + Z.of_nat j) (pageCtx s) /\ blockSize b' = B /\
    WriteAt already_exists id p (Z.of_N i * B + Z.of_nat m * sf_pageSize s) s =
    (if (K <=? m + j)%nat then
       r <- attempting (doFlush already_exists id) ;; ret (n, match r with inr e => Some e | inl _ => None end)
     else ret (n, None)) s'.
Proof.
  intros Hp Hj HjK Hlp Hc B n. destruct (pg_filled _ _ _ _ _ _ _ _ Hp) as [f Hf]. pose proof (fi_obj _ _ _ _ _ _ _ Hf) as Hb.
  pose proof (pg_wf _ _ _ _ _ _ _ _ Hp) as Hw. pose proof (wf_page _ Hw) as HP. destruct (wf_block _ _ _ Hw Hb) as (_ & Hps & _).
  pose proof (pg_size _ _ _ _ _ _ _ _ Hp) as HB. pose proof (pg_blockSize _ _ _ _ _ _ _ _ Hp) as HK. fold B in HB, HK.
  set (P := sf_pageSize s) in *. set (base := Z.of_N i * Z.of_nat K) in *.
  assert (Hn : n = Z.of_nat j * P) by (unfold n; rewrite Hlp; unfold psize; fold P; lia).
  set (st := Z.of_nat m * P). set (e := Z.of_nat (m + j) * P). assert (Hst : 0 <= st < B) by (unfold st; nia).
  assert (He : st + n = e) by (unfold st, e; lia). assert (HeB : e <= B) by (unfold e; nia). assert (Hse : st < e) by (rewrite <- He; nia).
  assert (Hoff : Z.of_N i * B + st = (base + Z.of_nat m) * P) by (unfold base, st; rewrite HK; lia).
  destruct (block_parts B i st) as [E1 E2]; [lia | apply (pg_index _ _ _ _ _ _ _ _ Hp) | done |].
  destruct (write_whole j s id b base m buf f p (length p) 0 Hw Hf ltac:(unfold base; lia) Hc Hlp) as
    (s1 & b1 & f1 & Ew & Hw1 & Hf1 & Hb1 & Hc1 & Ht1 & Hp1); [unfold psize in Hlp; fold P in Hlp; nia|]. fold P in Ew, Hp1.
  assert (exists l, b1 = with_pages l b) as [l ->] by eauto. clear Hb1.
  pose proof (fi_obj _ _ _ _ _ _ _ Hf1) as Ho1.
  destruct (pg_list _ _ _ _ _ _ _ _ Hp) as (ivs & Hh & Hd & Hbd & Hcv). fold B P in Hbd, Hcv.
  destruct (add_holds (cells_of b) (interval b) ivs 0 st e Hh Hd) as (h' & Hadd & Hh'); [unfold MinInt; lia | done | lia |].
  set (b2 := with_cells h' (with_pages l b)). set (s2 := with_storage (storage s1) (with_objs (<[id := b2]> (objs s1)) s1)).
  assert (Eiv : on_ivs id (fun L => on_list (i <- NewInterval st e ;; AddInterval L i)) s1 = (Ok tt, s2)).
  { unfold on_ivs. rewrite Ho1. unfold on_list. cbn [fst snd interval cells_of with_pages]. by rewrite Hadd. }
  assert (Hlt : (id < length (objs s1))%nat) by (by eapply lookup_lt_Some).
  assert (Ho2 : objs s2 !! id = Some b2) by (cbn; by apply list_lookup_insert_eq).
  set (b3 := with_high_written (Z.max (highOff b2) e) (written b2 + n) b2). set (s3 := with_objs (<[id := b3]> (objs s2)) s2).
  assert (Ho3 : objs s3 !! id = Some b3) by (cbn; apply list_lookup_insert_eq; by rewrite length_insert).
  exists s3, b3. split_and!; [ | exact Ht1 | exact Hp1 | exact Hc1 | |].
  - destruct (keeps_on_ivs id _ _ _ _ Eiv Hw1) as [Hw2 _].
    destruct (keeps_set_blk id (with_high_written (Z.max (highOff b2) e) (written b2 + n)) ltac:(intros; by split_and!) s2 (Ok tt) s3) as [Hw3 _];
      [by unfold set_blk, modify; rewrite (alter_insert _ _ _ _ Ho2) | done |].
    destruct Hp as [_ _ _ Hk Hino Hi HKs Hsz Hfl Herr _ Hwr].
    assert (HP3 : sf_pageSize s3 = P) by done.
    split; try done; cbn [key blockSize flushed f_err cells_of interval written b3 with_high_written b2 with_cells with_pages]; try done.
    + exists f1. by apply (filled_same s1 _ id (with_pages l b)).
    + by rewrite HP3.
    + exists (add_iv ivs st e). split_and!; [done | apply disjoint_add_iv; [done|lia|done] | by apply bounded_add_iv |].
      intros x. rewrite cover_add_iv by done. rewrite Hcv, HP3, !cover_cons. cbn [fst snd].
      fold st e. unfold cover. rewrite !Exists_nil. unfold st, e in *. lia.
    + rewrite Hwr, HP3, Hn. fold P. lia.
  - done.
  - unfold WriteAt, bind at 1, get_blk, bind at 1, gets, Datatypes.id. rewrite Hb. cbn [ret]. fold B st.
    rewrite (pg_key _ _ _ _ _ _ _ _ Hp), key_Split_New by (apply (pg_ino _ _ _ _ _ _ _ _ Hp) || apply (pg_index _ _ _ _ _ _ _ _ Hp)).
    rewrite E1, E2, N.eqb_refl. cbn [negb]. fold n. rewrite He, Z.min_l by done.
    assert (Ewp : writeToPage id p (Z.of_N i * B + st) s = (Ok (n, None), s1)).
    { unfold writeToPage, bind, get_blk, bind, gets, Datatypes.id. rewrite Hb. cbn [ret]. rewrite Hps, (proj2 (Z.eqb_neq _ _)) by (fold P; lia).
      rewrite Hoff, Z.quot_mul by (unfold P; lia). fold P in Ew |- *. rewrite Ew. by rewrite Hn. }
    rewrite (bind_ok _ _ _ _ _ Ewp). rewrite (bind_ok _ _ _ _ _ Eiv). unfold bind at 1, get_blk, bind at 1, gets, Datatypes.id. rewrite Ho2. cbn [ret].
    assert (Eset : set_blk id (with_high_written (Z.max (highOff b2) e) (written b2 + n)) s2 = (Ok tt, s3)).
    { unfold set_blk, modify. by rewrite (alter_insert _ _ _ _ Ho2). }
    rewrite (bind_ok _ _ _ _ _ Eset). assert (HB2 : blockSize b2 = B) by done. rewrite HB2.
    assert (Hw2 : written b2 + n = e) by (cbn; rewrite (pg_written _ _ _ _ _ _ _ _ Hp); fold P; lia).
    rewrite Hw2. destruct (Nat.leb_spec K (m + j)).
    + rewrite (proj2 (Z.leb_le _ _)) by (unfold e; nia). done.
    + rewrite (proj2 (Z.leb_gt _ _)) by (unfold e; nia).
      assert (Efl : set_blk id (with_flushed false) s3 = (Ok tt, s3)).
      { unfold set_blk, modify. rewrite (alter_insert _ _ _ _ Ho3). f_equal.
        assert (with_flushed false b3 = b3) as ->.
        { assert (flushed b3 = false) as Hfb by apply Hp. clear -Hfb. destruct b3; cbn in *; by subst. }
        rewrite list_insert_id by done. by destruct s3. }
      by rewrite (bind_ok _ _ _ _ _ Efl).
Qed.

Lemma on_ivs_list {A} s id b (m : IntervalList -> HM A) a h :
  objs s !! id = Some b -> m (interval b) (cells_of b) = (Ok a, h) ->
  on_ivs id (fun L => on_list (m L)) s = (Ok a, with_storage (storage s) (with_objs (<[id := with_cells h b]> (objs s)) s)).
Proof. intros Hb Hm. unfold on_ivs, on_list. rewrite Hb. cbn [fst snd]. by rewrite Hm. Qed.

Lemma doFlush_paged s id b ino i K m buf x c :
  paged s id b ino i K m buf -> (0 < m)%nat -> be_holds (storage s) x c ->
  (forall old, c !! (ino, i) = Some old -> Z.of_nat (length old) = blockSize b) ->
  let ws := [(0, Z.of_nat m * sf_pageSize s)] in
  be_can (storage s) x (stored (blockSize b) ws c (ino, i) (full_bytes s K m buf)) ->
  exists s' x' h, doFlush already_exists id s = (Ok tt, s') /\
    objs s' !! id = Some (with_high_written (highOff b) 0 (with_flushed true (with_cells h b))) /\
    be_holds (storage s') x' (<[(ino, i) := stored (blockSize b) ws c (ino, i) (full_bytes s K m buf)]> c).
Proof.
  intros Hp Hm Hh Hold ws Hcan. destruct (pg_filled _ _ _ _ _ _ _ _ Hp) as [f Hf]. pose proof (fi_obj _ _ _ _ _ _ _ Hf) as Hb.
  pose proof (pg_wf _ _ _ _ _ _ _ _ Hp) as Hw. pose proof (wf_page _ Hw) as HP. pose proof (length_full _ _ _ _ _ _ _ _ Hp) as Hlf.
  pose proof (pg_size _ _ _ _ _ _ _ _ Hp) as HB. pose proof (pg_blockSize _ _ _ _ _ _ _ _ Hp) as HK.
  pose proof (pg_pages _ _ _ _ _ _ _ _ Hp) as HmK. pose proof (fi_len _ _ _ _ _ _ _ Hf) as Hl.
  assert (Hrec : records (cells_of b) (interval b) (blockSize b) ws).
  { destruct (pg_list _ _ _ _ _ _ _ _ Hp) as (ivs & Hho & Hd & Hbd & Hc). exists ivs. by split; [apply holds_fholds|]. }
  destruct (Merge_records _ _ _ _ Hrec) as (h1 & Hme & Hr1). pose proof (Total_records _ _ _ _ Hr1 ltac:(lia)) as Ht.
  unfold doFlush, bind at 1, get_blk, bind at 1, gets, Datatypes.id. rewrite Hb. cbn [ret].
  rewrite (pg_flushed _ _ _ _ _ _ _ _ Hp), (pg_written _ _ _ _ _ _ _ _ Hp). cbn [orb]. rewrite (proj2 (Z.eqb_neq _ 0)) by lia.
  pose proof (collect_filled s id b _ m buf f (blockSize b) Hw Hf ltac:(rewrite Hl, HK; unfold psize; nia)) as Ecol.
  rewrite (bind_ok _ _ _ _ _ Ecol).
  assert (Efull : buf ++ zeros (blockSize b - Z.of_nat (length buf)) = full_bytes s K m buf).
  { unfold full_bytes. do 2 f_equal. rewrite Hl, HK. unfold psize. lia. }
  rewrite Efull. unfold bind at 1. cbn [ret]. erewrite bind_ok by (by apply on_ivs_list).
  set (s1 := with_storage _ _). set (b1 := with_cells h1 b) in *.
  assert (Hb1 : objs s1 !! id = Some b1) by (cbn; apply list_lookup_insert_eq; by eapply lookup_lt_Some).
  erewrite bind_ok by (apply (on_ivs_list s1 id b1); [done | exact Ht]).
  set (s2 := with_storage _ (with_objs (<[id := with_cells h1 b1]> _) s1)).
  assert (Hb2 : objs s2 !! id = Some b1) by (cbn; rewrite !length_insert || idtac; apply list_lookup_insert_eq; rewrite length_insert; by eapply lookup_lt_Some).
  assert (Hst : storage s2 = storage s) by done. rewrite (pg_key _ _ _ _ _ _ _ _ Hp). unfold stored in *.
  pose proof (pg_ino _ _ _ _ _ _ _ _ Hp) as Hino. pose proof (pg_index _ _ _ _ _ _ _ _ Hp) as Hi.
  destruct (decide (count_covered (blockSize b) ws = blockSize b)) as [E|E].
  - rewrite E, Z.eqb_refl. destruct (be_write (storage s) x c ino i (full_bytes s K m buf) Hh Hino Hi Hcan) as (t' & x' & Hrun & Hh').
    eexists _, x', h1. split; [|split].
    + unfold bind, attempting, on_backend. rewrite Hst, Hrun. reflexivity.
    + cbn. rewrite list_lookup_alter_eq, list_lookup_insert_eq; [done | rewrite length_insert; by eapply lookup_lt_Some].
    + done.
  - rewrite (proj2 (Z.eqb_neq _ _) E).
    destruct (be_write_at (storage s) x c ino i h1 (interval b) ws (full_bytes s K m buf) Hh Hino Hi) as (t' & x' & h2 & Hrun & Hh'); [|exact Hcan|].
    { intros old Ho. specialize (Hold _ Ho). split; [lia|]. by rewrite Hold. }
    eexists _, x', h2. split; [|split].
    + unfold bind, attempting, on_ivs. rewrite Hb2, Hst. cbn [interval cells_of with_cells b1]. rewrite Hrun. reflexivity.
    + cbn. rewrite list_lookup_alter_eq, list_lookup_insert_eq; [done | rewrite !length_insert; by eapply lookup_lt_Some].
    + done.
Qed.

Lemma WriteAt_paged s id b ino i K m buf p j :
  paged s id b ino i K m buf -> (0 < j)%nat -> (m + j <= K)%nat -> length p = (j * psize s)%nat ->
  counter (pageCtx s) + Z.of_nat j <= ctx_limit (pageCtx s) ->
  ((m + j < K)%nat -> exists s' b', WriteAt already_exists id p (Z.of_N i * blockSize b + Z.of_nat m * sf_pageSize s) s =
       (Ok (Z.of_nat (length p), None), s') /\ paged s' id b' ino i K (m + j) (buf ++ p) /\ storage s' = storage s) /\
  ((m + j = K)%nat -> forall x c, be_holds (storage s) x c ->
     (forall old, c !! (ino, i) = Some old -> Z.of_nat (length old) = blockSize b) -> be_can (storage s) x (buf ++ p) ->
     exists s' x', WriteAt already_exists id p (Z.of_N i * blockSize b + Z.of_nat m * sf_pageSize s) s =
         (Ok (Z.of_nat (length p), None), s') /\
       be_holds (storage s') x' (<[(ino, i) := buf ++ p]> c)).
Proof.
  intros Hp Hj HjK Hl Hc. destruct (WriteAt_paged_steps s id b ino i K m buf p j Hp Hj HjK Hl Hc) as (s1 & b1 & Hp1 & Ht & HP & _ & HB & Hrun).
  rewrite Hrun. split.
  - intros Hlt. rewrite (proj2 (Nat.leb_gt _ _)) by lia. by exists s1, b1.
  - intros HK x c Hh Hold Hcan. rewrite (proj2 (Nat.leb_le _ _)) by lia.
    assert (Hst : stored (blockSize b1) [(0, Z.of_nat (m + j) * sf_pageSize s1)] c (ino, i) (full_bytes s1 K (m + j) (buf ++ p)) = buf ++ p).
    { unfold stored, full_bytes. rewrite HK, Z.sub_diag. cbn [zeros Z.to_nat replicate]. rewrite app_nil_r, decide_True; [done|].
      rewrite <- (pg_blockSize _ _ _ _ _ _ _ _ Hp1). pose proof (pg_size _ _ _ _ _ _ _ _ Hp1). unfold count_covered.
      rewrite filter_seqZ_all; [rewrite length_seqZ; lia|]. intros y Hy. apply cover_cons. left. cbn. lia. }
    destruct (doFlush_paged s1 id b1 ino i K (m + j) (buf ++ p) x c Hp1 ltac:(lia)) as (s2 & x' & h & Hfl & _ & Hh').
    + by rewrite Ht.
    + rewrite HB. done.
    + rewrite Hst, Ht. done.
    + rewrite Hst in Hh'. exists s2, x'. split; [|done]. unfold bind, attempting. by rewrite Hfl.
Qed.

(** * Theorems *)

(** Calls on the swap file. *)
Inductive swap_op :=
  | NewBlock (temp : bool) (k : BlockKey)
  | WriteBlock (id : nat) (p : list byte) (off : Z)
  | ReadBlock (id : nat) (p : list byte) (off : Z)
  | CacheBlock (id : nat)
  | FlushBlock (id : nat)
  | DestroyBlock (id : nat)
  | RunEviction (id : nat).
Definition run_swap (o : swap_op) : M (Swap T) fault unit :=
  match o with
  | NewBlock temp k => NewFileBlock temp k ;;; ret tt
  | WriteBlock id p off => WriteAt already_exists id p off ;;; ret tt
  | ReadBlock id p off => ReadAt id p off ;;; ret tt
  | CacheBlock id => Cache id
  | FlushBlock id => Flush already_exists id
  | DestroyBlock id => Destroy already_exists id
  | RunEviction id => run_eviction already_exists id
  end.
(** The block that a call is about. *)
Definition target s (o : swap_op) : nat :=
  match o with
  | NewBlock _ _ => length (objs s)
  | WriteBlock id _ _ | ReadBlock id _ _ | CacheBlock id | FlushBlock id | DestroyBlock id | RunEviction id => id
  end.
Definition sane (o : swap_op) : Prop := match o with WriteBlock _ _ off => 0 <= off | _ => True end.

Lemma run_swap_keeps s o r s' :
  run_swap o s = (r, s') -> swap_wf s -> sane o -> swap_wf s' /\ others_keep (target s o) s s'.
Proof.
  intros E Hw Hs. destruct o as [temp k|id p off|id p off|id|id|id|id]; cbn [run_swap target] in *.
  - unfold bind in E. destruct (NewFileBlock temp k s) as [r1 s1] eqn:E1. pose proof (NewFileBlock_wf _ _ _ _ _ E1 Hw).
    destruct r1; by injection E as <- <-.
  - eapply (swap_keeps_bind id); [by apply WriteAt_keeps | intros; apply swap_keeps_ret | exact E | done].
  - eapply (swap_keeps_bind id); [apply ReadAt_keeps | intros; apply swap_keeps_ret | exact E | done].
  - by eapply _doCache_keeps.
  - by eapply Flush_keeps.
  - by eapply Destroy_keeps.
  - eapply (swap_keeps_bind id); [apply Destroy_keeps | | exact E | done].
    intros. apply swap_keeps_bind; [|intros]; apply keeps_modify; by repeat split.
Qed.

(** C18 The pages of the blocks of a swap file and its free pages always lie apart, and
    whatever a call on one block does and however it ends, every other block keeps
    its pages and all of their bytes. *)
Theorem SwapFile_isolates s os :
  swap_wf s -> Forall sane os ->
  let s1 := foldl (fun s o => (run_swap o s).2) s os in
  swap_wf s1 /\ NoDup (held s1) /\
  forall o, sane o -> others_keep (target s1 o) s1 (run_swap o s1).2.
Proof.
  intros Hw Hs. revert s Hw. induction Hs as [|o os Ho Hs IH]; intros s Hw; cbn [foldl].
  - split_and!; [done | apply Hw |]. intros o Ho. destruct (run_swap o s) as [r s'] eqn:E. by apply (run_swap_keeps s o r s').
  - apply IH. destruct (run_swap o s) as [r s'] eqn:E. by apply (run_swap_keeps s o r s').
Qed.

(** A block of a swap file that is written whole pages at a time: reading it
    returns its bytes, and zeros for the pages not written yet; a write adds
    its pages, and the write of the last page stores the block; a flush stores
    what there is. *)
Theorem FileBlock_implements s id b ino i K m buf :
  paged s id b ino i K m buf ->
  (forall p x, 0 <= x < blockSize b -> (Z.of_N i + 1) * blockSize b <= MaxInt ->
     let n := Z.min (Z.of_nat (length p)) (blockSize b - x) in
     ReadAt id p (Z.of_N i * blockSize b + x) s =
       (Ok (n, if blockSize b - x <? Z.of_nat (length p) then Some EOF else None,
            copy_into p (take (Z.to_nat n) (drop (Z.to_nat x) (full_bytes s K m buf)))), s)) /\
  (forall p j, (0 < j)%nat -> (m + j <= K)%nat -> length p = (j * psize s)%nat ->
     counter (pageCtx s) + Z.of_nat j <= ctx_limit (pageCtx s) ->
     ((m + j < K)%nat -> exists s' b', WriteAt already_exists id p (Z.of_N i * blockSize b + Z.of_nat m * sf_pageSize s) s =
          (Ok (Z.of_nat (length p), None), s') /\ paged s' id b' ino i K (m + j) (buf ++ p) /\ storage s' = storage s) /\
     ((m + j = K)%nat -> forall x c, be_holds (storage s) x c ->
        (forall old, c !! (ino, i) = Some old -> Z.of_nat (length old) = blockSize b) -> be_can (storage s) x (buf ++ p) ->
        exists s' x', WriteAt already_exists id p (Z.of_N i * blockSize b + Z.of_nat m * sf_pageSize s) s =
            (Ok (Z.of_nat (length p), None), s') /\
          be_holds (storage s') x' (<[(ino, i) := buf ++ p]> c))) /\
  (forall x c, (0 < m)%nat -> be_holds (storage s) x c ->
     (forall old, c !! (ino, i) = Some old -> Z.of_nat (length old) = blockSize b) ->
     let d := stored (blockSize b) [(0, Z.of_nat m * sf_pageSize s)] c (ino, i) (full_bytes s K m buf) in
     be_can (storage s) x d ->
     exists s' x', Flush already_exists id s = (Ok tt, s') /\ be_holds (storage s') x' (<[(ino, i) := d]> c)).
Proof.
  intros Hp. split_and!.
  - intros p x Hx Hmax n. by apply (ReadAt_paged s id b ino i K m buf).
  - intros p j. by apply WriteAt_paged.
  - intros x c Hm Hh Hold d Hd. destruct (doFlush_paged s id b ino i K m buf x c Hp Hm Hh Hold Hd) as (s' & x' & h & Hrun & _ & Hh').
    exists s', x'. split; [|done]. destruct (pg_filled _ _ _ _ _ _ _ _ Hp) as [f Hf].
    unfold Flush, bind, get_blk, bind, gets, Datatypes.id. rewrite (fi_obj _ _ _ _ _ _ _ Hf). cbn [ret].
    by rewrite (pg_flushed _ _ _ _ _ _ _ _ Hp).
Qed.

(** Reading beyond the bytes of a page that is not written up to its end never
    returns: a round reads nothing, and the next round is the same. *)
Theorem ReadAt_partial_hangs s id b fp f p x ino i :
  objs s !! id = Some b -> key b = NewBlockKey ino i -> (ino < 2 ^ 64)%N -> (i < 2 ^ 64)%N -> f_err b = None ->
  file s = Some f -> file_closed f = false -> 0 < pageSize b -> 0 <= x < blockSize b ->
  (Z.of_N i + 1) * blockSize b <= MaxInt -> p <> [] ->
  let off := Z.of_N i * blockSize b + x in
  page_Load (Z.quot off (pageSize b)) (pages b) = Some fp -> 0 <= offsetInFile fp -> fp_size fp = Z.rem off (pageSize b) ->
  (forall fuel acc, read_pages fuel id (Z.of_nat (length p)) off ((Z.of_N i + 1) * blockSize b) acc s = (Err Blocked, s)) /\
  ReadAt id p off s = (Err Blocked, s).
Proof.
  intros Hb Hk Hino Hi He Hf Hop HP Hx Hmax Hp off Hl Ho Hsz.
  assert (Hlen : 0 < Z.of_nat (length p)) by (destruct p; cbn; lia || done).
  assert (Hlim : off < (Z.of_N i + 1) * blockSize b) by (unfold off; lia).
  assert (Hoff : 0 <= off) by (unfold off; nia).
  pose proof (Z.rem_bound_pos off (pageSize b) Hoff HP) as Hr.
  assert (H : forall fuel acc, read_pages fuel id (Z.of_nat (length p)) off ((Z.of_N i + 1) * blockSize b) acc s = (Err Blocked, s)).
  { intros fuel. induction fuel as [|fuel IH]; intros acc; cbn [read_pages];
      rewrite (proj2 (Z.ltb_lt _ _) Hlen), (proj2 (Z.ltb_lt _ _) Hlim); cbn [andb negb]; [done|].
    unfold bind at 1, get_blk, bind at 1, gets, Datatypes.id. rewrite Hb. cbn [ret]. rewrite (proj2 (Z.eqb_neq _ _)) by lia.
    rewrite (proj2 (Z.ltb_ge _ _)) by lia. rewrite Hl.
    assert (Hrd : forall n, 0 <= n -> page_ReadAt fp n (Z.rem off (pageSize b)) s = (Ok ([], None), s)).
    { intros n Hn. unfold page_ReadAt. rewrite Hsz, Z.sub_diag, Z.min_l by done. cbn [Z.ltb Z.compare].
      unfold file_ReadAt, bind, gets, Datatypes.id. rewrite Hf, Hop, (proj2 (Z.ltb_ge _ _)) by lia. done. }
    erewrite bind_ok by (apply Hrd; lia). cbn [length Z.of_nat]. rewrite Z.sub_0_r, Z.add_0_r. apply IH. }
  split; [exact H|]. unfold ReadAt, bind at 1, get_blk, bind at 1, gets, Datatypes.id. rewrite Hb. cbn [ret].
  destruct (block_parts (blockSize b) i x) as [E1 _]; [lia | done | done |]. unfold off.
  rewrite Hk, key_Split_New by done. rewrite E1, N.eqb_refl, He. cbn [negb]. cbv zeta. rewrite block_limit by lia.
  unfold bind. by rewrite H.
Qed.
End paged_blocks.

(** * Witnesses *)

(** Blocks of four bytes with pages of two, and room for three pages. *)
Definition ctx3 : PageContext := mkPageContext 6 2 0 3.
Definition swap4 : Swap MemStorageBackend := NewSwapFile 4 2 1 ctx3 (NewMemStorageBackend 4).

Lemma swap4_wf : swap_wf swap4.
Proof. split; cbn; try done; try constructor; try lia. by exists 0. Qed.

Lemma SwapFile_isolates_witness :
  let s1 := foldl (fun s o => (run_swap never o s).2) swap4
    [NewBlock true (NewBlockKey 1 0); NewBlock true (NewBlockKey 1 1); WriteBlock 0 [x01; x02] 0; WriteBlock 1 [x03] 4] in
  held s1 = [0; 2] /\ others_keep 0 s1 (run_swap never (WriteBlock 0 [x09] 1) s1).2.
Proof.
  intros s1. split; [vm_compute; reflexivity|].
  destruct (SwapFile_isolates never swap4
    [NewBlock true (NewBlockKey 1 0); NewBlock true (NewBlockKey 1 1); WriteBlock 0 [x01; x02] 0; WriteBlock 1 [x03] 4] swap4_wf)
    as (_ & _ & H); [repeat constructor; cbn; lia|].
  exact (H (WriteBlock 0 [x09] 1) ltac:(cbn; lia)).
Defined.

Definition swap_new : Swap MemStorageBackend := (NewFileBlock true (NewBlockKey 1 0) swap4).2.
Definition block_new : FileBlock := fresh_block (NewBlockKey 1 0) 4 2.

Lemma swap_new_paged : paged swap_new 0 block_new 1 0 2 0 [].
Proof.
  assert (Hw : swap_wf swap_new).
  { destruct (NewFileBlock_wf swap4 true (NewBlockKey 1 0) (Ok (Some 0%nat)) swap_new) as [H _]; [reflexivity | apply swap4_wf | exact H]. }
  split; try done; try lia.
  - exists (mkFile [] false). split; try done; constructor.
  - unfold block_new, fresh_block. destruct (NewIntervalList_rep []) as (L & h & E & Hr). rewrite E.
    exists []. cbn [cells_of interval]. split_and!; [by exists [] | done | constructor |].
    intros x. unfold cover. rewrite Exists_cons, Exists_nil. cbn. lia.
Qed.

Lemma FileBlock_implements_witness :
  (exists s' b', WriteAt never 0 [x07; x08] 0 swap_new = (Ok (2, None), s') /\ paged s' 0 b' 1 0 2 1 [x07; x08]) /\
  (exists s' x', WriteAt never 0 [x07; x08; x09; x0a] 0 swap_new = (Ok (4, None), s') /\
    be_holds (storage s') x' {[(1, 0)%N := [x07; x08; x09; x0a]]}).
Proof.
  destruct (FileBlock_implements never swap_new 0 block_new 1 0 2 0 [] swap_new_paged) as (_ & Hw & _). split.
  - destruct (Hw [x07; x08] 1%nat ltac:(lia) ltac:(lia) ltac:(reflexivity) ltac:(vm_compute; discriminate)) as [H _].
    destruct (H ltac:(lia)) as (s' & b' & Hrun & Hp & _). exists s', b'. split; [exact Hrun | exact Hp].
  - destruct (Hw [x07; x08; x09; x0a] 2%nat ltac:(lia) ltac:(lia) ltac:(reflexivity) ltac:(vm_compute; discriminate)) as [_ H].
    destruct (H ltac:(lia) tt ∅) as (s' & x' & Hrun & Hh).
    + split_and!; [reflexivity | intros; cbn; by rewrite !lookup_empty | intros k d; by rewrite lookup_empty].
    + intros old. by rewrite lookup_empty.
    + split; vm_compute; reflexivity.
    + exists s', x'. split; [exact Hrun | exact Hh].
Defined.

(** One byte of a page of two. *)
Definition swap_half : Swap MemStorageBackend := (WriteAt never 0 [x07] 0 swap_new).2.

Lemma ReadAt_partial_hangs_witness : ReadAt 0 [x00] 1 swap_half = (Err Blocked, swap_half).
Proof.
  refine (proj2 (ReadAt_partial_hangs swap_half 0 (default block_new (objs swap_half !! 0%nat)) (mkFilePage 0 2 1)
    (mkFile [x07] false) [x00] 1 1 0 _ _ _ _ _ _ _ _ _ _ _ _ _ _)); try (vm_compute; reflexivity); try (vm_compute; discriminate).
  vm_compute. split; [discriminate | reflexivity].
Defined.

(** The second write into a page adds its offset to the size of the page, so the
    flush takes bytes of the next page for this one: a block written as 1, 2 and
    then 3 4 is stored as 1 2 3 3. *)
Theorem page_rewrite_corrupts :
  let s := foldl (fun s o => (run_swap never o s).2) swap_new [WriteBlock 0 [x01] 0; WriteBlock 0 [x02] 1; WriteBlock 0 [x03; x04] 2] in
  backed (storage s) !! NewBlockKey 1 0 = Some [x01; x02; x03; x03].
Proof. vm_compute. reflexivity. Qed.
