(* ===== verification/Uploader.v ===== *)
(** The upload pipeline of an open file, src/pkg/hugofs/vfs/buffer/uploader.go, with
    the executor that runs its uploads (util/executor/limited_executor.go): blocks
    in memory and in the swap file that take the writes, and the goroutines that
    send finished blocks to the storage backend.  The calls of a pipeline come one
    at a time; the goroutines run between its critical sections in the order of a
    schedule. *)
From Stdlib Require Import Ascii Strings.Byte ZArith Lia.
From stdpp Require Import prelude gmap strings list list_numbers.
From S2P Require Import Prelude Store Hash SlotPool Interval IntervalProps Volume StorageBackend MemBlock FileBlock.

Open Scope Z_scope.

(** * State *)

(** A value of the interface Block: a block in memory or one of the swap file. *)
Inductive Block := MemRef (i : nat) | FileRef (i : nat).

Record SealedBlock := mkSealedBlock { block : option Block; refCount : Z }.

(** A goroutine of the executor, which has one of its tokens: the sealed block it
    uploads, the index of the block in the file, and whether it has flushed it. *)
Record uploader := mkUploader { u_sealed : nat; u_idx : Z; u_flushed : bool }.

(** What runs next: an uploader, by its sealed block; an eviction of the swap
    file; or the caller of the pipeline. *)
Inductive event := Upload (sid : nat) | Evict (id : nat) | Caller.
#[export] Instance event_eq_dec : EqDecision event.
Proof. solve_decision. Defined.

(** The blocks in memory and the sealed blocks are listed by address; the storage
    backend is the one of the swap file.  [waiters] are the uploaders that sleep
    on readerCountCond, the first one first. *)
Record UploadPipeline (T : Type) := mkUploadPipeline {
  up_ino : N;
  up_blockSize : Z;
  up_limit : nat;
  mems : list MemBlock;
  sealed : list SealedBlock;
  swapFile : Swap T;
  writeBlocks : gmap Z Block;
  sealedBlocks : gmap Z nat;
  retiredBlocks : gmap Z nat;
  activeReadBlocks : gmap Z Z;
  uploaderCount : Z;
  uploaders : list uploader;
  waiters : list nat;
  sched : list event }.
Arguments mkUploadPipeline {T}.
Arguments up_ino {T}. Arguments up_blockSize {T}. Arguments up_limit {T}. Arguments mems {T}. Arguments sealed {T}.
Arguments swapFile {T}. Arguments writeBlocks {T}. Arguments sealedBlocks {T}. Arguments retiredBlocks {T}.
Arguments activeReadBlocks {T}. Arguments uploaderCount {T}. Arguments uploaders {T}. Arguments waiters {T}.
Arguments sched {T}.

Section setters.
Context {T : Type}.
Implicit Types s : UploadPipeline T.
Definition with_mems x s := mkUploadPipeline (up_ino s) (up_blockSize s) (up_limit s) x (sealed s) (swapFile s) (writeBlocks s) (sealedBlocks s) (retiredBlocks s) (activeReadBlocks s) (uploaderCount s) (uploaders s) (waiters s) (sched s).
Definition with_sealed x s := mkUploadPipeline (up_ino s) (up_blockSize s) (up_limit s) (mems s) x (swapFile s) (writeBlocks s) (sealedBlocks s) (retiredBlocks s) (activeReadBlocks s) (uploaderCount s) (uploaders s) (waiters s) (sched s).
Definition with_swapFile (x : Swap T) s := mkUploadPipeline (up_ino s) (up_blockSize s) (up_limit s) (mems s) (sealed s) x (writeBlocks s) (sealedBlocks s) (retiredBlocks s) (activeReadBlocks s) (uploaderCount s) (uploaders s) (waiters s) (sched s).
Definition with_writeBlocks x s := mkUploadPipeline (up_ino s) (up_blockSize s) (up_limit s) (mems s) (sealed s) (swapFile s) x (sealedBlocks s) (retiredBlocks s) (activeReadBlocks s) (uploaderCount s) (uploaders s) (waiters s) (sched s).
Definition with_sealedBlocks x s := mkUploadPipeline (up_ino s) (up_blockSize s) (up_limit s) (mems s) (sealed s) (swapFile s) (writeBlocks s) x (retiredBlocks s) (activeReadBlocks s) (uploaderCount s) (uploaders s) (waiters s) (sched s).
Definition with_retiredBlocks x s := mkUploadPipeline (up_ino s) (up_blockSize s) (up_limit s) (mems s) (sealed s) (swapFile s) (writeBlocks s) (sealedBlocks s) x (activeReadBlocks s) (uploaderCount s) (uploaders s) (waiters s) (sched s).
Definition with_activeReadBlocks x s := mkUploadPipeline (up_ino s) (up_blockSize s) (up_limit s) (mems s) (sealed s) (swapFile s) (writeBlocks s) (sealedBlocks s) (retiredBlocks s) x (uploaderCount s) (uploaders s) (waiters s) (sched s).
Definition with_uploaderCount x s := mkUploadPipeline (up_ino s) (up_blockSize s) (up_limit s) (mems s) (sealed s) (swapFile s) (writeBlocks s) (sealedBlocks s) (retiredBlocks s) (activeReadBlocks s) x (uploaders s) (waiters s) (sched s).
Definition with_uploaders x s := mkUploadPipeline (up_ino s) (up_blockSize s) (up_limit s) (mems s) (sealed s) (swapFile s) (writeBlocks s) (sealedBlocks s) (retiredBlocks s) (activeReadBlocks s) (uploaderCount s) x (waiters s) (sched s).
Definition with_waiters x s := mkUploadPipeline (up_ino s) (up_blockSize s) (up_limit s) (mems s) (sealed s) (swapFile s) (writeBlocks s) (sealedBlocks s) (retiredBlocks s) (activeReadBlocks s) (uploaderCount s) (uploaders s) x (sched s).
Definition with_sched x s := mkUploadPipeline (up_ino s) (up_blockSize s) (up_limit s) (mems s) (sealed s) (swapFile s) (writeBlocks s) (sealedBlocks s) (retiredBlocks s) (activeReadBlocks s) (uploaderCount s) (uploaders s) (waiters s) x.
End setters.

(** The counter in this package, which nothing changes. *)
Definition memBlockCounter : Z := 0.

(** A page is at most as large as a block. *)
Definition NewUploadPipeline {T} (ino : N) (BlockSize PageSize : Z) (Limit : nat) (ctx : PageContext) (storage : T)
    (sc : list event) : UploadPipeline T :=
  mkUploadPipeline ino BlockSize Limit [] [] (NewSwapFile BlockSize PageSize Limit ctx storage) ∅ ∅ ∅ ∅ 0 [] [] sc.

Section pipeline.
Context {T : Type} {SB : StorageBackend T}.
(** Whether the text of an error contains block already exists; whether the
    temporary file of the swap file can be made; the order in which Go walks a
    map. *)
Context (already_exists : error -> bool) (temp : bool) (range : gmap Z Block -> list (Z * Block))
  (range_sealed : gmap Z nat -> list (Z * nat)).

Abbreviation UM A := (M (UploadPipeline T) fault A).

(** ** The interface Block *)

Definition on_mem {A} (i : nat) (m : M (MemBlock * T) fault A) : UM A := fun s =>
  match mems s !! i with
  | Some b =>
      let '(r, (b', t)) := m (b, storage (swapFile s)) in
      (r, with_swapFile (with_storage t (swapFile s)) (with_mems (<[i := b']> (mems s)) s))
  | None => (Panic, s)
  end.
Definition on_swap {A} (m : M (Swap T) fault A) : UM A := fun s =>
  let '(r, sw) := m (swapFile s) in (r, with_swapFile sw s).
Definition attempt_up {A} (m : UM A) : UM (A + error) := fun s =>
  match m s with
  | (Ok a, s') => (Ok (inl a), s')
  | (Err (Fails e), s') => (Ok (inr e), s')
  | (Err Blocked, s') => (Err Blocked, s')
  | (Panic, s') => (Panic, s')
  end.

Definition blk_WriteAt (b : Block) (p : list byte) (off : Z) : UM (Z * option error) :=
  match b with
  | MemRef i => on_mem i (MemBlock.WriteAt already_exists p off)
  | FileRef i => on_swap (FileBlock.WriteAt already_exists i p off)
  end.
Definition blk_ReadAt (b : Block) (p : list byte) (off : Z) : UM (Z * option error * list byte) :=
  match b with
  | MemRef i => on_mem i (MemBlock.ReadAt p off)
  | FileRef i => on_swap (FileBlock.ReadAt i p off)
  end.
Definition blk_IsFull (b : Block) : UM bool :=
  match b with MemRef i => on_mem i MemBlock.IsFull | FileRef i => on_swap (FileBlock.IsFull i) end.
Definition blk_Written (b : Block) : UM Z :=
  match b with MemRef i => on_mem i MemBlock.Written | FileRef i => on_swap (FileBlock.Written i) end.
Definition blk_Destroy (b : Block) : UM unit :=
  match b with
  | MemRef i => on_mem i MemBlock.Destroy
  | FileRef i => on_swap (FileBlock.Destroy already_exists i)
  end.
Definition blk_IsDestroyed (b : Block) : UM bool :=
  match b with
  | MemRef i => on_mem i (b <- get_block ;; ret (MemBlock.IsDestroyed b))
  | FileRef i => on_swap (FileBlock.IsDestroyed i)
  end.
Definition blk_Flush (b : Block) : UM unit :=
  match b with
  | MemRef i => on_mem i (MemBlock.Flush already_exists)
  | FileRef i => on_swap (FileBlock.Flush already_exists i)
  end.

(** ** Sealed blocks and uploaders *)

(** A block that is nil panics when it is used. *)
Definition Release (sid : nat) : UM unit :=
  s <- gets Datatypes.id ;;
  sb <- deref (sealed s !! sid) ;;
  let n := refCount sb - 1 in
  modify (with_sealed (<[sid := mkSealedBlock (block sb) n]> (sealed s))) ;;;
  if n =? 0 then b <- deref (block sb) ;; blk_Destroy b else ret tt.

Definition is_locked (m : gmap Z Z) (idx : Z) : bool :=
  match m !! idx with Some count => 0 <? count | None => false end.
Definition IsLocked (idx : Z) : UM bool := gets (fun s => is_locked (activeReadBlocks s) idx).

Definition find_uploader (sid : nat) (l : list uploader) : option uploader :=
  match filter (fun u => u_sealed u = sid) l with u :: _ => Some u | [] => None end.
Definition drop_uploader (sid : nat) (l : list uploader) : list uploader :=
  filter (fun u => u_sealed u <> sid) l.

(** The function an uploader runs: it flushes the block and counts down, without
    the lock and without looking at the error; then, with the lock and when
    nobody reads the block, it forgets the block.  [held] says whether the caller
    has the lock. *)
Definition upload_flush (u : uploader) : UM unit :=
  s <- gets Datatypes.id ;;
  sb <- deref (sealed s !! u_sealed u) ;;
  b <- deref (block sb) ;;
  attempt_up (blk_Flush b) ;;;
  modify (fun s => with_uploaderCount (uploaderCount s - 1) s) ;;;
  modify (fun s => with_uploaders
    (map (fun v => if decide (u_sealed v = u_sealed u) then mkUploader (u_sealed v) (u_idx v) true else v) (uploaders s)) s).
Definition upload_end (u : uploader) : UM unit :=
  modify (fun s => with_sealedBlocks (delete (u_idx u) (sealedBlocks s)) s) ;;;
  Release (u_sealed u) ;;;
  modify (fun s => with_uploaders (drop_uploader (u_sealed u) (uploaders s)) s).
Definition upload_step (held : bool) (sid : nat) : UM unit :=
  s <- gets Datatypes.id ;;
  match find_uploader sid (uploaders s) with
  | None => ret tt
  | Some u =>
      if negb (u_flushed u) then upload_flush u
      else if held || bool_decide (sid ∈ waiters s) then ret tt
      else
        l <- IsLocked (u_idx u) ;;
        if l : bool then modify (with_waiters (waiters s ++ [sid])) else upload_end u
  end.
Definition evict_step (id : nat) : UM unit :=
  s <- gets Datatypes.id ;;
  if decide (id ∈ jobs (swapFile s)) then on_swap (run_eviction already_exists id) else ret tt.
Definition run_event (held : bool) (e : event) : UM unit :=
  match e with
  | Upload sid => upload_step held sid
  | Evict id => evict_step id
  | Caller => ret tt
  end.

(** The others run as the schedule says, until it is the turn of the caller and
    what it waits for holds.  With the schedule at its end nothing else runs.  The
    state has no schedule meanwhile. *)
Fixpoint await (held : bool) (cond : UploadPipeline T -> bool) (sc : list event) : UM unit :=
  match sc with
  | [] => s <- gets Datatypes.id ;; if cond s then ret tt else throw Blocked
  | Caller :: sc =>
      s <- gets Datatypes.id ;;
      if cond s then modify (with_sched sc) else await held cond sc
  | e :: sc => run_event held e ;;; await held cond sc
  end.
Definition wait_for (held : bool) (cond : UploadPipeline T -> bool) : UM unit :=
  s <- gets Datatypes.id ;; modify (with_sched []) ;;; await held cond (sched s).
(** Taking the lock. *)
Definition Lock : UM unit := wait_for false (fun _ => true).

(** The executor starts a goroutine when it has a token. *)
Definition has_token (s : UploadPipeline T) : bool := (length (uploaders s) <? up_limit s)%nat.
Definition Execute (sid : nat) (idx : Z) : UM unit :=
  wait_for false has_token ;;;
  modify (fun s => with_uploaders (uploaders s ++ [mkUploader sid idx false]) s).

(** The lock is given up while the executor is waited for. *)
Definition move2Sealed (b : option Block) (idx : Z) : UM unit :=
  modify (fun s => with_uploaderCount (uploaderCount s + 1) s) ;;;
  s <- gets Datatypes.id ;;
  match sealedBlocks s !! idx with Some old => Release old | None => ret tt end ;;;
  s <- gets Datatypes.id ;;
  let sid := length (sealed s) in
  modify (with_sealed (sealed s ++ [mkSealedBlock b 1])) ;;;
  modify (fun s => with_sealedBlocks (<[idx := sid]> (sealedBlocks s)) s) ;;;
  modify (fun s => with_writeBlocks (delete idx (writeBlocks s)) s) ;;;
  Execute sid idx ;;;
  Lock.

(** ** Writing *)

(** The write block with most bytes, and how many it has. *)
Fixpoint largest (l : list (Z * Block)) (candidateBlockIdx largestWritten : Z) : UM Z :=
  match l with
  | [] => ret candidateBlockIdx
  | (lci, mc) :: l =>
      w <- blk_Written mc ;;
      if largestWritten <? w then largest l lci w else largest l candidateBlockIdx largestWritten
  end.

(** The block a write goes to.  Neither a block nor an error of the swap file is
    a nil block. *)
Definition new_block_for (blockIdx : Z) : UM Block :=
  s <- gets Datatypes.id ;;
  (if (up_limit s <? size (writeBlocks s))%nat then
     c <- largest (range (writeBlocks s)) (-1) 0 ;;
     s <- gets Datatypes.id ;;
     move2Sealed (writeBlocks s !! c) c
   else ret tt) ;;;
  s <- gets Datatypes.id ;;
  let key := NewBlockKey (up_ino s) (to_uint64 blockIdx) in
  if (size (writeBlocks s) <? up_limit s)%nat && (memBlockCounter <? 4 * Z.of_nat (up_limit s)) then
    let i := length (mems s) in
    modify (with_mems (mems s ++ [NewMemBlockForWrite key (up_blockSize s)])) ;;;
    modify (fun s => with_writeBlocks (<[blockIdx := MemRef i]> (writeBlocks s)) s) ;;;
    ret (MemRef i)
  else
    r <- on_swap (NewFileBlock temp key) ;;
    match r with Some i => ret (FileRef i) | None => go_panic end.
Definition block_for (blockIdx : Z) : UM Block :=
  s <- gets Datatypes.id ;;
  match writeBlocks s !! blockIdx with
  | Some b => ret b
  | None =>
      r <- on_swap (GetBlock (NewBlockKey (up_ino s) (to_uint64 blockIdx))) ;;
      match r with Some i => ret (FileRef i) | None => new_block_for blockIdx end
  end.

(** A round that finds a destroyed block starts again; [fuel] bounds the rounds. *)
Fixpoint write_loop (fuel : nat) (p : list byte) (off blockIdx writeCnt : Z) : UM (Z * option error) :=
  match p with
  | [] => ret (writeCnt, None)
  | _ =>
      match fuel with
      | O => throw Blocked
      | S fuel =>
          b <- block_for blockIdx ;;
          d <- blk_IsDestroyed b ;;
          if d : bool then
            modify (fun s => with_writeBlocks (delete blockIdx (writeBlocks s)) s) ;;;
            write_loop fuel p off blockIdx writeCnt
          else
            r <- blk_WriteAt b p off ;;
            match r with
            | (_, Some e) => ret (writeCnt, Some e)
            | (n, None) =>
                f <- blk_IsFull b ;;
                (if f : bool then move2Sealed (Some b) blockIdx else ret tt) ;;;
                write_loop fuel (drop (Z.to_nat n) p) (off + n) (blockIdx + 1) (writeCnt + n)
            end
      end
  end.

Definition WriteAt (fuel : nat) (p : list byte) (off : Z) : UM (Z * option error) :=
  Lock ;;;
  s <- gets Datatypes.id ;;
  if up_blockSize s =? 0 then go_panic else
  write_loop fuel p off (Z.quot off (up_blockSize s)) 0.

(** ** Reading *)

(** Reading a retired or a sealed block, where there is one; [inr] when that ends
    the call. *)
Definition read_sealed (which : UploadPipeline T -> gmap Z nat) (idx : Z) (off : Z) (st : Z * list byte) :
    UM ((Z * list byte) + (Z * option error * list byte)) :=
  s <- gets Datatypes.id ;;
  match which s !! idx with
  | None => ret (inl st)
  | Some sid =>
      sb <- deref (sealed s !! sid) ;;
      b <- deref (block sb) ;;
      r <- blk_ReadAt b st.2 off ;;
      match r with
      | (n, Some e, p) => ret (inr (n, Some e, p))
      | (n, None, p) => ret (inl (n, p))
      end
  end.

Definition ReadAt (p : list byte) (off : Z) : UM (Z * option error * list byte) :=
  s <- gets Datatypes.id ;;
  if up_blockSize s =? 0 then go_panic else
  let blockIdx := Z.quot off (up_blockSize s) in
  Lock ;;;
  r <- read_sealed retiredBlocks blockIdx off (0, p) ;;
  match r with
  | inr x => ret x
  | inl st =>
      r <- read_sealed sealedBlocks blockIdx off st ;;
      match r with
      | inr x => ret x
      | inl (n, p) =>
          s <- gets Datatypes.id ;;
          match writeBlocks s !! blockIdx with
          | Some b => blk_ReadAt b p off
          | None =>
              f <- on_swap (GetBlock (NewBlockKey (up_ino s) (to_uint64 blockIdx))) ;;
              match f with
              | Some i => blk_ReadAt (FileRef i) p off
              | None => ret (n, None, p)
              end
          end
      end
  end.

(** The blocks a range of bytes touches. *)
Definition touched (B start end_ : Z) : list Z :=
  let startIdx := Z.quot start B in
  let endIdx := Z.quot end_ B + (if 0 <? Z.rem end_ B then 1 else 0) in
  seqZ startIdx (endIdx - startIdx).

Definition LockForRead (start end_ : Z) : UM unit :=
  Lock ;;;
  modify (fun s => with_activeReadBlocks
    (foldl (fun m i => match m !! i with Some count => <[i := count + 1]> m | None => <[i := 1]> m end)
           (activeReadBlocks s) (touched (up_blockSize s) start end_)) s).

(** A signal wakes the uploader that has slept longest, whatever it waits for. *)
Definition unlock_block (s : UploadPipeline T) (i : Z) : UploadPipeline T :=
  match activeReadBlocks s !! i with
  | None => s
  | Some count =>
      if count =? 1 then with_waiters (drop 1 (waiters s)) (with_activeReadBlocks (delete i (activeReadBlocks s)) s)
      else with_activeReadBlocks (<[i := count - 1]> (activeReadBlocks s)) s
  end.
Definition UnlockForRead (start end_ : Z) : UM unit :=
  Lock ;;;
  modify (fun s => foldl unlock_block s (touched (up_blockSize s) start end_)).

(** ** Flushing *)

(** The map is walked while blocks leave it. *)
Fixpoint seal_all (l : list (Z * Block)) : UM unit :=
  match l with
  | [] => ret tt
  | (idx, b) :: l =>
      s <- gets Datatypes.id ;;
      match writeBlocks s !! idx with Some b => move2Sealed (Some b) idx | None => ret tt end ;;;
      seal_all l
  end.
(** Uploaders count down without the lock, which the caller keeps. *)
Definition waitForCurrentWritersToComplete : UM unit := wait_for true (fun s => uploaderCount s <=? 0).
Definition FlushAll : UM unit :=
  Lock ;;;
  s <- gets Datatypes.id ;;
  seal_all (range (writeBlocks s)) ;;;
  waitForCurrentWritersToComplete.

Fixpoint release_all (l : list (Z * nat)) : UM unit :=
  match l with
  | [] => ret tt
  | (_, sid) :: l => Release sid ;;; release_all l
  end.
Definition Destory : UM unit :=
  Lock ;;;
  s <- gets Datatypes.id ;;
  modify (with_retiredBlocks ∅) ;;;
  release_all (range_sealed (retiredBlocks s)) ;;;
  s <- gets Datatypes.id ;;
  modify (with_sealedBlocks ∅) ;;;
  release_all (range_sealed (sealedBlocks s)) ;;;
  on_swap (FreeResource already_exists).
End pipeline.
