(* ===== verification/UploaderProps.v ===== *)
(** Correctness of the upload pipeline of Uploader.v: what is written through it
    reaches the storage backend, however its goroutines are scheduled. *)
From Stdlib Require Import Ascii Strings.Byte ZArith Lia.
From stdpp Require Import prelude gmap strings list list_numbers.
From S2P Require Import Prelude Store Hash SlotPool Interval IntervalProps Volume StorageBackend FileBlock MemBlock Uploader.

Open Scope Z_scope.

(** * Triples *)

Section triples.
Context {T : Type}.
Abbreviation UM A := (M (UploadPipeline T) fault A).
Implicit Types s : UploadPipeline T.

(** From a state with [P] the call [m] returns with [Q] under every schedule that
    goes on long enough, and every schedule can go on so that it does. *)
Definition returns {A} (P : UploadPipeline T -> Prop) (m : UM A) (Q : A -> UploadPipeline T -> Prop) : Prop :=
  forall s, P s ->
    (forall sc, (exists a s', m (with_sched sc s) = (Ok a, s') /\ Q a s') \/
                (exists s', m (with_sched sc s) = (Err Blocked, s'))) /\
    (forall sc, exists more rest a s', Q a s' /\
       forall x, m (with_sched (sc ++ more ++ x) s) = (Ok a, with_sched (rest ++ x) s')).

Lemma returns_step {A} (P : UploadPipeline T -> Prop) (m : UM A) (Q : A -> UploadPipeline T -> Prop) :
  (forall s, P s -> exists a s', Q a s' /\ (forall sc, Q a (with_sched sc s')) /\
     forall sc, m (with_sched sc s) = (Ok a, with_sched sc s')) ->
  returns P m Q.
Proof.
  intros H s Hs. destruct (H s Hs) as (a & s' & HQ & HQ' & Hm). split; intros sc.
  - left. eexists a, _. split; [apply Hm|]. apply HQ'.
  - exists [], sc, a, s'. split; [done|]. intros x. apply Hm.
Qed.

Lemma returns_bind {A B} P (m : UM A) (k : A -> UM B) Q R :
  returns P m Q -> (forall a, returns (Q a) (k a) R) -> returns P (bind m k) R.
Proof.
  intros Hm Hk s Hs. destruct (Hm s Hs) as [Hs1 Hs2]. split; intros sc.
  - destruct (Hs1 sc) as [(a & s' & E & HQ)|(s' & E)]; unfold bind; rewrite E; [|right; by eexists].
    destruct s' as [? ? ? ? ? ? ? ? ? ? ? ? ? sc']. exact (proj1 (Hk a _ HQ) sc').
  - destruct (Hs2 sc) as (more1 & rest1 & a & s1 & HQ & E1).
    destruct (proj2 (Hk a _ HQ) rest1) as (more2 & rest2 & b & s2 & HR & E2).
    exists (more1 ++ more2), rest2, b, s2. split; [done|]. intros x. unfold bind. rewrite <- !app_assoc, E1. apply E2.
Qed.

Lemma returns_conseq {A} (P P' : UploadPipeline T -> Prop) (m : UM A) (Q Q' : A -> UploadPipeline T -> Prop) :
  returns P m Q -> (forall s, P' s -> P s) -> (forall a s, Q a s -> Q' a s) -> returns P' m Q'.
Proof.
  intros Hm HP HQ s Hs. destruct (Hm s (HP s Hs)) as [H1 H2]. split; intros sc.
  - destruct (H1 sc) as [(a & s' & E & H)|?]; [left; exists a, s'; split; [done|by apply HQ] | by right].
  - destruct (H2 sc) as (more & rest & a & s' & H & E). exists more, rest, a, s'. split; [by apply HQ|done].
Qed.

Lemma returns_exists {A X} (P : X -> UploadPipeline T -> Prop) (m : UM A) Q :
  (forall x, returns (P x) m Q) -> returns (fun s => exists x, P x s) m Q.
Proof. intros H s [x Hx]. by apply (H x). Qed.
Lemma returns_ret {A} (P : UploadPipeline T -> Prop) (a : A) : returns P (ret a) (fun r s => r = a /\ exists sc, P (with_sched sc s)).
Proof.
  intros s Hs. split; intros sc.
  - left. exists a, (with_sched sc s). split; [done|]. split; [done|]. exists (sched s). by destruct s.
  - exists [], sc, a, s. split; [|done]. split; [done|]. exists (sched s). by destruct s.
Qed.
End triples.

(** * The invariant *)

Lemma find_uploader_Some sid l u : find_uploader sid l = Some u -> u ∈ l /\ u_sealed u = sid.
Proof.
  unfold find_uploader. destruct (filter _ l) as [|v k] eqn:E; [done|]. intros [= ->].
  assert (Hu : u ∈ filter (fun u => u_sealed u = sid) l) by (rewrite E; by left). apply list_elem_of_filter in Hu. tauto.
Qed.

Section props.
Context {T : Type} {SB : StorageBackend T} {BS : BackendSpec T}.
Context (already_exists : error -> bool) (temp : bool) (range : gmap Z Block -> list (Z * Block))
  (range_sealed : gmap Z nat -> list (Z * nat)).
Context (B : Z) (limit : nat) (ino : N).
Abbreviation UM A := (M (UploadPipeline T) fault A).
Abbreviation contents := (gmap (N * N) (list byte)).
(** The writes of a block, the last one first, and its bytes. *)
Abbreviation writes := (list (Z * Z) * list byte)%type.

(** A block that is flushed, with bytes of its own. *)
Definition uploaded_block (b : MemBlock) : Prop := flushed b = true /\ shared b = None.

(** A block of the pipeline has writes that are not flushed, and which do not
    overlap, or it is flushed. *)
Definition block_is (st : option writes) (n : N) (b : MemBlock) : Prop :=
  blockSize b = B /\
  match st with
  | Some (ws, buf) => buffered b ino n ws buf /\ ws <> [] /\ sum_len ws = count_covered B ws
  | None => uploaded_block b
  end.

(** The pipeline takes writes into the blocks [open]; the sealed blocks [pend], by
    their address, wait for their upload, and the backend has [c].  [lim] is an
    uploader that waits for a token. *)
Record pipe (s : UploadPipeline T) (open : gmap N (option writes)) (pend : gmap nat (N * writes)) (c : contents)
    (lim : list uploader) : Prop := {
  p_ino : up_ino s = ino;
  p_size : up_blockSize s = B;
  p_limit : up_limit s = limit;
  p_lookup : lookup (swapFile s) = ∅;
  p_jobs : jobs (swapFile s) = [];
  p_reads : activeReadBlocks s = ∅;
  p_waiters : waiters s = [];
  p_retired : retiredBlocks s = ∅;
  p_backend : exists x, be_holds (storage (swapFile s)) x c;
  p_lens : forall n d, c !! (ino, n) = Some d -> Z.of_nat (length d) = B;
  p_write : forall idx r, writeBlocks s !! idx = Some r -> exists n i b st,
    idx = Z.of_N n /\ (n < 2 ^ 64)%N /\ r = MemRef i /\ open !! n = Some st /\ mems s !! i = Some b /\
    block_is st n b /\ closed b = false;
  p_open : forall n st, open !! n = Some st -> is_Some (writeBlocks s !! Z.of_N n);
  p_inj : forall idx idx' i,
    writeBlocks s !! idx = Some (MemRef i) -> writeBlocks s !! idx' = Some (MemRef i) -> idx = idx';
  p_sealed : forall sid sb, sealed s !! sid = Some sb -> exists i b,
    block sb = Some (MemRef i) /\ mems s !! i = Some b /\ (forall idx, writeBlocks s !! idx <> Some (MemRef i)) /\
    match pend !! sid with
    | Some (n, w) => block_is (Some w) n b
    | None => uploaded_block b
    end;
  p_sealed_inj : forall sid sid' sb sb',
    sealed s !! sid = Some sb -> sealed s !! sid' = Some sb' -> block sb = block sb' -> sid = sid';
  p_nodup : NoDup (u_sealed <$> uploaders s ++ lim);
  p_ups : Forall (fun u => (u_sealed u < length (sealed s))%nat) (uploaders s ++ lim);
  p_count : uploaderCount s = Z.of_nat (length (filter (fun u => u_flushed u = false) (uploaders s ++ lim)));
  p_tokens : (length (uploaders s) <= limit)%nat;
  p_map : forall idx sid, sealedBlocks s !! idx = Some sid -> (sid < length (sealed s))%nat /\
    forall n w, pend !! sid = Some (n, w) -> idx = Z.of_N n;
  p_pend : forall sid n w, pend !! sid = Some (n, w) ->
    (exists u, u ∈ uploaders s ++ lim /\ u_sealed u = sid /\ u_flushed u = false) /\ open !! n = None /\
    (n < 2 ^ 64)%N /\ IsAllBytesZero (stored B w.1 c (ino, n) w.2) = false;
  p_pend_inj : forall sid sid' n w w', pend !! sid = Some (n, w) -> pend !! sid' = Some (n, w') -> sid = sid';
}.

(** An upload takes a block from [pend] to the backend. *)
Inductive uploaded : gmap nat (N * writes) * contents -> gmap nat (N * writes) * contents -> Prop :=
| uploaded_one pend (c : contents) sid n w : pend !! sid = Some (n, w) ->
    uploaded (pend, c) (delete sid pend, <[(ino, n) := stored B w.1 c (ino, n) w.2]> c).
Abbreviation uploads := (rtc uploaded).
Context (HB : 0 < B <= MaxInt) (Hino : (ino < 2 ^ 64)%N).
(** The backend has room for every block of [B] bytes that is not all zeros. *)
Context (Hroom : forall t x c d, be_holds t x c -> Z.of_nat (length d) = B -> IsAllBytesZero d = false -> be_can t x d).

(** ** What an upload changes *)

Lemma length_stored c n b w :
  block_is (Some w) n b -> (forall d, c !! (ino, n) = Some d -> Z.of_nat (length d) = B) ->
  Z.of_nat (length (stored B w.1 c (ino, n) w.2)) = B.
Proof.
  destruct w as [ws buf]. intros (Hs & Hb & _) Hold. pose proof (bu_len _ _ _ _ _ Hb) as Hl. rewrite Hs in Hl.
  cbn [fst snd]. unfold stored. case_decide; [done|]. unfold merged. destruct (c !! (ino, n)) as [d|]; [|done].
  rewrite length_overlay. by apply Hold.
Qed.
Lemma stored_insert_ne (c : contents) ws k k' d buf : k <> k' -> stored B ws (<[k := d]> c) k' buf = stored B ws c k' buf.
Proof. intros Hk. unfold stored, merged. by rewrite lookup_insert_ne. Qed.

(** The contents after the block of [sid] is uploaded, if it waits for that. *)
Definition after_upload (pend : gmap nat (N * writes)) (sid : nat) (c : contents) : contents :=
  match pend !! sid with
  | Some (n, w) => <[(ino, n) := stored B w.1 c (ino, n) w.2]> c
  | None => c
  end.
Lemma after_upload_uploads pend sid c : uploads (pend, c) (delete sid pend, after_upload pend sid c).
Proof.
  unfold after_upload. destruct (pend !! sid) as [[n w]|] eqn:E; [by apply rtc_once, (uploaded_one _ _ _ n)|].
  by rewrite delete_id.
Qed.

(** The block of a sealed block is flushed. *)
Lemma pipe_flushed s open pend c lim sid sb i b' t' :
  pipe s open pend c lim -> sealed s !! sid = Some sb -> block sb = Some (MemRef i) -> uploaded_block b' ->
  (exists x, be_holds t' x (after_upload pend sid c)) ->
  pipe (with_swapFile (with_storage t' (swapFile s)) (with_mems (<[i := b']> (mems s)) s)) open (delete sid pend)
    (after_upload pend sid c) lim.
Proof.
  intros HI Hsid Hblk Hf Hh. destruct (p_sealed _ _ _ _ _ HI sid sb Hsid) as (i0 & b & Hblk' & Hb & Hnw & Hst).
  assert (i0 = i) as -> by congruence.
  assert (Hc : forall n, (forall w, pend !! sid <> Some (n, w)) -> after_upload pend sid c !! (ino, n) = c !! (ino, n) /\
      forall ws buf, stored B ws (after_upload pend sid c) (ino, n) buf = stored B ws c (ino, n) buf).
  { intros n Hn. unfold after_upload. destruct (pend !! sid) as [[n' w]|] eqn:E; [|done].
    assert ((ino, n') <> (ino, n)) by (intros [= ->]; by eapply Hn). rewrite lookup_insert_ne by done.
    split; [done|]. intros. by apply stored_insert_ne. }
  destruct HI. split; cbn; try done.
  - intros n d. unfold after_upload. destruct (pend !! sid) as [[n' w]|] eqn:E; [|by apply p_lens0].
    rewrite lookup_insert_Some. intros [[[= ->] <-]|[_ Hd]]; [|by eapply p_lens0].
    apply (length_stored c n b w Hst). apply p_lens0.
  - intros idx r Hr. destruct (p_write0 idx r Hr) as (n & i1 & b1 & st & H). exists n, i1, b1, st.
    rewrite list_lookup_insert_ne; [done|]. intros <-. destruct H as (_ & _ & -> & _). by apply (Hnw idx).
  - intros sid' sb' Hsid'. destruct (decide (sid' = sid)) as [->|Hne].
    + exists i, b'. rewrite lookup_delete_eq. assert (sb' = sb) as -> by congruence. split_and!; [done| |done|done].
      apply list_lookup_insert_eq. by eapply lookup_lt_Some.
    + destruct (p_sealed0 sid' sb' Hsid') as (i1 & b1 & Hb1 & H). exists i1, b1. rewrite lookup_delete_ne by done.
      rewrite list_lookup_insert_ne; [done|]. intros <-. apply Hne. eapply p_sealed_inj0; [done..|congruence].
  - intros idx sid' Hidx. destruct (p_map0 idx sid' Hidx) as [Hlt Hn]. split; [done|]. intros n w.
    rewrite lookup_delete_Some. intros [_ Hp]. by eapply Hn.
  - intros sid' n w. rewrite lookup_delete_Some. intros [Hne Hp]. destruct (p_pend0 sid' n w Hp) as (Hu & Ho & Hlt & Hz).
    split_and!; try done.
    destruct (Hc n) as [_ ->]; [|done]. intros w' Hw'. apply Hne. by eapply p_pend_inj0.
  - intros sid1 sid2 n w w'. rewrite !lookup_delete_Some. intros [_ H1] [_ H2]. by eapply p_pend_inj0.
Qed.

Lemma on_mem_run {A} i (m : M (MemBlock * T) fault A) s b r b' t' :
  mems s !! i = Some b -> m (b, storage (swapFile s)) = (r, (b', t')) ->
  on_mem i m s = (r, with_swapFile (with_storage t' (swapFile s)) (with_mems (<[i := b']> (mems s)) s)).
Proof. intros Hb Hm. unfold on_mem. by rewrite Hb, Hm. Qed.

(** An uploader flushes its block, whose bytes then are in the backend. *)
Lemma blk_Flush_run s open pend c lim sid sb i :
  pipe s open pend c lim -> sealed s !! sid = Some sb -> block sb = Some (MemRef i) ->
  exists s', blk_Flush already_exists (MemRef i) s = (Ok tt, s') /\
    pipe s' open (delete sid pend) (after_upload pend sid c) lim /\
    sealed s' = sealed s /\ uploaders s' = uploaders s /\ uploaderCount s' = uploaderCount s /\ writeBlocks s' = writeBlocks s.
Proof.
  intros HI Hsid Hblk. destruct (p_sealed _ _ _ _ _ HI sid sb Hsid) as (i0 & b & Hblk' & Hb & Hnw & Hst).
  assert (i0 = i) as -> by congruence. destruct (p_backend _ _ _ _ _ HI) as [x Hh].
  assert (exists b' t' x', MemBlock.Flush already_exists (b, storage (swapFile s)) = (Ok tt, (b', t')) /\ uploaded_block b' /\
      be_holds t' x' (after_upload pend sid c)) as (b' & t' & x' & Hrun & Hf & Hh').
  { unfold after_upload. destruct (pend !! sid) as [[n w]|] eqn:E.
    - destruct w as [ws buf]. pose proof Hst as (Hs & Hbu & Hne & Hsum). cbn [fst snd].
      destruct (p_pend _ _ _ _ _ HI sid n (ws, buf) E) as (_ & _ & Hn & Hz).
      pose proof (p_lens _ _ _ _ _ HI) as Hlens.
      destruct (doFlush_run already_exists b (storage (swapFile s)) x c ino n ws buf Hbu Hne Hh) as (h' & t' & x' & Hrun & Hh' & _).
      + rewrite Hs. by apply Hlens.
      + rewrite Hs. eapply Hroom; [done| |done]. eapply (length_stored c n b (ws, buf)); [done|]. by apply Hlens.
      + rewrite Hs in Hh'. exists (after_flush b h'), t', x'. split_and!; [done | | done]. split; [done|apply (bu_shared _ _ _ _ _ Hbu)].
    - exists b, (storage (swapFile s)), x. split_and!; [apply Flush_flushed, Hst|done|done]. }
  eexists. split; [apply (on_mem_run _ _ _ _ _ _ _ Hb Hrun)|]. split; [|done].
  eapply pipe_flushed; eauto.
Qed.
(** ** Steps of the uploaders *)

Definition same (s s' : UploadPipeline T) : Prop :=
  uploaders s' = uploaders s /\ uploaderCount s' = uploaderCount s /\ writeBlocks s' = writeBlocks s /\
  sealedBlocks s' = sealedBlocks s /\ length (sealed s') = length (sealed s).

Lemma ups_uniq (l : list uploader) u u' :
  NoDup (u_sealed <$> l) -> u ∈ l -> u' ∈ l -> u_sealed u = u_sealed u' -> u = u'.
Proof.
  intros Hnd Hu Hu' E. apply list_elem_of_lookup in Hu as [j Hj], Hu' as [j' Hj'].
  assert (j = j') as <-; [|congruence]. eapply (NoDup_lookup _ _ _ (u_sealed u)); [done|..]; rewrite list_lookup_fmap.
  - by rewrite Hj.
  - by rewrite Hj', E.
Qed.

Lemma pipe_refcount s open pend c lim sid sb n :
  pipe s open pend c lim -> sealed s !! sid = Some sb ->
  pipe (with_sealed (<[sid := mkSealedBlock (block sb) n]> (sealed s)) s) open pend c lim.
Proof.
  intros HI Hsid.
  assert (Hl : forall k sb', <[sid := mkSealedBlock (block sb) n]> (sealed s) !! k = Some sb' ->
      exists sb0, sealed s !! k = Some sb0 /\ block sb' = block sb0).
  { intros k sb'. destruct (decide (k = sid)) as [->|Hne].
    - rewrite list_lookup_insert_eq by (by eapply lookup_lt_Some). intros [= <-]. by exists sb.
    - rewrite list_lookup_insert_ne by done. by exists sb'. }
  destruct HI. split; cbn; rewrite ?length_insert; try done.
  - intros k sb' (sb0 & H0 & E)%Hl. rewrite E. by apply p_sealed0.
  - intros k k' s1 s2 (a & Ha & E1)%Hl (b & Hb & E2)%Hl. rewrite E1, E2. by apply p_sealed_inj0.
Qed.

Lemma Release_run s open pend c lim sid :
  pipe s open pend c lim -> (sid < length (sealed s))%nat -> pend !! sid = None ->
  exists s', Release already_exists sid s = (Ok tt, s') /\ pipe s' open pend c lim /\ same s s'.
Proof.
  intros HI Hlt Hp. destruct (lookup_lt_is_Some_2 _ _ Hlt) as [sb Hsid].
  destruct (p_sealed _ _ _ _ _ HI sid sb Hsid) as (i & b & Hblk & Hb & _ & Hf). rewrite Hp in Hf.
  unfold Release, bind at 1, gets, Datatypes.id. rewrite Hsid. unfold deref at 1, bind at 1, ret at 1.
  unfold bind at 1, modify at 1. set (sb' := mkSealedBlock (block sb) (refCount sb - 1)).
  set (s1 := with_sealed _ s). pose proof (pipe_refcount s open pend c lim sid sb (refCount sb - 1) HI Hsid) as HI1.
  fold sb' s1 in HI1. assert (Hlen : length (sealed s1) = length (sealed s)) by apply length_insert.
  destruct (_ =? 0); [|by exists s1].
  rewrite Hblk. unfold deref, bind, ret. cbn [blk_Destroy].
  assert (Hs1 : sealed s1 !! sid = Some sb') by (by apply list_lookup_insert_eq).
  assert (exists b', MemBlock.Destroy (b, storage (swapFile s1)) = (Ok tt, (b', storage (swapFile s1))) /\ uploaded_block b')
    as (b' & Hd & Hf').
  { destruct Hf as [Hf Hsh]. unfold MemBlock.Destroy, bind, get_block, gets. cbn [fst].
    destruct (closed b); [by exists b|]. unfold modify, free_bytes. cbn [fst]. rewrite Hsh. by eexists. }
  eexists. split; [exact (on_mem_run i _ s1 b _ _ _ Hb Hd)|]. split; [|done].
  pose proof (pipe_flushed s1 open pend c lim sid sb' i b' (storage (swapFile s1)) HI1 Hs1 Hblk Hf') as H.
  unfold after_upload in H. rewrite Hp, delete_id in H by done. apply H. apply (p_backend _ _ _ _ _ HI1).
Qed.

(** The uploader notes that it has flushed its block. *)
Definition marked (sid : nat) (l : list uploader) : list uploader :=
  map (fun v => if decide (u_sealed v = sid) then mkUploader (u_sealed v) (u_idx v) true else v) l.
Lemma marked_ids sid l : u_sealed <$> marked sid l = u_sealed <$> l.
Proof. unfold marked. rewrite <- list_fmap_compose. apply list_fmap_ext. intros ? v _. cbn. by case_decide. Qed.
Lemma marked_other sid l : sid ∉ u_sealed <$> l -> marked sid l = l.
Proof.
  induction l as [|v l IH]; [done|]. rewrite fmap_cons, not_elem_of_cons. intros [Hv Hl]. cbn.
  rewrite decide_False by done. f_equal. by apply IH.
Qed.
Lemma marked_count u l lim :
  NoDup (u_sealed <$> l) -> u ∈ l -> u_flushed u = false ->
  (length (filter (fun u => u_flushed u = false) (marked (u_sealed u) l ++ lim)) + 1 =
   length (filter (fun u => u_flushed u = false) (l ++ lim)))%nat.
Proof.
  induction l as [|v l IH]; [intros _ []%not_elem_of_nil|]. rewrite fmap_cons, NoDup_cons. intros [Hv Hnd] Hu Hf.
  cbn [marked map app]. apply elem_of_cons in Hu as [->|Hu].
  - rewrite decide_True by done. fold (marked (u_sealed v) l). rewrite marked_other by done.
    rewrite filter_cons_False by done. rewrite filter_cons_True by done. cbn. lia.
  - assert (u_sealed v <> u_sealed u) by (intros E; apply Hv; rewrite E; by apply list_elem_of_fmap_2).
    rewrite decide_False by done. fold (marked (u_sealed u) l). specialize (IH Hnd Hu Hf).
    rewrite !filter_cons. case_decide; cbn; lia.
Qed.

Lemma pipe_marked s open pend c lim u :
  pipe s open pend c lim -> u ∈ uploaders s -> u_flushed u = false -> pend !! u_sealed u = None ->
  pipe (with_uploaders (marked (u_sealed u) (uploaders s)) (with_uploaderCount (uploaderCount s - 1) s)) open pend c lim.
Proof.
  intros HI Hu Hf Hp. destruct HI. pose proof p_nodup0 as Hnd. rewrite fmap_app in Hnd. apply NoDup_app in Hnd as (Hnd & _ & _).
  split; cbn; try done.
  - by rewrite fmap_app, marked_ids, <- fmap_app.
  - rewrite Forall_app in *. destruct p_ups0 as [H1 H2]. split; [|done]. apply Forall_map.
    eapply Forall_impl; [exact H1|]. intros v Hv. cbn. by case_decide.
  - rewrite p_count0, <- (marked_count u (uploaders s) lim Hnd Hu Hf). lia.
  - unfold marked. by rewrite length_map.
  - intros sid n w Hw. destruct (p_pend0 sid n w Hw) as ((v & Hv & Hid & Hfv) & H). split; [|done]. exists v.
    split; [|done]. rewrite elem_of_app in *. destruct Hv as [Hv|Hv]; [left|by right].
    apply list_elem_of_fmap. exists v. split; [|done]. rewrite decide_False; [done|]. intros E. congruence.
Qed.

Lemma upload_flush_run s open pend c lim u :
  pipe s open pend c lim -> u ∈ uploaders s -> u_flushed u = false ->
  exists s', upload_flush already_exists u s = (Ok tt, s') /\
    pipe s' open (delete (u_sealed u) pend) (after_upload pend (u_sealed u) c) lim /\
    uploaders s' = marked (u_sealed u) (uploaders s).
Proof.
  intros HI Hu Hf. pose proof (p_ups _ _ _ _ _ HI) as Hups. rewrite Forall_forall in Hups.
  destruct (lookup_lt_is_Some_2 (sealed s) (u_sealed u)) as [sb Hsid]; [apply Hups, elem_of_app; by left|].
  destruct (p_sealed _ _ _ _ _ HI _ _ Hsid) as (i & b & Hblk & _).
  destruct (blk_Flush_run s open pend c lim _ sb i HI Hsid Hblk) as (s1 & Hrun & HI1 & Hsl & Hup & Hct & Hwb).
  unfold upload_flush, bind at 1, gets, Datatypes.id. rewrite Hsid. unfold deref at 1, bind at 1, ret at 1.
  rewrite Hblk. unfold deref at 1, bind at 1, ret at 1. unfold bind at 1, attempt_up. rewrite Hrun.
  unfold bind, modify. eexists. split; [reflexivity|].
  assert (Hu1 : u ∈ uploaders s1) by (by rewrite Hup). pose proof (lookup_delete_eq pend (u_sealed u)) as Hdel.
  split; [exact (pipe_marked s1 open _ _ lim u HI1 Hu1 Hf Hdel)|]. cbn. by rewrite Hup.
Qed.
Lemma sublist_fmap {X Y} (f : X -> Y) (l k : list X) : l `sublist_of` k -> f <$> l `sublist_of` f <$> k.
Proof. induction 1; rewrite ?fmap_cons; by constructor. Qed.
Lemma dropped_count sid l :
  (forall v, v ∈ l -> u_flushed v = false -> u_sealed v <> sid) ->
  filter (fun u => u_flushed u = false) (drop_uploader sid l) = filter (fun u => u_flushed u = false) l.
Proof.
  unfold drop_uploader. induction l as [|v l IH]; intros Hl; [done|]. specialize (IH (fun v Hv => Hl v (list_elem_of_further _ _ _ Hv))).
  rewrite !filter_cons. destruct (decide (u_sealed v <> sid)) as [Hd|Hd]; rewrite ?filter_cons, IH; [done|].
  case_decide; [|done]. exfalso. apply Hd, Hl; [left|done].
Qed.

Lemma pipe_dropped s open pend c lim u :
  pipe s open pend c lim -> u ∈ uploaders s -> u_flushed u = true ->
  pipe (with_uploaders (drop_uploader (u_sealed u) (uploaders s)) s) open pend c lim.
Proof.
  intros HI Hu Hf. destruct HI.
  assert (Hne : forall v, v ∈ uploaders s -> u_flushed v = false -> u_sealed v <> u_sealed u).
  { intros v Hv Hfv E. assert (v = u) as ->; [|congruence].
    eapply ups_uniq; [exact p_nodup0| | |done]; apply elem_of_app; by left. }
  assert (Hsub : drop_uploader (u_sealed u) (uploaders s) ++ lim `sublist_of` uploaders s ++ lim).
  { apply sublist_app; [apply sublist_filter | reflexivity]. }
  split; cbn; try done.
  - eapply sublist_NoDup; [exact p_nodup0|]. by apply sublist_fmap.
  - rewrite Forall_forall in *. intros v Hv. apply p_ups0. rewrite elem_of_app in *. destruct Hv as [[_ Hv]%list_elem_of_filter|Hv]; auto.
  - by rewrite p_count0, !filter_app, dropped_count.
  - etrans; [apply sublist_length, sublist_filter|done].
  - intros sid n w Hw. destruct (p_pend0 sid n w Hw) as ((v & Hv & Hid & Hfv) & H). split; [|done]. exists v.
    split; [|done]. rewrite elem_of_app in *. destruct Hv as [Hv|Hv]; [left|by right].
    apply list_elem_of_filter. split; [|done]. by apply Hne.
Qed.

Lemma pipe_unmapped s open pend c lim idx :
  pipe s open pend c lim -> pipe (with_sealedBlocks (delete idx (sealedBlocks s)) s) open pend c lim.
Proof. intros HI. destruct HI. split; cbn; try done. intros j sid. rewrite lookup_delete_Some. intros [_ H]. by apply p_map0. Qed.

Lemma upload_end_run s open pend c lim u :
  pipe s open pend c lim -> u ∈ uploaders s -> u_flushed u = true ->
  exists s', upload_end already_exists u s = (Ok tt, s') /\ pipe s' open pend c lim /\
    uploaders s' = drop_uploader (u_sealed u) (uploaders s).
Proof.
  intros HI Hu Hf. pose proof (p_ups _ _ _ _ _ HI) as Hups. rewrite Forall_forall in Hups.
  assert (Hp : pend !! u_sealed u = None).
  { destruct (pend !! u_sealed u) as [[n w]|] eqn:E; [|done].
    destruct (p_pend _ _ _ _ _ HI _ _ _ E) as ((v & Hv & Hid & Hfv) & _).
    assert (v = u); [|congruence]. eapply ups_uniq; [apply (p_nodup _ _ _ _ _ HI)|done|apply elem_of_app; by left|done]. }
  pose proof (pipe_unmapped s open pend c lim (u_idx u) HI) as HI1.
  destruct (Release_run _ open pend c lim (u_sealed u) HI1) as (s2 & Hrun & HI2 & Hup & _); [|done|].
  { apply (Hups u), elem_of_app. by left. }
  unfold upload_end, bind at 1, modify at 1. rewrite (bind_ok _ _ _ _ _ Hrun). eexists. split; [reflexivity|].
  cbn in Hup. rewrite <- Hup. split; [|done]. rewrite <- Hup in Hu. exact (pipe_dropped s2 open pend c lim u HI2 Hu Hf).
Qed.

Lemma find_uploader_in u l : NoDup (u_sealed <$> l) -> u ∈ l -> find_uploader (u_sealed u) l = Some u.
Proof.
  intros Hnd Hu. destruct (find_uploader (u_sealed u) l) as [v|] eqn:E.
  - apply find_uploader_Some in E as [Hv E]. f_equal. by eapply ups_uniq.
  - unfold find_uploader in E. destruct (filter _ l) eqn:E'; [|done].
    assert (H : u ∈ filter (fun v => u_sealed v = u_sealed u) l) by (by apply list_elem_of_filter). rewrite E' in H. by apply not_elem_of_nil in H.
Qed.

(** A step of the uploader [u]: it flushes its block, or, with the lock free, it
    ends. *)
Lemma upload_step_at s open pend c lim held u :
  pipe s open pend c lim -> u ∈ uploaders s ->
  upload_step already_exists held (u_sealed u) s =
  (if u_flushed u then if held : bool then ret tt else upload_end already_exists u else upload_flush already_exists u) s.
Proof.
  intros HI Hu. unfold upload_step, bind at 1, gets, Datatypes.id.
  pose proof (p_nodup _ _ _ _ _ HI) as Hnd. rewrite fmap_app in Hnd. apply NoDup_app in Hnd as (Hnd & _).
  rewrite (find_uploader_in u) by done.
  destruct (u_flushed u); cbn [negb]; [|done]. rewrite (p_waiters _ _ _ _ _ HI), bool_decide_false by apply not_elem_of_nil.
  destruct held; [done|]. cbn [orb]. unfold bind, IsLocked, gets, is_locked. by rewrite (p_reads _ _ _ _ _ HI), lookup_empty.
Qed.

Lemma run_event_run s open pend c lim held e :
  pipe s open pend c lim -> exists s' pend' c', run_event already_exists held e s = (Ok tt, s') /\
    uploads (pend, c) (pend', c') /\ pipe s' open pend' c' lim.
Proof.
  intros HI. destruct e as [sid|id|]; cbn [run_event].
  - destruct (find_uploader sid (uploaders s)) as [u|] eqn:E.
    + apply find_uploader_Some in E as [Hu <-]. rewrite (upload_step_at s open pend c lim held u HI Hu). destruct (u_flushed u) eqn:Hf.
      * destruct held; [by exists s, pend, c|].
        destruct (upload_end_run s open pend c lim u HI Hu Hf) as (s' & Hrun & HI' & _). by exists s', pend, c.
      * destruct (upload_flush_run s open pend c lim u HI Hu Hf) as (s' & Hrun & HI' & _).
        eexists s', _, _. split; [done|]. split; [apply after_upload_uploads|done].
    + exists s, pend, c. unfold upload_step, bind at 1, gets, Datatypes.id. by rewrite E.
  - exists s, pend, c. unfold evict_step, bind, gets, Datatypes.id. rewrite (p_jobs _ _ _ _ _ HI), decide_False by apply not_elem_of_nil. done.
  - by exists s, pend, c.
Qed.
(** ** Waiting *)

Lemma pipe_sched s open pend c lim sc : pipe s open pend c lim -> pipe (with_sched sc s) open pend c lim.
Proof. intros HI. destruct HI. by split. Qed.

(** Events that are not the caller's, one after the other. *)
Fixpoint run_all (held : bool) (evs : list event) : UM unit :=
  match evs with
  | [] => ret tt
  | e :: evs => run_event already_exists held e ;;; run_all held evs
  end.

(** Every state of the pipeline can go on to one where the condition holds. *)
Definition reaches (held : bool) (cond : UploadPipeline T -> bool) open lim : Prop :=
  forall s pend c, pipe s open pend c lim -> exists evs s' pend' c',
    Caller ∉ evs /\ run_all held evs s = (Ok tt, s') /\ uploads (pend, c) (pend', c') /\ pipe s' open pend' c' lim /\ cond s' = true.

Lemma await_event held cond e sc : e <> Caller -> await already_exists held cond (e :: sc) =
  (run_event already_exists held e ;;; await already_exists held cond sc).
Proof. by destruct e. Qed.
Lemma await_all held cond evs sc s s' :
  Caller ∉ evs -> run_all held evs s = (Ok tt, s') ->
  await already_exists held cond (evs ++ sc) s = await already_exists held cond sc s'.
Proof.
  revert s. induction evs as [|e evs IH]; intros s.
  - intros _ [= <-]. done.
  - rewrite not_elem_of_cons. intros [He Hevs]. cbn [run_all app]. rewrite await_event by done. unfold bind.
    destruct (run_event already_exists held e s) as [[[]|f|] s1]; [|done..]. by apply IH.
Qed.

Lemma await_any held cond open lim sc s pend c :
  (forall x s, cond (with_sched x s) = cond s) -> pipe s open pend c lim ->
  (exists s' pend' c', await already_exists held cond sc s = (Ok tt, s') /\ uploads (pend, c) (pend', c') /\
     pipe s' open pend' c' lim /\ cond s' = true) \/
  (exists s', await already_exists held cond sc s = (Err Blocked, s')).
Proof.
  intros Hcond. revert s pend c. induction sc as [|e sc IH]; intros s pend c HI.
  - cbn. unfold bind, gets, Datatypes.id. destruct (cond s) eqn:E; [left|right; by eexists]. by exists s, pend, c.
  - destruct (decide (e = Caller)) as [->|He].
    + cbn. unfold bind, gets, Datatypes.id. destruct (cond s) eqn:E; [left|by apply IH].
      exists (with_sched sc s), pend, c. split_and!; [done|done|by apply pipe_sched|by rewrite Hcond].
    + rewrite await_event by done. destruct (run_event_run s open pend c lim held e HI) as (s1 & pend1 & c1 & Hrun & Hu & HI1).
      rewrite (bind_ok _ _ _ _ _ Hrun). destruct (IH s1 pend1 c1 HI1) as [(s' & pend' & c' & ? & Hu' & ? & ?)|?]; [left|by right].
      exists s', pend', c'. split_and!; try done. by etrans.
Qed.

Lemma await_can held cond open lim sc s pend c :
  reaches held cond open lim -> pipe s open pend c lim ->
  exists more rest s' pend' c', uploads (pend, c) (pend', c') /\ pipe s' open pend' c' lim /\ cond s' = true /\
    forall x, await already_exists held cond (sc ++ more ++ x) s = (Ok tt, with_sched (rest ++ x) s').
Proof.
  intros Hr. revert s pend c. induction sc as [|e sc IH]; intros s pend c HI.
  - destruct (Hr s pend c HI) as (evs & s' & pend' & c' & Hn & Hrun & Hu & HI' & Hc).
    exists (evs ++ [Caller]), [], s', pend', c'. split_and!; try done. intros x. cbn [app].
    rewrite <- app_assoc, (await_all _ _ _ _ _ _ Hn Hrun). cbn. unfold bind, gets, Datatypes.id. by rewrite Hc.
  - destruct (decide (e = Caller)) as [->|He].
    + destruct (cond s) eqn:E.
      * exists [], sc, s, pend, c. split_and!; try done. intros x. cbn. unfold bind, gets, Datatypes.id. by rewrite E.
      * destruct (IH s pend c HI) as (more & rest & s' & pend' & c' & Hu & HI' & Hc & Hx). exists more, rest, s', pend', c'.
        split_and!; try done. intros x. cbn. unfold bind, gets, Datatypes.id. rewrite E. apply Hx.
    + destruct (run_event_run s open pend c lim held e HI) as (s1 & pend1 & c1 & Hrun & Hu & HI1).
      destruct (IH s1 pend1 c1 HI1) as (more & rest & s' & pend' & c' & Hu' & HI' & Hc & Hx). exists more, rest, s', pend', c'.
      split_and!; try done; [by etrans|]. intros x. cbn [app]. rewrite await_event by done. rewrite (bind_ok _ _ _ _ _ Hrun). apply Hx.
Qed.

Lemma wait_for_returns held cond open pend c lim :
  (forall x s, cond (with_sched x s) = cond s) -> reaches held cond open lim ->
  returns (fun s => pipe s open pend c lim) (wait_for already_exists held cond)
    (fun _ s => cond s = true /\ exists pend' c', uploads (pend, c) (pend', c') /\ pipe s open pend' c' lim).
Proof.
  intros Hcond Hr s HI.
  assert (Hrun : forall sc, wait_for already_exists held cond (with_sched sc s) = await already_exists held cond sc (with_sched [] s)) by done.
  pose proof (pipe_sched s open pend c lim [] HI) as HI0. split; intros sc.
  - rewrite Hrun. destruct (await_any held cond open lim sc _ pend c Hcond HI0) as [(s' & pend' & c' & E & Hu & HI' & Hc)|(s' & E)].
    + left. exists tt, s'. split; [done|]. split; [done|]. by exists pend', c'.
    + right. by exists s'.
  - destruct (await_can held cond open lim sc _ pend c Hr HI0) as (more & rest & s' & pend' & c' & Hu & HI' & Hc & Hx).
    exists more, rest, tt, s'. split; [split; [done|]; by exists pend', c'|]. intros x. rewrite Hrun. apply Hx.
Qed.

Lemma reaches_true held open lim : reaches held (fun _ => true) open lim.
Proof. intros s pend c HI. exists [], s, pend, c. split_and!; [apply not_elem_of_nil|done..]. Qed.

Lemma reaches_token open lim : (0 < limit)%nat -> reaches false has_token open lim.
Proof.
  intros Hl s pend c HI. destruct (uploaders s) as [|u l] eqn:Eu.
  { exists [], s, pend, c. split_and!; [apply not_elem_of_nil|done..|]. unfold has_token. rewrite Eu, (p_limit _ _ _ _ _ HI). by apply Nat.ltb_lt. }
  assert (Hu : u ∈ uploaders s) by (rewrite Eu; left).
  assert (Hlt : forall u l', u ∈ l' -> (length (drop_uploader (u_sealed u) l') < length l')%nat).
  { intros v l' Hv. apply (length_filter_lt _ l' v); [done|]. intros []. done. }
  assert (Hend : forall s' pend' c', pipe s' open pend' c' lim -> (length (uploaders s') < length (uploaders s))%nat -> has_token s' = true).
  { intros s' pend' c' HI' Hlen. unfold has_token. rewrite (p_limit _ _ _ _ _ HI'). apply Nat.ltb_lt. pose proof (p_tokens _ _ _ _ _ HI). lia. }
  destruct (u_flushed u) eqn:Hf.
  - destruct (upload_end_run s open pend c lim u HI Hu Hf) as (s' & Hrun & HI' & Hup). exists [Upload (u_sealed u)], s', pend, c.
    split_and!; try done; [by intros ?%list_elem_of_singleton| |].
    + cbn [run_all run_event]. rewrite (bind_ok _ _ _ tt s'); [done|]. by rewrite (upload_step_at s open pend c lim), Hf.
    + eapply Hend; [exact HI'|]. rewrite Hup. by apply Hlt.
  - destruct (upload_flush_run s open pend c lim u HI Hu Hf) as (s1 & Hrun & HI1 & Hup).
    set (u1 := mkUploader (u_sealed u) (u_idx u) true).
    assert (Hu1 : u1 ∈ uploaders s1).
    { rewrite Hup. apply list_elem_of_fmap. exists u. split; [|done]. by rewrite decide_True. }
    destruct (upload_end_run s1 open _ _ lim u1 HI1 Hu1 eq_refl) as (s' & Hrun' & HI' & Hup').
    exists [Upload (u_sealed u); Upload (u_sealed u)], s', (delete (u_sealed u) pend), (after_upload pend (u_sealed u) c).
    split_and!; try done; [set_solver| |apply after_upload_uploads|].
    + cbn [run_all run_event]. rewrite (bind_ok _ _ _ tt s1) by (by rewrite (upload_step_at s open pend c lim), Hf).
      rewrite (bind_ok _ _ _ tt s'); [done|]. change (u_sealed u) with (u_sealed u1). by rewrite (upload_step_at s1 open _ _ lim _ u1 HI1 Hu1).
    + eapply Hend; [exact HI'|]. rewrite Hup'. pose proof (Hlt u1 _ Hu1) as H1. rewrite Hup in H1 at 2.
      unfold marked in H1. by rewrite length_map in H1.
Qed.

(** Without an uploader that waits for a token. *)
Lemma reaches_count open : reaches true (fun s => uploaderCount s <=? 0) open [].
Proof.
  intros s pend c HI. remember (Z.to_nat (uploaderCount s)) as k eqn:Ek. revert s pend c HI Ek.
  induction k as [|k IH]; intros s pend c HI Ek.
  { exists [], s, pend, c. split_and!; [apply not_elem_of_nil|done..|]. apply Z.leb_le. lia. }
  pose proof (p_count _ _ _ _ _ HI) as Hc. rewrite app_nil_r in Hc.
  destruct (filter (fun u => u_flushed u = false) (uploaders s)) as [|u l] eqn:Eu; [cbn in Hc; lia|].
  assert (Hu : u ∈ filter (fun u => u_flushed u = false) (uploaders s)) by (rewrite Eu; left).
  apply list_elem_of_filter in Hu as [Hf Hu].
  destruct (upload_flush_run s open pend c [] u HI Hu Hf) as (s1 & Hrun & HI1 & Hup).
  destruct (IH s1 _ _ HI1) as (evs & s' & pend' & c' & Hn & Hrun' & Hup' & HI' & Hc').
  { pose proof (p_count _ _ _ _ _ HI1) as Hc1. pose proof (p_nodup _ _ _ _ _ HI) as Hnd. rewrite app_nil_r in Hnd.
    pose proof (marked_count u (uploaders s) [] Hnd Hu Hf) as Hm. rewrite Hup in Hc1. rewrite !app_nil_r in *. rewrite Eu in Hm. lia. }
  exists (Upload (u_sealed u) :: evs), s', pend', c'. split_and!; try done.
  - rewrite not_elem_of_cons. by split.
  - cbn [run_all run_event]. rewrite (bind_ok _ _ _ tt s1); [done|]. by rewrite (upload_step_at s open pend c []), Hf.
  - etrans; [apply after_upload_uploads|done].
Qed.
(** ** Sealing a block *)

Lemma Release_frame k sc sid (s : UploadPipeline T) :
  Release already_exists sid (with_uploaderCount k (with_sched sc s)) =
  let '(r, s') := Release already_exists sid s in (r, with_uploaderCount k (with_sched sc s')).
Proof.
  unfold Release, bind, gets, deref, modify, Datatypes.id. change (sealed (with_uploaderCount k _)) with (sealed s).
  destruct (sealed s !! sid) as [sb|]; [|done]. cbn [ret throw]. unfold ret.
  destruct (refCount sb - 1 =? 0); [|done]. destruct (block sb) as [[i|i]|]; cbn [blk_Destroy]; [| |done].
  - unfold on_mem. cbn [mems swapFile with_sealed with_uploaderCount with_sched]. destruct (mems s !! i) as [b|]; [|done].
    by destruct (MemBlock.Destroy (b, storage (swapFile s))) as [r [b' t']].
  - unfold on_swap. cbn [swapFile with_sealed with_uploaderCount with_sched]. by destruct (FileBlock.Destroy _ _ _) as [r sw].
Qed.

(** The state in which a write block has become a sealed one. *)
Definition sealing (i : nat) (idx : Z) (s : UploadPipeline T) : UploadPipeline T :=
  with_writeBlocks (delete idx (writeBlocks s))
    (with_sealedBlocks (<[idx := length (sealed s)]> (sealedBlocks s))
      (with_sealed (sealed s ++ [mkSealedBlock (Some (MemRef i)) 1])
        (with_uploaderCount (uploaderCount s + 1) s))).
(** What then waits for its upload. *)
Definition sealed_pend (st : option writes) (sid : nat) (n : N) (pend : gmap nat (N * writes)) : gmap nat (N * writes) :=
  match st with Some w => <[sid := (n, w)]> pend | None => pend end.

Lemma pend_below s open pend c lim sid n w :
  pipe s open pend c lim -> pend !! sid = Some (n, w) -> (sid < length (sealed s))%nat.
Proof.
  intros HI Hp. destruct (p_pend _ _ _ _ _ HI _ _ _ Hp) as ((u & Hu & <- & _) & _).
  pose proof (p_ups _ _ _ _ _ HI) as Hups. rewrite Forall_forall in Hups. by apply Hups.
Qed.
Lemma sealed_pend_ne s open pend c lim st n sid :
  pipe s open pend c lim -> (sid < length (sealed s))%nat -> sealed_pend st (length (sealed s)) n pend !! sid = pend !! sid.
Proof. intros HI Hlt. destruct st as [w|]; [|done]. cbn. rewrite lookup_insert_ne; [done|lia]. Qed.
Lemma sealed_pend_Some st sid n pend k m w :
  sealed_pend st sid n pend !! k = Some (m, w) -> (k = sid /\ m = n /\ st = Some w) \/ (pend !! k = Some (m, w)).
Proof.
  destruct st as [w'|]; cbn; [|by right]. rewrite lookup_insert_Some. intros [[<- [= <- <-]]|[_ H]]; [by left|by right].
Qed.

Lemma pipe_sealing s open pend c n st i :
  pipe s open pend c [] -> writeBlocks s !! Z.of_N n = Some (MemRef i) -> open !! n = Some st ->
  (forall w, st = Some w -> IsAllBytesZero (stored B w.1 c (ino, n) w.2) = false) ->
  pipe (sealing i (Z.of_N n) s) (delete n open) (sealed_pend st (length (sealed s)) n pend) c
    [mkUploader (length (sealed s)) (Z.of_N n) false].
Proof.
  intros HI Hw Ho Hz. pose proof (sealed_pend_ne s open pend c [] st n) as Hpne.
  pose proof (fun sid m w => pend_below s open pend c [] sid m w HI) as Hpb.
  destruct (p_write _ _ _ _ _ HI _ _ Hw) as (n0 & i0 & b & st0 & En & Hn & [= <-] & Ho' & Hb & Hst & _).
  apply N2Z.inj in En as <-. assert (st0 = st) as -> by congruence.
  assert (Hnew : forall sid sb, sealed s !! sid = Some sb -> block sb <> Some (MemRef i)).
  { intros sid sb Hsid E. destruct (p_sealed _ _ _ _ _ HI sid sb Hsid) as (i1 & b1 & E1 & _ & Hnw & _).
    rewrite E in E1. injection E1 as <-. by apply (Hnw (Z.of_N n)). }
  assert (Hpn : forall sid w, pend !! sid <> Some (n, w)).
  { intros sid w Hp. destruct (p_pend _ _ _ _ _ HI _ _ _ Hp) as (_ & H & _). congruence. }
  pose proof HI as HI0. destruct HI. rewrite app_nil_r in *. split; cbn; try done.
  - intros idx r. rewrite lookup_delete_Some. intros [Hne Hr]. destruct (p_write0 idx r Hr) as (n1 & i1 & b1 & st1 & -> & H).
    exists n1, i1, b1, st1. rewrite lookup_delete_ne by (intros ->; done). done.
  - intros m st'. rewrite lookup_delete_Some. intros [Hne Hm]. rewrite lookup_delete_ne by (intros E; apply N2Z.inj in E; done).
    by eapply p_open0.
  - intros idx idx' i1. rewrite !lookup_delete_Some. intros [_ H1] [_ H2]. by eapply p_inj0.
  - intros sid sb. rewrite lookup_snoc_Some. intros [[Hlt Hsid]|[-> <-]].
    + destruct (p_sealed0 sid sb Hsid) as (i1 & b1 & E1 & Hb1 & Hnw & H). exists i1, b1. rewrite (Hpne sid HI0 Hlt).
      split_and!; try done. intros idx. rewrite lookup_delete_Some. intros [_ Hi]. by apply (Hnw idx).
    + exists i, b. split_and!; [done|done| |].
      * intros idx. rewrite lookup_delete_Some. intros [Hne Hi]. apply Hne. by eapply p_inj0.
      * destruct st as [w|]; cbn; [by rewrite lookup_insert_eq|].
        destruct (pend !! length (sealed s)) as [[m w]|] eqn:E; [apply Hpb in E; lia | apply Hst].
  - intros sid sid' sb sb'. rewrite !lookup_snoc_Some. intros [[Hlt H1]|[-> <-]] [[Hlt' H2]|[-> <-]] E; [by eapply p_sealed_inj0| | |done].
    + by apply Hnew in H1.
    + symmetry in E. by apply Hnew in H2.
  - rewrite fmap_app, NoDup_app. split_and!; [done| |apply NoDup_singleton]. intros sid Hsid ->%list_elem_of_singleton.
    apply list_elem_of_fmap in Hsid as (u & E & Hu). rewrite Forall_forall in p_ups0. specialize (p_ups0 u Hu). cbn in E. lia.
  - rewrite length_app, Forall_app. cbn. split; [|constructor; [cbn; lia|done]]. eapply Forall_impl; [exact p_ups0|]. cbn. lia.
  - rewrite p_count0, filter_app, length_app. rewrite filter_cons_True by done. cbn. lia.
  - intros idx sid. rewrite length_app. cbn. rewrite lookup_insert_Some. intros [[<- <-]|[Hne Hs]].
    + split; [lia|]. intros m w [(_ & -> & _)|Hp]%sealed_pend_Some; [done|]. apply Hpb in Hp. lia.
    + destruct (p_map0 idx sid Hs) as [Hlt H]. split; [lia|]. rewrite (Hpne sid HI0 Hlt). done.
  - intros sid m w [(-> & -> & E)|Hp]%sealed_pend_Some.
    + split_and!; [|apply lookup_delete_eq|done|by apply Hz]. eexists. split; [apply elem_of_app; right; by left|done].
    + destruct (p_pend0 sid m w Hp) as ((u & Hu & Hu') & Hm & H). split_and!; try done.
      * exists u. split; [apply elem_of_app; by left|done].
      * rewrite lookup_delete_None. by right.
      * apply H.
      * apply H.
  - intros sid sid' m w w' [(-> & -> & E)|Hp]%sealed_pend_Some [(-> & E1 & E')|Hp']%sealed_pend_Some; [done| | |by eapply p_pend_inj0].
    + by apply Hpn in Hp'.
    + subst m. by apply Hpn in Hp.
Qed.
Lemma pipe_start s open pend c u :
  pipe s open pend c [u] -> has_token s = true -> pipe (with_uploaders (uploaders s ++ [u]) s) open pend c [].
Proof.
  intros HI Ht. unfold has_token in Ht. rewrite (p_limit _ _ _ _ _ HI) in Ht. apply Nat.ltb_lt in Ht.
  destruct HI. split; cbn; rewrite ?app_nil_r; try done. rewrite length_app. cbn. lia.
Qed.

(** Afterwards some of the blocks that waited are uploaded. *)
Definition later (open : gmap N (option writes)) (pend : gmap nat (N * writes)) (c : contents) (lim : list uploader)
    (s : UploadPipeline T) : Prop :=
  exists pend' c', uploads (pend, c) (pend', c') /\ pipe s open pend' c' lim.

Lemma wait_for_later held cond open pend c lim :
  (forall x s, cond (with_sched x s) = cond s) -> reaches held cond open lim ->
  returns (later open pend c lim) (wait_for already_exists held cond) (fun _ s => cond s = true /\ later open pend c lim s).
Proof.
  intros Hcond Hr s (pend1 & c1 & Hu1 & HI). pose proof (wait_for_returns held cond open pend1 c1 lim Hcond Hr) as Hw.
  refine (returns_conseq _ (fun s => pipe s open pend1 c1 lim) _ _ _ Hw (fun s H => H) _ s HI). clear s HI.
  intros [] s (Hc & pend2 & c2 & Hu & HI). split; [done|]. exists pend2, c2. split; [by etrans|done].
Qed.
Lemma Lock_returns open pend c lim : returns (later open pend c lim) (Lock already_exists) (fun _ => later open pend c lim).
Proof.
  eapply returns_conseq; [apply (wait_for_later false (fun _ => true)); [done|apply reaches_true]|done|]. by intros [] s [_ H].
Qed.

Lemma Execute_returns open pend c sid idx : (0 < limit)%nat ->
  returns (later open pend c [mkUploader sid idx false]) (Execute already_exists sid idx) (fun _ => later open pend c []).
Proof.
  intros Hl. eapply returns_bind; [apply (wait_for_later false has_token); [done|by apply reaches_token]|].
  intros []. apply returns_step. intros s (Ht & pend' & c' & Hu & HI). eexists tt, _.
  pose proof (pipe_start _ _ _ _ _ HI Ht) as HI'. split_and!; [by exists pend', c'| |done].
  intros sc. exists pend', c'. split; [done|]. by apply pipe_sched.
Qed.

Lemma returns_eq {A} (P P1 : UploadPipeline T -> Prop) (m m1 : UM A) Q :
  (forall s, P s -> exists s1, P1 s1 /\ forall sc, m (with_sched sc s) = m1 (with_sched sc s1)) ->
  returns P1 m1 Q -> returns P m Q.
Proof.
  intros H H1 s Hs. destruct (H s Hs) as (s1 & Hs1 & E). destruct (H1 s1 Hs1) as [Ha Hb]. split; intros sc.
  - rewrite E. apply Ha.
  - destruct (Hb sc) as (more & rest & a & s' & HQ & Hx). exists more, rest, a, s'. split; [done|]. intros x. by rewrite E.
Qed.

(** A block with the writes [w] in [open], or a flushed one, is sealed. *)
Lemma move2Sealed_returns open pend c n st i sid : (0 < limit)%nat -> open !! n = Some st ->
  (forall w, st = Some w -> IsAllBytesZero (stored B w.1 c (ino, n) w.2) = false) ->
  returns (fun s => pipe s open pend c [] /\ writeBlocks s !! Z.of_N n = Some (MemRef i) /\ length (sealed s) = sid)
    (move2Sealed already_exists (Some (MemRef i)) (Z.of_N n))
    (fun _ => later (delete n open) (sealed_pend st sid n pend) c []).
Proof.
  intros Hl Ho Hz. apply (returns_eq _ (later (delete n open) (sealed_pend st sid n pend) c [mkUploader sid (Z.of_N n) false]) _
    (Execute already_exists sid (Z.of_N n) ;;; Lock already_exists)).
  - intros s (HI & Hw & Hlen).
    assert (exists s1, pipe s1 open pend c [] /\ same s s1 /\ forall k sc,
        match sealedBlocks s !! Z.of_N n with Some old => Release already_exists old | None => ret tt end
          (with_uploaderCount k (with_sched sc s)) = (Ok tt, with_uploaderCount k (with_sched sc s1)))
      as (s1 & HI1 & (Eu & Ec & Ew & Es & El) & Hrel).
    { destruct (sealedBlocks s !! Z.of_N n) as [old|] eqn:E; [|by exists s].
      destruct (p_map _ _ _ _ _ HI _ _ E) as [Hlt Hidx].
      destruct (Release_run s open pend c [] old HI Hlt) as (s1 & Hrun & HI1 & Hs1).
      - destruct (pend !! old) as [[m w]|] eqn:Ep; [|done]. pose proof (Hidx _ _ eq_refl) as Em. apply N2Z.inj in Em as <-.
        destruct (p_pend _ _ _ _ _ HI _ _ _ Ep) as (_ & H & _). congruence.
      - exists s1. split_and!; [done|done|]. intros k sc. by rewrite Release_frame, Hrun. }
    exists (sealing i (Z.of_N n) s1). split.
    + exists (sealed_pend st sid n pend), c. split; [done|]. rewrite <- Hlen, <- El.
      apply (pipe_sealing s1 open pend c n st i HI1); [by rewrite Ew|done|done].
    + intros sc. unfold move2Sealed. unfold bind at 1, modify at 1. unfold bind at 1, gets at 1, Datatypes.id at 1.
      change (sealedBlocks (with_uploaderCount _ _)) with (sealedBlocks s).
      change (uploaderCount (with_sched sc s)) with (uploaderCount s). rewrite (bind_ok _ _ _ _ _ (Hrel _ _)).
      rewrite <- Hlen, <- El, <- Ec. reflexivity.
  - eapply returns_bind; [by apply Execute_returns|]. intros []. apply Lock_returns.
Qed.
(** ** Flushing *)

(** The contents once the blocks [open] are flushed. *)
Definition flush_open (open : gmap N writes) (c : contents) : contents :=
  kmap (fun n => (ino, n)) (map_imap (fun n w => Some (stored B w.1 c (ino, n) w.2)) open) ∪ c.

(** The block [n] is still to be uploaded. *)
Definition to_upload (open : gmap N (option writes)) (pend : gmap nat (N * writes)) (n : N) (w : writes) : Prop :=
  open !! n = Some (Some w) \/ exists sid, pend !! sid = Some (n, w).
(** Uploading what is left makes [tgt] of [c]. *)
Record draining (open : gmap N (option writes)) (pend : gmap nat (N * writes)) (c tgt : contents) : Prop := {
  d_ready : forall n st, open !! n = Some st -> exists w, st = Some w /\ IsAllBytesZero (stored B w.1 c (ino, n) w.2) = false;
  d_todo : forall n w, to_upload open pend n w -> tgt !! (ino, n) = Some (stored B w.1 c (ino, n) w.2);
  d_rest : forall k, (forall n w, to_upload open pend n w -> k <> (ino, n)) -> tgt !! k = c !! k;
  d_open : forall sid n w, pend !! sid = Some (n, w) -> open !! n = None;
  d_inj : forall sid sid' n w w', pend !! sid = Some (n, w) -> pend !! sid' = Some (n, w') -> sid = sid' }.

Lemma draining_upload open pend c tgt pend' c' :
  uploaded (pend, c) (pend', c') -> draining open pend c tgt -> draining open pend' c' tgt.
Proof.
  inversion 1 as [? ? sid n w Hp]; subst. intros [Hr Ht Hk Ho Hi].
  assert (Hne : forall m w', to_upload open (delete sid pend) m w' -> to_upload open pend m w' /\ (ino, n) <> (ino, m)).
  { intros m w' [Hm|[k Hm]].
    - split; [by left|]. intros [= ->]. apply Ho in Hp. congruence.
    - apply lookup_delete_Some in Hm as [Hne Hm]. split; [right; by exists k|]. intros [= ->]. by eapply Hne, Hi. }
  split.
  - intros m st Hm. destruct (Hr m st Hm) as (w' & -> & Hz). exists w'. split; [done|].
    rewrite stored_insert_ne; [done|]. by apply (Hne m w'); left.
  - intros m w' Hm. destruct (Hne m w' Hm) as [Hm' Hnm]. rewrite stored_insert_ne by done. by apply Ht.
  - intros k Hkn. destruct (decide (k = (ino, n))) as [->|Hkne].
    + rewrite lookup_insert_eq. apply Ht. right. by exists sid.
    + rewrite lookup_insert_ne by done. apply Hk. intros m w' [Hm|[j Hm]]; [apply (Hkn m w'); by left|].
      destruct (decide (j = sid)) as [->|Hj]; [congruence|]. apply (Hkn m w'). right. exists j. by rewrite lookup_delete_ne.
  - intros k m w'. rewrite lookup_delete_Some. intros [_ H']. by eapply Ho.
  - intros k k' m w1 w2. rewrite !lookup_delete_Some. intros [_ H1] [_ H2]. by eapply Hi.
Qed.
Lemma draining_uploads open pend c tgt pend' c' :
  uploads (pend, c) (pend', c') -> draining open pend c tgt -> draining open pend' c' tgt.
Proof.
  intros Hu. remember (pend, c) as a eqn:Ea. remember (pend', c') as a' eqn:Ea'. revert pend c Ea.
  induction Hu as [a|a [pend1 c1] a' H Hu IH]; intros pend c ->; [by injection Ea' as <- <-|].
  intros Hd. by eapply IH, draining_upload.
Qed.
Lemma draining_sealed open pend c tgt n w sid :
  open !! n = Some (Some w) -> pend !! sid = None -> draining open pend c tgt ->
  draining (delete n open) (sealed_pend (Some w) sid n pend) c tgt.
Proof.
  intros Hn Hsid [Hr Ht Hk Ho Hi]. cbn.
  assert (Heq : forall m w', to_upload (delete n open) (<[sid := (n, w)]> pend) m w' <-> to_upload open pend m w').
  { intros m w'. unfold to_upload. split.
    - rewrite lookup_delete_Some. intros [[_ H]|[k H]]; [by left|]. apply lookup_insert_Some in H as [[<- [= <- <-]]|[_ H]]; [by left|].
      right. by exists k.
    - intros [H|[k H]].
      + destruct (decide (n = m)) as [->|Hne]; [right; exists sid; rewrite lookup_insert_eq; congruence|].
        left. by rewrite lookup_delete_ne.
      + right. exists k. rewrite lookup_insert_ne by congruence. done. }
  split.
  - intros m st. rewrite lookup_delete_Some. intros [_ H]. by apply Hr.
  - intros m w' H%Heq. by apply Ht.
  - intros k H. apply Hk. intros m w' Hm. apply (H m w'). by apply Heq.
  - intros k m w'. rewrite lookup_insert_Some. intros [[<- [= <- <-]]|[_ H]]; [apply lookup_delete_eq|].
    apply lookup_delete_None. right. by eapply Ho.
  - intros k k' m w1 w2. rewrite !lookup_insert_Some. intros [[<- [= <- <-]]|[_ H1]] [[<- E]|[_ H2]]; [done| | |by eapply Hi].
    + apply Ho in H2. congruence.
    + injection E as <- <-. apply Ho in H1. congruence.
Qed.
Lemma draining_done c tgt : draining ∅ ∅ c tgt -> tgt = c.
Proof.
  intros [_ _ Hk _ _]. apply map_eq. intros k. apply Hk. intros n w [H|[sid H]]; by rewrite lookup_empty in H.
Qed.
Lemma draining_flush_open open c :
  (forall n w, open !! n = Some w -> IsAllBytesZero (stored B w.1 c (ino, n) w.2) = false) ->
  draining (Some <$> open) ∅ c (flush_open open c).
Proof.
  intros Hz.
  assert (Hl : forall n, kmap (M2 := gmap (N * N)) (fun n => (ino, n)) (map_imap (fun n w => Some (stored B w.1 c (ino, n) w.2)) open) !! (ino, n) =
      (fun w => stored B w.1 c (ino, n) w.2) <$> open !! n).
  { intros n. rewrite lookup_kmap, map_lookup_imap by (intros ??; congruence). by destruct (open !! n). }
  split.
  - intros n st. rewrite lookup_fmap_Some. intros (w & <- & Hw). exists w. split; [done|by apply Hz].
  - intros n w [H|[sid H]]; [|by rewrite lookup_empty in H]. apply lookup_fmap_Some in H as (w' & [= ->] & Hw).
    unfold flush_open. apply lookup_union_Some_l. by rewrite Hl, Hw.
  - intros k Hk. unfold flush_open. apply lookup_union_r. apply lookup_kmap_None; [intros ??; congruence|].
    intros n ->. rewrite map_lookup_imap. destruct (open !! n) as [w|] eqn:E; [|done]. exfalso.
    apply (Hk n w); [|done]. left. by rewrite lookup_fmap, E.
  - intros sid n w. by rewrite lookup_empty.
  - intros sid sid' n w w'. by rewrite lookup_empty.
Qed.
Lemma returns_pt {A} (P : UploadPipeline T -> Prop) (m : UM A) Q :
  (forall s, P s -> returns (fun x => x = s) m Q) -> returns P m Q.
Proof. intros H s Hs. exact (H s Hs s eq_refl). Qed.
Lemma returns_gets {A X} (f : UploadPipeline T -> X) (k : X -> UM A) s Q :
  (forall sc, f (with_sched sc s) = f s) ->
  returns (fun x => x = s) (k (f s)) Q -> returns (fun x => x = s) (x <- gets f ;; k x) Q.
Proof.
  intros Hf H. refine (returns_eq _ _ _ _ _ _ H). intros x ->. exists s. split; [done|]. intros sc. unfold bind, gets. by rewrite Hf.
Qed.

(** The blocks left in [open] are among [l], and uploading all makes [tgt]. *)
Definition sealing_all (l : list Z) (tgt : contents) (s : UploadPipeline T) : Prop :=
  exists open pend c, pipe s open pend c [] /\ draining open pend c tgt /\ forall n st, open !! n = Some st -> Z.of_N n ∈ l.

Lemma seal_all_returns l tgt : (0 < limit)%nat ->
  returns (sealing_all l.*1 tgt) (seal_all already_exists l) (fun _ => sealing_all [] tgt).
Proof.
  intros Hl. induction l as [|[idx b] l IH].
  { apply returns_step. intros s Hs. exists tt, s. split; [done|]. split; [|done]. intros sc. destruct Hs as (open & pend & c & HI & H).
    exists open, pend, c. split; [by apply pipe_sched|done]. }
  cbn [seal_all]. apply returns_pt. intros s (open & pend & c & HI & Hd & Hin).
  refine (returns_eq _ (fun x => x = s) _ (match writeBlocks s !! idx with Some b => move2Sealed already_exists (Some b) idx | None => ret tt end ;;;
    seal_all already_exists l) _ _ _).
  { intros x ->. by exists s. }
  apply (returns_bind _ _ _ (fun _ => sealing_all l.*1 tgt)); [|by intros []].
  destruct (writeBlocks s !! idx) as [r|] eqn:E.
  - destruct (p_write _ _ _ _ _ HI _ _ E) as (n & i & b' & st & -> & Hn & -> & Ho & _).
    destruct (d_ready _ _ _ _ Hd n st Ho) as (w & -> & Hz).
    eapply returns_conseq; [apply (move2Sealed_returns open pend c n (Some w) i (length (sealed s)) Hl Ho)| |].
    + by intros w' [= <-].
    + intros x ->. done.
    + intros [] s' (pend' & c' & Hu & HI'). exists (delete n open), pend', c'. split; [done|]. split.
      * eapply draining_uploads; [done|]. apply draining_sealed; [done| |done].
        destruct (pend !! length (sealed s)) as [[m w']|] eqn:Ep; [|done]. eapply pend_below in Ep; [|done]. lia.
      * intros m st. rewrite lookup_delete_Some. intros [Hne Hm]. specialize (Hin m st Hm). cbn in Hin.
        apply elem_of_cons in Hin as [Em|Hin]; [|done]. by apply N2Z.inj in Em as ->.
  - apply returns_step. intros x ->. exists tt, s.
    assert (Hs : forall sc, sealing_all l.*1 tgt (with_sched sc s)).
    { intros sc. exists open, pend, c. split; [by apply pipe_sched|]. split; [done|]. intros m st Hm. specialize (Hin m st Hm). cbn in Hin.
      apply elem_of_cons in Hin as [<-|Hin]; [|done]. destruct (p_open _ _ _ _ _ HI m st Hm). congruence. }
    split_and!; [|done|done]. specialize (Hs (sched s)). by destruct s.
Qed.

Lemma uploads_none (c : contents) pend' c' : uploads (∅, c) (pend', c') -> pend' = ∅ /\ c' = c.
Proof. inversion 1 as [|? ? ? Hu]; [done|]. inversion Hu as [? ? ? ? ? Hp]. by rewrite lookup_empty in Hp. Qed.
Lemma later_none open c lim s : later open ∅ c lim s -> pipe s open ∅ c lim.
Proof. intros (pend' & c' & Hu & HI). by apply uploads_none in Hu as [-> ->]. Qed.
Lemma pipe_later s open pend c lim : pipe s open pend c lim -> later open pend c lim s.
Proof. by exists pend, c. Qed.

Lemma FlushAll_returns (open : gmap N writes) c : (0 < limit)%nat -> (forall m, range m ≡ₚ map_to_list m) ->
  (forall n w, open !! n = Some w -> IsAllBytesZero (stored B w.1 c (ino, n) w.2) = false) ->
  returns (fun s => pipe s (Some <$> open) ∅ c []) (FlushAll already_exists range)
    (fun _ s => pipe s ∅ ∅ (flush_open open c) []).
Proof.
  intros Hl Hrange Hz. unfold FlushAll.
  apply (returns_bind _ _ _ (fun _ s => pipe s (Some <$> open) ∅ c [])).
  { eapply returns_conseq; [apply Lock_returns|intros s; apply pipe_later|]. intros [] s. apply later_none. }
  intros []. apply returns_pt. intros s HI.
  refine (returns_eq _ (fun x => x = s) _ (seal_all already_exists (range (writeBlocks s)) ;;; waitForCurrentWritersToComplete already_exists) _ _ _).
  { intros x ->. by exists s. }
  apply (returns_bind _ _ _ (fun _ => sealing_all [] (flush_open open c))).
  { eapply returns_conseq; [apply (seal_all_returns _ (flush_open open c) Hl)| |done]. intros x ->. exists (Some <$> open), ∅, c. split; [done|].
    split; [by apply draining_flush_open|]. intros n st Hn. destruct (p_open _ _ _ _ _ HI n st Hn) as [r Hr].
    rewrite (Hrange (writeBlocks s)). apply list_elem_of_fmap. exists (Z.of_N n, r). split; [done|]. by apply elem_of_map_to_list. }
  intros []. clear s HI. apply returns_pt. intros s (open1 & pend1 & c1 & HI & Hd & Hin).
  assert (open1 = ∅) as ->.
  { apply map_eq. intros n. rewrite lookup_empty. destruct (open1 !! n) eqn:E; [|done]. apply Hin in E. by apply not_elem_of_nil in E. }
  eapply returns_conseq; [apply (wait_for_later true (fun s => uploaderCount s <=? 0)); [done|apply reaches_count]| |].
  { intros x ->. by apply pipe_later. }
  intros [] s' (Hc & pend2 & c2 & Hu & HI2). apply Z.leb_le in Hc.
  assert (pend2 = ∅) as ->.
  { apply map_eq. intros sid. rewrite lookup_empty. destruct (pend2 !! sid) as [[n w]|] eqn:E; [|done].
    destruct (p_pend _ _ _ _ _ HI2 _ _ _ E) as ((u & Hu2 & _ & Hf) & _). rewrite (p_count _ _ _ _ _ HI2) in Hc.
    assert (Hin2 : u ∈ filter (fun u => u_flushed u = false) (uploaders s' ++ [])) by (by apply list_elem_of_filter).
    destruct (filter _ _); [by apply not_elem_of_nil in Hin2|]. cbn in Hc. lia. }
  eapply draining_uploads in Hd; [|done]. by rewrite (draining_done _ _ Hd).
Qed.
(** ** Writing *)

Lemma length_filter_or {X} (P Q : X -> Prop) `{!forall x, Decision (P x), !forall x, Decision (Q x)} (l : list X) :
  (forall x, P x -> ~ Q x) ->
  length (filter (fun x => P x \/ Q x) l) = (length (filter P l) + length (filter Q l))%nat.
Proof.
  intros Hpq. induction l as [|x l IH]; [done|]. rewrite !filter_cons. specialize (Hpq x).
  destruct (decide (P x)), (decide (Q x)); [tauto|..]; [rewrite decide_True by tauto|rewrite decide_True by tauto|rewrite decide_False by tauto];
    cbn; lia.
Qed.
Lemma count_covered_cons ws st e :
  0 <= st < e -> e <= B -> (forall x, st <= x < e -> ~ cover ws x) ->
  count_covered B ((st, e) :: ws) = e - st + count_covered B ws.
Proof.
  intros Hse He Hd. assert (H1 : e - st = count_covered B [(st, e)]).
  { unfold count_covered. rewrite <- (Z.sub_0_r B) at 1. rewrite <- (sum_len_count 0 B); [cbn; lia|cbn; lia| |lia]. constructor; [done|constructor]. }
  rewrite H1. unfold count_covered. rewrite <- Nat2Z.inj_add, <- length_filter_or.
  - do 2 f_equal. apply filter_seqZ_ext. intros x _. rewrite cover_cons. cbn. unfold cover at 2. rewrite Exists_cons, Exists_nil. cbn. tauto.
  - intros x Hx. apply Hd. unfold cover in Hx. rewrite Exists_cons, Exists_nil in Hx. cbn in Hx. lia.
Qed.
Lemma count_covered_le ws : count_covered B ws <= B.
Proof. unfold count_covered. pose proof (length_filter (cover ws) (seqZ 0 B)) as Hl. rewrite length_seqZ in Hl. lia. Qed.

Lemma IsFull_run b (t : T) ws : records (cells_of b) (interval b) B ws -> blockSize b = B ->
  MemBlock.IsFull (b, t) = (Ok (count_covered B ws =? B), (b, t)).
Proof.
  intros Hr Hs. unfold MemBlock.IsFull, bind, get_block, gets, on_interval, on_list. cbn [fst snd].
  rewrite (Total_records _ _ _ _ Hr) by lia. rewrite Hs. by destruct b.
Qed.

Lemma on_mem_same {A} i (m : M (MemBlock * T) fault A) s b r :
  mems s !! i = Some b -> m (b, storage (swapFile s)) = (r, (b, storage (swapFile s))) -> on_mem i m s = (r, s).
Proof.
  intros Hb Hm. rewrite (on_mem_run i m s b r _ _ Hb Hm), list_insert_id by done. destruct s as [? ? ? ? ? sw ? ? ? ? ? ? ? ?].
  by destruct sw.
Qed.

(** The pipeline after a write into block [n], which has address [i]. *)
Lemma pipe_put s open c n i b' st' t' c' ms :
  pipe s open ∅ c [] -> (n < 2 ^ 64)%N ->
  (forall idx, writeBlocks s !! idx = Some (MemRef i) -> idx = Z.of_N n) ->
  (forall sid sb, sealed s !! sid = Some sb -> block sb <> Some (MemRef i)) ->
  (forall j b, mems s !! j = Some b -> ms !! j = Some b) -> (i < length ms)%nat ->
  block_is st' n b' -> closed b' = false -> (exists x, be_holds t' x c') ->
  (forall n d, c' !! (ino, n) = Some d -> Z.of_nat (length d) = B) ->
  pipe (with_swapFile (with_storage t' (swapFile s)) (with_mems (<[i := b']> ms)
    (with_writeBlocks (<[Z.of_N n := MemRef i]> (writeBlocks s)) s))) (<[n := st']> open) ∅ c' [].
Proof.
  intros HI Hn Hwi Hsi Hms Hi Hst Hcl Hh Hlen. destruct HI. split; cbn; try done.
  - intros idx r. rewrite lookup_insert_Some. intros [[<- <-]|[Hne Hr]].
    + exists n, i, b', st'. rewrite lookup_insert_eq, list_lookup_insert_eq by done. done.
    + destruct (p_write0 idx r Hr) as (m & j & b & st & -> & Hm & -> & Ho & Hb & H). exists m, j, b, st.
      rewrite lookup_insert_ne by (intros ->; done). rewrite list_lookup_insert_ne; [by apply Hms in Hb|].
      intros <-. by apply Hwi in Hr.
  - intros m st. destruct (decide (m = n)) as [->|Hne]; [rewrite !lookup_insert_eq; done|].
    rewrite !lookup_insert_ne by (try intros E%N2Z.inj; congruence). apply p_open0.
  - intros idx idx' j. rewrite !lookup_insert_Some. intros [[<- [= <-]]|[Hne H1]] [[<- E]|[Hne' H2]]; [done| | |by eapply p_inj0].
    + by apply Hwi in H2.
    + injection E as <-. by apply Hwi in H1.
  - intros sid sb Hsid. destruct (p_sealed0 sid sb Hsid) as (j & b & Hj & Hb & Hnw & Hf). exists j, b.
    assert (j <> i) by (intros ->; by eapply Hsi). split_and!; [done| | |done].
    + rewrite list_lookup_insert_ne by done. by apply Hms.
    + intros idx. rewrite lookup_insert_Some. intros [[_ [= <-]]|[_ H']]; [done|by apply (Hnw idx)].
Qed.

Lemma size_writeBlocks s open pend c lim : pipe s open pend c lim -> size (writeBlocks s) = size open.
Proof.
  intros HI. rewrite <- !size_dom. transitivity (size (dom (kmap (M2 := gmap Z) Z.of_N open))).
  - f_equal. apply set_eq. intros idx. rewrite !elem_of_dom. split.
    + intros [r Hr]. destruct (p_write _ _ _ _ _ HI _ _ Hr) as (n & i & b & st & -> & _ & _ & Ho & _). exists st. by rewrite lookup_kmap by apply _.
    + intros [st Hst]. apply lookup_kmap_Some in Hst as (n & -> & Ho); [|apply _]. by eapply p_open.
  - rewrite !size_dom, <- !length_map_to_list, map_to_list_kmap by apply _. by rewrite length_fmap.
Qed.
Lemma new_block_fields mode k size : closed (new_block mode k size) = false /\ blockSize (new_block mode k size) = size.
Proof. unfold new_block. by destruct (NewIntervalList []) as [[]]. Qed.
Lemma to_uint64_N n : (n < 2 ^ 64)%N -> to_uint64 (Z.of_N n) = n.
Proof.
  intros Hn. unfold to_uint64. rewrite Z.mod_small; [apply N2Z.id|]. split; [lia|]. change (2 ^ 64) with (Z.of_N (2 ^ 64)). lia.
Qed.

(** What block [n] of the file has before a write. *)
Definition old_writes (open : gmap N writes) (n : N) : writes := default ([], zeros B) (open !! n).

Lemma block_for_run s (open : gmap N writes) c n :
  (0 < limit)%nat -> pipe s (Some <$> open) ∅ c [] -> (n < 2 ^ 64)%N -> (open !! n = None -> (size open < limit)%nat) ->
  exists i ms b, (forall sc, block_for already_exists temp range (Z.of_N n) (with_sched sc s) =
      (Ok (MemRef i), with_sched sc (with_mems ms (with_writeBlocks (<[Z.of_N n := MemRef i]> (writeBlocks s)) s)))) /\
    (forall idx, writeBlocks s !! idx = Some (MemRef i) -> idx = Z.of_N n) /\
    (forall sid sb, sealed s !! sid = Some sb -> block sb <> Some (MemRef i)) /\
    (forall j b, mems s !! j = Some b -> ms !! j = Some b) /\ ms !! i = Some b /\ closed b = false /\ blockSize b = B /\
    buffered b ino n (old_writes open n).1 (old_writes open n).2 /\
    sum_len (old_writes open n).1 = count_covered B (old_writes open n).1.
Proof.
  intros Hl HI Hn Hsz. unfold old_writes. destruct (open !! n) as [[ws buf]|] eqn:Eo.
  - assert (Ho : (Some <$> open) !! n = Some (Some (ws, buf))) by (by rewrite lookup_fmap, Eo).
    destruct (p_open _ _ _ _ _ HI n _ Ho) as [r Hr].
    destruct (p_write _ _ _ _ _ HI _ _ Hr) as (n' & i & b & st & En & _ & -> & Ho' & Hb & Hst & Hcl). apply N2Z.inj in En as <-.
    assert (st = Some (ws, buf)) as -> by congruence. destruct Hst as (Hs & Hbu & Hne & Hsum). exists i, (mems s), b. split_and!; try done.
    + intros sc. unfold block_for, bind at 1, gets, Datatypes.id. change (writeBlocks (with_sched sc s)) with (writeBlocks s).
      rewrite Hr, insert_id by done. by destruct s.
    + intros idx Hi. by eapply p_inj.
    + intros sid sb Hsid E. destruct (p_sealed _ _ _ _ _ HI sid sb Hsid) as (j & bj & Ej & _ & Hnw & _). rewrite E in Ej. injection Ej as <-.
      by eapply Hnw.
  - assert (Hw : writeBlocks s !! Z.of_N n = None).
    { destruct (writeBlocks s !! Z.of_N n) as [r|] eqn:Hr; [|done].
      destruct (p_write _ _ _ _ _ HI _ _ Hr) as (n' & i & b & st & En & _ & _ & Ho & _). apply N2Z.inj in En as <-.
      by rewrite lookup_fmap, Eo in Ho. }
    specialize (Hsz eq_refl). pose proof (size_writeBlocks _ _ _ _ _ HI) as Hsize. rewrite map_size_fmap in Hsize.
    exists (length (mems s)), (mems s ++ [NewMemBlockForWrite (NewBlockKey ino n) B]), (NewMemBlockForWrite (NewBlockKey ino n) B).
    destruct (new_block_fields true (NewBlockKey ino n) B) as [Hcl Hbs]. split_and!; try done.
    + intros sc. unfold block_for, bind at 1, gets, Datatypes.id. change (writeBlocks (with_sched sc s)) with (writeBlocks s). rewrite Hw.
      unfold bind at 1, on_swap, GetBlock, gets. change (swapFile (with_sched sc s)) with (swapFile s).
      rewrite (p_lookup _ _ _ _ _ HI), lookup_empty. unfold new_block_for, bind at 1, gets, Datatypes.id. cbn [with_swapFile up_limit writeBlocks with_sched].
      rewrite (p_limit _ _ _ _ _ HI), Hsize, (proj2 (Nat.ltb_ge _ _)) by lia.
      unfold bind at 1, ret at 1. unfold bind at 1. cbn [with_swapFile up_limit writeBlocks with_sched up_ino up_blockSize mems].
      rewrite (p_limit _ _ _ _ _ HI), (p_ino _ _ _ _ _ HI), (p_size _ _ _ _ _ HI), Hsize, (proj2 (Nat.ltb_lt _ _)) by lia.
      rewrite to_uint64_N by done. unfold memBlockCounter. rewrite (proj2 (Z.ltb_lt _ _)) by lia. by destruct s.
    + intros idx Hi. destruct (p_write _ _ _ _ _ HI _ _ Hi) as (n' & i & b & st & _ & _ & [= <-] & _ & Hb & _). apply lookup_lt_Some in Hb. lia.
    + intros sid sb Hsid E. destruct (p_sealed _ _ _ _ _ HI sid sb Hsid) as (j & bj & Ej & Hbj & _). rewrite E in Ej. injection Ej as <-.
      apply lookup_lt_Some in Hbj. lia.
    + intros j b Hb. by apply lookup_app_l_Some.
    + by rewrite list_lookup_middle.
    + by apply new_buffered.
    + cbn. unfold count_covered. rewrite filter_seqZ_none; [done|]. by intros x _ ?%Exists_nil.
Qed.
(** A write of [p] at [st] of block [n] fits: the pipeline has room for the block,
    the bytes were not written since the block was last flushed, and a block that
    is complete is not all zeros. *)
Record fits (open : gmap N writes) (n : N) (st : Z) (p : list byte) : Prop := {
  f_n : (n < 2 ^ 64)%N;
  f_st : 0 <= st < B;
  f_room : open !! n = None -> (size open < limit)%nat;
  f_new : forall x, st <= x < Z.min (st + Z.of_nat (length p)) B -> ~ cover (old_writes open n).1 x;
  f_zero : count_covered B ((st, Z.min (st + Z.of_nat (length p)) B) :: (old_writes open n).1) = B ->
    IsAllBytesZero (splice st (Z.min (st + Z.of_nat (length p)) B) (old_writes open n).2 p) = false }.

(** The block after the write, and the pipeline and the backend: a block that is
    complete goes to the backend. *)
Definition put_writes (open : gmap N writes) (n : N) (st : Z) (p : list byte) : writes :=
  let e := Z.min (st + Z.of_nat (length p)) B in
  ((st, e) :: (old_writes open n).1, splice st e (old_writes open n).2 p).
Definition put (open : gmap N writes) (c : contents) (n : N) (st : Z) (p : list byte) : gmap N writes * contents :=
  let w := put_writes open n st p in
  if decide (count_covered B w.1 = B) then (delete n open, <[(ino, n) := w.2]> c) else (<[n := w]> open, c).

Lemma write_round s (open : gmap N writes) c n st p :
  (0 < limit)%nat -> pipe s (Some <$> open) ∅ c [] -> fits open n st p -> p <> [] ->
  let w := put_writes open n st p in
  exists i s1 s2,
    (forall sc, block_for already_exists temp range (Z.of_N n) (with_sched sc s) = (Ok (MemRef i), with_sched sc s1)) /\
    (forall sc, blk_IsDestroyed (MemRef i) (with_sched sc s1) = (Ok false, with_sched sc s1)) /\
    (forall sc, blk_WriteAt already_exists (MemRef i) p (Z.of_N n * B + st) (with_sched sc s1) =
       (Ok (Z.min (st + Z.of_nat (length p)) B - st, None), with_sched sc s2)) /\
    (forall sc, blk_IsFull (MemRef i) (with_sched sc s2) = (Ok (count_covered B w.1 =? B), with_sched sc s2)) /\
    writeBlocks s2 !! Z.of_N n = Some (MemRef i) /\
    if decide (count_covered B w.1 = B) then pipe s2 (<[n := None]> (Some <$> open)) ∅ (<[(ino, n) := w.2]> c) []
    else pipe s2 (Some <$> <[n := w]> open) ∅ c [].
Proof.
  intros Hl HI [Hn Hst Hroom' Hnew Hzero] Hp w. unfold put_writes in w. set (e := Z.min _ B) in *.
  destruct (block_for_run s open c n Hl HI Hn Hroom') as (i & ms & b & Hfor & Hwi & Hsi & Hms & Hb & Hcl & Hbs & Hbu & Hsum).
  assert (Hlp : (0 < length p)%nat) by (destruct p; [done|cbn; lia]).
  assert (He : st < e <= B) by (unfold e; lia).
  destruct (old_writes open n) as [ws buf]. cbn [fst snd] in *. subst w. cbn [fst snd].
  set (ws' := (st, e) :: ws) in *. set (buf' := splice st e buf p) in *.
  set (s1 := with_mems ms (with_writeBlocks (<[Z.of_N n := MemRef i]> (writeBlocks s)) s)) in *.
  assert (Hcnt : count_covered B ws' = e - st + count_covered B ws) by (apply count_covered_cons; [lia|lia|done]).
  assert (Hsum' : sum_len ws' = count_covered B ws') by (rewrite Hcnt; unfold ws'; rewrite sum_len_cons, Hsum; done).
  pose proof (count_covered_le ws') as Hle. pose proof (bu_written _ _ _ _ _ Hbu) as Hwr.
  assert (Hst' : 0 <= st < blockSize b) by lia.
  destruct (WriteAt_run already_exists b (storage (swapFile s)) ino n ws buf p st Hbu Hst' Hp) as (b' & Hbu' & Hbs' & Hcl' & Hlt & Hge).
  rewrite Hbs in *. fold e in Hbu', Hlt, Hge. fold ws' buf' in Hbu', Hge.
  assert (Hi : (i < length ms)%nat) by (by eapply lookup_lt_Some).
  exists i, s1. destruct (decide (count_covered B ws' = B)) as [Efull|Epart].
  - destruct (p_backend _ _ _ _ _ HI) as [x Hh]. pose proof (p_lens _ _ _ _ _ HI) as Hlens.
    assert (Hsto : stored B ws' c (ino, n) buf' = buf') by (unfold stored; by rewrite decide_True).
    pose proof (bu_len _ _ _ _ _ Hbu') as Hlen'. rewrite Hbs' in Hlen'.
    destruct (Hge ltac:(lia) x c Hh) as (h' & t' & x' & Hrun & Hh' & Hrec).
    { by apply Hlens. }
    { rewrite Hsto. eapply Hroom; [done|done|by apply Hzero]. }
    rewrite Hsto in Hh'. specialize (Hrec Efull).
    exists (with_swapFile (with_storage t' (swapFile s)) (with_mems (<[i := after_flush b' h']> ms)
      (with_writeBlocks (<[Z.of_N n := MemRef i]> (writeBlocks s)) s))).
    split; [exact Hfor|]. split; [|split; [|split; [|split; [|]]]].
    + intros sc. apply (on_mem_same i _ _ b); [done|]. unfold bind, get_block, gets, ret, MemBlock.IsDestroyed. cbn. by rewrite Hcl.
    + intros sc. exact (on_mem_run i _ (with_sched sc s1) b _ _ _ Hb Hrun).
    + intros sc. apply (on_mem_same i _ _ (after_flush b' h')); [cbn; by apply list_lookup_insert_eq|].
      exact (IsFull_run (after_flush b' h') _ ws' Hrec Hbs').
    + cbn. by rewrite lookup_insert_eq.
    + apply (pipe_put s (Some <$> open) c n i (after_flush b' h') None t' _ ms HI Hn Hwi Hsi Hms Hi);
        [by split; [|split; [|apply (bu_shared _ _ _ _ _ Hbu')]]|by cbn; rewrite Hcl'|by exists x'|].
      intros m d. rewrite lookup_insert_Some. intros [[[= <-] <-]|[_ Hd]]; [done|by eapply Hlens].
  - exists (with_swapFile (with_storage (storage (swapFile s)) (swapFile s)) (with_mems (<[i := b']> ms)
      (with_writeBlocks (<[Z.of_N n := MemRef i]> (writeBlocks s)) s))).
    split; [exact Hfor|]. split; [|split; [|split; [|split; [|]]]].
    + intros sc. apply (on_mem_same i _ _ b); [done|]. unfold bind, get_block, gets, ret, MemBlock.IsDestroyed. cbn. by rewrite Hcl.
    + intros sc. exact (on_mem_run i _ (with_sched sc s1) b _ _ _ Hb (Hlt ltac:(lia))).
    + intros sc. apply (on_mem_same i _ _ b'); [cbn; by apply list_lookup_insert_eq|].
      apply IsFull_run; [|done]. rewrite <- Hbs'. by eapply bu_records.
    + cbn. by rewrite lookup_insert_eq.
    + rewrite fmap_insert.
      apply (pipe_put s (Some <$> open) c n i b' (Some (ws', buf')) (storage (swapFile s)) c ms HI Hn Hwi Hsi Hms Hi); [done|by rewrite Hcl'| |].
      * apply (p_backend _ _ _ _ _ HI).
      * apply (p_lens _ _ _ _ _ HI).
Qed.
(** Writing [p] at [off], block by block. *)
Inductive writes_as : gmap N writes -> contents -> Z -> list byte -> gmap N writes -> contents -> Prop :=
| writes_none open c off : writes_as open c off [] open c
| writes_block open c n st p open' c' : p <> [] -> fits open n st p ->
    let e := Z.min (st + Z.of_nat (length p)) B in
    writes_as (put open c n st p).1 (put open c n st p).2 (Z.of_N n * B + e) (drop (Z.to_nat (e - st)) p) open' c' ->
    writes_as open c (Z.of_N n * B + st) p open' c'.

Lemma write_loop_returns open c off p open' c' fuel idx cnt : (0 < limit)%nat ->
  writes_as open c off p open' c' -> (length p <= fuel)%nat -> (p <> [] -> off / B = idx) ->
  returns (fun s => pipe s (Some <$> open) ∅ c []) (write_loop already_exists temp range fuel p off idx cnt)
    (fun r s => r = (cnt + Z.of_nat (length p), None) /\ pipe s (Some <$> open') ∅ c' []).
Proof.
  intros Hl Hw. revert fuel idx cnt. induction Hw as [open c off|open c n st p open' c' Hp Hf e Hw IH]; intros fuel idx cnt Hfuel Hidx.
  - apply returns_step. intros s HI. exists (cnt + Z.of_nat 0, None), s. split; [by split|]. split; [by split; [|apply pipe_sched]|].
    intros sc. destruct fuel; cbn [write_loop]; by rewrite Z.add_0_r.
  - assert (Hlp : (0 < length p)%nat) by (destruct p; [done|cbn; lia]). pose proof (f_st _ _ _ _ Hf) as Hst.
    assert (He : st < e <= B) by (unfold e; lia). specialize (Hidx Hp).
    assert (idx = Z.of_N n) as ->. { rewrite <- Hidx. rewrite Z.add_comm, Z.div_add, Z.div_small; lia. }
    destruct fuel as [|fuel]; [lia|]. apply returns_pt. intros s HI.
    destruct (write_round s open c n st p Hl HI Hf Hp) as (i & s1 & s2 & H1 & H2 & H3 & H4 & Hwb & HI2). fold e in H3.
    set (w := put_writes open n st p) in *.
    set (rest := write_loop already_exists temp range fuel (drop (Z.to_nat (e - st)) p) (Z.of_N n * B + e) (Z.of_N n + 1) (cnt + (e - st))).
    refine (returns_eq _ (fun x => x = s2) _ ((if count_covered B w.1 =? B then move2Sealed already_exists (Some (MemRef i)) (Z.of_N n) else ret tt) ;;; rest) _ _ _).
    { intros x ->. exists s2. split; [done|]. intros sc. cbn [write_loop]. destruct p as [|b0 p0]; [done|]. set (p := b0 :: p0) in *.
      rewrite (bind_ok _ _ _ _ _ (H1 sc)), (bind_ok _ _ _ _ _ (H2 sc)), (bind_ok _ _ _ _ _ (H3 sc)), (bind_ok _ _ _ _ _ (H4 sc)).
      unfold rest. by replace (Z.of_N n * B + st + (e - st)) with (Z.of_N n * B + e) by lia. }
    assert (Hrest : returns (fun s => pipe s (Some <$> (put open c n st p).1) ∅ (put open c n st p).2 []) rest
        (fun r s => r = (cnt + Z.of_nat (length p), None) /\ pipe s (Some <$> open') ∅ c' [])).
    { assert (Hdl : Z.of_nat (length (drop (Z.to_nat (e - st)) p)) = Z.of_nat (length p) - (e - st)) by (rewrite length_drop; unfold e in *; lia).
      replace (cnt + Z.of_nat (length p)) with (cnt + (e - st) + Z.of_nat (length (drop (Z.to_nat (e - st)) p))) by lia.
      apply IH; [lia|]. intros Hne. assert (0 < length (drop (Z.to_nat (e - st)) p))%nat by (destruct (drop _ _); [done|cbn; lia]).
      assert (e = B) as -> by (unfold e in *; lia). rewrite Z.add_comm, Z.div_add, Z.div_same by lia. lia. }
    refine (returns_bind _ _ _ (fun _ s => pipe s (Some <$> (put open c n st p).1) ∅ (put open c n st p).2 []) _ _ (fun _ => Hrest)).
    unfold put. fold w. destruct (decide (count_covered B w.1 = B)) as [E|E]; cbn [fst snd].
    + rewrite (proj2 (Z.eqb_eq _ _) E). eapply returns_conseq.
      * apply (move2Sealed_returns (<[n := None]> (Some <$> open)) ∅ (<[(ino, n) := w.2]> c) n None i (length (sealed s2)) Hl); [apply lookup_insert_eq|done].
      * intros x ->. done.
      * intros [] s' H%later_none. by rewrite delete_insert_eq, <- fmap_delete in H.
    + rewrite (proj2 (Z.eqb_neq _ _) E). apply returns_step. intros x ->. exists tt, s2. split_and!; [done| |done]. intros sc. by apply pipe_sched.
Qed.

Lemma WriteAt_returns open c off p open' c' fuel : (0 < limit)%nat ->
  writes_as open c off p open' c' -> (length p <= fuel)%nat -> 0 <= off ->
  returns (fun s => pipe s (Some <$> open) ∅ c []) (WriteAt already_exists temp range fuel p off)
    (fun r s => r = (Z.of_nat (length p), None) /\ pipe s (Some <$> open') ∅ c' []).
Proof.
  intros Hl Hw Hfuel Hoff. apply (returns_bind _ _ _ (fun _ s => pipe s (Some <$> open) ∅ c [])).
  { eapply returns_conseq; [apply Lock_returns|intros s; apply pipe_later|]. intros [] s. apply later_none. }
  intros []. apply returns_pt. intros s HI.
  refine (returns_eq _ (fun x => x = s) _ (write_loop already_exists temp range fuel p off (Z.quot off B) 0) _ _ _).
  { intros x ->. exists s. split; [done|]. intros sc. unfold bind, gets, Datatypes.id. change (up_blockSize (with_sched sc s)) with (up_blockSize s).
    rewrite (p_size _ _ _ _ _ HI), (proj2 (Z.eqb_neq _ _)) by lia. done. }
  eapply returns_conseq; [apply (write_loop_returns open c off p open' c' fuel (Z.quot off B) 0 Hl Hw Hfuel)| |done].
  - intros _. by rewrite Z.quot_div_nonneg by lia.
  - by intros x ->.
Qed.
(** ** Reading *)

Lemma ReadAt_own s (open : gmap N writes) c n st p ws buf :
  pipe s (Some <$> open) ∅ c [] -> open !! n = Some (ws, buf) -> 0 <= st < B -> (Z.of_N n + 1) * B <= MaxInt ->
  sealedBlocks s !! Z.of_N n = None -> sched s = [] ->
  let k := Z.min (foldr (fun w m => Z.max w.2 m) 0 ws - st) (Z.of_nat (length p)) in
  ReadAt already_exists p (Z.of_N n * B + st) s =
    (Ok (if 0 <? k then (k, None, copy_into p (take (Z.to_nat k) (drop (Z.to_nat st) buf))) else (0, Some EOF, p)), s).
Proof.
  intros HI Ho Hst Hmax Hs Hsc k. assert (Ho' : (Some <$> open) !! n = Some (Some (ws, buf))) by (by rewrite lookup_fmap, Ho).
  destruct (p_open _ _ _ _ _ HI n _ Ho') as [r Hr].
  destruct (p_write _ _ _ _ _ HI _ _ Hr) as (n' & i & b & st' & En & Hn & -> & Ho2 & Hb & Hb' & _). apply N2Z.inj in En as <-.
  assert (st' = Some (ws, buf)) as -> by congruence. destruct Hb' as (Hbs & Hbu & _).
  unfold ReadAt, bind at 1, gets, Datatypes.id. rewrite (p_size _ _ _ _ _ HI), (proj2 (Z.eqb_neq _ _)) by lia.
  assert (Eq : Z.quot (Z.of_N n * B + st) B = Z.of_N n).
  { rewrite Z.quot_div_nonneg by lia. rewrite Z.add_comm, Z.div_add, Z.div_small by lia. lia. }
  rewrite Eq. rewrite (bind_ok _ _ _ tt s).
  2:{ unfold Lock, wait_for, bind, gets, modify, Datatypes.id. rewrite Hsc. cbn. unfold ret. f_equal. destruct s. cbn in *. by rewrite Hsc. }
  unfold read_sealed at 1, bind at 1, gets, Datatypes.id. unfold bind at 1. rewrite (p_retired _ _ _ _ _ HI), lookup_empty. unfold ret at 1.
  unfold read_sealed, bind at 1, gets, Datatypes.id. unfold bind at 1. rewrite Hs. unfold ret at 1.
  unfold bind. rewrite Hr. cbn [blk_ReadAt].
  apply (on_mem_same i _ s b); [done|]. pose proof (ReadAt_run b (storage (swapFile s)) ino n ws buf p st Hbu) as Hread.
  rewrite Hbs, (bu_high _ _ _ _ _ Hbu) in Hread. by apply Hread.
Qed.

(** * The pipeline and its abstraction *)

(** C7 Over a backend that can store every block that is not all zeros, a pipeline
    with write blocks [open] and no upload to come.  A write whose pieces fit is taken
    whole, block by block, complete blocks going to the backend.  (A piece fits when
    its block has, or can get, a write block in memory, not in the swap file; when no
    byte of it was written since the block was last flushed; and when the block, if
    it is complete then, is not all zeros.)  A flush takes all write blocks to the
    backend when none of them is stored as zeros only.  Both return under every
    schedule of the uploaders that goes on long enough, and every schedule can go on
    so that they do.  A read of a write block that ends within int64, when no sealed
    block has its index and no uploader runs meanwhile, returns the bytes written, up
    to the highest one; reads of other blocks are not considered. *)
Theorem UploadPipeline_implements (open : gmap N writes) (c : contents) :
  (0 < limit)%nat -> (forall m, range m ≡ₚ map_to_list m) ->
  (forall p off open' c' fuel, writes_as open c off p open' c' -> (length p <= fuel)%nat -> 0 <= off ->
     returns (fun s => pipe s (Some <$> open) ∅ c []) (WriteAt already_exists temp range fuel p off)
       (fun r s => r = (Z.of_nat (length p), None) /\ pipe s (Some <$> open') ∅ c' [])) /\
  ((forall n w, open !! n = Some w -> IsAllBytesZero (stored B w.1 c (ino, n) w.2) = false) ->
     returns (fun s => pipe s (Some <$> open) ∅ c []) (FlushAll already_exists range)
       (fun _ s => pipe s ∅ ∅ (flush_open open c) [])) /\
  (forall s n st p ws buf, pipe s (Some <$> open) ∅ c [] -> open !! n = Some (ws, buf) -> 0 <= st < B ->
     (Z.of_N n + 1) * B <= MaxInt -> sealedBlocks s !! Z.of_N n = None -> sched s = [] ->
     let k := Z.min (foldr (fun w m => Z.max w.2 m) 0 ws - st) (Z.of_nat (length p)) in
     ReadAt already_exists p (Z.of_N n * B + st) s =
       (Ok (if 0 <? k then (k, None, copy_into p (take (Z.to_nat k) (drop (Z.to_nat st) buf))) else (0, Some EOF, p)), s)).
Proof.
  intros Hl Hr. split_and!.
  - intros p off open' c' fuel Hw Hfuel Hoff. by apply WriteAt_returns.
  - intros Hz. by apply FlushAll_returns.
  - intros s n st p ws buf HI Ho Hst Hmax Hs Hsc. by eapply ReadAt_own.
Qed.
(** ** Streaming a file *)

(** Block [i] of the data [d], filled up with zeros. *)
Definition block_of (d : list byte) (i : N) : list byte :=
  let b := take (Z.to_nat B) (drop (Z.to_nat (Z.of_N i * B)) d) in b ++ zeros (B - Z.of_nat (length b)).

(** The data [d] was written to a file that was empty: its complete blocks are in
    the backend, the rest is in the write block. *)
Record streamed (d : list byte) (c0 : contents) (open : gmap N writes) (c : contents) : Prop := {
  s_open : if decide (Z.of_nat (length d) mod B = 0) then open = ∅
    else exists ws, open = {[Z.to_N (Z.of_nat (length d) / B) := (ws, block_of d (Z.to_N (Z.of_nat (length d) / B)))]} /\
      forall x, cover ws x <-> 0 <= x < Z.of_nat (length d) mod B;
  s_blocks : forall i, c !! (ino, i) = if decide ((Z.of_N i + 1) * B <= Z.of_nat (length d)) then Some (block_of d i) else None;
  s_other : forall k, k.1 <> ino -> c !! k = c0 !! k }.

Lemma block_of_app_lt (d p : list byte) i : (Z.of_N i + 1) * B <= Z.of_nat (length d) -> block_of (d ++ p) i = block_of d i.
Proof.
  intros Hi. unfold block_of. rewrite drop_app_le by lia. rewrite take_app_le by (rewrite length_drop; lia). done.
Qed.
Lemma splice_block (d p : list byte) n st e :
  Z.of_nat (length d) = Z.of_N n * B + st -> 0 <= st < e -> e <= B -> e - st <= Z.of_nat (length p) ->
  splice st e (block_of d n) p = block_of (d ++ take (Z.to_nat (e - st)) p) n.
Proof.
  intros Hd Hse He Hp. unfold block_of, splice, zeros. set (q := take (Z.to_nat (e - st)) p).
  assert (Hq : length q = Z.to_nat (e - st)) by (unfold q; rewrite length_take; lia).
  set (a := drop (Z.to_nat (Z.of_N n * B)) d).
  assert (Ha : length a = Z.to_nat st) by (unfold a; rewrite length_drop; nia).
  rewrite (drop_app_le d q) by nia. fold a.
  rewrite (take_ge a) by lia. rewrite Ha. rewrite (take_ge (a ++ q)) by (rewrite length_app; lia).
  rewrite take_app_le, take_ge by lia. rewrite drop_app_ge, drop_replicate by lia. rewrite Ha, <- app_assoc. do 3 f_equal.
  rewrite length_app. lia.
Qed.
Lemma cover_count ws k : 0 <= k <= B -> (forall x, cover ws x <-> 0 <= x < k) -> count_covered B ws = k.
Proof.
  intros Hk Hc. unfold count_covered. replace B with (k + (B - k)) by lia. rewrite seqZ_app by lia.
  rewrite filter_app, filter_seqZ_all, filter_seqZ_none; [rewrite length_app, length_seqZ; cbn; lia|..].
  - intros x Hx. rewrite Hc. lia.
  - intros x Hx. rewrite Hc. lia.
Qed.

(** No block of the data is all zeros, and the indices fit; or no complete block
    is. *)
Definition storable (d : list byte) : Prop :=
  Z.of_nat (length d) <= B * 2 ^ 64 /\
  forall i, Z.of_N i * B < Z.of_nat (length d) -> IsAllBytesZero (block_of d i) = false.
Definition storable_blocks (d : list byte) : Prop :=
  Z.of_nat (length d) <= B * 2 ^ 64 /\
  forall i, (Z.of_N i + 1) * B <= Z.of_nat (length d) -> IsAllBytesZero (block_of d i) = false.
Lemma storable_prefix d p : storable (d ++ p) -> storable_blocks d.
Proof.
  intros [Hl Hz]. rewrite length_app in *. split; [lia|]. intros i Hi. rewrite <- (block_of_app_lt d p) by done. apply Hz. lia.
Qed.

Lemma streamed_old d c0 open c :
  streamed d c0 open c ->
  let k := Z.of_nat (length d) in let n := Z.to_N (k / B) in
  (open !! n = None -> open = ∅) /\ (old_writes open n).2 = block_of d n /\
  (forall x, cover (old_writes open n).1 x <-> 0 <= x < k mod B) /\ delete n open = ∅ /\
  forall w, <[n := w]> open = {[n := w]}.
Proof.
  intros [Ho Hb Hk] k n. fold k n in Ho. pose proof (Z.mod_pos_bound k B). pose proof (Z.div_mod k B).
  destruct (decide (k mod B = 0)) as [E|E].
  - subst open. unfold old_writes. rewrite lookup_empty. cbn [default fst snd]. split_and!; try done.
    + unfold block_of. rewrite drop_ge by (unfold n; rewrite Z2N.id by (apply Z.div_pos; lia); nia). rewrite take_nil. cbn. by rewrite Z.sub_0_r.
    + intros x. split; [by intros ?%Exists_nil|lia].
  - destruct Ho as (ws & -> & Hc). unfold old_writes. rewrite lookup_singleton_eq. cbn. split_and!; try done.
    + apply delete_singleton_eq.
    + intros w. by rewrite insert_singleton_eq.
Qed.

(** The state after more data. *)
Lemma streamed_put d c0 open c p :
  streamed d c0 open c -> storable_blocks (d ++ p) -> (0 < limit)%nat -> p <> [] ->
  let k := Z.of_nat (length d) in let n := Z.to_N (k / B) in let st := k mod B in
  let e := Z.min (st + Z.of_nat (length p)) B in
  fits open n st p /\ k = Z.of_N n * B + st /\
  streamed (d ++ take (Z.to_nat (e - st)) p) c0 (put open c n st p).1 (put open c n st p).2.
Proof.
  intros Hs [Hlen Hz] Hl Hp k n st e. destruct (streamed_old d c0 open c Hs) as (Hn & Hold & Hcov & Hdel & Hins). fold k n in Hn, Hold, Hcov, Hdel, Hins. fold st in Hcov.
  assert (Hlp : (0 < length p)%nat) by (destruct p; [done|cbn; lia]).
  pose proof (Z.mod_pos_bound k B ltac:(lia)) as Hst. fold st in Hst.
  assert (Hkn : k = Z.of_N n * B + st).
  { unfold n, st. rewrite Z2N.id by (apply Z.div_pos; lia). pose proof (Z.div_mod k B). lia. }
  assert (He : st < e <= B) by (unfold e; lia). assert (Hek : e - st <= Z.of_nat (length p)) by (unfold e; lia).
  rewrite length_app in Hlen.
  assert (Hn64 : (n < 2 ^ 64)%N). { apply N2Z.inj_lt. change (Z.of_N (2 ^ 64)) with (2 ^ 64). nia. }
  set (q := take (Z.to_nat (e - st)) p). assert (Hq : Z.of_nat (length q) = e - st) by (unfold q; rewrite length_take; lia).
  assert (Hnew : forall x, st <= x < e -> ~ cover (old_writes open n).1 x) by (intros x Hx; rewrite Hcov; lia).
  assert (Hcnt : count_covered B ((st, e) :: (old_writes open n).1) = e).
  { rewrite count_covered_cons by (done || lia). rewrite (cover_count _ st) by (done || lia). lia. }
  assert (Hspl : splice st e (old_writes open n).2 p = block_of (d ++ q) n) by (rewrite Hold; by apply splice_block; lia).
  assert (Hlen' : Z.of_nat (length (d ++ q)) = Z.of_N n * B + e) by (rewrite length_app; lia).
  assert (Hfull : e = B -> block_of (d ++ p) n = block_of (d ++ q) n).
  { intros ->. rewrite <- (take_drop (Z.to_nat (B - st)) p), app_assoc. fold q. apply block_of_app_lt. lia. }
  split; [|split; [done|]].
  - split; fold e; try done.
    + intros ->%Hn. by rewrite map_size_empty.
    + rewrite Hcnt, Hspl. intros E. rewrite <- Hfull by done. apply Hz. rewrite length_app. lia.
  - destruct Hs as [_ Hb Hk]. unfold put, put_writes. fold e. cbn [fst snd]. rewrite Hcnt, Hspl.
    destruct (decide (e = B)) as [E|E]; cbn [fst snd]; split; rewrite ?Hlen'.
    + rewrite E. rewrite decide_True; [done|]. rewrite Z.add_comm, Z.mod_add, Z.mod_same; lia.
    + intros i. destruct (decide (i = n)) as [->|Hne].
      * rewrite lookup_insert_eq, decide_True by lia. done.
      * rewrite lookup_insert_ne by congruence. rewrite Hb. fold k. assert (Z.of_N i <> Z.of_N n) by (intros ?%N2Z.inj; done).
        destruct (decide _); [rewrite decide_True by nia; by rewrite block_of_app_lt by done|]. rewrite decide_False by nia. done.
    + intros j Hj. rewrite lookup_insert_ne; [by apply Hk|]. intros <-. done.
    + assert (Emod : (Z.of_N n * B + e) mod B = e) by (rewrite Z.add_comm, Z.mod_add, Z.mod_small; lia).
      assert (Ediv : Z.to_N ((Z.of_N n * B + e) / B) = n) by (rewrite Z.add_comm, Z.div_add, Z.div_small by lia; apply N2Z.id).
      rewrite Emod, Ediv, decide_False by lia. exists ((st, e) :: (old_writes open n).1). split; [by rewrite Hins|].
      intros x. rewrite cover_cons, Hcov. cbn. lia.
    + intros i. rewrite Hb. fold k. destruct (decide _); [rewrite decide_True by nia; by rewrite block_of_app_lt by done|].
      rewrite decide_False; [done|]. intros Hi. assert (Z.of_N i + 1 <= Z.of_N n) by nia. nia.
    + done.
Qed.
Lemma streamed_writes c0 p d open c : (0 < limit)%nat ->
  streamed d c0 open c -> storable_blocks (d ++ p) ->
  exists open' c', writes_as open c (Z.of_nat (length d)) p open' c' /\ streamed (d ++ p) c0 open' c'.
Proof.
  intros Hl. remember (length p) as m eqn:Em. revert p d open c Em. induction (lt_wf m) as [m _ IH]. intros p d open c -> Hs Hz.
  destruct p as [|b0 p0]; [exists open, c; rewrite app_nil_r; split; [constructor|done]|]. set (p := b0 :: p0) in *.
  destruct (streamed_put d c0 open c p Hs Hz Hl ltac:(done)) as (Hf & Hk & Hs').
  set (n := Z.to_N (Z.of_nat (length d) / B)) in *. set (st := Z.of_nat (length d) mod B) in *.
  set (e := Z.min (st + Z.of_nat (length p)) B) in *. pose proof (f_st _ _ _ _ Hf) as Hst.
  assert (Hlp : (0 < length p)%nat) by (cbn; lia). assert (He : st < e <= B) by (unfold e; lia).
  assert (Hle : e - st <= Z.of_nat (length p)) by (unfold e; lia).
  destruct (IH (length (drop (Z.to_nat (e - st)) p)) ltac:(rewrite length_drop; lia) (drop (Z.to_nat (e - st)) p) _ _ _ eq_refl Hs')
    as (open' & c' & Hw & Hs2).
  { by rewrite <- app_assoc, take_drop. }
  rewrite <- app_assoc, take_drop in Hs2. exists open', c'. split; [|done]. rewrite Hk. apply writes_block; [done|done|]. fold e.
  replace (Z.of_N n * B + e) with (Z.of_nat (length (d ++ take (Z.to_nat (e - st)) p))); [done|].
  rewrite length_app, length_take. lia.
Qed.

(** Calls one after the other, and what the backend has of the file in the end. *)
Fixpoint write_chunks (fuel : nat) (chunks : list (list byte)) (off : Z) : UM unit :=
  match chunks with
  | [] => ret tt
  | p :: chunks =>
      WriteAt already_exists temp range fuel p off ;;;
      write_chunks fuel chunks (off + Z.of_nat (length p))
  end.
Definition file_is (d : list byte) (c0 c : contents) : Prop :=
  (forall i, c !! (ino, i) = if decide (Z.of_N i * B < Z.of_nat (length d)) then Some (block_of d i) else None) /\
  (forall k, k.1 <> ino -> c !! k = c0 !! k).

Lemma write_chunks_returns c0 chunks fuel d : (0 < limit)%nat ->
  storable (d ++ concat chunks) -> Forall (fun p => (length p <= fuel)%nat) chunks ->
  returns (fun s => exists open c, streamed d c0 open c /\ pipe s (Some <$> open) ∅ c [])
    (write_chunks fuel chunks (Z.of_nat (length d)))
    (fun _ s => exists open c, streamed (d ++ concat chunks) c0 open c /\ pipe s (Some <$> open) ∅ c []).
Proof.
  intros Hl. revert d. induction chunks as [|p chunks IH]; intros d Hz Hfuel.
  - apply returns_step. intros s (open & c & Hs & HI). exists tt, s. cbn. rewrite app_nil_r.
    split; [by exists open, c|]. split; [|done]. intros sc. exists open, c. split; [done|by apply pipe_sched].
  - apply Forall_cons in Hfuel as [Hp Hfuel]. cbn [concat write_chunks]. cbn [concat] in Hz. rewrite app_assoc in Hz.
    apply (returns_bind _ _ _ (fun _ s => exists open c, streamed (d ++ p) c0 open c /\ pipe s (Some <$> open) ∅ c [])).
    + apply returns_exists. intros open. apply returns_exists. intros c. apply returns_pt. intros s [Hs HI].
      destruct (streamed_writes c0 p d open c Hl Hs) as (open' & c' & Hw & Hs'); [by eapply storable_prefix|].
      eapply returns_conseq; [apply (WriteAt_returns open c (Z.of_nat (length d)) p open' c' fuel Hl Hw Hp ltac:(lia))|by intros x ->|].
      intros r s' [_ HI']. by exists open', c'.
    + intros _. rewrite app_assoc. replace (Z.of_nat (length d) + Z.of_nat (length p)) with (Z.of_nat (length (d ++ p))) by (rewrite length_app; lia).
      by apply IH.
Qed.

(** The blocks of a file after its last, incomplete one is flushed. *)
Lemma streamed_flush d c0 open c : streamed d c0 open c -> storable d ->
  (forall n w, open !! n = Some w -> IsAllBytesZero (stored B w.1 c (ino, n) w.2) = false) /\ file_is d c0 (flush_open open c).
Proof.
  intros [Ho Hb Hk] [Hlen Hz]. set (k := Z.of_nat (length d)) in *. pose proof (Z.mod_pos_bound k B ltac:(lia)) as Hst.
  pose proof (Z.div_mod k B ltac:(lia)) as Hdm. assert (Hq : 0 <= k / B) by (apply Z.div_pos; lia).
  destruct (decide (k mod B = 0)) as [E|E].
  - subst open. split; [intros n w; by rewrite lookup_empty|]. unfold flush_open. rewrite map_imap_empty, kmap_empty, (left_id_L ∅ _).
    split; [|done]. intros i. rewrite Hb. destruct (decide ((Z.of_N i + 1) * B <= k)); [rewrite decide_True by lia; done|].
    rewrite decide_False; [done|]. intros Hi. assert (Z.of_N i < k / B) by nia. nia.
  - destruct Ho as (ws & -> & Hc). set (n := Z.to_N (k / B)) in *. assert (Hn : Z.of_N n = k / B) by (unfold n; lia).
    assert (Hsto : stored B ws c (ino, n) (block_of d n) = block_of d n).
    { unfold stored. rewrite (cover_count ws (k mod B)) by (done || lia). rewrite decide_False by lia. unfold merged.
      rewrite Hb, decide_False by nia. done. }
    pose proof (draining_flush_open {[n := (ws, block_of d n)]} c) as Hdr.
    assert (Hall : forall m w, ({[n := (ws, block_of d n)]} : gmap N writes) !! m = Some w -> IsAllBytesZero (stored B w.1 c (ino, m) w.2) = false).
    { intros m w. rewrite lookup_singleton_Some. intros [<- <-]. cbn [fst snd]. rewrite Hsto. apply Hz. lia. }
    split; [done|]. specialize (Hdr Hall). rewrite map_fmap_singleton in Hdr. split.
    + intros i. destruct (decide (i = n)) as [->|Hne].
      * rewrite decide_True by lia. rewrite <- Hsto at 2. apply (d_todo _ _ _ _ Hdr n (ws, block_of d n)). left. by rewrite lookup_singleton_eq.
      * rewrite (d_rest _ _ _ _ Hdr), Hb.
        -- assert (Z.of_N i <> Z.of_N n) by (intros ?%N2Z.inj; done). destruct (decide ((Z.of_N i + 1) * B <= k)); [rewrite decide_True by lia; done|].
           rewrite decide_False; [done|]. intros Hi. assert (Z.of_N i <= k / B) by nia. nia.
        -- intros m w [Hm|[sid Hm]]; [|by rewrite lookup_empty in Hm]. apply lookup_singleton_Some in Hm as [<- _]. congruence.
    + intros j Hj. rewrite (d_rest _ _ _ _ Hdr); [by apply Hk|]. intros m w _ ->. done.
Qed.

Lemma streams_returns c0 (chunks : list (list byte)) fuel :
  (0 < limit)%nat -> (forall m, range m ≡ₚ map_to_list m) ->
  storable (concat chunks) -> Forall (fun p => (length p <= fuel)%nat) chunks -> (forall i, c0 !! (ino, i) = None) ->
  returns (fun s => pipe s ∅ ∅ c0 []) (write_chunks fuel chunks 0 ;;; FlushAll already_exists range)
    (fun _ s => exists c, pipe s ∅ ∅ c [] /\ file_is (concat chunks) c0 c).
Proof.
  intros Hl Hr Hz Hfuel Hc0. eapply returns_bind; [|intros []].
  - eapply returns_conseq; [apply (write_chunks_returns c0 chunks fuel [] Hl Hz Hfuel)| |done].
    intros s HI. exists ∅, c0. split; [|by rewrite fmap_empty]. split; [done| |done].
    intros i. rewrite Hc0, decide_False; [done|]. cbn. nia.
  - apply returns_exists. intros open. apply returns_exists. intros c. apply returns_pt. intros s [Hs HI]. cbn [app] in Hs.
    destruct (streamed_flush _ _ _ _ Hs Hz) as [Hall Hfile].
    eapply returns_conseq; [by apply (FlushAll_returns open c Hl Hr Hall)|by intros x ->|]. intros [] s' HI'. by eexists.
Qed.

(** A file that is streamed through the pipeline arrives whole: its data, written
    from its start on in pieces of any size and then flushed, is in the backend,
    block by block, whatever the schedule of the uploaders. *)
Theorem UploadPipeline_streams c0 (chunks : list (list byte)) fuel :
  (0 < limit)%nat -> (forall m, range m ≡ₚ map_to_list m) ->
  storable (concat chunks) -> Forall (fun p => (length p <= fuel)%nat) chunks -> (forall i, c0 !! (ino, i) = None) ->
  returns (fun s => pipe s ∅ ∅ c0 []) (write_chunks fuel chunks 0 ;;; FlushAll already_exists range)
    (fun _ s => exists c, pipe s ∅ ∅ c [] /\ file_is (concat chunks) c0 c).
Proof. apply streams_returns. Qed.
End props.

(** * A backend in memory for blocks of one size *)

#[local, refine] Instance sized_spec (B : Z) : BackendSpec MemStorageBackend := {
  be_ghost := unit;
  be_holds b _ c := mem_holds b c /\ mb_blockSize b = B;
  be_can b _ d := mem_can b d;
}.
Proof.
  - intros b u c ino i [Hb Hs] _ _. exists b, u. split; [|done]. cbn. unfold mem_Read, bind, gets, Datatypes.id.
    destruct Hb as (_ & -> & _). by destruct (c !! (ino, i)).
  - intros b u c ino i d [Hb Hs] _ _ [Hd Hz]. cbn. unfold mem_Write. rewrite Hz.
    destruct (mem_doWrite_block b c ino i d (length d) Hb Hd) as (keys & ar & Hrun).
    eexists _, u. split; [exact Hrun|]. split; [by apply mem_holds_put|done].
  - intros b u c ino i h L ws d [Hb Hs] _ _ Hold [Hd _]. cbn. unfold mem_WriteAt, bind, gets, on_list. cbn [fst snd].
    pose proof Hb as (Hpos & Hc & Hl). rewrite Hc. unfold merged in *. destruct (c !! (ino, i)) as [old|] eqn:E.
    + destruct (Hold old eq_refl) as [Hlen Hrec]. destruct (Copy_overlay h L ws old d Hrec Hlen) as (n & h' & Hcopy).
      cbn [fst snd]. rewrite Hcopy. eexists _, u, h'. split; [reflexivity|]. split; [|done].
      by apply (mem_holds_put b c ino i _ (ino2key b) (arrays b)).
    + destruct (mem_doWrite_block b c ino i d (length d) Hb Hd) as (keys & ar & Hrun).
      unfold on_fst. cbn [fst snd]. rewrite Hrun. eexists _, u, h. split; [reflexivity|]. split; [by apply mem_holds_put|done].
Defined.

Lemma sized_room B t x c d : be_holds (BackendSpec := sized_spec B) t x c -> Z.of_nat (length d) = B -> IsAllBytesZero d = false ->
  be_can (BackendSpec := sized_spec B) t x d.
Proof. intros [_ <-] Hl Hz. by split. Qed.

Lemma pipe_new {T} `{SB : StorageBackend T} {BS : BackendSpec T} B limit ino P ctx (t : T) x c sc :
  be_holds t x c -> (forall n d, c !! (ino, n) = Some d -> Z.of_nat (length d) = B) ->
  pipe B limit ino (NewUploadPipeline ino B P limit ctx t sc) ∅ ∅ c [].
Proof.
  intros Hh Hl. split; cbn; try done; try (by intros *; rewrite ?lookup_empty); [by exists x|constructor|lia].
Qed.

(** * Witnesses *)

Definition never : error -> bool := fun _ => false.
Definition pages2 : PageContext := mkPageContext 100 2 0 50.
Definition pipeline (B : Z) (limit : nat) (sc : list event) : UploadPipeline MemStorageBackend :=
  NewUploadPipeline 1 B 2 limit pages2 (NewMemStorageBackend B) sc.

Lemma pipeline_pipe B limit sc : 0 < B -> pipe (BS := sized_spec B) B limit 1 (pipeline B limit sc) ∅ ∅ ∅ [].
Proof.
  intros HB. apply (pipe_new (BS := sized_spec B) B limit 1 2 pages2 (NewMemStorageBackend B) tt ∅ sc).
  - split; [|done]. split_and!; [done|intros; cbn; by rewrite !lookup_empty|intros k d; by rewrite lookup_empty].
  - intros n d. by rewrite lookup_empty.
Qed.

(** One byte in the middle of a block of four. *)
Definition one_byte : gmap N (list (Z * Z) * list byte) := {[0%N := ([(2, 3)], [x00; x00; x07; x00])]}.
Lemma one_byte_writes : writes_as 4 2 1 ∅ ∅ 2 [x07] one_byte ∅.
Proof.
  apply (writes_block 4 2 1 ∅ ∅ 0 2 [x07] one_byte ∅); [done| |].
  - split; [done|lia|by vm_compute; lia| |by vm_compute].
    intros x _. unfold old_writes. rewrite lookup_empty. by intros ?%Exists_nil.
  - replace (put 4 1 ∅ ∅ 0 2 [x07]) with (one_byte, ∅ : gmap (N * N) (list byte)) by (vm_compute; reflexivity). apply writes_none.
Qed.

Lemma UploadPipeline_implements_witness :
  pipe (BS := sized_spec 4) 4 2 1 (pipeline 4 2 []) ∅ ∅ ∅ [] /\
  returns (fun s => pipe (BS := sized_spec 4) 4 2 1 s (Some <$> ∅) ∅ ∅ []) (WriteAt never true map_to_list 1 [x07] 2)
    (fun r s => r = (1, None) /\ pipe (BS := sized_spec 4) 4 2 1 s (Some <$> one_byte) ∅ ∅ []).
Proof.
  split; [by apply pipeline_pipe|].
  destruct (UploadPipeline_implements (BS := sized_spec 4) never true map_to_list 4 2 1 ltac:(unfold MaxInt; lia) ltac:(lia) (sized_room 4)
    ∅ ∅ ltac:(lia) (fun m => reflexivity _)) as (Hw & _ & _).
  exact (Hw [x07] 2 one_byte ∅ 1%nat one_byte_writes ltac:(reflexivity) ltac:(lia)).
Defined.

Lemma UploadPipeline_streams_witness :
  returns (fun s => pipe (BS := sized_spec 4) 4 2 1 s ∅ ∅ ∅ [])
    (write_chunks never true map_to_list 3 [[x01; x02; x03]; [x04; x05]] 0 ;;; FlushAll never map_to_list)
    (fun _ s => exists c, pipe (BS := sized_spec 4) 4 2 1 s ∅ ∅ c [] /\ file_is 4 1 [x01; x02; x03; x04; x05] ∅ c).
Proof.
  apply (UploadPipeline_streams (BS := sized_spec 4) never true map_to_list 4 2 1 ltac:(unfold MaxInt; lia) ltac:(lia) (sized_room 4)
    ∅ [[x01; x02; x03]; [x04; x05]] 3 ltac:(lia) (fun m => reflexivity _)).
  - split; [vm_compute; discriminate|]. intros i Hi. cbn in Hi. assert (i = 0%N \/ i = 1%N) as [-> | ->] by lia; vm_compute; reflexivity.
  - repeat constructor.
  - intros i. apply lookup_empty.
Defined.

(** * Where the pipeline fails *)

(** A flush leaves out the blocks in the swap file: with one write block taken, a
    write to another block goes to the swap file; the flush that follows returns
    with the first block in the backend and without the second, which can be read
    from the pipeline all the same. *)
Theorem FlushAll_skips_swap_file :
  let r := (WriteAt never true map_to_list 1 [x01] 0 ;;; WriteAt never true map_to_list 1 [x02] 2 ;;;
            FlushAll never map_to_list ;;; ReadAt never [x00] 2)
           (pipeline 2 1 [Caller; Caller; Caller; Caller; Caller; Upload 0]) in
  r.1 = Ok (1, None, [x02]) /\
  backed (storage (swapFile r.2)) !! NewBlockKey 1 0 = Some [x01; x00] /\
  backed (storage (swapFile r.2)) !! NewBlockKey 1 1 = None.
Proof. vm_compute. split_and!; reflexivity. Qed.

(** A sealed block hides a newer write: after a flush whose uploader has not ended,
    a byte written behind the old end of the block is not found when it is
    read. *)
Theorem ReadAt_sealed_hides_write :
  let r := (WriteAt never true map_to_list 1 [x01] 0 ;;; FlushAll never map_to_list ;;;
            WriteAt never true map_to_list 1 [x02] 3 ;;; ReadAt never [x00] 3)
           (pipeline 4 2 [Caller; Caller; Caller; Caller; Upload 0; Caller]) in
  r.1 = Ok (0, Some EOF, [x00]).
Proof. vm_compute. reflexivity. Qed.

(** ** A sleeping uploader *)

Section sleeping.
Context {T : Type} {SB : StorageBackend T} (already_exists : error -> bool).
Implicit Types s : UploadPipeline T.

(** What an operation on blocks leaves alone. *)
Definition keeps_ups {A} (m : M (UploadPipeline T) fault A) : Prop :=
  forall s, uploaders (m s).2 = uploaders s /\ waiters (m s).2 = waiters s.

Lemma keeps_on_mem {A} i (m : M (MemBlock * T) fault A) : keeps_ups (on_mem i m).
Proof. intros s. unfold on_mem. destruct (mems s !! i); [|done]. by destruct (m _) as [r [b' t']]. Qed.
Lemma keeps_on_swap {A} (m : M (Swap T) fault A) : keeps_ups (on_swap m).
Proof. intros s. unfold on_swap. by destruct (m _). Qed.
Lemma keeps_Release sid : keeps_ups (Release already_exists sid).
Proof.
  intros s. unfold Release, bind, gets, deref, modify, Datatypes.id. destruct (sealed s !! sid) as [sb|]; [|done]. unfold ret.
  set (s1 := with_sealed _ s). assert (Hs : uploaders s1 = uploaders s /\ waiters s1 = waiters s) by done. clearbody s1.
  destruct (_ =? 0); [|done]. destruct (block sb) as [[i|i]|]; [| |done]; cbn [blk_Destroy].
  - by destruct (keeps_on_mem i MemBlock.Destroy s1) as [-> ->].
  - by destruct (keeps_on_swap (FileBlock.Destroy already_exists i) s1) as [-> ->].
Qed.
Lemma keeps_Flush b : keeps_ups (attempt_up (blk_Flush already_exists b)).
Proof.
  intros s. assert (H : keeps_ups (blk_Flush already_exists b)) by (destruct b; [apply keeps_on_mem|apply keeps_on_swap]).
  specialize (H s). unfold attempt_up. by destruct (blk_Flush already_exists b s) as [[|[]|] s'].
Qed.

(** The uploader of [sid] has flushed its block and sleeps, with its token. *)
Definition sleeps (sid : nat) s : Prop := sid ∈ waiters s /\ exists u, u ∈ uploaders s /\ u_sealed u = sid /\ u_flushed u = true.

Lemma sleeps_flush sid u s : sleeps sid s -> sleeps sid (upload_flush already_exists u s).2.
Proof.
  intros Hs. unfold upload_flush, bind at 1, gets, deref, Datatypes.id. destruct (sealed s !! u_sealed u) as [sb|]; [|done].
  unfold bind at 1, ret at 1. destruct (block sb) as [b|]; [|done]. unfold bind at 1, ret at 1, bind at 1.
  destruct (keeps_Flush b s) as [Hu Hw]. destruct (attempt_up _ s) as [[r|f|] s1]; cbn [snd] in *; unfold sleeps in *; rewrite <- ?Hu, <- ?Hw in Hs; [|done..].
  unfold bind, modify. cbn. destruct Hs as (Hin & v & Hv & Hid & Hf). split; [done|].
  exists (if decide (u_sealed v = u_sealed u) then mkUploader (u_sealed v) (u_idx v) true else v). split; [|by case_decide].
  apply list_elem_of_fmap. by exists v.
Qed.
Lemma sleeps_end sid u s : u_sealed u <> sid -> sleeps sid s -> sleeps sid (upload_end already_exists u s).2.
Proof.
  intros Hne Hs. unfold upload_end, bind at 1, modify at 1. set (s0 := with_sealedBlocks _ s).
  assert (Hs0 : sleeps sid s0) by exact Hs. clearbody s0. unfold bind at 1. destruct (keeps_Release (u_sealed u) s0) as [Hu Hw].
  destruct (Release already_exists (u_sealed u) s0) as [[r|f|] s1]; cbn [snd] in *; unfold sleeps in *; rewrite <- ?Hu, <- ?Hw in Hs0; [|done..].
  unfold modify. cbn. destruct Hs0 as (Hin & v & Hv & Hid & Hf). split; [done|]. exists v. split; [|done].
  apply list_elem_of_filter. split; [by rewrite Hid|done].
Qed.
Lemma sleeps_event sid held e s : sleeps sid s -> sleeps sid (run_event already_exists held e s).2.
Proof.
  intros Hs. destruct e as [k|k|]; cbn [run_event]; [| |done].
  - unfold upload_step, bind at 1, gets, Datatypes.id. destruct (find_uploader k (uploaders s)) as [u|] eqn:E; [|done].
    apply find_uploader_Some in E as [_ <-]. destruct (negb _); [by apply sleeps_flush|].
    destruct (held || bool_decide (u_sealed u ∈ waiters s)) eqn:Eh; [done|]. apply orb_false_iff in Eh as [_ Hw%bool_decide_eq_false].
    unfold bind, IsLocked, gets. destruct (is_locked _ _).
    + destruct Hs as [Hin Hu]. split; [|done]. cbn. apply elem_of_app. by left.
    + apply sleeps_end; [|done]. intros E. apply Hw. rewrite E. apply Hs.
  - unfold evict_step, bind, gets, Datatypes.id. destruct (decide _); [|done].
    destruct (keeps_on_swap (run_eviction already_exists k) s) as [Hu Hw]. unfold sleeps. by rewrite Hu, Hw.
Qed.
Lemma sleeps_all sid held evs s : sleeps sid s -> sleeps sid (run_all already_exists held evs s).2.
Proof.
  revert s. induction evs as [|e evs IH]; intros s Hs; [done|]. cbn [run_all]. unfold bind. pose proof (sleeps_event sid held e s Hs) as He.
  destruct (run_event already_exists held e s) as [[[]|f|] s1]; [by apply IH|done..].
Qed.
End sleeping.

(** A wake-up is lost: a block is written twice, both uploaders flush, and then wait
    because the block is being read; the end of the reading wakes one of them.
    With nobody reading and whatever runs afterwards, the other one sleeps on and
    keeps its token. *)
Theorem UnlockForRead_loses_wakeup (held : bool) (evs : list event) :
  let r := (WriteAt never true map_to_list 1 [x01] 0 ;;; WriteAt never true map_to_list 1 [x02] 0 ;;;
            LockForRead never 0 1 ;;; UnlockForRead never 0 1)
           (pipeline 1 2 [Caller; Caller; Caller; Caller; Caller; Caller; Upload 0; Upload 1; Caller; Upload 0; Upload 1; Caller]) in
  r.1 = Ok tt /\ activeReadBlocks r.2 = ∅ /\ sleeps 1 (run_all never held evs r.2).2.
Proof.
  intros r. split; [vm_compute; reflexivity|]. split; [vm_compute; reflexivity|]. apply sleeps_all. split.
  - replace (waiters r.2) with [1%nat] by (vm_compute; reflexivity). by left.
  - exists (mkUploader 1 0 true). split; [|done].
    replace (uploaders r.2) with [mkUploader 0 0 true; mkUploader 1 0 true] by (vm_compute; reflexivity). right. by left.
Qed.
