(* ===== verification/PageWriter.v ===== *)
(** Writing to an open file: the access patterns
    (src/pkg/hugofs/vfs/buffer/writer_pattern.go, reader_pattern.go), the dirty pages
    of a file (dirty_page.go) and the page writer (page_writter.go) over the upload
    pipeline. *)
From Stdlib Require Import Ascii Strings.Byte ZArith Lia.
From stdpp Require Import prelude gmap strings list list_numbers.
From S2P Require Import Prelude Store Hash SlotPool Interval IntervalProps Volume StorageBackend FileBlock MemBlock Uploader UploaderProps.

Open Scope Z_scope.

(** * Access patterns *)

Definition ModeChangeLimit : Z := 3.

Record Pattern := mkPattern { isSequentialCounter : Z; lastStopOffset : Z }.
Definition NewPattern : Pattern := mkPattern 0 0.

Definition Monitor (offset size : Z) (rp : Pattern) : Pattern :=
  let counter := isSequentialCounter rp in
  mkPattern
    (if lastStopOffset rp =? offset then if counter <? ModeChangeLimit then counter + 1 else counter
     else if - ModeChangeLimit <? counter then counter - 1 else counter)
    (offset + size).
Definition IsSequentialMode (rp : Pattern) : bool := 0 <=? isSequentialCounter rp.

(** * Dirty pages *)

(** What a page writer has besides the pipeline: the dirty pages' flag and time of
    the last write, and the pattern. *)
Record dirty := mkDirty { hasWrites : bool; lastWriteNs : Z; monitor : Pattern }.
Definition NewPageWriter : dirty := mkDirty false 0 NewPattern.

Definition Minute : Z := 60000000000.
(** The duration asked for is not looked at. *)
Definition Idle (now d : Z) (w : dirty) : bool := Minute <? now - lastWriteNs w.

Section page_writer.
Context {T : Type} {SB : StorageBackend T}.
Context (already_exists : error -> bool) (temp : bool) (range : gmap Z Block -> list (Z * Block))
  (range_sealed : gmap Z nat -> list (Z * nat)).

Abbreviation UM A := (M (UploadPipeline T) fault A).
Abbreviation PM A := (M (dirty * UploadPipeline T) fault A).

Definition on_pipeline {A} (m : UM A) : PM A := fun s => let '(r, u) := m s.2 in (r, (s.1, u)).
Definition set_dirty (f : dirty -> dirty) : PM unit := modify (fun s => (f s.1, s.2)).

(** MemBackedDirtyPage; [fuel] bounds the rounds of a write. *)
Definition dp_AddPage (now : Z) (fuel : nat) (p : list byte) (off : Z) : PM (Z * option error) :=
  set_dirty (fun w => mkDirty true now (monitor w)) ;;;
  on_pipeline (WriteAt already_exists temp range fuel p off).
Definition dp_Flush : PM unit :=
  w <- gets fst ;;
  if hasWrites w then on_pipeline (FlushAll already_exists range) else ret tt.
Definition dp_ReadAt (p : list byte) (off : Z) : PM (Z * option error * list byte) :=
  w <- gets fst ;;
  if hasWrites w then on_pipeline (ReadAt already_exists p off) else ret (0, None, p).
Definition dp_Destroy : PM unit := on_pipeline (Destory already_exists range_sealed).
Definition dp_LockForRead (start end_ : Z) : PM unit := on_pipeline (LockForRead already_exists start end_).
Definition dp_UnlockForRead (start end_ : Z) : PM unit := on_pipeline (UnlockForRead already_exists start end_).

(** * The page writer *)

(** A round per block of the data; what the dirty pages return is not looked
    at. *)
Fixpoint add_loop (now : Z) (fuel : nat) (B : Z) (p : list byte) (off i n : Z) : PM Z :=
  match p with
  | [] => ret n
  | _ =>
      match fuel with
      | O => throw Blocked
      | S fuel =>
          let writeSize := Z.min (Z.of_nat (length p)) ((i + 1) * B - off) in
          if writeSize <? 0 then go_panic else
          dp_AddPage now (2 + length p) (take (Z.to_nat writeSize) p) off ;;;
          add_loop now fuel B (drop (Z.to_nat writeSize) p) (off + writeSize) (i + 1) (n + writeSize)
      end
  end.
Definition AddPage (now : Z) (p : list byte) (off : Z) : PM (Z * option error) :=
  set_dirty (fun w => mkDirty (hasWrites w) (lastWriteNs w) (Monitor off (Z.of_nat (length p)) (monitor w))) ;;;
  s <- gets snd ;;
  let B := up_blockSize s in
  if B =? 0 then go_panic else
  n <- add_loop now (S (length p)) B p off (Z.quot off B) 0 ;;
  ret (n, None).

(** The bytes read so far are [acc], what is left of the caller's buffer is [p]. *)
Fixpoint read_loop (fuel : nat) (p : list byte) (off n : Z) (acc : list byte) : PM (Z * option error * list byte) :=
  match p with
  | [] => ret (n, None, acc)
  | _ =>
      match fuel with
      | O => throw Blocked
      | S fuel =>
          r <- dp_ReadAt p off ;;
          match r with
          | (_, Some e, p) => ret (n, Some e, acc ++ p)
          | (read, None, p) =>
              if read =? 0 then ret (n, Some EOF, acc ++ p)
              else if (read <? 0) || (Z.of_nat (length p) <? read) then go_panic
              else read_loop fuel (drop (Z.to_nat read) p) (off + read) (n + read) (acc ++ take (Z.to_nat read) p)
          end
      end
  end.
Definition pw_ReadAt (p : list byte) (off : Z) : PM (Z * option error * list byte) :=
  s <- gets snd ;;
  if up_blockSize s =? 0 then go_panic else read_loop (S (length p)) p off 0 [].

Definition pw_Flush : PM unit := dp_Flush.
Definition pw_Destroy : PM unit := dp_Destroy.
Definition pw_LockForRead (start end_ : Z) : PM unit := dp_LockForRead start end_.
Definition pw_UnlockForRead (start end_ : Z) : PM unit := dp_UnlockForRead start end_.
Definition pw_Idle (now d : Z) (w : dirty) : bool := Idle now d w.
End page_writer.

(** * The patterns *)

Definition monitor_all (l : list (Z * Z)) (rp : Pattern) : Pattern := foldl (fun rp x => Monitor x.1 x.2 rp) rp l.
(** Accesses of which each starts where the one before ended. *)
Fixpoint in_order (off : Z) (l : list (Z * Z)) : Prop :=
  match l with [] => True | (o, n) :: l => o = off /\ in_order (o + n) l end.

Lemma Monitor_bounds l : - ModeChangeLimit <= isSequentialCounter (monitor_all l NewPattern) <= ModeChangeLimit.
Proof.
  unfold monitor_all. assert (H : - ModeChangeLimit <= isSequentialCounter NewPattern <= ModeChangeLimit) by (cbn; unfold ModeChangeLimit; lia).
  revert H. generalize NewPattern. induction l as [|[o n] l IH]; intros rp H; [done|]. cbn [foldl]. apply IH. unfold Monitor, ModeChangeLimit in *. cbn.
  repeat case_match; lia.
Qed.
Lemma Monitor_in_order rp l :
  - ModeChangeLimit <= isSequentialCounter rp <= ModeChangeLimit -> in_order (lastStopOffset rp) l ->
  Z.min ModeChangeLimit (isSequentialCounter rp + Z.of_nat (length l)) <= isSequentialCounter (monitor_all l rp).
Proof.
  unfold monitor_all. revert rp. induction l as [|[o n] l IH]; intros rp Hb Ho; [cbn; lia|]. destruct Ho as [-> Ho]. cbn [foldl].
  assert (E : Monitor (lastStopOffset rp, n).1 (lastStopOffset rp, n).2 rp =
    mkPattern (if isSequentialCounter rp <? ModeChangeLimit then isSequentialCounter rp + 1 else isSequentialCounter rp) (lastStopOffset rp + n)).
  { unfold Monitor. cbn [fst snd]. by rewrite Z.eqb_refl. }
  rewrite E. etrans; [|apply IH; [|exact Ho]]; cbn [isSequentialCounter lastStopOffset length];
    unfold ModeChangeLimit in *; destruct (Z.ltb_spec (isSequentialCounter rp) 3); lia.
Qed.

(** The counter of a pattern stays between -3 and 3 whatever the accesses; after
    three accesses in order the pattern is in sequential mode. *)
Theorem Pattern_modes (l l' : list (Z * Z)) :
  let rp := monitor_all l NewPattern in
  - ModeChangeLimit <= isSequentialCounter rp <= ModeChangeLimit /\
  (in_order (lastStopOffset rp) l' -> ModeChangeLimit <= Z.of_nat (length l') -> IsSequentialMode (monitor_all l' rp) = true).
Proof.
  intros rp. pose proof (Monitor_bounds l) as Hb. fold rp in Hb. split; [done|]. intros Ho Hl.
  pose proof (Monitor_in_order rp l' Hb Ho). apply Z.leb_le. unfold ModeChangeLimit in *. lia.
Qed.

(** * Writing through the page writer *)

Section props.
Context {T : Type} {SB : StorageBackend T} {BS : BackendSpec T}.
Context (already_exists : error -> bool) (temp : bool) (range : gmap Z Block -> list (Z * Block)).
Context (B : Z) (limit : nat) (ino : N).
Context (HB : 0 < B <= MaxInt) (Hino : (ino < 2 ^ 64)%N).
Context (Hroom : forall t x c d, be_holds t x c -> Z.of_nat (length d) = B -> IsAllBytesZero d = false -> be_can t x d).
Abbreviation UM A := (M (UploadPipeline T) fault A).
Abbreviation PM A := (M (dirty * UploadPipeline T) fault A).

(** A call of the page writer as one of the pipeline. *)
Definition from {A} (w : dirty) (m : PM A) : UM (A * dirty) := fun s =>
  match m (w, s) with
  | (Ok a, (w', s')) => (Ok (a, w'), s')
  | (Err e, (_, s')) => (Err e, s')
  | (Panic, (_, s')) => (Panic, s')
  end.
Lemma from_bind {A A'} w (m : PM A) (k : A -> PM A') s :
  from w (bind m k) s = bind (from w m) (fun x => from x.2 (k x.1)) s.
Proof. unfold from, bind. by destruct (m (w, s)) as [[a|e|] [w' s']]. Qed.
Lemma from_pipeline {A} w (m : UM A) s : from w (on_pipeline m) s = bind m (fun a => ret (a, w)) s.
Proof. unfold from, on_pipeline, bind. cbn. by destruct (m s) as [[a|e|] s']. Qed.

Lemma returns_ext {A} P (m m' : UM A) Q : (forall s, m s = m' s) -> returns P m' Q -> returns P m Q.
Proof.
  intros E H. refine (returns_eq P P m m' Q _ H). intros s Hs. exists s. split; [done|]. intros sc. apply E.
Qed.
Lemma returns_value {A X} P (m : UM A) (f : A -> X) Q Q' :
  returns P m Q -> (forall a s sc, Q a s -> Q' (f a) (with_sched sc s)) -> returns P (a <- m ;; ret (f a)) Q'.
Proof.
  intros H HQ. apply (returns_bind _ _ _ Q); [done|]. intros a. apply returns_step. intros s Hs. exists (f a), s.
  split; [|split; [|done]]; [|intros sc; by apply HQ]. specialize (HQ a s (sched s) Hs). by destruct s.
Qed.

Definition noted (now : Z) (w : dirty) : dirty := mkDirty true now (monitor w).
Lemma dp_AddPage_returns now fuel w open c off p open' c' : (0 < limit)%nat ->
  writes_as B limit ino open c off p open' c' -> (length p <= fuel)%nat -> 0 <= off ->
  returns (fun s => pipe B limit ino s (Some <$> open) ∅ c [])
    (from w (dp_AddPage already_exists temp range now fuel p off))
    (fun r s => r = ((Z.of_nat (length p), None), noted now w) /\ pipe B limit ino s (Some <$> open') ∅ c' []).
Proof.
  intros Hl Hw Hf Hoff. apply (returns_ext _ _ (r <- WriteAt already_exists temp range fuel p off ;; ret (r, noted now w))).
  { intros s. unfold dp_AddPage. rewrite from_bind. unfold bind at 1, from at 1, set_dirty, modify. cbn [fst snd]. by rewrite from_pipeline. }
  eapply returns_value; [by apply (WriteAt_returns already_exists temp range B limit ino HB Hino Hroom open c off p open' c' fuel)|].
  intros r s sc [-> HI]. split; [done|]. by apply pipe_sched.
Qed.

(** The first piece of a write. *)
Lemma put_take open c n st p :
  0 <= st < B -> let e := Z.min (st + Z.of_nat (length p)) B in
  put B ino open c n st (take (Z.to_nat (e - st)) p) = put B ino open c n st p /\
  (fits B limit open n st p -> fits B limit open n st (take (Z.to_nat (e - st)) p)).
Proof.
  intros Hst e. assert (E : Z.min (st + Z.of_nat (length (take (Z.to_nat (e - st)) p))) B = e) by (rewrite length_take; unfold e; lia).
  assert (Es : forall buf, splice st e buf (take (Z.to_nat (e - st)) p) = splice st e buf p).
  { intros buf. unfold splice. by rewrite take_take, Nat.min_id. }
  split; [unfold put, put_writes; by rewrite E, Es|]. intros [Hn _ Hr Hnew Hz]. split; rewrite ?E, ?Es; done.
Qed.

Lemma add_loop_returns now w open c off p open' c' fuel i n : (0 < limit)%nat ->
  writes_as B limit ino open c off p open' c' -> (length p <= fuel)%nat -> 0 <= off -> (p <> [] -> off / B = i) ->
  returns (fun s => pipe B limit ino s (Some <$> open) ∅ c [])
    (from w (add_loop already_exists temp range now fuel B p off i n))
    (fun r s => (r.1 = n + Z.of_nat (length p) /\ (hasWrites w = true \/ p <> [] -> hasWrites r.2 = true)) /\ pipe B limit ino s (Some <$> open') ∅ c' []).
Proof.
  intros Hl Hw. revert fuel i n w. induction Hw as [open c off|open c m st p open' c' Hp Hf e Hw IH]; intros fuel i n w Hfuel Hoff Hi.
  - apply returns_step. intros s HI. exists (n + Z.of_nat 0, w), s.
    assert (Hh : hasWrites w = true \/ (@nil byte) <> [] -> hasWrites w = true) by tauto.
    split; [done|]. split; [intros sc; split; [done|by apply pipe_sched]|].
    intros sc. unfold from. destruct fuel; cbn [add_loop]; unfold ret; by rewrite Z.add_0_r.
  - assert (Hlp : (0 < length p)%nat) by (destruct p; [done|cbn; lia]). pose proof (f_st _ _ _ _ _ _ Hf) as Hst.
    assert (He : st < e <= B) by (unfold e; lia). specialize (Hi Hp).
    assert (i = Z.of_N m) as ->. { rewrite <- Hi. rewrite Z.add_comm, Z.div_add, Z.div_small; lia. }
    assert (Ews : Z.min (Z.of_nat (length p)) ((Z.of_N m + 1) * B - (Z.of_N m * B + st)) = e - st) by (unfold e; lia).
    destruct fuel as [|fuel]; [lia|]. destruct (put_take open c m st p Hst) as [Eput Hfq]. fold e in Eput, Hfq. set (q := take (Z.to_nat (e - st)) p) in *.
    assert (Hq : Z.of_nat (length q) = e - st) by (unfold q; rewrite length_take; unfold e in *; lia).
    set (rest := add_loop already_exists temp range now fuel B (drop (Z.to_nat (e - st)) p) (Z.of_N m * B + e) (Z.of_N m + 1) (n + (e - st))).
    apply (returns_ext _ _ (r <- from w (dp_AddPage already_exists temp range now (2 + length p) q (Z.of_N m * B + st)) ;; from r.2 rest)).
    { intros s. destruct p as [|b0 p0]; [done|]. set (p := b0 :: p0) in *. change (add_loop _ _ _ _ (S fuel) B p _ _ _) with
        (let writeSize := Z.min (Z.of_nat (length p)) ((Z.of_N m + 1) * B - (Z.of_N m * B + st)) in
         if writeSize <? 0 then go_panic else
         dp_AddPage already_exists temp range now (2 + length p) (take (Z.to_nat writeSize) p) (Z.of_N m * B + st) ;;;
         add_loop already_exists temp range now fuel B (drop (Z.to_nat writeSize) p) (Z.of_N m * B + st + writeSize) (Z.of_N m + 1) (n + writeSize)).
      cbv zeta. rewrite Ews, (proj2 (Z.ltb_ge _ _)) by lia. rewrite from_bind. unfold rest, q.
      by replace (Z.of_N m * B + st + (e - st)) with (Z.of_N m * B + e) by lia. }
    apply (returns_bind _ _ _ (fun r s => hasWrites r.2 = true /\ pipe B limit ino s (Some <$> (put B ino open c m st p).1) ∅ (put B ino open c m st p).2 [])).
    + eapply returns_conseq; [apply (dp_AddPage_returns now (2 + length p) w open c (Z.of_N m * B + st) q
        (put B ino open c m st p).1 (put B ino open c m st p).2 Hl)| |].
      * rewrite <- Eput. apply writes_block; [destruct q; [cbn in Hq; lia|done] | by apply Hfq |]. rewrite drop_ge; [apply writes_none|]. lia.
      * unfold q. rewrite length_take. lia.
      * lia.
      * done.
      * intros r s [-> HI]. done.
    + intros [r w']. cbn [snd]. apply returns_pt. intros s [Hhas HI].
      assert (Hdl : Z.of_nat (length (drop (Z.to_nat (e - st)) p)) = Z.of_nat (length p) - (e - st)) by (rewrite length_drop; unfold e in *; lia).
      eapply returns_conseq; [apply (IH fuel (Z.of_N m + 1) (n + (e - st)) w')| |].
      * lia.
      * nia.
      * intros Hne. assert (0 < length (drop (Z.to_nat (e - st)) p))%nat by (destruct (drop _ _); [done|cbn; lia]).
        assert (e = B) as -> by (unfold e in *; lia). rewrite Z.add_comm, Z.div_add, Z.div_same by lia. lia.
      * by intros x ->.
      * intros [r' w2] s' [[-> H2] HI']. cbn [fst snd] in *. split; [|done]. split; [lia|]. intros _. apply H2. by left.
Qed.

(** C21 The page writer cuts what it is given at the ends of the blocks and hands it
    down piece by piece.  For data that the pipeline accepts in one piece (each part
    [fits]) that is the same as handing it over at once: the same blocks are
    open afterwards and the same ones are in the backend, and all bytes are
    accepted. *)
Theorem AddPage_as_WriteAt now w open c off p open' c' :
  (0 < limit)%nat -> writes_as B limit ino open c off p open' c' -> 0 <= off -> p <> [] ->
  returns (fun s => pipe B limit ino s (Some <$> open) ∅ c []) (WriteAt already_exists temp range (length p) p off)
    (fun r s => r = (Z.of_nat (length p), None) /\ pipe B limit ino s (Some <$> open') ∅ c' []) /\
  returns (fun s => pipe B limit ino s (Some <$> open) ∅ c []) (from w (AddPage already_exists temp range now p off))
    (fun r s => (r.1 = (Z.of_nat (length p), None) /\ hasWrites r.2 = true) /\ pipe B limit ino s (Some <$> open') ∅ c' []).
Proof.
  intros Hl Hw Hoff Hp. split; [by apply (WriteAt_returns already_exists temp range B limit ino HB Hino Hroom)|].
  set (w1 := mkDirty (hasWrites w) (lastWriteNs w) (Monitor off (Z.of_nat (length p)) (monitor w))).
  apply returns_pt. intros s0 HI0.
  refine (returns_eq _ (fun s => s = s0) _ (r <- from w1 (add_loop already_exists temp range now (S (length p)) B p off (Z.quot off B) 0) ;;
    ret ((r.1, None), r.2)) _ _ _).
  - intros x ->. exists s0. split; [done|]. intros sc. unfold AddPage. rewrite from_bind. unfold bind at 1, from at 1, set_dirty, modify. cbn [fst snd].
    rewrite from_bind. unfold bind at 1, from at 1, gets. cbn [fst snd]. change (up_blockSize (with_sched sc s0)) with (up_blockSize s0).
    rewrite (p_size _ _ _ _ _ _ _ _ HI0), (proj2 (Z.eqb_neq _ _)) by lia. by rewrite from_bind.
  - eapply returns_value; [apply (returns_conseq (fun s => pipe B limit ino s (Some <$> open) ∅ c []) _ _ _ _
      (add_loop_returns now w1 open c off p open' c' (S (length p)) (Z.quot off B) 0 Hl Hw ltac:(lia) Hoff (fun _ => eq_sym (Z.quot_div_nonneg off B Hoff ltac:(lia)))))|].
    + by intros x ->.
    + intros a s H. exact H.
    + intros [k w'] s sc [[-> H2] HI]. cbn [fst snd] in *. split; [|by apply pipe_sched]. split; [done|]. apply H2. by right.
Qed.
End props.

(** An error of the pipeline does not reach the caller: whatever writing a piece
    within one block returns, the page writer reports that all was written. *)
Theorem AddPage_drops_error {T} `{SB : StorageBackend T} already_exists temp range now w (s s' : UploadPipeline T) p off k e :
  0 < up_blockSize s -> 0 <= off -> p <> [] -> off mod up_blockSize s + Z.of_nat (length p) <= up_blockSize s ->
  WriteAt already_exists temp range (2 + length p) p off s = (Ok (k, Some e), s') ->
  exists w', AddPage already_exists temp range now p off (w, s) = (Ok (Z.of_nat (length p), None), (w', s')).
Proof.
  intros HB Hoff Hp Hfit Hrun. set (B := up_blockSize s) in *.
  exists (mkDirty true now (Monitor off (Z.of_nat (length p)) (monitor w))). unfold AddPage, bind at 1, set_dirty, modify. cbn [fst snd].
  unfold bind at 1, gets. cbn [snd]. fold B. rewrite (proj2 (Z.eqb_neq _ _)) by lia. unfold bind at 1.
  assert (Hlp : (0 < length p)%nat) by (destruct p; [done|cbn; lia]).
  assert (Ews : Z.min (Z.of_nat (length p)) ((Z.quot off B + 1) * B - off) = Z.of_nat (length p)).
  { rewrite Z.quot_div_nonneg by lia. pose proof (Z.div_mod off B). lia. }
  destruct p as [|b0 p0]; [done|]. set (p := b0 :: p0) in *. cbn [add_loop]. fold p. change (b0 :: p0) with p. rewrite Ews, (proj2 (Z.ltb_ge _ _)) by lia.
  rewrite Nat2Z.id, take_ge, drop_ge by lia. unfold dp_AddPage, bind at 1, set_dirty, modify, on_pipeline. cbn [fst snd]. unfold bind at 1. cbn [fst snd].
  unfold p at 1. cbv iota beta. cbn [fst snd]. rewrite Hrun. destruct (length p) as [|m] eqn:E; [lia|]. cbn [add_loop]. unfold bind, ret. rewrite Z.add_0_l. reflexivity.
Qed.

(** * Witnesses *)

Lemma Pattern_modes_witness :
  IsSequentialMode (monitor_all [(9, 1); (5, 1); (7, 1)] NewPattern) = false /\
  IsSequentialMode (monitor_all [(8, 2); (10, 2); (12, 2)] (monitor_all [(9, 1); (5, 1); (7, 1)] NewPattern)) = true.
Proof.
  split; [reflexivity|]. apply (Pattern_modes [(9, 1); (5, 1); (7, 1)] [(8, 2); (10, 2); (12, 2)]).
  - repeat split.
  - vm_compute. discriminate.
Defined.

Lemma AddPage_as_WriteAt_witness :
  returns (fun s => pipe (BS := sized_spec 4) 4 2 1 s (Some <$> ∅) ∅ ∅ []) (from NewPageWriter (AddPage never true map_to_list 0 [x07] 2))
    (fun r s => (r.1 = (1, None) /\ hasWrites r.2 = true) /\ pipe (BS := sized_spec 4) 4 2 1 s (Some <$> one_byte) ∅ ∅ []).
Proof.
  destruct (AddPage_as_WriteAt (BS := sized_spec 4) never true map_to_list 4 2 1 ltac:(unfold MaxInt; lia) ltac:(lia) (sized_room 4)
    0 NewPageWriter ∅ ∅ 2 [x07] one_byte ∅ ltac:(lia) one_byte_writes ltac:(lia) ltac:(discriminate)) as [_ H].
  exact H.
Defined.

(** The backend has a block of another size, and two bytes of a block of four were
    written; writing them again flushes the block. *)
Definition mismatched : UploadPipeline MemStorageBackend :=
  (WriteAt never true map_to_list 4 [x01; x02] 0
    (NewUploadPipeline 1 4 2 2 pages2 (mkMemStorageBackend 4 {[NewBlockKey 1 0 := [x05; x06; x07]]} ∅
      (mkArrays {[NewBlockKey 1 0 := 0%nat]} ∅ 1)) [])).2.
Lemma AddPage_drops_error_witness :
  (WriteAt never true map_to_list 4 [x01; x02] 0 mismatched).1 = Ok (0, Some ErrLenNotMatched) /\
  exists w', AddPage never true map_to_list 0 [x01; x02] 0 (NewPageWriter, mismatched) =
    (Ok (2, None), (w', (WriteAt never true map_to_list 4 [x01; x02] 0 mismatched).2)).
Proof.
  split; [vm_compute; reflexivity|].
  apply (AddPage_drops_error never true map_to_list 0 NewPageWriter mismatched _ [x01; x02] 0 0 ErrLenNotMatched).
  - vm_compute. reflexivity.
  - vm_compute. discriminate.
  - discriminate.
  - vm_compute. discriminate.
  - vm_compute. reflexivity.
Defined.
