(* ===== verification/DirtyBuffer.v ===== *)
(** The buffer the client's commands fill before they upload a file,
    src/pkg/hugofs/vfs/buffer/rwbuffer_mem.go: blocks in memory, each over a backend
    of its own. *)
From Stdlib Require Import Ascii Strings.Byte ZArith Lia.
From stdpp Require Import prelude gmap strings list list_numbers sorting.
From S2P Require Import Prelude Store Hash SlotPool Interval IntervalProps Volume StorageBackend MemBlock.

Open Scope Z_scope.

Definition DefaultBlockSize : Z := 4 * 2 ^ 20.

Record DirtyRWBuffer := mkDirtyRWBuffer {
  d_ino : N;
  d_blockSize : Z;
  blockMap : gmap N (MemBlock * MemStorageBackend);
  totalSize : Z;
  lastAccessNs : Z }.

Definition NewDirtyRWBuffer (ino : N) (size : Z) : DirtyRWBuffer :=
  mkDirtyRWBuffer ino (if size <=? 0 then DefaultBlockSize else size) ∅ 0 0.

Definition with_blockMap (m : gmap N (MemBlock * MemStorageBackend)) (b : DirtyRWBuffer) : DirtyRWBuffer :=
  mkDirtyRWBuffer (d_ino b) (d_blockSize b) m (totalSize b) (lastAccessNs b).
Definition with_totalSize (n : Z) (b : DirtyRWBuffer) : DirtyRWBuffer :=
  mkDirtyRWBuffer (d_ino b) (d_blockSize b) (blockMap b) n (lastAccessNs b).
Definition accessed (now : Z) (b : DirtyRWBuffer) : DirtyRWBuffer :=
  mkDirtyRWBuffer (d_ino b) (d_blockSize b) (blockMap b) (totalSize b) now.

Abbreviation DM A := (M DirtyRWBuffer fault A).
(** No error of the backend says that the block exists already. *)
Definition no_exists : error -> bool := fun _ => false.

(** ** Reading *)

Definition bytes_of (e : MemBlock * MemStorageBackend) : list byte := default [] (GetData e).

(** The blocks from [blockIdx] on, [rounds] of them; [p] is the caller's buffer, of
    which [n] bytes are filled. *)
Fixpoint dirty_read_loop (m : gmap N (MemBlock * MemStorageBackend)) (rounds : nat) (blockIdx blockOff : Z) (p : list byte) (n : Z) :
    outcome fault (Z * option error * list byte) :=
  match rounds with
  | O => Ok (n, None, p)
  | S rounds =>
      match m !! to_uint64 blockIdx with
      | None => Ok (n, None, p)
      | Some e =>
          let data := bytes_of e in
          let dataLen := Z.of_nat (length data) in
          let spaceLeft := Z.of_nat (length p) - n in
          if dataLen <? blockOff then Ok (n, Some EOF, p)
          else if blockOff <? 0 then Panic
          else
            let k := if dataLen - blockOff <? spaceLeft then dataLen - blockOff else spaceLeft in
            dirty_read_loop m rounds (blockIdx + 1) 0
              (splice n (n + k) p (drop (Z.to_nat blockOff) data)) (n + k)
      end
  end.

Definition dirty_Read (now : Z) (p : list byte) (off : Z) : DM (Z * option error * list byte) :=
  if (length p =? 0)%nat then ret (0, Some EOF, p) else
  modify (accessed now) ;;;
  b <- gets Datatypes.id ;;
  let B := d_blockSize b in
  let startBlockIdx := Z.quot off B in
  let stop := off + Z.of_nat (length p) in
  let endBlockIdx := if Z.rem stop B =? 0 then Z.quot stop B - 1 else Z.quot stop B in
  if endBlockIdx <? 0 then ret (0, Some EOF, p)
  else pure (dirty_read_loop (blockMap b) (Z.to_nat (endBlockIdx - startBlockIdx + 1)) startBlockIdx (Z.rem off B) p 0).

(** ** Writing *)

(** The block of a round: a new one, or the one there is, to which the part before
    the new data is written again, at offset 0 of the file. *)
Definition dirty_entry (blockIdx : N) (blockOff spaceLeft : Z) : DM (MemBlock * MemStorageBackend) :=
  b <- gets Datatypes.id ;;
  match blockMap b !! blockIdx with
  | None => ret (NewMemBlockForWrite (NewBlockKey (d_ino b) blockIdx) (d_blockSize b), NewMemStorageBackend (d_blockSize b))
  | Some e =>
      if (blockOff <? 0) || (blockOff + spaceLeft <? 0) then go_panic else
      match MemBlock.WriteAt no_exists (copy_into (zeros blockOff) (bytes_of e) ++ zeros spaceLeft) 0 e with
      | (Ok _, e') => ret e'
      | (Err Blocked, _) => throw Blocked
      | (_, _) => go_panic
      end
  end.

(** Data is put into the bytes the block has, which must be there. *)
Fixpoint dirty_write_loop (fuel : nat) (p : list byte) (blockIdx : N) (blockOff writeCnt : Z) : DM Z :=
  match p with
  | [] => ret writeCnt
  | _ =>
      match fuel with
      | O => throw Blocked
      | S fuel =>
          b <- gets Datatypes.id ;;
          let spaceLeft := Z.min (d_blockSize b - blockOff) (Z.of_nat (length p)) in
          e <- dirty_entry blockIdx blockOff spaceLeft ;;
          let data := bytes_of e in
          if (blockOff <? 0) || (spaceLeft <? 0) || (Z.of_nat (length data) <? blockOff + spaceLeft) then go_panic else
          let e' := put_bytes (splice blockOff (blockOff + spaceLeft) data p) e in
          modify (fun b => with_blockMap (<[blockIdx := e']> (blockMap b)) b) ;;;
          dirty_write_loop fuel (drop (Z.to_nat spaceLeft) p) (wrap64 (blockIdx + 1)) 0 (writeCnt + spaceLeft)
      end
  end.
Definition dirty_Write (now : Z) (p : list byte) (off : Z) : DM (Z * option error) :=
  b <- gets Datatypes.id ;;
  let B := d_blockSize b in
  modify (accessed now) ;;;
  n <- dirty_write_loop (S (length p)) p (to_uint64 (Z.quot off B)) (Z.rem off B) 0 ;;
  modify (fun b => with_totalSize (totalSize b + n) b) ;;;
  ret (n, None).

(** ** The rest of the interface *)

Definition dirty_Size : DM Z := gets totalSize.
Definition dirty_Idle (now d : Z) (b : DirtyRWBuffer) : bool := d <? now - lastAccessNs b.
(** The blocks by their index, written one after the other. *)
Definition dirty_WriteTo (b : DirtyRWBuffer) : list byte :=
  concat (map (fun i => default [] (bytes_of <$> blockMap b !! i)) (merge_sort N.le (map_to_list (blockMap b)).*1)).
Fixpoint dirty_flush (l : list (N * (MemBlock * MemStorageBackend))) : DM unit :=
  match l with
  | [] => ret tt
  | (i, e) :: l =>
      match MemBlock.Flush no_exists e with
      | (Ok _, e') => modify (fun b => with_blockMap (<[i := e']> (blockMap b)) b) ;;; dirty_flush l
      | (Err x, e') => modify (fun b => with_blockMap (<[i := e']> (blockMap b)) b) ;;; throw x
      | (Panic, _) => go_panic
      end
  end.
(** [range] is the order in which Go walks the map. *)
Definition dirty_Flush (range : gmap N (MemBlock * MemStorageBackend) -> list (N * (MemBlock * MemStorageBackend))) : DM unit :=
  b <- gets Datatypes.id ;; dirty_flush (range (blockMap b)).

Definition copy_size : nat := Z.to_nat (32 * 1024).
Lemma copy_size_pos : (0 < copy_size)%nat.
Proof. unfold copy_size. lia. Qed.
#[global] Opaque copy_size.
(** io.Copy of a section of the source: what is left of it is [q], and pieces of
    32 KB are written from [off] on.  [fuel] bounds the rounds. *)
Fixpoint dirty_copy (now : Z) (fuel : nat) (q : list byte) (off : Z) : DM unit :=
  match q with
  | [] => ret tt
  | _ =>
      match fuel with
      | O => throw Blocked
      | S fuel =>
          dirty_Write now (take copy_size q) off ;;;
          dirty_copy now fuel (drop copy_size q) (off + Z.of_nat (length (take copy_size q)))
      end
  end.
(** A section is as long as a block; the source has the bytes [src]. *)
Fixpoint dirty_ReadFrom (now : Z) (fuel : nat) (src : list byte) (written : Z) : DM Z :=
  match fuel with
  | O => throw Blocked
  | S fuel =>
      b <- gets Datatypes.id ;;
      let q := take (Z.to_nat (d_blockSize b)) (drop (Z.to_nat written) src) in
      dirty_copy now (S (length q)) q written ;;;
      match q with
      | [] => ret written
      | _ => dirty_ReadFrom now fuel src (written + Z.of_nat (length q))
      end
  end.

(** * Filling the buffer fails *)

Lemma dirty_write_new fuel p blockIdx blockOff cnt b :
  p <> [] -> 0 <= blockOff < d_blockSize b -> blockMap b !! blockIdx = None ->
  dirty_write_loop (S fuel) p blockIdx blockOff cnt b = (Panic, b).
Proof.
  intros Hp Ho Hm. assert (Hl : (0 < length p)%nat) by (destruct p; [done|cbn; lia]). cbn [dirty_write_loop].
  destruct p as [|x p]; [done|]. unfold bind at 1, gets, Datatypes.id. unfold bind at 1, dirty_entry, bind at 1, gets, Datatypes.id.
  rewrite Hm. unfold ret. cbn [bytes_of fst]. assert (E : GetData (NewMemBlockForWrite (NewBlockKey (d_ino b) blockIdx) (d_blockSize b), NewMemStorageBackend (d_blockSize b)) = None).
  { unfold GetData, bytes, NewMemBlockForWrite, new_block. by destruct (NewIntervalList []) as [[]]. }
  unfold bytes_of. cbn [fst]. rewrite E. cbn [default]. rewrite (proj2 (Z.ltb_lt (Z.of_nat (length [])) _)) by (cbn [length] in *; lia).
  by rewrite orb_true_r.
Qed.

(** A new block has no bytes yet, and the buffer slices them: the first write to a
    block panics, so that no byte ever gets into a buffer, whether it is written
    or read from a file. *)
Theorem DirtyRWBuffer_Write_panics now ino size p off fuel :
  p <> [] -> 0 <= off ->
  (dirty_Write now p off (NewDirtyRWBuffer ino size)).1 = Panic /\
  (dirty_ReadFrom now (S fuel) p 0 (NewDirtyRWBuffer ino size)).1 = Panic.
Proof.
  intros Hp Hoff. assert (HB : 0 < d_blockSize (NewDirtyRWBuffer ino size)).
  { cbn. destruct (Z.leb_spec size 0); unfold DefaultBlockSize; lia. }
  assert (Hw : forall p off, p <> [] -> 0 <= off -> (dirty_Write now p off (NewDirtyRWBuffer ino size)).1 = Panic).
  { clear p off Hp Hoff. intros p off Hp Hoff. unfold dirty_Write, bind at 1, gets, Datatypes.id. unfold bind at 1, modify at 1. unfold bind at 1.
    rewrite dirty_write_new; [done|done| |done]. exact (Z.rem_bound_pos off _ Hoff HB). }
  split; [by apply Hw|]. cbn [dirty_ReadFrom]. unfold bind at 1, gets, Datatypes.id. rewrite drop_0. set (q := take _ p).
  assert (Hq : q <> []). { unfold q. destruct p; [done|].
    destruct (Z.to_nat (d_blockSize (NewDirtyRWBuffer ino size))) eqn:E; [lia|done]. }
  clearbody q. destruct q as [|x q]; [done|]. cbn [dirty_copy]. 
  assert (Hk : take copy_size (x :: q) <> []) by (pose proof copy_size_pos; destruct copy_size; [lia|done]).
  specialize (Hw (take copy_size (x :: q)) 0 Hk ltac:(lia)).
  unfold bind. destruct (dirty_Write now (take copy_size (x :: q)) 0 (NewDirtyRWBuffer ino size)) as [[r|e|] s]; cbn [fst] in Hw |- *; done.
Qed.

Lemma DirtyRWBuffer_Write_panics_witness :
  (dirty_Write 0 [x01] 0 (NewDirtyRWBuffer 1 4)).1 = Panic /\ (dirty_ReadFrom 0 2 [x01] 0 (NewDirtyRWBuffer 1 4)).1 = Panic.
Proof. apply (DirtyRWBuffer_Write_panics 0 1 4 [x01] 0 1); [discriminate|lia]. Defined.
