(* ===== verification/Throttler.v ===== *)
(** The limit on the blocks that the read buffers of a client keep in memory:
    recently used blocks (src/pkg/hugofs/vfs/buffer/lru.go), the channels of the
    buffers (pubsub.go) and the tokens (throttler.go). *)
From Stdlib Require Import Ascii Strings.Byte ZArith Lia.
From stdpp Require Import prelude gmap strings list.
From S2P Require Import Prelude Store Hash Volume StorageBackend.

Open Scope Z_scope.

(** * Recently used blocks *)

(** golang-lru: a cache of at most so many keys; the values are all true. *)
Class Lru (L : Type) := {
  lru_make : Z -> option L;
  lru_get : BlockKey -> L -> bool * L;
  lru_add : BlockKey -> L -> L;
  lru_del : BlockKey -> L -> L;
  lru_oldest : L -> option BlockKey * L;
}.
(** Its documented behaviour: [lru_keys] are the keys, the oldest one first. *)
Class LruSpec (L : Type) {LL : Lru L} := {
  lru_keys : L -> list BlockKey;
  lru_size : L -> Z;
  lru_make_keys n l : lru_make n = Some l -> lru_keys l = [] /\ lru_size l = n;
  lru_make_ok n : 0 < n -> is_Some (lru_make n);
  lru_add_keys k l : Z.of_nat (length (filter (fun x => x <> k) (lru_keys l))) < lru_size l ->
    lru_keys (lru_add k l) = filter (fun x => x <> k) (lru_keys l) ++ [k] /\ lru_size (lru_add k l) = lru_size l;
  lru_del_keys k l : lru_keys (lru_del k l) = filter (fun x => x <> k) (lru_keys l) /\ lru_size (lru_del k l) = lru_size l;
  lru_oldest_keys l : (lru_oldest l).1 = (match lru_keys l with k :: _ => Some k | [] => None end) /\
    lru_keys (lru_oldest l).2 = drop 1 (lru_keys l) /\ lru_size (lru_oldest l).2 = lru_size l;
}.

(** [inoKeyMap] has the keys by their file, one for each time they were put. *)
Record BlockLRU (L : Type) := mkBlockLRU { lru : L; inoKeyMap : gmap N (list BlockKey); counter : Z; cap : Z }.
Arguments mkBlockLRU {L}. Arguments lru {L}. Arguments inoKeyMap {L}. Arguments counter {L}. Arguments cap {L}.

(** The list without the first [k]. *)
Fixpoint list_Remove (k : BlockKey) (l : list BlockKey) : list BlockKey :=
  match l with
  | [] => []
  | x :: l => if decide (x = k) then l else x :: list_Remove k l
  end.

Section lru.
Context {L : Type} {LL : Lru L}.

Definition NewBlockLRU (size : Z) : option (BlockLRU L) :=
  cache ← lru_make size; Some (mkBlockLRU cache ∅ 0 size).
Definition lru_Get (k : BlockKey) (c : BlockLRU L) : bool * BlockLRU L :=
  let '(r, l) := lru_get k (lru c) in (r, mkBlockLRU l (inoKeyMap c) (counter c) (cap c)).
Definition Put (k : BlockKey) (c : BlockLRU L) : BlockLRU L :=
  mkBlockLRU (lru_add k (lru c)) (<[GetIno k := default [] (inoKeyMap c !! GetIno k) ++ [k]]> (inoKeyMap c))
    (counter c + 1) (cap c).
(** Whether there was one is what the second look-up says; the key of an empty
    cache is the empty one. *)
Definition RemoveOldest (c : BlockLRU L) : BlockKey * bool * BlockLRU L :=
  let '(r, l) := lru_oldest (lru c) in
  let k := default "" r in
  match inoKeyMap c !! GetIno k with
  | None => (k, false, mkBlockLRU l (inoKeyMap c) (counter c) (cap c))
  | Some ks =>
      if decide (k ∈ ks) then
        (k, true, mkBlockLRU l (<[GetIno k := list_Remove k ks]> (inoKeyMap c)) (counter c - 1) (cap c))
      else (k, true, mkBlockLRU l (inoKeyMap c) (counter c) (cap c))
  end.
Definition RemoveByIno (ino : N) (c : BlockLRU L) : Z * BlockLRU L :=
  match inoKeyMap c !! ino with
  | None => (0, c)
  | Some ks =>
      (Z.of_nat (length ks),
       mkBlockLRU (foldl (fun l k => lru_del k l) (lru c) ks) (delete ino (inoKeyMap c))
         (counter c - Z.of_nat (length ks)) (cap c))
  end.
Definition lru_Size (c : BlockLRU L) : Z := counter c.
Definition lru_Cap (c : BlockLRU L) : Z := cap c.
End lru.

(** * The throttler *)

(** [tokenc] is the number of tokens in the channel; [subs] has the channels of
    the buffers by file, a channel being known by its buffer.  [handling]: the
    goroutine that takes the confirmations is not stuck. *)
Record Throttler (L : Type) := mkThrottler {
  limit : Z;
  tokenc : Z;
  availTokens : Z;
  t_lru : BlockLRU L;
  subs : gmap N (list nat);
  handling : bool;
  t_closed : bool }.
Arguments mkThrottler {L}. Arguments limit {L}. Arguments tokenc {L}. Arguments availTokens {L}. Arguments t_lru {L}.
Arguments subs {L}. Arguments handling {L}. Arguments t_closed {L}.

Section setters.
Context {L : Type}.
Implicit Types t : Throttler L.
Definition with_tokens (n a : Z) t := mkThrottler (limit t) n a (t_lru t) (subs t) (handling t) (t_closed t).
Definition with_t_lru (x : BlockLRU L) t := mkThrottler (limit t) (tokenc t) (availTokens t) x (subs t) (handling t) (t_closed t).
Definition with_subs x t := mkThrottler (limit t) (tokenc t) (availTokens t) (t_lru t) x (handling t) (t_closed t).
Definition with_handling x t := mkThrottler (limit t) (tokenc t) (availTokens t) (t_lru t) (subs t) x (t_closed t).
Definition with_t_closed t := mkThrottler (limit t) (tokenc t) (availTokens t) (t_lru t) (subs t) (handling t) true.
End setters.

Section throttler.
Context {L : Type} {LL : Lru L}.
(** The rest of the client, and what a buffer does when it is asked to give up a
    block and when its channel is closed; [true] when it confirms. *)
Context {X : Type} (answer : nat -> BlockKey -> M X fault bool) (hang_up : nat -> X -> X).
Abbreviation TM A := (M (Throttler L * X) fault A).

Definition get_thr : TM (Throttler L) := gets fst.
Definition set_thr (f : Throttler L -> Throttler L) : TM unit := modify (fun s => (f s.1, s.2)).
Definition on_rest {A} (m : M X fault A) : TM A := fun s => let '(r, x) := m s.2 in (r, (s.1, x)).

Definition NewThrottler (n : Z) : option (Throttler L) :=
  let n := if n <=? 0 then 256 else n in
  c ← NewBlockLRU n; Some (mkThrottler n n n c ∅ true false).

(** Sending to a full channel waits; to a closed one, panics. *)
Definition _release : TM unit :=
  t <- get_thr ;;
  if t_closed t then go_panic
  else if limit t <=? tokenc t then throw Blocked
  else set_thr (with_tokens (tokenc t + 1) (availTokens t + 1)).
(** A closed channel can always be received from. *)
Definition receive_token : TM bool :=
  t <- get_thr ;;
  if t_closed t then ret true
  else if 0 <? tokenc t then set_thr (with_tokens (tokenc t - 1) (availTokens t)) ;;; ret true
  else ret false.
Definition _occupy (k : BlockKey) : TM unit :=
  set_thr (fun t => with_t_lru (Put k (t_lru t)) t) ;;;
  set_thr (fun t => with_tokens (tokenc t) (availTokens t - 1) t).
Definition _acquire : TM unit :=
  r <- receive_token ;;
  if r : bool then set_thr (fun t => with_tokens (tokenc t) (availTokens t - 1) t) else throw Blocked.

(** A confirmation reaches the goroutine that handles them, which then is stuck if
    the channel of tokens is full. *)
Definition confirm : TM unit :=
  t <- get_thr ;;
  if t_closed t || negb (handling t) then ret tt
  else if limit t <=? tokenc t then set_thr (with_handling false)
  else _release.
(** A block was used. *)
Definition handle_update (k : BlockKey) : TM unit := set_thr (fun t => with_t_lru (Put k (t_lru t)) t).

Definition Register (ino : N) (id : nat) : TM unit :=
  set_thr (fun t => with_subs (<[ino := default [] (subs t !! ino) ++ [id]]> (subs t)) t).

(** The channels of all buffers of the file are closed. *)
Fixpoint release_n (n : nat) : TM unit :=
  match n with O => ret tt | S n => _release ;;; release_n n end.
Definition UnRegister (ino : N) : TM unit :=
  t <- get_thr ;;
  let chs := default [] (subs t !! ino) in
  set_thr (with_subs (delete ino (subs t))) ;;;
  modify (fun s => (s.1, foldl (fun x id => hang_up id x) s.2 chs)) ;;;
  let '(n, c) := RemoveByIno ino (t_lru t) in
  set_thr (with_t_lru c) ;;;
  release_n (Z.to_nat n).

(** Each buffer of the file is asked, and the confirmations come before the caller
    goes on waiting. *)
Fixpoint publish (chs : list nat) (k : BlockKey) : TM unit :=
  match chs with
  | [] => ret tt
  | id :: chs =>
      c <- on_rest (answer id k) ;;
      (if c : bool then confirm else ret tt) ;;;
      publish chs k
  end.

(** The lock is held all the time, so that without a token nothing else can give
    one. *)
Definition TryAcquire (k : BlockKey) : TM bool :=
  r <- receive_token ;;
  if r : bool then _occupy k ;;; ret true else
  t <- get_thr ;;
  let '(removed, ok, c) := RemoveOldest (t_lru t) in
  set_thr (with_t_lru c) ;;;
  if negb ok then ret false else
  publish (default [] (subs t !! GetIno removed)) removed ;;;
  r <- receive_token ;;
  if r : bool then _occupy k ;;; ret true else throw Blocked.

Definition IsFull (t : Throttler L) : bool := limit t =? availTokens t.
Definition GetLimit (t : Throttler L) : Z := limit t.
Definition Shutdown : TM unit := set_thr with_t_closed.
End throttler.

(** * A cache as a list *)

Record list_lru := mkListLru { ll_keys : list BlockKey; ll_size : Z }.
#[export] Instance list_Lru : Lru list_lru := {
  lru_make n := if n <=? 0 then None else Some (mkListLru [] n);
  lru_get k l := if decide (k ∈ ll_keys l) then (true, mkListLru (filter (fun x => x <> k) (ll_keys l) ++ [k]) (ll_size l)) else (false, l);
  lru_add k l :=
    let ks := filter (fun x => x <> k) (ll_keys l) ++ [k] in
    mkListLru (if ll_size l <? Z.of_nat (length ks) then drop 1 ks else ks) (ll_size l);
  lru_del k l := mkListLru (filter (fun x => x <> k) (ll_keys l)) (ll_size l);
  lru_oldest l := (match ll_keys l with k :: _ => Some k | [] => None end, mkListLru (drop 1 (ll_keys l)) (ll_size l));
}.
#[export, refine] Instance list_LruSpec : LruSpec list_lru := { lru_keys := ll_keys; lru_size := ll_size }.
Proof.
  - intros n l. cbn. destruct (n <=? 0); [done|]. by intros [= <-].
  - intros n Hn. cbn. rewrite (proj2 (Z.leb_gt _ _)) by done. by eexists.
  - intros k l Hl. cbn. rewrite length_app. cbn. by rewrite (proj2 (Z.ltb_ge _ _)) by lia.
  - done.
  - done.
Defined.

(** * Conservation of tokens *)

Section conserve.
Context {L : Type} {LL : Lru L} {LS : LruSpec L}.
Implicit Types t : Throttler L.

(** The blocks that have a token, by file. *)
Definition held (m : gmap N (list BlockKey)) : list BlockKey := concat (map_to_list m).*2.

Lemma held_split m ino ks : m !! ino = Some ks -> held m ≡ₚ ks ++ held (delete ino m).
Proof. intros H. unfold held. by rewrite <- (map_to_list_delete m ino ks H). Qed.
Lemma held_insert m ino ks : held (<[ino := ks]> m) ≡ₚ ks ++ held (delete ino m).
Proof.
  rewrite <- insert_delete_eq. unfold held. rewrite map_to_list_insert by apply lookup_delete_eq. done.
Qed.
Lemma held_default m ino : held m ≡ₚ default [] (m !! ino) ++ held (delete ino m).
Proof.
  destruct (m !! ino) as [ks|] eqn:E; [by apply held_split|]. by rewrite delete_id.
Qed.
Lemma elem_of_held m k : k ∈ held m <-> exists ino ks, m !! ino = Some ks /\ k ∈ ks.
Proof.
  unfold held. rewrite list_elem_of_In, in_concat. setoid_rewrite <- list_elem_of_In. split.
  - intros (ks & Hks & Hk). apply list_elem_of_fmap in Hks as ([ino ks'] & -> & H). apply elem_of_map_to_list in H. by exists ino, ks'.
  - intros (ino & ks & Hm & Hk). exists ks. split; [|done]. apply list_elem_of_fmap. exists (ino, ks). split; [done|]. by apply elem_of_map_to_list.
Qed.

(** A token is in the channel or with a block, the blocks with a token are the
    recently used ones, and they are filed under their files. *)
Record balanced t : Prop := {
  b_open : t_closed t = false;
  b_handling : handling t = true;
  b_tokens : 0 <= tokenc t;
  b_avail : availTokens t = tokenc t;
  b_sum : tokenc t + counter (t_lru t) = limit t;
  b_counter : counter (t_lru t) = Z.of_nat (length (held (inoKeyMap (t_lru t))));
  b_keys : held (inoKeyMap (t_lru t)) ≡ₚ lru_keys (lru (t_lru t));
  b_nodup : NoDup (held (inoKeyMap (t_lru t)));
  b_size : lru_size (lru (t_lru t)) = limit t;
  b_filed : forall ino ks, inoKeyMap (t_lru t) !! ino = Some ks -> Forall (fun k => GetIno k = ino) ks }.

Lemma NewThrottler_balanced n t : NewThrottler n = Some t -> balanced t /\ 0 < limit t.
Proof.
  unfold NewThrottler, NewBlockLRU. set (n' := if n <=? 0 then 256 else n). assert (Hn : 0 < n').
  { unfold n'. destruct (Z.leb_spec n 0); lia. }
  destruct (lru_make n') as [l|] eqn:E; [|done]. intros [= <-]. apply lru_make_keys in E as [Hk Hs].
  split; [|done]. split; cbn; try done.
  - lia.
  - lia.
  - by rewrite Hk.
  - constructor.
Qed.

Lemma filter_notin (k : BlockKey) (l : list BlockKey) : k ∉ l -> filter (fun x => x <> k) l = l.
Proof.
  induction l as [|x l IH]; [done|]. rewrite not_elem_of_cons. intros [Hx Hl]. rewrite filter_cons_True by done. by rewrite IH.
Qed.

(** A token that was taken from the channel goes to a block. *)
Lemma occupied t k : balanced t -> k ∉ held (inoKeyMap (t_lru t)) -> 0 < tokenc t ->
  let t' := with_tokens (tokenc t - 1) (availTokens t - 1) (with_t_lru (Put k (t_lru t)) t) in
  balanced t' /\ held (inoKeyMap (t_lru t')) ≡ₚ k :: held (inoKeyMap (t_lru t)).
Proof.
  intros [Ho Hh Ht Ha Hs Hc Hk Hnd Hsz Hf] Hni Hpos t'.
  assert (Hin : k ∉ lru_keys (lru (t_lru t))) by (by rewrite <- Hk).
  assert (Hlen : Z.of_nat (length (lru_keys (lru (t_lru t)))) = counter (t_lru t)) by (rewrite Hc; by rewrite Hk).
  destruct (lru_add_keys k (lru (t_lru t))) as [Hkeys Hsize]; [rewrite filter_notin by done; lia|]. rewrite filter_notin in Hkeys by done.
  assert (Hheld : held (inoKeyMap (Put k (t_lru t))) ≡ₚ k :: held (inoKeyMap (t_lru t))).
  { cbn. rewrite held_insert. rewrite (held_default (inoKeyMap (t_lru t)) (GetIno k)). rewrite <- app_assoc. cbn. by rewrite Permutation_middle. }
  split; [|done]. split; cbn [t' with_tokens with_t_lru t_closed handling tokenc availTokens t_lru limit Put counter lru]; try done.
  - lia.
  - lia.
  - lia.
  - rewrite Hc. change (<[_ := _]> _) with (inoKeyMap (Put k (t_lru t))). rewrite Hheld. cbn. lia.
  - change (inoKeyMap _) with (inoKeyMap (Put k (t_lru t))). rewrite Hheld, Hkeys, Hk. apply Permutation_cons_append.
  - change (inoKeyMap _) with (inoKeyMap (Put k (t_lru t))). rewrite Hheld. by constructor.
  - by rewrite Hsize.
  - intros ino ks. cbn. rewrite lookup_insert_Some. intros [[<- <-]|[_ H]]; [|by apply Hf]. apply Forall_app. split; [|by repeat constructor].
    destruct (inoKeyMap (t_lru t) !! GetIno k) as [ks|] eqn:E; [by apply Hf|constructor].
Qed.
Lemma list_Remove_perm k ks : k ∈ ks -> ks ≡ₚ k :: list_Remove k ks.
Proof.
  induction ks as [|x ks IH]; [by intros ?%not_elem_of_nil|]. intros Hk. cbn. destruct (decide (x = k)) as [->|Hne]; [done|].
  apply elem_of_cons in Hk as [->|Hk]; [done|]. rewrite (IH Hk) at 1. apply Permutation_swap.
Qed.

(** The oldest block gives its token back. *)
Lemma evicted t k0 rest : balanced t -> lru_keys (lru (t_lru t)) = k0 :: rest ->
  exists c, RemoveOldest (t_lru t) = (k0, true, c) /\
    (exists ks, inoKeyMap (t_lru t) !! GetIno k0 = Some ks /\ k0 ∈ ks) /\
    balanced (with_tokens (tokenc t + 1) (availTokens t + 1) (with_t_lru c t)) /\ held (inoKeyMap c) ≡ₚ rest.
Proof.
  intros [Ho Hh Ht Ha Hs Hc Hk Hnd Hsz Hf] Hkeys.
  assert (Hin : k0 ∈ held (inoKeyMap (t_lru t))) by (rewrite Hk, Hkeys; left).
  apply elem_of_held in Hin as (ino & ks & Hm & Hin). pose proof (Hf ino ks Hm) as Hino. rewrite Forall_forall in Hino.
  assert (GetIno k0 = ino) as <- by (by apply Hino). destruct (lru_oldest_keys (lru (t_lru t))) as (Hold & Hdrop & Hsize). rewrite Hkeys in Hold, Hdrop.
  unfold RemoveOldest. destruct (lru_oldest (lru (t_lru t))) as [r l]. cbn [fst snd] in *. subst r. cbn [default].
  cbn [default Datatypes.id]. unfold Datatypes.id.
  exists (mkBlockLRU l (<[GetIno k0 := list_Remove k0 ks]> (inoKeyMap (t_lru t))) (counter (t_lru t) - 1) (cap (t_lru t))).
  split; [rewrite Hm; by rewrite decide_True|]. split; [by exists ks|]. cbn [inoKeyMap].
  assert (Hheld : k0 :: held (<[GetIno k0 := list_Remove k0 ks]> (inoKeyMap (t_lru t))) ≡ₚ held (inoKeyMap (t_lru t))).
  { rewrite held_insert, (held_split _ _ _ Hm). rewrite (list_Remove_perm k0 ks Hin) at 2. done. }
  assert (Hr : held (<[GetIno k0 := list_Remove k0 ks]> (inoKeyMap (t_lru t))) ≡ₚ rest).
  { apply (Permutation_cons_inv (a := k0)). by rewrite Hheld, Hk, Hkeys. }
  split; [|done]. split; cbn [with_tokens with_t_lru t_closed handling tokenc availTokens t_lru limit counter lru inoKeyMap]; try done.
  - lia.
  - lia.
  - lia.
  - rewrite Hc, <- Hheld. cbn. lia.
  - by rewrite Hr, Hdrop.
  - rewrite <- Hheld in Hnd. by apply NoDup_cons in Hnd as [_ Hnd].
  - by rewrite Hsize.
  - intros ino ks'. rewrite lookup_insert_Some. intros [[<- <-]|[_ H]]; [|by apply Hf]. specialize (Hf _ _ Hm).
    rewrite (list_Remove_perm k0 ks Hin) in Hf. by apply Forall_cons in Hf as [_ Hf].
Qed.

Lemma lru_del_all ks l : lru_keys (foldl (fun l k => lru_del k l) l ks) = filter (fun x => x ∉ ks) (lru_keys l) /\
  lru_size (foldl (fun l k => lru_del k l) l ks) = lru_size l.
Proof.
  revert l. induction ks as [|k ks IH]; intros l; cbn [foldl].
  - split; [|done]. symmetry. induction (lru_keys l) as [|x r IHr]; [done|]. rewrite filter_cons_True, IHr; [done|apply not_elem_of_nil].
  - destruct (IH (lru_del k l)) as [-> ->]. destruct (lru_del_keys k l) as [-> ->]. split; [|done]. rewrite list_filter_filter.
    apply list_filter_iff. intros x. rewrite not_elem_of_cons. tauto.
Qed.

Lemma filter_in_all {A} (P : A -> Prop) `{!forall x, Decision (P x)} (l : list A) : (forall x, x ∈ l -> P x) -> filter P l = l.
Proof.
  induction l as [|x l IH]; intros Hall; [done|]. rewrite filter_cons_True by (apply Hall; left). f_equal. apply IH. intros y Hy. apply Hall. by right.
Qed.

(** The blocks of a file give their tokens back. *)
Lemma unfiled t ino ks : balanced t -> inoKeyMap (t_lru t) !! ino = Some ks ->
  exists c, RemoveByIno ino (t_lru t) = (Z.of_nat (length ks), c) /\ inoKeyMap c = delete ino (inoKeyMap (t_lru t)) /\
    balanced (with_tokens (tokenc t + Z.of_nat (length ks)) (availTokens t + Z.of_nat (length ks)) (with_t_lru c t)).
Proof.
  intros [Ho Hh Ht Ha Hs Hc Hk Hnd Hsz Hf] Hm. unfold RemoveByIno. rewrite Hm. eexists. split; [done|]. split; [done|].
  pose proof (held_split _ _ _ Hm) as Hsp. destruct (lru_del_all ks (lru (t_lru t))) as [Hkeys Hsize].
  assert (Hlen : Z.of_nat (length (held (inoKeyMap (t_lru t)))) = Z.of_nat (length ks) + Z.of_nat (length (held (delete ino (inoKeyMap (t_lru t)))))).
  { rewrite Hsp, length_app. lia. }
  rewrite Hsp in Hnd. apply NoDup_app in Hnd as (_ & Hdisj & Hnd).
  split; cbn [with_tokens with_t_lru t_closed handling tokenc availTokens t_lru limit counter lru inoKeyMap]; try done.
  - lia.
  - lia.
  - lia.
  - lia.
  - rewrite Hkeys. rewrite <- Hk, Hsp, filter_app. rewrite (list_filter_none _ ks), (filter_in_all _ (held _)); [done|..].
    + intros x Hx Hx'. by apply (Hdisj x).
    + intros x Hx Hn. done.
  - by rewrite Hsize.
  - intros ino' ks'. rewrite lookup_delete_Some. intros [_ H]. by apply Hf.
Qed.
(** ** The operations *)

Context {X : Type} (answer : nat -> BlockKey -> M X fault bool) (hang_up : nat -> X -> X).

Lemma receive_token_take t (x : X) : balanced t ->
  receive_token (t, x) = if 0 <? tokenc t then (Ok true, (with_tokens (tokenc t - 1) (availTokens t) t, x)) else (Ok false, (t, x)).
Proof.
  intros [Ho _ _ _ _ _ _ _ _ _]. unfold receive_token, bind at 1, get_thr, gets. cbn [fst]. rewrite Ho. by destruct (0 <? tokenc t).
Qed.
Lemma receive_and_occupy t (x : X) k : balanced t -> 0 < tokenc t ->
  (r <- receive_token ;; if r : bool then _occupy k ;;; ret true else throw Blocked) (t, x) =
  (Ok true, (with_tokens (tokenc t - 1) (availTokens t - 1) (with_t_lru (Put k (t_lru t)) t), x)).
Proof. intros Hb Hpos. unfold bind at 1. rewrite (receive_token_take t x Hb), (proj2 (Z.ltb_lt _ _)) by done. done. Qed.

(** Every file with blocks in memory has one buffer, and it answers. *)
Definition answered t (x : X) : Prop :=
  forall ino ks, inoKeyMap (t_lru t) !! ino = Some ks -> ks <> [] ->
    exists id, subs t !! ino = Some [id] /\ forall k, GetIno k = ino -> exists x', answer id k x = (Ok true, x').

Lemma TryAcquire_balanced t (x : X) k : balanced t -> 0 < limit t -> k ∉ held (inoKeyMap (t_lru t)) -> answered t x ->
  exists t' x', TryAcquire answer k (t, x) = (Ok true, (t', x')) /\ balanced t' /\ subs t' = subs t /\ limit t' = limit t /\
    (0 < tokenc t -> x' = x /\ held (inoKeyMap (t_lru t')) ≡ₚ k :: held (inoKeyMap (t_lru t))) /\
    (tokenc t = 0 -> exists k0 rest id, lru_keys (lru (t_lru t)) = k0 :: rest /\ held (inoKeyMap (t_lru t')) ≡ₚ k :: rest /\
       subs t !! GetIno k0 = Some [id] /\ answer id k0 x = (Ok true, x')).
Proof.
  intros Hb Hl Hk Hans. unfold TryAcquire, bind at 1. rewrite (receive_token_take t x Hb). destruct (Z.ltb_spec 0 (tokenc t)) as [Hpos|Hz].
  - destruct (occupied t k Hb Hk Hpos) as [Hb' Hh']. eexists _, x. split; [reflexivity|]. split_and!; try done. lia.
  - pose proof (b_tokens t Hb) as Ht. assert (Ez : tokenc t = 0) by lia.
    assert (Hlen : Z.of_nat (length (lru_keys (lru (t_lru t)))) = limit t).
    { rewrite <- (b_sum t Hb), (b_counter t Hb), (b_keys t Hb). lia. }
    destruct (lru_keys (lru (t_lru t))) as [|k0 rest] eqn:Ek; [cbn in Hlen; lia|].
    destruct (evicted t k0 rest Hb Ek) as (c & Hrem & (ks & Hm & Hin) & Hb1 & Hheld).
    destruct (Hans _ _ Hm) as (id & Hsub & Hanswer); [by intros ->; apply not_elem_of_nil in Hin|]. destruct (Hanswer k0 eq_refl) as [x' Hx'].
    set (t1 := with_tokens (tokenc t + 1) (availTokens t + 1) (with_t_lru c t)) in *.
    assert (Hk1 : k ∉ held (inoKeyMap (t_lru t1))).
    { cbn. rewrite Hheld. intros Hr. apply Hk. rewrite (b_keys t Hb), Ek. by right. }
    destruct (occupied t1 k Hb1 Hk1 ltac:(cbn; lia)) as [Hb2 Hh2]. eexists _, x'. split.
    + unfold bind at 1, get_thr, gets. cbn [fst]. rewrite Hrem. unfold bind at 1, set_thr at 1, modify at 1. cbn [negb fst snd].
      rewrite Hsub. cbn [default Datatypes.id]. unfold Datatypes.id. cbn [publish]. unfold bind at 1. unfold bind at 1, on_rest. cbn [fst snd]. rewrite Hx'.
      unfold bind at 1. unfold confirm, bind at 1, get_thr, gets. cbn [fst with_t_lru t_closed handling limit tokenc].
      rewrite (b_open t Hb), (b_handling t Hb), (proj2 (Z.leb_gt (limit t) (tokenc t))) by lia. cbn [orb negb].
      unfold _release, bind at 1, get_thr, gets. cbn [fst with_t_lru t_closed limit tokenc]. rewrite (b_open t Hb), (proj2 (Z.leb_gt (limit t) (tokenc t))) by lia.
      unfold set_thr at 1, modify at 1. cbn [fst snd]. unfold ret at 1. exact (receive_and_occupy t1 x' k Hb1 ltac:(cbn; lia)).
    + split_and!; try done; [lia|]. intros _. exists k0, rest, id. split_and!; try done. rewrite Hh2. by apply Permutation_cons.
Qed.

Lemma release_n_run n t (x : X) : t_closed t = false -> tokenc t + Z.of_nat n <= limit t ->
  release_n n (t, x) = (Ok tt, (with_tokens (tokenc t + Z.of_nat n) (availTokens t + Z.of_nat n) t, x)).
Proof.
  revert t. induction n as [|n IH]; intros t Ho Hl.
  - cbn [release_n]. unfold ret. rewrite !Z.add_0_r. by destruct t.
  - cbn [release_n]. unfold bind. unfold _release, bind, get_thr, gets. cbn [fst]. rewrite Ho, (proj2 (Z.leb_gt _ _)) by lia.
    unfold set_thr, modify. cbn [fst snd]. rewrite IH; [|done|cbn; lia].
    replace (Z.of_nat (S n)) with (1 + Z.of_nat n) by lia. by rewrite !Z.add_assoc.
Qed.

Lemma UnRegister_balanced t (x : X) ino : balanced t ->
  exists t' x', UnRegister hang_up ino (t, x) = (Ok tt, (t', x')) /\ balanced t' /\ limit t' = limit t /\
    inoKeyMap (t_lru t') = delete ino (inoKeyMap (t_lru t)) /\ subs t' = delete ino (subs t).
Proof.
  intros Hb. unfold UnRegister, bind at 1, get_thr, gets. cbn [fst]. unfold bind at 1, set_thr at 1, modify at 1. cbn [fst snd].
  unfold bind at 1, modify at 1. cbn [fst snd]. destruct (inoKeyMap (t_lru t) !! ino) as [ks|] eqn:E.
  - destruct (unfiled t ino ks Hb E) as (c & Hrem & Hm & Hb1). rewrite Hrem. unfold bind at 1, set_thr at 1, modify at 1. cbn [fst snd].
    pose proof (b_sum _ Hb1) as Hs1. pose proof (b_counter _ Hb1) as Hc1. cbn in Hs1, Hc1.
    rewrite release_n_run; [|apply (b_open t Hb)|cbn; lia]. eexists _, _. split; [reflexivity|]. cbn. rewrite Nat2Z.id.
    split_and!; try done. destruct Hb1. by split.
  - unfold RemoveByIno. rewrite E. cbn. eexists _, _. split; [reflexivity|]. split_and!; [destruct Hb; by split|done|symmetry; by apply delete_id|done].
Qed.

(** C20 Tokens are conserved.  While every file with blocks in memory has one buffer
    that answers, a block that has no token gets one: a free one, or the one of the
    block that acquired its token longest ago, which loses it.  Closing a file frees the
    tokens of its blocks.  Each token stays in the channel or with one block, and
    the numbers of free tokens, of blocks and of recently used keys agree. *)
Theorem Throttler_conserves t (x : X) : balanced t -> 0 < limit t ->
  (forall k, k ∉ held (inoKeyMap (t_lru t)) -> answered t x ->
     exists t' x', TryAcquire answer k (t, x) = (Ok true, (t', x')) /\ balanced t' /\ subs t' = subs t /\ limit t' = limit t /\
       (0 < tokenc t -> x' = x /\ held (inoKeyMap (t_lru t')) ≡ₚ k :: held (inoKeyMap (t_lru t))) /\
       (tokenc t = 0 -> exists k0 rest id, lru_keys (lru (t_lru t)) = k0 :: rest /\ held (inoKeyMap (t_lru t')) ≡ₚ k :: rest /\
          subs t !! GetIno k0 = Some [id] /\ answer id k0 x = (Ok true, x'))) /\
  (forall ino, exists t' x', UnRegister hang_up ino (t, x) = (Ok tt, (t', x')) /\ balanced t' /\ limit t' = limit t /\
     inoKeyMap (t_lru t') = delete ino (inoKeyMap (t_lru t)) /\ subs t' = delete ino (subs t)).
Proof.
  intros Hb Hl. split; [intros k Hk Hans; by apply TryAcquire_balanced|]. intros ino. by apply UnRegister_balanced.
Qed.

(** Several blocks, one after the other. *)
Fixpoint acquire_each (ks : list BlockKey) : M (Throttler L * X) fault bool :=
  match ks with
  | [] => ret true
  | k :: ks => r <- TryAcquire answer k ;; if r : bool then acquire_each ks else ret false
  end.
Lemma acquire_each_run ks t (x : X) : balanced t -> Z.of_nat (length ks) <= tokenc t -> NoDup ks ->
  (forall k, k ∈ ks -> k ∉ held (inoKeyMap (t_lru t))) ->
  exists t', acquire_each ks (t, x) = (Ok true, (t', x)) /\ balanced t' /\ subs t' = subs t /\ limit t' = limit t /\
    tokenc t' = tokenc t - Z.of_nat (length ks) /\ held (inoKeyMap (t_lru t')) ≡ₚ ks ++ held (inoKeyMap (t_lru t)).
Proof.
  revert t. induction ks as [|k ks IH]; intros t Hb Hl Hnd Hni.
  - exists t. split; [done|]. split_and!; try done. cbn. lia.
  - cbn [length] in Hl. apply NoDup_cons in Hnd as [Hk Hnd]. destruct (occupied t k Hb) as [Hb1 Hh1]; [apply Hni; left|lia|].
    set (t1 := with_tokens _ _ _) in *. destruct (IH t1) as (t' & Hr & Hb' & Hs' & Hl' & Ht' & Hh'); [done|cbn; lia|done|..].
    { intros k' Hk'. rewrite Hh1. apply not_elem_of_cons. split; [by intros ->|apply Hni; by right]. }
    exists t'. split_and!; try done.
    + cbn [acquire_each]. unfold bind at 1, TryAcquire, bind at 1. rewrite (receive_token_take t x Hb), (proj2 (Z.ltb_lt _ _)) by lia. exact Hr.
    + rewrite Ht'. cbn. lia.
    + rewrite Hh', Hh1. cbn. by rewrite Permutation_middle.
Qed.

(** A block is asked for and no buffer takes the request. *)
Lemma TryAcquire_unheard t (x : X) k k0 rest : balanced t -> tokenc t = 0 -> lru_keys (lru (t_lru t)) = k0 :: rest ->
  subs t !! GetIno k0 = None -> (TryAcquire answer k (t, x)).1 = Err Blocked.
Proof.
  intros Hb Hz Hk Hs. unfold TryAcquire, bind at 1. rewrite (receive_token_take t x Hb), Hz. cbn [Z.ltb Z.compare].
  destruct (evicted t k0 rest Hb Hk) as (c & Hrem & _ & _ & _). unfold bind at 1, get_thr, gets. cbn [fst]. rewrite Hrem.
  unfold bind at 1, set_thr, modify. cbn [fst snd negb]. rewrite Hs. cbn [default publish]. unfold bind at 1, ret at 1. unfold bind at 1.
  unfold receive_token, bind at 1, get_thr, gets. cbn [fst with_t_lru t_closed tokenc]. rewrite (b_open t Hb), Hz. done.
Qed.

(** C36 Closing one of the buffers of a file strands the others: their channels are
    closed with it, while the blocks they read still take tokens.  When such blocks
    have taken every token, the next block that is asked for, of any file, is never
    granted, and the lock that is held meanwhile stops every other read. *)
Theorem UnRegister_strands t (x : X) ino ks k : balanced t -> 0 < limit t -> held (delete ino (inoKeyMap (t_lru t))) = [] ->
  NoDup ks -> Forall (fun k => GetIno k = ino) ks -> Z.of_nat (length ks) = limit t ->
  exists s', (UnRegister hang_up ino ;;; acquire_each ks) (t, x) = (Ok true, s') /\ (TryAcquire answer k s').1 = Err Blocked.
Proof.
  intros Hb Hl Hempty Hnd Hino Hlen. destruct (UnRegister_balanced t x ino Hb) as (t1 & x1 & Hu & Hb1 & Hl1 & Hm1 & Hs1).
  rewrite <- Hm1 in Hempty. assert (Ht1 : tokenc t1 = limit t).
  { rewrite <- Hl1, <- (b_sum t1 Hb1), (b_counter t1 Hb1), Hempty. cbn. lia. }
  destruct (acquire_each_run ks t1 x1) as (t2 & Hr & Hb2 & Hs2 & _ & Ht2 & Hh2); [done|lia|done|rewrite Hempty; intros; apply not_elem_of_nil|].
  exists (t2, x1). split; [unfold bind at 1; by rewrite Hu|].
  assert (Hkeys : ks ≡ₚ lru_keys (lru (t_lru t2))) by (rewrite <- (b_keys t2 Hb2), Hh2, Hempty; by rewrite app_nil_r).
  destruct (lru_keys (lru (t_lru t2))) as [|k0 rest] eqn:E.
  - symmetry in Hkeys. apply Permutation_nil_l in Hkeys. subst ks. cbn in Hlen. lia.
  - apply (TryAcquire_unheard t2 x1 k k0 rest Hb2); [lia|done|]. rewrite Forall_forall in Hino. rewrite (Hino k0).
    + rewrite Hs2, Hs1. apply lookup_delete_eq.
    + rewrite Hkeys. left.
Qed.
End conserve.

(** A client with one token that has the file [7] open; its first block is in memory. *)
Definition one_reader : Throttler list_lru :=
  mkThrottler 1 0 0 (mkBlockLRU (mkListLru [NewBlockKey 7 0] 1) {[7%N := [NewBlockKey 7 0]]} 1 1) {[7%N := [0%nat]]} true false.
Lemma one_reader_balanced : balanced one_reader.
Proof.
  split; try reflexivity.
  - vm_compute. repeat constructor. by intros ?%not_elem_of_nil.
  - intros ino ks. cbn. rewrite lookup_singleton_Some. intros [<- <-]. repeat constructor.
Qed.
Definition agrees (id : nat) (k : BlockKey) : M (list BlockKey) fault bool := fun x => (Ok true, k :: x).
Lemma one_reader_answered : answered agrees one_reader [].
Proof.
  intros ino ks. cbn. rewrite !lookup_singleton_Some. intros [<- <-] _. exists 0%nat. split; [done|]. intros k _. by eexists.
Qed.

Lemma Throttler_conserves_witness : exists t' x', TryAcquire agrees (NewBlockKey 8 3) (one_reader, []) = (Ok true, (t', x')) /\ balanced t'.
Proof.
  destruct (proj1 (Throttler_conserves agrees (fun _ x => x) one_reader [] one_reader_balanced ltac:(done)) (NewBlockKey 8 3)) as (t' & x' & H & Hb & _).
  - vm_compute. intros [H|H]%elem_of_cons; [discriminate|by apply not_elem_of_nil in H].
  - exact one_reader_answered.
  - exists t', x'. by split.
Defined.

Lemma UnRegister_strands_witness : exists s',
  (UnRegister (fun _ x => x) 7%N ;;; acquire_each agrees [NewBlockKey 7 1]) (one_reader, []) = (Ok true, s') /\
  (TryAcquire agrees (NewBlockKey 8 3) s').1 = Err Blocked.
Proof.
  apply (UnRegister_strands agrees (fun _ x => x) one_reader [] 7%N [NewBlockKey 7 1] (NewBlockKey 8 3) one_reader_balanced).
  - done.
  - reflexivity.
  - apply NoDup_singleton.
  - repeat constructor.
  - reflexivity.
Defined.
