(* ===== verification/ReadBuffer.v ===== *)
(** Reading an open file, src/pkg/hugofs/vfs/buffer/rbuffer.go: the blocks of the
    files that are open, kept in memory under the throttler's limit or in a swap
    file. *)
From Stdlib Require Import Ascii Strings.Byte ZArith Lia.
From stdpp Require Import prelude gmap strings list list_numbers.
From S2P Require Import Prelude Store Hash SlotPool Interval IntervalProps Volume StorageBackend Throttler FileBlock MemBlock Uploader PageWriter.

Open Scope Z_scope.

(** * State *)

(** A buffer; [alive]: its goroutine takes requests for eviction.  The storage of
    the swap file is the client's, which is kept once. *)
Record ReadBuffer := mkReadBuffer {
  rb_ino : N;
  rb_blockSize : Z;
  rb_blocks : gmap BlockKey MemBlock;
  rb_monitor : Pattern;
  rb_swap : Swap unit;
  rb_readPos : Z;
  rb_alive : bool;
  rb_closed : bool }.

Definition with_rb_blocks (x : gmap BlockKey MemBlock) (b : ReadBuffer) : ReadBuffer :=
  mkReadBuffer (rb_ino b) (rb_blockSize b) x (rb_monitor b) (rb_swap b) (rb_readPos b) (rb_alive b) (rb_closed b).
Definition with_rb_monitor (x : Pattern) (b : ReadBuffer) : ReadBuffer :=
  mkReadBuffer (rb_ino b) (rb_blockSize b) (rb_blocks b) x (rb_swap b) (rb_readPos b) (rb_alive b) (rb_closed b).
Definition with_rb_swap (x : Swap unit) (b : ReadBuffer) : ReadBuffer :=
  mkReadBuffer (rb_ino b) (rb_blockSize b) (rb_blocks b) (rb_monitor b) x (rb_readPos b) (rb_alive b) (rb_closed b).
Definition _updateReadCursor (off : Z) (b : ReadBuffer) : ReadBuffer :=
  mkReadBuffer (rb_ino b) (rb_blockSize b) (rb_blocks b) (rb_monitor b) (rb_swap b) off (rb_alive b) (rb_closed b).
Definition with_rb_alive (x : bool) (b : ReadBuffer) : ReadBuffer :=
  mkReadBuffer (rb_ino b) (rb_blockSize b) (rb_blocks b) (rb_monitor b) (rb_swap b) (rb_readPos b) x (rb_closed b).
Definition with_rb_closed (b : ReadBuffer) : ReadBuffer :=
  mkReadBuffer (rb_ino b) (rb_blockSize b) (rb_blocks b) (rb_monitor b) (rb_swap b) (rb_readPos b) (rb_alive b) true.

Section read_buffer.
Context {L : Type} {LL : Lru L} {T : Type} {SB : StorageBackend T}.
(** Whether the text of an error contains block already exists, and whether the
    temporary file of a swap file can be made. *)
Context (already_exists : error -> bool) (temp : bool).

(** The buffers by their number, and the storage. *)
Abbreviation rest := (list ReadBuffer * T)%type.
Abbreviation RM A := (M (Throttler L * rest) fault A).

Definition get_buf (id : nat) : RM ReadBuffer := b <- gets (fun w => w.2.1 !! id) ;; deref b.
Definition set_buf (id : nat) (f : ReadBuffer -> ReadBuffer) : RM unit :=
  modify (fun w => (w.1, (alter f id w.2.1, w.2.2))).
(** A call on a block in memory. *)
Definition on_blk {A} (b : MemBlock) (m : M (MemBlock * T) fault A) : RM (A * MemBlock) := fun w =>
  let '(r, (b', t)) := m (b, w.2.2) in
  (match r with Ok a => Ok (a, b') | Err e => Err e | Panic => Panic end, (w.1, (w.2.1, t))).
(** A call on the swap file of a buffer. *)
Definition on_rb_swap {A} (id : nat) (m : M (Swap T) fault A) : RM A := fun w =>
  match w.2.1 !! id with
  | Some b =>
      let '(r, sw) := m (with_storage w.2.2 (rb_swap b)) in
      (r, (w.1, (<[id := with_rb_swap (with_storage tt sw) b]> w.2.1, storage sw)))
  | None => (Panic, w)
  end.

(** ** Eviction *)

(** Destroying a block changes the storage where the two share an array. *)
Definition destroyed (b : MemBlock) (t : T) : MemBlock * T := (MemBlock.Destroy (b, t)).2.
(** Who still has the block sees it without its data. *)
Definition evictBlock (k : BlockKey) (b : ReadBuffer) (t : T) : ReadBuffer * T :=
  match rb_blocks b !! k with
  | None => (b, t)
  | Some m => (with_rb_blocks (delete k (rb_blocks b)) b, (destroyed m t).2)
  end.
(** What the goroutine of a buffer does with a request. *)
Definition answer (id : nat) (k : BlockKey) : M rest fault bool := fun x =>
  match x.1 !! id with
  | Some b =>
      if rb_alive b && (GetIno k =? rb_ino b)%N then
        let '(b', t) := evictBlock k b x.2 in (Ok true, (<[id := b']> x.1, t))
      else (Ok false, x)
  | None => (Ok false, x)
  end.
Definition hang_up (id : nat) (x : rest) : rest := (alter (with_rb_alive false) id x.1, x.2).

(** A buffer for a file; pages are at most as large as blocks. *)
Definition NewDefaultBlockBuffer (ino : N) (blockSize pageSize : Z) (limit : nat) (ctx : PageContext) : RM nat :=
  w <- gets Datatypes.id ;;
  let id := length w.2.1 in
  modify (fun w => (w.1, (w.2.1 ++ [mkReadBuffer ino blockSize ∅ NewPattern (NewSwapFile blockSize pageSize limit ctx tt) 0 true false], w.2.2))) ;;;
  Register ino id ;;;
  ret id.

(** ** Reading *)

Definition indexRange (B : Z) (len off : Z) : Z * Z :=
  let stop := off + len in
  (Z.quot off B, if Z.rem stop B =? 0 then Z.quot stop B - 1 else Z.quot stop B).

Definition not_found (e : error) : bool := errors_Is e ErrBlockNotFound.

(** The block with that key, from memory or from the backend; the error is the
    one the call returns, which is [err], that of the block before, when no token is
    had.  A token is taken for a block that is fetched, also when
    fetching fails. *)
Definition fetch (id : nat) (B : Z) (key : BlockKey) (err : option error) : RM (MemBlock + option error) :=
  b <- get_buf id ;;
  match rb_blocks b !! key with
  | Some blk => ret (inl blk)
  | None =>
      ok <- TryAcquire answer key ;;
      if negb ok then ret (inr err) else
      r <- on_blk (NewMemBlock key B) Cache ;;
      match b_err r.2 with
      | Some e => ret (inr (Some (if not_found e then EOF else e)))
      | None => set_buf id (fun b => with_rb_blocks (<[key := r.2]> (rb_blocks b)) b) ;;; ret (inl r.2)
      end
  end.

(** Blocks [blockIdx] on, [rounds] of them; [n] bytes of [p] are read, [err] is what
    the block before gave. *)
Fixpoint read_blocks (id : nat) (B : Z) (rounds : nat) (p : list byte) (n off blockIdx : Z) (err : option error) : RM (Z * option error * list byte) :=
  match rounds with
  | O => ret (n, if n <? Z.of_nat (length p) then Some EOF else err, p)
  | S rounds =>
      b <- get_buf id ;;
      let key := NewBlockKey (rb_ino b) (to_uint64 blockIdx) in
      f <- fetch id B key err ;;
      match f with
      | inr e => ret (n, e, p)
      | inl blk =>
          r <- on_blk blk (MemBlock.ReadAt (drop (Z.to_nat n) p) off) ;;
          let '((read, err, q), blk') := r in
          set_buf id (fun b => with_rb_blocks (<[key := blk']> (rb_blocks b)) b) ;;;
          let p' := take (Z.to_nat n) p ++ q in
          match err with
          | Some e =>
              if not_found e then ret (n, Some EOF, p')
              else
                set_buf id (_updateReadCursor (off + read)) ;;;
                read_blocks id B rounds p' (n + read) (off + read) (blockIdx + 1) err
          | None =>
              set_buf id (_updateReadCursor (off + read)) ;;;
              read_blocks id B rounds p' (n + read) (off + read) (blockIdx + 1) err
          end
      end
  end.

(** Reading what is in memory or in the swap file, and only that. *)
Fixpoint read_local (id : nat) (rounds : nat) (p : list byte) (n off blockIdx : Z) (err : option error) : RM (Z * option error * list byte) :=
  match rounds with
  | O => ret (n, if n <? Z.of_nat (length p) then Some EOF else err, p)
  | S rounds =>
      b <- get_buf id ;;
      let key := NewBlockKey (rb_ino b) (to_uint64 blockIdx) in
      r <- match rb_blocks b !! key with
           | Some blk =>
               r <- on_blk blk (MemBlock.ReadAt (drop (Z.to_nat n) p) off) ;;
               set_buf id (fun b => with_rb_blocks (<[key := r.2]> (rb_blocks b)) b) ;;;
               ret (Some r.1)
           | None =>
               f <- on_rb_swap id (GetBlock key) ;;
               match f with
               | None => ret None
               | Some i => r <- on_rb_swap id (FileBlock.ReadAt i (drop (Z.to_nat n) p) off) ;; ret (Some r)
               end
           end ;;
      match r with
      | None => ret (0, None, p)
      | Some (read, err, q) =>
          let p' := take (Z.to_nat n) p ++ q in
          if match err with Some e => not_found e | None => false end then ret (n, Some EOF, p') else
          set_buf id (_updateReadCursor (off + read)) ;;;
          if Z.of_nat (length p) <=? n + read then ret (n + read, err, p')
          else read_local id rounds p' (n + read) (off + read) (blockIdx + 1) err
      end
  end.

(** Reading into the swap file, past the blocks in memory. *)
Fixpoint read_remote (id : nat) (rounds : nat) (p : list byte) (n off blockIdx : Z) (err : option error) : RM (Z * option error * list byte) :=
  match rounds with
  | O => ret (n, if n <? Z.of_nat (length p) then Some EOF else err, p)
  | S rounds =>
      b <- get_buf id ;;
      let key := NewBlockKey (rb_ino b) (to_uint64 blockIdx) in
      f <- on_rb_swap id (GetBlock key) ;;
      i <- match f with
           | Some i => ret i
           | None =>
               r <- on_rb_swap id (NewFileBlock temp key) ;;
               i <- deref r ;;
               on_rb_swap id (FileBlock.Cache i) ;;;
               ret i
           end ;;
      r <- on_rb_swap id (FileBlock.ReadAt i (drop (Z.to_nat n) p) off) ;;
      let '(read, err, q) := r in
      let p' := take (Z.to_nat n) p ++ q in
      if match err with Some e => not_found e | None => false end then ret (n + read, Some EOF, p')
      else read_remote id rounds p' (n + read) (off + read) (blockIdx + 1) err
  end.

Definition rb_Read (id : nat) (p : list byte) (off : Z) : RM (Z * option error * list byte) :=
  if (length p =? 0)%nat then ret (0, Some EOF, p) else
  b <- get_buf id ;;
  let m := Monitor off (Z.of_nat (length p)) (rb_monitor b) in
  set_buf id (with_rb_monitor m) ;;;
  let B := rb_blockSize b in
  if B =? 0 then go_panic else
  let '(start, stop) := indexRange B (Z.of_nat (length p)) off in
  t <- gets fst ;;
  let rounds := Z.to_nat (stop - start + 1) in
  if stop <? 0 then ret (0, Some EOF, p)
  else if negb (IsSequentialMode m) && Throttler.IsFull t then
    r <- read_local id rounds p 0 off start None ;;
    let '(n, err, p') := r in
    if 0 <? n then ret (n, err, p') else read_remote id rounds p' 0 off start None
  else read_blocks id B rounds p 0 off start None.

(** The order of the blocks does not matter: each clears its bytes. *)
Fixpoint destroy_blocks (id : nat) (l : list (BlockKey * MemBlock)) : RM unit :=
  match l with
  | [] => ret tt
  | (k, m) :: l =>
      r <- on_blk m MemBlock.Destroy ;;
      set_buf id (fun b => with_rb_blocks (<[k := r.2]> (rb_blocks b)) b) ;;;
      destroy_blocks id l
  end.
(** Closing runs once; the blocks stay, without their data. *)
Definition rb_Destroy (id : nat) : RM unit :=
  b <- get_buf id ;;
  if rb_closed b then ret tt else
  destroy_blocks id (map_to_list (rb_blocks b)) ;;;
  UnRegister hang_up (rb_ino b) ;;;
  on_rb_swap id (FreeResource already_exists) ;;;
  set_buf id with_rb_closed.
End read_buffer.
