(* ===== verification/ReadBufferProps.v ===== *)
(** Reading an open file returns what the backend holds. *)
From Stdlib Require Import Ascii Strings.Byte ZArith Lia.
From stdpp Require Import prelude gmap strings list list_numbers.
From S2P Require Import Prelude Store Hash SlotPool Interval IntervalProps Volume StorageBackend Throttler FileBlock MemBlock Uploader UploaderProps PageWriter ReadBuffer.

Open Scope Z_scope.

Section props.
Context {L : Type} {LL : Lru L} {LS : LruSpec L}.
Context {T : Type} {SB : StorageBackend T} {BS : BackendSpec T} {OW : OwnReads T}.
Context (temp : bool).
Abbreviation world := (Throttler L * (list ReadBuffer * T))%type.
Abbreviation contents := (gmap (N * N) (list byte)).
Implicit Types (w : world) (c : contents).

(** The block [m] is what the backend has under [k]. *)
Record cached (ino : N) (B : Z) c (k : BlockKey) (m : MemBlock) (i : N) (d : list byte) : Prop := {
  ca_name : k = NewBlockKey ino i;
  ca_index : (i < 2 ^ 64)%N;
  ca_end : (Z.of_N i + 1) * B <= MaxInt;
  ca_there : c !! (ino, i) = Some d;
  ca_len : Z.of_nat (length d) = B;
  ca_key : b_key m = k;
  ca_size : blockSize m = B;
  ca_high : highOff m = B;
  ca_data : data m = Some d;
  ca_shared : shared m = None;
  ca_err : b_err m = None }.

(** A client whose open files have one buffer each: each token, that of [but] apart,
    is with a block that is in its buffer, and the blocks in the buffers are those of
    the backend. *)
Record reading (but : option BlockKey) w (x : be_ghost) c : Prop := {
  r_bal : balanced w.1;
  r_limit : 0 < limit w.1;
  r_store : be_holds w.2.2 x c;
  r_held : forall k, k ∈ held (inoKeyMap (t_lru w.1)) -> but <> Some k ->
    exists id b, subs w.1 !! GetIno k = Some [id] /\ w.2.1 !! id = Some b /\ rb_alive b = true /\
      rb_ino b = GetIno k /\ is_Some (rb_blocks b !! k);
  r_blocks : forall id b, w.2.1 !! id = Some b ->
    (rb_ino b < 2 ^ 64)%N /\ 0 < rb_blockSize b <= MaxInt /\
    forall k m, rb_blocks b !! k = Some m -> exists i d, cached (rb_ino b) (rb_blockSize b) c k m i d }.

Lemma reading_answered w x c : reading None w x c -> answered answer w.1 w.2.
Proof.
  intros Hr ino ks Hks Hne. destruct ks as [|k ks]; [done|].
  assert (Hk : GetIno k = ino) by (pose proof (b_filed _ (r_bal _ _ _ _ Hr) _ _ Hks) as Hf; by apply Forall_cons in Hf as [Hf _]).
  destruct (r_held _ _ _ _ Hr k) as (id & b & Hs & Hb & Ha & Hi & _); [apply elem_of_held; exists ino, (k :: ks); split; [done|left]|done|].
  rewrite Hk in Hs, Hi. exists id. split; [done|]. intros k' Hk'. unfold answer. rewrite Hb, Ha, Hk', Hi, N.eqb_refl. cbn [andb].
  destruct (evictBlock k' b w.2.2). by eexists.
Qed.

Lemma destroyed_own (m : MemBlock) (t : T) : shared m = None -> (destroyed m t).2 = t.
Proof.
  intros Hs. unfold destroyed, MemBlock.Destroy, bind, get_block, gets. cbn [fst]. destruct (closed m); [done|].
  unfold modify, free_bytes. cbn [fst]. by rewrite Hs.
Qed.

(** Taking a token gives up at most the block that was used longest ago. *)
Lemma acquire_reading w x c k : reading None w x c -> k ∉ held (inoKeyMap (t_lru w.1)) ->
  exists w', TryAcquire answer k w = (Ok true, w') /\ reading (Some k) w' x c /\ subs w'.1 = subs w.1 /\ k ∈ held (inoKeyMap (t_lru w'.1)) /\
    forall id b, w.2.1 !! id = Some b -> exists bl, w'.2.1 !! id = Some (with_rb_blocks bl b) /\ bl ⊆ rb_blocks b.
Proof.
  intros Hr Hk. destruct w as [t [bufs st]]. cbn [fst snd] in *.
  destruct (TryAcquire_balanced answer t (bufs, st) k (r_bal _ _ _ _ Hr) (r_limit _ _ _ _ Hr) Hk (reading_answered _ _ _ Hr))
    as (t' & x' & Hrun & Hb' & Hs' & Hl' & Hfree & Hfull).
  pose proof (r_limit _ _ _ _ Hr) as Hlim. pose proof (b_tokens _ (r_bal _ _ _ _ Hr)) as Htok. cbn [fst] in Hlim, Htok.
  exists (t', x'). split; [done|]. destruct (Z.eq_dec (tokenc t) 0) as [Ez|Ez].
  - destruct (Hfull Ez) as (k0 & rest & id0 & Hk0 & Hh & Hsub & Hans).
    assert (Hin0 : k0 ∈ held (inoKeyMap (t_lru t))) by (rewrite (b_keys _ (r_bal _ _ _ _ Hr)); cbn; rewrite Hk0; left).
    destruct (r_held _ _ _ _ Hr k0 Hin0) as (id1 & b0 & Hsub' & Hb0 & Ha0 & Hi0 & _); [done|]. cbn [fst snd] in *.
    assert (id1 = id0) as -> by congruence. unfold answer in Hans. cbn [fst snd] in Hans. rewrite Hb0, Ha0, Hi0, N.eqb_refl in Hans. cbn [andb] in Hans.
    assert (Hev : evictBlock k0 b0 st = (with_rb_blocks (delete k0 (rb_blocks b0)) b0, st)).
    { unfold evictBlock. destruct (rb_blocks b0 !! k0) as [m0|] eqn:E; [|rewrite delete_id by done; by destruct b0].
      destruct (r_blocks _ _ _ _ Hr _ _ Hb0) as (_ & _ & Hall). destruct (Hall _ _ E) as (i0 & d0 & Hm0).
      f_equal. apply (destroyed_own m0 st). apply (ca_shared _ _ _ _ _ _ _ Hm0). }
    rewrite Hev in Hans. injection Hans as <-. assert (Hnd : NoDup (k0 :: rest)).
    { rewrite <- Hk0, <- (b_keys _ (r_bal _ _ _ _ Hr)). apply (b_nodup _ (r_bal _ _ _ _ Hr)). }
    apply NoDup_cons in Hnd as [Hnin _].
    split_and!; [|done|cbn; rewrite Hh; left|].
    + split; cbn [fst snd]; [done|lia|apply (r_store _ _ _ _ Hr)|..].
      * intros k' Hk' Hne. rewrite Hh in Hk'. apply elem_of_cons in Hk' as [->|Hk']; [done|].
        assert (Hin : k' ∈ held (inoKeyMap (t_lru t))) by (rewrite (b_keys _ (r_bal _ _ _ _ Hr)); cbn; rewrite Hk0; by right).
        destruct (r_held _ _ _ _ Hr k' Hin) as (id & b & Hs & Hb & Ha & Hi & Hc); [done|]. cbn [fst snd] in *. rewrite Hs'.
        destruct (decide (id = id0)) as [->|Hid].
        -- assert (b = b0) as -> by congruence. exists id0, (with_rb_blocks (delete k0 (rb_blocks b0)) b0). split_and!; try done.
           ++ rewrite list_lookup_insert_eq; [done|]. by apply lookup_lt_Some in Hb.
           ++ cbn. rewrite lookup_delete_ne; [done|]. by intros ->.
        -- exists id, b. split_and!; try done. by rewrite list_lookup_insert_ne.
      * intros id b Hb. apply list_lookup_insert_Some in Hb as [(<- & <- & _)|[_ Hb]]; [|by apply (r_blocks _ _ _ _ Hr id)].
        destruct (r_blocks _ _ _ _ Hr _ _ Hb0) as (Hi & HB & Hall). split; [done|]. split; [done|]. intros k' m Hm. apply Hall. cbn in Hm. by apply lookup_delete_Some in Hm as [_ Hm].
    + cbn [fst snd]. intros id b Hb. destruct (decide (id = id0)) as [->|Hid].
      * assert (b = b0) as -> by congruence. exists (delete k0 (rb_blocks b0)). rewrite list_lookup_insert_eq by (by apply lookup_lt_Some in Hb).
        split; [done|]. apply delete_subseteq.
      * exists (rb_blocks b). rewrite list_lookup_insert_ne by done. split; [|done]. rewrite Hb. by destruct b.
  - destruct (Hfree ltac:(lia)) as [-> Hh]. split_and!; [|done|cbn; rewrite Hh; left|].
    + split; cbn [fst snd]; [done|lia|apply (r_store _ _ _ _ Hr)| |apply (r_blocks _ _ _ _ Hr)].
      intros k' Hk' Hne. rewrite Hh in Hk'. apply elem_of_cons in Hk' as [->|Hk']; [done|]. rewrite Hs'. by apply (r_held _ _ _ _ Hr).
    + intros id b Hb. exists (rb_blocks b). split; [|done]. cbn [fst snd] in *. rewrite Hb. by destruct b.
Qed.

(** Buffers that differ in their blocks, their cursor and what they learnt of the
    reads. *)
Definition same_file (b b' : ReadBuffer) : Prop :=
  rb_ino b' = rb_ino b /\ rb_blockSize b' = rb_blockSize b /\ rb_alive b' = rb_alive b.

(** A block that is in the backend is put into a new block. *)
Lemma Cache_new (t : T) x c ino i B d :
  be_holds t x c -> (ino < 2 ^ 64)%N -> (i < 2 ^ 64)%N -> c !! (ino, i) = Some d -> Z.of_nat (length d) = B ->
  (Z.of_N i + 1) * B <= MaxInt ->
  exists t' x' m, Cache (NewMemBlock (NewBlockKey ino i) B, t) = (Ok tt, (m, t')) /\ be_holds t' x' c /\
    cached ino B c (NewBlockKey ino i) m i d.
Proof.
  intros Hh Hino Hi Hc Hl Hmax. destruct (be_read t x c ino i Hh Hino Hi) as (t' & x' & Hr & Hh'). rewrite Hc in Hr.
  unfold NewMemBlock, new_block. destruct (NewIntervalList_rep []) as (Li & h & E & _). rewrite E.
  eexists t', x', _. split; [|split; [exact Hh'|]].
  - unfold Cache, bind at 1, _doCache, bind at 1, get_block, gets. cbn [fst b_key]. unfold bind at 1, attempt, on_storage. cbn [fst snd]. rewrite Hr.
    cbn [blockSize]. rewrite Hl, Z.eqb_refl. unfold bind at 1, bind at 1, modify. cbn [fst snd]. rewrite own_reads. reflexivity.
  - split; try done.
Qed.

Lemma held_cached w x c id b k : reading None w x c -> w.2.1 !! id = Some b -> subs w.1 !! rb_ino b = Some [id] ->
  GetIno k = rb_ino b -> rb_blocks b !! k = None -> k ∉ held (inoKeyMap (t_lru w.1)).
Proof.
  intros Hr Hb Hs Hk Hn Hin. destruct (r_held _ _ _ _ Hr k Hin) as (id' & b' & Hs' & Hb' & _ & _ & Hc); [done|].
  rewrite Hk, Hs in Hs'. injection Hs' as <-. rewrite Hb in Hb'. injection Hb' as <-. rewrite Hn in Hc. by destruct Hc.
Qed.

Lemma get_buf_run w id b : w.2.1 !! id = Some b -> get_buf (L:=L) (T:=T) id w = (Ok b, w).
Proof. intros Hb. unfold get_buf, bind, gets. by rewrite Hb. Qed.

(** Changing a buffer other than by taking blocks away. *)
Lemma set_buf_reading but w x c id b f : reading but w x c -> w.2.1 !! id = Some b -> same_file b (f b) ->
  (forall k m, rb_blocks (f b) !! k = Some m -> exists i d, cached (rb_ino b) (rb_blockSize b) c k m i d) ->
  (forall k, is_Some (rb_blocks b !! k) -> is_Some (rb_blocks (f b) !! k)) ->
  set_buf id f w = (Ok tt, (w.1, (<[id := f b]> w.2.1, w.2.2))) /\ reading but (w.1, (<[id := f b]> w.2.1, w.2.2)) x c.
Proof.
  intros Hr Hb (Hi & HB & Ha) Hall Hk. destruct w as [t [bufs st]]. cbn [fst snd] in *. pose proof (lookup_lt_Some _ _ _ Hb) as Hlt. split.
  - unfold set_buf, modify. cbn [fst snd]. do 3 f_equal. apply list_eq. intros j. destruct (decide (j = id)) as [->|Hj].
    + by rewrite list_lookup_alter_eq, list_lookup_insert_eq, Hb by done.
    + by rewrite list_lookup_alter_ne, list_lookup_insert_ne by done.
  - destruct Hr as [H1 H2 H3 H4 H5]. cbn [fst snd] in *. split; cbn [fst snd]; try done.
    + intros k Hin Hne. destruct (H4 k Hin Hne) as (id' & b' & Hs & Hb' & Ha' & Hi' & Hc). destruct (decide (id = id')) as [<-|Hid].
      * rewrite Hb in Hb'. injection Hb' as <-. exists id, (f b). rewrite list_lookup_insert_eq by done. split_and!; try done; [congruence..|by apply Hk].
      * exists id', b'. by rewrite list_lookup_insert_ne.
    + intros id' b' Hb'. apply list_lookup_insert_Some in Hb' as [(<- & <- & _)|[_ Hb']]; [|by apply (H5 id')].
      rewrite Hi, HB. destruct (H5 _ _ Hb) as (Hx & Hy & _). done.
Qed.

(** A world that goes on with the file of buffer [id]. *)
Definition goes_on (id : nat) (b : ReadBuffer) c w' : Prop :=
  exists x' b', reading None w' x' c /\ w'.2.1 !! id = Some b' /\ same_file b b' /\ rb_monitor b' = rb_monitor b /\ subs w'.1 !! rb_ino b = Some [id].

Lemma reading_fill w x c k id b : reading (Some k) w x c -> w.2.1 !! id = Some b -> rb_alive b = true ->
  subs w.1 !! rb_ino b = Some [id] -> GetIno k = rb_ino b -> is_Some (rb_blocks b !! k) -> reading None w x c.
Proof.
  intros [H1 H2 H3 H4 H5] Hb Ha Hs Hk Hc. split; try done. intros k' Hin _. destruct (decide (k' = k)) as [->|Hne].
  - exists id, b. by rewrite Hk.
  - apply H4; [done|]. congruence.
Qed.

Lemma fetch_run w x c id b i d err :
  reading None w x c -> w.2.1 !! id = Some b -> rb_alive b = true -> subs w.1 !! rb_ino b = Some [id] ->
  (i < 2 ^ 64)%N -> c !! (rb_ino b, i) = Some d -> Z.of_nat (length d) = rb_blockSize b ->
  (Z.of_N i + 1) * rb_blockSize b <= MaxInt ->
  exists w' m, fetch id (rb_blockSize b) (NewBlockKey (rb_ino b) i) err w = (Ok (inl m), w') /\ goes_on id b c w' /\
    cached (rb_ino b) (rb_blockSize b) c (NewBlockKey (rb_ino b) i) m i d.
Proof.
  intros Hr Hb Ha Hs Hi Hc Hl Hmax. set (k := NewBlockKey (rb_ino b) i).
  destruct (r_blocks _ _ _ _ Hr id b Hb) as (Hino & HB & Hall). unfold fetch. erewrite bind_ok by (by apply get_buf_run).
  destruct (rb_blocks b !! k) as [m|] eqn:Em.
  - exists w, m. split; [done|]. split; [exists x, b; by split_and!|]. destruct (Hall _ _ Em) as (i' & d' & Hm).
    pose proof (ca_name _ _ _ _ _ _ _ Hm) as Hn. apply NewBlockKey_inj in Hn as [_ <-]. pose proof (ca_there _ _ _ _ _ _ _ Hm). congruence.
  - assert (Hk : GetIno k = rb_ino b) by (by apply GetIno_New).
    destruct (acquire_reading w x c k Hr (held_cached _ _ _ _ _ _ Hr Hb Hs Hk Em)) as (w1 & Hrun & Hr1 & Hs1 & _ & Hbufs).
    destruct (Hbufs id b Hb) as (bl & Hb1 & Hsub). erewrite bind_ok by exact Hrun. cbn [negb].
    destruct (Cache_new w1.2.2 x c (rb_ino b) i (rb_blockSize b) d) as (st2 & x2 & m & Hcache & Hh2 & Hm); [apply (r_store _ _ _ _ Hr1)|done..|].
    set (w2 := (w1.1, (w1.2.1, st2)) : world).
    assert (Hr2 : reading (Some k) w2 x2 c) by (destruct Hr1 as [? ? ? ? ?]; by split).
    erewrite bind_ok by (unfold on_blk; unfold k at 1; rewrite Hcache; reflexivity). cbn [snd]. rewrite (ca_err _ _ _ _ _ _ _ Hm).
    destruct (set_buf_reading (Some k) w2 x2 c id (with_rb_blocks bl b) (fun b => with_rb_blocks (<[k := m]> (rb_blocks b)) b)) as [Hset Hr3];
      [done|done|done|..].
    { intros k' m'. cbn. rewrite lookup_insert_Some. intros [[<- <-]|[_ Hm']]; [by exists i, d|]. apply Hall. by apply (lookup_weaken _ _ _ _ Hm'). }
    { intros k' Hk'. cbn in *. destruct (decide (k = k')) as [<-|Hne]; [by rewrite lookup_insert_eq; eexists|by rewrite lookup_insert_ne]. }
    eexists _, m. split; [erewrite bind_ok by exact Hset; reflexivity|]. split; [|done]. cbn [w2 fst snd] in *.
    pose proof (lookup_lt_Some _ _ _ Hb1) as Hlt. eexists x2, _. split_and!.
    + eapply (reading_fill _ _ _ k id); [exact Hr3|cbn; by apply list_lookup_insert_eq|done|cbn; by rewrite Hs1|done|cbn; rewrite lookup_insert_eq; by eexists].
    + cbn. by apply list_lookup_insert_eq.
    + done.
    + done.
    + cbn. by rewrite Hs1.
Qed.

(** ** The blocks of a read *)

Lemma ReadAt_cached (t : T) c ino B k m i d p s :
  cached ino B c k m i d -> (ino < 2 ^ 64)%N -> 0 <= s < B -> (0 < length p)%nat ->
  let n := Z.min (B - s) (Z.of_nat (length p)) in
  MemBlock.ReadAt p (Z.of_N i * B + s) (m, t) = (Ok (n, None, copy_into p (take (Z.to_nat n) (drop (Z.to_nat s) d))), (m, t)).
Proof.
  intros [Hk Hi Hmax Hc Hl Hkey Hsz Hh Hd Hsh He] Hino Hs Hp n. destruct (block_parts B i s ltac:(lia) Hi Hs) as [E1 E2].
  unfold MemBlock.ReadAt, bind, get_block, gets. cbn [fst]. rewrite Hkey, Hk, key_Split_New by done.
  rewrite Hsz, E1, N.eqb_refl. cbn [negb]. rewrite He, E2. unfold read_part, bind, gets, bytes. cbn [fst snd].
  rewrite Hsh, Hd, Hh, Hsz, block_limit by lia. cbn [default Datatypes.id]. unfold Datatypes.id.
  assert (B <= (Z.of_N i + 1) * B) by nia.
  replace (Z.min (Z.min B (s + Z.of_nat (length p))) ((Z.of_N i + 1) * B)) with (s + n) by lia.
  rewrite (proj2 (Z.leb_gt _ _)), (proj2 (Z.ltb_ge _ _)), (proj2 (Z.ltb_ge s 0)), (proj2 (Z.ltb_ge _ (s + n))) by lia. cbn [orb].
  unfold ret. by replace (s + n - s) with n by lia.
Qed.

(** One round, on a block that the backend has. *)
Lemma read_round w x c id b i d rounds p n s err :
  reading None w x c -> w.2.1 !! id = Some b -> rb_alive b = true -> subs w.1 !! rb_ino b = Some [id] ->
  (i < 2 ^ 64)%N -> c !! (rb_ino b, i) = Some d -> Z.of_nat (length d) = rb_blockSize b ->
  (Z.of_N i + 1) * rb_blockSize b <= MaxInt -> 0 <= s < rb_blockSize b -> 0 <= n < Z.of_nat (length p) ->
  let B := rb_blockSize b in
  let q := drop (Z.to_nat n) p in
  let r := Z.min (B - s) (Z.of_nat (length q)) in
  exists w', goes_on id b c w' /\
    read_blocks id B (S rounds) p n (Z.of_N i * B + s) (Z.of_N i) err w =
    read_blocks id B rounds (take (Z.to_nat n) p ++ copy_into q (take (Z.to_nat r) (drop (Z.to_nat s) d))) (n + r)
      (Z.of_N i * B + s + r) (Z.of_N i + 1) None w'.
Proof.
  intros Hr Hb Ha Hs Hi Hc Hl Hmax Hse Hn B q r. pose proof (r_blocks _ _ _ _ Hr id b Hb) as (Hino & HB & _).
  assert (Hq : (0 < length q)%nat) by (unfold q; rewrite length_drop; lia).
  destruct (fetch_run w x c id b i d err Hr Hb Ha Hs Hi Hc Hl Hmax) as (w1 & m & Hf & (x1 & b1 & Hr1 & Hb1 & (Hi1 & HB1 & Ha1) & Hm1 & Hs1) & Hm).
  pose proof (ReadAt_cached w1.2.2 c _ _ _ m i d q s Hm Hino Hse Hq) as Hread. cbv zeta in Hread. fold B r in Hread.
  assert (Hw1 : w1 = (w1.1, (w1.2.1, w1.2.2))) by (by destruct w1 as [? [? ?]]).
  set (k := NewBlockKey (rb_ino b) i) in *.
  destruct (set_buf_reading None w1 x1 c id b1 (fun b => with_rb_blocks (<[k := m]> (rb_blocks b)) b)) as [Hset2 Hr2]; [done..| | |].
  { intros k' m'. cbn. rewrite lookup_insert_Some. rewrite Hi1, HB1. intros [[<- <-]|[_ Hm']]; [by exists i, d|].
    rewrite <- Hi1, <- HB1. by apply (r_blocks _ _ _ _ Hr1 id b1 Hb1). }
  { intros k' Hk'. cbn. destruct (decide (k = k')) as [<-|Hne]; [by rewrite lookup_insert_eq; eexists|by rewrite lookup_insert_ne]. }
  set (b2 := with_rb_blocks _ b1) in *. set (w2 := (w1.1, (<[id := b2]> w1.2.1, w1.2.2)) : world) in *.
  assert (Hb2 : w2.2.1 !! id = Some b2) by (cbn; apply list_lookup_insert_eq; by apply lookup_lt_Some in Hb1).
  destruct (set_buf_reading None w2 x1 c id b2 (_updateReadCursor (Z.of_N i * B + s + r)) Hr2 Hb2) as [Hset3 Hr3]; [done| |done|].
  { by apply (r_blocks _ _ _ _ Hr2 id b2 Hb2). }
  eexists. split.
  - eexists x1, _. split; [exact Hr3|]. split; [cbn; apply list_lookup_insert_eq; by apply lookup_lt_Some in Hb2|]. by split_and!.
  - cbn [read_blocks]. erewrite bind_ok by (by apply get_buf_run). cbv zeta.
    assert (Hu : to_uint64 (Z.of_N i) = i).
    { unfold to_uint64. rewrite Z.mod_small; [apply N2Z.id|]. split; [lia|]. change (2 ^ 64) with (Z.of_N (2 ^ 64)). lia. }
    rewrite Hu. fold k. erewrite bind_ok by exact Hf. cbv beta iota. fold q. erewrite bind_ok by (unfold on_blk; rewrite Hread; reflexivity).
    cbv beta iota. rewrite <- Hw1. erewrite bind_ok by exact Hset2. fold w2. erewrite bind_ok by exact Hset3. reflexivity.
Qed.

(** The data [d] is in the backend under [ino], block by block; its offsets and the
    end of its last block are in the range of int64. *)
Definition has_file c (ino : N) (B : Z) (d : list byte) : Prop :=
  Z.of_nat (length d) + B <= MaxInt /\
  forall i, Z.of_N i * B < Z.of_nat (length d) -> c !! (ino, i) = Some (block_of B d i).

Lemma block_slice B (d : list byte) i s r :
  0 < B -> 0 <= s -> 0 <= r -> s + r <= B -> Z.of_N i * B + s + r <= Z.of_nat (length d) ->
  take (Z.to_nat r) (drop (Z.to_nat s) (block_of B d i)) = take (Z.to_nat r) (drop (Z.to_nat (Z.of_N i * B + s)) d).
Proof.
  intros HB Hs Hr Hsr Hl. unfold block_of. set (X := drop (Z.to_nat (Z.of_N i * B)) d).
  assert (HX : (Z.to_nat s + Z.to_nat r <= length (take (Z.to_nat B) X))%nat) by (unfold X; rewrite length_take, length_drop; lia).
  rewrite drop_app_le by lia. rewrite take_app_le by (rewrite length_drop; lia).
  rewrite skipn_firstn_comm, take_take, Nat.min_l by lia. unfold X. rewrite drop_drop. do 2 f_equal. lia.
Qed.
Lemma length_block_of B (d : list byte) i : 0 < B -> Z.of_nat (length (block_of B d i)) = B.
Proof. intros HB. unfold block_of, zeros. rewrite length_app, length_replicate, length_take. lia. Qed.

Lemma read_blocks_run rounds w c id b d p n off err :
  let B := rb_blockSize b in
  0 < B -> goes_on id b c w -> rb_alive b = true -> has_file c (rb_ino b) B d -> 0 <= n < Z.of_nat (length p) -> 0 <= off ->
  off + (Z.of_nat (length p) - n) <= Z.of_nat (length d) ->
  Z.of_nat rounds = (off + (Z.of_nat (length p) - n) - 1) / B - off / B + 1 ->
  exists w', goes_on id b c w' /\
    read_blocks id B rounds p n off (off / B) err w =
    (Ok (Z.of_nat (length p), None, take (Z.to_nat n) p ++ take (length p - Z.to_nat n) (drop (Z.to_nat off) d)), w').
Proof.
  intros B HB Hw Ha [Hmax Hf] Hn. revert w p n off err Hw Hn. induction rounds as [|rounds IH]; intros w p n off err Hw Hn Hoff Hlen Hrounds.
  { assert (off / B <= (off + (Z.of_nat (length p) - n) - 1) / B) by (apply Z.div_le_mono; lia). lia. }
  destruct Hw as (x & b0 & Hr & Hb0 & (Hi0 & HB0 & Ha0) & Hm0 & Hs). pose proof (Z.div_mod off B ltac:(lia)) as Hdm. pose proof (Z.mod_pos_bound off B HB) as Hmod.
  set (s := off mod B) in *. assert (Hq : 0 <= off / B) by (apply Z.div_pos; lia). set (i := Z.to_N (off / B)).
  assert (Hi : Z.of_N i = off / B) by (unfold i; lia). assert (Hoff' : off = Z.of_N i * B + s) by lia.
  assert (Hib : (i < 2 ^ 64)%N). { unfold MaxInt in Hmax. assert (Z.of_N i < 2 ^ 64) by nia. change (2 ^ 64)%N with (Z.to_N (2 ^ 64)). lia. }
  assert (Hlq : length (drop (Z.to_nat n) p) = (length p - Z.to_nat n)%nat) by apply length_drop.
  assert (Hcb : c !! (rb_ino b, i) = Some (block_of B d i)) by (apply Hf; lia).
  rewrite <- Hi0 in Hcb. destruct (read_round w x c id b0 i (block_of B d i) rounds p n s err) as (w' & Hw' & Hrun);
    [done|done|congruence|by rewrite Hi0|done|done|by rewrite HB0; apply length_block_of|rewrite HB0; fold B; lia|by rewrite HB0|done|].
  rewrite HB0 in Hrun. fold B in Hrun. rewrite <- Hoff' in Hrun. rewrite <- Hi. rewrite Hrun. clear Hrun.
  set (q := drop (Z.to_nat n) p) in *. set (r := Z.min (B - s) (Z.of_nat (length q))).
  assert (Hr0 : 0 < r) by lia. rewrite block_slice by lia. replace (Z.to_nat (Z.of_N i * B + s)) with (Z.to_nat off) by lia. set (src := take (Z.to_nat r) (drop (Z.to_nat off) d)).
  assert (Hsrc : length src = Z.to_nat r) by (unfold src; rewrite length_take, length_drop; lia).
  assert (Hgo : goes_on id b c w').
  { destruct Hw' as (x' & b' & ? & ? & (? & ? & ?) & ? & ?). exists x', b'. rewrite <- Hi0. unfold same_file in *. split_and!; try done; congruence. }
  assert (Hci : copy_into q src = src ++ drop (Z.to_nat r) q) by (unfold copy_into; rewrite take_ge by lia; by rewrite Hsrc).
  set (p' := take (Z.to_nat n) p ++ copy_into q src). assert (Hlp : length p' = length p).
  { unfold p'. rewrite Hci, !length_app, length_take, length_drop. lia. }
  destruct (Z.le_gt_cases (Z.of_nat (length q)) (B - s)) as [Hlast|Hmore].
  - assert (Hdiv : (off + (Z.of_nat (length p) - n) - 1) / B = off / B).
    { rewrite <- Hi. symmetry. apply (Z.div_unique_pos _ _ _ (s + (Z.of_nat (length p) - n) - 1)); lia. }
    assert (rounds = 0%nat) as -> by lia. exists w'. split; [done|]. cbn [read_blocks]. rewrite Hlp.
    rewrite (proj2 (Z.ltb_ge _ _)) by lia. unfold ret. f_equal. f_equal. f_equal; [f_equal; lia|]. unfold p'. rewrite Hci, drop_ge by lia.
    rewrite app_nil_r. f_equal. unfold src. f_equal. lia.
  - assert (Er : r = B - s) by lia. assert (Hd : (off + r) / B = Z.of_N i + 1).
    { symmetry. apply (Z.div_unique_pos _ _ _ 0); lia. }
    destruct (IH w' p' (n + r) (off + r) None Hgo) as (w'' & Hgo' & Hrun'); [rewrite Hlp; lia|lia|rewrite Hlp; lia|rewrite Hlp; rewrite Hd|].
    { replace (off + r + (Z.of_nat (length p) - (n + r)) - 1) with (off + (Z.of_nat (length p) - n) - 1) by lia. lia. }
    exists w''. split; [done|]. rewrite <- Hd, Hrun', Hlp. do 2 f_equal. f_equal.
    unfold p'. rewrite Hci. rewrite (app_assoc (take _ p)), take_app_le by (rewrite length_app, length_take; lia).
    rewrite take_ge by (rewrite length_app, length_take; lia). rewrite <- app_assoc. f_equal.
    replace (length p - Z.to_nat n)%nat with (Z.to_nat r + (length p - Z.to_nat (n + r)))%nat by lia. rewrite <- take_take_drop. unfold src. f_equal.
    rewrite drop_drop. do 2 f_equal. lia.
Qed.

Lemma indexRange_blocks B len off : 0 < B -> 0 < len -> 0 <= off -> indexRange B len off = (off / B, (off + len - 1) / B).
Proof.
  intros HB Hl Ho. unfold indexRange. rewrite !Z.quot_div_nonneg, Z.rem_mod_nonneg by lia. f_equal.
  pose proof (Z.div_mod (off + len) B ltac:(lia)) as Hdm. pose proof (Z.mod_pos_bound (off + len) B HB) as Hm.
  destruct (Z.eqb_spec ((off + len) mod B) 0) as [E|E]; rewrite E in * || idtac.
  - apply (Z.div_unique_pos _ _ _ (B - 1)); lia.
  - apply (Z.div_unique_pos _ _ _ ((off + len) mod B - 1)); lia.
Qed.

Lemma rb_Read_run w c id b d p off :
  goes_on id b c w -> rb_alive b = true -> 0 < rb_blockSize b -> has_file c (rb_ino b) (rb_blockSize b) d ->
  p <> [] -> 0 <= off -> off + Z.of_nat (length p) <= Z.of_nat (length d) ->
  let m := Monitor off (Z.of_nat (length p)) (rb_monitor b) in
  IsSequentialMode m = true \/ Throttler.IsFull w.1 = false ->
  exists w', rb_Read temp id p off w = (Ok (Z.of_nat (length p), None, take (length p) (drop (Z.to_nat off) d)), w') /\
    goes_on id (with_rb_monitor m b) c w'.
Proof.
  intros (x & b0 & Hr & Hb0 & (Hi0 & HB0 & Ha0) & Hm0 & Hs) Ha HB Hf Hp Hoff Hlen m Hmode.
  assert (Hlp : (0 < length p)%nat) by (destruct p; [done|cbn; lia]).
  destruct (set_buf_reading None w x c id b0 (with_rb_monitor m) Hr Hb0) as [Hset Hr1]; [done| |done|].
  { by apply (r_blocks _ _ _ _ Hr id b0 Hb0). }
  assert (Hgo : goes_on id (with_rb_monitor m b) c (w.1, (<[id := with_rb_monitor m b0]> w.2.1, w.2.2))).
  { exists x, (with_rb_monitor m b0). split_and!; try done. cbn. apply list_lookup_insert_eq. by apply lookup_lt_Some in Hb0. }
  assert (Hdiv : off / rb_blockSize b <= (off + Z.of_nat (length p) - 1) / rb_blockSize b) by (apply Z.div_le_mono; lia).
  assert (Hd0 : 0 <= off / rb_blockSize b) by (apply Z.div_pos; lia).
  destruct (read_blocks_run (Z.to_nat ((off + Z.of_nat (length p) - 1) / rb_blockSize b - off / rb_blockSize b + 1)) _ c id
    (with_rb_monitor m b) d p 0 off None HB Hgo Ha Hf ltac:(lia) Hoff ltac:(lia)) as (w' & Hw' & Hrun).
  { cbn. rewrite Z2Nat.id by lia. by rewrite Z.sub_0_r. }
  exists w'. split; [|done]. unfold rb_Read. rewrite (proj2 (Nat.eqb_neq _ 0)) by lia. erewrite bind_ok by (by apply get_buf_run).
  cbv zeta. rewrite Hm0. fold m. erewrite bind_ok by exact Hset. rewrite HB0, (proj2 (Z.eqb_neq _ _)) by lia. rewrite indexRange_blocks by lia.
  unfold bind at 1, gets. cbn [fst]. rewrite (proj2 (Z.ltb_ge _ _)) by lia.
  replace (negb (IsSequentialMode m) && Throttler.IsFull w.1) with false by (destruct Hmode as [-> | ->]; [done|by rewrite andb_false_r]).
  cbn [with_rb_monitor rb_blockSize] in Hrun. rewrite Hrun. cbn [take app]. by rewrite Nat.sub_0_r.
Qed.

(** C17 A read of an open file returns the bytes of the backend.  With one buffer per
    open file and the blocks in the buffers as they are in the backend, a read
    within the file fills the whole of the caller's buffer with the file's bytes at
    that offset, over any number of blocks, evicting blocks as the tokens run out;
    the client is then in such a state again.  Either the
    access pattern is sequential with this read, or some token is taken (a random
    read while all tokens are free goes past the buffer); the backend gives its readers bytes of their own; and the length of the
    file and one more block stay within int64. *)
Theorem Read_exact w x c id b d p off :
  reading None w x c -> w.2.1 !! id = Some b -> rb_alive b = true -> subs w.1 !! rb_ino b = Some [id] ->
  has_file c (rb_ino b) (rb_blockSize b) d -> p <> [] -> 0 <= off -> off + Z.of_nat (length p) <= Z.of_nat (length d) ->
  IsSequentialMode (Monitor off (Z.of_nat (length p)) (rb_monitor b)) = true \/ Throttler.IsFull w.1 = false ->
  exists w' x' b', rb_Read temp id p off w = (Ok (Z.of_nat (length p), None, take (length p) (drop (Z.to_nat off) d)), w') /\
    reading None w' x' c /\ w'.2.1 !! id = Some b' /\ same_file b b' /\ subs w'.1 !! rb_ino b = Some [id].
Proof.
  intros Hr Hb Ha Hs Hf Hp Hoff Hlen Hmode. assert (HB : 0 < rb_blockSize b) by (apply (r_blocks _ _ _ _ Hr id b Hb)).
  destruct (rb_Read_run w c id b d p off) as (w' & Hrun & x' & b' & Hr' & Hb' & Hsf & _ & Hs'); try done; [by exists x, b|]. by exists w', x', b'.
Qed.

(** C35 A read within one block is served from the buffer however old its block is: it
    returns the bytes [d] that the block was fetched with, whatever the backend has by
    now.  Nothing takes a block out of a buffer when the file is written.  The block
    has bytes of its own, and either the access pattern is sequential with this read
    or some token is taken. *)
Theorem Read_stale w c0 id b i d m p s :
  w.2.1 !! id = Some b -> (rb_ino b < 2 ^ 64)%N -> rb_blocks b !! NewBlockKey (rb_ino b) i = Some m ->
  cached (rb_ino b) (rb_blockSize b) c0 (NewBlockKey (rb_ino b) i) m i d ->
  0 <= s -> p <> [] -> s + Z.of_nat (length p) <= rb_blockSize b ->
  let off := Z.of_N i * rb_blockSize b + s in
  IsSequentialMode (Monitor off (Z.of_nat (length p)) (rb_monitor b)) = true \/ Throttler.IsFull w.1 = false ->
  (rb_Read temp id p off w).1 = Ok (Z.of_nat (length p), None, take (length p) (drop (Z.to_nat s) d)) /\
  (rb_Read temp id p off w).2.2.2 = w.2.2.
Proof.
  intros Hb Hino Hk Hm Hs Hp Hlen off Hmode. set (B := rb_blockSize b) in *. pose proof (ca_index _ _ _ _ _ _ _ Hm) as Hi.
  assert (Hlp : (0 < length p)%nat) by (destruct p; [done|cbn; lia]). set (mo := Monitor off (Z.of_nat (length p)) (rb_monitor b)) in *.
  assert (Hst : off / B = Z.of_N i) by (symmetry; apply (Z.div_unique_pos _ _ _ s); lia).
  assert (Hsp : (off + Z.of_nat (length p) - 1) / B = Z.of_N i) by (symmetry; apply (Z.div_unique_pos _ _ _ (s + Z.of_nat (length p) - 1)); lia).
  assert (Hset : set_buf id (with_rb_monitor mo) w = (Ok tt, (w.1, (<[id := with_rb_monitor mo b]> w.2.1, w.2.2)))).
  { unfold set_buf, modify. do 3 f_equal. apply list_eq. intros j. pose proof (lookup_lt_Some _ _ _ Hb). destruct (decide (j = id)) as [->|Hj].
    - by rewrite list_lookup_alter_eq, list_lookup_insert_eq, Hb by done.
    - by rewrite list_lookup_alter_ne, list_lookup_insert_ne by done. }
  enough (exists bufs, rb_Read temp id p off w = (Ok (Z.of_nat (length p), None, take (length p) (drop (Z.to_nat s) d)), (w.1, (bufs, w.2.2)))) as [bufs ->] by done.
  eexists. unfold rb_Read. rewrite (proj2 (Nat.eqb_neq _ 0)) by lia. erewrite bind_ok by (by apply get_buf_run). cbv zeta. fold mo B.
  erewrite bind_ok by exact Hset. rewrite (proj2 (Z.eqb_neq _ _)) by lia. rewrite indexRange_blocks by nia. rewrite Hst, Hsp.
  unfold bind at 1, gets. cbn [fst]. rewrite (proj2 (Z.ltb_ge _ _)) by lia.
  replace (negb (IsSequentialMode mo) && Throttler.IsFull w.1) with false by (destruct Hmode as [-> | ->]; [done|by rewrite andb_false_r]).
  replace (Z.to_nat (Z.of_N i - Z.of_N i + 1)) with 1%nat by lia. cbn [read_blocks].
  set (w1 := (w.1, (<[id := with_rb_monitor mo b]> w.2.1, w.2.2)) : world).
  assert (Hb1 : w1.2.1 !! id = Some (with_rb_monitor mo b)) by (cbn; apply list_lookup_insert_eq; by apply lookup_lt_Some in Hb).
  erewrite (bind_ok (get_buf id)) by (by apply get_buf_run). cbv zeta. cbn [with_rb_monitor rb_ino].
  assert (Hu : to_uint64 (Z.of_N i) = i).
  { unfold to_uint64. rewrite Z.mod_small; [apply N2Z.id|]. split; [lia|]. change (2 ^ 64) with (Z.of_N (2 ^ 64)). lia. }
  rewrite Hu. assert (Hf : fetch id B (NewBlockKey (rb_ino b) i) None w1 = (Ok (inl m), w1)).
  { unfold fetch. erewrite bind_ok by (by apply get_buf_run). cbn [with_rb_monitor rb_blocks]. by rewrite Hk. }
  erewrite (bind_ok (fetch _ _ _ _)) by exact Hf. cbv beta iota.
  pose proof (ReadAt_cached w1.2.2 c0 _ _ _ m i d p s Hm Hino ltac:(fold B; lia) Hlp) as Hread. cbv zeta in Hread. fold B off in Hread.
  cbn [Z.to_nat drop]. assert (Hon : on_blk m (MemBlock.ReadAt p off) w1 =
    (Ok ((Z.min (B - s) (Z.of_nat (length p)), None, copy_into p (take (Z.to_nat (Z.min (B - s) (Z.of_nat (length p)))) (drop (Z.to_nat s) d))), m), w1)).
  { unfold on_blk. rewrite Hread. done. }
  erewrite (bind_ok (on_blk _ _)) by exact Hon. cbv beta iota. rewrite Z.min_r by lia. rewrite Nat2Z.id.
  unfold bind, set_buf, modify, ret. cbn [fst snd take app length].
  assert (Hl : length (take (length p) (drop (Z.to_nat s) d)) = length p).
  { pose proof (ca_len _ _ _ _ _ _ _ Hm). rewrite length_take, length_drop. fold B in H. lia. }
  assert (Hc : copy_into p (take (length p) (drop (Z.to_nat s) d)) = take (length p) (drop (Z.to_nat s) d)).
  { unfold copy_into. by rewrite Hl, drop_all, app_nil_r, take_take, Nat.min_id. }
  rewrite Hc. change (take (Z.to_nat 0) p) with (@nil byte). cbn [app]. rewrite Hl, Z.add_0_l, (proj2 (Z.ltb_ge _ _)) by lia. reflexivity.
Qed.

(** ** Reading a whole file *)

(** Reads of the sizes [ns], each from where the one before ended, and the bytes of
    them. *)
Fixpoint rb_read_all (id : nat) (ns : list nat) (off : Z) : M world fault (list byte) :=
  match ns with
  | [] => ret []
  | n :: ns =>
      r <- rb_Read temp id (replicate n x00) off ;;
      rest <- rb_read_all id ns (off + Z.of_nat n) ;;
      ret (r.2 ++ rest)
  end.
Lemma rb_read_all_run ns w c id b d off :
  goes_on id b c w -> rb_alive b = true -> 0 < rb_blockSize b -> has_file c (rb_ino b) (rb_blockSize b) d ->
  Forall (fun n => (0 < n)%nat) ns -> 0 <= off -> off + Z.of_nat (sum_list ns) = Z.of_nat (length d) ->
  0 <= isSequentialCounter (rb_monitor b) -> lastStopOffset (rb_monitor b) = off ->
  exists w', rb_read_all id ns off w = (Ok (drop (Z.to_nat off) d), w').
Proof.
  revert w b off. induction ns as [|n ns IH]; intros w b off Hw Ha HB Hf Hns Hoff Hlen Hc Hlast.
  - exists w. cbn in *. rewrite drop_ge by lia. done.
  - apply Forall_cons in Hns as [Hn Hns]. change (sum_list (n :: ns)) with (n + sum_list ns)%nat in Hlen. destruct (rb_Read_run w c id b d (replicate n x00) off) as (w1 & Hr1 & Hgo1); try done.
    + by destruct n; [lia|].
    + rewrite length_replicate. lia.
    + left. unfold IsSequentialMode, Monitor. cbn. rewrite Hlast, Z.eqb_refl. apply Z.leb_le. destruct (_ <? _); lia.
    + rewrite length_replicate in Hr1, Hgo1. destruct (IH w1 _ (off + Z.of_nat n) Hgo1) as [w2 Hr2]; try done; [lia|lia| |].
      { unfold Monitor. cbn. rewrite Hlast, Z.eqb_refl. destruct (_ <? _); lia. }
      exists w2. cbn [rb_read_all]. erewrite bind_ok by exact Hr1. erewrite bind_ok by exact Hr2. unfold ret. do 2 f_equal. cbn [snd].
      replace (Z.to_nat (off + Z.of_nat n)) with (Z.to_nat off + n)%nat by lia. rewrite <- drop_drop. apply take_drop.
Qed.

(** A client that opens its first file. *)
Lemma open_goes_on (t0 : Throttler L) (st : T) x c n ino B ps lim ctx :
  NewThrottler n = Some t0 -> be_holds st x c -> (ino < 2 ^ 64)%N -> 0 < B <= MaxInt ->
  exists w b, NewDefaultBlockBuffer ino B ps lim ctx (t0, ([], st)) = (Ok 0%nat, w) /\ goes_on 0 b c w /\
    rb_alive b = true /\ rb_ino b = ino /\ rb_blockSize b = B /\ rb_monitor b = NewPattern.
Proof.
  intros Hn Hh Hino HB. destruct (NewThrottler_balanced n t0 Hn) as [Hb Hl]. unfold NewThrottler, NewBlockLRU in Hn.
  set (m := if n <=? 0 then 256 else n) in *. destruct (lru_make m) as [l|] eqn:E; [|done]. injection Hn as <-.
  unfold NewDefaultBlockBuffer, Register, set_thr, bind, gets, modify, ret. cbn [Datatypes.id fst snd length app].
  eexists _, (mkReadBuffer ino B ∅ NewPattern (NewSwapFile B ps lim ctx tt) 0 true false). split; [reflexivity|]. split; [|by split_and!]. eexists x, _. split_and!; try reflexivity.
  - split; cbn [fst snd].
    + destruct Hb. by split.
    + done.
    + done.
    + cbn. unfold held. rewrite map_to_list_empty. cbn. by intros k ?%not_elem_of_nil.
    + intros [|id] b; cbn; [|done]. intros [= <-]. cbn. split; [done|]. split; [done|]. intros k m0. by rewrite lookup_empty.
  - done.
  - cbn. apply lookup_insert_eq.
Qed.
End props.

(** * Writing a file and reading it *)

Section round_trip.
Context {L : Type} {LL : Lru L} {LS : LruSpec L}.
Context {T : Type} {SB : StorageBackend T} {BS : BackendSpec T} {OW : OwnReads T}.
Context (already_exists : error -> bool) (temp : bool) (range : gmap Z Block -> list (Z * Block)).
Context (B : Z) (limit : nat) (ino : N) (HB : 0 < B <= MaxInt) (Hino : (ino < 2 ^ 64)%N).
Context (Hroom : forall t x c d, be_holds t x c -> Z.of_nat (length d) = B -> IsAllBytesZero d = false -> be_can t x d).

(** C5 What is written is read back.  A file that was empty is streamed through the
    upload pipeline in pieces of any size and flushed, under any schedule of the
    uploaders; another client, with any number of tokens, then opens it over the same
    backend and reads it from its start to its end in pieces of any other sizes: it
    gets the bytes that were written.  No block of the file is all zeros; the length
    of the file and one more block stay within int64; the backend gives its readers
    bytes of their own, and it can store every block of that size that is not all
    zeros, whatever it has stored before (a gateway can only while its volumes have
    room). *)
Theorem upload_then_read c0 (chunks : list (list byte)) fuel (ns : list nat) tokens (t0 : Throttler L) ps lim ctx :
  (0 < limit)%nat -> (forall m, range m ≡ₚ map_to_list m) ->
  storable B (concat chunks) -> Z.of_nat (length (concat chunks)) + B <= MaxInt -> Forall (fun p => (length p <= fuel)%nat) chunks -> (forall i, c0 !! (ino, i) = None) ->
  NewThrottler tokens = Some t0 -> Forall (fun n => (0 < n)%nat) ns -> sum_list ns = length (concat chunks) ->
  returns (fun s => pipe B limit ino s ∅ ∅ c0 []) (write_chunks already_exists temp range fuel chunks 0 ;;; FlushAll already_exists range)
    (fun _ s => exists w', (id <- NewDefaultBlockBuffer ino B ps lim ctx ;; rb_read_all temp id ns 0)
       (t0, ([], storage (swapFile s))) = (Ok (concat chunks), w')).
Proof.
  intros Hl Hr Hz Hmax Hfuel Hc0 Ht Hns Hsum. eapply returns_conseq; [by eapply streams_returns|done|].
  intros [] s (c & Hp & [Hfile _]). destruct (p_backend _ _ _ _ _ _ _ _ Hp) as [x Hx].
  destruct (open_goes_on t0 (storage (swapFile s)) x c tokens ino B ps lim ctx Ht Hx Hino HB) as (w & b & Hopen & Hgo & Ha & Hi & HBb & Hm).
  erewrite bind_ok by exact Hopen. apply (rb_read_all_run temp ns w c 0 b (concat chunks) 0 Hgo Ha); try done.
  - rewrite HBb. lia.
  - rewrite Hi, HBb. split; [exact Hmax|]. intros i Hi'. rewrite Hfile. by rewrite decide_True.
  - cbn. by rewrite Hsum.
  - by rewrite Hm.
  - by rewrite Hm.
Qed.
End round_trip.

(** * Examples *)

(** The backend in memory with copies for its readers. *)
#[local] Instance copying : StorageBackend MemStorageBackend := {
  sb_Read := mem_Read;
  sb_Write := sb_Write (StorageBackend := MemStorageBackend_backend);
  sb_WriteAt := sb_WriteAt (StorageBackend := MemStorageBackend_backend);
  sb_Delete := mem_Delete;
  sb_Array _ _ := None;
  sb_Peek _ _ := [];
  sb_Poke _ _ b := b;
}.
#[local] Instance copying_own : OwnReads MemStorageBackend.
Proof. done. Qed.
#[local] Instance copying_spec (B : Z) : BackendSpec MemStorageBackend := {
  be_ghost := @be_ghost _ _ (sized_spec B);
  be_holds := @be_holds _ _ (sized_spec B);
  be_can := @be_can _ _ (sized_spec B);
  be_read := @be_read _ _ (sized_spec B);
  be_write := @be_write _ _ (sized_spec B);
  be_write_at := @be_write_at _ _ (sized_spec B);
}.

Definition two_bytes : MemStorageBackend := mkMemStorageBackend 2 {[NewBlockKey 7 0 := [x01; x02]]} {[7%N := [NewBlockKey 7 0]]}
  (mkArrays {[NewBlockKey 7 0 := 0%nat]} ∅ 1).
(** A client with two tokens that opened the file [7], over a backend. *)
Definition opened (st : MemStorageBackend) : Throttler list_lru * (list ReadBuffer * MemStorageBackend) :=
  (mkThrottler 2 2 2 (mkBlockLRU (mkListLru [] 2) ∅ 0 2) {[7%N := [0%nat]]} true false,
   ([mkReadBuffer 7 2 ∅ NewPattern (NewSwapFile 2 2 2 (mkPageContext 2 2 0 1) tt) 0 true false], st)).

Lemma opened_reading : reading (BS := copying_spec 2) None (opened two_bytes) tt {[(7%N, 0%N) := [x01; x02]]}.
Proof.
  split; cbn [opened fst snd].
  - split; try reflexivity.
    + done.
    + constructor.
    + intros ino ks. cbn. by rewrite lookup_empty.
  - done.
  - split; [|done]. split; [done|]. split.
    + intros ino i. cbn [two_bytes backed]. destruct (decide ((7%N, 0%N) = (ino, i))) as [E|E].
      * injection E as <- <-. by rewrite !lookup_singleton_eq.
      * rewrite !lookup_singleton_ne; try done. by intros [<- <-]%NewBlockKey_inj.
    + intros k d. rewrite lookup_singleton_Some. by intros [<- <-].
  - intros k Hk. exfalso. revert Hk. by apply not_elem_of_nil.
  - intros [|id] b; cbn; [|done]. intros [= <-]. cbn. split; [done|]. split; [unfold MaxInt; lia|]. intros k m. by rewrite lookup_empty.
Qed.

Lemma Read_exact_witness : exists w' x' b',
  rb_Read true 0 [x00; x00] 0 (opened two_bytes) = (Ok (2, None, [x01; x02]), w') /\
  reading (BS := copying_spec 2) None w' x' {[(7%N, 0%N) := [x01; x02]]} /\ w'.2.1 !! 0%nat = Some b'.
Proof.
  destruct (Read_exact (BS := copying_spec 2) true (opened two_bytes) tt {[(7%N, 0%N) := [x01; x02]]} 0
    (mkReadBuffer 7 2 ∅ NewPattern (NewSwapFile 2 2 2 (mkPageContext 2 2 0 1) tt) 0 true false) [x01; x02] [x00; x00] 0)
    as (w' & x' & b' & Hr & Hrd & Hb & _).
  - exact opened_reading.
  - reflexivity.
  - reflexivity.
  - reflexivity.
  - split; [unfold MaxInt; cbn; lia|]. intros i Hi. cbn in Hi. assert (i = 0%N) as -> by lia. reflexivity.
  - done.
  - lia.
  - cbn. lia.
  - left. reflexivity.
  - exists w', x', b'. split_and!; [exact Hr|exact Hrd|exact Hb].
Defined.

(** The client after its first read, and then the file is written by another. *)
Definition rewritten_file : MemStorageBackend := mkMemStorageBackend 2 {[NewBlockKey 7 0 := [x03; x04]]} {[7%N := [NewBlockKey 7 0]]}
  (mkArrays {[NewBlockKey 7 0 := 0%nat]} ∅ 1).
Definition after_read (st : MemStorageBackend) : Throttler list_lru * (list ReadBuffer * MemStorageBackend) :=
  let w := (rb_Read true 0 [x00; x00] 0 (opened two_bytes)).2 in (w.1, (w.2.1, st)).

Lemma Read_stale_witness :
  (rb_Read true 0 [x00; x00] 0 (after_read rewritten_file)).1 = Ok (2, None, [x01; x02]) /\
  sb_Read (NewBlockKey 7 0) rewritten_file = (Ok [x03; x04], rewritten_file).
Proof.
  split; [|reflexivity].
  destruct (after_read rewritten_file).2.1 as [|b l] eqn:E; [vm_compute in E; discriminate|].
  destruct (rb_blocks b !! NewBlockKey 7 0) as [m|] eqn:Em; [|vm_compute in E; injection E as <- <-; vm_compute in Em; discriminate].
  vm_compute in E. injection E as <- <-. vm_compute in Em. injection Em as <-.
  refine (proj1 (Read_stale true (after_read rewritten_file) {[(7%N, 0%N) := [x01; x02]]} 0 _ 0 [x01; x02] _ [x00; x00] 0 _ _ _ _ _ _ _ _)).
  - vm_compute. reflexivity.
  - reflexivity.
  - vm_compute. reflexivity.
  - split; vm_compute; (reflexivity || discriminate).
  - lia.
  - done.
  - vm_compute. discriminate.
  - left. vm_compute. reflexivity.
Defined.

Lemma upload_then_read_witness :
  returns (fun s => pipe (BS := copying_spec 4) 4 2 1 s ∅ ∅ ∅ [])
    (write_chunks never true map_to_list 3 [[x01; x02; x03]; [x04; x05]] 0 ;;; FlushAll never map_to_list)
    (fun _ s => exists w', (id <- NewDefaultBlockBuffer 1 4 2 2 (mkPageContext 2 2 0 1) ;; rb_read_all true id [1; 4]%nat 0)
       (mkThrottler 1 1 1 (mkBlockLRU (mkListLru [] 1) ∅ 0 1) ∅ true false, ([], storage (swapFile s))) =
       (Ok [x01; x02; x03; x04; x05], w')).
Proof.
  apply (upload_then_read (BS := copying_spec 4) never true map_to_list 4 2 1 ltac:(unfold MaxInt; lia) ltac:(lia) (sized_room 4)
    ∅ [[x01; x02; x03]; [x04; x05]] 3 [1; 4]%nat 1 _ 2 2 (mkPageContext 2 2 0 1) ltac:(lia) (fun m => reflexivity _)).
  - split; [vm_compute; discriminate|]. intros i Hi. cbn in Hi. assert (i = 0%N \/ i = 1%N) as [-> | ->] by lia; vm_compute; reflexivity.
  - unfold MaxInt. cbn. lia.
  - repeat constructor.
  - intros i. apply lookup_empty.
  - reflexivity.
  - repeat constructor.
  - reflexivity.
Defined.
