(* ===== verification/Tcp.v ===== *)
(** The TCP transport of src/pkg/tcp: the frames of requests and replies
    (protocol.go, client.go, server.go), the client with its table of pending
    calls, the loop that reads replies and the one that pings, and the server
    with its registered services.  The bodies are JSON, whose text encoding is a
    class. *)
From Stdlib Require Import Ascii Strings.Byte NArith ZArith Lia.
From stdpp Require Import prelude gmap strings list.
From S2P Require Import Prelude Store Hash.

#[export] Instance byte_eq_decision : EqDecision byte := Byte.byte_eq_dec.
#[export, refine] Instance byte_countable : Countable byte :=
  inj_countable' Byte.to_N (fun n => default x00 (Byte.of_N n)) _.
Proof. intros b. by rewrite Byte.of_to_N. Defined.

(** * JSON texts *)

(** [json.Marshal] and [Decoder.Decode] on the values of a body, as JSON sees them. *)
Class Json (V : Type) := {
  Marshal : V -> option (list byte);
  Decode : list byte -> option V }.
Class JsonSpec (V : Type) {J : Json V} := {
  Marshal_nonempty v bs : Marshal v = Some bs -> bs <> [];
  Decode_Marshal v bs : Marshal v = Some bs -> Decode bs = Some v }.

(** * Connections *)

(** The bytes still to be read, in the segments in which they arrive, and the
    writes so far.  After the last segment the peer has closed. *)
Record conn := mkConn { inbox : list (list byte); outbox : list (list byte); c_closed : bool }.
Definition EOF : error := ErrOther "EOF".
Definition ErrUnexpectedEOF : error := ErrOther "unexpected EOF".
Definition ErrNetClosed : error := ErrOther "use of closed network connection".

Definition with_inbox (l : list (list byte)) (c : conn) : conn := mkConn l (outbox c) (c_closed c).
Definition with_outbox (l : list (list byte)) (c : conn) : conn := mkConn (inbox c) l (c_closed c).
Definition with_c_closed (c : conn) : conn := mkConn (inbox c) (outbox c) true.

(** What is left of a segment. *)
Definition put_back (d : list byte) (l : list (list byte)) : list (list byte) := match d with [] => l | _ => d :: l end.
(** One read returns bytes of one segment. *)
Fixpoint read_some (n : nat) (l : list (list byte)) : option (list byte * list (list byte)) :=
  match l with
  | [] => None
  | [] :: l => read_some n l
  | c :: l => Some (take n c, put_back (drop n c) l)
  end.
(** The bytes read and whether they are [n]. *)
Fixpoint read_full (n : nat) (l : list (list byte)) : list byte * bool * list (list byte) :=
  match l with
  | [] => ([], (n =? 0)%nat, [])
  | c :: r =>
      if (n <=? length c)%nat then (take n c, true, put_back (drop n c) r)
      else let '(d, ok, r') := read_full (n - length c) r in (c ++ d, ok, r')
  end.

Abbreviation CM A := (M conn error A).

Definition conn_Read (n : nat) : CM (list byte) := fun c =>
  if c_closed c then (Err ErrNetClosed, c) else
  match read_some n (inbox c) with
  | Some (d, l) => (Ok d, with_inbox l c)
  | None => (Err EOF, with_inbox [] c)
  end.
Definition ReadFull (n : nat) : CM (list byte) := fun c =>
  if c_closed c then (Err ErrNetClosed, c) else
  let '(d, ok, l) := read_full n (inbox c) in
  (if ok then Ok d else Err (match d with [] => EOF | _ => ErrUnexpectedEOF end), with_inbox l c).
Definition conn_Write (d : list byte) : CM unit := fun c =>
  if c_closed c then (Err ErrNetClosed, c) else (Ok tt, with_outbox (outbox c ++ [d]) c).
Definition conn_Close : CM unit := fun c =>
  if c_closed c then (Err ErrNetClosed, c) else (Ok tt, with_c_closed c).
(** [errors.Wrap]. *)
Definition wrapping {S A} (m : M S error A) : M S error A := fun s =>
  match m s with
  | (Err e, s') => (Err (Wrapped e), s')
  | r => r
  end.

(** [errors.New(msg + err.Error())]. *)
Definition renamed {S A} (msg : string) (m : M S error A) : M S error A := fun s =>
  match m s with
  | (Err _, s') => (Err (ErrOther msg), s')
  | r => r
  end.

(** * Frames *)

Definition _seq : nat := 8.
Definition _serviceMethod : nat := _seq + 16.
Definition _length : nat := _serviceMethod + 4.
Definition _error : nat := _length + 100.
Definition _headerLen : nat := _error.
Definition _bodyLen : nat := 4.

(** Strings as their bytes. *)
Record ProtoHeader := mkHeader { Seq : N; ServiceMethod : list byte; BodyLength : N; h_Error : list byte }.

Definition getValidByteToString (src : list byte) : list byte := List.filter (fun v => negb (Byte.eqb v x00)) src.

(** [copy] into [n] zero bytes. *)
Definition padded (n : nat) (s : list byte) : list byte := take n s ++ replicate (n - length s) x00.
Definition slice (a b : nat) (l : list byte) : list byte := take (b - a) (drop a l).

(** What the readers of both sides make of a header, of which only the bytes of
    one read are there. *)
Definition parse_header (d : list byte) : ProtoHeader :=
  let buf := padded _headerLen d in
  mkHeader (be_word (slice 0 _seq buf)) (getValidByteToString (slice _seq _serviceMethod buf))
    (be_word (slice _serviceMethod _length buf)) (getValidByteToString (slice _length _error buf)).

Section codec.
Context {V : Type} {J : Json V}.

(** A message: its body and its block. *)
Record ProtoBuff := mkBuff { Body : option V; Block : list byte }.

(** ** The client's side *)

Definition client_writeRequestHeader (h : ProtoHeader) : CM unit :=
  conn_Write (be_bytes _seq (Seq h) ++ padded 16 (ServiceMethod h) ++ be_bytes 4 (BodyLength h) ++ replicate 100 x00).
Definition writeRequestBlockLen (len : nat) : CM unit := conn_Write (be_bytes 4 (N.of_nat len)).

(** What both sides write after the header. *)
Definition write_payload (bodyBs block : list byte) : CM unit :=
  conn_Write bodyBs ;;;
  writeRequestBlockLen (length block) ;;;
  match block with [] => ret tt | _ => conn_Write block end.

Definition WriteRequest (r : ProtoHeader) (buff : ProtoBuff) : CM unit :=
  match Body buff with
  | Some v =>
      match Marshal v with
      | None => throw (Wrapped ErrJson)
      | Some bs =>
          client_writeRequestHeader (mkHeader (Seq r) (ServiceMethod r) (wrap32 (N.of_nat (length bs))) (h_Error r)) ;;;
          write_payload bs (Block buff)
      end
  | None => client_writeRequestHeader r
  end.

Definition ReadResponseHeader : CM ProtoHeader :=
  d <- wrapping (conn_Read _headerLen) ;; ret (parse_header d).
(** What does not parse is no body. *)
Definition ReadResponseBody (len : nat) : CM (option V) :=
  d <- wrapping (ReadFull len) ;; ret (Decode d).
Definition ReadResponseBlockLen : CM nat :=
  d <- wrapping (ReadFull _bodyLen) ;; ret (N.to_nat (be_word d)).
Definition ReadResponseBlocks (len : nat) : CM (list byte) := wrapping (ReadFull len).

Definition readBody (bodylen : nat) : CM ProtoBuff :=
  if (bodylen =? 0)%nat then ret (mkBuff None []) else
  body <- renamed "reading body" (ReadResponseBody bodylen) ;;
  blocklen <- renamed "reading body" ReadResponseBlockLen ;;
  match body with
  | Some _ =>
      if (0 <? blocklen)%nat then
        block <- renamed "reading block" (ReadResponseBlocks blocklen) ;; ret (mkBuff body block)
      else ret (mkBuff body [])
  | None => ret (mkBuff None [])
  end.

(** ** The server's side *)

Definition readRequestBlockLen : CM nat :=
  d <- wrapping (ReadFull _bodyLen) ;; ret (N.to_nat (be_word d)).
Definition readRequestBody (len : nat) : CM V :=
  d <- wrapping (ReadFull len) ;;
  match Decode d with Some v => ret v | None => throw (Wrapped ErrJson) end.
Definition readRequestBlocks (len : nat) : CM (list byte) := wrapping (ReadFull len).

Definition server_writeRequestHeader (h : ProtoHeader) : CM unit :=
  conn_Write (be_bytes _seq (Seq h) ++ padded 16 (ServiceMethod h) ++ be_bytes 4 (BodyLength h) ++ padded 100 (h_Error h)).

Definition writeResponse (h : ProtoHeader) (buff : ProtoBuff) : CM unit :=
  match Body buff with
  | Some v =>
      match Marshal v with
      | None => throw (Wrapped ErrJson)
      | Some bs =>
          server_writeRequestHeader (mkHeader (Seq h) (ServiceMethod h) (wrap32 (N.of_nat (length bs))) (h_Error h)) ;;;
          match h_Error h with
          | [] => write_payload bs (Block buff)
          | _ => ret tt
          end
      end
  | None => server_writeRequestHeader h
  end.

(** The reply of a failed call is empty; an error of writing is logged. *)
Definition sendResponse (seq : N) (method : list byte) (reply : ProtoBuff) (errmsg : list byte) : CM unit :=
  let reply := match errmsg with [] => reply | _ => mkBuff None [] end in
  r <-? writeResponse (mkHeader seq method 0 errmsg) reply ;; ret tt.

(** ** Services *)

(** A service may return no message; [W] is what the services work on. *)
Definition handler (W : Type) : Type := ProtoBuff -> M W error (option ProtoBuff).
Abbreviation services W := (gmap (list byte) (handler W)).

Definition _pingMethod : list byte := String.list_byte_of_string "Inner.Ping".
Definition ping {W} : handler W := fun _ => ret (Some (mkBuff None [])).

Definition register {W} (name : list byte) (fn : handler W) : M (services W) error unit := fun s =>
  match s !! name with
  | Some _ => (Err (ErrOther "tcp: service already defined"), s)
  | None => (Ok tt, <[name := fn]> s)
  end.
(** The function calls itself to register the ping service; the third call finds
    that one there. *)
Fixpoint RegisterName_loop {W} (fuel : nat) (name : list byte) (fn : handler W) : M (services W) error unit :=
  match fuel with
  | O => go_panic
  | S fuel => register name fn ;;; RegisterName_loop fuel _pingMethod ping
  end.
Definition RegisterName {W} (name : list byte) (fn : handler W) : M (services W) error unit := RegisterName_loop 3 name fn.

(** The service and the header; an unknown method is an error. *)
Definition readRequestHeader {W} (s : services W) : CM (handler W * ProtoHeader) :=
  d <- wrapping (conn_Read _headerLen) ;;
  let h := parse_header d in
  match s !! ServiceMethod h with
  | Some svc => ret (svc, h)
  | None => throw (ErrOther "can't find service")
  end.

Definition readRequest {W} (s : services W) : CM (handler W * ProtoHeader * ProtoBuff) :=
  r <- readRequestHeader s ;;
  let '(svc, h) := r in
  if (0 <? BodyLength h)%N then
    v <- readRequestBody (N.to_nat (BodyLength h)) ;;
    blockLen <- readRequestBlockLen ;;
    if (0 <? blockLen)%nat then
      block <- readRequestBlocks blockLen ;; ret (svc, h, mkBuff (Some v) block)
    else ret (svc, h, mkBuff (Some v) [])
  else ret (svc, h, mkBuff None []).
End codec.
Arguments ProtoBuff V : clear implicits.
Arguments handler V W : clear implicits.
Abbreviation services V W := (gmap (list byte) (handler V W)).

(** * The client *)

Definition ErrShutdown : error := ErrOther "connection is shut down".
Definition ErrNoClient : error := ErrOther "no tcp client".
Definition ErrDeadline : error := ErrOther "tcp deadline".

Section client.
Context {V : Type} {J : Json V}.

(** A call; [c_id] tells calls apart. *)
Record Call := mkCall { c_id : nat; c_ServiceMethod : list byte; c_Args : ProtoBuff V }.

(** How a call ends: the text of an error of the server, an error of the client or
    the reply. *)
Inductive result :=
  | ServerError (msg : list byte)
  | Failed (e : error)
  | Replied (reply : ProtoBuff V).

(** The calls that were sent on their [Done] channels are [finished]. *)
Record client := mkClient {
  codec : conn;
  pending : gmap N Call;
  seq : N;
  closing : bool;
  shutdown : bool;
  finished : list (nat * result) }.

Definition with_codec (x : conn) (c : client) : client := mkClient x (pending c) (seq c) (closing c) (shutdown c) (finished c).
Definition with_pending (x : gmap N Call) (c : client) : client := mkClient (codec c) x (seq c) (closing c) (shutdown c) (finished c).
Definition with_seq (x : N) (c : client) : client := mkClient (codec c) (pending c) x (closing c) (shutdown c) (finished c).
Definition with_closing (c : client) : client := mkClient (codec c) (pending c) (seq c) true (shutdown c) (finished c).
Definition with_shutdown (c : client) : client := mkClient (codec c) (pending c) (seq c) (closing c) true (finished c).
Definition with_finished (x : list (nat * result)) (c : client) : client :=
  mkClient (codec c) (pending c) (seq c) (closing c) (shutdown c) x.

Abbreviation KM A := (M client error A).

Definition newClientWithCodec (c : conn) : client := mkClient c ∅ 0 false false [].
Definition on_codec {A} (m : M conn error A) : KM A := fun c => let '(r, x) := m (codec c) in (r, with_codec x c).

(** The channel of a call has room for one result, and nobody else sends on it. *)
Definition done (call : Call) (r : result) : KM unit :=
  modify (fun c => with_finished (finished c ++ [(c_id call, r)]) c).

(** The request is written under [reqMutex]; in between no reply can arrive for it. *)
Definition send (call : Call) : KM unit :=
  c <- gets Datatypes.id ;;
  if shutdown c || closing c then done call (Failed ErrShutdown) else
  let seq0 := seq c in
  modify (with_seq (wrap64 (seq0 + 1))) ;;;
  modify (with_pending (<[seq0 := call]> (pending c))) ;;;
  r <-? on_codec (WriteRequest (mkHeader seq0 (c_ServiceMethod call) 0 []) (c_Args call)) ;;
  match r with
  | inl _ => ret tt
  | inr e =>
      c <- gets Datatypes.id ;;
      modify (with_pending (delete seq0 (pending c))) ;;;
      match pending c !! seq0 with
      | Some call => done call (Failed (Wrapped e))
      | None => ret tt
      end
  end.

(** One round of [input]: the error that ends the loop. *)
Definition input_round : KM (option error) :=
  r <-? on_codec ReadResponseHeader ;;
  match r with
  | inr e => ret (Some e)
  | inl h =>
      c <- gets Datatypes.id ;;
      modify (with_pending (delete (Seq h) (pending c))) ;;;
      match pending c !! Seq h with
      | None =>
          r <-? on_codec (readBody (N.to_nat (BodyLength h))) ;;
          ret (match r with inr _ => Some (ErrOther "reading error body") | inl _ => None end)
      | Some call =>
          match h_Error h with
          | [] =>
              r <-? on_codec (readBody (N.to_nat (BodyLength h))) ;;
              match r with
              | inl reply => done call (Replied reply) ;;; ret None
              | inr e => done call (Failed e) ;;; ret (Some e)
              end
          | msg => done call (ServerError msg) ;;; ret None
          end
      end
  end.
(** The end of [input]: the pending calls fail, and stay in the table. *)
Definition input_end (err : error) : KM unit :=
  c <- gets Datatypes.id ;;
  let err := if bool_decide (err = EOF) then (if closing c then ErrShutdown else ErrUnexpectedEOF) else err in
  modify with_shutdown ;;;
  modify (fun c => with_finished (finished c ++ ((fun x => (c_id x.2, Failed err)) <$> map_to_list (pending c))) c).
(** A round, and the end after the last one. *)
Definition input : KM unit :=
  err <- input_round ;;
  match err with Some e => input_end e | None => ret tt end.

Definition client_Close : KM unit :=
  c <- gets Datatypes.id ;;
  if closing c then throw ErrShutdown else
  modify with_closing ;;; wrapping (on_codec conn_Close).

(** ** Pinging *)

(** What [Client] holds: nothing, the marker for no connection, or the connection
    with that number. *)
Inductive holder := Unset | ErrClient | Using (i : nat).

(** The pinging loop between two rounds: the connection it uses, with the error of
    the last ping, and what callers use. *)
Record pinger := mkPinger { p_client : option nat; p_err : option error; p_holder : holder }.

(** [Dial] starts with a connection or without. *)
Definition Dial (dialled : option nat) : pinger :=
  mkPinger dialled None (match dialled with Some i => Using i | None => Unset end).

(** A round of [ping] that is not told to quit: [dialled] is the result of dialling, if it
    dials, and [answer] the error of the ping, the deadline included.  The connection
    to be closed is the second result. *)
Definition ping_round (dialled : option nat) (answer : option error) (p : pinger) : pinger * option nat :=
  let dials := match p_client p, p_err p with Some _, None => false | _, _ => true end in
  match dials, dialled with
  | true, None => (mkPinger None (Some (ErrOther "dial")) (p_holder p), None)
  | _, _ =>
      let '(cl, h) := if dials then (dialled, match dialled with Some i => Using i | None => p_holder p end)
                      else (p_client p, p_holder p) in
      match answer with
      | None => (mkPinger cl None h, None)
      | Some e =>
          if bool_decide (e = ErrShutdown) || bool_decide (e = ErrUnexpectedEOF) || bool_decide (e = ErrDeadline)
          then (mkPinger cl (Some e) ErrClient, cl)
          else (mkPinger cl None h, None)
      end
  end.

(** The connection a caller gets. *)
Definition Client_Call (p : pinger) : error + nat :=
  match p_holder p with Using i => inr i | _ => inl ErrNoClient end.
End client.
Arguments Call V : clear implicits.
Arguments result V : clear implicits.
Arguments client V : clear implicits.

(** * The server *)

Section server.
Context {V : Type} {J : Json V}.
(** The text of an error, and that of a panic of a service. *)
Context (text : error -> list byte) (panic_text : list byte).
Context {W : Type}.

(** A service runs and its answer is written. *)
Definition service_call (svc : handler V W) (h : ProtoHeader) (arg : ProtoBuff V) : M (W * conn) error unit := fun s =>
  let respond w reply msg := let '(r, c) := sendResponse (Seq h) (ServiceMethod h) reply msg s.2 in (r, (w, c)) in
  match svc arg s.1 with
  | (Ok (Some reply), w) => respond w reply []
  | (Ok None, w) => respond w (mkBuff None []) []
  | (Err e, w) => respond w (mkBuff None []) (text e)
  | (Panic, w) => respond w (mkBuff None []) panic_text
  end.

(** A connection being served: the requests that were read and have not been
    answered, each with a goroutine of its own, and whether the loop goes on. *)
Record serving := mkServing {
  s_conn : conn;
  inflight : list (handler V W * ProtoHeader * ProtoBuff V);
  serving_on : bool }.

(** One round of serveCodec.  Any error ends it: a wrapped EOF is not EOF. *)
Definition serve_round (s : services V W) (x : serving) : serving :=
  if serving_on x then
    match readRequest s (s_conn x) with
    | (Ok r, c) => mkServing c (inflight x ++ [r]) true
    | (_, c) => mkServing (conn_Close c).2 (inflight x) false
    end
  else x.
End server.
Arguments serving V W : clear implicits.
