(* ===== verification/TcpProps.v ===== *)
(** What the TCP transport guarantees: frames round trip however the network cuts
    them, as long as a header comes in one piece; every call ends exactly once,
    with the reply of its own execution; and what goes wrong when a header is cut,
    a service is registered or a connection is lost. *)
From Stdlib Require Import Ascii Strings.Byte NArith ZArith Lia DecimalString DecimalN.
From stdpp Require Import prelude gmap strings list relations.
From S2P Require Import Prelude Store Hash Tcp.

(** * Frames *)

Definition text_ok (n : nat) (s : list byte) : Prop := (length s <= n)%nat /\ x00 ∉ s.

Lemma be_word_rev bs : be_word (rev bs) = le_value bs.
Proof.
  unfold be_word. induction bs as [|b bs IH]; [done|]. cbn [rev le_value]. rewrite foldl_app, IH. cbn. lia.
Qed.
Lemma be_word_bytes k n : (n < 256 ^ N.of_nat k)%N -> be_word (be_bytes k n) = n.
Proof. intros Hn. unfold be_bytes. by rewrite be_word_rev, le_value_bytes, N.mod_small. Qed.

Lemma getValid_text s : x00 ∉ s -> getValidByteToString s = s.
Proof.
  unfold getValidByteToString. induction s as [|b s IH]; [done|]. intros Hn. apply not_elem_of_cons in Hn as [Hb Hs]. cbn.
  destruct (Byte.eqb b x00) eqn:E; [apply Byte.byte_dec_bl in E; congruence|]. cbn. by rewrite IH.
Qed.
Lemma getValid_zeros n : getValidByteToString (replicate n x00) = [].
Proof. unfold getValidByteToString. induction n; [done|]. cbn. done. Qed.
Lemma getValid_padded n s : text_ok n s -> getValidByteToString (padded n s) = s.
Proof.
  intros [Hl Hn]. unfold padded. rewrite take_ge by done. unfold getValidByteToString. rewrite List.filter_app.
  fold (getValidByteToString s) (getValidByteToString (replicate (n - length s) x00)).
  by rewrite getValid_text, getValid_zeros, app_nil_r.
Qed.
Lemma length_padded n s : length (padded n s) = n.
Proof. unfold padded. rewrite length_app, length_take, length_replicate. lia. Qed.
Lemma padded_full n s : length s = n -> padded n s = s.
Proof. intros Hl. unfold padded. rewrite take_ge by lia. rewrite Hl, Nat.sub_diag. apply app_nil_r. Qed.

Lemma slice_app (x y z : list byte) a b : length x = a -> length y = (b - a)%nat -> slice a b (x ++ y ++ z) = y.
Proof. intros <- Hy. unfold slice. by rewrite drop_app_length, take_app_length'. Qed.

Definition header_bytes (h : ProtoHeader) : list byte :=
  be_bytes _seq (Seq h) ++ padded 16 (ServiceMethod h) ++ be_bytes 4 (BodyLength h) ++ padded 100 (h_Error h).
Definition header_ok (h : ProtoHeader) : Prop :=
  (Seq h < 2 ^ 64)%N /\ text_ok 16 (ServiceMethod h) /\ (BodyLength h < 2 ^ 32)%N /\ text_ok 100 (h_Error h).

Lemma length_header h : length (header_bytes h) = _headerLen.
Proof. unfold header_bytes. by rewrite !length_app, !length_be_bytes, !length_padded. Qed.

Lemma parse_header_bytes h : header_ok h -> parse_header (header_bytes h) = h.
Proof.
  intros (Hs & Hm & Hb & He). unfold parse_header. rewrite padded_full by apply length_header.
  unfold header_bytes. destruct h as [sq m bl e]. cbn [Seq ServiceMethod BodyLength h_Error] in *. f_equal.
  - rewrite <- (app_nil_l (be_bytes _seq sq ++ _)), slice_app by (by rewrite ?length_be_bytes). by apply be_word_bytes.
  - rewrite slice_app by (by rewrite ?length_be_bytes, ?length_padded). by apply getValid_padded.
  - rewrite app_assoc, slice_app by (by rewrite ?length_app, ?length_be_bytes, ?length_padded). by apply be_word_bytes.
  - rewrite !app_assoc. rewrite <- (app_nil_r (padded 100 e)).
    rewrite slice_app by (by rewrite ?length_app, ?length_be_bytes, ?length_padded). by apply getValid_padded.
Qed.

(** ** Reading *)

Lemma concat_put_back d l : concat (put_back d l) = d ++ concat l.
Proof. by destruct d. Qed.

Lemma read_full_concat n l :
  (n <= length (concat l))%nat -> exists l', read_full n l = (take n (concat l), true, l') /\ concat l' = drop n (concat l).
Proof.
  revert n. induction l as [|c l IH]; intros n Hn; cbn in *.
  - assert (n = 0)%nat as -> by lia. by exists [].
  - destruct (Nat.leb_spec n (length c)).
    + exists (put_back (drop n c) l). rewrite take_app_le, drop_app_le, concat_put_back by done. done.
    + rewrite length_app in Hn. destruct (IH (n - length c)%nat ltac:(lia)) as (l' & -> & E). exists l'.
      rewrite take_app_ge, drop_app_ge by lia. done.
Qed.

(** The stream [l] begins with the bytes [d], and [rest] follows. *)
Lemma ReadFull_concat d rest c :
  c_closed c = false -> concat (inbox c) = d ++ rest ->
  exists l, ReadFull (length d) c = (Ok d, with_inbox l c) /\ concat l = rest.
Proof.
  intros Hc E. destruct (read_full_concat (length d) (inbox c)) as (l & Hr & Hl); [rewrite E, length_app; lia|].
  rewrite E, take_app_length in Hr. rewrite E, drop_app_length in Hl.
  exists l. unfold ReadFull. by rewrite Hc, Hr.
Qed.

(** The next read returns at least the header. *)
Definition header_whole (l : list (list byte)) : Prop := exists c r, l = c :: r /\ (_headerLen <= length c)%nat.

Lemma conn_Read_header h rest c :
  c_closed c = false -> header_whole (inbox c) -> concat (inbox c) = header_bytes h ++ rest ->
  exists l, conn_Read _headerLen c = (Ok (header_bytes h), with_inbox l c) /\ concat l = rest.
Proof.
  intros Hc (d & r & E & Hd) Hcat. rewrite E in Hcat. cbn [concat] in Hcat.
  assert (Ht : take _headerLen d = header_bytes h).
  { apply (f_equal (take _headerLen)) in Hcat. rewrite (take_app_le d) in Hcat by done.
    by rewrite Hcat, take_app_length' by (by rewrite length_header). }
  exists (put_back (drop _headerLen d) r). unfold conn_Read. rewrite Hc, E.
  destruct d as [|a d']; [by cbn in Hd; unfold _headerLen, _error, _length, _serviceMethod, _seq in Hd; lia|].
  cbn [read_some]. rewrite Ht. split; [done|]. rewrite concat_put_back.
  apply (f_equal (drop _headerLen)) in Hcat. rewrite (drop_app_le (a :: d')) in Hcat by done.
  by rewrite Hcat, drop_app_length' by (by rewrite length_header).
Qed.

(** * Messages *)

Section messages.
Context {V : Type} {J : Json V} {JS : JsonSpec V}.

(** A message can be put into a frame. *)
Definition fits (b : ProtoBuff V) (bs : list byte) : Prop :=
  match Body b with
  | Some v => Marshal v = Some bs /\ (N.of_nat (length bs) < 2 ^ 32)%N /\ (N.of_nat (length (Block b)) < 2 ^ 32)%N
  | None => bs = [] /\ Block b = []
  end.

(** The segments of a message after its header. *)
Definition payload (b : ProtoBuff V) (bs : list byte) : list (list byte) :=
  match Body b with
  | Some _ => [bs; be_bytes 4 (N.of_nat (length (Block b)))] ++ match Block b with [] => [] | d => [d] end
  | None => []
  end.
Definition frame (sq : N) (method : list byte) (err : list byte) (b : ProtoBuff V) (bs : list byte) : list (list byte) :=
  header_bytes (mkHeader sq method (N.of_nat (length bs)) err) :: payload b bs.

Lemma conn_Write_ok d c : c_closed c = false -> conn_Write d c = (Ok tt, with_outbox (outbox c ++ [d]) c).
Proof. intros Hc. unfold conn_Write. by rewrite Hc. Qed.

Lemma write_payload_ok b v bs c :
  Body b = Some v -> c_closed c = false ->
  write_payload bs (Block b) c = (Ok tt, with_outbox (outbox c ++ payload b bs) c).
Proof.
  intros Hv Hc. unfold write_payload, writeRequestBlockLen, bind, payload. rewrite Hv. rewrite conn_Write_ok by done.
  rewrite conn_Write_ok by done. destruct (Block b) as [|x d]; cbn -[be_bytes].
  - by rewrite <- app_assoc.
  - rewrite conn_Write_ok by done. cbn -[be_bytes]. by rewrite <- !app_assoc.
Qed.

Lemma wrap32_small n : (n < 2 ^ 32)%N -> wrap32 n = n.
Proof. intros. by apply N.mod_small. Qed.

Lemma WriteRequest_ok sq method b bs c :
  fits b bs -> c_closed c = false ->
  WriteRequest (mkHeader sq method 0 []) b c = (Ok tt, with_outbox (outbox c ++ frame sq method [] b bs) c).
Proof.
  intros Hf Hc. unfold WriteRequest, fits, frame in *. destruct (Body b) as [v|] eqn:Hv.
  - destruct Hf as (Hm & Hl & _). rewrite Hm, wrap32_small by done. unfold client_writeRequestHeader, bind.
    rewrite conn_Write_ok by done. rewrite (write_payload_ok b v) by done. cbn [outbox with_outbox Seq ServiceMethod BodyLength].
    by rewrite <- app_assoc.
  - destruct Hf as [-> _]. unfold client_writeRequestHeader. rewrite conn_Write_ok by done. unfold payload. by rewrite Hv.
Qed.

Lemma writeResponse_ok sq method b bs c :
  fits b bs -> c_closed c = false ->
  writeResponse (mkHeader sq method 0 []) b c = (Ok tt, with_outbox (outbox c ++ frame sq method [] b bs) c).
Proof.
  intros Hf Hc. unfold writeResponse, fits, frame in *. destruct (Body b) as [v|] eqn:Hv.
  - destruct Hf as (Hm & Hl & _). rewrite Hm, wrap32_small by done. unfold server_writeRequestHeader, bind. cbn [h_Error].
    rewrite conn_Write_ok by done. rewrite (write_payload_ok b v) by done. cbn [outbox with_outbox Seq ServiceMethod BodyLength h_Error].
    by rewrite <- app_assoc.
  - destruct Hf as [-> _]. unfold server_writeRequestHeader. rewrite conn_Write_ok by done. unfold payload. by rewrite Hv.
Qed.

(** The segments [ds] are read one after the other. *)
Fixpoint reads (c : conn) (ds : list (list byte)) (c' : conn) : Prop :=
  match ds with
  | [] => c' = c
  | d :: ds => exists c1, ReadFull (length d) c = (Ok d, c1) /\ reads c1 ds c'
  end.

Lemma reads_concat ds rest c :
  c_closed c = false -> concat (inbox c) = concat ds ++ rest ->
  exists l, reads c ds (with_inbox l c) /\ concat l = rest.
Proof.
  revert c. induction ds as [|d ds IH]; intros c Hc E; cbn [reads concat] in *.
  - exists (inbox c). split; [by destruct c | done].
  - rewrite <- app_assoc in E. destruct (ReadFull_concat _ _ c Hc E) as (l1 & E1 & H1).
    destruct (IH (with_inbox l1 c) Hc H1) as (l & Hr & Hl). exists l. split; [|done]. by exists (with_inbox l1 c).
Qed.
Lemma be_word_len (d : list byte) : (N.of_nat (length d) < 2 ^ 32)%N -> N.to_nat (be_word (be_bytes 4 (N.of_nat (length d)))) = length d.
Proof. intros H. rewrite be_word_bytes by done. lia. Qed.

Lemma payload_reads b v bs c c' :
  Body b = Some v -> reads c (payload b bs) c' ->
  exists c1 c2, ReadFull (length bs) c = (Ok bs, c1) /\
    ReadFull _bodyLen c1 = (Ok (be_bytes 4 (N.of_nat (length (Block b)))), c2) /\
    match Block b with [] => c' = c2 | d => ReadFull (length d) c2 = (Ok d, c') end.
Proof.
  intros Hv. unfold payload. rewrite Hv. cbn [app reads]. intros (c1 & E1 & c2 & E2 & H). rewrite length_be_bytes in E2.
  exists c1, c2. split_and!; [done.. |]. destruct (Block b); [done|]. by destruct H as (c3 & E3 & ->).
Qed.

Lemma readBody_ok b bs c c' : fits b bs -> reads c (payload b bs) c' -> readBody (length bs) c = (Ok b, c').
Proof.
  intros Hf Hr. destruct (Body b) as [v|] eqn:Hv.
  - destruct (payload_reads b v bs c c' Hv Hr) as (c1 & c2 & E1 & E2 & E3).
    unfold fits in Hf. rewrite Hv in Hf. destruct Hf as (Hm & Hl & Hbl).
    unfold readBody. destruct (length bs) as [|n] eqn:En; [by destruct bs; [apply Marshal_nonempty in Hm|]|]. cbn [Nat.eqb].
    unfold ReadResponseBody, ReadResponseBlockLen, renamed, wrapping, bind. rewrite E1, (Decode_Marshal _ _ Hm). cbn [ret].
    rewrite E2. cbn [ret]. rewrite be_word_len by done. destruct b as [body blk]. cbn [Body Block] in *. subst body.
    destruct blk as [|x d]; cbn [length Nat.ltb Nat.leb].
    + by rewrite E3.
    + unfold ReadResponseBlocks, wrapping. change (S (length d)) with (length (x :: d)). by rewrite E3.
  - unfold fits, payload in *. rewrite Hv in *. destruct Hf as [-> Hb]. destruct b as [body blk]. cbn in *. by subst.
Qed.

Lemma fits_len b bs : fits b bs -> (N.of_nat (length bs) < 2 ^ 32)%N.
Proof. unfold fits. destruct (Body b); [by intros (_ & ? & _) | by intros [-> _]]. Qed.
Lemma header_ok_frame sq method b bs : fits b bs -> (sq < 2 ^ 64)%N -> text_ok 16 method -> header_ok (mkHeader sq method (N.of_nat (length bs)) []).
Proof. intros Hf Hs Hm. split_and!; [done | done | by eapply fits_len | split; [cbn; lia | apply not_elem_of_nil]]. Qed.

Lemma readRequest_ok {W} (s : services V W) svc sq method b bs c c1 c' :
  fits b bs -> (sq < 2 ^ 64)%N -> text_ok 16 method -> s !! method = Some svc ->
  conn_Read _headerLen c = (Ok (header_bytes (mkHeader sq method (N.of_nat (length bs)) [])), c1) -> reads c1 (payload b bs) c' ->
  readRequest s c = (Ok (svc, mkHeader sq method (N.of_nat (length bs)) [], b), c').
Proof.
  intros Hf Hsq Hm Hs E1 Hr. unfold readRequest, readRequestHeader, wrapping at 1. unfold bind at 1 2. rewrite E1.
  rewrite parse_header_bytes by (by eapply header_ok_frame). cbn [ServiceMethod BodyLength]. rewrite Hs. cbn [ret ServiceMethod BodyLength].
  destruct (Body b) as [v|] eqn:Hv.
  - destruct (payload_reads b v bs c1 c' Hv Hr) as (c2 & c3 & E2 & E3 & E4).
    unfold fits in Hf. rewrite Hv in Hf. destruct Hf as (Hma & Hl & Hbl).
    assert (Hne : bs <> []) by (by eapply Marshal_nonempty). rewrite (proj2 (N.ltb_lt _ _)) by (destruct bs; [done | cbn; lia]).
    unfold readRequestBody, readRequestBlockLen, wrapping, bind. rewrite Nat2N.id, E2, (Decode_Marshal _ _ Hma). cbn [ret].
    rewrite E3. cbn [ret]. rewrite be_word_len by done. destruct b as [body blk]. cbn [Body Block] in *. subst body.
    destruct blk as [|x d]; cbn [length Nat.ltb Nat.leb].
    + by rewrite E4.
    + unfold readRequestBlocks, wrapping. change (S (length d)) with (length (x :: d)). by rewrite E4.
  - unfold fits, payload in *. rewrite Hv in *. destruct Hf as [-> Hb]. destruct b as [body blk]. cbn in Hv, Hb, Hr. by subst.
Qed.
End messages.

(** * One client and one server *)

Section rpc.
Context {V : Type} {J : Json V} {JS : JsonSpec V} {W : Type}.
Context (text : error -> list byte) (panic_text : list byte) (svcs : services V W).

(** What the caller of a service sees of its outcome. *)
Definition seen (o : outcome error (option (ProtoBuff V))) : result V :=
  match o with
  | Ok (Some reply) => Replied reply
  | Ok None => Replied (mkBuff None [])
  | Err e => ServerError (text e)
  | Panic => ServerError panic_text
  end.

(** A client and a server with a connection that stays open.  The queues of the
    client's connection are the two streams: what is written is appended, and a
    reader may find the bytes of its stream in any pieces, however they were
    written, as long as the first piece has the header it is about to read
    ([header_cut_misread] is about the other case).  Besides there are the
    requests being served, what the services work on, and two records: the calls
    made and the executions with what they returned. *)
Record sys := mkSys {
  cl : client V;
  flying : list (handler V W * ProtoHeader * ProtoBuff V);
  world : W;
  issued : list (Call V);
  ran : list (nat * ProtoBuff V * result V) }.

Definition c2s (x : sys) : list (list byte) := outbox (codec (cl x)).
Definition s2c (x : sys) : list (list byte) := inbox (codec (cl x)).
Definition with_queues (i o : list (list byte)) (c : client V) : client V := with_codec (mkConn i o (c_closed (codec c))) c.

(** The pieces [l] in which the stream [q] may be found. *)
Definition pieces (q l : list (list byte)) : Prop := concat l = concat q /\ header_whole l.

Inductive work : sys -> sys -> Prop :=
  | Serve x l r c : pieces (c2s x) l -> readRequest svcs (mkConn l [] false) = (Ok r, c) ->
      work x (mkSys (with_queues (s2c x) (inbox c) (cl x)) (flying x ++ [r]) (world x) (issued x) (ran x))
  | Run x i svc h arg o w c : flying x !! i = Some (svc, h, arg) ->
      service_call text panic_text svc h arg (world x, mkConn [] (s2c x) false) = (o, (w, c)) ->
      work x (mkSys (with_queues (outbox c) (c2s x) (cl x)) (delete i (flying x)) w (issued x)
        (ran x ++ [(N.to_nat (Seq h), arg, seen (svc arg (world x)).1)]))
  | Input x l : pieces (s2c x) l -> work x (mkSys (input (with_queues l (c2s x) (cl x))).2 (flying x) (world x) (issued x) (ran x)).
Inductive sys_step : sys -> sys -> Prop :=
  | Sends x method b bs : is_Some (svcs !! method) -> fits b bs -> text_ok 16 method -> (seq (cl x) + 1 < 2 ^ 64)%N ->
      let call := mkCall (N.to_nat (seq (cl x))) method b in
      sys_step x (mkSys (send call (cl x)).2 (flying x) (world x) (issued x ++ [call]) (ran x))
  | Works x x' : work x x' -> sys_step x x'.

Definition sys_init (w : W) : sys := mkSys (newClientWithCodec (mkConn [] [] false)) [] w [] [].

(** Every service answers a message that fits with one that fits, and texts of
    errors fit too. *)
Definition services_ok : Prop :=
  forall m svc arg bs w reply w', svcs !! m = Some svc -> fits arg bs -> svc arg w = (Ok (Some reply), w') -> exists bs', fits reply bs'.
Definition texts_ok : Prop := (forall e, text_ok 100 (text e) /\ text e <> []) /\ text_ok 100 panic_text /\ panic_text <> [].
Context (Hsvcs : services_ok) (Htexts : texts_ok).

(** ** The invariant *)

Definition answers (q : nat) (m : list byte) (r : result V) (l : list (list byte)) : Prop :=
  match r with
  | Replied b => exists bs, fits b bs /\ l = frame (N.of_nat q) m [] b bs
  | ServerError msg => text_ok 100 msg /\ msg <> [] /\ l = [header_bytes (mkHeader (N.of_nat q) m 0 msg)]
  | Failed _ => False
  end.

(** The requests and the replies on the way. *)
Inductive requests (calls : list (Call V)) : list nat -> list (list byte) -> Prop :=
  | no_requests : requests calls [] []
  | one_request q m b bs qs l : calls !! q = Some (mkCall q m b) -> is_Some (svcs !! m) -> text_ok 16 m -> fits b bs ->
      requests calls qs l -> requests calls (q :: qs) (frame (N.of_nat q) m [] b bs ++ l).
Inductive replies (calls : list (Call V)) (rn : list (nat * ProtoBuff V * result V)) : list nat -> list (list byte) -> Prop :=
  | no_replies : replies calls rn [] []
  | one_reply q m b r l0 qs l : calls !! q = Some (mkCall q m b) -> text_ok 16 m -> (q, b, r) ∈ rn -> answers q m r l0 ->
      replies calls rn qs l -> replies calls rn (q :: qs) (l0 ++ l).
Definition served (calls : list (Call V)) (q : nat) (f : handler V W * ProtoHeader * ProtoBuff V) : Prop :=
  exists m b bs n, calls !! q = Some (mkCall q m b) /\ svcs !! m = Some f.1.1 /\ text_ok 16 m /\ fits b bs /\
    f = (f.1.1, mkHeader (N.of_nat q) m n [], b).

Record sys_inv (x : sys) (qs fs rs : list nat) : Prop := {
  si_open : c_closed (codec (cl x)) = false /\ closing (cl x) = false /\ shutdown (cl x) = false;
  si_seq : seq (cl x) = N.of_nat (length (issued x)) /\ (seq (cl x) < 2 ^ 64)%N;
  si_requests : exists l, requests (issued x) qs l /\ concat l = concat (c2s x);
  si_flying : Forall2 (served (issued x)) fs (flying x);
  si_replies : exists l, replies (issued x) (ran x) rs l /\ concat l = concat (s2c x);
  si_pending q : pending (cl x) !! q = (if decide (N.to_nat q ∈ qs ++ fs ++ rs) then issued x !! N.to_nat q else None);
  si_all : qs ++ fs ++ rs ++ (finished (cl x)).*1 ≡ₚ List.seq 0 (length (issued x));
  si_ran : (ran x).*1.*1 ≡ₚ rs ++ (finished (cl x)).*1;
  si_finished id r : (id, r) ∈ finished (cl x) -> exists call, issued x !! id = Some call /\ (id, c_Args call, r) ∈ ran x }.

Lemma requests_more calls more qs l : requests calls qs l -> requests (calls ++ more) qs l.
Proof. induction 1; econstructor; eauto using lookup_app_l_Some. Qed.
Lemma requests_snoc calls qs l q m b bs :
  requests calls qs l -> calls !! q = Some (mkCall q m b) -> is_Some (svcs !! m) -> text_ok 16 m -> fits b bs ->
  requests calls (qs ++ [q]) (l ++ frame (N.of_nat q) m [] b bs).
Proof.
  intros Hr Hc Hs Hm Hf. induction Hr as [|q' m' b' bs' qs l Hc' Hs' Hm' Hf' Hr IH].
  - cbn. rewrite <- (app_nil_r (frame _ _ _ _ _)). econstructor; eauto. constructor.
  - cbn [app]. rewrite <- app_assoc. econstructor; eauto.
Qed.
Lemma replies_more calls more rn rn' qs l : replies calls rn qs l -> replies (calls ++ more) (rn ++ rn') qs l.
Proof. induction 1; econstructor; eauto using lookup_app_l_Some. apply elem_of_app. by left. Qed.
Lemma replies_snoc calls rn qs l q m b r l0 :
  replies calls rn qs l -> calls !! q = Some (mkCall q m b) -> text_ok 16 m -> (q, b, r) ∈ rn -> answers q m r l0 ->
  replies calls rn (qs ++ [q]) (l ++ l0).
Proof.
  intros Hr Hc Hm Hin Ha. induction Hr as [|q' m' b' r' l0' qs l Hc' Hm' Hin' Ha' Hr IH].
  - cbn. rewrite <- (app_nil_r l0). econstructor; eauto. constructor.
  - cbn [app]. rewrite <- app_assoc. econstructor; eauto.
Qed.
Lemma served_more calls more q f : served calls q f -> served (calls ++ more) q f.
Proof. intros (m & b & bs & n & Hc & H). exists m, b, bs, n. split; [by apply lookup_app_l_Some | done]. Qed.

Lemma send_ok call c bs :
  shutdown c = false -> closing c = false -> c_closed (codec c) = false -> fits (c_Args call) bs ->
  send call c = (Ok tt, mkClient (with_outbox (outbox (codec c) ++ frame (seq c) (c_ServiceMethod call) [] (c_Args call) bs) (codec c))
    (<[seq c := call]> (pending c)) (wrap64 (seq c + 1)) false false (finished c)).
Proof.
  intros Hs Hcl Ho Hf. unfold send, bind at 1, gets, Datatypes.id. rewrite Hs, Hcl. cbn [orb].
  unfold bind, modify, catch, on_codec. cbn [codec with_pending with_seq pending]. rewrite (WriteRequest_ok _ _ _ bs) by done.
  unfold ret, with_codec. cbn. by rewrite Hs, Hcl.
Qed.

Lemma sends_inv x qs fs rs method b bs :
  sys_inv x qs fs rs -> is_Some (svcs !! method) -> fits b bs -> text_ok 16 method -> (seq (cl x) + 1 < 2 ^ 64)%N ->
  let call := mkCall (N.to_nat (seq (cl x))) method b in
  sys_inv (mkSys (send call (cl x)).2 (flying x) (world x) (issued x ++ [call]) (ran x)) (qs ++ [N.to_nat (seq (cl x))]) fs rs.
Proof.
  intros [(Ho & Hcl & Hsh) (Hsq & Hlt) (lq & Hq & Elq) Hf (lr & Hr & Elr) Hp Ha Hran Hfin] Hs Hfit Hm Hb call.
  set (n := length (issued x)) in *. assert (Hn : N.to_nat (seq (cl x)) = n) by lia.
  rewrite (send_ok call (cl x) bs) by done. cbn [snd].
  assert (Hlast : (issued x ++ [call]) !! n = Some call) by (by apply list_lookup_middle).
  assert (Hfresh : n ∉ qs ++ fs ++ rs).
  { intros Hin. assert (Hin2 : n ∈ List.seq 0 n).
    { rewrite <- Ha. rewrite !app_assoc, elem_of_app. left. by rewrite <- !app_assoc. }
    apply elem_of_seq in Hin2. lia. }
  split; cbn [cl codec c_closed with_outbox closing shutdown seq issued pending finished flying ran].
  - done.
  - rewrite length_app. cbn. unfold wrap64. rewrite N.mod_small by lia. fold n. lia.
  - unfold c2s. cbn [cl codec outbox with_outbox]. rewrite Hn. replace (seq (cl x)) with (N.of_nat n) by lia.
    eexists. split; [apply requests_snoc; [by apply requests_more | | done..]|].
    { rewrite Hlast. unfold call. by rewrite Hn. }
    rewrite !concat_app, Elq. done.
  - eapply Forall2_impl; [exact Hf|]. intros. by apply served_more.
  - exists lr. rewrite <- (app_nil_r (ran x)). split; [by apply replies_more|done].
  - intros q. destruct (decide (q = seq (cl x))) as [->|Hne].
    + rewrite lookup_insert_eq, Hn, decide_True, Hlast; [done|]. rewrite !elem_of_app, list_elem_of_singleton. tauto.
    + rewrite lookup_insert_ne, Hp by done. assert (Hne' : N.to_nat q <> n) by lia. rewrite Hn.
      destruct (decide (N.to_nat q ∈ qs ++ fs ++ rs)) as [Hin|Hin].
      * rewrite decide_True by (rewrite !elem_of_app in *; tauto). rewrite lookup_app_l; [done|].
        assert (Hin2 : N.to_nat q ∈ List.seq 0 n) by (rewrite <- Ha, !app_assoc, elem_of_app; left; by rewrite <- !app_assoc).
        apply elem_of_seq in Hin2. lia.
      * rewrite decide_False; [done|]. rewrite !elem_of_app, list_elem_of_singleton in *. tauto.
  - rewrite length_app, Hn. cbn [length]. rewrite Nat.add_1_r, seq_S. cbn [Nat.add].
    transitivity ((qs ++ fs ++ rs ++ (finished (cl x)).*1) ++ [n]); [|by rewrite Ha]. solve_Permutation.
  - done.
  - intros id r Hin. destruct (Hfin id r Hin) as (cal & Hcal & Hrn). exists cal. split; [by apply lookup_app_l_Some | done].
Qed.

(** The streams begin with a header, which the writer wrote as a whole. *)
Lemma requests_whole calls qs l : requests calls qs l -> qs <> [] -> header_whole l.
Proof.
  intros Hq Hne. destruct Hq as [|q m b bs qs l Hc Hs Hm Hf Hq]; [done|].
  eexists _, _. split; [reflexivity|]. by rewrite length_header.
Qed.
Lemma replies_whole calls rn rs l : replies calls rn rs l -> rs <> [] -> header_whole l.
Proof.
  intros Hr Hne. destruct Hr as [|q m b r l0 rs l Hc Hm Hin Hans Hr]; [done|].
  destruct r; [destruct Hans as (_ & _ & ->) | done | destruct Hans as (bs & _ & ->)];
    (eexists _, _; split; [reflexivity|]; by rewrite length_header).
Qed.

Lemma serve_next x qs fs rs l :
  sys_inv x qs fs rs -> qs <> [] -> pieces (c2s x) l ->
  exists q qs' f l', qs = q :: qs' /\ readRequest svcs (mkConn l [] false) = (Ok f, mkConn l' [] false) /\
    served (issued x) q f /\ exists l1, requests (issued x) qs' l1 /\ concat l1 = concat l'.
Proof.
  intros [_ (Hsq & Hlt) (lq & Hq & Elq) _ _ _ Ha _ _] Hne [El Hw]. destruct Hq as [|q m b bs qs l1 Hc [svc Hs] Hm Hf Hq]; [done|].
  assert (Hin : q ∈ List.seq 0 (length (issued x))) by (rewrite <- Ha; by left). apply elem_of_seq in Hin.
  set (h := mkHeader (N.of_nat q) m (N.of_nat (length bs)) []).
  assert (E : concat l = header_bytes h ++ concat (payload b bs) ++ concat l1).
  { rewrite El, <- Elq, concat_app. unfold frame. cbn [concat]. by rewrite <- app_assoc. }
  destruct (conn_Read_header h (concat (payload b bs) ++ concat l1) (mkConn l [] false) eq_refl Hw E) as (l2 & Hread & E2).
  destruct (reads_concat (payload b bs) (concat l1) (mkConn l2 [] false) eq_refl E2) as (l3 & Hreads & E3).
  exists q, qs, (svc, h, b), l3. split; [done|]. split; [|split; [|by exists l1]].
  - eapply readRequest_ok; [done | lia | done | done | exact Hread | exact Hreads].
  - by exists m, b, bs, (N.of_nat (length bs)).
Qed.
Lemma serve_inv x qs fs rs l r c :
  sys_inv x qs fs rs -> pieces (c2s x) l -> readRequest svcs (mkConn l [] false) = (Ok r, c) ->
  exists q qs', qs = q :: qs' /\
  sys_inv (mkSys (with_queues (s2c x) (inbox c) (cl x)) (flying x ++ [r]) (world x) (issued x) (ran x)) qs' (fs ++ [q]) rs.
Proof.
  intros Hx Hl E. destruct (decide (qs = [])) as [->|Hne].
  { destruct Hx as [_ _ (lq & Hq & Elq) _ _ _ _ _ _]. inversion Hq as [Hn0 Hnil|]. subst lq. destruct Hl as [El (d & r0 & -> & Hd)].
    rewrite <- Elq in El. apply (f_equal length) in El. cbn [concat] in El. rewrite length_app in El. cbn in El.
    unfold _headerLen, _error, _length, _serviceMethod, _seq in Hd. lia. }
  destruct (serve_next x qs fs rs l Hx Hne Hl) as (q & qs' & f & l' & -> & E' & Hsv & Hq'). rewrite E in E'. injection E' as -> ->.
  exists q, qs'. split; [done|]. destruct Hx as [Ho Hsq Hq Hf Hr Hp Ha Hran Hfin].
  split; cbn [cl with_queues with_codec codec c_closed closing shutdown seq issued pending finished flying ran inbox]; try done.
  - apply Forall2_app; [done|]. by repeat constructor.
  - intros k. rewrite Hp. apply decide_ext. rewrite !elem_of_app, elem_of_cons, list_elem_of_singleton. tauto.
  - rewrite <- Ha. solve_Permutation.
Qed.

Lemma service_call_ok svc q m n b bs0 w0 l :
  svcs !! m = Some svc -> fits b bs0 ->
  exists l0, service_call text panic_text svc (mkHeader (N.of_nat q) m n []) b (w0, mkConn [] l false) =
    (Ok tt, ((svc b w0).2, mkConn [] (l ++ l0) false)) /\ answers q m (seen (svc b w0).1) l0.
Proof.
  intros Hs Hb. unfold service_call. cbn [fst snd Seq ServiceMethod].
  assert (Hok : forall reply bs, fits reply bs ->
    sendResponse (N.of_nat q) m reply [] (mkConn [] l false) = (Ok tt, mkConn [] (l ++ frame (N.of_nat q) m [] reply bs) false)).
  { intros reply bs Hf. unfold sendResponse, catch. by rewrite (writeResponse_ok _ _ _ bs). }
  assert (Herr : forall msg, msg <> [] ->
    sendResponse (N.of_nat q) m (mkBuff None []) msg (mkConn [] l false) =
      (Ok tt, mkConn [] (l ++ [header_bytes (mkHeader (N.of_nat q) m 0 msg)]) false)).
  { intros msg Hne. unfold sendResponse, catch. destruct msg; [done|]. unfold writeResponse, server_writeRequestHeader. cbn [Body].
    by rewrite conn_Write_ok. }
  destruct (svc b w0) as [[[reply|]|e|] w] eqn:E; cbn [fst snd seen].
  - destruct (Hsvcs _ _ _ _ _ _ _ Hs Hb E) as [bs Hf]. exists (frame (N.of_nat q) m [] reply bs). rewrite (Hok _ _ Hf). split; [done|]. by exists bs.
  - exists (frame (N.of_nat q) m [] (mkBuff (V := V) None []) []). rewrite (Hok (mkBuff None []) []) by done. split; [done|]. by exists [].
  - destruct Htexts as (Ht & _). destruct (Ht e). eexists. rewrite Herr by done. by split.
  - destruct Htexts as (_ & Ht & Hne). eexists. rewrite Herr by done. by split.
Qed.

Lemma delete_perm {A} (l : list A) i x : l !! i = Some x -> l ≡ₚ x :: delete i l.
Proof. intros H. by apply delete_Permutation. Qed.

Lemma run_inv x qs fs rs i svc h arg o w c :
  sys_inv x qs fs rs -> flying x !! i = Some (svc, h, arg) ->
  service_call text panic_text svc h arg (world x, mkConn [] (s2c x) false) = (o, (w, c)) ->
  exists q, fs !! i = Some q /\
  sys_inv (mkSys (with_queues (outbox c) (c2s x) (cl x)) (delete i (flying x)) w (issued x)
      (ran x ++ [(N.to_nat (Seq h), arg, seen (svc arg (world x)).1)])) qs (delete i fs) (rs ++ [q]).
Proof.
  intros [Ho Hsq Hq Hf (lr & Hr & Elr) Hp Ha Hran Hfin] Hi E. destruct (Forall2_lookup_r _ _ _ _ _ Hf Hi) as (q & Hq' & m & b & bs & n & Hc & Hs & Hm & Hfb & Ef).
  cbn in Hs, Ef. injection Ef as -> ->. exists q. split; [done|].
  destruct (service_call_ok svc q m n b bs (world x) (s2c x) Hs Hfb) as (l0 & E' & Ha0). rewrite E in E'. injection E' as -> -> ->.
  pose proof (delete_perm _ _ _ Hq') as Hperm. cbn [Seq]. rewrite Nat2N.id.
  split; cbn [cl with_queues with_codec codec c_closed closing shutdown seq issued pending finished flying ran inbox outbox]; try done.
  - by apply Forall2_delete.
  - exists (lr ++ l0). unfold s2c at 1. cbn [cl with_queues with_codec codec inbox outbox].
    split; [|by rewrite !concat_app, Elr]. eapply replies_snoc; [|done|done| |done].
    + rewrite <- (app_nil_r (issued x)). by apply replies_more.
    + apply elem_of_app. right. by left.
  - intros k. rewrite Hp. apply decide_ext. rewrite Hperm at 1. rewrite !elem_of_app, elem_of_cons, list_elem_of_singleton. tauto.
  - rewrite <- Ha. rewrite Hperm at 2. solve_Permutation.
  - rewrite !fmap_app, Hran. cbn. solve_Permutation.
  - intros id r Hin. destruct (Hfin id r Hin) as (cal & Hcal & Hrn). exists cal. split; [done|]. apply elem_of_app. by left.
Qed.

Lemma input_ok x qs fs q rs m b r l0 l1 l :
  sys_inv x qs fs (q :: rs) -> concat l = concat (l0 ++ l1) -> header_whole l ->
  issued x !! q = Some (mkCall q m b) -> text_ok 16 m -> answers q m r l0 ->
  exists l', concat l' = concat l1 /\
  input (with_queues l (c2s x) (cl x)) = (Ok tt, mkClient (mkConn l' (c2s x) false) (delete (N.of_nat q) (pending (cl x))) (seq (cl x))
    false false (finished (cl x) ++ [(q, r)])).
Proof.
  intros [(Ho & Hcl & Hsh) (Hsq & Hlt) Hq Hf Hr Hp Ha Hran Hfin] E Hw Hc Hm Hans.
  assert (Hql : (q < length (issued x))%nat) by (by eapply lookup_lt_Some).
  assert (Hpq : pending (cl x) !! N.of_nat q = Some (mkCall q m b)).
  { rewrite Hp, Nat2N.id, decide_True; [done|]. rewrite !elem_of_app, elem_of_cons. tauto. }
  unfold with_queues, with_codec. rewrite Ho, Hcl, Hsh.
  assert (Hhd : forall h rest, header_ok h -> concat l = header_bytes h ++ rest ->
    exists l2, ReadResponseHeader (mkConn l (c2s x) false) = (Ok h, mkConn l2 (c2s x) false) /\ concat l2 = rest).
  { intros h rest Hh El. destruct (conn_Read_header h rest (mkConn l (c2s x) false) eq_refl Hw El) as (l2 & Hread & E2).
    exists l2. split; [|done]. unfold ReadResponseHeader, wrapping, bind. rewrite Hread. unfold ret. by rewrite parse_header_bytes. }
  rewrite concat_app in E. destruct r as [msg|e|reply]; cbn [answers] in Hans; [|done|].
  - destruct Hans as (Hmsg & Hne & ->). cbn [concat app] in E. rewrite app_nil_r in E.
    destruct (Hhd (mkHeader (N.of_nat q) m 0 msg) (concat l1)) as (l2 & Hread & E2); [split_and!; [cbn; lia | done | done | done] | done |].
    exists l2. split; [done|]. unfold input, input_round, bind, catch, on_codec. cbn [codec]. rewrite Hread.
    unfold gets, modify, Datatypes.id, with_codec, with_pending. cbn [pending codec seq closing shutdown finished Seq h_Error]. rewrite Hpq.
    destruct msg; [done|]. done.
  - destruct Hans as (bs & Hfit & ->). unfold frame in E. cbn [concat] in E. rewrite <- app_assoc in E.
    destruct (Hhd _ _ (header_ok_frame (N.of_nat q) m reply bs Hfit ltac:(lia) Hm) E) as (l2 & Hread & E2).
    destruct (reads_concat (payload reply bs) (concat l1) (mkConn l2 (c2s x) false) eq_refl E2) as (l3 & Hreads & E3).
    exists l3. split; [done|]. unfold input, input_round, bind, catch, on_codec. cbn [codec]. rewrite Hread.
    unfold gets, modify, Datatypes.id, with_codec, with_pending. cbn [pending codec seq closing shutdown finished Seq h_Error BodyLength]. rewrite Hpq, Nat2N.id.
    cbn [codec]. by rewrite (readBody_ok reply bs _ _ Hfit Hreads).
Qed.

Lemma input_inv x qs fs rs l :
  sys_inv x qs fs rs -> pieces (s2c x) l ->
  exists q rs', rs = q :: rs' /\
  sys_inv (mkSys (input (with_queues l (c2s x) (cl x))).2 (flying x) (world x) (issued x) (ran x)) qs fs rs'.
Proof.
  intros Hx [El Hw]. destruct (si_replies _ _ _ _ Hx) as (lr & Hr & Elr). rewrite <- Elr in El.
  destruct Hr as [|q m b r l0 rs l1 Hc Hm Hin Hans Hr].
  { destruct Hw as (d & r0 & -> & Hd). apply (f_equal length) in El. cbn [concat] in El. rewrite length_app in El. cbn in El.
    unfold _headerLen, _error, _length, _serviceMethod, _seq in Hd. lia. }
  exists q, rs. split; [done|].
  destruct (input_ok x qs fs q rs m b r l0 l1 l Hx El Hw Hc Hm Hans) as (l' & El' & ->). cbn [snd].
  destruct Hx as [(Ho & Hcl & Hsh) Hsq Hq Hf _ Hp Ha Hran Hfin].
  assert (Hnd : NoDup (qs ++ fs ++ q :: rs ++ (finished (cl x)).*1)).
  { change (q :: rs ++ (finished (cl x)).*1) with ((q :: rs) ++ (finished (cl x)).*1). rewrite Ha. apply NoDup_seq. }
  split; cbn [cl codec c_closed with_inbox closing shutdown seq issued pending finished flying ran]; try done; [by exists l1|..].
  - intros k. destruct (decide (k = N.of_nat q)) as [->|Hk].
    + rewrite lookup_delete_eq, Nat2N.id, decide_False; [done|]. intros Hq'.
      assert (Hperm : qs ++ fs ++ q :: rs ++ (finished (cl x)).*1 ≡ₚ q :: (qs ++ fs ++ rs) ++ (finished (cl x)).*1) by solve_Permutation.
      rewrite Hperm in Hnd. apply NoDup_cons in Hnd as [Hn _]. apply Hn, elem_of_app. by left.
    + rewrite lookup_delete_ne, Hp by done. apply decide_ext. rewrite !elem_of_app, elem_of_cons.
      assert (N.to_nat k <> q) by lia. tauto.
  - rewrite fmap_app. cbn. rewrite <- Ha. solve_Permutation.
  - rewrite fmap_app, Hran. cbn. solve_Permutation.
  - intros id r' Hin'. apply elem_of_app in Hin' as [Hin'|Hin'%list_elem_of_singleton]; [by apply Hfin|].
    injection Hin' as -> ->. by exists (mkCall q m b).
Qed.

Lemma sys_reachable_inv w x : rtc sys_step (sys_init w) x -> exists qs fs rs, sys_inv x qs fs rs.
Proof.
  intros Hs. remember (sys_init w) as x0 eqn:E0. assert (H0 : exists qs fs rs, sys_inv x0 qs fs rs).
  { subst. exists [], [], []. split; try done; try (eexists; split; [constructor|done]); constructor || idtac.
    intros id r Hin. by apply not_elem_of_nil in Hin. }
  clear E0. induction Hs as [x|x y z Hxy Hyz IH]; [done|]. apply IH. destruct H0 as (qs & fs & rs & Hx).
  destruct Hxy as [x method b bs Hs Hf Hm Hb call|x y Hw]; [|destruct Hw as [x l r c Hl E|x i svc h arg o w' c Hi E|x l Hl]].
  - eexists _, fs, rs. by eapply sends_inv.
  - destruct (serve_inv _ _ _ _ _ _ _ Hx Hl E) as (q & qs' & -> & Hy). by eexists _, _, _.
  - destruct (run_inv _ _ _ _ _ _ _ _ _ _ _ Hx Hi E) as (q & _ & Hy). by eexists _, _, _.
  - destruct (input_inv _ _ _ _ _ Hx Hl) as (q & rs' & -> & Hy). by eexists _, _, _.
Qed.

(** C8 One client and one server have a connection that stays open and on which every
    header is read in one piece; the two streams are cut in any other way.  The
    calls are of registered services with names of at most 16 nonzero bytes, fewer than
    2^64, and the arguments, the replies and the texts of errors fit into their
    frames.  Then, however the calls, the reading of requests, the executions
    (each a step with the writing of its answer) and the reading of replies
    interleave, a service runs at most once for a call; a call ends at most once,
    and only with what its service returned when it ran with the arguments of the
    call; and while a call waits, some part of the system can go on. *)
Theorem Rpc_exact w x :
  rtc sys_step (sys_init w) x ->
  NoDup (ran x).*1.*1 /\ NoDup (finished (cl x)).*1 /\
  (forall id r, (id, r) ∈ finished (cl x) -> exists call, issued x !! id = Some call /\ (id, c_Args call, r) ∈ ran x) /\
  ((length (finished (cl x)) < length (issued x))%nat -> exists x', work x x').
Proof.
  intros Hs. destruct (sys_reachable_inv w x Hs) as (qs & fs & rs & Hx). pose proof (si_all _ _ _ _ Hx) as Ha.
  assert (Hnd : NoDup (qs ++ fs ++ rs ++ (finished (cl x)).*1)) by (rewrite Ha; apply NoDup_seq).
  apply NoDup_app in Hnd as (_ & _ & Hnd). apply NoDup_app in Hnd as (_ & _ & Hnd). split_and!.
  - by rewrite (si_ran _ _ _ _ Hx).
  - by apply NoDup_app in Hnd as (_ & _ & Hnd).
  - apply (si_finished _ _ _ _ Hx).
  - intros Hlt. apply Permutation_length in Ha. rewrite !length_app, length_fmap, length_seq in Ha.
    destruct qs as [|q qs]; [destruct fs as [|f fs]; [destruct rs as [|r rs]; [cbn in Ha; lia|]|]|].
    + destruct (si_replies _ _ _ _ Hx) as (l & Hr & El). eexists. apply (Input x l). split; [done|]. by eapply replies_whole.
    + pose proof (si_flying _ _ _ _ Hx) as Hf. inversion Hf as [|q [[svc h] arg] fs' fl Hsv Hf' E1 E2].
      destruct (service_call text panic_text svc h arg (world x, mkConn [] (s2c x) false)) as [o [w' c]] eqn:E.
      eexists. apply (Run x 0 svc h arg o w' c); [|done]. by rewrite <- E2.
    + destruct (si_requests _ _ _ _ Hx) as (l & Hq & El).
      assert (Hl : pieces (c2s x) l) by (split; [done|by eapply requests_whole]).
      destruct (serve_next x (q :: qs) fs rs l Hx ltac:(done) Hl) as (q' & qs' & f & l' & _ & E & _). eexists. by eapply Serve.
Qed.
End rpc.

(** * Any server *)

Section any_server.
Context {V : Type} {J : Json V}.

Definition safe {S A} (m : M S error A) : Prop := forall s, (m s).1 <> Panic.
Lemma safe_bind {S A B} (m : M S error A) (k : A -> M S error B) : safe m -> (forall a, safe (k a)) -> safe (bind m k).
Proof. intros Hm Hk s. unfold bind. specialize (Hm s). destruct (m s) as [[a|e|] s']; [apply Hk | done | done]. Qed.
Lemma safe_ret {S A} (a : A) : safe (S := S) (ret a).
Proof. done. Qed.
Lemma safe_throw {S A} e : safe (S := S) (A := A) (throw e).
Proof. done. Qed.
Lemma safe_wrapping {S A} (m : M S error A) : safe m -> safe (wrapping m).
Proof. intros Hm s. unfold wrapping. specialize (Hm s). by destruct (m s) as [[a|e|] s']. Qed.
Lemma safe_renamed {S A} msg (m : M S error A) : safe m -> safe (renamed msg m).
Proof. intros Hm s. unfold renamed. specialize (Hm s). by destruct (m s) as [[a|e|] s']. Qed.
Lemma safe_Write d : safe (conn_Write d).
Proof. intros c. unfold conn_Write. by destruct (c_closed c). Qed.
Lemma safe_Read n : safe (conn_Read n).
Proof. intros c. unfold conn_Read. destruct (c_closed c); [done|]. by destruct (read_some n (inbox c)) as [[]|]. Qed.
Lemma safe_ReadFull n : safe (ReadFull n).
Proof. intros c. unfold ReadFull. destruct (c_closed c); [done|]. by destruct (read_full n (inbox c)) as [[d []] l]. Qed.
#[local] Hint Resolve safe_bind safe_ret safe_throw safe_wrapping safe_renamed safe_Write safe_Read safe_ReadFull : safe.

Lemma safe_WriteRequest h (b : ProtoBuff V) : safe (WriteRequest h b).
Proof.
  unfold WriteRequest, client_writeRequestHeader, write_payload, writeRequestBlockLen.
  destruct (Body b); [|by eauto with safe]. destruct (Marshal v); [|by eauto with safe].
  repeat (apply safe_bind; [by eauto with safe | intros]). destruct (Block b); eauto with safe.
Qed.
Lemma safe_header : safe ReadResponseHeader.
Proof. unfold ReadResponseHeader. eauto with safe. Qed.
Lemma safe_readBody n : safe (readBody (V := V) n).
Proof.
  unfold readBody, ReadResponseBody, ReadResponseBlockLen, ReadResponseBlocks. destruct (n =? 0)%nat; [by eauto with safe|].
  apply safe_bind; [by eauto 6 with safe|]. intros [v|]; (apply safe_bind; [by eauto 6 with safe | intros k]); [|by eauto with safe].
  destruct (0 <? k)%nat; eauto 6 with safe.
Qed.

Lemma safe_on_codec {A} (m : M conn error A) c : safe m -> exists r x, on_codec m c = (r, with_codec (V := V) x c) /\ r <> Panic.
Proof. intros Hm. unfold on_codec. specialize (Hm (codec c)). destruct (m (codec c)) as [r x]. by exists r, x. Qed.

(** A client with whatever arrives from the network; [issued] counts the calls. *)
Inductive client_step : client V * nat -> client V * nat -> Prop :=
  | Calls c n m b : (seq c + 1 < 2 ^ 64)%N -> client_step (c, n) ((send (mkCall n m b) c).2, S n)
  | Arrives c n d : client_step (c, n) (with_codec (with_inbox (inbox (codec c) ++ [d]) (codec c)) c, n)
  | Inputs c n : shutdown c = false -> client_step (c, n) ((input c).2, n)
  | Closes c n : client_step (c, n) ((client_Close c).2, n).

Definition ids (m : gmap N (Call V)) : list nat := (fun x => c_id x.2) <$> map_to_list m.
Lemma ids_insert m k call : m !! k = None -> ids (<[k := call]> m) ≡ₚ c_id call :: ids m.
Proof. intros Hk. unfold ids. by rewrite map_to_list_insert. Qed.
Lemma ids_delete m k call : m !! k = Some call -> ids m ≡ₚ c_id call :: ids (delete k m).
Proof. intros Hk. unfold ids. by rewrite <- (map_to_list_delete m k call). Qed.

Record client_inv (c : client V) (n : nat) : Prop := {
  ci_keys k : is_Some (pending c !! k) -> (k < seq c)%N;
  ci_ids : (if shutdown c then [] else ids (pending c)) ++ (finished c).*1 ≡ₚ List.seq 0 n }.

Lemma seq_snoc_perm l n : l ≡ₚ List.seq 0 n -> n :: l ≡ₚ List.seq 0 (S n).
Proof. intros ->. rewrite seq_S. cbn. solve_Permutation. Qed.

Lemma calls_inv c n m b : client_inv c n -> (seq c + 1 < 2 ^ 64)%N -> client_inv (send (mkCall n m b) c).2 (S n).
Proof.
  intros [Hk Hi] Hb. unfold send, bind at 1, gets, Datatypes.id. destruct (shutdown c || closing c) eqn:Es.
  - split; [done|]. cbn. rewrite fmap_app. cbn. rewrite <- (seq_snoc_perm _ _ Hi). solve_Permutation.
  - apply orb_false_iff in Es as [Es _]. rewrite Es in Hi. unfold bind at 1, modify at 1. unfold bind at 1, modify at 1.
    assert (Hnew : pending c !! seq c = None).
    { destruct (pending c !! seq c) eqn:E; [|done]. assert (seq c < seq c)%N by (by apply Hk). lia. }
    set (c1 := with_pending _ _). unfold catch.
    destruct (safe_on_codec _ c1 (safe_WriteRequest (mkHeader (seq c) m 0 []) b)) as (r & x & E & Hr). cbn [c_ServiceMethod c_Args].
    rewrite E. assert (Hs1 : wrap64 (seq c + 1) = (seq c + 1)%N) by (apply N.mod_small; lia).
    destruct r as [[]|e|]; [| |done].
    + split; cbn; rewrite ?Es.
      * intros k Hk'. rewrite Hs1. destruct (decide (k = seq c)) as [->|Hne]; [lia|]. rewrite lookup_insert_ne in Hk' by done. specialize (Hk k Hk'). lia.
      * rewrite ids_insert by done. cbn. by apply seq_snoc_perm.
    + unfold bind, gets, modify. cbn. rewrite lookup_insert_eq. split; cbn; rewrite ?Es.
      * intros k Hk'. rewrite Hs1. rewrite delete_insert_id in Hk' by done. specialize (Hk k Hk'). lia.
      * rewrite delete_insert_id by done. rewrite fmap_app. cbn. rewrite <- (seq_snoc_perm _ _ Hi). solve_Permutation.
Qed.

Lemma input_end_inv e c n : client_inv c n -> shutdown c = false -> client_inv (input_end e c).2 n.
Proof.
  intros [Hk Hi] Hs. rewrite Hs in Hi. unfold input_end, bind, gets, modify, Datatypes.id. split; [done|]. cbn.
  rewrite fmap_app, <- list_fmap_compose, Permutation_app_comm. exact Hi.
Qed.

(** The round takes the call out of the table and sends its result. *)
Lemma input_round_inv c n :
  client_inv c n -> shutdown c = false ->
  exists r c', input_round c = (Ok r, c') /\ client_inv c' n /\ shutdown c' = false.
Proof.
  intros [Hk Hi] Hs. rewrite Hs in Hi. unfold input_round, catch at 1.
  destruct (safe_on_codec _ c safe_header) as (r & x & E & Hr). rewrite E. destruct r as [h|e|]; [| |done].
  2:{ eexists _, _. split; [reflexivity|]. split; [|done]. split; [done|]. cbn. by rewrite Hs. }
  unfold bind at 1, gets, Datatypes.id, bind at 1, modify at 1. cbn [pending with_codec].
  set (c1 := with_pending _ _).
  assert (Hk1 : forall k, is_Some (pending c1 !! k) -> (k < seq c1)%N).
  { intros k Hk'. cbn in *. apply Hk. destruct (decide (k = Seq h)) as [->|]; [by rewrite lookup_delete_eq in Hk'; destruct Hk'|].
    by rewrite lookup_delete_ne in Hk'. }
  assert (Hdone : forall call res x', pending c !! Seq h = Some call ->
    client_inv (with_finished (finished c ++ [(c_id call, res)]) (with_codec x' c1)) n).
  { intros call res x' Hc. split; [done|]. cbn. rewrite Hs, fmap_app. cbn. rewrite <- Hi, (ids_delete _ _ _ Hc). solve_Permutation. }
  destruct (pending c !! Seq h) as [call|] eqn:Hc.
  - destruct (h_Error h) as [|a msg].
    + unfold catch. destruct (safe_on_codec _ c1 (safe_readBody (N.to_nat (BodyLength h)))) as (r & x' & E' & Hr'). rewrite E'.
      destruct r as [reply|e|]; [| |done]; (eexists _, _; split; [reflexivity|]; split; [by apply (Hdone call)|done]).
    + eexists _, _. split; [reflexivity|]. split; [|done]. pose proof (Hdone call (ServerError (a :: msg)) (codec c1) eq_refl) as H.
      unfold with_finished, with_codec in *. exact H.
  - unfold catch. destruct (safe_on_codec _ c1 (safe_readBody (N.to_nat (BodyLength h)))) as (r & x' & E' & Hr'). rewrite E'.
    assert (Hsame : client_inv (with_codec x' c1) n) by (split; [done|]; cbn; by rewrite Hs, delete_id).
    destruct r as [reply|e|]; [| |done]; (eexists _, _; split; [reflexivity|]; by split).
Qed.

Lemma inputs_inv c n : client_inv c n -> shutdown c = false -> client_inv (input c).2 n.
Proof.
  intros Hc Hs. destruct (input_round_inv c n Hc Hs) as (r & c' & E & Hc' & Hs'). unfold input, bind at 1. rewrite E.
  destruct r as [e|]; [by apply input_end_inv | done].
Qed.

(** Whatever arrives from the network, and however calls, replies, the end of the
    connection and closing follow each other, every call is pending exactly once
    or has ended exactly once; once the client is shut down every call has ended. *)
Theorem Client_conserves x0 c n :
  rtc client_step (newClientWithCodec x0, 0%nat) (c, n) ->
  (if shutdown c then [] else ids (pending c)) ++ (finished c).*1 ≡ₚ List.seq 0 n.
Proof.
  intros Hs. enough (H : client_inv c n) by apply H. remember (newClientWithCodec x0, 0%nat) as s0 eqn:E0.
  remember (c, n) as s1 eqn:E1. assert (H0 : client_inv s0.1 s0.2).
  { subst s0. split; [|done]. intros k [y Hy]. cbn in Hy. by rewrite lookup_empty in Hy. }
  clear E0. assert (H1 : client_inv s1.1 s1.2); [|by subst s1].
  clear E1. induction Hs as [s|s1 s2 s3 Hst Hrt IH]; [done|]. apply IH. destruct Hst as [c1 n1 m b Hb|c1 n1 d|c1 n1 Hsd|c1 n1]; cbn in *.
  - by apply calls_inv.
  - by destruct H0; split.
  - by apply inputs_inv.
  - unfold client_Close, bind at 1, gets, Datatypes.id. destruct (closing c1); [done|]. unfold bind, modify, wrapping, on_codec.
    destruct (conn_Close _) as [[]]; by destruct H0; split.
Qed.
End any_server.

(** * Theorems *)

Section theorems.
Context {V : Type} {J : Json V} {JS : JsonSpec V}.

(** C30 Requests and replies survive the transport however the network cuts the stream,
    as long as the read of a header returns all of it: the server reads back the
    sequence number, method, body and block that the client wrote, the client
    those that the server wrote, and both leave what follows in the stream. *)
Theorem Tcp_round_trip {W} (s : services V W) svc sq method b bs c :
  fits b bs -> (sq < 2 ^ 64)%N -> text_ok 16 method -> s !! method = Some svc -> c_closed c = false ->
  WriteRequest (mkHeader sq method 0 []) b c = (Ok tt, with_outbox (outbox c ++ frame sq method [] b bs) c) /\
  sendResponse sq method b [] c = (Ok tt, with_outbox (outbox c ++ frame sq method [] b bs) c) /\
  (forall rest, header_whole (inbox c) -> concat (inbox c) = concat (frame sq method [] b bs) ++ rest ->
   (exists l, readRequest s c = (Ok (svc, mkHeader sq method (N.of_nat (length bs)) [], b), with_inbox l c) /\ concat l = rest) /\
   (exists l, (h <- ReadResponseHeader ;; r <- readBody (N.to_nat (BodyLength h)) ;; ret (h, r)) c =
      (Ok (mkHeader sq method (N.of_nat (length bs)) [], b), with_inbox l c) /\ concat l = rest)).
Proof.
  intros Hf Hs Hm Hsv Hc. split_and!.
  - by apply WriteRequest_ok.
  - unfold sendResponse, catch. by rewrite (writeResponse_ok _ _ _ bs).
  - intros rest Hh E. unfold frame in E. cbn [concat] in E. rewrite <- app_assoc in E.
    destruct (conn_Read_header _ _ c Hc Hh E) as (l1 & E1 & H1).
    destruct (reads_concat (payload b bs) rest (with_inbox l1 c) Hc H1) as (l & Hr & Hl). split; exists l; (split; [|done]).
    + by eapply (readRequest_ok s svc sq method b bs c (with_inbox l1 c)).
    + unfold ReadResponseHeader, wrapping, bind. rewrite E1. cbn [ret].
      rewrite parse_header_bytes by (by eapply header_ok_frame). cbn [BodyLength]. rewrite Nat2N.id.
      by rewrite (readBody_ok b bs _ (with_inbox l c) Hf Hr).
Qed.

(** A header that comes in two pieces is misread: when the first piece ends before
    the length of the body, the request is taken to have no body, and the rest of
    its header is taken for the next one. *)
Theorem header_cut_misread {W} (s : services V W) svc sq method n err k l c :
  (sq < 2 ^ 64)%N -> x00 ∉ method -> (_seq + length method <= k <= _serviceMethod)%nat -> s !! method = Some svc -> c_closed c = false ->
  let h := header_bytes (mkHeader sq method n err) in
  inbox c = take k h :: drop k h :: l ->
  readRequest s c = (Ok (svc, mkHeader sq method 0 [], mkBuff None []), with_inbox (drop k h :: l) c).
Proof.
  intros Hs Hm Hk Hsv Hc h E. unfold _serviceMethod, _seq in Hk.
  assert (Hlh : length h = _headerLen) by apply length_header.
  assert (Hl : length (take k h) = k) by (rewrite length_take, Hlh; unfold _headerLen, _error, _length, _serviceMethod, _seq; lia).
  assert (Hrd : conn_Read _headerLen c = (Ok (take k h), with_inbox (drop k h :: l) c)).
  { unfold conn_Read. rewrite Hc, E. destruct (take k h) as [|a d] eqn:Et; [cbn in Hl; lia|]. cbn [read_some].
    rewrite take_ge, drop_ge by (rewrite Hl; unfold _headerLen, _error, _length, _serviceMethod, _seq; lia). done. }
  assert (Hph : parse_header (take k h) = mkHeader sq method 0 []).
  { assert (Ek : padded _headerLen (take k h) = be_bytes 8 sq ++ padded 16 method ++ replicate 104 x00).
    { unfold padded at 1. rewrite Hl, (take_ge (take k h)) by (rewrite Hl; unfold _headerLen, _error, _length, _serviceMethod, _seq; lia).
      unfold h, header_bytes. cbn [Seq ServiceMethod]. rewrite take_app_ge by (rewrite length_be_bytes; unfold _seq; lia).
      rewrite length_be_bytes, <- app_assoc. f_equal. rewrite take_app_le by (rewrite length_padded; unfold _seq; lia).
      unfold padded. rewrite (take_ge method) by (unfold _seq in *; lia). rewrite take_app_ge by (unfold _seq; lia).
      rewrite <- !app_assoc, take_replicate. f_equal. rewrite <- !replicate_add. f_equal.
      unfold _headerLen, _error, _length, _serviceMethod, _seq. lia. }
    unfold parse_header. cbv zeta. rewrite Ek. f_equal.
    - rewrite <- (app_nil_l (be_bytes 8 sq ++ _)), slice_app by (by rewrite ?length_be_bytes). by apply be_word_bytes.
    - rewrite slice_app by (by rewrite ?length_be_bytes, ?length_padded). apply getValid_padded. split; [lia | done].
    - rewrite app_assoc. change (replicate 104 x00) with (replicate 4 x00 ++ replicate 100 x00).
      by rewrite slice_app by (by rewrite ?length_app, ?length_be_bytes, ?length_padded).
    - rewrite app_assoc. change (replicate 104 x00) with (replicate 4 x00 ++ replicate 100 x00). rewrite app_assoc, <- (app_nil_r (replicate 100 x00)).
      rewrite slice_app by (by rewrite ?length_app, ?length_be_bytes, ?length_padded). done. }
  unfold readRequest, readRequestHeader, wrapping, bind. rewrite Hrd, Hph. cbn [ServiceMethod]. rewrite Hsv. done.
Qed.

(** RegisterName never succeeds, although it registers the service and the ping. *)
Theorem RegisterName_reports_error {W} name (fn : handler V W) s :
  s !! name = None ->
  exists e, RegisterName name fn s = (Err e, <[_pingMethod := default ping ((<[name := fn]> s) !! _pingMethod)]> (<[name := fn]> s)).
Proof.
  intros Hn. unfold RegisterName. cbn [RegisterName_loop]. unfold register, bind. rewrite Hn.
  destruct (<[name:=fn]> s !! _pingMethod) as [p|] eqn:E; cbn [default].
  - eexists. f_equal. symmetry. exact (insert_id _ _ _ E).
  - rewrite lookup_insert_eq. by eexists.
Qed.

(** When the server goes away, the error of the header is wrapped, so the ping that was
    waiting fails with an error that the pinging loop does not know, and callers are
    given the dead connection until the next ping. *)
Theorem lost_connection_kept (c : client V) call q p i :
  shutdown c = false -> inbox (codec c) = [] -> c_closed (codec c) = false -> pending c !! q = Some call ->
  p_client p = Some i -> p_err p = None -> p_holder p = Using i ->
  exists c' e, input c = (Ok tt, c') /\ shutdown c' = true /\ (c_id call, Failed e) ∈ finished c' /\
    Client_Call (ping_round None (Some e) p).1 = inr i /\ (ping_round None (Some e) p).2 = None.
Proof.
  intros Hs Hi Hc Hq Hpc Hpe Hph. unfold input, input_round, bind, catch, on_codec, ReadResponseHeader, wrapping, bind, conn_Read.
  rewrite Hc, Hi. cbn [read_some ret]. unfold input_end, bind, gets, modify, Datatypes.id.
  rewrite bool_decide_eq_false_2 by discriminate. eexists _, (Wrapped EOF). split_and!; [reflexivity | done | | |].
  - cbn. apply elem_of_app. right. apply list_elem_of_fmap. exists (q, call). split; [done|]. by apply elem_of_map_to_list.
  - unfold Client_Call, ping_round. rewrite Hpc, Hpe. cbn [p_holder]. rewrite !bool_decide_eq_false_2 by discriminate. cbn. by rewrite Hph.
  - unfold ping_round. rewrite Hpc, Hpe. by rewrite !bool_decide_eq_false_2 by discriminate.
Qed.
End theorems.

(** * Witnesses *)

(** Numbers as JSON texts. *)
Definition number_text (n : N) : list byte := String.list_byte_of_string (itoa n).
Definition number_of (bs : list byte) : option N := N.of_uint <$> NilEmpty.uint_of_string (String.string_of_list_byte bs).
#[export] Instance Json_number : Json N := {| Marshal n := Some (number_text n); Decode := number_of |}.

#[export, refine] Instance Json_number_spec : JsonSpec N := {}.
Proof.
  - intros v bs [= <-]. unfold number_text. by destruct (itoa_cons v) as (c & r & ->).
  - intros v bs [= <-]. cbn. unfold number_of, number_text. rewrite String.string_of_list_byte_of_string. unfold itoa.
    rewrite NilEmpty.usu. cbn. by rewrite DecimalN.Unsigned.of_to.
Defined.

(** A service that returns its argument. *)
Definition echo : handler N unit := fun arg => ret (Some arg).
Definition m_echo : list byte := String.list_byte_of_string "Echo".
Definition echo_services : services N unit := {[m_echo := echo]}.
Definition failure_text (e : error) : list byte := [x65].
Definition msg7 : ProtoBuff N := mkBuff (Some 7%N) [x01; x02].

Lemma msg7_fits : fits msg7 [x37].
Proof. by split_and!. Qed.
Lemma m_echo_ok : text_ok 16 m_echo.
Proof. split; [cbn; lia|]. by apply (bool_decide_unpack _). Qed.
Lemma echo_found : echo_services !! m_echo = Some echo.
Proof. unfold echo_services. apply lookup_singleton_eq. Qed.

(** The header and the body in one segment, the rest in two. *)
Definition stream7 : conn :=
  mkConn [header_bytes (mkHeader 3 m_echo 1 []) ++ [x37]; [x00; x00; x00]; [x02; x01; x02; x99]] [] false.

Lemma Tcp_round_trip_witness :
  exists l, readRequest echo_services stream7 = (Ok (echo, mkHeader 3 m_echo 1 [], msg7), with_inbox l stream7) /\ concat l = [x99].
Proof.
  destruct (Tcp_round_trip echo_services echo 3 m_echo msg7 [x37] stream7 msg7_fits ltac:(reflexivity) m_echo_ok echo_found ltac:(reflexivity))
    as (_ & _ & H).
  destruct (H [x99]) as [Hr _]; [by eexists _, _; split; [reflexivity | vm_compute; lia] | vm_compute; reflexivity | exact Hr].
Defined.

Lemma header_cut_misread_witness :
  let h := header_bytes (mkHeader 3 m_echo 1 []) in
  readRequest echo_services (mkConn [take 24 h; drop 24 h; [x37]] [] false) =
    (Ok (echo, mkHeader 3 m_echo 0 [], mkBuff None []), mkConn [drop 24 h; [x37]] [] false).
Proof.
  exact (header_cut_misread echo_services echo 3 m_echo 1 [] 24 [[x37]]
    (mkConn [take 24 (header_bytes (mkHeader 3 m_echo 1 [])); drop 24 (header_bytes (mkHeader 3 m_echo 1 [])); [x37]] [] false)
    ltac:(reflexivity) (proj2 m_echo_ok) ltac:(vm_compute; lia) echo_found eq_refl eq_refl).
Defined.

Lemma RegisterName_reports_error_witness :
  exists e, RegisterName m_echo echo ∅ = (Err e, <[_pingMethod := ping]> (<[m_echo := echo]> ∅)).
Proof.
  destruct (RegisterName_reports_error m_echo echo ∅ (lookup_empty _)) as [e H]. exists e. rewrite H. do 2 f_equal.
Defined.

Definition waiting7 : client N := (send (mkCall 0 m_echo msg7) (newClientWithCodec (mkConn [] [] false))).2.

Lemma lost_connection_kept_witness :
  exists c' e, input waiting7 = (Ok tt, c') /\ Client_Call (ping_round None (Some e) (mkPinger (Some 5%nat) None (Using 5))).1 = inr 5%nat.
Proof.
  destruct (lost_connection_kept waiting7 (mkCall 0 m_echo msg7) 0 (mkPinger (Some 5%nat) None (Using 5)) 5
    ltac:(reflexivity) ltac:(reflexivity) ltac:(reflexivity) ltac:(reflexivity) eq_refl eq_refl eq_refl)
    as (c' & e & H1 & _ & _ & H2 & _). exists c', e. split; [exact H1 | exact H2].
Defined.

Lemma Client_conserves_witness :
  ids (pending waiting7) ++ (finished waiting7).*1 ≡ₚ [0%nat].
Proof.
  exact (Client_conserves (mkConn [] [] false) waiting7 1
    (rtc_once _ _ (Calls (newClientWithCodec (mkConn [] [] false)) 0 m_echo msg7 ltac:(reflexivity)))).
Defined.

Lemma echo_ok : services_ok echo_services.
Proof.
  intros m svc arg bs w reply w' Hs Hf E. unfold echo_services in Hs. apply lookup_singleton_Some in Hs as [_ <-]. injection E as <- _. by exists bs.
Qed.
Lemma failure_texts_ok : texts_ok failure_text [x70].
Proof. split_and!; try done; try (intros e; split; [|done]); split; (cbn; lia) || (by apply (bool_decide_unpack _)). Qed.

(** A call, its execution and its reply. *)
Definition sys1 : sys := mkSys waiting7 [] tt [mkCall 0 m_echo msg7] [].
Definition sys2 : sys := mkSys (with_queues [] [] waiting7) [(echo, mkHeader 0 m_echo 1 [], msg7)] tt [mkCall 0 m_echo msg7] [].
Definition cut1 : list (list byte) := let bs := concat (c2s sys1) in [take (_headerLen + 1) bs; drop (_headerLen + 1) bs].
Definition sys3 : sys :=
  mkSys (with_queues (frame 0 m_echo [] msg7 [x37]) [] (with_queues [] [] waiting7)) [] tt [mkCall 0 m_echo msg7] [(0%nat, msg7, Replied msg7)].

(** The header arrives with the first byte of the body. *)
Lemma cut1_pieces : pieces (c2s sys1) cut1.
Proof. split; [vm_compute; reflexivity|]. eexists _, _. split; [reflexivity|]. vm_compute. lia. Qed.

Lemma Rpc_exact_witness :
  exists x, rtc (sys_step failure_text [x70] echo_services) (sys_init tt) x /\ finished (cl x) = [(0%nat, Replied msg7)] /\
    NoDup (finished (cl x)).*1.
Proof.
  assert (Hs : rtc (sys_step failure_text [x70] echo_services) (sys_init tt) (mkSys (input (with_queues (s2c sys3) (c2s sys3) (cl sys3))).2 [] tt (issued sys3) (ran sys3))).
  { eapply rtc_l; [exact (Sends failure_text [x70] echo_services (sys_init tt) m_echo msg7 [x37] (mk_is_Some _ _ echo_found) msg7_fits m_echo_ok ltac:(reflexivity))|].
    eapply (rtc_l _ _ sys2); [apply Works; refine (Serve failure_text [x70] echo_services sys1 cut1 (echo, mkHeader 0 m_echo 1 [], msg7) (mkConn [] [] false) cut1_pieces _); vm_compute; reflexivity|].
    eapply (rtc_l _ _ sys3); [apply Works; refine (Run failure_text [x70] echo_services sys2 0 echo (mkHeader 0 m_echo 1 []) msg7 (Ok tt) tt (mkConn [] (frame 0 m_echo [] msg7 [x37]) false) _ _); vm_compute; reflexivity|].
    apply rtc_once. apply Works. apply (Input failure_text [x70] echo_services sys3 (s2c sys3)). split; [done|]. eexists _, _. split; [reflexivity|]. vm_compute. lia. }
  eexists. split; [exact Hs|]. split; [vm_compute; reflexivity|].
  exact (proj1 (proj2 (Rpc_exact failure_text [x70] echo_services echo_ok failure_texts_ok tt _ Hs))).
Defined.
