(* ===== verification/VfsFs.v ===== *)
(** The client's view of the metadata service (src/pkg/hugofs/vfs/fs.go, attr.go):
    requests are built from and answers turned into [FsEntry] values, and a node
    keeps its attributes in a [DirtyAttr].  The service is the interface
    [MetaServiceClient], over which the whole vfs is written; [now] is the value
    [time.Now()] returns. *)
From Stdlib Require Import Ascii.
From stdpp Require Import prelude gmap strings list fin_maps.
From S2P Require Import Prelude Store FileMode Attr NodeService.

(** * The interface *)

(** The calls of adaptor.MetaServiceClient the vfs makes. *)
Class MetaServiceClient (S : Type) := {
  mc_CreateInode : N -> string -> ModifyAttr -> Time -> M S error PbAttr;
  mc_Link : N -> N -> string -> Time -> M S error PbAttr;
  mc_DeleteInode : N -> string -> Time -> M S error unit;
  mc_DeleteDirInode : N -> string -> Time -> M S error unit;
  mc_Rename : FuseContext -> N -> N -> string -> string -> N -> Time -> M S error (PbEntry * PbEntry * N);
  mc_ListItemUnderInode : N -> bool -> M S error (list Item);
  mc_GetInodeAttr : N -> M S error (N * string * PbAttr);
  mc_UpdateInodeAttr : FuseContext -> N -> N -> option ModifyAttr -> Time -> M S error PbAttr;
}.

(** What a [context.Context] carries here: the outgoing metadata and the mask of
    [NewAttrContext]. *)
Record Context := mkContext { c_md : option MD; c_set : option N }.
Definition Background : Context := mkContext None None.
Definition NewAttrContext (ctx : Context) (set : N) : Context := mkContext (c_md ctx) (Some set).
Definition FromAttrContext (ctx : Context) : option N := c_set ctx.

(** The caller the service sees; a key without values makes it panic. *)
Definition caller {S} (ctx : Context) : M S error FuseContext :=
  deref (MDFromContext (default [] (c_md ctx))).

(** * Times *)

(** [time.Unix(sec, nsec)] with a uint32 [nsec]. *)
Definition time_Unix (sec : Z) (nsec : N) : Time :=
  {| Unix := sec + Z.of_N (nsec / 10 ^ 9); Nanosecond := nsec mod 10 ^ 9 |}.

(** [t.Sub(u)], in nanoseconds, at the nearest int64. *)
Definition time_Sub (t u : Time) : Z :=
  Z.max (- 2 ^ 63) (Z.min (2 ^ 63 - 1)
    ((Unix t - Unix u) * 10 ^ 9 + (Z.of_N (Nanosecond t) - Z.of_N (Nanosecond u)))).

(** * Entries *)

Record FsEntry := mkFsEntry {
  fe_Inode : N;
  fe_Name : string;
  fe_Mode : N;
  fe_Size : N;
  fe_Nlink : Z;
  fe_LinkTarget : string;
  fe_Dev : N;
  fe_Ctime : Time;
  fe_Mtime : Time;
  fe_Atime : Time;
  fe_Uid : N;
  fe_Gid : N }.

Definition fe_IsDir (e : FsEntry) : bool := FileMode_IsDir (fe_Mode e).
Definition with_fe_Name (n : string) (e : FsEntry) : FsEntry :=
  mkFsEntry (fe_Inode e) n (fe_Mode e) (fe_Size e) (fe_Nlink e) (fe_LinkTarget e) (fe_Dev e)
    (fe_Ctime e) (fe_Mtime e) (fe_Atime e) (fe_Uid e) (fe_Gid e).

Definition wrap (attr : PbAttr) : FsEntry :=
  mkFsEntry (Inode attr) "" (Mode attr)
    (if (N.land (Mode attr) ModeSymlink =? ModeSymlink)%N
     then N.of_nat (String.length (LinkTarget attr)) else Size attr)
    (Z.of_N (Nlink attr)) (LinkTarget attr) (Rdev attr)
    (time_Unix (Ctime attr) (Ctimens attr)) (time_Unix (Mtime attr) (Mtimens attr))
    (time_Unix (Atime attr) (Atimens attr)) (Uid attr) (Gid attr).

(** * Attributes of a node *)

Record DirtyAttr := mkDirty {
  da_ino : N;
  da_mtime : Time;
  da_atime : Time;
  da_ctime : Time;
  da_mode : N;
  da_size : Z;
  da_nlink : Z;
  da_linkTarget : string;
  da_dev : N;
  da_uid : N;
  da_gid : N;
  da_dirty : bool }.

(** The access time of the entry is not used: [atime] is set from [Mtime]. *)
Definition ToDirtyAttr (e : FsEntry) : DirtyAttr :=
  mkDirty (fe_Inode e) (fe_Mtime e) (fe_Mtime e) (fe_Ctime e) (fe_Mode e) (to_int (fe_Size e)) (fe_Nlink e)
    (fe_LinkTarget e) (fe_Dev e) (fe_Uid e) (fe_Gid e) false.

Definition SetModTime (t : Time) (a : DirtyAttr) : DirtyAttr :=
  mkDirty (da_ino a) t (da_atime a) (da_ctime a) (da_mode a) (da_size a) (da_nlink a) (da_linkTarget a)
    (da_dev a) (da_uid a) (da_gid a) true.
Definition SetATime (t : Time) (a : DirtyAttr) : DirtyAttr :=
  mkDirty (da_ino a) (da_mtime a) t (da_ctime a) (da_mode a) (da_size a) (da_nlink a) (da_linkTarget a)
    (da_dev a) (da_uid a) (da_gid a) true.
Definition SetCTime (t : Time) (a : DirtyAttr) : DirtyAttr :=
  mkDirty (da_ino a) (da_mtime a) (da_atime a) t (da_mode a) (da_size a) (da_nlink a) (da_linkTarget a)
    (da_dev a) (da_uid a) (da_gid a) true.
Definition SetNlink (n : Z) (a : DirtyAttr) : DirtyAttr :=
  mkDirty (da_ino a) (da_mtime a) (da_atime a) (da_ctime a) (da_mode a) (da_size a) n (da_linkTarget a)
    (da_dev a) (da_uid a) (da_gid a) true.
Definition SetMode (m : N) (a : DirtyAttr) : DirtyAttr :=
  mkDirty (da_ino a) (da_mtime a) (da_atime a) (da_ctime a) m (da_size a) (da_nlink a) (da_linkTarget a)
    (da_dev a) (da_uid a) (da_gid a) true.
Definition SetSize (n : Z) (a : DirtyAttr) : DirtyAttr :=
  mkDirty (da_ino a) (da_mtime a) (da_atime a) (da_ctime a) (da_mode a) n (da_nlink a) (da_linkTarget a)
    (da_dev a) (da_uid a) (da_gid a) true.
Definition SetUID (u : N) (a : DirtyAttr) : DirtyAttr :=
  mkDirty (da_ino a) (da_mtime a) (da_atime a) (da_ctime a) (da_mode a) (da_size a) (da_nlink a)
    (da_linkTarget a) (da_dev a) u (da_gid a) true.
Definition SetGID (g : N) (a : DirtyAttr) : DirtyAttr :=
  mkDirty (da_ino a) (da_mtime a) (da_atime a) (da_ctime a) (da_mode a) (da_size a) (da_nlink a)
    (da_linkTarget a) (da_dev a) (da_uid a) g true.
Definition SetRdev (d : N) (a : DirtyAttr) : DirtyAttr :=
  mkDirty (da_ino a) (da_mtime a) (da_atime a) (da_ctime a) (da_mode a) (da_size a) (da_nlink a)
    (da_linkTarget a) d (da_uid a) (da_gid a) true.

Definition dirty_wrap (a : DirtyAttr) : FsEntry :=
  mkFsEntry (da_ino a) "" (da_mode a) (to_uint64 (da_size a)) (da_nlink a) (da_linkTarget a) (da_dev a)
    (da_ctime a) (da_mtime a) (da_atime a) (da_uid a) (da_gid a).

(** The fields of [e], with the node's own inode number. *)
Definition dirty_of (ino : N) (e : FsEntry) : DirtyAttr :=
  mkDirty ino (fe_Mtime e) (fe_Atime e) (fe_Ctime e) (fe_Mode e) (to_int (fe_Size e)) (fe_Nlink e)
    (fe_LinkTarget e) (fe_Dev e) (fe_Uid e) (fe_Gid e) false.

(** Attributes that have not been flushed are not overwritten. *)
Definition unwrap (e : FsEntry) (a : DirtyAttr) : DirtyAttr :=
  if da_dirty a then a else dirty_of (da_ino a) e.

(** * Requests *)

(** [retry.Do] with three attempts; the last error is returned.  The waiting time
    and the cancellation of the context are left out. *)
Definition retry {S A} (f : nat -> M S error A) : M S error A :=
  r <-? f 0%nat ;;
  match r with
  | inl a => ret a
  | inr _ =>
      r <-? f 1%nat ;;
      match r with
      | inl a => ret a
      | inr _ => f 2%nat
      end
  end.

Section fs.
Context {S : Type} `{MetaServiceClient S}.
(** [Mount.UID], [Mount.GID] and [Umask] of the options. *)
Context (mountUID mountGID Umask : N).

(** [now i] is the time at the service in attempt [i]. *)
Definition UpdateAttr (ctx : Context) (ino set : N) (entry : FsEntry) (now : nat -> Time) : M S error FsEntry :=
  retry (fun i =>
    c <- caller ctx ;;
    r <- mc_UpdateInodeAttr c ino set (Some (MkModifyAttr (Some (fe_Size entry))
           (Some (Unix (fe_Mtime entry))) (Some (Nanosecond (fe_Mtime entry)))
           (Some (Unix (fe_Atime entry))) (Some (Nanosecond (fe_Atime entry)))
           (Some (Unix (fe_Ctime entry))) (Some (Nanosecond (fe_Ctime entry)))
           (Some (fe_Uid entry)) (Some (fe_Gid entry)) (Some (fe_Mode entry)) None None None None)) (now i) ;;
    ret (wrap r)).

Fixpoint wrap_items (items : list Item) : M S error (list FsEntry) :=
  match items with
  | [] => ret []
  | item :: rest =>
      attr <- deref (i_Attr item) ;;
      r <- wrap_items rest ;;
      ret (with_fe_Name (i_Name item) (wrap attr) :: r)
  end.
Definition fs_List (ino : N) : M S error (list FsEntry) :=
  retry (fun _ => items <- mc_ListItemUnderInode ino true ;; wrap_items items).

Definition fs_Get (ino : N) : M S error FsEntry :=
  retry (fun _ => r <- mc_GetInodeAttr ino ;; ret (wrap r.2)).

(** The loop over the metadata; [v[0]] panics on a key without values. *)
Fixpoint caller_loop (md : MD) (uid gid : N) : M S error (N * N) :=
  match md with
  | [] => ret (uid, gid)
  | (k, v) :: rest =>
      if bool_decide (k = "uid"%string) then x <- deref (head v) ;; caller_loop rest (atoi32 x) gid
      else if bool_decide (k = "gid"%string) then x <- deref (head v) ;; caller_loop rest uid (atoi32 x)
      else caller_loop rest uid gid
  end.
Definition extractCaller (ctx : Context) : M S error (N * N) :=
  p <- caller_loop (default [] (c_md ctx)) 0 0 ;;
  ret (if (p.1 =? 0)%N then mountUID else p.1, if (p.2 =? 0)%N then mountGID else p.2).

(** [now] is the client's clock, [now'] the service's. *)
Definition _createInode (ctx : Context) (parent : N) (name : string) (mode : N) (target : string) (rdev : N)
    (now now' : Time) : M S error FsEntry :=
  p <- extractCaller ctx ;;
  r <- mc_CreateInode parent name (MkModifyAttr None (Some (Unix now)) (Some (Nanosecond now))
         (Some (Unix now)) (Some (Nanosecond now)) (Some (Unix now)) (Some (Nanosecond now))
         (Some p.1) (Some p.2) (Some mode) None (Some rdev) (Some target) None) now' ;;
  ret (with_fe_Name name (wrap r)).

Definition fs_Mkdir (ctx : Context) (parent : N) (name : string) (mode : N) (now now' : Time) : M S error FsEntry :=
  _createInode ctx parent name (N.lor ModeDir mode) "" 0 now now'.
Definition fs_Create (ctx : Context) (parent : N) (name : string) (mode rdev : N) (now now' : Time) :
    M S error FsEntry :=
  _createInode ctx parent name (ToFileMode mode) "" rdev now now'.
Definition fs_Symlink (ctx : Context) (parent : N) (target linkName : string) (now now' : Time) :
    M S error FsEntry :=
  _createInode ctx parent linkName (N.lor ModeSymlink (and_not32 511 Umask)) target 0 now now'.
Definition fs_Link (targetIno parent : N) (linkName : string) (now : Time) : M S error FsEntry :=
  r <- mc_Link targetIno parent linkName now ;; ret (with_fe_Name linkName (wrap r)).
Definition fs_Rmdir (parent : N) (name : string) (now : Time) : M S error unit := mc_DeleteDirInode parent name now.
Definition fs_Remove (parent : N) (name : string) (now : Time) : M S error unit := mc_DeleteInode parent name now.
Definition fs_Rename (ctx : Context) (oldParent : N) (oldName : string) (newParent : N) (newName : string)
    (now : Time) : M S error FsEntry :=
  c <- caller ctx ;;
  r <- mc_Rename c oldParent newParent oldName newName 0 now ;; ret (wrap (pe_Attr r.1.2)).

(** [DirtyAttr.Flush]: nothing happens without changes or without a mask in the
    context. *)
Definition Flush (ctx : Context) (a : DirtyAttr) (now : nat -> Time) : M S error DirtyAttr :=
  if negb (da_dirty a) then ret a else
  match FromAttrContext ctx with
  | None => ret a
  | Some set => e <- UpdateAttr ctx (da_ino a) set (dirty_wrap a) now ;; ret (dirty_of (da_ino a) e)
  end.
End fs.
