(* ===== verification/FileHandle.v ===== *)
(** An open file: the buffer over the read buffer and the page writer
    (src/pkg/hugofs/vfs/buffer/rwbuffer_direct.go) and the handle
    (src/pkg/hugofs/vfs/handle_file.go). *)
From Stdlib Require Import Ascii Strings.Byte ZArith Lia.
From stdpp Require Import prelude gmap strings list list_numbers.
From S2P Require Import Prelude Store FileMode Attr NodeService VfsFs Hash SlotPool Interval IntervalProps Volume StorageBackend Throttler FileBlock MemBlock Uploader UploaderProps PageWriter DirtyBuffer ReadBuffer ReadBufferProps.

Open Scope Z_scope.

(** * The buffer *)

(** The read buffers of the client and their throttler, the number of this file's
    read buffer, and the page writer, whose pipeline has the backend. *)
Record DirectRWBuffer (L T : Type) := mkDirectRWBuffer {
  rw_thr : Throttler L;
  rw_bufs : list ReadBuffer;
  rw_id : nat;
  rw_dirty : dirty;
  rw_pipe : UploadPipeline T;
  rw_lastAccessNs : Z }.
Arguments mkDirectRWBuffer {L T}. Arguments rw_thr {L T}. Arguments rw_bufs {L T}. Arguments rw_id {L T}.
Arguments rw_dirty {L T}. Arguments rw_pipe {L T}. Arguments rw_lastAccessNs {L T}.

Definition is_EOF (e : error) : bool := bool_decide (e = EOF).

Section rw_buffer.
Context {L : Type} {LL : Lru L} {T : Type} {SB : StorageBackend T}.
Context (already_exists : error -> bool) (temp : bool) (range : gmap Z Block -> list (Z * Block))
  (range_sealed : gmap Z nat -> list (Z * nat)).
Abbreviation RW A := (M (DirectRWBuffer L T) fault A).

(** The backend of the pipeline is the backend of the read buffers. *)
Definition on_reader {A} (m : M (Throttler L * (list ReadBuffer * T)) fault A) : RW A := fun b =>
  let u := rw_pipe b in
  let '(r, (t, (bufs, st))) := m (rw_thr b, (rw_bufs b, storage (swapFile u))) in
  (r, mkDirectRWBuffer t bufs (rw_id b) (rw_dirty b) (with_swapFile (with_storage st (swapFile u)) u) (rw_lastAccessNs b)).
Definition on_writer {A} (m : M (dirty * UploadPipeline T) fault A) : RW A := fun b =>
  let '(r, (d, u)) := m (rw_dirty b, rw_pipe b) in
  (r, mkDirectRWBuffer (rw_thr b) (rw_bufs b) (rw_id b) d u (rw_lastAccessNs b)).
Definition access (now : Z) : RW unit :=
  modify (fun b => mkDirectRWBuffer (rw_thr b) (rw_bufs b) (rw_id b) (rw_dirty b) (rw_pipe b) now).

(** The same options, with other page contexts, go to both. *)
Definition NewDirectRWBuffer (ino : N) (BlockSize PageSize : Z) (limit : nat) (readCtx writeCtx : PageContext) (sc : list event) :
    M (Throttler L * (list ReadBuffer * T)) fault (DirectRWBuffer L T) :=
  id <- NewDefaultBlockBuffer ino BlockSize PageSize limit readCtx ;;
  w <- gets Datatypes.id ;;
  ret (mkDirectRWBuffer w.1 w.2.1 id NewPageWriter (NewUploadPipeline ino BlockSize PageSize limit writeCtx w.2.2 sc) 0).

(** A round asks the read buffer and then the dirty pages for the rest; [n] bytes
    are read.  An error other than EOF ends the loop, and is not what the call
    returns: [theErr] is.  [fuel] bounds the rounds. *)
Fixpoint rw_read_loop (fuel : nat) (dst : list byte) (n off : Z) (theErr : option error) (noOnRemote noOnDirty : bool) :
    RW (Z * option error * list byte) :=
  if negb (n <? Z.of_nat (length dst)) || (noOnRemote && noOnDirty) then ret (n, theErr, dst) else
  match fuel with
  | O => throw Blocked
  | S fuel =>
      b <- gets Datatypes.id ;;
      r <- on_reader (rb_Read temp (rw_id b) (drop (Z.to_nat n) dst) off) ;;
      let '(read, err, q) := r in
      let dst := take (Z.to_nat n) dst ++ q in
      let n := n + read in
      let off := off + read in
      if match err with Some e => negb (is_EOF e) | None => false end then ret (n, theErr, dst) else
      let theErr := match err with Some e => Some e | None => theErr end in
      let noOnRemote := (read =? 0) || noOnRemote in
      if (Z.of_nat (length dst) <=? n) || (noOnRemote && noOnDirty) then ret (n, theErr, dst) else
      r <- on_writer (pw_ReadAt already_exists (drop (Z.to_nat n) dst) off) ;;
      let '(read, err, q) := r in
      let dst := take (Z.to_nat n) dst ++ q in
      let n := n + read in
      let off := off + read in
      match err with
      | Some _ => ret (n, theErr, dst)
      | None =>
          if read =? 0 then rw_read_loop fuel dst n off theErr noOnRemote true
          else rw_read_loop fuel dst n off
                 (match theErr with Some e => if is_EOF e then None else theErr | None => None end) noOnRemote noOnDirty
      end
  end.
(** The blocks are locked while the loop runs. *)
Definition rw_Read (now : Z) (dst : list byte) (off : Z) : RW (Z * option error * list byte) :=
  let size := Z.of_nat (length dst) in
  on_writer (pw_LockForRead already_exists off (off + size)) ;;;
  access now ;;;
  r <- rw_read_loop (S (length dst)) dst 0 off None false false ;;
  on_writer (pw_UnlockForRead already_exists off (off + size)) ;;;
  ret r.

Definition rw_Write (now : Z) (p : list byte) (off : Z) : RW (Z * option error) :=
  access now ;;; on_writer (AddPage already_exists temp range now p off).
Definition rw_Size : Z := 0.
Definition rw_Flush : RW unit := on_writer (pw_Flush already_exists range).
Definition rw_Idle (now d : Z) (b : DirectRWBuffer L T) : bool := d <? now - rw_lastAccessNs b.
Definition rw_Destroy : RW unit :=
  on_writer (pw_Destroy already_exists range_sealed) ;;;
  b <- gets Datatypes.id ;;
  on_reader (rb_Destroy already_exists (rw_id b)).

(** io.Copy of what is left of a section, in pieces of 32 KB. *)
Fixpoint rw_copy (now : Z) (fuel : nat) (q : list byte) (off : Z) : RW unit :=
  match q with
  | [] => ret tt
  | _ =>
      match fuel with
      | O => throw Blocked
      | S fuel =>
          rw_Write now (take copy_size q) off ;;;
          rw_copy now fuel (drop copy_size q) (off + Z.of_nat (length (take copy_size q)))
      end
  end.
Fixpoint rw_ReadFrom (now : Z) (fuel : nat) (BlockSize : Z) (src : list byte) (written : Z) : RW Z :=
  match fuel with
  | O => throw Blocked
  | S fuel =>
      let q := take (Z.to_nat BlockSize) (drop (Z.to_nat written) src) in
      rw_copy now (S (length q)) q written ;;;
      match q with
      | [] => ret written
      | _ => rw_ReadFrom now fuel BlockSize src (written + Z.of_nat (length q))
      end
  end.
(** What it writes has nothing to do with the file. *)
Definition rw_WriteTo : list byte := String.list_byte_of_string "Hello Medium".
End rw_buffer.

(** * The handle *)

(** [fh_attr] are the attributes of the file, which its handles share, and
    [fh_meta] is the metadata service. *)
Record FileHandle (L T S : Type) := mkFileHandle {
  fh_buffer : DirectRWBuffer L T;
  fh_hasWrite : bool;
  fh_size : Z;
  fh_attr : DirtyAttr;
  fh_meta : S }.
Arguments mkFileHandle {L T S}. Arguments fh_buffer {L T S}. Arguments fh_hasWrite {L T S}. Arguments fh_size {L T S}.
Arguments fh_attr {L T S}. Arguments fh_meta {L T S}.

Section handle.
Context {L : Type} {LL : Lru L} {T : Type} {SB : StorageBackend T} {S : Type} `{MetaServiceClient S}.
Context (already_exists : error -> bool) (temp : bool) (range : gmap Z Block -> list (Z * Block))
  (range_sealed : gmap Z nat -> list (Z * nat)).
Abbreviation FH A := (M (FileHandle L T S) fault A).

Definition on_buffer {A} (m : M (DirectRWBuffer L T) fault A) : FH A := fun h =>
  let '(r, b) := m (fh_buffer h) in (r, mkFileHandle b (fh_hasWrite h) (fh_size h) (fh_attr h) (fh_meta h)).
Definition with_hasWrite (x : bool) (h : FileHandle L T S) : FileHandle L T S :=
  mkFileHandle (fh_buffer h) x (fh_size h) (fh_attr h) (fh_meta h).

Definition newFileHandle (b : DirectRWBuffer L T) (attr : DirtyAttr) (m : S) : FileHandle L T S :=
  mkFileHandle b false (da_size attr) attr m.

(** The size at which the handle was opened is what the end of the write is
    compared with. *)
Definition fh_WriteAt (now : Z) (p : list byte) (off : Z) : FH (Z * option error) :=
  r <- on_buffer (rw_Write already_exists temp range now p off) ;;
  let '(n, err) := r in
  match err with
  | Some _ => ret (n, err)
  | None =>
      (if 0 <? n then modify (with_hasWrite true) else ret tt) ;;;
      h <- gets Datatypes.id ;;
      let size := n + off in
      (if fh_size h <? size then
         modify (fun h => mkFileHandle (fh_buffer h) (fh_hasWrite h) size (VfsFs.SetSize size (fh_attr h)) (fh_meta h))
       else ret tt) ;;;
      ret (n, None)
  end.
Definition fh_ReadAt (now : Z) (p : list byte) (off : Z) : FH (Z * option error * list byte) :=
  on_buffer (rw_Read already_exists temp now p off).

(** The attributes go to the metadata service with the times and the size; the flag
    is reset whether that works or not. *)
Definition flush_mask : N := Eval vm_compute in N.lor (N.lor SetAttrAtime SetAttrCtime) (N.lor SetAttrMtime SetAttrSize).
Definition fh_Flush (now : nat -> Time) : FH (option error) :=
  h <- gets Datatypes.id ;;
  if negb (fh_hasWrite h) then ret None else
  on_buffer (rw_Flush already_exists range) ;;;
  h <- gets Datatypes.id ;;
  let '(r, m) := VfsFs.Flush (NewAttrContext (mkContext None None) flush_mask) (fh_attr h) now (fh_meta h) in
  match r with
  | Ok a => modify (fun h => mkFileHandle (fh_buffer h) false (fh_size h) a m) ;;; ret None
  | Err e => modify (fun h => mkFileHandle (fh_buffer h) false (fh_size h) (fh_attr h) m) ;;; ret (Some e)
  | Panic => go_panic
  end.
Definition fh_Release : FH unit := on_buffer (rw_Destroy already_exists range_sealed).
Definition fh_Close : FH unit := on_buffer (rw_Destroy already_exists range_sealed).
Definition fh_Size (h : FileHandle L T S) : Z := da_size (fh_attr h).
End handle.

(** * What a handle reads *)

Section read_props.
Context {L : Type} {LL : Lru L} {LS : LruSpec L} {T : Type} {SB : StorageBackend T} {BS : BackendSpec T} {OW : OwnReads T}.
Context (already_exists : error -> bool) (temp : bool).
Implicit Types b : DirectRWBuffer L T.

(** What the read buffers see of the client. *)
Definition reader_of b : Throttler L * (list ReadBuffer * T) := (rw_thr b, (rw_bufs b, storage (swapFile (rw_pipe b)))).

Lemma Lock_alone (u : UploadPipeline T) : sched u = [] -> Uploader.Lock already_exists u = (Ok tt, u).
Proof. intros Hs. destruct u. cbn in Hs. subst. done. Qed.
Lemma unlock_blocks_keep (l : list Z) (u : UploadPipeline T) :
  swapFile (foldl unlock_block u l) = swapFile u /\ sched (foldl unlock_block u l) = sched u.
Proof.
  revert u. induction l as [|i l IH]; intros u; [done|]. cbn [foldl]. destruct (IH (unlock_block u i)) as [-> ->].
  unfold unlock_block. destruct (activeReadBlocks u !! i) as [n|]; [|done]. by destruct (n =? 1).
Qed.

(** The locks of a read leave the backend alone. *)
Lemma lock_writer b s e : sched (rw_pipe b) = [] ->
  exists b', on_writer (pw_LockForRead already_exists s e) b = (Ok tt, b') /\ reader_of b' = reader_of b /\ rw_id b' = rw_id b /\
    sched (rw_pipe b') = [].
Proof.
  intros Hs. eexists. split_and!.
  - unfold on_writer, pw_LockForRead, dp_LockForRead, on_pipeline, LockForRead, bind. cbn [fst snd]. rewrite (Lock_alone _ Hs). reflexivity.
  - done.
  - done.
  - done.
Qed.
Lemma unlock_writer b s e : sched (rw_pipe b) = [] ->
  exists b', on_writer (pw_UnlockForRead already_exists s e) b = (Ok tt, b') /\ reader_of b' = reader_of b /\ rw_id b' = rw_id b /\
    sched (rw_pipe b') = [].
Proof.
  intros Hs. eexists. split_and!.
  - unfold on_writer, pw_UnlockForRead, dp_UnlockForRead, on_pipeline, UnlockForRead, bind. cbn [fst snd]. rewrite (Lock_alone _ Hs). reflexivity.
  - unfold reader_of. cbn. by rewrite (proj1 (unlock_blocks_keep _ _)).
  - done.
  - cbn. by rewrite (proj2 (unlock_blocks_keep _ _)).
Qed.
Lemma on_reader_run {A} b (m : M (Throttler L * (list ReadBuffer * T)) fault A) r w' : m (reader_of b) = (r, w') ->
  exists b', on_reader m b = (r, b') /\ reader_of b' = w' /\ rw_id b' = rw_id b /\ sched (rw_pipe b') = sched (rw_pipe b).
Proof.
  intros Hm. unfold on_reader. fold (reader_of b). rewrite Hm. destruct w' as [t [bufs st]]. eexists. split; [reflexivity|]. done.
Qed.

(** A read whose first round ends it. *)
Lemma rw_Read_first_round b now dst off n err q w' :
  sched (rw_pipe b) = [] -> dst <> [] -> rb_Read temp (rw_id b) dst off (reader_of b) = (Ok (n, err, q), w') ->
  match err with Some e => is_EOF e = false | None => length q = length dst /\ n = Z.of_nat (length dst) end ->
  exists b', rw_Read already_exists temp now dst off b = (Ok (n, None, q), b') /\ reader_of b' = w' /\ rw_id b' = rw_id b /\
    sched (rw_pipe b') = [].
Proof.
  intros Hs Hd Hread Herr. assert (Hl : (0 < length dst)%nat) by (destruct dst; [done|cbn; lia]).
  destruct (lock_writer b off (off + Z.of_nat (length dst)) Hs) as (b1 & Hlock & Hr1 & Hi1 & Hs1).
  set (b2 := mkDirectRWBuffer (rw_thr b1) (rw_bufs b1) (rw_id b1) (rw_dirty b1) (rw_pipe b1) now).
  assert (Hr2 : reader_of b2 = reader_of b) by (by rewrite <- Hr1).
  rewrite <- Hr2 in Hread. destruct (on_reader_run b2 _ _ _ Hread) as (b3 & Hrun & Hr3 & Hi3 & Hs3). cbn [b2 rw_pipe rw_id] in Hs3, Hi3. rewrite Hs1 in Hs3.
  destruct (unlock_writer b3 off (off + Z.of_nat (length dst)) Hs3) as (b4 & Hunlock & Hr4 & Hi4 & Hs4).
  exists b4. split_and!; [|congruence|congruence|done]. unfold rw_Read. erewrite bind_ok by exact Hlock.
  erewrite bind_ok by (unfold access, modify; reflexivity). fold b2.
  assert (Hloop : rw_read_loop already_exists temp (S (length dst)) dst 0 off None false false b2 = (Ok (n, None, q), b3)).
  { cbn [rw_read_loop]. rewrite (proj2 (Z.ltb_lt _ _)) by lia. cbn [negb andb orb]. unfold bind at 1, gets, Datatypes.id.
    cbn [b2 rw_id] in *. change (Z.to_nat 0) with 0%nat. cbn [drop]. rewrite Hi1. erewrite bind_ok by exact Hrun. change (take 0 dst) with (@nil byte). cbn [app]. rewrite Z.add_0_l.
    destruct err as [e|]; [by rewrite Herr|]. destruct Herr as [Hq ->]. rewrite Hq, Z.leb_refl. done. }
  erewrite bind_ok by exact Hloop. erewrite bind_ok by exact Hunlock. done.
Qed.

(** Reads do not see what was written.  Whatever was written through the handle and
    is not uploaded yet, a read within the file as the backend has it fills the
    caller's buffer with the backend's bytes. *)
Theorem rw_Read_ignores_dirty b rb c d now dst off :
  goes_on (rw_id b) rb c (reader_of b) -> rb_alive rb = true -> 0 < rb_blockSize rb -> has_file c (rb_ino rb) (rb_blockSize rb) d ->
  sched (rw_pipe b) = [] -> dst <> [] -> 0 <= off -> off + Z.of_nat (length dst) <= Z.of_nat (length d) ->
  IsSequentialMode (Monitor off (Z.of_nat (length dst)) (rb_monitor rb)) = true \/ Throttler.IsFull (rw_thr b) = false ->
  exists b', rw_Read already_exists temp now dst off b =
    (Ok (Z.of_nat (length dst), None, take (length dst) (drop (Z.to_nat off) d)), b') /\ sched (rw_pipe b') = [] /\
    goes_on (rw_id b') (with_rb_monitor (Monitor off (Z.of_nat (length dst)) (rb_monitor rb)) rb) c (reader_of b').
Proof.
  intros Hgo Ha HB Hf Hs Hd Hoff Hlen Hmode.
  destruct (rb_Read_run temp (reader_of b) c (rw_id b) rb d dst off Hgo Ha HB Hf Hd Hoff Hlen Hmode) as (w' & Hrun & Hgo').
  destruct (rw_Read_first_round b now dst off _ _ _ w' Hs Hd Hrun) as (b' & Hread & Hr & Hi & Hs').
  { split; [|done]. rewrite length_take, length_drop. lia. }
  exists b'. split_and!; [done|done|]. by rewrite Hi, Hr.
Qed.

(** The error of a read is lost: when the read buffer fails with an error that is not
    EOF, the call returns no error, and the bytes that were read before it as all
    there are. *)
Theorem rw_Read_drops_error b now dst off n e q w' :
  sched (rw_pipe b) = [] -> dst <> [] -> rb_Read temp (rw_id b) dst off (reader_of b) = (Ok (n, Some e, q), w') -> is_EOF e = false ->
  exists b', rw_Read already_exists temp now dst off b = (Ok (n, None, q), b').
Proof.
  intros Hs Hd Hread He. destruct (rw_Read_first_round b now dst off n (Some e) q w' Hs Hd Hread He) as (b' & H & _). by exists b'.
Qed.
End read_props.

(** * The size of a file *)

Section size_props.
Context {L : Type} {LL : Lru L} {T : Type} {SB : StorageBackend T} {S : Type} `{MetaServiceClient S}.
Context (already_exists : error -> bool) (temp : bool) (range : gmap Z Block -> list (Z * Block)).

(** C38 A write can make a file shorter.  A handle compares the end of a write with the
    size the file had when it was opened: if the file has grown since, by another
    handle, and the write ends between the two sizes, the size of the file becomes the
    end of the write. *)
Theorem WriteAt_shrinks_file (h : FileHandle L T S) now p off n b' :
  rw_Write already_exists temp range now p off (fh_buffer h) = (Ok (n, None), b') ->
  fh_size h < n + off < fh_Size h ->
  exists h', fh_WriteAt already_exists temp range now p off h = (Ok (n, None), h') /\ fh_Size h' = n + off /\ fh_Size h' < fh_Size h.
Proof.
  intros Hw Hsize. unfold fh_Size in *. eexists. split_and!.
  - unfold fh_WriteAt. erewrite bind_ok by (unfold on_buffer; rewrite Hw; reflexivity). cbv beta iota.
    erewrite bind_ok by (instantiate (1 := (if 0 <? n then with_hasWrite true else Datatypes.id) (mkFileHandle b' (fh_hasWrite h) (fh_size h) (fh_attr h) (fh_meta h)));
      by destruct (0 <? n)).
    unfold bind at 1, gets, Datatypes.id at 1. assert (E : fh_size ((if 0 <? n then with_hasWrite true else Datatypes.id)
      (mkFileHandle b' (fh_hasWrite h) (fh_size h) (fh_attr h) (fh_meta h))) = fh_size h) by (by destruct (0 <? n)).
    rewrite E, (proj2 (Z.ltb_lt _ _)) by lia. reflexivity.
  - done.
  - cbn. lia.
Qed.
End size_props.

(** * Examples *)

#[local] Existing Instances copying copying_own.

(** The file [7] of two bytes, opened for reading and writing. *)
Definition opened_handle (sc : list event) : DirectRWBuffer list_lru MemStorageBackend :=
  mkDirectRWBuffer (opened two_bytes).1 (opened two_bytes).2.1 0 NewPageWriter
    (NewUploadPipeline 7 2 2 2 (mkPageContext 2 2 0 1) two_bytes sc) 0.
(** Its first byte was written. *)
Definition written_handle : DirectRWBuffer list_lru MemStorageBackend :=
  (rw_Write never true map_to_list 0 [x09] 0 (opened_handle [])).2.

(** A handle does not read what it wrote.  The file is read, overwritten and flushed
    through one handle: the backend has the new bytes, and the next read returns the
    old ones. *)
Theorem handle_misses_own_write :
  let r := (rw_Read never true 0 [x00; x00] 0 ;;; rw_Write never true map_to_list 0 [x03; x04] 0 ;;; rw_Flush never map_to_list ;;;
            rw_Read never true 0 [x00; x00] 0) (opened_handle [Caller; Caller; Caller; Caller; Caller; Upload 0; Caller; Caller; Caller]) in
  r.1 = Ok (2, None, [x01; x02]) /\ backed (storage (swapFile (rw_pipe r.2))) !! NewBlockKey 7 0 = Some [x03; x04].
Proof. vm_compute. split; reflexivity. Qed.

Lemma rw_Read_ignores_dirty_witness :
  exists b', rw_Read never true 0 [x00; x00] 0 written_handle = (Ok (2, None, [x01; x02]), b') /\
    sched (rw_pipe b') = [] /\
    fst (rw_Read never true 0 [x00] 0 (opened_handle [])) = Ok (1, None, [x01]).
Proof.
  destruct (rw_Read_ignores_dirty (BS := copying_spec 2) never true written_handle
    (mkReadBuffer 7 2 ∅ NewPattern (NewSwapFile 2 2 2 (mkPageContext 2 2 0 1) tt) 0 true false) {[(7%N, 0%N) := [x01; x02]]} [x01; x02] 0 [x00; x00] 0)
    as (b' & Hr & Hs & _).
  - replace (reader_of written_handle) with (opened two_bytes) by (vm_compute; reflexivity).
    eexists tt, _. split; [exact opened_reading|]. split; [reflexivity|]. by split_and!.
  - reflexivity.
  - reflexivity.
  - split; [unfold MaxInt; cbn; lia|]. intros i Hi. cbn in Hi. assert (i = 0%N) as -> by lia. reflexivity.
  - vm_compute. reflexivity.
  - done.
  - lia.
  - cbn. lia.
  - left. reflexivity.
  - exists b'. split_and!; [exact Hr|exact Hs|vm_compute; reflexivity].
Defined.

(** A backend that is down. *)
#[local] Instance down : StorageBackend unit := {
  sb_Read _ := throw (Fails (ErrOther "unavailable"));
  sb_Write _ _ := throw (Fails (ErrOther "unavailable"));
  sb_WriteAt _ _ _ := throw (Fails (ErrOther "unavailable"));
  sb_Delete _ := throw (Fails (ErrOther "unavailable"));
  sb_Array _ _ := None;
  sb_Peek _ _ := [];
  sb_Poke _ _ t := t }.
Definition down_handle : DirectRWBuffer list_lru unit :=
  mkDirectRWBuffer (opened two_bytes).1 (opened two_bytes).2.1 0 NewPageWriter
    (NewUploadPipeline 7 2 2 2 (mkPageContext 2 2 0 1) tt []) 0.
Lemma rw_Read_drops_error_witness :
  exists b', rw_Read never true 0 [x00; x00] 0 down_handle = (Ok (0, None, [x00; x00]), b').
Proof.
  eapply (rw_Read_drops_error never true down_handle 0 [x00; x00] 0 0 (ErrOther "unavailable") [x00; x00]).
  - reflexivity.
  - done.
  - vm_compute. reflexivity.
  - reflexivity.
Defined.

(** A handle that was opened when the file was empty; it has 10 bytes now. *)
Definition old_handle : FileHandle list_lru MemStorageBackend unit :=
  let t := {| Unix := 0; Nanosecond := 0 |} in
  mkFileHandle (opened_handle []) false 0 (VfsFs.mkDirty 7 t t t 0 10 1 EmptyString 0 0 0 true) tt.
Lemma WriteAt_shrinks_file_witness :
  exists h', fh_WriteAt never true map_to_list 0 [x09] 0 old_handle = (Ok (1, None), h') /\ fh_Size h' = 1 /\ fh_Size h' < fh_Size old_handle.
Proof.
  eapply (WriteAt_shrinks_file never true map_to_list old_handle 0 [x09] 0 1).
  - vm_compute. reflexivity.
  - cbn. lia.
Defined.
