(* ===== verification/MetaClient.v ===== *)
(** What the client relies on when it calls the metadata service, as the class
    [MetaSpec]: every call answers and changes the tree as Tree.v says.  The
    inode service of NodeService.v is an instance, for every badger that behaves
    as documented. *)
From stdpp Require Import prelude gmap strings list fin_maps.
From S2P Require Import Prelude Store Badger FileMode FreeList Attr NodeService Tree TreeInv.
From S2P Require Import NodeRefine NodeRename NodeSim NodeRmdir VfsFs.

(** * The contract *)

(** A call answers as [f] does and leaves the tree [f] leaves. *)
Definition performs {S A} (serves : S -> tree -> Prop) (m : M S error A) (f : tree -> result A) : Prop :=
  forall s t, serves s t -> (m s).1 = (f t).1 /\ serves (m s).2 (f t).2.

(** Names other than the two dots, as the kernel sends them. *)
Definition plain_name (n : string) : Prop := valid_name n /\ n <> "."%string /\ n <> ".."%string.

Class MetaSpec (S : Type) `{MetaServiceClient S} := {
  holds : S -> tree -> Prop;
  spec_CreateInode parent name req now : valid_name name ->
    performs holds (mc_CreateInode parent name req now) (t_create parent name req now);
  spec_Link ino parent name now : valid_name name ->
    performs holds (mc_Link ino parent name now) (t_link ino parent name now);
  spec_DeleteInode parent name now : plain_name name ->
    performs holds (mc_DeleteInode parent name now) (t_unlink parent name now now);
  spec_DeleteDirInode parent name now : valid_name name ->
    performs holds (mc_DeleteDirInode parent name now) (t_rmdir parent name now);
  spec_Rename ctx src dst o n flags now : valid_name o -> valid_name n ->
    performs holds (mc_Rename ctx src dst o n flags now) (t_rename ctx src dst o n flags now);
  spec_GetInodeAttr ino : performs holds (mc_GetInodeAttr ino) (t_getattr ino);
  spec_UpdateInodeAttr ctx ino set req now :
    performs holds (mc_UpdateInodeAttr ctx ino set req now) (t_update ctx ino set req now);
  spec_ListItemUnderInode p s t : holds s t ->
    (forall n e, entries t !! (p, n) = Some e -> is_Some (attrs t !! e_Ino e)) ->
    exists l, (mc_ListItemUnderInode p true s).1 = Ok l /\ l ≡ₚ t_list p true t /\
      holds (mc_ListItemUnderInode p true s).2 t;
}.

(** * The inode service *)

Section service.
Context {B : Badger} {C : Copier}.

(** One time serves for both clocks a deletion reads, and one level of recursion
    is all [DeleteDirInode] uses. *)
#[global] Instance service_client : MetaServiceClient (Service (BadgerStore B)) := {|
  mc_CreateInode parent name req now := CreateInode parent name (Some req) now;
  mc_Link := Link;
  mc_DeleteInode parent name now := DeleteInode parent name now now;
  mc_DeleteDirInode := DeleteDirInode 1;
  mc_Rename := Rename;
  mc_ListItemUnderInode := ListItemUnderInode;
  mc_GetInodeAttr := GetInodeAttr;
  mc_UpdateInodeAttr := UpdateInodeAttr;
|}.

Context `{!BadgerSpec B, !CopierSpec C}.

Lemma ListItemUnderInode_serves p (s : Service (BadgerStore B)) t :
  serves s t ->
  (forall n e, entries t !! (p, n) = Some e -> is_Some (attrs t !! e_Ino e)) ->
  exists l, (ListItemUnderInode p true s).1 = Ok l /\ l ≡ₚ t_list p true t /\
    serves (ListItemUnderInode p true s).2 t.
Proof.
  intros Hs Hp. destruct (ListItemUnderInode_mem p true _ t Hs (fun _ => Hp)) as (l & E & Hl).
  rewrite (sim_ListItemUnderInode abs_store) in E. exists l. unfold serves.
  destruct (ListItemUnderInode p true s) as [r s']. apply pair_equal_spec in E as [E1 E2].
  unfold id in *. cbn [fst snd] in *. by rewrite E1, E2.
Qed.

#[global] Instance service_spec : MetaSpec (Service (BadgerStore B)).
Proof.
  unshelve econstructor; [exact serves|..].
  - intros. eapply implements_refines; [apply sim_CreateInode; apply _|by apply CreateInode_mem].
  - intros. eapply implements_refines; [apply sim_Link; apply _|by apply Link_mem].
  - intros p n now (? & ? & ?).
    eapply implements_refines; [apply sim_DeleteInode; apply _|by apply DeleteInode_mem].
  - intros. eapply implements_refines; [apply sim_DeleteDirInode; apply _|by apply DeleteDirInode_mem].
  - intros. eapply implements_refines; [apply sim_Rename; apply _|by apply Rename_mem].
  - intros. eapply implements_refines; [apply sim_GetInodeAttr; apply _|apply GetInodeAttr_mem].
  - intros. eapply implements_refines; [apply sim_UpdateInodeAttr; apply _|apply UpdateInodeAttr_mem].
  - apply ListItemUnderInode_serves.
Defined.
End service.
