(* ===== verification/Vfs.v ===== *)
(** The client's tree of directories and files (src/pkg/hugofs/vfs/dir.go, file.go,
    vfs.go, handle_dir.go, api.go, errors.go): a cache of the metadata service,
    made of nodes that point to each other, in a heap.  Nodes are [NDir] and
    [NFile]; a pointer is the index of a node in the heap. *)
From Stdlib Require Import Ascii.
From stdpp Require Import prelude gmap strings list fin_maps.
From S2P Require Import Prelude Store FileMode Attr NodeService VfsFs.

(** * Errors *)

(** The errors of errors.go, an error of the service, and [Diverges] for a call
    that never returns: a walk over pointers that does not end, or a goroutine
    that waits for a lock it holds itself. *)
Inductive verror := V_ENOENT | V_EEXIST | V_EINVAL | V_ENOTEMPTY | V_ENOTDIR | Remote (e : error) | Diverges.

(** * Paths *)

(** [strings.Split(s, "/")]. *)
Fixpoint split_slash (s : string) : list string :=
  match s with
  | EmptyString => [EmptyString]
  | String a s' =>
      if bool_decide (a = "/"%char) then EmptyString :: split_slash s'
      else match split_slash s' with
           | x :: r => String a x :: r
           | [] => [String a EmptyString]
           end
  end.
Fixpoint join_slash (l : list string) : string :=
  match l with
  | [] => ""
  | [x] => x
  | x :: r => (x +:+ "/" +:+ join_slash r)%string
  end.

(** The elements of [path.Clean]: [.] goes, [..] takes its predecessor with it. *)
Fixpoint clean_elems (rooted : bool) (l acc : list string) : list string :=
  match l with
  | [] => rev acc
  | x :: r =>
      if bool_decide (x = ""%string) || bool_decide (x = "."%string) then clean_elems rooted r acc
      else if bool_decide (x = ".."%string) then
        match acc with
        | y :: acc' => if bool_decide (y = ".."%string) then clean_elems rooted r (x :: acc)
                       else clean_elems rooted r acc'
        | [] => if rooted then clean_elems rooted r [] else clean_elems rooted r [x]
        end
      else clean_elems rooted r (x :: acc)
  end.
Definition is_rooted (s : string) : bool := has_prefix "/" s.
Definition path_Clean (p : string) : string :=
  let r := join_slash (clean_elems (is_rooted p) (split_slash p) []) in
  if is_rooted p then ("/" +:+ r)%string else if bool_decide (r = ""%string) then "."%string else r.

(** [path.Join(a, b)]: empty elements are ignored. *)
Definition path_Join (a b : string) : string :=
  if bool_decide (a = ""%string) then (if bool_decide (b = ""%string) then "" else path_Clean b)
  else if bool_decide (b = ""%string) then path_Clean a
  else path_Clean (a +:+ "/" +:+ b).

(** [path.Base]. *)
Definition path_Base (p : string) : string :=
  if bool_decide (p = ""%string) then "."%string
  else match filter (fun x => x <> ""%string) (split_slash p) with
       | [] => "/"%string
       | l => default "" (last l)
       end.

(** [strings.Trim(s, "/")]. *)
Fixpoint trim_left (s : string) : string :=
  match s with
  | String a s' => if bool_decide (a = "/"%char) then trim_left s' else s
  | EmptyString => s
  end.
Fixpoint trim_right (s : string) : string :=
  match s with
  | EmptyString => EmptyString
  | String a s' =>
      let r := trim_right s' in
      if bool_decide (a = "/"%char) && bool_decide (r = ""%string) then EmptyString else String a r
  end.
Definition Trim (s : string) : string := trim_left (trim_right s).

(** * State *)

Abbreviation loc := nat (only parsing).

Record items := mkItems { nodes : gmap string loc; health : gmap string bool }.
Definition newItems : items := mkItems ∅ ∅.

(** [read] is None for the zero time. *)
Record Dir := mkDir {
  d_inode : N;
  d_Parent : option loc;
  d_path : string;
  d_items : items;
  d_read : option Time;
  d_embeded : DirtyAttr }.

(** What the closure [renameCall] has captured. *)
Record rename_call := RenameCall { rc_oldName : string; rc_destDir : loc; rc_newName : string }.

(** Handles are numbered.  [pendingRenameFun] lists the calls it makes, as each
    closure runs the previous one first; it is empty for nil. *)
Record File := mkFile {
  f_inode : N;
  leaf : string;
  writers : list nat;
  readers : list nat;
  pendingRenameFun : list rename_call;
  f_d : loc;
  dPath : string;
  f_embeded : DirtyAttr }.

Inductive vnode := NDir (d : Dir) | NFile (f : File).

Record VFS (S : Type) := mkVFS {
  heap : list vnode;
  nodeMap : gmap string loc;
  vroot : loc;
  opened : nat;
  server : S }.
Arguments mkVFS {S}.
Arguments heap {S}.
Arguments nodeMap {S}.
Arguments vroot {S}.
Arguments opened {S}.
Arguments server {S}.

Definition with_items (x : items) (d : Dir) : Dir := mkDir (d_inode d) (d_Parent d) (d_path d) x (d_read d) (d_embeded d).
Definition with_read (x : option Time) (d : Dir) : Dir :=
  mkDir (d_inode d) (d_Parent d) (d_path d) (d_items d) x (d_embeded d).
Definition with_Parent (x : option loc) (d : Dir) : Dir :=
  mkDir (d_inode d) x (d_path d) (d_items d) (d_read d) (d_embeded d).
Definition with_path (x : string) (d : Dir) : Dir :=
  mkDir (d_inode d) (d_Parent d) x (d_items d) (d_read d) (d_embeded d).
Definition with_d_embeded (x : DirtyAttr) (d : Dir) : Dir :=
  mkDir (d_inode d) (d_Parent d) (d_path d) (d_items d) (d_read d) x.
Definition with_f_embeded (x : DirtyAttr) (f : File) : File :=
  mkFile (f_inode f) (leaf f) (writers f) (readers f) (pendingRenameFun f) (f_d f) (dPath f) x.
Definition with_pending_rename (x : list rename_call) (f : File) : File :=
  mkFile (f_inode f) (leaf f) (writers f) (readers f) x (f_d f) (dPath f) (f_embeded f).
Definition with_place (d : loc) (p n : string) (f : File) : File :=
  mkFile (f_inode f) n (writers f) (readers f) [] d p (f_embeded f).
Definition with_handles (w r : list nat) (f : File) : File :=
  mkFile (f_inode f) (leaf f) w r (pendingRenameFun f) (f_d f) (dPath f) (f_embeded f).

(** [Inode], [Mode], [embeded] of a node. *)
Definition node_Inode (n : vnode) : N := match n with NDir d => d_inode d | NFile f => f_inode f end.
Definition node_embeded (n : vnode) : DirtyAttr := match n with NDir d => d_embeded d | NFile f => f_embeded f end.
Definition with_embeded (x : DirtyAttr) (n : vnode) : vnode :=
  match n with NDir d => NDir (with_d_embeded x d) | NFile f => NFile (with_f_embeded x f) end.
Definition Dir_Name (d : Dir) : string :=
  let name := path_Base (d_path d) in if bool_decide (name = "."%string) then "/"%string else name.
Definition node_Name (n : vnode) : string := match n with NDir d => Dir_Name d | NFile f => leaf f end.
(** A [File] asks its mode. *)
Definition node_IsDir (n : vnode) : bool :=
  match n with NDir _ => true | NFile f => FileMode_IsDir (da_mode (f_embeded f)) end.
Definition node_IsFile (n : vnode) : bool :=
  match n with NDir _ => false | NFile f => FileMode_IsRegular (da_mode (f_embeded f)) end.

Definition newNodeKey (ino : N) (name : string) : string := (itoa ino +:+ "-" +:+ name)%string.
Definition belongTo (ino : N) (k : string) : bool := has_prefix (itoa ino +:+ "-")%string k.

(** * Operations *)

Section vfs.
Context {S : Type} `{MetaServiceClient S}.
(** Options of the mount: owner, mask and how long a listing is valid. *)
Context (mountUID mountGID Umask : N) (DirCacheTime : Z).
(** The order in which Go walks a map of nodes. *)
Context (range : gmap string loc -> list (string * loc)).

Abbreviation VM A := (M (VFS S) verror A).

(** ** The heap and the service *)

Definition load (l : loc) : VM vnode := n <- gets (fun v => heap v !! l) ;; deref n.
(** [n.( *Dir)] and [n.( *File)] panic on the other kind. *)
Definition load_dir (l : loc) : VM Dir := n <- load l ;; match n with NDir d => ret d | NFile _ => go_panic end.
Definition load_file (l : loc) : VM File := n <- load l ;; match n with NFile f => ret f | NDir _ => go_panic end.
Definition store (l : loc) (n : vnode) : VM unit :=
  modify (fun v => mkVFS (<[l := n]> (heap v)) (nodeMap v) (vroot v) (opened v) (server v)).
Definition alloc (n : vnode) : VM loc := fun v =>
  (Ok (length (heap v)), mkVFS (heap v ++ [n]) (nodeMap v) (vroot v) (opened v) (server v)).
Definition on_dir (l : loc) (f : Dir -> Dir) : VM unit := d <- load_dir l ;; store l (NDir (f d)).
Definition on_file (l : loc) (f : File -> File) : VM unit := x <- load_file l ;; store l (NFile (f x)).
Definition on_embeded (l : loc) (f : DirtyAttr -> DirtyAttr) : VM unit :=
  n <- load l ;; store l (with_embeded (f (node_embeded n)) n).

Definition call {A} (m : M S error A) : VM A := fun v =>
  let '(r, s) := m (server v) in
  (match r with Ok a => Ok a | Err e => Err (Remote e) | Panic => Panic end,
   mkVFS (heap v) (nodeMap v) (vroot v) (opened v) s).

Definition with_nodeMap (f : gmap string loc -> gmap string loc) : VM unit :=
  modify (fun v => mkVFS (heap v) (f (nodeMap v)) (vroot v) (opened v) (server v)).
Definition addNode (l : loc) : VM unit :=
  n <- load l ;;
  let key := newNodeKey (node_Inode n) (node_Name n) in
  with_nodeMap (fun m => match m !! key with Some _ => m | None => <[key := l]> m end).
Definition deleteNode (ino : N) (name : string) : VM unit := with_nodeMap (delete (newNodeKey ino name)).
Definition getNodes (ino : N) (v : VFS S) : list loc :=
  (List.filter (fun p => belongTo ino p.1) (range (nodeMap v))).*2.

(** ** Paths of nodes *)

(** A chain of parents longer than the heap has a cycle. *)
Fixpoint dir_path (fuel : nat) (l : loc) : VM string :=
  match fuel with
  | O => throw Diverges
  | Datatypes.S fuel =>
      d <- load_dir l ;;
      match d_Parent d with
      | None => ret (d_path d)
      | Some p => pp <- dir_path fuel p ;; ret (path_Join pp (d_path d))
      end
  end.
Definition Dir_Path (l : loc) : VM string := n <- gets (fun v => length (heap v)) ;; dir_path (1 + n) l.
Definition File_Path (f : File) : string := path_Join (dPath f) (leaf f).

(** ** Attributes *)

Definition _reloadAttr (l : loc) : VM unit :=
  n <- load l ;;
  r <-? call (fs_Get (node_Inode n)) ;;
  match r with
  | inl entry => on_embeded l (unwrap entry)
  | inr (Remote (Status NotFound)) => on_embeded l (SetNlink 0)
  | inr e => throw e
  end.
Definition Reload (l : loc) : VM unit := _reloadAttr l.

Definition node_Flush (ctx : Context) (l : loc) (now : nat -> Time) : VM unit :=
  n <- load l ;;
  a <- call (Flush ctx (node_embeded n) now) ;;
  on_embeded l (fun _ => a) ;;;
  match n with NDir _ => on_dir l (with_read None) | NFile _ => ret tt end.

(** ** Items *)

Definition items_Len (i : items) : nat := size (nodes i).
Definition items_Delete (name : string) (i : items) : items := mkItems (delete name (nodes i)) (delete name (health i)).
Definition items_Set (name : string) (l : loc) (i : items) : items :=
  mkItems (<[name := l]> (nodes i)) (<[name := true]> (health i)).
Definition invalidate (i : items) : items := mkItems (nodes i) ((fun _ => false) <$> health i).
Definition healthy (name : string) (i : items) : items := mkItems (nodes i) (<[name := true]> (health i)).

Definition newDirEntry (parent : option loc) (e : FsEntry) : VM loc :=
  alloc (NDir (mkDir (fe_Inode e) parent (fe_Name e) newItems None (ToDirtyAttr e))).
Definition newFileEntry (d : loc) (path : string) (e : FsEntry) : VM loc :=
  alloc (NFile (mkFile (fe_Inode e) (fe_Name e) [] [] [] d path (ToDirtyAttr e))).

Definition updateOrInplace (l : loc) (entry : FsEntry) : VM loc :=
  d <- load_dir l ;;
  let name := fe_Name entry in
  match nodes (d_items d) !! name with
  | Some c =>
      n <- load c ;;
      (if node_IsDir n then x <- load_dir c ;; store c (NDir (with_d_embeded (unwrap entry (d_embeded x)) x))
       else x <- load_file c ;; store c (NFile (with_f_embeded (unwrap entry (f_embeded x)) x))) ;;;
      on_dir l (fun d => with_items (healthy name (d_items d)) d) ;;;
      ret c
  | None =>
      c <- (if fe_IsDir entry then newDirEntry (Some l) entry
            else p <- Dir_Path l ;; newFileEntry l p entry) ;;
      on_dir l (fun d => with_items (items_Set name c (d_items d)) d) ;;;
      ret c
  end.

(** The names that were not seen again are forgotten. *)
Fixpoint clean_loop (l : loc) (names : list string) : VM unit :=
  match names with
  | [] => ret tt
  | name :: rest =>
      d <- load_dir l ;;
      c <- deref (nodes (d_items d) !! name) ;;
      n <- load c ;;
      deleteNode (node_Inode n) name ;;;
      on_dir l (fun d => with_items (items_Delete name (d_items d)) d) ;;;
      clean_loop l rest
  end.
Definition clean (l : loc) : VM unit :=
  d <- load_dir l ;;
  clean_loop l (List.filter (fun p : string * bool => negb p.2) (map_to_list (health (d_items d)))).*1.

(** ** Reading a directory *)

Definition _age (when : Time) (d : Dir) : Z * bool :=
  match d_read d with
  | None => (0%Z, true)
  | Some t => (time_Sub when t, (DirCacheTime <? time_Sub when t)%Z)
  end.

(** [rec] reads a child in turn. *)
Fixpoint read_entries (rec : option (loc -> VM unit)) (l : loc) (entries : list FsEntry) : VM unit :=
  match entries with
  | [] => ret tt
  | entry :: rest =>
      node <- updateOrInplace l entry ;;
      match rec with
      | Some f => if fe_IsDir entry then load_dir node ;;; f node else ret tt
      | None => ret tt
      end ;;;
      read_entries rec l rest
  end.

Definition readDir_with (rec : option (loc -> VM unit)) (l : loc) (when : Time) : VM unit :=
  d <- load_dir l ;;
  if negb (_age when d).2 then ret tt else
  entries <- call (fs_List (d_inode d)) ;;
  on_dir l (fun d => with_items (invalidate (d_items d)) d) ;;;
  read_entries rec l entries ;;;
  clean l ;;;
  (r <-? _reloadAttr l ;; ret tt) ;;;
  on_dir l (with_read (Some when)).
Definition _readDir (l : loc) (when : Time) : VM unit := readDir_with None l when.

(** Recursion over the tree, with a bound on its depth. *)
Fixpoint readDirRecursive (depth : nat) (l : loc) (when : Time) : VM unit :=
  match depth with
  | O => throw Diverges
  | Datatypes.S depth => readDir_with (Some (fun c => readDirRecursive depth c when)) l when
  end.

Definition isEmpty (l : loc) (now : Time) : VM bool :=
  _readDir l now ;;;
  d <- load_dir l ;; ret (bool_decide (items_Len (d_items d) = 0%nat)).

Definition stat (l : loc) (name : string) (now : Time) : VM loc :=
  _readDir l now ;;;
  d <- load_dir l ;;
  match nodes (d_items d) !! name with Some c => ret c | None => throw V_ENOENT end.
Definition Dir_Stat (l : loc) (name : string) (now : Time) : VM loc := stat l name now.

(** ** Listing *)

(** [sort.Stable] by inode number. *)
Fixpoint insert_node (n : N * loc) (l : list (N * loc)) : list (N * loc) :=
  match l with
  | [] => [n]
  | m :: r => if (m.1 <? n.1)%N then m :: insert_node n r else n :: m :: r
  end.
Fixpoint inodes_of (l : list loc) : VM (list (N * loc)) :=
  match l with
  | [] => ret []
  | c :: r => n <- load c ;; x <- inodes_of r ;; ret ((node_Inode n, c) :: x)
  end.
Definition SortItems (l : loc) : VM (list loc) :=
  d <- load_dir l ;;
  x <- inodes_of (range (nodes (d_items d))).*2 ;;
  ret (foldr insert_node [] x).*2.
Definition ReadDirAll (l : loc) (now : Time) : VM (list loc) := _readDir l now ;;; SortItems l.

(** A [DirHandle] and what [Readdir] has still to return; None for nil. *)
Record DirHandle := mkDirHandle { dh_d : loc; fis : option (list loc) }.
Definition newDirHandle (l : loc) : DirHandle := mkDirHandle l None.
(** None stands for [io.EOF]. *)
Definition Readdir (h : DirHandle) (n : Z) (now : Time) : VM (option (list loc) * DirHandle) :=
  l <- match fis h with Some l => ret l | None => ReadDirAll (dh_d h) now end ;;
  if (0 <? n)%Z then
    if bool_decide (length l = 0%nat) then ret (None, mkDirHandle (dh_d h) (Some l))
    else ret (Some (take (Z.to_nat n) l), mkDirHandle (dh_d h) (Some (drop (Z.to_nat n) l)))
  else ret (Some l, mkDirHandle (dh_d h) (Some [])).
Definition dh_Close (h : DirHandle) : DirHandle := mkDirHandle (dh_d h) None.

(** ** Changing a directory *)

Definition Dir_delete (l : loc) (name : string) : VM unit :=
  d <- load_dir l ;;
  match nodes (d_items d) !! name with
  | None => ret tt
  | Some c =>
      on_dir l (fun d => with_items (items_Delete name (d_items d)) d) ;;;
      n <- load c ;; deleteNode (node_Inode n) name
  end.

Definition Dir_add (l c : loc) : VM unit :=
  n <- load c ;;
  on_dir l (fun d => with_items (items_Set (node_Name n) c (d_items d)) d) ;;;
  addNode c ;;;
  r <-? _reloadAttr l ;; ret tt.

(** The part [Create], [Symlink], [Link] and [Mkdir] share: a cached name exists. *)
Definition unless_cached {A} (l : loc) (name : string) (k : Dir -> VM A) : VM A :=
  d <- load_dir l ;;
  match nodes (d_items d) !! name with Some _ => throw V_EEXIST | None => k d end.

Definition Dir_Create (ctx : Context) (l : loc) (name : string) (mode rdev : N) (now now' : Time) : VM loc :=
  unless_cached l name (fun d =>
  entry <- call (fs_Create mountUID mountGID ctx (d_inode d) name mode rdev now now') ;;
  p <- Dir_Path l ;;
  f <- newFileEntry l p entry ;;
  Dir_add l f ;;; ret f).

Definition Dir_Symlink (ctx : Context) (l : loc) (target linkName : string) (now now' : Time) : VM loc :=
  unless_cached l linkName (fun d =>
  entry <- call (fs_Symlink mountUID mountGID Umask ctx (d_inode d) target linkName now now') ;;
  p <- Dir_Path l ;;
  f <- newFileEntry l p entry ;;
  Dir_add l f ;;; ret f).

Definition Dir_Link (l target : loc) (linkName : string) (now : Time) : VM loc :=
  unless_cached l linkName (fun d =>
  t <- load target ;;
  entry <- call (fs_Link (node_Inode t) (d_inode d) linkName now) ;;
  p <- Dir_Path l ;;
  f <- newFileEntry l p entry ;;
  on_file target (fun x => with_f_embeded (unwrap entry (f_embeded x)) x) ;;;
  Dir_add l f ;;; ret f).

Definition Dir_Mkdir (ctx : Context) (l : loc) (name : string) (mode : N) (now now' : Time) : VM loc :=
  unless_cached l name (fun d =>
  Dir_Path l ;;;
  entry <- call (fs_Mkdir mountUID mountGID ctx (d_inode d) name mode now now') ;;
  c <- newDirEntry (Some l) (with_fe_Name name entry) ;;
  Dir_add l c ;;; ret c).

(** [now'] is the time at the service. *)
Definition Dir_Remove (l : loc) (now now' : Time) : VM unit :=
  empty <- isEmpty l now ;;
  if negb empty then throw V_ENOTEMPTY else
  d <- load_dir l ;;
  p <- deref (d_Parent d) ;;
  pd <- load_dir p ;;
  call (fs_Rmdir (d_inode pd) (Dir_Name d) now') ;;;
  Dir_delete p (Dir_Name d) ;;;
  Reload p.

Definition File_Remove (l : loc) (now' : Time) : VM unit :=
  f <- load_file l ;;
  d <- load_dir (f_d f) ;;
  Dir_delete (f_d f) (leaf f) ;;;
  call (fs_Remove (d_inode d) (leaf f) now') ;;;
  (f <- load_file l ;;
   if (da_nlink (f_embeded f) =? 1)%Z then on_embeded l (SetNlink 0) else ret tt) ;;;
  Reload (f_d f).

Definition node_Remove (l : loc) (now now' : Time) : VM unit :=
  n <- load l ;; match n with NDir _ => Dir_Remove l now now' | NFile _ => File_Remove l now' end.

(** [RemoveAll] of a directory and of a file, with a bound on the depth. *)
Fixpoint remove_list (rec : loc -> VM unit) (l : list loc) : VM unit :=
  match l with [] => ret tt | c :: r => rec c ;;; remove_list rec r end.
Fixpoint RemoveAll (depth : nat) (l : loc) (now now' : Time) : VM unit :=
  match depth with
  | O => throw Diverges
  | Datatypes.S depth =>
      n <- load l ;;
      match n with
      | NFile _ => File_Remove l now'
      | NDir _ =>
          nodes <- ReadDirAll l now ;;
          remove_list (fun c => RemoveAll depth c now now') nodes ;;;
          Dir_Remove l now now'
      end
  end.

(** ** Renaming *)

Fixpoint forget_list (rec : loc -> VM unit) (l : list loc) : VM unit :=
  match l with
  | [] => ret tt
  | c :: r => n <- load c ;; match n with NDir _ => rec c | NFile _ => ret tt end ;;; forget_list rec r
  end.
(** [_path] takes the read locks of the ancestors; [held] are the directories whose
    lock the goroutine holds for writing. *)
Fixpoint path_locks (fuel : nat) (held : list loc) (l : loc) : VM unit :=
  match fuel with
  | O => throw Diverges
  | Datatypes.S fuel =>
      d <- load_dir l ;;
      match d_Parent d with
      | None => ret tt
      | Some p => if bool_decide (p ∈ held) then throw Diverges else path_locks fuel held p
      end
  end.
Fixpoint ForgetAll (depth : nat) (held : list loc) (l : loc) : VM unit :=
  match depth with
  | O => throw Diverges
  | Datatypes.S depth =>
      if bool_decide (l ∈ held) then throw Diverges else
      n <- gets (fun v => length (heap v)) ;;
      path_locks (1 + n) (l :: held) l ;;;
      d <- load_dir l ;;
      forget_list (ForgetAll depth (l :: held)) (range (nodes (d_items d))).*2 ;;;
      on_dir l (fun d => with_items newItems (with_read None d))
  end.

Definition moveTo (depth : nat) (l dstDir : loc) : VM unit :=
  ForgetAll depth [] l ;;;
  on_dir l (fun d => with_read None (with_Parent (Some dstDir) d)) ;;;
  Dir_add dstDir l.

Definition moveChildTo (ctx : Context) (l : loc) (oldName : string) (dstDir : loc) (newName : string)
    (now' : Time) : VM unit :=
  d <- load_dir l ;; t <- load_dir dstDir ;;
  call (fs_Rename ctx (d_inode d) oldName (d_inode t) newName now') ;;; ret tt.

(** [self] is read-locked: reloading it as well waits forever. *)
Fixpoint reload_all (self : loc) (l : list loc) : VM unit :=
  match l with
  | [] => ret tt
  | c :: r => if bool_decide (c = self) then throw Diverges else Reload c ;;; reload_all self r
  end.

(** The body of [renameCall]; the lock it takes for reading at the end is not
    released when a reload fails. *)
Definition run_rename (ctx : Context) (l : loc) (c : rename_call) (now now' : Time) : VM unit :=
  f <- load_file l ;;
  d <- load_dir (f_d f) ;;
  t <- load_dir (rc_destDir c) ;;
  old <-? Dir_Stat (rc_destDir c) (rc_newName c) now ;;
  entry <- call (fs_Rename ctx (d_inode d) (rc_oldName c) (d_inode t) (rc_newName c) now') ;;
  on_file l (fun f => with_f_embeded (unwrap entry (f_embeded f)) f) ;;;
  p <- Dir_Path (rc_destDir c) ;;
  match old with
  | inl o => n <- load o ;; v <- gets Datatypes.id ;; reload_all l (getNodes (node_Inode n) v)
  | inr _ => ret tt
  end ;;;
  on_file l (with_place (rc_destDir c) p (rc_newName c)).
Fixpoint run_renames (ctx : Context) (l : loc) (cs : list rename_call) (now now' : Time) : VM unit :=
  match cs with [] => ret tt | c :: r => run_rename ctx l c now now' ;;; run_renames ctx l r now now' end.

(** A file that is open for writing is renamed when the closure is run, which
    only a later rename does. *)
Definition File_rename (ctx : Context) (l destDir : loc) (newName : string) (now now' : Time) : VM unit :=
  f <- load_file l ;;
  dp <- Dir_Path destDir ;;
  if bool_decide (File_Path f = path_Join dp newName) then ret tt else
  let calls := pendingRenameFun f ++ [RenameCall (leaf f) destDir newName] in
  if bool_decide (writers f = []) then run_renames ctx l calls now now'
  else on_file l (with_pending_rename calls).

Definition refresh_dir (l : loc) (now : Time) : VM unit :=
  on_dir l (with_read None) ;;; r <-? ReadDirAll l now ;; ret tt.

(** The checks on what the new name holds; an error of [Stat] is no obstacle. *)
Definition phantom_check (destDir : loc) (newName : string) (now : Time) : VM unit :=
  r <-? Dir_Stat destDir newName now ;;
  match r with
  | inr _ => ret tt
  | inl ph =>
      n <- load ph ;;
      if node_IsFile n then throw V_ENOTDIR
      else if node_IsDir n then
        load_dir ph ;;;
        e <-? isEmpty ph now ;;
        match e with inl true => ret tt | _ => throw V_ENOTEMPTY end
      else ret tt
  end.

Definition Dir_Rename (ctx : Context) (depth : nat) (l : loc) (oldName newName : string) (destDir : loc)
    (now now' : Time) : VM unit :=
  Dir_Path l ;;; Dir_Path destDir ;;;
  d <- load_dir l ;;
  match nodes (d_items d) !! oldName with
  | None => throw V_ENOENT
  | Some c =>
      n <- load c ;;
      (if node_IsDir n then
         match n with
         | NFile _ => ret tt
         | NDir _ =>
             phantom_check destDir newName now ;;;
             (r <-? moveChildTo ctx l oldName destDir newName now' ;; ret tt) ;;;
             if bool_decide (l <> destDir) then moveTo depth c destDir
             else on_dir c (with_path newName) ;;; Dir_add destDir c
         end
       else match n with NFile _ => File_rename ctx c destDir newName now now' | NDir _ => ret tt end) ;;;
      refresh_dir l now ;;;
      refresh_dir destDir now
  end.

(** ** Visiting *)

Fixpoint visit_list (rec : loc -> VM (list loc)) (l : list loc) : VM (list loc) :=
  match l with
  | [] => ret []
  | c :: r =>
      n <- load c ;;
      x <- match n with NDir _ => rec c | NFile _ => ret [c] end ;;
      y <- visit_list rec r ;; ret (x ++ y)
  end.
(** The nodes [VisitAll] hands to its function, in order; the root is left out
    and what the function returns is not looked at. *)
Fixpoint VisitAll (depth : nat) (l : loc) : VM (list loc) :=
  match depth with
  | O => throw Diverges
  | Datatypes.S depth =>
      d <- load_dir l ;;
      x <- visit_list (VisitAll depth) (range (nodes (d_items d))).*2 ;;
      ret (if bool_decide (Dir_Name d = "/"%string) then x else l :: x)
  end.

Fixpoint with_inode (ino : N) (l : list loc) : VM (list loc) :=
  match l with
  | [] => ret []
  | c :: r => n <- load c ;; x <- with_inode ino r ;; ret (if (node_Inode n =? ino)%N then c :: x else x)
  end.

(** [Dir.Get]: the last node visited that has the number. *)
Definition Dir_Get (depth : nat) (l : loc) (ino : N) : VM (option loc) :=
  d <- load_dir l ;;
  if (d_inode d =? ino)%N then ret (Some l) else
  x <- VisitAll depth l ;; y <- with_inode ino x ;; ret (last y).

Fixpoint try_reloads (l : list loc) : VM unit :=
  match l with [] => ret tt | c :: r => (x <-? Reload c ;; ret tt) ;;; try_reloads r end.
Definition Refresh (depth : nat) (ino : N) : VM unit :=
  root <- gets vroot ;;
  x <- VisitAll depth root ;; y <- with_inode ino x ;; try_reloads y.

(** ** The file system *)

(** Descends along the elements of a path. *)
Fixpoint walk (l : loc) (elems : list string) (now : Time) : VM loc :=
  match elems with
  | [] => ret l
  | name :: rest =>
      if bool_decide (name = ""%string) then walk l rest now
      else
        n <- load l ;;
        match n with
        | NFile _ => throw V_ENOENT
        | NDir _ => c <- Dir_Stat l name now ;; walk c rest now
        end
  end.
Definition Stat (path : string) (now : Time) : VM loc :=
  root <- gets vroot ;; walk root (split_slash (Trim path)) now.

(** [path.Split]: the part up to the last slash and the rest. *)
Definition path_Split (p : string) : string * string :=
  let l := split_slash p in
  (match removelast l with [] => "" | d => join_slash d +:+ "/" end, default "" (last l))%string.

Definition StatParent (name : string) (now : Time) : VM (loc * string) :=
  let '(parent, leaf) := path_Split (Trim name) in
  node <- Stat parent now ;;
  n <- load node ;;
  if node_IsFile n then throw V_EEXIST else load_dir node ;;; ret (node, leaf).

Definition Walk (depth : nat) (path : string) (now : Time) : VM loc :=
  node <- Stat path now ;;
  n <- load node ;;
  if node_IsFile n then ret node else load_dir node ;;; readDirRecursive depth node now ;;; ret node.

(** ** Handles *)

Inductive Handle := HDir (h : DirHandle) | HFile (f : loc) (flags : N) (id : nat).

Definition O_WRONLY : N := 1.
Definition O_RDWR : N := 2.
Definition O_CREATE : N := 64.
Definition O_TRUNC : N := 512.

Definition File_Open (l : loc) (flags : N) : VM Handle := fun v =>
  let id := opened v in
  (on_file l (fun f => if has_bits flags O_WRONLY || has_bits flags O_RDWR
                       then with_handles (writers f ++ [id]) (readers f) f
                       else with_handles (writers f) (readers f ++ [id]) f) ;;;
   ret (HFile l flags id))
  (mkVFS (heap v) (nodeMap v) (vroot v) (Datatypes.S id) (server v)).
Definition releaseHandle (l : loc) (id : nat) : VM unit :=
  on_file l (fun f => with_handles (List.filter (fun i => negb (bool_decide (i = id))) (writers f)) (readers f) f).

Definition node_Open (l : loc) (flags : N) : VM Handle :=
  n <- load l ;; match n with NDir _ => ret (HDir (newDirHandle l)) | NFile _ => File_Open l flags end.

Definition OpenFile (name : string) (flags perm : N) (now now' : Time) : VM Handle :=
  if (N.land flags 3 =? 0)%N && has_bits flags O_TRUNC then throw V_EINVAL else
  r <-? Stat name now ;;
  match r with
  | inl node => node_Open node flags
  | inr V_ENOENT =>
      if negb (has_bits flags O_CREATE) then throw V_ENOENT else
      p <- StatParent name now ;;
      node <- Dir_Create Background p.1 p.2 perm 0 now now' ;;
      node_Open node flags
  | inr e => throw e
  end.
Definition Open (name : string) (now now' : Time) : VM Handle := OpenFile name 0 0 now now'.

Definition vfs_Mkdir (ctx : Context) (name : string) (perm : N) (now now' : Time) : VM unit :=
  p <- StatParent name now ;; Dir_Mkdir ctx p.1 p.2 perm now now' ;;; ret tt.
Definition vfs_Rmdir (depth : nat) (name : string) (recursive : bool) (now now' : Time) : VM unit :=
  node <- Stat name now ;;
  if negb recursive then node_Remove node now now' else RemoveAll depth node now now'.
Definition vfs_Remove (name : string) (now now' : Time) : VM unit :=
  node <- Stat name now ;; node_Remove node now now'.

(** [New] on a service; the root's entry is used without looking at the error. *)
Definition New (s : S) : outcome verror unit * VFS S :=
  match fs_Get 1 s with
  | (Ok entry, s') =>
      (newDirEntry None (with_fe_Name "." entry) ;;; addNode 0) (mkVFS [] ∅ 0 0 s')
  | (_, s') => (Panic, mkVFS [] ∅ 0 0 s')
  end.
End vfs.
