(* ===== verification/VfsInv.v ===== *)
(** When the client's cache (Vfs.v) agrees with the tree of the service: every
    node that is reached from the root stands for an entry of its directory, with
    the right inode number and kind, and a directory that has been read has a
    node for each entry. *)
From stdpp Require Import prelude gmap strings list fin_maps.
From S2P Require Import Prelude Store FileMode Attr NodeService Tree TreeInv NodeRefine VfsFs MetaClient Vfs.

(** * Skeletons *)

(** What the invariant sees of a node: all but its attributes, handles and
    cached paths. *)
Inductive skel :=
| SDir (ino : N) (parent : option loc) (path : string) (its : items) (read : bool)
| SFile (ino : N) (name : string) (d : loc) (isdir : bool).

Definition skel_of (n : vnode) : skel :=
  match n with
  | NDir d => SDir (d_inode d) (d_Parent d) (d_path d) (d_items d) (bool_decide (is_Some (d_read d)))
  | NFile f => SFile (f_inode f) (leaf f) (f_d f) (FileMode_IsDir (da_mode (f_embeded f)))
  end.
Definition skels {S} (v : VFS S) : list skel := skel_of <$> heap v.

(** * The invariant *)

(** The node at [c] stands for the entry [e] with the name [name] of the
    directory at [l]. *)
Definition child_ok (h : list skel) (l : loc) (name : string) (e : Entry) (c : loc) : Prop :=
  match h !! c with
  | Some (SDir i p path _ _) => i = e_Ino e /\ p = Some l /\ path = name /\ e_IsDir e = true
  | Some (SFile i n d isdir) => i = e_Ino e /\ n = name /\ d = l /\ isdir = false /\ e_IsDir e = false
  | None => False
  end.

Record dir_ok (h : list skel) (t : tree) (l : loc) (i : N) (its : items) (read : bool) : Prop := {
  ok_health name : is_Some (health its !! name) -> is_Some (nodes its !! name);
  ok_child name c : nodes its !! name = Some c ->
    exists e, entries t !! (i, name) = Some e /\ child_ok h l name e c;
  ok_complete : read = true -> forall name e, entries t !! (i, name) = Some e -> is_Some (nodes its !! name);
}.

(** The nodes reached from the root, with their depth. *)
Inductive reach (h : list skel) (root : loc) : nat -> loc -> Prop :=
| reach_root : reach h root 0 root
| reach_child n l i p path its read name c :
    reach h root n l -> h !! l = Some (SDir i p path its read) -> nodes its !! name = Some c ->
    reach h root (S n) c.

Record coherent (h : list skel) (root : loc) (t : tree) : Prop := {
  co_root : exists its read, h !! root = Some (SDir 1 None "." its read);
  co_dirs n l i p path its read : reach h root n l -> h !! l = Some (SDir i p path its read) ->
    dir_ok h t l i its read;
  co_names p n e : entries t !! (p, n) = Some e -> plain_name n;
  co_tree : tree_inv t;
}.

(** * Trees *)

(** The side conditions under which the counters stay within their widths. *)
Definition room (t : tree) (i : N) : Prop :=
  (next t + 1 < 2 ^ 64)%N /\ forall a : Attr, attrs t !! i = Some a -> (Nlink a + 1 < 2 ^ 32)%N.

(** An empty directory goes. *)
Lemma inv_rmdir sh es nx p n e k :
  inv sh es nx -> es !! (p, n) = Some e -> e_IsDir e = true ->
  (forall m, es !! (e_Ino e, m) = None) -> sh !! p = Some (true, k) ->
  inv (<[p := (true, k - 1)%N]> (delete (e_Ino e) sh)) (delete (p, n) es) nx.
Proof.
  intros Hinv He Hd Hempty Hp.
  assert (e_Ino e <> p) as Hne by (intros Heq; rewrite Heq in Hempty; by rewrite Hempty in He).
  destruct (inv_entry _ _ _ Hinv _ _ _ He) as [_ [k2 Hk2]]. rewrite Hd in Hk2.
  destruct (inv_dir _ _ _ Hinv _ _ Hk2) as [_ Hr1].
  pose proof (refs_pos _ _ _ He) as Hpos. rewrite (refs_delete _ _ _ _ He), decide_True in Hr1 by done.
  assert (e_Ino e <> 1%N) as H1 by (intros Heq; rewrite decide_True in Hr1 by done; lia).
  rewrite decide_False in Hr1 by done.
  assert (refs (delete (p, n) es) (e_Ino e) = 0%N) as Hr0 by lia.
  assert (forall i, i <> e_Ino e -> forall d k', sh !! i = Some (d, k') -> exists k'',
    <[p := (true, k - 1)%N]> (delete (e_Ino e) sh) !! i = Some (d, k'')) as Hkept.
  { intros i Hi d k' Hk'. destruct (decide (i = p)) as [->|].
    - rewrite lookup_insert_eq. simplify_eq. eauto.
    - rewrite lookup_insert_ne, lookup_delete_ne by done. eauto. }
  split.
  - destruct (inv_root _ _ _ Hinv) as [k1 Hk1]. by eapply Hkept.
  - intros i x H. inv_cases; by eapply (inv_ino _ _ _ Hinv).
  - intros p' n' e' [Hn H]%lookup_delete_Some.
    destruct (inv_entry _ _ _ Hinv _ _ _ H) as [[k3 H3] [k4 H4]]. split.
    + eapply Hkept; [|done]. intros ->. by rewrite Hempty in H.
    + eapply Hkept; [|done]. intros Heq. pose proof (refs_pos (delete (p, n) es) (p', n') e') as H5.
      rewrite lookup_delete_ne, Heq in H5 by done. specialize (H5 H). lia.
  - intros i k' H. pose proof (refs_delete _ _ _ i He). inv_cases. solve_counts Hinv.
  - intros i k' H. pose proof (refs_delete _ _ _ i He). pose proof (subdirs_delete _ _ _ i He) as Hs.
    rewrite Hd in Hs. inv_cases; solve_counts Hinv.
  - intros i d k' H. inv_cases; [|by eapply (inv_width _ _ _ Hinv)].
    pose proof (inv_width _ _ _ Hinv _ _ _ Hp). lia.
Qed.

Section rmdir.
Context (t : tree) (parent : N) (name : string) (e : Entry).
Context (Ht : tree_inv t) (He : entries t !! (parent, name) = Some e) (Hd : e_IsDir e = true).
Context (Hempty : forall m, entries t !! (e_Ino e, m) = None).

Lemma dir_empty : dir (e_Ino e) t = [].
Proof.
  destruct (dir (e_Ino e) t) as [|[[q m] x] l] eqn:E; [done|].
  assert ((q, m, x) ∈ dir (e_Ino e) t) as [Hq Hx]%elem_of_dir by (rewrite E; left).
  simpl in *. subst q. by rewrite Hempty in Hx.
Qed.
Lemma t_remove_empty :
  attrs (t_remove parent name (e_Ino e) t) = delete (e_Ino e) (attrs t) /\
  entries (t_remove parent name (e_Ino e) t) = delete (parent, name) (entries t).
Proof.
  unfold t_remove. rewrite dir_empty. cbn [attrs entries fmap list_fmap]. split.
  - apply map_eq. intros i. apply option_eq. intros a.
    rewrite map_lookup_filter_Some, lookup_delete_Some. simpl.
    rewrite elem_of_nil. naive_solver.
  - apply map_eq. intros [q m]. apply option_eq. intros x.
    rewrite map_lookup_filter_Some, lookup_delete_Some. simpl. split; [naive_solver|].
    intros [Hn Hx]. split_and!; [done|intros ->; by rewrite Hempty in Hx|congruence].
Qed.

Lemma t_rmdir_empty now :
  exists t', t_rmdir parent name now t = (Ok tt, t') /\ tree_inv t' /\
    entries t' = delete (parent, name) (entries t) /\ is_Some (attrs t' !! parent).
Proof.
  destruct Ht as [Hinv Hi]. destruct (inv_entry _ _ _ Hinv _ _ _ He) as [[k Hk] _].
  pose proof Hk as (pa & Hp & Hpd & Hpl)%shape_lookup. unfold t_rmdir. rewrite Hp, He.
  assert (e_IsFile e = false) as ->.
  { unfold e_IsDir, e_IsFile, FileMode_IsDir, FileMode_IsRegular, has_bits in *. apply N.eqb_neq. intros H0.
    apply (f_equal (fun x => N.land x ModeDir)) in H0. rewrite <- N.land_assoc in H0.
    change (N.land ModeType ModeDir) with ModeDir in H0. rewrite H0 in Hd. done. }
  eexists. split; [done|]. destruct t_remove_empty as [Ha Hes].
  pose proof (inv_dir _ _ _ Hinv _ _ Hk) as [Hk' _]. pose proof (inv_width _ _ _ Hinv _ _ _ Hk).
  split_and!; [split|exact Hes|].
  - rewrite shape_put_attr. simpl. rewrite (Hi _ _ Hp), decr32_pos by lia.
    change (inv (<[parent := (IsDir pa, Nlink pa - 1)%N]> (shape (t_remove parent name (e_Ino e) t)))
      (entries (t_remove parent name (e_Ino e) t)) (next t)).
    unfold shape. rewrite Hes, Ha, fmap_delete, Hpd, Hpl. by apply inv_rmdir.
  - apply inodes_put. intros i a. rewrite Ha. intros [_ H']%lookup_delete_Some. eauto.
  - simpl. rewrite (Hi _ _ Hp), lookup_insert_eq. eauto.
Qed.
End rmdir.

(** What the requests do to the entries. *)
Lemma t_create_cases parent name req now t :
  tree_inv t -> room t parent ->
  (exists e, t_create parent name req now t = (Err e, t)) \/
  (exists a t', t_create parent name req now t = (Ok a, t') /\ tree_inv t' /\
     entries t !! (parent, name) = None /\ is_Some (attrs t' !! parent) /\
     Inode a = (next t + 1)%N /\ Mode a = default 0%N (m_Mode req) /\
     entries t' = <[(parent, name) := MkEntry parent name (Inode a) (Mode a)]> (entries t)).
Proof.
  intros Ht [Hnx Hw]. pose proof (t_create_inv parent name req now t Ht Hnx Hw) as Hinv. revert Hinv.
  unfold t_create. destruct (attrs t !! parent) as [pa|] eqn:Ep; [|eauto].
  destruct (negb (IsDir pa)); [eauto|]. destruct (has_bits (Flags pa) FlagImmutable); [eauto|].
  destruct (t_taken parent name t) eqn:Etk; [eauto|]. apply (not_taken _ _ _ Ht) in Etk.
  intros Hinv. right. eexists _, _. split; [done|]. unfold take_ino in *. cbn [fst snd] in *.
  rewrite !wrap64_small in * by done. split_and!; try done.
  - unfold put_attr. cbn [attrs]. rewrite created_Inode, created_parent_Inode, (proj2 Ht _ _ Ep).
    rewrite lookup_insert. case_decide; [eauto|]. rewrite lookup_insert_eq. eauto.
  - by rewrite <- (created_Inode parent name req now (next t + 1)) at 2.
  - apply created_Mode.
  - simpl. by rewrite new_kind_Inode.
Qed.

Lemma t_link_cases ino parent name now t :
  tree_inv t -> room t ino ->
  (exists e, t_link ino parent name now t = (Err e, t)) \/
  (exists a t', t_link ino parent name now t = (Ok a, t') /\ tree_inv t' /\
     entries t !! (parent, name) = None /\ is_Some (attrs t' !! parent) /\
     Inode a = ino /\ FileMode_IsDir (Mode a) = false /\
     entries t' = <[(parent, name) := MkEntry parent name (Inode a) (Mode a)]> (entries t)).
Proof.
  intros Ht [_ Hw]. pose proof (t_link_inv ino parent name now t Ht Hw) as Hinv. revert Hinv.
  unfold t_link. destruct (attrs t !! parent) as [pa|] eqn:Ep; [|eauto].
  destruct (negb (IsDir pa)); [eauto|]. destruct (has_bits (Flags pa) FlagImmutable); [eauto|].
  destruct (attrs t !! ino) as [a|] eqn:Ea; [|eauto]. destruct (IsDir a) eqn:Hd; [eauto|].
  destruct (t_taken parent name t) eqn:Etk; [eauto|]. apply (not_taken _ _ _ Ht) in Etk.
  intros Hinv. right. eexists _, _. split; [done|]. split_and!; try done.
  - simpl. rewrite (proj2 Ht _ _ Ep), (proj2 Ht _ _ Ea), lookup_insert. case_decide; [eauto|].
    rewrite lookup_insert_eq. eauto.
  - simpl. by rewrite (proj2 Ht _ _ Ea).
  - simpl. by rewrite (proj2 Ht _ _ Ea).
Qed.

Lemma t_unlink_file parent name now t e :
  tree_inv t -> entries t !! (parent, name) = Some e -> e_IsDir e = false ->
  exists t', t_unlink parent name now now t = (Ok tt, t') /\ tree_inv t' /\
    entries t' = delete (parent, name) (entries t) /\ is_Some (attrs t' !! parent).
Proof.
  intros Ht He Hd. pose proof (t_unlink_inv parent name now now t Ht) as Hinv. revert Hinv.
  destruct (inv_entry _ _ _ (proj1 Ht) _ _ _ He) as [(k & (pa & Hp & _)%shape_lookup) (k' & (a & Ha & _)%shape_lookup)].
  unfold t_unlink. rewrite He, Hd, Hp, Ha. intros Hinv. eexists. split; [done|]. split_and!; [done|..].
  - by destruct (1 <? Nlink a)%N.
  - simpl. rewrite (proj2 Ht _ _ Hp), lookup_insert_eq. eauto.
Qed.

(** * Reached nodes *)

Section coherent.
Context (h : list skel) (root : loc) (t : tree) (Hco : coherent h root t).

Lemma tree_entry p n e : entries t !! (p, n) = Some e ->
  exists a : Attr, attrs t !! e_Ino e = Some a /\ IsDir a = e_IsDir e /\ Inode a = e_Ino e.
Proof.
  intros He. destruct (co_tree _ _ _ Hco) as [Hinv Hi].
  destruct (inv_entry _ _ _ Hinv _ _ _ He) as [_ (k & (a & Ha & Hd & _)%shape_lookup)]. eauto 10.
Qed.

Lemma reach_0 l : reach h root 0 l -> l = root.
Proof. by inversion 1. Qed.

(** A reached node that is not the root is the child of a reached directory. *)
Lemma reach_parent n c : reach h root (S n) c -> exists l i p path its read name e,
  reach h root n l /\ h !! l = Some (SDir i p path its read) /\ nodes its !! name = Some c /\
  entries t !! (i, name) = Some e /\ child_ok h l name e c.
Proof.
  inversion 1 as [|? l i p path its read name ? Hl Hd Hc]; subst.
  destruct (ok_child _ _ _ _ _ _ (co_dirs _ _ _ Hco _ _ _ _ _ _ _ Hl Hd) _ _ Hc) as (e & He & Hok).
  eauto 15.
Qed.

Lemma reach_alive n l : reach h root n l -> exists s, h !! l = Some s.
Proof.
  destruct n as [|n]; intros Hr.
  - apply reach_0 in Hr as ->. destruct (co_root _ _ _ Hco) as (its & read & ->). eauto.
  - apply reach_parent in Hr as (? & ? & ? & ? & ? & ? & ? & ? & _ & _ & _ & _ & Hok).
    unfold child_ok in Hok. destruct (h !! l); [eauto|done].
Qed.

(** A reached directory is a directory of the tree. *)
Lemma reach_dir n l i p path its read :
  reach h root n l -> h !! l = Some (SDir i p path its read) ->
  exists a : Attr, attrs t !! i = Some a /\ IsDir a = true /\ Inode a = i.
Proof.
  destruct (co_tree _ _ _ Hco) as [Hinv Hi]. destruct n as [|n]; intros Hr Hl.
  - apply reach_0 in Hr as ->. destruct (co_root _ _ _ Hco) as (its' & read' & Hr'). simplify_eq.
    destruct (inv_root _ _ _ Hinv) as (k & (a & Ha & Hd & _)%shape_lookup). eauto.
  - apply reach_parent in Hr as (l' & i' & p' & path' & its' & read' & name & e & _ & _ & _ & He & Hok).
    unfold child_ok in Hok. rewrite Hl in Hok. destruct Hok as (-> & _ & _ & Hd).
    destruct (tree_entry _ _ _ He) as (a & ? & ? & ?). exists a. split_and!; congruence.
Qed.

(** A directory of the tree has one name, so its node is found at one place. *)
Lemma refs_one p1 n1 e1 p2 n2 e2 :
  entries t !! (p1, n1) = Some e1 -> entries t !! (p2, n2) = Some e2 ->
  e_Ino e1 = e_Ino e2 -> e_IsDir e1 = true -> (p1, n1) = (p2, n2).
Proof.
  intros H1 H2 Heq Hd. destruct (decide ((p1, n1) = (p2, n2))) as [|Hne]; [done|]. exfalso.
  destruct (co_tree _ _ _ Hco) as [Hinv _].
  destruct (inv_entry _ _ _ Hinv _ _ _ H1) as [_ [k Hk]]. rewrite Hd in Hk.
  destruct (inv_dir _ _ _ Hinv _ _ Hk) as [_ Hr]. rewrite (refs_delete _ _ _ _ H1), decide_True in Hr by done.
  pose proof (refs_pos (delete (p1, n1) (entries t)) (p2, n2) e2) as Hp.
  rewrite lookup_delete_ne, <- Heq in Hp by done. specialize (Hp H2). case_decide; lia.
Qed.

Lemma root_no_entry p n e : entries t !! (p, n) = Some e -> e_IsDir e = true -> e_Ino e <> 1%N.
Proof.
  intros He Hd Heq. destruct (co_tree _ _ _ Hco) as [Hinv _].
  destruct (inv_root _ _ _ Hinv) as [k Hk]. destruct (inv_dir _ _ _ Hinv _ _ Hk) as [_ Hr].
  rewrite decide_True in Hr by done. pose proof (refs_pos _ _ _ He) as Hp. rewrite Heq, Hr in Hp. lia.
Qed.

Lemma reach_unique n1 n2 l1 l2 i p1 p2 path1 path2 its1 its2 r1 r2 :
  reach h root n1 l1 -> reach h root n2 l2 ->
  h !! l1 = Some (SDir i p1 path1 its1 r1) -> h !! l2 = Some (SDir i p2 path2 its2 r2) ->
  l1 = l2 /\ n1 = n2.
Proof.
  revert n2 l1 l2 i p1 p2 path1 path2 its1 its2 r1 r2.
  induction n1 as [|n1 IH]; intros n2 l1 l2 i p1 p2 path1 path2 its1 its2 r1 r2 Hr1 Hr2 H1 H2.
  - apply reach_0 in Hr1 as ->. destruct (co_root _ _ _ Hco) as (its & read & Hr). simplify_eq.
    destruct n2 as [|n2]; [by apply reach_0 in Hr2|]. exfalso.
    apply reach_parent in Hr2 as (?&?&?&?&?&?&?& e &_&_&_& He & Hok). unfold child_ok in Hok. rewrite H2 in Hok.
    destruct Hok as (Hi & _ & _ & Hd). by eapply root_no_entry.
  - apply reach_parent in Hr1 as (m1 & j1 &?&?&?&?& nm1 & e1 & Hm1 & Hd1 & Hc1 & He1 & Hok1).
    unfold child_ok in Hok1. rewrite H1 in Hok1. destruct Hok1 as (Hi1 & _ & _ & Hdir1).
    destruct n2 as [|n2].
    { apply reach_0 in Hr2 as ->. destruct (co_root _ _ _ Hco) as (its & read & Hr). simplify_eq.
      exfalso. by eapply root_no_entry. }
    apply reach_parent in Hr2 as (m2 & j2 &?&?&?&?& nm2 & e2 & Hm2 & Hd2 & Hc2 & He2 & Hok2).
    unfold child_ok in Hok2. rewrite H2 in Hok2. destruct Hok2 as (Hi2 & _ & _ & Hdir2).
    assert ((j1, nm1) = (j2, nm2)) as [= -> ->] by (eapply refs_one; eauto; congruence).
    destruct (IH _ _ _ _ _ _ _ _ _ _ _ _ Hm1 Hm2 Hd1 Hd2) as [-> ->]. simplify_eq. done.
Qed.

(** The parents of a reached directory are distinct, so that it is less deep than
    the heap is long. *)
Lemma reach_chain n l i p path its read :
  reach h root n l -> h !! l = Some (SDir i p path its read) ->
  exists ls, length ls = S n /\ NoDup ls /\
    forall x, x ∈ ls -> exists m i p path its read,
      m <= n /\ reach h root m x /\ h !! x = Some (SDir i p path its read).
Proof.
  revert l i p path its read. induction n as [|n IH]; intros l i p path its read Hr Hl.
  - exists [l]. split_and!; [done|apply NoDup_singleton|].
    intros x ->%list_elem_of_singleton. eauto 10.
  - pose proof Hr as (l' &?&?&?&?&?&?&?& Hl' & Hd' & _)%reach_parent.
    destruct (IH _ _ _ _ _ _ Hl' Hd') as (ls & Hlen & Hnd & Hls).
    exists (l :: ls). split_and!; [simpl; lia| |].
    + apply NoDup_cons. split; [|done]. intros (m &?&?&?&?&?& Hm & Hrm & Hx)%Hls.
      destruct (reach_unique _ _ _ _ _ _ _ _ _ _ _ _ _ Hr Hrm Hl Hl). lia.
    + intros y [->|(m &?&?&?&?&?& Hm & Hrm & Hy)%Hls]%elem_of_cons; eauto 15.
Qed.

Lemma reach_depth n l i p path its read :
  reach h root n l -> h !! l = Some (SDir i p path its read) -> n < length h.
Proof.
  intros Hr Hl. destruct (reach_chain _ _ _ _ _ _ _ Hr Hl) as (ls & Hlen & Hnd & Hls).
  enough (ls ⊆+ seq 0 (length h)) as Hsub.
  { apply submseteq_length in Hsub. rewrite length_seq in Hsub. lia. }
  apply NoDup_submseteq; [done|]. intros x (m &?&?&?&?&?&?&?& Hx)%Hls.
  apply elem_of_seq. apply lookup_lt_Some in Hx. lia.
Qed.
End coherent.

(** * Changes to the cache *)

(** Directories gain children, everything else stays. *)
Definition grows (h h' : list skel) : Prop :=
  forall (l : loc) (s : skel), h !! l = Some s ->
    match s with
    | SDir i p path its read => exists its' read',
        h' !! l = Some (SDir i p path its' read') /\ nodes its ⊆ nodes its'
    | SFile _ _ _ _ => h' !! l = Some s
    end.

#[export] Instance grows_preorder : PreOrder grows.
Proof.
  split.
  - intros h l [i p path its read|]; naive_solver.
  - intros h1 h2 h3 H12 H23 l s Hs. pose proof (H12 _ _ Hs) as H2. destruct s.
    + destruct H2 as (its' & read' & H2 & Hsub). destruct (H23 _ _ H2) as (its'' & read'' & H3 & Hsub').
      eexists _, _. split; [done|]. by etrans.
    + apply (H23 _ _ H2).
Qed.

Lemma reach_grows h h' root n l : grows h h' -> reach h root n l -> reach h' root n l.
Proof.
  intros Hg. induction 1 as [|n l i p path its read name c _ IH Hl Hc]; [constructor|].
  destruct (Hg _ _ Hl) as (its' & read' & Hl' & Hsub). econstructor; [done..|].
  by eapply lookup_weaken.
Qed.

(** A node that has just been made. *)
Definition new_node (s : option skel) : Prop :=
  match s with
  | Some (SDir _ _ _ its read) => its = newItems /\ read = false
  | Some (SFile _ _ _ _) => True
  | None => False
  end.

Lemma new_dir_ok h t l i : dir_ok h t l i newItems false.
Proof.
  split; [|by intros ??; cbn; rewrite lookup_empty|done].
  intros ?. cbn. rewrite lookup_empty. by intros [].
Qed.

(** A reached directory gets other items and the tree other entries for it. *)
Lemma coherent_update h h' root t t' n0 l i p path its read its' read' :
  coherent h root t -> reach h root n0 l -> h !! l = Some (SDir i p path its read) ->
  h' !! l = Some (SDir i p path its' read') ->
  (forall j : loc, j < length h -> j <> l -> h' !! j = h !! j) ->
  (forall name c, nodes its' !! name = Some c ->
     nodes its !! name = Some c \/ (length h <= c /\ new_node (h' !! c))) ->
  dir_ok h' t' l i its' read' -> tree_inv t' ->
  (forall q n e, entries t' !! (q, n) = Some e -> plain_name n) ->
  (forall q n, q <> i -> entries t' !! (q, n) = entries t !! (q, n)) ->
  coherent h' root t'.
Proof.
  intros Hco Hr Hl Hl' Hrest Hnew Hok Ht' Hnames Hent.
  assert (forall n x, reach h' root n x ->
    (reach h root n x /\ x < length h) \/ (length h <= x /\ new_node (h' !! x))) as Hback.
  { induction 1 as [|n m j q pth its0 rd0 name c _ [[IH Hlt]|[Hge Hm']] Hm Hc].
    - left. split; [constructor|]. destruct (co_root _ _ _ Hco) as (?&?&?%lookup_lt_Some). done.
    - destruct (decide (m = l)) as [->|Hne].
      + simplify_eq. destruct (Hnew _ _ Hc) as [Hc'|]; [|by right]. left.
        assert (reach h root (S n) c) as Hrc by (econstructor; done). split; [done|].
        destruct (reach_alive _ _ _ Hco _ _ Hrc) as [? ?%lookup_lt_Some]. done.
      + rewrite Hrest in Hm by done. left. assert (reach h root (S n) c) as Hrc by (econstructor; done).
        split; [done|]. destruct (reach_alive _ _ _ Hco _ _ Hrc) as [? ?%lookup_lt_Some]. done.
    - unfold new_node in Hm'. rewrite Hm in Hm'. destruct Hm' as [-> _]. cbn in Hc. by rewrite lookup_empty in Hc. }
  split; [| |done..].
  - destruct (co_root _ _ _ Hco) as (its0 & rd0 & Hroot). destruct (decide (root = l)) as [->|Hne].
    + simplify_eq. eauto.
    + rewrite Hrest; [eauto|by eapply lookup_lt_Some|done].
  - intros n x j q pth its0 rd0 Hx Hd. destruct (Hback _ _ Hx) as [[Hx' Hlt]|[Hge Hn]].
    + destruct (decide (x = l)) as [->|Hne]; [by simplify_eq|]. rewrite Hrest in Hd by done.
      assert (j <> i) as Hji.
      { intros ->. by destruct (reach_unique _ _ _ Hco _ _ _ _ _ _ _ _ _ _ _ _ _ Hr Hx' Hl Hd). }
      destruct (co_dirs _ _ _ Hco _ _ _ _ _ _ _ Hx' Hd) as [Hh Hc Hcomp]. split; [done| |].
      * intros name c Hnm. rewrite Hent by done. destruct (Hc _ _ Hnm) as (e & He & Hk).
        exists e. split; [done|]. unfold child_ok in *. destruct (decide (c = l)) as [->|Hcl].
        { rewrite Hl', Hl in *. done. }
        rewrite Hrest; [done| |done].
        destruct (h !! c) eqn:E; [by eapply lookup_lt_Some|done].
      * intros Hrd name e. rewrite Hent by done. by apply Hcomp.
    + unfold new_node in Hn. rewrite Hd in Hn. destruct Hn as [-> ->]. apply new_dir_ok.
Qed.

(** Adding nodes to the cache of a directory. *)
Lemma update_grows h h' (l : loc) i p path its read its' read' :
  h !! l = Some (SDir i p path its read) -> h' !! l = Some (SDir i p path its' read') ->
  (forall j : loc, j < length h -> j <> l -> h' !! j = h !! j) -> nodes its ⊆ nodes its' -> grows h h'.
Proof.
  intros Hl Hl' Hrest Hsub j s Hs. destruct (decide (j = l)) as [->|Hne].
  - simplify_eq. eauto.
  - rewrite Hrest by (done || by eapply lookup_lt_Some). destruct s; eauto.
Qed.

(** Nodes keep their place; directories may get other children. *)
Definition keeps (h h' : list skel) : Prop :=
  forall (l : loc) (s : skel), h !! l = Some s ->
    match s with
    | SDir i p path _ _ => exists its' read', h' !! l = Some (SDir i p path its' read')
    | SFile _ _ _ _ => h' !! l = Some s
    end.

Lemma child_ok_keeps h h' l name e c : keeps h h' -> child_ok h l name e c -> child_ok h' l name e c.
Proof.
  intros Hk. unfold child_ok. destruct (h !! c) as [s|] eqn:E; [|done].
  apply Hk in E. destruct s; [destruct E as (its' & read' & ->)|rewrite E]; done.
Qed.

(** The heap after the nodes [ns] were made and the directory at [l] got the items
    [its']. *)
Section edit.
Context (h ns : list skel) (l : loc) (i : N) (p : option loc) (path : string).
Context (its its' : items) (read read' : bool).
Context (Hl : h !! l = Some (SDir i p path its read)).
Let h' := <[l := SDir i p path its' read']> (h ++ ns).

Lemma edit_at : h' !! l = Some (SDir i p path its' read').
Proof. apply list_lookup_insert_eq. rewrite length_app. apply lookup_lt_Some in Hl. lia. Qed.
Lemma edit_old (j : loc) : j < length h -> j <> l -> h' !! j = h !! j.
Proof. intros. unfold h'. rewrite list_lookup_insert_ne by done. by apply lookup_app_l. Qed.
Lemma edit_new (j : loc) : length h <= j -> h' !! j = ns !! (j - length h).
Proof.
  intros. apply lookup_lt_Some in Hl. unfold h'. rewrite list_lookup_insert_ne by lia. by apply lookup_app_r.
Qed.
Lemma edit_keeps : keeps h h'.
Proof.
  intros j s Hs. destruct (decide (j = l)) as [->|Hj].
  - simplify_eq. rewrite edit_at. eauto.
  - rewrite edit_old by (done || by eapply lookup_lt_Some). destruct s; eauto.
Qed.
Lemma edit_grows : nodes its ⊆ nodes its' -> grows h h'.
Proof. intros Hsub. eapply update_grows; [done|apply edit_at|apply edit_old|done]. Qed.
End edit.

Lemma keeps_alive h h' (c : loc) s : keeps h h' -> h !! c = Some s -> exists s', h' !! c = Some s'.
Proof.
  intros Hk Hc. apply Hk in Hc. destruct s; [destruct Hc as (? & ? & ?); eauto|eauto].
Qed.
