(* ===== verification/VfsRun.v ===== *)
(** What the operations of the client (VfsFs.v, Vfs.v) do on a cache that agrees
    with the service: each of them returns, and leaves such a cache. *)
From stdpp Require Import prelude gmap strings list fin_maps.
From S2P Require Import Prelude Store FileMode Attr NodeService Tree TreeInv NodeRefine VfsFs MetaClient Vfs VfsInv.

Section run.
Context {S : Type} `{MetaSpec S}.
Context (mountUID mountGID Umask : N) (DirCacheTime : Z).
Context (range : gmap string loc -> list (string * loc)).
Implicit Types v : VFS S.

(** The client's state [v] agrees with the tree [t] its service holds. *)
Definition vfs_ok (v : VFS S) (t : tree) : Prop :=
  holds (server v) t /\ coherent (skels v) (vroot v) t.

(** ** Requests *)

Lemma tree_entry_attr t p n e : tree_inv t -> entries t !! (p, n) = Some e ->
  exists a : Attr, attrs t !! e_Ino e = Some a /\ IsDir a = e_IsDir e /\ Inode a = e_Ino e.
Proof.
  intros [Hinv Hi] He.
  destruct (inv_entry _ _ _ Hinv _ _ _ He) as [_ (k & (a & Ha & Hd & _)%shape_lookup)]. eauto 10.
Qed.

(** [fe] is what the client sees of the entry [e]. *)
Definition fe_ok (t : tree) (p : N) (fe : FsEntry) : Prop :=
  exists e, entries t !! (p, fe_Name fe) = Some e /\ fe_Inode fe = e_Ino e /\ fe_IsDir fe = e_IsDir e.

Lemma wrap_items_run t p (l : list Item) (s : S) :
  tree_inv t -> (forall x, x ∈ l -> x ∈ t_list p true t) ->
  exists fes, wrap_items l s = (Ok fes, s) /\ fe_Name <$> fes = i_Name <$> l /\ Forall (fe_ok t p) fes.
Proof.
  intros Ht. induction l as [|x l IH]; intros Hl; [by exists []|].
  destruct IH as (fes & E & Hn & Hok); [by intros y Hy; apply Hl; right|].
  assert (x ∈ t_list p true t) as ([[q n] e] & -> & [Hq He]%elem_of_dir)%list_elem_of_fmap by (apply Hl; left).
  simpl in *. subst q. destruct (tree_entry_attr _ _ _ _ Ht He) as (a & Ha & Hd & Hi).
  rewrite Ha. cbn [fmap option_fmap option_map]. exists (with_fe_Name n (wrap (pb a)) :: fes).
  erewrite bind_ok by reflexivity. erewrite bind_ok by exact E. split_and!; [done|by simpl; f_equal|].
  constructor; [|done]. exists e. done.
Qed.

Lemma fs_List_run p (s : S) t :
  holds s t -> tree_inv t ->
  exists fes s', fs_List p s = (Ok fes, s') /\ holds s' t /\ Forall (fe_ok t p) fes /\
    forall name e, entries t !! (p, name) = Some e -> name ∈ fe_Name <$> fes.
Proof.
  intros Hs Ht.
  destruct (spec_ListItemUnderInode p s t Hs) as (l & E & Hl & Hs').
  { intros n e (a & -> & _)%(tree_entry_attr _ _ _ _ Ht). eauto. }
  destruct (mc_ListItemUnderInode p true s) as [r s'] eqn:Er. simpl in *. subst r.
  destruct (wrap_items_run t p l s' Ht) as (fes & Ew & Hn & Hok); [by intros x; rewrite Hl|].
  exists fes, s'. split_and!; [|done..|].
  - unfold fs_List, retry, catch. erewrite bind_ok by exact Er. by rewrite Ew.
  - intros name e He. rewrite Hn, Hl. apply list_elem_of_fmap.
    exists (item true t (p, name, e)). split; [done|]. unfold t_list. apply list_elem_of_fmap_2.
    by apply elem_of_dir.
Qed.

Lemma fs_Get_run i (s : S) t (a : Attr) :
  holds s t -> attrs t !! i = Some a -> exists s', fs_Get i s = (Ok (wrap (pb a)), s') /\ holds s' t.
Proof.
  intros Hs Ha. destruct (spec_GetInodeAttr i s t Hs) as [E Hs']. unfold t_getattr in *. rewrite Ha in *.
  destruct (mc_GetInodeAttr i s) as [r s'] eqn:Er. simpl in *. subst r. exists s'. split; [|done].
  unfold fs_Get, retry, catch. by erewrite bind_ok by exact Er.
Qed.

(** ** The heap *)

Definition upd_heap (l : loc) (n : vnode) (v : VFS S) : VFS S :=
  mkVFS (<[l := n]> (heap v)) (nodeMap v) (vroot v) (opened v) (server v).
Definition new_heap (n : vnode) (v : VFS S) : VFS S :=
  mkVFS (heap v ++ [n]) (nodeMap v) (vroot v) (opened v) (server v).
Definition set_server (s : S) (v : VFS S) : VFS S :=
  mkVFS (heap v) (nodeMap v) (vroot v) (opened v) s.

Lemma skels_upd l n v : skels (upd_heap l n v) = <[l := skel_of n]> (skels v).
Proof. unfold skels. simpl. by rewrite list_fmap_insert. Qed.
Lemma skels_new n v : skels (new_heap n v) = skels v ++ [skel_of n].
Proof. unfold skels. simpl. by rewrite fmap_app. Qed.
Lemma length_skels v : length (skels v) = length (heap v).
Proof. apply length_fmap. Qed.

Lemma skels_lookup v l n : heap v !! l = Some n -> skels v !! l = Some (skel_of n).
Proof. intros E. unfold skels. by rewrite list_lookup_fmap, E. Qed.
Lemma skels_dir v l i p path its read :
  skels v !! l = Some (SDir i p path its read) ->
  exists d, heap v !! l = Some (NDir d) /\ d_inode d = i /\ d_Parent d = p /\ d_path d = path /\
    d_items d = its /\ bool_decide (is_Some (d_read d)) = read.
Proof.
  unfold skels. rewrite list_lookup_fmap. destruct (heap v !! l) as [[d|f]|]; simpl; intros [=]. eauto 10.
Qed.
Lemma skels_file v l i n d isdir :
  skels v !! l = Some (SFile i n d isdir) ->
  exists f, heap v !! l = Some (NFile f) /\ f_inode f = i /\ leaf f = n /\ f_d f = d /\
    FileMode_IsDir (da_mode (f_embeded f)) = isdir.
Proof.
  unfold skels. rewrite list_lookup_fmap. destruct (heap v !! l) as [[d'|f]|]; simpl; intros [=]. eauto 10.
Qed.

Lemma load_node_run v l n : heap v !! l = Some n -> load l v = (Ok n, v).
Proof. intros E. unfold load, bind, gets. by rewrite E. Qed.
Lemma load_dir_run v l d : heap v !! l = Some (NDir d) -> load_dir l v = (Ok d, v).
Proof. intros E. unfold load_dir. by erewrite bind_ok by by apply load_node_run. Qed.
Lemma load_file_run v l f : heap v !! l = Some (NFile f) -> load_file l v = (Ok f, v).
Proof. intros E. unfold load_file. by erewrite bind_ok by by apply load_node_run. Qed.
Lemma on_dir_run v l d f : heap v !! l = Some (NDir d) -> on_dir l f v = (Ok tt, upd_heap l (NDir (f d)) v).
Proof. intros E. unfold on_dir. by erewrite bind_ok by by apply load_dir_run. Qed.
Lemma on_file_run v l x f : heap v !! l = Some (NFile x) -> on_file l f v = (Ok tt, upd_heap l (NFile (f x)) v).
Proof. intros E. unfold on_file. by erewrite bind_ok by by apply load_file_run. Qed.
Lemma on_embeded_run v l n f :
  heap v !! l = Some n -> on_embeded l f v = (Ok tt, upd_heap l (with_embeded (f (node_embeded n)) n) v).
Proof. intros E. unfold on_embeded. by erewrite bind_ok by by apply load_node_run. Qed.
Lemma call_run {A} (m : M S error A) v a s : m (server v) = (Ok a, s) -> call m v = (Ok a, set_server s v).
Proof. intros E. unfold call. by rewrite E. Qed.
Lemma call_err {A} (m : M S error A) v e s :
  m (server v) = (Err e, s) -> call m v = (Err (Remote e), set_server s v).
Proof. intros E. unfold call. by rewrite E. Qed.

(** The cache has not changed. *)
Definition quiet (t : tree) (v v' : VFS S) : Prop :=
  skels v' = skels v /\ vroot v' = vroot v /\ holds (server v') t.

Lemma client_quiet_trans t v1 v2 v3 : quiet t v1 v2 -> quiet t v2 v3 -> quiet t v1 v3.
Proof. intros (? & ? & _) (? & ? & ?). unfold quiet. split_and!; congruence. Qed.
Lemma quiet_ok t v v' : quiet t v v' -> vfs_ok v t -> vfs_ok v' t.
Proof. intros (E & E' & Hs) [_ Hco]. split; [done|]. by rewrite E, E'. Qed.

Lemma upd_quiet t v l n n' :
  heap v !! l = Some n -> skel_of n' = skel_of n -> holds (server v) t -> quiet t v (upd_heap l n' v).
Proof.
  intros E Hn Hs. split_and!; [|done..]. rewrite skels_upd, Hn. apply list_insert_id. by apply skels_lookup.
Qed.

Lemma skel_dir_embeded x d : skel_of (NDir (with_d_embeded x d)) = skel_of (NDir d).
Proof. done. Qed.

Lemma _reloadAttr_run v t l d (a : Attr) :
  holds (server v) t -> heap v !! l = Some (NDir d) -> attrs t !! d_inode d = Some a ->
  exists v', _reloadAttr l v = (Ok tt, v') /\ quiet t v v'.
Proof.
  intros Hs Hl Ha. destruct (fs_Get_run _ _ _ _ Hs Ha) as (s' & E & Hs').
  unfold _reloadAttr. erewrite bind_ok by by apply load_node_run. unfold catch.
  cbn [node_Inode]. rewrite (call_run _ _ _ _ E). cbv beta match.
  rewrite (on_embeded_run _ _ (NDir d)) by done. eexists. split; [done|].
  eapply client_quiet_trans; [|by apply upd_quiet with (n := NDir d)]. done.
Qed.

(** ** Paths *)

Lemma dir_path_run v t n l i p path its read fuel :
  coherent (skels v) (vroot v) t -> reach (skels v) (vroot v) n l -> skels v !! l = Some (SDir i p path its read) ->
  n < fuel -> exists s, dir_path fuel l v = (Ok s, v).
Proof.
  intros Hco. revert l i p path its read fuel.
  induction n as [|n IH]; intros l i p path its read [|fuel] Hr Hl Hf; try lia.
  - apply reach_0 in Hr as ->. destruct (co_root _ _ _ Hco) as (its' & rd' & E).
    apply skels_dir in E as (d & Hd & _ & Hp & _). simpl. erewrite bind_ok by by apply load_dir_run.
    rewrite Hp. eauto.
  - pose proof Hr as (l' &?&?&?&?&?& name & e & Hl' & Hd' & _ & _ & Hok)%(reach_parent _ _ _ Hco).
    unfold child_ok in Hok. rewrite Hl in Hok. destruct Hok as (_ & -> & _).
    destruct (IH _ _ _ _ _ _ fuel Hl' Hd') as [s Es]; [lia|].
    apply skels_dir in Hl as (d & Hd & _ & Hp & _). simpl. erewrite bind_ok by by apply load_dir_run.
    rewrite Hp. erewrite bind_ok by done. eauto.
Qed.

Lemma Dir_Path_run v t n l i p path its read :
  coherent (skels v) (vroot v) t -> reach (skels v) (vroot v) n l -> skels v !! l = Some (SDir i p path its read) ->
  exists s, Dir_Path l v = (Ok s, v).
Proof.
  intros Hv Hr Hl. unfold Dir_Path. erewrite bind_ok by reflexivity. eapply dir_path_run; [done..|].
  rewrite <- length_skels. pose proof (reach_depth _ _ _ Hv _ _ _ _ _ _ _ Hr Hl). lia.
Qed.

(** ** Changing the items of a directory *)

(** [v'] is [v] after the nodes [ns] were made and the directory at [l] got the
    items [its']. *)
Definition edited (v v' : VFS S) (ns : list skel) (l : loc) (s : skel) : Prop :=
  skels v' = <[l := s]> (skels v ++ ns) /\ vroot v' = vroot v.

Lemma edited_ok v v' ns t t' n l i p path its its' read read' :
  vfs_ok v t -> reach (skels v) (vroot v) n l -> skels v !! l = Some (SDir i p path its read) ->
  edited v v' ns l (SDir i p path its' read') -> holds (server v') t' ->
  (forall name c, nodes its' !! name = Some c -> nodes its !! name = Some c \/
     (length (skels v) <= c /\ new_node (ns !! (c - length (skels v))))) ->
  dir_ok (skels v') t' l i its' read' -> tree_inv t' ->
  (forall q m e, entries t' !! (q, m) = Some e -> plain_name m) ->
  (forall q m, q <> i -> entries t' !! (q, m) = entries t !! (q, m)) ->
  vfs_ok v' t'.
Proof.
  intros [_ Hco] Hr Hl [E Eroot] Hs Hnew Hok Ht' Hnames Hent. split; [done|]. rewrite Eroot.
  rewrite E in *. eapply (coherent_update (skels v) _ _ t); [done..| | | |done| | |]; try done.
  - by eapply edit_at.
  - intros j. by apply edit_old.
  - intros name c Hc. destruct (Hnew _ _ Hc) as [|[Hge Hn]]; [by left|right]. split; [done|].
    by erewrite edit_new.
Qed.

(** The same tree: the directory gains children. *)
Lemma grown_ok v v' ns t n l i p path its its' read :
  vfs_ok v t -> reach (skels v) (vroot v) n l -> skels v !! l = Some (SDir i p path its read) ->
  edited v v' ns l (SDir i p path its' read) -> holds (server v') t -> nodes its ⊆ nodes its' ->
  (forall name, is_Some (health its' !! name) -> is_Some (nodes its' !! name)) ->
  (forall name c, nodes its' !! name = Some c -> nodes its !! name = Some c \/
     (length (skels v) <= c /\ new_node (ns !! (c - length (skels v))) /\
      exists e, entries t !! (i, name) = Some e /\ child_ok (skels v') l name e c)) ->
  vfs_ok v' t /\ grows (skels v) (skels v').
Proof.
  intros Hv Hr Hl Hed Hs Hsub Hh Hc. pose proof (proj2 Hv) as Hco.
  assert (grows (skels v) (skels v')) as Hg by (rewrite (proj1 Hed); by eapply edit_grows).
  assert (keeps (skels v) (skels v')) as Hk by (rewrite (proj1 Hed); by eapply edit_keeps).
  split; [|done]. eapply edited_ok; try done.
  - intros name c Hn. destruct (Hc _ _ Hn) as [|(? & ? & _)]; auto.
  - destruct (co_dirs _ _ _ Hco _ _ _ _ _ _ _ Hr Hl) as [_ Hch Hcomp]. split; [done| |].
    + intros name c Hn. destruct (Hc _ _ Hn) as [Ho|(_ & _ & He)]; [|done].
      destruct (Hch _ _ Ho) as (e & He & Hok). exists e. split; [done|]. by eapply child_ok_keeps.
    + intros Hrd name e He. destruct (Hcomp Hrd _ _ He) as [c Hn]. exists c. by eapply lookup_weaken.
  - by destruct Hco.
  - by destruct Hco.
Qed.

Lemma refreshed_run v t l name e c entry :
  holds (server v) t -> fe_IsDir entry = e_IsDir e -> child_ok (skels v) l name e c ->
  exists n v', load c v = (Ok n, v) /\
    (if node_IsDir n then x <- load_dir c ;; store c (NDir (with_d_embeded (unwrap entry (d_embeded x)) x))
     else x <- load_file c ;; store c (NFile (with_f_embeded (unwrap entry (f_embeded x)) x))) v = (Ok tt, v') /\
    quiet t v v'.
Proof.
  intros Hs Hdir Hok. unfold child_ok in Hok. destruct (skels v !! c) as [[i p path its rd|i nm d isd]|] eqn:E; [| |done].
  - apply skels_dir in E as (x & Hx & _). exists (NDir x). eexists. split_and!; [by apply load_node_run| |].
    + cbn [node_IsDir]. by erewrite bind_ok by by apply load_dir_run.
    + by apply upd_quiet with (n := NDir x).
  - destruct Hok as (_ & _ & _ & -> & Hd). rewrite Hd in Hdir.
    apply skels_file in E as (x & Hx & _ & _ & _ & Hm). exists (NFile x). eexists.
    split_and!; [by apply load_node_run| |].
    + cbn [node_IsDir]. rewrite Hm. by erewrite bind_ok by by apply load_file_run.
    + apply upd_quiet with (n := NFile x); [done| |done]. unfold skel_of. simpl. f_equal.
      unfold unwrap. destruct (da_dirty (f_embeded x)); [done|]. cbn [dirty_of da_mode]. by rewrite Hm.
Qed.

(** A new node for the entry [e] at the name [name]. *)
Definition makes (l : loc) (name : string) (e : Entry) (s : skel) : Prop :=
  new_node (Some s) /\
  match s with
  | SDir i p path _ _ => i = e_Ino e /\ p = Some l /\ path = name /\ e_IsDir e = true
  | SFile i n d isdir => i = e_Ino e /\ n = name /\ d = l /\ isdir = false /\ e_IsDir e = false
  end.

Lemma edit_child v v' l name e c i p path its its' read read' (s : skel) :
  skels v !! l = Some (SDir i p path its read) ->
  edited v v' [s] l (SDir i p path its' read') -> makes l name e s -> c = length (skels v) ->
  new_node ([s] !! (c - length (skels v))) /\ child_ok (skels v') l name e c.
Proof.
  intros Hl [E _] [Hn Hm] ->. rewrite Nat.sub_diag. split; [done|].
  unfold child_ok. rewrite E. erewrite edit_new by done. by rewrite Nat.sub_diag.
Qed.

(** The node [updateOrInplace] makes. *)
Lemma new_entry_run v t n l i p path its read fe e :
  vfs_ok v t -> reach (skels v) (vroot v) n l -> skels v !! l = Some (SDir i p path its read) ->
  fe_Inode fe = e_Ino e -> fe_IsDir fe = e_IsDir e ->
  exists nd, makes l (fe_Name fe) e (skel_of nd) /\
    (if fe_IsDir fe then newDirEntry (Some l) fe else pp <- Dir_Path l ;; newFileEntry l pp fe) v =
    (Ok (length (heap v)), new_heap nd v).
Proof.
  intros Hv Hr Hl Hi Hd. destruct (fe_IsDir fe) eqn:E.
  - eexists (NDir _). split; [|done]. by split.
  - destruct (Dir_Path_run _ _ _ _ _ _ _ _ _ (proj2 Hv) Hr Hl) as [pp Ep].
    eexists (NFile _). rewrite (bind_ok _ _ _ _ _ Ep). split; [|done]. by split.
Qed.

Lemma items_Set_health name c its :
  (forall m, is_Some (health its !! m) -> is_Some (nodes its !! m)) ->
  forall m, is_Some (health (items_Set name c its) !! m) -> is_Some (nodes (items_Set name c its) !! m).
Proof.
  intros Hh m. simpl. destruct (decide (m = name)) as [->|Hne]; [rewrite !lookup_insert_eq; eauto|].
  rewrite !lookup_insert_ne by done. apply Hh.
Qed.

(** [on_dir] with a change of the items, after the nodes [ns] were made. *)
Lemma on_items_run v0 v ns l i p path its read g :
  skels v0 !! l = Some (SDir i p path its read) -> skels v = skels v0 ++ ns -> vroot v = vroot v0 ->
  exists v', on_dir l (fun d => with_items (g (d_items d)) d) v = (Ok tt, v') /\
    edited v0 v' ns l (SDir i p path (g its) read) /\ server v' = server v.
Proof.
  intros Hl Esk Eroot. assert (skels v !! l = Some (SDir i p path its read)) as Hl'.
  { rewrite Esk. by apply lookup_app_l_Some. }
  apply skels_dir in Hl' as (d & Hd & <- & <- & <- & <- & <-).
  rewrite (on_dir_run _ _ _ _ Hd). eexists. split; [done|]. split; [|done]. split; [|done].
  by rewrite skels_upd, Esk.
Qed.

(** What [updateOrInplace] leaves when the name [fe_Name fe] leads to [c]. *)
Definition updated (t : tree) (l : loc) (fe : FsEntry) (v v' : VFS S) (c : loc) : Prop :=
  vfs_ok v' t /\ vroot v' = vroot v /\ grows (skels v) (skels v') /\
  forall i p path its read, skels v !! l = Some (SDir i p path its read) ->
    exists its', skels v' !! l = Some (SDir i p path its' read) /\
      nodes its' !! fe_Name fe = Some c /\ health its' = <[fe_Name fe := true]> (health its).

Section update.
Context (v : VFS S) (t : tree) (n : nat) (l : loc) (i : N) (p : option loc) (path : string).
Context (its : items) (read : bool) (fe : FsEntry) (e : Entry).
Context (Hv : vfs_ok v t) (Hr : reach (skels v) (vroot v) n l).
Context (Hl : skels v !! l = Some (SDir i p path its read)).
Context (He : entries t !! (i, fe_Name fe) = Some e).
Context (Hi : fe_Inode fe = e_Ino e) (Hd : fe_IsDir fe = e_IsDir e).

Lemma updateOrInplace_cached c :
  nodes its !! fe_Name fe = Some c ->
  exists v', updateOrInplace l fe v = (Ok c, v') /\ updated t l fe v v' c.
Proof.
  intros Ec. pose proof (co_dirs _ _ _ (proj2 Hv) _ _ _ _ _ _ _ Hr Hl) as Hok.
  pose proof Hl as (d & Hd0 & _ & _ & _ & Hits & _)%skels_dir.
  unfold updateOrInplace. erewrite bind_ok by by apply load_dir_run. cbv zeta. rewrite Hits, Ec.
  destruct (ok_child _ _ _ _ _ _ Hok _ _ Ec) as (e' & He' & Hch). simplify_eq.
  destruct (refreshed_run v t l _ _ c fe (proj1 Hv) Hd Hch) as (nd & v1 & E1 & E2 & Hq).
  rewrite (bind_ok _ _ _ _ _ E1), (bind_ok _ _ _ _ _ E2). destruct Hq as (Esk & Eroot & Hs1).
  destruct (on_items_run v v1 [] l i p path _ read (healthy (fe_Name fe)) Hl) as (v2 & E3 & Hed & Es2);
    [by rewrite app_nil_r|done|]. rewrite (bind_ok _ _ _ _ _ E3).
  destruct (grown_ok v v2 [] t n l i p path _ _ read Hv Hr Hl Hed) as [Hv' Hg]; try done.
  - by rewrite Es2.
  - intros m. simpl. destruct (decide (m = fe_Name fe)) as [->|Hne]; [rewrite Ec; eauto|].
    rewrite lookup_insert_ne by done. apply (ok_health _ _ _ _ _ _ Hok).
  - intros m c' Hc'. by left.
  - eexists. split; [done|]. split_and!; [done|apply Hed|done|].
    intros i' p' path' its' rd' Hl'. simplify_eq.
    exists (healthy (fe_Name fe) (d_items d)). split; [|done].
    rewrite (proj1 Hed). by eapply edit_at.
Qed.

Lemma updateOrInplace_new :
  nodes its !! fe_Name fe = None ->
  exists c v', updateOrInplace l fe v = (Ok c, v') /\ updated t l fe v v' c.
Proof.
  intros Ec. pose proof (co_dirs _ _ _ (proj2 Hv) _ _ _ _ _ _ _ Hr Hl) as Hok.
  pose proof Hl as (d & Hd0 & _ & _ & _ & Hits & _)%skels_dir.
  unfold updateOrInplace. erewrite bind_ok by by apply load_dir_run. cbv zeta. rewrite Hits, Ec.
  destruct (new_entry_run v t n l i p path its read fe e Hv Hr Hl Hi Hd) as (nd & Hmk & Enew).
  rewrite (bind_ok _ _ _ _ _ Enew). rewrite <- length_skels. set (c := length (skels v)).
  destruct (on_items_run v (new_heap nd v) [skel_of nd] l i p path its read (items_Set (fe_Name fe) c) Hl)
    as (v2 & E3 & Hed & Es2); [by rewrite skels_new|done|]. rewrite (bind_ok _ _ _ _ _ E3).
  destruct (edit_child _ _ _ _ _ c _ _ _ _ _ _ _ _ Hl Hed Hmk eq_refl) as [Hnew Hch].
  destruct (grown_ok v _ _ t n l i p path its _ read Hv Hr Hl Hed) as [Hv' Hg].
  - rewrite Es2. apply Hv.
  - by apply insert_subseteq.
  - apply items_Set_health, (ok_health _ _ _ _ _ _ Hok).
  - intros m c'. cbn [nodes items_Set]. intros [[<- <-]|[Hne Hc']]%lookup_insert_Some; [right|by left].
    split_and!; [done|exact Hnew|]. eauto.
  - eexists c, _. split; [done|]. split_and!; [done|apply Hed|done|].
    intros i' p' path' its' rd' Hl'. simplify_eq.
    eexists. split; [rewrite (proj1 Hed); by eapply edit_at|]. split; [apply lookup_insert_eq|done].
Qed.
End update.

Lemma updateOrInplace_run v t n l i p path its read fe :
  vfs_ok v t -> reach (skels v) (vroot v) n l -> skels v !! l = Some (SDir i p path its read) ->
  fe_ok t i fe -> exists c v', updateOrInplace l fe v = (Ok c, v') /\ updated t l fe v v' c.
Proof.
  intros Hv Hr Hl (e & He & Hi & Hd). destruct (nodes its !! fe_Name fe) as [c|] eqn:Ec.
  - exists c. by eapply updateOrInplace_cached.
  - by eapply updateOrInplace_new.
Qed.

(** ** Reading a directory *)

Lemma read_entries_run fes v t n l i p path its read :
  vfs_ok v t -> reach (skels v) (vroot v) n l -> skels v !! l = Some (SDir i p path its read) ->
  Forall (fe_ok t i) fes ->
  exists v' its', read_entries None l fes v = (Ok tt, v') /\ vfs_ok v' t /\ vroot v' = vroot v /\
    grows (skels v) (skels v') /\ skels v' !! l = Some (SDir i p path its' read) /\
    (forall name, name ∈ fe_Name <$> fes -> is_Some (nodes its' !! name)) /\
    (forall name, health its' !! name = Some false ->
       health its !! name = Some false /\ name ∉ fe_Name <$> fes).
Proof.
  revert v its. induction fes as [|fe fes IH]; intros v its Hv Hr Hl Hok.
  - exists v, its. split_and!; try done; [by intros ? ?%elem_of_nil|by intros; split; [|apply not_elem_of_nil]].
  - apply Forall_cons in Hok as [Hfe Hfes].
    destruct (updateOrInplace_run _ _ _ _ _ _ _ _ _ _ Hv Hr Hl Hfe) as (c & v1 & E1 & Hv1 & Eroot1 & Hg1 & Hits).
    destruct (Hits _ _ _ _ _ Hl) as (its1 & Hl1 & Hn1 & Hh1).
    destruct (IH v1 its1) as (v2 & its2 & E2 & Hv2 & Eroot2 & Hg2 & Hl2 & Hn2 & Hh2); try done.
    { rewrite Eroot1. by eapply reach_grows. }
    exists v2, its2. cbn [read_entries]. rewrite (bind_ok _ _ _ _ _ E1). erewrite bind_ok by reflexivity.
    split_and!; [done|done|congruence|by etrans|done| |].
    + intros name [->|Hin]%elem_of_cons; [|by apply Hn2]. destruct (Hg2 _ _ Hl1) as (its' & rd' & E & Hsub).
      rewrite Hl2 in E. simplify_eq. exists c. by eapply lookup_weaken.
    + intros name [Hh Hni]%Hh2. rewrite Hh1 in Hh.
      apply lookup_insert_Some in Hh as [[_ [=]]|[Hne Hh]]. split; [done|]. cbn.
      rewrite not_elem_of_cons. done.
Qed.

Lemma clean_healthy v l d :
  heap v !! l = Some (NDir d) -> (forall name, health (d_items d) !! name <> Some false) ->
  clean l v = (Ok tt, v).
Proof.
  intros Hd Hh. unfold clean. erewrite bind_ok by by apply load_dir_run.
  replace (List.filter (fun p : string * bool => negb p.2) (map_to_list (health (d_items d)))) with
    (@nil (string * bool)); [done|].
  destruct (List.filter _ _) as [|[name b] l'] eqn:E; [done|]. exfalso.
  assert (List.In (name, b) ((name, b) :: l')) as Hin by by left.
  rewrite <- E in Hin. apply List.filter_In in Hin as [Hin Hb]. destruct b; [done|].
  apply (Hh name), elem_of_map_to_list, list_elem_of_In, Hin.
Qed.

(** The directory has been read: no entry is missing. *)
Lemma mark_read v t n l i p path its read when :
  vfs_ok v t -> reach (skels v) (vroot v) n l -> skels v !! l = Some (SDir i p path its read) ->
  (forall name e, entries t !! (i, name) = Some e -> is_Some (nodes its !! name)) ->
  exists v', on_dir l (with_read (Some when)) v = (Ok tt, v') /\ vfs_ok v' t /\ vroot v' = vroot v /\
    grows (skels v) (skels v') /\ skels v' !! l = Some (SDir i p path its true).
Proof.
  intros Hv Hr Hl Hall. pose proof (co_dirs _ _ _ (proj2 Hv) _ _ _ _ _ _ _ Hr Hl) as Hok.
  pose proof Hl as (d & Hd & Hi & Hp & Hpath & Hits & _)%skels_dir.
  rewrite (on_dir_run _ _ _ _ Hd). set (v' := upd_heap _ _ _).
  assert (edited v v' [] l (SDir i p path its true)) as Hed.
  { split; [|done]. unfold v'. rewrite skels_upd, app_nil_r. unfold skel_of. simpl. by rewrite Hi, Hp, Hpath, Hits. }
  exists v'. split; [done|]. split_and!; [|done| |].
  - eapply edited_ok; try done; [apply Hv|by left| |by destruct (proj2 Hv)..].
    destruct Hok as [Hh Hch _]. split; [done| |done]. intros name c (e & He & Hc)%Hch.
    exists e. split; [done|]. eapply child_ok_keeps; [|done]. rewrite (proj1 Hed). by eapply edit_keeps.
  - rewrite (proj1 Hed). by eapply edit_grows.
  - rewrite (proj1 Hed). by eapply edit_at.
Qed.

Lemma _readDir_run v t n l i p path its read when :
  vfs_ok v t -> reach (skels v) (vroot v) n l -> skels v !! l = Some (SDir i p path its read) ->
  exists v' its', _readDir DirCacheTime l when v = (Ok tt, v') /\ vfs_ok v' t /\ vroot v' = vroot v /\
    grows (skels v) (skels v') /\ skels v' !! l = Some (SDir i p path its' true).
Proof.
  intros Hv Hr Hl. pose proof (co_dirs _ _ _ (proj2 Hv) _ _ _ _ _ _ _ Hr Hl) as Hok.
  pose proof Hl as (d & Hd & Hi & Hp & Hpath & Hits & Hrd)%skels_dir.
  unfold _readDir, readDir_with. erewrite bind_ok by by apply load_dir_run.
  destruct (_age DirCacheTime when d).2 eqn:Eage; cbn [negb].
  2:{ assert (read = true) as ->.
      { subst read. unfold _age in Eage. destruct (d_read d); [|done]. by apply bool_decide_eq_true_2. }
      exists v, its. by split_and!. }
  destruct (fs_List_run (d_inode d) _ t (proj1 Hv) (co_tree _ _ _ (proj2 Hv))) as (fes & s1 & E1 & Hs1 & Hfes & Hall).
  rewrite (bind_ok _ _ _ _ _ (call_run _ _ _ _ E1)). rewrite Hi in *.
  destruct (on_items_run v (set_server s1 v) [] l i p path its read invalidate Hl) as (v2 & E2 & Hed & Es2);
    [by rewrite app_nil_r|done|]. rewrite (bind_ok _ _ _ _ _ E2).
  destruct (grown_ok v v2 [] t n l i p path its _ read Hv Hr Hl Hed) as [Hv2 Hg2]; try done.
  { by rewrite Es2. }
  { intros name. simpl. rewrite lookup_fmap, fmap_is_Some. apply (ok_health _ _ _ _ _ _ Hok). }
  { by left. }
  assert (skels v2 !! l = Some (SDir i p path (invalidate its) read)) as Hl2
    by (rewrite (proj1 Hed); by eapply edit_at).
  assert (reach (skels v2) (vroot v2) n l) as Hr2 by (rewrite (proj2 Hed); by eapply reach_grows).
  destruct (read_entries_run fes _ _ _ _ _ _ _ _ _ Hv2 Hr2 Hl2 Hfes)
    as (v3 & its3 & E3 & Hv3 & Eroot3 & Hg3 & Hl3 & Hn3 & Hh3). rewrite (bind_ok _ _ _ _ _ E3).
  assert (reach (skels v3) (vroot v3) n l) as Hr3 by (rewrite Eroot3; by eapply reach_grows).
  pose proof Hl3 as (d3 & Hd3 & Hi3 & _ & _ & Hits3 & _)%skels_dir.
  erewrite bind_ok; [|apply (clean_healthy _ _ _ Hd3)].
  2:{ intros name. rewrite Hits3. intros [Hh Hni]%Hh3. simpl in Hh. apply Hni.
      assert (is_Some (health its !! name)) as [c Hc]%(ok_health _ _ _ _ _ _ Hok).
      { rewrite lookup_fmap in Hh. apply fmap_is_Some with (fun _ => false). eauto. }
      destruct (ok_child _ _ _ _ _ _ Hok _ _ Hc) as (e & He & _). by eapply Hall. }
  destruct (reach_dir _ _ _ (proj2 Hv3) _ _ _ _ _ _ _ Hr3 Hl3) as (a & Ha & _).
  destruct (_reloadAttr_run v3 t l d3 a (proj1 Hv3) Hd3) as (v4 & E4 & Hq); [by rewrite Hi3|].
  erewrite bind_ok; [|unfold catch; by rewrite E4]. pose proof (quiet_ok _ _ _ Hq Hv3) as Hv4.
  destruct Hq as (Esk4 & Eroot4 & _). rewrite <- Esk4 in Hl3.
  destruct (mark_read v4 t n l i p path its3 read when Hv4) as (v5 & E5 & Hv5 & Eroot5 & Hg5 & Hl5).
  { by rewrite Esk4, Eroot4. }
  { done. }
  { intros name e He. apply Hn3. by eapply Hall. }
  exists v5, its3. split_and!; [done|done| | |done].
  - rewrite Eroot5, Eroot4, Eroot3. apply Hed.
  - rewrite Esk4 in Hg5. by do 2 (etrans; [done|]).
Qed.

(** ** Looking names up *)

Lemma stat_run v t n l i p path its read name now :
  vfs_ok v t -> reach (skels v) (vroot v) n l -> skels v !! l = Some (SDir i p path its read) ->
  exists v', vfs_ok v' t /\ vroot v' = vroot v /\ grows (skels v) (skels v') /\
    match entries t !! (i, name) with
    | Some e => exists c, stat DirCacheTime l name now v = (Ok c, v') /\
        reach (skels v') (vroot v') (Datatypes.S n) c /\ child_ok (skels v') l name e c
    | None => stat DirCacheTime l name now v = (Err V_ENOENT, v')
    end.
Proof.
  intros Hv Hr Hl.
  destruct (_readDir_run v t n l i p path its read now Hv Hr Hl) as (v' & its' & E & Hv' & Eroot & Hg & Hl').
  exists v'. split_and!; try done. unfold stat. rewrite (bind_ok _ _ _ _ _ E).
  assert (reach (skels v') (vroot v') n l) as Hr' by (rewrite Eroot; by eapply reach_grows).
  pose proof (co_dirs _ _ _ (proj2 Hv') _ _ _ _ _ _ _ Hr' Hl') as [_ Hch Hcomp].
  pose proof Hl' as (d & Hd & _ & _ & _ & Hits & _)%skels_dir.
  erewrite bind_ok by by apply load_dir_run. rewrite Hits.
  destruct (nodes its' !! name) as [c|] eqn:Ec.
  - destruct (Hch _ _ Ec) as (e & -> & Hok). exists c. split_and!; [done|by econstructor|done].
  - destruct (entries t !! (i, name)) as [e|] eqn:Ee; [|done].
    destruct (Hcomp eq_refl _ _ Ee) as [c' ?]. congruence.
Qed.

(** The inode a path leads to, from the directory [i]; empty elements are passed
    over. *)
Fixpoint t_walk (t : tree) (i : N) (elems : list string) : option N :=
  match elems with
  | [] => Some i
  | name :: rest =>
      if bool_decide (name = ""%string) then t_walk t i rest
      else match entries t !! (i, name) with
           | Some e => t_walk t (e_Ino e) rest
           | None => None
           end
  end.

Definition skel_ino (s : skel) : N := match s with SDir i _ _ _ _ => i | SFile i _ _ _ => i end.
Lemma skel_ino_of n : skel_ino (skel_of n) = node_Inode n.
Proof. by destruct n. Qed.

(** A file has no entries. *)
Lemma file_no_entries v t n l i nm d isdir name :
  vfs_ok v t -> reach (skels v) (vroot v) n l -> skels v !! l = Some (SFile i nm d isdir) ->
  entries t !! (i, name) = None.
Proof.
  intros [_ Hco] Hr Hl. destruct n as [|n].
  { apply reach_0 in Hr as ->. destruct (co_root _ _ _ Hco) as (its & rd & E). congruence. }
  apply (reach_parent _ _ _ Hco) in Hr as (?&?&?&?&?&?&?& e &_&_&_& He & Hok).
  unfold child_ok in Hok. rewrite Hl in Hok. destruct Hok as (-> & _ & _ & _ & Hd).
  destruct (entries t !! (e_Ino e, name)) as [e'|] eqn:E; [|done]. exfalso.
  destruct (co_tree _ _ _ Hco) as [Hinv _].
  destruct (inv_entry _ _ _ Hinv _ _ _ He) as [_ [k Hk]]. destruct (inv_entry _ _ _ Hinv _ _ _ E) as [[k' Hk'] _].
  congruence.
Qed.

Lemma walk_run elems v t n l s now :
  vfs_ok v t -> reach (skels v) (vroot v) n l -> skels v !! l = Some s ->
  exists v', vfs_ok v' t /\ vroot v' = vroot v /\ grows (skels v) (skels v') /\
    match t_walk t (skel_ino s) elems with
    | Some i => exists c m s', walk DirCacheTime l elems now v = (Ok c, v') /\
        reach (skels v') (vroot v') m c /\ skels v' !! c = Some s' /\ skel_ino s' = i
    | None => walk DirCacheTime l elems now v = (Err V_ENOENT, v')
    end.
Proof.
  revert v n l s. induction elems as [|name rest IH]; intros v n l s Hv Hr Hl.
  - exists v. split_and!; try done. exists l, n, s. by split_and!.
  - cbn [walk t_walk]. case_bool_decide as Hname; [by eapply IH|].
    destruct s as [i p path its read|i nm d isdir]; cbn [skel_ino].
    + pose proof Hl as (x & Hx & _)%skels_dir. erewrite bind_ok by by apply load_node_run. cbv beta match.
      destruct (stat_run v t n l i p path its read name now Hv Hr Hl) as (v1 & Hv1 & Eroot & Hg & Hst).
      destruct (entries t !! (i, name)) as [e|] eqn:Ee.
      * destruct Hst as (c & E & Hrc & Hok).
        destruct (reach_alive _ _ _ (proj2 Hv1) _ _ Hrc) as [sc Hsc].
        destruct (IH v1 _ c sc Hv1 Hrc Hsc) as (v2 & Hv2 & Eroot2 & Hg2 & Hres).
        assert (skel_ino sc = e_Ino e) as Ei.
        { unfold child_ok in Hok. rewrite Hsc in Hok. by destruct sc, Hok. }
        rewrite Ei in Hres. exists v2. split_and!; [done|congruence|by etrans|].
        unfold Dir_Stat. by rewrite (bind_ok _ _ _ _ _ E).
      * exists v1. split_and!; [done..|]. unfold Dir_Stat. by erewrite bind_err by done.
    + rewrite (file_no_entries _ _ _ _ _ _ _ _ name Hv Hr Hl). exists v. split_and!; try done.
      pose proof Hl as (x & Hx & _)%skels_file. by erewrite bind_ok by by apply load_node_run.
Qed.

(** [VFS.Stat] on a cache that agrees with the service. *)
Lemma Stat_run path v t now :
  vfs_ok v t ->
  exists v', vfs_ok v' t /\ vroot v' = vroot v /\ grows (skels v) (skels v') /\
    match t_walk t 1 (split_slash (Trim path)) with
    | Some i => exists c m s', Stat DirCacheTime path now v = (Ok c, v') /\
        reach (skels v') (vroot v') m c /\ skels v' !! c = Some s' /\ skel_ino s' = i
    | None => Stat DirCacheTime path now v = (Err V_ENOENT, v')
    end.
Proof.
  intros Hv. destruct (co_root _ _ _ (proj2 Hv)) as (its & read & Hl).
  destruct (walk_run (split_slash (Trim path)) v t 0 (vroot v) (SDir 1 None "." its read) now Hv)
    as (v' & H'); [constructor|exact Hl|].
  by exists v'.
Qed.
End run.
