(* ===== verification/VfsOps.v ===== *)
(** Creating and removing nodes through the client (Vfs.v): on a cache that agrees
    with the service, each operation answers as the service's tree says, and
    cache and tree agree again afterwards. *)
From Stdlib Require Import Ascii.
From stdpp Require Import prelude gmap strings list fin_maps.
From S2P Require Import Prelude Store FileMode Attr NodeService Tree TreeInv NodeRefine VfsFs MetaClient Vfs VfsInv VfsRun.

(** ** Names *)

Lemma split_slash_plain s : has_char "/"%char s = false -> split_slash s = [s].
Proof.
  induction s as [|a s IH]; [done|]. simpl. intros H. apply orb_false_iff in H as [Ha Hs].
  rewrite bool_decide_eq_false_2; [by rewrite IH|]. by apply bool_decide_eq_false_1 in Ha.
Qed.
Lemma path_Base_valid n : valid_name n -> path_Base n = n.
Proof.
  intros [Hne Hs]. unfold path_Base. rewrite bool_decide_eq_false_2, split_slash_plain by done.
  rewrite filter_cons, decide_True by done. done.
Qed.
Lemma Dir_Name_plain d : plain_name (d_path d) -> Dir_Name d = d_path d.
Proof.
  intros (Hv & Hdot & _). unfold Dir_Name. rewrite path_Base_valid by done.
  cbv zeta. by rewrite bool_decide_eq_false_2.
Qed.

Lemma mkdir_mode mode : FileMode_IsDir (N.lor ModeDir mode) = true.
Proof.
  unfold FileMode_IsDir, has_bits. rewrite N.land_lor_distr_l. change (N.land ModeDir ModeDir) with ModeDir.
  apply negb_true_iff, N.eqb_neq. by intros [? _]%N.lor_eq_0_iff.
Qed.

Section ops.
Context {S : Type} `{MetaSpec S}.
Context (mountUID mountGID Umask : N) (DirCacheTime : Z).
Implicit Types v : VFS S.

(** ** Adding a node *)

Lemma add_quiet_nodeMap f v t : holds (server v) t ->
  exists v', with_nodeMap (S := S) f v = (Ok tt, v') /\ quiet t v v'.
Proof. intros Hs. eexists. split; [done|]. by split_and!. Qed.

Lemma deleteNode_run ino name v t : holds (server v) t ->
  exists v', deleteNode ino name v = (Ok tt, v') /\ quiet t v v'.
Proof. apply add_quiet_nodeMap. Qed.

Lemma addNode_run c n v t : heap v !! c = Some n -> holds (server v) t ->
  exists v', addNode c v = (Ok tt, v') /\ quiet t v v'.
Proof. intros Hc Hs. unfold addNode. erewrite bind_ok by by apply load_node_run. by apply add_quiet_nodeMap. Qed.

Lemma skels_some v c s : skels v !! c = Some s -> exists n, heap v !! c = Some n /\ skel_of n = s.
Proof. unfold skels. rewrite list_lookup_fmap. destruct (heap v !! c); simpl; intros [= <-]. eauto. Qed.

Lemma edited_quiet t v v1 v2 ns l s : edited v v1 ns l s -> quiet t v1 v2 -> edited v v2 ns l s.
Proof. intros [E1 E2] (E3 & E4 & _). split; congruence. Qed.

Lemma Dir_add_run v0 v nd t' l i p path its read (a : Attr) :
  skels v0 !! l = Some (SDir i p path its read) -> skels v = skels v0 ++ [skel_of nd] ->
  vroot v = vroot v0 -> heap v !! length (skels v0) = Some nd ->
  holds (server v) t' -> attrs t' !! i = Some a ->
  exists v', Dir_add l (length (skels v0)) v = (Ok tt, v') /\ holds (server v') t' /\
    edited v0 v' [skel_of nd] l (SDir i p path (items_Set (node_Name nd) (length (skels v0)) its) read).
Proof.
  intros Hl Esk Eroot Hc Hs Ha. unfold Dir_add. rewrite (bind_ok _ _ _ _ _ (load_node_run _ _ _ Hc)).
  destruct (on_items_run v0 v [skel_of nd] l i p path its read (items_Set (node_Name nd) (length (skels v0))) Hl Esk Eroot)
    as (v1 & E1 & Hed & Es1). rewrite (bind_ok _ _ _ _ _ E1).
  assert (exists n, heap v1 !! length (skels v0) = Some n) as [n Hn].
  { destruct (skels_some v1 (length (skels v0)) (skel_of nd)) as (n & Hn & _); [|eauto].
    rewrite (proj1 Hed). erewrite edit_new by done. by rewrite Nat.sub_diag. }
  destruct (addNode_run _ _ v1 t' Hn) as (v2 & E2 & Hq2); [by rewrite Es1|]. rewrite (bind_ok _ _ _ _ _ E2).
  pose proof (edited_quiet _ _ _ _ _ _ _ Hed Hq2) as Hed2.
  assert (skels v2 !! l = Some (SDir i p path (items_Set (node_Name nd) (length (skels v0)) its) read)) as Hl2
    by (rewrite (proj1 Hed2); by eapply edit_at).
  pose proof Hl2 as (d2 & Hd2 & Hi2 & _)%skels_dir.
  destruct (_reloadAttr_run v2 t' l d2 a) as (v3 & E3 & Hq3); [by apply Hq2|done|by rewrite Hi2|].
  unfold catch. rewrite E3. exists v3. split; [done|]. split; [apply Hq3|]. by eapply edited_quiet.
Qed.

(** The directory at [l] has a new child for the new entry [e] of the tree. *)
Lemma added_ok v v' t t' n l i p path its read nd e :
  vfs_ok v t -> reach (skels v) (vroot v) n l -> skels v !! l = Some (SDir i p path its read) ->
  edited v v' [skel_of nd] l (SDir i p path (items_Set (node_Name nd) (length (skels v)) its) read) ->
  holds (server v') t' -> tree_inv t' -> plain_name (node_Name nd) ->
  makes l (node_Name nd) e (skel_of nd) -> entries t !! (i, node_Name nd) = None ->
  entries t' = <[(i, node_Name nd) := e]> (entries t) ->
  vfs_ok v' t' /\ grows (skels v) (skels v') /\
  reach (skels v') (vroot v') (Datatypes.S n) (length (skels v)).
Proof.
  intros Hv Hr Hl Hed Hs Ht' Hname Hmk Hfree Hent. pose proof (proj2 Hv) as Hco.
  pose proof (co_dirs _ _ _ Hco _ _ _ _ _ _ _ Hr Hl) as [Hh Hch Hcomp].
  destruct (edit_child _ _ _ _ _ (length (skels v)) _ _ _ _ _ _ _ _ Hl Hed Hmk eq_refl) as [Hnew Hchild].
  assert (nodes its !! node_Name nd = None) as Hnone.
  { destruct (nodes its !! node_Name nd) as [c|] eqn:E; [|done].
    destruct (Hch _ _ E) as (e' & He' & _). congruence. }
  assert (grows (skels v) (skels v')) as Hg.
  { rewrite (proj1 Hed). eapply edit_grows; [done|]. by apply insert_subseteq. }
  assert (keeps (skels v) (skels v')) as Hk by (rewrite (proj1 Hed); by eapply edit_keeps).
  split_and!; [|done|].
  - eapply edited_ok; try done.
    + intros m c. cbn [nodes items_Set]. intros [[<- <-]|[_ Hc]]%lookup_insert_Some; [by right|by left].
    + split.
      * by apply items_Set_health.
      * intros m c. cbn [nodes items_Set]. rewrite Hent.
        intros [[<- <-]|[Hne Hc]]%lookup_insert_Some; [exists e; by rewrite lookup_insert_eq|].
        destruct (Hch _ _ Hc) as (e' & He' & Hok). exists e'. rewrite lookup_insert_ne by congruence.
        split; [done|]. by eapply child_ok_keeps.
      * intros Hrd m e' He'. cbn [nodes items_Set]. destruct (decide (m = node_Name nd)) as [->|Hne].
        { rewrite lookup_insert_eq. eauto. }
        rewrite lookup_insert_ne by done. rewrite Hent, lookup_insert_ne in He' by congruence. by eapply Hcomp.
    + intros q m e'. rewrite Hent. intros [[[= <- <-] _]|[_ He']]%lookup_insert_Some; [done|].
      by eapply (co_names _ _ _ Hco).
    + intros q m Hq. rewrite Hent, lookup_insert_ne by congruence. done.
  - econstructor; [rewrite (proj2 Hed); by eapply reach_grows| |].
    + rewrite (proj1 Hed). by eapply edit_at.
    + apply lookup_insert_eq.
Qed.

(** ** Creating nodes *)

(** The request of [_createInode]. *)
Definition new_req (owner : N * N) (mode : N) (target : string) (rdev : N) (now : Time) : ModifyAttr :=
  MkModifyAttr None (Some (Unix now)) (Some (Nanosecond now)) (Some (Unix now)) (Some (Nanosecond now))
    (Some (Unix now)) (Some (Nanosecond now)) (Some owner.1) (Some owner.2) (Some mode) None (Some rdev)
    (Some target) None.

(** The operation [op] answers as the service did, in [res]; on success the new
    node is reached under its name and has the number the service gave it. *)
Definition answers (v : VFS S) (l : loc) (name : string) (op : M (VFS S) verror loc)
    (res : result PbAttr) : Prop :=
  match res with
  | (Ok a, t') => exists c v' n s, op v = (Ok c, v') /\ vfs_ok v' t' /\ grows (skels v) (skels v') /\
      vroot v' = vroot v /\ reach (skels v') (vroot v') n c /\ skels v' !! c = Some s /\ skel_ino s = Inode a /\
      exists i p path its read, skels v' !! l = Some (SDir i p path its read) /\ nodes its !! name = Some c
  | (Err e, t') => exists v', op v = (Err (Remote e), v') /\ vfs_ok v' t' /\ skels v' = skels v
  | (Panic, _) => False
  end.

Lemma _createInode_run ctx parent name mode target rdev now now' owner (s : S) t :
  holds s t -> valid_name name -> extractCaller mountUID mountGID ctx s = (Ok owner, s) ->
  let res := t_create parent name (new_req owner mode target rdev now) now' t in
  exists s', holds s' res.2 /\ _createInode mountUID mountGID ctx parent name mode target rdev now now' s =
    (match res.1 with Ok a => Ok (with_fe_Name name (wrap a)) | Err e => Err e | Panic => Panic end, s').
Proof.
  intros Hs Hn Hc. cbv zeta.
  destruct (spec_CreateInode parent name (new_req owner mode target rdev now) now' Hn s t Hs) as [E Hs'].
  unfold _createInode. rewrite (bind_ok _ _ _ _ _ Hc). fold (new_req owner mode target rdev now).
  unfold bind at 1. destruct (mc_CreateInode parent name _ now' s) as [r s'] eqn:Er. simpl in *.
  exists s'. rewrite <- E. by destruct r.
Qed.

Section create.
Context (v : VFS S) (t : tree) (n : nat) (l : loc) (i : N) (p : option loc) (path : string).
Context (its : items) (read : bool) (name : string).
Context (Hv : vfs_ok v t) (Hr : reach (skels v) (vroot v) n l).
Context (Hl : skels v !! l = Some (SDir i p path its read)) (Hname : plain_name name).

(** The last part of the four operations. *)
Lemma finish_create t' v1 nd (a : PbAttr) :
  skels v1 = skels v ++ [skel_of nd] -> vroot v1 = vroot v -> heap v1 !! length (skels v) = Some nd ->
  holds (server v1) t' -> node_Name nd = name ->
  makes l name (MkEntry i name (Inode a) (Mode a)) (skel_of nd) ->
  tree_inv t' -> entries t !! (i, name) = None -> is_Some (attrs t' !! i) ->
  entries t' = <[(i, name) := MkEntry i name (Inode a) (Mode a)]> (entries t) ->
  answers v l name (fun _ => (Dir_add l (length (skels v)) ;;; ret (length (skels v))) v1) (Ok a, t').
Proof.
  intros Esk Eroot Hc Hs <- Hmk Ht' Hfree [pa Hpa] Hent.
  destruct (Dir_add_run v v1 nd t' l i p path its read pa Hl Esk Eroot Hc Hs Hpa) as (v' & E & Hs' & Hed).
  destruct (added_ok v v' t t' n l i p path its read nd _ Hv Hr Hl Hed Hs' Ht' Hname Hmk Hfree Hent)
    as (Hv' & Hg & Hr'). exists (length (skels v)), v', (Datatypes.S n), (skel_of nd).
  rewrite (bind_ok _ _ _ _ _ E). destruct (proj1 Hed), (proj2 Hed).
  split_and!; [done|done|done|done|done| | |].
  - rewrite (proj1 Hed). erewrite edit_new by done. by rewrite Nat.sub_diag.
  - destruct Hmk as [_ Hmk]. destruct (skel_of nd); apply Hmk.
  - eexists _, _, _, _, _. rewrite (proj1 Hed). split; [by eapply edit_at|]. apply lookup_insert_eq.
Qed.

Lemma unless_cached_run {A} (k : Dir -> M (VFS S) verror A) d :
  heap v !! l = Some (NDir d) -> d_items d = its -> nodes its !! name = None ->
  unless_cached l name k v = k d v.
Proof.
  intros Hd Hits Hn. unfold unless_cached. rewrite (bind_ok _ _ _ _ _ (load_dir_run _ _ _ Hd)).
  by rewrite Hits, Hn.
Qed.

(** A file or symlink: the client calls [fs_create], then makes the node. *)
Lemma create_file_run ctx mode target rdev now now' owner :
  room t i -> FileMode_IsDir mode = false -> nodes its !! name = None ->
  extractCaller mountUID mountGID ctx (server v) = (Ok owner, server v) ->
  answers v l name
    (unless_cached l name (fun d =>
       entry <- call (_createInode mountUID mountGID ctx (d_inode d) name mode target rdev now now') ;;
       pp <- Dir_Path l ;; f <- newFileEntry l pp entry ;; Dir_add l f ;;; ret f))
    (t_create i name (new_req owner mode target rdev now) now' t).
Proof.
  intros Hroom Hmode Hnone Hcaller. pose proof Hl as (d & Hd & Hi & _ & _ & Hits & _)%skels_dir.
  destruct (_createInode_run ctx i name mode target rdev now now' owner (server v) t
    (proj1 Hv) (proj1 Hname) Hcaller) as (s' & Hs' & E).
  destruct (t_create_cases i name (new_req owner mode target rdev now) now' t (co_tree _ _ _ (proj2 Hv)) Hroom)
    as [[e Ee]|(a & t' & Ea & Ht' & Hfree & Hpa & Hino & Hm & Hent)].
  - rewrite Ee in *. exists (set_server s' v). split_and!; [|by split; [|apply Hv]|done].
    rewrite (unless_cached_run _ d), Hi by done. erewrite bind_err; [done|]. by apply call_err.
  - rewrite Ea in *. cbn [fst snd] in *. set (v1 := set_server s' v).
    destruct (Dir_Path_run v1 t n l i p path its read (proj2 Hv) Hr Hl) as [pp Epp].
    set (nd := NFile (mkFile (Inode a) name [] [] [] l pp (ToDirtyAttr (with_fe_Name name (wrap a))))).
    destruct (finish_create t' (new_heap nd v1) nd a) as (c & v' & m & s & Eop & Hrest); try done.
    + apply (skels_new nd v1).
    + rewrite length_skels. apply list_lookup_middle. done.
    + split; [done|]. cbn. unfold e_IsDir. cbn [e_Mode]. by rewrite Hm.
    + exists c, v', m, s. split; [|done]. rewrite (unless_cached_run _ d), Hi by done.
      rewrite (bind_ok _ _ _ _ _ (call_run _ _ _ _ E)), (bind_ok _ _ _ _ _ Epp).
      rewrite <- Eop. rewrite length_skels. done.
Qed.

Lemma Dir_Mkdir_run ctx mode now now' owner :
  room t i -> nodes its !! name = None ->
  extractCaller mountUID mountGID ctx (server v) = (Ok owner, server v) ->
  answers v l name (Dir_Mkdir mountUID mountGID ctx l name mode now now')
    (t_create i name (new_req owner (N.lor ModeDir mode) "" 0 now) now' t).
Proof.
  intros Hroom Hnone Hcaller. pose proof Hl as (d & Hd & Hi & _ & _ & Hits & _)%skels_dir.
  unfold Dir_Mkdir. unfold fs_Mkdir.
  destruct (Dir_Path_run v t n l i p path its read (proj2 Hv) Hr Hl) as [pp Epp].
  destruct (_createInode_run ctx i name (N.lor ModeDir mode) "" 0 now now' owner (server v) t
    (proj1 Hv) (proj1 Hname) Hcaller) as (s' & Hs' & E).
  destruct (t_create_cases i name (new_req owner (N.lor ModeDir mode) "" 0 now) now' t
    (co_tree _ _ _ (proj2 Hv)) Hroom) as [[e Ee]|(a & t' & Ea & Ht' & Hfree & Hpa & Hino & Hm & Hent)].
  - rewrite Ee in *. exists (set_server s' v). split_and!; [|by split; [|apply Hv]|done].
    rewrite (unless_cached_run _ d), Hi by done. rewrite (bind_ok _ _ _ _ _ Epp).
    erewrite bind_err; [done|]. by apply call_err.
  - rewrite Ea in *. cbn [fst snd] in *. set (v1 := set_server s' v).
    set (nd := NDir (mkDir (Inode a) (Some l) name newItems None (ToDirtyAttr (with_fe_Name name (wrap a))))).
    destruct (finish_create t' (new_heap nd v1) nd a) as (c & v' & m & s & Eop & Hrest); try done.
    + apply (skels_new nd v1).
    + rewrite length_skels. apply list_lookup_middle. done.
    + by apply Dir_Name_plain.
    + split; [done|]. cbn. unfold e_IsDir. cbn [e_Mode]. rewrite Hm. split_and!; try done.
      apply mkdir_mode.
    + exists c, v', m, s. split; [|done]. rewrite (unless_cached_run _ d), Hi by done.
      rewrite (bind_ok _ _ _ _ _ Epp), (bind_ok _ _ _ _ _ (call_run _ _ _ _ E)).
      rewrite <- Eop. rewrite length_skels. done.
Qed.

Lemma Dir_Create_run ctx mode rdev now now' owner :
  room t i -> FileMode_IsDir (ToFileMode mode) = false -> nodes its !! name = None ->
  extractCaller mountUID mountGID ctx (server v) = (Ok owner, server v) ->
  answers v l name (Dir_Create mountUID mountGID ctx l name mode rdev now now')
    (t_create i name (new_req owner (ToFileMode mode) "" rdev now) now' t).
Proof. intros. by apply create_file_run. Qed.

Lemma symlink_mode : FileMode_IsDir (N.lor ModeSymlink (and_not32 511 Umask)) = false.
Proof.
  unfold FileMode_IsDir, has_bits, and_not32. apply negb_false_iff, N.eqb_eq.
  rewrite N.land_lor_distr_l, <- N.land_assoc, (N.land_comm (N.lxor _ _)), N.land_assoc. done.
Qed.

Lemma Dir_Symlink_run ctx target now now' owner :
  room t i -> nodes its !! name = None ->
  extractCaller mountUID mountGID ctx (server v) = (Ok owner, server v) ->
  answers v l name (Dir_Symlink mountUID mountGID Umask ctx l target name now now')
    (t_create i name (new_req owner (N.lor ModeSymlink (and_not32 511 Umask)) target 0 now) now' t).
Proof. intros. apply create_file_run; try done. apply symlink_mode. Qed.

Lemma Dir_Link_run tl m i2 nm dl isdir now :
  room t i2 -> nodes its !! name = None ->
  reach (skels v) (vroot v) m tl -> skels v !! tl = Some (SFile i2 nm dl isdir) ->
  answers v l name (Dir_Link l tl name now) (t_link i2 i name now t).
Proof.
  intros Hroom Hnone Hrt Htl. pose proof Hl as (d & Hd & Hi & _ & _ & Hits & _)%skels_dir.
  pose proof Htl as (f & Hf & Hfi & _ & _ & Hfm)%skels_file. unfold Dir_Link.
  assert (isdir = false) as ->.
  { destruct m as [|m].
    { apply reach_0 in Hrt as ->. destruct (co_root _ _ _ (proj2 Hv)) as (?&?&?). congruence. }
    apply (reach_parent _ _ _ (proj2 Hv)) in Hrt as (?&?&?&?&?&?&?&?&_&_&_&_&Hok).
    unfold child_ok in Hok. rewrite Htl in Hok. apply Hok. }
  destruct (spec_Link i2 i name now (proj1 Hname) (server v) t (proj1 Hv)) as [E Hs'].
  destruct (t_link_cases i2 i name now t (co_tree _ _ _ (proj2 Hv)) Hroom)
    as [[e Ee]|(a & t' & Ea & Ht' & Hfree & Hpa & Hino & Hm & Hent)].
  - rewrite Ee in *. cbn [fst snd] in *. destruct (mc_Link i2 i name now (server v)) as [r s'] eqn:Er. simpl in *.
    exists (set_server s' v). split_and!; [|by split; [|apply Hv]|done].
    rewrite (unless_cached_run _ d), Hi by done. rewrite (bind_ok _ _ _ _ _ (load_node_run _ _ _ Hf)).
    cbn [node_Inode]. rewrite Hfi. erewrite bind_err; [done|]. apply call_err. unfold fs_Link.
    erewrite bind_err; [done|]. by rewrite Er, E.
  - rewrite Ea in *. cbn [fst snd] in *. destruct (mc_Link i2 i name now (server v)) as [r s'] eqn:Er. simpl in *.
    set (v1 := set_server s' v). set (fe := with_fe_Name name (wrap a)).
    destruct (Dir_Path_run v1 t n l i p path its read (proj2 Hv) Hr Hl) as [pp Epp].
    set (nd := NFile (mkFile (Inode a) name [] [] [] l pp (ToDirtyAttr fe))). set (v2 := new_heap nd v1).
    assert (heap v2 !! tl = Some (NFile f)) as Hf2 by by apply lookup_app_l_Some.
    set (nf := with_f_embeded (unwrap fe (f_embeded f)) f). set (v3 := upd_heap tl (NFile nf) v2).
    assert (quiet t' v2 v3) as (Esk3 & _).
    { apply upd_quiet with (n := NFile f); [done| |done]. unfold skel_of, nf. simpl. f_equal.
      unfold unwrap. destruct (da_dirty (f_embeded f)); [done|]. cbn [dirty_of da_mode]. by rewrite Hfm, <- Hm. }
    destruct (finish_create t' v3 nd a) as (c & v' & m' & s & Eop & Hrest); try done.
    + rewrite Esk3. apply (skels_new nd v1).
    + simpl. rewrite list_lookup_insert_ne; [rewrite length_skels; by apply list_lookup_middle|].
      apply lookup_lt_Some in Htl. lia.
    + exists c, v', m', s. split; [|done]. rewrite (unless_cached_run _ d), Hi by done.
      rewrite (bind_ok _ _ _ _ _ (load_node_run _ _ _ Hf)). cbn [node_Inode]. rewrite Hfi.
      erewrite bind_ok. 2:{ apply call_run. unfold fs_Link. erewrite bind_ok; [done|]. by rewrite Er, E. }
      rewrite (bind_ok _ _ _ _ _ Epp). erewrite bind_ok by done.
      erewrite bind_ok by by apply on_file_run. rewrite <- Eop, length_skels. done.
Qed.
End create.

(** ** Removing nodes *)

Lemma removed_ok v v' t t' n l i p path its read name :
  vfs_ok v t -> reach (skels v) (vroot v) n l -> skels v !! l = Some (SDir i p path its read) ->
  edited v v' [] l (SDir i p path (items_Delete name its) read) -> holds (server v') t' ->
  tree_inv t' -> entries t' = delete (i, name) (entries t) -> vfs_ok v' t'.
Proof.
  intros Hv Hr Hl Hed Hs Ht' Hent. pose proof (proj2 Hv) as Hco.
  pose proof (co_dirs _ _ _ Hco _ _ _ _ _ _ _ Hr Hl) as [Hh Hch Hcomp].
  assert (keeps (skels v) (skels v')) as Hk by (rewrite (proj1 Hed); by eapply edit_keeps).
  eapply edited_ok; try done.
  - intros m c. cbn [nodes items_Delete]. intros [_ Hc]%lookup_delete_Some. by left.
  - split.
    + intros m. cbn [nodes health items_Delete]. destruct (decide (m = name)) as [->|Hne].
      * rewrite lookup_delete_eq. by intros [].
      * rewrite !lookup_delete_ne by done. apply Hh.
    + intros m c. cbn [nodes items_Delete]. intros [Hne Hc]%lookup_delete_Some.
      destruct (Hch _ _ Hc) as (e & He & Hok). exists e. rewrite Hent, lookup_delete_ne by congruence.
      split; [done|]. by eapply child_ok_keeps.
    + intros Hrd m e. rewrite Hent. intros [Hne He]%lookup_delete_Some. cbn [nodes items_Delete].
      rewrite lookup_delete_ne by congruence. by eapply Hcomp.
  - intros q m e. rewrite Hent. intros [_ He]%lookup_delete_Some. by eapply (co_names _ _ _ Hco).
  - intros q m Hq. rewrite Hent, lookup_delete_ne by congruence. done.
Qed.

Lemma Dir_delete_run v t l i p path its read name c s :
  holds (server v) t -> skels v !! l = Some (SDir i p path its read) -> nodes its !! name = Some c ->
  skels v !! c = Some s ->
  exists v', Dir_delete l name v = (Ok tt, v') /\ holds (server v') t /\
    edited v v' [] l (SDir i p path (items_Delete name its) read).
Proof.
  intros Hs Hl Hn Hc. pose proof Hl as (d & Hd & _ & _ & _ & Hits & _)%skels_dir.
  unfold Dir_delete. rewrite (bind_ok _ _ _ _ _ (load_dir_run _ _ _ Hd)), Hits, Hn.
  destruct (on_items_run v v [] l i p path its read (items_Delete name) Hl) as (v1 & E1 & Hed & Es1);
    [by rewrite app_nil_r|done|]. rewrite (bind_ok _ _ _ _ _ E1).
  destruct (keeps_alive (skels v) (skels v1) c s) as [s' Hc']; [|done|].
  { rewrite (proj1 Hed). by eapply edit_keeps. }
  destruct (skels_some _ _ _ Hc') as (nd & Hnd & _). rewrite (bind_ok _ _ _ _ _ (load_node_run _ _ _ Hnd)).
  destruct (deleteNode_run (node_Inode nd) name v1 t) as (v2 & E2 & Hq); [by rewrite Es1|].
  exists v2. split_and!; [done|apply Hq|by eapply edited_quiet].
Qed.

(** A file goes from its directory, on both sides. *)
Lemma File_Remove_run v t n c i nm l isdir now' :
  vfs_ok v t -> reach (skels v) (vroot v) n c -> skels v !! c = Some (SFile i nm l isdir) ->
  exists j p path its read e t' v', skels v !! l = Some (SDir j p path its read) /\
    entries t !! (j, nm) = Some e /\ e_Ino e = i /\ e_IsDir e = false /\
    t_unlink j nm now' now' t = (Ok tt, t') /\ File_Remove c now' v = (Ok tt, v') /\
    vfs_ok v' t' /\ vroot v' = vroot v.
Proof.
  intros Hv Hr Hc. destruct n as [|n].
  { apply reach_0 in Hr as ->. destruct (co_root _ _ _ (proj2 Hv)) as (?&?&?). congruence. }
  pose proof Hr as (l' & j & p & path & its & read & name & e & Hrl & Hl & Hn & He & Hok)%(reach_parent _ _ _ (proj2 Hv)).
  unfold child_ok in Hok. rewrite Hc in Hok. destruct Hok as (-> & -> & -> & -> & Hd).
  pose proof (co_names _ _ _ (proj2 Hv) _ _ _ He) as Hname.
  destruct (t_unlink_file j name now' t e (co_tree _ _ _ (proj2 Hv)) He Hd) as (t' & Et & Ht' & Hent & [pa Hpa]).
  pose proof Hc as (f & Hf & _ & Hleaf & Hfd & Hfm)%skels_file. pose proof Hl as (d & Hdd & Hdi & _)%skels_dir.
  destruct (Dir_delete_run v t l' j p path its read name c _ (proj1 Hv) Hl Hn Hc) as (v1 & E1 & Hs1 & Hed1).
  destruct (spec_DeleteInode j name now' Hname (server v1) t Hs1) as [E2 Hs2]. rewrite Et in *. cbn [fst snd] in *.
  destruct (mc_DeleteInode j name now' (server v1)) as [r s2] eqn:Er. cbn [fst snd] in *. subst r.
  set (v2 := set_server s2 v1).
  assert (skels v2 !! c = Some (SFile (e_Ino e) name l' false)) as Hc2.
  { change (skels v2) with (skels v1). rewrite (proj1 Hed1).
    eapply (edit_keeps (skels v)) in Hc; [exact Hc|done]. }
  pose proof Hc2 as (f2 & Hf2 & _ & _ & _ & Hfm2)%skels_file.
  assert (exists v3, (if (da_nlink (f_embeded f2) =? 1)%Z then on_embeded c (SetNlink 0) else ret tt) v2 = (Ok tt, v3)
    /\ quiet t' v2 v3) as (v3 & E3 & Hq3).
  { destruct (_ =? 1)%Z; [|by exists v2]. rewrite (on_embeded_run _ _ _ _ Hf2). eexists. split; [done|].
    by apply upd_quiet with (n := NFile f2). }
  pose proof (edited_quiet t' v v2 v3 [] l' _ Hed1 Hq3) as Hed3.
  assert (skels v3 !! l' = Some (SDir j p path (items_Delete name its) read)) as Hl3
    by (rewrite (proj1 Hed3); by eapply edit_at).
  pose proof Hl3 as (d3 & Hd3 & Hi3 & _)%skels_dir.
  destruct (_reloadAttr_run v3 t' l' d3 pa) as (v4 & E4 & Hq4); [apply Hq3|done|by rewrite Hi3|].
  exists j, p, path, its, read, e, t', v4. split_and!; try done.
  - unfold File_Remove. rewrite (bind_ok _ _ _ _ _ (load_file_run _ _ _ Hf)), Hfd, Hleaf.
    rewrite (bind_ok _ _ _ _ _ (load_dir_run _ _ _ Hdd)), (bind_ok _ _ _ _ _ E1), Hdi.
    erewrite bind_ok by by apply call_run. fold v2.
    erewrite bind_ok; [exact E4|]. by rewrite (bind_ok _ _ _ _ _ (load_file_run _ _ _ Hf2)).
  - eapply removed_ok; [exact Hv|exact Hrl|exact Hl| |apply Hq4|done|done]. by eapply edited_quiet.
  - rewrite (proj1 (proj2 Hq4)). apply Hed3.
Qed.

Lemma isEmpty_run v t n l i p path its read now :
  vfs_ok v t -> reach (skels v) (vroot v) n l -> skels v !! l = Some (SDir i p path its read) ->
  exists v' its' b, isEmpty DirCacheTime l now v = (Ok b, v') /\ vfs_ok v' t /\ vroot v' = vroot v /\
    grows (skels v) (skels v') /\ skels v' !! l = Some (SDir i p path its' true) /\
    if b then forall m, entries t !! (i, m) = None else exists m, is_Some (entries t !! (i, m)).
Proof.
  intros Hv Hr Hl.
  destruct (_readDir_run DirCacheTime v t n l i p path its read now Hv Hr Hl) as (v' & its' & E & Hv' & Eroot & Hg & Hl').
  exists v', its', (bool_decide (items_Len its' = 0%nat)).
  pose proof Hl' as (d & Hd & _ & _ & _ & Hits & _)%skels_dir.
  assert (reach (skels v') (vroot v') n l) as Hr' by (rewrite Eroot; by eapply reach_grows).
  pose proof (co_dirs _ _ _ (proj2 Hv') _ _ _ _ _ _ _ Hr' Hl') as [_ Hch Hcomp].
  split_and!; try done.
  - unfold isEmpty. rewrite (bind_ok _ _ _ _ _ E), (bind_ok _ _ _ _ _ (load_dir_run _ _ _ Hd)). by rewrite Hits.
  - unfold items_Len. case_bool_decide as Hsz.
    + apply map_size_empty_inv in Hsz. intros m. destruct (entries t !! (i, m)) as [e|] eqn:E'; [|done].
      destruct (Hcomp eq_refl _ _ E') as [c Hc]. rewrite Hsz, lookup_empty in Hc. done.
    + apply map_size_non_empty_iff in Hsz. apply map_choose in Hsz as (m & c & Hc).
      destruct (Hch _ _ Hc) as (e & He & _). eauto.
Qed.

(** An empty directory goes from its parent, on both sides; nothing happens to
    one that is not empty. *)
Lemma Dir_Remove_run v t n c i p nm its2 read2 now now' :
  vfs_ok v t -> reach (skels v) (vroot v) (Datatypes.S n) c -> skels v !! c = Some (SDir i p nm its2 read2) ->
  ((exists m, is_Some (entries t !! (i, m))) /\
   exists v', Dir_Remove DirCacheTime c now now' v = (Err V_ENOTEMPTY, v') /\ vfs_ok v' t /\
     vroot v' = vroot v /\ grows (skels v) (skels v')) \/
  ((forall m, entries t !! (i, m) = None) /\
   exists j e t' v', entries t !! (j, nm) = Some e /\ e_Ino e = i /\
     t_rmdir j nm now' t = (Ok tt, t') /\ Dir_Remove DirCacheTime c now now' v = (Ok tt, v') /\
     vfs_ok v' t' /\ vroot v' = vroot v).
Proof.
  intros Hv Hr Hc.
  destruct (isEmpty_run v t _ c i p nm its2 read2 now Hv Hr Hc) as (v0 & its0 & b & E0 & Hv0 & Eroot0 & Hg0 & Hc0 & Hb).
  unfold Dir_Remove. rewrite (bind_ok _ _ _ _ _ E0). destruct b; cbn [negb]; [right|left].
  2:{ split; [done|]. exists v0. by split_and!. }
  split; [done|].
  assert (reach (skels v0) (vroot v0) (Datatypes.S n) c) as Hr0 by (rewrite Eroot0; by eapply reach_grows).
  pose proof Hr0 as (l & j & q & path & its & read & name & e & Hrl & Hl & Hn & He & Hok)%(reach_parent _ _ _ (proj2 Hv0)).
  unfold child_ok in Hok. rewrite Hc0 in Hok. destruct Hok as (-> & -> & -> & Hd).
  pose proof (co_names _ _ _ (proj2 Hv0) _ _ _ He) as Hname.
  destruct (t_rmdir_empty t j name e (co_tree _ _ _ (proj2 Hv0)) He Hd Hb now') as (t' & Et & Ht' & Hent & [pa Hpa]).
  pose proof Hc0 as (d & Hdd & _ & Hdp & Hpath & _)%skels_dir. pose proof Hl as (dl & Hdl & Hdli & _)%skels_dir.
  destruct (spec_DeleteDirInode j name now' (proj1 Hname) (server v0) t (proj1 Hv0)) as [E1 Hs1].
  rewrite Et in *. cbn [fst snd] in *.
  destruct (mc_DeleteDirInode j name now' (server v0)) as [r s1] eqn:Er. cbn [fst snd] in *. subst r.
  set (v1 := set_server s1 v0).
  destruct (Dir_delete_run v1 t' l j q path its read name c _ Hs1 Hl Hn Hc0) as (v2 & E2 & Hs2 & Hed2).
  assert (skels v2 !! l = Some (SDir j q path (items_Delete name its) read)) as Hl2
    by (rewrite (proj1 Hed2); by eapply edit_at).
  pose proof Hl2 as (d2 & Hd2 & Hi2 & _)%skels_dir.
  destruct (_reloadAttr_run v2 t' l d2 pa) as (v3 & E3 & Hq3); [done|done|by rewrite Hi2|].
  pose proof (edited_quiet t' v0 v2 v3 [] l _ Hed2 Hq3) as Hed3.
  exists j, e, t', v3. split_and!; try done.
  - assert (Dir_Name d = name) as En by (rewrite Dir_Name_plain; by rewrite Hpath).
    rewrite (bind_ok _ _ _ _ _ (load_dir_run _ _ _ Hdd)), Hdp. erewrite bind_ok by reflexivity.
    rewrite (bind_ok _ _ _ _ _ (load_dir_run _ _ _ Hdl)), Hdli, En.
    erewrite bind_ok by by apply call_run. fold v1. by rewrite (bind_ok _ _ _ _ _ E2).
  - eapply removed_ok; [exact Hv0|exact Hrl|exact Hl|exact Hed3|apply Hq3|done|done].
  - rewrite <- Eroot0. apply Hed3.
Qed.
End ops.
