(* ===== verification/VfsProps.v ===== *)
(** The theorems of the client (Vfs.v): paths resolve as in the service's tree,
    the cache agrees with the tree in every state the client reaches, listings are
    exact, and what renaming does not do. *)
From Stdlib Require Import Ascii.
From stdpp Require Import prelude gmap strings list fin_maps sorting.
From S2P Require Import Prelude Store Badger FileMode FreeList Attr NodeService Tree TreeInv NodeRefine NodeRename.
From S2P Require Import NodeSim NodeTheorems VfsFs MetaClient Vfs VfsInv VfsRun VfsOps.

(** * Paths *)

(** The elements of a path: slashes before, after and between them do not count. *)
Definition elems (path : string) : list string := filter (fun x => x <> ""%string) (split_slash path).

Lemma t_walk_filter t i l : t_walk t i (filter (fun x => x <> ""%string) l) = t_walk t i l.
Proof.
  revert i. induction l as [|x l IH]; intros i; [done|]. rewrite filter_cons. cbn [t_walk].
  case_bool_decide as Hx.
  - rewrite decide_False by auto. apply IH.
  - rewrite decide_True by done. cbn [t_walk]. rewrite bool_decide_eq_false_2 by done.
    destruct (entries t !! (i, x)); [apply IH|done].
Qed.

Lemma split_slash_nonempty s : split_slash s <> [].
Proof. destruct s as [|a s]; simpl; [done|]. case_bool_decide; [done|]. by destruct (split_slash s). Qed.

Lemma elems_trim_left s : elems (trim_left s) = elems s.
Proof.
  induction s as [|a s IH]; [done|]. simpl. case_bool_decide as Ha; [|done].
  rewrite IH. unfold elems. cbn [split_slash]. rewrite bool_decide_eq_true_2 by done. done.
Qed.

Lemma elems_cons a s : a <> "/"%char ->
  exists x l, split_slash s = x :: l /\ split_slash (String a s) = String a x :: l.
Proof.
  intros Ha. cbn [split_slash]. rewrite bool_decide_eq_false_2 by done.
  pose proof (split_slash_nonempty s). destruct (split_slash s) as [|x l]; [done|]. eauto.
Qed.
Lemma elems_slash s : elems (String "/" s) = elems s.
Proof. unfold elems. cbn [split_slash]. by rewrite bool_decide_eq_true_2. Qed.

(** Trimming on the right only drops empty elements at the end. *)
Lemma split_trim_right s : exists k, split_slash s = split_slash (trim_right s) ++ replicate k ""%string /\
  (trim_right s <> ""%string -> last (split_slash (trim_right s)) <> Some ""%string).
Proof.
  induction s as [|a s IH]; [by exists 0|]. destruct IH as (k & E & Hlast). cbn [trim_right].
  destruct (decide (a = "/"%char)) as [->|Ha].
  - rewrite (bool_decide_eq_true_2 (_ = _)) by done. simpl andb. case_bool_decide as Hr.
    + rewrite Hr in E. exists (1 + k)%nat. split; [|done]. cbn [split_slash].
      rewrite bool_decide_eq_true_2 by done. by rewrite E.
    + exists k. cbn [split_slash]. rewrite bool_decide_eq_true_2 by done. rewrite E. split; [done|].
      intros _. rewrite last_cons. destruct (last (split_slash (trim_right s))) eqn:El; [by apply Hlast|].
      apply last_None in El. by apply split_slash_nonempty in El.
  - rewrite (bool_decide_eq_false_2 (_ = _)) by done. simpl andb. cbv match. exists k.
    destruct (elems_cons a s Ha) as (x & l & E1 & E2). destruct (elems_cons a (trim_right s) Ha) as (y & r & E3 & E4).
    rewrite E2, E4. rewrite E1, E3 in E. simpl in E. injection E as -> ->. split; [done|].
    intros _. rewrite last_cons. destruct (last r) as [z|] eqn:El; [|done].
    intros [= ->]. rewrite E3, last_cons, El in Hlast. apply Hlast; [|done]. intros Heq.
    rewrite Heq in E3. simpl in E3. injection E3 as <- <-. done.
Qed.

Lemma filter_replicate_empty k : filter (fun x => x <> ""%string) (replicate k ""%string) = [].
Proof. induction k as [|k IH]; [done|]. simpl. rewrite filter_cons, decide_False; auto. Qed.

Lemma elems_trim_right s : elems (trim_right s) = elems s.
Proof.
  destruct (split_trim_right s) as (k & E & _). unfold elems. rewrite E, filter_app.
  by rewrite filter_replicate_empty, app_nil_r.
Qed.
Lemma elems_Trim s : elems (Trim s) = elems s.
Proof. unfold Trim. by rewrite elems_trim_left, elems_trim_right. Qed.

Lemma split_trim_left s : exists k, split_slash s = replicate k ""%string ++ split_slash (trim_left s).
Proof.
  induction s as [|a s [k E]]; [by exists 0|]. cbn [trim_left]. destruct (decide (a = "/"%char)) as [->|Ha].
  - rewrite bool_decide_eq_true_2 by done. exists (1 + k)%nat. cbn [split_slash].
    rewrite bool_decide_eq_true_2 by done. by rewrite E.
  - rewrite bool_decide_eq_false_2 by done. by exists 0.
Qed.

Lemma last_Trim s : Trim s <> ""%string -> last (split_slash (Trim s)) <> Some ""%string.
Proof.
  unfold Trim. intros Hne. destruct (split_trim_right s) as (_ & _ & Hl).
  destruct (split_trim_left (trim_right s)) as [k E]. rewrite E, last_app in Hl.
  pose proof (split_slash_nonempty (trim_left (trim_right s))) as Hn.
  destruct (last (split_slash (trim_left (trim_right s)))) as [z|] eqn:El; [|by apply last_None in El].
  apply Hl. intros Heq. rewrite Heq in Hne. done.
Qed.

Lemma split_app_slash a b : split_slash (a +:+ "/" +:+ b) = split_slash a ++ split_slash b.
Proof.
  induction a as [|x a IH]; [done|].
  change (String x a +:+ "/" +:+ b)%string with (String x (a +:+ "/" +:+ b)).
  cbn [split_slash]. case_bool_decide; [by rewrite IH|].
  rewrite IH. pose proof (split_slash_nonempty a). by destruct (split_slash a).
Qed.
Lemma split_no_slash s : Forall (fun x => has_char "/"%char x = false) (split_slash s).
Proof.
  induction s as [|a s IH]; [by repeat constructor|]. cbn [split_slash]. case_bool_decide as Ha.
  - by constructor.
  - destruct (split_slash s) as [|x l]; [repeat constructor; simpl; by rewrite bool_decide_eq_false_2|].
    apply Forall_cons in IH as [Hx Hl]. constructor; [|done]. simpl. by rewrite Hx, bool_decide_eq_false_2.
Qed.
Lemma split_join l : l <> [] -> Forall (fun x => has_char "/"%char x = false) l -> split_slash (join_slash l) = l.
Proof.
  intros Hne Hl. induction l as [|x [|y l] IH]; [done| |]; apply Forall_cons in Hl as [Hx Hl].
  - by apply split_slash_plain.
  - change (join_slash (x :: y :: l)) with (x +:+ "/" +:+ join_slash (y :: l))%string.
    rewrite split_app_slash, IH, (split_slash_plain x) by done. done.
Qed.

(** [path.Split] separates the last element. *)
Lemma path_Split_elems s es name :
  elems s = es ++ [name] -> (path_Split (Trim s)).2 = name /\ elems (path_Split (Trim s)).1 = es.
Proof.
  rewrite <- elems_Trim. intros E. unfold path_Split. cbn [fst snd].
  assert (Trim s <> ""%string) as Hne by (intros H0; rewrite H0 in E; by destruct es).
  pose proof (last_Trim s Hne) as Hlast. pose proof (split_no_slash (Trim s)) as Hns.
  destruct (exists_last (split_slash_nonempty (Trim s))) as (L & x & EL).
  unfold elems in E. rewrite EL in *. rewrite last_snoc in *. rewrite removelast_last. cbn [default from_option].
  rewrite filter_app, (filter_cons _ x), decide_True in E by congruence. apply app_inj_tail in E as [E ->].
  split; [done|]. destruct L as [|y L]; [done|]. apply Forall_app in Hns as [Hns _].
  unfold elems. change "/"%string with ("/" +:+ "")%string. rewrite split_app_slash, split_join by done.
  rewrite filter_app, E. apply app_nil_r.
Qed.

(** * Resolving paths *)

(** The inode number a path leads to. *)
Definition t_resolve (t : tree) (path : string) : option N := t_walk t 1 (elems path).

Lemma t_walk_app t i l1 l2 : t_walk t i (l1 ++ l2) = t_walk t i l1 ≫= fun j => t_walk t j l2.
Proof.
  revert i. induction l1 as [|x l1 IH]; intros i; [done|]. cbn [t_walk app]. case_bool_decide; [apply IH|].
  destruct (entries t !! (i, x)); [apply IH|done].
Qed.
Lemma t_walk_sub t t' i l j : entries t ⊆ entries t' -> t_walk t i l = Some j -> t_walk t' i l = Some j.
Proof.
  intros Hsub. revert i. induction l as [|x l IH]; intros i; [done|]. cbn [t_walk]. case_bool_decide; [apply IH|].
  destruct (entries t !! (i, x)) as [e|] eqn:E; [|done]. rewrite (lookup_weaken _ _ _ _ E Hsub). apply IH.
Qed.
Lemma t_walk_last t i es name : name <> ""%string ->
  t_walk t i (es ++ [name]) = t_walk t i es ≫= fun j => e_Ino <$> entries t !! (j, name).
Proof.
  intros Hn. rewrite t_walk_app. destruct (t_walk t i es) as [j|]; [|done]. simpl.
  rewrite bool_decide_eq_false_2 by done. by destruct (entries t !! (j, name)).
Qed.
Lemma elems_last_nonempty path es name : elems path = es ++ [name] -> name <> ""%string.
Proof.
  intros E Hn. assert (name ∈ elems path) as Hin by (rewrite E; set_solver).
  unfold elems in Hin. apply list_elem_of_filter in Hin as [? _]. done.
Qed.

Section client.
Context {S : Type} `{MetaSpec S}.
Context (mountUID mountGID Umask : N) (DirCacheTime : Z).
Context (range : gmap string loc -> list (string * loc)).
Implicit Types v : VFS S.

Lemma Stat_walk path v now :
  Stat DirCacheTime path now v = walk DirCacheTime (vroot v) (split_slash (Trim path)) now v.
Proof. done. Qed.

Lemma walk_filter l es v now :
  walk DirCacheTime l (filter (fun x => x <> ""%string) es) now v = walk DirCacheTime l es now v.
Proof.
  revert l v. induction es as [|x es IH]; intros l v; [done|]. rewrite filter_cons. cbn [walk].
  case_bool_decide as Hx.
  - rewrite decide_False by auto. apply IH.
  - rewrite decide_True by done. cbn [walk]. rewrite bool_decide_eq_false_2 by done.
    unfold bind at 1 3. destruct (load l v) as [[n|e|] v1]; try done. destruct n; [|done].
    unfold bind. by destruct (Dir_Stat DirCacheTime l x now v1) as [[c|e|] v2].
Qed.
Lemma Stat_elems path v now :
  Stat DirCacheTime path now v = walk DirCacheTime (vroot v) (elems path) now v.
Proof. by rewrite Stat_walk, <- (elems_Trim path), <- walk_filter. Qed.

Lemma root_reach v t : vfs_ok v t -> exists its read,
  reach (skels v) (vroot v) 0 (vroot v) /\ skels v !! vroot v = Some (SDir 1 None "." its read).
Proof. intros [_ Hco]. destruct (co_root _ _ _ Hco) as (its & read & Hl). exists its, read. split; [constructor|done]. Qed.

(** C9 [VFS.Stat] finds a node exactly when the path leads to an inode of the
    service's tree, and then that inode's node; otherwise it reports ENOENT.  The
    service's tree does not change and the cache still agrees with it. *)
Theorem Stat_resolves path v t now :
  vfs_ok v t ->
  exists v', vfs_ok v' t /\
    match t_resolve t path with
    | Some i => exists c n, Stat DirCacheTime path now v = (Ok c, v') /\
        heap v' !! c = Some n /\ node_Inode n = i
    | None => Stat DirCacheTime path now v = (Err V_ENOENT, v')
    end.
Proof.
  intros Hv. destruct (Stat_run DirCacheTime path v t now Hv) as (v' & Hv' & _ & _ & Hres).
  exists v'. split; [done|]. unfold t_resolve. rewrite <- elems_Trim. unfold elems. rewrite t_walk_filter.
  destruct (t_walk t 1 (split_slash (Trim path))) as [i|]; [|done].
  destruct Hres as (c & m & s & E & _ & Hc & Hs). destruct (skels_some _ _ _ Hc) as (n & Hn & <-).
  exists c, n. by rewrite <- skel_ino_of.
Qed.

Lemma walk_app l es1 es2 v now :
  walk DirCacheTime l (es1 ++ es2) now v =
  (c <- walk DirCacheTime l es1 now ;; walk DirCacheTime c es2 now) v.
Proof.
  revert l v. induction es1 as [|x es IH]; intros l v; [done|]. cbn [walk app].
  case_bool_decide; [apply IH|]. unfold bind.
  destruct (load l v) as [[n|e|] v1]; try done. destruct n; [|done].
  by destruct (Dir_Stat DirCacheTime l x now v1) as [[c|e|] v2].
Qed.

(** The directory a path leads to. *)
Lemma walk_dir v t es i (a : Attr) now :
  vfs_ok v t -> t_walk t 1 es = Some i -> attrs t !! i = Some a -> IsDir a = true ->
  exists l v' n p path its read, walk DirCacheTime (vroot v) es now v = (Ok l, v') /\ vfs_ok v' t /\
    vroot v' = vroot v /\ reach (skels v') (vroot v') n l /\ skels v' !! l = Some (SDir i p path its read).
Proof.
  intros Hv Hw Ha Hd. destruct (root_reach v t Hv) as (its & read & Hr & Hl).
  destruct (walk_run DirCacheTime es v t 0 _ _ now Hv Hr Hl) as (v' & Hv' & Eroot & _ & Hres).
  cbn [skel_ino] in Hres. rewrite Hw in Hres. destruct Hres as (c & m & s & E & Hrc & Hc & Hs).
  destruct s as [i' p path its' read'|i' nm d isdir]; cbn in Hs; subst i'; [by eauto 15|]. exfalso.
  destruct m as [|m].
  { apply reach_0 in Hrc as ->. destruct (root_reach v' t Hv') as (?&?&_&?). congruence. }
  apply (reach_parent _ _ _ (proj2 Hv')) in Hrc as (?&?&?&?&?&?&?& e &_&_&_& He & Hok).
  unfold child_ok in Hok. rewrite Hc in Hok. destruct Hok as (-> & _ & _ & _ & Hed).
  destruct (tree_entry_attr t _ _ _ (co_tree _ _ _ (proj2 Hv')) He) as (a' & Ha' & Hd' & _). congruence.
Qed.

Lemma StatParent_dir v t path es name i (a : Attr) now :
  vfs_ok v t -> elems path = es ++ [name] -> t_walk t 1 es = Some i -> attrs t !! i = Some a -> IsDir a = true ->
  exists l v' n p pth its read, StatParent DirCacheTime path now v = (Ok (l, name), v') /\ vfs_ok v' t /\
    vroot v' = vroot v /\ reach (skels v') (vroot v') n l /\ skels v' !! l = Some (SDir i p pth its read).
Proof.
  intros Hv E Hw Ha Hd. destruct (walk_dir v t es i a now Hv Hw Ha Hd) as (l & v' & n & p & pth & its & read & Ew & Hv' & Eroot & Hr & Hl).
  exists l, v', n, p, pth, its, read. split; [|done]. unfold StatParent.
  destruct (path_Split_elems path es name E) as [El Ee]. destruct (path_Split (Trim path)) as [par lf]. simpl in El, Ee. subst lf es.
  rewrite <- Stat_elems in Ew. rewrite (bind_ok _ _ _ _ _ Ew).
  pose proof Hl as (d & Hd' & _)%skels_dir. rewrite (bind_ok _ _ _ _ _ (load_node_run _ _ _ Hd')). cbn [node_IsFile].
  by rewrite (bind_ok _ _ _ _ _ (load_dir_run _ _ _ Hd')).
Qed.

(** [VFS.Mkdir] below an existing directory answers as the service's tree says
    (EEXIST may come from the cache); on success the path leads to the new inode
    in the tree, and [VFS.Stat] then finds a directory node with that number. *)
Theorem Mkdir_then_Stat ctx path perm owner es name i (a : Attr) v t now now' now2 :
  vfs_ok v t -> elems path = es ++ [name] -> plain_name name ->
  t_walk t 1 es = Some i -> attrs t !! i = Some a -> IsDir a = true -> room t i ->
  (forall s : S, extractCaller mountUID mountGID ctx s = (Ok owner, s)) ->
  match t_create i name (new_req owner (N.lor ModeDir perm) "" 0 now) now' t with
  | (Ok r, t') => exists v' v2 c d,
      vfs_Mkdir mountUID mountGID DirCacheTime ctx path perm now now' v = (Ok tt, v') /\ vfs_ok v' t' /\
      Stat DirCacheTime path now2 v' = (Ok c, v2) /\ vfs_ok v2 t' /\
      heap v2 !! c = Some (NDir d) /\ d_inode d = Inode r
  | (Err e, t') => t' = t /\ exists v' e',
      vfs_Mkdir mountUID mountGID DirCacheTime ctx path perm now now' v = (Err e', v') /\ vfs_ok v' t /\
      (e' = Remote e \/ (e' = V_EEXIST /\ is_Some (entries t !! (i, name))))
  | (Panic, _) => False
  end.
Proof.
  intros Hv E Hname Hw Ha Hd Hroom Hcaller.
  destruct (StatParent_dir v t path es name i a now Hv E Hw Ha Hd)
    as (l & v1 & n & p & pth & its & read & E1 & Hv1 & Eroot & Hr & Hl).
  unfold vfs_Mkdir. rewrite (bind_ok _ _ _ _ _ E1). cbn [fst snd].
  set (res := t_create _ _ _ _ _). pose proof (t_create_cases i name (new_req owner (N.lor ModeDir perm) "" 0 now) now' t
    (co_tree _ _ _ (proj2 Hv1)) Hroom) as Hcases. fold res in Hcases.
  destruct (nodes its !! name) as [c|] eqn:Ec.
  - destruct (ok_child _ _ _ _ _ _ (co_dirs _ _ _ (proj2 Hv1) _ _ _ _ _ _ _ Hr Hl) _ _ Ec) as (e & He & _).
    destruct Hcases as [[er ->]|(r & t' & -> & _ & Hnone & _)]; [|congruence]. split; [done|].
    exists v1, V_EEXIST. split_and!; [|done|right; eauto]. unfold Dir_Mkdir, unless_cached.
    pose proof Hl as (d & Hdd & _ & _ & _ & Hits & _)%skels_dir. erewrite bind_err; [done|].
    rewrite (bind_ok _ _ _ _ _ (load_dir_run _ _ _ Hdd)). by rewrite Hits, Ec.
  - pose proof (Dir_Mkdir_run mountUID mountGID v1 t n l i p pth its read name Hv1 Hr Hl Hname ctx perm now now' owner
      Hroom Ec (Hcaller _)) as Hans. fold res in Hans. unfold answers in Hans.
    destruct Hcases as [[er Er]|(r & t' & Er & Ht' & Hnone & _ & _ & Hm & Hent)]; rewrite Er in *.
    + destruct Hans as (v2 & E2 & Hv2 & _). split; [done|]. exists v2, (Remote er).
      split_and!; [by erewrite bind_err by done|done|by left].
    + destruct Hans as (c & v2 & m & s & E2 & Hv2 & _).
      assert (t_walk t' 1 (es ++ [name]) = Some (Inode r)) as Hw'.
      { rewrite t_walk_last by by eapply elems_last_nonempty.
        rewrite (t_walk_sub t t' 1 es i); [|rewrite Hent; by apply insert_subseteq|done]. simpl.
        by rewrite Hent, lookup_insert_eq. }
      destruct (tree_entry_attr t' i name (MkEntry i name (Inode r) (Mode r)) Ht') as (a' & Ha' & Hda & _);
        [by rewrite Hent, lookup_insert_eq|]. cbn [e_Ino] in Ha'.
      assert (IsDir a' = true) as Hda'.
      { rewrite Hda. unfold e_IsDir. cbn [e_Mode]. rewrite Hm. apply mkdir_mode. }
      destruct (walk_dir v2 t' _ _ a' now2 Hv2 Hw' Ha' Hda') as (c' & v3 & ?&?&?&?&?& E3 & Hv3 & _ & _ & Hc').
      pose proof Hc' as (d & Hdd & Hdi & _)%skels_dir. exists v2, v3, c', d.
      split_and!; try done; [by rewrite (bind_ok _ _ _ _ _ E2)|]. by rewrite Stat_elems, E.
Qed.

(** The node of an entry, with its directory. *)
Lemma Stat_entry v t path es name i e now :
  vfs_ok v t -> elems path = es ++ [name] -> t_walk t 1 es = Some i -> entries t !! (i, name) = Some e ->
  exists l c v' n p pth its read, Stat DirCacheTime path now v = (Ok c, v') /\ vfs_ok v' t /\ vroot v' = vroot v /\
    skels v' !! l = Some (SDir i p pth its read) /\
    reach (skels v') (vroot v') (Datatypes.S n) c /\ child_ok (skels v') l name e c.
Proof.
  intros Hv E Hw He.
  destruct (inv_entry _ _ _ (proj1 (co_tree _ _ _ (proj2 Hv))) _ _ _ He) as [(k & (a & Ha & Hd & _)%shape_lookup) _].
  destruct (walk_dir v t es i a now Hv Hw Ha Hd) as (l & v1 & n & p & pth & its & read & E1 & Hv1 & Eroot & Hr & Hl).
  destruct (stat_run DirCacheTime v1 t n l i p pth its read name now Hv1 Hr Hl) as (v2 & Hv2 & Eroot2 & Hg & Hst).
  rewrite He in Hst. destruct Hst as (c & E2 & Hrc & Hok).
  destruct (Hg _ _ Hl) as (its2 & read2 & Hl2 & _). exists l, c, v2, n, p, pth, its2, read2.
  split_and!; try done; [|congruence]. rewrite Stat_elems, E, walk_app, (bind_ok _ _ _ _ _ E1). cbn [walk].
  rewrite bool_decide_eq_false_2 by by eapply elems_last_nonempty.
  pose proof Hl as (d & Hdd & _)%skels_dir. rewrite (bind_ok _ _ _ _ _ (load_node_run _ _ _ Hdd)).
  unfold Dir_Stat. by rewrite (bind_ok _ _ _ _ _ E2).
Qed.

Lemma Stat_gone v t path es name i now :
  vfs_ok v t -> elems path = es ++ [name] -> t_walk t 1 es = Some i \/ t_walk t 1 es = None ->
  entries t !! (i, name) = None -> exists v', Stat DirCacheTime path now v = (Err V_ENOENT, v') /\ vfs_ok v' t.
Proof.
  intros Hv E Hw He. destruct (Stat_run DirCacheTime path v t now Hv) as (v' & Hv' & _ & _ & Hres).
  exists v'. split; [|done]. revert Hres. rewrite <- (t_walk_filter t 1 (split_slash (Trim path))).
  fold (elems (Trim path)). rewrite elems_Trim, E, t_walk_last by by eapply elems_last_nonempty.
  destruct Hw as [-> | ->]; simpl; [by rewrite He|done].
Qed.

Lemma t_walk_delete t t' es i k : entries t' = delete k (entries t) -> t_walk t 1 es = Some i ->
  t_walk t' 1 es = Some i \/ t_walk t' 1 es = None.
Proof.
  intros Hent Hw. destruct (t_walk t' 1 es) as [j|] eqn:E; [left|by right].
  apply (t_walk_sub t' t) in E; [congruence|]. rewrite Hent. apply delete_subseteq.
Qed.

Lemma dir_nil_iff i t : dir i t = [] <-> forall m, entries t !! (i, m) = None.
Proof.
  split.
  - intros E m. destruct (entries t !! (i, m)) as [e|] eqn:Ee; [|done].
    assert ((i, m, e) ∈ dir i t) as Hin by by apply elem_of_dir. rewrite E in Hin. by apply elem_of_nil in Hin.
  - intros Hnone. destruct (dir i t) as [|[[q m] x] l] eqn:E; [done|].
    assert ((q, m, x) ∈ dir i t) as [Hq Hx]%elem_of_dir by (rewrite E; left).
    simpl in *. subst q. by rewrite Hnone in Hx.
Qed.

(** C26 [VFS.Remove] of an existing name: a directory with entries is refused with
    ENOTEMPTY; otherwise the service's tree loses the entry as its own operation
    says, and the path is then unknown to [VFS.Stat]. *)
Theorem Remove_then_Stat path es name i e v t now now' now2 :
  vfs_ok v t -> elems path = es ++ [name] -> t_walk t 1 es = Some i -> entries t !! (i, name) = Some e ->
  match dir (e_Ino e) t with
  | [] => exists t' v' v2,
      (if e_IsDir e then t_rmdir i name now' t else t_unlink i name now' now' t) = (Ok tt, t') /\
      vfs_Remove DirCacheTime path now now' v = (Ok tt, v') /\ vfs_ok v' t' /\
      Stat DirCacheTime path now2 v' = (Err V_ENOENT, v2) /\ vfs_ok v2 t'
  | _ :: _ => exists v', vfs_Remove DirCacheTime path now now' v = (Err V_ENOTEMPTY, v') /\ vfs_ok v' t
  end.
Proof.
  intros Hv E Hw He.
  destruct (Stat_entry v t path es name i e now Hv E Hw He) as (l & c & v1 & n & p & pth & its & read & E1 & Hv1 & _ & Hl & Hrc & Hok).
  unfold vfs_Remove. rewrite (bind_ok _ _ _ _ _ E1). unfold node_Remove, child_ok in *.
  destruct (skels v1 !! c) as [[i2 p2 nm its2 rd2|i2 nm l2 isdir]|] eqn:Hc; [..|done].
  - destruct Hok as (-> & -> & -> & Hd). pose proof Hc as (d & Hdd & _)%skels_dir.
    rewrite (bind_ok _ _ _ _ _ (load_node_run _ _ _ Hdd)).
    destruct (Dir_Remove_run DirCacheTime v1 t n c _ _ _ _ _ now now' Hv1 Hrc Hc)
      as [([m [x Hm]] & v2 & E2 & Hv2 & _)|(Hempty & j & e' & t' & v2 & He' & Hi & Et & E2 & Hv2 & _)].
    + destruct (dir (e_Ino e) t) eqn:Edir; [|by exists v2]. apply dir_nil_iff with (m := m) in Edir. congruence.
    + rewrite (proj2 (dir_nil_iff _ _) Hempty), Hd.
      assert ((i, name) = (j, name)) as [= <-] by (by eapply (refs_one _ _ _ (proj2 Hv1))).
      destruct (t_rmdir_empty t i name e (co_tree _ _ _ (proj2 Hv1)) He Hd Hempty now') as (t2 & Et2 & _ & Hent & _).
      assert (t2 = t') as -> by congruence.
      destruct (Stat_gone v2 t' path es name i now2 Hv2 E) as (v3 & E3 & Hv3);
        [by eapply t_walk_delete|by rewrite Hent, lookup_delete_eq|].
      exists t', v2, v3. by split_and!.
  - destruct Hok as (-> & -> & -> & -> & Hd). pose proof Hc as (d & Hdd & _)%skels_file.
    rewrite (bind_ok _ _ _ _ _ (load_node_run _ _ _ Hdd)).
    destruct (File_Remove_run v1 t _ c _ _ _ _ now' Hv1 Hrc Hc)
      as (j & p' & pth' & its' & rd' & e' & t' & v2 & Hl' & _ & _ & _ & Et & E2 & Hv2 & _).
    rewrite Hl in Hl'. injection Hl' as <- <- <- <- <-.
    rewrite (proj2 (dir_nil_iff _ _)) by (intros m; by eapply file_no_entries). rewrite Hd.
    destruct (t_unlink_file i name now' t e (co_tree _ _ _ (proj2 Hv1)) He Hd) as (t2 & Et2 & _ & Hent & _).
    assert (t2 = t') as -> by congruence.
    destruct (Stat_gone v2 t' path es name i now2 Hv2 E) as (v3 & E3 & Hv3);
      [by eapply t_walk_delete|by rewrite Hent, lookup_delete_eq|].
    exists t', v2, v3. by split_and!.
Qed.

(** * Every state of a client *)

Lemma New_run (s : S) t :
  holds s t -> tree_inv t -> (forall p n e, entries t !! (p, n) = Some e -> plain_name n) ->
  exists v, New s = (Ok tt, v) /\ vfs_ok v t.
Proof.
  intros Hs Ht Hnames. destruct (inv_root _ _ _ (proj1 Ht)) as (k & (a & Ha & _)%shape_lookup).
  destruct (fs_Get_run 1 s t a Hs Ha) as (s' & E & Hs'). unfold New. rewrite E.
  set (nd := NDir (mkDir (Inode a) None "." newItems None (ToDirtyAttr (with_fe_Name "." (wrap a))))).
  set (v0 := mkVFS [nd] ∅ 0 0 s'). destruct (addNode_run 0 nd v0 t) as (v & E1 & Esk & Eroot & Hsv); [done..|].
  exists v. split; [exact E1|]. split; [done|]. rewrite Esk, Eroot.
  assert (skels v0 = [SDir 1 None "." newItems false]) as -> by (unfold skels; simpl; by rewrite (proj2 Ht _ _ Ha)).
  split; [by eexists _, _| |done..].
  intros n l i p path its read Hr Hl. destruct l as [|l]; [|done]. simpl in Hl. simplify_eq. apply new_dir_ok.
Qed.

(** [l] is reached from the root. *)
Definition reached v (l : loc) : Prop := exists n, reach (skels v) (vroot v) n l.

(** The states of a client, and the tree of its service, after some operations on
    a tree in which no name is a dot.  An operation may fail; the side conditions
    are that the counters stay within their widths, that names are plain and that
    no directory is made by [Create]. *)
Inductive client : VFS S -> tree -> Prop :=
| client_new (s : S) t : holds s t -> tree_inv t ->
    (forall p n e, entries t !! (p, n) = Some e -> plain_name n) -> client (New s).2 t
| client_stat v t path now : client v t -> client (Stat DirCacheTime path now v).2 t
| client_readdir v t l d now : client v t -> reached v l -> heap v !! l = Some (NDir d) ->
    client (_readDir DirCacheTime l now v).2 t
| client_create v t l d ctx name mode rdev owner now now' :
    client v t -> reached v l -> heap v !! l = Some (NDir d) -> plain_name name -> room t (d_inode d) ->
    FileMode_IsDir (ToFileMode mode) = false ->
    extractCaller mountUID mountGID ctx (server v) = (Ok owner, server v) ->
    client (Dir_Create mountUID mountGID ctx l name mode rdev now now' v).2
      (t_create (d_inode d) name (new_req owner (ToFileMode mode) "" rdev now) now' t).2
| client_symlink v t l d ctx target name owner now now' :
    client v t -> reached v l -> heap v !! l = Some (NDir d) -> plain_name name -> room t (d_inode d) ->
    extractCaller mountUID mountGID ctx (server v) = (Ok owner, server v) ->
    client (Dir_Symlink mountUID mountGID Umask ctx l target name now now' v).2
      (t_create (d_inode d) name (new_req owner (N.lor ModeSymlink (and_not32 511 Umask)) target 0 now) now' t).2
| client_mkdir v t l d ctx name mode owner now now' :
    client v t -> reached v l -> heap v !! l = Some (NDir d) -> plain_name name -> room t (d_inode d) ->
    extractCaller mountUID mountGID ctx (server v) = (Ok owner, server v) ->
    client (Dir_Mkdir mountUID mountGID ctx l name mode now now' v).2
      (t_create (d_inode d) name (new_req owner (N.lor ModeDir mode) "" 0 now) now' t).2
| client_link v t l d c f name now :
    client v t -> reached v l -> heap v !! l = Some (NDir d) -> reached v c -> heap v !! c = Some (NFile f) ->
    plain_name name -> room t (f_inode f) ->
    client (Dir_Link l c name now v).2 (t_link (f_inode f) (d_inode d) name now t).2
| client_unlink v t c f pd now' :
    client v t -> reached v c -> heap v !! c = Some (NFile f) -> heap v !! f_d f = Some (NDir pd) ->
    client (File_Remove c now' v).2 (t_unlink (d_inode pd) (leaf f) now' now' t).2
| client_rmdir v t c d l pd now now' :
    client v t -> reached v c -> heap v !! c = Some (NDir d) -> d_Parent d = Some l ->
    heap v !! l = Some (NDir pd) ->
    client (Dir_Remove DirCacheTime c now now' v).2
      (if decide (dir (d_inode d) t = []) then (t_rmdir (d_inode pd) (d_path d) now' t).2 else t).


(** The operations that make a node, when the name is cached and when it is not. *)
Lemma creating_ok v t n l d name (k : Dir -> M (VFS S) verror loc) res :
  vfs_ok v t -> reach (skels v) (vroot v) n l -> heap v !! l = Some (NDir d) ->
  (exists e, res = (Err e, t)) \/ entries t !! (d_inode d, name) = None ->
  (nodes (d_items d) !! name = None -> answers v l name (unless_cached l name k) res) ->
  vfs_ok (unless_cached l name k v).2 res.2.
Proof.
  intros Hv Hr Hd Hres Hans. pose proof (skels_lookup _ _ _ Hd) as Hl. cbn in Hl.
  destruct (nodes (d_items d) !! name) as [c|] eqn:Ec.
  - destruct (ok_child _ _ _ _ _ _ (co_dirs _ _ _ (proj2 Hv) _ _ _ _ _ _ _ Hr Hl) _ _ Ec) as (e & He & _).
    destruct Hres as [[er ->]|Hnone]; [|congruence]. unfold unless_cached.
    rewrite (bind_ok _ _ _ _ _ (load_dir_run _ _ _ Hd)), Ec. done.
  - specialize (Hans eq_refl). unfold answers in Hans. destruct res as [[a|e|] t']; [| |done].
    + destruct Hans as (c & v' & m & s & -> & Hv' & _). done.
    + destruct Hans as (v' & -> & Hv' & _). done.
Qed.

Lemma Dir_Mkdir_ok v t n l d ctx name mode owner now now' :
  vfs_ok v t -> reach (skels v) (vroot v) n l -> heap v !! l = Some (NDir d) -> plain_name name ->
  room t (d_inode d) -> extractCaller mountUID mountGID ctx (server v) = (Ok owner, server v) ->
  vfs_ok (Dir_Mkdir mountUID mountGID ctx l name mode now now' v).2
    (t_create (d_inode d) name (new_req owner (N.lor ModeDir mode) "" 0 now) now' t).2.
Proof.
  intros Hv Hr Hd Hname Hroom Hcall. pose proof (skels_lookup _ _ _ Hd) as Hl. cbn in Hl.
  eapply creating_ok; [done..| |intros; by eapply Dir_Mkdir_run].
  destruct (t_create_cases (d_inode d) name (new_req owner (N.lor ModeDir mode) "" 0 now) now' t
    (co_tree _ _ _ (proj2 Hv)) Hroom) as [?|(?&?&?&?&?&_)]; auto.
Qed.

(** C4 In every state a client reaches by looking up, listing, creating, linking
    and removing, the cache agrees with the service's tree, which is the one the
    specification of the service gives: each reached node stands for its entry,
    and a directory that has been read misses none. *)
Theorem client_coherent v t : client v t -> vfs_ok v t.
Proof.
  induction 1 as [s t Hs Ht Hn|v t path now _ Hv|v t l d now _ Hv [n Hr] Hd
    |v t l d ctx name mode rdev owner now now' _ Hv [n Hr] Hd Hname Hroom Hmode Hcall
    |v t l d ctx target name owner now now' _ Hv [n Hr] Hd Hname Hroom Hcall
    |v t l d ctx name mode owner now now' _ Hv [n Hr] Hd Hname Hroom Hcall
    |v t l d c f name now _ Hv [n Hr] Hd [m Hrc] Hf Hname Hroom
    |v t c f pd now' _ Hv [n Hr] Hf Hpd|v t c d l pd now now' _ Hv [n Hr] Hd Hpar Hpd];
    try (pose proof (skels_lookup _ _ _ Hd) as Hl; cbn in Hl).
  - destruct (New_run s t Hs Ht Hn) as (v & -> & Hv). done.
  - destruct (Stat_run DirCacheTime path v t now Hv) as (v' & Hv' & _ & _ & Hres).
    destruct (t_walk t 1 _); [destruct Hres as (?&?&?& -> & _)|rewrite Hres]; done.
  - destruct (_readDir_run DirCacheTime v t n l _ _ _ _ _ now Hv Hr Hl) as (v' & its & -> & Hv' & _). done.
  - eapply creating_ok; [done..| |intros; by eapply Dir_Create_run].
    destruct (t_create_cases (d_inode d) name (new_req owner (ToFileMode mode) "" rdev now) now' t
      (co_tree _ _ _ (proj2 Hv)) Hroom) as [?|(?&?&?&?&?&_)]; auto.
  - eapply creating_ok; [done..| |intros; by eapply Dir_Symlink_run].
    destruct (t_create_cases (d_inode d) name
      (new_req owner (N.lor ModeSymlink (and_not32 511 Umask)) target 0 now) now' t
      (co_tree _ _ _ (proj2 Hv)) Hroom) as [?|(?&?&?&?&?&_)]; auto.
  - by eapply Dir_Mkdir_ok.
  - pose proof (skels_lookup _ _ _ Hf) as Hlf. cbn in Hlf.
    eapply creating_ok; [done..| |intros; by eapply Dir_Link_run].
    destruct (t_link_cases (f_inode f) (d_inode d) name now t
      (co_tree _ _ _ (proj2 Hv)) Hroom) as [?|(?&?&?&?&?&_)]; auto.
  - pose proof (skels_lookup _ _ _ Hf) as Hlf. cbn in Hlf. pose proof (skels_lookup _ _ _ Hpd) as Hlp. cbn in Hlp.
    destruct (File_Remove_run v t n c _ _ _ _ now' Hv Hr Hlf) as (j &?&?&?&?& e & t' & v' & Hj & _ & _ & _ & Et & -> & Hv' & _).
    pose proof (eq_trans (eq_sym Hlp) Hj) as [= <- _ _ _ _]. by rewrite Et.
  - pose proof (skels_lookup _ _ _ Hpd) as Hlp. cbn in Hlp. destruct n as [|n].
    { apply reach_0 in Hr as ->. destruct (root_reach v t Hv) as (?&?&_&Hl0).
      pose proof (eq_trans (eq_sym Hl0) Hl) as [=]. congruence. }
    pose proof Hr as (l' & j &?&?&?&?& nm & e & _ & Hl' & _ & He & Hok)%(reach_parent _ _ _ (proj2 Hv)).
    unfold child_ok in Hok. rewrite Hl, Hpar in Hok. destruct Hok as (Hi & [= <-] & Hpath & Hdir).
    pose proof (eq_trans (eq_sym Hlp) Hl') as [= <- _ _ _ _]. subst nm.
    destruct (Dir_Remove_run DirCacheTime v t n c _ _ _ _ _ now now' Hv Hr Hl)
      as [([m [y Hm]] & v2 & -> & Hv2 & _)|(Hempty & j & e' & t' & v2 & He' & Hi' & Et & -> & Hv2 & _)].
    + rewrite decide_False; [done|]. intros E. apply dir_nil_iff with (m := m) in E. congruence.
    + rewrite decide_True by by apply dir_nil_iff.
      assert ((d_inode pd, d_path d) = (j, d_path d)) as [= ->].
      { eapply (refs_one _ _ _ (proj2 Hv)); [done..|congruence|done]. }
      by rewrite Et.
Qed.

(** * Listings *)

Lemma insert_node_perm x l : insert_node x l ≡ₚ x :: l.
Proof.
  induction l as [|m r IH]; [done|]. simpl. destruct (m.1 <? x.1)%N; [|done]. rewrite IH. constructor.
Qed.
Lemma sort_nodes_perm l : foldr insert_node [] l ≡ₚ l.
Proof. induction l as [|x l IH]; [done|]. simpl. by rewrite insert_node_perm, IH. Qed.

Definition by_inode (x y : N * loc) : Prop := (x.1 <= y.1)%N.
Lemma insert_node_sorted x l : StronglySorted by_inode l -> StronglySorted by_inode (insert_node x l).
Proof.
  induction 1 as [|m r Hr IH Hm]; [by repeat constructor|]. simpl. destruct (N.ltb_spec m.1 x.1) as [Hlt|Hge].
  - constructor; [done|]. rewrite insert_node_perm. constructor; [unfold by_inode; lia|done].
  - constructor; [by constructor|]. constructor; [done|]. eapply Forall_impl; [done|].
    unfold by_inode. intros y Hy. lia.
Qed.
Lemma sort_nodes_sorted l : StronglySorted by_inode (foldr insert_node [] l).
Proof. induction l as [|x l IH]; [constructor|]. by apply insert_node_sorted. Qed.

Lemma inodes_of_run (l : list loc) v :
  (forall c, c ∈ l -> exists n, heap v !! c = Some n) ->
  exists x, inodes_of l v = (Ok x, v) /\ x.*2 = l /\
    forall i c, (i, c) ∈ x -> exists n, heap v !! c = Some n /\ node_Inode n = i.
Proof.
  induction l as [|c l IH]; intros Hl; [exists []; split_and!; [done..|by intros ?? ?%elem_of_nil]|].
  destruct (Hl c) as [n Hn]; [left|]. destruct IH as (x & E & Ex & Hx); [intros; apply Hl; by right|].
  exists ((node_Inode n, c) :: x). cbn [inodes_of]. rewrite (bind_ok _ _ _ _ _ (load_node_run _ _ _ Hn)), (bind_ok _ _ _ _ _ E).
  split_and!; [done|by rewrite fmap_cons, Ex|]. intros i c' [[= -> ->]|Hin]%elem_of_cons; eauto.
Qed.

(** The name and number of a node. *)
Definition shown (n : vnode) : string * N := (node_Name n, node_Inode n).


(** What a listing shows of the node at [c]. *)
Definition shown_at v (c : loc) : string * N :=
  match heap v !! c with Some n => shown n | None => (""%string, 0%N) end.

Lemma shown_child v t l i p path its read n name c :
  vfs_ok v t -> reach (skels v) (vroot v) n l -> skels v !! l = Some (SDir i p path its read) ->
  nodes its !! name = Some c ->
  exists e, entries t !! (i, name) = Some e /\ shown_at v c = (name, e_Ino e) /\ is_Some (heap v !! c).
Proof.
  intros Hv Hr Hl Hn. destruct (ok_child _ _ _ _ _ _ (co_dirs _ _ _ (proj2 Hv) _ _ _ _ _ _ _ Hr Hl) _ _ Hn) as (e & He & Hok).
  pose proof (co_names _ _ _ (proj2 Hv) _ _ _ He) as Hname. exists e. split; [done|].
  unfold child_ok in Hok. destruct (skels v !! c) as [[i2 p2 nm its2 rd2|i2 nm l2 isdir]|] eqn:Hc; [..|done].
  - pose proof Hc as (d & Hd & Hi & _ & Hp & _)%skels_dir. destruct Hok as (-> & _ & -> & _).
    unfold shown_at. rewrite Hd. unfold shown. cbn. rewrite Dir_Name_plain by by rewrite Hp. rewrite Hp, Hi. eauto.
  - pose proof Hc as (f & Hf & Hi & Hlf & _)%skels_file. destruct Hok as (-> & -> & _).
    unfold shown_at. rewrite Hf. unfold shown. cbn. rewrite Hi, Hlf. eauto.
Qed.

(** The cached children of a directory that has been read. *)
Lemma shown_nodes v t l i p path its n :
  vfs_ok v t -> reach (skels v) (vroot v) n l -> skels v !! l = Some (SDir i p path its true) ->
  shown_at v <$> (map_to_list (nodes its)).*2 ≡ₚ (fun x : N * string * Entry => (x.1.2, e_Ino x.2)) <$> dir i t.
Proof.
  intros Hv Hr Hl. rewrite <- list_fmap_compose. apply NoDup_Permutation.
  - apply NoDup_fmap_2_strong; [|apply NoDup_map_to_list].
    intros [m1 c1] [m2 c2] H1%elem_of_map_to_list H2%elem_of_map_to_list Heq. simpl in *.
    destruct (shown_child _ _ _ _ _ _ _ _ _ _ _ Hv Hr Hl H1) as (e1 & _ & E1 & _).
    destruct (shown_child _ _ _ _ _ _ _ _ _ _ _ Hv Hr Hl H2) as (e2 & _ & E2 & _).
    rewrite E1, E2 in Heq. simplify_eq. done.
  - apply NoDup_fmap_2_strong; [|apply NoDup_filter, NoDup_map_to_list].
    intros [[q1 m1] e1] [[q2 m2] e2] [Hq1 H1]%elem_of_dir [Hq2 H2]%elem_of_dir Heq. simpl in *. simplify_eq. done.
  - intros x. rewrite !list_elem_of_fmap. split.
    + intros ([name c] & -> & Hn%elem_of_map_to_list). simpl.
      destruct (shown_child _ _ _ _ _ _ _ _ _ _ _ Hv Hr Hl Hn) as (e & He & -> & _).
      exists (i, name, e). split; [done|]. by apply elem_of_dir.
    + intros ([[q name] e] & -> & [Hq He]%elem_of_dir). simpl in *. subst q.
      destruct (ok_complete _ _ _ _ _ _ (co_dirs _ _ _ (proj2 Hv) _ _ _ _ _ _ _ Hr Hl) eq_refl _ _ He) as [c Hc].
      exists (name, c). split; [|by apply elem_of_map_to_list]. simpl.
      destruct (shown_child _ _ _ _ _ _ _ _ _ _ _ Hv Hr Hl Hc) as (e' & He' & -> & _). congruence.
Qed.

(** [ReadDirAll] returns one node per entry of the directory, with the entry's
    name and inode number, in the order of the inode numbers, whatever order Go
    walks the map in. *)
Theorem ReadDirAll_exact v t l d now :
  (forall m, range m ≡ₚ map_to_list m) ->
  vfs_ok v t -> reached v l -> heap v !! l = Some (NDir d) ->
  exists v' ls, ReadDirAll DirCacheTime range l now v = (Ok ls, v') /\ vfs_ok v' t /\
    Forall (fun c => is_Some (heap v' !! c)) ls /\
    shown_at v' <$> ls ≡ₚ (fun x : N * string * Entry => (x.1.2, e_Ino x.2)) <$> dir (d_inode d) t /\
    StronglySorted (fun a b => ((shown_at v' a).2 <= (shown_at v' b).2)%N) ls.
Proof.
  intros Hrange Hv [n Hr] Hd. pose proof (skels_lookup _ _ _ Hd) as Hl. cbn in Hl.
  destruct (_readDir_run DirCacheTime v t n l _ _ _ _ _ now Hv Hr Hl) as (v' & its & E & Hv' & Eroot & Hg & Hl').
  assert (reach (skels v') (vroot v') n l) as Hr' by (rewrite Eroot; by eapply reach_grows).
  pose proof Hl' as (d' & Hd' & _ & _ & _ & Hits & _)%skels_dir.
  assert (Hsome : forall c, c ∈ (range (nodes its)).*2 -> exists x, heap v' !! c = Some x).
  { intros c ([m c'] & -> & Hc)%list_elem_of_fmap. rewrite Hrange in Hc. apply elem_of_map_to_list in Hc.
    destruct (shown_child _ _ _ _ _ _ _ _ _ _ _ Hv' Hr' Hl' Hc) as (e & _ & _ & Hs). exact Hs. }
  destruct (inodes_of_run _ v' Hsome) as (x & Ex & Hx & Hino).
  pose proof (sort_nodes_perm x) as Hp. pose proof (sort_nodes_sorted x) as Hs.
  set (y := foldr insert_node [] x) in *. exists v', y.*2. split_and!; [|done|..].
  - unfold ReadDirAll, SortItems. rewrite (bind_ok _ _ _ _ _ E), (bind_ok _ _ _ _ _ (load_dir_run _ _ _ Hd')), Hits.
    by rewrite (bind_ok _ _ _ _ _ Ex).
  - apply Forall_forall. intros c Hc. rewrite Hp, Hx in Hc. by apply Hsome.
  - rewrite Hp, Hx, (Hrange (nodes its)). by eapply shown_nodes.
  - assert (Forall (fun z : N * loc => (shown_at v' z.2).2 = z.1) y) as Hy.
    { rewrite Hp. apply Forall_forall. intros [i c] (nd & Hn & <-)%Hino. unfold shown_at. simpl. by rewrite Hn. }
    clear -Hs Hy. induction Hs as [|z y Hs IH Hz]; [constructor|].
    apply Forall_cons in Hy as [Ez Hy]. simpl. constructor; [by apply IH|].
    rewrite Forall_fmap. apply Forall_forall. intros w Hw. simpl. rewrite Ez.
    rewrite Forall_forall in Hy, Hz. rewrite (Hy _ Hw). by apply Hz.
Qed.

(** * Renaming *)

Lemma releaseHandle_server l id v : server (releaseHandle l id v).2 = server v.
Proof.
  unfold releaseHandle, on_file, load_file, load, bind, gets, deref.
  destruct (heap v !! l) as [[d|f]|]; done.
Qed.

(** Without a lock in the way the path is read. *)
Lemma path_locks_chain fuel v t n l i p path its read held :
  coherent (skels v) (vroot v) t -> reach (skels v) (vroot v) n l ->
  skels v !! l = Some (SDir i p path its read) -> n < fuel ->
  (forall m x, x ∈ held -> reach (skels v) (vroot v) m x -> n <= m) ->
  path_locks fuel held l v = (Ok tt, v).
Proof.
  intros Hco. revert l i p path its read fuel.
  induction n as [|n IH]; intros l i p path its read [|fuel] Hr Hl Hf Hheld; try lia.
  - apply reach_0 in Hr as ->. destruct (co_root _ _ _ Hco) as (its' & rd' & E).
    apply skels_dir in E as (d & Hd & _ & Hp & _). cbn [path_locks]. erewrite bind_ok by by apply load_dir_run.
    by rewrite Hp.
  - pose proof Hr as (l' &?&?&?&?&?& name & e & Hl' & Hd' & _ & _ & Hok)%(reach_parent _ _ _ Hco).
    unfold child_ok in Hok. rewrite Hl in Hok. destruct Hok as (_ & -> & _).
    apply skels_dir in Hl as (d & Hd & _ & Hp & _). cbn [path_locks]. erewrite bind_ok by by apply load_dir_run.
    rewrite Hp, bool_decide_eq_false_2.
    + eapply IH; [done..|lia|]. intros m y Hy Hm. specialize (Hheld m y Hy Hm). lia.
    + intros Hin. specialize (Hheld n l' Hin Hl'). lia.
Qed.

Lemma path_locks_run v t n l i p path its read :
  coherent (skels v) (vroot v) t -> reach (skels v) (vroot v) n l ->
  skels v !! l = Some (SDir i p path its read) -> path_locks (1 + length (heap v)) [l] l v = (Ok tt, v).
Proof.
  intros Hco Hr Hl. eapply path_locks_chain; [done..| |].
  - rewrite <- length_skels. pose proof (reach_depth _ _ _ Hco _ _ _ _ _ _ _ Hr Hl). lia.
  - intros m x ->%list_elem_of_singleton Hm.
    destruct (reach_unique _ _ _ Hco _ _ _ _ _ _ _ _ _ _ _ _ _ Hr Hm Hl Hl). lia.
Qed.

(** The node at [c] is there and, if it is a directory, its parent is [l]. *)
Definition child_of v (l c : loc) : Prop :=
  exists n, heap v !! c = Some n /\ match n with NDir d => d_Parent d = Some l | NFile _ => True end.

Lemma child_ok_of v l name e c : child_ok (skels v) l name e c -> child_of v l c.
Proof.
  unfold child_ok. destruct (skels v !! c) as [s|] eqn:E; [|done]. destruct (skels_some _ _ _ E) as (n & Hn & <-).
  intros Hok. exists n. split; [done|]. destruct n; [|done]. by destruct Hok as (_ & ? & _).
Qed.

Lemma ForgetAll_child depth v l c d held :
  heap v !! c = Some (NDir d) -> d_Parent d = Some l -> ForgetAll range depth (l :: held) c v = (Err Diverges, v).
Proof.
  intros Hc Hp. destruct depth as [|depth]; [done|]. cbn [ForgetAll]. case_bool_decide; [done|].
  erewrite bind_ok by reflexivity. apply bind_err. cbn [path_locks Nat.add].
  rewrite (bind_ok _ _ _ _ _ (load_dir_run _ _ _ Hc)), Hp. rewrite bool_decide_eq_true_2; [done|]. set_solver.
Qed.

(** [ForgetAll] holds the lock of its directory while it asks a subdirectory for
    its path, which takes that lock again: moving a directory with a cached
    subdirectory to another one never returns, at any depth of recursion. *)
Theorem moveTo_deadlocks depth v t l d dst name c dc :
  (forall m, range m ≡ₚ map_to_list m) ->
  vfs_ok v t -> reached v l -> heap v !! l = Some (NDir d) ->
  nodes (d_items d) !! name = Some c -> heap v !! c = Some (NDir dc) ->
  exists v', moveTo range depth l dst v = (Err Diverges, v').
Proof.
  intros Hrange Hv [n Hr] Hd Hn Hc. unfold moveTo. enough (ForgetAll range depth [] l v = (Err Diverges, v)) as E.
  { rewrite (bind_err _ _ _ _ _ E). eauto. }
  destruct depth as [|depth]; [done|]. cbn [ForgetAll]. rewrite bool_decide_eq_false_2 by apply not_elem_of_nil.
  pose proof (skels_lookup _ _ _ Hd) as Hl. cbn in Hl.
  erewrite bind_ok by reflexivity. rewrite (bind_ok _ _ _ _ _ (path_locks_run v t n l _ _ _ _ _ (proj2 Hv) Hr Hl)).
  rewrite (bind_ok _ _ _ _ _ (load_dir_run _ _ _ Hd)). apply bind_err.
  assert (c ∈ (range (nodes (d_items d))).*2) as Hin.
  { apply list_elem_of_fmap. exists (name, c). split; [done|]. rewrite Hrange. by apply elem_of_map_to_list. }
  assert (forall x, x ∈ (range (nodes (d_items d))).*2 -> child_of v l x) as Hall.
  { intros x ([m y] & -> & Hy)%list_elem_of_fmap. rewrite Hrange in Hy. apply elem_of_map_to_list in Hy.
    destruct (ok_child _ _ _ _ _ _ (co_dirs _ _ _ (proj2 Hv) _ _ _ _ _ _ _ Hr Hl) _ _ Hy) as (e & _ & Hok).
    by eapply child_ok_of. }
  revert Hin Hall. generalize (range (nodes (d_items d))).*2 as ls. intros ls Hin Hall.
  induction ls as [|x ls IH]; [by apply elem_of_nil in Hin|]. cbn [forget_list].
  destruct (Hall x) as (nx & Hx & Hpx); [left|]. rewrite (bind_ok _ _ _ _ _ (load_node_run _ _ _ Hx)).
  destruct nx as [dx|fx].
  - apply bind_err. by eapply ForgetAll_child.
  - erewrite bind_ok by reflexivity. apply IH; [|intros y Hy; apply Hall; by right].
    apply elem_of_cons in Hin as [->|]; [congruence|done].
Qed.

(** Renaming a file that is open for writing reports success and sends nothing
    to the service, and neither does closing its handles: the new name does not
    come to exist. *)
Theorem File_rename_deferred ctx l destDir newName f dp now now' (ids : list nat) v :
  heap v !! l = Some (NFile f) -> writers f <> [] -> Dir_Path destDir v = (Ok dp, v) ->
  File_Path f <> path_Join dp newName ->
  exists v', File_rename DirCacheTime range ctx l destDir newName now now' v = (Ok tt, v') /\
    server (foldl (fun v id => (releaseHandle l id v).2) v' ids) = server v.
Proof.
  intros Hl Hw Hp Hne. unfold File_rename.
  rewrite (bind_ok _ _ _ _ _ (load_file_run _ _ _ Hl)), (bind_ok _ _ _ _ _ Hp).
  rewrite (bool_decide_eq_false_2 (_ = path_Join _ _)), (bool_decide_eq_false_2 (writers f = [])) by done.
  cbv zeta. rewrite (on_file_run _ _ _ _ Hl). eexists. split; [done|].
  rewrite <- (rev_involutive ids). generalize (rev ids) as r. intros r.
  induction r as [|id r IH]; [done|]. simpl. rewrite foldl_app. simpl. by rewrite releaseHandle_server.
Qed.
End client.

(** * Concrete runs *)

(** The root inode, and a file "a" below it, seen by a client that has just
    started. *)
Definition client0 : VFS svc := (New s0).2.
Definition client1 : VFS svc := (New s1).2.

Lemma s0_holds : holds s0 t0.
Proof. exact s0_serves. Qed.
Lemma s1_holds : holds s1 t1.
Proof. exact s1_serves. Qed.

Lemma client0_ok : vfs_ok client0 t0.
Proof.
  destruct (New_run s0 t0 s0_holds t0_inv) as (v & E & Hv); [|by unfold client0; rewrite E].
  intros p n e. unfold t0. cbn [entries root_tree]. by rewrite lookup_empty.
Qed.
Lemma plain_a : plain_name "a".
Proof. split; [apply name_a|done]. Qed.
Lemma t1_names p n e : entries t1 !! (p, n) = Some e -> plain_name n.
Proof.
  assert (exists x, entries t1 = {[ (1%N, "a"%string) := x ]}) as [x ->] by (eexists; vm_compute; reflexivity).
  intros [[= _ <-] _]%lookup_singleton_Some. apply plain_a.
Qed.
Lemma client1_ok : vfs_ok client1 t1.
Proof.
  destruct (New_run s1 t1 s1_holds t1_inv t1_names) as (v & E & Hv). unfold client1. by rewrite E.
Qed.
Lemma t0_room : room t0 1.
Proof.
  split; [vm_compute; reflexivity|]. unfold t0. cbn [attrs root_tree].
  intros a [_ <-]%lookup_singleton_Some. vm_compute. reflexivity.
Qed.
Lemma caller0 {S} (s : S) : extractCaller 0 0 Background s = (Ok (0%N, 0%N), s).
Proof. done. Qed.

Lemma Stat_resolves_witness :
  exists v' c n, Stat 10 "//a/" now0 client1 = (Ok c, v') /\ heap v' !! c = Some n /\ node_Inode n = 2%N.
Proof.
  destruct (Stat_resolves 10 "//a/" client1 t1 now0 client1_ok) as (v' & _ & Hres).
  assert (t_resolve t1 "//a/" = Some 2%N) as E by (vm_compute; reflexivity). rewrite E in Hres.
  destruct Hres as (c & n & Hc). exists v', c, n. exact Hc.
Defined.

Lemma Mkdir_then_Stat_witness :
  exists v' v2 c d, vfs_Mkdir 0 0 10 Background "/d" 493 now0 now0 client0 = (Ok tt, v') /\
    Stat 10 "/d" now0 v' = (Ok c, v2) /\ heap v2 !! c = Some (NDir d) /\ d_inode d = 2%N.
Proof.
  pose proof (Mkdir_then_Stat 0 0 10 Background "/d" 493 (0%N, 0%N) [] "d" 1 (root_attr 0 0 now0) client0 t0
    now0 now0 now0 client0_ok ltac:(reflexivity)
    ltac:(split; [split; [discriminate|reflexivity]|split; discriminate]) ltac:(reflexivity)
    ltac:(reflexivity) ltac:(vm_compute; reflexivity) t0_room caller0) as Hm.
  destruct (t_create 1 "d" _ now0 t0) as [r t'] eqn:E.
  assert (exists a, r = Ok a /\ Inode a = 2%N) as (a & -> & Ha).
  { apply (f_equal fst) in E. cbn [fst] in E. rewrite <- E. eexists. split; vm_compute; reflexivity. }
  destruct Hm as (v' & v2 & c & d & H1 & _ & H2 & _ & H3 & H4). exists v', v2, c, d.
  rewrite Ha in H4. split; [exact H1|split; [exact H2|split; [exact H3|exact H4]]].
Defined.

Lemma Remove_then_Stat_witness :
  exists v' v2, vfs_Remove 10 "/a" now0 now0 client1 = (Ok tt, v') /\
    Stat 10 "/a" now0 v' = (Err V_ENOENT, v2).
Proof.
  pose proof (Remove_then_Stat 10 "/a" [] "a" 1 (MkEntry 1 "a" 2 420) client1 t1 now0 now0 now0 client1_ok
    ltac:(reflexivity) ltac:(reflexivity) ltac:(vm_compute; reflexivity)) as Hm.
  assert (dir (e_Ino (MkEntry 1 "a" 2 420)) t1 = []) as E by (vm_compute; reflexivity). rewrite E in Hm.
  destruct Hm as (t' & v' & v2 & _ & H1 & _ & H2 & _). exists v', v2. split; [exact H1|exact H2].
Defined.

Lemma client0_root : exists d, heap client0 !! 0%nat = Some (NDir d) /\ d_inode d = 1%N.
Proof. eexists. split; vm_compute; reflexivity. Qed.
Lemma client1_root : exists d, heap client1 !! 0%nat = Some (NDir d) /\ d_inode d = 1%N.
Proof. eexists. split; vm_compute; reflexivity. Qed.
Lemma root_reached v : vroot v = 0%nat -> reached (S := svc) v 0.
Proof. intros E. exists 0%nat. rewrite E. apply reach_root. Qed.

Lemma client_coherent_witness :
  exists v t, client 0 0 0 10 v t /\ vfs_ok v t /\ is_Some (entries t !! (1%N, "a"%string)).
Proof.
  destruct client0_root as (d & Hd & Hi).
  assert (client 0 0 0 10 (Dir_Create 0 0 Background 0 "a" 420 0 now0 now0 client0).2
    (t_create (d_inode d) "a" (new_req (0%N, 0%N) (ToFileMode 420) "" 0 now0) now0 t0).2) as Hc.
  { apply client_create.
    - apply (client_new 0 0 0 10 s0 t0); [exact s0_holds|apply t0_inv|]. intros p n e. unfold t0. cbn [entries root_tree].
      by rewrite lookup_empty.
    - apply root_reached. vm_compute. reflexivity.
    - exact Hd.
    - apply plain_a.
    - rewrite Hi. apply t0_room.
    - reflexivity.
    - apply caller0. }
  eexists _, _. split; [exact Hc|]. split; [exact (client_coherent 0 0 0 10 _ _ Hc)|].
  rewrite Hi. eexists. vm_compute. reflexivity.
Defined.

Lemma fmap_perm_singleton {A B} (f : A -> B) l x : f <$> l ≡ₚ [x] -> exists y, l = [y] /\ f y = x.
Proof. intros H%Permutation_singleton_r. destruct l as [|y [|]]; simplify_eq/=. eauto. Qed.

Lemma ReadDirAll_exact_witness :
  exists v' c, ReadDirAll 10 map_to_list 0 now0 client1 = (Ok [c], v') /\ shown_at v' c = ("a"%string, 2%N).
Proof.
  destruct client1_root as (d & Hd & Hi).
  destruct (ReadDirAll_exact 10 map_to_list client1 t1 0 d now0 ltac:(reflexivity) client1_ok
    (root_reached client1 ltac:(vm_compute; reflexivity)) Hd) as (v' & ls & E & _ & _ & Hp & _).
  rewrite Hi in Hp.
  assert ((fun x : N * string * Entry => (x.1.2, e_Ino x.2)) <$> dir 1 t1 = [("a"%string, 2%N)]) as Ed
    by (vm_compute; reflexivity).
  rewrite Ed in Hp. destruct (fmap_perm_singleton _ _ _ Hp) as (c & -> & Hc). exists v', c.
  split; [exact E|exact Hc].
Defined.

(** ** Renaming *)

Definition user : Context := mkContext (Some [("uid", ["1000"]); ("gid", ["1000"]); ("pid", ["7"])]%string) None.

(** "a" is open for writing, then "b" too, then both are closed. *)
Definition open_a : VFS svc := (OpenFile 0 0 10 "/a" (O_WRONLY + O_CREATE) 420 now0 now0 client0).2.
Definition open_ab : VFS svc := (OpenFile 0 0 10 "/b" (O_WRONLY + O_CREATE) 420 now0 now0 open_a).2.
Definition closed_ab : VFS svc := ((releaseHandle 1 0 ;;; releaseHandle 2 1) open_ab).2.

Lemma File_rename_deferred_witness :
  exists v', File_rename 10 map_to_list Background 1 0 "b" now0 now0 open_a = (Ok tt, v') /\
    server (foldl (fun v id => (releaseHandle 1 id v).2) v' [0%nat]) = server open_a.
Proof.
  assert (exists f, heap open_a !! 1%nat = Some (NFile f) /\ writers f = [0%nat] /\ File_Path f = "a"%string)
    as (f & Hf & Hw & Hp) by (eexists; split_and!; vm_compute; reflexivity).
  assert (Dir_Path 0 open_a = (Ok "."%string, open_a)) as Hd by (vm_compute; reflexivity).
  apply (File_rename_deferred 10 map_to_list Background 1 0 "b" f "." now0 now0 [0%nat] open_a Hf).
  - rewrite Hw. discriminate.
  - exact Hd.
  - rewrite Hp. vm_compute. discriminate.
Defined.

(** "/a" and "/a/b" are directories. *)
Definition dirs_a : VFS svc := (Dir_Mkdir 0 0 Background 0 "a" 493 now0 now0 client0).2.
Definition dirs_ab : VFS svc := (Dir_Mkdir 0 0 Background 1 "b" 493 now0 now0 dirs_a).2.
Definition t_dir (p : N) (name : string) (t : tree) : tree :=
  (t_create p name (new_req (0%N, 0%N) (N.lor ModeDir 493) "" 0 now0) now0 t).2.

Lemma dirs_a_reach : reach (skels dirs_a) (vroot dirs_a) 1 1.
Proof.
  eapply (reach_child _ _ 0 0 _ _ _ _ _ "a"); [apply reach_root|vm_compute; reflexivity|vm_compute; reflexivity].
Qed.
Lemma dirs_ab_reach : reach (skels dirs_ab) (vroot dirs_ab) 1 1.
Proof.
  eapply (reach_child _ _ 0 0 _ _ _ _ _ "a"); [apply reach_root|vm_compute; reflexivity|vm_compute; reflexivity].
Qed.
Lemma dirs_a_ok : vfs_ok dirs_a (t_dir 1 "a" t0).
Proof.
  destruct client0_root as (d & Hd & Hi). rewrite <- Hi.
  apply (Dir_Mkdir_ok 0 0 client0 t0 0 0 d Background "a" 493 (0%N, 0%N)).
  - apply client0_ok.
  - apply reach_root.
  - exact Hd.
  - apply plain_a.
  - rewrite Hi. apply t0_room.
  - apply caller0.
Qed.
Lemma dirs_ab_ok : vfs_ok dirs_ab (t_dir 2 "b" (t_dir 1 "a" t0)).
Proof.
  assert (exists d, heap dirs_a !! 1%nat = Some (NDir d) /\ d_inode d = 2%N) as (d & Hd & Hi)
    by (eexists; split; vm_compute; reflexivity). rewrite <- Hi.
  apply (Dir_Mkdir_ok 0 0 dirs_a (t_dir 1 "a" t0) 1 1 d Background "b" 493 (0%N, 0%N)).
  - apply dirs_a_ok.
  - apply dirs_a_reach.
  - exact Hd.
  - split; [apply name_b|done].
  - rewrite Hi. split; [vm_compute; reflexivity|].
    assert (exists a : Attr, attrs (t_dir 1 "a" t0) !! 2%N = Some a /\ Nlink a = 2%N) as (a & Ha & Hn)
      by (eexists; split; vm_compute; reflexivity).
    intros b Hb. rewrite Ha in Hb. injection Hb as <-. rewrite Hn. vm_compute. reflexivity.
  - apply caller0.
Qed.

Lemma moveTo_deadlocks_witness : exists v', moveTo map_to_list 100 1 0 dirs_ab = (Err Diverges, v').
Proof.
  assert (exists d, heap dirs_ab !! 1%nat = Some (NDir d) /\ nodes (d_items d) !! "b"%string = Some 2%nat)
    as (d & Hd & Hn) by (eexists; split; vm_compute; reflexivity).
  assert (exists d, heap dirs_ab !! 2%nat = Some (NDir d)) as (dc & Hc) by (eexists; vm_compute; reflexivity).
  apply (moveTo_deadlocks map_to_list 100 dirs_ab (t_dir 2 "b" (t_dir 1 "a" t0)) 1 d 0 "b" 2 dc).
  - reflexivity.
  - apply dirs_ab_ok.
  - exists 1%nat. apply dirs_ab_reach.
  - exact Hd.
  - exact Hn.
  - exact Hc.
Defined.

(** The number of the node a path leads to at the client, and of the entry at the
    service. *)
Definition seen (path : string) (v : VFS svc) : option N :=
  match Stat 10 path now0 v with (Ok c, v') => node_Inode <$> heap v' !! c | _ => None end.
Definition stored (name : string) (v : VFS svc) : option N :=
  match (Lookup 1 name (server v)).1 with Ok a => Some (Inode a) | _ => None end.

(** When the service refuses to rename a directory (here the caller may not
    write its parent), [Dir.Rename] reports success all the same.  The client then
    calls the directory by the new name, so that it cannot be removed any more. *)
Theorem rename_refused_reports_ok :
  let v := (vfs_Mkdir 0 0 10 Background "/a" 493 now0 now0 client0).2 in
  let r := Dir_Rename 10 map_to_list user 5 0 "a" "b" 0 now0 now0 v in
  r.1 = Ok tt /\ stored "a" r.2 = Some 2%N /\ stored "b" r.2 = None /\
  (node_Name <$> heap r.2 !! 1%nat) = Some "b"%string /\
  (vfs_Remove 10 "/a" now0 now0 r.2).1 = Err (Remote (Status NotFound)).
Proof. vm_compute. split_and!; reflexivity. Qed.

(** Renaming a file onto a name that is cached replaces the entry at the
    service, but the client's node for the name keeps the number of the file
    that is gone. *)
Theorem rename_onto_cached_stale :
  let r := Dir_Rename 10 map_to_list Background 5 0 "a" "b" 0 now0 now0 closed_ab in
  seen "/a" closed_ab = Some 2%N /\ seen "/b" closed_ab = Some 3%N /\
  r.1 = Ok tt /\ stored "a" r.2 = None /\ stored "b" r.2 = Some 2%N /\ seen "/b" r.2 = Some 3%N.
Proof. vm_compute. split_and!; reflexivity. Qed.
