(* ===== verification/Mount.v ===== *)
(** The file system as the kernel calls it: the operations on inodes
    (src/pkg/hugofs/mount/node.go), their checks (check.go), the caller
    (context.go), directory streams (stream.go), and attributes and errors (fs.go),
    over the vfs. *)
From Stdlib Require Import Ascii ZArith Lia.
From stdpp Require Import prelude gmap strings list sorting.
From S2P Require Import Prelude Store FileMode Attr NodeService VfsFs Vfs.

(** * Errors *)

Inductive Errno :=
  | E_NOENT | E_EXIST | E_PERM | E_BADF | E_NOTEMPTY | E_NOTDIR | E_SPIPE | E_ROFS | E_NOSYS | E_INVAL | E_IO
  | E_NOTSUP | E_NAMETOOLONG | E_NOSPC | E_ISDIR | E_NOLINK | E_AGAIN | E_BUSY | E_INTR.

(** Errors of the service are none of the vfs's own. *)
Definition translateError (e : verror) : Errno :=
  match e with
  | V_ENOENT => E_NOENT
  | V_EEXIST => E_EXIST
  | V_ENOTEMPTY => E_NOTEMPTY
  | V_ENOTDIR => E_NOTDIR
  | V_EINVAL => E_INVAL
  | Remote _ | Diverges => E_IO
  end.

(** * Names *)

Definition checkLength (name : string) : option Errno :=
  if (256 <=? String.length name)%nat then Some E_NAMETOOLONG
  else if bool_decide (name = ""%string) then Some E_NOTSUP
  else None.

Definition rootID : N := 1.
Definition minInternalNode : N := 0x7FFFFFFF00000000.
Definition IsSpecialNode (ino : N) : bool := (minInternalNode <=? ino)%N.
Definition internalNodes : list (N * string) :=
  [((minInternalNode + 2)%N, ".control"%string); ((minInternalNode + 1)%N, ".accesslog"%string);
   ((minInternalNode + 3)%N, ".stats"%string); ((minInternalNode + 4)%N, ".config"%string);
   (0x7FFFFFFF10000000%N, ".trash"%string)].
(** [name[0]] of an empty name panics; it is not called with one. *)
Definition IsSpecialName (name : string) : bool :=
  has_prefix "." name && bool_decide (name ∈ internalNodes.*2).
Definition checkInoName (ino : N) (name : string) : option Errno :=
  if (256 <=? String.length name)%nat then Some E_NAMETOOLONG
  else if bool_decide (name = ""%string) then Some E_NOTSUP
  else if (ino =? rootID)%N && IsSpecialName name then Some E_PERM
  else None.

(** * The caller *)

(** The metadata of a request: who asks, or the owner of the mount, whose group is
    the user's number, when that is not known. *)
Definition NewGrpcContext (caller : option (N * N)) (mountUID : N) : Context :=
  let '(uid, gid) := default (mountUID, mountUID) caller in
  mkContext (Some [("uid"%string, [itoa uid]); ("gid"%string, [itoa gid])]) None.

(** * Attributes *)

Record FuseAttr := mkFuseAttr {
  a_Ino : N; a_Uid : N; a_Gid : N; a_Mode : N; a_Size : N; a_Nlink : N; a_Blocks : N; a_Blksize : N;
  a_Atime : N; a_Atimensec : N; a_Mtime : N; a_Mtimensec : N; a_Ctime : N; a_Ctimensec : N; a_Rdev : N }.

(** A directory has a size of its own. *)
Definition node_Size (n : vnode) : Z := match n with NDir _ => 4096 | NFile f => da_size (f_embeded f) end.
Definition getMode (n : vnode) : N := ToSyscallMode (da_mode (node_embeded n)).
Definition BlockSize : N := 1024 * 512.
Definition to_uint32 (z : Z) : N := Z.to_N (z mod 2 ^ 32).
Definition setAttr (n : vnode) : FuseAttr :=
  let a := node_embeded n in
  let Size := to_uint64 (node_Size n) in
  let Blocks := (((Size + BlockSize - 1) mod 2 ^ 64) / BlockSize)%N in
  mkFuseAttr (node_Inode n) (da_uid a) (da_gid a) (getMode n) Size (to_uint32 (da_nlink a)) Blocks BlockSize
    (to_uint64 (Unix (da_atime a))) (Nanosecond (da_atime a)) (to_uint64 (Unix (da_mtime a))) (Nanosecond (da_mtime a))
    (to_uint64 (Unix (da_ctime a))) (Nanosecond (da_ctime a)) (da_dev a).

(** What identifies an inode for the library. *)
Record StableAttr := mkStableAttr { s_Mode : N; s_Ino : N }.
Definition stable_attr (n : vnode) : StableAttr := mkStableAttr (getMode n) (node_Inode n).

(** ** Statistics of the file system *)

Record StatResponse := mkStat { st_Cap : N; st_Usage : N; st_TotalFileCnt : N }.
Record statisticsCache := mkStatisticsCache { sc_v : option StatResponse; lastCachedTime : Z }.
(** The copy of the cache is changed, so that the cache stays as it is; [rpc] is what
    the service answers. *)
Definition Statistics (c : statisticsCache) (now : Z) (rpc : option StatResponse) : option StatResponse * statisticsCache :=
  if (lastCachedTime c <? now - 20)%Z then (rpc, c) else (sc_v c, c).

Record StatfsOut := mkStatfsOut {
  o_Blocks : N; o_Bfree : N; o_Bavail : N; o_Files : N; o_Ffree : N; o_Bsize : N; o_NameLen : N; o_Frsize : N }.
Definition Statfs (statCache : option StatResponse) : StatfsOut :=
  let blockSize := 4096%N in
  match statCache with
  | None =>
      let fsBlocks := (2 ^ 50 / blockSize)%N in
      mkStatfsOut fsBlocks fsBlocks fsBlocks 1000000000 1000000000 blockSize 255 blockSize
  | Some s =>
      let Blocks := (if st_Cap s / blockSize =? 0 then 1 else st_Cap s / blockSize)%N in
      let numBlocks := (st_Usage s / blockSize)%N in
      let remainingBlocks := Z.max 0 (to_int Blocks - to_int numBlocks) in
      mkStatfsOut Blocks (to_uint64 remainingBlocks) (to_uint64 remainingBlocks) (2 ^ 63 - 1)
        (to_uint64 (2 ^ 63 - 1 - Z.of_N (st_TotalFileCnt s))) blockSize 255 blockSize
  end.

(** * Directory streams *)

(** The name, the mode and the inode number of an item. *)
Record FileInfo := mkFileInfo { fi_Name : string; fi_Mode : N; fi_Inode : N }.
(** [sort.Stable] by name; [item] comes before the items with the same name that followed it. *)
Fixpoint insert_info (item : FileInfo) (l : list FileInfo) : list FileInfo :=
  match l with
  | [] => [item]
  | x :: l' => if String.ltb (fi_Name x) (fi_Name item) then x :: insert_info item l' else item :: l
  end.
Definition sort_infos (l : list FileInfo) : list FileInfo := foldr insert_info [] l.

Record DirEntry := mkDirEntry { de_Mode : N; de_Name : string; de_Ino : N }.
Record dirStream := mkDirStream { ds_nodes : list FileInfo; ds_i : nat }.
Definition HasNext (ds : dirStream) : bool := (ds_i ds <? length (ds_nodes ds))%nat.
(** None is a panic. *)
Definition Next (ds : dirStream) : option (DirEntry * dirStream) :=
  match ds_nodes ds !! ds_i ds with
  | None => None
  | Some fi => Some (mkDirEntry (ToSyscallMode (fi_Mode fi)) (path_Base (fi_Name fi)) (fi_Inode fi), mkDirStream (ds_nodes ds) (S (ds_i ds)))
  end.
(** All entries, the way the library asks for them; [fuel] bounds the number. *)
Fixpoint drain (fuel : nat) (ds : dirStream) : list DirEntry :=
  match fuel with
  | O => []
  | S fuel => if HasNext ds then match Next ds with Some (e, ds') => e :: drain fuel ds' | None => [] end else []
  end.

(** * Inodes *)

(** What Setattr is asked to set; [in_Valid] is the mask. *)
Record SetAttrIn := mkSetAttrIn {
  in_Valid : N;
  in_Size : option N;
  in_MTime : option Time;
  in_ATime : option Time;
  in_CTime : option Time;
  in_Mode : option N;
  in_UID : option N;
  in_GID : option N }.

Section inode.
Context {S : Type} `{MetaServiceClient S}.
Context (mountUID mountGID Umask : N) (DirCacheTime : Z).
Context (range : gmap string loc -> list (string * loc)).
(** Whether the quota is used up. *)
Context (isOverQuota : bool).

(** The vfs, and the handles that have writes to flush.  An inode is known by its
    node in the vfs, as there is one for each. *)
Abbreviation VM A := (M (VFS S) verror A).
Abbreviation MM A := (M (VFS S * gset nat) verror A).

Definition on_vfs {A} (m : VM A) : MM A := fun s => let '(r, v) := m s.1 in (r, (v, s.2)).
(** The error of a call as the kernel gets it; a call that does not return stays
    one. *)
Definition translated {A} (m : MM A) : MM (A + Errno) := fun s =>
  match m s with
  | (Ok a, s') => (Ok (inl a), s')
  | (Err Diverges, s') => (Err Diverges, s')
  | (Err e, s') => (Ok (inr (translateError e)), s')
  | (Panic, s') => (Panic, s')
  end.
(** Go on with the result, or return the error. *)
Definition and_then {A B} (m : MM (A + Errno)) (k : A -> MM (B + Errno)) : MM (B + Errno) :=
  r <- m ;; match r with inl a => k a | inr e => ret (inr e) end.
Definition unless {B} (e : option Errno) (k : MM (B + Errno)) : MM (B + Errno) :=
  match e with Some e => ret (inr e) | None => k end.

Definition load_node (l : loc) : MM vnode := on_vfs (load l).
(** The node as a directory. *)
Definition as_dir {B} (l : loc) (k : MM (B + Errno)) : MM (B + Errno) :=
  n <- load_node l ;; match n with NDir _ => k | NFile _ => ret (inr E_NOTDIR) end.

Definition lookupVfsNodeInDir (l : loc) (leaf : string) (now : Time) : MM (loc + Errno) :=
  as_dir l (translated (on_vfs (Dir_Stat DirCacheTime l leaf now))).

(** An inode and its attributes, as they are handed to the kernel. *)
Definition entry_of (c : loc) : MM ((loc * StableAttr * FuseAttr) + Errno) :=
  n <- load_node c ;; ret (inl (c, stable_attr n, setAttr n)).

Definition Getattr (l : loc) : MM (FuseAttr + Errno) := n <- load_node l ;; ret (inl (setAttr n)).

(** ** Setting attributes *)

(** Flushing a handle writes its data, which is not part of this state, and then the
    attributes of the file. *)
Definition flush_handle (l : loc) (id : nat) (now : nat -> Time) : MM unit :=
  s <- gets snd ;;
  if negb (bool_decide (id ∈ s)) then ret tt else
  r <-? on_vfs (node_Flush (NewAttrContext Background (N.lor (N.lor SetAttrAtime SetAttrCtime) (N.lor SetAttrMtime SetAttrSize))) l now) ;;
  modify (fun s => (s.1, s.2 ∖ {[id]})) ;;;
  match r with inl _ => ret tt | inr e => throw e end.
Fixpoint flush_handles (l : loc) (ids : list nat) (now : nat -> Time) : MM unit :=
  match ids with
  | [] => ret tt
  | id :: ids => flush_handle l id now ;;; flush_handles l ids now
  end.
(** A directory is not truncated; handles that only read are not flushed. *)
Definition Truncate (l : loc) (size : Z) (now : nat -> Time) : MM unit :=
  n <- load_node l ;;
  match n with
  | NDir _ => ret tt
  | NFile f =>
      if (size =? da_size (f_embeded f))%Z then ret tt
      else on_vfs (on_embeded l (SetSize size)) ;;; flush_handles l (writers f) now
  end.

Definition set_if {A} (x : option A) (f : A -> DirtyAttr -> DirtyAttr) (l : loc) : MM unit :=
  match x with Some a => on_vfs (on_embeded l (f a)) | None => ret tt end.
Definition Setattr (caller : option (N * N)) (l : loc) (i : SetAttrIn) (now : nat -> Time) : MM (FuseAttr + Errno) :=
  and_then (translated (
    match in_Size i with Some n => Truncate l (to_int n) now | None => ret tt end ;;;
    set_if (in_MTime i) SetModTime l ;;;
    set_if (in_ATime i) SetATime l ;;;
    set_if (in_CTime i) SetCTime l ;;;
    set_if (in_Mode i) (fun m => SetMode (ToFileMode m)) l ;;;
    set_if (in_UID i) SetUID l ;;;
    set_if (in_GID i) SetGID l ;;;
    on_vfs (node_Flush (NewAttrContext (NewGrpcContext caller mountUID) (in_Valid i)) l now)))
  (fun _ => Getattr l).

(** ** Looking up and listing *)

Definition Mount_Open (l : loc) (flags : N) : MM (Handle + Errno) :=
  if isOverQuota then ret (inr E_NOSPC) else translated (on_vfs (node_Open l flags)).

Definition Lookup (l : loc) (name : string) (now : Time) : MM ((loc * StableAttr * FuseAttr) + Errno) :=
  unless (checkLength name) (and_then (lookupVfsNodeInDir l name now) entry_of).

Definition Opendir (l : loc) : MM (unit + Errno) :=
  n <- load_node l ;; ret (if node_IsDir n then inl tt else inr E_NOTDIR).

Fixpoint infos_of (l : list loc) : MM (list FileInfo) :=
  match l with
  | [] => ret []
  | c :: r => n <- load_node c ;; x <- infos_of r ;; ret (mkFileInfo (node_Name n) (da_mode (node_embeded n)) (node_Inode n) :: x)
  end.
(** The handle of a file lists nothing. *)
Definition Mount_Readdir (l : loc) (now : Time) : MM (dirStream + Errno) :=
  n <- load_node l ;;
  if negb (node_IsDir n) then ret (inr E_NOTDIR) else
  and_then (translated (on_vfs (node_Open l 0))) (fun h =>
  match h with
  | HFile _ _ _ => ret (inr E_NOSYS)
  | HDir d =>
      and_then (translated (on_vfs (Readdir DirCacheTime range d (-1) now))) (fun r =>
      infos <- infos_of (default [] r.1) ;;
      let curDir := mkFileInfo "." (da_mode (node_embeded n)) (node_Inode n) in
      let parentDir := mkFileInfo ".." (N.lor ModeDir 511) 0 in
      ret (inl (mkDirStream (sort_infos (curDir :: parentDir :: infos)) 0)))
  end).

Definition Readlink (l : loc) : MM (string + Errno) :=
  n <- load_node l ;;
  ret (match n with NFile f => inl (da_linkTarget (f_embeded f)) | NDir _ => inr E_NOLINK end).
Definition Access (l : loc) (mask : N) : MM (unit + Errno) := ret (inl tt).

(** ** Creating *)

(** The full path of a new name is looked at. *)
Definition path_checked {B} (l : loc) (name : string) (k : MM (B + Errno)) : MM (B + Errno) :=
  p <- on_vfs (Dir_Path l) ;;
  if (4096 <=? String.length (path_Join p name))%nat then ret (inr E_NAMETOOLONG) else k.

Definition Mount_Mkdir (caller : option (N * N)) (l : loc) (name : string) (mode : N) (now now' : Time) :
    MM ((loc * StableAttr * FuseAttr) + Errno) :=
  if isOverQuota then ret (inr E_NOSPC) else
  unless (checkLength name) (as_dir l (path_checked l name (
    and_then (translated (on_vfs (Dir_Mkdir mountUID mountGID (NewGrpcContext caller mountUID) l name mode now now'))) entry_of))).

Definition Create (caller : option (N * N)) (l : loc) (name : string) (flags mode : N) (now now' : Time) :
    MM ((loc * StableAttr * FuseAttr * Handle) + Errno) :=
  if isOverQuota then ret (inr E_NOSPC) else
  unless (checkLength name) (as_dir l (path_checked l name (
    and_then (translated (on_vfs (Dir_Create mountUID mountGID (NewGrpcContext caller mountUID) l name mode 0 now now'))) (fun file =>
    and_then (translated (on_vfs (File_Open file (N.lor flags O_CREATE)))) (fun h =>
    and_then (lookupVfsNodeInDir l name now) (fun c =>
    and_then (entry_of c) (fun e => ret (inl (e, h))))))))).

Definition Mknod (caller : option (N * N)) (l : loc) (name : string) (mode dev : N) (now now' : Time) :
    MM ((loc * StableAttr * FuseAttr) + Errno) :=
  if isOverQuota then ret (inr E_NOSPC) else
  unless (checkLength name) (as_dir l (path_checked l name (
    and_then (translated (on_vfs (Dir_Create mountUID mountGID (NewGrpcContext caller mountUID) l name mode dev now now'))) (fun _ =>
    and_then (lookupVfsNodeInDir l name now) entry_of)))).

Definition Mount_Link (l target : loc) (name : string) (now : Time) : MM ((loc * StableAttr * FuseAttr) + Errno) :=
  if isOverQuota then ret (inr E_NOSPC) else
  unless (checkLength name) (as_dir l (
    t <- load_node target ;;
    match t with
    | NDir _ => ret (inr E_PERM)
    | NFile _ => and_then (translated (on_vfs (Dir_Link l target name now))) entry_of
    end)).

Definition Mount_Symlink (caller : option (N * N)) (l : loc) (target name : string) (now now' : Time) :
    MM ((loc * StableAttr * FuseAttr) + Errno) :=
  if isOverQuota then ret (inr E_NOSPC) else
  unless (checkLength name) (as_dir l (
    and_then (translated (on_vfs (Dir_Symlink mountUID mountGID Umask (NewGrpcContext caller mountUID) l target name now now'))) entry_of)).

(** ** Removing and renaming *)

(** The nodes that the library knows, in the order in which its tree is walked, are
    [tree]; those with the number are files. *)
Fixpoint reload (tree : list loc) (ino : N) : MM unit :=
  match tree with
  | [] => ret tt
  | c :: r =>
      n <- load_node c ;;
      (if (node_Inode n =? ino)%N then
         match n with NFile _ => x <-? on_vfs (Reload c) ;; ret tt | NDir _ => go_panic end
       else ret tt) ;;;
      reload r ino
  end.

Definition Unlink (tree : list loc) (l : loc) (name : string) (now now' : Time) : MM (unit + Errno) :=
  unless (checkLength name) (and_then (lookupVfsNodeInDir l name now) (fun c =>
    n <- load_node c ;;
    if node_IsDir n then ret (inr E_ISDIR) else
    r <- translated (on_vfs (node_Remove DirCacheTime c now now')) ;;
    n <- load_node c ;;
    (if (1 <? da_nlink (node_embeded n))%Z then reload tree (node_Inode n) else ret tt) ;;;
    ret r)).
Definition Rmdir (l : loc) (name : string) (now now' : Time) : MM (unit + Errno) :=
  unless (checkLength name) (and_then (lookupVfsNodeInDir l name now) (fun c =>
    translated (on_vfs (node_Remove DirCacheTime c now now')))).

(** [depth] bounds how deep the tree under a directory is walked. *)
Definition Mount_Rename (caller : option (N * N)) (depth : nat) (l : loc) (oldName : string) (newParent : loc) (newName : string)
    (now now' : Time) : MM (unit + Errno) :=
  n <- load_node l ;;
  unless (checkInoName (node_Inode n) oldName) (as_dir l (
    p <- load_node newParent ;;
    as_dir newParent (unless (checkInoName (node_Inode p) newName) (
      translated (on_vfs (Dir_Rename DirCacheTime range (NewGrpcContext caller mountUID) depth l oldName newName newParent now now')))))).
End inode.
