(* ===== verification/MountProps.v ===== *)
(** What the kernel sees of a client whose cache agrees with the service: lookups,
    new directories and listings answer as the tree of the service says. *)
From Stdlib Require Import Ascii ZArith Lia.
From stdpp Require Import prelude gmap strings list sorting.
From S2P Require Import Prelude Store Badger FileMode FreeList Attr NodeService Tree TreeInv NodeRefine NodeRename NodeSim NodeTheorems VfsFs MetaClient Vfs VfsInv VfsRun VfsOps VfsProps Mount.

Section props.
Context {S : Type} `{MetaSpec S}.
Context (mountUID mountGID Umask : N) (DirCacheTime : Z) (range : gmap string loc -> list (string * loc)).
Implicit Types (v : VFS S) (hs : gset nat) (t : tree).

(** * Runs *)

Lemma on_vfs_run {A} (m : M (VFS S) verror A) v hs r v' : m v = (r, v') -> on_vfs m (v, hs) = (r, (v', hs)).
Proof. intros E. unfold on_vfs. cbn [fst snd]. by rewrite E. Qed.
Lemma load_here v hs l n : heap v !! l = Some n -> load_node l (v, hs) = (Ok n, (v, hs)).
Proof. intros E. apply on_vfs_run. by apply load_node_run. Qed.
Lemma as_dir_run {B} v hs l d (k : M (VFS S * gset nat) verror (B + Errno)) : heap v !! l = Some (NDir d) ->
  as_dir l k (v, hs) = k (v, hs).
Proof. intros E. unfold as_dir. by rewrite (bind_ok _ _ _ _ _ (load_here _ _ _ _ E)). Qed.
Lemma translated_ok {A} (m : M (VFS S) verror A) v hs a v' : m v = (Ok a, v') -> translated (on_vfs m) (v, hs) = (Ok (inl a), (v', hs)).
Proof. intros E. unfold translated. by rewrite (on_vfs_run _ _ _ _ _ E). Qed.
Lemma translated_err {A} (m : M (VFS S) verror A) v hs e v' : m v = (Err e, v') -> e <> Diverges ->
  translated (on_vfs m) (v, hs) = (Ok (inr (translateError e)), (v', hs)).
Proof. intros E He. unfold translated. rewrite (on_vfs_run _ _ _ _ _ E). by destruct e. Qed.
Lemma and_then_ok {A B} (m : M (VFS S * gset nat) verror (A + Errno)) (k : A -> M (VFS S * gset nat) verror (B + Errno)) s a s' :
  m s = (Ok (inl a), s') -> and_then m k s = k a s'.
Proof. intros E. unfold and_then. by rewrite (bind_ok _ _ _ _ _ E). Qed.
Lemma and_then_err {A B} (m : M (VFS S * gset nat) verror (A + Errno)) (k : A -> M (VFS S * gset nat) verror (B + Errno)) s e s' :
  m s = (Ok (inr e), s') -> and_then m k s = (Ok (inr e), s').
Proof. intros E. unfold and_then. by rewrite (bind_ok _ _ _ _ _ E). Qed.
Lemma entry_of_run v hs c n : heap v !! c = Some n -> entry_of c (v, hs) = (Ok (inl (c, stable_attr n, setAttr n)), (v, hs)).
Proof. intros E. unfold entry_of. by rewrite (bind_ok _ _ _ _ _ (load_here _ _ _ _ E)). Qed.

(** ** Looking up *)

Lemma child_inode v l name e c : child_ok (skels v) l name e c -> exists n, heap v !! c = Some n /\ node_Inode n = e_Ino e.
Proof.
  unfold child_ok. destruct (skels v !! c) as [s|] eqn:E; [|done]. destruct (skels_some _ _ _ E) as (n & Hn & <-).
  destruct n; cbn; intros [Hi _]; by eexists.
Qed.

Lemma Lookup_run v hs t l d name now : vfs_ok v t -> reached v l -> heap v !! l = Some (NDir d) -> checkLength name = None ->
  exists v', vfs_ok v' t /\ grows (skels v) (skels v') /\ vroot v' = vroot v /\
    match entries t !! (d_inode d, name) with
    | Some e => exists c n, Lookup DirCacheTime l name now (v, hs) = (Ok (inl (c, stable_attr n, setAttr n)), (v', hs)) /\
        heap v' !! c = Some n /\ node_Inode n = e_Ino e /\ reached v' c
    | None => Lookup DirCacheTime l name now (v, hs) = (Ok (inr E_NOENT), (v', hs))
    end.
Proof.
  intros Hv [k Hr] Hd Hc. pose proof (skels_lookup _ _ _ Hd) as Hl. cbn in Hl.
  destruct (stat_run DirCacheTime v t k l _ _ _ _ _ name now Hv Hr Hl) as (v' & Hv' & Eroot & Hg & Hres). exists v'. split_and!; try done.
  unfold Lookup, unless, lookupVfsNodeInDir. rewrite Hc. destruct (entries t !! (d_inode d, name)) as [e|].
  - destruct Hres as (c & Est & Hrc & Hok). destruct (child_inode _ _ _ _ _ Hok) as (n & Hn & Hi). exists c, n. split_and!; [|done|done|by exists (Datatypes.S k)].
    erewrite and_then_ok by (rewrite (as_dir_run _ _ _ d) by done; by apply translated_ok). by apply entry_of_run.
  - erewrite and_then_err; [done|]. rewrite (as_dir_run _ _ _ d) by done. by apply (translated_err _ _ _ V_ENOENT).
Qed.


(** ** Making a directory *)

Lemma NewGrpcContext_caller uid gid (s : S) : (uid < 2 ^ 32)%N -> (gid < 2 ^ 32)%N ->
  extractCaller mountUID mountGID (NewGrpcContext (Some (uid, gid)) mountUID) s =
  (Ok (if (uid =? 0)%N then mountUID else uid, if (gid =? 0)%N then mountGID else gid), s).
Proof.
  intros Hu Hg. unfold NewGrpcContext, extractCaller. cbn. unfold bind, ret, deref. cbn. by rewrite !atoi32_itoa.
Qed.

(** C6 Making a directory in a directory that is reached and cached coherently, and looking
    it up.  The name is a plain one of 1 to 255 bytes, the path of the new directory
    has fewer than 4096 bytes, the caller's ids have 32 bits, and the service's
    next inode and the parent's link count stay within their widths.  Where the
    service creates the directory, the kernel gets the new inode, and the next lookup
    of the name gets the same one.  Where the service would refuse, a name in the
    cache of its parent is answered with EEXIST (and the service's directory has it),
    and a name that is not cached with EIO, whatever the error of the service was,
    EEXIST included. *)
Theorem Mkdir_then_Lookup v hs t l d uid gid name mode now now' now2 :
  vfs_ok v t -> reached v l -> heap v !! l = Some (NDir d) -> plain_name name -> checkLength name = None -> room t (d_inode d) ->
  (uid < 2 ^ 32)%N -> (gid < 2 ^ 32)%N ->
  (forall pp, (Dir_Path l v).1 = Ok pp -> (String.length (path_Join pp name) < 4096)%nat) ->
  let owner := (if (uid =? 0)%N then mountUID else uid, if (gid =? 0)%N then mountGID else gid) in
  let mkdir := Mount_Mkdir mountUID mountGID false (Some (uid, gid)) l name mode now now' (v, hs) in
  match t_create (d_inode d) name (new_req owner (N.lor ModeDir mode) "" 0 now) now' t with
  | (Ok r, t') => exists c st at_ v' c2 st2 at2 v2,
      mkdir = (Ok (inl (c, st, at_)), (v', hs)) /\ vfs_ok v' t' /\ s_Ino st = Inode r /\
      Lookup DirCacheTime l name now2 (v', hs) = (Ok (inl (c2, st2, at2)), (v2, hs)) /\ vfs_ok v2 t' /\ s_Ino st2 = Inode r
  | (Err e, _) => exists v', vfs_ok v' t /\
      match nodes (d_items d) !! name with
      | Some _ => mkdir = (Ok (inr E_EXIST), (v', hs)) /\ is_Some (entries t !! (d_inode d, name))
      | None => mkdir = (Ok (inr E_IO), (v', hs))
      end
  | (Panic, _) => False
  end.
Proof.
  intros Hv [k Hr] Hd Hname Hlen Hroom Hu Hg Hpath owner mkdir. pose proof (skels_lookup _ _ _ Hd) as Hl. cbn in Hl.
  destruct (Dir_Path_run v t k l _ _ _ _ _ (proj2 Hv) Hr Hl) as [pp Epp].
  set (op := Dir_Mkdir mountUID mountGID (NewGrpcContext (Some (uid, gid)) mountUID) l name mode now now').
  assert (Emk : mkdir = and_then (translated (on_vfs op)) entry_of (v, hs)).
  { unfold mkdir, Mount_Mkdir, unless. rewrite Hlen, (as_dir_run _ _ _ d) by done. unfold path_checked.
    rewrite (bind_ok _ _ _ _ _ (on_vfs_run _ _ hs _ _ Epp)), (proj2 (Nat.leb_gt _ _)); [done|]. apply Hpath. by rewrite Epp. }
  set (res := t_create _ _ _ _ _). pose proof (t_create_cases (d_inode d) name (new_req owner (N.lor ModeDir mode) "" 0 now) now' t
    (co_tree _ _ _ (proj2 Hv)) Hroom) as Hcases. fold res in Hcases.
  destruct (nodes (d_items d) !! name) as [c|] eqn:Ec.
  - destruct (ok_child _ _ _ _ _ _ (co_dirs _ _ _ (proj2 Hv) _ _ _ _ _ _ _ Hr Hl) _ _ Ec) as (e & He & _).
    destruct Hcases as [[er ->]|(r & t' & -> & _ & Hnone & _)]; [|congruence]. exists v. split; [done|]. split; [|eauto].
    rewrite Emk. erewrite and_then_err; [done|]. apply (translated_err _ _ _ V_EEXIST); [|done]. unfold op, Dir_Mkdir, unless_cached.
    rewrite (bind_ok _ _ _ _ _ (load_dir_run _ _ _ Hd)). by rewrite Ec.
  - pose proof (Dir_Mkdir_run mountUID mountGID v t k l _ _ _ _ _ name Hv Hr Hl Hname (NewGrpcContext (Some (uid, gid)) mountUID) mode now now' owner
      Hroom Ec (NewGrpcContext_caller uid gid _ Hu Hg)) as Hans. fold res op in Hans. unfold answers in Hans.
    destruct Hcases as [[er Er]|(r & t' & Er & Ht' & Hnone & _ & _ & _ & Hent)]; rewrite Er in *.
    + destruct Hans as (v' & E & Hv' & _). exists v'. split; [done|]. rewrite Emk.
      erewrite and_then_err; [done|]. by apply (translated_err _ _ _ (Remote er)).
    + destruct Hans as (c & v' & m & s & E & Hv' & Hgr & Eroot & Hrc & Hsc & Hsi & _). destruct (skels_some _ _ _ Hsc) as (n & Hn & <-).
      assert (Hrl : reached v' l) by (exists k; rewrite Eroot; by eapply reach_grows).
      assert (Hd' : exists d', heap v' !! l = Some (NDir d') /\ d_inode d' = d_inode d).
      { destruct (Hgr _ _ Hl) as (its' & read' & Hl' & _). destruct (skels_dir _ _ _ _ _ _ _ Hl') as (d' & Hd' & Hi' & _). by exists d'. }
      destruct Hd' as (d' & Hd' & Ei).
      destruct (Lookup_run v' hs t' l d' name now2 Hv' Hrl Hd' Hlen) as (v2 & Hv2 & _ & _ & Hres).
      rewrite Ei, Hent, lookup_insert_eq in Hres. destruct Hres as (c2 & n2 & E2 & _ & Hi2 & _). cbn [e_Ino] in Hi2.
      exists c, (stable_attr n), (setAttr n), v', c2, (stable_attr n2), (setAttr n2), v2. split_and!; try done.
      * rewrite Emk. erewrite and_then_ok by (by apply translated_ok). by apply entry_of_run.
      * cbn. by rewrite <- skel_ino_of.
Qed.

(** ** Listing *)

Definition by_name (a b : FileInfo) : Prop := String.leb (fi_Name a) (fi_Name b) = true.
Lemma insert_info_perm x l : insert_info x l ≡ₚ x :: l.
Proof. induction l as [|y l IH]; [done|]. cbn. destruct (String.ltb _ _); [|done]. rewrite IH. apply Permutation_swap. Qed.
Lemma sort_infos_perm l : sort_infos l ≡ₚ l.
Proof. induction l as [|x l IH]; [done|]. cbn. by rewrite insert_info_perm, IH. Qed.
Lemma leb_of_ltb a b : String.ltb a b = true -> String.leb a b = true.
Proof. unfold String.ltb, String.leb. by destruct (String.compare a b). Qed.
Lemma leb_of_not_ltb a b : String.ltb a b = false -> String.leb b a = true.
Proof.
  unfold String.ltb, String.leb. rewrite (String.compare_antisym b a). by destruct (String.compare a b).
Qed.
Lemma insert_info_sorted x l : Sorted by_name l -> Sorted by_name (insert_info x l).
Proof.
  induction 1 as [|y l Hs IH Hd]; [by repeat constructor|]. cbn. destruct (String.ltb (fi_Name y) (fi_Name x)) eqn:E.
  - constructor; [done|]. destruct l as [|z l]; cbn.
    + constructor. by apply leb_of_ltb.
    + destruct (String.ltb (fi_Name z) (fi_Name x)); constructor; [by inversion Hd|by apply leb_of_ltb].
  - constructor; [by constructor|]. constructor. by apply leb_of_not_ltb.
Qed.
Lemma sort_infos_sorted l : Sorted by_name (sort_infos l).
Proof. induction l as [|x l IH]; [constructor|]. cbn. by apply insert_info_sorted. Qed.

(** The stream gives each of its items once, in their order. *)
Definition next_entry (fi : FileInfo) : DirEntry := mkDirEntry (ToSyscallMode (fi_Mode fi)) (path_Base (fi_Name fi)) (fi_Inode fi).
Lemma drain_run fuel l i : (length l <= i + fuel)%nat -> drain fuel (mkDirStream l i) = next_entry <$> drop i l.
Proof.
  revert i. induction fuel as [|fuel IH]; intros i Hf.
  - cbn. rewrite drop_ge by lia. done.
  - cbn [drain]. unfold HasNext, Next. cbn [ds_i ds_nodes]. destruct (Nat.ltb_spec i (length l)) as [Hi|Hi].
    + destruct (lookup_lt_is_Some_2 l i Hi) as [x Hx]. rewrite Hx, (drop_S l x i Hx). cbn [fmap list_fmap]. f_equal. apply IH. lia.
    + by rewrite drop_ge by lia.
Qed.

Lemma infos_of_run (ls : list loc) v hs : Forall (fun c => is_Some (heap v !! c)) ls ->
  exists infos, infos_of ls (v, hs) = (Ok infos, (v, hs)) /\ (fun fi => (fi_Name fi, fi_Inode fi)) <$> infos = shown_at v <$> ls.
Proof.
  induction 1 as [|c ls [n Hn] _ (infos & E & Es)]; [by exists []|]. eexists. cbn [infos_of].
  rewrite (bind_ok _ _ _ _ _ (load_here _ _ _ _ Hn)), (bind_ok _ _ _ _ _ E). split; [reflexivity|]. cbn [fmap list_fmap]. rewrite Es.
  unfold shown_at at 2. by rewrite Hn.
Qed.

(** C22 A listing is exact: the stream has the directory itself, its parent under two dots
    and inode number 0, and each entry of the service's directory once, under its name
    and with its inode number, and nothing else; the names come in their order. *)
Theorem Readdir_exact v hs t l d now fuel : (forall m, range m ≡ₚ map_to_list m) ->
  vfs_ok v t -> reached v l -> heap v !! l = Some (NDir d) -> (2 + length (dir (d_inode d) t) <= fuel)%nat ->
  exists v' ds, Mount_Readdir DirCacheTime range l now (v, hs) = (Ok (inl ds), (v', hs)) /\ vfs_ok v' t /\
    Sorted by_name (ds_nodes ds) /\
    (fun e => (de_Name e, de_Ino e)) <$> drain fuel ds ≡ₚ
      (".", d_inode d)%string :: ("..", 0%N)%string :: ((fun x : N * string * Entry => (x.1.2, e_Ino x.2)) <$> dir (d_inode d) t).
Proof.
  intros Hrange Hv Hr Hd Hfuel. destruct (ReadDirAll_exact DirCacheTime range v t l d now Hrange Hv Hr Hd) as (v' & ls & E & Hv' & Hsome & Hperm & _).
  destruct (infos_of_run ls v' hs Hsome) as (infos & Einf & Eshown).
  set (all := mkFileInfo "." (da_mode (d_embeded d)) (d_inode d) :: mkFileInfo ".." (N.lor ModeDir 511) 0 :: infos).
  exists v', (mkDirStream (sort_infos all) 0). split_and!; [|done|apply sort_infos_sorted|].
  - unfold Mount_Readdir. rewrite (bind_ok _ _ _ _ _ (load_here _ _ _ _ Hd)). cbn [node_IsDir negb].
    assert (Eo : node_Open l 0 v = (Ok (HDir (newDirHandle l)), v)).
    { unfold node_Open. by rewrite (bind_ok _ _ _ _ _ (load_node_run _ _ _ Hd)). }
    erewrite and_then_ok by (by apply translated_ok). cbv beta iota.
    assert (Er : Readdir DirCacheTime range (newDirHandle l) (-1) now v = (Ok (Some ls, mkDirHandle l (Some [])), v')).
    { unfold Readdir, newDirHandle. cbn [fis dh_d]. rewrite (bind_ok _ _ _ _ _ E). done. }
    erewrite and_then_ok by (by apply translated_ok). cbn [fst default]. unfold Datatypes.id. rewrite (bind_ok _ _ _ _ _ Einf). done.
  - assert (Hlen : length infos = length (dir (d_inode d) t)).
    { rewrite <- (length_fmap (fun fi => (fi_Name fi, fi_Inode fi)) infos), Eshown. rewrite (Permutation_length Hperm). by rewrite length_fmap. }
    assert (Hlen' : length (sort_infos all) = (2 + length (dir (d_inode d) t))%nat) by (rewrite sort_infos_perm; cbn; lia).
    rewrite drain_run by lia. rewrite drop_0, sort_infos_perm. unfold all. rewrite !fmap_cons. cbn [next_entry fi_Name fi_Mode fi_Inode de_Name de_Ino].
    do 2 apply Permutation_skip. rewrite <- Hperm, <- Eshown. rewrite <- list_fmap_compose.
    apply Permutation_refl'. apply list_fmap_ext. intros i fi Hfi. cbn. f_equal.
    assert (Hin : (fi_Name fi, fi_Inode fi) ∈ (fun x : N * string * Entry => (x.1.2, e_Ino x.2)) <$> dir (d_inode d) t).
    { rewrite <- Hperm, <- Eshown. apply list_elem_of_fmap. exists fi. split; [done|]. by eapply list_elem_of_lookup_2. }
    apply list_elem_of_fmap in Hin as ([[q nm] e] & Heq & Hin). apply elem_of_dir in Hin as [_ Hin]. cbn in *. injection Heq as -> _.
    apply path_Base_valid. apply (co_names _ _ _ (proj2 Hv') _ _ _ Hin).
Qed.
End props.

(** * Attributes *)

(** C32 The number of blocks is the size in units of 512 KB, rounded up, as long as the sum
    stays in 64 bits; a larger size wraps around to no blocks. *)
Theorem setAttr_blocks n : let a := setAttr n in
  a_Ino a = node_Inode n /\ a_Mode a = getMode n /\ a_Size a = to_uint64 (node_Size n) /\
  ((a_Size a + BlockSize <= 2 ^ 64)%N -> (a_Size a <= a_Blocks a * BlockSize < a_Size a + BlockSize)%N) /\
  ((2 ^ 64 < a_Size a + BlockSize)%N -> a_Blocks a = 0%N).
Proof.
  cbv zeta. split_and!; try done; cbn [setAttr a_Size a_Blocks]; set (z := to_uint64 (node_Size n)).
  - intros Hz. rewrite N.mod_small by (unfold BlockSize in *; lia).
    pose proof (N.div_mod (z + BlockSize - 1) BlockSize ltac:(done)) as Hdm. pose proof (N.mod_lt (z + BlockSize - 1) BlockSize ltac:(done)) as Hlt.
    change BlockSize with 524288%N in *. set (q := ((z + 524288 - 1) / 524288)%N) in *. set (r := ((z + 524288 - 1) mod 524288)%N) in *. clearbody q r. lia.
  - intros Hz. assert (Hzlt : (z < 2 ^ 64)%N).
    { unfold z, to_uint64. pose proof (Z.mod_pos_bound (node_Size n) (2 ^ 64) ltac:(lia)). lia. }
    assert (E : ((z + BlockSize - 1) mod 2 ^ 64 = z + BlockSize - 1 - 2 ^ 64)%N).
    { symmetry. apply (N.mod_unique _ _ 1); unfold BlockSize in *; lia. }
    rewrite E. apply N.div_small. unfold BlockSize in *. lia.
Qed.

(** The numbers for the whole file system are consistent: there is a block at least,
    no more blocks are free than there are, and those that are not free are the used
    ones as long as there are that many. *)
Theorem Statfs_consistent s : (st_Cap s < 2 ^ 64)%N -> (st_Usage s < 2 ^ 64)%N ->
  let o := Statfs (Some s) in
  (1 <= o_Blocks o)%N /\ (o_Bfree o <= o_Blocks o)%N /\ o_Bavail o = o_Bfree o /\
  (st_Usage s / 4096 <= o_Blocks o -> o_Bfree o + st_Usage s / 4096 = o_Blocks o)%N /\
  (st_TotalFileCnt s < 2 ^ 63 -> o_Ffree o + st_TotalFileCnt s = o_Files o)%N.
Proof.
  intros Hc Hu o. cbn [o Statfs o_Blocks o_Bfree o_Bavail o_Files o_Ffree].
  assert (HB : (st_Cap s / 4096 < 2 ^ 52)%N) by (apply N.Div0.div_lt_upper_bound; lia).
  assert (HU : (st_Usage s / 4096 < 2 ^ 52)%N) by (apply N.Div0.div_lt_upper_bound; lia).
  set (b := (if st_Cap s / 4096 =? 0 then 1 else st_Cap s / 4096)%N). assert (Hb : (1 <= b < 2 ^ 52)%N).
  { unfold b. destruct (N.eqb_spec (st_Cap s / 4096) 0); lia. }
  assert (Eb : to_int b = Z.of_N b) by (apply to_int_small; lia). assert (Eu : to_int (st_Usage s / 4096) = Z.of_N (st_Usage s / 4096)) by (apply to_int_small; lia).
  rewrite Eb, Eu. set (u := (st_Usage s / 4096)%N) in *. set (m := Z.max 0 (Z.of_N b - Z.of_N u)).
  assert (Em : to_uint64 m = Z.to_N m) by (unfold to_uint64; rewrite Z.mod_small; [done|lia]). rewrite Em. split_and!; try lia.
  intros Hf. assert (Ef : to_uint64 (2 ^ 63 - 1 - Z.of_N (st_TotalFileCnt s)) = Z.to_N (2 ^ 63 - 1 - Z.of_N (st_TotalFileCnt s))).
  { unfold to_uint64. rewrite Z.mod_small; [done|lia]. }
  rewrite Ef. lia.
Qed.

(** * Examples *)


Lemma Mkdir_then_Lookup_witness : exists c st at_ v' c2 st2 at2 v2,
  Mount_Mkdir 0 0 false (Some (5%N, 6%N)) 0 "d" 493 now0 now0 (client0, ∅) = (Ok (inl (c, st, at_)), (v', ∅)) /\
  Lookup 10 0 "d" now0 (v', ∅) = (Ok (inl (c2, st2, at2)), (v2, ∅)) /\ s_Ino st = 2%N /\ s_Ino st2 = 2%N.
Proof.
  destruct client0_root as (d & Hd & Hi).
  pose proof (Mkdir_then_Lookup 0 0 10 client0 ∅ t0 0 d 5 6 "d" 493 now0 now0 now0 client0_ok
    (root_reached client0 ltac:(vm_compute; reflexivity)) Hd ltac:(split; [split; [discriminate|reflexivity]|split; discriminate]) ltac:(reflexivity)
    ltac:(rewrite Hi; exact t0_room) ltac:(reflexivity) ltac:(reflexivity)) as Hm.
  cbv zeta in Hm. rewrite Hi in Hm. assert (Hp : forall pp, (Dir_Path 0 client0).1 = Ok pp -> (String.length (path_Join pp "d") < 4096)%nat).
  { intros pp Hpp. vm_compute in Hpp. injection Hpp as <-. apply Nat.ltb_lt. vm_compute. reflexivity. }
  specialize (Hm Hp). destruct (t_create 1 "d" _ now0 t0) as [r t'] eqn:E.
  assert (exists a, r = Ok a /\ Inode a = 2%N) as (a & -> & Ha).
  { apply (f_equal fst) in E. cbn [fst] in E. rewrite <- E. eexists. split; vm_compute; reflexivity. }
  destruct Hm as (c & st & at_ & v' & c2 & st2 & at2 & v2 & H1 & _ & H2 & H3 & _ & H4). exists c, st, at_, v', c2, st2, at2, v2.
  split; [exact H1|]. split; [exact H3|]. split; by rewrite <- Ha.
Defined.

Lemma Readdir_exact_witness : exists v' ds,
  Mount_Readdir 10 map_to_list 0 now0 (client1, ∅) = (Ok (inl ds), (v', ∅)) /\
  (fun e => (de_Name e, de_Ino e)) <$> drain 3 ds ≡ₚ [(".", 1%N); ("..", 0%N); ("a", 2%N)]%string.
Proof.
  destruct client1_root as (d & Hd & Hi).
  assert (Hdir : (fun x : N * string * Entry => (x.1.2, e_Ino x.2)) <$> dir 1 t1 = [("a", 2%N)]%string) by (vm_compute; reflexivity).
  assert (Hlen : length (dir 1 t1) = 1%nat) by (vm_compute; reflexivity).
  destruct (Readdir_exact 10 map_to_list client1 ∅ t1 0 d now0 3 (fun m => reflexivity _) client1_ok
    (root_reached client1 ltac:(vm_compute; reflexivity)) Hd ltac:(rewrite Hi, Hlen; lia)) as (v' & ds & H1 & _ & _ & H2).
  exists v', ds. split; [exact H1|]. rewrite Hi, Hdir in H2. exact H2.
Defined.

Lemma Statfs_consistent_witness : (o_Bfree (Statfs (Some (mkStat 40960 8192 3))) + 2 = 10)%N.
Proof.
  destruct (Statfs_consistent (mkStat 40960 8192 3) ltac:(reflexivity) ltac:(reflexivity)) as (_ & _ & _ & Hf & _).
  exact (Hf ltac:(vm_compute; discriminate)).
Defined.
