(* ===== verification/MountFile.v ===== *)
(** Open files as the kernel calls them (src/pkg/hugofs/mount/file.go): reads and
    writes over the handle of the vfs, and locks over the inode service, with the
    requests of src/pkg/hugofs/vfs/fs.go and handle_file.go. *)
From Stdlib Require Import Ascii Strings.Byte ZArith Lia.
From stdpp Require Import prelude gmap strings list.
From S2P Require Import Prelude Store Badger FileMode FreeList Attr NodeService NodeRefine NodeLocks VfsFs.
From S2P Require Import Vfs Mount Volume StorageBackend Throttler FileBlock MemBlock Uploader UploaderProps PageWriter ReadBuffer ReadBufferProps FileHandle.

(** * Data *)

Section data.
Context {L : Type} {LL : Lru L} {T : Type} {SB : StorageBackend T} {S : Type} `{MetaServiceClient S}.
Context (already_exists : error -> bool) (temp : bool) (range : gmap Z Block -> list (Z * Block))
  (range_sealed : gmap Z nat -> list (Z * nat)).
Abbreviation FH A := (M (FileHandle L T S) fault A).

Definition fuse_Read (now : Z) (dest : list byte) (off : Z) : FH (list byte + Errno) :=
  r <- fh_ReadAt already_exists temp now dest off ;;
  let '(n, err, dest) := r in
  match err with
  | Some e => if is_EOF e then ret (inl (take (Z.to_nat n) dest)) else ret (inr E_IO)
  | None => ret (inl (take (Z.to_nat n) dest))
  end.
Definition fuse_Write (now : Z) (data : list byte) (off : Z) : FH (N + Errno) :=
  r <- fh_WriteAt already_exists temp range now data off ;;
  let '(n, err) := r in
  ret (match err with Some _ => inr E_IO | None => inl (to_uint32 n) end).
Definition fuse_Release : FH (unit + Errno) := fh_Release already_exists range_sealed ;;; ret (inl tt).
Definition fuse_Flush (now : nat -> Time) : FH (unit + Errno) :=
  e <- fh_Flush already_exists range now ;;
  ret (match e with Some e => inr (translateError (Remote e)) | None => inl tt end).
Definition fuse_Fsync (now : nat -> Time) (flags : N) : FH (unit + Errno) := fuse_Flush now.
End data.

(** ** What the kernel reads *)

Section kernel_read.
Context {L : Type} {LL : Lru L} {LS : LruSpec L} {T : Type} {SB : StorageBackend T} {BS : BackendSpec T} {OW : OwnReads T} {S : Type}.
Context (already_exists : error -> bool) (temp : bool).
Implicit Types h : FileHandle L T S.

Lemma fuse_Read_first_round h now dst off n err q w' :
  sched (rw_pipe (fh_buffer h)) = [] -> dst <> [] ->
  rb_Read temp (rw_id (fh_buffer h)) dst off (reader_of (fh_buffer h)) = (Ok (n, err, q), w') ->
  match err with Some e => is_EOF e = false | None => length q = length dst /\ n = Z.of_nat (length dst) end ->
  exists h', fuse_Read already_exists temp now dst off h = (Ok (inl (take (Z.to_nat n) q)), h') /\
    reader_of (fh_buffer h') = w' /\ rw_id (fh_buffer h') = rw_id (fh_buffer h).
Proof.
  intros Hs Hd Hr He. destruct (rw_Read_first_round already_exists temp (fh_buffer h) now dst off n err q w' Hs Hd Hr He) as (b' & E & Hb & Hi & _).
  eexists. split; [|split].
  - unfold fuse_Read, fh_ReadAt. erewrite bind_ok by (unfold on_buffer; rewrite E; reflexivity). reflexivity.
  - exact Hb.
  - exact Hi.
Qed.

(** The kernel reads the file: a read within the file, as the backend has it, returns
    as many bytes as were asked for, and they are the file's bytes at that offset. *)
Theorem fuse_Read_exact h rb c d now dst off :
  goes_on (rw_id (fh_buffer h)) rb c (reader_of (fh_buffer h)) -> rb_alive rb = true -> (0 < rb_blockSize rb)%Z ->
  has_file c (rb_ino rb) (rb_blockSize rb) d -> sched (rw_pipe (fh_buffer h)) = [] -> dst <> [] -> (0 <= off)%Z ->
  (off + Z.of_nat (length dst) <= Z.of_nat (length d))%Z ->
  IsSequentialMode (Monitor off (Z.of_nat (length dst)) (rb_monitor rb)) = true \/ Throttler.IsFull (rw_thr (fh_buffer h)) = false ->
  exists h', fuse_Read already_exists temp now dst off h = (Ok (inl (take (length dst) (drop (Z.to_nat off) d))), h') /\
    goes_on (rw_id (fh_buffer h')) (with_rb_monitor (Monitor off (Z.of_nat (length dst)) (rb_monitor rb)) rb) c (reader_of (fh_buffer h')).
Proof.
  intros Hgo Ha HB Hf Hs Hd Hoff Hlen Hmode.
  destruct (rb_Read_run temp _ c _ rb d dst off Hgo Ha HB Hf Hd Hoff Hlen Hmode) as (w' & Hrun & Hgo').
  assert (Hl : length (take (length dst) (drop (Z.to_nat off) d)) = length dst) by (rewrite length_take, length_drop; lia).
  destruct (fuse_Read_first_round h now dst off _ _ _ w' Hs Hd Hrun (conj Hl eq_refl)) as (h' & E & Hr & Hi).
  exists h'. split; [|by rewrite Hi, Hr]. rewrite E, Nat2Z.id, take_take, Nat.min_id. done.
Qed.

(** C34 A failure looks like the end of the file: when the read buffer fails with an error
    that is not EOF, the kernel gets the bytes read before it, and no error. *)
Theorem fuse_Read_hides_failure h now dst off n e q w' :
  sched (rw_pipe (fh_buffer h)) = [] -> dst <> [] ->
  rb_Read temp (rw_id (fh_buffer h)) dst off (reader_of (fh_buffer h)) = (Ok (n, Some e, q), w') -> is_EOF e = false ->
  exists h', fuse_Read already_exists temp now dst off h = (Ok (inl (take (Z.to_nat n) q)), h').
Proof.
  intros Hs Hd Hr He. destruct (fuse_Read_first_round h now dst off n (Some e) q w' Hs Hd Hr He) as (h' & E & _). by exists h'.
Qed.
End kernel_read.

(** * Locks *)

Record FuseLock := mkFuseLock { fl_Start : N; fl_End : N; fl_Typ : N; fl_Pid : N }.

(** The kinds F_RDLCK, F_WRLCK and F_UNLCK are the same numbers in both; a lock is
    shared when the flags are LOCK_SH, which is 1, and no other flag.  A lock lasts five minutes. *)
Definition fuseLK2pb (owner : N) (lk : FuseLock) (flags : N) (now : Time) : FileLock + Errno :=
  if (fl_Typ lk <=? 2)%N then
    inl (MkFileLock 0 owner (fl_Pid lk) (fl_Start lk) (fl_End lk) (fl_Typ lk) (if (flags =? 1)%N then 0 else 1)%N
           (Z.to_N ((Unix now + 300) mod 2 ^ 64)))
  else inr E_INVAL.

Definition isOverlapLR (l r : FileLock) : bool :=
  ((l_Start r <=? l_Start l) && (l_Start l <=? l_End r) || (l_Start r <=? l_End l) && (l_End l <=? l_End r))%N.
Definition isOverlap (req : FileLock) (locks : list FileLock) : bool := existsb (isOverlapLR req) locks.

Definition with_Ino (ino : N) (l : FileLock) : FileLock :=
  MkFileLock ino (l_Owner l) (l_Pid l) (l_Start l) (l_End l) (l_Kind l) (l_Flag l) (l_ExpireTime l).

Section locks.
Context {P : FileLockCodec}.
Abbreviation SM A := (M svc error A).

Definition GetLks (ino : N) (now : Time) : SM (list FileLock) := retry (fun _ => GetFileLocks ino now).
Definition SetLk (lock : FileLock) : SM unit := retry (fun _ => AcquireFileLock lock).
Definition AcquireLock (ino : N) (lock : FileLock) : SM unit := SetLk (with_Ino ino lock).

(** The lock that is returned when there is no conflict is the request. *)
Definition Getlk (ino owner : N) (lk : FuseLock) (flags : N) (now : Time) : SM (FuseLock + Errno) :=
  r <-? GetLks ino now ;;
  match r with
  | inr _ => ret (inr E_AGAIN)
  | inl locks =>
      match fuseLK2pb owner lk flags now with
      | inr e => ret (inr e)
      | inl req => ret (if isOverlap req locks then inr E_AGAIN else inl lk)
      end
  end.

(** Whether one of the locks is in the way. *)
Definition conflicting (owner : N) (req : FileLock) (locks : list FileLock) : bool :=
  existsb (fun l => negb (l_Owner l =? owner)%N || isOverlapLR req l) locks.
Definition try_lock (ino owner : N) (req : FileLock) (locks : list FileLock) : SM (unit + Errno) :=
  if conflicting owner req locks then ret (inr E_BUSY) else
  r <-? AcquireLock ino req ;;
  ret (match r with inl _ => inl tt | inr _ => inr E_BUSY end).
Definition Setlk (ino owner : N) (lk : FuseLock) (flags : N) (now : Time) : SM (unit + Errno) :=
  match fuseLK2pb owner lk flags now with
  | inr e => ret (inr e)
  | inl req =>
      r <-? GetLks ino now ;;
      match r with
      | inr _ => ret (inr E_BUSY)
      | inl locks => try_lock ino owner req locks
      end
  end.
(** It does not wait.  A context that was cancelled is seen as such. *)
Definition Setlkw (ino owner : N) (lk : FuseLock) (flags : N) (cancelled : error -> bool) (now : Time) : SM (unit + Errno) :=
  match fuseLK2pb owner lk flags now with
  | inr e => ret (inr e)
  | inl req =>
      r <-? GetLks ino now ;;
      match r with
      | inr e =>
          match e with
          | Status c => if bool_decide (c = NotFound) then (if cancelled e then ret (inr E_INTR) else ret (inr E_BUSY)) else ret (inr E_BUSY)
          | _ => if cancelled e then ret (inr E_INTR) else ret (inr E_BUSY)
          end
      | inl locks => try_lock ino owner req locks
      end
  end.
End locks.

(** ** What the locks are worth *)

(** The ranges have a byte in common. *)
Definition overlap (l r : FileLock) : Prop := (l_Start l <= l_End r)%N /\ (l_Start r <= l_End l)%N.

(** The test for overlapping ranges misses those where the request has the other lock
    inside it, and only those. *)
Theorem isOverlapLR_misses l r : (l_Start l <= l_End l)%N -> (l_Start r <= l_End r)%N ->
  isOverlapLR l r = true <-> overlap l r /\ ~ (l_Start l < l_Start r /\ l_End r < l_End l)%N.
Proof.
  intros Hl Hr. unfold isOverlapLR, overlap. rewrite orb_true_iff, !andb_true_iff, !N.leb_le. lia.
Qed.

Section worth.
Context {P : FileLockCodec}.

(** C33 A lock keeps nobody out: whatever locks have been taken on the service, by whoever
    and on whatever ranges, a request of a known kind for any range by any owner is
    granted as long as it can be encoded, and saved. *)
Theorem Setlk_always_granted (taken : list FileLock) ino owner lk flags now (s : svc) :
  (forall k, in_lock_bucket ino k = true -> sview s !! k = None) -> (fl_Typ lk <= 2)%N ->
  (forall l, exists d, encodeFileLock l = inl d) ->
  exists s' l d, Setlk ino owner lk flags now (acquire_all taken s) = (Ok (inl tt), s') /\
    l_Owner l = owner /\ l_Start l = fl_Start lk /\ l_End l = fl_End lk /\ encodeFileLock l = inl d /\
    s' = supd (fileLockKey ino owner (fl_Pid lk)) (Some (BBytes d)) (GetFileLocks ino now (acquire_all taken s)).2.
Proof.
  intros Hs Ht Henc. pose proof (GetFileLocks_finds_none ino now taken s Hs) as Hnone.
  unfold Setlk, fuseLK2pb. rewrite (proj2 (N.leb_le _ _) Ht).
  set (req := MkFileLock 0 owner _ _ _ _ _ _). destruct (Henc (with_Ino ino req)) as [d Hd].
  destruct (GetFileLocks ino now (acquire_all taken s)) as [r s1] eqn:E. cbn [fst snd] in *. subst r.
  eexists _, (with_Ino ino req), d. split_and!; [|done..].
  assert (Eget : GetLks ino now (acquire_all taken s) = (Ok [], s1)) by (unfold GetLks, retry, catch; by rewrite E).
  unfold catch at 1. rewrite Eget. unfold try_lock. cbn [conflicting existsb].
  assert (Eset : AcquireLock ino req s1 = (Ok tt, supd (fileLockKey ino owner (fl_Pid lk)) (Some (BBytes d)) s1)).
  { unfold AcquireLock, SetLk, retry, catch. unfold AcquireFileLock, saveFileLock. rewrite Hd. erewrite bind_run by reflexivity. cbv beta match.
    rewrite Save_run by apply plain_fileLockKey. done. }
  unfold catch. rewrite Eset. done.
Qed.
End worth.

(** * Examples *)

(** A write lock of another owner on the whole range. *)
Lemma Setlk_always_granted_witness : exists s' l d,
  Setlk (P := list_codec) 7 9 (mkFuseLock 0 10 1 4) 2 lock_now (acquire_all (P := list_codec) [lock0] locks_s0) = (Ok (inl tt), s') /\
  l_Owner l = 9%N /\ encodeFileLock (FileLockCodec := list_codec) l = inl d.
Proof.
  destruct (Setlk_always_granted (P := list_codec) [lock0] 7 9 (mkFuseLock 0 10 1 4) 2 lock_now locks_s0)
    as (s' & l & d & H1 & H2 & _ & _ & H3 & _).
  - intros k _. apply lookup_empty.
  - discriminate.
  - intros l. by eexists.
  - exists s', l, d. split; [exact H1|]. split; [exact H2|exact H3].
Defined.
Lemma isOverlapLR_misses_witness :
  isOverlapLR (MkFileLock 7 1 2 0 10 1 1 0) (MkFileLock 7 1 2 3 5 1 1 0) = true <->
  overlap (MkFileLock 7 1 2 0 10 1 1 0) (MkFileLock 7 1 2 3 5 1 1 0) /\ ~ (0 < 3 /\ 5 < 10)%N.
Proof. apply (isOverlapLR_misses (MkFileLock 7 1 2 0 10 1 1 0) (MkFileLock 7 1 2 3 5 1 1 0)); discriminate. Defined.

#[local] Existing Instances copying copying_own.

Definition some_attr (n : Z) : DirtyAttr :=
  let t := {| Unix := 0; Nanosecond := 0 |} in VfsFs.mkDirty 7 t t t 0 n 1 EmptyString 0 0 0 false.
Lemma fuse_Read_exact_witness : exists h' : FileHandle list_lru MemStorageBackend unit,
  fuse_Read never true 0 [x00; x00] 0 (mkFileHandle (opened_handle []) false 2 (some_attr 2) tt) = (Ok (inl [x01; x02]), h').
Proof.
  destruct (fuse_Read_exact (BS := copying_spec 2) never true (mkFileHandle (opened_handle []) false 2 (some_attr 2) tt)
    (mkReadBuffer 7 2 ∅ NewPattern (NewSwapFile 2 2 2 (mkPageContext 2 2 0 1) tt) 0 true false) {[(7%N, 0%N) := [x01; x02]]} [x01; x02] 0 [x00; x00] 0)
    as (h' & Hr & _).
  - eexists tt, _. split; [exact opened_reading|]. split; [reflexivity|]. by split_and!.
  - reflexivity.
  - reflexivity.
  - split; [vm_compute; discriminate|]. intros i Hi. cbn in Hi. assert (i = 0%N) as -> by lia. reflexivity.
  - reflexivity.
  - done.
  - lia.
  - cbn. lia.
  - left. reflexivity.
  - exists h'. exact Hr.
Defined.
Lemma fuse_Read_hides_failure_witness : exists h' : FileHandle list_lru unit unit,
  fuse_Read (SB := down) never true 0 [x00; x00] 0 (mkFileHandle down_handle false 2 (some_attr 2) tt) = (Ok (inl []), h').
Proof.
  eapply (fuse_Read_hides_failure (SB := down) never true (mkFileHandle down_handle false 2 (some_attr 2) tt) 0 [x00; x00] 0 0 (ErrOther "unavailable") [x00; x00]).
  - reflexivity.
  - done.
  - vm_compute. reflexivity.
  - reflexivity.
Defined.
